(* ===== verification/_CoqProject ===== *)
-Q . S2P
Prelude.v
Handles.v
JniNames.v
NativeCall.v
Bytes.v
GuestMemory.v
ElfLoader.v
InitialStack.v
ElfDynamic.v
ElfSymbols.v
ElfFixups.v
HostLooper.v
GuestThread.v
SignalQueue.v
Signals.v
ProcessMemory.v
Kernel.v
ProcFiles.v
SyscallNumbers.v
Syscalls.v
Messages.v
Paths.v
Threads.v
HandleSyscall.v
Dispatch.v
Startup.v
Lifecycle.v
Service.v
HostAssets.v
LibraryService.v
LibraryRuntime.v
JniState.v
JniCalls.v
JniSound.v
JniNative.v
HostWindow.v
HostBitmap.v
HostCallTable.v
HostConfiguration.v
HostInput.v
JniLoader.v
ProxyRuntime.v
GlSizes.v
GlCalls.v
HostGl.v
GlSound.v
HostEgl.v
RuntimeReport.v
HangWatchdog.v
Cp15.v
JniEnv.v
JniEnvBackend.v
