(* ===== verification/Prelude.v ===== *)
(** * ZettaBridge: a verified model of the ARM32-on-ARM64 bridge core

    ** The program

    ZettaBridge runs 32-bit ARM Android code inside a 64-bit process.  Its core, C++ under
    [src/core], is a user-mode process emulator: it reserves a 4 GiB guest address space,
    loads the ARM executable and its dynamic linker, builds the initial stack, and runs each
    guest thread on a JIT (Dynarmic, a submodule).  The JIT reaches memory through callbacks
    and stops at supervisor calls, faults and interrupts.  A stop is a system call, which is
    answered from the process's own state or handed to the host kernel with its pointers
    checked and its structures converted; a host call of a bridge library (JNI, looper, GL);
    or a fault, which becomes a guest signal.  Host code calls guest functions the same way
    in the other direction, with JNI arguments converted between the two calling conventions
    and references exchanged through handle tables.

    ** Files

    Shared:
    - [Prelude]: fixed-width integers, the result type [exec] of C++ code ([Ret], [Aborted]
      for a call of abort, [Undefined] for undefined behaviour), early returns, vectors.
    - [Bytes]: byte buffers of files (little-endian reads and writes with their bounds).

    Memory and loading:
    - [GuestMemory]: [guest_memory.cpp]; page flags and the host reservation.
    - [ElfLoader]: [elf_loader.cpp], [load_elf] split at its loops.
    - [InitialStack]: [initial_stack.cpp].
    - [ElfDynamic], [ElfSymbols], [ElfFixups]: [elf_symbols.cpp] and [elf_fixups.cpp], the
      export scan of an untrusted library and the rewriting of old dynamic tables.

    Threads and signals:
    - [GuestThread]: [guest_thread.cpp]; JIT callbacks, signal queue, run loop, nested calls.
      The JIT is the classes [Jit] and [JitLaws].  [SignalQueue]: the same queue with its
      callers interleaved step by step.
    - [Signals]: [signals.cpp]; frames, sigreturn, faults; [Module Target] is the publication
      of the process signal target, each atomic access a step.
    - [Threads]: the registry of [process.cpp]; [Module Steps] interleaves its locked bodies.

    System calls:
    - [ProcessMemory]: brk, mmap2, munmap, mprotect, madvise and the mapping records of
      [process.cpp]; [Paths]: [translate_path] and [guest_executable_allowed].
    - [Kernel]: guest pointers and strings, host calls (the monad [sysm]).
    - [Syscalls], [Messages], [ProcFiles], [SyscallNumbers]: the calls of [syscalls.cpp] that
      go to the host, sendmsg and recvmsg, the synthetic /proc files, the numbers.
    - [HandleSyscall]: [handle_syscall] as a whole over the state [World] (the monad [wm]).

    The process:
    - [Dispatch]: [dispatch_stop], [fault_or_crash], [after_stop], [thread_loop].
    - [Startup]: the first half of [Process::run].
    - [Lifecycle]: all threads from the start to the return of [Process::run].

    JNI and Android:
    - [Handles]: [jni/handles.cpp]; [JniNames]: [shorty.cpp], [descriptor.cpp], [mangle.cpp];
      [NativeCall]: [native_call.cpp].
    - [JniState], [JniCalls]: the bridge of [jni/host_jni*.cpp] and [native_thunks.cpp], its
      state and its host calls; [JniNative]: [call_native], the loader calls and the thunk
      dispatcher; [JniSound]: their theorems.
    - [JniLoader]: [jni/loader.cpp]; [ProxyRuntime]: [jni/proxy_runtime.cpp], a step relation
      over the threads that load proxies.
    - [JniEnv], [JniEnvBackend]: [core/android/jni_env_backend.cpp], the Java side of the
      bridge, over an environment with the rules of the JNI specification.
    - [LibraryService], [LibraryRuntime]: [library_runtime.cpp], its requests to the guest as
      programs, and its threads, carriers and wake-ups as a step relation.
    - [HostLooper]: [android/host_looper.cpp].
    - [HostAssets], [HostWindow], [HostBitmap], [HostInput], [HostConfiguration] (with
      [host_platform_compat.cpp]): the services of [assets] and [android]; [HostCallTable]:
      [gen/hostcalls.inc].

    Graphics:
    - [GlSizes]: the size computations of [gl/gl_manual.cpp].
    - [GlCalls]: the generated cases of [gen/gl_dispatch.inc] as a table; [HostGl]:
      [host_gl.cpp], [gl_manual.cpp] and the interpreter of that table; [GlSound]: theorems.
    - [HostEgl]: [gl/host_egl.cpp], [gl/egl_manual.cpp] and [gen/egl_dispatch.inc].

    Host services share [Service]: the monad [svc] over the object's state, guest memory and
    the log of backend calls, its weakest preconditions [wp], and guest strings.

    Diagnostics and the processor:
    - [RuntimeReport]: [runtime_report.cpp]; [HangWatchdog]: [hang_watchdog.cpp].
    - [Cp15]: [cp15.cpp].

    ** Interfaces

    [HandleTable] (what a handle table promises its clients), [Jit], [JitLaws] and
    [JitControl] (what the code relies on of the JIT: its register accessors, and that
    requests to halt and to drop code leave the registers alone), [FileSystem] and [Env]
    (what the host answers), [mm_step] and [mem_step] (histories of calls), [gives] and
    [safe] (programs over guest memory), [keeps], [quiet] and [listing] (programs over the
    process).  A service's contract with its backend is a predicate on the calls of its log,
    given the calls before them; [JniSound.keeps] is what code that runs inside a JNI call
    may do, and what every call and native method is shown to respect.

    ** What the theorems show

    - The process as a whole: [process_life_sound] (any order of turns and host signals,
      from any files: the invariant, no guest code after an exit, the returned status, never
      stuck but at the one system call that may fault), built on [handle_syscall_sound],
      [thread_loop_sound] and [run_setup_sound]; faults ([fault_or_crash_exact]).
    - Memory: flags and host protection agree on every page that no refused host call has
      torn, and no page is ever executable on the host ([memory_history_safe],
      [mutators_exact]); a page of a file that may not be executed never becomes executable
      for the guest, unless a sealing follows a file mapping of all 4 GiB
      ([foreign_never_executable]).
    - Untrusted files: [load_elf_safe], [load_elf_image], [scan_exports_exact],
      [fix_guest_library_exact]: no read or write outside the file or the tables, and the
      result exactly as specified; [initial_stack_layout] and [initial_stack_fits].
    - System calls: every call returns and hands the kernel checked memory only, but a
      sendmsg whose control messages wrap a 32-bit sum ([syscalls_safe]); strings, structures, control messages, sizes and /proc files are
      exact ([guest_cstr_exact], [guest_layouts], [control_roundtrip], [sysinfo_unit_exact],
      [maps_exact]); guest paths stay in the sysroot ([translate_path_confined]) and only
      its files may be executed ([guest_executable_allowed_exact]).
    - Threads and signals: [guest_access_checked], [call_exact], [signal_queue_interleaved],
      [deliver_signal_exact], [signal_roundtrip], [dispatch_terminates],
      [retired_target_unreachable], [processor_ids_exclusive], [registry_calls_refine],
      [borrower_hands_over].
    - JNI: stale handles stay invalid ([local_stale_never_valid]), the global table refines a
      finite map ([global_refines_abstract]), signatures and names are parsed exactly
      ([shorty_from_signature_spec], [decode_mangled_export]), arguments are laid out as the
      calling conventions ask ([marshal_native_args_layout],
      [accepted_signature_never_aborts]).
    - The JNI bridge at any depth of nesting: [jni_call_sound], [call_native_restores]; the
      loader binds exactly the declared natives it resolves, runs JNI_OnLoad and reports both
      exactly ([jni_load_sound]); a proxy is
      loaded once and its outcome is final, and a thread waits only for another's load or
      start, or for a start that it makes itself
      ([proxy_loads_once], [proxy_outcomes_final], [proxy_waits_justified]).
    - The Java side keeps the rules of JNI on every path, exceptions included
      ([declared_natives_disciplined], [env_operations_disciplined]).
    - The library runtime: commands are answered once, a carrier has one lease, no wake-up is
      lost ([commands_answered_once], [lease_exclusive], [no_lost_wakeup]); every request of
      the guest ends with an answer or an error ([execute_sound]).
    - Loopers: [looper_bindings_exact], [poll_once_exact].
    - Host services: for any registers a call is answered, changes r0 and r1 alone, touches
      checked guest memory only, and keeps its tables equal to what the backend was told
      ([assets_call_sound], [window_call_sound], [bitmap_call_sound], [config_call_sound],
      [input_call_sound]).
    - Graphics: the same for GLES, but a glShaderSource without an array, and for EGL with the
      contracts of the driver ([gl_call_sound], [egl_call_sound]); the vertices of a draw are
      checked up to the largest index of the guest's own indices, or up to the count
      ([gl_draw_covered]); image sizes are exact ([gl_pixel_bytes_exact]).
    - Diagnostics: the report is bounded and can be read back line by line, its file is never
      torn ([report_readable], [report_file_whole]); the watchdog's table and reports
      ([watchdog_slots], [watchdog_reports]).
    - Coprocessor: [guest_writes_tpidrurw_only], [counter_monotone].

    ** Bounds and fuel

    [guest_cstr] and [build_maps] visit at most [2^20] pages, the size of the guest space.
    [dispatch_pending_signals] has fuel 65 for 64 signals, shown sufficient by
    [dispatch_terminates]; [hand_over] the same.  Control messages take at least 12 bytes in
    the guest and 16 in the host, so a buffer's length bounds their loops.  The unit loops of
    sysinfo double at most 33 times.  [parse_type] recurses at most the length of the text.
    [thread_loop], [turn] and [run] take fuel for runs of the JIT, which need not end: the
    theorems hold for every fuel, and every stop that is reached is handled.  A guest string
    of a host call is read for as many pages as its limit spans and one more; the attribute
    lists of EGL have at most 512 words.  [lines] has at most 994 lines, the sum of the
    limits of its lists.

    ** Hypotheses

    - The kernel writes only into the buffers it was given for writing ([kernel_ok]), returns
      well-formed control messages ([recv_ok]) and refuses mappings of [2^57] bytes and more
      ([huge_refused]).  What a refused mmap or mprotect leaves of its pages is arbitrary in
      [GuestMemory]; the files above it take a kernel whose refused calls change nothing
      ([atomic]).
    - A run of the JIT does what its callbacks allow ([jit_ok]); the embedding program's
      host-call handler keeps the invariant ([handler_ok]) and unregisters no thread.
    - No system call is excluded.  A sendmsg whose control messages wrap a 32-bit sum is the
      other case of the conclusions ([send_fits] is false, [wrapping_sendmsg],
      [at_bad_send], [bad_turn]; [control_wrap_leaves_buffer] is an instance).  An mmap2 of a
      file over all 4 GiB is in the histories of [ProcessMemory]; what fails after one is a
      later sealing ([sealing_after_file_everywhere]).
    - Host memory, new threads and descriptors: whether the host grants a request is a
      parameter everywhere, the address of a new thread is one not in use.
    - A backend writes into the guest memory it was handed only; what guest and Java code do
      inside a call is arbitrary but for named conditions.  For JNI ([guest_keeps],
      [natives_keep]) they leave the bridge's tables to host calls and native methods, which
      are shown to keep them, and the guest keeps the blocks of buffer mirrors mapped and its
      malloc answers with usable memory, which the code does not check
      ([mirror_copy_unchecked]).  The guest's malloc and free make no asset calls
      ([allocator_quiet], see [nested_buffer_counts_twice]) and no GLES calls
      ([gl_guest_ok]).
    - A JNI function that throws answers null, and an object has a class ([object_has_class]).
    - Live mappings, bound buffers and pixel alignments of GLES are those of the calls in the
      log that [GlSound] reads: glMapBuffer, glUnmapBuffer, glBindBuffer and glPixelStorei.
      Deleting buffers and binding or deleting vertex arrays make the bound buffer unknown
      there until the next glBindBuffer, and nothing is claimed of addresses meanwhile; the
      code goes on with its record ([deleted_buffer_stays_bound]).  That a deleted buffer or
      another context ends a mapping is followed by neither.
    - EGL sync objects, images, native pixmaps and native displays reach the driver as words
      of the guest ([raw_args]); the other objects as those behind their handles.
    - Names of functions and libraries in the report have no control characters
      ([names_clean]).

    ** Not modelled

    - Interleavings inside a turn: a system call of one thread is one step of [Lifecycle].
      Where the source protects shared state by a mutex or by atomics the file of that state
      interleaves the protected bodies ([Threads.Steps], [Signals.Target], [HostLooper]), and
      [SignalQueue] the words of an unprotected copy; the files above use [post_signal] and
      [take_signal] of [GuestThread] as one step each, which is a run of [SignalQueue] in
      which nobody interferes ([post_alone], [take_alone]).
    - The services follow one thread at a time: other threads appear as what guest code may
      do to the object while it runs, and in the step relations of [LibraryRuntime],
      [ProxyRuntime], [HostLooper] and [HangWatchdog].
    - Of the thunks of [native_thunks.cpp] the machine code; of the watchdog the text of its
      notes and the census of threads, which are read from /proc.
    - [gl_diagnostics.cpp] (debug captures of frames and driver state into files, no effect
      on the guest), the log, the NDK backends of [core/android] (one-to-one forwarding), the entry points of the launcher, the C stubs that run inside the guest,
      and the Java launcher. *)

From stdpp Require Import numbers strings gmap list.

Declare Scope zb_scope.
Delimit Scope zb_scope with zb.

(** ** Fixed-width integers *)

Section Words.
Local Open Scope Z_scope.

(** Conversions to the unsigned C++ types: [static_cast<std::uintN_t>]. *)
Definition u8 (z : Z) : Z := z mod 2 ^ 8.
Definition u16 (z : Z) : Z := z mod 2 ^ 16.
Definition u32 (z : Z) : Z := z mod 2 ^ 32.
Definition u64 (z : Z) : Z := z mod 2 ^ 64.

(** Conversions to the signed C++ types: [static_cast<std::intN_t>]
    (two's complement). *)
Definition swrap (w : Z) (z : Z) : Z := (z + 2 ^ (w - 1)) mod 2 ^ w - 2 ^ (w - 1).
Definition s8 (z : Z) : Z := swrap 8 z.
Definition s16 (z : Z) : Z := swrap 16 z.
Definition s32 (z : Z) : Z := swrap 32 z.
Definition s64 (z : Z) : Z := swrap 64 z.

Lemma u8_range z : 0 <= u8 z < 2 ^ 8.
Proof. apply Z.mod_pos_bound. lia. Qed.
Lemma u16_range z : 0 <= u16 z < 2 ^ 16.
Proof. apply Z.mod_pos_bound. lia. Qed.
Lemma u32_range z : 0 <= u32 z < 2 ^ 32.
Proof. apply Z.mod_pos_bound. lia. Qed.
Lemma u64_range z : 0 <= u64 z < 2 ^ 64.
Proof. apply Z.mod_pos_bound. lia. Qed.

Lemma u8_small z : 0 <= z < 2 ^ 8 -> u8 z = z.
Proof. apply Z.mod_small. Qed.
Lemma u16_small z : 0 <= z < 2 ^ 16 -> u16 z = z.
Proof. apply Z.mod_small. Qed.
Lemma u32_small z : 0 <= z < 2 ^ 32 -> u32 z = z.
Proof. apply Z.mod_small. Qed.
Lemma u64_small z : 0 <= z < 2 ^ 64 -> u64 z = z.
Proof. apply Z.mod_small. Qed.

Lemma swrap_range w z : 0 < w -> - 2 ^ (w - 1) <= swrap w z < 2 ^ (w - 1).
Proof.
  intros Hw. unfold swrap.
  assert (2 ^ w = 2 * 2 ^ (w - 1)) as Hp.
  { rewrite <- Z.pow_succ_r by lia. f_equal. lia. }
  pose proof (Z.mod_pos_bound (z + 2 ^ (w - 1)) (2 ^ w)).
  pose proof (Z.pow_pos_nonneg 2 (w - 1)). lia.
Qed.

Lemma swrap_mod w z : 0 < w -> swrap w z mod 2 ^ w = z mod 2 ^ w.
Proof.
  intros Hw. unfold swrap.
  rewrite Zminus_mod_idemp_l. f_equal. lia.
Qed.

Lemma swrap_small w z : 0 < w -> - 2 ^ (w - 1) <= z < 2 ^ (w - 1) -> swrap w z = z.
Proof.
  intros Hw Hz. unfold swrap.
  assert (2 ^ w = 2 * 2 ^ (w - 1)) as Hp.
  { rewrite <- Z.pow_succ_r by lia. f_equal. lia. }
  rewrite Z.mod_small; lia.
Qed.

(** Combining disjoint bit fields with [|] is addition. *)
Lemma lor_shiftl_add a b n :
  0 <= n -> 0 <= b < 2 ^ n -> Z.lor (Z.shiftl a n) b = a * 2 ^ n + b.
Proof.
  intros Hn Hb. rewrite <- Z.shiftl_mul_pow2 by done.
  symmetry. apply Z.add_nocarry_lor, Z.bits_inj'. intros i Hi.
  rewrite Z.land_spec, Z.bits_0, Z.shiftl_spec by done.
  destruct (decide (i < n)).
  - by rewrite Z.testbit_neg_r by lia.
  - destruct (decide (b = 0)) as [->|]; [by rewrite Z.bits_0, andb_false_r|].
    rewrite (Z.bits_above_log2 b i), andb_false_r; [done|lia|].
    assert (Z.log2 b < n) by (apply Z.log2_lt_pow2; lia). lia.
Qed.

Lemma land_ones_mod a n : 0 <= n -> Z.land a (2 ^ n - 1) = a mod 2 ^ n.
Proof.
  intros. rewrite <- Z.land_ones by done. f_equal. rewrite Z.ones_equiv. lia.
Qed.

(** Clearing the low [n] bits rounds down to a multiple of [2^n]. *)
Lemma ldiff_low_bits a n : 0 <= n -> Z.ldiff a (2 ^ n - 1) = a / 2 ^ n * 2 ^ n.
Proof.
  intros. replace (2 ^ n - 1) with (Z.ones n) by (rewrite Z.ones_equiv; lia).
  rewrite Z.ldiff_ones_r by done. rewrite Z.shiftl_mul_pow2, Z.shiftr_div_pow2; done.
Qed.

(** The same with the mask cut to [w] bits, as C++ computes [a & ~mask]. *)
Lemma land_clear_low a w n :
  0 <= w -> 0 <= n -> 0 <= a < 2 ^ w -> Z.land a (Z.lnot (2 ^ n - 1) mod 2 ^ w) = a / 2 ^ n * 2 ^ n.
Proof.
  intros Hw Hn Ha. rewrite <- Z.land_ones, Z.land_assoc by done.
  rewrite <- Z.ldiff_land, ldiff_low_bits by done.
  rewrite Z.land_ones by done. apply Z.mod_small.
  pose proof (Z.pow_pos_nonneg 2 n). pose proof (Z.mul_div_le a (2 ^ n)). pose proof (Z.div_pos a (2 ^ n)). nia.
Qed.

(** Bitwise operations stay in their width. *)
Lemma bits_range v n : 0 <= n -> 0 <= v -> (forall k, n <= k -> Z.testbit v k = false) -> 0 <= v < 2 ^ n.
Proof.
  intros Hn Hv Hb. split; [done|]. destruct (decide (v = 0)) as [->|]; [by apply Z.pow_pos_nonneg|].
  apply Z.log2_lt_pow2; [lia|]. destruct (decide (Z.log2 v < n)); [done|].
  specialize (Hb (Z.log2 v) ltac:(lia)). rewrite Z.bit_log2 in Hb by lia. done.
Qed.

Lemma testbit_above v n k : 0 <= v < 2 ^ n -> n <= k -> Z.testbit v k = false.
Proof.
  intros Hv Hk. destruct (decide (v = 0)) as [->|]; [apply Z.bits_0|]. apply Z.bits_above_log2; [lia|].
  assert (Z.log2 v < n) by (apply Z.log2_lt_pow2; lia). lia.
Qed.

Lemma lor_range a b n : 0 <= n -> 0 <= a < 2 ^ n -> 0 <= b < 2 ^ n -> 0 <= Z.lor a b < 2 ^ n.
Proof.
  intros Hn Ha Hb. apply bits_range; [done|apply Z.lor_nonneg; lia|]. intros k Hk.
  by rewrite Z.lor_spec, (testbit_above a n), (testbit_above b n).
Qed.

Lemma land_range a b n : 0 <= n -> 0 <= a < 2 ^ n -> 0 <= b -> 0 <= Z.land a b < 2 ^ n.
Proof.
  intros Hn Ha Hb. apply bits_range; [done|apply Z.land_nonneg; lia|]. intros k Hk. by rewrite Z.land_spec, (testbit_above a n).
Qed.

Lemma testbit_wrap w z k : 0 <= k < w -> Z.testbit (z mod 2 ^ w) k = Z.testbit z k.
Proof. intros. apply Z.mod_pow2_bits_low. lia. Qed.

End Words.

Create HintDb zb.
#[export] Hint Resolve u8_range u16_range u32_range u64_range : zb.

(** ** Outcomes of C++ code *)

(** [Ret] is a normal return, [Aborted] a call to [std::abort], and [Undefined]
    an access outside a vector or a buffer, which C++ leaves undefined. *)
Inductive exec (A : Type) : Type :=
| Ret (a : A)
| Aborted
| Undefined.
Arguments Ret {A} a.
Arguments Aborted {A}.
Arguments Undefined {A}.

#[global] Instance exec_ret : MRet exec := fun A a => Ret a.
#[global] Instance exec_bind : MBind exec := fun A B f m =>
  match m with
  | Ret a => f a
  | Aborted => Aborted
  | Undefined => Undefined
  end.
#[global] Instance exec_fmap : FMap exec := fun A B f m =>
  match m with
  | Ret a => Ret (f a)
  | Aborted => Aborted
  | Undefined => Undefined
  end.

(** Nothing undefined happens. *)
Definition defined {A} (m : exec A) : Prop := m <> Undefined.

Lemma exec_bind_Ret {A B} (m : exec A) (f : A -> exec B) b :
  (m ≫= f) = Ret b <-> exists a, m = Ret a /\ f a = Ret b.
Proof. destruct m; simpl; naive_solver. Qed.

Lemma exec_ret_bind {A B} (a : A) (f : A -> exec B) : (Ret a ≫= f) = f a.
Proof. done. Qed.

Lemma exec_bind_assoc {A B C} (m : exec A) (f : A -> exec B) (g : B -> exec C) :
  ((m ≫= f) ≫= g) = (m ≫= fun a => f a ≫= g).
Proof. by destruct m. Qed.

(** ** Early returns *)

(** A block that may return from its function with [inl]; [let?] runs the rest only
    when it did not. *)
Definition early (E A : Type) : Type := exec (E + A).

Definition early_bind {E A B} (m : early E A) (f : A -> early E B) : early E B :=
  match m with
  | Ret (inl e) => Ret (inl e)
  | Ret (inr a) => f a
  | Aborted => Aborted
  | Undefined => Undefined
  end.

Notation "'let?' x := m 'in' k" := (early_bind m (fun x => k))
  (at level 200, x name, m at level 200, k at level 200, right associativity) : zb_scope.

(** The block returns [e] early when [b] holds. *)
Definition stop_if {E} (b : bool) (e : E) : early E unit := Ret (if b then inl e else inr tt).

(** A computation that cannot return early. *)
Definition lift {E A} (m : exec A) : early E A := inr <$> m.

(** The value a block returns, whichever way it returns. *)
Definition run_block {A} (m : early A A) : exec A :=
  match m with
  | Ret (inl a) | Ret (inr a) => Ret a
  | Aborted => Aborted
  | Undefined => Undefined
  end.

(** The block returns: early with a value that satisfies [Q], or with one that
    satisfies [P]. *)
Definition returns {E A} (Q : E -> Prop) (m : early E A) (P : A -> Prop) : Prop :=
  exists r, m = Ret r /\ match r with inl e => Q e | inr a => P a end.

Lemma returns_bind {E A B} Q (m : early E A) (f : A -> early E B) (P : A -> Prop) (P' : B -> Prop) :
  returns Q m P -> (forall a, P a -> returns Q (f a) P') -> returns Q (early_bind m f) P'.
Proof. intros (r & -> & Hr) Hf. destruct r as [e|a]; simpl; [by exists (inl e)|by apply Hf, Hr]. Qed.

Lemma returns_stop {E} (Q : E -> Prop) (b : bool) (e : E) (P : unit -> Prop) :
  Q e -> (b = false -> P tt) -> returns Q (stop_if b e) P.
Proof. intros He H. eexists. split; [done|]. destruct b; [done|]. by apply H. Qed.

Lemma returns_lift {E A} (Q : E -> Prop) (m : exec A) (P : A -> Prop) :
  (exists a, m = Ret a /\ P a) -> returns Q (lift m) P.
Proof. intros (a & -> & H). by exists (inr a). Qed.

Lemma returns_ret {E A} (Q : E -> Prop) (a : A) (P : A -> Prop) : P a -> returns Q (Ret (inr a)) P.
Proof. intros H. by exists (inr a). Qed.

Lemma returns_stopped {E A} (Q : E -> Prop) (e : E) (P : A -> Prop) : Q e -> returns Q (Ret (inl e)) P.
Proof. intros H. by exists (inl e). Qed.

Lemma returns_mono {E A} (Q : E -> Prop) (m : early E A) (P P' : A -> Prop) :
  returns Q m P -> (forall a, P a -> P' a) -> returns Q m P'.
Proof. intros (r & -> & H) HPQ. exists r. split; [done|]. destruct r; auto. Qed.

Lemma run_block_returns {A} (P : A -> Prop) (m : early A A) : returns P m P -> exists a, run_block m = Ret a /\ P a.
Proof. intros ([e|a] & -> & H); eexists; by split. Qed.

Lemma early_bind_Ret {E A B} (m : early E A) (f : A -> early E B) b :
  early_bind m f = Ret (inr b) <-> exists a, m = Ret (inr a) /\ f a = Ret (inr b).
Proof.
  destruct m as [[e|a]| |]; simpl; split; try done; try (by intros (? & ? & ?)).
  - intros H. by exists a.
  - by intros (? & [= ->] & ?).
Qed.

Lemma stop_if_inr {E} b (e : E) x : stop_if b e = Ret (inr x) <-> b = false.
Proof. unfold stop_if. destruct b; split; try done. by destruct x. Qed.

Lemma lift_inr {E A} (m : exec A) a : (lift m : early E A) = Ret (inr a) -> m = Ret a.
Proof. unfold lift. destruct m; simpl; try done. by intros [= ->]. Qed.

#[export] Hint Resolve returns_stopped returns_ret : zb.

(** [lia] on hypotheses that [returns_bind] leaves as applied predicates. *)
Ltac blia := cbv beta in *; lia.

(** ** Vectors *)

(** [v[i]] and [v[i] = x] on a [std::vector]; out of range is undefined. *)
Definition vec_at {A} (v : list A) (i : nat) : exec A :=
  match v !! i with
  | Some x => Ret x
  | None => Undefined
  end.

Definition vec_set {A} (v : list A) (i : nat) (x : A) : exec (list A) :=
  if decide (i < length v)%nat then Ret (<[i := x]> v) else Undefined.

Lemma vec_at_Ret {A} (v : list A) i x : vec_at v i = Ret x <-> v !! i = Some x.
Proof. unfold vec_at. destruct (v !! i); naive_solver. Qed.

Lemma vec_at_lt {A} (v : list A) i :
  (i < length v)%nat -> exists x, v !! i = Some x /\ vec_at v i = Ret x.
Proof.
  intros Hi. destruct (lookup_lt_is_Some_2 v i Hi) as [x Hx].
  exists x. by rewrite vec_at_Ret.
Qed.

Lemma vec_set_lt {A} (v : list A) i x :
  (i < length v)%nat -> vec_set v i x = Ret (<[i := x]> v).
Proof. intros. unfold vec_set. by rewrite decide_True. Qed.

(** Rewriting with the vector accessors once their index is known good. *)
Ltac vec_simpl :=
  repeat match goal with
  | H : ?v !! ?i = Some ?x |- context [vec_at ?v ?i] =>
      rewrite (proj2 (vec_at_Ret v i x) H); simpl
  | |- context [vec_set ?v ?i ?x] =>
      rewrite (vec_set_lt v i x) by (simpl; eauto using lookup_lt_Some with lia); simpl
  end.

(** The same without simplifying the rest of the goal. *)
Ltac vec_step :=
  repeat first
  [ match goal with
    | H : ?v !! ?i = Some ?x |- context [vec_at ?v ?i] => rewrite (proj2 (vec_at_Ret v i x) H)
    end
  | rewrite exec_ret_bind; cbv beta iota ].
