(* ===== verification/Handles.v ===== *)
(** * JNI handle tables

    The guest sees 32-bit handles for the host's 64-bit JNI references.  This
    file models [core/include/zb/jni_handles.h] and [core/src/jni/handles.cpp]:
    the handle encoding, [LocalHandles] (one per host thread, a stack of
    frames), [GlobalHandles] (process wide, slots reused through a free list)
    and [IdTable] (interned method and field ids).  Each public method is one
    definition; a method that takes the table's mutex is one atomic step.

    The interface between the tables and their clients is the class
    [HandleTable]: handles resolve to what was added, other handles are not
    disturbed, and a handle that was given back never resolves again. *)

From stdpp Require Import numbers strings gmap list.
From S2P Require Import Prelude.
Local Open Scope Z_scope.

(** ** Handle encoding *)

Inductive HandleKind := Local | Global | WeakGlobal.

#[global] Instance HandleKind_eq_dec : EqDecision HandleKind.
Proof. solve_decision. Defined.

(** [static_cast<std::uint32_t>(kind)]. *)
Definition kind_bits (k : HandleKind) : Z :=
  match k with Local => 1 | Global => 2 | WeakGlobal => 3 end.

Definition kMaxSlots : Z := Z.shiftl 1 18.
Definition kRetiredSerial : Z := Z.shiftl 1 12.

Definition make_handle (kind : HandleKind) (slot serial : Z) : Z :=
  Z.lor (Z.lor (u32 (Z.shiftl slot 14)) (u32 (Z.shiftl (Z.land serial 4095) 2)))
        (kind_bits kind).

Definition handle_index (handle : Z) : Z := Z.shiftr handle 14.

Definition handle_serial (handle : Z) : Z := Z.land (Z.shiftr handle 2) 4095.

Definition handle_kind (handle : Z) : option HandleKind :=
  let bits := Z.land handle 3 in
  if bits =? 0 then None
  else if bits =? 1 then Some Local
  else if bits =? 2 then Some Global
  else Some WeakGlobal.

(** The vector position a handle names. *)
Definition handle_slot (handle : Z) : nat := Z.to_nat (handle_index handle).

(** ** LocalHandles *)

(** [frame_starts_] is kept with its back first. *)
Record LocalHandles := {
  refs_ : list Z;
  serials_ : list Z;
  frame_starts_ : list nat;
  retired_prefix_ : nat;
}.

Definition LocalHandles_init : LocalHandles :=
  {| refs_ := []; serials_ := []; frame_starts_ := []; retired_prefix_ := 0 |}.

(** [while (i < serials_.size() && serials_[i] == kRetiredSerial) ++i]. *)
Fixpoint skip_retired (fuel : nat) (serials : list Z) (i : nat) : nat :=
  match fuel with
  | O => i
  | S fuel' =>
      match serials !! i with
      | Some v => if v =? kRetiredSerial then skip_retired fuel' serials (S i) else i
      | None => i
      end
  end.

(** [while (refs_.size() > floor && refs_.back() == 0) refs_.pop_back()]. *)
Fixpoint trim_back (fuel floor : nat) (refs : list Z) : list Z :=
  match fuel with
  | O => refs
  | S fuel' =>
      if decide (floor < length refs)%nat then
        match last refs with
        | Some r => if r =? 0 then trim_back fuel' floor (take (length refs - 1) refs)
                    else refs
        | None => refs
        end
      else refs
  end.

Definition LocalHandles_push_frame (t : LocalHandles) : LocalHandles :=
  {| refs_ := refs_ t; serials_ := serials_ t;
     frame_starts_ := length (refs_ t) :: frame_starts_ t;
     retired_prefix_ := retired_prefix_ t |}.

(** [if (serials_[i] < kRetiredSerial) ++serials_[i]]. *)
Definition bump_serial (serials : list Z) (i : nat) : exec (list Z) :=
  v ← vec_at serials i;
  if v <? kRetiredSerial then vec_set serials i (u16 (v + 1)) else Ret serials.

(** The loop of [pop_frame] over the slots of the frame. *)
Fixpoint pop_frame_loop (n i : nat) (refs serials released : list Z)
    : exec (list Z * list Z) :=
  match n with
  | O => Ret (released, serials)
  | S n' =>
      r ← vec_at refs i;
      let released' := if r =? 0 then released else released ++ [r] in
      serials' ← bump_serial serials i;
      pop_frame_loop n' (S i) refs serials' released'
  end.

Definition LocalHandles_pop_frame (t : LocalHandles) : exec (list Z * LocalHandles) :=
  match frame_starts_ t with
  | [] => Ret ([], t)
  | start :: rest =>
      '(released, serials) ←
        pop_frame_loop (length (refs_ t) - start) start (refs_ t) (serials_ t) [];
      Ret (released,
           {| refs_ := resize start 0 (refs_ t);
              serials_ := serials;
              frame_starts_ := rest;
              retired_prefix_ := skip_retired (length serials) serials (retired_prefix_ t) |})
  end.

Definition LocalHandles_add (t : LocalHandles) (host_ref : Z) : exec (Z * LocalHandles) :=
  if host_ref =? 0 then Ret (0, t)
  else
    let t := match frame_starts_ t with [] => LocalHandles_push_frame t | _ => t end in
    let index := skip_retired (length (serials_ t)) (serials_ t)
                   (length (refs_ t) `max` retired_prefix_ t) in
    if decide (kMaxSlots <= Z.of_nat index) then Aborted
    else
      let '(serial, serials) :=
        match serials_ t !! index with
        | Some serial => (serial, serials_ t)
        | None => (0, serials_ t ++ [0])
        end in
      refs ← vec_set (resize (index + 1) 0 (refs_ t)) index host_ref;
      Ret (make_handle Local (Z.of_nat index) serial,
           {| refs_ := refs; serials_ := serials;
              frame_starts_ := frame_starts_ t;
              retired_prefix_ := retired_prefix_ t |}).

Definition LocalHandles_get (t : LocalHandles) (handle : Z) : exec (option Z) :=
  if handle =? 0 then Ret (Some 0)
  else if decide (handle_kind handle <> Some Local) then Ret None
  else
    let index := handle_slot handle in
    match refs_ t !! index with
    | None => Ret None
    | Some r =>
        if r =? 0 then Ret None
        else
          serial ← vec_at (serials_ t) index;
          if handle_serial handle =? serial then Ret (Some r) else Ret None
    end.

Definition LocalHandles_remove (t : LocalHandles) (handle : Z)
    : exec (option Z * LocalHandles) :=
  if handle =? 0 then Ret (Some 0, t)
  else
    ref ← LocalHandles_get t handle;
    match ref with
    | None => Ret (None, t)
    | Some r =>
        let index := handle_slot handle in
        refs ← vec_set (refs_ t) index 0;
        serials ← bump_serial (serials_ t) index;
        let floor := match frame_starts_ t with [] => O | start :: _ => start end in
        Ret (Some r,
             {| refs_ := trim_back (length refs) floor refs;
                serials_ := serials;
                frame_starts_ := frame_starts_ t;
                retired_prefix_ := retired_prefix_ t |})
    end.

Definition LocalHandles_frame_count (t : LocalHandles) : nat := length (frame_starts_ t).

(** ** GlobalHandles *)

(** [free_] is kept with its back first. *)
Record GlobalHandles := {
  kind_ : HandleKind;
  grefs_ : list Z;
  gserials_ : list Z;
  free_ : list nat;
}.

Definition GlobalHandles_init (kind : HandleKind) : GlobalHandles :=
  {| kind_ := kind; grefs_ := []; gserials_ := []; free_ := [] |}.

Definition GlobalHandles_add (t : GlobalHandles) (host_ref : Z) : exec (Z * GlobalHandles) :=
  if host_ref =? 0 then Ret (0, t)
  else
    match free_ t with
    | index :: rest =>
        refs ← vec_set (grefs_ t) index host_ref;
        serial ← vec_at (gserials_ t) index;
        Ret (make_handle (kind_ t) (Z.of_nat index) serial,
             {| kind_ := kind_ t; grefs_ := refs; gserials_ := gserials_ t; free_ := rest |})
    | [] =>
        if decide (kMaxSlots <= Z.of_nat (length (grefs_ t))) then Aborted
        else
          Ret (make_handle (kind_ t) (Z.of_nat (length (grefs_ t))) 0,
               {| kind_ := kind_ t; grefs_ := grefs_ t ++ [host_ref];
                  gserials_ := gserials_ t ++ [0]; free_ := [] |})
    end.

Definition GlobalHandles_get (t : GlobalHandles) (handle : Z) : exec (option Z) :=
  if handle =? 0 then Ret (Some 0)
  else if decide (handle_kind handle <> Some (kind_ t)) then Ret None
  else
    let index := handle_slot handle in
    match grefs_ t !! index with
    | None => Ret None
    | Some r =>
        if r =? 0 then Ret None
        else
          serial ← vec_at (gserials_ t) index;
          if handle_serial handle =? serial then Ret (Some r) else Ret None
    end.

Definition GlobalHandles_remove (t : GlobalHandles) (handle : Z)
    : exec (option Z * GlobalHandles) :=
  if handle =? 0 then Ret (Some 0, t)
  else if decide (handle_kind handle <> Some (kind_ t)) then Ret (None, t)
  else
    let index := handle_slot handle in
    match grefs_ t !! index with
    | None => Ret (None, t)
    | Some r =>
        if r =? 0 then Ret (None, t)
        else
          serial ← vec_at (gserials_ t) index;
          if handle_serial handle =? serial then
            refs ← vec_set (grefs_ t) index 0;
            serials ← vec_set (gserials_ t) index (u16 (serial + 1));
            Ret (Some r,
                 {| kind_ := kind_ t; grefs_ := refs; gserials_ := serials;
                    free_ := if u16 (serial + 1) <? kRetiredSerial
                             then index :: free_ t else free_ t |})
          else Ret (None, t)
    end.

(** ** IdTable *)

Record IdTable := {
  ids_ : list Z;
  index_ : gmap Z Z;
}.

Definition IdTable_init : IdTable := {| ids_ := []; index_ := ∅ |}.

Definition IdTable_intern (t : IdTable) (host_id : Z) : Z * IdTable :=
  if host_id =? 0 then (0, t)
  else
    match index_ t !! host_id with
    | Some id => (id, t)
    | None =>
        let ids := ids_ t ++ [host_id] in
        let id := u32 (Z.of_nat (length ids)) in
        (id, {| ids_ := ids; index_ := <[host_id := id]> (index_ t) |})
    end.

Definition IdTable_get (t : IdTable) (id : Z) : exec (option Z) :=
  if id =? 0 then Ret (Some 0)
  else if decide (Z.of_nat (length (ids_ t)) < id) then Ret None
  else Some <$> vec_at (ids_ t) (Z.to_nat (id - 1)).

(** ** Lemmas: the encoding *)

Lemma kind_bits_range k : 1 <= kind_bits k <= 3.
Proof. destruct k; simpl; lia. Qed.

Lemma make_handle_value k slot serial :
  0 <= slot < 2 ^ 18 -> 0 <= serial < kRetiredSerial ->
  make_handle k slot serial = slot * 2 ^ 14 + (serial * 4 + kind_bits k).
Proof.
  intros Hslot Hserial. change kRetiredSerial with (2 ^ 12) in Hserial.
  pose proof (kind_bits_range k) as Hk. unfold make_handle.
  change 4095 with (2 ^ 12 - 1). rewrite land_ones_mod, (Z.mod_small serial) by lia.
  rewrite !Z.shiftl_mul_pow2 by lia. rewrite !u32_small by lia.
  rewrite <- Z.lor_assoc, <- !Z.shiftl_mul_pow2 by lia.
  rewrite (lor_shiftl_add serial (kind_bits k) 2) by lia.
  rewrite lor_shiftl_add, Z.shiftl_mul_pow2 by lia. lia.
Qed.

Lemma handle_serial_value h : 0 <= h -> handle_serial h = h / 4 mod 2 ^ 12.
Proof.
  intros. unfold handle_serial. change 4095 with (2 ^ 12 - 1).
  rewrite land_ones_mod, Z.shiftr_div_pow2 by lia. done.
Qed.

Lemma handle_index_value h : handle_index h = h / 2 ^ 14.
Proof. unfold handle_index. by rewrite Z.shiftr_div_pow2 by lia. Qed.

Lemma handle_kind_bits h : handle_kind h = match h mod 4 with
  | 0 => None | 1 => Some Local | 2 => Some Global | _ => Some WeakGlobal end.
Proof.
  unfold handle_kind. change 3 with (2 ^ 2 - 1). rewrite land_ones_mod by lia.
  change (2 ^ 2) with 4. pose proof (Z.mod_pos_bound h 4 ltac:(lia)) as Hm.
  assert (h mod 4 = 0 \/ h mod 4 = 1 \/ h mod 4 = 2 \/ h mod 4 = 3) as Hc by lia.
  destruct Hc as [-> | [-> | [-> | ->]]]; done.
Qed.

Lemma handle_kind_mod h k : handle_kind h = Some k <-> h mod 4 = kind_bits k.
Proof.
  rewrite handle_kind_bits. pose proof (Z.mod_pos_bound h 4 ltac:(lia)) as Hm.
  assert (h mod 4 = 0 \/ h mod 4 = 1 \/ h mod 4 = 2 \/ h mod 4 = 3) as Hc by lia.
  destruct Hc as [-> | [-> | [-> | ->]]]; destruct k; simpl; split; done || lia.
Qed.

Lemma handle_serial_range h : 0 <= h -> 0 <= handle_serial h < kRetiredSerial.
Proof.
  intros. rewrite handle_serial_value by done. apply Z.mod_pos_bound. done.
Qed.

(** A handle is determined by its three fields. *)
Lemma handle_fields_inj h1 h2 :
  0 <= h1 -> 0 <= h2 -> handle_slot h1 = handle_slot h2 ->
  handle_serial h1 = handle_serial h2 -> h1 mod 4 = h2 mod 4 -> h1 = h2.
Proof.
  intros H1 H2 Hslot Hser Hk. unfold handle_slot in Hslot.
  rewrite !handle_index_value in Hslot. rewrite !handle_serial_value in Hser by done.
  change (2 ^ 14) with (4 * 2 ^ 12) in Hslot. rewrite <- !Z.div_div in Hslot by lia.
  pose proof (Z.div_mod h1 4) as E1. pose proof (Z.div_mod h2 4) as E2.
  pose proof (Z.div_mod (h1 / 4) (2 ^ 12)) as F1. pose proof (Z.div_mod (h2 / 4) (2 ^ 12)) as F2.
  assert (0 <= h1 / 4 / 2 ^ 12) by (repeat apply Z.div_pos; lia).
  assert (0 <= h2 / 4 / 2 ^ 12) by (repeat apply Z.div_pos; lia).
  assert (h1 / 4 / 2 ^ 12 = h2 / 4 / 2 ^ 12) as Hs by lia.
  assert (h1 / 4 = h2 / 4) as Hd by lia. lia.
Qed.

Lemma make_handle_fields k slot serial :
  0 <= slot < 2 ^ 18 -> 0 <= serial < kRetiredSerial ->
  handle_index (make_handle k slot serial) = slot /\
  handle_serial (make_handle k slot serial) = serial /\
  handle_kind (make_handle k slot serial) = Some k /\
  0 < make_handle k slot serial < 2 ^ 32.
Proof.
  intros Hslot Hserial. rewrite make_handle_value by done.
  change kRetiredSerial with (2 ^ 12) in Hserial.
  pose proof (kind_bits_range k) as Hk. split; [|split; [|split]].
  - rewrite handle_index_value. symmetry. apply (Z.div_unique_pos _ _ _ (serial * 4 + kind_bits k)); lia.
  - rewrite handle_serial_value by lia.
    assert ((slot * 2 ^ 14 + (serial * 4 + kind_bits k)) / 4 = 2 ^ 12 * slot + serial) as ->.
    { symmetry. apply (Z.div_unique_pos _ _ _ (kind_bits k)); lia. }
    symmetry. apply (Z.mod_unique_pos _ _ slot); lia.
  - apply handle_kind_mod. symmetry. apply (Z.mod_unique_pos _ _ (2 ^ 12 * slot + serial)); lia.
  - lia.
Qed.

(** ** The interface of a handle table *)

(** What a table offers to the bridge.  [ht_spent t h] says that [h] was handed
    out and given back at some earlier point. *)
Class HandleTable (T : Type) := {
  ht_wf : T -> Prop;
  ht_add : T -> Z -> exec (Z * T);
  ht_get : T -> Z -> exec (option Z);
  ht_remove : T -> Z -> exec (option Z * T);
  ht_spent : T -> Z -> Prop;
}.

(** What it promises.  Handles are 32-bit words, so they are non-negative. *)
Class HandleTableLaws (T : Type) `{HandleTable T} := {
  ht_get_total t h : ht_wf t -> exists o, ht_get t h = Ret o;
  ht_add_ok t r h t' :
    ht_wf t -> r <> 0 -> ht_add t r = Ret (h, t') ->
    ht_wf t' /\ 0 < h < 2 ^ 32 /\ ht_get t h = Ret None /\ ~ ht_spent t h /\
    ht_get t' h = Ret (Some r) /\
    (forall h', 0 <= h' -> h' <> h -> ht_get t' h' = ht_get t h');
  ht_add_defined t r : ht_wf t -> defined (ht_add t r);
  ht_remove_ok t h r :
    ht_wf t -> 0 < h -> ht_get t h = Ret (Some r) ->
    exists t', ht_remove t h = Ret (Some r, t') /\ ht_wf t' /\ ht_spent t' h /\
      (forall h', 0 <= h' -> h' <> h -> ht_get t' h' = ht_get t h');
  ht_remove_invalid t h : ht_wf t -> ht_get t h = Ret None -> ht_remove t h = Ret (None, t);
  ht_spent_get t h : ht_wf t -> ht_spent t h -> ht_get t h = Ret None;
  ht_spent_add t r h h' t' :
    ht_wf t -> ht_spent t h -> ht_add t r = Ret (h', t') -> ht_spent t' h;
  ht_spent_remove t h h' o t' :
    ht_wf t -> ht_spent t h -> 0 <= h' -> ht_remove t h' = Ret (o, t') -> ht_spent t' h;
}.

(** ** Lemmas: serial numbers *)

Lemma skip_retired_spec fuel serials i :
  (i <= length serials)%nat -> (length serials - i <= fuel)%nat ->
  let j := skip_retired fuel serials i in
  (i <= j <= length serials)%nat /\
  (forall k, (i <= k < j)%nat -> serials !! k = Some kRetiredSerial) /\
  serials !! j <> Some kRetiredSerial.
Proof.
  revert i. induction fuel as [|fuel IH]; intros i Hi Hf; simpl.
  - split; [lia|]. split; [lia|]. rewrite lookup_ge_None_2 by lia. done.
  - destruct (serials !! i) as [v|] eqn:Ev.
    + destruct (Z.eqb_spec v kRetiredSerial) as [->|Hne].
      * pose proof (lookup_lt_Some _ _ _ Ev). destruct (IH (S i)) as (H1 & H2 & H3); [lia..|].
        split; [lia|]. split; [|done]. intros k Hk.
        destruct (decide (k = i)) as [->|]; [done|]. apply H2. lia.
      * split; [lia|]. split; [lia|]. rewrite Ev. naive_solver.
    + split; [lia|]. split; [lia|]. rewrite Ev. done.
Qed.

(** The effect of [bump_serial] on one serial. *)
Definition bump (v : Z) : Z := if v <? kRetiredSerial then v + 1 else v.

Definition serials_ok (serials : list Z) : Prop :=
  Forall (fun v => 0 <= v <= kRetiredSerial) serials.

Lemma bump_range v : 0 <= v <= kRetiredSerial -> v <= bump v <= kRetiredSerial.
Proof. unfold bump. destruct (Z.ltb_spec v kRetiredSerial); lia. Qed.

Lemma bump_live v : v < kRetiredSerial -> v < bump v.
Proof. unfold bump. destruct (Z.ltb_spec v kRetiredSerial); lia. Qed.

Lemma serials_ok_lookup serials i v :
  serials_ok serials -> serials !! i = Some v -> 0 <= v <= kRetiredSerial.
Proof. intros Hs Hi. eapply Forall_lookup_1 in Hs; eauto. Qed.

Lemma bump_serial_spec serials i v :
  serials_ok serials -> serials !! i = Some v ->
  bump_serial serials i = Ret (<[i := bump v]> serials).
Proof.
  intros Hs Hi. pose proof (serials_ok_lookup _ _ _ Hs Hi) as Hv.
  unfold bump_serial, bump. vec_simpl.
  destruct (Z.ltb_spec v kRetiredSerial).
  - vec_simpl. rewrite u16_small; [done|]. change kRetiredSerial with 4096 in *. lia.
  - by rewrite list_insert_id.
Qed.

Lemma serials_ok_bump serials i v :
  serials_ok serials -> serials !! i = Some v -> serials_ok (<[i := bump v]> serials).
Proof.
  intros Hs Hi. pose proof (serials_ok_lookup _ _ _ Hs Hi) as Hv.
  apply Forall_insert; [done|]. pose proof (bump_range v Hv). lia.
Qed.

(** Serials only grow. *)
Definition serials_le (s s' : list Z) : Prop :=
  forall i v, s !! i = Some v -> exists v', s' !! i = Some v' /\ v <= v'.

#[global] Instance serials_le_preorder : PreOrder serials_le.
Proof.
  split.
  - intros s i v H. eauto with lia.
  - intros s1 s2 s3 H12 H23 i v H1. destruct (H12 _ _ H1) as (v2 & H2 & ?).
    destruct (H23 _ _ H2) as (v3 & H3 & ?). eauto with lia.
Qed.

Lemma serials_le_bump serials i v :
  serials_ok serials -> serials !! i = Some v -> serials_le serials (<[i := bump v]> serials).
Proof.
  intros Hs Hi j w Hj. destruct (decide (i = j)) as [<-|].
  - rewrite list_lookup_insert_eq by eauto using lookup_lt_Some.
    pose proof (bump_range v (serials_ok_lookup _ _ _ Hs Hi)).
    eexists; split; [done|]. simplify_eq. lia.
  - rewrite list_lookup_insert_ne by done. eauto with lia.
Qed.

Lemma serials_le_app s x : serials_le s (s ++ x).
Proof. intros i v H. exists v. split; [by apply lookup_app_l_Some|lia]. Qed.

Lemma pop_frame_loop_spec n i refs serials released :
  (i + n <= length refs)%nat -> (length refs <= length serials)%nat -> serials_ok serials ->
  exists serials',
    pop_frame_loop n i refs serials released =
      Ret (released ++ filter (fun r => r <> 0) (take n (drop i refs)), serials') /\
    length serials' = length serials /\ serials_ok serials' /\ serials_le serials serials' /\
    (forall j, serials' !! j =
       if decide (i <= j < i + n)%nat then bump <$> serials !! j else serials !! j).
Proof.
  revert i serials released. induction n as [|n IH]; intros i serials released Hn Hl Hs; simpl.
  - exists serials. rewrite take_0, filter_nil, app_nil_r. split_and!; [done..|].
    intros j. rewrite decide_False by lia. done.
  - destruct (vec_at_lt refs i) as (r & Hr & ->); [lia|]. simpl.
    destruct (vec_at_lt serials i) as (v & Hv & _); [lia|].
    rewrite (bump_serial_spec _ _ v) by done. simpl.
    destruct (IH (S i) (<[i := bump v]> serials)
                (if r =? 0 then released else released ++ [r])) as (s' & E & Hlen & Hok & Hle & Hj).
    + lia.
    + by rewrite length_insert.
    + by apply serials_ok_bump.
    + exists s'. rewrite E. rewrite length_insert in Hlen. split_and!; [|done|done| |].
      * rewrite (drop_S refs r i) by done. simpl. rewrite filter_cons.
        destruct (Z.eqb_spec r 0); [by rewrite decide_False by naive_solver|].
        rewrite decide_True by done. by rewrite <- app_assoc.
      * etrans; [by apply (serials_le_bump _ i)|done].
      * intros j. rewrite Hj. destruct (decide (i = j)) as [<-|Hne].
        -- rewrite decide_False by lia. rewrite decide_True by lia.
           rewrite list_lookup_insert_eq by eauto using lookup_lt_Some. by rewrite Hv.
        -- rewrite list_lookup_insert_ne by done.
           repeat case_decide; done || lia.
Qed.

(** ** LocalHandles: invariant and laws *)

(** The starts of the open frames, top frame first, do not increase. *)
Fixpoint frames_ok (top : nat) (starts : list nat) : Prop :=
  match starts with
  | [] => True
  | start :: rest => (start <= top)%nat /\ frames_ok start rest
  end.

Lemma frames_ok_mono top top' starts :
  (top <= top')%nat -> frames_ok top starts -> frames_ok top' starts.
Proof. destruct starts; simpl; intuition lia. Qed.

Record local_wf (t : LocalHandles) : Prop := {
  lwf_len : (length (refs_ t) <= length (serials_ t))%nat;
  lwf_max : Z.of_nat (length (serials_ t)) <= kMaxSlots;
  lwf_serials : serials_ok (serials_ t);
  lwf_frames : frames_ok (length (refs_ t)) (frame_starts_ t);
  lwf_live : forall i r, refs_ t !! i = Some r -> r <> 0 ->
               exists v, serials_ t !! i = Some v /\ v < kRetiredSerial;
  lwf_prefix : (retired_prefix_ t <= length (serials_ t))%nat;
  lwf_retired : forall i, (i < retired_prefix_ t)%nat -> serials_ t !! i = Some kRetiredSerial;
}.

Definition local_spent (t : LocalHandles) (h : Z) : Prop :=
  0 < h /\ handle_kind h = Some Local /\
  exists v, serials_ t !! handle_slot h = Some v /\ handle_serial h < v.

(** The slot [t] holds live for [h]. *)
Definition local_live (t : LocalHandles) (h r : Z) : Prop :=
  handle_kind h = Some Local /\ r <> 0 /\
  refs_ t !! handle_slot h = Some r /\ serials_ t !! handle_slot h = Some (handle_serial h).

Lemma local_get_spec t h :
  local_wf t -> h <> 0 ->
  (exists r, LocalHandles_get t h = Ret (Some r) /\ local_live t h r) \/
  (LocalHandles_get t h = Ret None /\ forall r, ~ local_live t h r).
Proof.
  intros Hwf Hh. unfold LocalHandles_get, local_live.
  destruct (Z.eqb_spec h 0); [done|].
  case_decide as Hk; [right; naive_solver|].
  destruct (refs_ t !! handle_slot h) as [r|] eqn:Er; [|right; naive_solver].
  destruct (Z.eqb_spec r 0); [right; naive_solver|].
  destruct (lwf_live _ Hwf _ _ Er) as (v & Hv & _); [done|]. vec_simpl.
  destruct (Z.eqb_spec (handle_serial h) v) as [<-|].
  - left. exists r. split_and!; done.
  - right. split; [done|]. rewrite Hv. naive_solver.
Qed.

Lemma local_get_live t h r :
  local_wf t -> h <> 0 -> (LocalHandles_get t h = Ret (Some r) <-> local_live t h r).
Proof.
  intros Hwf Hh. destruct (local_get_spec t h Hwf Hh) as [(r' & E & Hl)|[E Hl]]; rewrite E.
  - split; [naive_solver|]. intros (_ & _ & H1 & _). destruct Hl as (_ & _ & H2 & _). congruence.
  - split; [done|]. intros H. by destruct (Hl r).
Qed.

Lemma local_get_total t h : local_wf t -> exists o, LocalHandles_get t h = Ret o.
Proof.
  intros Hwf. destruct (decide (h = 0)) as [->|Hh]; [by eauto|].
  destruct (local_get_spec t h Hwf Hh) as [(r & E & _)|[E _]]; eauto.
Qed.

(** Two tables that hold the same handle live answer alike. *)
Lemma local_get_ext t t' h :
  local_wf t -> local_wf t' -> (forall r, local_live t h r <-> local_live t' h r) ->
  LocalHandles_get t' h = LocalHandles_get t h.
Proof.
  intros Hwf Hwf' Hiff. destruct (decide (h = 0)) as [->|Hh]; [done|].
  destruct (local_get_spec t h Hwf Hh) as [(r & E & Hl)|[E Hl]]; rewrite E.
  - apply local_get_live; [done..|]. by apply Hiff.
  - destruct (local_get_spec t' h Hwf' Hh) as [(r & E' & Hl')|[E' _]]; [|done].
    apply Hiff in Hl'. by destruct (Hl r).
Qed.

Lemma local_spent_get t h : local_wf t -> local_spent t h -> LocalHandles_get t h = Ret None.
Proof.
  intros Hwf (Hpos & Hk & v & Hv & Hlt).
  destruct (local_get_spec t h Hwf) as [(r & _ & Hl)|[E _]]; [lia| |done].
  destruct Hl as (_ & _ & _ & Hs). simplify_eq. lia.
Qed.

Lemma local_spent_mono t t' h :
  serials_le (serials_ t) (serials_ t') -> local_spent t h -> local_spent t' h.
Proof.
  intros Hle (Hpos & Hk & v & Hv & Hlt). destruct (Hle _ _ Hv) as (v' & Hv' & ?).
  repeat split; eauto with lia.
Qed.

Lemma local_wf_init : local_wf LocalHandles_init.
Proof. split; simpl; try done; try lia. constructor. Qed.

Lemma local_push_wf t : local_wf t -> local_wf (LocalHandles_push_frame t).
Proof. intros []. split; simpl; auto. Qed.

Lemma local_push_live t h r :
  local_live (LocalHandles_push_frame t) h r <-> local_live t h r.
Proof. done. Qed.

Lemma trim_back_spec fuel floor refs :
  (floor <= length refs)%nat -> (length refs <= fuel)%nat ->
  exists m, trim_back fuel floor refs = take m refs /\ (floor <= m <= length refs)%nat /\
    forall j, (m <= j)%nat -> refs !! j = None \/ refs !! j = Some 0.
Proof.
  revert refs. induction fuel as [|fuel IH]; intros refs Hfl Hf; simpl.
  - exists (length refs). rewrite firstn_all. split_and!; [done|lia|lia|].
    intros j Hj. left. by apply lookup_ge_None_2.
  - assert (exists m, refs = take m refs /\ (floor <= m <= length refs)%nat /\
      forall j, (m <= j)%nat -> refs !! j = None \/ refs !! j = Some 0) as Hstop.
    { exists (length refs). rewrite firstn_all. split_and!; [done|lia|lia|].
      intros j Hj. left. by apply lookup_ge_None_2. }
    case_decide as Hlt; [|done].
    destruct (last refs) as [r|] eqn:El; [|done].
    destruct (Z.eqb_spec r 0) as [->|]; [|done].
    destruct (IH (take (length refs - 1) refs)) as (m & E & Hm & Hz).
    { rewrite length_take. lia. }
    { rewrite length_take. lia. }
    rewrite length_take in Hm. rewrite take_take in E.
    exists m. rewrite E. split_and!; [f_equal; lia|lia|lia|]. intros j Hj.
    destruct (decide (j < length refs - 1)%nat).
    + destruct (Hz j Hj) as [Hj'|Hj']; rewrite lookup_take_lt in Hj' by lia; auto.
    + destruct (decide (j = length refs - 1)%nat) as [->|].
      * right. rewrite last_lookup in El. by replace (length refs - 1)%nat with (pred (length refs)) by lia.
      * left. apply lookup_ge_None_2. lia.
Qed.

(** [add] after the base frame exists: the slot it picks and the new table. *)
Definition local_add_index (t : LocalHandles) : nat :=
  skip_retired (length (serials_ t)) (serials_ t) (length (refs_ t) `max` retired_prefix_ t).

Lemma local_add_index_spec t :
  local_wf t ->
  (length (refs_ t) <= local_add_index t <= length (serials_ t))%nat /\
  serials_ t !! local_add_index t <> Some kRetiredSerial.
Proof.
  intros Hwf. pose proof (lwf_len _ Hwf). pose proof (lwf_prefix _ Hwf).
  destruct (skip_retired_spec (length (serials_ t)) (serials_ t)
              (length (refs_ t) `max` retired_prefix_ t)) as (H1 & _ & H3); [lia..|].
  split; [unfold local_add_index; lia|done].
Qed.

(** The serial the new handle carries. *)
Definition local_add_serial (t : LocalHandles) : Z := default 0 (serials_ t !! local_add_index t).

(** The table [add] builds, frames aside. *)
Definition local_added (t t' : LocalHandles) (host_ref : Z) : Prop :=
  refs_ t' = <[local_add_index t := host_ref]> (resize (local_add_index t + 1) 0 (refs_ t)) /\
  serials_le (serials_ t) (serials_ t') /\
  serials_ t' !! local_add_index t = Some (local_add_serial t) /\
  (forall i, i <> local_add_index t -> serials_ t' !! i = serials_ t !! i).

Lemma local_added_refs t t' r i x :
  local_wf t -> local_added t t' r -> i <> local_add_index t -> x <> 0 ->
  (refs_ t' !! i = Some x <-> refs_ t !! i = Some x).
Proof.
  intros Hwf (-> & _) Hi Hx. rewrite list_lookup_insert_ne by done.
  destruct (local_add_index_spec t Hwf) as [Hidx _].
  destruct (decide (i < length (refs_ t))%nat).
  - rewrite lookup_resize by lia. done.
  - rewrite (lookup_ge_None_2 (refs_ t)) by lia.
    destruct (decide (i < local_add_index t + 1)%nat).
    + rewrite lookup_resize_new by lia. naive_solver.
    + rewrite lookup_resize_old by lia. done.
Qed.

Lemma local_added_wf t t' r :
  local_wf t -> local_added t t' r -> local_add_serial t < kRetiredSerial ->
  frame_starts_ t' = frame_starts_ t -> retired_prefix_ t' = retired_prefix_ t ->
  serials_ok (serials_ t') -> (length (serials_ t) <= length (serials_ t'))%nat ->
  Z.of_nat (length (serials_ t')) <= kMaxSlots -> local_wf t'.
Proof.
  intros Hwf Ha Hs Ef Ep Hok Hlen Hmax. destruct (local_add_index_spec t Hwf) as [Hidx _].
  pose proof Ha as (Er & Hle & Hi & Hne). pose proof (lookup_lt_Some _ _ _ Hi) as Hlt.
  assert (length (refs_ t') = (local_add_index t + 1)%nat) as Hl'
    by (by rewrite Er, length_insert, length_resize).
  split; [lia|done|done| | | |].
  - rewrite Ef. apply (frames_ok_mono (length (refs_ t))); [lia|]. apply Hwf.
  - intros i x Hix Hx. destruct (decide (i = local_add_index t)) as [->|Hn]; [eauto|].
    rewrite (Hne i Hn). apply (lwf_live _ Hwf i x); [|done].
    by apply (local_added_refs _ _ _ _ _ Hwf Ha Hn Hx) in Hix.
  - rewrite Ep. pose proof (lwf_prefix _ Hwf). lia.
  - rewrite Ep. intros i Hip. pose proof (lwf_retired _ Hwf i Hip) as Hret.
    rewrite Hne; [done|]. intros ->. unfold local_add_serial in Hs. rewrite Hret in Hs. simpl in Hs. lia.
Qed.

Lemma local_add_framed t r h t' :
  local_wf t -> r <> 0 -> frame_starts_ t <> [] -> LocalHandles_add t r = Ret (h, t') ->
  local_wf t' /\ local_added t t' r /\ Z.of_nat (local_add_index t) < kMaxSlots /\
  0 <= local_add_serial t < kRetiredSerial /\
  h = make_handle Local (Z.of_nat (local_add_index t)) (local_add_serial t).
Proof.
  intros Hwf Hr Hfr. unfold LocalHandles_add.
  destruct (Z.eqb_spec r 0); [done|].
  destruct (frame_starts_ t) as [|start rest] eqn:Ef; [done|].
  fold (local_add_index t). destruct (local_add_index_spec t Hwf) as [Hidx Hnr].
  case_decide as Hmax; [done|].
  assert (exists v s', match serials_ t !! local_add_index t with
            | Some serial => (serial, serials_ t) | None => (0, serials_ t ++ [0]) end = (v, s') /\
          v = local_add_serial t /\ 0 <= v < kRetiredSerial /\ serials_ok s' /\
          serials_le (serials_ t) s' /\ s' !! local_add_index t = Some v /\
          (forall i, i <> local_add_index t -> s' !! i = serials_ t !! i) /\
          (length (serials_ t) <= length s')%nat /\ Z.of_nat (length s') <= kMaxSlots)
    as (v & s' & -> & Ev & Hv & Hok & Hle & Hi & Hne & Hlen & Hmx).
  { unfold local_add_serial. pose proof (lwf_serials _ Hwf) as Hs. pose proof (lwf_max _ Hwf).
    destruct (serials_ t !! local_add_index t) as [v|] eqn:Ev.
    - exists v, (serials_ t). pose proof (serials_ok_lookup _ _ _ Hs Ev).
      assert (v <> kRetiredSerial) by congruence. split_and!; done || lia.
    - apply lookup_ge_None_1 in Ev. assert (local_add_index t = length (serials_ t)) as El by lia.
      exists 0, (serials_ t ++ [0]). rewrite El, length_app. simpl.
      split_and!; try done; try lia.
      + apply Forall_app. split; [done|]. by repeat constructor.
      + apply serials_le_app.
      + by rewrite lookup_app_r, Nat.sub_diag by lia.
      + intros i Hi. destruct (decide (i < length (serials_ t))%nat); [by rewrite lookup_app_l by lia|].
        rewrite !lookup_ge_None_2; rewrite ?length_app; simpl; done || lia. }
  rewrite vec_set_lt by (rewrite length_resize; lia). simpl. intros [= <- <-].
  set (t' := {| refs_ := _; serials_ := s' |}).
  assert (local_added t t' r) as Ha by (rewrite Ev in Hi; by split_and!).
  split_and!; try done; try lia; try congruence.
  apply (local_added_wf t t' r); try done. lia.
Qed.

(** [add] on a table without a frame first pushes the base frame. *)
Lemma local_add_base t r :
  LocalHandles_add t r =
    LocalHandles_add (match frame_starts_ t with [] => LocalHandles_push_frame t | _ => t end) r \/
  r = 0.
Proof.
  unfold LocalHandles_add. destruct (Z.eqb_spec r 0); [by right|left].
  by destruct (frame_starts_ t) eqn:E; simpl; rewrite ?E.
Qed.

Lemma handle_slot_make k i serial :
  Z.of_nat i < kMaxSlots -> 0 <= serial < kRetiredSerial ->
  handle_slot (make_handle k (Z.of_nat i) serial) = i /\
  handle_serial (make_handle k (Z.of_nat i) serial) = serial /\
  handle_kind (make_handle k (Z.of_nat i) serial) = Some k /\
  0 < make_handle k (Z.of_nat i) serial < 2 ^ 32.
Proof.
  change kMaxSlots with (2 ^ 18). intros Hi Hs.
  destruct (make_handle_fields k (Z.of_nat i) serial) as (E1 & E2 & E3 & E4); [lia|done|].
  unfold handle_slot. rewrite E1, Nat2Z.id. done.
Qed.

Lemma local_add_live t t' r h h' x :
  local_wf t -> local_added t t' r -> Z.of_nat (local_add_index t) < kMaxSlots ->
  0 <= local_add_serial t < kRetiredSerial ->
  h = make_handle Local (Z.of_nat (local_add_index t)) (local_add_serial t) ->
  0 <= h' -> h' <> h -> (local_live t h' x <-> local_live t' h' x).
Proof.
  intros Hwf Ha Hmax Hs -> Hh' Hne. pose proof Ha as (Er & Hle & Hi & Ho).
  destruct (handle_slot_make Local _ _ Hmax Hs) as (E1 & E2 & E3 & E4).
  destruct (local_add_index_spec t Hwf) as [Hidx _]. unfold local_live.
  destruct (decide (handle_slot h' = local_add_index t)) as [Hsl|Hsl].
  - split.
    + intros (_ & _ & Hr & _). rewrite Hsl, lookup_ge_None_2 in Hr by lia. done.
    + intros (Hk & _ & _ & Hser). rewrite Hsl, Hi in Hser. destruct Hne.
      apply handle_fields_inj; [done|lia|congruence|congruence|].
      apply handle_kind_mod in Hk. apply handle_kind_mod in E3. congruence.
  - rewrite (Ho _ Hsl). destruct (decide (x = 0)) as [->|Hx]; [naive_solver|].
    by rewrite (local_added_refs t t' r _ x Hwf Ha Hsl Hx).
Qed.

Lemma local_add_ok t r h t' :
  local_wf t -> r <> 0 -> LocalHandles_add t r = Ret (h, t') ->
  local_wf t' /\ 0 < h < 2 ^ 32 /\ LocalHandles_get t h = Ret None /\ ~ local_spent t h /\
  LocalHandles_get t' h = Ret (Some r) /\
  (forall h', 0 <= h' -> h' <> h -> LocalHandles_get t' h' = LocalHandles_get t h').
Proof.
  intros Hwf Hr Hadd. destruct (local_add_base t r) as [E|]; [|done]. rewrite E in Hadd.
  set (t0 := match frame_starts_ t with [] => LocalHandles_push_frame t | _ => t end) in *.
  assert (local_wf t0) as Hwf0 by (unfold t0; case_match; auto using local_push_wf).
  assert (refs_ t0 = refs_ t /\ serials_ t0 = serials_ t) as [R0 S0] by (unfold t0; by case_match).
  destruct (local_add_framed t0 r h t' Hwf0 Hr) as (Hwf' & Ha & Hmax & Hs & Eh); [|done|].
  { unfold t0. case_match eqn:Ef; simpl; congruence. }
  destruct (handle_slot_make Local _ _ Hmax Hs) as (E1 & E2 & E3 & E4). rewrite <- Eh in *.
  destruct (local_add_index_spec t0 Hwf0) as [Hidx _].
  split_and!; try done; try lia.
  - destruct (local_get_spec t h Hwf) as [(x & _ & _ & _ & Hx & _)|[En _]]; [lia| |done].
    rewrite E1, <- R0, lookup_ge_None_2 in Hx by lia. done.
  - intros (_ & _ & v & Hv & Hlt). rewrite E1, <- S0 in Hv. unfold local_add_serial in E2.
    rewrite Hv in E2. simpl in E2. lia.
  - apply local_get_live; [done|lia|]. destruct Ha as (Er & _ & Hi & _). unfold local_live.
    rewrite E1, E2, Er. split_and!; try done.
    rewrite list_lookup_insert_eq; [done|]. rewrite length_resize. lia.
  - intros h' Hh' Hne. apply local_get_ext; [done..|]. intros x.
    rewrite <- (local_add_live t0 t' r h h' x Hwf0 Ha Hmax Hs Eh Hh' Hne).
    unfold local_live. by rewrite R0, S0.
Qed.

Lemma local_add_serials t r h t' :
  local_wf t -> LocalHandles_add t r = Ret (h, t') -> serials_le (serials_ t) (serials_ t').
Proof.
  intros Hwf Hadd. destruct (local_add_base t r) as [E| ->].
  - destruct (decide (r = 0)) as [->|Hr]; [by injection Hadd as <- <-|].
    rewrite E in Hadd.
    set (t0 := match frame_starts_ t with [] => LocalHandles_push_frame t | _ => t end) in *.
    assert (local_wf t0) as Hwf0 by (unfold t0; case_match; auto using local_push_wf).
    assert (serials_ t = serials_ t0) as -> by (unfold t0; by case_match).
    destruct (local_add_framed t0 r h t' Hwf0 Hr) as (_ & (_ & Hle & _) & _); [|done|done].
    unfold t0. case_match eqn:Ef; simpl; congruence.
  - by injection Hadd as <- <-.
Qed.

Lemma local_add_total t r :
  local_wf t ->
  (exists h t', LocalHandles_add t r = Ret (h, t')) \/
  LocalHandles_add t r = Aborted /\ kMaxSlots <= Z.of_nat (local_add_index t).
Proof.
  intros Hwf. unfold LocalHandles_add. destruct (Z.eqb_spec r 0); [left; eauto|].
  set (t0 := match frame_starts_ t with [] => LocalHandles_push_frame t | _ => t end).
  assert (local_add_index t0 = local_add_index t) as <- by (unfold t0; by case_match).
  fold (local_add_index t0). case_decide; [by right|left].
  destruct (serials_ t0 !! local_add_index t0); simpl;
    rewrite vec_set_lt by (rewrite length_resize; lia); simpl; eauto.
Qed.

Lemma trim_zeroed_lookup (refs : list Z) i m j x :
  x <> 0 -> (i < length refs)%nat ->
  (forall k, (m <= k)%nat -> <[i := 0]> refs !! k = None \/ <[i := 0]> refs !! k = Some 0) ->
  take m (<[i := 0]> refs) !! j = Some x <-> j <> i /\ refs !! j = Some x.
Proof.
  intros Hx Hi Hz. destruct (decide (j = i)) as [->|Hj].
  - destruct (decide (i < m)%nat).
    + rewrite lookup_take_lt, list_lookup_insert_eq by lia. naive_solver.
    + rewrite lookup_take_ge by lia. naive_solver.
  - destruct (decide (j < m)%nat).
    + rewrite lookup_take_lt, list_lookup_insert_ne by lia. naive_solver.
    + rewrite lookup_take_ge by lia. destruct (Hz j) as [E|E]; [lia|..];
        rewrite list_lookup_insert_ne in E by done; rewrite E; naive_solver.
Qed.

(** The bottom of the top frame. *)
Definition local_floor (t : LocalHandles) : nat :=
  match frame_starts_ t with [] => O | start :: _ => start end.

Lemma local_removed_wf t i m v :
  local_wf t -> serials_ t !! i = Some v -> v < kRetiredSerial -> (i < length (refs_ t))%nat ->
  (local_floor t <= m <= length (refs_ t))%nat ->
  (forall k, (m <= k)%nat -> <[i := 0]> (refs_ t) !! k = None \/ <[i := 0]> (refs_ t) !! k = Some 0) ->
  local_wf {| refs_ := take m (<[i := 0]> (refs_ t)); serials_ := <[i := bump v]> (serials_ t);
              frame_starts_ := frame_starts_ t; retired_prefix_ := retired_prefix_ t |}.
Proof.
  intros Hwf Hv Hlt Hi Hm Hz. split; simpl.
  - rewrite length_take, !length_insert. pose proof (lwf_len _ Hwf). lia.
  - rewrite length_insert. apply Hwf.
  - by apply serials_ok_bump; [apply Hwf|].
  - rewrite length_take, length_insert. pose proof (lwf_frames _ Hwf) as Hf.
    unfold local_floor in Hm. destruct (frame_starts_ t); simpl in *; [done|]. split; [lia|apply Hf].
  - intros j x Hj Hx. apply trim_zeroed_lookup in Hj as [Hne Hj]; [|done..].
    rewrite list_lookup_insert_ne by done. eauto using lwf_live.
  - rewrite length_insert. apply Hwf.
  - intros j Hj. pose proof (lwf_retired _ Hwf j Hj) as Hret.
    rewrite list_lookup_insert_ne; [done|]. intros <-. simplify_eq. lia.
Qed.

Lemma local_remove_ok t h r :
  local_wf t -> 0 < h -> LocalHandles_get t h = Ret (Some r) ->
  exists t', LocalHandles_remove t h = Ret (Some r, t') /\ local_wf t' /\ local_spent t' h /\
    serials_le (serials_ t) (serials_ t') /\
    (forall h', 0 <= h' -> h' <> h -> LocalHandles_get t' h' = LocalHandles_get t h').
Proof.
  intros Hwf Hh Hg. unfold LocalHandles_remove. destruct (Z.eqb_spec h 0); [lia|].
  rewrite Hg. simpl. apply local_get_live in Hg; [|done|lia].
  destruct Hg as (Hk & Hr & Hri & Hsi). pose proof (lookup_lt_Some _ _ _ Hri) as Hlt.
  assert (handle_serial h < kRetiredSerial) as Hret.
  { destruct (lwf_live _ Hwf _ _ Hri Hr) as (v & Hv & ?). by simplify_eq. }
  set (i := handle_slot h) in *. vec_simpl.
  rewrite (bump_serial_spec _ _ _ (lwf_serials _ Hwf) Hsi). simpl. fold (local_floor t).
  assert (local_floor t <= length (refs_ t))%nat as Hfl.
  { pose proof (lwf_frames _ Hwf). unfold local_floor. destruct (frame_starts_ t); simpl in *; lia. }
  destruct (trim_back_spec (length (<[i:=0]> (refs_ t))) (local_floor t) (<[i:=0]> (refs_ t)))
    as (m & Et & Hm & Hz); [rewrite length_insert; lia|lia|].
  rewrite length_insert in Hm. rewrite Et. eexists. split; [done|].
  pose proof (local_removed_wf t i m _ Hwf Hsi Hret Hlt Hm Hz) as Hwf'.
  split; [done|]. split; [|split].
  - split; [done|]. split; [done|]. exists (bump (handle_serial h)). simpl.
    rewrite list_lookup_insert_eq by eauto using lookup_lt_Some. auto using bump_live.
  - apply serials_le_bump; [apply Hwf|done].
  - intros h' Hh' Hne. apply local_get_ext; [done..|]. intros x. unfold local_live.
    destruct (decide (x = 0)) as [->|Hx]; [naive_solver|]. simpl. rewrite trim_zeroed_lookup by done.
    destruct (decide (handle_slot h' = i)) as [Ei|Ei].
    + rewrite Ei, Hsi. split; [|naive_solver]. intros (Hk' & _ & _ & Hs'). destruct Hne.
      apply handle_fields_inj; [done|lia|done|congruence|].
      apply handle_kind_mod in Hk, Hk'. congruence.
    + rewrite list_lookup_insert_ne by done. naive_solver.
Qed.

Lemma local_remove_invalid t h :
  LocalHandles_get t h = Ret None -> LocalHandles_remove t h = Ret (None, t).
Proof.
  intros Hg. unfold LocalHandles_remove. destruct (Z.eqb_spec h 0) as [->|]; [done|].
  by rewrite Hg.
Qed.

Lemma local_remove_serials t h o t' :
  local_wf t -> 0 <= h -> LocalHandles_remove t h = Ret (o, t') ->
  serials_le (serials_ t) (serials_ t').
Proof.
  intros Hwf Hh E. destruct (decide (h = 0)) as [->|Hne]; [by injection E as <- <-|].
  destruct (local_get_spec t h Hwf Hne) as [(r & Hg & _)|[Hg _]].
  - destruct (local_remove_ok t h r Hwf) as (t2 & E2 & _ & _ & Hle & _); [lia|done|].
    rewrite E in E2. by simplify_eq.
  - rewrite (local_remove_invalid t h Hg) in E. by injection E as <- <-.
Qed.

#[global] Instance LocalHandles_table : HandleTable LocalHandles := {
  ht_wf := local_wf;
  ht_add := LocalHandles_add;
  ht_get := LocalHandles_get;
  ht_remove := LocalHandles_remove;
  ht_spent := local_spent;
}.

#[global] Instance LocalHandles_laws : HandleTableLaws LocalHandles.
Proof.
  split; simpl; intros.
  - by apply local_get_total.
  - by apply local_add_ok.
  - destruct (local_add_total t r) as [(h & t' & E)|[E _]]; [done|..]; unfold defined; by rewrite E.
  - destruct (local_remove_ok t h r) as (t' & ? & ? & ? & _ & ?); eauto 10.
  - by apply local_remove_invalid.
  - by apply local_spent_get.
  - eauto using local_spent_mono, local_add_serials.
  - eauto using local_spent_mono, local_remove_serials.
Qed.

(** ** LocalHandles: frames *)

Lemma local_pop_ok t start rest :
  local_wf t -> frame_starts_ t = start :: rest ->
  exists t', LocalHandles_pop_frame t = Ret (filter (fun r => r <> 0) (drop start (refs_ t)), t') /\
    local_wf t' /\ frame_starts_ t' = rest /\ serials_le (serials_ t) (serials_ t') /\
    (forall h r, 0 < h -> local_live t h r -> (start <= handle_slot h)%nat -> local_spent t' h) /\
    (forall h, (handle_slot h < start)%nat -> LocalHandles_get t' h = LocalHandles_get t h) /\
    (forall h, h <> 0 -> (start <= handle_slot h)%nat -> LocalHandles_get t' h = Ret None).
Proof.
  intros Hwf Ef. unfold LocalHandles_pop_frame. rewrite Ef.
  pose proof (lwf_frames _ Hwf) as Hfr. rewrite Ef in Hfr. destruct Hfr as [Hst Hfr].
  pose proof (lwf_len _ Hwf) as Hlen.
  destruct (pop_frame_loop_spec (length (refs_ t) - start) start (refs_ t) (serials_ t) [])
    as (s' & -> & Hl' & Hok & Hle & Hj); [lia..|apply Hwf|].
  simpl. rewrite firstn_all2 by (rewrite length_drop; lia). rewrite resize_le by done.
  pose proof (lwf_prefix _ Hwf) as Hp.
  destruct (skip_retired_spec (length s') s' (retired_prefix_ t)) as (Hk1 & Hk2 & _); [lia..|].
  eexists. split; [done|]. set (t' := {| refs_ := _ |}).
  assert (forall i, (i < start)%nat -> refs_ t' !! i = refs_ t !! i /\ s' !! i = serials_ t !! i) as Hlow.
  { intros i Hi. simpl. rewrite lookup_take_lt by done. rewrite Hj, decide_False by lia. done. }
  assert (local_wf t') as Hwf'.
  { split; simpl; rewrite ?length_take; try lia; try done.
    - rewrite Hl'. apply Hwf.
    - by rewrite Nat.min_l.
    - intros i r Hi Hr. assert (i < start)%nat by (apply lookup_lt_Some in Hi; rewrite length_take in Hi; lia).
      destruct (Hlow i) as [E1 E2]; [done|]. rewrite E2. simpl in E1. rewrite E1 in Hi. by apply (lwf_live _ Hwf i r).
    - intros i Hi. destruct (decide (retired_prefix_ t <= i)%nat); [apply Hk2; lia|].
      pose proof (lwf_retired _ Hwf i ltac:(lia)) as Hr. rewrite Hj, Hr. by case_decide. }
  split_and!; [done|done|done| | |].
  - intros h r Hh (Hk & Hr & Hri & Hsi) Hs. split; [done|]. split; [done|].
    exists (bump (handle_serial h)). simpl. pose proof (lookup_lt_Some _ _ _ Hri).
    rewrite Hj, decide_True, Hsi by lia. split; [done|]. apply bump_live.
    destruct (lwf_live _ Hwf _ _ Hri Hr) as (v & Hv & ?). by simplify_eq.
  - intros h Hs. apply local_get_ext; [done..|]. intros r. unfold local_live.
    destruct (Hlow _ Hs) as [-> E]. simpl. by rewrite E.
  - intros h Hh Hs. destruct (local_get_spec t' h Hwf' Hh) as [(r & _ & _ & _ & Hr & _)|[E _]]; [|done].
    simpl in Hr. rewrite lookup_take_ge in Hr by done. done.
Qed.

(** ** GlobalHandles: invariant and laws *)

Record global_wf (t : GlobalHandles) : Prop := {
  gwf_len : length (grefs_ t) = length (gserials_ t);
  gwf_max : Z.of_nat (length (gserials_ t)) <= kMaxSlots;
  gwf_serials : serials_ok (gserials_ t);
  gwf_free_nodup : NoDup (free_ t);
  gwf_free : forall i, i ∈ free_ t -> grefs_ t !! i = Some 0 /\
               exists v, gserials_ t !! i = Some v /\ v < kRetiredSerial;
  gwf_live : forall i r, grefs_ t !! i = Some r -> r <> 0 ->
               exists v, gserials_ t !! i = Some v /\ v < kRetiredSerial;
  gwf_dead : forall i, grefs_ t !! i = Some 0 ->
               i ∈ free_ t \/ gserials_ t !! i = Some kRetiredSerial;
}.

Definition global_spent (t : GlobalHandles) (h : Z) : Prop :=
  0 < h /\ handle_kind h = Some (kind_ t) /\
  exists v, gserials_ t !! handle_slot h = Some v /\ handle_serial h < v.

Definition global_live (t : GlobalHandles) (h r : Z) : Prop :=
  handle_kind h = Some (kind_ t) /\ r <> 0 /\
  grefs_ t !! handle_slot h = Some r /\ gserials_ t !! handle_slot h = Some (handle_serial h).

Lemma global_get_spec t h :
  global_wf t -> h <> 0 ->
  (exists r, GlobalHandles_get t h = Ret (Some r) /\ global_live t h r) \/
  (GlobalHandles_get t h = Ret None /\ (forall r, ~ global_live t h r) /\
   GlobalHandles_remove t h = Ret (None, t)).
Proof.
  intros Hwf Hh. unfold GlobalHandles_get, GlobalHandles_remove, global_live.
  destruct (Z.eqb_spec h 0); [done|].
  case_decide as Hk; [right; naive_solver|].
  destruct (grefs_ t !! handle_slot h) as [r|] eqn:Er; [|right; naive_solver].
  destruct (Z.eqb_spec r 0); [right; naive_solver|].
  destruct (gwf_live _ Hwf _ _ Er) as (v & Hv & _); [done|]. vec_simpl.
  destruct (Z.eqb_spec (handle_serial h) v) as [<-|].
  - left. exists r. split_and!; done.
  - right. rewrite Hv. naive_solver.
Qed.

Lemma global_get_live t h r :
  global_wf t -> h <> 0 -> (GlobalHandles_get t h = Ret (Some r) <-> global_live t h r).
Proof.
  intros Hwf Hh. destruct (global_get_spec t h Hwf Hh) as [(r' & E & Hl)|(E & Hl & _)]; rewrite E.
  - split; [naive_solver|]. intros (_ & _ & H1 & _). destruct Hl as (_ & _ & H2 & _). congruence.
  - split; [done|]. intros H. by destruct (Hl r).
Qed.

Lemma global_get_ext t t' h :
  global_wf t -> global_wf t' -> (forall r, global_live t h r <-> global_live t' h r) ->
  GlobalHandles_get t' h = GlobalHandles_get t h.
Proof.
  intros Hwf Hwf' Hiff. destruct (decide (h = 0)) as [->|Hh]; [done|].
  destruct (global_get_spec t h Hwf Hh) as [(r & E & Hl)|(E & Hl & _)]; rewrite E.
  - apply global_get_live; [done..|]. by apply Hiff.
  - destruct (global_get_spec t' h Hwf' Hh) as [(r & E' & Hl')|(E' & _)]; [|done].
    apply Hiff in Hl'. by destruct (Hl r).
Qed.

Lemma global_wf_init k : global_wf (GlobalHandles_init k).
Proof. split; simpl; try done; try constructor; set_solver. Qed.

(** What [add] does: it puts [r] in a slot [i] that held nothing. *)
Record global_added (t t' : GlobalHandles) (i : nat) (v r : Z) : Prop := {
  ga_kind : kind_ t' = kind_ t;
  ga_old : grefs_ t !! i = None \/ grefs_ t !! i = Some 0;
  ga_ref : grefs_ t' !! i = Some r;
  ga_serial : gserials_ t' !! i = Some v;
  ga_max : Z.of_nat i < kMaxSlots;
  ga_range : 0 <= v < kRetiredSerial;
  ga_le : serials_le (gserials_ t) (gserials_ t');
  ga_other : forall j, j <> i -> grefs_ t' !! j = grefs_ t !! j /\ gserials_ t' !! j = gserials_ t !! j;
}.

(** The free list is empty: [add] appends a slot. *)
Lemma global_add_fresh t r :
  global_wf t -> r <> 0 -> free_ t = [] -> Z.of_nat (length (grefs_ t)) < kMaxSlots ->
  let t' := {| kind_ := kind_ t; grefs_ := grefs_ t ++ [r];
               gserials_ := gserials_ t ++ [0]; free_ := [] |} in
  global_wf t' /\ global_added t t' (length (grefs_ t)) 0 r.
Proof.
  intros Hwf Hr Ef Hm t'. pose proof (gwf_len _ Hwf) as Hlen.
  set (i := length (grefs_ t)) in *.
  assert (forall j, j <> i -> grefs_ t' !! j = grefs_ t !! j /\ gserials_ t' !! j = gserials_ t !! j) as Ho.
  { intros j Hj. simpl. destruct (decide (j < i)%nat); [rewrite !lookup_app_l by lia; done|].
    rewrite !lookup_ge_None_2; rewrite ?length_app; simpl; done || lia. }
  assert (grefs_ t' !! i = Some r) as Hi1 by (apply lookup_snoc_Some; auto).
  assert (gserials_ t' !! i = Some 0) as Hi2 by (apply lookup_snoc_Some; auto).
  split; [split|split]; try done; simpl; rewrite ?length_app; simpl; try lia.
  - apply Forall_app. split; [apply Hwf|]. by repeat constructor.
  - constructor.
  - set_solver.
  - intros j x Hj Hx. destruct (decide (j = i)) as [->|Hne]; [by exists 0|].
    destruct (Ho j Hne) as [E1 E2]. simpl in *. rewrite E2.
    rewrite E1 in Hj. by apply (gwf_live _ Hwf j x).
  - intros j Hj. destruct (decide (j = i)) as [->|Hne]; [simpl in *; congruence|].
    destruct (Ho j Hne) as [E1 E2]. simpl in *. rewrite E2. rewrite E1 in Hj.
    pose proof (gwf_dead _ Hwf j Hj) as Hd. by rewrite Ef in Hd.
  - left. apply lookup_ge_None_2. lia.
  - apply serials_le_app.
Qed.

(** Otherwise it takes the slot at the back of the free list. *)
Lemma global_add_reuse t r i rest :
  global_wf t -> r <> 0 -> free_ t = i :: rest ->
  let t' := {| kind_ := kind_ t; grefs_ := <[i := r]> (grefs_ t);
               gserials_ := gserials_ t; free_ := rest |} in
  exists v, gserials_ t !! i = Some v /\ (i < length (grefs_ t))%nat /\
    global_wf t' /\ global_added t t' i v r.
Proof.
  intros Hwf Hr Ef t'. pose proof (gwf_len _ Hwf). pose proof (gwf_max _ Hwf).
  destruct (gwf_free _ Hwf i) as (Hi & v & Hv & Hlt); [rewrite Ef; set_solver|].
  pose proof (serials_ok_lookup _ _ _ (gwf_serials _ Hwf) Hv). pose proof (lookup_lt_Some _ _ _ Hi).
  pose proof (gwf_free_nodup _ Hwf) as Hnd. rewrite Ef in Hnd. apply NoDup_cons in Hnd as [Hni Hnd].
  exists v. split; [done|]. split; [done|].
  split; [split|split]; simpl; rewrite ?length_insert; try done; try lia; try apply Hwf.
  - intros j Hj. rewrite list_lookup_insert_ne by set_solver.
    apply (gwf_free _ Hwf). rewrite Ef. set_solver.
  - intros j x Hj Hx. destruct (decide (j = i)) as [->|Hne]; [eauto|].
    rewrite list_lookup_insert_ne in Hj by done. by apply (gwf_live _ Hwf j x).
  - intros j Hj. destruct (decide (j = i)) as [->|Hne].
    { rewrite list_lookup_insert_eq in Hj by done. congruence. }
    rewrite list_lookup_insert_ne in Hj by done. destruct (gwf_dead _ Hwf j Hj); [|by right].
    rewrite Ef in *. set_solver.
  - auto.
  - by apply list_lookup_insert_eq.
  - intros j Hj. by rewrite list_lookup_insert_ne.
Qed.

Lemma global_add_spec t r :
  global_wf t -> r <> 0 ->
  (exists t' i v, GlobalHandles_add t r = Ret (make_handle (kind_ t) (Z.of_nat i) v, t') /\
     global_wf t' /\ global_added t t' i v r) \/
  (GlobalHandles_add t r = Aborted /\ free_ t = [] /\ kMaxSlots <= Z.of_nat (length (grefs_ t))).
Proof.
  intros Hwf Hr. unfold GlobalHandles_add. destruct (Z.eqb_spec r 0); [done|].
  destruct (free_ t) as [|i rest] eqn:Ef.
  - case_decide; [by right|left].
    destruct (global_add_fresh t r) as [H1 H2]; [done..|lia|]. eauto 10.
  - left. destruct (global_add_reuse t r i rest) as (v & Hv & Hi & H1 & H2); [done..|].
    vec_simpl. eauto 10.
Qed.

Lemma global_live_inj t h h' r r' :
  0 <= h -> 0 <= h' -> global_live t h r -> global_live t h' r' ->
  handle_slot h = handle_slot h' -> h = h'.
Proof.
  intros H0 H0' (Hk & _ & _ & Hs) (Hk' & _ & _ & Hs') E. rewrite E in Hs.
  apply handle_fields_inj; [done..|congruence|].
  apply handle_kind_mod in Hk, Hk'. congruence.
Qed.

Lemma global_add_ok t r h t' :
  global_wf t -> r <> 0 -> GlobalHandles_add t r = Ret (h, t') ->
  global_wf t' /\ 0 < h < 2 ^ 32 /\ GlobalHandles_get t h = Ret None /\ ~ global_spent t h /\
  GlobalHandles_get t' h = Ret (Some r) /\
  (forall h', 0 <= h' -> h' <> h -> GlobalHandles_get t' h' = GlobalHandles_get t h').
Proof.
  intros Hwf Hr Hadd. destruct (global_add_spec t r Hwf Hr) as [(t2 & i & v & E & Hwf' & Ha)|(E & _)];
    rewrite Hadd in E; [|done]. injection E as -> ->. destruct Ha.
  destruct (handle_slot_make (kind_ t) i v) as (E1 & E2 & E3 & E4); [done..|].
  set (h := make_handle (kind_ t) (Z.of_nat i) v) in *.
  assert (global_live t2 h r) as Hl by (unfold global_live; rewrite E1, E2, ga_kind0; done).
  split_and!; try done; try lia.
  - destruct (global_get_spec t h Hwf) as [(x & _ & _ & Hx & Hxr & _)|(En & _)]; [lia| |done].
    rewrite E1 in Hxr. destruct ga_old0; congruence.
  - intros (_ & _ & w & Hw & Hlt). rewrite E1 in Hw.
    destruct (ga_le0 _ _ Hw) as (w' & Hw' & ?). simplify_eq. lia.
  - by apply global_get_live; [|lia|].
  - intros h' Hh' Hne. apply global_get_ext; [done..|]. intros x. unfold global_live at 1.
    destruct (decide (handle_slot h' = i)) as [Ei|Ei].
    + split.
      * intros (_ & Hx & Hxr & _). rewrite Ei in Hxr. destruct ga_old0; congruence.
      * intros Hl'. destruct Hne. eapply global_live_inj; eauto with lia.
    + destruct (ga_other0 _ Ei) as [R S]. unfold global_live. by rewrite R, S, ga_kind0.
Qed.

Lemma global_add_mono t r h t' :
  global_wf t -> GlobalHandles_add t r = Ret (h, t') ->
  kind_ t' = kind_ t /\ serials_le (gserials_ t) (gserials_ t').
Proof.
  intros Hwf Hadd. destruct (decide (r = 0)) as [->|Hr]; [by injection Hadd as <- <-|].
  destruct (global_add_spec t r Hwf Hr) as [(t2 & i & v & E & _ & [])|(E & _)];
    rewrite Hadd in E; by simplify_eq.
Qed.

Lemma global_removed_wf t i v :
  global_wf t -> gserials_ t !! i = Some v -> v < kRetiredSerial ->
  (exists r, grefs_ t !! i = Some r /\ r <> 0) ->
  global_wf {| kind_ := kind_ t; grefs_ := <[i := 0]> (grefs_ t);
               gserials_ := <[i := v + 1]> (gserials_ t);
               free_ := if v + 1 <? kRetiredSerial then i :: free_ t else free_ t |}.
Proof.
  intros Hwf Hv Hlt (r & Hr & Hr0). pose proof (lookup_lt_Some _ _ _ Hr) as Hi.
  pose proof (lookup_lt_Some _ _ _ Hv) as Hi'.
  pose proof (serials_ok_lookup _ _ _ (gwf_serials _ Hwf) Hv) as Hv0.
  assert (i ∉ free_ t) as Hnf.
  { intros Hf. destruct (gwf_free _ Hwf i Hf) as [? _]. congruence. }
  split; simpl; rewrite ?length_insert; try apply Hwf.
  - apply Forall_insert; [apply Hwf|lia].
  - case_match; [apply NoDup_cons; split; [done|]|]; apply Hwf.
  - intros j Hj. destruct (decide (j = i)) as [->|Hne].
    + rewrite !list_lookup_insert_eq by done. split; [done|]. eexists. split; [done|].
      destruct (Z.ltb_spec (v + 1) kRetiredSerial); [done|]. by destruct Hnf.
    + rewrite !list_lookup_insert_ne by done. apply (gwf_free _ Hwf). case_match; set_solver.
  - intros j x Hj Hx. destruct (decide (j = i)) as [->|Hne].
    { rewrite list_lookup_insert_eq in Hj by done. congruence. }
    rewrite list_lookup_insert_ne in Hj |- * by done. by apply (gwf_live _ Hwf j x).
  - intros j Hj. destruct (decide (j = i)) as [->|Hne].
    + rewrite list_lookup_insert_eq by done.
      destruct (Z.ltb_spec (v + 1) kRetiredSerial); [left; set_solver|right]. f_equal. lia.
    + rewrite list_lookup_insert_ne in Hj |- * by done.
      destruct (gwf_dead _ Hwf j Hj); [left|by right]. case_match; set_solver.
Qed.

Lemma global_remove_ok t h r :
  global_wf t -> 0 < h -> GlobalHandles_get t h = Ret (Some r) ->
  exists t', GlobalHandles_remove t h = Ret (Some r, t') /\ global_wf t' /\ global_spent t' h /\
    kind_ t' = kind_ t /\ serials_le (gserials_ t) (gserials_ t') /\
    (forall h', 0 <= h' -> h' <> h -> GlobalHandles_get t' h' = GlobalHandles_get t h').
Proof.
  intros Hwf Hh Hg. apply global_get_live in Hg as Hl; [|done|lia].
  pose proof Hl as (Hk & Hr & Hri & Hsi).
  unfold GlobalHandles_remove. destruct (Z.eqb_spec h 0); [lia|].
  rewrite decide_False by naive_solver. rewrite Hri. destruct (Z.eqb_spec r 0); [done|].
  vec_simpl. rewrite Z.eqb_refl. vec_simpl.
  destruct (gwf_live _ Hwf _ _ Hri Hr) as (v & Hv & Hlt). simplify_eq.
  pose proof (handle_serial_range h ltac:(lia)). change kRetiredSerial with 4096 in *.
  rewrite u16_small by lia. change 4096 with kRetiredSerial in *.
  eexists. split; [done|]. set (i := handle_slot h) in *.
  pose proof (global_removed_wf t i _ Hwf Hsi Hlt ltac:(eauto)) as Hwf'.
  pose proof (lookup_lt_Some _ _ _ Hri). pose proof (lookup_lt_Some _ _ _ Hsi).
  split_and!; [done| |done| |].
  - split_and!; [done..|]. exists (handle_serial h + 1). simpl. fold i.
    rewrite list_lookup_insert_eq by done. split; [done|lia].
  - intros j w Hj. simpl. destruct (decide (i = j)) as [<-|].
    + rewrite list_lookup_insert_eq by done. eexists. split; [done|]. simplify_eq. lia.
    + rewrite list_lookup_insert_ne by done. eauto with lia.
  - intros h' Hh' Hne. apply global_get_ext; [done..|]. intros x. unfold global_live. simpl.
    destruct (decide (handle_slot h' = i)) as [Ei|Ei].
    + rewrite Ei, !list_lookup_insert_eq by done. split; [|naive_solver].
      rewrite <- Ei. intros Hl'. destruct Hne.
      apply (global_live_inj t h' h x r); [done|lia|done|done|done].
    + by rewrite !list_lookup_insert_ne by done.
Qed.

#[global] Instance GlobalHandles_table : HandleTable GlobalHandles := {
  ht_wf := global_wf;
  ht_add := GlobalHandles_add;
  ht_get := GlobalHandles_get;
  ht_remove := GlobalHandles_remove;
  ht_spent := global_spent;
}.

Lemma global_spent_mono t t' h :
  kind_ t' = kind_ t -> serials_le (gserials_ t) (gserials_ t') -> global_spent t h -> global_spent t' h.
Proof.
  intros Ek Hle (Hpos & Hk & v & Hv & Hlt). destruct (Hle _ _ Hv) as (v' & Hv' & ?).
  repeat split; [done|congruence|]. eauto with lia.
Qed.

#[global] Instance GlobalHandles_laws : HandleTableLaws GlobalHandles.
Proof.
  split; simpl; intros.
  - destruct (decide (h = 0)) as [->|Hh]; [eauto|].
    destruct (global_get_spec t h) as [(r & E & _)|(E & _)]; eauto.
  - by apply global_add_ok.
  - unfold defined. destruct (decide (r = 0)) as [->|Hr]; [done|].
    destruct (global_add_spec t r) as [(? & ? & ? & E & _)|(E & _)]; [done..| |]; by rewrite E.
  - destruct (global_remove_ok t h r) as (t' & ? & ? & ? & _ & _ & ?); eauto 10.
  - destruct (decide (h = 0)) as [->|Hh]; [done|].
    destruct (global_get_spec t h) as [(r & E & _)|(_ & _ & E)]; [done..|congruence|done].
  - destruct H0 as (Hpos & Hk & v & Hv & Hlt).
    destruct (global_get_spec t h) as [(r & _ & _ & _ & _ & Hs)|(E & _)]; [done|lia| |done].
    simplify_eq. lia.
  - destruct (global_add_mono t r h' t'); eauto using global_spent_mono.
  - rename H2 into Hrm. destruct (decide (h' = 0)) as [->|Hh]; [by injection Hrm as <- <-|].
    destruct (global_get_spec t h') as [(r & E & _)|(_ & _ & E)]; [done..| |].
    + destruct (global_remove_ok t h' r) as (t2 & E2 & _ & _ & Ek & Hle & _); [done|lia|done|].
      rewrite Hrm in E2. injection E2 as -> ->. eauto using global_spent_mono.
    + rewrite Hrm in E. by injection E as -> ->.
Qed.

(** ** Histories of a table *)

Section Histories.
Context {T : Type} `{HandleTableLaws T}.

Inductive table_event := EvAdd (host_ref handle : Z) | EvRemove (handle : Z) (host_ref : option Z).

(** One call on the table. *)
Inductive table_step : T -> table_event -> T -> Prop :=
| ts_add t r h t' : ht_add t r = Ret (h, t') -> table_step t (EvAdd r h) t'
| ts_remove t h o t' :
    0 <= h < 2 ^ 32 -> ht_remove t h = Ret (o, t') -> table_step t (EvRemove h o) t'.

Inductive table_run : T -> list table_event -> T -> Prop :=
| tr_nil t : table_run t [] t
| tr_cons t e t1 es t2 : table_step t e t1 -> table_run t1 es t2 -> table_run t (e :: es) t2.

(** Adding null changes nothing; the tables return the null handle for it. *)
Definition adds_null_ok : Prop := forall t h t', ht_wf t -> ht_add t 0 = Ret (h, t') -> h = 0 /\ t' = t.
Definition removes_null_ok : Prop := forall t, ht_remove t 0 = Ret (Some 0, t).
Context (Hadd0 : adds_null_ok) (Hrem0 : removes_null_ok).

Lemma table_step_wf t e t' : ht_wf t -> table_step t e t' -> ht_wf t'.
Proof.
  intros Hwf Hs. destruct Hs as [t r h t' E|t h o t' Hh E].
  - destruct (decide (r = 0)) as [->|Hr]; [by destruct (Hadd0 _ _ _ Hwf E) as [_ ->]|].
    by destruct (ht_add_ok t r h t' Hwf Hr E).
  - destruct (decide (h = 0)) as [->|Hne]; [by rewrite Hrem0 in E; injection E as _ ->|].
    destruct (ht_get_total t h Hwf) as [[r|] Hg].
    + destruct (ht_remove_ok t h r Hwf) as (t2 & E2 & ? & _); [lia|done|].
      rewrite E in E2. by injection E2 as _ ->.
    + rewrite (ht_remove_invalid t h Hwf Hg) in E. by injection E as _ ->.
Qed.

Lemma table_run_wf t es t' : ht_wf t -> table_run t es t' -> ht_wf t'.
Proof. intros Hwf Hr. induction Hr; eauto using table_step_wf. Qed.

Lemma table_spent_step t e t' h : ht_wf t -> ht_spent t h -> table_step t e t' -> ht_spent t' h.
Proof.
  intros Hwf Hsp Hs. destruct Hs; eauto using ht_spent_add.
  eapply ht_spent_remove; eauto; lia.
Qed.

(** Once spent, a handle stays invalid and is never handed out again. *)
Lemma table_spent_run t es t' h :
  ht_wf t -> h <> 0 -> ht_spent t h -> table_run t es t' ->
  ht_get t' h = Ret None /\ forall r, EvAdd r h ∉ es.
Proof.
  intros Hwf Hh Hsp Hr. induction Hr as [t|t e t1 es t2 Hs Hr IH].
  - split; [by apply ht_spent_get|set_solver].
  - destruct IH as [Hg Hin]; [by eapply table_step_wf|by eapply table_spent_step|].
    split; [done|]. intros r Hel. apply elem_of_cons in Hel as [<-|Hel]; [|by eapply Hin].
    inversion Hs as [? ? ? ? E|]; subst. destruct (decide (r = 0)) as [->|Hr0].
    + by destruct (Hadd0 _ _ _ Hwf E) as [-> _].
    + destruct (ht_add_ok t r h t1 Hwf Hr0 E) as (_ & _ & _ & Hn & _). done.
Qed.
End Histories.

(** The history of a [LocalHandles] also opens and closes frames. *)
Inductive local_event :=
| LPush
| LPop (released : list Z)
| LTable (e : table_event).

Inductive local_step : LocalHandles -> local_event -> LocalHandles -> Prop :=
| ls_push t : local_step t LPush (LocalHandles_push_frame t)
| ls_pop t rel t' : LocalHandles_pop_frame t = Ret (rel, t') -> local_step t (LPop rel) t'
| ls_table t e t' : table_step t e t' -> local_step t (LTable e) t'.

Inductive local_run : LocalHandles -> list local_event -> LocalHandles -> Prop :=
| lr_nil t : local_run t [] t
| lr_cons t e t1 es t2 : local_step t e t1 -> local_run t1 es t2 -> local_run t (e :: es) t2.

Lemma local_adds_null : adds_null_ok (T := LocalHandles).
Proof. by intros t h t' _ [= <- <-]. Qed.
Lemma local_removes_null : removes_null_ok (T := LocalHandles).
Proof. done. Qed.
Lemma global_adds_null : adds_null_ok (T := GlobalHandles).
Proof. by intros t h t' _ [= <- <-]. Qed.
Lemma global_removes_null : removes_null_ok (T := GlobalHandles).
Proof. done. Qed.

Lemma local_pop_total t : local_wf t -> exists rel t', LocalHandles_pop_frame t = Ret (rel, t') /\
  local_wf t' /\ serials_le (serials_ t) (serials_ t').
Proof.
  intros Hwf. destruct (frame_starts_ t) as [|start rest] eqn:Ef.
  - exists [], t. unfold LocalHandles_pop_frame. by rewrite Ef.
  - destruct (local_pop_ok t start rest Hwf Ef) as (t' & E & ? & _ & ? & _). eauto.
Qed.

Lemma local_step_wf t e t' : local_wf t -> local_step t e t' -> local_wf t'.
Proof.
  intros Hwf Hs. destruct Hs as [t|t rel t' E|t e t' Hs].
  - by apply local_push_wf.
  - destruct (local_pop_total t Hwf) as (? & ? & E' & ? & _). rewrite E in E'. by injection E' as -> ->.
  - exact (table_step_wf local_adds_null local_removes_null t e t' Hwf Hs).
Qed.

Lemma local_run_wf t es t' : local_wf t -> local_run t es t' -> local_wf t'.
Proof. intros Hwf Hr. induction Hr; eauto using local_step_wf. Qed.

Lemma local_spent_step t e t' h : local_wf t -> local_spent t h -> local_step t e t' -> local_spent t' h.
Proof.
  intros Hwf Hsp Hs. destruct Hs as [t|t rel t' E|t e t' Hs].
  - done.
  - destruct (local_pop_total t Hwf) as (? & ? & E' & _ & ?). rewrite E in E'. injection E' as -> ->.
    eauto using local_spent_mono.
  - exact (table_spent_step t e t' h Hwf Hsp Hs).
Qed.

Lemma local_spent_run t es t' h :
  local_wf t -> local_spent t h -> local_run t es t' ->
  LocalHandles_get t' h = Ret None /\ forall r, LTable (EvAdd r h) ∉ es.
Proof.
  intros Hwf Hsp Hr. induction Hr as [t|t e t1 es t2 Hs Hr IH].
  - split; [by apply local_spent_get|set_solver].
  - destruct IH as [Hg Hin]; [by eapply local_step_wf|by eapply local_spent_step|].
    split; [done|]. intros r Hel. apply elem_of_cons in Hel as [<-|Hel]; [|by eapply Hin].
    inversion Hs; subst.
    destruct (table_spent_run local_adds_null local_removes_null t [EvAdd r h] t1 h) as [_ Hn];
      [done| |done|by eapply tr_cons; [done|constructor]|].
    { destruct Hsp as [? _]. lia. }
    apply (Hn r). set_solver.
Qed.

(** A step that makes a live handle invalid spends it. *)
Lemma local_invalidated_spent t e t' h r :
  local_wf t -> 0 < h -> LocalHandles_get t h = Ret (Some r) -> local_step t e t' ->
  LocalHandles_get t' h = Ret None -> local_spent t' h.
Proof.
  intros Hwf Hh Hg Hs Hn. destruct Hs as [t|t rel t' E|t e t' Hs];
    [| |destruct Hs as [t x h' t' E|t h' o t' Hh' E]].
  - change (LocalHandles_get t h = Ret None) in Hn. congruence.
  - unfold LocalHandles_pop_frame in E. destruct (frame_starts_ t) as [|start rest] eqn:Ef.
    { injection E as _ ->. congruence. }
    fold (LocalHandles_pop_frame t) in E.
    destruct (local_pop_ok t start rest Hwf Ef) as (t2 & E2 & _ & _ & _ & H1 & H2 & _).
    unfold LocalHandles_pop_frame in E2. rewrite Ef, E in E2. injection E2 as _ ->.
    destruct (decide (start <= handle_slot h)%nat).
    + apply (H1 h r); [done| |done]. apply local_get_live; [done|lia|done].
    + rewrite H2 in Hn by lia. congruence.
  - destruct (decide (x = 0)) as [->|Hx]; [injection E as _ <-; congruence|].
    destruct (local_add_ok t x h' t' Hwf Hx E) as (_ & _ & Hfresh & _ & _ & Ho).
    rewrite Ho in Hn; [congruence|lia|]. intros ->. congruence.
  - destruct (decide (h' = 0)) as [->|Hne]; [injection E as _ <-; congruence|].
    destruct (local_get_spec t h' Hwf Hne) as [(x & Hx & _)|[Hx _]].
    + destruct (local_remove_ok t h' x Hwf) as (t2 & E2 & _ & Hsp & _ & Ho); [lia|done|].
      simpl in E. rewrite E in E2. injection E2 as -> ->.
      destruct (decide (h = h')) as [->|]; [done|]. rewrite Ho in Hn; [congruence|lia|done].
    + simpl in E. rewrite (local_remove_invalid t h' Hx) in E. injection E as <- <-. congruence.
Qed.

(** ** Abstract specification of a table *)

(** A table is, abstractly, a finite map from live handles to references and
    the set of all handles ever issued. *)
Record abs_table := { abs_live : gmap Z Z; abs_issued : gset Z }.

Definition abs_init : abs_table := {| abs_live := ∅; abs_issued := ∅ |}.

Inductive abs_step : abs_table -> table_event -> abs_table -> Prop :=
| as_add a r h :
    r <> 0 -> 0 < h < 2 ^ 32 -> h ∉ abs_issued a ->
    abs_step a (EvAdd r h) {| abs_live := <[h := r]> (abs_live a); abs_issued := {[h]} ∪ abs_issued a |}
| as_add_null a : abs_step a (EvAdd 0 0) a
| as_remove a h r :
    h <> 0 -> abs_live a !! h = Some r ->
    abs_step a (EvRemove h (Some r)) {| abs_live := delete h (abs_live a); abs_issued := abs_issued a |}
| as_remove_invalid a h : h <> 0 -> abs_live a !! h = None -> abs_step a (EvRemove h None) a
| as_remove_null a : abs_step a (EvRemove 0 (Some 0)) a.

Inductive abs_run : abs_table -> list table_event -> abs_table -> Prop :=
| ar_nil a : abs_run a [] a
| ar_cons a e a1 es a2 : abs_step a e a1 -> abs_run a1 es a2 -> abs_run a (e :: es) a2.

(** Every handle a history hands out is recorded as issued. *)
Lemma abs_run_issued a es a' :
  abs_run a es a' -> forall r h, EvAdd r h ∈ es -> h ∈ abs_issued a' \/ h = 0.
Proof.
  assert (forall a es a', abs_run a es a' -> abs_issued a ⊆ abs_issued a') as Hmono.
  { intros b fs b' Hr. induction Hr as [|b e b1 fs b2 Hs Hr IH]; [done|].
    etrans; [|exact IH]. destruct Hs; set_solver. }
  intros Hr. induction Hr as [a|a e a1 es a2 Hs Hr IH]; intros r h Hin; [set_solver|].
  apply elem_of_cons in Hin as [<-|Hin]; [|eauto].
  pose proof (Hmono _ _ _ Hr). inversion Hs; subst; set_solver.
Qed.

Section Refinement.
Context {T : Type} `{HandleTableLaws T}.
Context (Hadd0 : adds_null_ok) (Hrem0 : removes_null_ok).

(** The table [t] represents [a]. *)
Definition represents (t : T) (a : abs_table) : Prop :=
  ht_wf t /\
  (forall h, 0 < h < 2 ^ 32 -> ht_get t h = Ret (abs_live a !! h)) /\
  (forall h, h ∈ abs_issued a -> 0 < h < 2 ^ 32 /\ (is_Some (abs_live a !! h) \/ ht_spent t h)).

Lemma represents_step t a e t' :
  represents t a -> table_step t e t' -> exists a', abs_step a e a' /\ represents t' a'.
Proof.
  intros (Hwf & Hget & Hiss) Hs. pose proof (table_step_wf Hadd0 Hrem0 _ _ _ Hwf Hs) as Hwf'.
  destruct Hs as [t r h t' E|t h o t' Hh E].
  - destruct (decide (r = 0)) as [->|Hr].
    { destruct (Hadd0 _ _ _ Hwf E) as [-> ->]. exists a. split; [constructor|done]. }
    destruct (ht_add_ok t r h t' Hwf Hr E) as (_ & Hh & Hfr & Hns & Hg & Ho).
    assert (h ∉ abs_issued a) as Hni.
    { intros Hi. destruct (Hiss h Hi) as [_ [Hl|Hl]]; [|done].
      rewrite (Hget h Hh) in Hfr. injection Hfr as Hfr. rewrite Hfr in Hl. by destruct Hl. }
    eexists. split; [by constructor|]. split_and!; [done| |]; simpl.
    + intros h' Hh'. destruct (decide (h' = h)) as [->|Hne]; [by rewrite lookup_insert_eq|].
      rewrite lookup_insert_ne by done. rewrite Ho by lia. auto.
    + intros h' [->%elem_of_singleton|Hi]%elem_of_union; [rewrite lookup_insert_eq; eauto|].
      destruct (Hiss h' Hi) as [Hr' Hl]. split; [done|].
      rewrite lookup_insert_ne by (intros ->; done).
      destruct Hl; eauto using ht_spent_add.
  - destruct (decide (h = 0)) as [->|Hne].
    { rewrite Hrem0 in E. injection E as <- <-. exists a. split; [constructor|done]. }
    assert (0 < h < 2 ^ 32) as Hh0 by lia. pose proof (Hget h Hh0) as Hg.
    destruct (abs_live a !! h) as [r|] eqn:El.
    + destruct (ht_remove_ok t h r Hwf) as (t2 & E2 & _ & Hsp & Ho); [lia|done|].
      rewrite E in E2. injection E2 as -> ->.
      eexists. split; [by constructor|]. split_and!; [done| |]; simpl.
      * intros h' Hh'. destruct (decide (h' = h)) as [->|Hn].
        { rewrite lookup_delete_eq. by apply ht_spent_get. }
        rewrite lookup_delete_ne by done. rewrite Ho by lia. auto.
      * intros h' Hi. destruct (Hiss h' Hi) as [Hr' Hl]. split; [done|].
        destruct (decide (h' = h)) as [->|Hn]; [by right|]. rewrite lookup_delete_ne by done.
        destruct Hl as [Hl|Hl]; [by left|right].
        apply (ht_spent_remove t h' h (Some r) t2); [done|done|lia|done].
    + rewrite (ht_remove_invalid t h Hwf Hg) in E. injection E as <- <-.
      exists a. split; [by constructor|done].
Qed.

Lemma represents_run t a es t' :
  represents t a -> table_run t es t' -> exists a', abs_run a es a' /\ represents t' a'.
Proof.
  intros HR Hr. revert a HR. induction Hr as [t|t e t1 es t2 Hs Hr IH]; intros a HR.
  - exists a. split; [constructor|done].
  - destruct (represents_step t a e t1 HR Hs) as (a1 & Ha & HR1).
    destruct (IH a1 HR1) as (a2 & Ha2 & HR2). exists a2. split; [by econstructor|done].
Qed.
End Refinement.

Lemma global_init_represents k : represents (GlobalHandles_init k) abs_init.
Proof.
  split_and!; [by apply global_wf_init| |set_solver].
  intros h Hh. change (abs_live abs_init) with (∅ : gmap Z Z). rewrite lookup_empty.
  simpl. unfold GlobalHandles_get.
  destruct (Z.eqb_spec h 0); [lia|]. by case_decide.
Qed.

(** ** IdTable *)

Record id_wf (t : IdTable) : Prop := {
  iwf_len : Z.of_nat (length (ids_ t)) < 2 ^ 32;
  iwf_index : forall k id, index_ t !! k = Some id <->
    1 <= id <= Z.of_nat (length (ids_ t)) /\ ids_ t !! Z.to_nat (id - 1) = Some k;
  iwf_nonzero : forall i, ids_ t !! i <> Some 0;
}.

Lemma id_wf_init : id_wf IdTable_init.
Proof.
  split; simpl; [lia| |by intros i; rewrite lookup_nil].
  intros k id. rewrite lookup_empty, lookup_nil. naive_solver.
Qed.

Lemma id_intern_wf t host_id :
  id_wf t -> Z.of_nat (length (ids_ t)) + 1 < 2 ^ 32 -> id_wf (IdTable_intern t host_id).2.
Proof.
  intros Hwf Hmax. unfold IdTable_intern. destruct (Z.eqb_spec host_id 0) as [|Hnz]; [done|].
  destruct (index_ t !! host_id) as [id|] eqn:Ei; [done|]. simpl.
  rewrite length_app. simpl. rewrite u32_small by lia.
  split; simpl; rewrite ?length_app; simpl; [lia| |].
  - intros k id. rewrite lookup_insert. case_decide as Hk.
    + subst k. split.
      * intros [= <-]. split; [lia|]. apply lookup_snoc_Some. right. split; [lia|done].
      * intros [Hid Hl]. f_equal. apply lookup_snoc_Some in Hl as [[Hlt Hl]|[He _]]; [|lia].
        assert (index_ t !! host_id = Some id) by (apply iwf_index; [done|split; [lia|done]]). congruence.
    + rewrite (iwf_index _ Hwf). split; intros [Hid Hl].
      * split; [lia|]. apply lookup_snoc_Some. left. split; [lia|done].
      * apply lookup_snoc_Some in Hl as [[Hlt Hl]|[_ He]]; [|congruence]. split; [lia|done].
  - intros i Hi. apply lookup_snoc_Some in Hi as [[_ Hi]|[_ Hi]]; [|congruence].
    by destruct (iwf_nonzero _ Hwf i).
Qed.

Lemma id_get_spec t id k :
  id_wf t -> 0 < id -> (IdTable_get t id = Ret (Some k) <-> index_ t !! k = Some id).
Proof.
  intros Hwf Hid. unfold IdTable_get. destruct (Z.eqb_spec id 0); [lia|].
  rewrite (iwf_index _ Hwf). case_decide as Hle; [split; [done|lia]|].
  destruct (vec_at_lt (ids_ t) (Z.to_nat (id - 1))) as (x & Hx & ->); [lia|]. simpl.
  rewrite Hx. split; [|naive_solver]. intros [= ->]. split; [lia|done].
Qed.

Lemma id_intern_index t host_id :
  host_id <> 0 -> index_ (IdTable_intern t host_id).2 !! host_id = Some (IdTable_intern t host_id).1 /\
  (forall k id, index_ t !! k = Some id -> index_ (IdTable_intern t host_id).2 !! k = Some id).
Proof.
  intros Hnz. unfold IdTable_intern. destruct (Z.eqb_spec host_id 0); [done|].
  destruct (index_ t !! host_id) as [id|] eqn:Ei; simpl; [done|].
  split; [apply lookup_insert_eq|]. intros k id Hk. rewrite lookup_insert_ne; [done|congruence].
Qed.

(** ** Properties *)

(** C11: a stale local handle never becomes valid again.  On a table reached by any
    history of [push_frame], [pop_frame], [add] and [remove] calls from the empty
    one, once a call has made a live handle invalid ([remove] of it, or
    [pop_frame] of the frame that holds it), [get] rejects it after every further
    sequence of calls, and no [add] of that sequence returns it. *)
Theorem local_stale_never_valid es0 t e t1 es t2 h r :
  local_run LocalHandles_init es0 t -> 0 < h ->
  LocalHandles_get t h = Ret (Some r) -> local_step t e t1 -> LocalHandles_get t1 h = Ret None ->
  local_run t1 es t2 ->
  LocalHandles_get t2 h = Ret None /\ forall r', LTable (EvAdd r' h) ∉ es.
Proof.
  intros H0 Hh Hg Hs Hn Hr. pose proof (local_run_wf _ _ _ local_wf_init H0) as Hwf.
  apply (local_spent_run t1 es t2 h); [by eapply local_step_wf| |done].
  by eapply local_invalidated_spent.
Qed.

(** [pop_frame] on a reachable table with an open frame returns exactly the
    host references still held by the slots of that frame, in slot order; every
    handle of the frame becomes invalid and every handle of an outer frame
    resolves as before. *)
Theorem local_pop_frame_exact es t start rest :
  local_run LocalHandles_init es t -> frame_starts_ t = start :: rest ->
  exists t', LocalHandles_pop_frame t = Ret (filter (fun r => r <> 0) (drop start (refs_ t)), t') /\
    frame_starts_ t' = rest /\
    (forall h, (handle_slot h < start)%nat -> LocalHandles_get t' h = LocalHandles_get t h) /\
    (forall h, h <> 0 -> (start <= handle_slot h)%nat -> LocalHandles_get t' h = Ret None).
Proof.
  intros Hr Ef. pose proof (local_run_wf _ _ _ local_wf_init Hr) as Hwf.
  destruct (local_pop_ok t start rest Hwf Ef) as (t' & E & _ & Ef' & _ & _ & H1 & H2). eauto 10.
Qed.

(** no call on a reachable [LocalHandles] reads or writes outside a vector;
    [add] of a non-null reference either returns a non-null 32-bit handle that
    resolves to that reference and leaves every other handle as it was, or aborts
    because every slot from the top of the stack up to the 2^18 limit is retired. *)
Theorem local_calls_safe es t r h :
  local_run LocalHandles_init es t -> 0 <= h ->
  (exists o, LocalHandles_get t h = Ret o) /\
  (exists o t', LocalHandles_remove t h = Ret (o, t')) /\
  (exists rel t', LocalHandles_pop_frame t = Ret (rel, t')) /\
  (r <> 0 ->
    (exists h1 t', LocalHandles_add t r = Ret (h1, t') /\ 0 < h1 < 2 ^ 32 /\
       LocalHandles_get t' h1 = Ret (Some r) /\
       forall h', 0 <= h' -> h' <> h1 -> LocalHandles_get t' h' = LocalHandles_get t h') \/
    (LocalHandles_add t r = Aborted /\ kMaxSlots <= Z.of_nat (local_add_index t))).
Proof.
  intros Hr Hh. pose proof (local_run_wf _ _ _ local_wf_init Hr) as Hwf.
  split_and!.
  - by apply local_get_total.
  - destruct (local_get_total t h Hwf) as [[x|] Hg].
    + destruct (decide (h = 0)) as [->|Hne]; [by exists (Some 0), t|].
      destruct (local_remove_ok t h x Hwf) as (t' & E & _); [lia|done|]. eauto.
    + exists None, t. by apply local_remove_invalid.
  - destruct (local_pop_total t Hwf) as (rel & t' & E & _). eauto.
  - intros Hr0. destruct (local_add_total t r Hwf) as [(h1 & t' & E)|E]; [left|by right].
    destruct (local_add_ok t r h1 t' Hwf Hr0 E) as (_ & ? & _ & _ & ? & ?). eauto 10.
Qed.

(** [GlobalHandles] implements its abstract specification, a finite map from
    live handles together with the set of all handles ever issued: every history
    of [add] and [remove] calls from an empty table is a history of the
    specification, in which [add] always picks a handle that was never issued
    before, and after it [get] is lookup in the abstract map. *)
Theorem global_refines_abstract k es t :
  table_run (GlobalHandles_init k) es t ->
  exists a, abs_run abs_init es a /\
    forall h, 0 < h < 2 ^ 32 -> GlobalHandles_get t h = Ret (abs_live a !! h).
Proof.
  intros Hr.
  destruct (represents_run global_adds_null global_removes_null _ _ _ _ (global_init_represents k) Hr)
    as (a & Ha & _ & Hg & _). eauto.
Qed.

(** [GlobalHandles::add] does not abort while a slot can be had: on a table
    reached by any history, if there are fewer than 2^18 slots, or some slot holds
    no reference and is not retired, then adding a non-null reference returns a
    handle that resolves to it and was never issued before. *)
Theorem global_add_succeeds k es t r :
  table_run (GlobalHandles_init k) es t -> r <> 0 ->
  Z.of_nat (length (grefs_ t)) < kMaxSlots \/
    (exists i, grefs_ t !! i = Some 0 /\ gserials_ t !! i <> Some kRetiredSerial) ->
  exists h t', GlobalHandles_add t r = Ret (h, t') /\ GlobalHandles_get t' h = Ret (Some r) /\
    forall r', EvAdd r' h ∉ es.
Proof.
  intros Hr Hr0 Hslot.
  destruct (represents_run global_adds_null global_removes_null _ _ _ _ (global_init_represents k) Hr)
    as (a & Ha & HR). pose proof HR as (Hwf & _).
  destruct (global_add_spec t r Hwf Hr0) as [(t' & i & v & E & _ & _)|(_ & Ef & Hm)].
  - destruct (global_add_ok t r _ t' Hwf Hr0 E) as (_ & Hh & _ & _ & Hg & _).
    eexists _, t'. split; [done|]. split; [done|]. intros r' Hin.
    assert (table_step t (EvAdd r (make_handle (kind_ t) (Z.of_nat i) v)) t') as Hstep by (by constructor).
    destruct (represents_step global_adds_null global_removes_null t a _ t' HR Hstep) as (a' & Hs & _).
    inversion Hs; subst; [|done].
    apply (abs_run_issued _ _ _ Ha r') in Hin as [?|?]; [done|lia].
  - destruct Hslot as [?|(i & Hi & Hn)]; [lia|].
    destruct (gwf_dead _ Hwf i Hi) as [Hd|]; [|done]. rewrite Ef in Hd. set_solver.
Qed.

(** interning ids is a round trip: on a well-formed [IdTable] with room for
    one more 32-bit id, [get] of the id that [intern] returns gives the host id
    back, ids issued earlier keep their meaning, interning again returns the same
    id, and the table stays well formed. *)
Theorem id_intern_roundtrip t host_id :
  id_wf t -> host_id <> 0 -> Z.of_nat (length (ids_ t)) + 1 < 2 ^ 32 ->
  let '(id, t') := IdTable_intern t host_id in
  id_wf t' /\ 0 < id < 2 ^ 32 /\ IdTable_get t' id = Ret (Some host_id) /\
  IdTable_intern t' host_id = (id, t') /\
  (forall id' k, 0 < id' -> IdTable_get t id' = Ret (Some k) -> IdTable_get t' id' = Ret (Some k)).
Proof.
  intros Hwf Hnz Hmax. pose proof (id_intern_wf t host_id Hwf Hmax) as Hwf'.
  destruct (id_intern_index t host_id Hnz) as [Hi Hmono].
  destruct (IdTable_intern t host_id) as [id t'] eqn:E. simpl in *.
  assert (1 <= id <= Z.of_nat (length (ids_ t'))) as Hid by by apply (iwf_index _ Hwf' host_id id).
  pose proof (iwf_len _ Hwf'). split_and!; [done|lia|lia| | |].
  - apply id_get_spec; [done|lia|done].
  - unfold IdTable_intern. destruct (Z.eqb_spec host_id 0); [done|]. by rewrite Hi.
  - intros id' k Hid' Hg. apply id_get_spec in Hg; [|done..]. apply id_get_spec; auto.
Qed.

(** ** Witnesses *)

Definition local_ex1 : LocalHandles := Eval vm_compute in
  match LocalHandles_add LocalHandles_init 77 with Ret (_, t) => t | _ => LocalHandles_init end.
Definition local_ex2 : LocalHandles := Eval vm_compute in
  match LocalHandles_remove local_ex1 1 with Ret (_, t) => t | _ => LocalHandles_init end.
Definition local_ex3 : LocalHandles := Eval vm_compute in
  match LocalHandles_add local_ex2 78 with Ret (_, t) => t | _ => LocalHandles_init end.

Lemma local_ex1_run : local_run LocalHandles_init [LTable (EvAdd 77 1)] local_ex1.
Proof. repeat econstructor. Qed.

Lemma local_stale_never_valid_witness :
  LocalHandles_get local_ex3 1 = Ret None /\ forall r', LTable (EvAdd r' 1) ∉ [LTable (EvAdd 78 5)].
Proof.
  apply (local_stale_never_valid [LTable (EvAdd 77 1)] local_ex1 (LTable (EvRemove 1 (Some 77)))
           local_ex2 [LTable (EvAdd 78 5)] local_ex3 1 77).
  - apply local_ex1_run.
  - lia.
  - reflexivity.
  - apply ls_table, ts_remove; [lia|reflexivity].
  - reflexivity.
  - repeat econstructor.
Defined.

Lemma local_pop_frame_exact_witness :
  exists t', LocalHandles_pop_frame local_ex1 = Ret ([77], t') /\ frame_starts_ t' = [] /\
    (forall h, (handle_slot h < 0)%nat -> LocalHandles_get t' h = LocalHandles_get local_ex1 h) /\
    (forall h, h <> 0 -> (0 <= handle_slot h)%nat -> LocalHandles_get t' h = Ret None).
Proof.
  apply (local_pop_frame_exact [LTable (EvAdd 77 1)] local_ex1 O []).
  - apply local_ex1_run.
  - reflexivity.
Defined.

Lemma local_calls_safe_witness : exists o, LocalHandles_get local_ex1 1 = Ret o.
Proof.
  apply (local_calls_safe [LTable (EvAdd 77 1)] local_ex1 5 1); [apply local_ex1_run|lia].
Defined.

Definition global_ex1 : GlobalHandles := Eval vm_compute in
  match GlobalHandles_add (GlobalHandles_init Global) 77 with
  | Ret (_, t) => t | _ => GlobalHandles_init Global end.

Lemma global_refines_abstract_witness :
  exists a, abs_run abs_init [EvAdd 77 2] a /\
    forall h, 0 < h < 2 ^ 32 -> GlobalHandles_get global_ex1 h = Ret (abs_live a !! h).
Proof. apply (global_refines_abstract Global). repeat econstructor. Defined.

Lemma global_add_succeeds_witness :
  exists h t', GlobalHandles_add global_ex1 78 = Ret (h, t') /\ GlobalHandles_get t' h = Ret (Some 78) /\
    forall r', EvAdd r' h ∉ [EvAdd 77 2].
Proof.
  apply (global_add_succeeds Global [EvAdd 77 2] global_ex1 78).
  - repeat econstructor.
  - lia.
  - left. vm_compute. reflexivity.
Defined.

Lemma id_intern_roundtrip_witness :
  IdTable_get (IdTable_intern IdTable_init 99).2 1 = Ret (Some 99).
Proof.
  destruct (id_intern_roundtrip IdTable_init 99 id_wf_init ltac:(lia) ltac:(simpl; lia))
    as (_ & _ & H & _). exact H.
Defined.
