(* ===== verification/JniNames.v ===== *)
(** * JNI names and signatures

    The pure string routines of the JNI bridge:
    - [Shorty]: [core/src/jni/shorty.cpp], a method signature to its shorty;
    - [Descriptor]: [core/src/jni/descriptor.cpp], [Class.getName()] text to JNI
      descriptors;
    - [Mangle]: [core/src/jni/mangle.cpp], decoding of [Java_*] export names.

    A [std::string] or [std::string_view] is a [list ascii].  A scan position
    [pos] into a view is represented by the suffix of the view that starts at
    [pos]; "advance" returns the shorter suffix. *)

From Stdlib Require Import Ascii.
From stdpp Require Import numbers strings gmap list.
From S2P Require Import Prelude.
Local Open Scope Z_scope.

(** A string literal as a list of characters. *)
Definition lit (s : string) : list ascii := String.list_ascii_of_string s.
#[global] Arguments lit : simpl never.

(** The code of a character, as an unsigned byte. *)
Definition code (c : ascii) : Z := Z.of_N (N_of_ascii c).

(** [s.find_first_of(set)]: what precedes the first hit, the hit, what follows it. *)
Fixpoint find_first_of (chars : list ascii) (s : list ascii) : option (list ascii * ascii * list ascii) :=
  match s with
  | [] => None
  | c :: s' =>
      if decide (c ∈ chars) then Some ([], c, s')
      else match find_first_of chars s' with
           | Some (before, hit, after) => Some (c :: before, hit, after)
           | None => None
           end
  end.

(** [s.find(cc) != npos] for a doubled character. *)
Fixpoint has_double (c : ascii) (s : list ascii) : bool :=
  match s with
  | x :: ((y :: _) as s') => (bool_decide (x = c) && bool_decide (y = c)) || has_double c s'
  | _ => false
  end.

Lemma has_double_cons c x y s :
  has_double c (x :: y :: s) = (bool_decide (x = c) && bool_decide (y = c)) || has_double c (y :: s).
Proof. done. Qed.

(** ** Shorty *)

Module Shorty.

Definition prims : list ascii := lit "ZBCSIJFD".

Definition is_prim (c : ascii) : bool := bool_decide (c ∈ prims).

(** The test on a class name between ['L'] and [';']. *)
Definition class_name_ok (name : list ascii) : bool :=
  negb (bool_decide (name = []) || bool_decide (head name = Some "/"%char) ||
        bool_decide (last name = Some "/"%char) || has_double "/"%char name).

(** [while (pos < s.size() && s[pos] == '[') { ++pos; ++dims; }] *)
Fixpoint skip_dims (s : list ascii) (dims : Z) : Z * list ascii :=
  match s with
  | c :: s' => if decide (c = "["%char) then skip_dims s' (dims + 1) else (dims, s)
  | [] => (dims, [])
  end.

(** [parse_type]: the shorty letter and the suffix after the type, [None] for the
    result 0.  [fuel] bounds the recursion on array element types; two calls are
    always enough, since the element of an array does not start with a bracket. *)
Fixpoint parse_type_fuel (fuel : nat) (s : list ascii) (void_ok : bool) : option (ascii * list ascii) :=
  match fuel with
  | O => None
  | S fuel' =>
      match s with
      | [] => None
      | c :: s' =>
          if is_prim c then Some (c, s')
          else if decide (c = "V"%char) then
            if void_ok then Some ("V"%char, s') else None
          else if decide (c = "L"%char) then
            match find_first_of (lit ";()[.") s' with
            | Some (name, hit, after) =>
                if decide (hit = ";"%char) then
                  if class_name_ok name then Some ("L"%char, after) else None
                else None
            | None => None
            end
          else if decide (c = "["%char) then
            let '(dims, rest) := skip_dims s 0 in
            if 255 <? dims then None
            else match parse_type_fuel fuel' rest false with
                 | Some (_, after) => Some ("L"%char, after)
                 | None => None
                 end
          else None
      end
  end.

Definition parse_type (s : list ascii) (void_ok : bool) : option (ascii * list ascii) :=
  parse_type_fuel 2 s void_ok.
#[global] Arguments parse_type : simpl never.

(** The loop over the parameters: letters parsed so far and the suffix at the
    [')'] (or the end).  Every round consumes a character, so [fuel] is the
    length of the suffix. *)
Fixpoint parse_params (fuel : nat) (s : list ascii) (parameters : list ascii)
    : option (list ascii * list ascii) :=
  match s with
  | [] => Some (parameters, [])
  | c :: _ =>
      if decide (c = ")"%char) then Some (parameters, s)
      else
        match fuel with
        | O => None
        | S fuel' =>
            match parse_type s false with
            | Some (type, s') => parse_params fuel' s' (parameters ++ [type])
            | None => None
            end
        end
  end.

Definition shorty_from_signature (signature : list ascii) : option (list ascii) :=
  match signature with
  | c :: s =>
      if decide (c = "("%char) then
        match parse_params (length s) s [] with
        | Some (parameters, _ :: s') =>
            match parse_type s' true with
            | Some (return_type, []) => Some (return_type :: parameters)
            | _ => None
            end
        | _ => None
        end
      else None
  | [] => None
  end.

End Shorty.

(** ** Descriptor *)

Module Descriptor.

(** The loop of [valid_segments], with [previous] the character before. *)
Fixpoint segments_loop (previous : ascii) (name : list ascii) (separator other : ascii) : bool :=
  match name with
  | [] => true
  | c :: name' =>
      if bool_decide (c = "["%char) || bool_decide (c = ";"%char) || bool_decide (c = other) then false
      else if bool_decide (c = separator) && bool_decide (previous = separator) then false
      else segments_loop c name' separator other
  end.

Definition valid_segments (name : list ascii) (separator other : ascii) : bool :=
  if bool_decide (name = []) || bool_decide (head name = Some separator) ||
     bool_decide (last name = Some separator) then false
  else segments_loop "000"%char name separator other.

Definition replace_all (name : list ascii) (from to : ascii) : list ascii :=
  (fun c => if decide (c = from) then to else c) <$> name.

Definition is_primitive_letter (c : ascii) : bool := bool_decide (c ∈ lit "ZBCSIJFD").

Definition jni_binary_class_name (internal_name : list ascii) : option (list ascii) :=
  if valid_segments internal_name "/" "." then Some (replace_all internal_name "/" ".") else None.

Definition kPrimitives : list (list ascii * list ascii) :=
  [(lit "boolean", lit "Z"); (lit "byte", lit "B"); (lit "char", lit "C"); (lit "short", lit "S");
   (lit "int", lit "I"); (lit "long", lit "J"); (lit "float", lit "F"); (lit "double", lit "D");
   (lit "void", lit "V")].

Fixpoint primitive_letter (table : list (list ascii * list ascii)) (class_name : list ascii)
    : option (list ascii) :=
  match table with
  | [] => None
  | (name, letter) :: table' =>
      if decide (class_name = name) then Some letter else primitive_letter table' class_name
  end.

(** [find_first_not_of('[')]: the brackets and what follows them. *)
Fixpoint split_dims (s : list ascii) : nat * list ascii :=
  match s with
  | c :: s' => if decide (c = "["%char) then let '(n, e) := split_dims s' in (S n, e) else (O, s)
  | [] => (O, [])
  end.

Definition jni_type_descriptor (class_name : list ascii) (is_primitive : bool) : option (list ascii) :=
  if is_primitive then primitive_letter kPrimitives class_name
  else if decide (class_name = []) then None
  else if decide (head class_name <> Some "["%char) then
    if valid_segments class_name "." "/"
    then Some (lit "L" ++ replace_all class_name "." "/" ++ lit ";") else None
  else
    let '(dimensions, element) := split_dims class_name in
    if decide (element = []) then None
    else if bool_decide (length element = 1%nat) &&
            match head element with Some c => is_primitive_letter c | None => false end
    then Some class_name
    else if bool_decide (length element < 3)%nat || negb (bool_decide (head element = Some "L"%char)) ||
            negb (bool_decide (last element = Some ";"%char)) then None
    else
      let inner := take (length element - 2) (drop 1 element) in
      if valid_segments inner "." "/"
      then Some (replicate dimensions "["%char ++ lit "L" ++ replace_all inner "." "/" ++ lit ";")
      else None.

Fixpoint append_parameters (parameters : list (list ascii)) (out : list ascii) : option (list ascii) :=
  match parameters with
  | [] => Some out
  | parameter :: rest =>
      if bool_decide (parameter = []) || bool_decide (parameter = lit "V") then None
      else append_parameters rest (out ++ parameter)
  end.

Definition jni_method_descriptor (parameters : list (list ascii)) (result : list ascii)
    : option (list ascii) :=
  if decide (result = []) then None
  else match append_parameters parameters (lit "(") with
       | Some out => Some (out ++ lit ")" ++ result)
       | None => None
       end.

End Descriptor.

(** ** Mangle *)

Module Mangle.

Definition byte_char (z : Z) : ascii := ascii_of_N (Z.to_N (u8 z)).

Definition append_utf8 (out : list ascii) (unit : Z) : list ascii :=
  if unit <? 0x80 then out ++ [byte_char unit]
  else if unit <? 0x800 then
    out ++ [byte_char (Z.lor 0xC0 (Z.shiftr unit 6)); byte_char (Z.lor 0x80 (Z.land unit 0x3F))]
  else
    out ++ [byte_char (Z.lor 0xE0 (Z.shiftr unit 12));
            byte_char (Z.lor 0x80 (Z.land (Z.shiftr unit 6) 0x3F));
            byte_char (Z.lor 0x80 (Z.land unit 0x3F))].

Definition hex_value (c : ascii) : Z :=
  if (code "0" <=? code c) && (code c <=? code "9") then code c - code "0"
  else if (code "a" <=? code c) && (code c <=? code "f") then code c - code "a" + 10
  else -1.

Definition is_ascii_alnum (c : ascii) : bool :=
  ((code "A" <=? code c) && (code c <=? code "Z")) ||
  ((code "a" <=? code c) && (code c <=? code "z")) ||
  ((code "0" <=? code c) && (code c <=? code "9")).

Definition has_canonical_form (unit : Z) : bool :=
  if 0x7F <? unit then false
  else
    let c := byte_char unit in
    is_ascii_alnum c || bool_decide (c ∈ lit "./_;[").

(** The four digits of an ["_0xxxx"] escape. *)
Definition hex_unit (d1 d2 d3 d4 : ascii) : option Z :=
  if (hex_value d1 <? 0) || (hex_value d2 <? 0) || (hex_value d3 <? 0) || (hex_value d4 <? 0)
  then None
  else Some (((hex_value d1 * 16 + hex_value d2) * 16 + hex_value d3) * 16 + hex_value d4).

Definition is_escape_digit (c : ascii) : bool := (code "0" <=? code c) && (code c <=? code "3").

(** [decode_part]: [None] for [false], otherwise the suffix at the new [pos], the
    extended [out] and [hit_separator]. *)
Fixpoint decode_part (s out : list ascii) : option (list ascii * list ascii * bool) :=
  match s with
  | [] => Some ([], out, false)
  | c :: s1 =>
      if decide (c <> "_"%char) then
        if is_ascii_alnum c then decode_part s1 (out ++ [c]) else None
      else
        match s1 with
        | [] => None
        | d :: s2 =>
            if decide (d = "1"%char) then decode_part s2 (out ++ ["_"%char])
            else if decide (d = "2"%char) then decode_part s2 (out ++ [";"%char])
            else if decide (d = "3"%char) then decode_part s2 (out ++ ["["%char])
            else if decide (d = "0"%char) then
              match s2 with
              | h1 :: h2 :: h3 :: h4 :: s3 =>
                  match hex_unit h1 h2 h3 h4 with
                  | Some unit =>
                      if (unit =? 0) || has_canonical_form unit then None
                      else decode_part s3 (append_utf8 out unit)
                  | None => None
                  end
              | _ => None
              end
            else if decide (d = "_"%char) then
              match s2 with
              | e :: _ =>
                  if is_escape_digit e then decode_part s1 (out ++ ["/"%char])
                  else Some (s2, out, true)
              | [] => Some (s2, out, true)
              end
            else decode_part s1 (out ++ ["/"%char])
        end
  end.

Record JniExport := {
  class_name : list ascii;
  method : list ascii;
  arguments : option (list ascii);
}.

(** [path.rfind('/')]: what precedes and what follows the last slash. *)
Fixpoint split_last_slash (s : list ascii) : option (list ascii * list ascii) :=
  match s with
  | [] => None
  | c :: s' =>
      match split_last_slash s' with
      | Some (before, after) => Some (c :: before, after)
      | None => if decide (c = "/"%char) then Some ([], s') else None
      end
  end.

Definition decode_jni_export (symbol : list ascii) : option JniExport :=
  if decide (take 5 symbol = lit "Java_") then
    match decode_part (drop 5 symbol) [] with
    | None => None
    | Some (rest, path, separator) =>
        if bool_decide (head path = Some "/"%char) || bool_decide (last path = Some "/"%char) ||
           has_double "/"%char path || bool_decide (";"%char ∈ path) || bool_decide ("["%char ∈ path)
        then None
        else
          match split_last_slash path with
          | None => None
          | Some (cls, meth) =>
              if bool_decide (cls = []) || bool_decide (meth = []) then None
              else if separator then
                match decode_part rest [] with
                | Some (_, args, false) =>
                    Some {| class_name := cls; method := meth;
                            arguments := Some (lit "(" ++ args ++ lit ")") |}
                | _ => None
                end
              else Some {| class_name := cls; method := meth; arguments := None |}
          end
    end
  else None.

End Mangle.

(** ** The grammar of signatures *)

Module Grammar.
Import Shorty.

(** A type that is not an array: a primitive letter or a class name. *)
Inductive elem := EPrim (c : ascii) | EClass (name : list ascii).

(** A type: an element under [dims] array dimensions. *)
Record jtype := { dims : nat; elt : elem }.

Inductive jresult := RVoid | RType (t : jtype).

Definition print_elem (e : elem) : list ascii :=
  match e with
  | EPrim c => [c]
  | EClass name => "L"%char :: name ++ [";"%char]
  end.

Definition print_type (t : jtype) : list ascii := replicate (dims t) "["%char ++ print_elem (elt t).

Definition print_result (r : jresult) : list ascii :=
  match r with RVoid => lit "V" | RType t => print_type t end.

Definition print_signature (params : list jtype) (r : jresult) : list ascii :=
  lit "(" ++ concat (print_type <$> params) ++ lit ")" ++ print_result r.

(** A binary class name: non-empty, no delimiter, no leading, trailing or doubled slash. *)
Definition name_ok (name : list ascii) : Prop :=
  Forall (fun c => c ∉ lit ";()[.") name /\ name <> [] /\
  head name <> Some "/"%char /\ last name <> Some "/"%char /\ has_double "/"%char name = false.

Definition elem_ok (e : elem) : Prop :=
  match e with EPrim c => c ∈ prims | EClass name => name_ok name end.

(** The JVM limits arrays to 255 dimensions. *)
Definition type_ok (t : jtype) : Prop := (dims t <= 255)%nat /\ elem_ok (elt t).

Definition result_ok (r : jresult) : Prop :=
  match r with RVoid => True | RType t => type_ok t end.

Definition elem_letter (e : elem) : ascii :=
  match e with EPrim c => c | EClass _ => "L"%char end.

Definition letter (t : jtype) : ascii :=
  match dims t with O => elem_letter (elt t) | S _ => "L"%char end.

Definition result_letter (r : jresult) : ascii :=
  match r with RVoid => "V"%char | RType t => letter t end.

End Grammar.

Lemma find_first_of_spec cs s before hit after :
  find_first_of cs s = Some (before, hit, after) <->
  s = before ++ hit :: after /\ hit ∈ cs /\ Forall (fun c => c ∉ cs) before.
Proof.
  revert before. induction s as [|c s IH]; intros before; simpl.
  { split; [done|]. intros (E & _). by destruct before. }
  case_decide as Hc.
  - split; [intros [= <- <- <-]; auto|]. intros (E & Hh & Hb).
    destruct before as [|b before]; simplify_eq/=; [done|]. by inversion Hb.
  - destruct (find_first_of cs s) as [[[b h] a]|] eqn:Ef.
    + split.
      * intros [= <- <- <-]. destruct (proj1 (IH b) eq_refl) as (-> & Hh & Hb). auto.
      * intros (E & Hh & Hb). destruct before as [|x before]; simplify_eq/=; [done|].
        apply Forall_cons in Hb as [_ Hb]. pose proof (proj2 (IH before) (conj eq_refl (conj Hh Hb))).
        by simplify_eq.
    + split; [done|]. intros (E & Hh & Hb). destruct before as [|x before]; simplify_eq/=; [done|].
      apply Forall_cons in Hb as [_ Hb]. by pose proof (proj2 (IH before) (conj eq_refl (conj Hh Hb))).
Qed.

Module ShortyFacts.
Import Shorty Grammar.

Lemma class_name_ok_spec name :
  class_name_ok name = true <-> name <> [] /\ head name <> Some "/"%char /\
    last name <> Some "/"%char /\ has_double "/"%char name = false.
Proof.
  unfold class_name_ok. rewrite negb_true_iff, !orb_false_iff, !bool_decide_eq_false. tauto.
Qed.

Lemma is_prim_spec c : is_prim c = true <-> c ∈ prims.
Proof. apply bool_decide_eq_true. Qed.

(** No primitive letter collides with the other cases of the switch. *)
Lemma prims_other c : c ∈ prims -> c <> "V"%char /\ c <> "L"%char /\ c <> "["%char /\ c <> ")"%char.
Proof.
  unfold prims, lit. cbn. intros H.
  repeat (apply elem_of_cons in H as [->|H]; [done|]). set_solver.
Qed.

Lemma parse_nonarray f s v :
  head s <> Some "["%char -> parse_type_fuel (S f) s v = parse_type_fuel 1 s v.
Proof.
  intros Hs. destruct s as [|c s]; [done|]. simpl in *.
  repeat case_match; try done; naive_solver.
Qed.

Lemma parse_elem s c rest v :
  head s <> Some "["%char ->
  parse_type_fuel 1 s v = Some (c, rest) <->
  (exists e, elem_ok e /\ s = print_elem e ++ rest /\ c = elem_letter e) \/
  (v = true /\ c = "V"%char /\ s = "V"%char :: rest).
Proof.
  intros Hs. destruct s as [|x s]; simpl.
  { split; [done|]. intros [(e & _ & E & _)|(_ & _ & E)]; [|done]. by destruct e. }
  destruct (is_prim x) eqn:Ep.
  { apply is_prim_spec in Ep. destruct (prims_other x Ep) as (H1 & H2 & _). split.
    - intros [= <- <-]. left. by exists (EPrim x).
    - intros [([y|name] & He & E & ->)|(_ & _ & E)]; simpl in *; naive_solver. }
  case_decide as HV.
  { subst x. split.
    - destruct v; [|done]. intros [= <- <-]. by right.
    - intros [([y|name] & He & E & ->)|(-> & -> & E)]; simplify_eq/=; [|done].
      by destruct (prims_other _ He) as [[] _]. }
  case_decide as HL.
  { subst x. split.
    - destruct (find_first_of (lit ";()[.") s) as [[[name hit] after]|] eqn:Ef; [|done].
      apply find_first_of_spec in Ef as (-> & _ & Hn). case_decide; [|done]. subst hit.
      destruct (class_name_ok name) eqn:En; [|done]. intros [= <- <-].
      apply class_name_ok_spec in En. left. exists (EClass name). split_and!; [|simpl|done].
      + by split.
      + by rewrite <- app_assoc.
    - intros [([y|name] & He & E & ->)|(_ & _ & E)]; simplify_eq/=.
      + by destruct (prims_other _ He) as (_ & [] & _).
      + destruct He as [Hd Hn]. rewrite <- app_assoc. simpl.
        rewrite (proj2 (find_first_of_spec (lit ";()[.") _ name ";"%char rest)); [|by split_and!; [|left|]].
        rewrite decide_True by done. by rewrite (proj2 (class_name_ok_spec name)). }
  case_decide as Hb; [naive_solver|]. split; [done|].
  intros [([y|name] & He & E & ->)|(_ & _ & E)]; simplify_eq/=.
  by rewrite (proj2 (is_prim_spec y) He) in Ep.
Qed.

Lemma skip_dims_spec s n :
  exists k rest, skip_dims s n = (n + Z.of_nat k, rest) /\ s = replicate k "["%char ++ rest /\
    head rest <> Some "["%char.
Proof.
  revert n. induction s as [|c s IH]; intros n; simpl.
  - exists O, []. by rewrite Z.add_0_r.
  - case_decide as Hc.
    + subst c. destruct (IH (n + 1)) as (k & rest & -> & -> & Hr). exists (S k), rest.
      split; [f_equal; lia|done].
    + exists O, (c :: s). rewrite Z.add_0_r. split_and!; naive_solver.
Qed.

Lemma elem_not_bracket e rest : elem_ok e -> head (print_elem e ++ rest) <> Some "["%char.
Proof. destruct e; simpl; intros He; [|done]. apply prims_other in He. naive_solver. Qed.

Lemma bracket_split k k' (r r' : list ascii) :
  head r <> Some "["%char -> head r' <> Some "["%char ->
  replicate k "["%char ++ r = replicate k' "["%char ++ r' -> k = k' /\ r = r'.
Proof.
  intros Hr Hr'. revert k'. induction k as [|k IH]; intros [|k'] E; simpl in E; simplify_eq/=.
  - done.
  - destruct (IH k') as [-> ->]; done.
Qed.

(** [parse_type] recognises exactly the types of the grammar; two levels of
    recursion are enough, as more fuel never changes the answer. *)
Lemma parse_type_spec f s c rest :
  parse_type_fuel (S (S f)) s false = Some (c, rest) <->
  exists t, type_ok t /\ s = print_type t ++ rest /\ c = letter t.
Proof.
  destruct (decide (head s = Some "["%char)) as [Hb|Hb].
  - destruct s as [|x s]; [done|]. simpl in Hb. simplify_eq.
    destruct (skip_dims_spec ("["%char :: s) 0) as (k & r & Es & Er & Hr).
    assert (parse_type_fuel (S (S f)) ("["%char :: s) false =
      if 255 <? 0 + Z.of_nat k then None else
      match parse_type_fuel (S f) r false with Some (_, after) => Some ("L"%char, after) | None => None end) as ->.
    { change (parse_type_fuel (S (S f)) ("["%char :: s) false) with
        (let '(d, r0) := skip_dims ("["%char :: s) 0 in if 255 <? d then None
         else match parse_type_fuel (S f) r0 false with
              | Some (_, after) => Some ("L"%char, after) | None => None end). by rewrite Es. }
    destruct k as [|k]; [simpl in Er; naive_solver|]. rewrite (parse_nonarray f) by done. split.
    + destruct (Z.ltb_spec 255 (0 + Z.of_nat (S k))); [done|].
      destruct (parse_type_fuel 1 r false) as [[c' after]|] eqn:Ep; [|done]. intros [= <- <-].
      apply parse_elem in Ep as [(e & He & -> & _)|(? & _)]; [|done..].
      exists {| dims := S k; elt := e |}. split_and!; [split; simpl; [lia|done]| |done].
      unfold print_type. simpl. rewrite Er. by rewrite <- app_assoc.
    + intros ([d e] & [Hd He] & E & ->). unfold print_type in E. cbn [dims elt] in *. rewrite <- app_assoc in E.
      destruct (bracket_split (S k) d r (print_elem e ++ rest)) as [<- ->];
        [done|by apply elem_not_bracket|exact (eq_trans (eq_sym Er) E)|].
      destruct (Z.ltb_spec 255 (0 + Z.of_nat (S k))); [lia|].
      rewrite (proj2 (parse_elem (print_elem e ++ rest) (elem_letter e) rest false Hr)); [done|]. left. eauto.
  - rewrite parse_nonarray by done. rewrite parse_elem by done. split.
    + intros [(e & He & -> & ->)|(? & _)]; [|done].
      exists {| dims := 0; elt := e |}. split_and!; [split; simpl; [lia|done]|done|done].
    + intros ([d e] & [Hd He] & E & ->). destruct d as [|d]; [left; eauto|].
      destruct Hb. by rewrite E.
Qed.

Lemma parse_result_spec s c rest :
  parse_type s true = Some (c, rest) <->
  exists r, result_ok r /\ s = print_result r ++ rest /\ c = result_letter r.
Proof.
  unfold parse_type. assert (forall x, parse_type_fuel 2 s false = Some x -> parse_type_fuel 2 s true = Some x) as Hv.
  { intros x. destruct s as [|y s]; [done|]. simpl. repeat case_match; done. }
  split.
  - intros H. destruct (parse_type_fuel 2 s false) as [[c' r']|] eqn:E.
    + rewrite (Hv _ eq_refl) in H. injection H as -> ->.
      apply parse_type_spec in E as (t & ? & ? & ?). by exists (RType t).
    + assert (head s <> Some "["%char) as Hb.
      { intros Hb. destruct s as [|y s]; [done|]. simpl in Hb. simplify_eq.
        change (parse_type_fuel 2 ("["%char :: s) true) with (parse_type_fuel 2 ("["%char :: s) false) in H.
        congruence. }
      rewrite parse_nonarray in H, E by done.
      apply parse_elem in H as [He|(_ & -> & ->)]; [|by exists RVoid|done].
      assert (parse_type_fuel 1 s false = Some (c, rest)) by (apply parse_elem; auto). congruence.
  - intros ([|t] & Ht & -> & ->); [done|]. apply Hv, parse_type_spec. eauto.
Qed.

Lemma print_type_cons t : type_ok t -> exists c l, print_type t = c :: l /\ c <> ")"%char.
Proof.
  destruct t as [[|d] [c|name]]; unfold print_type; simpl; intros [_ He]; eexists _, _; split; try done.
  by destruct (prims_other _ He) as (_ & _ & _ & ?).
Qed.

Lemma parse_params_sound fuel s acc out s' :
  parse_params fuel s acc = Some (out, s') ->
  exists ts, Forall type_ok ts /\ s = concat (print_type <$> ts) ++ s' /\ out = acc ++ (letter <$> ts) /\
    (s' = [] \/ head s' = Some ")"%char).
Proof.
  assert (forall (acc s : list ascii), s = [] \/ head s = Some ")"%char ->
    exists ts, Forall type_ok ts /\ s = concat (print_type <$> ts) ++ s /\ acc = acc ++ (letter <$> ts) /\
      (s = [] \/ head s = Some ")"%char)) as Hstop.
  { intros a l Hl. exists []. split_and!; simpl; rewrite ?app_nil_r; done. }
  revert s acc. induction fuel as [|fuel IH]; intros [|c s] acc; simpl.
  1,3: intros [= <- <-]; auto.
  - case_decide; [|done]. subst. intros [= <- <-]. auto.
  - case_decide; [subst; intros [= <- <-]; auto|].
    destruct (parse_type (c :: s) false) as [[type rest]|] eqn:Ep; [|done].
    intros (ts & Hts & -> & -> & Hs')%IH. apply parse_type_spec in Ep as (t & Ht & E & ->).
    exists (t :: ts). split_and!; [by constructor| | |done]; simpl.
    + by rewrite E, <- app_assoc.
    + by rewrite <- app_assoc.
Qed.

Lemma parse_params_complete ts fuel acc rest :
  Forall type_ok ts -> (length (concat (print_type <$> ts)) <= fuel)%nat ->
  parse_params fuel (concat (print_type <$> ts) ++ ")"%char :: rest) acc =
    Some (acc ++ (letter <$> ts), ")"%char :: rest).
Proof.
  intros Hts. revert fuel acc. induction Hts as [|t ts Ht Hts IH]; intros fuel acc Hf.
  - simpl. rewrite app_nil_r. destruct fuel; simpl; done.
  - rewrite !fmap_cons in *. cbn [concat] in *. rewrite <- app_assoc. destruct (print_type_cons t Ht) as (c & l & Ec & Hc).
    rewrite length_app in Hf.
    assert (parse_type (print_type t ++ concat (print_type <$> ts) ++ ")"%char :: rest) false =
      Some (letter t, concat (print_type <$> ts) ++ ")"%char :: rest)) as Ep.
    { apply parse_type_spec. eauto. }
    rewrite Ec in *. destruct fuel as [|fuel]; [simpl in Hf; lia|]. simpl in *.
    rewrite decide_False by done. rewrite Ep, IH by lia. by rewrite <- app_assoc.
Qed.

End ShortyFacts.

(** ** Properties of signatures *)

(** Acceptance is exactly membership in the printed grammar. *)
Lemma signature_grammar signature out :
  Shorty.shorty_from_signature signature = Some out <->
  exists params result, Forall Grammar.type_ok params /\ Grammar.result_ok result /\
    signature = Grammar.print_signature params result /\
    out = Grammar.result_letter result :: (Grammar.letter <$> params).
Proof.
  unfold Shorty.shorty_from_signature, Grammar.print_signature. split.
  - destruct signature as [|c s]; [done|]. case_decide as Hc; [|done]. subst c.
    destruct (Shorty.parse_params (length s) s []) as [[ps [|x s']]|] eqn:Ep; [done| |done].
    destruct (Shorty.parse_type s' true) as [[rt [|]]|] eqn:Er; [|done..].
    intros [= <-]. apply ShortyFacts.parse_params_sound in Ep as (ts & Hts & -> & -> & [?|Hx]); [done|].
    simpl in Hx. injection Hx as ->.
    apply ShortyFacts.parse_result_spec in Er as (r & Hr & -> & ->).
    exists ts, r. rewrite app_nil_r. done.
  - intros (ts & r & Hts & Hr & -> & ->). change (lit "(") with ["("%char]. change (lit ")") with [")"%char].
    simpl. rewrite ShortyFacts.parse_params_complete; [|done|rewrite length_app; lia].
    simpl. rewrite (proj2 (ShortyFacts.parse_result_spec _ (Grammar.result_letter r) [])); [done|].
    exists r. by rewrite app_nil_r.
Qed.

(** C13: [shorty_from_signature] accepts exactly the printed form of a method
    signature (types with at most 255 dimensions, class names without delimiters
    and without empty segments, void only as the result), and returns its result
    letter followed by its parameter letters.  In particular it always terminates
    with the answer, and parsing is a left inverse of printing. *)
Theorem shorty_from_signature_spec signature out :
  Shorty.shorty_from_signature signature = Some out <->
  exists params result, Forall Grammar.type_ok params /\ Grammar.result_ok result /\
    signature = Grammar.print_signature params result /\
    out = Grammar.result_letter result :: (Grammar.letter <$> params).
Proof. apply signature_grammar. Qed.

Module DescriptorFacts.
Import Descriptor Grammar.

Lemma segments_loop_spec previous name sep other :
  segments_loop previous name sep other = true ->
  Forall (fun c => c <> "["%char /\ c <> ";"%char /\ c <> other) name /\ has_double sep (previous :: name) = false.
Proof.
  revert previous. induction name as [|c name IH]; intros previous; [done|].
  rewrite has_double_cons. cbn [segments_loop].
  destruct (bool_decide (c = "["%char) || bool_decide (c = ";"%char) || bool_decide (c = other)) eqn:Eb; [done|].
  rewrite !orb_false_iff, !bool_decide_eq_false in Eb.
  destruct (bool_decide (c = sep) && bool_decide (previous = sep)) eqn:Es; [done|].
  intros [H1 H2]%IH. split; [constructor; [tauto|done]|]. rewrite andb_comm in Es. by rewrite Es, H2.
Qed.

Lemma valid_segments_spec name sep other :
  valid_segments name sep other = true ->
  name <> [] /\ head name <> Some sep /\ last name <> Some sep /\
  Forall (fun c => c <> "["%char /\ c <> ";"%char /\ c <> other) name /\ has_double sep name = false.
Proof.
  unfold valid_segments.
  destruct (bool_decide (name = []) || bool_decide (head name = Some sep) || bool_decide (last name = Some sep)) eqn:E;
    [done|]. rewrite !orb_false_iff, !bool_decide_eq_false in E. destruct E as [[Ha Hb] Hc].
  intros [H1 H2]%segments_loop_spec. split_and!; [done..|].
  destruct name as [|c name]; [done|]. rewrite has_double_cons in H2. by apply orb_false_iff in H2 as [_ H2].
Qed.

(** How replacing a separator acts on the tests of a class name. *)
Lemma replace_all_double name from to :
  to ∉ name -> has_double to (replace_all name from to) = has_double from name.
Proof.
  induction name as [|x name IH]; [done|]. intros Hn. destruct name as [|y name]; [done|].
  assert (forall z, z ∈ x :: y :: name ->
    bool_decide ((if decide (z = from) then to else z) = to) = bool_decide (z = from)) as Hz.
  { intros z Hin. apply bool_decide_ext. case_decide; [naive_solver|]. split; [|naive_solver].
    intros ->. by destruct Hn. }
  change (replace_all (x :: y :: name) from to) with
    ((if decide (x = from) then to else x) :: replace_all (y :: name) from to) in *.
  change (replace_all (y :: name) from to) with
    ((if decide (y = from) then to else y) :: replace_all name from to) in *.
  rewrite !has_double_cons, !Hz by set_solver. f_equal. apply IH. set_solver.
Qed.

Lemma replace_all_last name from to :
  last (replace_all name from to) = (fun c => if decide (c = from) then to else c) <$> last name.
Proof. unfold replace_all. by rewrite fmap_last. Qed.

Lemma dotted_name_ok name :
  valid_segments name "." "/" = true -> "("%char ∉ name -> ")"%char ∉ name ->
  name_ok (replace_all name "." "/").
Proof.
  intros (Hne & Hh & Hl & Hall & Hd)%valid_segments_spec Hp1 Hp2.
  assert ("/"%char ∉ name) as Hs. { intros Hin. eapply Forall_forall in Hall; [|done]. naive_solver. }
  split_and!.
  - apply Forall_fmap, Forall_forall. intros c Hin. unfold compose.
    eapply Forall_forall in Hall; [|done]. change (lit ";()[.") with [";"; "("; ")"; "["; "."]%char.
    case_decide; [set_solver|].
    intros [->|[->|[->|[->|[->|[]%elem_of_nil]%elem_of_cons]%elem_of_cons]%elem_of_cons]%elem_of_cons]%elem_of_cons;
      naive_solver.
  - by destruct name.
  - destruct name as [|c name]; [done|]. simpl in *. case_decide; [naive_solver|].
    intros [= ->]. set_solver.
  - rewrite replace_all_last. destruct (last name) as [c|] eqn:El; [|done]. simpl.
    case_decide; [naive_solver|]. intros [= ->]. apply last_Some_elem_of in El. done.
  - by rewrite replace_all_double.
Qed.

Lemma split_dims_spec s :
  let '(n, e) := split_dims s in s = replicate n "["%char ++ e /\ head e <> Some "["%char.
Proof.
  induction s as [|c s IH]; simpl; [done|]. case_decide as Hc; [|naive_solver].
  destruct (split_dims s) as [n e]. destruct IH as [-> ?]. by subst c.
Qed.

(** A descriptor of a class or array class is the printed form of a type whose
    shorty letter is ['L']. *)
Lemma class_descriptor_type name d :
  jni_type_descriptor name false = Some d -> "("%char ∉ name -> ")"%char ∉ name ->
  ((split_dims name).1 <= 255)%nat ->
  exists t, type_ok t /\ d = print_type t /\ letter t = "L"%char.
Proof.
  unfold jni_type_descriptor. intros H Hp1 Hp2 Hd.
  case_decide as Hnil; [done|]. case_decide as Hb.
  { destruct (valid_segments name "." "/") eqn:Ev; [|done]. injection H as <-.
    exists {| dims := 0; elt := EClass (replace_all name "." "/") |}.
    split_and!; [split; [simpl; lia|by apply dotted_name_ok]|done|done]. }
  pose proof (split_dims_spec name) as Hsp. destruct (split_dims name) as [n e]. simpl in Hd.
  destruct Hsp as [Ename He]. destruct n as [|n].
  { simpl in Ename. subst e. destruct Hb. naive_solver. }
  case_decide as Henil; [done|].
  destruct (bool_decide (length e = 1%nat) &&
    match head e with Some c => is_primitive_letter c | None => false end) eqn:Ep.
  - injection H as <-. apply andb_true_iff in Ep as [El%bool_decide_eq_true Ec].
    destruct e as [|c [|]]; try done. simpl in Ec. apply bool_decide_eq_true in Ec.
    exists {| dims := S n; elt := EPrim c |}. split_and!; done.
  - destruct (bool_decide (length e < 3)%nat || negb (bool_decide (head e = Some "L"%char)) ||
      negb (bool_decide (last e = Some ";"%char))) eqn:El; [done|].
    rewrite !orb_false_iff, !negb_false_iff, bool_decide_eq_false, !bool_decide_eq_true in El.
    destruct El as [[Hlen Hhead] Hlast].
    set (inner := take (length e - 2) (drop 1 e)) in *.
    destruct (valid_segments inner "." "/") eqn:Ev; [|done]. injection H as <-.
    assert (inner ⊆ name) as Hin.
    { intros c Hc. rewrite Ename. apply elem_of_app. right.
      apply (subseteq_drop 1), (subseteq_take (length e - 2)), Hc. }
    exists {| dims := S n; elt := EClass (replace_all inner "." "/") |}.
    split_and!; [split; [done|apply dotted_name_ok; [done|set_solver..]]|done|done].
Qed.

Lemma primitive_letter_in table name d :
  primitive_letter table name = Some d -> d ∈ table.*2.
Proof.
  induction table as [|[n l] table IH]; simpl; [done|].
  case_decide; [intros [= <-]; left|intros Hd; right; auto].
Qed.

Lemma primitive_descriptor name d :
  jni_type_descriptor name true = Some d ->
  d = lit "V" \/ exists c, d = [c] /\ c ∈ Shorty.prims.
Proof.
  intros H%primitive_letter_in. revert d H. apply Forall_forall.
  repeat apply Forall_cons_2; try apply Forall_nil_2;
    first [left; reflexivity|right; eexists; split; [reflexivity|apply (bool_decide_unpack _); vm_compute; exact I]].
Qed.
End DescriptorFacts.

(** A reflected Java type: its [Class.getName()] text and [Class.isPrimitive()]. *)
Definition reflected : Type := list ascii * bool.

(** The names the reflection backend passes: no parentheses, at most 255 dimensions. *)
Definition reflected_ok (c : reflected) : Prop :=
  c.2 = false -> "("%char ∉ c.1 /\ ")"%char ∉ c.1 /\ ((Descriptor.split_dims c.1).1 <= 255)%nat.

(** The shorty letter of a reflected type with descriptor [d]. *)
Definition reflected_letter (c : reflected) (d : list ascii) : ascii :=
  if c.2 then default "V"%char (head d) else "L"%char.

Lemma reflected_result c d :
  reflected_ok c -> Descriptor.jni_type_descriptor c.1 c.2 = Some d ->
  exists r, Grammar.result_ok r /\ d = Grammar.print_result r /\ Grammar.result_letter r = reflected_letter c d /\
    (d <> lit "V" -> exists t, r = Grammar.RType t).
Proof.
  destruct c as [name [|]]; unfold reflected_letter; simpl; intros Hok Hd.
  - destruct (DescriptorFacts.primitive_descriptor name d Hd) as [->|(c & -> & Hc)].
    + exists Grammar.RVoid. done.
    + exists (Grammar.RType {| Grammar.dims := 0; Grammar.elt := Grammar.EPrim c |}).
      split_and!; [split; [simpl; lia|done]|done..|by eauto].
  - destruct Hok as (H1 & H2 & H3); [done|].
    destruct (DescriptorFacts.class_descriptor_type name d Hd H1 H2 H3) as (t & Ht & -> & El).
    exists (Grammar.RType t). split_and!; [done..|by eauto].
Qed.

Lemma append_parameters_spec ps out :
  Forall (fun p => p <> [] /\ p <> lit "V") ps ->
  Descriptor.append_parameters ps out = Some (out ++ concat ps).
Proof.
  intros H. revert out. induction H as [|p ps [Hn Hv] _ IH]; intros out; simpl.
  - by rewrite app_nil_r.
  - rewrite !bool_decide_eq_false_2 by done. simpl. by rewrite IH, app_assoc.
Qed.

(** the descriptors the reflection helpers build are signatures the bridge
    accepts.  If every parameter and the result of a method have a type
    descriptor ([jni_type_descriptor]), no parameter is void, and the class names
    carry no parentheses and at most 255 dimensions, then
    [jni_method_descriptor] builds a signature and [shorty_from_signature] turns
    it into the result letter followed by the parameter letters. *)
Theorem method_descriptor_has_shorty (params : list reflected) (result : reflected) pds rd :
  Forall reflected_ok params -> reflected_ok result ->
  Forall2 (fun c d => Descriptor.jni_type_descriptor c.1 c.2 = Some d /\ d <> lit "V") params pds ->
  Descriptor.jni_type_descriptor result.1 result.2 = Some rd ->
  exists signature,
    Descriptor.jni_method_descriptor pds rd = Some signature /\
    Shorty.shorty_from_signature signature =
      Some (reflected_letter result rd :: zip_with reflected_letter params pds).
Proof.
  intros Hps Hr Hpd Hrd. destruct (reflected_result result rd Hr Hrd) as (r & Hrok & -> & Elr & _).
  assert (exists ts, Forall Grammar.type_ok ts /\ pds = Grammar.print_type <$> ts /\
    Grammar.letter <$> ts = zip_with reflected_letter params pds) as (ts & Hts & -> & Els).
  { clear -Hps Hpd. induction Hpd as [|c d params pds [Hd Hv] _ IH]; [by exists []|].
    apply Forall_cons in Hps as [Hc Hps]. destruct (IH Hps) as (ts & Hts & -> & Els).
    destruct (reflected_result c d Hc Hd) as (r & Hrok & -> & El & Ht).
    destruct (Ht Hv) as [t ->]. exists (t :: ts).
    split_and!; [by constructor|done|]. rewrite fmap_cons. cbn [zip_with]. rewrite <- Els.
    simpl in El. by rewrite El. }
  exists (Grammar.print_signature ts r). split.
  - unfold Descriptor.jni_method_descriptor.
    assert (Grammar.print_result r <> []) as Hne.
    { destruct r as [|[[|] []]]; done. }
    rewrite decide_False by done. rewrite append_parameters_spec; [unfold Grammar.print_signature; by rewrite <- app_assoc|].
    apply Forall_fmap, Forall_forall. intros t Ht. eapply Forall_forall in Hts; [|exact Ht].
    unfold compose. split.
    + by destruct t as [[|] []].
    + intros E. apply (f_equal (fun s => Shorty.parse_type s false)) in E.
      cbv beta in E. unfold Shorty.parse_type in E.
      rewrite (proj2 (ShortyFacts.parse_type_spec 0 (Grammar.print_type t) (Grammar.letter t) [])) in E; [done|].
      exists t. by rewrite app_nil_r.
  - apply signature_grammar. exists ts, r. by rewrite Elr, Els.
Qed.

(** ** The reference mangling *)

(** The JNI specification mangles a sequence of UTF-16 code units: ASCII letters
    and digits stand for themselves, ['/'] becomes ["_"], ['_'] ["_1"], [';']
    ["_2"], ['['] ["_3"], and any other unit ["_0xxxx"] in lowercase hex. *)
Module Mangling.
Import Mangle.

Definition hex_digit (n : Z) : ascii := byte_char (if n <? 10 then 48 + n else 87 + n).

Definition plain_unit (u : Z) : bool := (u <? 0x80) && is_ascii_alnum (byte_char u).

Definition mangle_unit (u : Z) : list ascii :=
  if u =? 47 then ["_"%char]
  else if u =? 95 then ["_"; "1"]%char
  else if u =? 59 then ["_"; "2"]%char
  else if u =? 91 then ["_"; "3"]%char
  else if plain_unit u then [byte_char u]
  else ["_"%char; "0"%char; hex_digit (u / 4096); hex_digit (u / 256 mod 16);
        hex_digit (u / 16 mod 16); hex_digit (u mod 16)].

Definition mangle (us : list Z) : list ascii := concat (mangle_unit <$> us).

(** Modified UTF-8 of a sequence of code units, surrogates kept apart. *)
Definition utf8 (us : list Z) : list ascii := concat (append_utf8 [] <$> us).

(** A unit of an internal name or signature: not NUL and not ['.']. *)
Definition unit_ok (u : Z) : Prop := 0 < u < 2 ^ 16 /\ u <> 46.

(** No slash is last, doubled, or before a digit 0 to 3 (where the mangling is ambiguous). *)
Fixpoint slash_ok (us : list Z) : Prop :=
  match us with
  | [] => True
  | u :: us' =>
      (u = 47 -> exists v us'', us' = v :: us'' /\ v <> 47 /\ ~ 48 <= v <= 51) /\ slash_ok us'
  end.

Definition mangle_export (cls meth : list Z) (args : option (list Z)) : list ascii :=
  lit "Java_" ++ mangle (cls ++ 47 :: meth) ++
  match args with Some a => lit "__" ++ mangle a | None => [] end.
End Mangling.

Module MangleFacts.
Import Mangle Mangling.

Lemma byte_char_code z : 0 <= z < 256 -> code (byte_char z) = z.
Proof.
  intros Hz. unfold code, byte_char. rewrite u8_small by (change (2 ^ 8) with 256; lia).
  rewrite N_ascii_embedding by lia. lia.
Qed.

Lemma code_inj c d : code c = code d -> c = d.
Proof.
  unfold code. intros H%N2Z.inj. rewrite <- (ascii_N_embedding c), <- (ascii_N_embedding d). by f_equal.
Qed.

Lemma byte_char_code_inv c : byte_char (code c) = c.
Proof.
  apply code_inj, byte_char_code. unfold code. pose proof (N_ascii_bounded c). lia.
Qed.

Lemma code_range c : 0 <= code c < 256.
Proof. unfold code. pose proof (N_ascii_bounded c). lia. Qed.

Lemma byte_char_eq z c : 0 <= z < 256 -> byte_char z = c <-> z = code c.
Proof.
  intros Hz. split; [intros <-; by rewrite byte_char_code|intros ->; apply byte_char_code_inv].
Qed.

Lemma append_utf8_app out u : append_utf8 out u = out ++ append_utf8 [] u.
Proof. unfold append_utf8. by repeat case_match. Qed.

Lemma utf8_cons u us : utf8 (u :: us) = append_utf8 [] u ++ utf8 us.
Proof. done. Qed.
Lemma utf8_app us vs : utf8 (us ++ vs) = utf8 us ++ utf8 vs.
Proof. unfold utf8. by rewrite fmap_app, concat_app. Qed.
Lemma mangle_cons u us : mangle (u :: us) = mangle_unit u ++ mangle us.
Proof. done. Qed.

(** The bytes of one unit, arithmetically. *)
Lemma append_utf8_value u :
  0 <= u < 2 ^ 16 ->
  append_utf8 [] u =
    if u <? 128 then [byte_char u]
    else if u <? 2048 then [byte_char (192 + u / 64); byte_char (128 + u mod 64)]
    else [byte_char (224 + u / 4096); byte_char (128 + u / 64 mod 64); byte_char (128 + u mod 64)].
Proof.
  intros Hu. unfold append_utf8. simpl.
  assert (forall b, 0 <= b < 64 -> Z.lor 0x80 b = 128 + b) as H80.
  { intros b Hb. change 0x80 with (Z.shiftl 2 6). rewrite lor_shiftl_add by lia. done. }
  change 0x3F with (2 ^ 6 - 1). rewrite !land_ones_mod, !Z.shiftr_div_pow2 by lia.
  pose proof (Z.mod_pos_bound u 64 ltac:(lia)). pose proof (Z.mod_pos_bound (u / 64) 64 ltac:(lia)).
  change (2 ^ 6) with 64. change (2 ^ 12) with 4096. rewrite !H80 by done.
  destruct (Z.ltb_spec u 0x80); [done|]. destruct (Z.ltb_spec u 0x800).
  - change 0xC0 with (Z.shiftl 3 6). rewrite lor_shiftl_add; [done|lia|]. split; [apply Z.div_pos; lia|].
    change (2 ^ 6) with 64. apply Z.div_lt_upper_bound; lia.
  - change 0xE0 with (Z.shiftl 14 4). rewrite lor_shiftl_add; [done|lia|]. split; [apply Z.div_pos; lia|].
    change (2 ^ 4) with 16. apply Z.div_lt_upper_bound; lia.
Qed.

(** The value ranges of the bytes of a unit, for [lia]. *)
Lemma unit_byte_ranges u :
  0 <= u < 2 ^ 16 ->
  u = u / 64 * 64 + u mod 64 /\ 0 <= u mod 64 < 64 /\
  u / 64 = u / 4096 * 64 + u / 64 mod 64 /\ 0 <= u / 64 mod 64 < 64 /\
  0 <= u / 4096 < 16.
Proof.
  intros Hu. pose proof (Z.div_mod u 64). pose proof (Z.mod_pos_bound u 64).
  pose proof (Z.div_mod (u / 64) 64). pose proof (Z.mod_pos_bound (u / 64) 64).
  rewrite Z.div_div in * by lia. change (64 * 64) with 4096 in *. lia.
Qed.

Lemma byte_char_inj a b : 0 <= a < 256 -> 0 <= b < 256 -> byte_char a = byte_char b -> a = b.
Proof. intros Ha Hb E%(f_equal code). by rewrite !byte_char_code in E by done. Qed.

(** The encoding of a unit is a prefix code. *)
Lemma append_utf8_prefix u v a b :
  0 <= u < 2 ^ 16 -> 0 <= v < 2 ^ 16 ->
  append_utf8 [] u ++ a = append_utf8 [] v ++ b -> u = v /\ a = b.
Proof.
  intros Hu Hv. rewrite !append_utf8_value by done.
  pose proof (unit_byte_ranges u Hu). pose proof (unit_byte_ranges v Hv).
  destruct (Z.ltb_spec u 128), (Z.ltb_spec v 128); try destruct (Z.ltb_spec u 2048);
    try destruct (Z.ltb_spec v 2048); simpl; intros E; simplify_eq/=;
    repeat match goal with
    | H : byte_char _ = byte_char _ |- _ => apply byte_char_inj in H; [|lia..]
    end; split; (done || lia).
Qed.

Lemma append_utf8_nonnil u : append_utf8 [] u <> [].
Proof. unfold append_utf8. by repeat case_match. Qed.

Lemma utf8_inj us vs : Forall unit_ok us -> Forall unit_ok vs -> utf8 us = utf8 vs -> us = vs.
Proof.
  intros Hus. revert vs. induction Hus as [|u us Hu Hus IH]; intros vs Hvs E.
  - destruct vs as [|v vs]; [done|]. rewrite utf8_cons in E. symmetry in E.
    by apply app_eq_nil in E as [?%append_utf8_nonnil _].
  - destruct Hvs as [|v vs Hv Hvs].
    { rewrite utf8_cons in E. by apply app_eq_nil in E as [?%append_utf8_nonnil _]. }
    rewrite !utf8_cons in E. destruct Hu as [Hu _], Hv as [Hv _].
    apply append_utf8_prefix in E as [-> E]; [|lia..]. f_equal. auto.
Qed.

(** A byte of the ASCII range occurs only as the unit itself. *)
Lemma append_utf8_ascii u c :
  0 <= u < 2 ^ 16 -> code c < 128 -> c ∈ append_utf8 [] u <-> u = code c.
Proof.
  intros Hu Hc. rewrite append_utf8_value by done. pose proof (unit_byte_ranges u Hu).
  pose proof (code_range c).
  assert (forall z, 128 <= z < 256 -> c <> byte_char z) as Hhi.
  { intros z Hz E. apply (f_equal code) in E. rewrite byte_char_code in E; lia. }
  destruct (Z.ltb_spec u 128).
  - rewrite list_elem_of_singleton. split; [intros ->; by rewrite byte_char_code by lia|].
    intros ->. by rewrite byte_char_code_inv.
  - split; [|lia]. intros Hin. exfalso. destruct (Z.ltb_spec u 2048);
      repeat (apply elem_of_cons in Hin as [Hin|Hin]; [eapply Hhi; [|exact Hin]; lia|]); by apply elem_of_nil in Hin.
Qed.

Lemma utf8_ascii us c :
  Forall unit_ok us -> code c < 128 -> c ∈ utf8 us <-> code c ∈ us.
Proof.
  intros Hus Hc. induction Hus as [|u us [Hu _] _ IH].
  - split; intros []%elem_of_nil.
  - rewrite utf8_cons, elem_of_app, elem_of_cons, IH. rewrite append_utf8_ascii by lia. naive_solver.
Qed.

Lemma append_utf8_slash u : 0 <= u < 2 ^ 16 -> u <> 47 -> "/"%char ∉ append_utf8 [] u.
Proof. intros Hu Hne. rewrite append_utf8_ascii by done. exact Hne. Qed.

(** ** [decode_part] inverts the mangling *)

Lemma hex_digit_value n : 0 <= n < 16 -> hex_value (hex_digit n) = n.
Proof.
  intros Hn. assert (Forall (fun k => hex_value (hex_digit (Z.of_nat k)) = Z.of_nat k) (seq 0 16)) as H
    by (repeat constructor).
  eapply Forall_forall in H; [|apply elem_of_seq; instantiate (1 := Z.to_nat n); lia].
  by rewrite Z2Nat.id in H by lia.
Qed.

Lemma hex_unit_digits u :
  0 <= u < 2 ^ 16 ->
  hex_unit (hex_digit (u / 4096)) (hex_digit (u / 256 mod 16)) (hex_digit (u / 16 mod 16))
    (hex_digit (u mod 16)) = Some u.
Proof.
  intros Hu. unfold hex_unit.
  assert (0 <= u / 4096 < 16) by (split; [apply Z.div_pos; lia|apply Z.div_lt_upper_bound; lia]).
  pose proof (Z.mod_pos_bound u 16). pose proof (Z.mod_pos_bound (u / 16) 16).
  pose proof (Z.mod_pos_bound (u / 256) 16).
  rewrite !hex_digit_value by lia. rewrite !(proj2 (Z.ltb_ge _ 0)) by lia. simpl. f_equal.
  pose proof (Z.div_mod u 16). pose proof (Z.div_mod (u / 16) 16). pose proof (Z.div_mod (u / 256) 16).
  rewrite !Z.div_div in * by lia. change (16 * 16) with 256 in *. change (256 * 16) with 4096 in *. lia.
Qed.

Lemma alnum_not_underscore c : is_ascii_alnum c = true -> c <> "_"%char.
Proof. by intros H ->. Qed.

Lemma plain_unit_spec u :
  0 <= u -> plain_unit u = true -> is_ascii_alnum (byte_char u) = true /\ append_utf8 [] u = [byte_char u].
Proof.
  unfold plain_unit. intros Hu [H1%Z.ltb_lt H2]%andb_true_iff. split; [done|].
  unfold append_utf8. by rewrite (proj2 (Z.ltb_lt _ _) H1).
Qed.

Lemma escaped_unit_not_canonical u :
  unit_ok u -> u <> 47 -> u <> 95 -> u <> 59 -> u <> 91 -> plain_unit u = false ->
  (u =? 0) || has_canonical_form u = false.
Proof.
  intros [Hu Hdot] H1 H2 H3 H4 Hp. apply orb_false_iff. split; [apply Z.eqb_neq; lia|].
  unfold has_canonical_form. destruct (Z.ltb_spec 0x7F u); [done|].
  unfold plain_unit in Hp. rewrite (proj2 (Z.ltb_lt u 0x80)) in Hp by lia. simpl in Hp. rewrite Hp. simpl.
  apply bool_decide_eq_false. intros Hin. change (lit "./_;[") with ["."; "/"; "_"; ";"; "["]%char in Hin.
  repeat (apply elem_of_cons in Hin as [Hin%byte_char_eq|Hin]; [unfold code in Hin; simpl in Hin; lia| lia |]).
  by apply elem_of_nil in Hin.
Qed.

(** What may follow a mangled part: the end, or a separator. *)
Definition part_end (t rest : list ascii) (separator : bool) : Prop :=
  if separator then t = "_"%char :: "_"%char :: rest /\
    match rest with c :: _ => is_escape_digit c = false | [] => True end
  else t = [] /\ rest = [].

Lemma decode_part_end t rest separator out :
  part_end t rest separator -> decode_part t out = Some (rest, out, separator).
Proof.
  destruct separator; simpl; intros [-> Hr]; [|by subst rest].
  destruct rest as [|c rest]; simpl; [done|]. by rewrite Hr.
Qed.

(** A unit other than the slash decodes on its own. *)
Lemma decode_part_unit u s out :
  unit_ok u -> u <> 47 ->
  decode_part (mangle_unit u ++ s) out = decode_part s (out ++ append_utf8 [] u).
Proof.
  intros Hu Hs. unfold mangle_unit. rewrite (proj2 (Z.eqb_neq u 47)) by done.
  destruct (Z.eqb_spec u 95) as [->|H1]; [done|].
  destruct (Z.eqb_spec u 59) as [->|H2]; [done|].
  destruct (Z.eqb_spec u 91) as [->|H3]; [done|].
  destruct (plain_unit u) eqn:Ep.
  - apply plain_unit_spec in Ep as [Ha ->]; [|destruct Hu; lia].
    cbn [app decode_part]. rewrite decide_True by (by apply alnum_not_underscore). by rewrite Ha.
  - pose proof (escaped_unit_not_canonical u Hu Hs H1 H2 H3 Ep) as Hc.
    cbn [app decode_part]. rewrite decide_False by naive_solver.
    do 3 (rewrite decide_False by done). rewrite decide_True by done.
    rewrite hex_unit_digits by (destruct Hu; lia). rewrite Hc. by rewrite append_utf8_app.
Qed.

(** The first characters of the mangling of a unit that may follow a slash. *)
Lemma mangle_unit_head v :
  unit_ok v -> v <> 47 -> ~ 48 <= v <= 51 ->
  (exists c, mangle_unit v = [c] /\ is_ascii_alnum c = true /\ is_escape_digit c = false) \/
  (exists k l, mangle_unit v = "_"%char :: k :: l /\ is_escape_digit k = true).
Proof.
  intros [Hv _] Hs Hd. unfold mangle_unit. rewrite (proj2 (Z.eqb_neq v 47)) by done.
  do 3 (case_match; [right; by eauto|]). destruct (plain_unit v) eqn:Ep; [left|right; eauto].
  apply plain_unit_spec in Ep as Ha; [|lia]. exists (byte_char v). split_and!; [done|apply Ha|].
  unfold plain_unit in Ep. apply andb_true_iff in Ep as [Hlt%Z.ltb_lt _].
  unfold is_escape_digit. rewrite byte_char_code by lia. change (code "0") with 48. change (code "3") with 51.
  destruct (Z.leb_spec 48 v), (Z.leb_spec v 51); done || lia.
Qed.

Lemma decode_part_slash v s out :
  unit_ok v -> v <> 47 -> ~ 48 <= v <= 51 ->
  decode_part (mangle_unit 47 ++ mangle_unit v ++ s) out =
  decode_part (mangle_unit v ++ s) (out ++ ["/"%char]).
Proof.
  intros Hv Hs Hd. change (mangle_unit 47) with ["_"%char].
  destruct (mangle_unit_head v Hv Hs Hd) as [(c & -> & Ha & He)|(k & l & -> & Hk)].
  - cbn [app]. set (r := decode_part (c :: s)). cbn [decode_part]. rewrite decide_False by naive_solver.
    assert (forall d, is_escape_digit d = true -> c <> d) as Hne by (intros d Hdig ->; congruence).
    do 4 (rewrite decide_False by (by apply Hne)).
    by rewrite decide_False by (by apply alnum_not_underscore).
  - cbn [app]. set (r := decode_part ("_"%char :: k :: l ++ s)). cbn [decode_part].
    rewrite decide_False by naive_solver. do 4 (rewrite decide_False by done).
    rewrite decide_True by done. by rewrite Hk.
Qed.

Lemma decode_part_mangle us t rest separator out :
  Forall unit_ok us -> slash_ok us -> part_end t rest separator ->
  decode_part (mangle us ++ t) out = Some (rest, out ++ utf8 us, separator).
Proof.
  intros Hus Hsl Ht. revert out. induction Hus as [|u us Hu Hus IH]; intros out.
  { rewrite app_nil_r. by apply decode_part_end. }
  destruct Hsl as [Hsl Hsl']. rewrite mangle_cons, utf8_cons, <- app_assoc.
  destruct (decide (u = 47)) as [->|Hne].
  - destruct (Hsl eq_refl) as (v & us' & -> & Hv & Hd). apply Forall_cons in Hus as [Hvo Hus].
    rewrite mangle_cons, <- app_assoc. rewrite decode_part_slash by done.
    specialize (IH Hsl' (out ++ ["/"%char])). rewrite mangle_cons, <- app_assoc in IH.
    rewrite IH. by rewrite <- app_assoc.
  - rewrite decode_part_unit by done. rewrite IH by done. by rewrite <- app_assoc.
Qed.

(** ** Decoded names are mangled names *)

Lemma hex_value_digit c : 0 <= hex_value c -> 0 <= hex_value c < 16 /\ c = hex_digit (hex_value c).
Proof.
  destruct c as [[] [] [] [] [] [] [] []]; vm_compute; intros H; try (by destruct H); repeat split; done.
Qed.

Lemma hex_unit_inv d1 d2 d3 d4 u :
  hex_unit d1 d2 d3 d4 = Some u ->
  0 <= u < 2 ^ 16 /\ d1 = hex_digit (u / 4096) /\ d2 = hex_digit (u / 256 mod 16) /\
  d3 = hex_digit (u / 16 mod 16) /\ d4 = hex_digit (u mod 16).
Proof.
  unfold hex_unit. intros H.
  destruct (Z.ltb_spec (hex_value d1) 0) as [|H1]; [done|]. destruct (Z.ltb_spec (hex_value d2) 0) as [|H2]; [done|].
  destruct (Z.ltb_spec (hex_value d3) 0) as [|H3]; [done|]. destruct (Z.ltb_spec (hex_value d4) 0) as [|H4]; [done|].
  simpl in H. injection H as H.
  apply hex_value_digit in H1 as [R1 E1], H2 as [R2 E2], H3 as [R3 E3], H4 as [R4 E4].
  set (a := hex_value d1) in *. set (b := hex_value d2) in *. set (c := hex_value d3) in *. set (d := hex_value d4) in *.
  assert (u / 4096 = a) as -> by (symmetry; apply (Z.div_unique_pos _ _ _ (b * 256 + c * 16 + d)); lia).
  assert (u / 256 = a * 16 + b) as -> by (symmetry; apply (Z.div_unique_pos _ _ _ (c * 16 + d)); lia).
  assert (u / 16 = (a * 16 + b) * 16 + c) as -> by (symmetry; apply (Z.div_unique_pos _ _ _ d); lia).
  assert (u mod 16 = d) as -> by (symmetry; apply (Z.mod_unique_pos _ _ ((a * 16 + b) * 16 + c)); lia).
  assert (((a * 16 + b) * 16 + c) mod 16 = c) as -> by (symmetry; apply (Z.mod_unique_pos _ _ (a * 16 + b)); lia).
  assert ((a * 16 + b) mod 16 = b) as -> by (symmetry; apply (Z.mod_unique_pos _ _ a); lia).
  split_and!; done || lia.
Qed.

Lemma mangle_unit_hex u :
  0 <= u < 2 ^ 16 -> (u =? 0) || has_canonical_form u = false ->
  unit_ok u /\ mangle_unit u = ["_"%char; "0"%char; hex_digit (u / 4096); hex_digit (u / 256 mod 16);
                                hex_digit (u / 16 mod 16); hex_digit (u mod 16)].
Proof.
  intros Hu [H0%Z.eqb_neq Hc]%orb_false_iff.
  assert (forall c, c ∈ lit "./_;[" -> u <> code c) as Hne.
  { intros c Hin ->. unfold has_canonical_form in Hc. rewrite byte_char_code_inv in Hc.
    assert (code c < 128) as Hlt.
    { revert c Hin Hu H0 Hc. change (lit "./_;[") with ["."; "/"; "_"; ";"; "["]%char. intros c Hin _ _ _.
      repeat (apply elem_of_cons in Hin as [->|Hin]; [done|]). by apply elem_of_nil in Hin. }
    rewrite (proj2 (Z.ltb_ge 0x7F (code c))) in Hc by lia.
    rewrite bool_decide_eq_true_2, orb_true_r in Hc by done. done. }
  assert (u <> 46) by (apply (Hne "."%char); left).
  assert (u <> 47) by (apply (Hne "/"%char); right; left).
  assert (u <> 95) by (apply (Hne "_"%char); do 2 right; left).
  assert (u <> 59) by (apply (Hne ";"%char); do 3 right; left).
  assert (u <> 91) by (apply (Hne "["%char); do 4 right; left).
  split; [split; [lia|done]|]. unfold mangle_unit. rewrite !(proj2 (Z.eqb_neq u _)) by done.
  assert (plain_unit u = false) as ->; [|done]. unfold plain_unit. destruct (Z.ltb_spec u 0x80); [|done].
  unfold has_canonical_form in Hc. rewrite (proj2 (Z.ltb_ge 0x7F u)) in Hc by lia.
  by apply orb_false_iff in Hc as [-> _].
Qed.

Lemma mangle_unit_alnum c :
  is_ascii_alnum c = true -> unit_ok (code c) /\ mangle_unit (code c) = [c] /\ append_utf8 [] (code c) = [c].
Proof.
  destruct c as [[] [] [] [] [] [] [] []]; vm_compute; intros H; try discriminate H; repeat split; done.
Qed.

(** The relation [decode_part] establishes between its input and its results. *)
Definition decodes (s out rest out' : list ascii) (separator : bool) : Prop :=
  exists us t, Forall unit_ok us /\ out' = out ++ utf8 us /\ s = mangle us ++ t /\ part_end t rest separator.

Lemma decodes_step u s0 s out x rest out' separator :
  unit_ok u -> s0 = mangle_unit u ++ s -> x = out ++ append_utf8 [] u ->
  decodes s x rest out' separator -> decodes s0 out rest out' separator.
Proof.
  intros Hu -> -> (us & t & Hus & -> & -> & Ht). exists (u :: us), t.
  split_and!; [by constructor|by rewrite utf8_cons, app_assoc|by rewrite mangle_cons, app_assoc|done].
Qed.

Lemma decode_part_sound n s out rest out' separator :
  (length s <= n)%nat -> decode_part s out = Some (rest, out', separator) ->
  decodes s out rest out' separator.
Proof.
  revert s out. induction n as [n IH] using lt_wf_ind. intros s out Hn H.
  destruct s as [|c s1]; [injection H as <- <- <-; exists [], []; by rewrite app_nil_r|].
  cbn [decode_part] in H. simpl in Hn. case_decide as Hc.
  { destruct (is_ascii_alnum c) eqn:Ha; [|done]. apply mangle_unit_alnum in Ha as (Hu & Em & Ea).
    apply (decodes_step (code c) _ s1 out (out ++ [c])); [done|by rewrite Em|by rewrite Ea|].
    apply (IH (length s1)); done || lia. }
  subst c. destruct s1 as [|d s2]; [done|]. simpl in Hn.
  assert (decodes (d :: s2) (out ++ ["/"%char]) rest out' separator ->
          decodes ("_"%char :: d :: s2) out rest out' separator) as Hslash.
  { apply (decodes_step 47); [split; lia|done|done]. }
  case_decide; [subst d; eapply (decodes_step 95); [split; lia|done|done|]; apply (IH (length s2)); done || lia|].
  case_decide; [subst d; eapply (decodes_step 59); [split; lia|done|done|]; apply (IH (length s2)); done || lia|].
  case_decide; [subst d; eapply (decodes_step 91); [split; lia|done|done|]; apply (IH (length s2)); done || lia|].
  case_decide as Hz.
  { subst d. destruct s2 as [|h1 [|h2 [|h3 [|h4 s3]]]]; try done. simpl in Hn.
    destruct (hex_unit h1 h2 h3 h4) as [u|] eqn:Ex; [|done].
    apply hex_unit_inv in Ex as (Hu & -> & -> & -> & ->).
    destruct ((u =? 0) || has_canonical_form u) eqn:Ecan; [done|].
    destruct (mangle_unit_hex u Hu Ecan) as [Hok Em].
    eapply (decodes_step u); [done|by rewrite Em|by apply append_utf8_app|]. apply (IH (length s3)); done || lia. }
  case_decide as Hu.
  - subst d. destruct s2 as [|e s3].
    + injection H as <- <- <-. exists [], ["_"; "_"]%char. by rewrite app_nil_r.
    + destruct (is_escape_digit e) eqn:Ee.
      * apply Hslash. apply (IH (length ("_"%char :: e :: s3))); simpl in *; done || lia.
      * injection H as <- <- <-. exists [], ("_"%char :: "_"%char :: e :: s3). by rewrite app_nil_r.
  - apply Hslash. apply (IH (length (d :: s2))); simpl; done || lia.
Qed.

(** ** Splitting the path *)

Lemma has_double_app_l c a b : c ∉ a -> has_double c (a ++ b) = has_double c b.
Proof.
  induction a as [|x a IH]; [done|]. intros Hn. cbn [app].
  destruct (a ++ b) as [|y l] eqn:E.
  - by apply app_eq_nil in E as [-> ->].
  - rewrite has_double_cons, bool_decide_eq_false_2 by set_solver. cbn [andb orb]. apply IH. set_solver.
Qed.

Lemma has_double_head c l : head l <> Some c -> has_double c (c :: l) = has_double c l.
Proof.
  destruct l as [|x l]; [done|]. intros Hx. rewrite has_double_cons, (bool_decide_eq_false_2 (x = c)) by naive_solver.
  by rewrite andb_false_r.
Qed.

Lemma head_utf8 us : Forall unit_ok us -> head us <> Some 47 -> head (utf8 us) <> Some "/"%char.
Proof.
  intros Hus Hh. destruct Hus as [|u us [Hu _] _]; [done|]. rewrite utf8_cons.
  assert ("/"%char ∉ append_utf8 [] u) as Hn by (apply append_utf8_slash; [lia|naive_solver]).
  pose proof (append_utf8_nonnil u). destruct (append_utf8 [] u) as [|x l]; [done|]. simpl. set_solver.
Qed.

Lemma utf8_no_double us : Forall unit_ok us -> slash_ok us -> has_double "/"%char (utf8 us) = false.
Proof.
  intros Hus. induction Hus as [|u us [Hu _] Hus IH]; [done|]. intros [Hs Hsl]. rewrite utf8_cons.
  destruct (decide (u = 47)) as [->|Hne].
  - change (append_utf8 [] 47) with ["/"%char]. cbn [app]. rewrite has_double_head; [auto|].
    apply head_utf8; [done|]. destruct (Hs eq_refl) as (v & us'' & -> & Hv & _). naive_solver.
  - rewrite has_double_app_l; [auto|]. apply append_utf8_slash; [lia|done].
Qed.

Lemma split_last_slash_app a b :
  "/"%char ∉ b -> split_last_slash (a ++ "/"%char :: b) = Some (a, b).
Proof.
  intros Hb. assert (split_last_slash b = None) as Hn.
  { induction b as [|x b IH]; [done|]. simpl. rewrite IH by set_solver. rewrite decide_False; [done|set_solver]. }
  induction a as [|x a IH]; simpl; [by rewrite Hn|]. by rewrite IH.
Qed.

Lemma split_last_slash_Some s a b : split_last_slash s = Some (a, b) -> s = a ++ "/"%char :: b.
Proof.
  revert a. induction s as [|c s IH]; intros a; simpl; [done|].
  destruct (split_last_slash s) as [[x y]|].
  - intros [= <- <-]. by rewrite (IH x).
  - case_decide; [|done]. intros [= <- <-]. by subst.
Qed.

(** What a successful decoding says about the symbol. *)
Lemma decode_jni_export_sound s e :
  decode_jni_export s = Some e ->
  exists us args, Forall unit_ok us /\ utf8 us = class_name e ++ "/"%char :: method e /\
    match args with
    | Some a => Forall unit_ok a /\ arguments e = Some (lit "(" ++ utf8 a ++ lit ")")
    | None => arguments e = None
    end /\
    s = lit "Java_" ++ mangle us ++ match args with Some a => lit "__" ++ mangle a | None => [] end.
Proof.
  unfold decode_jni_export. case_decide as Hp; [|done].
  assert (s = lit "Java_" ++ drop 5 s) as Es by (rewrite <- Hp; by rewrite take_drop).
  destruct (decode_part (drop 5 s) []) as [[[rest path] sep]|] eqn:Ed; [|done].
  apply (decode_part_sound _ _ _ _ _ _ (Nat.le_refl _)) in Ed as (us & t & Hus & -> & Et & Ht).
  case_match; [done|]. destruct (split_last_slash (utf8 us)) as [[cls meth]|] eqn:Esp; simpl in *;
    rewrite Esp; [|done]. apply split_last_slash_Some in Esp.
  case_match; [done|]. destruct sep.
  - destruct Ht as [-> _]. destruct (decode_part rest []) as [[[r a] []]|] eqn:Ea; [done| |done].
    apply (decode_part_sound _ _ _ _ _ _ (Nat.le_refl _)) in Ea as (as' & t' & Has & -> & Er & [-> _]).
    intros [= <-]. exists us, (Some as'). simpl. split_and!; try done.
    rewrite Es, Et, Er. by rewrite app_nil_r.
  - destruct Ht as [-> _]. intros [= <-]. exists us, None. simpl. split_and!; try done. by rewrite Es, Et.
Qed.
End MangleFacts.

(** decoding inverts the JNI mangling.  For a class (internal name), a method
    and optionally a parameter signature given as UTF-16 code units, whose slashes
    separate non-empty segments that do not start with a digit 0 to 3 (no Java
    identifier does), [decode_jni_export] of the mangled symbol returns the
    modified UTF-8 of the class name, the method name and the parenthesised
    parameters. *)
Theorem decode_mangled_export cls meth args :
  Forall Mangling.unit_ok (cls ++ 47 :: meth) -> Mangling.slash_ok (cls ++ 47 :: meth) ->
  cls <> [] -> head cls <> Some 47 -> meth <> [] -> 47 ∉ meth ->
  59 ∉ cls ++ meth -> 91 ∉ cls ++ meth ->
  match args with
  | Some a => Forall Mangling.unit_ok a /\ Mangling.slash_ok a /\
              match a with v :: _ => ~ 48 <= v <= 51 | [] => True end
  | None => True
  end ->
  Mangle.decode_jni_export (Mangling.mangle_export cls meth args) =
  Some {| Mangle.class_name := Mangling.utf8 cls; Mangle.method := Mangling.utf8 meth;
          Mangle.arguments := (fun a => lit "(" ++ Mangling.utf8 a ++ lit ")") <$> args |}.
Proof.
  intros Hus Hsl Hcls Hhd Hmeth Hms H59 H91 Hargs.
  assert (MangleFacts.part_end (match args with Some a => lit "__" ++ Mangling.mangle a | None => [] end)
    (match args with Some a => Mangling.mangle a | None => [] end) (bool_decide (is_Some args))) as Hend.
  { destruct args as [a|]; simpl; [|done]. split; [done|]. destruct Hargs as (Ha & _ & Hd).
    destruct a as [|v a]; [done|]. rewrite MangleFacts.mangle_cons.
    destruct (decide (v = 47)) as [->|Hv]; [done|]. apply Forall_cons in Ha as [Hvo _].
    destruct (MangleFacts.mangle_unit_head v Hvo Hv Hd) as [(c & -> & _ & Hc)|(k & l & -> & _)]; done. }
  assert (Forall Mangling.unit_ok cls /\ Forall Mangling.unit_ok meth) as [Hc Hm].
  { apply Forall_app in Hus as [? Hm]. by apply Forall_cons in Hm as [_ Hm]. }
  unfold Mangle.decode_jni_export, Mangling.mangle_export. rewrite decide_True by done.
  change (drop 5 (lit "Java_" ++ ?x)) with x.
  rewrite (MangleFacts.decode_part_mangle _ _ _ _ [] Hus Hsl Hend). cbn [app].
  assert (Mangling.utf8 (cls ++ 47 :: meth) = Mangling.utf8 cls ++ "/"%char :: Mangling.utf8 meth) as Eu
    by apply MangleFacts.utf8_app.
  assert ("/"%char ∉ Mangling.utf8 meth) as Hnm by (rewrite MangleFacts.utf8_ascii by done; exact Hms).
  rewrite (bool_decide_eq_false_2 (head _ = _)).
  2: { apply MangleFacts.head_utf8; [done|]. destruct cls; [done|]. naive_solver. }
  rewrite (bool_decide_eq_false_2 (last _ = _)).
  2: { rewrite Eu, last_app, last_cons. destruct (last (Mangling.utf8 meth)) as [x|] eqn:El.
       - apply last_Some_elem_of in El. naive_solver.
       - apply last_None in El. destruct meth; [done|]. rewrite MangleFacts.utf8_cons in El.
         by apply app_eq_nil in El as [?%MangleFacts.append_utf8_nonnil _]. }
  rewrite MangleFacts.utf8_no_double by done. simpl.
  rewrite !(bool_decide_eq_false_2 (_ ∈ Mangling.utf8 (cls ++ 47 :: meth))).
  2,3: rewrite MangleFacts.utf8_ascii by done; change (code ";") with 59; change (code "[") with 91; set_solver.
  simpl. rewrite Eu, MangleFacts.split_last_slash_app by done.
  assert (forall us, Mangling.utf8 us = [] -> us = []) as Hnil.
  { intros [|u us] E; [done|]. rewrite MangleFacts.utf8_cons in E.
    by apply app_eq_nil in E as [?%MangleFacts.append_utf8_nonnil _]. }
  rewrite !bool_decide_eq_false_2 by auto. simpl. destruct args as [a|]; simpl; [|done].
  destruct Hargs as (Ha & Has & _). pose proof (MangleFacts.decode_part_mangle a [] [] false [] Ha Has) as Hd.
  rewrite app_nil_r in Hd. by rewrite Hd.
Qed.

(** distinct export names never decode to the same method: if two symbols
    decode to the same class, method and parameters, they are the same symbol.
    So a library cannot bind two exports to one overload by spelling tricks. *)
Theorem decode_jni_export_injective s1 s2 e :
  Mangle.decode_jni_export s1 = Some e -> Mangle.decode_jni_export s2 = Some e -> s1 = s2.
Proof.
  intros (us1 & a1 & Hu1 & Ep1 & Ha1 & ->)%MangleFacts.decode_jni_export_sound
         (us2 & a2 & Hu2 & Ep2 & Ha2 & ->)%MangleFacts.decode_jni_export_sound.
  assert (us1 = us2) as -> by (apply MangleFacts.utf8_inj; [done..|congruence]).
  destruct a1 as [a1|], a2 as [a2|].
  - destruct Ha1 as [Hv1 E1], Ha2 as [Hv2 E2]. rewrite E1 in E2. injection E2 as E2.
    apply app_inv_tail in E2. apply MangleFacts.utf8_inj in E2; [|done..]. by subst.
  - destruct Ha1 as [_ E1]. congruence.
  - destruct Ha2 as [_ E2]. congruence.
  - done.
Qed.

(** ** Witnesses *)

Lemma method_descriptor_has_shorty_witness :
  exists signature,
    Descriptor.jni_method_descriptor [lit "I"; lit "[Ljava/lang/String;"] (lit "V") = Some signature /\
    Shorty.shorty_from_signature signature = Some (lit "VIL").
Proof.
  apply (method_descriptor_has_shorty [(lit "int", true); (lit "[Ljava.lang.String;", false)] (lit "void", true)).
  - apply Forall_cons_2; [intros H; discriminate H|]. apply Forall_cons_2; [|apply Forall_nil_2].
    intros _. split_and!; [apply (bool_decide_unpack _); vm_compute; exact I..|vm_compute; lia].
  - intros H. discriminate H.
  - repeat constructor; done.
  - reflexivity.
Defined.

Ltac solve_slash :=
  cbn; repeat (split; [intros H; first [discriminate H | eexists _, _; split_and!; [reflexivity|lia|lia]]|]); exact I.

Lemma decode_mangled_export_witness :
  Mangle.decode_jni_export (lit "Java_a_b__1x__Lc_d_2") =
  Some {| Mangle.class_name := lit "a/b"; Mangle.method := lit "_x"; Mangle.arguments := Some (lit "(Lc/d;)") |}.
Proof.
  apply (decode_mangled_export [97; 47; 98] [95; 120] (Some [76; 99; 47; 100; 59])).
  - repeat constructor; lia.
  - solve_slash.
  - done.
  - done.
  - done.
  - apply (bool_decide_unpack _). vm_compute. exact I.
  - apply (bool_decide_unpack _). vm_compute. exact I.
  - apply (bool_decide_unpack _). vm_compute. exact I.
  - split_and!; [repeat constructor; lia|solve_slash|lia].
Defined.

Lemma decode_jni_export_injective_witness : lit "Java_a_b_c" = lit "Java_a_b_c".
Proof.
  apply (decode_jni_export_injective _ _
    {| Mangle.class_name := lit "a/b"; Mangle.method := lit "c"; Mangle.arguments := None |}); reflexivity.
Defined.
