(* ===== verification/NativeCall.v ===== *)
(** * Native calls: AAPCS64 to AAPCS32

    [core/src/jni/native_call.cpp] converts the arguments of a host JNI call
    (x0-x7, d0-d7, 8-byte stack slots) into a guest soft-float call (r0-r3, then
    4-byte stack words), and the guest result back.  References become handles
    through [ref_to_handle], which allocates in a handle table, so it is a
    state-passing parameter of the model.

    The reference definitions say where the two procedure call standards put an
    argument; the theorems show that the code agrees with them. *)

From Stdlib Require Import Ascii.
From stdpp Require Import numbers strings gmap list.
From S2P Require Import Prelude JniNames.
Local Open Scope Z_scope.

(** The saved registers; [stack_] lists the caller's stack slots. *)
Record NativeRegs := { x_ : list Z; d_ : list Z; stack_ : list Z }.

Record GuestCall := { regs : list Z; stack : list Z }.

Definition GuestCall_init : GuestCall := {| regs := [0; 0; 0; 0]; stack := [] |}.

(** ** HostArgReader *)

Record HostArgReader := { next_int_ : nat; next_fp_ : nat; next_stack_ : nat }.

Definition HostArgReader_init : HostArgReader := {| next_int_ := 2; next_fp_ := 0; next_stack_ := 0 |}.

Definition next_int (r : NativeRegs) (a : HostArgReader) : exec (Z * HostArgReader) :=
  if decide (next_int_ a < 8)%nat then
    v ← vec_at (x_ r) (next_int_ a);
    Ret (v, {| next_int_ := S (next_int_ a); next_fp_ := next_fp_ a; next_stack_ := next_stack_ a |})
  else
    v ← vec_at (stack_ r) (next_stack_ a);
    Ret (v, {| next_int_ := next_int_ a; next_fp_ := next_fp_ a; next_stack_ := S (next_stack_ a) |}).

Definition next_fp (r : NativeRegs) (a : HostArgReader) : exec (Z * HostArgReader) :=
  if decide (next_fp_ a < 8)%nat then
    v ← vec_at (d_ r) (next_fp_ a);
    Ret (v, {| next_int_ := next_int_ a; next_fp_ := S (next_fp_ a); next_stack_ := next_stack_ a |})
  else
    v ← vec_at (stack_ r) (next_stack_ a);
    Ret (v, {| next_int_ := next_int_ a; next_fp_ := next_fp_ a; next_stack_ := S (next_stack_ a) |}).

(** ** GuestArgWriter *)

Record GuestArgWriter := { call_ : GuestCall; ncrn_ : nat }.

Definition GuestArgWriter_init : GuestArgWriter := {| call_ := GuestCall_init; ncrn_ := 0 |}.

Definition put32 (w : GuestArgWriter) (value : Z) : exec GuestArgWriter :=
  if decide (ncrn_ w < 4)%nat then
    regs' ← vec_set (regs (call_ w)) (ncrn_ w) value;
    Ret {| call_ := {| regs := regs'; stack := stack (call_ w) |}; ncrn_ := S (ncrn_ w) |}
  else
    Ret {| call_ := {| regs := regs (call_ w); stack := stack (call_ w) ++ [value] |}; ncrn_ := ncrn_ w |}.

Definition put64 (w : GuestArgWriter) (value : Z) : exec GuestArgWriter :=
  let lo := u32 value in
  let hi := u32 (Z.shiftr value 32) in
  let ncrn := if decide (Nat.odd (ncrn_ w)) then S (ncrn_ w) else ncrn_ w in
  if decide (ncrn <= 2)%nat then
    regs1 ← vec_set (regs (call_ w)) ncrn lo;
    regs2 ← vec_set regs1 (ncrn + 1) hi;
    Ret {| call_ := {| regs := regs2; stack := stack (call_ w) |}; ncrn_ := ncrn + 2 |}
  else
    let aligned := if decide (Nat.odd (length (stack (call_ w))))
                   then stack (call_ w) ++ [0] else stack (call_ w) in
    Ret {| call_ := {| regs := regs (call_ w); stack := aligned ++ [lo; hi] |}; ncrn_ := 4 |}.

Definition sign_extend32 (value : Z) : Z := u32 value.
Definition sign_extend64 (value : Z) : Z := u64 value.

(** ** marshal_native_args *)

Section Marshal.
Context {S : Type} (ref_to_handle : S -> Z -> exec (Z * S)).

Fixpoint marshal_loop (letters : list ascii) (r : NativeRegs) (out : GuestArgWriter)
    (a : HostArgReader) (s : S) : exec (GuestCall * S) :=
  match letters with
  | [] => Ret (call_ out, s)
  | c :: rest =>
      if decide (c = "Z"%char) then
        '(v, a) ← next_int r a; out ← put32 out (u8 v); marshal_loop rest r out a s
      else if decide (c = "B"%char) then
        '(v, a) ← next_int r a; out ← put32 out (sign_extend32 (s8 v)); marshal_loop rest r out a s
      else if decide (c = "C"%char) then
        '(v, a) ← next_int r a; out ← put32 out (u16 v); marshal_loop rest r out a s
      else if decide (c = "S"%char) then
        '(v, a) ← next_int r a; out ← put32 out (sign_extend32 (s16 v)); marshal_loop rest r out a s
      else if decide (c = "I"%char) then
        '(v, a) ← next_int r a; out ← put32 out (u32 v); marshal_loop rest r out a s
      else if decide (c = "J"%char) then
        '(v, a) ← next_int r a; out ← put64 out v; marshal_loop rest r out a s
      else if decide (c = "F"%char) then
        '(v, a) ← next_fp r a; out ← put32 out (u32 v); marshal_loop rest r out a s
      else if decide (c = "D"%char) then
        '(v, a) ← next_fp r a; out ← put64 out v; marshal_loop rest r out a s
      else if decide (c = "L"%char) then
        '(v, a) ← next_int r a; '(h, s) ← ref_to_handle s v; out ← put32 out h; marshal_loop rest r out a s
      else Aborted
  end.

Definition marshal_native_args (shorty : list ascii) (r : NativeRegs) (guest_env : Z) (s : S)
    : exec (GuestCall * S) :=
  out ← put32 GuestArgWriter_init guest_env;
  x1 ← vec_at (x_ r) 1;
  '(h, s) ← ref_to_handle s x1;
  out ← put32 out h;
  marshal_loop (drop 1 shorty) r out HostArgReader_init s.

(** [handle_to_ref] is pure in the tables ([get]), so it is a plain function. *)
Definition store_native_result (return_type : ascii) (r0 r1 : Z) (r : NativeRegs)
    (handle_to_ref : Z -> Z) : exec NativeRegs :=
  let pair := Z.lor (u64 (Z.shiftl r1 32)) r0 in
  let set_x v := x' ← vec_set (x_ r) 0 v; Ret {| x_ := x'; d_ := d_ r; stack_ := stack_ r |} in
  let set_d v := d' ← vec_set (d_ r) 0 v; Ret {| x_ := x_ r; d_ := d'; stack_ := stack_ r |} in
  if decide (return_type = "Z"%char) then set_x (u8 r0)
  else if decide (return_type = "B"%char) then set_x (sign_extend64 (s8 r0))
  else if decide (return_type = "C"%char) then set_x (u16 r0)
  else if decide (return_type = "S"%char) then set_x (sign_extend64 (s16 r0))
  else if decide (return_type = "I"%char) then set_x (sign_extend64 (s32 r0))
  else if decide (return_type = "J"%char) then set_x pair
  else if decide (return_type = "F"%char) then set_d r0
  else if decide (return_type = "D"%char) then set_d pair
  else if decide (return_type = "L"%char) then set_x (handle_to_ref r0)
  else if decide (return_type = "V"%char) then Ret r
  else Aborted.

End Marshal.

(** ** Reference: where the calling conventions put arguments *)

Definition arg_letters : list ascii := lit "ZBCSIJFDL".

Definition is_fp (c : ascii) : bool := bool_decide (c = "F"%char) || bool_decide (c = "D"%char).
Definition is_wide (c : ascii) : bool := bool_decide (c = "J"%char) || bool_decide (c = "D"%char).

(** AAPCS64: the [n]-th integer argument after [JNIEnv*] and the receiver is in
    x(n+2), the [m]-th floating point argument in d(m); when the registers of its
    class are used up, an argument takes the next 8-byte stack slot. *)
Definition host_arg (r : NativeRegs) (fp : bool) (ints fps : nat) : option Z :=
  let slot := (ints - 6 + (fps - 8))%nat in
  if fp then if decide (fps < 8)%nat then d_ r !! fps else stack_ r !! slot
  else if decide (ints < 6)%nat then x_ r !! (ints + 2)%nat else stack_ r !! slot.

(** The host values of a list of arguments, [ints] and [fps] of which came before. *)
Fixpoint host_args (r : NativeRegs) (letters : list ascii) (ints fps : nat) : option (list Z) :=
  match letters with
  | [] => Some []
  | c :: rest =>
      v ← host_arg r (is_fp c) ints fps;
      vs ← (if is_fp c then host_args r rest ints (S fps) else host_args r rest (S ints) fps);
      Some (v :: vs)
  end.

(** AAPCS32: arguments are consecutive 32-bit words; a 64-bit one starts at an
    even word.  The first four words travel in r0-r3, the others on the stack. *)
Definition call_word (call : GuestCall) (k : nat) : option Z :=
  if decide (k < 4)%nat then regs call !! k else stack call !! (k - 4)%nat.

Definition align_word (c : ascii) (off : nat) : nat :=
  if is_wide c then (if decide (Nat.odd off) then S off else off) else off.

(** The words of a primitive argument of type [c] with host value [v]. *)
Definition prim_words (c : ascii) (v : Z) : list Z :=
  if decide (c = "Z"%char) then [u8 v]
  else if decide (c = "B"%char) then [u32 (s8 v)]
  else if decide (c = "C"%char) then [u16 v]
  else if decide (c = "S"%char) then [u32 (s16 v)]
  else if is_wide c then [u32 v; u32 (Z.shiftr v 32)]
  else [u32 v].

Fixpoint words_at (call : GuestCall) (off : nat) (ws : list Z) : Prop :=
  match ws with
  | [] => True
  | w :: ws' => call_word call off = Some w /\ words_at call (S off) ws'
  end.

Section Reference.
Context {S : Type} (ref_to_handle : S -> Z -> exec (Z * S)).

(** The words of each argument, in order; references go through [ref_to_handle]. *)
Inductive arg_words : S -> list ascii -> list Z -> list (list Z) -> S -> Prop :=
| aw_nil s : arg_words s [] [] [] s
| aw_prim s c v cs vs ws s' :
    c ∈ arg_letters -> c <> "L"%char -> arg_words s cs vs ws s' ->
    arg_words s (c :: cs) (v :: vs) (prim_words c v :: ws) s'
| aw_ref s v h s1 cs vs ws s' :
    ref_to_handle s v = Ret (h, s1) -> arg_words s1 cs vs ws s' ->
    arg_words s ("L"%char :: cs) (v :: vs) ([h] :: ws) s'.

(** Every argument sits where AAPCS32 says, from word [off] on. *)
Fixpoint args_at (call : GuestCall) (off : nat) (cs : list ascii) (ws : list (list Z)) : Prop :=
  match cs, ws with
  | c :: cs', w :: ws' =>
      words_at call (align_word c off) w /\ args_at call (align_word c off + length w)%nat cs' ws'
  | _, _ => True
  end.
End Reference.

(** ** The writer builds a flat word list *)

Definition flat_call (w : list Z) : GuestCall := {| regs := resize 4 0 w; stack := drop 4 w |}.

Definition writer_of (w : list Z) : GuestArgWriter :=
  {| call_ := flat_call w; ncrn_ := 4 `min` length w |}.

Definition pad_even (w : list Z) : list Z := if decide (Nat.odd (length w)) then w ++ [0] else w.

Lemma flat_call_word w k : (k < length w)%nat -> call_word (flat_call w) k = w !! k.
Proof.
  intros Hk. unfold call_word, flat_call. simpl. case_decide.
  - by rewrite lookup_resize by lia.
  - rewrite lookup_drop. f_equal. lia.
Qed.

Lemma resize_snoc (w : list Z) v :
  (length w < 4)%nat -> <[length w := v]> (resize 4 0 w) = resize 4 0 (w ++ [v]).
Proof. intros Hw. destruct w as [|a [|b [|c [|d [|]]]]]; simpl in *; try lia; done. Qed.

Lemma put32_flat w v : put32 (writer_of w) v = Ret (writer_of (w ++ [v])).
Proof.
  unfold put32, writer_of. cbn [ncrn_ call_ regs stack flat_call]. rewrite length_app. case_decide.
  - rewrite vec_set_lt by (rewrite length_resize; lia). rewrite Nat.min_r by lia.
    change (mbind ?f (Ret ?x)) with (f x). cbv beta. rewrite resize_snoc by lia.
    unfold flat_call. rewrite !(drop_ge _ 4); [|rewrite length_app; simpl; lia|lia]. do 2 f_equal. simpl length. lia.
  - unfold flat_call. rewrite resize_app_le, drop_app_le by lia. do 2 f_equal. simpl length. lia.
Qed.

Lemma put64_flat w v :
  put64 (writer_of w) v = Ret (writer_of (pad_even w ++ [u32 v; u32 (Z.shiftr v 32)])).
Proof.
  unfold put64, writer_of, pad_even.
  destruct w as [|a [|b [|c [|d w]]]]; [done..|]. cbn [ncrn_ length]. rewrite Nat.min_l by lia.
  rewrite (decide_False (P := Nat.odd 4)) by (by intros []).
  rewrite decide_False by lia. cbn [flat_call call_ stack regs drop].
  replace (Nat.odd (S (S (S (S (length w)))))) with (Nat.odd (length w)) by (by rewrite !Nat.odd_succ, !Nat.even_succ).
  repeat case_decide; try done; unfold flat_call; cbn [app drop]; do 2 f_equal;
    first [reflexivity|cbn [length]; rewrite ?length_app; cbn [length]; lia
      |cbn [resize]; rewrite !resize_0, !drop_0; reflexivity].
Qed.

(** ** The reader follows the register and stack positions *)

Definition reader_of (ints fps : nat) : HostArgReader :=
  {| next_int_ := 8 `min` (ints + 2); next_fp_ := 8 `min` fps; next_stack_ := (ints - 6 + (fps - 8))%nat |}.

Lemma next_int_host r ints fps v :
  host_arg r false ints fps = Some v -> next_int r (reader_of ints fps) = Ret (v, reader_of (S ints) fps).
Proof.
  unfold host_arg, next_int, reader_of. cbn [next_int_ next_fp_ next_stack_]. intros H.
  repeat case_decide; try lia.
  - replace (8 `min` (ints + 2))%nat with (ints + 2)%nat by lia. vec_step. do 3 f_equal; lia.
  - vec_step. do 3 f_equal; lia.
Qed.

Lemma next_fp_host r ints fps v :
  host_arg r true ints fps = Some v -> next_fp r (reader_of ints fps) = Ret (v, reader_of ints (S fps)).
Proof.
  unfold host_arg, next_fp, reader_of. cbn [next_int_ next_fp_ next_stack_]. intros H.
  repeat case_decide; try lia.
  - replace (8 `min` fps)%nat with fps by lia. vec_step. do 3 f_equal; lia.
  - vec_step. do 3 f_equal; lia.
Qed.

(** ** The whole marshalling *)

(** The flat words after appending the given arguments. *)
Fixpoint layout (w : list Z) (cs : list ascii) (ws : list (list Z)) : list Z :=
  match cs, ws with
  | c :: cs', x :: ws' => layout ((if is_wide c then pad_even w else w) ++ x) cs' ws'
  | _, _ => w
  end.

Lemma layout_prefix w cs ws : exists t, layout w cs ws = w ++ t.
Proof.
  revert w ws. induction cs as [|c cs IH]; intros w [|x ws]; simpl; try (by exists []; rewrite app_nil_r).
  destruct (IH ((if is_wide c then pad_even w else w) ++ x) ws) as [t ->].
  unfold pad_even. repeat case_match; rewrite <- !app_assoc; eauto.
Qed.

Lemma words_at_flat w x t : words_at (flat_call (w ++ x ++ t)) (length w) x.
Proof.
  revert w. induction x as [|a x IH]; intros w; simpl; [done|]. split.
  - rewrite flat_call_word by (rewrite length_app; simpl; lia).
    rewrite lookup_app_r, Nat.sub_diag by lia. done.
  - specialize (IH (w ++ [a])). rewrite <- app_assoc, length_app in IH. cbn [length app] in IH.
    by replace (length w + 1)%nat with (S (length w)) in IH by lia.
Qed.

Lemma align_word_pad c w :
  align_word c (length w) = length (if is_wide c then pad_even w else w).
Proof.
  unfold align_word, pad_even. repeat case_match; rewrite ?length_app; simpl; lia.
Qed.

Lemma args_at_layout w cs ws : args_at (flat_call (layout w cs ws)) (length w) cs ws.
Proof.
  revert w ws. induction cs as [|c cs IH]; intros w [|x ws]; simpl; try done.
  rewrite align_word_pad. set (w1 := if is_wide c then pad_even w else w).
  split; [|rewrite <- length_app; apply IH].
  destruct (layout_prefix (w1 ++ x) cs ws) as [t ->]. rewrite <- app_assoc. apply words_at_flat.
Qed.

(** The word offset just past the arguments. *)
Fixpoint words_end (off : nat) (cs : list ascii) (ws : list (list Z)) : nat :=
  match cs, ws with
  | c :: cs', w :: ws' => words_end (align_word c off + length w) cs' ws'
  | _, _ => off
  end.

Lemma length_layout w cs ws : length (layout w cs ws) = words_end (length w) cs ws.
Proof.
  revert w ws. induction cs as [|c cs IH]; intros w [|x ws]; simpl; try done.
  by rewrite IH, length_app, align_word_pad.
Qed.

Section MarshalFacts.
Context {S : Type} (ref_to_handle : S -> Z -> exec (Z * S)).

Lemma arg_letters_elim (P : ascii -> Prop) c :
  c ∈ arg_letters -> P "Z"%char -> P "B"%char -> P "C"%char -> P "S"%char -> P "I"%char ->
  P "J"%char -> P "F"%char -> P "D"%char -> P "L"%char -> P c.
Proof.
  intros Hc. change arg_letters with ["Z"; "B"; "C"; "S"; "I"; "J"; "F"; "D"; "L"]%char in Hc.
  rewrite !elem_of_cons, elem_of_nil in Hc. by repeat destruct Hc as [->|Hc].
Qed.

(** One argument: the host value [v] of type [c] is read and its words appended. *)
Definition appended (w : list Z) (c : ascii) (x : list Z) : GuestArgWriter :=
  writer_of ((if is_wide c then pad_even w else w) ++ x).

Definition advanced (c : ascii) (ints fps : nat) : HostArgReader :=
  if is_fp c then reader_of ints (Datatypes.S fps) else reader_of (Datatypes.S ints) fps.

Lemma marshal_step_prim c v r w ints fps cs s :
  c ∈ arg_letters -> c <> "L"%char -> host_arg r (is_fp c) ints fps = Some v ->
  marshal_loop ref_to_handle (c :: cs) r (writer_of w) (reader_of ints fps) s =
  marshal_loop ref_to_handle cs r (appended w c (prim_words c v)) (advanced c ints fps) s.
Proof.
  intros Hc Hl Hv. revert Hl Hv. pattern c. apply arg_letters_elim; [done|..]; intros Hl Hv;
    try done; cbn [marshal_loop];
    repeat (first [rewrite decide_True by done|rewrite decide_False by done]);
    first [rewrite (next_int_host r ints fps v Hv)|rewrite (next_fp_host r ints fps v Hv)];
    rewrite exec_ret_bind; cbv beta iota;
    first [rewrite put32_flat|rewrite put64_flat]; reflexivity.
Qed.

Lemma marshal_step_ref v h r w ints fps cs s s1 :
  host_arg r false ints fps = Some v -> ref_to_handle s v = Ret (h, s1) ->
  marshal_loop ref_to_handle ("L"%char :: cs) r (writer_of w) (reader_of ints fps) s =
  marshal_loop ref_to_handle cs r (appended w "L" [h]) (advanced "L" ints fps) s1.
Proof.
  intros Hv Hh. cbn [marshal_loop].
  repeat (first [rewrite decide_True by done|rewrite decide_False by done]).
  rewrite (next_int_host r ints fps v Hv), exec_ret_bind. cbv beta iota.
  rewrite Hh, exec_ret_bind. cbv beta iota. rewrite put32_flat. reflexivity.
Qed.

Lemma marshal_loop_layout r cs vs ws s s' w ints fps :
  arg_words ref_to_handle s cs vs ws s' -> host_args r cs ints fps = Some vs ->
  marshal_loop ref_to_handle cs r (writer_of w) (reader_of ints fps) s
  = Ret (flat_call (layout w cs ws), s').
Proof.
  intros Haw. revert w ints fps.
  induction Haw as [|s c v cs vs ws s' Hc Hl _ IH|s v h s1 cs vs ws s' Hh _ IH]; intros w ints fps Hv;
    [done|..]; cbn [host_args] in Hv;
    apply bind_Some in Hv as (v' & Hv & Hrest); apply bind_Some in Hrest as (vs' & Hrest & [= -> ->]).
  - erewrite marshal_step_prim by done. cbn [layout]. unfold appended, advanced.
    destruct (is_fp c); apply IH; done.
  - erewrite marshal_step_ref by done. cbn [layout]. apply IH. exact Hrest.
Qed.

Lemma marshal_native_args_flat ret cs r env s recv h s1 vs ws s2 :
  x_ r !! 1%nat = Some recv -> ref_to_handle s recv = Ret (h, s1) ->
  host_args r cs 0 0 = Some vs -> arg_words ref_to_handle s1 cs vs ws s2 ->
  marshal_native_args ref_to_handle (ret :: cs) r env s = Ret (flat_call (layout [env; h] cs ws), s2).
Proof.
  intros Hx Hh Hv Haw. unfold marshal_native_args. change GuestArgWriter_init with (writer_of []).
  rewrite put32_flat, exec_ret_bind. vec_step. rewrite Hh, exec_ret_bind. cbv beta iota.
  rewrite put32_flat, exec_ret_bind. by apply (marshal_loop_layout r cs vs ws s1 s2 _ 0 0).
Qed.

(** the guest call built for a host JNI call is laid out as AAPCS32 asks: the
    guest [JNIEnv*] in word 0, the receiver's handle in word 1, then every argument
    of the shorty, read where AAPCS64 put it, converted to its type's words (a
    64-bit one at an even word), with the first four words in r0-r3, the others on
    the stack, and nothing after the last argument. *)
Theorem marshal_native_args_layout ret cs r env s recv h s1 vs ws s2 :
  x_ r !! 1%nat = Some recv -> ref_to_handle s recv = Ret (h, s1) ->
  host_args r cs 0 0 = Some vs -> arg_words ref_to_handle s1 cs vs ws s2 ->
  exists call, marshal_native_args ref_to_handle (ret :: cs) r env s = Ret (call, s2)
    /\ call_word call 0 = Some env /\ call_word call 1 = Some h
    /\ args_at call 2 cs ws
    /\ length (regs call) = 4%nat /\ length (stack call) = (words_end 2 cs ws - 4)%nat.
Proof.
  intros Hx Hh Hv Haw. exists (flat_call (layout [env; h] cs ws)).
  destruct (layout_prefix [env; h] cs ws) as [t Ht]. split_and!.
  - by eapply marshal_native_args_flat.
  - by rewrite Ht.
  - by rewrite Ht.
  - apply (args_at_layout [env; h]).
  - unfold flat_call. cbn [regs]. apply length_resize.
  - unfold flat_call. cbn [stack]. by rewrite length_drop, length_layout.
Qed.

End MarshalFacts.

(** Eight integer arguments after the receiver: [x2]-[x7], then the stack. *)
Definition witness_regs : NativeRegs :=
  {| x_ := [100; 101; 102; 103; 104; 105; 106; 107]; d_ := [50; 51; 52; 53; 54; 55; 56; 57]; stack_ := [7; 2 ^ 32 + 9] |}.

Definition witness_handle (s : Z) (v : Z) : exec (Z * Z) := Ret (u32 (s + v), s + 1).

Lemma marshal_native_args_layout_witness :
  exists call, marshal_native_args witness_handle (lit "VIJLDZ") witness_regs 77 5 = Ret (call, 7)
    /\ call_word call 0 = Some 77 /\ call_word call 1 = Some 106
    /\ args_at call 2 (lit "IJLDZ") [[102]; [103; 0]; [110]; [50; 0]; [105]]
    /\ length (regs call) = 4%nat /\ length (stack call) = 7%nat.
Proof.
  apply (marshal_native_args_layout witness_handle "V" (lit "IJLDZ") witness_regs 77 5 101 106 6
    [102; 103; 104; 50; 105] [[102]; [103; 0]; [110]; [50; 0]; [105]] 7); [reflexivity..|].
  apply (aw_prim _ _ "I"%char 102); [by apply (bool_decide_unpack _); vm_compute|done|].
  apply (aw_prim _ _ "J"%char 103); [by apply (bool_decide_unpack _); vm_compute|done|].
  apply (aw_ref _ 6 104 110 7); [reflexivity|].
  apply (aw_prim _ _ "D"%char 50); [by apply (bool_decide_unpack _); vm_compute|done|].
  apply (aw_prim _ _ "Z"%char 105); [by apply (bool_decide_unpack _); vm_compute|done|].
  apply aw_nil.
Defined.

(** ** Values survive the two conversions *)

(** The value of primitive type [c] held in a 64-bit host register, zero or sign
    extended to the register as the host calling convention returns it. *)
Definition native_value (c : ascii) (v : Z) : Z :=
  if decide (c = "Z"%char) then u8 v
  else if decide (c = "B"%char) then u64 (s8 v)
  else if decide (c = "C"%char) then u16 v
  else if decide (c = "S"%char) then u64 (s16 v)
  else if decide (c = "I"%char) then u64 (s32 v)
  else if decide (c = "F"%char) then u32 v
  else u64 v.

(** Register file [r] with the result register of type [c] set to [v]. *)
Definition with_result (c : ascii) (v : Z) (r : NativeRegs) : NativeRegs :=
  if is_fp c then {| x_ := x_ r; d_ := <[0%nat := v]> (d_ r); stack_ := stack_ r |}
  else {| x_ := <[0%nat := v]> (x_ r); d_ := d_ r; stack_ := stack_ r |}.

Lemma u64_halves v : Z.lor (u64 (Z.shiftl (u32 (Z.shiftr v 32)) 32)) (u32 v) = u64 v.
Proof.
  pose proof (u32_range v). pose proof (u32_range (Z.shiftr v 32)) as Hh.
  rewrite (u64_small (Z.shiftl _ _)) by (rewrite Z.shiftl_mul_pow2; lia).
  rewrite lor_shiftl_add by lia. rewrite Z.shiftr_div_pow2 by lia.
  unfold u32, u64. replace (2 ^ 64) with (2 ^ 32 * 2 ^ 32) by done. rewrite Z.rem_mul_r by lia. lia.
Qed.

Lemma swrap_mod_idemp w n z : 0 < n <= w -> swrap n (z mod 2 ^ w) = swrap n z.
Proof.
  intros Hn. unfold swrap. f_equal. rewrite <- Zplus_mod_idemp_l. rewrite <- (Zplus_mod_idemp_l z).
  do 2 f_equal. replace (2 ^ w) with (2 ^ n * 2 ^ (w - n)) by (rewrite <- Z.pow_add_r by lia; f_equal; lia).
  rewrite Z.rem_mul_r by lia. rewrite Z.mul_comm, Z.mod_add by lia. by rewrite Z.mod_mod by lia.
Qed.

Lemma swrap_idemp n z : 0 < n -> swrap n (swrap n z) = swrap n z.
Proof. intros. apply swrap_small; [done|]. by apply swrap_range. Qed.

Lemma store_prim_words c v r0 r1 ws r h2r :
  c ∈ arg_letters -> c <> "L"%char -> prim_words c v = r0 :: ws ->
  (is_wide c = true -> ws = [r1]) ->
  (0 < length (x_ r))%nat -> (0 < length (d_ r))%nat ->
  store_native_result c r0 r1 r h2r = Ret (with_result c (native_value c v) r).
Proof.
  intros Hc. pattern c. apply arg_letters_elim; [done|..]; intros Hl Hw Hr1 Hx Hd; try done;
    cbv [prim_words is_wide is_fp decide decide_rel] in Hw; simpl in Hw; injection Hw as <- <-;
    try (injection (Hr1 eq_refl) as <-);
    unfold store_native_result; 
    repeat (first [rewrite decide_True by done|rewrite decide_False by done]);
    rewrite vec_set_lt by done; rewrite exec_ret_bind; unfold with_result, native_value; cbn [is_fp];
    repeat (first [rewrite decide_True by done|rewrite decide_False by done]);
    unfold sign_extend64; rewrite ?u64_halves; try done;
    change (is_fp _) with false; cbv iota; do 3 f_equal.
  - unfold u8. by rewrite Z.mod_mod.
  - unfold u32, s8. by rewrite swrap_mod_idemp, swrap_idemp by lia.
  - unfold u16. by rewrite Z.mod_mod.
  - unfold u32, s16. by rewrite swrap_mod_idemp, swrap_idemp by lia.
  - unfold u32, s32. by rewrite swrap_mod_idemp by lia.
Qed.

(** primitive values survive the bridge.  When a host caller passes one
    argument of primitive type [c] and the guest function returns the words it was
    given (r2 and r3), the host result register holds the same value at the
    width and signedness of [c], and no other register changes. *)
Theorem native_identity_roundtrip {S} (ref_to_handle : S -> Z -> exec (Z * S)) h2r
    c v r env s recv h s1 :
  c ∈ arg_letters -> c <> "L"%char ->
  x_ r !! 1%nat = Some recv -> ref_to_handle s recv = Ret (h, s1) ->
  host_args r [c] 0 0 = Some [v] -> (0 < length (d_ r))%nat ->
  exists call r2 r3, marshal_native_args ref_to_handle [c; c] r env s = Ret (call, s1)
    /\ call_word call 2 = Some r2 /\ call_word call 3 = Some r3
    /\ store_native_result c r2 r3 r h2r = Ret (with_result c (native_value c v) r).
Proof.
  intros Hc Hl Hx Hh Hv Hd.
  assert (arg_words ref_to_handle s1 [c] [v] [prim_words c v] s1) as Haw by (apply aw_prim; [done..|apply aw_nil]).
  assert (0 < length (x_ r))%nat by (apply lookup_lt_Some in Hx; lia).
  exists (flat_call (layout [env; h] [c] [prim_words c v])).
  assert (exists r2 ws, prim_words c v = r2 :: ws /\
    exists r3, (is_wide c = true -> ws = [r3]) /\
      call_word (flat_call (layout [env; h] [c] [prim_words c v])) 3 = Some r3 /\
      call_word (flat_call (layout [env; h] [c] [prim_words c v])) 2 = Some r2) as (r2 & ws & Hw & r3 & Hr3 & H3 & H2).
  { pattern c. apply arg_letters_elim; [done|..]; eexists _, _; (split; [reflexivity|]);
      eexists; (split; [intros [=]; reflexivity|split; reflexivity]). }
  exists r2, r3. split_and!; [|done|done|by eapply store_prim_words].
  by eapply marshal_native_args_flat.
Qed.

Lemma native_identity_roundtrip_witness :
  exists call r2 r3,
    marshal_native_args witness_handle (lit "BB") {| x_ := [0; 9; 2 ^ 64 - 3]; d_ := [0]; stack_ := [] |} 77 5 = Ret (call, 6)
    /\ call_word call 2 = Some r2 /\ call_word call 3 = Some r3
    /\ store_native_result "B" r2 r3 {| x_ := [0; 9; 2 ^ 64 - 3]; d_ := [0]; stack_ := [] |} (fun _ => 0)
       = Ret {| x_ := [2 ^ 64 - 3; 9; 2 ^ 64 - 3]; d_ := [0]; stack_ := [] |}.
Proof.
  apply (native_identity_roundtrip witness_handle (fun _ => 0) "B" (2 ^ 64 - 3)
    {| x_ := [0; 9; 2 ^ 64 - 3]; d_ := [0]; stack_ := [] |} 77 5 9 14 6);
    [by apply (bool_decide_unpack _); vm_compute|done|reflexivity|reflexivity|reflexivity|simpl; lia].
Defined.

(** ** Accepted signatures never abort *)

Lemma arg_words_total {S} (ref_to_handle : S -> Z -> exec (Z * S)) r cs :
  (forall s v, exists h s1, ref_to_handle s v = Ret (h, s1)) -> Forall (fun c => c ∈ arg_letters) cs ->
  forall ints fps vs s, host_args r cs ints fps = Some vs ->
  exists ws s', arg_words ref_to_handle s cs vs ws s'.
Proof.
  intros Htot Hcs. induction Hcs as [|c cs Hc _ IH]; intros ints fps vs s Hv; cbn [host_args] in Hv.
  { injection Hv as <-. exists [], s. constructor. }
  apply bind_Some in Hv as (v & Hv & Hrest). apply bind_Some in Hrest as (vs' & Hrest & [= <-]).
  destruct (decide (c = "L"%char)) as [->|Hl].
  - destruct (Htot s v) as (h & s1 & Hh). destruct (IH _ _ _ s1 Hrest) as (ws & s' & Haw).
    exists ([h] :: ws), s'. by econstructor.
  - assert (exists ws s', arg_words ref_to_handle s cs vs' ws s') as (ws & s' & Haw)
      by (destruct (is_fp c); by eapply IH).
    exists (prim_words c v :: ws), s'. by constructor.
Qed.

Lemma grammar_letter t : Grammar.type_ok t -> Grammar.letter t ∈ arg_letters.
Proof.
  intros [_ Ht]. unfold Grammar.letter. destruct (Grammar.dims t); [|by apply (bool_decide_unpack _); vm_compute].
  destruct (Grammar.elt t) as [c|name]; simpl in *; [|by apply (bool_decide_unpack _); vm_compute].
  revert c Ht. apply Forall_forall. by apply (bool_decide_unpack _); vm_compute.
Qed.

Lemma store_result_total res r r0 r1 h2r :
  Grammar.result_ok res -> length (x_ r) = 8%nat -> length (d_ r) = 8%nat -> exists r', store_native_result (Grammar.result_letter res) r0 r1 r h2r = Ret r'.
Proof.
  intros Hres Hx Hd. unfold store_native_result. rewrite !vec_set_lt by lia.
  destruct res as [|t]; [by eexists|]. apply grammar_letter in Hres.
  cbn [Grammar.result_letter]. revert Hres. generalize (Grammar.letter t). intros c Hc.
  pattern c. apply arg_letters_elim; [done|..];
    repeat (first [rewrite decide_True by done|rewrite decide_False by done]); by eexists.
Qed.

(** a shorty produced by [shorty_from_signature] never reaches the fatal
    [invalid_shorty]: with the caller's registers and stack slots present and a
    [ref_to_handle] that returns, building the guest call returns, and so does
    storing whatever the guest function left in r0 and r1. *)
Theorem accepted_signature_never_aborts {S} (ref_to_handle : S -> Z -> exec (Z * S)) h2r
    signature ret cs r env s vs r0 r1 :
  Shorty.shorty_from_signature signature = Some (ret :: cs) ->
  (forall s v, exists h s1, ref_to_handle s v = Ret (h, s1)) ->
  length (x_ r) = 8%nat -> length (d_ r) = 8%nat -> host_args r cs 0 0 = Some vs ->
  (exists call s', marshal_native_args ref_to_handle (ret :: cs) r env s = Ret (call, s'))
  /\ (exists r', store_native_result ret r0 r1 r h2r = Ret r').
Proof.
  intros Hs Htot Hx Hd Hv. apply signature_grammar in Hs as (ps & res & Hps & Hres & _ & [= -> ->]).
  split.
  - destruct (vec_at_lt (x_ r) 1) as (recv & Hrecv & _); [lia|].
    destruct (Htot s recv) as (h & s1 & Hh).
    destruct (arg_words_total ref_to_handle r (Grammar.letter <$> ps) Htot) with (2 := Hv) (s := s1) as (ws & s' & Haw).
    { apply Forall_fmap. eapply Forall_impl; [exact Hps|]. apply grammar_letter. }
    eexists _, s'. by eapply marshal_native_args_flat.
  - by eapply store_result_total.
Qed.

Lemma accepted_signature_never_aborts_witness :
  (exists call s', marshal_native_args witness_handle (lit "DJL") witness_regs 77 5 = Ret (call, s'))
  /\ (exists r', store_native_result "D" 1 2 witness_regs (fun _ => 0) = Ret r').
Proof.
  apply (accepted_signature_never_aborts witness_handle (fun _ => 0) (lit "(J[I)D") "D" (lit "JL")
    witness_regs 77 5 [102; 103] 1 2); [reflexivity|intros s v; eexists _, _; reflexivity|reflexivity..].
Defined.
