(* ===== verification/Bytes.v ===== *)
(** * Byte buffers

    A [std::vector<char>] holding a file is a list of byte values.  Reading or
    writing outside it is [Undefined], so a theorem that code on an arbitrary file
    returns also shows that it stays inside the buffer. *)

From stdpp Require Import numbers list.
From S2P Require Import Prelude.
Local Open Scope Z_scope.
Local Ltac Zify.zify_post_hook ::= Z.div_mod_to_equations.

(** [data.size()]. *)
Definition size (data : list Z) : Z := Z.of_nat (length data).

(** Every element is a byte. *)
Definition bytes_ok (data : list Z) : Prop := Forall (fun b => 0 <= b < 256) data.

(** [memcpy] of [n] bytes out of the buffer, from offset [off]. *)
Definition read_bytes (data : list Z) (off n : Z) : exec (list Z) :=
  if (0 <=? off) && (0 <=? n) && (off + n <=? size data)
  then Ret (take (Z.to_nat n) (drop (Z.to_nat off) data)) else Undefined.

(** A little-endian integer. *)
Fixpoint le (bs : list Z) : Z :=
  match bs with [] => 0 | b :: bs' => b + 256 * le bs' end.

Fixpoint to_le (n : nat) (v : Z) : list Z :=
  match n with O => [] | S n' => v mod 256 :: to_le n' (v / 256) end.

(** [memcpy] of a little-endian field into an integer. *)
Definition read_u8 (data : list Z) (off : Z) : exec Z := le <$> read_bytes data off 1.
Definition read_u16 (data : list Z) (off : Z) : exec Z := le <$> read_bytes data off 2.
Definition read_u32 (data : list Z) (off : Z) : exec Z := le <$> read_bytes data off 4.

(** [memcpy] into the buffer at offset [off]. *)
Definition write_bytes (data : list Z) (off : Z) (bs : list Z) : exec (list Z) :=
  if (0 <=? off) && (off + Z.of_nat (length bs) <=? size data)
  then Ret (take (Z.to_nat off) data ++ bs ++ drop (Z.to_nat off + length bs) data) else Undefined.

Definition write_u32 (data : list Z) (off v : Z) : exec (list Z) := write_bytes data off (to_le 4 v).

Lemma size_nonneg data : 0 <= size data.
Proof. unfold size. lia. Qed.
#[export] Hint Resolve size_nonneg : zb.

Lemma read_bytes_in data off n :
  0 <= off -> 0 <= n -> off + n <= size data ->
  exists bs, read_bytes data off n = Ret bs /\ size bs = n /\
    forall i, (i < Z.to_nat n)%nat -> bs !! i = data !! (Z.to_nat off + i)%nat.
Proof.
  intros H1 H2 H3. unfold read_bytes. eexists.
  rewrite (proj2 (Z.leb_le 0 off)), (proj2 (Z.leb_le 0 n)), (proj2 (Z.leb_le _ (size data))) by done.
  split; [reflexivity|]. unfold size in *. split.
  - rewrite length_take, length_drop. lia.
  - intros i Hi. by rewrite lookup_take_lt, lookup_drop.
Qed.

Lemma read_bytes_Ret data off n bs :
  read_bytes data off n = Ret bs ->
  0 <= off /\ 0 <= n /\ off + n <= size data /\ bs = take (Z.to_nat n) (drop (Z.to_nat off) data).
Proof.
  unfold read_bytes. case_match eqn:E; [|done]. intros [= <-].
  apply andb_true_iff in E as [[E1 E2]%andb_true_iff E3].
  apply Z.leb_le in E1, E2, E3. done.
Qed.

Lemma le_range bs : bytes_ok bs -> 0 <= le bs < 256 ^ Z.of_nat (length bs).
Proof.
  induction 1 as [|b bs Hb _ IH]; simpl le; [simpl; lia|].
  replace (Z.of_nat (length (b :: bs))) with (1 + Z.of_nat (length bs)) by (simpl; lia).
  rewrite Z.pow_add_r by lia. lia.
Qed.

Lemma read_bytes_ok data off n bs : bytes_ok data -> read_bytes data off n = Ret bs -> bytes_ok bs.
Proof. intros H (_ & _ & _ & ->)%read_bytes_Ret. by apply Forall_take, Forall_drop. Qed.

Lemma length_to_le n v : length (to_le n v) = n.
Proof. revert v. induction n; intros; simpl; auto. Qed.

Lemma to_le_ok n v : bytes_ok (to_le n v).
Proof. revert v. induction n; intros; simpl; constructor; [lia|apply IHn]. Qed.

Lemma le_to_le n v : 0 <= v < 256 ^ Z.of_nat n -> le (to_le n v) = v.
Proof.
  revert v. induction n as [|n IH]; intros v Hv; [simpl in *; lia|].
  rewrite Nat2Z.inj_succ, Z.pow_succ_r in Hv by lia. simpl. rewrite IH; [lia|].
  split; [apply Z.div_pos; lia|]. apply Z.div_lt_upper_bound; lia.
Qed.

(** Fixed-size reads inside the buffer return a value of their type. *)
Section Reads.
Context (data : list Z) (Hok : bytes_ok data).

Lemma read_le_in n off :
  0 <= off -> off + Z.of_nat n <= size data ->
  exists v, le <$> read_bytes data off (Z.of_nat n) = Ret v /\ 0 <= v < 256 ^ Z.of_nat n.
Proof.
  intros H1 H2. destruct (read_bytes_in data off (Z.of_nat n)) as (bs & E & Hs & _); [lia..|].
  rewrite E. simpl. eexists. split; [done|]. pose proof (le_range bs (read_bytes_ok _ _ _ _ Hok E)) as Hr.
  unfold size in Hs. by rewrite Hs in Hr.
Qed.

Lemma read_u8_in off : 0 <= off -> off + 1 <= size data -> exists v, read_u8 data off = Ret v /\ 0 <= v < 2 ^ 8.
Proof. apply (read_le_in 1). Qed.
Lemma read_u16_in off : 0 <= off -> off + 2 <= size data -> exists v, read_u16 data off = Ret v /\ 0 <= v < 2 ^ 16.
Proof. apply (read_le_in 2). Qed.
Lemma read_u32_in off : 0 <= off -> off + 4 <= size data -> exists v, read_u32 data off = Ret v /\ 0 <= v < 2 ^ 32.
Proof. apply (read_le_in 4). Qed.
End Reads.

Lemma write_bytes_in data off bs :
  0 <= off -> off + Z.of_nat (length bs) <= size data ->
  exists data', write_bytes data off bs = Ret data' /\ length data' = length data /\
    forall i, data' !! i = if decide (Z.to_nat off <= i < Z.to_nat off + length bs)%nat
                           then bs !! (i - Z.to_nat off)%nat else data !! i.
Proof.
  intros H1 H2. unfold write_bytes. eexists.
  rewrite (proj2 (Z.leb_le 0 off)), (proj2 (Z.leb_le _ (size data))) by done.
  split; [reflexivity|]. unfold size in *. split.
  - rewrite !length_app, length_take, length_drop. lia.
  - intros i. assert (length (take (Z.to_nat off) data) = Z.to_nat off) as Ht by (rewrite length_take; lia).
    case_decide as Hi.
    + rewrite lookup_app_r, Ht, lookup_app_l by lia. done.
    + destruct (decide (i < Z.to_nat off)%nat).
      * rewrite lookup_app_l, lookup_take_lt by lia. done.
      * rewrite lookup_app_r, lookup_app_r, lookup_drop by lia. f_equal. lia.
Qed.

(** Two buffers that agree on a range read the same there. *)
Lemma read_bytes_ext data data' off n :
  length data = length data' ->
  (forall i, Z.to_nat off <= i < Z.to_nat off + Z.to_nat n -> data !! i = data' !! i)%nat ->
  read_bytes data off n = read_bytes data' off n.
Proof.
  intros Hl He. unfold read_bytes, size. rewrite Hl. case_match; [|done]. f_equal. apply list_eq. intros i.
  destruct (decide (i < Z.to_nat n)%nat).
  - rewrite !lookup_take_lt, !lookup_drop by done. apply He. lia.
  - rewrite !lookup_take_ge by lia. done.
Qed.

(** Reading back part of what was written. *)
Lemma read_written data off bs data' k n :
  write_bytes data off bs = Ret data' -> 0 <= off -> 0 <= k -> 0 <= n -> k + n <= size bs ->
  read_bytes data' (off + k) n = Ret (take (Z.to_nat n) (drop (Z.to_nat k) bs)).
Proof.
  intros Hw Ho Hk Hn Hs. assert (off + size bs <= size data) as Hle.
  { unfold write_bytes in Hw. case_match eqn:E; [|done]. apply andb_true_iff in E as [_ ?%Z.leb_le]. unfold size in *. lia. }
  unfold size in *. destruct (write_bytes_in data off bs) as (d & E & Hl & Hlk); [done|unfold size; lia|].
  rewrite Hw in E. injection E as <-.
  destruct (read_bytes_in data' (off + k) n) as (r & -> & Hr & Hrl); [lia..|unfold size; lia|].
  f_equal. apply list_eq. intros i. unfold size in Hr. destruct (decide (i < Z.to_nat n)%nat).
  - rewrite Hrl, Hlk, decide_True by lia. rewrite lookup_take_lt, lookup_drop by lia. f_equal. lia.
  - rewrite lookup_take_ge by lia. apply lookup_ge_None. lia.
Qed.

Lemma write_bytes_ok data off bs data' :
  bytes_ok data -> bytes_ok bs -> write_bytes data off bs = Ret data' -> bytes_ok data'.
Proof.
  intros H1 H2. unfold write_bytes. case_match; [|done]. intros [= <-].
  repeat apply Forall_app_2; [by apply Forall_take|done|by apply Forall_drop].
Qed.
