(* ===== verification/GuestMemory.v ===== *)
(** * The guest address space

    [core/src/guest_memory.cpp] owns a 4 GiB host reservation and one flag byte per
    guest page.  The model keeps both sides: [pages_] (the flag bytes) and the
    host's view of the reservation, the contents [bytes_] and the host protection
    [hprot] of every page.  Whether a host [mmap] or [mprotect] succeeds is the
    parameter [grants], which may depend on the number of host calls made so far;
    what a refused call leaves of its pages is the class [Refusal], whose instance
    [atomic] (a refused call changes nothing) is the one the other files use.  A shared file mapping has
    the file's bytes at the time of the call; later writes by others are not seen.

    The vectors and the reservation are total functions of the index; a write
    through [set_flags] past the end of [pages_] is [Undefined]. *)

From stdpp Require Import numbers list.
From S2P Require Import Prelude.
Local Open Scope Z_scope.
Local Ltac Zify.zify_post_hook ::= Z.div_mod_to_equations.

(** ** Constants and page arithmetic *)

Definition kGuestSpaceSize : Z := Z.shiftl 1 32.
Definition kPageSize : Z := 4096.
Definition kPageMask : Z := kPageSize - 1.

(** [PageFlags]. *)
Definition kPageRead : Z := 1.
Definition kPageWrite : Z := 2.
Definition kPageExec : Z := 4.
Definition kPageMapped : Z := 8.

(** The Linux [PROT_*] values. *)
Definition PROT_NONE : Z := 0.
Definition PROT_READ : Z := 1.
Definition PROT_WRITE : Z := 2.
Definition PROT_EXEC : Z := 4.

Definition kLowestAllocPage : Z := Z.shiftr 0x10000 12.

(** [flags & mask] used as a condition. *)
Definition has_bits (flags mask : Z) : bool := negb (Z.land flags mask =? 0).

Definition page_round_up (v : Z) : Z := Z.land (u64 (v + kPageMask)) (u64 (Z.lnot kPageMask)).
Definition page_round_down (v : Z) : Z := Z.land v (u32 (Z.lnot kPageMask)).

Definition range_valid (addr len : Z) : bool :=
  negb (len =? 0) && (Z.land addr kPageMask =? 0) && (u64 (addr + len) <=? kGuestSpaceSize).

Definition flags_from_prot (prot : Z) : Z :=
  let f := kPageMapped in
  let f := if has_bits prot PROT_READ then Z.lor f kPageRead else f in
  let f := if has_bits prot PROT_WRITE then Z.lor f kPageWrite else f in
  if has_bits prot PROT_EXEC then Z.lor f kPageExec else f.

Definition host_prot (guest_prot : Z) : Z :=
  let p := PROT_NONE in
  let p := if has_bits guest_prot (Z.lor PROT_READ PROT_EXEC) then Z.lor p PROT_READ else p in
  if has_bits guest_prot PROT_WRITE then Z.lor p (Z.lor PROT_READ PROT_WRITE) else p.

(** ** State *)

Record GuestMemory := {
  base_ : bool;        (** the reservation was obtained ([base_ != nullptr]) *)
  pages_ : Z -> Z;     (** flag byte of page [i], [0 <= i < 2^20] *)
  bytes_ : Z -> Z;     (** contents of the reservation *)
  hprot : Z -> Z;      (** host protection of page [i] *)
  host_calls : nat;    (** host memory calls made so far *)
}.

(** Assigning [v] to the indices [lo <= i < lo + n]. *)
Definition fill (f : Z -> Z) (lo n v : Z) (i : Z) : Z :=
  if (lo <=? i) && (i <? lo + n) then v else f i.

Definition called (m : GuestMemory) : GuestMemory :=
  {| base_ := base_ m; pages_ := pages_ m; bytes_ := bytes_ m; hprot := hprot m; host_calls := S (host_calls m) |}.

(** The constructor: [reserved] tells whether the host granted the reservation. *)
Definition GuestMemory_init (reserved : bool) : GuestMemory :=
  {| base_ := reserved; pages_ := fun _ => 0; bytes_ := fun _ => 0; hprot := fun _ => PROT_NONE; host_calls := 1 |}.

Definition ok (m : GuestMemory) : bool := base_ m.

Definition page_flags (m : GuestMemory) (addr : Z) : Z := pages_ m (Z.shiftr addr 12).

Definition set_flags (m : GuestMemory) (addr len flags : Z) : exec GuestMemory :=
  let n := Z.shiftr (page_round_up len) 12 in
  if Z.shiftr addr 12 + n <=? Z.shiftr kGuestSpaceSize 12 then
    Ret {| base_ := base_ m; pages_ := fill (pages_ m) (Z.shiftr addr 12) n flags; bytes_ := bytes_ m;
           hprot := hprot m; host_calls := host_calls m |}
  else Undefined.

(** ** Queries *)

(** The loop of [accessible]: every page from [i] on, [n] of them, has all of [mask]. *)
Fixpoint pages_have (pages : Z -> Z) (mask : Z) (i : Z) (n : nat) : bool :=
  match n with
  | O => true
  | S n' => if Z.land (pages i) mask =? mask then pages_have pages mask (i + 1) n' else false
  end.

Definition accessible (m : GuestMemory) (addr len need : Z) : bool :=
  if len =? 0 then true
  else
    let end_ := u64 (addr + len) in
    if kGuestSpaceSize <? end_ then false
    else
      let mask := Z.lor need kPageMapped in
      let first := Z.shiftr addr 12 in
      let last := Z.shiftr (u64 (end_ - 1)) 12 in
      pages_have (pages_ m) mask first (Z.to_nat (last + 1 - first)).

Definition host_ptr (m : GuestMemory) (addr len need : Z) : option Z :=
  if accessible m addr len need then Some addr else None.

Fixpoint pages_unused (pages : Z -> Z) (i : Z) (n : nat) : bool :=
  match n with
  | O => true
  | S n' => if pages i =? 0 then pages_unused pages (i + 1) n' else false
  end.

Definition range_free (m : GuestMemory) (addr len : Z) : bool :=
  let len := page_round_up len in
  if negb (range_valid addr len) then false
  else
    let first := Z.shiftr addr 12 in
    let end_ := Z.shiftr (u64 (addr + len)) 12 in
    pages_unused (pages_ m) first (Z.to_nat (end_ - first)).

(** The loop of [find_free], from page [i] down; [n] bounds the iterations. *)
Fixpoint find_free_loop (n : nat) (pages : Z -> Z) (want i run : Z) : Z :=
  match n with
  | O => 0
  | S n' =>
      if i <=? kLowestAllocPage then 0
      else
        let i := i - 1 in
        if pages i =? 0 then
          if run + 1 =? want then u32 (Z.shiftl i 12) else find_free_loop n' pages want i (run + 1)
        else find_free_loop n' pages want i 0
  end.

Definition find_free (m : GuestMemory) (len limit : Z) : Z :=
  let pages := Z.shiftr (page_round_up len) 12 in
  let top := Z.shiftr limit 12 in
  if (pages =? 0) || (top <? kLowestAllocPage) || (top - kLowestAllocPage <? pages) then 0
  else find_free_loop (Z.to_nat top) (pages_ m) pages top 0.

(** ** Mutators *)

(** The Linux [MAP_*] values. *)
Definition MAP_SHARED : Z := 0x1.
Definition MAP_PRIVATE : Z := 0x2.
Definition MAP_FIXED : Z := 0x10.
Definition MAP_ANONYMOUS : Z := 0x20.
Definition MAP_NORESERVE : Z := 0x4000.

(** A call of the host kernel on the reservation; addresses are relative to its base. *)
Inductive host_request :=
| HostMmap (addr len prot flags fd offset : Z)
| HostMprotect (addr len prot : Z).

(** What a refused call may leave of a page of its range: what was there, what the
    call asked for, or, since [MAP_FIXED] discards the old mapping first, nothing. *)
Inductive leftover := Kept | Applied | Discarded.

(** [refused n q]: how the [n]-th host memory call, which asks for [q], leaves the pages
    of its range when it fails; [None] when it changes nothing at all. *)
Class Refusal := refused : nat -> host_request -> option (Z -> leftover).
#[global] Instance atomic : Refusal := fun _ _ => None.

(** The value of a page (or of one of its bytes) after a refused call. *)
Definition left_of {A} (l : leftover) (old new none : A) : A :=
  match l with Kept => old | Applied => new | Discarded => none end.

Section Host.
Context {R : Refusal}.

(** [grants n q]: the [n]-th host memory call, which asks for [q], succeeds. *)
Context (grants : nat -> host_request -> bool).

(** [file_at fd offset]: the byte at [offset] of the file open as [fd] (0 past its end). *)
Context (file_at : Z -> Z -> Z).

(** What a fresh mapping contains: zeroes, or the file from [offset] on. *)
Definition mapped_byte (addr flags fd offset a : Z) : Z :=
  if has_bits flags MAP_ANONYMOUS then 0 else file_at fd (offset + (a - addr)).

(** The state after the refused call [q], which asked for [prot] and [contents] on the
    [len] bytes at [addr]. *)
Definition refused_call (m : GuestMemory) (q : host_request) (addr len prot : Z) (contents : Z -> Z) : GuestMemory :=
  match refused (host_calls m) q with
  | None => called m
  | Some leave =>
      {| base_ := base_ m; pages_ := pages_ m;
         bytes_ := fun a => if (addr <=? a) && (a <? addr + len)
                            then left_of (leave (Z.shiftr a 12)) (bytes_ m a) (contents a) 0 else bytes_ m a;
         hprot := fun i => if (Z.shiftr addr 12 <=? i) && (i <? Z.shiftr addr 12 + Z.shiftr len 12)
                           then left_of (leave i) (hprot m i) prot PROT_NONE else hprot m i;
         host_calls := S (host_calls m) |}
  end.

(** [mmap(base_ + addr, ..)] with [MAP_FIXED]: fresh contents and a new protection. *)
Definition host_mmap (m : GuestMemory) (addr len prot flags fd offset : Z) : bool * GuestMemory :=
  let q := HostMmap addr len prot flags fd offset in
  if grants (host_calls m) q then
    (true, {| base_ := base_ m; pages_ := pages_ m;
              bytes_ := fun a => if (addr <=? a) && (a <? addr + len)
                                 then mapped_byte addr flags fd offset a else bytes_ m a;
              hprot := fill (hprot m) (Z.shiftr addr 12) (Z.shiftr len 12) prot;
              host_calls := S (host_calls m) |})
  else (false, refused_call m q addr len prot (mapped_byte addr flags fd offset)).

Definition host_mprotect (m : GuestMemory) (addr len prot : Z) : bool * GuestMemory :=
  let q := HostMprotect addr len prot in
  if grants (host_calls m) q then
    (true, {| base_ := base_ m; pages_ := pages_ m; bytes_ := bytes_ m;
              hprot := fill (hprot m) (Z.shiftr addr 12) (Z.shiftr len 12) prot;
              host_calls := S (host_calls m) |})
  else (false, refused_call m q addr len prot (bytes_ m)).

Definition map_anon (m : GuestMemory) (addr len prot : Z) : exec (bool * GuestMemory) :=
  let len := page_round_up len in
  if negb (ok m) || negb (range_valid addr len) then Ret (false, m)
  else
    let '(p, m) := host_mmap m addr len (host_prot prot)
                     (Z.lor (Z.lor MAP_PRIVATE MAP_ANONYMOUS) MAP_FIXED) (-1) 0 in
    if negb p then Ret (false, m)
    else m ← set_flags m addr len (flags_from_prot prot); Ret (true, m).

Definition map_file (m : GuestMemory) (addr len prot share_flags fd offset : Z) : exec (bool * GuestMemory) :=
  let len := page_round_up len in
  if negb (ok m) || negb (range_valid addr len) then Ret (false, m)
  else
    let flags := Z.lor (Z.land share_flags (Z.lor MAP_SHARED MAP_PRIVATE)) MAP_FIXED in
    let '(p, m) := host_mmap m addr len (host_prot prot) flags fd (s64 offset) in
    if negb p then Ret (false, m)
    else m ← set_flags m addr len (flags_from_prot prot); Ret (true, m).

Definition protect (m : GuestMemory) (addr len prot : Z) : exec (bool * GuestMemory) :=
  let len := page_round_up len in
  if negb (ok m) || negb (range_valid addr len) || negb (accessible m addr len 0) then Ret (false, m)
  else
    let '(p, m) := host_mprotect m addr len (host_prot prot) in
    if negb p then Ret (false, m)
    else m ← set_flags m addr len (flags_from_prot prot); Ret (true, m).

Definition unmap (m : GuestMemory) (addr len : Z) : exec (bool * GuestMemory) :=
  let len := page_round_up len in
  if negb (ok m) || negb (range_valid addr len) then Ret (false, m)
  else
    let '(p, m) := host_mmap m addr len PROT_NONE
                     (Z.lor (Z.lor (Z.lor MAP_PRIVATE MAP_ANONYMOUS) MAP_FIXED) MAP_NORESERVE) (-1) 0 in
    if negb p then Ret (false, m)
    else m ← set_flags m addr len 0; Ret (true, m).

End Host.

(** A host [memcpy] into the reservation; a page the host may not write faults. *)
Definition store_bytes (bytes : Z -> Z) (a : Z) (data : list Z) (x : Z) : Z :=
  if (a <=? x) && (x <? a + Z.of_nat (length data)) then default 0 (data !! Z.to_nat (x - a)) else bytes x.

Fixpoint pages_writable (hp : Z -> Z) (i : Z) (n : nat) : bool :=
  match n with
  | O => true
  | S n' => has_bits (hp i) PROT_WRITE && pages_writable hp (i + 1) n'
  end.

Definition host_write (m : GuestMemory) (a : Z) (data : list Z) : exec GuestMemory :=
  if decide (data = []) then Ret m
  else
    let last := a + Z.of_nat (length data) - 1 in
    if pages_writable (hprot m) (a / kPageSize) (Z.to_nat (last / kPageSize + 1 - a / kPageSize)) then
      Ret {| base_ := base_ m; pages_ := pages_ m; bytes_ := store_bytes (bytes_ m) a data;
             hprot := hprot m; host_calls := host_calls m |}
    else Undefined.

(** ** Page arithmetic *)

Lemma shiftr12 v : Z.shiftr v 12 = v / 4096.
Proof. by rewrite Z.shiftr_div_pow2. Qed.

Lemma land_page_mask v : Z.land v kPageMask = v mod 4096.
Proof. exact (land_ones_mod v 12 ltac:(lia)). Qed.

Lemma page_round_up_wrap v : page_round_up v = u64 (v + 4095) / 4096 * 4096.
Proof. apply (land_clear_low _ 64 12); [lia|lia|apply u64_range]. Qed.

Lemma page_round_up_spec v :
  0 <= v <= 2 ^ 64 - 4096 -> page_round_up v = (v + 4095) / 4096 * 4096.
Proof. intros Hv. by rewrite page_round_up_wrap, u64_small by lia. Qed.

Lemma page_round_down_spec v : 0 <= v < 2 ^ 32 -> page_round_down v = v / 4096 * 4096.
Proof. intros. by apply (land_clear_low _ 32 12). Qed.

(** The number of pages of [len] bytes. *)
Definition page_count (len : Z) : Z := (len + 4095) / 4096.

(** A range of whole pages inside the guest space, the only ones the mutators accept. *)
Definition good_range (addr len : Z) : Prop :=
  0 <= addr < 2 ^ 32 /\ 0 < len /\ addr mod 4096 = 0 /\ addr / 4096 + page_count len <= 2 ^ 20.

#[global] Instance good_range_dec addr len : Decision (good_range addr len).
Proof. unfold good_range. apply _. Defined.

(** Sizes up to [2^64 - 2^33] cannot make the 64-bit sums of the code wrap around. *)
Definition no_wrap (len : Z) : Prop := 0 <= len <= 2 ^ 64 - 2 ^ 33.

Lemma range_valid_spec addr len :
  0 <= addr < 2 ^ 32 -> no_wrap len -> range_valid addr (page_round_up len) = bool_decide (good_range addr len).
Proof.
  unfold no_wrap. intros Ha Hl. unfold range_valid. rewrite page_round_up_spec, land_page_mask by lia.
  rewrite u64_small by lia. change kGuestSpaceSize with (2 ^ 32).
  symmetry. destruct (decide (good_range addr len)) as [H|H]; unfold good_range, page_count in H.
  - rewrite bool_decide_true by done. symmetry. rewrite !andb_true_iff, negb_true_iff, Z.eqb_neq, Z.eqb_eq, Z.leb_le. lia.
  - rewrite bool_decide_false by done. symmetry. apply not_true_iff_false.
    rewrite !andb_true_iff, negb_true_iff, Z.eqb_neq, Z.eqb_eq, Z.leb_le. intros (?&?). apply H. lia.
Qed.

Lemma round_up_pages len : no_wrap len -> Z.shiftr (page_round_up len) 12 = page_count len.
Proof. unfold no_wrap. intros. rewrite page_round_up_spec, shiftr12 by lia. by rewrite Z.div_mul by lia. Qed.

Lemma round_up_idem len : no_wrap len -> no_wrap (page_round_up len) /\ page_count (page_round_up len) = page_count len.
Proof. unfold no_wrap, page_count. intros. rewrite page_round_up_spec by lia. lia. Qed.

(** ** What the queries answer *)

Lemma pages_have_spec pages mask i n :
  pages_have pages mask i n = true <-> forall j, i <= j < i + Z.of_nat n -> Z.land (pages j) mask = mask.
Proof.
  revert i. induction n as [|n IH]; intros i; simpl; [split; [lia|done]|].
  destruct (Z.eqb_spec (Z.land (pages i) mask) mask) as [E|E].
  - rewrite IH. split; intros H j Hj; [|apply H; lia].
    destruct (decide (j = i)) as [->|]; [done|]. apply H. lia.
  - split; [done|]. intros H. destruct E. apply H. lia.
Qed.

Lemma pages_unused_spec pages i n :
  pages_unused pages i n = true <-> forall j, i <= j < i + Z.of_nat n -> pages j = 0.
Proof.
  revert i. induction n as [|n IH]; intros i; simpl; [split; [lia|done]|].
  destruct (Z.eqb_spec (pages i) 0) as [E|E].
  - rewrite IH. split; intros H j Hj; [|apply H; lia].
    destruct (decide (j = i)) as [->|]; [done|]. apply H. lia.
  - split; [done|]. intros H. destruct E. apply H. lia.
Qed.

Lemma pages_writable_spec hp i n :
  pages_writable hp i n = true <-> forall j, i <= j < i + Z.of_nat n -> has_bits (hp j) PROT_WRITE = true.
Proof.
  revert i. induction n as [|n IH]; intros i; simpl; [split; [lia|done]|].
  rewrite andb_true_iff, IH. split.
  - intros [H1 H2] j Hj. destruct (decide (j = i)) as [->|]; [done|]. apply H2. lia.
  - intros H. split; [apply H; lia|]. intros j Hj. apply H. lia.
Qed.

(** Page [i] is mapped with all the [need] flags. *)
Definition page_has (m : GuestMemory) (need i : Z) : Prop :=
  Z.land (pages_ m i) (Z.lor need kPageMapped) = Z.lor need kPageMapped.

Lemma accessible_pages m addr len need :
  0 <= addr < 2 ^ 32 -> 0 <= len -> addr + len < 2 ^ 64 ->
  accessible m addr len need = true <->
  len = 0 \/ (addr + len <= 2 ^ 32 /\
    forall i, addr / 4096 <= i <= (addr + len - 1) / 4096 -> page_has m need i).
Proof.
  intros Ha Hl Hw. unfold accessible, page_has. change kGuestSpaceSize with (2 ^ 32).
  destruct (Z.eqb_spec len 0) as [->|Hz]; [naive_solver|].
  rewrite (u64_small (addr + len)) by lia.
  destruct (Z.ltb_spec (2 ^ 32) (addr + len)) as [Hgt|Hle]; [split; [done|lia]|].
  rewrite !shiftr12, u64_small, pages_have_spec by lia.
  split; [intros H; right; split; [done|]; intros i Hi; apply H; lia|].
  intros [?|[_ H]] j Hj; [lia|]. apply H. lia.
Qed.

Lemma range_free_pages m addr len :
  0 <= addr < 2 ^ 32 -> no_wrap len ->
  range_free m addr len = true <->
  good_range addr len /\ forall i, addr / 4096 <= i < addr / 4096 + page_count len -> pages_ m i = 0.
Proof.
  intros Ha Hl. unfold range_free. rewrite range_valid_spec by done.
  case_bool_decide as Hg; simpl; [|naive_solver].
  destruct Hg as (_ & Hp & Hm & Hb). unfold no_wrap in Hl. unfold page_count in *.
  rewrite page_round_up_spec, u64_small, !shiftr12, pages_unused_spec by lia.
  split; [intros H; split; [done|]; intros i Hi; apply H; lia|].
  intros [_ H] j Hj. apply H. lia.
Qed.

(** [n] unused pages from page [i] on. *)
Definition free_run (pages : Z -> Z) (i n : Z) : Prop := forall j, i <= j < i + n -> pages j = 0.

(** [k] starts the highest run of [want] unused pages below [top]. *)
Definition highest_run (pages : Z -> Z) (want top k : Z) : Prop :=
  kLowestAllocPage <= k /\ k + want <= top /\ free_run pages k want /\
  forall k', k < k' -> k' + want <= top -> ~ free_run pages k' want.

Lemma find_free_loop_spec n pages want top i run :
  0 <= run < want -> kLowestAllocPage <= i -> i + run <= top <= 2 ^ 20 -> i <= Z.of_nat n ->
  free_run pages i run -> (i + run = top \/ pages (i + run) <> 0) ->
  (forall k, i <= k -> k + want <= top -> ~ free_run pages k want) ->
  (exists k, highest_run pages want top k /\ find_free_loop n pages want i run = k * 4096) \/
  ((forall k, kLowestAllocPage <= k -> k + want <= top -> ~ free_run pages k want) /\
   find_free_loop n pages want i run = 0).
Proof.
  unfold highest_run. change kLowestAllocPage with 16. revert i run.
  induction n as [|n IH]; intros i run Hr Hi Htop Hn Hfree Hend Hno; cbn [find_free_loop]; [lia|].
  change kLowestAllocPage with 16. destruct (Z.leb_spec i 16) as [Hle|Hgt].
  { right. split; [|done]. intros k Hk. apply Hno. lia. }
  destruct (Z.eqb_spec (pages (i - 1)) 0) as [E0|E0].
  - assert (free_run pages (i - 1) (run + 1)) as Hfree'.
    { intros j Hj. destruct (decide (j = i - 1)) as [->|]; [done|]. apply Hfree. lia. }
    destruct (Z.eqb_spec (run + 1) want) as [E|E].
    + left. exists (i - 1). split_and!; [lia|lia| |intros k' Hk'; apply Hno; lia|].
      * by rewrite <- E.
      * rewrite Z.shiftl_mul_pow2 by lia. apply u32_small. lia.
    + apply IH; [lia..|done|by replace (i - 1 + (run + 1)) with (i + run) by lia|].
      intros k Hk Hkt Hk2. destruct (decide (k = i - 1)) as [->|]; [|by apply (Hno k); [lia..|]].
      destruct Hend as [?|Hend]; [lia|]. apply Hend, Hk2. lia.
  - apply IH; [lia..| |by right; rewrite Z.add_0_r|].
    + intros j Hj. lia.
    + intros k Hk Hkt Hk2. destruct (decide (k = i - 1)) as [->|]; [|by apply (Hno k); [lia..|]].
      apply E0, Hk2. lia.
Qed.

Lemma find_free_pages m len limit :
  no_wrap len -> 0 <= limit < 2 ^ 32 ->
  (0 < len /\ exists k, highest_run (pages_ m) (page_count len) (limit / 4096) k /\ find_free m len limit = k * 4096) \/
  ((0 < len -> forall k, kLowestAllocPage <= k -> k + page_count len <= limit / 4096 ->
     ~ free_run (pages_ m) k (page_count len)) /\
   find_free m len limit = 0).
Proof.
  intros Hl Hlim. unfold find_free. rewrite round_up_pages, shiftr12 by done.
  change kLowestAllocPage with 16. unfold no_wrap in Hl.
  assert (page_count len = 0 <-> len = 0) as Hz by (unfold page_count; lia).
  assert (0 <= page_count len) by (unfold page_count; lia).
  destruct (Z.eqb_spec (page_count len) 0); [right; split; [intros ? ? ? ? ?; lia|done]|].
  destruct (Z.ltb_spec (limit / 4096) 16); [right; split; [intros ? ? ? ? ?; lia|done]|].
  destruct (Z.ltb_spec (limit / 4096 - 16) (page_count len)); simpl orb; cbv iota; [right; split; [intros ? ? ? ? ?; lia|done]|].
  destruct (find_free_loop_spec (Z.to_nat (limit / 4096)) (pages_ m) (page_count len) (limit / 4096) (limit / 4096) 0)
    as [Hk|[Hno ->]]; [lia|change kLowestAllocPage with 16; lia|lia|lia|intros j; lia|lia|intros ? ? ? ?; lia| |].
  - left. split; [lia|done].
  - right. done.
Qed.

(** ** What the mutators do *)

(** Page [i] is one of the pages of the range. *)
Definition in_pages (addr len i : Z) : Prop := addr / 4096 <= i < addr / 4096 + page_count len.

(** The state after a granted mapping of the pages of [addr .. addr + len). *)
Definition remapped (m : GuestMemory) (addr len flags prot : Z) (contents : Z -> Z) : GuestMemory :=
  {| base_ := base_ m; pages_ := fill (pages_ m) (addr / 4096) (page_count len) flags;
     bytes_ := fun a => if (addr <=? a) && (a <? addr + page_count len * 4096) then contents a else bytes_ m a;
     hprot := fill (hprot m) (addr / 4096) (page_count len) prot; host_calls := S (host_calls m) |}.

(** The state after a granted protection change. *)
Definition reprotected (m : GuestMemory) (addr len flags prot : Z) : GuestMemory :=
  {| base_ := base_ m; pages_ := fill (pages_ m) (addr / 4096) (page_count len) flags; bytes_ := bytes_ m;
     hprot := fill (hprot m) (addr / 4096) (page_count len) prot; host_calls := S (host_calls m) |}.

Lemma set_flags_good m addr len flags :
  good_range addr len -> no_wrap len ->
  set_flags m addr (page_round_up len) flags =
  Ret {| base_ := base_ m; pages_ := fill (pages_ m) (addr / 4096) (page_count len) flags; bytes_ := bytes_ m;
         hprot := hprot m; host_calls := host_calls m |}.
Proof.
  intros (Ha & Hp & Hm & Hb) Hl. destruct (round_up_idem len Hl) as [Hl' Hc]. unfold set_flags.
  rewrite (round_up_pages _ Hl'), Hc, !shiftr12. change (kGuestSpaceSize / 4096) with (2 ^ 20).
  by rewrite (proj2 (Z.leb_le _ _) Hb).
Qed.

Lemma round_up_count len : no_wrap len -> page_round_up len = page_count len * 4096.
Proof. intros H. apply page_round_up_spec. unfold no_wrap in H. lia. Qed.

(** Every page of the range is mapped. *)
Definition all_mapped (m : GuestMemory) (addr len : Z) : Prop := forall i, in_pages addr len i -> page_has m 0 i.

Lemma accessible_range m addr len :
  good_range addr len -> no_wrap len ->
  accessible m addr (page_round_up len) 0 = true <-> all_mapped m addr len.
Proof.
  intros (Ha & Hp & Hm & Hb) Hl. rewrite round_up_count by done. unfold all_mapped, in_pages, no_wrap, page_count in *.
  rewrite accessible_pages by lia. split.
  - intros [?|[_ H]] i Hi; [lia|]. apply H. lia.
  - intros H. right. split; [lia|]. intros i Hi. apply H. lia.
Qed.

Section Effects.
Context (grants : nat -> host_request -> bool) (file_at : Z -> Z -> Z).

Local Ltac solve_map_run :=
  intros Ha Hl; 
  unfold map_anon, map_file, unmap;
  rewrite range_valid_spec by done;
  destruct (ok _) eqn:?; [|by rewrite andb_false_l];
  case_bool_decide as Hg; [|by rewrite andb_false_r]; simpl negb; simpl orb; cbv iota;
  unfold host_mmap; rewrite round_up_count by done;
  destruct (grants _ _); [|done]; simpl negb; cbv iota;
  rewrite <- round_up_count by done; rewrite set_flags_good by done;
  rewrite round_up_count, !shiftr12, Z.div_mul by done; reflexivity.

Lemma map_anon_run m addr len prot :
  0 <= addr < 2 ^ 32 -> no_wrap len ->
  map_anon grants file_at m addr len prot =
  Ret (if ok m && bool_decide (good_range addr len) then
         if grants (host_calls m) (HostMmap addr (page_count len * 4096) (host_prot prot)
              (Z.lor (Z.lor MAP_PRIVATE MAP_ANONYMOUS) MAP_FIXED) (-1) 0)
         then (true, remapped m addr len (flags_from_prot prot) (host_prot prot) (fun _ => 0))
         else (false, called m)
       else (false, m)).
Proof. solve_map_run. Qed.

Lemma unmap_run m addr len :
  0 <= addr < 2 ^ 32 -> no_wrap len ->
  unmap grants file_at m addr len =
  Ret (if ok m && bool_decide (good_range addr len) then
         if grants (host_calls m) (HostMmap addr (page_count len * 4096) PROT_NONE
              (Z.lor (Z.lor (Z.lor MAP_PRIVATE MAP_ANONYMOUS) MAP_FIXED) MAP_NORESERVE) (-1) 0)
         then (true, remapped m addr len 0 PROT_NONE (fun _ => 0))
         else (false, called m)
       else (false, m)).
Proof. solve_map_run. Qed.

Lemma map_file_flags share_flags :
  has_bits (Z.lor (Z.land share_flags (Z.lor MAP_SHARED MAP_PRIVATE)) MAP_FIXED) MAP_ANONYMOUS = false.
Proof.
  unfold has_bits. change MAP_FIXED with 16. change MAP_ANONYMOUS with 32. change (Z.lor MAP_SHARED MAP_PRIVATE) with 3.
  rewrite (Z.land_lor_distr_l _ _ 32), <- Z.land_assoc. change (Z.land 3 32) with 0. by rewrite Z.land_0_r.
Qed.

Lemma map_file_run m addr len prot share_flags fd offset :
  0 <= addr < 2 ^ 32 -> no_wrap len ->
  map_file grants file_at m addr len prot share_flags fd offset =
  Ret (if ok m && bool_decide (good_range addr len) then
         if grants (host_calls m) (HostMmap addr (page_count len * 4096) (host_prot prot)
              (Z.lor (Z.land share_flags (Z.lor MAP_SHARED MAP_PRIVATE)) MAP_FIXED) fd (s64 offset))
         then (true, remapped m addr len (flags_from_prot prot) (host_prot prot)
                       (mapped_byte file_at addr (Z.lor (Z.land share_flags (Z.lor MAP_SHARED MAP_PRIVATE)) MAP_FIXED)
                          fd (s64 offset)))
         else (false, called m)
       else (false, m)).
Proof. solve_map_run. Qed.

Lemma protect_run m addr len prot :
  0 <= addr < 2 ^ 32 -> no_wrap len ->
  protect grants m addr len prot =
  Ret (if ok m && bool_decide (good_range addr len) && accessible m addr (page_round_up len) 0 then
         if grants (host_calls m) (HostMprotect addr (page_count len * 4096) (host_prot prot))
         then (true, reprotected m addr len (flags_from_prot prot) (host_prot prot))
         else (false, called m)
       else (false, m)).
Proof.
  intros Ha Hl. unfold protect. rewrite range_valid_spec by done.
  destruct (ok m) eqn:?; [|done]. case_bool_decide as Hg; [|done].
  destruct (accessible m addr (page_round_up len) 0) eqn:?; [|done]. simpl negb; simpl orb; cbv iota.
  unfold host_mprotect. rewrite round_up_count by done.
  destruct (grants _ _); [|done]. simpl negb; cbv iota.
  rewrite <- round_up_count by done. rewrite set_flags_good by done.
  rewrite round_up_count, !shiftr12, Z.div_mul by done. reflexivity.
Qed.

End Effects.

(** ** Histories of the address space *)

(** The mutators as requests, with their C++ argument types. *)
Inductive mem_op :=
| OpMapAnon (addr len prot : Z)
| OpMapFile (addr len prot share_flags fd offset : Z)
| OpProtect (addr len prot : Z)
| OpUnmap (addr len : Z).

Definition op_addr (o : mem_op) : Z :=
  match o with OpMapAnon a _ _ | OpMapFile a _ _ _ _ _ | OpProtect a _ _ | OpUnmap a _ => a end.
Definition op_len (o : mem_op) : Z :=
  match o with OpMapAnon _ l _ | OpMapFile _ l _ _ _ _ | OpProtect _ l _ | OpUnmap _ l => l end.

(** The arguments fit their types: a [uint32_t] address, a [uint64_t] length. *)
Definition op_typed (o : mem_op) : Prop := 0 <= op_addr o < 2 ^ 32 /\ 0 <= op_len o < 2 ^ 64.

Section Runs.
Context {R : Refusal} (grants : nat -> host_request -> bool) (file_at : Z -> Z -> Z).

Definition mem_step (m : GuestMemory) (o : mem_op) : exec (bool * GuestMemory) :=
  match o with
  | OpMapAnon a l p => map_anon grants file_at m a l p
  | OpMapFile a l p s f off => map_file grants file_at m a l p s f off
  | OpProtect a l p => protect grants m a l p
  | OpUnmap a l => unmap grants file_at m a l
  end.

Fixpoint mem_run (m : GuestMemory) (os : list mem_op) : exec GuestMemory :=
  match os with
  | [] => Ret m
  | o :: os' => '(_, m') ← mem_step m o; mem_run m' os'
  end.

(** Page [i] is torn after [os] (or was before, [torn]): the host refused a call on a
    range with the page, and no later call on a range with the page succeeded. *)
Fixpoint torn_after (m : GuestMemory) (torn : bool) (os : list mem_op) (i : Z) : bool :=
  match os with
  | [] => torn
  | o :: os' =>
      match mem_step m o with
      | Ret (b, m') =>
          let here := bool_decide (op_addr o / 4096 <= i < op_addr o / 4096 + page_count (op_len o)) in
          let asked := negb (Nat.eqb (host_calls m') (host_calls m)) in
          torn_after m' (if here && asked then negb b else torn) os' i
      | _ => torn
      end
  end.

End Runs.

Section Histories.
Context (grants : nat -> host_request -> bool) (file_at : Z -> Z -> Z).

(** Linux refuses a mapping larger than the user address space. *)
Definition huge_refused : Prop :=
  forall n a l p fl fd off, 2 ^ 57 <= l ->
    grants n (HostMmap a l p fl fd off) = false /\ grants n (HostMprotect a l p) = false.

(** Every page is unused with no host access, or mapped with flags whose host
    protection is exactly what [host_prot] gives for them. *)
Definition page_ok (flags hp : Z) : Prop :=
  (flags = 0 /\ hp = PROT_NONE) \/ (exists prot, flags = flags_from_prot prot /\ hp = host_prot prot).

Definition mem_wf (m : GuestMemory) : Prop := forall i, page_ok (pages_ m i) (hprot m i).

Lemma remapped_wf m addr len flags prot contents :
  mem_wf m -> page_ok flags prot -> mem_wf (remapped m addr len flags prot contents).
Proof. intros Hm Hp i. unfold remapped, fill. simpl. by case_match. Qed.

Lemma reprotected_wf m addr len flags prot :
  mem_wf m -> page_ok flags prot -> mem_wf (reprotected m addr len flags prot).
Proof. intros Hm Hp i. unfold reprotected, fill. simpl. by case_match. Qed.

Lemma page_ok_prot prot : page_ok (flags_from_prot prot) (host_prot prot).
Proof. right. eauto. Qed.
Hint Resolve remapped_wf reprotected_wf page_ok_prot : zb.

(** Huge lengths: the request is refused, by the code or by the host. *)
Lemma huge_step m o :
  huge_refused -> op_typed o -> ~ no_wrap (op_len o) ->
  mem_step grants file_at m o = Ret (false, m) \/ mem_step grants file_at m o = Ret (false, called m).
Proof.
  intros Hh [Ha Hl] Hw. unfold no_wrap in Hw.
  assert (page_round_up (op_len o) = 0 \/ 2 ^ 57 <= page_round_up (op_len o)) as Hr.
  { rewrite page_round_up_wrap. unfold u64.
    destruct (decide (op_len o + 4095 < 2 ^ 64)).
    - rewrite Z.mod_small by lia. lia.
    - left. replace ((op_len o + 4095) mod 2 ^ 64) with (op_len o + 4095 - 2 ^ 64); [lia|].
      apply Z.mod_unique with (q := 1); [left|]; lia. }
  destruct o as [a l p|a l p sf fd off|a l p|a l]; simpl in *;
    unfold map_anon, map_file, protect, unmap, host_mmap, host_mprotect;
    (destruct Hr as [->|Hr]; [left; by rewrite ?orb_true_r|]);
    repeat match goal with |- context [if ?b then _ else _] => destruct b eqn:? end; try (by left);
    simpl in *; simplify_eq; try (by right); exfalso;
    match goal with H : grants _ _ = true |- _ =>
      eapply (eq_true_false_abs _ H); apply (Hh _ _ _ _ 0 0 0 Hr) || apply (Hh _ _ _ _ _ _ _ Hr) end.
Qed.

(** The flags and the contents an operation gives to its pages. *)
Definition op_flags (o : mem_op) : Z :=
  match o with OpMapAnon _ _ p | OpMapFile _ _ p _ _ _ | OpProtect _ _ p => flags_from_prot p | OpUnmap _ _ => 0 end.
Definition op_contents (m : GuestMemory) (o : mem_op) (a : Z) : Z :=
  match o with
  | OpMapAnon _ _ _ | OpUnmap _ _ => 0
  | OpMapFile addr _ _ _ fd off => file_at fd (s64 off + (a - addr))
  | OpProtect _ _ _ => bytes_ m a
  end.

(** The code's own condition for an operation: a whole-page range inside the guest
    space, fully mapped if only its protection changes. *)
Definition op_allowed (m : GuestMemory) (o : mem_op) : Prop :=
  ok m = true /\ good_range (op_addr o) (op_len o) /\
  match o with OpProtect a l _ => all_mapped m a l | _ => True end.

(** The same guest space, up to the count of host calls. *)
Definition same_space (m m' : GuestMemory) : Prop :=
  base_ m' = base_ m /\ pages_ m' = pages_ m /\ bytes_ m' = bytes_ m /\ hprot m' = hprot m.

(** The effect of a successful operation, pointwise. *)
Definition op_done (m m' : GuestMemory) (o : mem_op) : Prop :=
  base_ m' = base_ m /\
  (forall i, pages_ m' i = if decide (in_pages (op_addr o) (op_len o) i) then op_flags o else pages_ m i) /\
  (forall a, bytes_ m' a = if decide (in_pages (op_addr o) (op_len o) (a / 4096)) then op_contents m o a else bytes_ m a).

Lemma fill_in_pages f addr len v i :
  fill f (addr / 4096) (page_count len) v i = if decide (in_pages addr len i) then v else f i.
Proof.
  unfold fill, in_pages. case_decide as H.
  - by rewrite (proj2 (Z.leb_le _ _)), (proj2 (Z.ltb_lt _ _)) by lia.
  - destruct (Z.leb_spec (addr / 4096) i), (Z.ltb_spec i (addr / 4096 + page_count len)); simpl; done || lia.
Qed.

Lemma bytes_in_pages {A} addr len a (x y : A) :
  addr mod 4096 = 0 ->
  (if (addr <=? a) && (a <? addr + page_count len * 4096) then x else y) =
  if decide (in_pages addr len (a / 4096)) then x else y.
Proof.
  intros Hm. unfold in_pages. case_decide as H.
  - rewrite (proj2 (Z.leb_le _ _)), (proj2 (Z.ltb_lt _ _)); [done|lia..].
  - destruct (Z.leb_spec addr a), (Z.ltb_spec a (addr + page_count len * 4096)); simpl; done || lia.
Qed.

(** A refused operation: the state is kept and a condition failed. *)
Local Ltac refused :=
  right; eexists; split_and!; [reflexivity..|];
  intros Hall (? & ? & ?); first [congruence|done|by rewrite Hall in *].

Lemma mem_step_cases m o :
  0 <= op_addr o < 2 ^ 32 -> no_wrap (op_len o) ->
  (exists m', mem_step grants file_at m o = Ret (true, m') /\ op_allowed m o /\ op_done m m' o /\ (mem_wf m -> mem_wf m')) \/
  (exists m', mem_step grants file_at m o = Ret (false, m') /\ same_space m m' /\
     ((forall n q, grants n q = true) -> ~ op_allowed m o)).
Proof.
  intros Ha Hl. unfold op_allowed, op_done, same_space.
  destruct o as [a l p|a l p sf fd off|a l p|a l]; cbn [mem_step op_addr op_len op_flags op_contents] in *.
  - rewrite map_anon_run by done. destruct (ok m) eqn:Hok; simpl andb; [case_bool_decide as Hg|]; cbv iota.
    2,3: refused.
    destruct (grants _ _) eqn:Hgr; [left|refused].
    eexists. split_and!; [reflexivity|done..| | |auto with zb]; intros; simpl; [by rewrite fill_in_pages|].
    apply bytes_in_pages, Hg.
  - rewrite map_file_run by done. destruct (ok m) eqn:Hok; simpl andb; [case_bool_decide as Hg|]; cbv iota.
    2,3: refused.
    destruct (grants _ _) eqn:Hgr; [left|refused].
    eexists. split_and!; [reflexivity|done..| | |auto with zb]; intros; simpl; [by rewrite fill_in_pages|].
    unfold mapped_byte. rewrite map_file_flags. apply bytes_in_pages, Hg.
  - rewrite protect_run by done. destruct (ok m) eqn:Hok; simpl andb; [case_bool_decide as Hg|]; cbv iota.
    2,3: refused.
    pose proof (accessible_range m a l Hg Hl) as Hacc.
    destruct (accessible _ _ _ _); simpl andb; cbv iota.
    2: right; eexists; split_and!; [reflexivity..|]; intros _ (_ & _ & H); by apply Hacc in H.
    destruct (grants _ _) eqn:Hgr; [left|refused].
    eexists. split_and!; [reflexivity|done|done|by apply Hacc|done| | |auto with zb]; intros; simpl; [by rewrite fill_in_pages|].
    by case_decide.
  - rewrite unmap_run by done. destruct (ok m) eqn:Hok; simpl andb; [case_bool_decide as Hg|]; cbv iota.
    2,3: refused.
    destruct (grants _ _) eqn:Hgr; [left|refused].
    eexists. split_and!; [reflexivity|done..| | |intros; apply remapped_wf; [done|by left]]; intros; simpl; [by rewrite fill_in_pages|].
    apply bytes_in_pages, Hg.
Qed.

End Histories.

(** ** Properties of the address space *)

Lemma has_bits_lor f a b : has_bits f (Z.lor a b) = has_bits f a || has_bits f b.
Proof.
  unfold has_bits. rewrite Z.land_lor_distr_r, <- negb_andb. f_equal.
  apply eq_iff_eq_true. by rewrite andb_true_iff, !Z.eqb_eq, Z.lor_eq_0_iff.
Qed.

Lemma host_prot_cases prot : host_prot prot = 0 \/ host_prot prot = 1 \/ host_prot prot = 3.
Proof. unfold host_prot. repeat case_match; auto. Qed.

(** ** Histories on a host whose refused calls may change pages *)

(** A host protection the code asks for. *)
Definition prot_asked (hp : Z) : Prop := hp = 0 \/ hp = 1 \/ hp = 3.

(** [m'] differs from [m] only on the pages of the range, where the host protection is
    the old one, [prot] or none. *)
Definition refused_on (m m' : GuestMemory) (addr len prot : Z) : Prop :=
  pages_ m' = pages_ m /\ host_calls m' = S (host_calls m) /\
  forall i, hprot m' i = hprot m i \/ (in_pages addr len i /\ (hprot m' i = prot \/ hprot m' i = PROT_NONE)).

Section Torn.
Context {R : Refusal} (grants : nat -> host_request -> bool) (file_at : Z -> Z -> Z).

Lemma refused_call_on m q addr len n prot contents :
  0 <= addr < 2 ^ 32 -> len = page_count n * 4096 -> refused_on m (refused_call m q addr len prot contents) addr n prot.
Proof.
  intros Ha ->. unfold refused_call, refused_on. destruct (refused _ _) as [leave|]; cbn; split_and!; try done; [|by left].
  intros i. rewrite !shiftr12, Z.div_mul by lia.
  destruct (_ && _) eqn:E; [|by left]. apply andb_true_iff in E as [?%Z.leb_le ?%Z.ltb_lt].
  destruct (leave i); cbn; [by left|right; unfold in_pages; auto..].
Qed.

(** The rounded length is the bytes of the pages, or 0 when it wraps around. *)
Lemma round_up_any len : 0 <= len < 2 ^ 64 -> page_round_up len = 0 \/ page_round_up len = page_count len * 4096.
Proof.
  intros Hl. rewrite page_round_up_wrap. unfold page_count, u64.
  destruct (decide (len + 4095 < 2 ^ 64)); [right; by rewrite Z.mod_small by lia|left].
  replace ((len + 4095) mod 2 ^ 64) with (len + 4095 - 2 ^ 64); [lia|].
  apply Z.mod_unique with (q := 1); [left|]; lia.
Qed.

Definition op_prot (o : mem_op) : Z :=
  match o with OpMapAnon _ _ p | OpMapFile _ _ p _ _ _ | OpProtect _ _ p => host_prot p | OpUnmap _ _ => PROT_NONE end.

(** Only a refused host call can make a difference between hosts. *)
Lemma step_on_any_host m o :
  op_typed o ->
  mem_step grants file_at m o = mem_step (R := atomic) grants file_at m o \/
  (mem_step (R := atomic) grants file_at m o = Ret (false, called m) /\
   exists m', mem_step grants file_at m o = Ret (false, m') /\ refused_on m m' (op_addr o) (op_len o) (op_prot o)).
Proof.
  intros [Ha Hl]. pose proof (round_up_any _ Hl) as Hr.
  destruct o as [a l p|a l p sf fd off|a l p|a l]; cbn [op_addr op_len op_prot mem_step] in *;
    unfold map_anon, map_file, protect, unmap, host_mmap, host_mprotect;
    (destruct Hr as [->|Hr]; [left; by rewrite ?orb_true_r|]);
    (destruct (_ || _); [by left|]); (destruct (grants _ _); [by left|right]);
    (split; [done|]); eexists; (split; [reflexivity|]); apply refused_call_on; done.
Qed.

(** A step of the atomic host: it succeeds, or it is refused with nothing changed. *)
Lemma atomic_step m o :
  huge_refused grants -> op_typed o ->
  (exists m', mem_step (R := atomic) grants file_at m o = Ret (true, m') /\ host_calls m' = S (host_calls m) /\
     forall i, (in_pages (op_addr o) (op_len o) i -> page_ok (pages_ m' i) (hprot m' i)) /\
       (~ in_pages (op_addr o) (op_len o) i -> pages_ m' i = pages_ m i /\ hprot m' i = hprot m i)) \/
  mem_step (R := atomic) grants file_at m o = Ret (false, m) \/ mem_step (R := atomic) grants file_at m o = Ret (false, called m).
Proof.
  intros Hh [Ha Hl]. destruct (decide (0 <= op_len o <= 2 ^ 64 - 2 ^ 33)) as [Hw|Hw]; [|right; by apply huge_step].
  destruct o as [a l p|a l p sf fd off|a l p|a l]; cbn [op_addr op_len mem_step] in *;
    [rewrite map_anon_run by done|rewrite map_file_run by done|rewrite protect_run by done|rewrite unmap_run by done];
    (destruct (_ && _); [|by right; left]); (destruct (grants _ _); [left|by right; right]);
    eexists; (split; [reflexivity|]); (split; [reflexivity|]); intros i;
    unfold remapped, reprotected; cbn [pages_ hprot]; rewrite !(fill_in_pages file_at); destruct (decide (in_pages _ _ _)); split; intros; try done;
    first [apply page_ok_prot|by left].
Qed.

(** What a history keeps of page [i]: the host never grants execution, and the page is
    in step with its flags unless it is torn. *)
Definition page_safe (m : GuestMemory) (torn : bool) (i : Z) : Prop :=
  prot_asked (hprot m i) /\ (torn = false -> page_ok (pages_ m i) (hprot m i)).

Lemma page_ok_asked flags hp : page_ok flags hp -> prot_asked hp.
Proof. intros [[_ ->]|(prot & _ & ->)]; [by left|apply host_prot_cases]. Qed.

Lemma op_prot_asked o : prot_asked (op_prot o).
Proof. destruct o; cbn; first [apply host_prot_cases|by left]. Qed.

Lemma history_safe os m torn i :
  huge_refused grants -> Forall op_typed os -> page_safe m torn i ->
  exists m', mem_run grants file_at m os = Ret m' /\ page_safe m' (torn_after grants file_at m torn os i) i.
Proof.
  intros Hh Hos. revert m torn. induction Hos as [|o os Ho _ IH]; intros m torn Hm; [by exists m|].
  cbn [mem_run torn_after].
  assert (exists b m', mem_step grants file_at m o = Ret (b, m') /\
    page_safe m' (if bool_decide (op_addr o / 4096 <= i < op_addr o / 4096 + page_count (op_len o)) &&
                     negb (Nat.eqb (host_calls m') (host_calls m)) then negb b else torn) i) as (b & m' & E & Hm').
  { destruct Hm as [Hp Hk].
    assert (page_safe (called m) (if bool_decide (op_addr o / 4096 <= i < op_addr o / 4096 + page_count (op_len o)) &&
              negb (Nat.eqb (host_calls (called m)) (host_calls m)) then true else torn) i) as Hc.
    { split; [done|]. destruct (_ && _); [done|]. exact Hk. }
    destruct (step_on_any_host m o Ho) as [->|(_ & m' & -> & Hpg & Hn & Hr)].
    - destruct (atomic_step m o Hh Ho) as [(m' & -> & Hn & H)|[->| ->]]; eexists _, _; (split; [reflexivity|]); try done.
      + specialize (H i). unfold in_pages in H. rewrite Hn, (proj2 (Nat.eqb_neq _ _)), andb_true_r by lia. cbn [negb].
        case_bool_decide as Hin; destruct H as [H1 H2].
        * specialize (H1 Hin). split; [by eapply page_ok_asked|done].
        * unfold page_safe; destruct (H2 Hin) as [-> ->]. by split.
      + rewrite Nat.eqb_refl, andb_false_r. by split.
    - eexists _, _. split; [reflexivity|]. rewrite Hn, (proj2 (Nat.eqb_neq _ _)), andb_true_r by lia. cbn [negb].
      specialize (Hr i). unfold in_pages in Hr. split.
      + destruct Hr as [->|(_ & [->| ->])]; [done|apply op_prot_asked|by left].
      + case_bool_decide; [done|]. rewrite Hpg. destruct Hr as [->|[? _]]; done. }
  rewrite E. apply (IH m' _ Hm').
Qed.

(** A host whose refused calls change nothing tears no page. *)
Lemma atomic_history os m :
  (forall n q, refused n q = None) -> mem_run grants file_at m os = mem_run (R := atomic) grants file_at m os.
Proof.
  intros Hn. assert (forall m o, mem_step grants file_at m o = mem_step (R := atomic) grants file_at m o) as E.
  { intros m0 o. destruct o; cbn [mem_step]; unfold map_anon, map_file, protect, unmap, host_mmap, host_mprotect, refused_call;
      by rewrite Hn. }
  revert m. induction os as [|o os IH]; intros m; cbn [mem_run]; [done|]. rewrite E.
  destruct (mem_step (R := atomic) grants file_at m o) as [[b m']| |]; cbn; [apply IH|done..].
Qed.

Lemma atomic_run_wf os m :
  huge_refused grants -> Forall op_typed os -> mem_wf m -> exists m', mem_run (R := atomic) grants file_at m os = Ret m' /\ mem_wf m'.
Proof.
  intros Hh Hos. revert m. induction Hos as [|o os Ho _ IH]; intros m Hm; [by exists m|]. cbn [mem_run].
  destruct (atomic_step m o Hh Ho) as [(m' & -> & _ & H)|[->| ->]]; cbn; apply IH; try done.
  intros i. destruct (H i) as [H1 H2]. destruct (decide (in_pages (op_addr o) (op_len o) i)) as [Hi|Hi]; [auto|].
  destruct (H2 Hi) as [-> ->]. apply Hm.
Qed.

End Torn.

(** C6: whatever the sequence of map, protect and unmap calls, whichever of them the
    host kernel refuses and whatever a refused call leaves of its pages (the old
    mapping, the requested one or nothing), provided the kernel refuses lengths of
    [2^57] bytes and more: no call writes outside the page table, no page is ever
    executable on the host, and every page that is not torn (in the range of a refused
    host call, with no successful call on it since) is unused with no host access or
    mapped with exactly the host protection of its guest protection.  On a kernel whose
    refused calls change nothing this holds of every page. *)
Theorem memory_history_safe {R : Refusal} grants file_at reserved os :
  huge_refused grants -> Forall op_typed os ->
  exists m, mem_run grants file_at (GuestMemory_init reserved) os = Ret m /\
    (forall i, has_bits (hprot m i) PROT_EXEC = false) /\
    (forall i, torn_after grants file_at (GuestMemory_init reserved) false os i = false -> page_ok (pages_ m i) (hprot m i)) /\
    ((forall n q, refused n q = None) -> mem_wf m).
Proof.
  intros Hh Hos.
  assert (forall i, page_safe (GuestMemory_init reserved) false i) as H0 by (intros i; split; [by left|by left]).
  destruct (history_safe grants file_at os _ _ 0 Hh Hos (H0 0)) as (m & E & _). exists m.
  assert (forall i, page_safe m (torn_after grants file_at (GuestMemory_init reserved) false os i) i) as H.
  { intros i. destruct (history_safe grants file_at os _ _ i Hh Hos (H0 i)) as (m' & E' & H). congruence. }
  split_and!; [done|intros i; by destruct (H i) as [[->|[->| ->]] _]|intros i; apply H|].
  intros Hn. rewrite atomic_history in E by done.
  destruct (atomic_run_wf grants file_at os (GuestMemory_init reserved) Hh Hos) as (m' & E' & Hm'); [intros i; by left|]. rewrite E in E'; by injection E' as <-.
Qed.

(** [map_anon], [map_file], [protect] and [unmap] are exact.  A call that returns
    true was asked for a whole-page range inside the guest space (all mapped, for
    [protect]), gives every page of the range the requested flags and the right
    contents (zeroes, the file, or what was there), and touches nothing else; a
    call that returns false changes nothing; and unless the host refuses, the call
    succeeds whenever the range is acceptable. *)
Theorem mutators_exact grants file_at m o :
  0 <= op_addr o < 2 ^ 32 -> no_wrap (op_len o) ->
  exists b m', mem_step grants file_at m o = Ret (b, m') /\
    (b = true -> op_allowed m o /\ op_done file_at m m' o) /\
    (b = false -> same_space m m') /\
    ((forall n q, grants n q = true) -> op_allowed m o -> b = true).
Proof.
  intros Ha Hl. destruct (mem_step_cases grants file_at m o Ha Hl)
    as [(m' & E & Hal & Hd & _)|(m' & E & Hs & Hn)]; eexists _, m'; (split; [done|]); split_and!; try done.
  intros Hg Hal. by destruct (Hn Hg).
Qed.

(** Flags of a well-formed page and the host access they promise. *)
Lemma page_ok_access flags hp need :
  page_ok flags hp -> Z.land flags (Z.lor need kPageMapped) = Z.lor need kPageMapped ->
  (has_bits need (Z.lor kPageRead kPageExec) = true -> has_bits hp PROT_READ = true) /\
  (has_bits need kPageWrite = true -> has_bits hp PROT_READ = true /\ has_bits hp PROT_WRITE = true).
Proof.
  intros Hp Hf.
  assert (forall n, 0 <= n -> Z.testbit need n = true -> Z.testbit flags n = true) as Hbit.
  { intros n Hn Hneed. assert (Z.testbit (Z.lor need kPageMapped) n = true) as Hl by (by rewrite Z.lor_spec, Hneed).
    rewrite <- Hf, Z.land_spec in Hl. by apply andb_true_iff in Hl as [? _]. }
  assert (forall n f, 0 <= n -> has_bits f (2 ^ n) = Z.testbit f n) as Htb.
  { intros n f Hn. unfold has_bits. destruct (Z.testbit f n) eqn:E.
    - apply negb_true_iff, Z.eqb_neq. intros H. 
      assert (Z.testbit (Z.land f (2 ^ n)) n = false) as H' by (by rewrite H, Z.bits_0).
      by rewrite Z.land_spec, E, Z.pow2_bits_true in H'.
    - apply negb_false_iff, Z.eqb_eq, Z.bits_inj'. intros k Hk. rewrite Z.land_spec, Z.bits_0.
      destruct (decide (k = n)) as [->|]; [by rewrite E|]. by rewrite Z.pow2_bits_false, andb_false_r by lia. }
  rewrite has_bits_lor. change kPageRead with (2 ^ 0). change kPageExec with (2 ^ 2). change kPageWrite with (2 ^ 1).
  rewrite !Htb by lia.
  destruct Hp as [[-> ->]|(prot & -> & ->)].
  { exfalso. assert (Z.testbit (Z.lor need kPageMapped) 3 = false) as H by (by rewrite <- Hf).
    by rewrite Z.lor_spec, orb_true_r in H. }
  pose proof (Hbit 0 ltac:(lia)) as H0. pose proof (Hbit 1 ltac:(lia)) as H1. pose proof (Hbit 2 ltac:(lia)) as H2.
  clear Hbit Hf. revert H0 H1 H2.
  generalize (Z.testbit need 0), (Z.testbit need 1), (Z.testbit need 2). intros b0 b1 b2.
  unfold flags_from_prot, host_prot. rewrite has_bits_lor.
  destruct (has_bits prot PROT_READ), (has_bits prot PROT_WRITE), (has_bits prot PROT_EXEC);
    cbn; intros H0 H1 H2; destruct b0, b1, b2; cbn; intuition congruence.
Qed.

(** a pointer from [host_ptr] never faults.  In any state reached by the
    mutators, if [host_ptr] returns a pointer for [len] bytes then the whole range
    lies in the guest space and the host lets every byte of it be read (for a
    read or execute need) and written (for a write need); without the needed
    flags on some page it returns null. *)
Theorem host_ptr_safe m addr len need :
  mem_wf m -> 0 <= addr < 2 ^ 32 -> 0 < len -> addr + len < 2 ^ 64 ->
  (host_ptr m addr len need = Some addr /\ addr + len <= 2 ^ 32 /\
     forall a, addr <= a < addr + len -> page_has m need (a / 4096) /\
       (has_bits need (Z.lor kPageRead kPageExec) = true -> has_bits (hprot m (a / 4096)) PROT_READ = true) /\
       (has_bits need kPageWrite = true -> has_bits (hprot m (a / 4096)) PROT_WRITE = true))
  \/ (host_ptr m addr len need = None /\
      (addr + len > 2 ^ 32 \/ ~ forall a, addr <= a < addr + len -> page_has m need (a / 4096))).
Proof.
  intros Hm Ha Hl Hw. unfold host_ptr. pose proof (accessible_pages m addr len need Ha ltac:(lia) Hw) as Hacc.
  destruct (accessible m addr len need).
  - left. destruct Hacc as [[?|[Hb Hp]] _]; [done|lia|]. split_and!; [done..|]. intros a Har.
    assert (page_has m need (a / 4096)) as Hpa by (apply Hp; lia).
    destruct (page_ok_access _ _ need (Hm (a / 4096)) Hpa) as [Hr Hwr]. split_and!; [done..|].
    intros H. by apply Hwr.
  - right. split; [done|]. destruct (decide (addr + len > 2 ^ 32)); [by left|right].
    intros Hp. enough (false = true) by done. apply Hacc. right. split; [lia|]. intros i Hi.
    destruct (decide (i = addr / 4096)) as [->|]; [apply Hp; lia|].
    replace i with (i * 4096 / 4096) by (by rewrite Z.div_mul). apply Hp. lia.
Qed.

Lemma range_free_run m a len limit :
  0 < len <= 2 ^ 64 - 2 ^ 33 -> 0 <= limit < 2 ^ 32 -> 0 <= a -> a mod 4096 = 0 ->
  a / 4096 + page_count len <= limit / 4096 ->
  range_free m a len = true <-> free_run (pages_ m) (a / 4096) (page_count len).
Proof.
  intros Hl Hlim Ha Hm Hle. assert (0 < page_count len) by (unfold page_count; lia).
  rewrite range_free_pages by (unfold no_wrap; lia). unfold free_run. split; [by intros [_ ?]|].
  intros H'. split; [|done]. unfold good_range. lia.
Qed.

(** [find_free] returns the highest free page-aligned range of the requested
    size that ends at or below the limit and does not start below 0x10000, and 0
    exactly when there is none. *)
Theorem find_free_highest m len limit :
  0 < len <= 2 ^ 64 - 2 ^ 33 -> 0 <= limit < 2 ^ 32 ->
  let a := find_free m len limit in
  (a <> 0 /\ a mod 4096 = 0 /\ 0x10000 <= a /\ a + len <= limit /\ range_free m a len = true /\
     forall a', a < a' -> a' mod 4096 = 0 -> a' / 4096 + page_count len <= limit / 4096 -> range_free m a' len = false)
  \/ (a = 0 /\ forall a', 0x10000 <= a' -> a' mod 4096 = 0 -> a' / 4096 + page_count len <= limit / 4096 ->
        range_free m a' len = false).
Proof.
  intros Hl Hlim a. assert (no_wrap len) as Hw by (unfold no_wrap; lia).
  destruct (find_free_pages m len limit) as [(_ & k & (Hk & Hkt & Hkf & Hkh) & E)|[Hno E]]; [done..| |];
    change kLowestAllocPage with 16 in *; unfold a; rewrite E.
  - left. assert (k * 4096 / 4096 = k) as Ek by (apply Z.div_mul; lia). split_and!; [lia..| | |].
    + unfold page_count in Hkt. lia.
    + apply (range_free_run m _ len limit); [lia..|]. by rewrite Ek.
    + intros a' Ha' Hm' Hle'. apply not_true_iff_false. rewrite (range_free_run m _ len limit) by lia.
      apply Hkh; lia.
  - right. split; [done|]. intros a' Ha' Hm' Hle'. apply not_true_iff_false.
    rewrite (range_free_run m _ len limit) by lia. apply Hno; lia.
Qed.

(** A host kernel that grants any mapping below [2^57] bytes, and a file. *)
Definition sample_grants (n : nat) (q : host_request) : bool :=
  match q with HostMmap _ l _ _ _ _ | HostMprotect _ l _ => l <? 2 ^ 57 end.
Definition sample_file (fd off : Z) : Z := (fd + off) mod 256.

(** A host that refuses every second call, having discarded the page it had to replace. *)
Definition tearing_grants (n : nat) (q : host_request) : bool := sample_grants n q && Nat.odd n.
Definition tearing : Refusal := fun _ q => match q with HostMmap _ _ _ _ _ _ => Some (fun _ => Discarded) | _ => None end.
Definition tearing_ops : list mem_op :=
  [OpMapAnon 0x10000 5000 3; OpUnmap 0x11000 1; OpMapFile 0x20000 1 1 2 7 0; OpUnmap 0x20000 1; OpMapAnon 0x20000 1 5].

Lemma memory_history_safe_witness :
  exists m, mem_run (R := tearing) tearing_grants sample_file (GuestMemory_init true) tearing_ops = Ret m /\
    (forall i, has_bits (hprot m i) PROT_EXEC = false) /\
    (forall i, torn_after (R := tearing) tearing_grants sample_file (GuestMemory_init true) false tearing_ops i = false ->
       page_ok (pages_ m i) (hprot m i)) /\
    ((forall n q, tearing n q = None) -> mem_wf m).
Proof.
  apply (memory_history_safe (R := tearing) tearing_grants sample_file true).
  - intros n a l p fl fd off Hl. unfold tearing_grants, sample_grants. rewrite (proj2 (Z.ltb_ge _ _) Hl). split; reflexivity.
  - repeat (apply Forall_cons; split; [split; cbn; lia|]). apply Forall_nil. exact I.
Defined.

(** The refused unmap tore page 0x11; the refused unmap of page 0x20 was repaired by the
    mapping after it. *)
Example tearing_history :
  map (torn_after (R := tearing) tearing_grants sample_file (GuestMemory_init true) false tearing_ops) [0x10; 0x11; 0x20; 0x21]
  = [false; true; false; false].
Proof. reflexivity. Qed.

Lemma mutators_exact_witness :
  exists b m', mem_step sample_grants sample_file (GuestMemory_init true) (OpMapAnon 0x10000 5000 3) = Ret (b, m') /\
    (b = true -> op_allowed (GuestMemory_init true) (OpMapAnon 0x10000 5000 3) /\
       op_done sample_file (GuestMemory_init true) m' (OpMapAnon 0x10000 5000 3)) /\
    (b = false -> same_space (GuestMemory_init true) m') /\
    ((forall n q, sample_grants n q = true) -> op_allowed (GuestMemory_init true) (OpMapAnon 0x10000 5000 3) -> b = true).
Proof.
  apply (mutators_exact sample_grants sample_file (GuestMemory_init true) (OpMapAnon 0x10000 5000 3)).
  - cbn. lia.
  - unfold no_wrap. cbn. lia.
Defined.

(** Two pages at 0x10000, readable and writable. *)
Definition sample_memory : GuestMemory :=
  remapped (GuestMemory_init true) 0x10000 8192 (flags_from_prot 3) (host_prot 3) (fun _ => 0).

Lemma sample_memory_wf : mem_wf sample_memory.
Proof. apply remapped_wf; [intros i; left; split; reflexivity|apply page_ok_prot]. Qed.

Lemma host_ptr_safe_witness :
  (host_ptr sample_memory 0x10ffe 4 2 = Some 0x10ffe /\ 0x10ffe + 4 <= 2 ^ 32 /\
     forall a, 0x10ffe <= a < 0x10ffe + 4 -> page_has sample_memory 2 (a / 4096) /\
       (has_bits 2 (Z.lor kPageRead kPageExec) = true -> has_bits (hprot sample_memory (a / 4096)) PROT_READ = true) /\
       (has_bits 2 kPageWrite = true -> has_bits (hprot sample_memory (a / 4096)) PROT_WRITE = true))
  \/ (host_ptr sample_memory 0x10ffe 4 2 = None /\
      (0x10ffe + 4 > 2 ^ 32 \/ ~ forall a, 0x10ffe <= a < 0x10ffe + 4 -> page_has sample_memory 2 (a / 4096))).
Proof. apply (host_ptr_safe sample_memory 0x10ffe 4 2 sample_memory_wf); lia. Defined.

Lemma find_free_highest_witness :
  let a := find_free sample_memory 4096 0x14000 in
  (a <> 0 /\ a mod 4096 = 0 /\ 0x10000 <= a /\ a + 4096 <= 0x14000 /\ range_free sample_memory a 4096 = true /\
     forall a', a < a' -> a' mod 4096 = 0 -> a' / 4096 + page_count 4096 <= 0x14000 / 4096 -> range_free sample_memory a' 4096 = false)
  \/ (a = 0 /\ forall a', 0x10000 <= a' -> a' mod 4096 = 0 -> a' / 4096 + page_count 4096 <= 0x14000 / 4096 ->
        range_free sample_memory a' 4096 = false).
Proof. apply (find_free_highest sample_memory 4096 0x14000); lia. Defined.

Example find_free_computes : find_free sample_memory 4096 0x14000 = 0x13000 /\ find_free sample_memory 8192 0x13000 = 0.
Proof. split; reflexivity. Qed.

(** The 64-bit sum in [accessible] wraps around for lengths close to [2^64]: nothing
    is mapped, yet the range is reported accessible. *)
Example accessible_length_wraps : accessible (GuestMemory_init true) 4096 (2 ^ 64 - 1) kPageWrite = true.
Proof. reflexivity. Qed.
