(* ===== verification/ElfLoader.v ===== *)
(** * Loading ARM ELF files into guest memory

    [core/src/elf_loader.cpp] has one function, [load_elf]: it validates the file,
    chooses a load bias, copies the segments into a temporary writable mapping,
    then gives every page the union of the permissions of the segments on it and
    unmaps the gaps.  It is split here at its loops.

    The file itself is an argument, [file_result]: what opening and reading it
    gave.  Reading outside the file, indexing outside [page_prot] and writing to a
    page the host does not let the process write are [Undefined]. *)

From stdpp Require Import numbers list.
From S2P Require Import Prelude Bytes GuestMemory.
Local Open Scope Z_scope.
Local Ltac Zify.zify_post_hook ::= Z.div_mod_to_equations.

(** ** ELF structures *)

Record Elf32_Ehdr := {
  e_ident : list Z; e_type : Z; e_machine : Z; e_version : Z; e_entry : Z; e_phoff : Z;
  e_ehsize : Z; e_phentsize : Z; e_phnum : Z;
}.

Record Elf32_Phdr := {
  p_type : Z; p_offset : Z; p_vaddr : Z; p_filesz : Z; p_memsz : Z; p_flags : Z; p_align : Z;
}.

Definition sizeof_Ehdr : Z := 52.
Definition sizeof_Phdr : Z := 32.
Definition PT_LOAD : Z := 1.
Definition PT_INTERP : Z := 3.
Definition PT_PHDR : Z := 6.
Definition PF_X : Z := 1.
Definition PF_W : Z := 2.
Definition PF_R : Z := 4.
Definition ET_EXEC : Z := 2.
Definition ET_DYN : Z := 3.
Definition EM_ARM : Z := 40.
Definition EV_CURRENT : Z := 1.

(** The [memcpy] of the header at the start of the file. *)
Definition read_ehdr (data : list Z) : exec Elf32_Ehdr :=
  ident ← read_bytes data 0 16; ty ← read_u16 data 16; machine ← read_u16 data 18; version ← read_u32 data 20;
  entry ← read_u32 data 24; phoff ← read_u32 data 28; ehsize ← read_u16 data 40;
  phentsize ← read_u16 data 42; phnum ← read_u16 data 44;
  Ret {| e_ident := ident; e_type := ty; e_machine := machine; e_version := version; e_entry := entry;
         e_phoff := phoff; e_ehsize := ehsize; e_phentsize := phentsize; e_phnum := phnum |}.

Definition read_phdr (data : list Z) (off : Z) : exec Elf32_Phdr :=
  ty ← read_u32 data off; offset ← read_u32 data (off + 4); vaddr ← read_u32 data (off + 8);
  filesz ← read_u32 data (off + 16); memsz ← read_u32 data (off + 20); flags ← read_u32 data (off + 24);
  align ← read_u32 data (off + 28);
  Ret {| p_type := ty; p_offset := offset; p_vaddr := vaddr; p_filesz := filesz; p_memsz := memsz;
         p_flags := flags; p_align := align |}.

(** The [memcpy] of the whole program header table. *)
Fixpoint read_phdrs (data : list Z) (off : Z) (n : nat) : exec (list Elf32_Phdr) :=
  match n with
  | O => Ret []
  | S n' => p ← read_phdr data off; ps ← read_phdrs data (off + sizeof_Phdr) n'; Ret (p :: ps)
  end.

(** ** Results *)

Record LoadedElf := {
  bias : Z; entry : Z; phdr : Z; phnum : Z; load_start : Z; load_end : Z; is_dyn : bool; interp : list Z;
}.

(** The error messages. *)
Inductive load_error :=
| CannotOpen | BadSize | CannotRead | TooSmall | NotArmElf | UnsupportedType | BadPhdrTable | BadInterp | BadLoad
| NoSegments | NoSpace | BadBias | AlreadyInUse | BadEntry | CannotMap | CannotProtect | PhdrsNotMapped.

(** What opening and reading the file gave; [ReadFailed] carries its reported size. *)
Inductive file_result := OpenFailed | ReadFailed (file_size : Z) | FileData (data : list Z).

(** ** Validation *)

Definition supported_header (eh : Elf32_Ehdr) : bool :=
  bool_decide (take 4 (e_ident eh) = [0x7f; 0x45; 0x4c; 0x46]) && bool_decide (e_ident eh !! 4%nat = Some 1) &&
  bool_decide (e_ident eh !! 5%nat = Some 1) && bool_decide (e_ident eh !! 6%nat = Some EV_CURRENT) &&
  (e_version eh =? EV_CURRENT) && (e_machine eh =? EM_ARM) && (e_ehsize eh =? sizeof_Ehdr).

Definition supported_type (eh : Elf32_Ehdr) : bool := (e_type eh =? ET_EXEC) || (e_type eh =? ET_DYN).

Definition phdr_table_ok (eh : Elf32_Ehdr) (data : list Z) : bool :=
  negb (e_phnum eh =? 0) && negb (1024 <? e_phnum eh) && (e_phentsize eh =? sizeof_Phdr) &&
  (e_phoff eh + e_phnum eh * sizeof_Phdr <=? size data).

(** The [PT_INTERP] test, with the count already incremented: bad if true. *)
Definition bad_interp (data : list Z) (interp_count : nat) (p : Elf32_Phdr) : exec bool :=
  if decide (1 < interp_count)%nat then Ret true
  else if p_filesz p <? 2 then Ret true
  else if size data <? p_offset p + p_filesz p then Ret true
  else
    last ← read_u8 data (u32 (u32 (p_offset p + p_filesz p) - 1));
    if negb (last =? 0) then Ret true
    else
      s ← read_bytes data (p_offset p) (u32 (p_filesz p - 1));
      Ret (bool_decide (0 ∈ s)).

(** The [PT_LOAD] test: bad if true. *)
Definition bad_load (data : list Z) (p : Elf32_Phdr) : bool :=
  (p_memsz p <? p_filesz p) || (size data <? p_offset p + p_filesz p) ||
  (kGuestSpaceSize <=? p_vaddr p + p_memsz p) ||
  (negb (p_align p =? 0) && negb (Z.land (p_align p) (u32 (p_align p - 1)) =? 0)) ||
  ((1 <? p_align p) && negb (p_offset p mod p_align p =? p_vaddr p mod p_align p)).

(** The variables of the first loop. *)
Record scan := { lo : Z; hi : Z; load_count : nat; interp_count : nat }.

Definition scan_init : scan := {| lo := 2 ^ 64 - 1; hi := 0; load_count := 0; interp_count := 0 |}.

Fixpoint scan_phdrs (data : list Z) (phdrs : list Elf32_Phdr) (s : scan) : exec (load_error + scan) :=
  match phdrs with
  | [] => Ret (inr s)
  | p :: rest =>
      let s := if p_type p =? PT_INTERP
               then {| lo := lo s; hi := hi s; load_count := load_count s; interp_count := S (interp_count s) |} else s in
      bad ← (if p_type p =? PT_INTERP then bad_interp data (interp_count s) p else Ret false);
      if bad : bool then Ret (inl BadInterp)
      else if negb (p_type p =? PT_LOAD) then scan_phdrs data rest s
      else if bad_load data p then Ret (inl BadLoad)
      else if p_memsz p =? 0 then
        scan_phdrs data rest {| lo := lo s; hi := hi s; load_count := S (load_count s); interp_count := interp_count s |}
      else
        scan_phdrs data rest
          {| lo := Z.min (lo s) (page_round_down (p_vaddr p));
             hi := Z.max (hi s) (page_round_up (p_vaddr p + p_memsz p));
             load_count := S (load_count s); interp_count := interp_count s |}
  end.

(** ** Placement *)

Definition choose_bias (m : GuestMemory) (eh : Elf32_Ehdr) (dyn_limit lo span : Z) : load_error + Z :=
  if e_type eh =? ET_DYN then
    let at_ := find_free m span dyn_limit in
    if at_ =? 0 then inl NoSpace
    else if (at_ <? lo) || (kGuestSpaceSize <=? at_ + span) then inl BadBias
    else inr (u32 (at_ - u32 lo))
  else if negb (range_free m (u32 lo) span) then inl AlreadyInUse
  else inr 0.

(** [eh.e_entry & ~1u]. *)
Definition entry_addr (eh : Elf32_Ehdr) : Z := Z.land (e_entry eh) (u32 (Z.lnot 1)).

Definition entry_in (eh : Elf32_Ehdr) (p : Elf32_Phdr) : bool :=
  (p_type p =? PT_LOAD) && has_bits (p_flags p) PF_X && (p_vaddr p <=? entry_addr eh) &&
  (entry_addr eh <? p_vaddr p + p_memsz p).

(** ** Copying *)

Fixpoint copy_segments (m : GuestMemory) (data : list Z) (phdrs : list Elf32_Phdr) (bias : Z) (interp : list Z)
    : exec (GuestMemory * list Z) :=
  match phdrs with
  | [] => Ret (m, interp)
  | p :: rest =>
      if (p_type p =? PT_LOAD) && negb (p_filesz p =? 0) then
        bytes ← read_bytes data (p_offset p) (p_filesz p);
        m ← host_write m (p_vaddr p + bias) bytes;
        copy_segments m data rest bias interp
      else if p_type p =? PT_INTERP then
        s ← read_bytes data (p_offset p) (u32 (p_filesz p - 1));
        copy_segments m data rest bias s
      else copy_segments m data rest bias interp
  end.

(** ** Page permissions *)

Definition segment_prot (p : Elf32_Phdr) : Z :=
  Z.lor (Z.lor (if has_bits (p_flags p) PF_R then PROT_READ else 0) (if has_bits (p_flags p) PF_W then PROT_WRITE else 0))
        (if has_bits (p_flags p) PF_X then PROT_EXEC else 0).

(** [for (i = first; i < last; ++i) page_prot[i] = ..], [n] iterations. *)
Fixpoint add_prot (page_prot : list Z) (prot : Z) (i n : nat) : exec (list Z) :=
  match n with
  | O => Ret page_prot
  | S n' =>
      old ← vec_at page_prot i;
      page_prot ← vec_set page_prot i (if old <? 0 then prot else Z.lor old prot);
      add_prot page_prot prot (S i) n'
  end.

Fixpoint union_prots (phdrs : list Elf32_Phdr) (bias start : Z) (page_prot : list Z) : exec (list Z) :=
  match phdrs with
  | [] => Ret page_prot
  | p :: rest =>
      if negb (p_type p =? PT_LOAD) || (p_memsz p =? 0) then union_prots rest bias start page_prot
      else
        let first := u32 (page_round_down (u32 (p_vaddr p + bias)) - start) / kPageSize in
        let last := u64 (page_round_up (p_vaddr p + bias + p_memsz p) - start) / kPageSize in
        page_prot ← add_prot page_prot (segment_prot p) (Z.to_nat first) (Z.to_nat last - Z.to_nat first);
        union_prots rest bias start page_prot
  end.

(** The inner [while]: how many of the next entries equal [v]. *)
Fixpoint run_length (l : list Z) (v : Z) : nat :=
  match l with
  | x :: l' => if x =? v then S (run_length l' v) else O
  | [] => O
  end.

Section Load.
Context (grants : nat -> host_request -> bool) (file_at : Z -> Z -> Z).

(** The loop over runs of equal protection from page [i] on; false if a call fails.
    Each iteration advances, so [length page_prot] iterations are enough. *)
Fixpoint apply_prots (fuel : nat) (m : GuestMemory) (start : Z) (page_prot : list Z) (i : nat)
    : exec (bool * GuestMemory) :=
  match fuel with
  | O => Ret (true, m)
  | S fuel' =>
      match drop i page_prot with
      | [] => Ret (true, m)
      | v :: l =>
          let next := (i + 1 + run_length l v)%nat in
          let at_ := u32 (start + u32 (Z.of_nat i * kPageSize)) in
          let length := Z.of_nat (next - i) * kPageSize in
          '(ok, m) ← (if v <? 0 then unmap grants file_at m at_ length else protect grants m at_ length v);
          if negb ok then Ret (false, m) else apply_prots fuel' m start page_prot next
      end
  end.

(** ** Locating the program headers *)

Fixpoint last_phdr (phdrs : list Elf32_Phdr) (bias out : Z) : Z :=
  match phdrs with
  | [] => out
  | p :: rest =>
      last_phdr rest bias (if (p_type p =? PT_PHDR) && (p_vaddr p + bias <? kGuestSpaceSize) then u32 (p_vaddr p + bias) else out)
  end.

Fixpoint phdr_in_load (eh : Elf32_Ehdr) (phdrs : list Elf32_Phdr) (bias : Z) : Z :=
  match phdrs with
  | [] => 0
  | p :: rest =>
      if (p_type p =? PT_LOAD) && (p_offset p <=? e_phoff eh) && (e_phoff eh <? p_offset p + p_filesz p)
      then u32 (p_vaddr p + (e_phoff eh - p_offset p) + bias)
      else phdr_in_load eh rest bias
  end.

Definition find_phdrs (eh : Elf32_Ehdr) (phdrs : list Elf32_Phdr) (bias : Z) : Z :=
  let out := last_phdr phdrs bias 0 in
  if out =? 0 then phdr_in_load eh phdrs bias else out.

(** ** load_elf *)

(** From the successful mapping on. *)
Definition load_mapped (m : GuestMemory) (data : list Z) (eh : Elf32_Ehdr) (phdrs : list Elf32_Phdr)
    (bias start span end_ entry_ : Z) : exec ((load_error + LoadedElf) * GuestMemory) :=
  '(m, interp) ← copy_segments m data phdrs bias [];
  page_prot ← union_prots phdrs bias start (replicate (Z.to_nat (span / kPageSize)) (-1));
  '(ok, m) ← apply_prots (length page_prot) m start page_prot 0;
  if negb ok then '(_, m) ← unmap grants file_at m start span; Ret (inl CannotProtect, m)
  else
    let phdr := find_phdrs eh phdrs bias in
    let phdr_end := phdr + e_phnum eh * sizeof_Phdr in
    if (phdr =? 0) || (phdr <? start) || (end_ <? phdr_end) || negb (accessible m phdr (u64 (phdr_end - phdr)) kPageRead) then
      '(_, m) ← unmap grants file_at m start span; Ret (inl PhdrsNotMapped, m)
    else
      Ret (inr {| bias := bias; entry := Z.lor (u32 entry_) (Z.land (e_entry eh) 1); phdr := phdr; phnum := e_phnum eh;
                  load_start := start; load_end := u32 end_; is_dyn := e_type eh =? ET_DYN; interp := interp |}, m).

(** From the validated segments on. *)
Definition load_scanned (m : GuestMemory) (data : list Z) (dyn_limit : Z) (eh : Elf32_Ehdr)
    (phdrs : list Elf32_Phdr) (s : scan) : exec ((load_error + LoadedElf) * GuestMemory) :=
  if bool_decide (load_count s = 0%nat) || (hi s =? 0) || (kGuestSpaceSize <=? hi s) then Ret (inl NoSegments, m)
  else
    let span := u64 (hi s - lo s) in
    match choose_bias m eh dyn_limit (lo s) span with
    | inl e => Ret (inl e, m)
    | inr bias =>
        let start := u32 (u32 (lo s) + bias) in
        let end_ := u64 (hi s + bias) in
        let entry_ := entry_addr eh + bias in
        if (kGuestSpaceSize <=? end_) || (kGuestSpaceSize <=? entry_) || negb (existsb (entry_in eh) phdrs)
        then Ret (inl BadEntry, m)
        else
          '(ok, m) ← map_anon grants file_at m start span (Z.lor PROT_READ PROT_WRITE);
          if negb ok then Ret (inl CannotMap, m)
          else load_mapped m data eh phdrs bias start span end_ entry_
    end.

Definition load_data (m : GuestMemory) (data : list Z) (dyn_limit : Z)
    : exec ((load_error + LoadedElf) * GuestMemory) :=
  if size data <? sizeof_Ehdr then Ret (inl TooSmall, m)
  else
    eh ← read_ehdr data;
    if negb (supported_header eh) then Ret (inl NotArmElf, m)
    else if negb (supported_type eh) then Ret (inl UnsupportedType, m)
    else if negb (phdr_table_ok eh data) then Ret (inl BadPhdrTable, m)
    else
      phdrs ← read_phdrs data (e_phoff eh) (Z.to_nat (e_phnum eh));
      r ← scan_phdrs data phdrs scan_init;
      match r with
      | inl e => Ret (inl e, m)
      | inr s => load_scanned m data dyn_limit eh phdrs s
      end.

Definition load_elf (m : GuestMemory) (file : file_result) (dyn_limit : Z)
    : exec ((load_error + LoadedElf) * GuestMemory) :=
  match file with
  | OpenFailed => Ret (inl CannotOpen, m)
  | ReadFailed file_size =>
      Ret (inl (if (file_size <? 0) || (512 * 1024 * 1024 <? file_size) then BadSize else CannotRead), m)
  | FileData data =>
      if 512 * 1024 * 1024 <? size data then Ret (inl BadSize, m) else load_data m data dyn_limit
  end.

End Load.

(** ** Reading the headers *)

Definition phdr_typed (p : Elf32_Phdr) : Prop :=
  0 <= p_type p < 2 ^ 32 /\ 0 <= p_offset p < 2 ^ 32 /\ 0 <= p_vaddr p < 2 ^ 32 /\ 0 <= p_filesz p < 2 ^ 32 /\
  0 <= p_memsz p < 2 ^ 32 /\ 0 <= p_flags p < 2 ^ 32 /\ 0 <= p_align p < 2 ^ 32.

Definition ehdr_typed (eh : Elf32_Ehdr) : Prop :=
  0 <= e_entry eh < 2 ^ 32 /\ 0 <= e_phoff eh < 2 ^ 32 /\ 0 <= e_phnum eh < 2 ^ 16.

(** Performs the next read of a goal [exists v, (x ← read; ..) = Ret v /\ ..]. *)
Local Ltac read_field Hok :=
  let v := fresh "v" in let E := fresh "E" in let H := fresh "H" in
  match goal with
  | |- exists _, @mbind _ _ _ _ _ (read_u16 ?d ?o) = _ /\ _ => destruct (read_u16_in d Hok o) as (v & E & H); [lia|lia|]
  | |- exists _, @mbind _ _ _ _ _ (read_u32 ?d ?o) = _ /\ _ => destruct (read_u32_in d Hok o) as (v & E & H); [lia|lia|]
  end; rewrite E, exec_ret_bind; cbv beta; clear E.

Lemma read_ehdr_in data :
  bytes_ok data -> sizeof_Ehdr <= size data -> exists eh, read_ehdr data = Ret eh /\ ehdr_typed eh.
Proof.
  intros Hok Hs. change sizeof_Ehdr with 52 in Hs. unfold read_ehdr.
  destruct (read_bytes_in data 0 16) as (id & E & _); [lia..|]. rewrite E, exec_ret_bind. cbv beta. clear E.
  repeat read_field Hok. eexists. split; [done|]. unfold ehdr_typed. cbn. lia.
Qed.

Lemma read_phdr_in data off :
  bytes_ok data -> 0 <= off -> off + sizeof_Phdr <= size data ->
  exists p, read_phdr data off = Ret p /\ phdr_typed p.
Proof.
  intros Hok Ho Hs. change sizeof_Phdr with 32 in Hs. unfold read_phdr.
  repeat read_field Hok. eexists. split; [done|]. unfold phdr_typed. cbn. lia.
Qed.

Lemma read_phdrs_in data off n :
  bytes_ok data -> 0 <= off -> off + Z.of_nat n * sizeof_Phdr <= size data ->
  exists ps, read_phdrs data off n = Ret ps /\ Forall phdr_typed ps.
Proof.
  intros Hok. change sizeof_Phdr with 32. revert off. induction n as [|n IH]; intros off Ho Hs; [by exists []|].
  cbn [read_phdrs]. destruct (read_phdr_in data off) as (p & E & Hp); [done|lia|change sizeof_Phdr with 32; lia|].
  rewrite E, exec_ret_bind. destruct (IH (off + 32)) as (ps & E' & Hps); [lia..|].
  change sizeof_Phdr with 32. rewrite E', exec_ret_bind. eexists. split; [done|]. by constructor.
Qed.

(** ** Validated segments *)

(** The segments that take part in loading. *)
Definition is_load (p : Elf32_Phdr) : Prop := p_type p = PT_LOAD.

(** What the first loop guarantees of every segment. *)
Definition segment_ok (data : list Z) (p : Elf32_Phdr) : Prop :=
  phdr_typed p /\
  (is_load p -> p_filesz p <= p_memsz p /\ p_offset p + p_filesz p <= size data /\ p_vaddr p + p_memsz p < 2 ^ 32) /\
  (p_type p = PT_INTERP -> 2 <= p_filesz p /\ p_offset p + p_filesz p <= size data).

(** The page-aligned span [lo .. hi) covers every segment. *)
Definition covers (l h : Z) (p : Elf32_Phdr) : Prop :=
  is_load p -> p_memsz p <> 0 -> l <= p_vaddr p /\ p_vaddr p + p_memsz p <= h.

Definition scan_bounds (s : scan) : Prop :=
  0 <= lo s /\ 0 <= hi s <= 2 ^ 32 /\ hi s mod 4096 = 0 /\
  ((hi s = 0 /\ lo s = 2 ^ 64 - 1) \/ (lo s < hi s /\ lo s mod 4096 = 0)).

Lemma bad_interp_in data n p :
  bytes_ok data -> size data <= 2 ^ 29 -> phdr_typed p ->
  exists b, bad_interp data n p = Ret b /\
    (b = false -> 2 <= p_filesz p /\ p_offset p + p_filesz p <= size data).
Proof.
  intros Hok Hs (_ & Ho & _ & Hf & _). unfold bad_interp.
  case_decide; [by eexists|]. destruct (Z.ltb_spec (p_filesz p) 2); [by eexists|].
  destruct (Z.ltb_spec (size data) (p_offset p + p_filesz p)); [by eexists|].
  rewrite !u32_small by (rewrite ?u32_small; lia).
  destruct (read_u8_in data Hok (p_offset p + p_filesz p - 1)) as (v & -> & _); [lia..|]. rewrite exec_ret_bind. cbv beta.
  case_match; [by eexists|]. destruct (read_bytes_in data (p_offset p) (p_filesz p - 1)) as (bs & -> & _); [lia..|].
  rewrite exec_ret_bind. by eexists.
Qed.

Lemma bad_load_false data p :
  bad_load data p = false ->
  p_filesz p <= p_memsz p /\ p_offset p + p_filesz p <= size data /\ p_vaddr p + p_memsz p < 2 ^ 32.
Proof.
  unfold bad_load. change kGuestSpaceSize with (2 ^ 32). rewrite !orb_false_iff, !Z.ltb_ge, Z.leb_gt. lia.
Qed.

Lemma scan_phdrs_in data phdrs s :
  bytes_ok data -> size data <= 2 ^ 29 -> Forall phdr_typed phdrs -> scan_bounds s ->
  exists r, scan_phdrs data phdrs s = Ret r /\
    forall s', r = inr s' -> scan_bounds s' /\ lo s' <= lo s /\ hi s <= hi s' /\
      Forall (segment_ok data) phdrs /\ Forall (covers (lo s') (hi s')) phdrs.
Proof.
  intros Hok Hs Hps. revert s. induction Hps as [|p ps Hp _ IH]; intros s Hb; cbn [scan_phdrs].
  { eexists. split; [done|]. intros s' [= <-]. split_and!; done || lia. }
  set (s1 := if p_type p =? PT_INTERP then _ else s).
  assert (scan_bounds s1 /\ lo s1 = lo s /\ hi s1 = hi s) as (Hb1 & <- & <-)
    by (unfold s1; case_match; done).
  assert (exists b, (if p_type p =? PT_INTERP then bad_interp data (interp_count s1) p else Ret false) = Ret b /\
    (b = false -> p_type p = PT_INTERP -> 2 <= p_filesz p /\ p_offset p + p_filesz p <= size data)) as (b & -> & Hint).
  { destruct (Z.eqb_spec (p_type p) PT_INTERP).
    - destruct (bad_interp_in data (interp_count s1) p) as (b & -> & H); [done..|]. exists b. auto.
    - exists false. split; [done|]. congruence. }
  rewrite exec_ret_bind. cbv beta. destruct b; [by eexists|]. specialize (Hint eq_refl).
  destruct (Z.eqb_spec (p_type p) PT_LOAD) as [Hl|Hl]; simpl negb; cbv iota.
  2: { destruct (IH s1 Hb1) as (r & -> & Hr). eexists. split; [done|]. intros s' ->.
       destruct (Hr s' eq_refl) as (? & ? & ? & ? & ?). split_and!; try done; (constructor; [|done]).
       - split_and!; [done|by intros ?|done].
       - by intros ?. }
  destruct (bad_load data p) eqn:Hbl; [by eexists|]. apply bad_load_false in Hbl.
  assert (segment_ok data p) as Hseg by (split_and!; done).
  destruct (Z.eqb_spec (p_memsz p) 0) as [Hz|Hz].
  - edestruct IH as (r & -> & Hr); [|eexists; split; [done|]; intros s' ->;
      destruct (Hr s' eq_refl) as (? & ? & ? & ? & ?); split_and!; try done; (constructor; [|done])]; [done..|].
    by intros _ ?.
  - destruct Hp as (_ & Ho & Hv & Hf & Hm & _). destruct Hb1 as (Hb1 & Hb2 & Hb3 & Hb4).
    rewrite page_round_down_spec, page_round_up_spec by lia.
    edestruct IH as (r & -> & Hr); [|eexists; split; [done|]; intros s' ->;
      destruct (Hr s' eq_refl) as (? & Hlo & Hhi & ? & ?); simpl in Hlo, Hhi; split_and!;
      try done; try lia; (constructor; [|done])]; [|done|].
    + unfold scan_bounds. simpl. lia.
    + intros _ _. lia.
Qed.

(** ** Placement *)

Lemma choose_bias_free m eh limit l h b :
  0 <= l < h -> h < 2 ^ 32 -> l mod 4096 = 0 -> h mod 4096 = 0 -> 0 <= limit < 2 ^ 32 ->
  choose_bias m eh limit l (h - l) = inr b ->
  0 <= b /\ b mod 4096 = 0 /\ h + b < 2 ^ 32 /\ (e_type eh <> ET_DYN -> b = 0) /\
  forall i, (l + b) / 4096 <= i < (h + b) / 4096 -> pages_ m i = 0.
Proof.
  intros Hl Hh Hlm Hhm Hlim. assert (no_wrap (h - l)) as Hw by (unfold no_wrap; lia).
  assert (page_count (h - l) = (h - l) / 4096) as Hpc by (unfold page_count; lia).
  unfold choose_bias. change kGuestSpaceSize with (2 ^ 32). destruct (Z.eqb_spec (e_type eh) ET_DYN) as [Ht|Ht].
  - destruct (Z.eqb_spec (find_free m (h - l) limit) 0) as [|Hz]; [done|].
    destruct (find_free_pages m (h - l) limit) as [(_ & k & (Hk & Hkt & Hkf & _) & E)|[_ E]]; [done..| |done].
    rewrite E, Hpc in *. rewrite (u32_small l) by lia.
    destruct (Z.ltb_spec (k * 4096) l); [done|]. destruct (Z.leb_spec (2 ^ 32) (k * 4096 + (h - l))); [done|].
    simpl orb. cbv iota. intros [= <-]. rewrite u32_small by lia. split_and!; [lia..|done|].
    intros i Hi. apply Hkf. lia.
  - rewrite u32_small by lia. destruct (range_free m l (h - l)) eqn:E; [|done]. intros [= <-].
    apply range_free_pages in E as [_ E]; [|lia|done]. split_and!; [lia..|done|].
    intros i Hi. apply E. lia.
Qed.

(** ** Copying the segments *)

(** The file byte that segment [p] puts at guest address [a]. *)
Definition file_byte (data : list Z) (p : Elf32_Phdr) (bias a : Z) : option Z :=
  if decide (is_load p /\ p_vaddr p + bias <= a < p_vaddr p + bias + p_filesz p)
  then data !! Z.to_nat (p_offset p + (a - (p_vaddr p + bias))) else None.

(** The byte of the loaded image: a later segment overwrites an earlier one. *)
Fixpoint image_byte (data : list Z) (phdrs : list Elf32_Phdr) (bias a : Z) : option Z :=
  match phdrs with
  | [] => None
  | p :: rest => match image_byte data rest bias a with Some b => Some b | None => file_byte data p bias a end
  end.

(** The interpreter path of the last [PT_INTERP], without its terminating zero. *)
Fixpoint interp_path (data : list Z) (phdrs : list Elf32_Phdr) (path : list Z) : list Z :=
  match phdrs with
  | [] => path
  | p :: rest =>
      interp_path data rest
        (if p_type p =? PT_INTERP then take (Z.to_nat (p_filesz p - 1)) (drop (Z.to_nat (p_offset p)) data) else path)
  end.

(** Writing into writable pages succeeds and changes only the bytes. *)
Lemma host_write_in m a data l h :
  (forall i, l / 4096 <= i < h / 4096 -> has_bits (hprot m i) PROT_WRITE = true) ->
  h mod 4096 = 0 -> l <= a -> a + size data <= h ->
  exists m', host_write m a data = Ret m' /\ base_ m' = base_ m /\ pages_ m' = pages_ m /\ hprot m' = hprot m /\
    forall x, bytes_ m' x = store_bytes (bytes_ m) a data x.
Proof.
  intros Hw Hm Hl Hh. unfold host_write. change kPageSize with 4096. unfold size in Hh. case_decide as Hd.
  { subst data. eexists. split_and!; [done..|]. intros x. unfold store_bytes. simpl.
    destruct (Z.leb_spec a x), (Z.ltb_spec x (a + Z.of_nat 0)); simpl; first [done|lia]. }
  assert (0 < length data)%nat by (destruct data; [done|simpl; lia]).
  rewrite (proj2 (pages_writable_spec _ _ _)); [by eexists|]. intros j Hj. apply Hw. lia.
Qed.

Lemma store_segment data p bs bytes bias a :
  p_type p = PT_LOAD -> 0 <= p_offset p -> 0 <= p_filesz p -> read_bytes data (p_offset p) (p_filesz p) = Ret bs ->
  store_bytes bytes (p_vaddr p + bias) bs a = default (bytes a) (file_byte data p bias a).
Proof.
  intros Hl Ho Hf Hr. unfold store_bytes, file_byte, is_load. apply read_bytes_Ret in Hr as (_ & _ & Hs & ->).
  unfold size in Hs. rewrite length_take, length_drop. case_decide as Hd.
  - destruct Hd as [_ Hd]. destruct (Z.leb_spec (p_vaddr p + bias) a); [|lia].
    destruct (Z.ltb_spec a (p_vaddr p + bias + Z.of_nat (Z.to_nat (p_filesz p) `min` (length data - Z.to_nat (p_offset p))))); [|lia].
    simpl andb. cbv iota. rewrite lookup_take_lt, lookup_drop by lia.
    replace (Z.to_nat (p_offset p) + Z.to_nat (a - (p_vaddr p + bias)))%nat
      with (Z.to_nat (p_offset p + (a - (p_vaddr p + bias)))) by lia.
    destruct (lookup_lt_is_Some_2 data (Z.to_nat (p_offset p + (a - (p_vaddr p + bias))))) as [x ->]; [lia|done].
  - destruct (Z.leb_spec (p_vaddr p + bias) a); [|done].
    destruct (Z.ltb_spec a (p_vaddr p + bias + Z.of_nat (Z.to_nat (p_filesz p) `min` (length data - Z.to_nat (p_offset p))))); [|done].
    exfalso. apply Hd. split; [done|lia].
Qed.

Lemma file_byte_none data p bias a : ~ (is_load p /\ p_filesz p <> 0) -> file_byte data p bias a = None.
Proof. intros H. unfold file_byte. rewrite decide_False; [done|]. intros [? ?]. apply H. split; [done|lia]. Qed.

Lemma copy_segments_in data phdrs bias l h m path :
  Forall (segment_ok data) phdrs -> Forall (covers l h) phdrs ->
  (forall i, (l + bias) / 4096 <= i < (h + bias) / 4096 -> has_bits (hprot m i) PROT_WRITE = true) ->
  (h + bias) mod 4096 = 0 ->
  exists m', copy_segments m data phdrs bias path = Ret (m', interp_path data phdrs path) /\
    base_ m' = base_ m /\ pages_ m' = pages_ m /\ hprot m' = hprot m /\
    forall a, bytes_ m' a = default (bytes_ m a) (image_byte data phdrs bias a).
Proof.
  intros Hseg Hcov. revert m path. induction phdrs as [|p ps IH]; intros m path Hw Hm; [by exists m|].
  apply Forall_cons in Hseg as [((_ & Ho & Hv & Hf & Hmsz & _) & Hsl & Hsi) Hseg].
  apply Forall_cons in Hcov as [Hc Hcov]. cbn [copy_segments interp_path image_byte].
  destruct (Z.eqb_spec (p_type p) PT_LOAD) as [Hl|Hl]; simpl andb.
  - destruct (Hsl Hl) as (Hsl1 & Hsl2 & Hsl3). rewrite Hl. change (PT_LOAD =? PT_INTERP) with false. cbv iota.
    destruct (Z.eqb_spec (p_filesz p) 0) as [Hz|Hz]; simpl negb; cbv iota.
    + destruct (IH Hseg Hcov m path Hw Hm) as (m' & E & ? & ? & ? & Hb). exists m'. split_and!; [done..|].
      intros a. rewrite Hb. rewrite (file_byte_none data p bias a) by (intros [_ ?]; lia). by case_match.
    + destruct (Hc Hl) as [Hc1 Hc2]; [lia|].
      destruct (read_bytes_in data (p_offset p) (p_filesz p)) as (bs & E & Hbs & _); [lia..|].
      rewrite E, exec_ret_bind.
      destruct (host_write_in m (p_vaddr p + bias) bs (l + bias) (h + bias)) as (m1 & E1 & Hb1 & Hp1 & Hh1 & Hby1);
        [done..|lia|lia|]. rewrite E1, exec_ret_bind.
      destruct (IH Hseg Hcov m1 path) as (m' & E' & ? & ? & ? & Hb); [by rewrite Hh1|done|].
      exists m'. split_and!; [done|congruence..|]. intros a. rewrite Hb, Hby1.
      rewrite (store_segment data p) by (done || lia). by case_match.
  - destruct (Z.eqb_spec (p_type p) PT_INTERP) as [Hi|Hi].
    + destruct (Hsi Hi) as [Hi1 Hi2].
      assert (read_bytes data (p_offset p) (u32 (p_filesz p - 1)) =
        Ret (take (Z.to_nat (p_filesz p - 1)) (drop (Z.to_nat (p_offset p)) data))) as ->.
      { rewrite u32_small by lia. destruct (read_bytes_in data (p_offset p) (p_filesz p - 1)) as (bs & E & _); [lia..|].
        rewrite E. by apply read_bytes_Ret in E as (_ & _ & _ & ->). }
      rewrite exec_ret_bind. edestruct IH as (m' & E' & ? & ? & ? & Hb); [done..|]. exists m'. split_and!; [done..|].
      intros a. rewrite Hb, file_byte_none by (by intros [? _]). by case_match.
    + destruct (IH Hseg Hcov m path Hw Hm) as (m' & E & ? & ? & ? & Hb). exists m'. split_and!; [done..|].
      intros a. rewrite Hb, file_byte_none by (by intros [? _]). by case_match.
Qed.

(** ** The union of the permissions on a page *)

(** Segment [p] has a byte on page [i]. *)
Definition on_page (p : Elf32_Phdr) (bias i : Z) : Prop :=
  is_load p /\ p_memsz p <> 0 /\ (p_vaddr p + bias) / 4096 <= i <= (p_vaddr p + bias + p_memsz p - 1) / 4096.

#[global] Instance on_page_dec p bias i : Decision (on_page p bias i).
Proof. unfold on_page, is_load. apply _. Defined.

(** The union of the permissions of the segments on page [i]; [None] in a gap. *)
Fixpoint page_union (phdrs : list Elf32_Phdr) (bias i : Z) (acc : option Z) : option Z :=
  match phdrs with
  | [] => acc
  | p :: rest =>
      page_union rest bias i (if decide (on_page p bias i) then Some (Z.lor (default 0 acc) (segment_prot p)) else acc)
  end.

(** The entry of [page_prot]. *)
Definition prot_entry (o : option Z) : Z := default (-1) o.

Lemma segment_prot_range p : 0 <= segment_prot p.
Proof. unfold segment_prot. repeat case_match; done. Qed.

Lemma add_prot_in l prot i n :
  (i + n <= length l)%nat ->
  exists l', add_prot l prot i n = Ret l' /\ length l' = length l /\
    forall j, l' !! j = if decide (i <= j < i + n)%nat
                        then (fun old => if old <? 0 then prot else Z.lor old prot) <$> l !! j else l !! j.
Proof.
  revert l i. induction n as [|n IH]; intros l i Hn; cbn [add_prot].
  { exists l. split_and!; [done..|]. intros j. by rewrite decide_False by lia. }
  destruct (vec_at_lt l i) as (old & Hold & ->); [lia|]. rewrite exec_ret_bind. rewrite vec_set_lt, exec_ret_bind by lia.
  edestruct (IH (<[i:=if old <? 0 then prot else Z.lor old prot]> l) (S i)) as (l' & -> & Hlen & Hl');
    [rewrite length_insert; lia|].
  exists l'. rewrite length_insert in Hlen. split_and!; [done..|]. intros j. rewrite Hl'.
  destruct (decide (j = i)) as [->|].
  - rewrite decide_False, (decide_True (P := (i <= i < i + S n)%nat)) by lia.
    rewrite list_lookup_insert_eq by lia. by rewrite Hold.
  - rewrite list_lookup_insert_ne by done. repeat case_decide; done || lia.
Qed.

(** The index range the code computes for a segment is the set of pages it is on. *)
Lemma segment_pages data p bias l h :
  segment_ok data p -> covers l h p -> is_load p -> p_memsz p <> 0 ->
  0 <= l -> 0 <= bias -> h + bias < 2 ^ 32 -> (l + bias) mod 4096 = 0 -> (h + bias) mod 4096 = 0 ->
  let first := Z.to_nat (u32 (page_round_down (u32 (p_vaddr p + bias)) - (l + bias)) / kPageSize) in
  let last := Z.to_nat (u64 (page_round_up (p_vaddr p + bias + p_memsz p) - (l + bias)) / kPageSize) in
  Z.of_nat (first + (last - first)) <= (h - l) / 4096 /\
  forall j, (first <= j < first + (last - first))%nat <-> on_page p bias ((l + bias) / 4096 + Z.of_nat j).
Proof.
  intros ((_ & Ho & Hv & Hf & Hmsz & _) & Hsl & _) Hc Hload Hz Hl Hbias Hh Hlm Hhm first last.
  destruct (Hsl Hload) as (? & ? & ?). destruct (Hc Hload Hz) as [Hc1 Hc2].
  assert (first = Z.to_nat ((p_vaddr p + bias) / 4096 - (l + bias) / 4096)) as ->.
  { unfold first. rewrite page_round_down_spec by (rewrite u32_small; lia).
    rewrite !u32_small by (rewrite ?u32_small; lia). change kPageSize with 4096. f_equal. lia. }
  assert (last = Z.to_nat ((p_vaddr p + bias + p_memsz p + 4095) / 4096 - (l + bias) / 4096)) as ->.
  { unfold last. rewrite page_round_up_spec by lia. rewrite u64_small by lia. change kPageSize with 4096. f_equal. lia. }
  split; [lia|]. intros j. unfold on_page. split; [intros Hj; split_and!; [done..|lia|lia]|intros (_ & _ & Hj); lia].
Qed.

Lemma union_prots_in data phdrs bias l h accs :
  Forall (segment_ok data) phdrs -> Forall (covers l h) phdrs ->
  0 <= l -> 0 <= bias -> h + bias < 2 ^ 32 -> (l + bias) mod 4096 = 0 -> (h + bias) mod 4096 = 0 ->
  (forall i x, accs i = Some x -> 0 <= x) ->
  forall pp, Z.of_nat (length pp) = (h - l) / 4096 ->
  (forall j, (j < length pp)%nat -> pp !! j = Some (prot_entry (accs ((l + bias) / 4096 + Z.of_nat j)))) ->
  exists pp', union_prots phdrs bias (l + bias) pp = Ret pp' /\ length pp' = length pp /\
    (forall j, (j < length pp)%nat ->
       pp' !! j = Some (prot_entry (page_union phdrs bias ((l + bias) / 4096 + Z.of_nat j) (accs ((l + bias) / 4096 + Z.of_nat j))))) /\
    (forall i x, page_union phdrs bias i (accs i) = Some x -> 0 <= x).
Proof.
  intros Hseg Hcov Hl Hbias Hh Hlm Hhm. revert accs.
  induction phdrs as [|p ps IH]; intros accs Hacc pp Hlen Hpp; [by exists pp|].
  apply Forall_cons in Hseg as [Hsp Hseg]. apply Forall_cons in Hcov as [Hc Hcov]. cbn [union_prots page_union].
  destruct (decide (is_load p /\ p_memsz p <> 0)) as [[Hload Hz]|Hno].
  2: { replace (negb (p_type p =? PT_LOAD) || (p_memsz p =? 0)) with true.
    2: { unfold is_load in Hno. destruct (Z.eqb_spec (p_type p) PT_LOAD), (Z.eqb_spec (p_memsz p) 0); simpl; try done.
         by destruct Hno. }
    destruct (IH Hseg Hcov accs Hacc pp Hlen Hpp) as (pp' & E & Hlen' & Hpp' & Hpos).
    exists pp'. split_and!; [done..| |].
    - intros j Hj. rewrite decide_False; [by apply Hpp'|]. intros (? & ? & _). by apply Hno.
    - intros i x. rewrite decide_False; [by apply Hpos|]. intros (? & ? & _). by apply Hno. }
  rewrite (proj2 (Z.eqb_eq (p_type p) PT_LOAD) Hload), (proj2 (Z.eqb_neq (p_memsz p) 0) Hz). simpl orb. cbv iota.
  destruct (segment_pages data p bias l h) as [Hle Hon]; [done..|].
  set (first := Z.to_nat (u32 _ / _)) in *. set (last := Z.to_nat (u64 _ / _)) in *. clearbody first last.
  destruct (add_prot_in pp (segment_prot p) first (last - first)) as (pp1 & -> & Hlen1 & Hpp1); [lia|].
  rewrite exec_ret_bind.
  destruct (IH Hseg Hcov (fun i => if decide (on_page p bias i) then Some (Z.lor (default 0 (accs i)) (segment_prot p)) else accs i))
    with (pp := pp1) as (pp' & E & Hlen' & Hpp' & Hpos).
  - intros i x. case_decide; [|apply Hacc]. intros [= <-]. apply Z.lor_nonneg. split; [|apply segment_prot_range].
    destruct (accs i) eqn:Ea; simpl; [by eapply Hacc|lia].
  - lia.
  - intros j Hj. rewrite Hpp1, Hpp by lia. specialize (Hon j). 
    destruct (decide (first <= j < first + (last - first))%nat) as [Hin|Hout].
    + rewrite decide_True by (by apply Hon). simpl. f_equal. destruct (accs _) as [x|] eqn:Ea; simpl; [|done].
      by rewrite (proj2 (Z.ltb_ge x 0)) by (by eapply Hacc).
    + rewrite decide_False by (by intros ?%Hon). done.
  - rewrite Hlen1 in *. by exists pp'.
Qed.

(** ** Applying the permissions *)

Lemma run_length_lookup l v k : (k < run_length l v)%nat -> l !! k = Some v.
Proof.
  revert k. induction l as [|x l IH]; intros k Hk; simpl in Hk; [lia|].
  destruct (Z.eqb_spec x v) as [->|]; [|lia]. destruct k; [done|]. simpl. apply IH. lia.
Qed.

Lemma run_length_le l v : (run_length l v <= length l)%nat.
Proof. induction l as [|x l IH]; simpl; [lia|]. case_match; lia. Qed.

(** The page flags and the contents an entry of [page_prot] asks for. *)
Definition entry_flags (v : Z) : Z := if v <? 0 then 0 else flags_from_prot v.
Definition entry_byte (v old : Z) : Z := if v <? 0 then 0 else old.

Definition same_outside (m m' : GuestMemory) (first last : Z) : Prop :=
  base_ m' = base_ m /\
  (forall j, ~ (first <= j < last) -> pages_ m' j = pages_ m j) /\
  (forall a, ~ (first <= a / 4096 < last) -> bytes_ m' a = bytes_ m a).

Lemma same_outside_refl m first last : same_outside m m first last.
Proof. done. Qed.

Lemma same_outside_trans m1 m2 m3 f1 l1 f l :
  same_outside m1 m2 f1 l1 -> same_outside m2 m3 f l -> f <= f1 -> l1 <= l -> same_outside m1 m3 f l.
Proof.
  intros (B1 & P1 & Y1) (B2 & P2 & Y2) Hf Hl. split_and!; [congruence| |].
  - intros j Hj. rewrite P2, P1 by lia. done.
  - intros a Ha. rewrite Y2, Y1 by lia. done.
Qed.

Section Apply.
Context (grants : nat -> host_request -> bool) (file_at : Z -> Z -> Z).

(** One run: pages [first .. last) of a mapped range get the entry [v]. *)
Lemma apply_run m v addr n :
  ok m = true -> addr mod 4096 = 0 -> 0 <= addr -> 0 < n -> addr + n * 4096 < 2 ^ 32 ->
  (forall j, addr / 4096 <= j < addr / 4096 + n -> page_has m 0 j) ->
  exists b m', (if v <? 0 then unmap grants file_at m addr (n * 4096) else protect grants m addr (n * 4096) v) = Ret (b, m') /\
    (mem_wf m -> mem_wf m') /\ same_outside m m' (addr / 4096) (addr / 4096 + n) /\
    (b = true -> (forall j, addr / 4096 <= j < addr / 4096 + n -> pages_ m' j = entry_flags v) /\
                 (forall a, addr / 4096 <= a / 4096 < addr / 4096 + n -> bytes_ m' a = entry_byte v (bytes_ m a))) /\
    ((forall k q, grants k q = true) -> b = true).
Proof.
  intros Hok Hm Ha Hn Hh Hmap. set (o := if v <? 0 then OpUnmap addr (n * 4096) else OpProtect addr (n * 4096) v).
  assert (op_addr o = addr /\ op_len o = n * 4096) as [Eoa Eol] by (unfold o; by case_match).
  assert (page_count (n * 4096) = n) as Hpc by (unfold page_count; lia).
  assert (op_allowed m o) as Hal.
  { unfold op_allowed. rewrite Eoa, Eol. split; [done|]. split; [unfold good_range; lia|]. unfold o. destruct (v <? 0); [done|].
    intros i Hi. unfold in_pages in Hi. rewrite Hpc in Hi. by apply Hmap. }
  replace (if v <? 0 then unmap grants file_at m addr (n * 4096) else protect grants m addr (n * 4096) v)
    with (mem_step grants file_at m o) by (unfold o; by case_match).
  destruct (mem_step_cases grants file_at m o) as [(m' & E & _ & (Hb & Hp & Hy) & Hwf)|(m' & E & (Hb & Hp & Hy & Hh') & Hno)];
    [lia|unfold no_wrap; lia|exists true, m'|exists false, m'].
  - rewrite Eoa, Eol in Hp, Hy. unfold in_pages in Hp, Hy. rewrite Hpc in Hp, Hy. split; [done|]. split; [done|]. split; [|split; [|done]].
    + split_and!; [done| |]; intros j Hj; [rewrite Hp|rewrite Hy]; by rewrite decide_False by lia.
    + intros _. unfold entry_flags, entry_byte. split; intros j Hj; [rewrite Hp|rewrite Hy]; rewrite decide_True by lia;
        unfold o; by case_match.
  - split; [done|]. split; [|split; [|split; [done|]]].
    + intros Hwf i. by rewrite Hp, Hh'.
    + split_and!; [done| |]; intros; by rewrite ?Hp, ?Hy.
    + intros Hg. by destruct (Hno Hg).
Qed.

Lemma apply_prots_in fuel m start pp i :
  ok m = true -> start mod 4096 = 0 -> 0 <= start -> start + Z.of_nat (length pp) * 4096 < 2 ^ 32 ->
  (length pp - i <= fuel)%nat ->
  (forall j, start / 4096 + Z.of_nat i <= j < start / 4096 + Z.of_nat (length pp) -> page_has m 0 j) ->
  exists b m', apply_prots grants file_at fuel m start pp i = Ret (b, m') /\
    (mem_wf m -> mem_wf m') /\
    same_outside m m' (start / 4096 + Z.of_nat i) (start / 4096 + Z.of_nat (length pp)) /\
    (b = true -> forall k v, (i <= k)%nat -> pp !! k = Some v ->
       pages_ m' (start / 4096 + Z.of_nat k) = entry_flags v /\
       forall a, a / 4096 = start / 4096 + Z.of_nat k -> bytes_ m' a = entry_byte v (bytes_ m a)) /\
    ((forall k q, grants k q = true) -> b = true).
Proof.
  intros Hok Hm Hs Hh. revert m i Hok. induction fuel as [|fuel IH]; intros m i Hok Hf Hmap; cbn [apply_prots].
  { exists true, m. split; [done|]. split; [done|]. split; [done|]. split; [|done]. intros _ k v Hk Hkv. apply lookup_lt_Some in Hkv. lia. }
  destruct (drop i pp) as [|v l] eqn:Ed.
  { exists true, m. split; [done|]. split; [done|]. split; [done|]. split; [|done]. intros _ k v Hk Hkv. apply lookup_lt_Some in Hkv.
    assert (length (drop i pp) = 0%nat) as El by (by rewrite Ed). rewrite length_drop in El. lia. }
  assert (length pp = (i + S (length l)))%nat as Elen.
  { assert (length (drop i pp) = S (length l)) as El by (by rewrite Ed). rewrite length_drop in El. lia. }
  pose proof (run_length_le l v) as Hrl. set (r := run_length l v) in *.
  assert (forall k, (k <= r)%nat -> pp !! (i + k)%nat = Some v) as Hrun.
  { intros k Hk. rewrite <- lookup_drop, Ed. destruct k; [done|]. apply (run_length_lookup l v k). change (k < r)%nat. lia. }
  change kPageSize with 4096. rewrite (u32_small (Z.of_nat i * 4096)), u32_small by lia.
  replace (Z.of_nat (i + 1 + r - i)) with (Z.of_nat (S r)) by lia.
  destruct (apply_run m v (start + Z.of_nat i * 4096) (Z.of_nat (S r)))
    as (b & m1 & E & Hwf & Hout & Hin & Hg); [done|lia..| |].
  { intros j Hj. apply Hmap. lia. }
  rewrite E, exec_ret_bind. cbv beta iota.
  replace ((start + Z.of_nat i * 4096) / 4096) with (start / 4096 + Z.of_nat i) in * by lia.
  destruct b; simpl negb; cbv iota.
  2: { exists false, m1. split; [done|]. split; [done|]. split; [|done]. eapply same_outside_trans; [exact Hout|apply same_outside_refl|lia|lia]. }
  destruct (Hin eq_refl) as [Hin1 Hin2]. pose proof Hout as (Hb1 & Hp1 & Hy1).
  destruct (IH m1 (i + 1 + r)%nat) as (b2 & m2 & E2 & Hwf2 & Hout2 & Hin3 & Hg2); [unfold ok in *; congruence|lia| |].
  { intros j Hj. unfold page_has. rewrite Hp1 by lia. apply Hmap. lia. }
  pose proof Hout2 as (_ & Hp2 & Hy2).
  exists b2, m2. split; [done|]. split; [auto|]. split; [|split; [|done]].
  - split_and!; [destruct Hout2; congruence| |].
    + intros j Hj. rewrite Hp2, Hp1 by lia. done.
    + intros a Ha. rewrite Hy2, Hy1 by lia. done.
  - intros Hb2 k w Hk Hkw. destruct (decide (k < i + 1 + r)%nat) as [Hlt|Hge].
    + assert (w = v) as ->. { replace k with (i + (k - i))%nat in Hkw by lia. rewrite Hrun in Hkw by lia. congruence. }
      split; [rewrite Hp2, Hin1 by lia; done|]. intros a Ha. rewrite Hy2, Hin2 by lia. done.
    + destruct (Hin3 Hb2 k w) as [H1 H2]; [lia|done|]. split; [done|]. intros a Ha. rewrite H2, Hy1 by lia. done.
Qed.

End Apply.

(** ** Gaps and executable pages *)

Lemma page_union_none phdrs bias i acc :
  page_union phdrs bias i acc = None -> acc = None /\ Forall (fun p => ~ on_page p bias i) phdrs.
Proof.
  revert acc. induction phdrs as [|p ps IH]; intros acc H; [done|]. cbn [page_union] in H.
  apply IH in H as [H1 H2]. case_decide; [done|]. split; [done|]. by constructor.
Qed.

Lemma image_byte_gap data phdrs bias a :
  Forall (segment_ok data) phdrs -> Forall (fun p => ~ on_page p bias (a / 4096)) phdrs ->
  image_byte data phdrs bias a = None.
Proof.
  intros Hseg Hno. induction phdrs as [|p ps IH]; [done|]. cbn [image_byte].
  apply Forall_cons in Hseg as [(_ & Hsl & _) Hseg]. apply Forall_cons in Hno as [Hp Hno]. rewrite IH by done.
  unfold file_byte. rewrite decide_False; [done|]. intros [Hl Ha]. apply Hp. destruct (Hsl Hl) as (? & _ & _).
  unfold on_page. split_and!; [done|lia..].
Qed.

Lemma has_bits_lor_l a b k : has_bits a k = true -> has_bits (Z.lor a b) k = true.
Proof.
  unfold has_bits. rewrite !negb_true_iff, !Z.eqb_neq, Z.land_lor_distr_l, Z.lor_eq_0_iff. tauto.
Qed.

Lemma page_union_keeps phdrs bias i acc k :
  (exists x, acc = Some x /\ has_bits x k = true) \/
  Exists (fun p => on_page p bias i /\ has_bits (segment_prot p) k = true) phdrs ->
  exists x, page_union phdrs bias i acc = Some x /\ has_bits x k = true.
Proof.
  revert acc. induction phdrs as [|p ps IH]; intros acc [(x & -> & Hx)|Hex]; cbn [page_union];
    [by exists x|by inversion Hex|..].
  - apply IH. left. case_decide; [|by exists x]. eexists. split; [done|]. simpl. by apply has_bits_lor_l.
  - apply Exists_cons in Hex as [[Hon Hk]|Hex]; apply IH; [left|by right].
    rewrite decide_True by done. eexists. split; [done|]. rewrite Z.lor_comm. by apply has_bits_lor_l.
Qed.

Lemma flags_exec prot : has_bits prot PROT_EXEC = true -> Z.land (flags_from_prot prot) (Z.lor kPageExec kPageMapped) = Z.lor kPageExec kPageMapped.
Proof. unfold flags_from_prot. intros ->. by repeat case_match. Qed.

Lemma segment_prot_exec p : has_bits (p_flags p) PF_X = true -> has_bits (segment_prot p) PROT_EXEC = true.
Proof. unfold segment_prot. intros ->. by repeat case_match. Qed.

(** ** The loaded image *)

(** Flags and contents of the whole guest space after a successful load. *)
Definition image_loaded (m m' : GuestMemory) (data : list Z) (phdrs : list Elf32_Phdr) (bias start end_ : Z) : Prop :=
  (forall i, pages_ m' i = if decide (start / 4096 <= i < end_ / 4096)
     then from_option flags_from_prot 0 (page_union phdrs bias i None) else pages_ m i) /\
  (forall a, bytes_ m' a = if decide (start <= a < end_) then default 0 (image_byte data phdrs bias a) else bytes_ m a).

Section LoadFacts.
Context (grants : nat -> host_request -> bool) (file_at : Z -> Z -> Z).

Lemma unmap_range m l h :
  ok m = true -> l mod 4096 = 0 -> h mod 4096 = 0 -> 0 <= l < h -> h < 2 ^ 32 ->
  exists b m', unmap grants file_at m l (h - l) = Ret (b, m') /\ (mem_wf m -> mem_wf m') /\
    same_outside m m' (l / 4096) (h / 4096) /\
    ((forall k q, grants k q = true) -> forall i, l / 4096 <= i < h / 4096 -> pages_ m' i = 0).
Proof.
  intros Hok Hl Hh Hlh Hb. set (o := OpUnmap l (h - l)).
  assert (page_count (h - l) = h / 4096 - l / 4096) as Hpc by (unfold page_count; lia).
  assert (op_allowed m o) as Hal by (split; [done|split; [unfold good_range; cbn; lia|done]]).
  destruct (mem_step_cases grants file_at m o) as [(m' & E & _ & (Hb' & Hp & Hy) & Hwf)|(m' & E & (Hb' & Hp & Hy & Hh') & Hno)];
    [cbn; lia|unfold no_wrap; cbn; lia|exists true, m'|exists false, m'].
  - cbn [op_addr op_len o] in *. unfold in_pages in Hp, Hy. rewrite Hpc in Hp, Hy. split; [done|]. split; [done|]. split.
    + split_and!; [done| |]; intros j Hj; [rewrite Hp|rewrite Hy]; by rewrite decide_False by lia.
    + intros _ i Hi. rewrite Hp, decide_True by lia. done.
  - split; [done|]. split; [intros Hwf i; by rewrite Hp, Hh'|]. split.
    + split_and!; [done| |]; intros; by rewrite ?Hp, ?Hy.
    + intros Hg. by destruct (Hno Hg).
Qed.

(** The span of the segments and its place in the guest space. *)
Definition placed (l h bias : Z) : Prop :=
  0 <= l < h /\ l mod 4096 = 0 /\ h mod 4096 = 0 /\ 0 <= bias /\ bias mod 4096 = 0 /\ h + bias < 2 ^ 32.

(** The pages of the span, freshly mapped for the loader. *)
Definition fresh_span (m : GuestMemory) (first last : Z) : Prop :=
  forall i, first <= i < last -> pages_ m i = flags_from_prot (Z.lor PROT_READ PROT_WRITE) /\
    has_bits (hprot m i) PROT_WRITE = true /\ forall a, a / 4096 = i -> bytes_ m a = 0.

(** Copying and protecting: the middle of [load_elf]. *)
Lemma map_segments m data phdrs l h bias :
  placed l h bias -> Forall (segment_ok data) phdrs -> Forall (covers l h) phdrs ->
  ok m = true -> fresh_span m ((l + bias) / 4096) ((h + bias) / 4096) ->
  exists m1 pp b m2,
    copy_segments m data phdrs bias [] = Ret (m1, interp_path data phdrs []) /\
    union_prots phdrs bias (l + bias) (replicate (Z.to_nat ((h - l) / kPageSize)) (-1)) = Ret pp /\
    apply_prots grants file_at (length pp) m1 (l + bias) pp 0 = Ret (b, m2) /\
    (mem_wf m -> mem_wf m2) /\ same_outside m m2 ((l + bias) / 4096) ((h + bias) / 4096) /\
    (b = true -> image_loaded m m2 data phdrs bias (l + bias) (h + bias)) /\
    ((forall k q, grants k q = true) -> b = true).
Proof.
  intros (Hl & Hlm & Hhm & Hb & Hbm & Hh) Hseg Hcov Hok Hfresh. change kPageSize with 4096.
  destruct (copy_segments_in data phdrs bias l h m []) as (m1 & E1 & Hb1 & Hp1 & Hh1 & Hy1); [done|done| |lia|].
  { intros i Hi. by apply Hfresh. }
  destruct (union_prots_in data phdrs bias l h (fun _ => None)) with (pp := replicate (Z.to_nat ((h - l) / 4096)) (-1))
    as (pp & E2 & Hlen & Hpp & Hpos); [done|done|lia..|done|rewrite length_replicate; lia| |].
  { intros j Hj. rewrite length_replicate in Hj. by rewrite lookup_replicate_2. }
  rewrite length_replicate in Hlen, Hpp.
  destruct (apply_prots_in grants file_at (length pp) m1 (l + bias) pp 0) as (b & m2 & E3 & Hwf & Hout & Hin & Hg);
    [unfold ok in *; congruence|lia..| |].
  { intros j Hj. unfold page_has. rewrite Hp1. destruct (Hfresh j) as (-> & _); [lia|done]. }
  assert ((l + bias) / 4096 + Z.of_nat (length pp) = (h + bias) / 4096) as Eend by lia.
  assert ((l + bias) / 4096 + Z.of_nat 0 = (l + bias) / 4096) as Ez by lia. rewrite Eend, Ez in Hout.
  assert (forall a, ~ ((l + bias) / 4096 <= a / 4096 < (h + bias) / 4096) -> image_byte data phdrs bias a = None) as Hgap.
  { intros a Ha. apply image_byte_gap; [done|]. apply Forall_forall. intros p Hp (Hpl & Hz & Hpg).
    destruct (proj1 (Forall_forall _ _) Hcov p Hp Hpl Hz). lia. }
  exists m1, pp, b, m2. split; [done|]. split; [done|]. split; [done|]. split; [|split; [|split; [|done]]].
  - intros Hm. apply Hwf. intros i. rewrite Hp1, Hh1. apply Hm.
  - destruct Hout as (Hbo & Hpo & Hyo). split_and!; [congruence| |].
    + intros j Hj. rewrite Hpo by done. by rewrite Hp1.
    + intros a Ha. rewrite Hyo by done. by rewrite Hy1, Hgap.
  - intros ->. destruct Hout as (_ & Hpo & Hyo). split.
    + intros i. case_decide as Hi; [|rewrite Hpo by done; by rewrite Hp1].
      destruct (Hin eq_refl (Z.to_nat (i - (l + bias) / 4096)) (prot_entry (page_union phdrs bias i None))) as [H1 _]; [lia| |].
      { rewrite Hpp by lia. by replace ((l + bias) / 4096 + Z.of_nat (Z.to_nat (i - (l + bias) / 4096))) with i by lia. }
      replace ((l + bias) / 4096 + Z.of_nat (Z.to_nat (i - (l + bias) / 4096))) with i in H1 by lia. rewrite H1.
      specialize (Hpos i). unfold entry_flags. destruct (page_union phdrs bias i None) as [x|] eqn:Eu; simpl; [|done].
      by rewrite (proj2 (Z.ltb_ge x 0)) by (by apply Hpos).
    + intros a. case_decide as Ha; [|rewrite Hyo by lia; rewrite Hy1, Hgap by lia; done].
      set (i := a / 4096).
      destruct (Hin eq_refl (Z.to_nat (i - (l + bias) / 4096)) (prot_entry (page_union phdrs bias i None))) as [_ H1]; [lia| |].
      { rewrite Hpp by (unfold i; lia). by replace ((l + bias) / 4096 + Z.of_nat (Z.to_nat (i - (l + bias) / 4096))) with i by (unfold i; lia). }
      rewrite H1 by (unfold i; lia). rewrite Hy1. destruct (Hfresh i) as (_ & _ & Hz); [unfold i; lia|].
      rewrite Hz by done. specialize (Hpos i). unfold entry_byte. destruct (page_union phdrs bias i None) as [x|] eqn:Eu; simpl.
      * by rewrite (proj2 (Z.ltb_ge x 0)) by (by apply Hpos).
      * apply page_union_none in Eu as [_ Eu]. by rewrite (image_byte_gap data phdrs bias a).
Qed.

(** A failed load leaves every page that was in use alone, contents included, and
    unless the host refuses a call no page stays mapped. *)
Definition load_undone (m m' : GuestMemory) : Prop :=
  (forall i, pages_ m i <> 0 -> pages_ m' i = pages_ m i /\ forall a, a / 4096 = i -> bytes_ m' a = bytes_ m a) /\
  ((forall k q, grants k q = true) -> forall i, pages_ m' i = pages_ m i).

(** A successful load of the parsed file, from [lo] on. *)
Definition load_done (m m' : GuestMemory) (data : list Z) (eh : Elf32_Ehdr) (phdrs : list Elf32_Phdr) (out : LoadedElf) : Prop :=
  image_loaded m m' data phdrs (bias out) (load_start out) (load_end out) /\
  (forall i, load_start out / 4096 <= i < load_end out / 4096 -> pages_ m i = 0) /\
  Forall (covers (load_start out - bias out) (load_end out - bias out)) phdrs /\
  load_start out mod 4096 = 0 /\ load_end out mod 4096 = 0 /\ 0 <= bias out /\ bias out mod 4096 = 0 /\
  0 <= load_start out < load_end out /\ load_end out < 2 ^ 32 /\
  (is_dyn out = false -> bias out = 0) /\ is_dyn out = (e_type eh =? ET_DYN) /\
  interp out = interp_path data phdrs [] /\
  entry out = Z.lor (u32 (entry_addr eh + bias out)) (Z.land (e_entry eh) 1) /\
  page_has m' kPageExec ((entry_addr eh + bias out) / 4096) /\
  phnum out = e_phnum eh /\ load_start out <= phdr out /\ phdr out + phnum out * sizeof_Phdr <= load_end out /\
  accessible m' (phdr out) (phnum out * sizeof_Phdr) kPageRead = true.

Lemma same_outside_undone m m1 m' first last :
  same_outside m m1 first last -> same_outside m1 m' first last ->
  (forall i, first <= i < last -> pages_ m i = 0) ->
  ((forall k q, grants k q = true) -> forall i, first <= i < last -> pages_ m' i = 0) -> load_undone m m'.
Proof.
  intros (_ & P1 & Y1) (_ & P2 & Y2) Hfree Hgr. split.
  - intros i Hi. destruct (decide (first <= i < last)) as [Hin|Hout]; [by rewrite Hfree in Hi|].
    split; [by rewrite P2, P1|]. intros a <-. by rewrite Y2, Y1.
  - intros Hg i. destruct (decide (first <= i < last)) as [Hin|Hout]; [by rewrite Hgr, Hfree|by rewrite P2, P1].
Qed.

Lemma entry_page_exec m m' data eh phdrs l h b :
  placed l h b -> Forall (segment_ok data) phdrs -> Forall (covers l h) phdrs ->
  image_loaded m m' data phdrs b (l + b) (h + b) -> existsb (entry_in eh) phdrs = true ->
  page_has m' kPageExec ((entry_addr eh + b) / 4096).
Proof.
  intros (Hl & Hlm & Hhm & Hb & Hbm & Hh) Hseg Hcov [Hp _] Hex.
  apply existsb_exists in Hex as (p & Hin%list_elem_of_In & He).
  unfold entry_in in He. rewrite !andb_true_iff, Z.eqb_eq, Z.leb_le, Z.ltb_lt in He. destruct He as [[[Ht Hx] He1] He2].
  rewrite Forall_forall in Hseg, Hcov. destruct (Hseg p Hin) as ((_ & _ & Hv & _) & _ & _).
  destruct (Hcov p Hin Ht) as [Hc1 Hc2]; [lia|].
  unfold page_has. rewrite Hp, decide_True by lia.
  destruct (page_union_keeps phdrs b ((entry_addr eh + b) / 4096) None PROT_EXEC) as (x & -> & Hxb).
  { right. apply Exists_exists. exists p. split; [done|]. split; [|by apply segment_prot_exec].
    unfold on_page. split; [done|]. lia. }
  by apply flags_exec.
Qed.

Lemma load_mapped_ok m0 m data eh phdrs l h b :
  placed l h b -> ehdr_typed eh -> Forall (segment_ok data) phdrs -> Forall (covers l h) phdrs ->
  ok m = true -> mem_wf m -> same_outside m0 m ((l + b) / 4096) ((h + b) / 4096) ->
  fresh_span m ((l + b) / 4096) ((h + b) / 4096) -> existsb (entry_in eh) phdrs = true ->
  (forall i, (l + b) / 4096 <= i < (h + b) / 4096 -> pages_ m0 i = 0) ->
  (e_type eh <> ET_DYN -> b = 0) ->
  exists r m', load_mapped grants file_at m data eh phdrs b (l + b) (h - l) (h + b) (entry_addr eh + b) = Ret (r, m') /\
    mem_wf m' /\
    match r with inl _ => load_undone m0 m' | inr out => load_done m0 m' data eh phdrs out end.
Proof.
  intros Hpl Het Hseg Hcov Hok Hwf0 Hso Hfresh Hex Hfree Hdyn. pose proof Hpl as (Hl & Hlm & Hhm & Hb & Hbm & Hh).
  destruct (map_segments m data phdrs l h b) as (m1 & pp & bb & m2 & E1 & E2 & E3 & Hwf & Hout & Hdone & _); [done..|].
  assert (ok m2 = true) as Hok2 by (unfold ok in *; destruct Hout; congruence).
  unfold load_mapped. rewrite E1, exec_ret_bind. cbv beta iota. rewrite E2, exec_ret_bind.
  rewrite E3, exec_ret_bind. cbv beta iota.
  destruct (unmap_range m2 (l + b) (h + b)) as (b3 & m3 & E4 & Hwf3 & Hout3 & Hz3); [done|lia..|].
  replace (h + b - (l + b)) with (h - l) in E4 by lia.
  assert (load_undone m0 m3) as Hund.
  { eapply same_outside_undone; [|exact Hout3|done|done]. eapply same_outside_trans; [exact Hso|exact Hout|lia|lia]. }
  destruct bb; simpl negb; cbv iota.
  2: { rewrite E4, exec_ret_bind. eexists _, m3. split; [done|]. split; [auto|done]. }
  set (ph := find_phdrs eh phdrs b). destruct Het as (He1 & He2 & He3).
  destruct (Z.eqb_spec ph 0), (Z.ltb_spec ph (l + b)), (Z.ltb_spec (h + b) (ph + e_phnum eh * sizeof_Phdr));
    simpl orb; cbv iota; try (rewrite E4, exec_ret_bind; eexists _, m3; split; [done|]; split; [auto|done]).
  destruct (accessible m2 ph (u64 (ph + e_phnum eh * sizeof_Phdr - ph)) kPageRead) eqn:Eacc; simpl negb; cbv iota.
  2: { rewrite E4, exec_ret_bind. eexists _, m3. split; [done|]. split; [auto|done]. }
  eexists _, m2. split; [done|]. split; [auto|]. specialize (Hdone eq_refl).
  assert (image_loaded m0 m2 data phdrs b (l + b) (h + b)) as Himg.
  { destruct Hdone as [Hp Hy], Hso as (_ & P & Y). split.
    - intros i. rewrite Hp. case_decide; [done|]. by apply P.
    - intros a. rewrite Hy. case_decide; [done|]. apply Y. lia. }
  unfold load_done. cbn [bias load_start load_end is_dyn interp entry phnum phdr].
  rewrite (u32_small (h + b)) by lia. replace (l + b - b) with l by lia. replace (h + b - b) with h by lia.
  change sizeof_Phdr with 32 in *. rewrite u64_small in Eacc by lia.
  replace (ph + e_phnum eh * 32 - ph) with (e_phnum eh * 32) in Eacc by lia.
  pose proof (entry_page_exec m0 m2 data eh phdrs l h b Hpl Hseg Hcov Himg Hex).
  split; [done|]. split; [done|]. split; [done|]. split_and!; try done; try lia.
Qed.

Lemma load_undone_refl m : load_undone m m.
Proof. by split. Qed.

Lemma load_undone_same m m' : same_space m m' -> load_undone m m'.
Proof.
  intros (_ & Hp & Hy & _). split; [|intros; by rewrite Hp].
  intros i Hi. split; [by rewrite Hp|]. intros. by rewrite Hy.
Qed.

Lemma load_scanned_ok m data dyn_limit eh phdrs s :
  mem_wf m -> 0 <= dyn_limit < 2 ^ 32 -> ehdr_typed eh -> scan_bounds s ->
  Forall (segment_ok data) phdrs -> Forall (covers (lo s) (hi s)) phdrs ->
  exists r m', load_scanned grants file_at m data dyn_limit eh phdrs s = Ret (r, m') /\ mem_wf m' /\
    match r with inl _ => load_undone m m' | inr out => load_done m m' data eh phdrs out end.
Proof.
  intros Hwf Hlim Het (Hlo & Hhi & Hhm & Hb) Hseg Hcov. unfold load_scanned. change kGuestSpaceSize with (2 ^ 32).
  case_bool_decide; [eexists _, m; split; [done|]; split; [done|apply load_undone_refl]|]. simpl orb.
  destruct (Z.eqb_spec (hi s) 0); [eexists _, m; split; [done|]; split; [done|apply load_undone_refl]|]. simpl orb.
  destruct (Z.leb_spec (2 ^ 32) (hi s)); [eexists _, m; split; [done|]; split; [done|apply load_undone_refl]|].
  destruct Hb as [?|[Hlt Hlm]]; [lia|]. rewrite (u64_small (hi s - lo s)) by lia.
  destruct (choose_bias m eh dyn_limit (lo s) (hi s - lo s)) as [e|b] eqn:Ecb;
    [eexists _, m; split; [done|]; split; [done|apply load_undone_refl]|].
  apply choose_bias_free in Ecb as (Hb & Hbm & Hbh & Hdyn & Hfree); [|lia..].
  assert (placed (lo s) (hi s) b) as Hpl by (unfold placed; lia).
  rewrite !u32_small by (rewrite ?u32_small; lia). rewrite u64_small by lia.
  destruct ((2 ^ 32 <=? hi s + b) || (2 ^ 32 <=? entry_addr eh + b) || negb (existsb (entry_in eh) phdrs)) eqn:Ec;
    [eexists _, m; split; [done|]; split; [done|apply load_undone_refl]|].
  apply orb_false_iff in Ec as [_ Hex%negb_false_iff].
  set (o := OpMapAnon (lo s + b) (hi s - lo s) (Z.lor PROT_READ PROT_WRITE)).
  change (map_anon grants file_at m (lo s + b) (hi s - lo s) (Z.lor PROT_READ PROT_WRITE)) with (mem_step grants file_at m o).
  destruct (mem_step_cases grants file_at m o) as [(m1 & E & Hal & (Hb1 & Hp1 & Hy1) & Hwf1)|(m1 & E & Hs & _)];
    [cbn; lia|unfold no_wrap; cbn; lia| |]; rewrite E, exec_ret_bind; cbv beta iota; simpl negb; cbv iota.
  2: { eexists _, m1. split; [done|]. split; [|by apply load_undone_same]. destruct Hs as (_ & Hp' & _ & Hh').
       intros i. rewrite Hp', Hh'. apply Hwf. }
  unfold in_pages, o in Hp1, Hy1. cbn [op_addr op_len op_flags op_contents] in Hp1, Hy1.
  assert ((lo s + b) / 4096 + page_count (hi s - lo s) = (hi s + b) / 4096) as Epc by (unfold page_count; lia).
  rewrite Epc in Hp1, Hy1.
  apply load_mapped_ok; try done.
  - destruct Hal as [Hal _]. unfold ok in *. congruence.
  - auto.
  - split_and!; [done| |]; intros j Hj; [rewrite Hp1|rewrite Hy1]; by rewrite decide_False by lia.
  - intros i Hi. assert (pages_ m1 i = flags_from_prot (Z.lor PROT_READ PROT_WRITE)) as Hpi by (by rewrite Hp1, decide_True).
    split; [done|]. split.
    + apply (page_ok_access (pages_ m1 i) (hprot m1 i) kPageWrite); [by apply Hwf1|by rewrite Hpi|done].
    + intros a <-. by rewrite Hy1, decide_True.
Qed.

Lemma load_data_ok m data dyn_limit :
  mem_wf m -> 0 <= dyn_limit < 2 ^ 32 -> bytes_ok data -> size data <= 2 ^ 29 ->
  exists r m', load_data grants file_at m data dyn_limit = Ret (r, m') /\ mem_wf m' /\
    match r with
    | inl _ => load_undone m m'
    | inr out => exists eh phdrs, read_ehdr data = Ret eh /\ read_phdrs data (e_phoff eh) (Z.to_nat (e_phnum eh)) = Ret phdrs /\
                   Forall (segment_ok data) phdrs /\ load_done m m' data eh phdrs out
    end.
Proof.
  intros Hwf Hlim Hok Hs. unfold load_data.
  destruct (Z.ltb_spec (size data) sizeof_Ehdr); [eexists _, m; split; [done|]; split; [done|apply load_undone_refl]|].
  destruct (read_ehdr_in data) as (eh & Eeh & Het); [done..|]. rewrite Eeh, exec_ret_bind.
  case_match; [eexists _, m; split; [done|]; split; [done|apply load_undone_refl]|].
  case_match; [eexists _, m; split; [done|]; split; [done|apply load_undone_refl]|].
  destruct (phdr_table_ok eh data) eqn:Ept; simpl negb; cbv iota;
    [|eexists _, m; split; [done|]; split; [done|apply load_undone_refl]].
  unfold phdr_table_ok in Ept. rewrite !andb_true_iff, Z.leb_le in Ept. destruct Ept as [_ Ept].
  pose proof Het as (_ & He2 & He3).
  destruct (read_phdrs_in data (e_phoff eh) (Z.to_nat (e_phnum eh))) as (phdrs & Eph & Hph); [done|lia|rewrite Z2Nat.id by lia; done|].
  rewrite Eph, exec_ret_bind.
  destruct (scan_phdrs_in data phdrs scan_init) as (r & Es & Hr); [done..| |].
  { unfold scan_bounds. cbn. lia. }
  rewrite Es, exec_ret_bind. destruct r as [e|s]; [eexists _, m; split; [done|]; split; [done|apply load_undone_refl]|].
  destruct (Hr s eq_refl) as (Hsb & _ & _ & Hseg & Hcov).
  destruct (load_scanned_ok m data dyn_limit eh phdrs s) as (r & m' & E & Hwf' & Hres); [done..|].
  eexists _, m'. split; [done|]. split; [done|]. destruct r; [done|]. by exists eh, phdrs.
Qed.

End LoadFacts.

(** The file's contents are bytes. *)
Definition file_ok (file : file_result) : Prop :=
  match file with FileData data => bytes_ok data | _ => True end.

(** C7: [load_elf] is safe on any file, however malformed.  It always returns; it
    never reads outside the file, indexes outside its page table or writes to a
    page it may not write; it keeps the memory invariant; and when it reports an
    error no page that was in use has changed, and unless the host kernel refuses
    a call no page of the attempt stays mapped. *)
Theorem load_elf_safe grants file_at m file dyn_limit :
  mem_wf m -> file_ok file -> 0 <= dyn_limit < 2 ^ 32 ->
  exists r m', load_elf grants file_at m file dyn_limit = Ret (r, m') /\ mem_wf m' /\
    (forall e, r = inl e -> load_undone grants m m').
Proof.
  intros Hwf Hok Hlim. unfold load_elf. destruct file as [|sz|data]; cbv iota.
  1, 2: eexists _, m; split; [done|]; split; [done|]; intros; apply load_undone_refl.
  destruct (Z.ltb_spec (512 * 1024 * 1024) (size data)).
  { eexists _, m. split; [done|]. split; [done|]. intros. apply load_undone_refl. }
  destruct (load_data_ok grants file_at m data dyn_limit) as (r & m' & E & Hwf' & Hr); [done..|lia|].
  exists r, m'. split; [done|]. split; [done|]. by intros e ->.
Qed.

(** C14: a successful [load_elf] maps exactly the file's image.  With the file's own
    headers: the pages of the reported range were free; afterwards every one has
    the union of the permissions of the segments on it and a page without a
    segment is unmapped; the range holds the segments' file bytes (a later segment
    over an earlier one) and zeroes elsewhere; nothing outside changes; an
    [ET_EXEC] is not moved; the entry is in an executable page; and the reported
    program header table is inside the range and readable. *)
Theorem load_elf_image grants file_at m data dyn_limit out m' :
  mem_wf m -> bytes_ok data -> 0 <= dyn_limit < 2 ^ 32 ->
  load_elf grants file_at m (FileData data) dyn_limit = Ret (inr out, m') ->
  exists eh phdrs, read_ehdr data = Ret eh /\ read_phdrs data (e_phoff eh) (Z.to_nat (e_phnum eh)) = Ret phdrs /\
    Forall (segment_ok data) phdrs /\ load_done m m' data eh phdrs out.
Proof.
  intros Hwf Hok Hlim. unfold load_elf. destruct (Z.ltb_spec (512 * 1024 * 1024) (size data)); [done|].
  destruct (load_data_ok grants file_at m data dyn_limit) as (r & m1 & -> & _ & Hr); [done..|lia|].
  intros [= -> ->]. done.
Qed.

(** ** A sample executable *)

Definition sample_phdr (off vaddr filesz memsz flags align : Z) : list Z :=
  to_le 4 PT_LOAD ++ to_le 4 off ++ to_le 4 vaddr ++ to_le 4 vaddr ++ to_le 4 filesz ++ to_le 4 memsz ++ to_le 4 flags ++ to_le 4 align.

(** An [ET_EXEC] with a text segment at 0x10000 and a data segment with bss at 0x12004. *)
Definition sample_elf : list Z :=
  [0x7f; 0x45; 0x4c; 0x46; 1; 1; 1; 0; 0; 0; 0; 0; 0; 0; 0; 0] ++ to_le 2 ET_EXEC ++ to_le 2 EM_ARM ++ to_le 4 1 ++
  to_le 4 0x10074 ++ to_le 4 52 ++ to_le 4 0 ++ to_le 4 0 ++ to_le 2 52 ++ to_le 2 32 ++ to_le 2 2 ++ to_le 2 0 ++ to_le 2 0 ++ to_le 2 0 ++
  sample_phdr 0 0x10000 120 120 5 0x1000 ++ sample_phdr 116 0x12004 4 0x1100 6 0 ++ [1; 2; 3; 4].

Lemma sample_elf_bytes : bytes_ok sample_elf.
Proof. unfold bytes_ok. apply (bool_decide_unpack _). vm_compute. exact I. Qed.

Lemma init_wf reserved : mem_wf (GuestMemory_init reserved).
Proof. intros i. by left. Qed.

Lemma load_elf_safe_witness :
  exists r m', load_elf sample_grants sample_file (GuestMemory_init true) (FileData sample_elf) 0xf0000000 = Ret (r, m') /\ mem_wf m' /\
    (forall e, r = inl e -> load_undone sample_grants (GuestMemory_init true) m').
Proof.
  apply (load_elf_safe sample_grants sample_file (GuestMemory_init true) (FileData sample_elf) 0xf0000000);
    [apply init_wf|exact sample_elf_bytes|lia].
Defined.

Lemma load_elf_image_witness :
  exists out m', load_elf sample_grants sample_file (GuestMemory_init true) (FileData sample_elf) 0xf0000000 = Ret (inr out, m') /\
    exists eh phdrs, read_ehdr sample_elf = Ret eh /\ read_phdrs sample_elf (e_phoff eh) (Z.to_nat (e_phnum eh)) = Ret phdrs /\
      Forall (segment_ok sample_elf) phdrs /\ load_done (GuestMemory_init true) m' sample_elf eh phdrs out.
Proof.
  assert (match load_elf sample_grants sample_file (GuestMemory_init true) (FileData sample_elf) 0xf0000000 with
          | Ret (inr _, _) => true | _ => false end = true) as Hrun by (vm_compute; reflexivity).
  destruct (load_elf sample_grants sample_file (GuestMemory_init true) (FileData sample_elf) 0xf0000000)
    as [[[e|out] m']| |] eqn:E; [discriminate Hrun| |discriminate Hrun|discriminate Hrun].
  exists out, m'. split; [reflexivity|].
  apply (load_elf_image sample_grants sample_file (GuestMemory_init true) sample_elf 0xf0000000 out m');
    [apply init_wf|exact sample_elf_bytes|lia|exact E].
Defined.

(** The sample's second segment ends in zeroed bss; the page between the segments is unmapped. *)
Example sample_elf_loaded :
  match load_elf sample_grants sample_file (GuestMemory_init true) (FileData sample_elf) 0xf0000000 with
  | Ret (inr out, m) =>
      (load_start out, load_end out, entry out, phdr out) = (0x10000, 0x14000, 0x10074, 0x10034) /\
      map (page_flags m) [0x10000; 0x11000; 0x12000; 0x13000; 0x14000] = [13; 0; 11; 11; 0] /\
      map (bytes_ m) [0x10000; 0x10077; 0x12003; 0x12004; 0x12007; 0x12008] = [0x7f; 4; 0; 1; 4; 0]
  | _ => False
  end.
Proof. vm_compute. auto. Qed.
