(* ===== verification/InitialStack.v ===== *)
(** * The initial process stack

    [core/src/initial_stack.cpp] builds what the Linux kernel would leave on the
    stack of a new process: strings at the top, below them the table of argc,
    argv, envp and auxv.  Strings are lists of byte values without their
    terminating zero; [random] is what [getrandom] delivered. *)

From stdpp Require Import numbers list.
From S2P Require Import Prelude Bytes GuestMemory.
Local Open Scope Z_scope.
Local Ltac Zify.zify_post_hook ::= Z.div_mod_to_equations.

Definition kMaxStackData : Z := 256 * 1024.

Record AuxEntry := { type : Z; value : Z }.

Definition AT_NULL : Z := 0.
Definition AT_PLATFORM : Z := 15.
Definition AT_RANDOM : Z := 25.
Definition AT_EXECFN : Z := 31.

(** The variables the lambdas capture. *)
Record stack_state := { cursor : Z; overflow : bool; memory : GuestMemory }.

Definition push_bytes (stack_top : Z) (st : stack_state) (src : list Z) : exec (Z * stack_state) :=
  let len := size src in
  if (kMaxStackData <? len) || (kMaxStackData <? u64 (u32 (stack_top - cursor st) + len)) ||
     negb (accessible (memory st) (u32 (cursor st - u32 len)) len kPageWrite)
  then Ret (0, {| cursor := cursor st; overflow := true; memory := memory st |})
  else
    let cursor' := u32 (cursor st - u32 len) in
    m ← host_write (memory st) cursor' src;
    Ret (cursor', {| cursor := cursor'; overflow := overflow st; memory := m |}).

Definition push_string (stack_top : Z) (st : stack_state) (s : list Z) : exec (Z * stack_state) :=
  push_bytes stack_top st (s ++ [0]).

Fixpoint push_strings (stack_top : Z) (st : stack_state) (l : list (list Z)) : exec (list Z * stack_state) :=
  match l with
  | [] => Ret ([], st)
  | s :: l' =>
      '(a, st) ← push_string stack_top st s;
      '(addrs, st) ← push_strings stack_top st l';
      Ret (a :: addrs, st)
  end.

(** [random_bytes]: what the host delivered, or the fixed fallback. *)
Definition random_bytes (random : option (list Z)) : list Z :=
  match random with
  | Some bs => bs
  | None => map (fun i => u8 (Z.of_nat i * 37 + 11)) (seq 0 16)
  end.

(** ["v8l"]. *)
Definition platform : list Z := [0x76; 0x38; 0x6c].

Definition stack_table (argc : Z) (arg_addrs env_addrs : list Z) (auxv : list AuxEntry) : list Z :=
  [u32 argc] ++ arg_addrs ++ [0] ++ env_addrs ++ [0] ++ concat (map (fun a => [type a; value a]) auxv).

(** The words of a table as they are copied to memory. *)
Definition words_bytes (ws : list Z) : list Z := concat (map (to_le 4) ws).

Definition build_initial_stack (m : GuestMemory) (stack_top : Z) (argv envp : list (list Z)) (auxv : list AuxEntry)
    (execfn : list Z) (random : option (list Z)) : exec (Z * GuestMemory) :=
  let st := {| cursor := stack_top; overflow := false; memory := m |} in
  '(execfn_addr, st) ← push_string stack_top st execfn;
  '(platform_addr, st) ← push_string stack_top st platform;
  '(env_addrs, st) ← push_strings stack_top st envp;
  '(arg_addrs, st) ← push_strings stack_top st argv;
  '(random_addr, st) ← push_bytes stack_top st (random_bytes random);
  if overflow st then Ret (0, memory st)
  else
    let auxv := auxv ++ [ {| type := AT_RANDOM; value := random_addr |}; {| type := AT_PLATFORM; value := platform_addr |};
                          {| type := AT_EXECFN; value := execfn_addr |}; {| type := AT_NULL; value := 0 |} ] in
    let table := stack_table (Z.of_nat (length argv)) arg_addrs env_addrs auxv in
    let table_bytes := u32 (u64 (Z.of_nat (length table) * 4)) in
    let sp := Z.land (u32 (cursor st - table_bytes)) (u32 (Z.lnot 15)) in
    if (kMaxStackData <? u32 (stack_top - sp)) || negb (accessible (memory st) sp table_bytes kPageWrite) then Ret (0, memory st)
    else m ← host_write (memory st) sp (take (Z.to_nat table_bytes) (words_bytes table)); Ret (sp, m).

(** ** What is where *)

(** The bytes [bs] are at address [a]. *)
Definition holds (m : GuestMemory) (a : Z) (bs : list Z) : Prop :=
  forall i b, bs !! i = Some b -> bytes_ m (a + Z.of_nat i) = b.

(** The zero-terminated string [s] is at address [a]. *)
Definition holds_string (m : GuestMemory) (a : Z) (s : list Z) : Prop := holds m a (s ++ [0]).

(** Only bytes in [lo .. hi) differ. *)
Definition changes_within (m m' : GuestMemory) (lo hi : Z) : Prop :=
  base_ m' = base_ m /\ pages_ m' = pages_ m /\ hprot m' = hprot m /\
  forall a, ~ (lo <= a < hi) -> bytes_ m' a = bytes_ m a.

Lemma holds_stable m m' a bs lo hi :
  holds m a bs -> changes_within m m' lo hi -> hi <= a \/ a + size bs <= lo -> holds m' a bs.
Proof.
  intros Hh (_ & _ & _ & Hc) Hd i b Hi. rewrite Hc; [by apply Hh|].
  apply lookup_lt_Some in Hi. unfold size in Hd. lia.
Qed.

Lemma changes_within_trans m1 m2 m3 lo1 hi1 lo2 hi2 lo hi :
  changes_within m1 m2 lo1 hi1 -> changes_within m2 m3 lo2 hi2 ->
  lo <= lo1 -> hi1 <= hi -> lo <= lo2 -> hi2 <= hi -> changes_within m1 m3 lo hi.
Proof.
  intros (? & ? & ? & Hc1) (? & ? & ? & Hc2) ? ? ? ?. split_and!; [congruence..|].
  intros a Ha. rewrite Hc2, Hc1 by lia. done.
Qed.

Lemma changes_within_wf m m' lo hi : changes_within m m' lo hi -> mem_wf m -> mem_wf m'.
Proof. intros (_ & Hp & Hh & _) Hm i. rewrite Hp, Hh. apply Hm. Qed.

(** Writing where [accessible] said yes never faults. *)
Lemma write_accessible m a data :
  mem_wf m -> 0 <= a < 2 ^ 32 -> size data <= 2 ^ 32 -> accessible m a (size data) kPageWrite = true ->
  exists m', host_write m a data = Ret m' /\ changes_within m m' a (a + size data) /\ holds m' a data.
Proof.
  intros Hm Ha Hs Hacc. unfold host_write. unfold size in *. case_decide as Hd.
  { subst data. exists m. split; [done|]. split; [done|]. by intros i b. }
  assert (0 < length data)%nat by (destruct data; [done|simpl; lia]).
  apply accessible_pages in Hacc as [?|[Hb Hp]]; [lia| |lia..].
  assert (pages_writable (hprot m) (a / kPageSize) (Z.to_nat ((a + Z.of_nat (length data) - 1) / kPageSize + 1 - a / kPageSize)) = true) as ->.
  { apply pages_writable_spec. change kPageSize with 4096. intros j Hj.
    apply (page_ok_access (pages_ m j) (hprot m j) kPageWrite); [apply Hm|apply Hp; lia|done]. }
  eexists. split; [done|]. split.
  - split_and!; [done..|]. intros x Hx. cbn [bytes_]. unfold store_bytes.
    destruct (Z.leb_spec a x), (Z.ltb_spec x (a + Z.of_nat (length data))); simpl; first [done|lia].
  - intros i b Hi. pose proof (lookup_lt_Some _ _ _ Hi). cbn [bytes_]. unfold store_bytes.
    rewrite (proj2 (Z.leb_le _ _)), (proj2 (Z.ltb_lt _ _)) by lia. simpl andb. cbv iota.
    replace (Z.to_nat (a + Z.of_nat i - a)) with i by lia. by rewrite Hi.
Qed.

(** ** Pushing *)

Section Pushing.
Context (stack_top : Z) (Htop : kMaxStackData <= stack_top < 2 ^ 32).

Definition stack_inv (st : stack_state) : Prop :=
  0 <= stack_top - cursor st <= kMaxStackData /\ mem_wf (memory st).

(** Without overflow, pushing moved the cursor down and wrote only below it. *)
Definition grows (st st' : stack_state) : Prop :=
  overflow st = false /\ cursor st' <= cursor st /\
  changes_within (memory st) (memory st') (cursor st') (cursor st).

Lemma grows_refl st : overflow st = false -> grows st st.
Proof. done. Qed.

Lemma grows_trans st1 st2 st3 : grows st1 st2 -> grows st2 st3 -> grows st1 st3.
Proof.
  intros (? & ? & H1) (? & ? & H2). split; [done|]. split; [lia|].
  eapply changes_within_trans; [exact H1|exact H2|lia..].
Qed.

Lemma grows_holds st st' a bs : grows st st' -> cursor st <= a -> holds (memory st) a bs -> holds (memory st') a bs.
Proof. intros (_ & _ & Hc) Ha Hh. eapply holds_stable; [exact Hh|exact Hc|by left]. Qed.

(** The address space itself is not changed by pushing. *)
Definition same_pages (st st' : stack_state) : Prop :=
  pages_ (memory st') = pages_ (memory st) /\ base_ (memory st') = base_ (memory st).

(** The whole stack area may be written. *)
Definition area_writable (m : GuestMemory) : Prop :=
  accessible m (stack_top - kMaxStackData) kMaxStackData kPageWrite = true.

Lemma area_accessible m a len :
  area_writable m -> stack_top - kMaxStackData <= a -> 0 <= len -> a + len <= stack_top ->
  accessible m a len kPageWrite = true.
Proof.
  unfold area_writable. change kMaxStackData with 262144 in *. intros Hw Ha Hl He.
  apply accessible_pages in Hw as [?|[_ Hw]]; [lia| |lia..].
  destruct (decide (len = 0)) as [->|]; [done|].
  apply accessible_pages; [lia..|]. right. split; [lia|]. intros i Hi. apply Hw. lia.
Qed.

Lemma area_same_pages st st' : same_pages st st' -> area_writable (memory st) -> area_writable (memory st').
Proof. intros [Hp _]. unfold area_writable, accessible. by rewrite Hp. Qed.

(** The bytes the strings take. *)
Definition strings_size (l : list (list Z)) : Z := Z.of_nat (sum_list_with (fun s => length s + 1)%nat l).

Lemma push_bytes_in st src :
  stack_inv st -> size src < 2 ^ 32 ->
  exists a st', push_bytes stack_top st src = Ret (a, st') /\ stack_inv st' /\ same_pages st st' /\
    (overflow st' = false -> grows st st' /\ a = cursor st' /\ a = cursor st - size src /\ holds (memory st') a src) /\
    (overflow st = false -> stack_top - cursor st + size src <= kMaxStackData -> area_writable (memory st) ->
       overflow st' = false).
Proof.
  intros [Hc Hm] Hs. pose proof (size_nonneg src). unfold push_bytes. change kMaxStackData with 262144 in *.
  rewrite (u32_small (stack_top - cursor st)), (u32_small (size src)) by lia. rewrite u64_small by lia.
  destruct (Z.ltb_spec 262144 (size src)); simpl orb; cbv iota.
  { eexists _, _. split; [done|]. split; [done|]. split; [done|]. split; [done|]. intros. lia. }
  destruct (Z.ltb_spec 262144 (stack_top - cursor st + size src)); simpl orb; cbv iota.
  { eexists _, _. split; [done|]. split; [done|]. split; [done|]. split; [done|]. intros. lia. }
  rewrite u32_small by lia.
  destruct (accessible (memory st) (cursor st - size src) (size src) kPageWrite) eqn:Eacc; simpl negb; cbv iota.
  2: { eexists _, _. split; [done|]. split; [done|]. split; [done|]. split; [done|]. intros _ _ Hw.
       rewrite area_accessible in Eacc; [done|done|change kMaxStackData with 262144; lia..]. }
  destruct (write_accessible (memory st) (cursor st - size src) src) as (m' & E & Hch & Hho); [done|lia|lia|done|].
  rewrite E, exec_ret_bind. eexists _, _. split; [done|]. split; [|split; [|split]].
  - split; cbn [cursor memory]; [change kMaxStackData with 262144; lia|by eapply changes_within_wf].
  - split; cbn [memory]; by destruct Hch as (? & ? & _).
  - intros Hov. cbn [overflow cursor memory] in *. split; [|done]. split; [done|]. split; cbn [cursor memory]; [lia|].
    by replace (cursor st) with (cursor st - size src + size src) at 2 by lia.
  - done.
Qed.

Lemma size_string s : size (s ++ [0]) = size s + 1.
Proof. unfold size. rewrite length_app. simpl. lia. Qed.

(** A string placed between [lo] and [hi]. *)
Definition string_between (m : GuestMemory) (lo hi a : Z) (s : list Z) : Prop :=
  holds_string m a s /\ lo <= a /\ a + size s + 1 <= hi.

Lemma push_strings_in l st :
  stack_inv st -> Forall (fun s => size s < 2 ^ 31) l ->
  exists addrs st', push_strings stack_top st l = Ret (addrs, st') /\ stack_inv st' /\ same_pages st st' /\
    (overflow st' = false -> grows st st' /\
       cursor st' = cursor st - strings_size l /\
       Forall2 (string_between (memory st') (cursor st') (cursor st)) addrs l) /\
    (overflow st = false -> stack_top - cursor st + strings_size l <= kMaxStackData -> area_writable (memory st) ->
       overflow st' = false).
Proof.
  intros Hinv Hl. revert st Hinv. induction Hl as [|s l Hs _ IH]; intros st Hinv; cbn [push_strings].
  { eexists [], st. split; [done|]. split; [done|]. split; [done|]. split; [|done]. intros. split; [by apply grows_refl|].
    split; [unfold strings_size; simpl; lia|constructor]. }
  unfold push_string. destruct (push_bytes_in st (s ++ [0])) as (a & st1 & E & Hinv1 & Hsp & Hpush & Hprog);
    [done|rewrite size_string; lia|]. rewrite E, exec_ret_bind. cbv beta iota.
  destruct (IH st1 Hinv1) as (addrs & st2 & E2 & Hinv2 & Hsp2 & Hrest & Hprog2). rewrite E2, exec_ret_bind. cbv beta iota.
  assert (strings_size (s :: l) = size s + 1 + strings_size l) as Esz by (unfold strings_size, size; simpl; lia).
  rewrite size_string in Hprog.
  eexists _, st2. split; [done|]. split; [done|]. split; [destruct Hsp, Hsp2; split; congruence|]. split.
  - intros Hov. destruct (Hrest Hov) as (Hg2 & Ec2 & Hf2). pose proof Hg2 as (Hov1 & Hle2 & _).
    destruct (Hpush Hov1) as (Hg1 & Ea & Ea' & Hh). pose proof Hg1 as (_ & Hle1 & _). rewrite size_string in Ea'.
    split; [by eapply grows_trans|]. split; [lia|]. constructor.
    + split; [|lia]. eapply grows_holds; [exact Hg2|lia|exact Hh].
    + eapply Forall2_impl; [exact Hf2|]. intros a' s' (? & ? & ?). split; [done|lia].
  - intros Hov Hfit Hw. assert (0 <= strings_size l) by (unfold strings_size; lia).
    assert (overflow st1 = false) as Hov1 by (apply Hprog; [done|lia|done]).
    destruct (Hpush Hov1) as (_ & Ea & Ea' & _). rewrite size_string in Ea'.
    apply Hprog2; [done|lia|by eapply area_same_pages].
Qed.

End Pushing.

(** ** The whole stack *)

Lemma length_words_bytes ws : length (words_bytes ws) = (4 * length ws)%nat.
Proof.
  induction ws as [|w ws IH]; [done|]. change (words_bytes (w :: ws)) with (to_le 4 w ++ words_bytes ws).
  rewrite length_app, IH, length_to_le. simpl. lia.
Qed.

Lemma stack_table_length argc args envs auxv :
  length (stack_table argc args envs auxv) = (3 + length args + length envs + 2 * length auxv)%nat.
Proof.
  unfold stack_table. rewrite !length_app. simpl.
  assert (length (concat (map (fun a => [type a; value a]) auxv)) = (2 * length auxv)%nat) as ->; [|lia].
  induction auxv as [|a auxv IH]; simpl; [done|]. rewrite IH. lia.
Qed.

Lemma strings_count l : Z.of_nat (length l) <= strings_size l.
Proof. unfold strings_size. induction l as [|s l IH]; simpl; lia. Qed.

(** The auxiliary vector the guest sees. *)
Definition final_auxv (auxv : list AuxEntry) (random_addr platform_addr execfn_addr : Z) : list AuxEntry :=
  auxv ++ [ {| type := AT_RANDOM; value := random_addr |}; {| type := AT_PLATFORM; value := platform_addr |};
            {| type := AT_EXECFN; value := execfn_addr |}; {| type := AT_NULL; value := 0 |} ].

(** A complete initial stack at [sp]. *)
Definition stack_built (m : GuestMemory) (sp : Z) (argv envp : list (list Z)) (auxv : list AuxEntry)
    (execfn : list Z) (random : option (list Z)) : Prop :=
  exists arg_addrs env_addrs random_addr platform_addr execfn_addr,
    holds m sp (words_bytes (stack_table (Z.of_nat (length argv)) arg_addrs env_addrs
                               (final_auxv auxv random_addr platform_addr execfn_addr))) /\
    Forall2 (holds_string m) arg_addrs argv /\ Forall2 (holds_string m) env_addrs envp /\
    holds m random_addr (random_bytes random) /\ holds_string m platform_addr platform /\ holds_string m execfn_addr execfn.

(** The sizes of all arguments: the strings, the random bytes and the table. *)
Definition stack_need (argv envp : list (list Z)) (auxv : list AuxEntry) (execfn : list Z) : Z :=
  strings_size [execfn] + strings_size [platform] + strings_size envp + strings_size argv + 16 +
  4 * (11 + Z.of_nat (length argv) + Z.of_nat (length envp) + 2 * Z.of_nat (length auxv)).

Record stack_args_ok (argv envp : list (list Z)) (auxv : list AuxEntry) (execfn : list Z) (random : option (list Z)) : Prop := {
  argv_small : Forall (fun s => size s < 2 ^ 31) argv;
  envp_small : Forall (fun s => size s < 2 ^ 31) envp;
  execfn_small : size execfn < 2 ^ 31;
  auxv_small : Z.of_nat (length auxv) < 2 ^ 20;
  random_16 : forall bs, random = Some bs -> length bs = 16%nat;
}.

Section Build.
Context (m : GuestMemory) (stack_top : Z) (argv envp : list (list Z)) (auxv : list AuxEntry)
  (execfn : list Z) (random : option (list Z)).
Context (Hwf : mem_wf m) (Htop : kMaxStackData <= stack_top < 2 ^ 32).
Context (Hargs : stack_args_ok argv envp auxv execfn random).

Lemma random_size : size (random_bytes random) = 16.
Proof.
  pose proof (random_16 _ _ _ _ _ Hargs) as H16. unfold size, random_bytes. destruct random as [bs|]; [|done].
  by rewrite (H16 bs eq_refl).
Qed.

(** One string, as a list of one. *)
Lemma push_string_in st x :
  stack_inv stack_top st -> size x < 2 ^ 31 ->
  exists a st', push_string stack_top st x = Ret (a, st') /\ stack_inv stack_top st' /\ same_pages st st' /\
    (overflow st' = false -> grows st st' /\ cursor st' = cursor st - strings_size [x] /\
       cursor st' <= a /\ holds_string (memory st') a x) /\
    (overflow st = false -> stack_top - cursor st + strings_size [x] <= kMaxStackData -> area_writable stack_top (memory st) ->
       overflow st' = false).
Proof.
  intros Hi Hx. assert (size (x ++ [0]) = strings_size [x]) as Es.
  { rewrite size_string. unfold strings_size, size. simpl. lia. }
  destruct (push_bytes_in stack_top Htop st (x ++ [0])) as (a & st' & E & ? & ? & H1 & H2); [done|rewrite size_string; lia|].
  exists a, st'. rewrite Es in H1, H2. split; [done|]. split; [done|]. split; [done|]. split; [|done].
  intros Hov. destruct (H1 Hov) as (? & ? & ? & ?). split; [done|]. split; [lia|]. split; [lia|done].
Qed.

Lemma strings_kept st st' lo hi addrs l :
  grows st st' -> cursor st <= lo -> Forall2 (string_between (memory st) lo hi) addrs l ->
  Forall2 (holds_string (memory st')) addrs l.
Proof.
  intros Hg Hle Hf. eapply Forall2_impl; [exact Hf|]. intros a x (Hh & Ha & _). eapply grows_holds; [exact Hg|lia|exact Hh].
Qed.

(** The five pushes of strings and random bytes. *)
Lemma strings_phase :
  let st0 := {| cursor := stack_top; overflow := false; memory := m |} in
  exists e st1 p st2 envs st3 args st4 r st,
    push_string stack_top st0 execfn = Ret (e, st1) /\ push_string stack_top st1 platform = Ret (p, st2) /\
    push_strings stack_top st2 envp = Ret (envs, st3) /\ push_strings stack_top st3 argv = Ret (args, st4) /\
    push_bytes stack_top st4 (random_bytes random) = Ret (r, st) /\
    stack_inv stack_top st /\ same_pages st0 st /\
    (overflow st = false -> grows st0 st /\
       cursor st = stack_top - (strings_size [execfn] + strings_size [platform] + strings_size envp + strings_size argv + 16) /\
       Forall2 (holds_string (memory st)) args argv /\ Forall2 (holds_string (memory st)) envs envp /\
       holds (memory st) r (random_bytes random) /\ holds_string (memory st) p platform /\ holds_string (memory st) e execfn /\
       cursor st <= r /\ cursor st <= p /\ cursor st <= e /\ Forall (fun a => cursor st <= a) args /\ Forall (fun a => cursor st <= a) envs) /\
    (area_writable stack_top m -> stack_need argv envp auxv execfn <= kMaxStackData -> overflow st = false).
Proof.
  intros st0. assert (stack_inv stack_top st0) as Hi0 by (split; [cbn; change kMaxStackData with 262144; lia|done]).
  destruct (push_string_in st0 execfn) as (e & st1 & E1 & Hi1 & Hs1 & Hp1 & Hl1); [done|apply Hargs|].
  destruct (push_string_in st1 platform) as (p & st2 & E2 & Hi2 & Hs2 & Hp2 & Hl2); [done|done|].
  destruct (push_strings_in stack_top Htop envp st2) as (envs & st3 & E3 & Hi3 & Hs3 & Hp3 & Hl3); [done|apply Hargs|].
  destruct (push_strings_in stack_top Htop argv st3) as (args & st4 & E4 & Hi4 & Hs4 & Hp4 & Hl4); [done|apply Hargs|].
  destruct (push_bytes_in stack_top Htop st4 (random_bytes random)) as (r & st & E5 & Hi5 & Hs5 & Hp5 & Hl5); [done|rewrite random_size; lia|].
  rewrite random_size in Hp5, Hl5. unfold same_pages in *.
  exists e, st1, p, st2, envs, st3, args, st4, r, st. do 6 (split; [done|]). split; [split; intuition congruence|]. split.
  - intros Hov5. destruct (Hp5 Hov5) as (Hg5 & Er & Er' & Hh5). pose proof Hg5 as (Hov4 & Hc5 & _).
    destruct (Hp4 Hov4) as (Hg4 & Ec4 & Hf4). pose proof Hg4 as (Hov3 & Hc4 & _).
    destruct (Hp3 Hov3) as (Hg3 & Ec3 & Hf3). pose proof Hg3 as (Hov2 & Hc3 & _).
    destruct (Hp2 Hov2) as (Hg2 & Ec2 & Hle2 & Hh2). pose proof Hg2 as (Hov1 & Hc2 & _).
    destruct (Hp1 Hov1) as (Hg1 & Ec1 & Hle1 & Hh1). pose proof (grows_trans _ _ _ Hg4 Hg5) as Hg45.
    pose proof (grows_trans _ _ _ Hg3 Hg45) as Hg35. pose proof (grows_trans _ _ _ Hg2 Hg35) as Hg25.
    assert (cursor st0 = stack_top) by done.
    split; [by eapply grows_trans|]. split; [lia|]. split; [|split; [|split; [|split; [|split]]]].
    + eapply strings_kept; [exact Hg5| |exact Hf4]. lia.
    + eapply strings_kept; [exact Hg45| |exact Hf3]. lia.
    + done.
    + eapply grows_holds; [exact Hg35| |exact Hh2]. lia.
    + eapply grows_holds; [exact Hg25| |exact Hh1]. lia.
    + do 3 (split; [lia|]). split.
      * clear -Hf4 Hc5. induction Hf4 as [|? ? ? ? (_ & ? & _)]; constructor; [lia|done].
      * clear -Hf3 Hc4 Hc5. induction Hf3 as [|? ? ? ? (_ & ? & _)]; constructor; [lia|done].
  - intros Hw Hneed. unfold stack_need in Hneed. assert (cursor st0 = stack_top) by done.
    assert (forall l, 0 <= strings_size l) as Hnn by (intros l; unfold strings_size; lia).
    pose proof (Hnn [execfn]). pose proof (Hnn [platform]). pose proof (Hnn envp). pose proof (Hnn argv).
    assert (overflow st1 = false) as Ho1 by (apply Hl1; [done|lia|done]). destruct (Hp1 Ho1) as (_ & Ec1 & _).
    assert (area_writable stack_top (memory st1)) as Hw1 by (by eapply area_same_pages).
    assert (overflow st2 = false) as Ho2 by (apply Hl2; [done|lia|done]). destruct (Hp2 Ho2) as (_ & Ec2 & _).
    assert (area_writable stack_top (memory st2)) as Hw2 by (by eapply area_same_pages).
    assert (overflow st3 = false) as Ho3 by (apply Hl3; [done|lia|done]). destruct (Hp3 Ho3) as (_ & Ec3 & _).
    assert (area_writable stack_top (memory st3)) as Hw3 by (by eapply area_same_pages).
    assert (overflow st4 = false) as Ho4 by (apply Hl4; [done|lia|done]). destruct (Hp4 Ho4) as (_ & Ec4 & _).
    assert (area_writable stack_top (memory st4)) as Hw4 by (by eapply area_same_pages).
    apply Hl5; [done|lia|done].
Qed.

(** The table of [n] words goes below the strings, 16-byte aligned. *)
Lemma table_phase st table :
  stack_inv stack_top st -> overflow st = false -> 0 < Z.of_nat (length table) < 2 ^ 24 ->
  let table_bytes := u32 (u64 (Z.of_nat (length table) * 4)) in
  let sp := Z.land (u32 (cursor st - table_bytes)) (u32 (Z.lnot 15)) in
  (accessible (memory st) sp table_bytes kPageWrite = true -> u32 (stack_top - sp) <= kMaxStackData ->
   exists m', host_write (memory st) sp (take (Z.to_nat table_bytes) (words_bytes table)) = Ret m' /\
     sp mod 16 = 0 /\ stack_top - kMaxStackData <= sp /\ sp + table_bytes <= cursor st /\ table_bytes = size (words_bytes table) /\
     changes_within (memory st) m' sp (sp + table_bytes) /\ holds m' sp (words_bytes table)) /\
  (stack_top - cursor st + 4 * Z.of_nat (length table) + 15 <= kMaxStackData -> area_writable stack_top (memory st) ->
   accessible (memory st) sp table_bytes kPageWrite = true /\ u32 (stack_top - sp) <= kMaxStackData /\
   (kMaxStackData < stack_top -> sp <> 0)).
Proof.
  intros [Hc Hm] Hov Hn table_bytes sp. change kMaxStackData with 262144 in *.
  assert (table_bytes = Z.of_nat (length table) * 4) as Etb.
  { unfold table_bytes. rewrite u64_small by lia. apply u32_small. lia. }
  assert (sp = u32 (cursor st - table_bytes) / 16 * 16) as Esp.
  { unfold sp. apply (land_clear_low _ 32 4); [lia|lia|apply u32_range]. }
  pose proof (u32_range (cursor st - table_bytes)) as Hr. clearbody sp table_bytes.
  assert (size (words_bytes table) = table_bytes) as Esz by (unfold size; rewrite length_words_bytes; lia).
  rewrite take_ge by (unfold size in Esz; lia). split.
  - intros Hacc Hd.
    assert (table_bytes <= cursor st) as Hle.
    { destruct (decide (table_bytes <= cursor st)) as [|Hgt]; [done|exfalso].
      assert (u32 (cursor st - table_bytes) = cursor st - table_bytes + 2 ^ 32) as Ew
        by (unfold u32; symmetry; apply Z.mod_unique with (q := -1); lia).
      assert (u32 (stack_top - sp) = stack_top - sp + 2 ^ 32 \/ (sp <= stack_top /\ u32 (stack_top - sp) = stack_top - sp)) as Ew'.
      { unfold u32. destruct (decide (stack_top < sp)).
        - left. symmetry. apply Z.mod_unique with (q := -1); lia.
        - right. split; [lia|]. apply Z.mod_small. lia. }
      lia. }
    rewrite u32_small in Esp by lia. rewrite u32_small in Hd by lia.
    rewrite <- Esz in Hacc.
    destruct (write_accessible (memory st) sp (words_bytes table)) as (m' & E & Hch & Hh); [done|lia|lia|done|].
    exists m'. rewrite Esz in Hch. split_and!; try done; lia.
  - intros Hfit Hw. rewrite u32_small in Esp by lia. split; [|split].
    + apply (area_accessible stack_top); [done|done|change kMaxStackData with 262144; lia..].
    + rewrite u32_small by lia. lia.
    + lia.
Qed.

Lemma build_initial_stack_cases :
  exists sp m', build_initial_stack m stack_top argv envp auxv execfn random = Ret (sp, m') /\ mem_wf m' /\
    pages_ m' = pages_ m /\
    (sp = 0 \/ (sp mod 16 = 0 /\ stack_top - kMaxStackData <= sp <= stack_top /\ changes_within m m' sp stack_top /\
                stack_built m' sp argv envp auxv execfn random)) /\
    (kMaxStackData < stack_top -> area_writable stack_top m -> stack_need argv envp auxv execfn + 15 <= kMaxStackData -> sp <> 0).
Proof.
  destruct strings_phase as (e & st1 & p & st2 & envs & st3 & args & st4 & r & st & E1 & E2 & E3 & E4 & E5 & Hi & Hsp & Hdone & Hprog).
  unfold build_initial_stack. rewrite E1, exec_ret_bind. cbv beta iota. rewrite E2, exec_ret_bind. cbv beta iota.
  rewrite E3, exec_ret_bind. cbv beta iota. rewrite E4, exec_ret_bind. cbv beta iota. rewrite E5, exec_ret_bind. cbv beta iota.
  destruct (overflow st) eqn:Hov.
  { exists 0, (memory st). split; [done|]. split; [apply Hi|]. split; [apply Hsp|]. split; [by left|].
    intros _ Hw Hn. enough (true = false) by done. apply Hprog; [done|]. lia. }
  destruct (Hdone eq_refl) as (Hg & Ec & Hfa & Hfe & Hhr & Hhp & Hhe & Hr & Hp & He & Hla & Hle). clear Hdone.
  fold (final_auxv auxv r p e). set (table := stack_table _ _ _ _).
  assert (Z.of_nat (length table) = 11 + Z.of_nat (length argv) + Z.of_nat (length envp) + 2 * Z.of_nat (length auxv)) as Elen.
  { unfold table. rewrite stack_table_length, (Forall2_length _ _ _ Hfa), (Forall2_length _ _ _ Hfe).
    unfold final_auxv. rewrite length_app. simpl length. lia. }
  pose proof (auxv_small _ _ _ _ _ Hargs). pose proof (strings_count argv). pose proof (strings_count envp).
  assert (forall l, 0 <= strings_size l) as Hnn by (intros l; unfold strings_size; lia).
  pose proof (Hnn [execfn]). pose proof (Hnn [platform]). pose proof (Hnn envp). pose proof (Hnn argv).
  pose proof (proj1 Hi) as Hcur. change kMaxStackData with 262144 in Hcur.
  destruct (table_phase st table Hi Hov) as [Hwrite Hfits]; [lia|].
  set (tb := u32 (u64 _)) in *. set (sp := Z.land _ _) in *. clearbody sp tb.
  assert (kMaxStackData < stack_top -> area_writable stack_top m -> stack_need argv envp auxv execfn + 15 <= kMaxStackData ->
    accessible (memory st) sp tb kPageWrite = true /\ u32 (stack_top - sp) <= kMaxStackData /\ sp <> 0) as Hlive.
  { intros Ht Hw Hn. destruct Hfits as (? & ? & ?); [unfold stack_need in Hn; lia|by eapply area_same_pages|auto]. }
  destruct (Z.ltb_spec kMaxStackData (u32 (stack_top - sp))); simpl orb; cbv iota.
  { exists 0, (memory st). split; [done|]. split; [apply Hi|]. split; [apply Hsp|]. split; [by left|].
    intros Ht Hw Hn. destruct (Hlive Ht Hw Hn) as (_ & ? & _). lia. }
  destruct (accessible (memory st) sp tb kPageWrite) eqn:Eacc; simpl negb; cbv iota.
  2: { exists 0, (memory st). split; [done|]. split; [apply Hi|]. split; [apply Hsp|]. split; [by left|].
    intros Ht Hw Hn. by destruct (Hlive Ht Hw Hn) as (? & _ & _). }
  destruct (Hwrite eq_refl) as (m' & E & Hal & Hlo & Hhi & Etb & Hch & Hh); [lia|]. rewrite E, exec_ret_bind.
  assert (0 <= tb) by (rewrite Etb; apply size_nonneg).
  assert (forall a bs, cursor st <= a -> holds (memory st) a bs -> holds m' a bs) as Hkeep.
  { intros a bs Ha Hhb. eapply holds_stable; [exact Hhb|exact Hch|left; lia]. }
  assert (forall addrs l, Forall (fun a => cursor st <= a) addrs -> Forall2 (holds_string (memory st)) addrs l -> Forall2 (holds_string m') addrs l) as Hkeeps.
  { intros addrs l Ha Hf. induction Hf as [|a x addrs l Hx Hf IH]; [constructor|].
    apply Forall_cons in Ha as [Ha1 Ha2]. constructor; [by apply Hkeep|by apply IH]. }
  exists sp, m'. split; [done|]. split; [by eapply changes_within_wf; [|apply Hi]|].
  split; [destruct Hch as (_ & -> & _); apply Hsp|]. split.
  - right. split; [done|]. split; [lia|]. split.
    + destruct Hg as (_ & Hcl & Hg). cbn [cursor memory] in Hg, Hcl. eapply changes_within_trans; [exact Hg|exact Hch|lia..].
    + exists args, envs, r, p, e. split; [done|]. split_and!; [by apply Hkeeps..|by apply Hkeep|by apply Hkeep|by apply Hkeep].
  - intros Ht Hw Hn. apply (Hlive Ht Hw Hn).
Qed.
End Build.

(** [build_initial_stack] lays out the stack a new process expects.  On a
    well-formed memory it always returns without faulting; a non-zero [sp] is
    16-byte aligned and at most 256 KiB below the top, holds argc, the argv and
    envp pointers with their null terminators and the auxiliary vector ending in
    AT_RANDOM, AT_PLATFORM, AT_EXECFN and AT_NULL, each pointer leads to the
    string (or the random bytes) it stands for, and nothing outside [sp ..
    stack_top) changes. *)
Theorem initial_stack_layout m stack_top argv envp auxv execfn random :
  mem_wf m -> kMaxStackData <= stack_top < 2 ^ 32 -> stack_args_ok argv envp auxv execfn random ->
  exists sp m', build_initial_stack m stack_top argv envp auxv execfn random = Ret (sp, m') /\ mem_wf m' /\
    (sp = 0 \/ (sp mod 16 = 0 /\ stack_top - kMaxStackData <= sp <= stack_top /\ changes_within m m' sp stack_top /\
                stack_built m' sp argv envp auxv execfn random)).
Proof.
  intros Hwf Htop Hargs. destruct (build_initial_stack_cases m stack_top argv envp auxv execfn random)
    as (sp & m' & E & Hm & _ & Hs & _); [done..|]. by exists sp, m'.
Qed.

(** [build_initial_stack] succeeds whenever the data fits: if the 256 KiB below
    the stack top are writable and the strings, the random bytes, the table and
    the alignment slack take no more than that, it does not return 0. *)
Theorem initial_stack_fits m stack_top argv envp auxv execfn random :
  mem_wf m -> kMaxStackData < stack_top < 2 ^ 32 -> stack_args_ok argv envp auxv execfn random ->
  area_writable stack_top m -> stack_need argv envp auxv execfn + 15 <= kMaxStackData ->
  exists sp m', build_initial_stack m stack_top argv envp auxv execfn random = Ret (sp, m') /\ sp <> 0.
Proof.
  intros Hwf Htop Hargs Hw Hn. destruct (build_initial_stack_cases m stack_top argv envp auxv execfn random)
    as (sp & m' & E & _ & _ & _ & Hl); [done|lia|done|]. exists sp, m'. split; [done|]. apply Hl; [lia|done..].
Qed.

(** 256 KiB mapped below 0x80000. *)
Definition stack_memory : GuestMemory :=
  remapped (GuestMemory_init true) 0x40000 0x40000 (flags_from_prot 3) (host_prot 3) (fun _ => 0).

Lemma stack_memory_wf : mem_wf stack_memory.
Proof. apply remapped_wf; [intros i; left; split; reflexivity|apply page_ok_prot]. Qed.

Definition sample_aux : list AuxEntry := [ {| type := 6; value := 4096 |} ].

Lemma sample_stack_args : stack_args_ok [[97]; [98; 99]] [[72; 61; 49]] sample_aux [47; 120] None.
Proof. split; try (repeat constructor; done); done. Qed.

Lemma initial_stack_layout_witness :
  exists sp m', build_initial_stack stack_memory 0x80000 [[97]; [98; 99]] [[72; 61; 49]] sample_aux [47; 120] None = Ret (sp, m') /\ mem_wf m' /\
    (sp = 0 \/ (sp mod 16 = 0 /\ 0x80000 - kMaxStackData <= sp <= 0x80000 /\ changes_within stack_memory m' sp 0x80000 /\
                stack_built m' sp [[97]; [98; 99]] [[72; 61; 49]] sample_aux [47; 120] None)).
Proof.
  apply (initial_stack_layout stack_memory 0x80000 [[97]; [98; 99]] [[72; 61; 49]] sample_aux [47; 120] None stack_memory_wf);
    [unfold kMaxStackData; lia|exact sample_stack_args].
Defined.

Lemma initial_stack_fits_witness :
  exists sp m', build_initial_stack stack_memory 0x80000 [[97]; [98; 99]] [[72; 61; 49]] sample_aux [47; 120] None = Ret (sp, m') /\ sp <> 0.
Proof.
  apply (initial_stack_fits stack_memory 0x80000 [[97]; [98; 99]] [[72; 61; 49]] sample_aux [47; 120] None stack_memory_wf);
    [unfold kMaxStackData; lia|exact sample_stack_args|vm_compute; reflexivity|unfold stack_need, strings_size, kMaxStackData; simpl; lia].
Defined.

Example sample_stack_words :
  match build_initial_stack stack_memory 0x80000 [[97]; [98; 99]] [[72; 61; 49]] sample_aux [47; 120] None with
  | Ret (sp, m) => sp = 0x7ffa0 /\ map (bytes_ m) [sp; sp + 4; sp + 5; 0x7fffd; 0x7fffe; 0x7ffff] = [2; 0xf3; 0xff; 47; 120; 0]
  | _ => False
  end.
Proof. vm_compute. auto. Qed.
