(* ===== verification/ElfDynamic.v ===== *)
(** * Headers and dynamic segment of an ELF32 file

    [core/src/elf_symbols.cpp] and [core/src/elf_fixups.cpp] start with the same
    checks of the ELF header and the program headers of an untrusted file, written
    out in both.  They are modelled once, for a report type [R] with its two
    helpers [skipped] and [error]. *)

From stdpp Require Import numbers strings list.
From S2P Require Import Prelude Bytes ElfLoader.
Local Open Scope Z_scope.
Local Open Scope zb_scope.
Local Ltac Zify.zify_post_hook ::= Z.div_mod_to_equations.

Definition kMaxDynamicSize : Z := 64 * 1024.
Definition kMaxFileSize : Z := 512 * 1024 * 1024.
Definition PT_DYNAMIC : Z := 2.
Definition sizeof_Dyn : Z := 8.

(** What opening, examining and reading the file gave; the strings are [strerror]. *)
Inductive input :=
| OpenError (strerror : string)
| StatError (strerror : string)
| ReadError (regular : bool) (st_size : Z) (strerror : string)
| Contents (regular : bool) (bytes : list Z).

Record FileRange := { offset : Z; length_ : Z }.

#[global] Instance FileRange_eq_dec : EqDecision FileRange.
Proof. solve_decision. Defined.

(** Both operands are at most 64 bits, the result is exact. *)
Definition range_fits (off sz total : Z) : bool := (off <=? total) && (sz <=? total - off).

Record Elf32_Dyn := { d_tag : Z; d_val : Z }.

(** [object_at<Elf32_Dyn>]; the tag is signed. *)
Definition read_dyn (bytes : list Z) (off : Z) : exec Elf32_Dyn :=
  tag ← read_u32 bytes off; v ← read_u32 bytes (off + 4); Ret {| d_tag := s32 tag; d_val := v |}.

Section Headers.
Context {R : Type} (skipped error : string -> R).

(** The magic number, the header and its checks. *)
Definition check_header (bytes : list Z) : early R Elf32_Ehdr :=
  if size bytes <? 4 then Ret (inl (skipped "not an ELF file"))
  else
    let? magic := lift (read_bytes bytes 0 4) in
    let? _ := stop_if (negb (bool_decide (magic = [0x7f; 0x45; 0x4c; 0x46]))) (skipped "not an ELF file") in
    let? _ := stop_if (size bytes <? sizeof_Ehdr) (error "truncated ELF header") in
    let? eh := lift (read_ehdr bytes) in
    let? _ := stop_if (negb (bool_decide (e_ident eh !! 4%nat = Some 1)) || negb (bool_decide (e_ident eh !! 5%nat = Some 1)))
                (skipped "not a little-endian ELF32 file") in
    let? _ := stop_if (negb (e_machine eh =? EM_ARM)) (skipped "not an ARM ELF file") in
    let? _ := stop_if (negb (bool_decide (e_ident eh !! 6%nat = Some EV_CURRENT)) || negb (e_version eh =? EV_CURRENT) ||
                       negb (e_phentsize eh =? sizeof_Phdr) || (e_phnum eh =? 0) || (1024 <? e_phnum eh))
                (error "invalid ELF header") in
    let? _ := stop_if (negb (range_fits (e_phoff eh) (e_phnum eh * sizeof_Phdr) (size bytes))) (error "truncated program headers") in
    Ret (inr eh).

(** The loop over the [n] program headers at [off]: the loadable segments and the
    dynamic segment seen so far. *)
Fixpoint collect_segments (bytes : list Z) (off : Z) (n : nat) (loads : list Elf32_Phdr) (dynamic : option FileRange)
    : early R (list Elf32_Phdr * option FileRange) :=
  match n with
  | O => Ret (inr (loads, dynamic))
  | S n' =>
      let? p := lift (read_phdr bytes off) in
      if p_type p =? PT_LOAD then
        let? _ := stop_if (negb (range_fits (p_offset p) (p_filesz p) (size bytes))) (error "PT_LOAD exceeds the file") in
        collect_segments bytes (off + sizeof_Phdr) n' (loads ++ [p]) dynamic
      else if p_type p =? PT_DYNAMIC then
        let? _ := stop_if (bool_decide (is_Some dynamic)) (error "multiple PT_DYNAMIC segments") in
        let? _ := stop_if ((p_filesz p =? 0) || (kMaxDynamicSize <? p_filesz p) || negb (p_filesz p mod sizeof_Dyn =? 0) ||
                           negb (range_fits (p_offset p) (p_filesz p) (size bytes))) (error "invalid PT_DYNAMIC segment") in
        collect_segments bytes (off + sizeof_Phdr) n' loads (Some {| offset := p_offset p; length_ := p_filesz p |})
      else collect_segments bytes (off + sizeof_Phdr) n' loads dynamic
  end.

(** Everything up to the dynamic table. *)
Definition find_dynamic (bytes : list Z) : early R (list Elf32_Phdr * FileRange) :=
  let? eh := check_header bytes in
  let? r := collect_segments bytes (e_phoff eh) (Z.to_nat (e_phnum eh)) [] None in
  match r with
  | (loads, None) => Ret (inl (skipped "no PT_DYNAMIC segment"))
  | (loads, Some d) => Ret (inr (loads, d))
  end.

End Headers.

(** ** Facts *)

Lemma range_fits_spec off sz total : range_fits off sz total = true <-> off <= total /\ off + sz <= total.
Proof. unfold range_fits. rewrite andb_true_iff, !Z.leb_le. lia. Qed.

(** A loadable segment whose file bytes are in the file. *)
Definition load_fits (bytes : list Z) (p : Elf32_Phdr) : Prop :=
  phdr_typed p /\ p_offset p + p_filesz p <= size bytes.

(** A dynamic segment of whole entries inside the file. *)
Definition dynamic_fits (bytes : list Z) (d : FileRange) : Prop :=
  0 <= offset d /\ 0 < length_ d <= kMaxDynamicSize /\ length_ d mod 8 = 0 /\ offset d + length_ d <= size bytes.

Lemma read_dyn_in bytes off :
  bytes_ok bytes -> 0 <= off -> off + 8 <= size bytes ->
  exists d, read_dyn bytes off = Ret d /\ - 2 ^ 31 <= d_tag d < 2 ^ 31 /\ 0 <= d_val d < 2 ^ 32.
Proof.
  intros Hok Ho Hs. unfold read_dyn.
  destruct (read_u32_in bytes Hok off) as (t & -> & Ht); [lia..|]. rewrite exec_ret_bind.
  destruct (read_u32_in bytes Hok (off + 4)) as (v & -> & Hv); [lia..|]. rewrite exec_ret_bind.
  eexists. split; [done|]. split; [|done]. apply (swrap_range 32); lia.
Qed.

Section HeaderFacts.
Context {R : Type} (skipped error : string -> R).
Context (Q : R -> Prop) (Hskip : forall msg, Q (skipped msg)) (Herr : forall msg, Q (error msg)).

Lemma check_header_returns bytes :
  bytes_ok bytes ->
  returns Q (check_header skipped error bytes) (fun eh => ehdr_typed eh /\ e_phoff eh + e_phnum eh * 32 <= size bytes).
Proof.
  intros Hok. unfold check_header. destruct (Z.ltb_spec (size bytes) 4); [auto using returns_stopped|].
  apply (returns_bind _ _ _ (fun _ => True)).
  { apply returns_lift. destruct (read_bytes_in bytes 0 4) as (bs & E & _); [lia..|]. by exists bs. }
  intros magic _. apply (returns_bind _ _ _ (fun _ => True)); [by apply returns_stop|]. intros _ _.
  apply (returns_bind _ _ _ (fun _ => 52 <= size bytes)); [apply returns_stop; [done|]; change sizeof_Ehdr with 52; lia|]. intros _ Hs.
  apply (returns_bind _ _ _ ehdr_typed); [apply returns_lift, read_ehdr_in; done|]. intros eh Heh.
  do 3 (apply (returns_bind _ _ _ (fun _ => True)); [by apply returns_stop|]; intros _ _).
  apply (returns_bind _ _ _ (fun _ => e_phoff eh + e_phnum eh * 32 <= size bytes)).
  { apply returns_stop; [done|]. intros H1%negb_false_iff%range_fits_spec. change sizeof_Phdr with 32 in H1. lia. }
  intros _ Hp. apply returns_ret. done.
Qed.

Lemma collect_segments_returns bytes off n loads dynamic :
  bytes_ok bytes -> 0 <= off -> off + Z.of_nat n * 32 <= size bytes ->
  Forall (load_fits bytes) loads -> (forall d, dynamic = Some d -> dynamic_fits bytes d) ->
  returns Q (collect_segments error bytes off n loads dynamic)
    (fun r => Forall (load_fits bytes) r.1 /\ forall d, r.2 = Some d -> dynamic_fits bytes d).
Proof.
  intros Hok. revert off loads dynamic. induction n as [|n IH]; intros off loads dynamic Ho Hs Hl Hd; cbn [collect_segments];
    [by apply returns_ret|].
  apply (returns_bind _ _ _ phdr_typed).
  { apply returns_lift, read_phdr_in; [done|lia|change sizeof_Phdr with 32; lia]. }
  intros p Hp. change sizeof_Phdr with 32. case_match.
  - apply (returns_bind _ _ _ (fun _ => p_offset p + p_filesz p <= size bytes)).
    { apply returns_stop; [done|]. intros H1%negb_false_iff%range_fits_spec. lia. }
    intros _ Hf. apply IH; [lia..| |done]. apply Forall_app. split; [done|]. apply Forall_singleton. by split.
  - case_match; [|apply IH; [lia..|done|done]].
    apply (returns_bind _ _ _ (fun _ => True)); [by apply returns_stop|]. intros _ _.
    apply (returns_bind _ _ _ (fun _ => dynamic_fits bytes {| offset := p_offset p; length_ := p_filesz p |})).
    { apply returns_stop; [done|]. rewrite !orb_false_iff, Z.eqb_neq, Z.ltb_ge, !negb_false_iff, Z.eqb_eq, range_fits_spec.
      change sizeof_Dyn with 8. unfold dynamic_fits. cbn. destruct Hp as (_ & ? & _ & ? & _). lia. }
    intros _ Hf. apply IH; [lia..|done|]. by intros d [= <-].
Qed.

Lemma find_dynamic_returns bytes :
  bytes_ok bytes ->
  returns Q (find_dynamic skipped error bytes) (fun r => Forall (load_fits bytes) r.1 /\ dynamic_fits bytes r.2).
Proof.
  intros Hok. unfold find_dynamic. eapply returns_bind; [by apply check_header_returns|]. intros eh ((_ & He2 & He3) & Hp).
  eapply returns_bind; [apply collect_segments_returns; [done|lia|lia|done|done]|].
  intros [loads [d|]] [H1 H2]; cbv beta iota; [|auto using returns_stopped]. apply returns_ret. split; [done|]. by apply H2.
Qed.

End HeaderFacts.

(** ** What accepted headers look like *)

Section Accepted.
Context {R : Type} (skipped error : string -> R).

Lemma check_header_inr bytes eh :
  check_header skipped error bytes = Ret (inr eh) ->
  sizeof_Ehdr <= size bytes /\ read_ehdr bytes = Ret eh /\ read_bytes bytes 0 4 = Ret [0x7f; 0x45; 0x4c; 0x46] /\
  e_ident eh !! 4%nat = Some 1 /\ e_ident eh !! 5%nat = Some 1 /\ e_machine eh = EM_ARM /\
  e_phentsize eh = sizeof_Phdr /\ e_phnum eh <> 0 /\ range_fits (e_phoff eh) (e_phnum eh * sizeof_Phdr) (size bytes) = true.
Proof.
  unfold check_header. case_match; [done|]. intros Hrest.
  apply early_bind_Ret in Hrest as (magic & Hm & Hrest). apply lift_inr in Hm.
  apply early_bind_Ret in Hrest as (? & Hmagic%stop_if_inr & Hrest). apply early_bind_Ret in Hrest as (? & Hs%stop_if_inr & Hrest).
  apply early_bind_Ret in Hrest as (eh' & Heh & Hrest). apply lift_inr in Heh.
  apply early_bind_Ret in Hrest as (? & H1%stop_if_inr & Hrest). apply early_bind_Ret in Hrest as (? & H2%stop_if_inr & Hrest).
  apply early_bind_Ret in Hrest as (? & H3%stop_if_inr & Hrest). apply early_bind_Ret in Hrest as (? & H4%stop_if_inr & Hrest).
  injection Hrest as ->. apply orb_false_iff in H1 as [H1a%negb_false_iff H1b%negb_false_iff].
  apply negb_false_iff, Z.eqb_eq in H2. rewrite !orb_false_iff, !negb_false_iff, Z.eqb_neq, !Z.eqb_eq in H3.
  apply negb_false_iff, bool_decide_eq_true in Hmagic. apply bool_decide_eq_true in H1a, H1b. apply negb_false_iff in H4.
  apply Z.ltb_ge in Hs. subst magic. split_and!; try done; apply H3.
Qed.

(** A second PT_DYNAMIC is refused. *)
Lemma collect_segments_keeps bytes off n loads d0 loads' o :
  collect_segments error bytes off n loads (Some d0) = Ret (inr (loads', o)) -> o = Some d0.
Proof.
  revert off loads. induction n as [|n IH]; intros off loads; cbn [collect_segments]; [by intros [= _ <-]|].
  intros Hrest. apply early_bind_Ret in Hrest as (p & _ & Hrest).
  destruct (p_type p =? PT_LOAD); [apply early_bind_Ret in Hrest as (? & _ & Hrest); by eapply IH|].
  destruct (p_type p =? PT_DYNAMIC); [|by eapply IH].
  apply early_bind_Ret in Hrest as (? & Hn%stop_if_inr & _). apply bool_decide_eq_false in Hn. by destruct Hn.
Qed.

(** The one PT_DYNAMIC segment of the table. *)
Lemma collect_segments_dynamic bytes off n loads dynamic loads' d :
  collect_segments error bytes off n loads dynamic = Ret (inr (loads', Some d)) ->
  exists ps, read_phdrs bytes off n = Ret ps /\
    (dynamic = Some d \/
     exists ps1 p ps2, ps = ps1 ++ p :: ps2 /\ Forall (fun q => p_type q <> PT_DYNAMIC) ps1 /\ p_type p = PT_DYNAMIC /\
       d = {| offset := p_offset p; length_ := p_filesz p |}).
Proof.
  revert off loads dynamic. induction n as [|n IH]; intros off loads dynamic; cbn [collect_segments read_phdrs].
  { intros [= _ ->]. exists []. auto. }
  intros Hrest. apply early_bind_Ret in Hrest as (p & Hp & Hrest). apply lift_inr in Hp. rewrite Hp, exec_ret_bind.
  assert (forall loads1 dynamic1, collect_segments error bytes (off + sizeof_Phdr) n loads1 dynamic1 = Ret (inr (loads', Some d)) ->
    (dynamic1 = Some d -> dynamic = Some d \/ (p_type p = PT_DYNAMIC /\ d = {| offset := p_offset p; length_ := p_filesz p |})) ->
    (dynamic1 <> Some d -> p_type p <> PT_DYNAMIC) ->
    exists ps, (ps0 ← read_phdrs bytes (off + sizeof_Phdr) n; Ret (p :: ps0)) = Ret ps /\
    (dynamic = Some d \/
     exists ps1 p ps2, ps = ps1 ++ p :: ps2 /\ Forall (fun q => p_type q <> PT_DYNAMIC) ps1 /\ p_type p = PT_DYNAMIC /\
       d = {| offset := p_offset p; length_ := p_filesz p |})) as Hrec.
  { intros loads1 dynamic1 Hc Hsame Hnot. apply IH in Hc as (ps & Eps & Hps). rewrite Eps, exec_ret_bind.
    exists (p :: ps). split; [done|].
    destruct (decide (dynamic1 = Some d)) as [E|E].
    - destruct (Hsame E) as [?|[Ht Hd]]; [by left|]. right. exists [], p, ps. split_and!; [done|constructor|done|done].
    - destruct Hps as [?|(ps1 & q & ps2 & -> & Hf & Ht & Hd)]; [done|]. right. exists (p :: ps1), q, ps2.
      split_and!; [done|constructor; [by apply Hnot|done]|done|done]. }
  destruct (Z.eqb_spec (p_type p) PT_LOAD) as [Hl|Hl].
  - apply early_bind_Ret in Hrest as (? & _ & Hrest). eapply Hrec; [exact Hrest|by left|by rewrite Hl].
  - destruct (Z.eqb_spec (p_type p) PT_DYNAMIC) as [Hd|Hd].
    + apply early_bind_Ret in Hrest as (? & _ & Hrest). apply early_bind_Ret in Hrest as (? & _ & Hrest).
      pose proof (collect_segments_keeps _ _ _ _ _ _ _ Hrest) as [= ->]. eapply Hrec; [exact Hrest|by right|done].
    + eapply Hrec; [exact Hrest|by left|done].
Qed.

Lemma find_dynamic_inr bytes loads d :
  find_dynamic skipped error bytes = Ret (inr (loads, d)) ->
  exists eh ps1 p ps2, check_header skipped error bytes = Ret (inr eh) /\
    read_phdrs bytes (e_phoff eh) (Z.to_nat (e_phnum eh)) = Ret (ps1 ++ p :: ps2) /\
    Forall (fun q => p_type q <> PT_DYNAMIC) ps1 /\ p_type p = PT_DYNAMIC /\ d = {| offset := p_offset p; length_ := p_filesz p |}.
Proof.
  unfold find_dynamic. intros Hrest. apply early_bind_Ret in Hrest as (eh & Heh & Hrest).
  apply early_bind_Ret in Hrest as ([loads' [d'|]] & Hc & Hrest); [|done]. injection Hrest as -> ->.
  apply collect_segments_dynamic in Hc as (ps & Eps & [?|(ps1 & p & ps2 & -> & ?)]); [done|].
  exists eh, ps1, p, ps2. done.
Qed.

End Accepted.
