(* ===== verification/ElfSymbols.v ===== *)
(** * JNI exports of an untrusted ELF file

    [core/src/elf_symbols.cpp] lists the JNI functions an application library
    exports, from the dynamic symbol table, without using section headers.  The
    size of that table is not stored anywhere: it is recovered from a hash table. *)

From Stdlib Require Import Ascii.
From stdpp Require Import numbers strings list.
From S2P Require Import Prelude JniNames Bytes ElfLoader ElfDynamic.
Local Open Scope Z_scope.
Local Open Scope zb_scope.
Local Ltac Zify.zify_post_hook ::= Z.div_mod_to_equations.

Definition kMaxSymbols : Z := Z.shiftl 1 20.

Inductive ElfSymbolStatus := Ok | Skipped | Error.

#[global] Instance ElfSymbolStatus_eq_dec : EqDecision ElfSymbolStatus.
Proof. solve_decision. Defined.

Record ElfSymbolReport := { status : ElfSymbolStatus; exports : list (list ascii); message : string }.

Definition skipped (msg : string) : ElfSymbolReport := {| status := Skipped; exports := []; message := msg |}.
Definition error (msg : string) : ElfSymbolReport := {| status := Error; exports := []; message := msg |}.

(** ** Address and word access *)

Fixpoint map_address (loads : list Elf32_Phdr) (address file_size : Z) : option FileRange :=
  match loads with
  | [] => None
  | load :: rest =>
      let begin_ := p_vaddr load in
      let end_ := begin_ + p_filesz load in
      if (address <? begin_) || (end_ <=? address) then map_address rest address file_size
      else
        let off := p_offset load + (address - begin_) in
        let available := end_ - address in
        if negb (range_fits off available file_size) then None else Some {| offset := off; length_ := available |}
  end.

Definition word_at (bytes : list Z) (range : FileRange) (word : Z) : exec (option Z) :=
  let relative := u64 (word * 4) in
  if negb (range_fits relative 4 (length_ range)) then Ret None
  else Some <$> read_u32 bytes (offset range + relative).

(** Stops with [msg] when the word is outside the range. *)
Definition word_or (bytes : list Z) (range : FileRange) (word : Z) (msg : string) : early string Z :=
  let? w := lift (word_at bytes range word) in
  match w with None => Ret (inl msg) | Some v => Ret (inr v) end.

(** ** Symbol counts *)

Definition sysv_symbol_count (bytes : list Z) (hash : FileRange) : early string Z :=
  let? buckets := word_or bytes hash 0 "truncated DT_HASH header" in
  let? chains := word_or bytes hash 1 "truncated DT_HASH header" in
  let? _ := stop_if (kMaxSymbols <? chains) "DT_HASH symbol count exceeds the limit"%string in
  let words := 2 + buckets + chains in
  let? _ := stop_if (((2 ^ 64 - 1) / 4 <? words) || negb (range_fits 0 (words * 4) (length_ hash))) "truncated DT_HASH table"%string in
  Ret (inr chains).

(** The bucket loop, [n] buckets from index [i] on: the highest chain start. *)
Fixpoint gnu_buckets (bytes : list Z) (hash : FileRange) (bucket_word symbol_offset i : Z) (n : nat) (start : Z)
    : early string Z :=
  match n with
  | O => Ret (inr start)
  | S n' =>
      let? symbol := word_or bytes hash (bucket_word + i) "truncated DT_GNU_HASH bucket" in
      if symbol =? 0 then gnu_buckets bytes hash bucket_word symbol_offset (i + 1) n' start
      else
        let? _ := stop_if ((symbol <? symbol_offset) || (kMaxSymbols <=? symbol)) "invalid DT_GNU_HASH bucket"%string in
        gnu_buckets bytes hash bucket_word symbol_offset (i + 1) n' (Z.max start symbol)
  end.

(** The chain loop; it visits at most [kMaxSymbols - start] symbols. *)
Fixpoint gnu_chain (fuel : nat) (bytes : list Z) (hash : FileRange) (chain_word symbol_offset symbol : Z)
    : early string Z :=
  match fuel with
  | O => Ret (inl "DT_GNU_HASH chain exceeds the symbol limit"%string)
  | S fuel' =>
      let? chain := word_or bytes hash (chain_word + u32 (symbol - symbol_offset)) "unterminated DT_GNU_HASH chain" in
      if negb (Z.land chain 1 =? 0) then Ret (inr (u32 (symbol + 1)))
      else
        let symbol := u32 (symbol + 1) in
        if kMaxSymbols <=? symbol then Ret (inl "DT_GNU_HASH chain exceeds the symbol limit"%string)
        else gnu_chain fuel' bytes hash chain_word symbol_offset symbol
  end.

Definition gnu_symbol_count (bytes : list Z) (hash : FileRange) : early string Z :=
  let? buckets := word_or bytes hash 0 "truncated DT_GNU_HASH header" in
  let? symbol_offset := word_or bytes hash 1 "truncated DT_GNU_HASH header" in
  let? bloom_size := word_or bytes hash 2 "truncated DT_GNU_HASH header" in
  let? _ := word_or bytes hash 3 "truncated DT_GNU_HASH header" in
  let? _ := stop_if ((kMaxSymbols <? buckets) || (kMaxSymbols <? symbol_offset) || (bloom_size =? 0) || (kMaxSymbols <? bloom_size))
              "invalid DT_GNU_HASH dimensions"%string in
  let bucket_word := 4 + bloom_size in
  let chain_word := bucket_word + buckets in
  let? _ := stop_if (length_ hash / 4 <? chain_word) "truncated DT_GNU_HASH buckets"%string in
  let? start := gnu_buckets bytes hash bucket_word symbol_offset 0 (Z.to_nat buckets) 0 in
  if start =? 0 then Ret (inr symbol_offset)
  else gnu_chain (Z.to_nat (kMaxSymbols - start)) bytes hash chain_word symbol_offset start.

(** ** The dynamic table *)

Definition DT_NULL : Z := 0.
Definition DT_HASH : Z := 4.
Definition DT_STRTAB : Z := 5.
Definition DT_SYMTAB : Z := 6.
Definition DT_STRSZ : Z := 10.
Definition DT_SYMENT : Z := 11.
Definition DT_GNU_HASH : Z := 0x6ffffef5.

(** Each [has_x] flag with its value. *)
Record dynamic_info := {
  strtab : option Z; strsz : option Z; symtab : option Z; syment : option Z; sysv_hash : option Z; gnu_hash : option Z;
}.

Definition no_info : dynamic_info :=
  {| strtab := None; strsz := None; symtab := None; syment := None; sysv_hash := None; gnu_hash := None |}.

Definition note_entry (i : dynamic_info) (tag v : Z) : dynamic_info :=
  if tag =? DT_STRTAB then {| strtab := Some v; strsz := strsz i; symtab := symtab i; syment := syment i; sysv_hash := sysv_hash i; gnu_hash := gnu_hash i |}
  else if tag =? DT_STRSZ then {| strtab := strtab i; strsz := Some v; symtab := symtab i; syment := syment i; sysv_hash := sysv_hash i; gnu_hash := gnu_hash i |}
  else if tag =? DT_SYMTAB then {| strtab := strtab i; strsz := strsz i; symtab := Some v; syment := syment i; sysv_hash := sysv_hash i; gnu_hash := gnu_hash i |}
  else if tag =? DT_SYMENT then {| strtab := strtab i; strsz := strsz i; symtab := symtab i; syment := Some v; sysv_hash := sysv_hash i; gnu_hash := gnu_hash i |}
  else if tag =? DT_HASH then {| strtab := strtab i; strsz := strsz i; symtab := symtab i; syment := syment i; sysv_hash := Some v; gnu_hash := gnu_hash i |}
  else if tag =? DT_GNU_HASH then {| strtab := strtab i; strsz := strsz i; symtab := symtab i; syment := syment i; sysv_hash := sysv_hash i; gnu_hash := Some v |}
  else i.

(** [n] entries from [off] on; [None] without a terminator. *)
Fixpoint read_dynamic (bytes : list Z) (off : Z) (n : nat) (i : dynamic_info) : exec (option dynamic_info) :=
  match n with
  | O => Ret None
  | S n' =>
      d ← read_dyn bytes off;
      if d_tag d =? DT_NULL then Ret (Some i)
      else read_dynamic bytes (off + sizeof_Dyn) n' (note_entry i (d_tag d) (d_val d))
  end.

(** ** Symbols *)

Record Elf32_Sym := { st_name : Z; st_info : Z; st_other : Z; st_shndx : Z }.

Definition read_sym (bytes : list Z) (off : Z) : exec Elf32_Sym :=
  name ← read_u32 bytes off; info ← read_u8 bytes (off + 12); other ← read_u8 bytes (off + 13); shndx ← read_u16 bytes (off + 14);
  Ret {| st_name := name; st_info := info; st_other := other; st_shndx := shndx |}.

(** Defined, global or weak, a function or untyped, default or protected. *)
Definition visible_symbol (s : Elf32_Sym) : bool :=
  let visibility := Z.land (st_other s) 0x3 in
  let bind_ := Z.shiftr (st_info s) 4 in
  let type_ := Z.land (st_info s) 0xf in
  negb ((st_shndx s =? 0) || (negb (bind_ =? 1) && negb (bind_ =? 2)) || (negb (type_ =? 2) && negb (type_ =? 0)) ||
        (negb (visibility =? 0) && negb (visibility =? 3))).

(** The bytes before the first zero, if there is one. *)
Fixpoint c_string (bs : list Z) : option (list ascii) :=
  match bs with
  | [] => None
  | b :: bs' => if b =? 0 then Some [] else cons (Mangle.byte_char b) <$> c_string bs'
  end.

Definition wanted (name : list ascii) : bool :=
  bool_decide (name = lit "JNI_OnLoad") ||
  (bool_decide (take 5 name = lit "Java_") && bool_decide (is_Some (Mangle.decode_jni_export name))).

(** The symbol loop, [n] symbols from [off] on; [seen] holds exactly the names of [out]. *)
Fixpoint scan_symbols (bytes : list Z) (strings : FileRange) (off : Z) (n : nat) (out : list (list ascii))
    : early ElfSymbolReport (list (list ascii)) :=
  match n with
  | O => Ret (inr out)
  | S n' =>
      let? symbol := lift (read_sym bytes off) in
      let? _ := stop_if (length_ strings <=? st_name symbol) (error "dynamic symbol name is outside DT_STRTAB") in
      let? tail := lift (read_bytes bytes (offset strings + st_name symbol) (length_ strings - st_name symbol)) in
      match c_string tail with
      | None => Ret (inl (error "unterminated dynamic symbol name"))
      | Some name =>
          scan_symbols bytes strings (off + 16) n'
            (if visible_symbol symbol && wanted name && negb (bool_decide (name ∈ out)) then out ++ [name] else out)
      end
  end.

(** ** scan_elf32_jni_exports *)

(** The symbol count from whichever hash table there is. *)
Definition count_symbols (bytes : list Z) (loads : list Elf32_Phdr) (i : dynamic_info) : early ElfSymbolReport Z :=
  let counted (address : Z) (unmapped : string) (count : FileRange -> early string Z) : early ElfSymbolReport Z :=
    match map_address loads address (size bytes) with
    | None => Ret (inl (error unmapped))
    | Some hash =>
        match count hash with
        | Ret (inl msg) => Ret (inl (error msg))
        | Ret (inr n) => Ret (inr n)
        | Aborted => Aborted
        | Undefined => Undefined
        end
    end in
  match sysv_hash i, gnu_hash i with
  | Some a, _ => counted a "DT_HASH is not file-backed"%string (sysv_symbol_count bytes)
  | None, Some a => counted a "DT_GNU_HASH is not file-backed"%string (gnu_symbol_count bytes)
  | None, None => Ret (inl (error "dynamic symbol table has no supported hash table"))
  end.

(** From the dynamic information on. *)
Definition scan_table (bytes : list Z) (loads : list Elf32_Phdr) (i : dynamic_info) : early ElfSymbolReport ElfSymbolReport :=
  match symtab i with
  | None => Ret (inl {| status := Ok; exports := []; message := "no dynamic symbol table" |})
  | Some symtab_address =>
      match strtab i, strsz i, syment i with
      | Some strtab_address, Some strtab_size, Some symbol_size =>
          let? _ := stop_if ((strtab_size =? 0) || negb (symbol_size =? 16)) (error "incomplete dynamic symbol metadata") in
          match map_address loads strtab_address (size bytes) with
          | None => Ret (inl (error "DT_STRTAB is not fully file-backed"))
          | Some strings =>
              let? _ := stop_if (length_ strings <? strtab_size) (error "DT_STRTAB is not fully file-backed") in
              let strings := {| offset := offset strings; length_ := strtab_size |} in
              match map_address loads symtab_address (size bytes) with
              | None => Ret (inl (error "DT_SYMTAB is not file-backed"))
              | Some symbols =>
                  let? symbol_count := count_symbols bytes loads i in
                  let? _ := stop_if (negb (range_fits 0 (symbol_count * 16) (length_ symbols))) (error "truncated dynamic symbol table") in
                  let? out := scan_symbols bytes strings (offset symbols) (Z.to_nat symbol_count) [] in
                  Ret (inr {| status := Ok; exports := out; message := "ok" |})
              end
          end
      | _, _, _ => Ret (inl (error "incomplete dynamic symbol metadata"))
      end
  end.

Definition scan_bytes (bytes : list Z) : early ElfSymbolReport ElfSymbolReport :=
  let? r := find_dynamic skipped error bytes in
  let '(loads, dynamic) := r in
  let? i := lift (read_dynamic bytes (offset dynamic) (Z.to_nat (length_ dynamic / sizeof_Dyn)) no_info) in
  match i with
  | None => Ret (inl (error "unterminated dynamic table"))
  | Some i => scan_table bytes loads i
  end.

Definition scan_elf32_jni_exports (file : input) : exec ElfSymbolReport :=
  match file with
  | OpenError e => Ret (error ("open failed: " +:+ e))
  | StatError e => Ret (error ("stat failed: " +:+ e))
  | ReadError _ st_size e =>
      Ret (if (st_size <? 0) || (kMaxFileSize <? st_size) then error "file size is outside the supported range"
           else error ("read failed: " +:+ e))
  | Contents _ bytes =>
      if kMaxFileSize <? size bytes then Ret (error "file size is outside the supported range")
      else run_block (scan_bytes bytes)
  end.

(** ** Access stays inside the file *)

(** A range inside the file. *)
Definition range_in (bytes : list Z) (r : FileRange) : Prop :=
  0 <= offset r /\ 0 <= length_ r /\ offset r + length_ r <= size bytes.

Lemma map_address_in bytes loads address r :
  Forall (load_fits bytes) loads -> map_address loads address (size bytes) = Some r -> range_in bytes r /\ 0 < length_ r.
Proof.
  induction 1 as [|p ps [(_ & Ho & Hv & Hf & _) Hfit] _ IH]; cbn [map_address]; [done|].
  destruct (Z.ltb_spec address (p_vaddr p)); simpl orb; [by apply IH|].
  destruct (Z.leb_spec (p_vaddr p + p_filesz p) address); cbv iota; [by apply IH|].
  case_match; [done|]. intros [= <-]. unfold range_in. cbn. lia.
Qed.

Section Words.
Context (bytes : list Z) (hash : FileRange) (Hok : bytes_ok bytes) (Hin : range_in bytes hash).

Lemma word_at_in word :
  exists o, word_at bytes hash word = Ret o /\ forall v, o = Some v -> 0 <= v < 2 ^ 32.
Proof.
  unfold word_at. destruct (range_fits (u64 (word * 4)) 4 (length_ hash)) eqn:E; simpl negb; cbv iota; [|by exists None].
  apply range_fits_spec in E. destruct Hin as (? & ? & ?). pose proof (u64_range (word * 4)).
  destruct (read_u32_in bytes Hok (offset hash + u64 (word * 4))) as (v & -> & Hv); [lia..|].
  exists (Some v). split; [done|]. by intros ? [= <-].
Qed.

(** Any error message. *)
Definition any (msg : string) : Prop := True.

Lemma word_or_returns word msg : returns any (word_or bytes hash word msg) (fun v => 0 <= v < 2 ^ 32).
Proof.
  unfold word_or. destruct (word_at_in word) as (o & -> & Ho). destruct o as [v|]; simpl.
  - apply returns_ret. by apply Ho.
  - by apply returns_stopped.
Qed.

Lemma word_or_Ret word msg v : word_or bytes hash word msg = Ret (inr v) <-> word_at bytes hash word = Ret (Some v).
Proof.
  unfold word_or. destruct (word_at_in word) as (o & -> & _). destruct o; simpl; split; intros [=]; congruence.
Qed.

(** Reading is monotone in the index. *)
Lemma word_at_below i j v :
  0 <= i <= j -> j < 2 ^ 60 -> word_at bytes hash j = Ret (Some v) -> exists w, word_at bytes hash i = Ret (Some w).
Proof.
  intros Hi Hj. unfold word_at. rewrite !u64_small by lia.
  destruct (range_fits (j * 4) 4 (length_ hash)) eqn:Ej; [|done]. intros _. apply range_fits_spec in Ej.
  rewrite (proj2 (range_fits_spec (i * 4) 4 (length_ hash))) by lia. simpl negb. cbv iota.
  destruct Hin as (? & ? & ?).
  destruct (read_u32_in bytes Hok (offset hash + i * 4)) as (w & -> & _); [lia..|]. by exists w.
Qed.

Lemma sysv_symbol_count_returns : returns any (sysv_symbol_count bytes hash) (fun n => 0 <= n <= kMaxSymbols).
Proof.
  unfold sysv_symbol_count. eapply returns_bind; [apply word_or_returns|]. intros buckets Hb.
  eapply returns_bind; [apply word_or_returns|]. intros chains Hc.
  apply (returns_bind _ _ _ (fun _ => chains <= kMaxSymbols)); [apply returns_stop; [done|]; intros ?%Z.ltb_ge; blia|]. intros _ Hle.
  apply (returns_bind _ _ _ (fun _ => True)); [by apply returns_stop|]. intros _ _. apply returns_ret. blia.
Qed.

Lemma gnu_buckets_returns bw so i n start :
  0 <= start < kMaxSymbols -> (start = 0 \/ so <= start) ->
  returns any (gnu_buckets bytes hash bw so i n start) (fun s => 0 <= s < kMaxSymbols /\ (s = 0 \/ so <= s)).
Proof.
  revert i start. induction n as [|n IH]; intros i start Hs Hso; cbn [gnu_buckets]; [by apply returns_ret|].
  eapply returns_bind; [apply word_or_returns|]. intros symbol Hsym. case_match; [by apply IH|].
  apply (returns_bind _ _ _ (fun _ => so <= symbol < kMaxSymbols)).
  { apply returns_stop; [done|]. intros [?%Z.ltb_ge ?%Z.leb_gt]%orb_false_iff. blia. }
  intros _ Hr. apply IH; blia.
Qed.

Lemma gnu_chain_returns fuel cw so symbol :
  0 <= symbol < kMaxSymbols -> returns any (gnu_chain fuel bytes hash cw so symbol) (fun n => 0 <= n <= kMaxSymbols).
Proof.
  change kMaxSymbols with 1048576. revert symbol. induction fuel as [|fuel IH]; intros symbol Hs; cbn [gnu_chain]; [by apply returns_stopped|].
  eapply returns_bind; [apply word_or_returns|]. intros chain _. rewrite u32_small by blia.
  case_match; [apply returns_ret; blia|]. change kMaxSymbols with 1048576.
  destruct (Z.leb_spec 1048576 (symbol + 1)); [by apply returns_stopped|]. apply IH. blia.
Qed.

Lemma gnu_symbol_count_returns : returns any (gnu_symbol_count bytes hash) (fun n => 0 <= n <= kMaxSymbols).
Proof.
  unfold gnu_symbol_count. do 4 (eapply returns_bind; [apply word_or_returns|]; intros ? ?).
  apply (returns_bind _ _ _ (fun _ => a0 <= kMaxSymbols)).
  { apply returns_stop; [done|]. rewrite !orb_false_iff, !Z.ltb_ge. blia. }
  intros _ Hdim. apply (returns_bind _ _ _ (fun _ => True)); [by apply returns_stop|]. intros _ _.
  eapply returns_bind; [apply gnu_buckets_returns; [done|by left]|]. intros start [Hs _].
  case_match; [apply returns_ret; blia|]. by apply gnu_chain_returns.
Qed.

End Words.

(** ** The direct count: walk every bucket's chain *)

(** The loop the comment in [gnu_symbol_count] rejects for its cost. *)
Fixpoint walk_buckets (bytes : list Z) (hash : FileRange) (bucket_word chain_word symbol_offset i : Z) (n : nat) (count : Z)
    : early string Z :=
  match n with
  | O => Ret (inr count)
  | S n' =>
      let? symbol := word_or bytes hash (bucket_word + i) "truncated DT_GNU_HASH bucket" in
      if symbol =? 0 then walk_buckets bytes hash bucket_word chain_word symbol_offset (i + 1) n' count
      else
        let? _ := stop_if ((symbol <? symbol_offset) || (kMaxSymbols <=? symbol)) "invalid DT_GNU_HASH bucket"%string in
        let? end_ := gnu_chain (Z.to_nat (kMaxSymbols - symbol)) bytes hash chain_word symbol_offset symbol in
        walk_buckets bytes hash bucket_word chain_word symbol_offset (i + 1) n' (Z.max count end_)
  end.

Definition direct_symbol_count (bytes : list Z) (hash : FileRange) : early string Z :=
  let? buckets := word_or bytes hash 0 "truncated DT_GNU_HASH header" in
  let? symbol_offset := word_or bytes hash 1 "truncated DT_GNU_HASH header" in
  let? bloom_size := word_or bytes hash 2 "truncated DT_GNU_HASH header" in
  let? _ := word_or bytes hash 3 "truncated DT_GNU_HASH header" in
  let? _ := stop_if ((kMaxSymbols <? buckets) || (kMaxSymbols <? symbol_offset) || (bloom_size =? 0) || (kMaxSymbols <? bloom_size))
              "invalid DT_GNU_HASH dimensions"%string in
  let bucket_word := 4 + bloom_size in
  let chain_word := bucket_word + buckets in
  let? _ := stop_if (length_ hash / 4 <? chain_word) "truncated DT_GNU_HASH buckets"%string in
  walk_buckets bytes hash bucket_word chain_word symbol_offset 0 (Z.to_nat buckets) symbol_offset.

Section Chains.
Context (bytes : list Z) (hash : FileRange) (Hok : bytes_ok bytes) (Hin : range_in bytes hash).
Context (cw so : Z) (Hcw : 0 <= cw < 2 ^ 40) (Hso : 0 <= so).

(** The word of symbol [t] in the chain array, and whether it ends a chain. *)
Definition chain_at (t : Z) (last : bool) : Prop :=
  exists v, word_at bytes hash (cw + (t - so)) = Ret (Some v) /\ negb (Z.land v 1 =? 0) = last.

Lemma gnu_chain_spec fuel s e :
  so <= s < kMaxSymbols -> Z.of_nat fuel = kMaxSymbols - s ->
  gnu_chain fuel bytes hash cw so s = Ret (inr e) <->
  exists t, s <= t < kMaxSymbols /\ e = t + 1 /\ chain_at t true /\ forall u, s <= u < t -> chain_at u false.
Proof.
  change kMaxSymbols with 1048576. revert s. induction fuel as [|fuel IH]; intros s Hs Hf; cbn [gnu_chain]; [lia|].
  rewrite early_bind_Ret, !(u32_small (s - so)), !(u32_small (s + 1)) by lia. change kMaxSymbols with 1048576.
  setoid_rewrite (word_or_Ret bytes hash Hok Hin). split.
  - intros (v & Hv & Hrest). destruct (negb (Z.land v 1 =? 0)) eqn:Eb.
    + injection Hrest as <-. exists s. split; [lia|]. split; [done|]. split; [by exists v|lia].
    + destruct (Z.leb_spec 1048576 (s + 1)); [done|]. apply IH in Hrest as (t & Ht & -> & Hend & Hgo); [|lia..].
      exists t. split; [lia|]. split; [done|]. split; [done|]. intros u Hu.
      destruct (decide (u = s)) as [->|]; [by exists v|]. apply Hgo. lia.
  - intros (t & Ht & -> & (v & Hv & Eb) & Hgo). destruct (decide (t = s)) as [->|].
    + exists v. by rewrite Eb.
    + destruct (Hgo s) as (w & Hw & Ew); [lia|]. exists w. split; [done|]. rewrite Ew.
      destruct (Z.leb_spec 1048576 (s + 1)); [lia|]. apply IH; [lia..|].
      exists t. split; [lia|]. split; [done|]. split; [by exists v|]. intros u Hu. apply Hgo. lia.
Qed.

(** A chain that starts earlier ends no later. *)
Lemma chain_exists n s t :
  so <= s -> t = s + Z.of_nat n -> t < kMaxSymbols -> chain_at t true ->
  exists t', s <= t' <= t /\ chain_at t' true /\ forall u, s <= u < t' -> chain_at u false.
Proof.
  change kMaxSymbols with 1048576. revert s. induction n as [|n IH]; intros s Hs -> Ht Hend.
  { exists s. split; [lia|]. split; [by replace (s + Z.of_nat 0) with s in Hend by lia|lia]. }
  destruct Hend as (v & Hv & Ev). 
  destruct (word_at_below bytes hash Hok Hin (cw + (s - so)) (cw + (s + Z.of_nat (S n) - so)) v) as [w Hw]; [lia|lia|done|].
  destruct (negb (Z.land w 1 =? 0)) eqn:Ew.
  { exists s. split; [lia|]. split; [by exists w|lia]. }
  destruct (IH (s + 1)) as (t' & Ht' & Hend' & Hgo); [lia|lia|lia|by exists v|].
  exists t'. split; [lia|]. split; [done|]. intros u Hu. destruct (decide (u = s)) as [->|]; [by exists w|]. apply Hgo. lia.
Qed.

(** Walking the chain that starts at symbol [s]. *)
Definition walks (s e : Z) : Prop :=
  gnu_chain (Z.to_nat (kMaxSymbols - s)) bytes hash cw so s = Ret (inr e).

Lemma walks_spec s e :
  so <= s < kMaxSymbols ->
  walks s e <-> exists t, s <= t < kMaxSymbols /\ e = t + 1 /\ chain_at t true /\ forall u, s <= u < t -> chain_at u false.
Proof. intros Hs. apply gnu_chain_spec; [done|]. lia. Qed.

Lemma walks_earlier s s' e' :
  so <= s <= s' -> s' < kMaxSymbols -> walks s' e' -> exists e, walks s e /\ e <= e' /\ s < e.
Proof.
  intros Hs Hs' Hw. apply walks_spec in Hw as (t & Ht & -> & Hend & _); [|lia].
  destruct (chain_exists (Z.to_nat (t - s)) s t) as (t' & Ht' & Hend' & Hgo); [lia..|done|].
  exists (t' + 1). split; [|lia]. apply walks_spec; [lia|]. exists t'. split; [lia|]. done.
Qed.

Lemma walks_end s e : so <= s < kMaxSymbols -> walks s e -> s < e.
Proof. intros Hs Hw. apply walks_spec in Hw as (t & ? & -> & _); lia. Qed.

(** The count so far of the direct loop, against the highest start of the fast one. *)
Definition counted (start count : Z) : Prop :=
  (start = 0 /\ count = so) \/ (start <> 0 /\ so <= start < kMaxSymbols /\ walks start count).

Lemma counted_max start count s e :
  0 <= start -> counted start count -> 0 < s -> so <= s < kMaxSymbols -> walks s e ->
  counted (Z.max start s) (Z.max count e).
Proof.
  intros Hst Hc Hs0 Hs He. pose proof (walks_end s e Hs He) as Hse. right. split; [lia|].
  destruct Hc as [[-> ->]|(Hnz & Hr & Hw)].
  - rewrite !Z.max_r by lia. done.
  - destruct (decide (s <= start)) as [Hle|Hgt].
    + destruct (walks_earlier s start count) as (e' & He' & Hle' & _); [lia..|done|].
      assert (e' = e) as -> by (unfold walks in *; congruence). rewrite !Z.max_l by lia. done.
    + destruct (walks_earlier start s e) as (e' & He' & Hle' & _); [lia..|done|].
      assert (e' = count) as -> by (unfold walks in *; congruence). rewrite !Z.max_r by lia. done.
Qed.

Lemma gnu_buckets_ge bw i n start st :
  gnu_buckets bytes hash bw so i n start = Ret (inr st) -> start <= st.
Proof.
  revert i start. induction n as [|n IH]; intros i start; cbn [gnu_buckets]; [intros [= <-]; lia|].
  intros (v & _ & Hrest)%early_bind_Ret. case_match; [by eapply IH|].
  apply early_bind_Ret in Hrest as (_ & _ & Hrest). apply IH in Hrest. lia.
Qed.

Lemma walk_buckets_equiv bw i n start count c :
  0 <= start -> counted start count ->
  walk_buckets bytes hash bw cw so i n count = Ret (inr c) <->
  exists st, gnu_buckets bytes hash bw so i n start = Ret (inr st) /\ counted st c.
Proof.
  revert i start count. induction n as [|n IH]; intros i start count Hst Hc; cbn [walk_buckets gnu_buckets].
  { split; [intros [= <-]; by exists start|]. intros (st & [= <-] & Hc2). do 2 f_equal.
    destruct Hc as [[? ->]|(? & ? & Hw)], Hc2 as [[? ->]|(? & ? & Hw2)]; try done. unfold walks in *. congruence. }
  setoid_rewrite early_bind_Ret. setoid_rewrite (word_or_Ret bytes hash Hok Hin).
  split.
  - intros (v & Hv & Hrest). destruct (Z.eqb_spec v 0).
    + apply (IH (i + 1) start count Hst Hc) in Hrest as (st & E & Hst'). exists st. split; [|done]. exists v. split; [done|].
      by rewrite (proj2 (Z.eqb_eq v 0)).
    + apply early_bind_Ret in Hrest as ([] & Hb%stop_if_inr & Hrest). apply early_bind_Ret in Hrest as (e & He & Hrest).
      pose proof Hb as [Hb1%Z.ltb_ge Hb2%Z.leb_gt]%orb_false_iff. destruct (word_at_in bytes hash Hok Hin (bw + i)) as (o & Ho & Hov).
      assert (0 <= v) by (rewrite Hv in Ho; injection Ho as <-; specialize (Hov v eq_refl); lia).
      assert (counted (Z.max start v) (Z.max count e)) as Hcm by (apply counted_max; [lia|done|lia|lia|done]).
      apply (IH (i + 1) (Z.max start v) _ ltac:(lia) Hcm) in Hrest as (st & E & Hst'). exists st. split; [|done].
      exists v. split; [done|]. rewrite (proj2 (Z.eqb_neq v 0)) by done. apply early_bind_Ret. exists tt. split; [by apply stop_if_inr|done].
  - intros (st & (v & Hv & Hrest) & Hcst). exists v. split; [done|]. destruct (Z.eqb_spec v 0).
    + apply (IH (i + 1) start count Hst Hc). by exists st.
    + apply early_bind_Ret in Hrest as ([] & Hb%stop_if_inr & Hrest).
      apply early_bind_Ret. exists tt. split; [by apply stop_if_inr|].
      pose proof Hb as [Hb1%Z.ltb_ge Hb2%Z.leb_gt]%orb_false_iff. destruct (word_at_in bytes hash Hok Hin (bw + i)) as (o & Ho & Hov).
      assert (0 <= v) by (rewrite Hv in Ho; injection Ho as <-; specialize (Hov v eq_refl); lia).
      pose proof (gnu_buckets_ge _ _ _ _ _ Hrest). destruct Hcst as [[-> _]|(Hnz & Hr & Hw)]; [lia|].
      destruct (walks_earlier v st c) as (e & He & _); [lia..|done|].
      apply early_bind_Ret. exists e. split; [exact He|].
      apply (IH (i + 1) (Z.max start v) (Z.max count e) ltac:(lia)); [apply counted_max; [lia|done|lia|lia|done]|].
      exists st. split; [done|]. by right.
Qed.

End Chains.

(** counting the symbols of a GNU hash table by walking only the chain with the
    highest start is the same as walking the chain of every bucket: on any file
    the two either both fail or both give the same count. *)
Theorem gnu_symbol_count_direct bytes hash n :
  bytes_ok bytes -> range_in bytes hash ->
  gnu_symbol_count bytes hash = Ret (inr n) <-> direct_symbol_count bytes hash = Ret (inr n).
Proof.
  intros Hok Hin. unfold gnu_symbol_count, direct_symbol_count.
  assert (forall w msg, exists r, word_or bytes hash w msg = Ret r /\ match r with inl e => any e | inr v => 0 <= v < 2 ^ 32 end) as Hword
    by (intros w msg; apply (word_or_returns bytes hash Hok Hin)).
  destruct (Hword 0 "truncated DT_GNU_HASH header"%string) as ([e|buckets] & -> & Hb); [done|]. cbn [early_bind].
  destruct (Hword 1 "truncated DT_GNU_HASH header"%string) as ([e|so] & -> & Hso); [done|]. cbn [early_bind].
  destruct (Hword 2 "truncated DT_GNU_HASH header"%string) as ([e|bloom] & -> & Hbl); [done|]. cbn [early_bind].
  destruct (Hword 3 "truncated DT_GNU_HASH header"%string) as ([e|shift] & -> & _); [done|]. cbn [early_bind].
  unfold stop_if at 1 3. case_match; [done|]. cbn [early_bind].
  unfold stop_if at 1 2. case_match; [done|]. cbn [early_bind].
  rewrite (walk_buckets_equiv bytes hash Hok Hin (4 + bloom + buckets) so ltac:(lia) ltac:(lia) (4 + bloom) 0 _ 0 so n)
    by (lia || by left).
  rewrite early_bind_Ret. apply exist_proper. intros st.
  match goal with |- ?P /\ ?Q <-> _ /\ ?Q' => enough (P -> (Q <-> Q')) by tauto end. intros Hst.
  assert (0 <= st < kMaxSymbols /\ (st = 0 \/ so <= st)) as [Hr Hr'].
  { destruct (gnu_buckets_returns bytes hash Hok Hin (4 + bloom) so 0 (Z.to_nat buckets) 0) as (r & Er & Hr); [done|by left|].
    rewrite Hst in Er. injection Er as <-. exact Hr. }
  unfold counted, walks. destruct (Z.eqb_spec st 0) as [->|Hz].
  - split; [intros [= <-]; by left|]. by intros [[_ ->]|[? _]].
  - split; [intros E; right; split; [done|]; split; [lia|done]|]. by intros [[? _]|(_ & _ & E)].
Qed.

(** ** The exported names *)

(** The name of a symbol. *)
Definition has_name (bytes : list Z) (strings : FileRange) (s : Elf32_Sym) (name : list ascii) : Prop :=
  exists tail, read_bytes bytes (offset strings + st_name s) (length_ strings - st_name s) = Ret tail /\ c_string tail = Some name.

(** What entry [k] of the symbol table at [off] exports. *)
Definition table_entry (bytes : list Z) (strings : FileRange) (off : Z) (k : nat) (e : option (list ascii)) : Prop :=
  exists s name, read_sym bytes (off + 16 * Z.of_nat k) = Ret s /\ has_name bytes strings s name /\
    e = if visible_symbol s && wanted name then Some name else None.

(** Appending a name that is not there yet. *)
Definition add_new (out : list (list ascii)) (name : list ascii) : list (list ascii) :=
  if decide (name ∈ out) then out else out ++ [name].

(** [out]: the exported names of the [n] entries at [off] in table order, each once. *)
Definition exported (bytes : list Z) (strings : FileRange) (off : Z) (n : nat) (start out : list (list ascii)) : Prop :=
  exists entries, length entries = n /\ (forall k e, entries !! k = Some e -> table_entry bytes strings off k e) /\
    out = foldl add_new start (omap id entries).

Lemma add_new_nodup out name : NoDup out -> NoDup (add_new out name).
Proof.
  intros H. unfold add_new. case_decide; [done|]. apply NoDup_app. split; [done|]. split; [|by apply NoDup_singleton].
  intros x Hx ->%list_elem_of_singleton. done.
Qed.

Lemma exported_names bytes strings off n out :
  exported bytes strings off n [] out ->
  NoDup out /\ Forall (fun name => wanted name = true) out.
Proof.
  intros (entries & _ & He & ->). revert He.
  assert (forall es start, (forall e, Some e ∈ es -> wanted e = true) -> NoDup start -> Forall (fun name => wanted name = true) start ->
    NoDup (foldl add_new start (omap id es)) /\ Forall (fun name => wanted name = true) (foldl add_new start (omap id es))) as Hf.
  { induction es as [|[e|] es IH]; intros start He Hn Hw; [done| |].
    - simpl. apply IH; [intros; apply He; by right|by apply add_new_nodup|].
      unfold add_new. case_decide; [done|]. apply Forall_app. split; [done|]. apply Forall_singleton. apply He. by left.
    - simpl. apply IH; [intros; apply He; by right|done|done]. }
  intros He. apply Hf; [|constructor|constructor]. intros e [k Hk]%list_elem_of_lookup.
  destruct (He _ _ Hk) as (s & name & _ & _ & Heq). destruct (visible_symbol s), (wanted name) eqn:Ew; by simplify_eq/=.
Qed.

Lemma read_sym_in bytes off :
  bytes_ok bytes -> 0 <= off -> off + 16 <= size bytes -> exists s, read_sym bytes off = Ret s /\ 0 <= st_name s < 2 ^ 32.
Proof.
  intros Hok Ho Hs. unfold read_sym.
  destruct (read_u32_in bytes Hok off) as (name & -> & Hn); [lia..|]. rewrite exec_ret_bind.
  destruct (read_u8_in bytes Hok (off + 12)) as (info & -> & _); [lia..|]. rewrite exec_ret_bind.
  destruct (read_u8_in bytes Hok (off + 13)) as (other & -> & _); [lia..|]. rewrite exec_ret_bind.
  destruct (read_u16_in bytes Hok (off + 14)) as (shndx & -> & _); [lia..|]. rewrite exec_ret_bind.
  eexists. split; [done|]. done.
Qed.

(** A refusal. *)
Definition no_exports (r : ElfSymbolReport) : Prop := exports r = [] /\ status r <> Ok.

Lemma scan_symbols_returns bytes strings off n start :
  bytes_ok bytes -> range_in bytes strings -> 0 <= off -> off + 16 * Z.of_nat n <= size bytes ->
  returns no_exports (scan_symbols bytes strings off n start) (exported bytes strings off n start).
Proof.
  intros Hok (Hs1 & Hs2 & Hs3). revert off start. induction n as [|n IH]; intros off start Ho Hs; cbn [scan_symbols].
  { apply returns_ret. by exists []. }
  destruct (read_sym_in bytes off) as (sym & Esym & Hsym); [done|lia|lia|].
  apply (returns_bind _ _ _ (fun s => s = sym)); [apply returns_lift; by exists sym|]. intros ? ->.
  apply (returns_bind _ _ _ (fun _ => st_name sym < length_ strings)); [apply returns_stop; [done|]; intros ?%Z.leb_gt; done|].
  intros _ Hlt. destruct (read_bytes_in bytes (offset strings + st_name sym) (length_ strings - st_name sym)) as (tail & Et & _); [lia..|].
  apply (returns_bind _ _ _ (fun t => t = tail)); [apply returns_lift; by exists tail|]. intros ? ->.
  destruct (c_string tail) as [name|] eqn:En; [|by apply returns_stopped].
  set (e := if visible_symbol sym && wanted name then Some name else None).
  eapply returns_mono; [apply IH; lia|]. intros out (entries & Hlen & Hent & ->).
  exists (e :: entries). split; [simpl; lia|]. split.
  - intros [|k] e'; simpl; [intros [= <-]|intros Hk].
    + exists sym, name. replace (off + 16 * Z.of_nat 0) with off by lia. split; [done|]. split; [by exists tail|done].
    + destruct (Hent _ _ Hk) as (s & nm & H1 & H2). exists s, nm.
      by replace (off + 16 * Z.of_nat (S k)) with (off + 16 + 16 * Z.of_nat k) by lia.
  - unfold e, add_new. destruct (visible_symbol sym), (wanted name); simpl; try done.
    unfold add_new. case_bool_decide; by case_decide.
Qed.

Lemma read_dynamic_in bytes off n i :
  bytes_ok bytes -> 0 <= off -> off + 8 * Z.of_nat n <= size bytes -> (forall v, strsz i = Some v -> 0 <= v) ->
  exists o, read_dynamic bytes off n i = Ret o /\ forall i' v, o = Some i' -> strsz i' = Some v -> 0 <= v.
Proof.
  intros Hok. revert off i. induction n as [|n IH]; intros off i Ho Hs Hi; cbn [read_dynamic]; [by eexists|].
  destruct (read_dyn_in bytes off) as (d & -> & _ & Hd); [done|lia|lia|]. rewrite exec_ret_bind.
  case_match; [eexists; split; [done|]; intros i' v [= <-]; apply Hi|].
  apply IH; [change sizeof_Dyn with 8; lia..|]. intros v. unfold note_entry.
  repeat case_match; cbn [strsz]; [apply Hi|intros [= <-]; lia|apply Hi..].
Qed.

Lemma count_symbols_returns bytes loads i :
  bytes_ok bytes -> Forall (load_fits bytes) loads ->
  returns no_exports (count_symbols bytes loads i) (fun n => 0 <= n <= kMaxSymbols).
Proof.
  intros Hok Hl. unfold count_symbols.
  assert (forall a u count, (forall hash, range_in bytes hash -> returns any (count hash) (fun n => 0 <= n <= kMaxSymbols)) ->
    returns no_exports
      (match map_address loads a (size bytes) with
       | None => Ret (inl (error u))
       | Some hash => match count hash with Ret (inl msg) => Ret (inl (error msg)) | Ret (inr n) => Ret (inr n)
                      | Aborted => Aborted | Undefined => Undefined end
       end) (fun n => 0 <= n <= kMaxSymbols)) as Hgen.
  { intros a u count Hc. destruct (map_address loads a (size bytes)) as [hash|] eqn:Em; [|by apply returns_stopped].
    apply map_address_in in Em as [Hin _]; [|done]. destruct (Hc hash Hin) as ([e|n] & -> & H);
      [by apply returns_stopped|by apply returns_ret]. }
  destruct (sysv_hash i); [apply Hgen; intros; by apply sysv_symbol_count_returns|].
  destruct (gnu_hash i); [apply Hgen; intros; by apply gnu_symbol_count_returns|]. by apply returns_stopped.
Qed.

(** ** Specification: the dynamic symbol table of a file *)

(** An ELF header the scanners accept: a little-endian ARM ELF32 file of the current
    version with its program headers in the file. *)
Definition header_ok (bytes : list Z) (eh : Elf32_Ehdr) : Prop :=
  sizeof_Ehdr <= size bytes /\ read_bytes bytes 0 4 = Ret [0x7f; 0x45; 0x4c; 0x46] /\ read_ehdr bytes = Ret eh /\
  e_ident eh !! 4%nat = Some 1 /\ e_ident eh !! 5%nat = Some 1 /\ e_ident eh !! 6%nat = Some EV_CURRENT /\
  e_machine eh = EM_ARM /\ e_version eh = EV_CURRENT /\ e_phentsize eh = sizeof_Phdr /\ e_phnum eh <> 0 /\ e_phnum eh <= 1024 /\
  e_phoff eh <= size bytes /\ e_phoff eh + e_phnum eh * sizeof_Phdr <= size bytes.

(** The file bytes of a segment are in the file. *)
Definition segment_in (bytes : list Z) (p : Elf32_Phdr) : Prop :=
  p_offset p <= size bytes /\ p_offset p + p_filesz p <= size bytes.

(** A dynamic segment: some whole entries, not too many. *)
Definition dynamic_ok (bytes : list Z) (p : Elf32_Phdr) : Prop :=
  p_filesz p <> 0 /\ p_filesz p <= kMaxDynamicSize /\ p_filesz p mod sizeof_Dyn = 0 /\ segment_in bytes p.

(** The entries from [off] on, [n] of them at most, up to the first DT_NULL. *)
Definition dyn_entries (bytes : list Z) (off : Z) (n : nat) (entries : list Elf32_Dyn) : Prop :=
  (length entries < n)%nat /\
  (forall k d, entries !! k = Some d -> read_dyn bytes (off + sizeof_Dyn * Z.of_nat k) = Ret d /\ d_tag d <> DT_NULL) /\
  exists d, read_dyn bytes (off + sizeof_Dyn * Z.of_nat (length entries)) = Ret d /\ d_tag d = DT_NULL.

(** The loadable segments and the dynamic entries of a file with one dynamic segment. *)
Definition dynamic_section (bytes : list Z) (loads : list Elf32_Phdr) (entries : list Elf32_Dyn) : Prop :=
  exists eh ps p, header_ok bytes eh /\ read_phdrs bytes (e_phoff eh) (Z.to_nat (e_phnum eh)) = Ret ps /\
    loads = filter (fun q => p_type q = PT_LOAD) ps /\ Forall (segment_in bytes) loads /\
    filter (fun q => p_type q = PT_DYNAMIC) ps = [p] /\ dynamic_ok bytes p /\
    dyn_entries bytes (p_offset p) (Z.to_nat (p_filesz p / sizeof_Dyn)) entries.

(** The value of the last entry with a tag. *)
Definition last_of (tag : Z) (entries : list Elf32_Dyn) : option Z :=
  last (omap (fun d => if d_tag d =? tag then Some (d_val d) else None) entries).

(** Where an address of the program is in the file, and how many bytes of the file follow:
    in the first loadable segment that holds it. *)
Definition holds (p : Elf32_Phdr) (a : Z) : Prop := p_vaddr p <= a < p_vaddr p + p_filesz p.
Definition located (loads : list Elf32_Phdr) (a : Z) (r : FileRange) : Prop :=
  exists before p after, loads = before ++ p :: after /\ Forall (fun q => ~ holds q a) before /\ holds p a /\
    r = {| offset := p_offset p + (a - p_vaddr p); length_ := p_vaddr p + p_filesz p - a |}.

(** The number of symbols: the chain count of a DT_HASH table, or else the end of the
    longest chain of a DT_GNU_HASH table, found by walking all of them. *)
Definition symbol_number (bytes : list Z) (loads : list Elf32_Phdr) (entries : list Elf32_Dyn) (n : Z) : Prop :=
  match last_of DT_HASH entries with
  | Some a => exists hash buckets, located loads a hash /\ word_at bytes hash 0 = Ret (Some buckets) /\ word_at bytes hash 1 = Ret (Some n) /\
                n <= kMaxSymbols /\ 4 * (2 + buckets + n) <= length_ hash
  | None => exists a hash, last_of DT_GNU_HASH entries = Some a /\ located loads a hash /\ direct_symbol_count bytes hash = Ret (inr n)
  end.

(** The symbol table at offset [off] of the file, of [n] entries with names in [strings]. *)
Definition symbol_table (bytes : list Z) (loads : list Elf32_Phdr) (entries : list Elf32_Dyn) (strings : FileRange) (off n : Z) : Prop :=
  exists ta ts sa texts symbols, last_of DT_STRTAB entries = Some ta /\ last_of DT_STRSZ entries = Some ts /\ last_of DT_SYMTAB entries = Some sa /\
    last_of DT_SYMENT entries = Some 16 /\ ts <> 0 /\
    located loads ta texts /\ ts <= length_ texts /\ strings = {| offset := offset texts; length_ := ts |} /\
    located loads sa symbols /\ off = offset symbols /\ symbol_number bytes loads entries n /\ n * 16 <= length_ symbols.

(** The JNI exports of a file. *)
Definition exports_of (bytes : list Z) (names : list (list ascii)) : Prop :=
  exists loads entries, dynamic_section bytes loads entries /\
    (last_of DT_SYMTAB entries = None /\ names = [] \/
     exists strings off n, symbol_table bytes loads entries strings off n /\ exported bytes strings off (Z.to_nat n) [] names).

Section Spec.
Context (bytes : list Z) (Hok : bytes_ok bytes).

Lemma check_header_iff {R} (sk er : string -> R) eh : check_header sk er bytes = Ret (inr eh) <-> header_ok bytes eh.
Proof.
  split.
  - unfold check_header, header_ok. case_match; [done|]. intros Hrest.
    apply early_bind_Ret in Hrest as (magic & Hm & Hrest). apply lift_inr in Hm.
    apply early_bind_Ret in Hrest as (? & Hmagic%stop_if_inr & Hrest). apply early_bind_Ret in Hrest as (? & Hs%stop_if_inr & Hrest).
    apply early_bind_Ret in Hrest as (eh' & Heh & Hrest). apply lift_inr in Heh.
    apply early_bind_Ret in Hrest as (? & H1%stop_if_inr & Hrest). apply early_bind_Ret in Hrest as (? & H2%stop_if_inr & Hrest).
    apply early_bind_Ret in Hrest as (? & H3%stop_if_inr & Hrest). apply early_bind_Ret in Hrest as (? & H4%stop_if_inr & Hrest).
    injection Hrest as ->. rewrite !orb_false_iff, !negb_false_iff, ?bool_decide_eq_true, ?Z.eqb_eq, ?Z.eqb_neq, ?Z.ltb_ge in *.
    apply range_fits_spec in H4. subst magic. tauto.
  - intros (H1 & H2 & H3 & H4 & H5 & H6 & H7 & H8 & H9 & H10 & H11 & H12 & H13). unfold check_header. change sizeof_Ehdr with 52 in *.
    rewrite (proj2 (Z.ltb_ge _ 4)) by lia. rewrite H2. cbn [lift early_bind fmap]. unfold lift. cbn.
    rewrite (proj2 (Z.ltb_ge (size bytes) 52)) by lia. cbn [stop_if early_bind]. rewrite H3. cbn [fmap early_bind]. cbn.
    rewrite !bool_decide_eq_true_2 by done. cbn. rewrite H7, H8, H9. cbn.
    rewrite (proj2 (Z.eqb_neq _ _) H10), (proj2 (Z.ltb_ge _ _) H11). cbn. rewrite (proj2 (range_fits_spec _ _ _)) by done. done.
Qed.

(** The segments of the program headers, after those seen before. *)
Lemma collect_segments_iff {R} (er : string -> R) off n : forall loads0 dyn0 loads o, 0 <= off -> off + Z.of_nat n * 32 <= size bytes ->
  collect_segments er bytes off n loads0 dyn0 = Ret (inr (loads, o)) <->
  exists ps, read_phdrs bytes off n = Ret ps /\ loads = loads0 ++ filter (fun q => p_type q = PT_LOAD) ps /\
    Forall (segment_in bytes) (filter (fun q => p_type q = PT_LOAD) ps) /\
    (filter (fun q => p_type q = PT_DYNAMIC) ps = [] /\ o = dyn0 \/
     dyn0 = None /\ exists p, filter (fun q => p_type q = PT_DYNAMIC) ps = [p] /\ dynamic_ok bytes p /\ o = Some {| offset := p_offset p; length_ := p_filesz p |}).
Proof.
  revert off. induction n as [|n IH]; intros off loads0 dyn0 loads o Ho Hs; cbn [collect_segments read_phdrs].
  { split.
    - intros [= <- <-]. exists []. rewrite app_nil_r. split; [done|]. split; [done|]. split; [constructor|]. by left.
    - intros (ps & [= <-] & -> & _ & [[_ ->]|(_ & p & Hp & _)]); [by rewrite app_nil_r|done]. }
  destruct (read_phdr_in bytes off) as (p & Ep & _); [done|lia|change sizeof_Phdr with 32; lia|]. rewrite Ep. change sizeof_Phdr with 32.
  assert (forall P : list Elf32_Phdr -> Prop, (exists ps, (p ← Ret p; ps ← read_phdrs bytes (off + 32) n; Ret (p :: ps)) = Ret ps /\ P ps) <->
    exists ps, read_phdrs bytes (off + 32) n = Ret ps /\ P (p :: ps)) as Hps.
  { intros P. rewrite exec_ret_bind. split.
    - intros (ps & E & HP). apply exec_bind_Ret in E as (ps' & E' & E). injection E as <-. by exists ps'.
    - intros (ps & E & HP). exists (p :: ps). by rewrite E. }
  rewrite Hps. clear Hps. match goal with |- context [early_bind (lift (Ret p)) ?f] => change (early_bind (lift (Ret p)) f) with (f p); cbv beta end.
  destruct (Z.eqb_spec (p_type p) PT_LOAD) as [El|El].
  { assert (p_type p <> PT_DYNAMIC) as Hnd by (rewrite El; done).
    assert (forall ps, filter (fun q => p_type q = PT_LOAD) (p :: ps) = p :: filter (fun q => p_type q = PT_LOAD) ps) as HL by (intros ps; by rewrite filter_cons_True).
    assert (forall ps, filter (fun q => p_type q = PT_DYNAMIC) (p :: ps) = filter (fun q => p_type q = PT_DYNAMIC) ps) as HD by (intros ps; by rewrite filter_cons_False).
    split.
    - intros Hrest. apply early_bind_Ret in Hrest as (? & Hf%stop_if_inr%negb_false_iff%range_fits_spec & Hrest). apply IH in Hrest as (ps & H1 & H2 & H3 & H4); [|lia..].
      exists ps. rewrite HL, HD. split; [done|]. split; [by rewrite H2, <- app_assoc|]. split; [by constructor|done].
    - intros (ps & H1 & H2 & H3 & H4). rewrite HL in H2, H3. rewrite HD in H4. apply Forall_cons in H3 as [Hf H3]. apply early_bind_Ret. exists tt.
      split; [by apply stop_if_inr, negb_false_iff, range_fits_spec|]. apply IH; [lia..|]. exists ps. split; [done|]. split; [by rewrite H2, <- app_assoc|done]. }
  assert (forall ps, filter (fun q => p_type q = PT_LOAD) (p :: ps) = filter (fun q => p_type q = PT_LOAD) ps) as HL by (intros ps; by rewrite filter_cons_False).
  destruct (Z.eqb_spec (p_type p) PT_DYNAMIC) as [Ed|Ed].
  - assert (forall ps, filter (fun q => p_type q = PT_DYNAMIC) (p :: ps) = p :: filter (fun q => p_type q = PT_DYNAMIC) ps) as HD by (intros ps; by rewrite filter_cons_True).
    assert ((p_filesz p =? 0) || (kMaxDynamicSize <? p_filesz p) || negb (p_filesz p mod sizeof_Dyn =? 0) || negb (range_fits (p_offset p) (p_filesz p) (size bytes)) = false
            <-> dynamic_ok bytes p) as Hdy.
    { unfold dynamic_ok, segment_in. rewrite !orb_false_iff, !negb_false_iff, Z.eqb_neq, Z.ltb_ge, Z.eqb_eq, range_fits_spec. tauto. }
    split.
    + intros Hrest. apply early_bind_Ret in Hrest as (? & Hn%stop_if_inr%bool_decide_eq_false & Hrest). apply early_bind_Ret in Hrest as (? & Hd%stop_if_inr%Hdy & Hrest).
      apply IH in Hrest as (ps & H1 & H2 & H3 & [[Hf ->]|[? _]]); [|done|lia..]. exists ps. rewrite HL, HD, Hf. split; [done|]. split; [done|]. split; [done|]. right.
      split; [destruct dyn0; [by destruct Hn|done]|]. by exists p.
    + intros (ps & H1 & H2 & H3 & H4). rewrite HL in H2, H3. rewrite HD in H4. destruct H4 as [[? _]|(-> & q & Hq & Hd & ->)]; [done|]. injection Hq as <- Hq.
      apply early_bind_Ret. exists tt. split; [apply stop_if_inr, bool_decide_eq_false; by intros [? ?]|]. apply early_bind_Ret. exists tt. split; [by apply stop_if_inr, Hdy|].
      apply IH; [lia..|]. exists ps. split; [done|]. split; [done|]. split; [done|]. by left.
  - assert (forall ps, filter (fun q => p_type q = PT_DYNAMIC) (p :: ps) = filter (fun q => p_type q = PT_DYNAMIC) ps) as HD by (intros ps; by rewrite filter_cons_False).
    rewrite IH by lia. split; intros (ps & H); exists ps; [by rewrite HL, HD|by rewrite HL, HD in H].
Qed.

Lemma read_dynamic_iff off n : forall i i', 0 <= off -> off + 8 * Z.of_nat n <= size bytes ->
  read_dynamic bytes off n i = Ret (Some i') <->
  exists entries, dyn_entries bytes off n entries /\ i' = foldl (fun i d => note_entry i (d_tag d) (d_val d)) i entries.
Proof.
  unfold dyn_entries. change sizeof_Dyn with 8. revert off. induction n as [|n IH]; intros off i i' Ho Hs; cbn [read_dynamic].
  { split; [done|]. intros (es & [? _] & _). lia. }
  destruct (read_dyn_in bytes off) as (d & Ed & _); [done|lia|lia|]. rewrite Ed, exec_ret_bind.
  assert (off + 8 * Z.of_nat 0 = off) as E0 by lia. assert (forall k, off + 8 * Z.of_nat (S k) = off + 8 + 8 * Z.of_nat k) as ES by lia.
  destruct (Z.eqb_spec (d_tag d) DT_NULL) as [Et|Et].
  - split.
    + intros [= <-]. exists []. split; [|done]. split; [cbn; lia|]. split; [done|]. exists d. cbn [length]. by rewrite E0.
    + intros (es & (_ & Hes & _) & ->). destruct es as [|e es]; [done|]. destruct (Hes 0%nat e eq_refl) as [He Hne]. rewrite E0 in He. congruence.
  - change sizeof_Dyn with 8. rewrite IH by lia. split.
    + intros (es & (Hl & Hes & d' & Hd' & Ht') & ->). exists (d :: es). split; [|done]. split; [cbn; lia|]. split.
      * intros [|k] e; cbn; [intros [= <-]; by rewrite E0|]. intros Hk. rewrite ES. by apply Hes.
      * exists d'. cbn [length]. by rewrite ES.
    + intros (es & (Hl & Hes & d' & Hd' & Ht') & ->). destruct es as [|e es].
      { cbn [length] in Hd'. rewrite E0 in Hd'. congruence. }
      destruct (Hes 0%nat e eq_refl) as [He _]. rewrite E0, Ed in He. injection He as <-. exists es. split; [|done]. cbn in Hl. split; [lia|]. split.
      * intros k x Hk. rewrite <- ES. by apply (Hes (S k)).
      * exists d'. rewrite <- ES. done.
Qed.

(** The information kept of each tag is that of its last entry. *)
Lemma noted entries :
  let i := foldl (fun i d => note_entry i (d_tag d) (d_val d)) no_info entries in
  strtab i = last_of DT_STRTAB entries /\ strsz i = last_of DT_STRSZ entries /\ symtab i = last_of DT_SYMTAB entries /\
  syment i = last_of DT_SYMENT entries /\ sysv_hash i = last_of DT_HASH entries /\ gnu_hash i = last_of DT_GNU_HASH entries.
Proof.
  induction entries as [|d entries IH] using rev_ind; [done|]. cbn zeta in *. rewrite foldl_app. cbn [foldl].
  set (i := foldl _ no_info entries) in *. destruct IH as (H1 & H2 & H3 & H4 & H5 & H6).
  assert (forall tag, last_of tag (entries ++ [d]) = if d_tag d =? tag then Some (d_val d) else last_of tag entries) as E.
  { intros tag. unfold last_of. rewrite omap_app. cbn. destruct (d_tag d =? tag); [by rewrite last_snoc|by rewrite app_nil_r]. }
  rewrite !E. unfold note_entry.
  repeat match goal with |- context [d_tag d =? ?t] => destruct (Z.eqb_spec (d_tag d) t) as [Et|?]; [try rewrite Et|] end;
    cbn -[Z.eqb last_of]; repeat match goal with |- context [?a =? ?b] => let v := eval vm_compute in (a =? b) in change (a =? b) with v end; cbv iota; split_and!; done.
Qed.

Lemma map_address_iff loads a r : Forall (segment_in bytes) loads -> Forall phdr_typed loads -> map_address loads a (size bytes) = Some r <-> located loads a r.
Proof.
  unfold located. intros Hl Ht. induction loads as [|p loads IH]; cbn [map_address].
  { split; [done|]. intros (? & ? & ? & E & _). by destruct (app_cons_not_nil _ _ _ E). }
  apply Forall_cons in Hl as [Hp Hl], Ht as [(_ & Ho & Hv & Hf & _) Ht].
  destruct (decide (holds p a)) as [Hh|Hh]; unfold holds in Hh.
  - rewrite (proj2 (Z.ltb_ge a _)), (proj2 (Z.leb_gt _ a)) by lia. cbn [orb]. unfold segment_in in Hp.
    rewrite (proj2 (range_fits_spec _ _ _)) by lia. cbn [negb]. split.
    + intros [= <-]. by exists [], p, loads.
    + intros ([|q before] & p' & after & E & Hb & Hp' & ->); injection E as <- E; [done|]. apply Forall_cons in Hb as [Hb _]. by destruct Hb.
  - replace ((a <? p_vaddr p) || (p_vaddr p + p_filesz p <=? a)) with true by (destruct (Z.ltb_spec a (p_vaddr p)), (Z.leb_spec (p_vaddr p + p_filesz p) a); cbn; done || lia).
    rewrite IH by done. split.
    + intros (before & p' & after & -> & Hb & H). exists (p :: before), p', after. split; [done|]. split; [by constructor|done].
    + intros ([|q before] & p' & after & E & Hb & Hp' & ->); injection E as <- E; [by destruct Hh|]. apply Forall_cons in Hb as [_ Hb]. by exists before, p', after.
Qed.

Lemma sysv_iff hash n : range_in bytes hash ->
  sysv_symbol_count bytes hash = Ret (inr n) <->
  exists buckets, word_at bytes hash 0 = Ret (Some buckets) /\ word_at bytes hash 1 = Ret (Some n) /\ n <= kMaxSymbols /\ 4 * (2 + buckets + n) <= length_ hash.
Proof.
  intros Hin. unfold sysv_symbol_count. destruct (word_at_in bytes hash Hok Hin 0) as (o & Eo & Ho). split.
  - intros Hrest. apply early_bind_Ret in Hrest as (b & Hb%(word_or_Ret bytes hash Hok Hin) & Hrest).
    apply early_bind_Ret in Hrest as (c & Hc%(word_or_Ret bytes hash Hok Hin) & Hrest). apply early_bind_Ret in Hrest as (? & H1%stop_if_inr%Z.ltb_ge & Hrest).
    apply early_bind_Ret in Hrest as (? & H2%stop_if_inr & Hrest). injection Hrest as ->. apply orb_false_iff in H2 as [_ H2%negb_false_iff%range_fits_spec].
    exists b. split; [done|]. split; [done|]. lia.
  - intros (b & Hb & Hc & H1 & H2). apply early_bind_Ret. exists b. split; [by apply (word_or_Ret bytes hash Hok Hin)|].
    apply early_bind_Ret. exists n. split; [by apply (word_or_Ret bytes hash Hok Hin)|]. apply early_bind_Ret. exists tt. split; [by apply stop_if_inr, Z.ltb_ge|].
    apply early_bind_Ret. exists tt. split; [|done]. apply stop_if_inr, orb_false_iff.
    rewrite Hb in Eo. injection Eo as <-. specialize (Ho b eq_refl). change kMaxSymbols with 1048576 in *.
    destruct (word_at_in bytes hash Hok Hin 1) as (o1 & Eo1 & Ho1). rewrite Hc in Eo1. injection Eo1 as <-. specialize (Ho1 n eq_refl).
    split; [apply Z.ltb_ge; change ((2 ^ 64 - 1) / 4) with 4611686018427387903; lia|]. apply negb_false_iff, range_fits_spec. destruct Hin as (? & ? & ?). lia.
Qed.

(** [out] is what the loop has after the entries, each with a name. *)
Lemma scan_symbols_iff strings off n start out : range_in bytes strings -> 0 <= off -> off + 16 * Z.of_nat n <= size bytes ->
  scan_symbols bytes strings off n start = Ret (inr out) <-> exported bytes strings off n start out.
Proof.
  intros Hs Ho Hn. split.
  - intros E. destruct (scan_symbols_returns bytes strings off n start) as (r & Er & Hr); [done..|]. rewrite E in Er. by injection Er as <-.
  - revert off start Ho Hn. induction n as [|n IH]; intros off start Ho Hn (es & Hlen & Hes & ->); destruct es as [|e es]; try done. injection Hlen as Hlen.
    destruct (Hes 0%nat e eq_refl) as (s & name & Es & (tail & Et & Ec) & Ee). replace (off + 16 * Z.of_nat 0) with off in Es by lia.
    assert (st_name s < length_ strings) as Hlt.
    { apply read_bytes_Ret in Et as (_ & ? & _ & ->). destruct (decide (st_name s = length_ strings)) as [E|]; [|lia].
      rewrite E, Z.sub_diag in Ec. done. }
    cbn [scan_symbols]. apply early_bind_Ret. exists s. split; [by rewrite Es|]. apply early_bind_Ret. exists tt. split; [by apply stop_if_inr, Z.leb_gt|].
    apply early_bind_Ret. exists tail. split; [by rewrite Et|]. rewrite Ec. apply IH; [lia..|]. exists es. split; [done|]. split.
    + intros k x Hk. destruct (Hes (S k) x Hk) as (s' & nm & H1 & H2). exists s', nm. by replace (off + 16 + 16 * Z.of_nat k) with (off + 16 * Z.of_nat (S k)) by lia.
    + rewrite Ee. destruct (visible_symbol s), (wanted name); cbn; try done. unfold add_new. case_bool_decide; by case_decide.
Qed.
End Spec.

Section Scan.
Context (bytes : list Z) (Hok : bytes_ok bytes).

Definition info_of (entries : list Elf32_Dyn) : dynamic_info := foldl (fun i d => note_entry i (d_tag d) (d_val d)) no_info entries.

(** The code finds the dynamic section exactly when there is one. *)
Lemma section_found loads i :
  (exists d, find_dynamic skipped error bytes = Ret (inr (loads, d)) /\
     read_dynamic bytes (offset d) (Z.to_nat (length_ d / sizeof_Dyn)) no_info = Ret (Some i)) <->
  exists entries, dynamic_section bytes loads entries /\ i = info_of entries.
Proof.
  assert (forall eh, header_ok bytes eh -> read_ehdr bytes = Ret eh -> 0 <= e_phoff eh /\ 0 <= e_phnum eh) as Heh.
  { intros eh H Eeh. destruct (read_ehdr_in bytes) as (eh' & E & (_ & H1 & H2)); [done|apply H|]. rewrite Eeh in E. injection E as <-. lia. }
  change sizeof_Dyn with 8. split.
  - intros (d & Hf & Hr). unfold find_dynamic in Hf. apply early_bind_Ret in Hf as (eh & Hh%(check_header_iff bytes) & Hf).
    apply early_bind_Ret in Hf as ([loads' o] & Hc & Hf). pose proof Hh as (_ & _ & Eeh & _ & _ & _ & _ & _ & _ & _ & _ & _ & Hend). change sizeof_Phdr with 32 in Hend.
    destruct (Heh eh Hh Eeh) as [H1 H2]. apply (collect_segments_iff bytes Hok) in Hc as (ps & Eps & El & Hl & Hd); [|lia..].
    destruct o as [d'|]; [|done]. injection Hf as <- <-. destruct Hd as [[_ ?]|(_ & p & Hp & Hdok & [= ->])]; [done|]. pose proof Hdok as (Hd1 & Hd2 & Hd3 & Hd4 & Hd5).
    assert (phdr_typed p) as (_ & Hpo & _ & Hpf & _).
    { destruct (read_phdrs_in bytes (e_phoff eh) (Z.to_nat (e_phnum eh))) as (ps' & E & Ht); [done|lia|change sizeof_Phdr with 32; lia|]. rewrite Eps in E. injection E as <-.
      rewrite Forall_forall in Ht. apply Ht. assert (p ∈ filter (fun q => p_type q = PT_DYNAMIC) ps) as Hin by (rewrite Hp; by left). by apply list_elem_of_filter in Hin as [_ ?]. }
    cbn [offset length_] in Hr. apply (read_dynamic_iff bytes Hok) in Hr as (entries & He & ->); [|lia|lia].
    exists entries. split; [|done]. exists eh, ps, p. rewrite El. done.
  - intros (entries & (eh & ps & p & Hh & Eps & -> & Hl & Hp & Hdok & He) & ->). pose proof Hdok as (Hd1 & Hd2 & Hd3 & Hd4 & Hd5). change sizeof_Dyn with 8 in *.
    pose proof Hh as (_ & _ & Eeh & _ & _ & _ & _ & _ & _ & _ & _ & _ & Hend). change sizeof_Phdr with 32 in Hend. destruct (Heh eh Hh Eeh) as [H1 H2].
    assert (phdr_typed p) as (_ & Hpo & _ & Hpf & _).
    { destruct (read_phdrs_in bytes (e_phoff eh) (Z.to_nat (e_phnum eh))) as (ps' & E & Ht); [done|lia|change sizeof_Phdr with 32; lia|]. rewrite Eps in E. injection E as <-.
      rewrite Forall_forall in Ht. apply Ht. assert (p ∈ filter (fun q => p_type q = PT_DYNAMIC) ps) as Hin by (rewrite Hp; by left). by apply list_elem_of_filter in Hin as [_ ?]. }
    exists {| offset := p_offset p; length_ := p_filesz p |}. split.
    + unfold find_dynamic. apply early_bind_Ret. exists eh. split; [by apply check_header_iff|]. apply early_bind_Ret.
      exists (filter (fun q => p_type q = PT_LOAD) ps, Some {| offset := p_offset p; length_ := p_filesz p |}). split; [|done].
      apply (collect_segments_iff bytes Hok); [lia|lia|]. exists ps. split; [done|]. split; [done|]. split; [done|]. right. split; [done|]. by exists p.
    + cbn [offset length_]. apply (read_dynamic_iff bytes Hok); [lia|lia|]. by exists entries.
Qed.

Lemma section_loads loads entries : dynamic_section bytes loads entries -> Forall (segment_in bytes) loads /\ Forall phdr_typed loads /\ Forall (load_fits bytes) loads.
Proof.
  intros (eh & ps & p & Hh & Eps & -> & Hl & _). pose proof Hh as (Hs & _ & Eeh & _ & _ & _ & _ & _ & _ & _ & _ & _ & Hend).
  destruct (read_ehdr_in bytes) as (eh' & E & (_ & H1 & H2)); [done|done|]. rewrite Eeh in E. injection E as <-. change sizeof_Phdr with 32 in Hend.
  destruct (read_phdrs_in bytes (e_phoff eh) (Z.to_nat (e_phnum eh))) as (ps' & E & Ht); [done|lia|change sizeof_Phdr with 32; lia|]. rewrite Eps in E. injection E as <-.
  assert (Forall phdr_typed (filter (fun q => p_type q = PT_LOAD) ps)) as Hty.
  { rewrite Forall_forall in *. intros q [_ Hq]%list_elem_of_filter. by apply Ht. }
  split; [done|]. split; [done|]. rewrite Forall_forall in *. intros q Hq. split; [by apply Hty|]. apply (Hl q Hq).
Qed.

Lemma count_symbols_iff loads entries n : dynamic_section bytes loads entries ->
  count_symbols bytes loads (info_of entries) = Ret (inr n) <-> symbol_number bytes loads entries n.
Proof.
  intros Hsec. destruct (section_loads _ _ Hsec) as (Hl1 & Hl2 & Hl3). destruct (noted entries) as (_ & _ & _ & _ & E5 & E6). fold (info_of entries) in E5, E6.
  unfold count_symbols, symbol_number. rewrite E5, E6.
  assert (forall a u (count : FileRange -> early string Z),
    (match map_address loads a (size bytes) with
     | None => Ret (inl (error u))
     | Some hash => match count hash with Ret (inl msg) => Ret (inl (error msg)) | Ret (inr n) => Ret (inr n) | Aborted => Aborted | Undefined => Undefined end
     end : early ElfSymbolReport Z) = Ret (inr n) <-> exists hash, located loads a hash /\ range_in bytes hash /\ count hash = Ret (inr n)) as Hgen.
  { intros a u count. split.
    - destruct (map_address loads a (size bytes)) as [hash|] eqn:Em; [|done]. intros E. exists hash. split; [by apply (map_address_iff bytes)|].
      split; [by eapply map_address_in|]. by destruct (count hash) as [[?|?]| |]; simplify_eq.
    - intros (hash & Hloc & _ & Ec). apply (map_address_iff bytes) in Hloc as ->; [|done..]. by rewrite Ec. }
  destruct (last_of DT_HASH entries) as [a|].
  - rewrite Hgen. split.
    + intros (hash & Hloc & Hin & E). apply (sysv_iff bytes Hok) in E as (b & H); [|done]. by exists hash, b.
    + intros (hash & b & Hloc & H). exists hash. split; [done|]. assert (range_in bytes hash) as Hin by (apply (map_address_iff bytes) in Hloc; [by eapply map_address_in|done..]).
      split; [done|]. apply (sysv_iff bytes Hok); [done|]. by exists b.
  - destruct (last_of DT_GNU_HASH entries) as [a|]; [|split; [done|by intros (? & ? & ? & _)]]. rewrite Hgen. split.
    + intros (hash & Hloc & Hin & E). exists a, hash. split; [done|]. split; [done|]. by apply gnu_symbol_count_direct.
    + intros (a' & hash & [= <-] & Hloc & E). exists hash. split; [done|]. assert (range_in bytes hash) as Hin by (apply (map_address_iff bytes) in Hloc; [by eapply map_address_in|done..]).
      split; [done|]. by apply gnu_symbol_count_direct.
Qed.

Lemma symbol_number_nonneg loads entries n : dynamic_section bytes loads entries -> symbol_number bytes loads entries n -> 0 <= n <= kMaxSymbols.
Proof.
  intros Hsec Hn. apply (count_symbols_iff loads entries n Hsec) in Hn. destruct (count_symbols_returns bytes loads (info_of entries)) as (r & E & Hr); [done|by eapply section_loads|].
  rewrite Hn in E. by injection E as <-.
Qed.

Lemma last_of_nonneg loads entries tag v : dynamic_section bytes loads entries -> last_of tag entries = Some v -> 0 <= v.
Proof.
  intros (eh & ps & p & _ & _ & _ & _ & _ & _ & _ & He & _) Hv. unfold last_of in Hv. apply last_Some in Hv as [l Hl].
  assert (v ∈ omap (fun d => if d_tag d =? tag then Some (d_val d) else None) entries) as Hin by (rewrite Hl; apply elem_of_app; right; by left).
  apply list_elem_of_omap in Hin as (d & [k Hk]%list_elem_of_lookup & Hd). destruct (_ =? _); [injection Hd as <-|done].
  destruct (He k d Hk) as [Hr _]. unfold read_dyn in Hr. apply exec_bind_Ret in Hr as (t & _ & Hr). apply exec_bind_Ret in Hr as (x & Hx & Hr). injection Hr as <-. cbn.
  unfold read_u32 in Hx. destruct (read_bytes bytes _ 4) as [bs| |] eqn:E; try done. injection Hx as <-. apply le_range. by eapply read_bytes_ok.
Qed.

(** From the dynamic information on: the table is scanned exactly when there is one. *)
Lemma scan_table_iff loads entries r : dynamic_section bytes loads entries ->
  scan_table bytes loads (info_of entries) = Ret (inr r) <->
  exists strings off n, symbol_table bytes loads entries strings off n /\ exported bytes strings off (Z.to_nat n) [] (exports r) /\ status r = Ok /\ message r = "ok"%string.
Proof.
  intros Hsec. destruct (section_loads _ _ Hsec) as (Hl1 & Hl2 & Hl3). destruct (noted entries) as (E1 & E2 & E3 & E4 & _). fold (info_of entries) in E1, E2, E3, E4.
  assert (forall a x, located loads a x -> range_in bytes x) as Hrange.
  { intros a x Hx. apply (map_address_iff bytes) in Hx; [|done..]. by eapply map_address_in. }
  unfold scan_table, symbol_table. rewrite E1, E2, E3, E4. split.
  - destruct (last_of DT_SYMTAB entries) as [sa|]; [|done]. destruct (last_of DT_STRTAB entries) as [ta|]; [|done]. destruct (last_of DT_STRSZ entries) as [ts|] eqn:Ets; [|done].
    destruct (last_of DT_SYMENT entries) as [se|]; [|done]. intros Hrest. apply early_bind_Ret in Hrest as (? & Hb%stop_if_inr & Hrest).
    apply orb_false_iff in Hb as [Hts%Z.eqb_neq Hse%negb_false_iff%Z.eqb_eq]. destruct (map_address loads ta (size bytes)) as [texts|] eqn:Em; [|done].
    apply early_bind_Ret in Hrest as (? & Hlen%stop_if_inr%Z.ltb_ge & Hrest). destruct (map_address loads sa (size bytes)) as [symbols|] eqn:Em2; [|done].
    apply early_bind_Ret in Hrest as (n & Hn%(count_symbols_iff loads entries n Hsec) & Hrest). apply early_bind_Ret in Hrest as (? & Hfit%stop_if_inr%negb_false_iff%range_fits_spec & Hrest).
    apply early_bind_Ret in Hrest as (out & Hout & Hrest). injection Hrest as <-. apply (map_address_iff bytes) in Em, Em2; [|done..].
    pose proof (symbol_number_nonneg _ _ _ Hsec Hn) as Hn0. destruct (Hrange _ _ Em2) as (? & ? & ?). destruct (Hrange _ _ Em) as (? & ? & ?).
    assert (0 <= ts) as Hts0.
    { by eapply last_of_nonneg. }
    apply (scan_symbols_iff bytes Hok) in Hout; [|unfold range_in; cbn; lia|lia|lia].
    eexists _, _, n. split; [exists ta, ts, sa, texts, symbols; rewrite Hse; split_and!; try done; lia|]. split; [exact Hout|done].
  - intros (strings & off & n & (ta & ts & sa & texts & symbols & -> & H2 & -> & -> & Hts & Hloc & Hle & -> & Hloc2 & -> & Hn & Hfit) & Hex & Hst & Hmsg). rewrite H2.
    pose proof (symbol_number_nonneg _ _ _ Hsec Hn) as Hn0. destruct (Hrange _ _ Hloc2) as (? & ? & ?). destruct (Hrange _ _ Hloc) as (? & ? & ?).
    assert (0 <= ts) as Hts0.
    { by eapply last_of_nonneg. }
    apply early_bind_Ret. exists tt. split; [apply stop_if_inr; rewrite (proj2 (Z.eqb_neq ts 0)) by done; done|].
    apply (map_address_iff bytes) in Hloc as ->; [|done..]. apply early_bind_Ret. exists tt. split; [by apply stop_if_inr, Z.ltb_ge|].
    apply (map_address_iff bytes) in Hloc2 as ->; [|done..]. apply early_bind_Ret. exists n. split; [by apply (count_symbols_iff loads entries n Hsec)|].
    apply early_bind_Ret. exists tt. split; [apply stop_if_inr, negb_false_iff, range_fits_spec; lia|]. apply early_bind_Ret. exists (exports r).
    split; [apply (scan_symbols_iff bytes Hok); [unfold range_in; cbn; lia|lia|lia|done]|]. destruct r; cbn in *. by subst.
Qed.

(** A refusal, or the report of a file without a dynamic symbol table. *)
Definition refusal_of (r : ElfSymbolReport) : Prop := exports r = [] /\ (status r = Ok -> exists loads entries, dynamic_section bytes loads entries /\ last_of DT_SYMTAB entries = None).

Lemma scan_table_refuses loads entries : dynamic_section bytes loads entries ->
  returns refusal_of (scan_table bytes loads (info_of entries)) (fun r => status r = Ok).
Proof.
  intros Hsec. assert (forall r, no_exports r -> refusal_of r) as Hno by (intros r [? ?]; by split).
  assert (forall msg, refusal_of (error msg)) as Herr by (intros msg; by apply Hno).
  destruct (section_loads _ _ Hsec) as (Hl1 & Hl2 & Hl3). destruct (noted entries) as (E1 & E2 & E3 & E4 & _). fold (info_of entries) in E1, E2, E3, E4.
  unfold scan_table. rewrite E1, E2, E3, E4. destruct (last_of DT_SYMTAB entries) as [sa|] eqn:Es; [|apply returns_stopped; split; [done|]; intros _; by exists loads, entries].
  destruct (last_of DT_STRTAB entries) as [ta|], (last_of DT_STRSZ entries) as [ts|] eqn:Ets, (last_of DT_SYMENT entries) as [se|]; try (by apply returns_stopped).
  apply (last_of_nonneg loads entries) in Ets; [|done].
  apply (returns_bind _ _ _ (fun _ => True)); [by apply returns_stop|]. intros _ _.
  destruct (map_address loads ta (size bytes)) as [strings|] eqn:Em; [|by apply returns_stopped]. apply map_address_in in Em as [(Hi1 & Hi2 & Hi3) _]; [|done].
  apply (returns_bind _ _ _ (fun _ => ts <= length_ strings)); [apply returns_stop; [done|]; intros ?%Z.ltb_ge; done|]. intros _ Hts.
  destruct (map_address loads sa (size bytes)) as [symbols|] eqn:Em2; [|by apply returns_stopped]. apply map_address_in in Em2 as [(Hj1 & Hj2 & Hj3) _]; [|done].
  assert (forall A (m : early ElfSymbolReport A) P, returns no_exports m P -> returns refusal_of m P) as Hweak.
  { intros A m P ([e|a] & E & H); [exists (inl e)|exists (inr a)]; (split; [done|]); auto. }
  eapply returns_bind; [apply Hweak; by apply count_symbols_returns|]. intros count Hc.
  apply (returns_bind _ _ _ (fun _ => count * 16 <= length_ symbols)).
  { apply returns_stop; [done|]. intros [? ?]%negb_false_iff%range_fits_spec. lia. }
  intros _ Hcs. eapply returns_bind; [apply Hweak, scan_symbols_returns; [done|unfold range_in; cbn; lia|done|blia]|]. intros out _. by apply returns_ret.
Qed.

(** What a report has to say of a file: the exports of the file, and success, exactly when
    it has a dynamic section with a sound symbol table, or with none. *)
Definition report_ok (r : ElfSymbolReport) : Prop :=
  (status r = Ok -> exports_of bytes (exports r)) /\ (status r <> Ok -> exports r = []) /\
  (forall names, exports_of bytes names -> status r = Ok /\ exports r = names).

Lemma dynamic_section_fun loads entries loads' entries' :
  dynamic_section bytes loads entries -> dynamic_section bytes loads' entries' -> loads = loads' /\ info_of entries = info_of entries'.
Proof.
  intros H1 H2. destruct (proj2 (section_found loads (info_of entries))) as (d & Ef & Er); [by exists entries|].
  destruct (proj2 (section_found loads' (info_of entries'))) as (d' & Ef' & Er'); [by exists entries'|]. rewrite Ef in Ef'. injection Ef' as -> ->. rewrite Er in Er'. by injection Er' as ->.
Qed.

Lemma scan_bytes_report : exists r, run_block (scan_bytes bytes) = Ret r /\ report_ok r.
Proof.
  assert (forall r, exports r = [] -> status r <> Ok -> (forall loads entries, ~ dynamic_section bytes loads entries) -> report_ok r) as Hnone.
  { intros r He Hs Hno. split; [done|]. split; [done|]. intros names (loads & entries & Hsec & _). by destruct (Hno _ _ Hsec). }
  unfold scan_bytes. destruct (find_dynamic_returns skipped error no_exports) with (bytes := bytes) as ([e|[loads d]] & Ef & Hf); [by intros|by intros|done| |].
  { rewrite Ef. cbn. exists e. split; [done|]. destruct Hf as [? ?]. apply Hnone; try done. intros loads entries Hsec.
    destruct (proj2 (section_found loads (info_of entries))) as (d & E & _); [by exists entries|]. congruence. }
  destruct Hf as [Hl (Hd1 & Hd2 & Hd3 & Hd4)]. cbn [fst snd] in *. rewrite Ef. cbn [early_bind].
  destruct (read_dynamic_in bytes (offset d) (Z.to_nat (length_ d / sizeof_Dyn)) no_info) as (o & Eo & _); [done|done|change sizeof_Dyn with 8; lia|done|]. rewrite Eo. cbn.
  destruct o as [i|]; cbn.
  2: { eexists. split; [done|]. apply Hnone; [done..|]. intros loads' entries Hsec. destruct (proj2 (section_found loads' (info_of entries))) as (d' & E & E'); [by exists entries|].
       rewrite Ef in E. injection E as <- <-. congruence. }
  destruct (proj1 (section_found loads i)) as (entries & Hsec & ->); [by exists d|].
  destruct (scan_table_refuses loads entries Hsec) as ([e|r] & Es & Hr); rewrite Es; cbn; eexists; (split; [done|]).
  - destruct Hr as [He Hst]. split; [|split; [done|]].
    + intros Hs. destruct (Hst Hs) as (l' & e' & Hsec' & Hn). rewrite He. exists l', e'. split; [done|]. by left.
    + intros names (l' & e' & Hsec' & Hcase). destruct (dynamic_section_fun _ _ _ _ Hsec Hsec') as [-> Ei]. rewrite Ei in Es. destruct Hcase as [[Hn ->]|(strings & off & n & Ht & Hex)].
      * destruct (noted e') as (_ & _ & E3 & _). fold (info_of e') in E3. unfold scan_table in Es. rewrite E3, Hn in Es. injection Es as <-. done.
      * assert (scan_table bytes l' (info_of e') = Ret (inr {| status := Ok; exports := names; message := "ok" |})) as E; [|congruence].
        apply (scan_table_iff l' e'); [done|]. by exists strings, off, n.
  - split; [|split; [done|]].
    + intros _. apply (scan_table_iff loads entries r Hsec) in Es as (strings & off & n & Ht & Hex & _). exists loads, entries. split; [done|]. right. by exists strings, off, n.
    + intros names (l' & e' & Hsec' & Hcase). destruct (dynamic_section_fun _ _ _ _ Hsec Hsec') as [-> Ei]. rewrite Ei in Es. destruct Hcase as [[Hn ->]|(strings & off & n & Ht & Hex)].
      * destruct (noted e') as (_ & _ & E3 & _). fold (info_of e') in E3. unfold scan_table in Es. by rewrite E3, Hn in Es.
      * assert (scan_table bytes l' (info_of e') = Ret (inr {| status := Ok; exports := names; message := "ok" |})) as E; [|by rewrite E in Es; injection Es as <-].
        apply (scan_table_iff l' e'); [done|]. by exists strings, off, n.
Qed.

Lemma exports_of_names names : exports_of bytes names -> NoDup names /\ Forall (fun name => wanted name = true) names.
Proof. intros (loads & entries & _ & [[_ ->]|(strings & off & n & _ & Hex)]); [split; constructor|]. by eapply exported_names. Qed.
End Scan.

Lemma scan_exports_returns regular bytes :
  bytes_ok bytes ->
  exists r, scan_elf32_jni_exports (Contents regular bytes) = Ret r /\
    (size bytes <= kMaxFileSize -> report_ok bytes r) /\ (kMaxFileSize < size bytes -> status r = Error /\ exports r = []) /\
    NoDup (exports r) /\ Forall (fun name => wanted name = true) (exports r).
Proof.
  intros Hok. unfold scan_elf32_jni_exports. destruct (Z.ltb_spec kMaxFileSize (size bytes)).
  { eexists. split; [done|]. split; [lia|]. split; [done|]. split; constructor. }
  destruct (scan_bytes_report bytes Hok) as (r & -> & Hr). exists r. split; [done|]. split; [done|]. split; [lia|]. destruct Hr as (H1 & H2 & _).
  destruct (decide (status r = Ok)) as [E|E]; [by apply (exports_of_names bytes), H1|]. rewrite (H2 E). split; constructor.
Qed.

(** C15: scanning an untrusted file is safe and exact.  On any contents
    [scan_elf32_jni_exports] returns without reading outside the file.  It reports success
    exactly when the file is at most 512 MiB, is an ARM ELF32 file with one sound
    PT_DYNAMIC segment, and the last DT_SYMTAB, DT_STRTAB, DT_STRSZ and DT_SYMENT entries
    of that segment, with the number of symbols given by its hash table, describe a symbol
    table in the file all of whose names end in DT_STRTAB (or there is no DT_SYMTAB); the
    names it then reports are exactly the wanted ones ([JNI_OnLoad] and decodable [Java_]
    symbols) of the defined, visible entries of that table, in table order and each once.
    Otherwise it reports no names. *)
Theorem scan_exports_exact regular bytes :
  bytes_ok bytes ->
  exists r, scan_elf32_jni_exports (Contents regular bytes) = Ret r /\
    (size bytes <= kMaxFileSize -> report_ok bytes r) /\ (kMaxFileSize < size bytes -> status r = Error /\ exports r = []) /\
    NoDup (exports r) /\ Forall (fun name => wanted name = true) (exports r).
Proof. apply scan_exports_returns. Qed.

(** ** A sample library *)

Definition sample_segment (ty off filesz flags : Z) : list Z :=
  to_le 4 ty ++ to_le 4 off ++ to_le 4 off ++ to_le 4 off ++ to_le 4 filesz ++ to_le 4 filesz ++ to_le 4 flags ++ to_le 4 0.

Definition sample_dyn (tag v : Z) : list Z := to_le 4 tag ++ to_le 4 v.

Definition sample_symbol (name info shndx : Z) : list Z :=
  to_le 4 name ++ to_le 4 0 ++ to_le 4 0 ++ [info; 0] ++ to_le 2 shndx.

(** Two exports, [JNI_OnLoad] and [Java_a_b], and a GNU hash table with one bucket. *)
Definition sample_library : list Z :=
  [0x7f; 0x45; 0x4c; 0x46; 1; 1; 1; 0; 0; 0; 0; 0; 0; 0; 0; 0] ++ to_le 2 ET_DYN ++ to_le 2 EM_ARM ++ to_le 4 1 ++
  to_le 4 0 ++ to_le 4 52 ++ to_le 4 0 ++ to_le 4 0 ++ to_le 2 52 ++ to_le 2 32 ++ to_le 2 2 ++ to_le 2 0 ++ to_le 2 0 ++ to_le 2 0 ++
  sample_segment PT_LOAD 0 268 5 ++ sample_segment PT_DYNAMIC 116 48 6 ++
  sample_dyn DT_STRTAB 212 ++ sample_dyn DT_STRSZ 21 ++ sample_dyn DT_SYMTAB 164 ++ sample_dyn DT_SYMENT 16 ++
  sample_dyn DT_GNU_HASH 236 ++ sample_dyn DT_NULL 0 ++
  sample_symbol 0 0 0 ++ sample_symbol 1 0x12 7 ++ sample_symbol 12 0x12 7 ++
  [0] ++ map code (lit "JNI_OnLoad") ++ [0] ++ map code (lit "Java_a_b") ++ [0] ++ [0; 0; 0] ++
  to_le 4 1 ++ to_le 4 1 ++ to_le 4 1 ++ to_le 4 0 ++ to_le 4 0 ++ to_le 4 1 ++ to_le 4 0 ++ to_le 4 1.

Lemma sample_library_bytes : bytes_ok sample_library.
Proof. unfold bytes_ok. apply (bool_decide_unpack _). vm_compute. exact I. Qed.

Lemma gnu_symbol_count_direct_witness :
  gnu_symbol_count sample_library {| offset := 236; length_ := 32 |} = Ret (inr 3) <->
  direct_symbol_count sample_library {| offset := 236; length_ := 32 |} = Ret (inr 3).
Proof.
  apply (gnu_symbol_count_direct sample_library {| offset := 236; length_ := 32 |} 3 sample_library_bytes).
  unfold range_in. vm_compute. intuition discriminate.
Defined.

Lemma scan_exports_exact_witness :
  exists r, scan_elf32_jni_exports (Contents true sample_library) = Ret r /\ exports_of sample_library [lit "JNI_OnLoad"; lit "Java_a_b"] /\ NoDup (exports r).
Proof.
  destruct (scan_exports_exact true sample_library sample_library_bytes) as (r & E & Hr & _ & Hn & _). exists r. split; [exact E|]. split; [|exact Hn].
  destruct Hr as [Hr _]; [vm_compute; discriminate|]. assert (Ret r = Ret {| status := Ok; exports := [lit "JNI_OnLoad"; lit "Java_a_b"]; message := "ok" |}) as Er by (rewrite <- E; vm_compute; reflexivity).
  injection Er as ->. exact (Hr eq_refl).
Defined.

Example sample_library_exports :
  scan_elf32_jni_exports (Contents true sample_library) =
  Ret {| status := Ok; exports := [lit "JNI_OnLoad"; lit "Java_a_b"]; message := "ok" |}.
Proof. vm_compute. reflexivity. Qed.
