(* ===== verification/ElfFixups.v ===== *)
(** * Import-time fixups of old ELF libraries

    [core/src/elf_fixups.cpp] rewrites the dynamic table of a library: directory
    parts are cut from DT_NEEDED names, DT_TEXTREL becomes the private tag
    DT_ZB_TEXTREL, and DF_TEXTREL is cleared with a DT_ZB_TEXTREL marker left
    instead.  All changes are made in a copy of the file first; then the changed
    entries are written back.

    The file's contents are an argument and a result.  [written k] is how many of
    the eight bytes of the [k]-th write reached the file ([write_exact] fails below
    eight), [synced] whether [fsync] succeeded. *)

From Stdlib Require Import Ascii.
From stdpp Require Import numbers strings list.
From S2P Require Import Prelude JniNames Bytes ElfLoader ElfDynamic ElfSymbols.
Local Open Scope Z_scope.
Local Open Scope zb_scope.
Local Ltac Zify.zify_post_hook ::= Z.div_mod_to_equations.

Definition kDtZbTextrel : Z := 0x60005A42.
Definition DT_NEEDED : Z := 1.
Definition DT_TEXTREL : Z := 22.
Definition DT_FLAGS : Z := 30.
Definition DF_TEXTREL : Z := 4.

Inductive ElfFixupStatus := Unchanged | Changed | Skipped | Error.

Record ElfFixupReport := { status : ElfFixupStatus; changes : list (list ascii); message : string }.

Definition skipped (msg : string) : ElfFixupReport := {| status := Skipped; changes := []; message := msg |}.
Definition error (msg : string) : ElfFixupReport := {| status := Error; changes := []; message := msg |}.

(** [write_object<Elf32_Dyn>]. *)
Definition write_dyn (bytes : list Z) (off : Z) (d : Elf32_Dyn) : exec (list Z) :=
  write_bytes bytes off (to_le 4 (u32 (d_tag d)) ++ to_le 4 (d_val d)).

(** The file offset of an address and how many file-backed bytes follow it. *)
Fixpoint vaddr_to_offset (loads : list Elf32_Phdr) (address file_size : Z) : option FileRange :=
  match loads with
  | [] => None
  | load :: rest =>
      let begin_ := p_vaddr load in
      let end_ := begin_ + p_filesz load in
      if (address <? begin_) || (end_ <=? address) then vaddr_to_offset rest address file_size
      else
        let result := p_offset load + (address - begin_) in
        if negb (range_fits result 1 file_size) then None else Some {| offset := result; length_ := end_ - address |}
  end.

(** The header checks are those of the symbol scanner, line for line. *)
Definition fixup_headers (bytes : list Z) : early ElfFixupReport (list Elf32_Phdr * FileRange) :=
  find_dynamic skipped error bytes.

(** The index of the terminator among the [n] entries from index [i] on. *)
Fixpoint find_terminator (bytes : list Z) (base : Z) (i n : nat) : exec (option nat) :=
  match n with
  | O => Ret None
  | S n' =>
      entry ← read_dyn bytes (base + Z.of_nat i * sizeof_Dyn);
      if d_tag entry =? DT_NULL then Ret (Some i) else find_terminator bytes base (S i) n'
  end.

(** [has_needed], DT_STRTAB and DT_STRSZ of the entries before the terminator. *)
Fixpoint string_info (bytes : list Z) (base : Z) (i n : nat) (needed : bool) (strtab strsz : option Z)
    : exec (bool * option Z * option Z) :=
  match n with
  | O => Ret (needed, strtab, strsz)
  | S n' =>
      entry ← read_dyn bytes (base + Z.of_nat i * sizeof_Dyn);
      let needed := needed || (d_tag entry =? DT_NEEDED) in
      if d_tag entry =? DT_STRTAB then string_info bytes base (S i) n' needed (Some (d_val entry)) strsz
      else if d_tag entry =? DT_STRSZ then string_info bytes base (S i) n' needed strtab (Some (d_val entry))
      else string_info bytes base (S i) n' needed strtab strsz
  end.

(** The string table, when a DT_NEEDED entry needs it. *)
Definition string_table (bytes : list Z) (loads : list Elf32_Phdr) (info : bool * option Z * option Z)
    : early ElfFixupReport FileRange :=
  let '(needed, strtab, strsz) := info in
  if needed : bool then
    match strtab with
    | None => Ret (inl (error "DT_STRTAB is not file-backed"))
    | Some address =>
        match vaddr_to_offset loads address (size bytes) with
        | None => Ret (inl (error "DT_STRTAB is not file-backed"))
        | Some table =>
            match strsz with
            | None => Ret (inr table)
            | Some declared =>
                let? _ := stop_if ((declared =? 0) || (length_ table <? declared)) (error "DT_STRSZ exceeds its file-backed segment") in
                Ret (inr {| offset := offset table; length_ := declared |})
            end
        end
    end
  else Ret (inr {| offset := 0; length_ := 0 |}).

(** [name.find_last_of("/\\")]: the index of the last slash or backslash. *)
Fixpoint last_slash (name : list ascii) : option nat :=
  match name with
  | [] => None
  | c :: name' =>
      match last_slash name' with
      | Some i => Some (S i)
      | None => if decide (c = "/"%char \/ c = "\"%char) then Some O else None
      end
  end.

(** The variables of the fixup loop. *)
Record fixups := {
  fixed : list Z;                 (** [bytes] *)
  changed_entries : list Z;
  change_log : list (list ascii); (** [changes] *)
  textrel_changed : bool;
  marker_after : bool;
}.

Definition fix_needed (file_size : Z) (strings : FileRange) (entry_offset : Z) (entry : Elf32_Dyn) (s : fixups)
    : early ElfFixupReport fixups :=
  let string_index := d_val entry in
  let? _ := stop_if (length_ strings <=? string_index) (error "DT_NEEDED string is outside DT_STRTAB") in
  let name_offset := offset strings + string_index in
  let? _ := stop_if (negb (range_fits name_offset 1 file_size)) (error "DT_NEEDED string is outside the file") in
  let? tail := lift (read_bytes (fixed s) name_offset (offset strings + length_ strings - name_offset)) in
  match c_string tail with
  | None => Ret (inl (error "unterminated DT_NEEDED string"))
  | Some name =>
      match last_slash name with
      | None => Ret (inr s)
      | Some cut =>
          let base := drop (S cut) name in
          let? _ := stop_if (bool_decide (base = []) || bool_decide (base = lit ".") || bool_decide (base = lit ".."))
                      (error "DT_NEEDED has no valid basename") in
          let new_value := string_index + Z.of_nat cut + 1 in
          let? _ := stop_if (2 ^ 32 - 1 <? new_value) (error "DT_NEEDED basename offset overflows ELF32") in
          let? bytes := lift (write_dyn (fixed s) entry_offset {| d_tag := d_tag entry; d_val := u32 new_value |}) in
          Ret (inr {| fixed := bytes; changed_entries := changed_entries s ++ [entry_offset];
                      change_log := change_log s ++ [lit "DT_NEEDED " ++ name ++ lit " -> " ++ base];
                      textrel_changed := textrel_changed s; marker_after := marker_after s |})
      end
  end.

(** One iteration of the fixup loop. *)
Definition fix_entry (file_size : Z) (strings : FileRange) (entry_offset : Z) (s : fixups) : early ElfFixupReport fixups :=
  let? entry := lift (read_dyn (fixed s) entry_offset) in
  if d_tag entry =? DT_NEEDED then fix_needed file_size strings entry_offset entry s
  else if d_tag entry =? DT_TEXTREL then
    let? bytes := lift (write_dyn (fixed s) entry_offset {| d_tag := kDtZbTextrel; d_val := 1 |}) in
    Ret (inr {| fixed := bytes; changed_entries := changed_entries s ++ [entry_offset]; change_log := change_log s;
                textrel_changed := true; marker_after := true |})
  else if (d_tag entry =? DT_FLAGS) && negb (Z.land (d_val entry) DF_TEXTREL =? 0) then
    let? bytes := lift (write_dyn (fixed s) entry_offset
                          {| d_tag := d_tag entry; d_val := Z.land (d_val entry) (u32 (Z.lnot DF_TEXTREL)) |}) in
    Ret (inr {| fixed := bytes; changed_entries := changed_entries s ++ [entry_offset]; change_log := change_log s;
                textrel_changed := true; marker_after := marker_after s |})
  else if d_tag entry =? kDtZbTextrel then
    Ret (inr {| fixed := fixed s; changed_entries := changed_entries s; change_log := change_log s;
                textrel_changed := textrel_changed s; marker_after := true |})
  else Ret (inr s).

Fixpoint fix_entries (file_size : Z) (strings : FileRange) (base : Z) (i n : nat) (s : fixups) : early ElfFixupReport fixups :=
  match n with
  | O => Ret (inr s)
  | S n' =>
      let? s := fix_entry file_size strings (base + Z.of_nat i * sizeof_Dyn) s in
      fix_entries file_size strings base (S i) n' s
  end.

(** The marker that stands for a cleared DF_TEXTREL. *)
Definition add_marker (base : Z) (terminator slots : nat) (s : fixups) : early ElfFixupReport fixups :=
  if textrel_changed s && negb (marker_after s) then
    let? _ := stop_if (bool_decide (slots <= terminator + 1)%nat) (error "DF_TEXTREL has no spare dynamic slot for the marker") in
    let marker_offset := base + Z.of_nat terminator * sizeof_Dyn in
    let null_offset := marker_offset + sizeof_Dyn in
    let? bytes := lift (write_dyn (fixed s) marker_offset {| d_tag := kDtZbTextrel; d_val := 1 |}) in
    let? bytes := lift (write_dyn bytes null_offset {| d_tag := DT_NULL; d_val := 0 |}) in
    Ret (inr {| fixed := bytes; changed_entries := changed_entries s ++ [marker_offset; null_offset]; change_log := change_log s;
                textrel_changed := true; marker_after := true |})
  else Ret (inr s).

(** Everything up to the first write: the fixed copy of the file. *)
Definition plan_fixups (bytes : list Z) : early ElfFixupReport fixups :=
  let? r := fixup_headers bytes in
  let '(loads, dynamic) := r in
  let slots := Z.to_nat (length_ dynamic / sizeof_Dyn) in
  let? t := lift (find_terminator bytes (offset dynamic) 0 slots) in
  match t with
  | None => Ret (inl (error "unterminated dynamic table"))
  | Some terminator =>
      let? info := lift (string_info bytes (offset dynamic) 0 terminator false None None) in
      let? strings := string_table bytes loads info in
      let? s := fix_entries (size bytes) strings (offset dynamic) 0 terminator
                  {| fixed := bytes; changed_entries := []; change_log := []; textrel_changed := false; marker_after := false |} in
      let? s := add_marker (offset dynamic) terminator slots s in
      Ret (inr {| fixed := fixed s; changed_entries := changed_entries s;
                  change_log := change_log s ++ (if textrel_changed s then [lit "DT_TEXTREL -> DT_ZB_TEXTREL"] else []);
                  textrel_changed := textrel_changed s; marker_after := marker_after s |})
  end.

(** Writing the changed entries back, from the [k]-th write on. *)
Fixpoint write_back (written : nat -> nat) (k : nat) (offsets : list Z) (bytes file : list Z) : exec (bool * list Z) :=
  match offsets with
  | [] => Ret (true, file)
  | off :: rest =>
      entry ← read_bytes bytes off sizeof_Dyn;
      file ← write_bytes file off (take (written k) entry);
      if decide (written k < 8)%nat then Ret (false, file) else write_back written (S k) rest bytes file
  end.

Definition fix_guest_library (written : nat -> nat) (synced : bool) (strerror : string) (file : input)
    : exec (ElfFixupReport * list Z) :=
  match file with
  | OpenError e => Ret (error ("open failed: " +:+ e), [])
  | StatError e => Ret (error ("stat failed: " +:+ e), [])
  | ReadError regular st_size e =>
      Ret (if negb regular || (st_size <? 0) || (kMaxFileSize <? st_size) then error "file size is outside the supported range"
           else error ("read failed: " +:+ e), [])
  | Contents regular bytes =>
      if negb regular || (kMaxFileSize <? size bytes) then Ret (error "file size is outside the supported range", bytes)
      else
        p ← plan_fixups bytes;
        match p with
        | inl r => Ret (r, bytes)
        | inr s =>
            if bool_decide (changed_entries s = []) then Ret ({| status := Unchanged; changes := []; message := "unchanged" |}, bytes)
            else
              '(ok, file) ← write_back written 0 (changed_entries s) (fixed s) bytes;
              Ret (if negb ok then error ("write failed: " +:+ strerror)
                   else if negb synced then error ("fsync failed: " +:+ strerror)
                   else {| status := Changed; changes := change_log s; message := "changed" |}, file)
        end
  end.

(** ** elf_has_textrel_marker *)

Fixpoint has_marker (bytes : list Z) (base : Z) (i n : nat) : exec bool :=
  match n with
  | O => Ret false
  | S n' =>
      d ← read_dyn bytes (base + Z.of_nat i * sizeof_Dyn);
      if d_tag d =? DT_NULL then Ret false
      else if (d_tag d =? kDtZbTextrel) && (d_val d =? 1) then Ret true
      else has_marker bytes base (S i) n'
  end.

Fixpoint marker_in (bytes : list Z) (phdrs : list Elf32_Phdr) : exec bool :=
  match phdrs with
  | [] => Ret false
  | p :: rest =>
      if negb (p_type p =? PT_DYNAMIC) || (kMaxDynamicSize <? p_filesz p) || negb (p_filesz p mod sizeof_Dyn =? 0) ||
         negb (range_fits (p_offset p) (p_filesz p) (size bytes))
      then marker_in bytes rest
      else
        found ← has_marker bytes (p_offset p) 0 (Z.to_nat (p_filesz p / sizeof_Dyn));
        if found : bool then Ret true else marker_in bytes rest
  end.

(** On the contents of a regular file whose reads succeed. *)
Definition elf_has_textrel_marker (bytes : list Z) : exec bool :=
  if size bytes <? sizeof_Ehdr then Ret false
  else
    eh ← read_ehdr bytes;
    if negb (bool_decide (take 4 (e_ident eh) = [0x7f; 0x45; 0x4c; 0x46])) || negb (bool_decide (e_ident eh !! 4%nat = Some 1)) ||
       negb (bool_decide (e_ident eh !! 5%nat = Some 1)) || negb (e_machine eh =? EM_ARM) ||
       negb (e_phentsize eh =? sizeof_Phdr) || (e_phnum eh =? 0) || (64 <? e_phnum eh) ||
       negb (range_fits (e_phoff eh) (e_phnum eh * sizeof_Phdr) (size bytes))
    then Ret false
    else phdrs ← read_phdrs bytes (e_phoff eh) (Z.to_nat (e_phnum eh)); marker_in bytes phdrs.

(** ** Reading and writing entries *)

Lemma read_dyn_ext bytes bytes' off :
  length bytes = length bytes' -> 0 <= off ->
  (forall i, (Z.to_nat off <= i < Z.to_nat off + 8)%nat -> bytes !! i = bytes' !! i) ->
  read_dyn bytes off = read_dyn bytes' off.
Proof.
  intros Hl Ho He. unfold read_dyn, read_u32.
  rewrite (read_bytes_ext bytes bytes' off 4), (read_bytes_ext bytes bytes' (off + 4) 4); [done|done| |done|];
    intros i Hi; apply He; lia.
Qed.

(** Only the bytes of the entry at [off] differ. *)
Definition differs_at (bytes bytes' : list Z) (off : Z) : Prop :=
  length bytes' = length bytes /\
  forall i, ~ (Z.to_nat off <= i < Z.to_nat off + 8)%nat -> bytes' !! i = bytes !! i.

Lemma write_dyn_in bytes off d :
  bytes_ok bytes -> 0 <= off -> off + 8 <= size bytes -> - 2 ^ 31 <= d_tag d < 2 ^ 31 -> 0 <= d_val d < 2 ^ 32 ->
  exists bytes', write_dyn bytes off d = Ret bytes' /\ bytes_ok bytes' /\ differs_at bytes bytes' off /\
    read_dyn bytes' off = Ret d.
Proof.
  intros Hok Ho Hs Ht Hv. unfold write_dyn. set (bs := to_le 4 (u32 (d_tag d)) ++ to_le 4 (d_val d)).
  assert (length bs = 8%nat) as Hl by (unfold bs; by rewrite length_app, !length_to_le).
  destruct (write_bytes_in bytes off bs) as (bytes' & E & Hl' & Hlk); [lia|lia|]. rewrite Hl in Hlk.
  exists bytes'. split; [done|]. split; [|split; [split; [done|]|]].
  - eapply write_bytes_ok; [exact Hok| |exact E]. apply Forall_app. split; apply to_le_ok.
  - intros i Hi. by rewrite Hlk, decide_False.
  - assert (read_bytes bytes' (off + 0) 4 = Ret (to_le 4 (u32 (d_tag d)))) as E1
      by (rewrite (read_written bytes off bs bytes' 0 4 E) by (unfold size; lia); done).
    assert (read_bytes bytes' (off + 4) 4 = Ret (to_le 4 (d_val d))) as E2
      by (rewrite (read_written bytes off bs bytes' 4 4 E) by (unfold size; lia); done).
    rewrite Z.add_0_r in E1. unfold read_dyn, read_u32. rewrite E1, E2. 
    change (le <$> Ret ?x) with (Ret (le x)). rewrite !exec_ret_bind, !le_to_le; [|done|apply u32_range].
    f_equal. destruct d as [t v]. simpl in *. f_equal. unfold s32, u32, swrap.
    rewrite Zplus_mod_idemp_l. apply (swrap_small 32); lia.
Qed.

Lemma differs_read bytes bytes' off off' :
  differs_at bytes bytes' off -> 0 <= off -> 0 <= off' -> off' + 8 <= off \/ off + 8 <= off' ->
  read_dyn bytes' off' = read_dyn bytes off'.
Proof. intros [Hl Hd] Ho Ho' Hdis. apply read_dyn_ext; [done|done|]. intros i Hi. apply Hd. lia. Qed.

(** ** The dynamic table *)

Section Table.
Context (bytes0 : list Z) (dynamic : FileRange) (Hfit : dynamic_fits bytes0 dynamic).

Definition slots : nat := Z.to_nat (length_ dynamic / 8).
Definition entry_off (i : nat) : Z := offset dynamic + Z.of_nat i * 8.

(** Entry [i] of the table in [bytes]. *)
Definition entry_is (bytes : list Z) (i : nat) (d : Elf32_Dyn) : Prop := read_dyn bytes (entry_off i) = Ret d.

Lemma entry_in i : (i < slots)%nat -> 0 <= entry_off i /\ entry_off i + 8 <= offset dynamic + length_ dynamic.
Proof. destruct Hfit as (? & ? & ? & ?). unfold slots, entry_off. lia. Qed.

Lemma entry_apart i j : i <> j -> entry_off j + 8 <= entry_off i \/ entry_off i + 8 <= entry_off j.
Proof. unfold entry_off. lia. Qed.

(** Writing entry [i] leaves the others. *)
Lemma write_entry bytes i d :
  bytes_ok bytes -> length bytes = length bytes0 -> (i < slots)%nat ->
  - 2 ^ 31 <= d_tag d < 2 ^ 31 -> 0 <= d_val d < 2 ^ 32 ->
  exists bytes', write_dyn bytes (entry_off i) d = Ret bytes' /\ bytes_ok bytes' /\ differs_at bytes bytes' (entry_off i) /\
    entry_is bytes' i d /\ (forall j e, (j < slots)%nat -> j <> i -> entry_is bytes' j e <-> entry_is bytes j e).
Proof.
  intros Hok Hl Hi Ht Hv. pose proof (entry_in i Hi) as [Hi1 Hi2]. destruct Hfit as (? & ? & ? & Hend).
  destruct (write_dyn_in bytes (entry_off i) d) as (bytes' & E & Hok' & Hd & Hr); [done|done|unfold size in *; lia|done|done|].
  exists bytes'. split; [done|]. split; [done|]. split; [done|]. split; [done|]. intros j e Hj Hne. unfold entry_is.
  pose proof (entry_in j Hj) as [Hj1 _]. rewrite (differs_read _ _ _ (entry_off j) Hd); [done|done|done|].
  apply entry_apart. done.
Qed.

Lemma entry_total bytes i :
  bytes_ok bytes -> length bytes = length bytes0 -> (i < slots)%nat ->
  exists d, entry_is bytes i d /\ - 2 ^ 31 <= d_tag d < 2 ^ 31 /\ 0 <= d_val d < 2 ^ 32.
Proof.
  intros Hok Hl Hi. pose proof (entry_in i Hi) as [Hi1 Hi2]. destruct Hfit as (? & ? & ? & Hend).
  apply read_dyn_in; [done|done|unfold size in *; lia].
Qed.

Lemma entry_is_fun bytes i d d' : entry_is bytes i d -> entry_is bytes i d' -> d = d'.
Proof. unfold entry_is. congruence. Qed.

Lemma find_terminator_in bytes i n :
  bytes_ok bytes -> length bytes = length bytes0 -> (i + n = slots)%nat ->
  exists o, find_terminator bytes (offset dynamic) i n = Ret o /\
    forall t, o = Some t -> (i <= t < slots)%nat /\ (exists v, entry_is bytes t {| d_tag := DT_NULL; d_val := v |}) /\
      forall j d, (i <= j < t)%nat -> entry_is bytes j d -> d_tag d <> DT_NULL.
Proof.
  intros Hok Hl. revert i. induction n as [|n IH]; intros i Hi; cbn [find_terminator]; [by eexists|].
  destruct (entry_total bytes i) as (d & Hd & _); [done|done|lia|]. 
  change (offset dynamic + Z.of_nat i * sizeof_Dyn) with (entry_off i). unfold entry_is in Hd. rewrite Hd, exec_ret_bind.
  destruct (Z.eqb_spec (d_tag d) DT_NULL) as [Hz|Hz].
  - eexists. split; [done|]. intros t [= <-]. split; [lia|]. split; [|lia]. exists (d_val d). unfold entry_is. rewrite Hd.
    by destruct d; simpl in *; subst.
  - destruct (IH (S i)) as (o & -> & Ho); [lia|]. eexists. split; [done|]. intros t ->.
    destruct (Ho t eq_refl) as (Ht & Hn & Hlt). split; [lia|]. split; [done|]. intros j e Hj He.
    destruct (decide (j = i)) as [->|]; [by rewrite (entry_is_fun bytes i e d He Hd)|]. eapply Hlt; [|exact He]. lia.
Qed.

Lemma string_info_in bytes i n needed strtab strsz :
  bytes_ok bytes -> length bytes = length bytes0 -> (i + n <= slots)%nat -> (forall v, strsz = Some v -> 0 <= v < 2 ^ 32) ->
  exists r, string_info bytes (offset dynamic) i n needed strtab strsz = Ret r /\ forall v, r.2 = Some v -> 0 <= v < 2 ^ 32.
Proof.
  intros Hok Hl. revert i needed strtab strsz. induction n as [|n IH]; intros i needed strtab strsz Hi Hv; cbn [string_info]; [by eexists|].
  destruct (entry_total bytes i) as (d & Hd & _ & Hdv); [done|done|lia|].
  change (offset dynamic + Z.of_nat i * sizeof_Dyn) with (entry_off i). unfold entry_is in Hd. rewrite Hd, exec_ret_bind.
  repeat case_match; apply IH; try lia; try done. by intros v [= <-].
Qed.

End Table.

(** ** What each entry becomes *)

(** The zero-terminated string at index [v] of the string table. *)
Definition string_at (bytes : list Z) (strings : FileRange) (v : Z) (name : list ascii) : Prop :=
  0 <= v < length_ strings /\ exists tail, read_bytes bytes (offset strings + v) (length_ strings - v) = Ret tail /\ c_string tail = Some name.

(** What follows the last slash or backslash. *)
Definition basename (name : list ascii) : list ascii :=
  match last_slash name with None => name | Some cut => drop (S cut) name end.

Definition had_textrel (d : Elf32_Dyn) : bool :=
  (d_tag d =? DT_TEXTREL) || ((d_tag d =? DT_FLAGS) && negb (Z.land (d_val d) DF_TEXTREL =? 0)).

(** The string table does not overlap the dynamic table. *)
Definition apart (a b : FileRange) : Prop := offset a + length_ a <= offset b \/ offset b + length_ b <= offset a.

Section Entries.
Context (bytes0 : list Z) (dynamic strings : FileRange).

(** Entry [d] of the original table and what stands in its place. *)
Definition fixed_entry (d d' : Elf32_Dyn) : Prop :=
  if d_tag d =? DT_NEEDED then
    d_tag d' = DT_NEEDED /\
    (apart strings dynamic -> exists name, string_at bytes0 strings (d_val d) name /\ string_at bytes0 strings (d_val d') (basename name))
  else if d_tag d =? DT_TEXTREL then d' = {| d_tag := kDtZbTextrel; d_val := 1 |}
  else if d_tag d =? DT_FLAGS then d' = {| d_tag := DT_FLAGS; d_val := Z.land (d_val d) (u32 (Z.lnot DF_TEXTREL)) |}
  else d' = d.

(** One step of the loop at entry [i]: [d] becomes [d']. *)
Definition stepped (i : nat) (d d' : Elf32_Dyn) (s s' : fixups) : Prop :=
  fixed_entry d d' /\ - 2 ^ 31 <= d_tag d' < 2 ^ 31 /\ 0 <= d_val d' < 2 ^ 32 /\
  ((d' = d /\ fixed s' = fixed s /\ changed_entries s' = changed_entries s) \/
   (write_dyn (fixed s) (entry_off dynamic i) d' = Ret (fixed s') /\ changed_entries s' = changed_entries s ++ [entry_off dynamic i])) /\
  textrel_changed s' = textrel_changed s || had_textrel d /\
  marker_after s' = marker_after s || (d_tag d' =? kDtZbTextrel).

Lemma c_string_drop bs name k :
  c_string bs = Some name -> (k <= length name)%nat -> c_string (drop k bs) = Some (drop k name).
Proof.
  revert bs name. induction k as [|k IH]; intros bs name Hc Hk; [done|].
  destruct bs as [|b bs]; [done|]. simpl in Hc. destruct (b =? 0); [injection Hc as <-; simpl in Hk; lia|].
  destruct (c_string bs) as [n'|] eqn:En; [|done]. injection Hc as <-. simpl in Hk. simpl. apply IH; [done|lia].
Qed.

Lemma c_string_length bs name : c_string bs = Some name -> (length name < length bs)%nat.
Proof.
  revert name. induction bs as [|b bs IH]; intros name; [done|]. simpl. case_match; [intros [= <-]; simpl; lia|].
  destruct (c_string bs) as [n'|]; [|done]. intros [= <-]. specialize (IH n' eq_refl). simpl. lia.
Qed.

Lemma last_slash_lt name cut : last_slash name = Some cut -> (cut < length name)%nat.
Proof.
  revert cut. induction name as [|c name IH]; intros cut; [done|]. simpl. destruct (last_slash name) as [i|].
  - intros [= <-]. specialize (IH i eq_refl). lia.
  - case_decide; [intros [= <-]; lia|done].
Qed.

(** A DT_NEEDED string that starts later in the same string. *)
Lemma string_at_later v name k :
  range_in bytes0 strings -> string_at bytes0 strings v name -> (k <= length name)%nat -> string_at bytes0 strings (v + Z.of_nat k) (drop k name).
Proof.
  intros (Hs1 & Hs2 & Hs3) (Hv & tail & Hr & Hc) Hk. pose proof (c_string_length _ _ Hc) as Hlt.
  apply read_bytes_Ret in Hr as (_ & _ & _ & ->).
  assert (length (take (Z.to_nat (length_ strings - v)) (drop (Z.to_nat (offset strings + v)) bytes0)) <= Z.to_nat (length_ strings - v))%nat as Hlen
    by (rewrite length_take; lia).
  split; [lia|]. eexists. split.
  - unfold read_bytes. rewrite (proj2 (Z.leb_le _ _)), (proj2 (Z.leb_le _ _)), (proj2 (Z.leb_le _ _)) by lia. reflexivity.
  - rewrite <- (c_string_drop _ _ k Hc Hk). f_equal. rewrite skipn_firstn_comm, drop_drop. f_equal; [lia|]. f_equal. lia.
Qed.

End Entries.

(** ** The fixup loop *)

Definition failed (r : ElfFixupReport) : Prop := status r = Error \/ status r = Skipped.

Lemma failed_error msg : failed (error msg).
Proof. by left. Qed.
Lemma failed_skipped msg : failed (skipped msg).
Proof. by right. Qed.
#[local] Hint Resolve failed_error failed_skipped : zb.

Section Loop.
Context (bytes0 : list Z) (dynamic strings : FileRange).
Context (Hok0 : bytes_ok bytes0) (Hfit : dynamic_fits bytes0 dynamic) (Hstr : range_in bytes0 strings).

(** The copy agrees with the file outside the dynamic table. *)
Definition same_elsewhere (bytes : list Z) : Prop :=
  length bytes = length bytes0 /\
  forall p, ~ (Z.to_nat (offset dynamic) <= p < Z.to_nat (offset dynamic + length_ dynamic))%nat -> bytes !! p = bytes0 !! p.

Lemma same_elsewhere_step bytes bytes' i :
  same_elsewhere bytes -> (i < slots dynamic)%nat -> differs_at bytes bytes' (entry_off dynamic i) -> same_elsewhere bytes'.
Proof.
  intros [Hl He] Hi [Hl' He']. pose proof (entry_in bytes0 dynamic Hfit i Hi) as [? ?]. split; [congruence|].
  intros p Hp. rewrite He'; [by apply He|]. destruct Hfit. unfold entry_off in *. lia.
Qed.

Lemma string_read bytes v n :
  same_elsewhere bytes -> apart strings dynamic -> 0 <= v -> v + n <= length_ strings -> 
  read_bytes bytes (offset strings + v) n = read_bytes bytes0 (offset strings + v) n.
Proof.
  intros [Hl He] Ha Hv Hn. destruct Hstr as (? & ? & ?). destruct Hfit as (? & ? & ? & ?).
  apply read_bytes_ext; [done|]. intros p Hp. apply He. destruct Ha; lia.
Qed.

Lemma fix_needed_returns s i d :
  bytes_ok (fixed s) -> same_elsewhere (fixed s) -> (i < slots dynamic)%nat -> entry_is dynamic (fixed s) i d ->
  - 2 ^ 31 <= d_tag d < 2 ^ 31 -> 0 <= d_val d < 2 ^ 32 -> d_tag d = DT_NEEDED ->
  returns failed (fix_needed (size bytes0) strings (entry_off dynamic i) d s)
    (fun s' => exists d', stepped bytes0 dynamic strings i d d' s s').
Proof.
  intros Hok Hse Hi Hd Ht Hv Hn. pose proof Hse as [Hl He]. destruct Hstr as (Hs1 & Hs2 & Hs3). unfold fix_needed.
  apply (returns_bind _ _ _ (fun _ => d_val d < length_ strings)); [apply returns_stop; [auto with zb|]; intros ?%Z.leb_gt; done|].
  intros _ Hlt. apply (returns_bind _ _ _ (fun _ => True)); [apply returns_stop; auto with zb|]. intros _ _.
  replace (offset strings + length_ strings - (offset strings + d_val d)) with (length_ strings - d_val d) by lia.
  destruct (read_bytes_in (fixed s) (offset strings + d_val d) (length_ strings - d_val d)) as (tail & Et & _); [lia|lia|unfold size in *; lia|].
  apply (returns_bind _ _ _ (fun t => t = tail)); [apply returns_lift; by exists tail|]. intros ? ->.
  destruct (c_string tail) as [name|] eqn:En; [|auto with zb].
  assert (apart strings dynamic -> string_at bytes0 strings (d_val d) name) as Hname.
  { intros Ha. split; [lia|]. exists tail. split; [|done]. rewrite <- Et. symmetry. apply string_read; [done|done|lia|lia]. }
  assert (had_textrel d = false) as Hnt by (unfold had_textrel; rewrite Hn; done).
  destruct (last_slash name) as [cut|] eqn:Es.
  2: { apply returns_ret. exists d. unfold stepped, fixed_entry, basename. rewrite Hnt, Hn, orb_false_r. simpl. rewrite orb_false_r.
       split; [|split; [lia|split; [done|split; [by left|done]]]].
       split; [done|]. intros Ha. exists name. rewrite Es. auto. }
  apply (returns_bind _ _ _ (fun _ => True)); [apply returns_stop; auto with zb|]. intros _ _.
  apply (returns_bind _ _ _ (fun _ => d_val d + Z.of_nat cut + 1 < 2 ^ 32)).
  { apply returns_stop; [auto with zb|]. intros ?%Z.ltb_ge. lia. }
  intros _ Hnew. rewrite u32_small by lia. set (d' := {| d_tag := d_tag d; d_val := d_val d + Z.of_nat cut + 1 |}).
  destruct (write_entry bytes0 dynamic Hfit (fixed s) i d') as (bytes' & Ew & Hok' & Hdiff & _); [done|done|done|simpl; lia|simpl; lia|].
  apply (returns_bind _ _ _ (fun b => b = bytes')); [apply returns_lift; by exists bytes'|]. intros ? ->.
  apply returns_ret. exists d'. unfold stepped, fixed_entry. cbn [fixed changed_entries textrel_changed marker_after d' d_tag d_val].
  rewrite Hnt, Hn, !orb_false_r. change (DT_NEEDED =? DT_NEEDED) with true. cbv iota.
  split; [|split; [done|split; [lia|split; [right; split; [first [done|by rewrite <- Hn]|done]|done]]]].
  split; [done|]. intros Ha. exists name. split; [by apply Hname|]. unfold basename. rewrite Es.
  replace (d_val d + Z.of_nat cut + 1) with (d_val d + Z.of_nat (S cut)) by lia.
  apply string_at_later; [done|by apply Hname|]. apply last_slash_lt in Es. lia.
Qed.

Lemma land_clear_range v m : 0 <= v < 2 ^ 32 -> 0 <= Z.land v (u32 m) < 2 ^ 32.
Proof.
  intros Hv. pose proof (u32_range m) as Hm. split; [apply Z.land_nonneg; lia|].
  destruct (decide (Z.land v (u32 m) = 0)) as [->|]; [lia|].
  apply Z.log2_lt_pow2; [assert (0 <= Z.land v (u32 m)) by (apply Z.land_nonneg; lia); lia|].
  pose proof (Z.log2_land v (u32 m) ltac:(lia) ltac:(lia)). destruct (decide (v = 0)) as [->|]; [by rewrite Z.land_0_l in *|].
  assert (Z.log2 v < 32) by (apply Z.log2_lt_pow2; lia). lia.
Qed.

(** Clearing a bit that is not set changes nothing. *)
Lemma clear_unset v : 0 <= v < 2 ^ 32 -> Z.land v DF_TEXTREL = 0 -> Z.land v (u32 (Z.lnot DF_TEXTREL)) = v.
Proof.
  intros Hv Hz. unfold u32. rewrite <- Z.land_ones, Z.land_assoc by lia.
  rewrite <- Z.ldiff_land. rewrite Z.ldiff_land.
  assert (Z.land v (Z.lnot DF_TEXTREL) = v) as ->.
  { apply Z.bits_inj'. intros k Hk. rewrite Z.land_spec, Z.lnot_spec by done.
    destruct (Z.testbit v k) eqn:E; [|done]. simpl. destruct (Z.testbit DF_TEXTREL k) eqn:E2; [|done].
    assert (Z.testbit (Z.land v DF_TEXTREL) k = true) as H by (by rewrite Z.land_spec, E, E2).
    by rewrite Hz, Z.bits_0 in H. }
  rewrite Z.land_ones by lia. by apply Z.mod_small.
Qed.

Lemma fix_entry_returns s i d :
  bytes_ok (fixed s) -> same_elsewhere (fixed s) -> (i < slots dynamic)%nat -> entry_is dynamic (fixed s) i d ->
  - 2 ^ 31 <= d_tag d < 2 ^ 31 -> 0 <= d_val d < 2 ^ 32 ->
  returns failed (fix_entry (size bytes0) strings (entry_off dynamic i) s)
    (fun s' => exists d', stepped bytes0 dynamic strings i d d' s s').
Proof.
  intros Hok Hse Hi Hd Ht Hv. pose proof Hse as [Hl _]. unfold fix_entry.
  apply (returns_bind _ _ _ (fun e => e = d)); [apply returns_lift; by exists d|]. intros ? ->.
  destruct (Z.eqb_spec (d_tag d) DT_NEEDED) as [Hn|Hn]; [by apply fix_needed_returns|].
  destruct (Z.eqb_spec (d_tag d) DT_TEXTREL) as [Htr|Htr].
  { set (d' := {| d_tag := kDtZbTextrel; d_val := 1 |}).
    destruct (write_entry bytes0 dynamic Hfit (fixed s) i d') as (bytes' & Ew & _); [done|done|done|done|done|].
    apply (returns_bind _ _ _ (fun b => b = bytes')); [apply returns_lift; by exists bytes'|]. intros ? ->.
    apply returns_ret. exists d'. unfold stepped, fixed_entry, had_textrel. rewrite Htr. simpl. rewrite !orb_true_r.
    split; [done|]. split; [done|]. split; [done|]. split; [by right|done]. }
  destruct (Z.eqb_spec (d_tag d) DT_FLAGS) as [Hf|Hf]; simpl andb.
  - assert (fixed_entry bytes0 dynamic strings d {| d_tag := d_tag d; d_val := Z.land (d_val d) (u32 (Z.lnot DF_TEXTREL)) |}) as Hfe
      by (unfold fixed_entry; by rewrite Hf).
    destruct (Z.eqb_spec (Z.land (d_val d) DF_TEXTREL) 0) as [Hz|Hz]; simpl negb; cbv iota.
    + rewrite Hf. simpl. apply returns_ret. exists d. unfold stepped, had_textrel. rewrite clear_unset in Hfe by done.
      rewrite Hf, (proj2 (Z.eqb_eq _ _) Hz). simpl. rewrite !orb_false_r.
      split; [by destruct d; simpl in *; subst|]. split; [done|]. split; [done|]. split; [by left|done].
    + set (d' := {| d_tag := d_tag d; d_val := Z.land (d_val d) (u32 (Z.lnot DF_TEXTREL)) |}) in *.
      pose proof (land_clear_range (d_val d) (Z.lnot DF_TEXTREL) Hv).
      destruct (write_entry bytes0 dynamic Hfit (fixed s) i d') as (bytes' & Ew & _); [done|done|done|done|done|].
      apply (returns_bind _ _ _ (fun b => b = bytes')); [apply returns_lift; by exists bytes'|]. intros ? ->.
      apply returns_ret. exists d'. unfold stepped, had_textrel. cbn [d' d_tag]. rewrite Hf, (proj2 (Z.eqb_neq _ _) Hz). simpl.
      rewrite orb_true_r, orb_false_r. split; [done|]. split; [lia|]. split; [done|]. split; [|done].
      right. split; [|done]. first [done|by rewrite <- Hf].
  - assert (fixed_entry bytes0 dynamic strings d d) as Hfe.
    { unfold fixed_entry. by rewrite (proj2 (Z.eqb_neq _ _) Hn), (proj2 (Z.eqb_neq _ _) Htr), (proj2 (Z.eqb_neq _ _) Hf). }
    assert (had_textrel d = false) as Hnt.
    { unfold had_textrel. by rewrite (proj2 (Z.eqb_neq _ _) Htr), (proj2 (Z.eqb_neq _ _) Hf). }
    destruct (Z.eqb_spec (d_tag d) kDtZbTextrel) as [Hz|Hz]; apply returns_ret; exists d; unfold stepped; simpl; rewrite Hnt, orb_false_r.
    + rewrite Hz. simpl. rewrite orb_true_r. split; [done|]. split; [lia|]. split; [done|]. split; [by left|done].
    + rewrite (proj2 (Z.eqb_neq _ _) Hz), orb_false_r. split; [done|]. split; [lia|]. split; [done|]. split; [by left|done].
Qed.

(** Position [p] belongs to one of the entries at [offs]. *)
Definition covered (offs : list Z) (p : nat) : Prop :=
  Exists (fun off => (Z.to_nat off <= p < Z.to_nat off + 8)%nat) offs.

(** The loop has processed the entries before [i]. *)
Record loop_ok (i : nat) (s : fixups) : Prop := {
  lo_bytes : bytes_ok (fixed s);
  lo_same : same_elsewhere (fixed s);
  lo_done : forall j, (j < i)%nat -> exists d d', entry_is dynamic bytes0 j d /\ entry_is dynamic (fixed s) j d' /\
              fixed_entry bytes0 dynamic strings d d';
  lo_todo : forall j d, (i <= j < slots dynamic)%nat -> entry_is dynamic (fixed s) j d <-> entry_is dynamic bytes0 j d;
  lo_changed : forall p, ~ covered (changed_entries s) p -> fixed s !! p = bytes0 !! p;
  lo_offsets : Forall (fun off => exists j, (j < slots dynamic)%nat /\ off = entry_off dynamic j) (changed_entries s);
  lo_textrel : textrel_changed s = true <-> exists j d, (j < i)%nat /\ entry_is dynamic bytes0 j d /\ had_textrel d = true;
  lo_marker : marker_after s = true <-> exists j d, (j < i)%nat /\ entry_is dynamic (fixed s) j d /\ d_tag d = kDtZbTextrel;
}.

(** The flags after one more entry. *)
Lemma flag_step (b b' : bool) (P : nat -> Elf32_Dyn -> Prop) i d (c : bool) :
  (b = true <-> exists j e, (j < i)%nat /\ P j e) -> b' = b || c ->
  (forall e, P i e <-> e = d /\ c = true) ->
  (b' = true <-> exists j e, (j < S i)%nat /\ P j e).
Proof.
  intros Hb -> Hi. rewrite orb_true_iff, Hb. split.
  - intros [(j & e & Hj & HP)|Hc]; [exists j, e; split; [lia|done]|]. exists i, d. split; [lia|]. by apply Hi.
  - intros (j & e & Hj & HP). destruct (decide (j = i)) as [->|]; [right; by apply Hi in HP as [_ ?]|].
    left. exists j, e. split; [lia|done].
Qed.

(** A written entry. *)
Lemma loop_write bytes bytes' i d' :
  bytes_ok bytes -> length bytes = length bytes0 -> (i < slots dynamic)%nat ->
  - 2 ^ 31 <= d_tag d' < 2 ^ 31 -> 0 <= d_val d' < 2 ^ 32 -> write_dyn bytes (entry_off dynamic i) d' = Ret bytes' ->
  bytes_ok bytes' /\ differs_at bytes bytes' (entry_off dynamic i) /\ entry_is dynamic bytes' i d' /\
  forall j e, (j < slots dynamic)%nat -> j <> i -> entry_is dynamic bytes' j e <-> entry_is dynamic bytes j e.
Proof.
  intros Hok Hl Hi Ht Hv Hw.
  destruct (write_entry bytes0 dynamic Hfit bytes i d') as (b & E & H); [done|done|done|done|done|].
  rewrite Hw in E. injection E as <-. done.
Qed.

(** The state of the loop after one step, apart from the flags. *)
Lemma loop_step_entries s s' i d d' :
  loop_ok i s -> (i < slots dynamic)%nat -> entry_is dynamic bytes0 i d -> stepped bytes0 dynamic strings i d d' s s' ->
  bytes_ok (fixed s') /\ same_elsewhere (fixed s') /\ entry_is dynamic (fixed s') i d' /\
  (forall j e, (j < slots dynamic)%nat -> j <> i -> entry_is dynamic (fixed s') j e <-> entry_is dynamic (fixed s) j e) /\
  (forall p, ~ covered (changed_entries s') p -> fixed s' !! p = bytes0 !! p) /\
  Forall (fun off => exists j, (j < slots dynamic)%nat /\ off = entry_off dynamic j) (changed_entries s').
Proof.
  intros [Hok Hse Hdone Htodo Hch Hoff Htr Hmk] Hi Hd (Hfe & Ht & Hv & Hbytes & _ & _).
  destruct Hbytes as [(-> & Hf & Hc)|(Hw & Hc)]; rewrite Hc.
  - rewrite Hf. split; [done|]. split; [done|]. split; [by apply Htodo|]. split; [done|]. split; done.
  - destruct (loop_write (fixed s) (fixed s') i d') as (Hok' & Hdiff & Hent & Hoth); [done|apply Hse|done|done|done|done|].
    split; [done|]. split; [by eapply same_elsewhere_step|]. split; [done|]. split; [done|]. split.
    + intros p Hp. destruct Hdiff as [_ Hdiff]. unfold covered in Hp. rewrite Exists_app, Exists_cons, Exists_nil in Hp.
      rewrite Hdiff by tauto. apply Hch. tauto.
    + apply Forall_app. split; [done|]. apply Forall_singleton. by exists i.
Qed.

Lemma loop_step s s' i d d' :
  loop_ok i s -> (i < slots dynamic)%nat -> entry_is dynamic bytes0 i d -> stepped bytes0 dynamic strings i d d' s s' ->
  loop_ok (S i) s'.
Proof.
  intros Hinv Hi Hd Hst. destruct (loop_step_entries s s' i d d') as (Hok' & Hse' & Hent & Hoth & Hch' & Hoff'); [done..|].
  destruct Hinv as [Hok Hse Hdone Htodo Hch Hoff Htr Hmk]. destruct Hst as (Hfe & _ & _ & _ & Etr & Emk). split; [done..| | |done|done| |].
  - intros j Hj. destruct (decide (j = i)) as [->|]; [by exists d, d'|].
    destruct (Hdone j) as (e & e' & H1 & H2 & H3); [lia|]. exists e, e'. split; [done|]. split; [|done]. apply Hoth; [lia|done|done].
  - intros j e Hj. rewrite Hoth by lia. apply Htodo. lia.
  - eapply (flag_step (textrel_changed s) _ (fun j d => entry_is dynamic bytes0 j d /\ had_textrel d = true)); [exact Htr|exact Etr|].
    intros e. split.
    + intros [He Ht]. rewrite <- (entry_is_fun dynamic bytes0 i e d He Hd). done.
    + intros [-> Ht]. done.
  - eapply (flag_step (marker_after s) _ (fun j d => entry_is dynamic (fixed s') j d /\ d_tag d = kDtZbTextrel) _ d'); [|exact Emk|].
    + rewrite Hmk. split; intros (j & e & Hj & He & Ht); exists j, e; (split; [done|]); (split; [|done]); apply Hoth; try lia; done.
    + intros e. rewrite Z.eqb_eq. split.
      * intros [He Ht]. rewrite (entry_is_fun dynamic (fixed s') i e d' He Hent) in *. done.
      * intros [-> Ht]. done.
Qed.

Lemma fix_entries_returns i n s :
  loop_ok i s -> (i + n <= slots dynamic)%nat ->
  returns failed (fix_entries (size bytes0) strings (offset dynamic) i n s) (loop_ok (i + n)).
Proof.
  revert i s. induction n as [|n IH]; intros i s Hinv Hn; cbn [fix_entries].
  { apply returns_ret. by rewrite Nat.add_0_r. }
  pose proof Hinv as [Hok Hse _ Htodo _ _ _ _].
  destruct (entry_total bytes0 dynamic Hfit bytes0 i) as (d & Hd & Ht & Hv); [done|done|lia|].
  change (offset dynamic + Z.of_nat i * sizeof_Dyn) with (entry_off dynamic i).
  eapply returns_bind; [apply (fix_entry_returns s i d); [done|done|lia|by apply Htodo; [lia|]|done|done]|].
  intros s' (d' & Hst). replace (i + S n)%nat with (S i + n)%nat by lia. apply IH; [|lia].
  eapply loop_step; [exact Hinv|lia|exact Hd|exact Hst].
Qed.
(** The complete plan: every entry before the terminator [t] is fixed; when
    DF_TEXTREL was cleared and no marker tag stands before [t], the marker takes
    the terminator's slot and the next slot becomes the terminator. *)
Record plan_ok (t : nat) (s : fixups) : Prop := {
  pl_bytes : bytes_ok (fixed s);
  pl_same : same_elsewhere (fixed s);
  pl_entries : forall j, (j < t)%nat -> exists d d', entry_is dynamic bytes0 j d /\ entry_is dynamic (fixed s) j d' /\
                 fixed_entry bytes0 dynamic strings d d';
  pl_changed : forall p, ~ covered (changed_entries s) p -> fixed s !! p = bytes0 !! p;
  pl_offsets : Forall (fun off => exists j, (j < slots dynamic)%nat /\ off = entry_off dynamic j) (changed_entries s);
  pl_textrel : textrel_changed s = true <-> exists j d, (j < t)%nat /\ entry_is dynamic bytes0 j d /\ had_textrel d = true;
  pl_tail :
    ((textrel_changed s = true -> exists j d, (j < t)%nat /\ entry_is dynamic (fixed s) j d /\ d_tag d = kDtZbTextrel) /\
     forall j d, (t <= j < slots dynamic)%nat -> entry_is dynamic (fixed s) j d <-> entry_is dynamic bytes0 j d) \/
    (textrel_changed s = true /\ (S t < slots dynamic)%nat /\ entry_is dynamic (fixed s) t {| d_tag := kDtZbTextrel; d_val := 1 |} /\
     entry_is dynamic (fixed s) (S t) {| d_tag := DT_NULL; d_val := 0 |});
}.

Lemma covered_app a b p : covered (a ++ b) p <-> covered a p \/ covered b p.
Proof. apply Exists_app. Qed.

Lemma add_marker_returns t s :
  loop_ok t s -> (t < slots dynamic)%nat ->
  returns failed (add_marker (offset dynamic) t (slots dynamic) s) (plan_ok t).
Proof.
  intros Hinv Ht. pose proof Hinv as [Hok Hse Hdone Htodo Hch Hoff Htr Hmk]. unfold add_marker.
  destruct (textrel_changed s) eqn:Etr, (marker_after s) eqn:Emk; simpl andb; cbv iota.
  2: { apply (returns_bind _ _ _ (fun _ => (S t < slots dynamic)%nat)).
       { apply returns_stop; [auto with zb|]. intros H%bool_decide_eq_false. lia. }
       intros _ Hs. set (mk := {| d_tag := kDtZbTextrel; d_val := 1 |}). set (nl := {| d_tag := DT_NULL; d_val := 0 |}).
       change (offset dynamic + Z.of_nat t * sizeof_Dyn) with (entry_off dynamic t).
       replace (entry_off dynamic t + sizeof_Dyn) with (entry_off dynamic (S t)) by (unfold entry_off, sizeof_Dyn; lia).
       destruct (write_entry bytes0 dynamic Hfit (fixed s) t mk) as (b1 & E1 & Hok1 & Hd1 & He1 & Ho1); [done|apply Hse|done|done|done|].
       apply (returns_bind _ _ _ (fun b => b = b1)); [apply returns_lift; by exists b1|]. intros ? ->.
       pose proof (same_elsewhere_step _ _ _ Hse Ht Hd1) as Hse1.
       destruct (write_entry bytes0 dynamic Hfit b1 (S t) nl) as (b2 & E2 & Hok2 & Hd2 & He2 & Ho2); [done|apply Hse1|done|done|done|].
       apply (returns_bind _ _ _ (fun b => b = b2)); [apply returns_lift; by exists b2|]. intros ? ->.
       apply returns_ret. split; cbn [fixed changed_entries textrel_changed].
       - done.
       - by eapply same_elsewhere_step.
       - intros j Hj. destruct (Hdone j Hj) as (d & d' & H1 & H2 & H3). exists d, d'. split; [done|]. split; [|done].
         apply Ho2; [lia|lia|]. apply Ho1; [lia|lia|done].
       - intros p Hp. rewrite covered_app in Hp. unfold covered at 2 in Hp. rewrite !Exists_cons in Hp.
         destruct Hd1 as [_ Hd1], Hd2 as [_ Hd2]. rewrite Hd2, Hd1 by tauto. apply Hch. tauto.
       - apply Forall_app. split; [done|]. apply Forall_cons. split; [by exists t|]. apply Forall_singleton. by exists (S t).
       - done.
       - right. split; [done|]. split; [done|]. split; [|done]. apply Ho2; [lia|lia|done]. }
  all: apply returns_ret; split; rewrite ?Etr; try done; left; (split; [|done]); try done.
  intros _. by apply Hmk.
Qed.

End Loop.

(** ** The plan for a file *)

Lemma vaddr_to_offset_in bytes loads address r :
  Forall (load_fits bytes) loads -> vaddr_to_offset loads address (size bytes) = Some r -> range_in bytes r.
Proof.
  induction 1 as [|p ps [(_ & Ho & Hv & Hf & _) Hfit] _ IH]; cbn [vaddr_to_offset]; [done|].
  destruct (Z.ltb_spec address (p_vaddr p)); simpl orb; [by apply IH|].
  destruct (Z.leb_spec (p_vaddr p + p_filesz p) address); cbv iota; [by apply IH|].
  case_match; [done|]. intros [= <-]. unfold range_in. cbn. lia.
Qed.

Lemma string_table_returns bytes loads info :
  Forall (load_fits bytes) loads -> (forall v, info.2 = Some v -> 0 <= v < 2 ^ 32) ->
  returns failed (string_table bytes loads info) (range_in bytes).
Proof.
  intros Hl Hv. destruct info as [[needed strtab] strsz]. cbn [snd] in Hv. unfold string_table. destruct needed.
  2: { apply returns_ret. unfold range_in. cbn. pose proof (size_nonneg bytes). lia. }
  destruct strtab as [a|]; [|auto with zb]. destruct (vaddr_to_offset loads a (size bytes)) as [table|] eqn:E; [|auto with zb].
  apply vaddr_to_offset_in in E as (H1 & H2 & H3); [|done]. destruct strsz as [declared|]; [|by apply returns_ret].
  specialize (Hv declared eq_refl).
  apply (returns_bind _ _ _ (fun _ => declared <= length_ table)).
  { apply returns_stop; [auto with zb|]. intros [_ ?%Z.ltb_ge]%orb_false_iff. done. }
  intros _ Hd. apply returns_ret. unfold range_in. cbn. lia.
Qed.

(** What a plan is about: the file's dynamic table, its terminator and its string table. *)
Definition planned (bytes : list Z) (s : fixups) : Prop :=
  exists loads dynamic strings t,
    fixup_headers bytes = Ret (inr (loads, dynamic)) /\ dynamic_fits bytes dynamic /\ range_in bytes strings /\
    (t < slots dynamic)%nat /\ (exists v, entry_is dynamic bytes t {| d_tag := DT_NULL; d_val := v |}) /\
    (forall j d, (j < t)%nat -> entry_is dynamic bytes j d -> d_tag d <> DT_NULL) /\
    plan_ok bytes dynamic strings t s.

Lemma plan_fixups_returns bytes :
  bytes_ok bytes -> returns failed (plan_fixups bytes) (planned bytes).
Proof.
  intros Hok. unfold plan_fixups.
  destruct (find_dynamic_returns skipped error failed failed_skipped failed_error bytes Hok) as (r0 & Er0 & Hr0).
  change (fixup_headers bytes) with (find_dynamic skipped error bytes). rewrite Er0.
  destruct r0 as [e|[loads dynamic]]; [by apply returns_stopped|]. cbn [early_bind]. destruct Hr0 as [Hl Hfit].
  cbn [fst snd] in Hl, Hfit. change (Z.to_nat (length_ dynamic / sizeof_Dyn)) with (slots dynamic).
  destruct (find_terminator_in bytes dynamic Hfit bytes 0 (slots dynamic)) as (o & Eo & Ho); [done|done|done|].
  apply (returns_bind _ _ _ (fun x => x = o)); [apply returns_lift; by exists o|]. intros ? ->.
  destruct o as [t|]; [|auto with zb]. destruct (Ho t eq_refl) as (Ht & Hnull & Hlt). clear Ho.
  destruct (string_info_in bytes dynamic Hfit bytes 0 t false None None) as (info & Ei & Hi); [done|done|lia|done|].
  apply (returns_bind _ _ _ (fun x => x = info)); [apply returns_lift; by exists info|]. intros ? ->.
  eapply returns_bind; [by apply string_table_returns|]. intros strings Hstr.
  eapply returns_bind; [apply (fix_entries_returns bytes dynamic strings Hok Hfit Hstr 0 t); [|lia]|].
  { split; cbn; try done; try (intros; lia); (split; [done|intros (? & ? & ? & _); lia]). }
  intros s1 Hs1. eapply returns_bind; [apply (add_marker_returns bytes dynamic strings Hfit t); [done|lia]|].
  intros s2 Hs2. apply returns_ret. exists loads, dynamic, strings, t.
  split; [unfold fixup_headers; done|]. split; [done|]. split; [done|]. split; [lia|]. split; [done|].
  split; [intros j d Hj; apply Hlt; lia|]. destruct Hs2. split; cbn; done.
Qed.

(** ** Writing back *)

Section WriteBack.
Context (bytes file0 : list Z) (Hlen : length bytes = length file0).

(** Every position holds the old or the new byte. *)
Lemma write_back_in written offs k file :
  length file = length file0 -> bytes_ok file -> bytes_ok bytes ->
  Forall (fun off => 0 <= off /\ off + 8 <= size file0) offs ->
  exists b file', write_back written k offs bytes file = Ret (b, file') /\ length file' = length file0 /\ bytes_ok file' /\
    (forall p, ~ covered offs p -> file' !! p = file !! p) /\
    (b = true -> forall p, covered offs p -> file' !! p = bytes !! p) /\
    ((forall j, 8 <= written j)%nat -> b = true).
Proof.
  intros Hl Hokf Hokb Hoffs. revert k file Hl Hokf. induction Hoffs as [|off offs [Ho1 Ho2] Hoffs IH]; intros k file Hl Hokf; cbn [write_back].
  { eexists _, file. split; [done|]. split; [done|]. split; [done|]. split; [done|]. split; [|done].
    intros _ p H. by apply Exists_nil in H. }
  change sizeof_Dyn with 8. unfold size in Ho2.
  destruct (read_bytes_in bytes off 8) as (entry & Ee & He & Hel); [lia|lia|unfold size; lia|]. rewrite Ee, exec_ret_bind.
  unfold size in He. 
  destruct (write_bytes_in file off (take (written k) entry)) as (f1 & Ew & Hl1 & Hlk); [lia|unfold size; rewrite length_take; lia|].
  rewrite Ew, exec_ret_bind. rewrite length_take in Hlk.
  assert (bytes_ok f1) as Hok1.
  { eapply write_bytes_ok; [exact Hokf| |exact Ew]. apply Forall_take. eapply read_bytes_ok; [exact Hokb|exact Ee]. }
  case_decide as Hw.
  - eexists _, f1. split; [done|]. split; [congruence|]. split; [done|]. split; [|split; [done|]].
    + intros p Hp. rewrite Hlk, decide_False; [done|]. intros Hp'. apply Hp. apply Exists_cons. left. lia.
    + intros Hall. specialize (Hall k). lia.
  - destruct (IH (S k) f1) as (b & file' & E & Hl' & Hok' & Hout & Hin & Hall); [congruence|done|].
    exists b, file'. split; [done|]. split; [done|]. split; [done|]. split; [|split; [|done]].
    + intros p Hp. unfold covered in Hp. rewrite Exists_cons in Hp. rewrite Hout by tauto. rewrite Hlk, decide_False; [done|]. lia.
    + intros Hb p Hp. destruct (decide (covered offs p)) as [Hc|Hc]; [by apply Hin|].
      apply Exists_cons in Hp as [Hp|Hp]; [|done]. rewrite Hout, Hlk, decide_True by (done || lia).
      rewrite lookup_take_lt, Hel by lia. f_equal. lia.
Qed.
End WriteBack.

(** ** Properties of the fixups *)

Lemma plan_offsets_fit bytes s :
  planned bytes s -> Forall (fun off => 0 <= off /\ off + 8 <= size bytes) (changed_entries s).
Proof.
  intros (loads & dynamic & strings & t & _ & Hfit & _ & _ & _ & _ & [_ _ _ _ Hoff _ _]).
  eapply Forall_impl; [exact Hoff|]. intros off (j & Hj & ->). pose proof (entry_in bytes dynamic Hfit j Hj).
  destruct Hfit as (? & ? & ? & ?). lia.
Qed.

Lemma written_plan bytes s file :
  planned bytes s -> length file = length bytes ->
  (forall p, ~ covered (changed_entries s) p -> file !! p = bytes !! p) ->
  (forall p, covered (changed_entries s) p -> file !! p = fixed s !! p) -> file = fixed s.
Proof.
  intros (loads & dynamic & strings & t & _ & _ & _ & _ & _ & _ & [_ Hse _ Hch _ _ _]) Hl Hout Hin. apply list_eq. intros p.
  destruct (decide (covered (changed_entries s) p)) as [Hc|Hc]; [by apply Hin|]. by rewrite Hout, Hch.
Qed.

Lemma written_elsewhere bytes s file :
  planned bytes s -> length file = length bytes ->
  (forall p, ~ covered (changed_entries s) p -> file !! p = bytes !! p) ->
  exists loads dynamic, fixup_headers bytes = Ret (inr (loads, dynamic)) /\ same_elsewhere bytes dynamic file.
Proof.
  intros (loads & dynamic & strings & t & Eh & Hfit & _ & _ & _ & _ & [_ _ _ _ Hoff _ _]) Hl Hout.
  exists loads, dynamic. split; [done|]. split; [done|]. intros p Hp. apply Hout. intros Hc.
  apply Exists_exists in Hc as (off & Hin & Hr). rewrite Forall_forall in Hoff. destruct (Hoff off Hin) as (j & Hj & ->).
  pose proof (entry_in bytes dynamic Hfit j Hj). destruct Hfit as (? & ? & ? & ?). unfold entry_off in *. lia.
Qed.

(** The outcomes of a fixup. *)
Lemma fix_library_cases written synced strerror bytes :
  bytes_ok bytes ->
  exists r file, fix_guest_library written synced strerror (Contents true bytes) = Ret (r, file) /\ length file = length bytes /\
    (status r = Changed -> exists s, planned bytes s /\ file = fixed s) /\
    ((forall j, 8 <= written j)%nat -> synced = true -> status r <> Changed -> file = bytes) /\
    (file = bytes \/ exists loads dynamic, fixup_headers bytes = Ret (inr (loads, dynamic)) /\ same_elsewhere bytes dynamic file).
Proof.
  intros Hok. unfold fix_guest_library. simpl negb. simpl orb.
  case_match; [eexists _, bytes; split; [done|]; split; [done|]; split; [done|]; split; [done|by left]|].
  destruct (plan_fixups_returns bytes Hok) as (r0 & -> & Hr0). rewrite exec_ret_bind. cbv beta.
  destruct r0 as [e|s].
  { eexists _, bytes. split; [done|]. split; [done|]. split; [|split; [done|by left]]. destruct Hr0 as [->| ->]; done. }
  case_bool_decide as Hc.
  { eexists _, bytes. split; [done|]. split; [done|]. split; [done|]. split; [done|by left]. }
  assert (bytes_ok (fixed s) /\ length (fixed s) = length bytes) as [Hokf Hlf].
  { destruct Hr0 as (? & ? & ? & ? & _ & _ & _ & _ & _ & _ & [? [? _] _ _ _ _ _]). done. }
  destruct (write_back_in (fixed s) bytes Hlf written (changed_entries s) 0 bytes)
    as (b & file & -> & Hl & _ & Hout & Hin & Hall); [done|done|done|by apply plan_offsets_fit|].
  rewrite exec_ret_bind. cbv beta iota. eexists _, file. split; [done|]. split; [done|]. split; [|split].
  - destruct b; simpl; [|done]. destruct synced; simpl; [|done]. intros _. exists s. split; [done|]. by apply (written_plan bytes s file); auto.
  - intros Hw -> Hne. rewrite (Hall Hw) in Hne. by destruct Hne.
  - right. by apply (written_elsewhere bytes s file).
Qed.

(** C16: fixing a library is exact.  On any file [fix_guest_library] returns without
    touching memory outside its copy, keeps the file's length and never changes a
    byte outside the dynamic table.  When it reports a change, the file is the
    planned one: every entry before the terminator is the original one, with the
    directory part of a DT_NEEDED name cut off, DT_TEXTREL replaced by the
    marker and DF_TEXTREL cleared, and a marker stands in the table when a text
    relocation was announced.  When all writes succeed and it reports no
    change, the file is as it was. *)
Theorem fix_guest_library_exact written synced strerror bytes :
  bytes_ok bytes ->
  exists r file, fix_guest_library written synced strerror (Contents true bytes) = Ret (r, file) /\ length file = length bytes /\
    (status r = Changed -> exists s, planned bytes s /\ file = fixed s) /\
    ((forall j, 8 <= written j)%nat -> synced = true -> status r <> Changed -> file = bytes) /\
    (file = bytes \/ exists loads dynamic, fixup_headers bytes = Ret (inr (loads, dynamic)) /\ same_elsewhere bytes dynamic file).
Proof. apply fix_library_cases. Qed.

(** ** The marker is found again *)

(** Fixing an entry keeps it from being a terminator. *)
Lemma fixed_entry_null bytes dynamic strings d d' :
  fixed_entry bytes dynamic strings d d' -> d_tag d <> DT_NULL -> d_tag d' <> DT_NULL.
Proof.
  unfold fixed_entry. repeat case_match; [by intros [-> _]|by intros ->..].
Qed.

(** A marker tag in the fixed table that was not in the original is a real marker. *)
Lemma fixed_entry_marker bytes dynamic strings d d' :
  fixed_entry bytes dynamic strings d d' -> d_tag d <> kDtZbTextrel -> d_tag d' = kDtZbTextrel -> d_val d' = 1.
Proof.
  unfold fixed_entry. repeat case_match; [by intros [-> _]|by intros ->|by intros ->|by intros ->].
Qed.

Lemma has_marker_found bytes0 dynamic bytes i n k :
  dynamic_fits bytes0 dynamic -> bytes_ok bytes -> length bytes = length bytes0 ->
  (i <= k < i + n)%nat -> (i + n <= slots dynamic)%nat -> entry_is dynamic bytes k {| d_tag := kDtZbTextrel; d_val := 1 |} ->
  (forall j d, (i <= j < k)%nat -> entry_is dynamic bytes j d -> d_tag d <> DT_NULL) ->
  has_marker bytes (offset dynamic) i n = Ret true.
Proof.
  intros Hfit Hok Hl. revert i. induction n as [|n IH]; intros i Hi Hn Hk Hnn; [lia|]. cbn [has_marker].
  destruct (entry_total bytes0 dynamic Hfit bytes i) as (d & Hd & _); [done|done|lia|].
  change (offset dynamic + Z.of_nat i * sizeof_Dyn) with (entry_off dynamic i).
  pose proof Hd as Hd'. unfold entry_is in Hd'. rewrite Hd', exec_ret_bind.
  destruct (decide (i = k)) as [->|].
  - by rewrite (entry_is_fun dynamic bytes k d _ Hd Hk).
  - rewrite (proj2 (Z.eqb_neq _ _)) by (eapply Hnn; [|exact Hd]; lia). case_match; [done|].
    apply IH; [lia|lia|done|]. intros j e Hj. apply Hnn. lia.
Qed.

(** The headers are where the fixups cannot change them. *)
Definition headers_apart (eh : Elf32_Ehdr) (dynamic : FileRange) : Prop :=
  sizeof_Ehdr <= offset dynamic /\ apart {| offset := e_phoff eh; length_ := e_phnum eh * sizeof_Phdr |} dynamic.

Section SameHeaders.
Context (bytes : list Z) (dynamic : FileRange) (file : list Z).
Context (Hfit : dynamic_fits bytes dynamic) (Hse : same_elsewhere bytes dynamic file).

Lemma read_elsewhere off n :
  0 <= off -> 0 <= n -> off + n <= offset dynamic \/ offset dynamic + length_ dynamic <= off ->
  read_bytes file off n = read_bytes bytes off n.
Proof.
  intros Ho Hn Hd. destruct Hse as [Hl He]. destruct Hfit as (? & ? & ? & ?). apply read_bytes_ext; [done|].
  intros i Hi. apply He. lia.
Qed.

Lemma ehdr_elsewhere : sizeof_Ehdr <= offset dynamic -> read_ehdr file = read_ehdr bytes.
Proof.
  intros H. change sizeof_Ehdr with 52 in H. unfold read_ehdr, read_u16, read_u32.
  by rewrite !read_elsewhere by lia.
Qed.

Lemma phdrs_elsewhere off n :
  0 <= off -> off + Z.of_nat n * 32 <= offset dynamic \/ offset dynamic + length_ dynamic <= off ->
  read_phdrs file off n = read_phdrs bytes off n.
Proof.
  revert off. induction n as [|n IH]; intros off Ho Hd; [done|]. cbn [read_phdrs]. change sizeof_Phdr with 32.
  rewrite IH by lia. f_equal. unfold read_phdr, read_u32. by rewrite !read_elsewhere by lia.
Qed.
End SameHeaders.

Lemma marker_in_skip bytes ps1 rest :
  Forall (fun q => p_type q <> PT_DYNAMIC) ps1 -> marker_in bytes (ps1 ++ rest) = marker_in bytes rest.
Proof.
  induction 1 as [|p ps Hp _ IH]; [done|]. cbn [app marker_in]. by rewrite (proj2 (Z.eqb_neq _ _) Hp).
Qed.

Lemma ehdr_ident bytes eh : read_ehdr bytes = Ret eh -> read_bytes bytes 0 16 = Ret (e_ident eh).
Proof.
  unfold read_ehdr. intros H. apply exec_bind_Ret in H as (ident & Hi & H). rewrite Hi.
  repeat (apply exec_bind_Ret in H as (? & _ & H)). by injection H as <-.
Qed.

Lemma ident_magic bytes eh magic :
  read_ehdr bytes = Ret eh -> read_bytes bytes 0 4 = Ret magic -> take 4 (e_ident eh) = magic.
Proof.
  intros H%ehdr_ident H4. apply read_bytes_Ret in H as (_ & _ & _ & ->), H4 as (_ & _ & _ & ->).
  by rewrite take_take.
Qed.

(** A table that has the marker before its terminator, in a file whose headers the
    marker test accepts. *)
Lemma marker_test_true bytes dynamic loads eh file k :
  bytes_ok file -> fixup_headers bytes = Ret (inr (loads, dynamic)) -> dynamic_fits bytes dynamic ->
  read_ehdr bytes = Ret eh -> ehdr_typed eh -> e_phnum eh <= 64 -> headers_apart eh dynamic -> same_elsewhere bytes dynamic file ->
  (k < slots dynamic)%nat -> entry_is dynamic file k {| d_tag := kDtZbTextrel; d_val := 1 |} ->
  (forall j d, (j < k)%nat -> entry_is dynamic file j d -> d_tag d <> DT_NULL) ->
  elf_has_textrel_marker file = Ret true.
Proof.
  intros Hokf Hh Hfit Heh (_ & Hp1 & Hp2) Hn [Ha1 Ha2] Hse Hk Hmk Hnn. pose proof Hse as [Hl _].
  apply find_dynamic_inr in Hh as (eh' & ps1 & p & ps2 & Hch & Hps & Hf & Ht & Hd).
  apply check_header_inr in Hch as (Hs & Heh' & Hm & H4 & H5 & Hma & Hpe & Hpn & Hrf).
  rewrite Heh in Heh'. injection Heh' as <-.
  assert (size file = size bytes) as Hsz by (unfold size; congruence).
  unfold elf_has_textrel_marker. rewrite Hsz, (proj2 (Z.ltb_ge _ _) Hs).
  rewrite (ehdr_elsewhere bytes dynamic file Hfit Hse Ha1), Heh, exec_ret_bind.
  rewrite (ident_magic bytes eh _ Heh Hm), !bool_decide_true, Hma, Hpe, Hrf, (proj2 (Z.eqb_neq _ _) Hpn), (proj2 (Z.ltb_ge _ _) Hn) by done.
  cbn [negb orb Z.eqb]. simpl.
  rewrite (phdrs_elsewhere bytes dynamic file Hfit Hse), Hps, exec_ret_bind.
  2: lia.
  2: { unfold apart in Ha2. cbn [offset length_] in Ha2. change sizeof_Phdr with 32 in Ha2. lia. }
  rewrite marker_in_skip by done. cbn [marker_in]. pose proof Hfit as (F1 & F2 & F3 & F4).
  rewrite Ht. replace (p_offset p) with (offset dynamic) by (by rewrite Hd). replace (p_filesz p) with (length_ dynamic) by (by rewrite Hd).
  rewrite (proj2 (Z.ltb_ge _ _) (proj2 F2)). change sizeof_Dyn with 8. rewrite F3, Hsz.
  rewrite (proj2 (range_fits_spec (offset dynamic) (length_ dynamic) (size bytes))) by lia.
  change (negb (PT_DYNAMIC =? PT_DYNAMIC)) with false. cbn [negb orb Z.eqb].
  change (Z.to_nat (length_ dynamic / 8)) with (slots dynamic).
  rewrite (has_marker_found bytes dynamic file 0 (slots dynamic) k Hfit Hokf Hl); [done|lia|lia|done|].
  intros j d Hj. apply Hnn. lia.
Qed.

(** the marker the fixups leave is the one the loader looks for.  If a fixup of
    a library with at most 64 program headers, whose headers do not overlap the
    dynamic table, succeeded with a change, some entry announced text relocations
    and no marker tag was there before, then [elf_has_textrel_marker] recognises
    the fixed file. *)
Theorem textrel_marker_recognised written synced strerror bytes r file loads dynamic eh t j d :
  bytes_ok bytes -> fix_guest_library written synced strerror (Contents true bytes) = Ret (r, file) -> status r = Changed ->
  fixup_headers bytes = Ret (inr (loads, dynamic)) -> read_ehdr bytes = Ret eh -> e_phnum eh <= 64 -> headers_apart eh dynamic ->
  find_terminator bytes (offset dynamic) 0 (slots dynamic) = Ret (Some t) ->
  (j < t)%nat -> entry_is dynamic bytes j d -> had_textrel d = true ->
  (forall i e, (i < t)%nat -> entry_is dynamic bytes i e -> d_tag e <> kDtZbTextrel) ->
  elf_has_textrel_marker file = Ret true.
Proof.
  intros Hok Hfix Hr Hh Heh Hn Hap Hterm Hj Hd Htx Hnone.
  destruct (fix_library_cases written synced strerror bytes Hok) as (r' & file' & E & _ & Hch & _).
  rewrite Hfix in E. injection E as <- <-. destruct (Hch Hr) as (s & Hpl & ->). clear Hch Hfix.
  destruct Hpl as (loads' & dynamic' & strings & t' & Hh' & Hfit & Hstr & Ht & Hnull & Hlt & Hplan).
  rewrite Hh in Hh'. injection Hh' as <- <-.
  destruct (find_terminator_in bytes dynamic Hfit bytes 0 (slots dynamic)) as (o & Eo & Ho); [done|done|done|].
  rewrite Hterm in Eo. injection Eo as <-. destruct (Ho t eq_refl) as (Ht2 & (v & Hv) & Hlt2).
  assert (t' = t) as ->.
  { destruct Hnull as [v' Hv']. destruct (decide (t' = t)) as [|Hne]; [done|exfalso].
    destruct (decide (t' < t)%nat); [by eapply (Hlt2 t'); [lia|exact Hv'|]|by eapply (Hlt t); [lia|exact Hv|]]. }
  destruct Hplan as [Hokf Hse Hent _ _ Htr Htail].
  assert (textrel_changed s = true) as Htc by (apply Htr; by exists j, d).
  assert (forall i e, (i < t)%nat -> entry_is dynamic (fixed s) i e -> d_tag e <> DT_NULL) as Hnn.
  { intros i e Hi He. destruct (Hent i Hi) as (e0 & e1 & H0 & H1 & Hfe).
    rewrite (entry_is_fun dynamic (fixed s) i e e1 He H1). eapply fixed_entry_null; [exact Hfe|]. by eapply Hlt. }
  assert (ehdr_typed eh) as Het.
  { destruct (check_header_returns skipped error failed failed_skipped failed_error bytes Hok) as (rr & Er & Hrr).
    apply find_dynamic_inr in Hh as (eh' & ? & ? & ? & Hc & _). rewrite Hc in Er. injection Er as <-.
    apply check_header_inr in Hc as (_ & Heh' & _). rewrite Heh in Heh'. injection Heh' as <-. apply Hrr. }
  destruct Htail as [[Hmk _]|(_ & Hs & Hmk & _)].
  - destruct (Hmk Htc) as (k & e & Hk & He & Hek).
    destruct (Hent k Hk) as (e0 & e1 & H0 & H1 & Hfe). rewrite (entry_is_fun dynamic (fixed s) k e e1 He H1) in *.
    assert (d_val e1 = 1) as Hv1 by (eapply fixed_entry_marker; [exact Hfe|by eapply Hnone|done]).
    eapply (marker_test_true bytes dynamic loads eh (fixed s) k); try done; [lia| |].
    + destruct e1 as [tg vl]. simpl in *. by subst.
    + intros i e' Hi. apply Hnn. lia.
  - by eapply (marker_test_true bytes dynamic loads eh (fixed s) t).
Qed.

(** ** Sample libraries *)

(** A library with [extra] unused program headers, a dynamic table of six entries
    and the string table ["\0x/liba.so\0"]. *)
Definition fixup_sample (extra : nat) (entries : list Z) : list Z :=
  let table := 116 + Z.of_nat extra * 32 in
  [0x7f; 0x45; 0x4c; 0x46; 1; 1; 1; 0; 0; 0; 0; 0; 0; 0; 0; 0] ++ to_le 2 ET_DYN ++ to_le 2 EM_ARM ++ to_le 4 1 ++
  to_le 4 0 ++ to_le 4 52 ++ to_le 4 0 ++ to_le 4 0 ++ to_le 2 52 ++ to_le 2 32 ++ to_le 2 (Z.of_nat extra + 2) ++ to_le 2 0 ++ to_le 2 0 ++ to_le 2 0 ++
  concat (replicate extra (sample_segment 0 0 0 0)) ++
  sample_segment PT_LOAD 0 (table + 59) 5 ++ sample_segment PT_DYNAMIC table 48 6 ++
  entries ++ [0] ++ map code (lit "x/liba.so") ++ [0].

Definition flags_sample : list Z :=
  fixup_sample 0 (sample_dyn DT_NEEDED 1 ++ sample_dyn DT_STRTAB 164 ++ sample_dyn DT_STRSZ 11 ++ sample_dyn DT_FLAGS 5 ++
                  sample_dyn DT_NULL 0 ++ sample_dyn DT_NULL 0).

Definition full_writes (k : nat) : nat := 8.

Lemma flags_sample_bytes : bytes_ok flags_sample.
Proof. unfold bytes_ok. apply (bool_decide_unpack _). vm_compute. exact I. Qed.

Lemma fix_guest_library_exact_witness :
  exists r file, fix_guest_library full_writes true "" (Contents true flags_sample) = Ret (r, file) /\ length file = length flags_sample /\
    (status r = Changed -> exists s, planned flags_sample s /\ file = fixed s) /\
    ((forall j, 8 <= full_writes j)%nat -> true = true -> status r <> Changed -> file = flags_sample) /\
    (file = flags_sample \/ exists loads dynamic, fixup_headers flags_sample = Ret (inr (loads, dynamic)) /\ same_elsewhere flags_sample dynamic file).
Proof. apply (fix_guest_library_exact full_writes true "" flags_sample flags_sample_bytes). Defined.

(** What the sample becomes: the basename, a cleared DF_TEXTREL and the marker. *)
Definition flags_sample_fixed : list Z :=
  fixup_sample 0 (sample_dyn DT_NEEDED 3 ++ sample_dyn DT_STRTAB 164 ++ sample_dyn DT_STRSZ 11 ++ sample_dyn DT_FLAGS 1 ++
                  sample_dyn kDtZbTextrel 1 ++ sample_dyn DT_NULL 0).

Example flags_sample_run :
  fix_guest_library full_writes true "" (Contents true flags_sample) =
  Ret ({| status := Changed; changes := [lit "DT_NEEDED x/liba.so -> liba.so"; lit "DT_TEXTREL -> DT_ZB_TEXTREL"]; message := "changed" |},
       flags_sample_fixed).
Proof. vm_compute. reflexivity. Qed.

Lemma textrel_marker_recognised_witness : elf_has_textrel_marker flags_sample_fixed = Ret true.
Proof.
  apply (textrel_marker_recognised full_writes true "" flags_sample
    {| status := Changed; changes := [lit "DT_NEEDED x/liba.so -> liba.so"; lit "DT_TEXTREL -> DT_ZB_TEXTREL"]; message := "changed" |}
    flags_sample_fixed
    [ {| p_type := 1; p_offset := 0; p_vaddr := 0; p_filesz := 175; p_memsz := 175; p_flags := 5; p_align := 0 |} ]
    {| offset := 116; length_ := 48 |}
    {| e_ident := [127; 69; 76; 70; 1; 1; 1; 0; 0; 0; 0; 0; 0; 0; 0; 0]; e_type := 3; e_machine := 40; e_version := 1; e_entry := 0;
       e_phoff := 52; e_ehsize := 52; e_phentsize := 32; e_phnum := 2 |} 4 3 {| d_tag := DT_FLAGS; d_val := 5 |}).
  - exact flags_sample_bytes.
  - vm_compute. reflexivity.
  - reflexivity.
  - vm_compute. reflexivity.
  - vm_compute. reflexivity.
  - cbn. lia.
  - split; [vm_compute; discriminate|]. left. vm_compute. discriminate.
  - vm_compute. reflexivity.
  - lia.
  - vm_compute. reflexivity.
  - reflexivity.
  - intros i e Hi He. assert (exists e', entry_is {| offset := 116; length_ := 48 |} flags_sample i e' /\ d_tag e' <> kDtZbTextrel) as (e' & He' & Hne).
    { destruct i as [|[|[|[|i]]]]; [..|lia]; eexists; (split; [vm_compute; reflexivity|discriminate]). }
    rewrite (entry_is_fun _ _ _ _ _ He He'). exact Hne.
Defined.

(** With more than 64 program headers the fixed file is not recognised. *)
Example marker_lost_many_headers :
  let dyn := sample_dyn DT_TEXTREL 0 ++ sample_dyn DT_NULL 0 ++ sample_dyn DT_NULL 0 ++ sample_dyn DT_NULL 0 ++ sample_dyn DT_NULL 0 ++ sample_dyn DT_NULL 0 in
  match fix_guest_library full_writes true "" (Contents true (fixup_sample 63 dyn)) with
  | Ret (r, file) => status r = Changed /\ elf_has_textrel_marker file = Ret false
  | _ => False
  end.
Proof. vm_compute. auto. Qed.

(** With a stale marker tag of another value no marker is written. *)
Example marker_lost_stale_tag :
  let dyn := sample_dyn DT_FLAGS 4 ++ sample_dyn kDtZbTextrel 0 ++ sample_dyn DT_NULL 0 ++ sample_dyn DT_NULL 0 ++ sample_dyn DT_NULL 0 ++ sample_dyn DT_NULL 0 in
  match fix_guest_library full_writes true "" (Contents true (fixup_sample 0 dyn)) with
  | Ret (r, file) => status r = Changed /\ elf_has_textrel_marker file = Ret false
  | _ => False
  end.
Proof. vm_compute. auto. Qed.
