(* ===== verification/HostLooper.v ===== *)
(** * Android loopers for guest threads

    [core/src/android/host_looper.cpp] implements ALooper.  A looper of a guest
    thread is polled here; a looper of a host thread is attached to that thread's
    real Android looper, whose callback enters through [dispatch_attached].

    All state is behind one mutex; a section under it is one atomic operation of
    the model, and the calls made outside it are results of the operation
    ([effect]) or arguments (what they answered).  Any interleaving of threads is
    then a sequence of these operations.  Diagnostics counters are left out.

    Guest callbacks run inside [poll_once] and [dispatch_attached] and may call
    back into the looper: [guest] is a parameter that maps the state and a call to
    the result and the state the guest left. *)

From stdpp Require Import numbers list gmap.
From S2P Require Import Prelude Bytes GuestMemory NativeCall.
Local Open Scope Z_scope.

(** ** Constants and event masks *)

Definition kAllowNonCallbacks : Z := 1.
Definition kPollWake : Z := -1.
Definition kPollCallback : Z := -2.
Definition kPollTimeout : Z := -3.
Definition kPollError : Z := -4.
Definition kEventInput : Z := 1.
Definition kEventOutput : Z := 2.
Definition kEventError : Z := 4.
Definition kEventHangup : Z := 8.
Definition kEventInvalid : Z := 16.

(** The Linux [poll] bits. *)
Definition POLLIN : Z := 1.
Definition POLLOUT : Z := 4.
Definition POLLERR : Z := 8.
Definition POLLHUP : Z := 16.
Definition POLLNVAL : Z := 32.

Definition looper_events (events : Z) : Z :=
  let result := 0 in
  let result := if has_bits events POLLIN then Z.lor result kEventInput else result in
  let result := if has_bits events POLLOUT then Z.lor result kEventOutput else result in
  let result := if has_bits events POLLERR then Z.lor result kEventError else result in
  let result := if has_bits events POLLHUP then Z.lor result kEventHangup else result in
  if has_bits events POLLNVAL then Z.lor result kEventInvalid else result.

Definition poll_events (events : Z) : Z :=
  let result := 0 in
  let result := if has_bits events kEventInput then Z.lor result POLLIN else result in
  if has_bits events kEventOutput then Z.lor result POLLOUT else result.

(** ** State *)

Record Registration := {
  r_fd : Z; r_ident : Z; r_events : Z; r_callback : Z; r_data : Z; r_serial : Z;
}.

Record Looper := {
  options : Z; references : Z; wake_fd : Z; attached : bool; real : Z; registrations : gmap Z Registration;
}.

Record Binding := { b_handle : Z; b_fd : Z; b_callback : Z; b_data : Z; b_serial : Z; active : bool }.

(** [Impl]; a [Binding*] is its index in [binding_storage], which never shrinks. *)
Record Impl := {
  thread_loopers : gmap Z Z;
  loopers : gmap Z Looper;
  bindings : gmap (Z * Z) nat;
  binding_storage : list Binding;
  next_handle : Z;
  next_serial : Z;
}.

Definition Impl_init : Impl :=
  {| thread_loopers := ∅; loopers := ∅; bindings := ∅; binding_storage := []; next_handle := 0x7a000000; next_serial := 1 |}.

(** Calls made outside the lock. *)
Inductive effect :=
| SignalEventfd (fd : Z)
| DrainEventfd (fd : Z)
| BackendAcquire (real : Z)
| BackendRelease (real : Z)
| BackendAddFd (real fd ident events : Z) (binding : nat)
| BackendRemoveFd (real fd : Z)
| BackendWake (real : Z).

Definition with_loopers (s : Impl) (l : gmap Z Looper) : Impl :=
  {| thread_loopers := thread_loopers s; loopers := l; bindings := bindings s; binding_storage := binding_storage s;
     next_handle := next_handle s; next_serial := next_serial s |}.

Definition with_registrations (l : Looper) (r : gmap Z Registration) : Looper :=
  {| options := options l; references := references l; wake_fd := wake_fd l; attached := attached l; real := real l; registrations := r |}.

Definition with_references (l : Looper) (n : Z) : Looper :=
  {| options := options l; references := n; wake_fd := wake_fd l; attached := attached l; real := real l; registrations := registrations l |}.

(** ** Bindings *)

Definition deactivate (b : Binding) : Binding :=
  {| b_handle := b_handle b; b_fd := b_fd b; b_callback := b_callback b; b_data := b_data b; b_serial := b_serial b; active := false |}.

Definition retire_locked (s : Impl) (handle fd : Z) : Impl :=
  match bindings s !! (handle, fd) with
  | None => s
  | Some i =>
      {| thread_loopers := thread_loopers s; loopers := loopers s; bindings := delete (handle, fd) (bindings s);
         binding_storage := alter deactivate i (binding_storage s); next_handle := next_handle s; next_serial := next_serial s |}
  end.

Definition bind_locked (s : Impl) (handle fd callback data serial : Z) : nat * Impl :=
  let s := retire_locked s handle fd in
  let raw := length (binding_storage s) in
  let owned := {| b_handle := handle; b_fd := fd; b_callback := callback; b_data := data; b_serial := serial; active := true |} in
  (raw,
   {| thread_loopers := thread_loopers s; loopers := loopers s;
      bindings := match bindings s !! (handle, fd) with Some _ => bindings s | None => <[(handle, fd) := raw]> (bindings s) end;
      binding_storage := binding_storage s ++ [owned]; next_handle := next_handle s; next_serial := next_serial s |}).

Definition drop_registration_locked (s : Impl) (handle fd serial : Z) : Impl :=
  match loopers s !! handle with
  | None => s
  | Some l =>
      match registrations l !! fd with
      | None => s
      | Some current =>
          if negb (r_serial current =? serial) then s
          else retire_locked (with_loopers s (<[handle := with_registrations l (delete fd (registrations l))]> (loopers s))) handle fd
      end
  end.

(** ** Loopers *)

(** The first section of [prepare]: the thread's looper if it has one. *)
Definition prepare_existing (s : Impl) (thread : Z) : option Z := thread_loopers s !! thread.

(** The second section: a new looper.  [emplace] keeps an existing element. *)
Definition prepare_insert (s : Impl) (thread opts wake real_ : Z) : Z * Impl :=
  let looper := {| options := opts; references := 1; wake_fd := wake; attached := negb (real_ =? 0); real := real_; registrations := ∅ |} in
  let handle := next_handle s in
  (handle,
   {| thread_loopers := match thread_loopers s !! thread with Some _ => thread_loopers s | None => <[thread := handle]> (thread_loopers s) end;
      loopers := match loopers s !! handle with Some _ => loopers s | None => <[handle := looper]> (loopers s) end;
      bindings := bindings s; binding_storage := binding_storage s;
      next_handle := u32 (next_handle s + 4); next_serial := next_serial s |}).

(** [prepare]: [borrower] is whether a backend exists and the thread is a borrower,
    [backend_real] what the backend's [prepare] answered, [eventfd] what the
    [eventfd] call gave. *)
Definition prepare (s : Impl) (thread opts : Z) (borrower : bool) (backend_real eventfd : Z) : Z * Impl :=
  match prepare_existing s thread with
  | Some h => (h, s)
  | None =>
      if negb (Z.land opts (Z.lnot kAllowNonCallbacks) =? 0) then (0, s)
      else
        let real_ := if borrower then backend_real else 0 in
        if real_ =? 0 then
          if eventfd <? 0 then (0, s) else prepare_insert s thread opts eventfd real_
        else prepare_insert s thread opts (-1) real_
  end.

Definition for_thread (s : Impl) (thread : Z) : Z := default 0 (thread_loopers s !! thread).

Definition acquire (s : Impl) (handle : Z) : list effect * Impl :=
  match loopers s !! handle with
  | None => ([], s)
  | Some l =>
      let l' := if negb (references l =? 2 ^ 32 - 1) then with_references l (references l + 1) else l in
      (if negb (real l =? 0) then [BackendAcquire (real l)] else [], with_loopers s (<[handle := l']> (loopers s)))
  end.

Definition release (s : Impl) (handle : Z) : list effect * Impl :=
  match loopers s !! handle with
  | None => ([], s)
  | Some l =>
      let l' := if 1 <? references l then with_references l (references l - 1) else l in
      (if negb (real l =? 0) then [BackendRelease (real l)] else [], with_loopers s (<[handle := l']> (loopers s)))
  end.

(** The locked section of [add_fd]: refused, or the call to make afterwards. *)
Definition add_fd_section (s : Impl) (handle fd ident events callback data : Z) : option effect * Impl :=
  match loopers s !! handle with
  | None => (None, s)
  | Some l =>
      if (fd <? 0) || (events =? 0) || negb (Z.land events (Z.lnot (Z.lor kEventInput kEventOutput)) =? 0) then (None, s)
      else if (callback =? 0) && ((ident <? 0) || (Z.land (options l) kAllowNonCallbacks =? 0)) then (None, s)
      else
        let serial := next_serial s in
        let reg := {| r_fd := fd; r_ident := ident; r_events := events; r_callback := callback; r_data := data; r_serial := serial |} in
        let s := {| thread_loopers := thread_loopers s;
                    loopers := <[handle := with_registrations l (<[fd := reg]> (registrations l))]> (loopers s);
                    bindings := bindings s; binding_storage := binding_storage s; next_handle := next_handle s;
                    next_serial := u64 (serial + 1) |} in
        if attached l then
          let '(binding, s) := bind_locked s handle fd callback data serial in
          (Some (BackendAddFd (real l) fd ident events binding), s)
        else (Some (SignalEventfd (wake_fd l)), s)
  end.

(** [add_fd]: [accepted] is the backend's answer. *)
Definition add_fd (s : Impl) (handle fd ident events callback data accepted : Z) : Z * list effect * Impl :=
  let serial := next_serial s in
  match add_fd_section s handle fd ident events callback data with
  | (None, s) => (-1, [], s)
  | (Some (BackendAddFd r f i e b), s) =>
      if negb (accepted =? 1) then (-1, [BackendAddFd r f i e b], drop_registration_locked s handle fd serial)
      else (1, [BackendAddFd r f i e b], s)
  | (Some e, s) => (1, [e], s)
  end.

Definition remove_fd (s : Impl) (handle fd : Z) : Z * list effect * Impl :=
  match loopers s !! handle with
  | None => (-1, [], s)
  | Some l =>
      match registrations l !! fd with
      | None => (0, [], s)
      | Some _ =>
          let s := with_loopers s (<[handle := with_registrations l (delete fd (registrations l))]> (loopers s)) in
          if attached l then (1, [BackendRemoveFd (real l) fd], retire_locked s handle fd)
          else (1, [SignalEventfd (wake_fd l)], s)
      end
  end.

Definition wake (s : Impl) (handle : Z) : list effect :=
  match loopers s !! handle with
  | None => []
  | Some l => if negb (real l =? 0) then [BackendWake (real l)] else if 0 <=? wake_fd l then [SignalEventfd (wake_fd l)] else []
  end.

Definition add_external_fd (s : Impl) (looper fd ident callback data accepted : Z) : Z * list effect * Impl :=
  add_fd s looper fd ident kEventInput callback data accepted.

Definition remove_external_fd (s : Impl) (looper fd : Z) : Z * list effect * Impl := remove_fd s looper fd.

(** ** Guest memory and guest calls *)

Record world := { impl : Impl; mem : GuestMemory }.

Definition with_impl (w : world) (s : Impl) : world := {| impl := s; mem := mem w |}.

(** An argument of a host call: a register, or a stack word from [r13] up.  [None]
    is [valid = false]. *)
Definition argument (m : GuestMemory) (regs : list Z) (position : nat) : exec (option Z) :=
  if decide (position < 4)%nat then Some <$> vec_at regs position
  else
    sp ← vec_at regs 13;
    let address := sp + 4 * Z.of_nat (position - 4) in
    if 2 ^ 32 - 1 <? address then Ret None
    else
      match host_ptr m address 4 kPageRead with
      | None => Ret None
      | Some a => Ret (Some (le (map (fun i => bytes_ m (a + Z.of_nat i)) (seq 0 4))))
      end.

Definition write_guest (m : GuestMemory) (address value : Z) : exec (bool * GuestMemory) :=
  if address =? 0 then Ret (true, m)
  else
    match host_ptr m address 4 kPageWrite with
    | None => Ret (false, m)
    | Some a => m ← host_write m a (to_le 4 value); Ret (true, m)
    end.

Section Guest.
Context (guest : world -> Z -> GuestCall -> option Z * world).

(** The call made for a ready descriptor. *)
Definition callback_args (fd events data : Z) : GuestCall := {| regs := [u32 fd; u32 events; data; 0]; stack := [] |}.

(** The callback of the real looper, with the binding at index [i]. *)
Definition dispatch_attached (w : world) (i : nat) (fd events : Z) : exec (Z * world) :=
  binding ← vec_at (binding_storage (impl w)) i;
  if negb (active binding) then Ret (0, w)
  else
    match guest w (b_callback binding) (callback_args fd events (b_data binding)) with
    | (None, w) => Ret (0, with_impl w (drop_registration_locked (impl w) (b_handle binding) fd (b_serial binding)))
    | (Some r0, w) =>
        if r0 =? 0 then Ret (0, with_impl w (drop_registration_locked (impl w) (b_handle binding) fd (b_serial binding)))
        else Ret (1, w)
    end.

(** ** poll_once *)

(** A callback of a polled looper that returned 0: only the registration it ran for goes. *)
Definition drop_polled (s : Impl) (handle : Z) (r : Registration) : Impl :=
  match loopers s !! handle with
  | None => s
  | Some l =>
      match registrations l !! r_fd r with
      | None => s
      | Some current =>
          if r_serial current =? r_serial r
          then with_loopers s (<[handle := with_registrations l (delete (r_fd r) (registrations l))]> (loopers s)) else s
      end
  end.

(** The loop over the polled registrations from index [i] on; [None] is a failed guest call. *)
Fixpoint run_ready (w : world) (handle : Z) (revents : list Z) (regs : list Registration) (i : nat)
    (callback_invoked : bool) (non_callback : option (Registration * Z)) : exec (option (bool * option (Registration * Z)) * world) :=
  match regs with
  | [] => Ret (Some (callback_invoked, non_callback), w)
  | r :: rest =>
      re ← vec_at revents (S i);
      let events := looper_events re in
      if events =? 0 then run_ready w handle revents rest (S i) callback_invoked non_callback
      else if negb (r_callback r =? 0) then
        match guest w (r_callback r) (callback_args (r_fd r) events (r_data r)) with
        | (None, w) => Ret (None, w)
        | (Some r0, w) =>
            let w := if r0 =? 0 then with_impl w (drop_polled (impl w) handle r) else w in
            run_ready w handle revents rest (S i) true non_callback
        end
      else
        run_ready w handle revents rest (S i) callback_invoked
          (match non_callback with None => Some (r, events) | Some _ => non_callback end)
  end.

(** [iter] is the iteration order of the registration table, [poll] the host's
    [poll], repeated until it is not interrupted: the number of ready descriptors
    (negative for an error) and their events. *)
Context (iter : gmap Z Registration -> list Registration).
Context (poll : list (Z * Z) -> Z -> Z * list Z).

Definition poll_set (wake : Z) (rs : list Registration) : list (Z * Z) :=
  (wake, POLLIN) :: map (fun r => (r_fd r, poll_events (r_events r))) rs.

(** Stores the descriptor, its events and its data through the guest's pointers. *)
Definition write_result (w : world) (out_fd out_events out_data : Z) (r : Registration) (events : Z) : exec (bool * world) :=
  '(ok, m) ← write_guest (mem w) out_fd (u32 (r_fd r));
  if negb ok then Ret (false, {| impl := impl w; mem := m |})
  else
    '(ok, m) ← write_guest m out_events (u32 events);
    if negb ok then Ret (false, {| impl := impl w; mem := m |})
    else '(ok, m) ← write_guest m out_data (r_data r); Ret (ok, {| impl := impl w; mem := m |}).

Definition poll_once (w : world) (thread timeout out_fd out_events out_data : Z) : exec (Z * list effect * world) :=
  match thread_loopers (impl w) !! thread with
  | None => Ret (kPollError, [], w)
  | Some handle =>
      match loopers (impl w) !! handle with
      | None => Ret (kPollError, [], w)
      | Some l =>
          if attached l then Ret (kPollWake, [], w)
          else
            let rs := iter (registrations l) in
            let '(ready, revents) := poll (poll_set (wake_fd l) rs) timeout in
            if ready <? 0 then Ret (kPollError, [], w)
            else if ready =? 0 then Ret (kPollTimeout, [], w)
            else
              first ← vec_at revents 0;
              let woke := negb (first =? 0) in
              let effects := if woke then [DrainEventfd (wake_fd l)] else [] in
              '(r, w) ← run_ready w handle revents rs 0 false None;
              match r with
              | None => Ret (kPollError, effects, w)
              | Some (true, _) => Ret (kPollCallback, effects, w)
              | Some (false, Some (reg, events)) =>
                  '(ok, w) ← write_result w out_fd out_events out_data reg events;
                  Ret (if negb ok then kPollError else r_ident reg, effects, w)
              | Some (false, None) => Ret (if woke then kPollWake else kPollError, effects, w)
              end
      end
  end.

(** ** handle_host_call *)

Definition ZB_COMPAT_HC_ALooper_acquire : Z := 220.
Definition ZB_COMPAT_HC_ALooper_addFd : Z := 221.
Definition ZB_COMPAT_HC_ALooper_forThread : Z := 222.
Definition ZB_COMPAT_HC_ALooper_pollOnce : Z := 223.
Definition ZB_COMPAT_HC_ALooper_prepare : Z := 224.
Definition ZB_COMPAT_HC_ALooper_release : Z := 225.
Definition ZB_COMPAT_HC_ALooper_removeFd : Z := 226.
Definition ZB_COMPAT_HC_ALooper_wake : Z := 227.

(** What the host answers during one host call. *)
Record host_answers := { a_borrower : bool; a_real : Z; a_eventfd : Z; a_accepted : Z }.

(** The result registers: r0 the value, r1 zero. *)
Definition finish (regs : list Z) (result : Z) : exec (list Z) :=
  regs ← vec_set regs 0 (u32 result); vec_set regs 1 0.

(** [None]: the index is not a looper call. *)
Definition handle_host_call (w : world) (answers : host_answers) (index thread : Z) (regs : list Z)
    : exec (option (list Z) * list effect * world) :=
  let s := impl w in
  let done (result : Z) (es : list effect) (w : world) : exec (option (list Z) * list effect * world) :=
    regs ← finish regs result; Ret (Some regs, es, w) in
  r0 ← vec_at regs 0; r1 ← vec_at regs 1; r2 ← vec_at regs 2; r3 ← vec_at regs 3;
  if index =? ZB_COMPAT_HC_ALooper_forThread then done (s32 (for_thread s thread)) [] w
  else if index =? ZB_COMPAT_HC_ALooper_prepare then
    let '(looper, s) := prepare s thread (s32 r0) (a_borrower answers) (a_real answers) (a_eventfd answers) in
    done (s32 looper) [] (with_impl w s)
  else if index =? ZB_COMPAT_HC_ALooper_acquire then
    let '(es, s) := acquire s r0 in done 0 es (with_impl w s)
  else if index =? ZB_COMPAT_HC_ALooper_release then
    let '(es, s) := release s r0 in done 0 es (with_impl w s)
  else if index =? ZB_COMPAT_HC_ALooper_addFd then
    callback ← argument (mem w) regs 4; data ← argument (mem w) regs 5;
    match callback, data with
    | Some callback, Some data =>
        let '(added, es, s) := add_fd s r0 (s32 r1) (s32 r2) (s32 r3) callback data (a_accepted answers) in
        done added es (with_impl w s)
    | _, _ => done (-1) [] w
    end
  else if index =? ZB_COMPAT_HC_ALooper_removeFd then
    let '(removed, es, s) := remove_fd s r0 (s32 r1) in done removed es (with_impl w s)
  else if index =? ZB_COMPAT_HC_ALooper_wake then done 0 (wake s r0) w
  else if index =? ZB_COMPAT_HC_ALooper_pollOnce then
    '(result, es, w) ← poll_once w thread (s32 r0) r1 r2 r3; done result es w
  else Ret (None, [], w).

End Guest.

(** ** Histories *)

(** One locked section, from any thread.  [ls_drop] is the second section of a
    failed [add_fd] or of a host callback that ended its registration,
    [ls_drop_polled] that of a polled callback, which only a looper that is not
    attached has. *)
Inductive looper_step (s : Impl) : Impl -> Prop :=
| ls_prepare t op b r e : looper_step s (prepare s t op b r e).2
| ls_acquire h : looper_step s (acquire s h).2
| ls_release h : looper_step s (release s h).2
| ls_add_fd h fd i e c d : looper_step s (add_fd_section s h fd i e c d).2
| ls_drop h fd n : looper_step s (drop_registration_locked s h fd n)
| ls_drop_polled h r : (forall l, loopers s !! h = Some l -> attached l = false) -> looper_step s (drop_polled s h r)
| ls_remove_fd h fd : looper_step s (remove_fd s h fd).2.

(** Any number of sections, from any threads. *)
Definition looper_steps : Impl -> Impl -> Prop := rtc looper_step.

(** ** Bindings and registrations *)

(** [r] is registered for [fd] on the attached looper [h]. *)
Definition live (s : Impl) (h fd : Z) (r : Registration) : Prop :=
  exists l, loopers s !! h = Some l /\ attached l = true /\ registrations l !! fd = Some r.

Definition binding_of (h fd : Z) (r : Registration) : Binding :=
  {| b_handle := h; b_fd := fd; b_callback := r_callback r; b_data := r_data r; b_serial := r_serial r; active := true |}.

(** The active bindings are exactly the registrations of attached loopers. *)
Record bindings_ok (s : Impl) : Prop := {
  bi_live : forall h fd r, live s h fd r ->
    exists i, bindings s !! (h, fd) = Some i /\ binding_storage s !! i = Some (binding_of h fd r);
  bi_bound : forall h fd i, bindings s !! (h, fd) = Some i ->
    exists r, live s h fd r /\ binding_storage s !! i = Some (binding_of h fd r);
  bi_active : forall i b, binding_storage s !! i = Some b -> active b = true ->
    bindings s !! (b_handle b, b_fd b) = Some i;
}.

(** Loopers that differ only in what bindings do not depend on. *)
Definition same_live (s s' : Impl) : Prop :=
  bindings s' = bindings s /\ binding_storage s' = binding_storage s /\ forall h fd r, live s' h fd r <-> live s h fd r.

Lemma bindings_ok_same s s' : same_live s s' -> bindings_ok s -> bindings_ok s'.
Proof.
  intros (Hb & Hst & Hl) [H1 H2 H3]. split.
  - intros h fd r Hr. rewrite Hb, Hst. by apply H1, Hl.
  - intros h fd i. rewrite Hb, Hst. intros Hi. destruct (H2 h fd i Hi) as (r & Hr & ?). exists r. split; [by apply Hl|done].
  - intros i b. rewrite Hst, Hb. apply H3.
Qed.

(** Changing a looper without touching [attached] or its registrations. *)
Lemma live_update s h l l' :
  loopers s !! h = Some l -> attached l' = attached l -> registrations l' = registrations l ->
  same_live s (with_loopers s (<[h := l']> (loopers s))).
Proof.
  intros Hl Ha Hr. split; [done|]. split; [done|]. intros h' fd r. unfold live. cbn [loopers with_loopers].
  destruct (decide (h' = h)) as [->|Hne]; [rewrite lookup_insert_eq|rewrite lookup_insert_ne by done; done].
  split.
  - intros (l0 & [= <-] & ? & ?). exists l. split; [done|]. by rewrite <- Ha, <- Hr.
  - intros (l0 & Hl0 & ? & ?). rewrite Hl in Hl0. injection Hl0 as <-. exists l'. by rewrite Ha, Hr.
Qed.

(** Changing a registration of a looper that is not attached. *)
Lemma live_unattached s h l rs :
  loopers s !! h = Some l -> attached l = false ->
  same_live s (with_loopers s (<[h := with_registrations l rs]> (loopers s))).
Proof.
  intros Hl Ha. split; [done|]. split; [done|]. intros h' fd r. unfold live. cbn [loopers with_loopers].
  destruct (decide (h' = h)) as [->|Hne]; [rewrite lookup_insert_eq|rewrite lookup_insert_ne by done; done].
  split; [intros (l0 & [= <-] & Hatt & _); cbn in Hatt; congruence|]. intros (l0 & Hl0 & Hatt & _). congruence.
Qed.

(** The registrations of other descriptors stay; [fd] of [h] holds [o]. *)
Lemma live_set s h l fd o :
  loopers s !! h = Some l -> attached l = true ->
  let s' := with_loopers s (<[h := with_registrations l (partial_alter (fun _ => o) fd (registrations l))]> (loopers s)) in
  forall h' fd' r, live s' h' fd' r <-> if decide ((h', fd') = (h, fd)) then o = Some r else live s h' fd' r.
Proof.
  intros Hl Ha s' h' fd' r. unfold s', live. cbn [loopers with_loopers].
  destruct (decide (h' = h)) as [->|Hne]; [rewrite lookup_insert_eq|rewrite lookup_insert_ne by done].
  - destruct (decide (fd' = fd)) as [->|Hne].
    + rewrite decide_True by done. split.
      * intros (l0 & [= <-] & _ & Hr). cbn in Hr. by rewrite lookup_partial_alter_eq in Hr.
      * intros Hr. eexists. split; [done|]. split; [done|]. cbn. by rewrite lookup_partial_alter_eq.
    + rewrite decide_False by congruence. split.
      * intros (l0 & [= <-] & _ & Hr). cbn in Hr. rewrite lookup_partial_alter_ne in Hr by done. by exists l.
      * intros (l0 & Hl0 & _ & Hr). rewrite Hl in Hl0. injection Hl0 as <-. eexists. split; [done|]. split; [done|].
        cbn. by rewrite lookup_partial_alter_ne.
  - rewrite decide_False by congruence. done.
Qed.

(** After retiring [(h, fd)], a state whose live registrations lost exactly that key. *)
Lemma retire_ok s0 s h fd :
  bindings_ok s0 -> bindings s = bindings s0 -> binding_storage s = binding_storage s0 ->
  (forall h' fd' r, live s h' fd' r <-> (h', fd') <> (h, fd) /\ live s0 h' fd' r) ->
  bindings_ok (retire_locked s h fd).
Proof.
  intros [H1 H2 H3] Hb Hst Hl. unfold retire_locked. rewrite Hb, Hst.
  destruct (bindings s0 !! (h, fd)) as [i|] eqn:Ei.
  - destruct (H2 h fd i Ei) as (r0 & Hr0 & Hsi).
    assert (forall h' fd' j r, binding_storage s0 !! j = Some (binding_of h' fd' r) -> (h', fd') <> (h, fd) -> j <> i) as Hne.
    { intros h' fd' j r Hj Hk ->. rewrite Hsi in Hj. injection Hj as -> ->. done. }
    split; cbn [bindings binding_storage].
    + intros h' fd' r Hr. apply Hl in Hr as [Hk Hr]. destruct (H1 h' fd' r Hr) as (j & Hj & Hsj).
      exists j. rewrite lookup_delete_ne by done. split; [done|]. rewrite list_lookup_alter_ne; [done|]. by eapply not_eq_sym, Hne.
    + intros h' fd' j [Hk Hj]%lookup_delete_Some. destruct (H2 h' fd' j Hj) as (r & Hr & Hsj). exists r.
      split; [apply Hl; by split|]. rewrite list_lookup_alter_ne; [done|]. by eapply not_eq_sym, Hne.
    + intros j b Hj Hact. destruct (decide (j = i)) as [->|Hji].
      * rewrite list_lookup_alter_eq, Hsi in Hj. by injection Hj as <-.
      * rewrite list_lookup_alter_ne in Hj by done. rewrite lookup_delete_ne; [by apply H3|].
        intros E. specialize (H3 j b Hj Hact). rewrite <- E, Ei in H3. congruence.
  - split; rewrite ?Hb, ?Hst.
    + intros h' fd' r Hr. apply Hl in Hr as [_ Hr]. by apply H1.
    + intros h' fd' j Hj. destruct (H2 h' fd' j Hj) as (r & Hr & Hsj). exists r. split; [|done]. apply Hl. split; [congruence|done].
    + apply H3.
Qed.

(** A new binding for a key that has none, with its registration. *)
Lemma extend_ok t s' h fd r :
  bindings_ok t -> bindings t !! (h, fd) = None ->
  bindings s' = <[(h, fd) := length (binding_storage t)]> (bindings t) ->
  binding_storage s' = binding_storage t ++ [binding_of h fd r] ->
  (forall h' fd' r', live s' h' fd' r' <-> if decide ((h', fd') = (h, fd)) then Some r = Some r' else live t h' fd' r') ->
  bindings_ok s'.
Proof.
  intros [H1 H2 H3] Hnone Hb Hst Hl. set (n := length (binding_storage t)) in *. split.
  - intros h' fd' r' Hr'. apply Hl in Hr'. rewrite Hb, Hst. case_decide as Hk.
    + injection Hk as -> ->. injection Hr' as <-. exists n. rewrite lookup_insert_eq. split; [done|].
      by rewrite lookup_app_r, Nat.sub_diag by (unfold n; lia).
    + destruct (H1 _ _ _ Hr') as (j & Hj & Hsj). exists j. rewrite lookup_insert_ne by congruence. split; [done|].
      by apply lookup_app_l_Some.
  - intros h' fd' j. rewrite Hb, Hst. destruct (decide ((h', fd') = (h, fd))) as [Hk|Hk].
    + injection Hk as -> ->. rewrite lookup_insert_eq. intros [= <-]. exists r. split; [apply Hl; by rewrite decide_True|].
      by rewrite lookup_app_r, Nat.sub_diag by (unfold n; lia).
    + rewrite lookup_insert_ne by congruence. intros Hj. destruct (H2 _ _ _ Hj) as (r' & Hr' & Hsj). exists r'.
      split; [apply Hl; by rewrite decide_False|]. by apply lookup_app_l_Some.
  - intros j b. rewrite Hb, Hst. intros [Hj|[Hlen Hj]]%lookup_app_Some Hact.
    + specialize (H3 j b Hj Hact). rewrite lookup_insert_ne; [done|]. intros E. rewrite <- E, Hnone in H3. done.
    + destruct (j - length (binding_storage t))%nat as [|k] eqn:Ek; [|done]. cbn in Hj. injection Hj as <-. cbn.
      rewrite lookup_insert_eq. f_equal. unfold n. lia.
Qed.

Lemma retired_none s h fd : bindings (retire_locked s h fd) !! (h, fd) = None.
Proof. unfold retire_locked. destruct (bindings s !! (h, fd)) eqn:E; [|done]. cbn. apply lookup_delete_eq. Qed.

Lemma retire_loopers s h fd : loopers (retire_locked s h fd) = loopers s.
Proof. unfold retire_locked. by case_match. Qed.

Lemma live_loopers s s' h fd r : loopers s' = loopers s -> live s' h fd r <-> live s h fd r.
Proof. unfold live. by intros ->. Qed.

(** Removing [fd] from an attached looper and retiring its binding. *)
Lemma remove_ok s h l fd :
  bindings_ok s -> loopers s !! h = Some l -> attached l = true ->
  bindings_ok (retire_locked (with_loopers s (<[h := with_registrations l (delete fd (registrations l))]> (loopers s))) h fd).
Proof.
  intros Hok Hl Ha. apply (retire_ok s); [done|done|done|]. intros h' fd' r.
  rewrite (live_set s h l fd None Hl Ha). case_decide as Hk; [|tauto]. split; [done|]. by intros [? _].
Qed.

(** No binding is left over for a descriptor of a looper that is not attached. *)
Lemma unattached_unbound s h l fd : bindings_ok s -> loopers s !! h = Some l -> attached l = false -> bindings s !! (h, fd) = None.
Proof.
  intros [_ H2 _] Hl Ha. destruct (bindings s !! (h, fd)) as [i|] eqn:E; [|done].
  destruct (H2 _ _ _ E) as (r & (l' & Hl' & Ha' & _) & _). congruence.
Qed.

Lemma retire_unbound s h fd : bindings s !! (h, fd) = None -> retire_locked s h fd = s.
Proof. unfold retire_locked. by intros ->. Qed.

Lemma drop_ok s h fd n : bindings_ok s -> bindings_ok (drop_registration_locked s h fd n).
Proof.
  intros Hok. unfold drop_registration_locked. destruct (loopers s !! h) as [l|] eqn:El; [|done].
  destruct (registrations l !! fd) as [r|]; [|done]. case_match; [done|].
  destruct (attached l) eqn:Ea; [by apply remove_ok|].
  rewrite retire_unbound by exact (unattached_unbound s h l fd Hok El Ea). eapply bindings_ok_same; [|exact Hok]. by apply live_unattached.
Qed.

Lemma remove_fd_ok s h fd : bindings_ok s -> bindings_ok (remove_fd s h fd).2.
Proof.
  intros Hok. unfold remove_fd. destruct (loopers s !! h) as [l|] eqn:El; [|done].
  destruct (registrations l !! fd) as [r|]; [|done]. destruct (attached l) eqn:Ea; cbn [snd]; [by apply remove_ok|].
  eapply bindings_ok_same; [|exact Hok]. by apply live_unattached.
Qed.

Lemma add_fd_ok s h fd ident events callback data : bindings_ok s -> bindings_ok (add_fd_section s h fd ident events callback data).2.
Proof.
  intros Hok. unfold add_fd_section. destruct (loopers s !! h) as [l|] eqn:El; [|done].
  case_match; [done|]. case_match; [done|]. set (reg := {| r_fd := fd |}). set (s1 := {| thread_loopers := thread_loopers s |}).
  destruct (attached l) eqn:Ea.
  - set (s0 := with_loopers s (<[h := with_registrations l (delete fd (registrations l))]> (loopers s))).
    assert (bindings (retire_locked s1 h fd) = bindings (retire_locked s0 h fd) /\
            binding_storage (retire_locked s1 h fd) = binding_storage (retire_locked s0 h fd)) as [Eb Es].
    { unfold retire_locked, s1, s0. cbn. by destruct (bindings s !! (h, fd)). }
    unfold bind_locked. cbn [snd]. apply (extend_ok (retire_locked s0 h fd) _ h fd reg).
    + by apply remove_ok.
    + apply retired_none.
    + cbn [bindings]. by rewrite retired_none, Eb, Es.
    + cbn [binding_storage]. by rewrite Es.
    + intros h' fd' r'.
      rewrite (live_loopers s1) by apply retire_loopers.
      rewrite (live_loopers (with_loopers s (<[h := with_registrations l (<[fd := reg]> (registrations l))]> (loopers s))) s1) by done.
      rewrite (live_set s h l fd (Some reg) El Ea). case_decide as Hk; [done|].
      rewrite (live_loopers s0 (retire_locked s0 h fd)) by apply retire_loopers.
      unfold s0. rewrite (live_set s h l fd None El Ea). by rewrite decide_False.
  - cbn [snd]. apply (bindings_ok_same s); [|done].
    destruct (live_unattached s h l (<[fd := reg]> (registrations l)) El Ea) as (? & ? & Hl). split; [done|]. split; [done|].
    intros h' fd' r'. rewrite <- Hl. by apply live_loopers.
Qed.

Lemma prepare_ok s t op b r e : bindings_ok s -> bindings_ok (prepare s t op b r e).2.
Proof.
  intros Hok. assert (forall w real_, bindings_ok (prepare_insert s t op w real_).2) as Hins.
  { intros w real_. apply (bindings_ok_same s); [|done]. split; [done|]. split; [done|]. intros h fd reg.
    unfold live. cbn [prepare_insert snd loopers]. destruct (loopers s !! next_handle s) as [l|] eqn:El; [done|].
    destruct (decide (h = next_handle s)) as [->|]; [rewrite lookup_insert_eq, El|by rewrite lookup_insert_ne].
    split; [intros (l & [= <-] & _ & H)|by intros (l & ? & _)]. cbn in H. by rewrite lookup_empty in H. }
  unfold prepare. repeat case_match; done || apply Hins.
Qed.

Lemma looper_step_ok s s' : looper_step s s' -> bindings_ok s -> bindings_ok s'.
Proof.
  intros Hstep Hok. destruct Hstep as [t op b r e|h|h|h fd i e c d|h fd n|h r Hun|h fd].
  - by apply prepare_ok.
  - unfold acquire. destruct (loopers s !! h) as [l|] eqn:El; [|done]. cbn [snd]. eapply bindings_ok_same; [|exact Hok].
    apply (live_update s h l); [done|by case_match..].
  - unfold release. destruct (loopers s !! h) as [l|] eqn:El; [|done]. cbn [snd]. eapply bindings_ok_same; [|exact Hok].
    apply (live_update s h l); [done|by case_match..].
  - by apply add_fd_ok.
  - by apply drop_ok.
  - unfold drop_polled. destruct (loopers s !! h) as [l|] eqn:El; [|done]. repeat case_match; try done.
    eapply bindings_ok_same; [|exact Hok]. apply live_unattached; [done|by apply Hun].
  - by apply remove_fd_ok.
Qed.

Lemma looper_steps_ok s s' : looper_steps s s' -> bindings_ok s -> bindings_ok s'.
Proof. induction 1; eauto using looper_step_ok. Qed.

Lemma init_ok : bindings_ok Impl_init.
Proof.
  split; cbn.
  - intros h fd r (l & H & _). cbn in H. by rewrite lookup_empty in H.
  - intros h fd i H. by rewrite lookup_empty in H.
  - done.
Qed.

(** ** Stability *)

(** A looper stays, on the same kind of thread. *)
Definition keeps_loopers (s s' : Impl) : Prop :=
  forall h l, loopers s !! h = Some l -> exists l', loopers s' !! h = Some l' /\ attached l' = attached l.

(** A binding stays where it is, and dead once it is dead. *)
Definition keeps_bindings (s s' : Impl) : Prop :=
  forall i b, binding_storage s !! i = Some b -> exists b', binding_storage s' !! i = Some b' /\ (active b = false -> active b' = false).

#[local] Instance keeps_loopers_preorder : PreOrder keeps_loopers.
Proof.
  split; [intros s h l H; by exists l|]. intros s1 s2 s3 H12 H23 h l H.
  destruct (H12 h l H) as (l2 & H2 & E2). destruct (H23 h l2 H2) as (l3 & H3 & E3). exists l3. by rewrite E3.
Qed.

#[local] Instance keeps_bindings_preorder : PreOrder keeps_bindings.
Proof.
  split; [intros s i b H; by exists b|]. intros s1 s2 s3 H12 H23 i b H.
  destruct (H12 i b H) as (b2 & H2 & E2). destruct (H23 i b2 H2) as (b3 & H3 & E3). exists b3. auto.
Qed.

Definition keeps (s s' : Impl) : Prop := keeps_loopers s s' /\ keeps_bindings s s'.

#[local] Instance keeps_preorder : PreOrder keeps.
Proof. split; [done|]. intros s1 s2 s3 [? ?] [? ?]. split; etrans; done. Qed.

Lemma keeps_same s s' : loopers s' = loopers s -> binding_storage s' = binding_storage s -> keeps s s'.
Proof. intros E1 E2. split; [intros h l; rewrite E1; eauto|intros i b; rewrite E2; eauto]. Qed.

Lemma keeps_with_looper s h l l' : loopers s !! h = Some l -> attached l' = attached l -> keeps s (with_loopers s (<[h := l']> (loopers s))).
Proof.
  intros Hl Ha. split; [|by intros i b ?; exists b]. intros h' l0 H0. cbn.
  destruct (decide (h' = h)) as [->|]; [|rewrite lookup_insert_ne by done; eauto].
  rewrite lookup_insert_eq. exists l'. split; [done|]. congruence.
Qed.

Lemma keeps_retire s h fd : keeps s (retire_locked s h fd).
Proof.
  unfold retire_locked. destruct (bindings s !! (h, fd)) as [i|]; [|done]. split; [by intros h' l ?; exists l|].
  intros j b Hj. cbn. destruct (decide (j = i)) as [->|].
  - rewrite list_lookup_alter_eq, Hj. eexists. split; [done|]. done.
  - rewrite list_lookup_alter_ne by done. eauto.
Qed.

Lemma keeps_binding s h fd c d n : keeps s (bind_locked s h fd c d n).2.
Proof.
  etrans; [apply (keeps_retire s h fd)|]. split; cbn.
  - intros h' l H. by exists l.
  - intros i b H. exists b. split; [|done]. by apply lookup_app_l_Some.
Qed.

Lemma keeps_prepare s t op b r e : keeps s (prepare s t op b r e).2.
Proof.
  assert (forall w real_, keeps s (prepare_insert s t op w real_).2) as Hins.
  { intros w real_. split; [|by intros i b0 ?; exists b0]. intros h l H. cbn.
    destruct (loopers s !! next_handle s) as [l0|] eqn:E; [eauto|].
    rewrite lookup_insert_ne by congruence. eauto. }
  unfold prepare. repeat case_match; done || apply Hins.
Qed.

Lemma keeps_add_fd s h fd i e c d : keeps s (add_fd_section s h fd i e c d).2.
Proof.
  unfold add_fd_section. destruct (loopers s !! h) as [l|] eqn:El; [|done]. case_match; [done|]. case_match; [done|].
  set (reg := {| r_fd := fd |}). set (s1 := {| thread_loopers := thread_loopers s |}).
  assert (keeps s s1) as H1.
  { etrans; [apply (keeps_with_looper s h l (with_registrations l (<[fd := reg]> (registrations l))) El); done|by apply keeps_same]. }
  destruct (attached l); [|done]. etrans; [exact H1|]. apply keeps_binding.
Qed.

Lemma looper_step_keeps s s' : looper_step s s' -> keeps s s'.
Proof.
  destruct 1 as [t op b r e|h|h|h fd i e c d|h fd n|h r Hun|h fd].
  - apply keeps_prepare.
  - unfold acquire. destruct (loopers s !! h) as [l|] eqn:El; [|done]. apply (keeps_with_looper s h l); [done|by case_match].
  - unfold release. destruct (loopers s !! h) as [l|] eqn:El; [|done]. apply (keeps_with_looper s h l); [done|by case_match].
  - apply keeps_add_fd.
  - unfold drop_registration_locked. destruct (loopers s !! h) as [l|] eqn:El; [|done]. repeat case_match; try done.
    etrans; [|apply keeps_retire]. by apply (keeps_with_looper s h l).
  - unfold drop_polled. destruct (loopers s !! h) as [l|] eqn:El; [|done]. repeat case_match; try done.
    by apply (keeps_with_looper s h l).
  - unfold remove_fd. destruct (loopers s !! h) as [l|] eqn:El; [|done]. case_match; [|done].
    case_match; cbn [snd]; [etrans; [|apply keeps_retire]|]; by apply (keeps_with_looper s h l).
Qed.

Lemma looper_steps_keeps s s' : looper_steps s s' -> keeps s s'.
Proof. induction 1; [done|]. etrans; [by apply looper_step_keeps|done]. Qed.

(** Unregistering or registering [fd] again kills the binding it had. *)
Lemma retire_kills s h fd i b :
  bindings s !! (h, fd) = Some i -> binding_storage s !! i = Some b ->
  exists b', binding_storage (retire_locked s h fd) !! i = Some b' /\ active b' = false.
Proof. intros Hi Hb. unfold retire_locked. rewrite Hi. cbn. rewrite list_lookup_alter_eq, Hb. by eexists. Qed.

Section HostCalls.
Context (guest : world -> Z -> GuestCall -> option Z * world).
Context (iter : gmap Z Registration -> list Registration).
Context (poll : list (Z * Z) -> Z -> Z * list Z).

(** Guest code, other threads included, changes loopers through the operations only. *)
Hypothesis guest_steps : forall w f c, looper_steps (impl w) (impl (guest w f c).2).

Lemma steps_trans s1 s2 s3 : looper_steps s1 s2 -> looper_steps s2 s3 -> looper_steps s1 s3.
Proof. intros H12 H23. by etrans. Qed.

Lemma run_ready_steps w h revents rs i inv nc r w' l :
  loopers (impl w) !! h = Some l -> attached l = false ->
  run_ready guest w h revents rs i inv nc = Ret (r, w') -> looper_steps (impl w) (impl w').
Proof.
  revert w i inv nc l. induction rs as [|x rs IH]; intros w i inv nc l Hl Ha; cbn [run_ready]; [by intros [= <- <-]|].
  destruct (vec_at revents (S i)) as [re| |] eqn:Ev; [|done..]. rewrite exec_ret_bind. cbv zeta.
  destruct (looper_events re =? 0); [by eapply IH|]. destruct (r_callback x =? 0); cbn [negb]; [by eapply IH|].
  pose proof (guest_steps w (r_callback x) (callback_args (r_fd x) (looper_events re) (r_data x))) as Hg.
  destruct (guest w _ _) as [[r0|] w1]; [|by intros [= <- <-]]. cbn [snd] in Hg.
  destruct (looper_steps_keeps _ _ Hg) as [Hkeep _]. destruct (Hkeep h l Hl) as (l1 & Hl1 & Ha1).
  destruct (r0 =? 0).
  - assert (looper_step (impl w1) (drop_polled (impl w1) h x)) as Hs by (apply ls_drop_polled; intros; congruence).
    destruct (looper_step_keeps _ _ Hs) as [Hk2 _]. destruct (Hk2 h l1 Hl1) as (l2 & Hl2 & Ha2).
    intros Hrun. eapply (IH _ _ _ _ l2) in Hrun; [|done|congruence].
    eapply steps_trans; [exact Hg|]. eapply rtc_l; [exact Hs|exact Hrun].
  - intros Hrun. eapply (IH _ _ _ _ l1) in Hrun; [|done|congruence]. by eapply steps_trans.
Qed.

Lemma write_result_impl w a b c r e ok w' : write_result w a b c r e = Ret (ok, w') -> impl w' = impl w.
Proof.
  unfold write_result. intros H. apply exec_bind_Ret in H as ([o1 m1] & _ & H). destruct (negb o1); [by injection H as <- <-|].
  apply exec_bind_Ret in H as ([o2 m2] & _ & H). destruct (negb o2); [by injection H as <- <-|].
  apply exec_bind_Ret in H as ([o3 m3] & _ & H). by injection H as <- <-.
Qed.

Lemma poll_once_steps w t timeout a b c r es w' :
  poll_once guest iter poll w t timeout a b c = Ret (r, es, w') -> looper_steps (impl w) (impl w').
Proof.
  unfold poll_once. destruct (thread_loopers (impl w) !! t) as [h|]; [|by intros [= <- <- <-]].
  destruct (loopers (impl w) !! h) as [l|] eqn:El; [|by intros [= <- <- <-]].
  destruct (attached l) eqn:Ea; [by intros [= <- <- <-]|]. destruct (poll _ _) as [n revents].
  destruct (n <? 0); [by intros [= <- <- <-]|]. destruct (n =? 0); [by intros [= <- <- <-]|].
  intros H. apply exec_bind_Ret in H as (v & _ & H). apply exec_bind_Ret in H as ([o w1] & Hrun & H).
  eapply run_ready_steps in Hrun; [|done|done].
  destruct o as [[[] [[reg ev]|]]|]; try (by injection H as <- <- <-).
  apply exec_bind_Ret in H as ([ok w2] & Hw & H). injection H as <- <- <-. by rewrite (write_result_impl _ _ _ _ _ _ _ _ Hw).
Qed.

Lemma add_fd_steps s h fd i e c d acc : looper_steps s (add_fd s h fd i e c d acc).2.
Proof.
  unfold add_fd. pose proof (ls_add_fd s h fd i e c d) as Hs.
  destruct (add_fd_section s h fd i e c d) as [[[]|] s1]; cbn [snd] in *; try (by apply rtc_once).
  destruct (negb (acc =? 1)); cbn [snd]; [|by apply rtc_once]. eapply rtc_l; [exact Hs|]. apply rtc_once, ls_drop.
Qed.

Lemma handle_steps w answers index t rs r es w' :
  handle_host_call guest iter poll w answers index t rs = Ret (r, es, w') -> looper_steps (impl w) (impl w').
Proof.
  unfold handle_host_call. intros H. do 4 (apply exec_bind_Ret in H as (? & _ & H)). cbv zeta in H.
  assert (forall q (v : world) (e : list effect), (finish rs q ≫= fun g => Ret (Some g, e, v)) = Ret (r, es, w') -> w' = v) as Hdone.
  { intros q v e Hq. apply exec_bind_Ret in Hq as (g & _ & Hq). by injection Hq as <- <- <-. }
  repeat match type of H with (if ?b then _ else _) = _ => destruct b end.
  - by rewrite (Hdone _ _ _ H).
  - pose proof (ls_prepare (impl w) t (s32 x) (a_borrower answers) (a_real answers) (a_eventfd answers)) as Hs.
    destruct (prepare _ _ _ _ _ _) as [hd s1]. rewrite (Hdone _ _ _ H). by apply rtc_once.
  - pose proof (ls_acquire (impl w) x) as Hs. destruct (acquire _ _) as [es1 s1].
    rewrite (Hdone _ _ _ H). by apply rtc_once.
  - pose proof (ls_release (impl w) x) as Hs. destruct (release _ _) as [es1 s1].
    rewrite (Hdone _ _ _ H). by apply rtc_once.
  - apply exec_bind_Ret in H as (cb & _ & H). apply exec_bind_Ret in H as (dt & _ & H).
    destruct cb as [cb|]; [|by rewrite (Hdone _ _ _ H)]. destruct dt as [dt|]; [|by rewrite (Hdone _ _ _ H)].
    pose proof (add_fd_steps (impl w) x (s32 x0) (s32 x1) (s32 x2) cb dt (a_accepted answers)) as Hs.
    destruct (add_fd _ _ _ _ _ _ _ _) as [[res es1] s1]. by rewrite (Hdone _ _ _ H).
  - pose proof (ls_remove_fd (impl w) x (s32 x0)) as Hs. destruct (remove_fd _ _ _) as [[res es1] s1].
    rewrite (Hdone _ _ _ H). by apply rtc_once.
  - by rewrite (Hdone _ _ _ H).
  - apply exec_bind_Ret in H as ([[res es1] w1] & Hp & H). rewrite (Hdone _ _ _ H). by eapply poll_once_steps.
  - by injection H as <- <- <-.
Qed.

Lemma dispatch_steps w i fd events r w' : dispatch_attached guest w i fd events = Ret (r, w') -> looper_steps (impl w) (impl w').
Proof.
  unfold dispatch_attached. intros H. apply exec_bind_Ret in H as (b & _ & H). destruct (negb (active b)); [by injection H as <- <-|].
  pose proof (guest_steps w (b_callback b) (callback_args fd events (b_data b))) as Hg. destruct (guest w _ _) as [[r0|] w1]; cbn [snd] in Hg.
  - destruct (r0 =? 0); injection H as <- <-; [|done]. eapply rtc_r; [exact Hg|]. apply ls_drop.
  - injection H as <- <-. eapply rtc_r; [exact Hg|]. apply ls_drop.
Qed.
End HostCalls.

(** ** What one poll does *)

Section Poll.
Context (guest : world -> Z -> GuestCall -> option Z * world).
Context (iter : gmap Z Registration -> list Registration).
Context (poll : list (Z * Z) -> Z -> Z * list Z).

(** The polled registrations with an event, with the guest's event mask. *)
Definition ready_of (rs : list Registration) (revents : list Z) : list (Registration * Z) :=
  filter (fun p => p.2 <> 0) (zip rs (map looper_events revents)).

Definition with_callback (rs : list (Registration * Z)) : list (Registration * Z) := filter (fun p => r_callback p.1 <> 0) rs.
Definition without_callback (rs : list (Registration * Z)) : list (Registration * Z) := filter (fun p => r_callback p.1 = 0) rs.

(** Every callback in turn, until one cannot run; one that returns 0 ends its registration. *)
Fixpoint call_each (w : world) (h : Z) (rs : list (Registration * Z)) : bool * world :=
  match rs with
  | [] => (true, w)
  | (r, e) :: rest =>
      match guest w (r_callback r) (callback_args (r_fd r) e (r_data r)) with
      | (None, w) => (false, w)
      | (Some r0, w) => call_each (if r0 =? 0 then with_impl w (drop_polled (impl w) h r) else w) h rest
      end
  end.

Lemma run_ready_reference rs : forall w h revents i inv nc,
  length revents = S (i + length rs) ->
  let ready := ready_of rs (drop (S i) revents) in
  run_ready guest w h revents rs i inv nc =
  Ret (let '(ok, w') := call_each w h (with_callback ready) in
       (if ok then Some (inv || negb (bool_decide (with_callback ready = [])),
                         match nc with Some _ => nc | None => head (without_callback ready) end) else None, w')).
Proof.
  induction rs as [|x rs IH]; intros w h revents i inv nc Hlen ready.
  { cbn. rewrite orb_false_r. by destruct nc. }
  cbn [run_ready]. cbn [length] in Hlen. destruct (lookup_lt_is_Some_2 revents (S i)) as [re Hre]; [lia|].
  unfold vec_at. rewrite Hre, exec_ret_bind. cbv zeta.
  assert (ready = (if decide (looper_events re <> 0) then [(x, looper_events re)] else []) ++ ready_of rs (drop (S (S i)) revents)) as Hready.
  { unfold ready, ready_of. rewrite (drop_S revents re (S i) Hre). cbn [map zip zip_with]. rewrite filter_cons. cbn [snd].
    by case_decide. }
  case_decide as Hne.
  2: { rewrite (proj2 (Z.eqb_eq _ _)) by lia. rewrite IH by lia. by rewrite Hready. }
  rewrite (proj2 (Z.eqb_neq _ _)) by done. rewrite Hready. cbn [app]. unfold with_callback, without_callback. rewrite !filter_cons. cbn [fst].
  destruct (r_callback x =? 0) eqn:Ecb; cbn [negb].
  - apply Z.eqb_eq in Ecb. rewrite (decide_False (P := r_callback x <> 0)), (decide_True (P := r_callback x = 0)) by tauto.
    rewrite IH by lia. cbn [head]. unfold with_callback. destruct (call_each _ _ _) as [[] w']; [|done]. by destruct nc.
  - apply Z.eqb_neq in Ecb. rewrite (decide_True (P := r_callback x <> 0)), (decide_False (P := r_callback x = 0)) by done. cbn [call_each].
    destruct (guest w _ _) as [[r0|] w1]; [|done]. rewrite IH by lia. unfold with_callback, without_callback.
    destruct (call_each _ _ _) as [[] w']; [|done]. rewrite (bool_decide_eq_false_2 (_ :: _ = [])) by done. cbn. by rewrite orb_true_r.
Qed.
End Poll.

(** What [poll_once] answers once the host's [poll] has answered. *)
Definition poll_answer (guest : world -> Z -> GuestCall -> option Z * world) (w : world) (h : Z) (l : Looper)
    (rs : list Registration) (n : Z) (revents : list Z) (out_fd out_events out_data : Z) : exec (Z * list effect * world) :=
  if decide (n < 0) then Ret (kPollError, [], w)
  else if decide (n = 0) then Ret (kPollTimeout, [], w)
  else
    let woke := bool_decide (head revents <> Some 0) in
    let effects := if woke then [DrainEventfd (wake_fd l)] else [] in
    let ready := ready_of rs (tail revents) in
    match with_callback ready, without_callback ready with
    | [], [] => Ret (if woke then kPollWake else kPollError, effects, w)
    | [], (r, events) :: _ =>
        '(ok, w') ← write_result w out_fd out_events out_data r events; Ret (if ok : bool then r_ident r else kPollError, effects, w')
    | calls, _ => let '(ok, w') := call_each guest w h calls in Ret (if ok : bool then kPollCallback else kPollError, effects, w')
    end.

(** ** Claims *)

(** C17: start from no loopers, let any threads interleave looper operations and let
    guest callbacks call back in.  After every host call and every callback of a real
    looper, the active bindings are exactly the registrations of the attached loopers:
    each registration has one binding with its callback, data and serial, and every
    other binding ever handed to a real looper is inactive. *)
Theorem looper_bindings_exact guest iter poll w :
  (forall w f c, looper_steps (impl w) (impl (guest w f c).2)) ->
  looper_steps Impl_init (impl w) ->
  (forall answers index t rs r es w',
     handle_host_call guest iter poll w answers index t rs = Ret (r, es, w') ->
     looper_steps Impl_init (impl w') /\ bindings_ok (impl w')) /\
  (forall i fd events r w',
     dispatch_attached guest w i fd events = Ret (r, w') -> looper_steps Impl_init (impl w') /\ bindings_ok (impl w')).
Proof.
  intros Hg Hw. split; intros.
  - assert (looper_steps Impl_init (impl w')) as Hs by (eapply steps_trans, handle_steps; done).
    split; [done|]. exact (looper_steps_ok _ _ Hs init_ok).
  - assert (looper_steps Impl_init (impl w')) as Hs by (eapply steps_trans, dispatch_steps; done).
    split; [done|]. exact (looper_steps_ok _ _ Hs init_ok).
Qed.

(** once a descriptor of an attached looper has been unregistered, or registered
    again, a callback of the real looper that still carries the old binding is
    ignored, whatever happened in between: no guest code runs, nothing changes, and
    the answer 0 makes the real looper drop the descriptor. *)
Theorem stale_callback_ignored guest s h fd r s1 :
  looper_steps Impl_init s -> live s h fd r ->
  s1 = (remove_fd s h fd).2 \/
    (exists ident events callback data, (add_fd_section s h fd ident events callback data).1 <> None /\
       s1 = (add_fd_section s h fd ident events callback data).2) ->
  exists i, binding_storage s !! i = Some (binding_of h fd r) /\
    forall w fd' events, looper_steps s1 (impl w) -> dispatch_attached guest w i fd' events = Ret (0, w).
Proof.
  intros Hs Hlive Hs1. destruct (bi_live s (looper_steps_ok _ _ Hs init_ok) h fd r Hlive) as (i & Hi & Hb).
  exists i. split; [done|]. assert (exists b, binding_storage s1 !! i = Some b /\ active b = false) as (b & Hb1 & Hact).
  { destruct Hlive as (l & Hl & Ha & Hr). destruct Hs1 as [->|(id & ev & c & d & Hacc & ->)].
    - unfold remove_fd. rewrite Hl, Hr, Ha. cbn [snd]. by eapply retire_kills.
    - revert Hacc. unfold add_fd_section. rewrite Hl. case_match; [done|]. case_match; [done|]. rewrite Ha. intros _.
      set (s2 := {| thread_loopers := thread_loopers s |}).
      destruct (retire_kills s2 h fd i (binding_of h fd r) Hi Hb) as (b & Hb' & Hact). exists b. split; [|done].
      by apply lookup_app_l_Some. }
  intros w fd' ev Hw. destruct (looper_steps_keeps _ _ Hw) as [_ Hk]. destruct (Hk i b Hb1) as (b' & Hb' & Hact').
  unfold dispatch_attached, vec_at. rewrite Hb', exec_ret_bind. by rewrite (Hact' Hact).
Qed.

(** a poll of a thread's own looper, once the host's [poll] has answered with
    one event mask per descriptor, runs every ready callback exactly once and in
    order, stopping only at one that cannot run, and answers as ALooper specifies:
    callback, the first ready ident with its data stored through the guest's
    pointers, wake, timeout or error. *)
Theorem poll_once_exact guest iter poll w t timeout out_fd out_events out_data h l n revents :
  thread_loopers (impl w) !! t = Some h -> loopers (impl w) !! h = Some l -> attached l = false ->
  poll (poll_set (wake_fd l) (iter (registrations l))) timeout = (n, revents) ->
  length revents = S (length (iter (registrations l))) ->
  poll_once guest iter poll w t timeout out_fd out_events out_data =
  poll_answer guest w h l (iter (registrations l)) n revents out_fd out_events out_data.
Proof.
  intros Ht Hl Ha Hp Hlen. unfold poll_once, poll_answer. rewrite Ht, Hl, Ha, Hp.
  case_decide; [rewrite (proj2 (Z.ltb_lt _ _)) by lia; done|]. rewrite (proj2 (Z.ltb_ge _ _)) by lia.
  case_decide; [rewrite (proj2 (Z.eqb_eq _ _)) by lia; done|]. rewrite (proj2 (Z.eqb_neq _ _)) by lia.
  destruct revents as [|first revents]; [done|]. cbn [vec_at lookup list_lookup head tail].
  change (vec_at (first :: revents) 0) with (Ret first). rewrite exec_ret_bind. rewrite run_ready_reference by done.
  rewrite exec_ret_bind. cbn [drop].
  replace (bool_decide (Some first <> Some 0)) with (negb (first =? 0)).
  2: { destruct (first =? 0) eqn:E; [apply Z.eqb_eq in E|apply Z.eqb_neq in E]; symmetry; [apply bool_decide_eq_false_2|apply bool_decide_eq_true_2]; congruence. }
  cbv zeta. set (es := if negb (first =? 0) then _ else _). set (ready := ready_of _ _). destruct (with_callback ready) as [|c cs] eqn:Ec.
  - cbn [call_each]. rewrite bool_decide_eq_true_2 by done. cbn [negb orb]. destruct (without_callback ready) as [|[r e] ?]; [done|].
    cbn [head]. destruct (write_result _ _ _ _ _ _) as [[[] ?]| |]; done.
  - destruct (call_each guest w h (c :: cs)) as [[] w']; done.
Qed.

(** ** Witnesses *)

Definition example_guest (w : world) (f : Z) (c : GuestCall) : option Z * world := (Some 0, w).

(** A looper attached to the real looper 77, then a registration of descriptor 5 on it. *)
Definition example_attached : Impl := (prepare Impl_init 1 0 true 77 (-1)).2.
Definition example_bound : Impl := (add_fd_section example_attached 0x7a000000 5 0 kEventInput 0x1000 9).2.
Definition example_registration : Registration := {| r_fd := 5; r_ident := 0; r_events := 1; r_callback := 0x1000; r_data := 9; r_serial := 1 |}.

Lemma example_bound_steps : looper_steps Impl_init example_bound.
Proof. eapply rtc_l; [apply ls_prepare|]. apply rtc_once, ls_add_fd. Qed.

Lemma looper_bindings_exact_witness :
  exists w', dispatch_attached example_guest {| impl := example_bound; mem := GuestMemory_init true |} 0 5 1 = Ret (0, w') /\ bindings_ok (impl w') /\ bindings (impl w') !! (0x7a000000, 5) = None.
Proof.
  destruct (looper_bindings_exact example_guest (fun _ => []) (fun _ _ => (0, [])) {| impl := example_bound; mem := GuestMemory_init true |}) as [_ H].
  - intros. apply rtc_refl.
  - exact example_bound_steps.
  - eexists. split; [vm_compute; reflexivity|]. edestruct (H 0%nat 5 1) as [_ Hok]; [vm_compute; reflexivity|]. split; [exact Hok|]. reflexivity.
Defined.

Lemma stale_callback_ignored_witness :
  dispatch_attached example_guest {| impl := (remove_fd example_bound 0x7a000000 5).2; mem := GuestMemory_init true |} 0 5 1 =
  Ret (0, {| impl := (remove_fd example_bound 0x7a000000 5).2; mem := GuestMemory_init true |}).
Proof.
  destruct (stale_callback_ignored example_guest example_bound 0x7a000000 5 example_registration (remove_fd example_bound 0x7a000000 5).2) as (i & Hi & H).
  - exact example_bound_steps.
  - eexists. split; [vm_compute; reflexivity|]. split; vm_compute; reflexivity.
  - by left.
  - assert (i = 0%nat) as -> by (destruct i as [|[|i]]; [done|vm_compute in Hi; discriminate..]). apply H. apply rtc_refl.
Defined.

(** A looper of a guest thread with descriptor 5 ready and the callback of descriptor 6 not. *)
Definition example_polled : Impl :=
  (add_fd_section (add_fd_section (prepare Impl_init 1 1 false 0 3).2 0x7a000000 5 7 kEventInput 0 9).2 0x7a000000 6 0 kEventInput 0x1000 0).2.
Definition example_iter (m : gmap Z Registration) : list Registration := (map_to_list m).*2.
Definition example_poll (fds : list (Z * Z)) (timeout : Z) : Z * list Z := (1, map (fun p => if p.1 =? 5 then POLLIN else 0) fds).

Lemma poll_once_exact_witness :
  exists w', poll_once example_guest example_iter example_poll {| impl := example_polled; mem := GuestMemory_init true |} 1 0 0 0 0 = Ret (7, [], w').
Proof.
  set (l := default {| options := 0; references := 0; wake_fd := 0; attached := true; real := 0; registrations := ∅ |} (loopers example_polled !! 0x7a000000)).
  eexists. rewrite (poll_once_exact example_guest example_iter example_poll {| impl := example_polled; mem := GuestMemory_init true |}
    1 0 0 0 0 0x7a000000 l 1 (example_poll (poll_set (wake_fd l) (example_iter (registrations l))) 0).2); vm_compute; reflexivity.
Defined.
