(* ===== verification/GuestThread.v ===== *)
(** * Guest CPU contexts

    [core/src/guest_thread.cpp]: one JIT per guest thread, the callbacks by which
    translated code reaches guest memory and stops, the queue of pending signals,
    and nested host-to-guest calls.

    The JIT (Dynarmic, a submodule) is a type [J] with the operations the code calls
    on it and the documented laws of its register accessors, the classes [Jit] and
    [JitLaws].  What a [Run] of it does to the thread and to memory is the parameter
    [jit_Run]. *)

From stdpp Require Import numbers list gmap.
From S2P Require Import Prelude Bytes GuestMemory InitialStack NativeCall.
Local Open Scope Z_scope.

(** ** Data *)

Definition kHostReturnSwi : Z := 0x5AFFFF.
Definition kHostReturnAddress : Z := 0xFFFF0F00.
Definition kCpsrThumb : Z := 0x20.
Definition kCpsrEndian : Z := 0x200.
Definition kCpsrItMask : Z := 0x0600FC00.

Record GuestResult := { res_r0 : Z; res_r1 : Z }.

Inductive StopKind := SNone | Svc | MemoryFault | Exception | Interrupted.

#[global] Instance StopKind_eq_dec : EqDecision StopKind.
Proof. solve_decision. Defined.

(** The exceptions of Dynarmic, by number. *)
Definition UndefinedInstruction : Z := 0.
Definition Breakpoint : Z := 8.

Record Stop := { kind : StopKind; swi : Z; fault_addr : Z; fault_write : bool; exception : Z; pc : Z }.

Definition Stop_init : Stop := {| kind := SNone; swi := 0; fault_addr := 0; fault_write := false; exception := 0; pc := 0 |}.

(** [g::siginfo32] and [g::stack32]. *)
Record siginfo32 := { si_signo : Z; si_errno : Z; si_code : Z; fields : list Z }.
Record stack32 := { ss_sp : Z; ss_flags : Z; ss_size : Z }.

Definition siginfo32_init : siginfo32 := {| si_signo := 0; si_errno := 0; si_code := 0; fields := replicate 29 0 |}.

(** ** The JIT *)

(** Halt reasons, as bits of one word. *)
Definition kStopHalt : Z := 2 ^ 24.
Definition kInterruptHalt : Z := 2 ^ 25.
Definition kMemoryAbortHalt : Z := 4.
Definition CacheInvalidation : Z := 2.

Class Jit (J : Type) := {
  Regs : J -> list Z;
  set_Regs : list Z -> J -> J;
  ExtRegs : J -> list Z;
  set_ExtRegs : list Z -> J -> J;
  Cpsr : J -> Z;
  SetCpsr : Z -> J -> J;
  Fpscr : J -> Z;
  SetFpscr : Z -> J -> J;
  HaltExecution : Z -> J -> J;
  ClearHalt : Z -> J -> J;
  InvalidateCacheRange : Z -> Z -> J -> J;
}.

(** The register arrays are references; a status word that was read can be set
    again; the accessors do not disturb each other. *)
Class JitLaws (J : Type) `{Jit J} := {
  Regs_length j : length (Regs j) = 16%nat;
  Regs_set r j : length r = 16%nat -> Regs (set_Regs r j) = r;
  Regs_other e c f j : Regs (set_ExtRegs e j) = Regs j /\ Regs (SetCpsr c j) = Regs j /\ Regs (SetFpscr f j) = Regs j;
  ExtRegs_length j : length (ExtRegs j) = 64%nat;
  ExtRegs_set r j : length r = 64%nat -> ExtRegs (set_ExtRegs r j) = r;
  ExtRegs_other r c f j : ExtRegs (set_Regs r j) = ExtRegs j /\ ExtRegs (SetCpsr c j) = ExtRegs j /\ ExtRegs (SetFpscr f j) = ExtRegs j;
  Cpsr_set j j' : Cpsr (SetCpsr (Cpsr j) j') = Cpsr j;
  Cpsr_other r e f j : Cpsr (set_Regs r j) = Cpsr j /\ Cpsr (set_ExtRegs e j) = Cpsr j /\ Cpsr (SetFpscr f j) = Cpsr j;
  Fpscr_set j j' : Fpscr (SetFpscr (Fpscr j) j') = Fpscr j;
  Fpscr_other r e c j : Fpscr (set_Regs r j) = Fpscr j /\ Fpscr (set_ExtRegs e j) = Fpscr j /\ Fpscr (SetCpsr c j) = Fpscr j;
}.

Section GuestThread.
Context {J : Type} `{Jit J}.

Record GuestThread := {
  jit_ : J;
  pending_ : Stop;
  pending_signals_ : Z;
  pending_info_ : list siginfo32;
  park_word_ : Z;
  sigmask : Z;
  altstack : stack32;
  clear_child_tid : Z;
  exit_status : Z;
  call_depth : Z;
  child_code_cache_size : Z;
  tid : Z;
  tpidruro_ : Z;
  processor_id_ : Z;
}.

(** Field updates. *)
Definition with_jit (t : GuestThread) (j : J) : GuestThread :=
  {| jit_ := j; pending_ := pending_ t; pending_signals_ := pending_signals_ t; pending_info_ := pending_info_ t; park_word_ := park_word_ t;
     sigmask := sigmask t; altstack := altstack t; clear_child_tid := clear_child_tid t; exit_status := exit_status t; call_depth := call_depth t;
     child_code_cache_size := child_code_cache_size t; tid := tid t; tpidruro_ := tpidruro_ t; processor_id_ := processor_id_ t |}.

Definition with_pending (t : GuestThread) (s : Stop) : GuestThread :=
  {| jit_ := jit_ t; pending_ := s; pending_signals_ := pending_signals_ t; pending_info_ := pending_info_ t; park_word_ := park_word_ t;
     sigmask := sigmask t; altstack := altstack t; clear_child_tid := clear_child_tid t; exit_status := exit_status t; call_depth := call_depth t;
     child_code_cache_size := child_code_cache_size t; tid := tid t; tpidruro_ := tpidruro_ t; processor_id_ := processor_id_ t |}.

Definition with_signals (t : GuestThread) (p : Z) (i : list siginfo32) : GuestThread :=
  {| jit_ := jit_ t; pending_ := pending_ t; pending_signals_ := p; pending_info_ := i; park_word_ := park_word_ t;
     sigmask := sigmask t; altstack := altstack t; clear_child_tid := clear_child_tid t; exit_status := exit_status t; call_depth := call_depth t;
     child_code_cache_size := child_code_cache_size t; tid := tid t; tpidruro_ := tpidruro_ t; processor_id_ := processor_id_ t |}.

Definition with_park_word (t : GuestThread) (w : Z) : GuestThread :=
  {| jit_ := jit_ t; pending_ := pending_ t; pending_signals_ := pending_signals_ t; pending_info_ := pending_info_ t; park_word_ := w;
     sigmask := sigmask t; altstack := altstack t; clear_child_tid := clear_child_tid t; exit_status := exit_status t; call_depth := call_depth t;
     child_code_cache_size := child_code_cache_size t; tid := tid t; tpidruro_ := tpidruro_ t; processor_id_ := processor_id_ t |}.

Definition with_mask (t : GuestThread) (m : Z) (a : stack32) : GuestThread :=
  {| jit_ := jit_ t; pending_ := pending_ t; pending_signals_ := pending_signals_ t; pending_info_ := pending_info_ t; park_word_ := park_word_ t;
     sigmask := m; altstack := a; clear_child_tid := clear_child_tid t; exit_status := exit_status t; call_depth := call_depth t;
     child_code_cache_size := child_code_cache_size t; tid := tid t; tpidruro_ := tpidruro_ t; processor_id_ := processor_id_ t |}.

Definition with_depth (t : GuestThread) (d : Z) : GuestThread :=
  {| jit_ := jit_ t; pending_ := pending_ t; pending_signals_ := pending_signals_ t; pending_info_ := pending_info_ t; park_word_ := park_word_ t;
     sigmask := sigmask t; altstack := altstack t; clear_child_tid := clear_child_tid t; exit_status := exit_status t; call_depth := d;
     child_code_cache_size := child_code_cache_size t; tid := tid t; tpidruro_ := tpidruro_ t; processor_id_ := processor_id_ t |}.

Definition regs (t : GuestThread) : list Z := Regs (jit_ t).
Definition ext_regs (t : GuestThread) : list Z := ExtRegs (jit_ t).
Definition cpsr (t : GuestThread) : Z := Cpsr (jit_ t).
Definition fpscr (t : GuestThread) : Z := Fpscr (jit_ t).
Definition set_regs (t : GuestThread) (r : list Z) : GuestThread := with_jit t (set_Regs r (jit_ t)).
Definition set_ext_regs (t : GuestThread) (r : list Z) : GuestThread := with_jit t (set_ExtRegs r (jit_ t)).
Definition set_cpsr (t : GuestThread) (v : Z) : GuestThread := with_jit t (SetCpsr v (jit_ t)).
Definition set_fpscr (t : GuestThread) (v : Z) : GuestThread := with_jit t (SetFpscr v (jit_ t)).

(** [regs()[i] = v]. *)
Definition set_reg (t : GuestThread) (i : nat) (v : Z) : exec GuestThread :=
  r ← vec_set (regs t) i v; Ret (set_regs t r).

Definition invalidate (t : GuestThread) (addr len : Z) : GuestThread := with_jit t (InvalidateCacheRange addr len (jit_ t)).

(** ** Callbacks of translated code *)

Definition halt (t : GuestThread) : GuestThread := with_jit t (HaltExecution kStopHalt (jit_ t)).

(** The stop of a callback, unless there is one already. *)
Definition record_stop (t : GuestThread) (s : Stop) : GuestThread :=
  if decide (kind (pending_ t) = SNone) then with_pending t s else t.

Definition memory_fault (p : Stop) (vaddr : Z) (write : bool) : Stop :=
  {| kind := MemoryFault; swi := swi p; fault_addr := vaddr; fault_write := write; exception := exception p; pc := pc p |}.

Definition check_access (m : GuestMemory) (t : GuestThread) (vaddr len need : Z) (write : bool) : bool * GuestThread :=
  if accessible m vaddr len need then (true, t)
  else
    let t := record_stop t (memory_fault (pending_ t) vaddr write) in
    (false, with_jit t (HaltExecution kMemoryAbortHalt (jit_ t))).

(** A host load or store at [base() + vaddr]; a page the host may not access faults. *)
Definition host_load (m : GuestMemory) (vaddr : Z) (n : nat) : exec Z :=
  if forallb (fun i => has_bits (hprot m ((vaddr + Z.of_nat i) / kPageSize)) PROT_READ) (seq 0 n)
  then Ret (le (map (fun i => bytes_ m (vaddr + Z.of_nat i)) (seq 0 n))) else Undefined.

Definition host_store (m : GuestMemory) (vaddr : Z) (n : nat) (v : Z) : exec GuestMemory := host_write m vaddr (to_le n v).

(** [MemoryRead8 .. MemoryRead64], [n] bytes wide. *)
Definition MemoryRead (n : nat) (m : GuestMemory) (t : GuestThread) (vaddr : Z) : exec (Z * GuestThread) :=
  let '(ok, t) := check_access m t vaddr (Z.of_nat n) kPageRead false in
  if ok then v ← host_load m vaddr n; Ret (v, t) else Ret (0, t).

(** [MemoryWrite8 .. MemoryWrite64]. *)
Definition MemoryWrite (n : nat) (m : GuestMemory) (t : GuestThread) (vaddr value : Z) : exec (GuestMemory * GuestThread) :=
  let '(ok, t) := check_access m t vaddr (Z.of_nat n) kPageWrite true in
  if ok then m ← host_store m vaddr n value; Ret (m, t) else Ret (m, t).

(** [MemoryWriteExclusive8 .. MemoryWriteExclusive64]. *)
Definition MemoryWriteExclusive (n : nat) (m : GuestMemory) (t : GuestThread) (vaddr value expected : Z)
    : exec (bool * GuestMemory * GuestThread) :=
  let '(ok, t) := check_access m t vaddr (Z.of_nat n) (Z.lor kPageRead kPageWrite) true in
  if negb ok then Ret (false, m, t)
  else
    v ← host_load m vaddr n;
    if negb (v =? expected) then Ret (false, m, t)
    else m ← host_store m vaddr n value; Ret (true, m, t).

Definition MemoryReadCode (m : GuestMemory) (vaddr : Z) : exec (option Z) :=
  if accessible m vaddr 4 kPageExec then v ← host_load m vaddr 4; Ret (Some v) else Ret None.

Definition exception_stop (p : Stop) (pc exception : Z) : Stop :=
  {| kind := Exception; swi := swi p; fault_addr := fault_addr p; fault_write := fault_write p; exception := exception; pc := pc |}.

Definition InterpreterFallback (t : GuestThread) (pc : Z) : GuestThread :=
  halt (record_stop t (exception_stop (pending_ t) pc UndefinedInstruction)).

Definition CallSVC (t : GuestThread) (swi : Z) : GuestThread :=
  let p := pending_ t in
  halt (record_stop t {| kind := Svc; swi := swi; fault_addr := fault_addr p; fault_write := fault_write p; exception := exception p; pc := pc p |}).

Definition ExceptionRaised (t : GuestThread) (pc exception : Z) : GuestThread :=
  halt (record_stop t (exception_stop (pending_ t) pc exception)).

(** ** Signals *)

Definition wake (t : GuestThread) : GuestThread := with_park_word t (u32 (park_word_ t + 1)).
Definition park_token (t : GuestThread) : Z := park_word_ t.
Definition pending_signals (t : GuestThread) : Z := pending_signals_ t.
Definition has_pending_signals (t : GuestThread) (blocked : Z) : bool :=
  negb (Z.land (pending_signals_ t) (u64 (Z.lnot blocked)) =? 0).

(** [post_signal] as one call does it with nobody else at the queue; its steps, and those
    of [take_signal], among those of other callers are [SignalQueue.advance], which does
    this when it runs alone ([SignalQueue.post_alone], [SignalQueue.take_alone]). *)
Definition post_signal (t : GuestThread) (info : siginfo32) : exec GuestThread :=
  let sig := si_signo info in
  if (sig <? 1) || (64 <? sig) then Ret t
  else
    infos ← vec_set (pending_info_ t) (Z.to_nat sig) info;
    let t := with_signals t (Z.lor (pending_signals_ t) (u64 (Z.shiftl 1 (sig - 1)))) infos in
    let t := with_jit t (HaltExecution kInterruptHalt (jit_ t)) in
    Ret (wake t).

(** [std::countr_zero] on 64 bits. *)
Fixpoint countr_zero_from (n : nat) (v i : Z) : Z :=
  match n with
  | O => i
  | S n' => if Z.testbit v i then i else countr_zero_from n' v (i + 1)
  end.
Definition countr_zero (v : Z) : Z := countr_zero_from 64 v 0.

(** The loop of [take_signal]: [seen] are the values of the word when the exchange
    failed because another thread had changed it. *)
Fixpoint take_signal_loop (seen : list Z) (t : GuestThread) (blocked : Z) : exec (option siginfo32 * GuestThread) :=
  match seen with
  | pending :: seen' =>
      if Z.land pending (u64 (Z.lnot blocked)) =? 0 then Ret (None, t) else take_signal_loop seen' t blocked
  | [] =>
      let pending := pending_signals_ t in
      let deliverable := Z.land pending (u64 (Z.lnot blocked)) in
      if deliverable =? 0 then Ret (None, t)
      else
        let bit := countr_zero deliverable in
        let t := with_signals t (Z.land pending (u64 (Z.lnot (Z.shiftl 1 bit)))) (pending_info_ t) in
        out ← vec_at (pending_info_ t) (Z.to_nat (bit + 1));
        Ret (Some out, t)
  end.

Definition take_signal (t : GuestThread) (blocked : Z) : exec (option siginfo32 * GuestThread) := take_signal_loop [] t blocked.

(** ** Running *)

Section Run.
Context (jit_Run : GuestThread -> GuestMemory -> Z * GuestThread * GuestMemory).

(** The loop of [run]; [None] when [fuel] runs are not enough. *)
Fixpoint run_loop (fuel : nat) (t : GuestThread) (m : GuestMemory) : option (GuestThread * GuestMemory) :=
  match fuel with
  | O => None
  | S fuel =>
      let '(reason, t, m) := jit_Run t m in
      let t := with_jit t (ClearHalt (Z.lor kStopHalt kMemoryAbortHalt) (jit_ t)) in
      if bool_decide (kind (pending_ t) = SNone) && has_bits reason kInterruptHalt then
        let t := with_jit t (ClearHalt kInterruptHalt (jit_ t)) in
        let p := pending_ t in
        Some (with_pending t {| kind := Interrupted; swi := swi p; fault_addr := fault_addr p; fault_write := fault_write p;
                                exception := exception p; pc := pc p |}, m)
      else if bool_decide (kind (pending_ t) = SNone) && has_bits reason CacheInvalidation then run_loop fuel t m
      else Some (t, m)
  end.

Definition run (fuel : nat) (t : GuestThread) (m : GuestMemory) : exec (option (Stop * GuestThread * GuestMemory)) :=
  match run_loop fuel (with_pending t Stop_init) m with
  | None => Ret None
  | Some (t, m) =>
      let s := pending_ t in
      if decide (kind s = Exception) then Ret (Some (s, t, m))
      else
        r15 ← vec_at (regs t) 15;
        Ret (Some ({| kind := kind s; swi := swi s; fault_addr := fault_addr s; fault_write := fault_write s;
                      exception := exception s; pc := r15 |}, t, m))
  end.

(** The caller's handler of a stop. *)
Context (handle_stop : Stop -> GuestThread -> GuestMemory -> bool * GuestThread * GuestMemory).

(** The loop of [call]; [None] when the fuel runs out. *)
Fixpoint call_loop (fuel : nat) (call_sp : Z) (t : GuestThread) (m : GuestMemory) : exec (option (option GuestResult * GuestThread * GuestMemory)) :=
  match fuel with
  | O => Ret None
  | S fuel =>
      r ← run (S fuel) t m;
      match r with
      | None => Ret None
      | Some (stop, t, m) =>
          sp ← vec_at (regs t) 13;
          if bool_decide (kind stop = Svc) && (swi stop =? kHostReturnSwi) && (sp =? call_sp) then
            r0 ← vec_at (regs t) 0; r1 ← vec_at (regs t) 1;
            Ret (Some (Some {| res_r0 := r0; res_r1 := r1 |}, t, m))
          else
            let '(go, t, m) := handle_stop stop t m in
            if negb go then Ret (Some (None, t, m)) else call_loop fuel call_sp t m
      end
  end.

(** The lambda [restore] of [call]. *)
Definition restore (saved : GuestThread) (t : GuestThread) : GuestThread :=
  set_fpscr (set_cpsr (set_ext_regs (set_regs t (regs saved)) (ext_regs saved)) (cpsr saved)) (fpscr saved).

(** The registers a call starts with. *)
Definition enter_call (t : GuestThread) (args : GuestCall) (target call_sp : Z) : exec GuestThread :=
  a0 ← vec_at (NativeCall.regs args) 0; t ← set_reg t 0 a0;
  a1 ← vec_at (NativeCall.regs args) 1; t ← set_reg t 1 a1;
  a2 ← vec_at (NativeCall.regs args) 2; t ← set_reg t 2 a2;
  a3 ← vec_at (NativeCall.regs args) 3; t ← set_reg t 3 a3;
  t ← set_reg t 13 call_sp;
  t ← set_reg t 14 kHostReturnAddress;
  set_reg t 15 (Z.land target (u32 (Z.lnot 1))).

(** [call] returns [None] when the call cannot be laid out or the guest cannot
    continue; the outer [option] is the fuel. *)
Definition call (fuel : nat) (t : GuestThread) (m : GuestMemory) (target : Z) (args : GuestCall)
    : exec (option (option GuestResult * GuestThread * GuestMemory)) :=
  let saved := t in
  let bytes := Z.of_nat (length (stack args)) * 4 in
  sp ← vec_at (regs saved) 13;
  if sp <? bytes then Ret (Some (None, t, m))
  else
    let call_sp := u32 (Z.land (sp - bytes) (u32 (Z.lnot 7))) in
    let at_ := host_ptr m call_sp bytes kPageWrite in
    if negb (bytes =? 0) && bool_decide (at_ = None) then Ret (Some (None, t, m))
    else
      m ← (if negb (bytes =? 0) then host_write m call_sp (flat_map (to_le 4) (stack args)) else Ret m);
      t ← enter_call t args target call_sp;
      let t := set_cpsr t (Z.lor (Z.land (cpsr saved) (u32 (Z.lnot (Z.lor (Z.lor kCpsrThumb kCpsrItMask) kCpsrEndian))))
                                 (if Z.testbit target 0 then kCpsrThumb else 0)) in
      let t := with_depth t (call_depth t + 1) in
      r ← call_loop fuel call_sp t m;
      match r with
      | None => Ret None
      | Some (result, t, m) =>
          let t := with_depth t (call_depth t - 1) in
          Ret (Some (result, restore saved t, m))
      end.
End Run.
End GuestThread.
Arguments GuestThread J : clear implicits.

(** ** Callbacks never fault the host *)

(** A callback of translated code; [n] is the access width in bytes. *)
Inductive callback :=
| CbRead (n : nat) (vaddr : Z)
| CbWrite (n : nat) (vaddr value : Z)
| CbWriteExclusive (n : nat) (vaddr value expected : Z)
| CbReadCode (vaddr : Z)
| CbFallback (pc : Z)
| CbSvc (swi : Z)
| CbException (pc e : Z).

Section Callbacks.
Context {J : Type} `{Jit J}.

Definition callback_step (c : callback) (m : GuestMemory) (t : GuestThread J) : exec (GuestMemory * GuestThread J) :=
  match c with
  | CbRead n a => '(_, t) ← MemoryRead n m t a; Ret (m, t)
  | CbWrite n a v => MemoryWrite n m t a v
  | CbWriteExclusive n a v e => '(_, m, t) ← MemoryWriteExclusive n m t a v e; Ret (m, t)
  | CbReadCode a => _ ← MemoryReadCode m a; Ret (m, t)
  | CbFallback p => Ret (m, InterpreterFallback t p)
  | CbSvc s => Ret (m, CallSVC t s)
  | CbException p e => Ret (m, ExceptionRaised t p e)
  end.

Fixpoint callbacks_run (cs : list callback) (m : GuestMemory) (t : GuestThread J) : exec (GuestMemory * GuestThread J) :=
  match cs with
  | [] => Ret (m, t)
  | c :: cs => '(m, t) ← callback_step c m t; callbacks_run cs m t
  end.

(** Addresses are 32 bits wide, accesses at most 8 bytes. *)
Definition callback_typed (c : callback) : Prop :=
  match c with
  | CbRead n a | CbWrite n a _ | CbWriteExclusive n a _ _ => (0 < n <= 8)%nat /\ 0 <= a < 2 ^ 32
  | CbReadCode a => 0 <= a < 2 ^ 32
  | _ => True
  end.

(** The stop a callback asks for, from the page flags alone. *)
Definition stop_of (m : GuestMemory) (p : Stop) (c : callback) : option Stop :=
  match c with
  | CbRead n a => if accessible m a (Z.of_nat n) kPageRead then None else Some (memory_fault p a false)
  | CbWrite n a _ => if accessible m a (Z.of_nat n) kPageWrite then None else Some (memory_fault p a true)
  | CbWriteExclusive n a _ _ =>
      if accessible m a (Z.of_nat n) (Z.lor kPageRead kPageWrite) then None else Some (memory_fault p a true)
  | CbReadCode _ => None
  | CbFallback a => Some (exception_stop p a UndefinedInstruction)
  | CbSvc s => Some {| kind := Svc; swi := s; fault_addr := fault_addr p; fault_write := fault_write p; exception := exception p; pc := pc p |}
  | CbException a e => Some (exception_stop p a e)
  end.

(** The first stop wins. *)
Definition first_stop (p : Stop) (ss : list Stop) : Stop :=
  if decide (kind p = SNone) then default p (head ss) else p.

(** Page table and protection stay; only bytes of writable pages change. *)
Definition only_writable (m m' : GuestMemory) : Prop :=
  pages_ m' = pages_ m /\ hprot m' = hprot m /\ forall x, bytes_ m' x <> bytes_ m x -> page_has m kPageWrite (x / 4096).

Lemma only_writable_refl m : only_writable m m.
Proof. by split_and!. Qed.

Lemma only_writable_trans m1 m2 m3 : only_writable m1 m2 -> only_writable m2 m3 -> only_writable m1 m3.
Proof.
  intros (Hp & Hh & Hb) (Hp' & Hh' & Hb'). split_and!; [congruence..|]. intros x Hx.
  destruct (decide (bytes_ m2 x = bytes_ m1 x)) as [E|E]; [|by apply Hb].
  assert (page_has m2 kPageWrite (x / 4096)) as Hpg by (apply Hb'; congruence). by unfold page_has in *; rewrite Hp in Hpg.
Qed.

Lemma only_writable_wf m m' : only_writable m m' -> mem_wf m -> mem_wf m'.
Proof. intros (Hp & Hh & _) Hm i. rewrite Hp, Hh. apply Hm. Qed.

Lemma accessible_same m m' a n need : pages_ m' = pages_ m -> accessible m' a n need = accessible m a n need.
Proof. intros E. unfold accessible. by rewrite E. Qed.

Lemma stop_of_same m m' p c : pages_ m' = pages_ m -> stop_of m' p c = stop_of m p c.
Proof. intros E. destruct c; cbn; by rewrite ?(accessible_same m m') by done. Qed.

(** A readable or executable page is readable by the host. *)
Lemma host_load_ok m a n need :
  mem_wf m -> 0 <= a < 2 ^ 32 -> (0 < n <= 8)%nat -> accessible m a (Z.of_nat n) need = true ->
  has_bits need (Z.lor kPageRead kPageExec) = true -> exists v, host_load m a n = Ret v.
Proof.
  intros Hm Ha Hn Hacc Hneed. apply accessible_pages in Hacc as [?|[_ Hp]]; [lia| |lia..]. unfold host_load.
  assert (forallb (fun i => has_bits (hprot m ((a + Z.of_nat i) / kPageSize)) PROT_READ) (seq 0 n) = true) as ->; [|by eexists].
  apply forallb_forall. intros i Hi%in_seq. change kPageSize with 4096.
  destruct (page_ok_access _ _ need (Hm ((a + Z.of_nat i) / 4096))) as [Hr _]; [|by apply Hr]. apply Hp.
  split; apply Z.div_le_mono; lia.
Qed.

Lemma host_store_ok m a n need v :
  mem_wf m -> 0 <= a < 2 ^ 32 -> (0 < n <= 8)%nat -> accessible m a (Z.of_nat n) need = true -> has_bits need kPageWrite = true ->
  (forall i, page_has m need i -> page_has m kPageWrite i) ->
  exists m', host_store m a n v = Ret m' /\ only_writable m m'.
Proof.
  intros Hm Ha Hn Hacc Hneed Hw. apply accessible_pages in Hacc as [?|[Hend Hp]]; [lia| |lia..].
  destruct (write_accessible m a (to_le n v)) as (m' & E & (_ & Hpg & Hh & Hb) & _); [done|done| | |].
  { unfold size. rewrite length_to_le. lia. }
  { unfold size. rewrite length_to_le. apply accessible_pages; [lia..|]. right. split; [done|]. intros i Hi. by apply Hw, Hp. }
  exists m'. split; [done|]. split_and!; [done..|]. intros x Hx. apply Hw, Hp. unfold size in Hb. rewrite length_to_le in Hb.
  destruct (decide (a <= x < a + Z.of_nat n)) as [Hr|Hr]; [|by destruct Hx; apply Hb]. split; apply Z.div_le_mono; lia.
Qed.

Lemma record_stop_pending t s : pending_ (record_stop t s : GuestThread J) = first_stop (pending_ t) [s].
Proof. unfold record_stop, first_stop. by case_decide. Qed.

Lemma page_has_write m i : page_has m (Z.lor kPageRead kPageWrite) i -> page_has m kPageWrite i.
Proof.
  unfold page_has. intros E. apply Z.bits_inj'. intros k Hk. apply (f_equal (fun z => Z.testbit z k)) in E.
  rewrite !Z.land_spec, !Z.lor_spec in *. destruct (Z.testbit (pages_ m i) k); [done|]. cbn in *.
  destruct (Z.testbit kPageWrite k), (Z.testbit kPageMapped k); try done; by rewrite ?orb_true_r in E.
Qed.

Lemma callback_step_ok c m t :
  mem_wf m -> callback_typed c ->
  exists m' t', callback_step c m t = Ret (m', t') /\ only_writable m m' /\
    pending_ t' = first_stop (pending_ t) (option_list (stop_of m (pending_ t) c)).
Proof.
  assert (forall p, first_stop p [] = p) as Hnil by (intros p; unfold first_stop; by case_decide).
  intros Hm Ht. destruct c as [n a|n a v|n a v e|a|a|s|a e]; cbn [callback_step stop_of callback_typed] in *.
  - destruct Ht as [Hn Ha]. unfold MemoryRead, check_access. destruct (accessible _ _ _ _) eqn:Eacc.
    + destruct (host_load_ok m a n kPageRead) as [v Hv]; [done..|]. rewrite Hv. cbn. exists m, t. split; [done|].
      split; [apply only_writable_refl|]. by rewrite Hnil.
    + eexists m, _. split; [done|]. split; [apply only_writable_refl|]. apply record_stop_pending.
  - destruct Ht as [Hn Ha]. unfold MemoryWrite, check_access. destruct (accessible _ _ _ _) eqn:Eacc.
    + destruct (host_store_ok m a n kPageWrite v) as (m' & Hm' & How); [done..|]. rewrite Hm'. cbn. exists m', t. split; [done|].
      split; [done|]. by rewrite Hnil.
    + eexists m, _. split; [done|]. split; [apply only_writable_refl|]. apply record_stop_pending.
  - destruct Ht as [Hn Ha]. unfold MemoryWriteExclusive, check_access. destruct (accessible _ _ _ _) eqn:Eacc.
    + destruct (host_load_ok m a n (Z.lor kPageRead kPageWrite)) as [w Hv]; [done..|]. rewrite Hv. cbn [negb]. cbn.
      destruct (negb (w =? e)).
      { exists m, t. split; [done|]. split; [apply only_writable_refl|]. by rewrite Hnil. }
      destruct (host_store_ok m a n (Z.lor kPageRead kPageWrite) v) as (m' & Hm' & How); [done..|apply page_has_write|].
      rewrite Hm'. cbn. exists m', t. split; [done|]. split; [done|]. by rewrite Hnil.
    + eexists m, _. split; [done|]. split; [apply only_writable_refl|]. apply record_stop_pending.
  - unfold MemoryReadCode. exists m, t. split; [|split; [apply only_writable_refl|by rewrite Hnil]].
    destruct (accessible _ _ _ _) eqn:Eacc; [|done].
    destruct (host_load_ok m a 4 kPageExec) as [w Hv]; [done|done|lia|done|done|]. by rewrite Hv.
  - eexists m, _. split; [done|]. split; [apply only_writable_refl|]. apply record_stop_pending.
  - eexists m, _. split; [done|]. split; [apply only_writable_refl|]. apply record_stop_pending.
  - eexists m, _. split; [done|]. split; [apply only_writable_refl|]. apply record_stop_pending.
Qed.
End Callbacks.

Section CallbackRuns.
Context {J : Type} `{Jit J}.

Lemma stop_of_kind m p c s : stop_of m p c = Some s -> kind s <> SNone.
Proof. destruct c; cbn; repeat case_match; intros [= <-]; done. Qed.

Lemma first_stop_app m p c ss :
  first_stop (first_stop p (option_list (stop_of m p c))) ss = first_stop p (option_list (stop_of m p c) ++ ss) /\
  (stop_of m p c <> None \/ first_stop p (option_list (stop_of m p c)) = p).
Proof.
  destruct (stop_of m p c) as [s|] eqn:E; cbn [option_list app from_option].
  - split; [|by left]. unfold first_stop at 2 3. case_decide as Hk; cbn [head default].
    + unfold first_stop. rewrite decide_False by (by eapply stop_of_kind). done.
    + unfold first_stop. by rewrite decide_False.
  - change (option_list (@None Stop)) with (@nil Stop). assert (first_stop p [] = p) as -> by (unfold first_stop; by case_decide). split; [done|by right].
Qed.

Lemma callbacks_run_ok cs : forall m (t : GuestThread J),
  mem_wf m -> Forall callback_typed cs ->
  exists m' t', callbacks_run cs m t = Ret (m', t') /\ only_writable m m' /\
    pending_ t' = first_stop (pending_ t) (omap (stop_of m (pending_ t)) cs).
Proof.
  induction cs as [|c cs IH]; intros m t Hm Hcs.
  { exists m, t. split; [done|]. split; [apply only_writable_refl|]. cbn. unfold first_stop. by case_decide. }
  apply Forall_cons in Hcs as [Hc Hcs]. destruct (callback_step_ok c m t Hm Hc) as (m1 & t1 & E1 & How & Hp1).
  destruct (IH m1 t1) as (m2 & t2 & E2 & How2 & Hp2); [by eapply only_writable_wf|done|].
  exists m2, t2. cbn [callbacks_run]. rewrite E1, exec_ret_bind. split; [done|]. split; [by eapply only_writable_trans|].
  rewrite Hp2, Hp1. destruct (first_stop_app m (pending_ t) c (omap (stop_of m1 (first_stop (pending_ t) (option_list (stop_of m (pending_ t) c)))) cs)) as [-> Hcase].
  cbn. destruct (stop_of m (pending_ t) c) as [s|] eqn:Es; [change (option_list (Some s)) with [s]; unfold first_stop; by case_decide|].
  destruct Hcase as [?|Hcase]; [done|]. change (option_list (@None Stop)) with (@nil Stop) in *. rewrite Hcase. f_equal.
  apply list_omap_ext. apply Forall2_same_length_lookup. split; [done|]. intros i x y Hx Hy. assert (x = y) as -> by congruence.
  by apply stop_of_same, How.
Qed.
End CallbackRuns.

(** ** The signal queue *)

Lemma countr_zero_from_spec n v i :
  (exists k, i <= k < i + Z.of_nat n /\ Z.testbit v k = true) ->
  let b := countr_zero_from n v i in i <= b < i + Z.of_nat n /\ Z.testbit v b = true /\ forall k, i <= k < b -> Z.testbit v k = false.
Proof.
  revert i. induction n as [|n IH]; intros i (k & Hk & Hv); cbn [countr_zero_from]; [lia|].
  destruct (Z.testbit v i) eqn:E; [split_and!; [lia..|done|lia]|].
  assert (k <> i) by congruence. destruct (IH (i + 1)) as (H1 & H2 & H3); [exists k; split; [lia|done]|].
  split_and!; [lia..|done|]. intros j Hj. destruct (decide (j = i)) as [->|]; [done|]. apply H3. lia.
Qed.

Lemma countr_zero_spec v :
  0 <= v < 2 ^ 64 -> v <> 0 ->
  0 <= countr_zero v < 64 /\ Z.testbit v (countr_zero v) = true /\ forall k, 0 <= k < countr_zero v -> Z.testbit v k = false.
Proof.
  intros Hv Hnz. apply (countr_zero_from_spec 64 v 0). exists (Z.log2 v). split; [|apply Z.bit_log2; lia].
  split; [apply Z.log2_nonneg|]. apply Z.log2_lt_pow2; lia.
Qed.

Lemma testbit_u64 z k : 0 <= k < 64 -> Z.testbit (u64 z) k = Z.testbit z k.
Proof. apply testbit_wrap. Qed.

Lemma testbit_pow2 i k : 0 <= i -> Z.testbit (Z.shiftl 1 i) k = bool_decide (k = i).
Proof.
  intros. rewrite Z.shiftl_1_l. case_bool_decide as E; [subst; by apply Z.pow2_bits_true|]. by apply Z.pow2_bits_false.
Qed.

Section Queue.
Context {J : Type} `{Jit J}.

(** The signal [sig] with what it carries, if it is queued. *)
Definition queued (t : GuestThread J) (sig : Z) : option siginfo32 :=
  if decide (1 <= sig <= 64) then
    if Z.testbit (pending_signals_ t) (sig - 1) then pending_info_ t !! Z.to_nat sig else None
  else None.

Definition queue_ok (t : GuestThread J) : Prop :=
  0 <= pending_signals_ t < 2 ^ 64 /\ length (pending_info_ t) = 65%nat.

Lemma deliverable_bit p blocked k :
  0 <= k < 64 -> Z.testbit (Z.land p (u64 (Z.lnot blocked))) k = Z.testbit p k && negb (Z.testbit blocked k).
Proof. intros. rewrite Z.land_spec, testbit_u64, Z.lnot_spec by lia. done. Qed.

Lemma deliverable_range p blocked : 0 <= p < 2 ^ 64 -> 0 <= Z.land p (u64 (Z.lnot blocked)) < 2 ^ 64.
Proof. intros Hp. apply land_range; [lia|done|apply u64_range]. Qed.

Lemma deliverable_zero p blocked :
  0 <= p < 2 ^ 64 ->
  Z.land p (u64 (Z.lnot blocked)) = 0 <-> forall k, 0 <= k < 64 -> Z.testbit p k = true -> Z.testbit blocked k = true.
Proof.
  intros Hp. split.
  - intros E k Hk Hpk. pose proof (deliverable_bit p blocked k Hk) as Hd. rewrite E, Z.bits_0, Hpk in Hd.
    by destruct (Z.testbit blocked k).
  - intros Hall. destruct (decide (Z.land p (u64 (Z.lnot blocked)) = 0)) as [|Hnz]; [done|]. exfalso.
    destruct (countr_zero_spec _ (deliverable_range p blocked Hp) Hnz) as (Hr & Hb & _).
    rewrite deliverable_bit in Hb by done. apply andb_true_iff in Hb as [H1 H2]. by rewrite (Hall _ Hr H1) in H2.
Qed.

Lemma post_signal_queue t info :
  queue_ok t -> exists t', post_signal t info = Ret t' /\ queue_ok t' /\
    (1 <= si_signo info <= 64 -> park_token t' <> park_token t) /\
    forall sig, queued t' sig = if decide (1 <= si_signo info <= 64 /\ sig = si_signo info) then Some info else queued t sig.
Proof.
  intros [Hp Hl]. unfold post_signal. destruct ((si_signo info <? 1) || (64 <? si_signo info)) eqn:E.
  { exists t. split; [done|]. split; [done|]. split; [lia|]. intros sig. rewrite decide_False by lia. done. }
  unfold vec_set. rewrite decide_True by lia. rewrite exec_ret_bind. eexists. split; [done|]. split_and!.
  - split; cbn; [|by rewrite length_insert]. apply (lor_range _ _ 64); [lia|lia|apply u64_range].
  - intros _. unfold park_token. cbn. unfold u32. intros E'. destruct (decide (0 <= park_word_ t < 2 ^ 32)).
    + destruct (decide (park_word_ t = 2 ^ 32 - 1)) as [E2|]; [rewrite E2 in E'; vm_compute in E'; lia|].
      rewrite Z.mod_small in E' by lia. lia.
    + pose proof (Z.mod_pos_bound (park_word_ t + 1) (2 ^ 32)). lia.
  - intros sig. unfold queued. cbn. rewrite Z.lor_spec. destruct (decide (1 <= sig <= 64)) as [Hs|Hs].
    + rewrite testbit_u64, testbit_pow2 by lia. destruct (decide (sig = si_signo info)) as [->|Hne].
      * rewrite decide_True by lia. rewrite bool_decide_true, orb_true_r by lia. rewrite list_lookup_insert_eq by lia. done.
      * rewrite (decide_False (P := 1 <= si_signo info <= 64 /\ _)) by lia. rewrite bool_decide_false, orb_false_r by lia.
        rewrite list_lookup_insert_ne by lia. done.
    + rewrite decide_False by lia. done.
Qed.

(** [take_signal] with any interference: nothing was deliverable at one look at the
    word, or the lowest unblocked signal leaves the queue. *)
Lemma take_signal_queue seen t blocked :
  queue_ok t -> Forall (fun p => 0 <= p < 2 ^ 64) seen ->
  exists r t', take_signal_loop seen t blocked = Ret (r, t') /\ queue_ok t' /\
    match r with
    | None => t' = t /\ exists p, p ∈ seen ++ [pending_signals_ t] /\ forall k, 0 <= k < 64 -> Z.testbit p k = true -> Z.testbit blocked k = true
    | Some info => exists sig, queued t sig = Some info /\ Z.testbit blocked (sig - 1) = false /\
        (forall s, s < sig -> queued t s <> None -> Z.testbit blocked (s - 1) = true) /\
        forall s, queued t' s = if decide (s = sig) then None else queued t s
    end.
Proof.
  intros [Hp Hl]. induction 1 as [|p seen Hpr _ IH]; cbn [take_signal_loop].
  - destruct (Z.land (pending_signals_ t) _ =? 0) eqn:E.
    { apply Z.eqb_eq in E. exists None, t. split; [done|]. split; [done|]. split; [done|].
      exists (pending_signals_ t). split; [by left|]. by apply deliverable_zero. }
    apply Z.eqb_neq in E. destruct (countr_zero_spec _ (deliverable_range _ _ Hp) E) as (Hr & Hb & Hlow).
    set (b := countr_zero _) in *. rewrite deliverable_bit in Hb by done. apply andb_true_iff in Hb as [Hb1 Hb2].
    destruct (lookup_lt_is_Some_2 (pending_info_ t) (Z.to_nat (b + 1))) as [info Hinfo]; [lia|].
    cbn [pending_info_ with_signals]. unfold vec_at. rewrite Hinfo, exec_ret_bind. exists (Some info). eexists.
    split; [reflexivity|]. split; [split; [apply deliverable_range, Hp|done]|].
    exists (b + 1). unfold queued. cbn [pending_signals_ pending_info_ with_signals]. rewrite decide_True by lia.
    replace (b + 1 - 1) with b by lia. rewrite Hb1. split; [done|]. split; [by apply negb_true_iff|]. split.
    + intros s Hs Hq. case_decide; [|done]. destruct (Z.testbit (pending_signals_ t) (s - 1)) eqn:Es; [|done].
      specialize (Hlow (s - 1)). rewrite deliverable_bit, Es in Hlow by lia. apply negb_false_iff, Hlow. lia.
    + intros s. destruct (decide (1 <= s <= 64)) as [Hs|Hs]; [|by case_decide].
      rewrite deliverable_bit, testbit_pow2 by lia. case_decide as Heq.
      * by rewrite bool_decide_true, andb_false_r by lia.
      * by rewrite bool_decide_false, andb_true_r by lia.
  - destruct (Z.land p _ =? 0) eqn:E.
    + apply Z.eqb_eq in E. exists None, t. split; [done|]. split; [done|]. split; [done|]. exists p. split; [by left|]. by apply deliverable_zero.
    + destruct IH as (r & t' & Ht & Hok & Hr). exists r, t'. split; [done|]. split; [done|]. destruct r; [done|].
      destruct Hr as (-> & q & Hq & ?). split; [done|]. exists q. split; [by right|done].
Qed.
End Queue.

(** ** Host-to-guest calls *)

Section Calls.
Context {J : Type} `{JitLaws J}.
Context (jit_Run : GuestThread J -> GuestMemory -> Z * GuestThread J * GuestMemory).
Context (handle_stop : Stop -> GuestThread J -> GuestMemory -> bool * GuestThread J * GuestMemory).

Lemma run_loop_mono fuel fuel' t m x : run_loop jit_Run fuel t m = Some x -> (fuel <= fuel')%nat -> run_loop jit_Run fuel' t m = Some x.
Proof.
  revert fuel' t m. induction fuel as [|fuel IH]; intros fuel' t m Hx Hle; [done|]. destruct fuel' as [|fuel']; [lia|].
  cbn [run_loop] in *. destruct (jit_Run t m) as [[reason t1] m1]. repeat case_match; try done. apply IH; [done|lia].
Qed.

Lemma run_mono fuel fuel' t m x : run jit_Run fuel t m = Ret (Some x) -> (fuel <= fuel')%nat -> run jit_Run fuel' t m = Ret (Some x).
Proof.
  unfold run. intros Hx Hle. destruct (run_loop jit_Run fuel (with_pending t Stop_init) m) as [y|] eqn:E; [|done].
  by rewrite (run_loop_mono _ _ _ _ _ E Hle).
Qed.

Definition is_return (call_sp : Z) (stop : Stop) (t : GuestThread J) : Prop :=
  kind stop = Svc /\ swi stop = kHostReturnSwi /\ regs t !! 13%nat = Some call_sp.

(** What the guest does between entering a call and its end: it returns through the
    host-return svc with the stack pointer of its frame, the handler gives up, or the
    handler resumes it. *)
Inductive guest_runs (call_sp : Z) : GuestThread J -> GuestMemory -> option GuestResult -> GuestThread J -> GuestMemory -> Prop :=
| gr_return fuel t m stop t' m' r0 r1 :
    run jit_Run fuel t m = Ret (Some (stop, t', m')) -> is_return call_sp stop t' ->
    regs t' !! 0%nat = Some r0 -> regs t' !! 1%nat = Some r1 ->
    guest_runs call_sp t m (Some {| res_r0 := r0; res_r1 := r1 |}) t' m'
| gr_fail fuel t m stop t' m' t'' m'' :
    run jit_Run fuel t m = Ret (Some (stop, t', m')) -> ~ is_return call_sp stop t' ->
    handle_stop stop t' m' = (false, t'', m'') -> guest_runs call_sp t m None t'' m''
| gr_resume fuel t m stop t' m' t'' m'' r t3 m3 :
    run jit_Run fuel t m = Ret (Some (stop, t', m')) -> ~ is_return call_sp stop t' ->
    handle_stop stop t' m' = (true, t'', m'') -> guest_runs call_sp t'' m'' r t3 m3 -> guest_runs call_sp t m r t3 m3.

Lemma is_return_test call_sp stop t sp :
  regs t !! 13%nat = Some sp ->
  bool_decide (kind stop = Svc) && (swi stop =? kHostReturnSwi) && (sp =? call_sp) = true <-> is_return call_sp stop t.
Proof.
  intros Hsp. unfold is_return. rewrite !andb_true_iff, bool_decide_eq_true, !Z.eqb_eq, Hsp. split.
  - intros [[? ?] ->]. done.
  - intros (? & ? & [= ->]). done.
Qed.

(** Enough fuel gives what the guest does. *)
Lemma call_loop_complete call_sp t m r t' m' :
  guest_runs call_sp t m r t' m' ->
  exists f0, forall f, (f0 <= f)%nat -> call_loop jit_Run handle_stop f call_sp t m = Ret (Some (r, t', m')).
Proof.
  assert (forall t : GuestThread J, exists sp, regs t !! 13%nat = Some sp) as Hsp.
  { intros t0. apply lookup_lt_is_Some_2. unfold regs. rewrite Regs_length. lia. }
  induction 1 as [fuel t m stop t' m' r0 r1 Hrun Hret Hr0 Hr1|fuel t m stop t' m' t'' m'' Hrun Hret Hh|fuel t m stop t' m' t'' m'' r t3 m3 Hrun Hret Hh _ [f0 IH]].
  - exists (S fuel). intros [|f] Hf; [lia|]. cbn [call_loop]. rewrite (run_mono _ (S f) _ _ _ Hrun) by lia. rewrite exec_ret_bind.
    destruct (Hsp t') as [sp Es]. unfold vec_at. rewrite Es, exec_ret_bind.
    rewrite (proj2 (is_return_test _ _ _ _ Es) Hret). by rewrite Hr0, exec_ret_bind, Hr1.
  - exists (S fuel). intros [|f] Hf; [lia|]. cbn [call_loop]. rewrite (run_mono _ (S f) _ _ _ Hrun) by lia. rewrite exec_ret_bind.
    destruct (Hsp t') as [sp Es]. unfold vec_at. rewrite Es, exec_ret_bind.
    rewrite (not_true_is_false _ (fun E => Hret (proj1 (is_return_test _ _ _ _ Es) E))). by rewrite Hh.
  - exists (S (fuel + f0)). intros [|f] Hf; [lia|]. cbn [call_loop]. rewrite (run_mono _ (S f) _ _ _ Hrun) by lia. rewrite exec_ret_bind.
    destruct (Hsp t') as [sp Es]. unfold vec_at. rewrite Es, exec_ret_bind.
    rewrite (not_true_is_false _ (fun E => Hret (proj1 (is_return_test _ _ _ _ Es) E))). rewrite Hh. cbn [negb]. apply IH. lia.
Qed.

Lemma set_reg_run (t : GuestThread J) i v : (i < 16)%nat -> set_reg t i v = Ret (set_regs t (<[i := v]> (regs t))).
Proof. intros Hi. unfold set_reg, vec_set. by rewrite decide_True by (unfold regs; rewrite Regs_length; lia). Qed.

Lemma regs_set_regs (t : GuestThread J) r : length r = 16%nat -> regs (set_regs t r) = r.
Proof. intros. by apply Regs_set. Qed.

(** The registers on entry: arguments in r0 to r3, the frame, the return address
    and the entry point without its Thumb bit. *)
Definition entry_regs (old : list Z) (a0 a1 a2 a3 target call_sp : Z) : list Z :=
  <[15%nat := Z.land target (u32 (Z.lnot 1))]> (<[14%nat := kHostReturnAddress]> (<[13%nat := call_sp]>
    (<[3%nat := a3]> (<[2%nat := a2]> (<[1%nat := a1]> (<[0%nat := a0]> old)))))).

Lemma enter_call_run t args a0 a1 a2 a3 target call_sp :
  NativeCall.regs args = [a0; a1; a2; a3] ->
  exists t', enter_call t args target call_sp = Ret t' /\ regs t' = entry_regs (regs t) a0 a1 a2 a3 target call_sp /\
    call_depth t' = call_depth t.
Proof.
  intros Ha. unfold enter_call. rewrite Ha. unfold vec_at. cbn [lookup list_lookup].
  assert (length (regs t) = 16%nat) as Hl by apply Regs_length.
  eexists. split.
  { repeat (rewrite exec_ret_bind || (rewrite set_reg_run by lia)). reflexivity. }
  split; [|done]. repeat (rewrite regs_set_regs by (unfold regs; rewrite ?length_insert, ?Regs_length; done)). done.
Qed.

(** The accessors do not disturb each other, one equation each. *)
Lemma Regs_ext e j : Regs (set_ExtRegs e j) = Regs j.
Proof. apply (Regs_other e 0 0). Qed.
Lemma Regs_cpsr c j : Regs (SetCpsr c j) = Regs j.
Proof. apply (Regs_other [] c 0). Qed.
Lemma Regs_fpscr f j : Regs (SetFpscr f j) = Regs j.
Proof. apply (Regs_other [] 0 f). Qed.
Lemma ExtRegs_regs r j : ExtRegs (set_Regs r j) = ExtRegs j.
Proof. apply (ExtRegs_other r 0 0). Qed.
Lemma ExtRegs_cpsr c j : ExtRegs (SetCpsr c j) = ExtRegs j.
Proof. apply (ExtRegs_other [] c 0). Qed.
Lemma ExtRegs_fpscr f j : ExtRegs (SetFpscr f j) = ExtRegs j.
Proof. apply (ExtRegs_other [] 0 f). Qed.
Lemma Cpsr_regs r j : Cpsr (set_Regs r j) = Cpsr j.
Proof. apply (Cpsr_other r [] 0). Qed.
Lemma Cpsr_ext e j : Cpsr (set_ExtRegs e j) = Cpsr j.
Proof. apply (Cpsr_other [] e 0). Qed.
Lemma Cpsr_fpscr f j : Cpsr (SetFpscr f j) = Cpsr j.
Proof. apply (Cpsr_other [] [] f). Qed.
Lemma Fpscr_regs r j : Fpscr (set_Regs r j) = Fpscr j.
Proof. apply (Fpscr_other r [] 0). Qed.
Lemma Fpscr_ext e j : Fpscr (set_ExtRegs e j) = Fpscr j.
Proof. apply (Fpscr_other [] e 0). Qed.
Lemma Fpscr_cpsr c j : Fpscr (SetCpsr c j) = Fpscr j.
Proof. apply (Fpscr_other [] [] c). Qed.

(** [restore] puts back what the call saw. *)
Lemma restore_run saved t :
  let t' := restore saved t in
  regs t' = regs saved /\ ext_regs t' = ext_regs saved /\ cpsr t' = cpsr saved /\ fpscr t' = fpscr saved /\ call_depth t' = call_depth t.
Proof.
  cbv zeta. unfold restore, regs, ext_regs, cpsr, fpscr, set_fpscr, set_cpsr, set_ext_regs, set_regs. cbn.
  rewrite Regs_fpscr, Regs_cpsr, Regs_ext, ExtRegs_fpscr, ExtRegs_cpsr, Cpsr_fpscr.
  rewrite Regs_set by apply Regs_length. rewrite ExtRegs_set by apply ExtRegs_length. by rewrite Cpsr_set, Fpscr_set.
Qed.

(** Running the JIT and handling a stop leave the number of active calls alone. *)
Hypothesis run_depth : forall t m, call_depth (jit_Run t m).1.2 = call_depth t.
Hypothesis handler_depth : forall s t m, call_depth (handle_stop s t m).1.2 = call_depth t.

Lemma run_loop_depth fuel t m t' m' : run_loop jit_Run fuel t m = Some (t', m') -> call_depth t' = call_depth t.
Proof.
  revert t m. induction fuel as [|fuel IH]; intros t m; [done|]. cbn [run_loop]. pose proof (run_depth t m) as Hd.
  destruct (jit_Run t m) as [[reason t1] m1]. cbn [fst snd] in Hd. repeat case_match.
  - by intros [= <- <-].
  - intros E. rewrite (IH _ _ E). done.
  - by intros [= <- <-].
Qed.

Lemma run_depth_ok fuel t m s t' m' : run jit_Run fuel t m = Ret (Some (s, t', m')) -> call_depth t' = call_depth t.
Proof.
  unfold run. destruct (run_loop _ _ _ _) as [[t1 m1]|] eqn:E; [|done]. pose proof (run_loop_depth _ _ _ _ _ E) as Hd. cbn in Hd.
  case_decide; [by intros [= <- <- <-]|]. intros Hr. apply exec_bind_Ret in Hr as (v & _ & Hr). by injection Hr as <- <- <-.
Qed.

Lemma guest_runs_depth call_sp t m r t' m' : guest_runs call_sp t m r t' m' -> call_depth t' = call_depth t.
Proof.
  induction 1 as [fuel t m stop t' m' r0 r1 Hrun|fuel t m stop t' m' t'' m'' Hrun Hret Hh|fuel t m stop t' m' t'' m'' r t3 m3 Hrun Hret Hh _ IH];
    pose proof (run_depth_ok _ _ _ _ _ _ Hrun) as Hd; [done|..]; pose proof (handler_depth stop t' m') as Hd2; rewrite Hh in Hd2; cbn in Hd2; congruence.
Qed.
End Calls.

(** ** Claims *)

(** whatever accesses and stops translated code asks for, in any order, no
    callback faults the host or reads or writes memory the guest may not access:
    memory changes only on pages the guest may write, the page table stays, and the
    stop that is reported is the first one asked for. *)
Theorem guest_access_checked {J} `{Jit J} cs m (t : GuestThread J) :
  mem_wf m -> Forall callback_typed cs ->
  exists m' t', callbacks_run cs m t = Ret (m', t') /\ mem_wf m' /\ only_writable m m' /\
    pending_ t' = first_stop (pending_ t) (omap (stop_of m (pending_ t)) cs).
Proof.
  intros Hm Hcs. destruct (callbacks_run_ok cs m t Hm Hcs) as (m' & t' & E & How & Hp).
  exists m', t'. split; [done|]. split; [by eapply only_writable_wf|]. done.
Qed.

(** the queue of pending signals, one call at a time ([SignalQueue] has the calls
    interleaved step by step): a posted signal is queued with its data, replaces one of
    the same number, and changes the park token, so that a parked thread wakes;
    [take_signal] removes exactly the lowest-numbered unblocked signal and answers with
    its data, and answers "none" only if at one of its looks nothing unblocked was
    pending. *)
Theorem signal_queue_exact {J} `{Jit J} (t : GuestThread J) :
  queue_ok t ->
  (forall info, exists t', post_signal t info = Ret t' /\ queue_ok t' /\
     (1 <= si_signo info <= 64 -> park_token t' <> park_token t) /\
     forall sig, queued t' sig = if decide (1 <= si_signo info <= 64 /\ sig = si_signo info) then Some info else queued t sig) /\
  (forall seen blocked, Forall (fun p => 0 <= p < 2 ^ 64) seen ->
     exists r t', take_signal_loop seen t blocked = Ret (r, t') /\ queue_ok t' /\
     match r with
     | None => t' = t /\ exists p, p ∈ seen ++ [pending_signals_ t] /\ forall k, 0 <= k < 64 -> Z.testbit p k = true -> Z.testbit blocked k = true
     | Some info => exists sig, queued t sig = Some info /\ Z.testbit blocked (sig - 1) = false /\
         (forall s, s < sig -> queued t s <> None -> Z.testbit blocked (s - 1) = true) /\
         forall s, queued t' s = if decide (s = sig) then None else queued t s
     end).
Proof.
  intros Hok. split; [intros info; by apply post_signal_queue|]. intros seen blocked Hs. by apply take_signal_queue.
Qed.

(** a host-to-guest call.  If its stack words do not fit it fails and changes
    nothing.  Otherwise the words are stored at the 8-aligned frame, the guest starts
    at the target with the arguments in r0 to r3, the return address in lr and that
    frame, and when the guest returns through the host-return svc with its own frame,
    or its handler gives up, the call ends, with r0 and r1 as the result in the
    first case only, and every register, the status words and the call depth are as
    before the call.  Enough fuel always reaches that end. *)
Theorem call_exact {J} `{JitLaws J} jit_Run handle_stop (t : GuestThread J) m target a0 a1 a2 a3 words sp :
  (forall t m, call_depth (jit_Run t m).1.2 = call_depth t) ->
  (forall s t m, call_depth (handle_stop s t m).1.2 = call_depth t) ->
  mem_wf m -> regs t !! 13%nat = Some sp -> 0 <= sp < 2 ^ 32 ->
  let args := {| NativeCall.regs := [a0; a1; a2; a3]; stack := words |} in
  let bytes := 4 * Z.of_nat (length words) in
  let call_sp := (sp - bytes) / 8 * 8 in
  ((sp < bytes \/ words <> [] /\ accessible m call_sp bytes kPageWrite = false) ->
   forall f, call jit_Run handle_stop f t m target args = Ret (Some (None, t, m))) /\
  (bytes <= sp -> (words <> [] -> accessible m call_sp bytes kPageWrite = true) ->
   exists m1 t1, changes_within m m1 call_sp (call_sp + bytes) /\ holds m1 call_sp (flat_map (to_le 4) words) /\
     regs t1 = entry_regs (regs t) a0 a1 a2 a3 target call_sp /\ call_depth t1 = call_depth t + 1 /\
     forall r t2 m2, guest_runs jit_Run handle_stop call_sp t1 m1 r t2 m2 ->
       exists f0 t', (forall f, (f0 <= f)%nat -> call jit_Run handle_stop f t m target args = Ret (Some (r, t', m2))) /\
         regs t' = regs t /\ ext_regs t' = ext_regs t /\ cpsr t' = cpsr t /\ fpscr t' = fpscr t /\ call_depth t' = call_depth t).
Proof.
  intros Hrd Hhd Hm Hsp Hr args bytes call_sp.
  assert (Z.of_nat (length words) * 4 = bytes) as Eb by lia. assert (bytes =? 0 = bool_decide (words = [])) as Ez.
  { destruct words; [done|]. rewrite bool_decide_false by done. apply Z.eqb_neq. unfold bytes. cbn [length]. lia. }
  assert (0 <= bytes) as Hb0 by lia. assert (bytes <= sp -> u32 (Z.land (sp - bytes) (u32 (Z.lnot 7))) = call_sp) as Ecs.
  { intros Hle. unfold u32 at 2. change 7 with (2 ^ 3 - 1). rewrite land_clear_low by lia. change (2 ^ 3) with 8.
    fold call_sp. apply u32_small. unfold call_sp. pose proof (Z.mul_div_le (sp - bytes) 8). pose proof (Z.div_pos (sp - bytes) 8). lia. }
  assert (bytes <= sp -> 0 <= call_sp < 2 ^ 32) as Hcs by (intros Hle; rewrite <- (Ecs Hle); apply u32_range).
  unfold call. cbn [stack args]. rewrite Eb. unfold vec_at. rewrite Hsp. split.
  - intros Hno f. rewrite exec_ret_bind. destruct (Z.ltb_spec sp bytes) as [Hlt|Hge]; [done|]. destruct Hno as [?|[Hw Hacc]]; [lia|].
    rewrite (Ecs Hge), Ez. unfold host_ptr. rewrite Hacc. by rewrite (bool_decide_false (words = [])) by done.
  - intros Hle Hacc. set (data := flat_map (to_le 4) words).
    assert (size data = bytes) as Hsize.
    { unfold data, size, bytes. clear. induction words as [|w ws IH]; [done|]. cbn [flat_map]. rewrite length_app, length_to_le. cbn [length] in *. lia. }
    assert (exists m1, (if negb (bytes =? 0) then host_write m call_sp data else Ret m) = Ret m1 /\ changes_within m m1 call_sp (call_sp + bytes) /\ holds m1 call_sp data)
      as (m1 & Em & Hch & Hho).
    { destruct (decide (words = [])) as [->|Hw].
      - exists m. split; [done|]. split; [done|]. by intros i b.
      - rewrite Ez, bool_decide_false by done. cbn [negb]. rewrite <- Hsize. apply write_accessible; [done|by apply Hcs|lia|]. rewrite Hsize. by apply Hacc. }
    destruct (enter_call_run t args a0 a1 a2 a3 target call_sp eq_refl) as (te & Ee & Hre & Hde).
    set (c := Z.lor _ _). exists m1, (with_depth (set_cpsr te c) (call_depth (set_cpsr te c) + 1)).
    split; [done|]. split; [done|]. split.
    { unfold regs, set_cpsr. cbn. rewrite Regs_cpsr. exact Hre. }
    split; [cbn; lia|]. intros r t2 m2 Hg. destruct (call_loop_complete _ _ _ _ _ _ _ _ Hg) as [f0 Hf]. exists f0. eexists. split.
    + intros f Hle'. rewrite exec_ret_bind. rewrite (proj2 (Z.ltb_ge sp bytes)) by lia. rewrite (Ecs Hle).
      replace (negb (bytes =? 0) && bool_decide (host_ptr m call_sp bytes kPageWrite = None)) with false.
      2: { rewrite Ez. case_bool_decide as E; [done|]. cbn [negb andb]. unfold host_ptr. by rewrite (Hacc E). }
      rewrite Em, exec_ret_bind, Ee, exec_ret_bind. cbv zeta. fold c. by rewrite (Hf f Hle').
    + destruct (restore_run t (with_depth t2 (call_depth t2 - 1))) as (? & ? & ? & ? & Hd). split_and!; try done.
      rewrite Hd. cbn. apply guest_runs_depth in Hg; [|done..]. rewrite Hg. cbn. lia.
Qed.

(** ** Witnesses *)

(** A JIT that only has its registers. *)
Record sample_jit := { sj_regs : list Z; sj_ext : list Z; sj_cpsr : Z; sj_fpscr : Z }.

#[local] Instance sample_Jit : Jit sample_jit := {|
  Regs j := resize 16 0 (sj_regs j);
  set_Regs r j := {| sj_regs := r; sj_ext := sj_ext j; sj_cpsr := sj_cpsr j; sj_fpscr := sj_fpscr j |};
  ExtRegs j := resize 64 0 (sj_ext j);
  set_ExtRegs r j := {| sj_regs := sj_regs j; sj_ext := r; sj_cpsr := sj_cpsr j; sj_fpscr := sj_fpscr j |};
  Cpsr := sj_cpsr;
  SetCpsr v j := {| sj_regs := sj_regs j; sj_ext := sj_ext j; sj_cpsr := v; sj_fpscr := sj_fpscr j |};
  Fpscr := sj_fpscr;
  SetFpscr v j := {| sj_regs := sj_regs j; sj_ext := sj_ext j; sj_cpsr := sj_cpsr j; sj_fpscr := v |};
  HaltExecution _ j := j;
  ClearHalt _ j := j;
  InvalidateCacheRange _ _ j := j;
|}.

#[local] Instance sample_JitLaws : JitLaws sample_jit.
Proof. split; intros; cbn -[resize]; rewrite ?length_resize; auto using resize_all_alt. Qed.

Definition sample_thread : GuestThread sample_jit :=
  {| jit_ := {| sj_regs := replicate 13 7 ++ [0x11000; 0; 0]; sj_ext := []; sj_cpsr := 0x10; sj_fpscr := 0 |};
     pending_ := Stop_init; pending_signals_ := 0; pending_info_ := replicate 65 siginfo32_init; park_word_ := 0; sigmask := 0;
     altstack := {| ss_sp := 0; ss_flags := 2; ss_size := 0 |}; clear_child_tid := 0; exit_status := 0; call_depth := 0;
     child_code_cache_size := 0; tid := 1; tpidruro_ := 0; processor_id_ := 0 |}.

Lemma guest_access_checked_witness :
  exists m' t', callbacks_run [CbWrite 4 0x10ffe 5; CbRead 4 0x20000; CbSvc 3] sample_memory sample_thread = Ret (m', t') /\
    mem_wf m' /\ only_writable sample_memory m' /\ pending_ t' = memory_fault Stop_init 0x20000 false.
Proof.
  apply (guest_access_checked [CbWrite 4 0x10ffe 5; CbRead 4 0x20000; CbSvc 3] sample_memory sample_thread sample_memory_wf).
  repeat (apply Forall_cons; split; [cbn; lia|]). apply Forall_nil. exact I.
Defined.

Definition sample_info (n : Z) : siginfo32 := {| si_signo := n; si_errno := 0; si_code := 7; fields := replicate 29 0 |}.

Lemma signal_queue_exact_witness :
  exists t', post_signal sample_thread (sample_info 10) = Ret t' /\ queued t' 10 = Some (sample_info 10) /\ park_token t' <> 0.
Proof.
  destruct (signal_queue_exact sample_thread) as [Hpost _]; [split; [cbn; lia|reflexivity]|].
  destruct (Hpost (sample_info 10)) as (t' & E & _ & Hw & Hq). exists t'. split; [exact E|]. split.
  - rewrite Hq. reflexivity.
  - apply Hw. cbn. lia.
Defined.

(** Translated code that returns at once with r0 = 42, keeping its frame. *)
Definition sample_run (t : GuestThread sample_jit) (m : GuestMemory) : Z * GuestThread sample_jit * GuestMemory :=
  (kStopHalt,
   with_pending (set_regs t (<[0%nat := 42]> (regs t)))
     {| kind := Svc; swi := kHostReturnSwi; fault_addr := 0; fault_write := false; exception := 0; pc := 0 |}, m).

Lemma sample_run_returns t m :
  regs t = entry_regs (regs sample_thread) 1 2 3 4 0x8001 0x10ff8 ->
  exists stop t', run sample_run 1 t m = Ret (Some (stop, t', m)) /\ is_return 0x10ff8 stop t' /\ regs t' !! 0%nat = Some 42 /\ regs t' !! 1%nat = Some 2.
Proof.
  intros Ht. set (t' := with_pending (set_regs t (<[0%nat := 42]> (regs t)))
     {| kind := Svc; swi := kHostReturnSwi; fault_addr := 0; fault_write := false; exception := 0; pc := 0 |}).
  assert (regs t' = <[0%nat := 42]> (entry_regs (regs sample_thread) 1 2 3 4 0x8001 0x10ff8)) as Hr.
  { change (regs t') with (resize 16 0 (<[0%nat := 42]> (regs t))). by rewrite Ht. }
  eexists _, t'. split.
  - unfold run. change (run_loop sample_run 1 (with_pending t Stop_init) m) with (Some (t', m)). cbn [kind pending_ t' with_pending].
    cbn iota beta. fold t'. rewrite Hr. reflexivity.
  - unfold is_return. rewrite Hr. repeat split.
Qed.

Lemma call_exact_witness :
  exists f0 t' m', (forall f, (f0 <= f)%nat ->
    call sample_run (fun _ t m => (false, t, m)) f sample_thread sample_memory 0x8001 {| NativeCall.regs := [1; 2; 3; 4]; stack := [5] |} =
    Ret (Some (Some {| res_r0 := 42; res_r1 := 2 |}, t', m'))) /\ regs t' = regs sample_thread.
Proof.
  destruct (call_exact sample_run (fun _ t m => (false, t, m)) sample_thread sample_memory 0x8001 1 2 3 4 [5] 0x11000) as [_ Hc];
    [reflexivity|reflexivity|exact sample_memory_wf|reflexivity|lia|].
  destruct Hc as (m1 & t1 & _ & _ & Hregs & _ & Hrun); [cbn; lia|reflexivity|].
  destruct (sample_run_returns t1 m1 Hregs) as (stop & t2 & E & Hret & H0 & H1).
  destruct (Hrun _ _ _ (gr_return _ _ _ 1%nat t1 m1 stop t2 m1 42 2 E Hret H0 H1)) as (f0 & t' & Hf & Hr & _).
  exists f0, t', m1. split; [exact Hf|exact Hr].
Defined.
