(* ===== verification/SignalQueue.v ===== *)
(** * The signal queue under interference

    [GuestThread::post_signal] and [GuestThread::take_signal] of [core/src/guest_thread.cpp]
    as the threads and host signal handlers that call them on one guest thread interleave.
    The word of pending signals is atomic; the array of siginfos is not, and nothing locks
    it.  So a call is a series of steps: [post_signal] copies the words of the siginfo into
    the entry of its number, one at a time and in any order, raises the bit, halts the JIT
    and wakes the thread; [take_signal] loads the word, tries the exchange, which may also
    fail for no reason ([compare_exchange_weak]), and copies the entry out word by word.  An
    [actor] is a caller with what it has still to do; any actor may take the next step.

    [GuestThread.post_signal] and [GuestThread.take_signal] are the same calls when nobody
    interferes ([post_alone], [take_alone]). *)

From stdpp Require Import numbers list gmap.
From S2P Require Import Prelude Bytes GuestMemory InitialStack NativeCall GuestThread.
Local Open Scope Z_scope.

(** ** A siginfo as its 32 words *)

Definition words_of (i : siginfo32) : list Z := si_signo i :: si_errno i :: si_code i :: fields i.
Definition word_at (i : siginfo32) (k : nat) : Z := nth k (words_of i) 0.
Definition set_word (k : nat) (w : Z) (i : siginfo32) : siginfo32 :=
  match k with
  | 0%nat => {| si_signo := w; si_errno := si_errno i; si_code := si_code i; fields := fields i |}
  | 1%nat => {| si_signo := si_signo i; si_errno := w; si_code := si_code i; fields := fields i |}
  | 2%nat => {| si_signo := si_signo i; si_errno := si_errno i; si_code := w; fields := fields i |}
  | S (S (S k)) => {| si_signo := si_signo i; si_errno := si_errno i; si_code := si_code i; fields := <[k := w]> (fields i) |}
  end.
Definition all_words : list nat := seq 0 32.
Definition without (k : nat) (todo : list nat) : list nat := filter (fun j => j <> k) todo.

Section SignalQueue.
Context {J : Type} `{Jit J}.

(** ** Callers *)

Inductive operation := Post (info : siginfo32) | Take (blocked : Z).

Inductive actor :=
| Idle
| Storing (info : siginfo32) (todo : list nat)
| Raising (info : siginfo32)
| Halting
| Waking
| Looking (blocked : Z)
| Trying (blocked pending : Z)
| Reading (sig : Z) (out : siginfo32) (todo : list nat).

(** What happened, for the statements. *)
Inductive event :=
| Posted (info : siginfo32)
| Stored (info : siginfo32)
| Raised (sig : Z)
| Woken
| Looked (p : Z)
| Claimed (blocked p sig : Z)
| Taken (sig : Z) (info : siginfo32)
| Nothing (blocked p : Z).

Definition begin (op : operation) : actor * list event :=
  match op with
  | Post info => if (si_signo info <? 1) || (64 <? si_signo info) then (Idle, []) else (Storing info all_words, [Posted info])
  | Take blocked => (Looking blocked, [])
  end.

(** The next step of a caller; [k] is the word it copies next, or whether the exchange
    fails for no reason (0). *)
Definition advance (k : nat) (a : actor) (t : GuestThread J) : exec (actor * GuestThread J * list event) :=
  match a with
  | Idle => Ret (Idle, t, [])
  | Storing info todo =>
      if decide (k ∈ todo) then
        e ← vec_at (pending_info_ t) (Z.to_nat (si_signo info));
        infos ← vec_set (pending_info_ t) (Z.to_nat (si_signo info)) (set_word k (word_at info k) e);
        let t := with_signals t (pending_signals_ t) infos in
        match without k todo with [] => Ret (Raising info, t, [Stored info]) | todo => Ret (Storing info todo, t, []) end
      else Ret (a, t, [])
  | Raising info =>
      Ret (Halting, with_signals t (Z.lor (pending_signals_ t) (u64 (Z.shiftl 1 (si_signo info - 1)))) (pending_info_ t), [Raised (si_signo info)])
  | Halting => Ret (Waking, with_jit t (HaltExecution kInterruptHalt (jit_ t)), [])
  | Waking => Ret (Idle, wake t, [Woken])
  | Looking blocked => Ret (Trying blocked (pending_signals_ t), t, [Looked (pending_signals_ t)])
  | Trying blocked pending =>
      let deliverable := Z.land pending (u64 (Z.lnot blocked)) in
      if deliverable =? 0 then Ret (Idle, t, [Nothing blocked pending])
      else
        let bit := countr_zero deliverable in
        if (k =? 0)%nat || negb (pending_signals_ t =? pending) then Ret (Trying blocked (pending_signals_ t), t, [Looked (pending_signals_ t)])
        else Ret (Reading (bit + 1) siginfo32_init all_words, with_signals t (Z.land pending (u64 (Z.lnot (Z.shiftl 1 bit)))) (pending_info_ t), [Claimed blocked pending (bit + 1)])
  | Reading sig out todo =>
      if decide (k ∈ todo) then
        e ← vec_at (pending_info_ t) (Z.to_nat sig);
        let out := set_word k (word_at e k) out in
        match without k todo with [] => Ret (Idle, t, [Taken sig out]) | todo => Ret (Reading sig out todo, t, []) end
      else Ret (a, t, [])
  end.

Record system := { shared : GuestThread J; actors : list actor; log : list event }.

(** Actor [i] begins a call, when it is in none, or goes on with its call. *)
Inductive move := Begin (i : nat) (op : operation) | Step (i : nat) (k : nat).
Definition moved (m : move) (s : system) : exec system :=
  match m with
  | Begin i op =>
      match actors s !! i with
      | Some Idle => let '(a, es) := begin op in Ret {| shared := shared s; actors := <[i := a]> (actors s); log := log s ++ es |}
      | _ => Ret s
      end
  | Step i k =>
      match actors s !! i with
      | Some a => '(a, t, es) ← advance k a (shared s); Ret {| shared := t; actors := <[i := a]> (actors s); log := log s ++ es |}
      | None => Ret s
      end
  end.
Fixpoint moves (ms : list move) (s : system) : exec system := match ms with [] => Ret s | m :: ms => s ← moved m s; moves ms s end.

(** ** What holds of a history *)

(** Whether the signal is up: it was raised and nobody claimed it since. *)
Definition is_up (sig : Z) (l : list event) : bool :=
  fold_left (fun b e => match e with Raised s => if s =? sig then true else b | Claimed _ _ s => if s =? sig then false else b | _ => b end) l false.

(** The last siginfo that was stored whole for the signal. *)
Definition last_stored (sig : Z) (l : list event) : option siginfo32 :=
  fold_left (fun b e => match e with Stored i => if si_signo i =? sig then Some i else b | _ => b end) l None.

(** The word [k] of [i] is that of a siginfo somebody posted for the signal. *)
Definition word_posted (l : list event) (sig : Z) (i : siginfo32) (k : nat) : Prop := exists p, Posted p ∈ l /\ si_signo p = sig /\ word_at i k = word_at p k.

Definition event_ok (l : list event) (e : event) : Prop :=
  match e with
  | Looked p => forall s, 1 <= s <= 64 -> Z.testbit p (s - 1) = is_up s l
  | Claimed blocked p sig => 1 <= sig <= 64 /\ is_up sig l = true /\ Z.testbit blocked (sig - 1) = false /\ forall s, 1 <= s < sig -> is_up s l = true -> Z.testbit blocked (s - 1) = true
  | Nothing blocked p => Looked p ∈ l /\ forall s, 1 <= s <= 64 -> Z.testbit p (s - 1) = true -> Z.testbit blocked (s - 1) = true
  | Taken sig info => si_signo info = sig /\ forall k, (k < 32)%nat -> word_posted l sig info k
  | _ => True
  end.

Inductive history : list event -> Prop :=
| history_start : history []
| history_then l e : history l -> event_ok l e -> history (l ++ [e]).

(** Nobody touches the entry of the signal while somebody else copies to or from it. *)
Definition busy (sig : Z) (a : actor) : bool := match a with Storing i _ => si_signo i =? sig | Reading s _ _ => s =? sig | _ => false end.
Definition alone (sig : Z) (s : system) : bool := (length (filter (fun a => busy sig a = true) (actors s)) <=? 1)%nat.
Fixpoint calm (sig : Z) (ms : list move) (s : system) : bool :=
  alone sig s && match ms with [] => true | m :: ms => match moved m s with Ret s => calm sig ms s | _ => true end end.

(** Everything taken for the signal is the last siginfo that was stored for it. *)
Definition exact (sig : Z) (l : list event) : Prop := forall l1 info l2, l = l1 ++ Taken sig info :: l2 -> last_stored sig l1 = Some info.
End SignalQueue.

(** ** Words *)

Definition whole (i : siginfo32) : Prop := length (fields i) = 29%nat.

Lemma set_word_words i k w : whole i -> (k < 32)%nat -> words_of (set_word k w i) = <[k := w]> (words_of i).
Proof. intros Hi Hk. destruct k as [|[|[|k]]]; done. Qed.
Lemma set_word_whole i k w : whole i -> whole (set_word k w i).
Proof. intros Hi. destruct k as [|[|[|k]]]; try done. unfold whole. cbn. by rewrite length_insert. Qed.
Lemma word_at_same i k w : whole i -> (k < 32)%nat -> word_at (set_word k w i) k = w.
Proof. intros Hi Hk. unfold word_at. rewrite set_word_words by done. apply nth_lookup_Some, list_lookup_insert_eq. unfold whole in Hi. cbn. lia. Qed.
Lemma word_at_other i j k w : whole i -> (k < 32)%nat -> j <> k -> word_at (set_word k w i) j = word_at i j.
Proof. intros Hi Hk Hj. unfold word_at. rewrite set_word_words by done. rewrite !nth_lookup. by rewrite list_lookup_insert_ne. Qed.
Lemma words_inj i j : whole i -> whole j -> (forall k, (k < 32)%nat -> word_at i k = word_at j k) -> i = j.
Proof.
  intros Hi Hj Hk. unfold whole in *. assert (words_of i = words_of j) as E.
  { apply (nth_ext _ _ 0 0); cbn [words_of length]; rewrite ?Hi, ?Hj; [done|]. exact Hk. }
  unfold words_of in E. destruct i, j. cbn in E. by injection E as -> -> -> ->.
Qed.

Lemma without_in k j todo : j ∈ without k todo <-> j ∈ todo /\ j <> k.
Proof. unfold without. rewrite list_elem_of_filter. tauto. Qed.
Lemma without_nil k todo j : without k todo = [] -> j ∈ todo -> j = k.
Proof. intros E Hj. destruct (decide (j = k)); [done|]. assert (j ∈ without k todo) as Hin by (by apply without_in). rewrite E in Hin. by apply elem_of_nil in Hin. Qed.

Lemma is_up_snoc sig l e : is_up sig (l ++ [e]) = match e with Raised s => if s =? sig then true else is_up sig l | Claimed _ _ s => if s =? sig then false else is_up sig l | _ => is_up sig l end.
Proof. unfold is_up. by rewrite fold_left_app. Qed.
Lemma last_stored_snoc sig l e : last_stored sig (l ++ [e]) = match e with Stored i => if si_signo i =? sig then Some i else last_stored sig l | _ => last_stored sig l end.
Proof. unfold last_stored. by rewrite fold_left_app. Qed.

Section Proofs.
Context {J : Type} `{Jit J}.
#[local] Notation system := (system (J := J)).

(** ** The invariant *)

Definition entry (t : GuestThread J) (sig : Z) : siginfo32 := nth (Z.to_nat sig) (pending_info_ t) siginfo32_init.
Definition ever_stored (sig : Z) (l : list event) : Prop := last_stored sig l <> None.
Definition good_post (l : list event) (i : siginfo32) : Prop := Posted i ∈ l /\ 1 <= si_signo i <= 64 /\ whole i.

Definition actor_ok (t : GuestThread J) (l : list event) (a : actor) : Prop :=
  match a with
  | Storing i todo => good_post l i /\ todo <> [] /\ Forall (fun k => (k < 32)%nat) todo /\ forall k, (k < 32)%nat -> k ∉ todo -> word_posted l (si_signo i) (entry t (si_signo i)) k
  | Raising i => 1 <= si_signo i <= 64 /\ ever_stored (si_signo i) l
  | Trying blocked p => 0 <= p < 2 ^ 64 /\ Looked p ∈ l
  | Reading sig out todo => 1 <= sig <= 64 /\ whole out /\ todo <> [] /\ Forall (fun k => (k < 32)%nat) todo /\ ever_stored sig l /\ forall k, (k < 32)%nat -> k ∉ todo -> word_posted l sig out k
  | _ => True
  end.

Definition wakes (l : list event) : Z := Z.of_nat (length (List.filter (fun e => match e with Woken => true | _ => false end) l)).

Record queue_inv (w : Z) (s : system) : Prop := {
  qi_queue : queue_ok (shared s);
  qi_whole : Forall whole (pending_info_ (shared s));
  qi_bits : forall sig, 1 <= sig <= 64 -> Z.testbit (pending_signals_ (shared s)) (sig - 1) = is_up sig (log s);
  qi_up : forall sig, 1 <= sig <= 64 -> is_up sig (log s) = true -> ever_stored sig (log s);
  qi_entry : forall sig k, 1 <= sig <= 64 -> ever_stored sig (log s) -> (k < 32)%nat -> word_posted (log s) sig (entry (shared s) sig) k;
  qi_actors : Forall (actor_ok (shared s) (log s)) (actors s);
  qi_history : history (log s);
  qi_park : park_token (shared s) = u32 (w + wakes (log s));
}.

Lemma posted_mono l es sig i k : word_posted l sig i k -> word_posted (l ++ es) sig i k.
Proof. intros (p & Hp & E). exists p. split; [apply elem_of_app; by left|done]. Qed.
Lemma stored_mono sig l e : ever_stored sig l -> ever_stored sig (l ++ [e]).
Proof. unfold ever_stored. rewrite last_stored_snoc. intros Hl. destruct e; try done. by destruct (_ =? _). Qed.

(** Another step leaves a caller its promise: the entries only got words that were posted. *)
Definition grown (t : GuestThread J) (l : list event) (t' : GuestThread J) (l' : list event) : Prop :=
  (forall e, e ∈ l -> e ∈ l') /\ (forall sig, ever_stored sig l -> ever_stored sig l') /\
  forall sig k, word_posted l sig (entry t sig) k -> word_posted l' sig (entry t' sig) k.

Lemma actor_grown t l t' l' a : grown t l t' l' -> actor_ok t l a -> actor_ok t' l' a.
Proof.
  intros (Hl & Hs & Hw). assert (forall sig i k, word_posted l sig i k -> word_posted l' sig i k) as Hp by (intros sig i k (p & ? & ?); exists p; eauto). destruct a; try done; cbn.
  - intros ((H1 & H2) & H3 & H4 & H5). split; [by split; auto|]. split; [done|]. split; [done|]. intros k Hk Hn. by apply Hw, H5.
  - intros [H1 H2]. split; auto.
  - intros [H1 H2]. split; auto.
  - intros (H1 & H2 & H3 & H4 & H5 & H6). do 4 (split; [done|]). split; [by apply Hs|]. intros k Hk Hn. by apply Hp, H6.
Qed.

Lemma grown_log t l es : length es = 1%nat \/ es = [] -> grown t l t (l ++ es).
Proof.
  intros Hes. split_and!.
  - intros e He. apply elem_of_app. by left.
  - intros sig. destruct Hes as [Hes| ->]; [|by rewrite app_nil_r]. destruct es as [|e [|]]; try done. apply stored_mono.
  - intros sig k. apply posted_mono.
Qed.

Lemma wakes_snoc l e : wakes (l ++ [e]) = match e with Woken => wakes l + 1 | _ => wakes l end.
Proof. unfold wakes. rewrite List.filter_app, length_app. destruct e; cbn; lia. Qed.

Lemma entry_at t sig : queue_ok t -> 1 <= sig <= 64 -> pending_info_ t !! Z.to_nat sig = Some (entry t sig).
Proof. intros [_ Hl] Hs. unfold entry. rewrite nth_lookup. destruct (lookup_lt_is_Some_2 (pending_info_ t) (Z.to_nat sig)) as [x ->]; [lia|done]. Qed.
Lemma entry_whole w s sig : queue_inv w s -> 1 <= sig <= 64 -> whole (entry (shared s) sig).
Proof. intros Hi Hs. eapply (Forall_lookup_1 _ _ _ _ (qi_whole _ _ Hi)), entry_at; [apply Hi|done]. Qed.

(** Writing one entry. *)
Lemma entry_insert (t : GuestThread J) p sig x s : queue_ok t -> 1 <= sig <= 64 -> entry (with_signals t p (<[Z.to_nat sig := x]> (pending_info_ t))) s = if decide (s = sig) then x else entry t s.
Proof.
  intros [_ Hl] Hs. unfold entry. cbn. rewrite !nth_lookup. case_decide as E; [subst; by rewrite list_lookup_insert_eq by lia|]. by rewrite list_lookup_insert_ne by lia.
Qed.

(** ** Steps *)

Definition put (s : system) (i : nat) (a : actor) (t : GuestThread J) (es : list event) : system := {| shared := t; actors := <[i := a]> (actors s); log := log s ++ es |}.

Lemma actors_put w s i a t es : queue_inv w s -> grown (shared s) (log s) t (log s ++ es) -> actor_ok t (log s ++ es) a -> Forall (actor_ok t (log s ++ es)) (<[i := a]> (actors s)).
Proof. intros Hi Hg Ha. apply Forall_insert; [|done]. eapply Forall_impl; [apply Hi|]. intros b. by apply actor_grown. Qed.

Definition same_queue (t t' : GuestThread J) : Prop := pending_signals_ t' = pending_signals_ t /\ pending_info_ t' = pending_info_ t /\ park_word_ t' = park_word_ t.
Definition neutral (e : event) : bool := match e with Raised _ | Claimed _ _ _ | Stored _ | Woken => false | _ => true end.

Lemma neutral_log l e : neutral e = true -> (forall sig, is_up sig (l ++ [e]) = is_up sig l /\ last_stored sig (l ++ [e]) = last_stored sig l) /\ wakes (l ++ [e]) = wakes l.
Proof. intros He. split; [intros sig; rewrite is_up_snoc, last_stored_snoc|rewrite wakes_snoc]; by destruct e. Qed.

(** A step that leaves the queue alone. *)
Lemma inv_note w s i a t es : queue_inv w s -> same_queue (shared s) t -> es = [] \/ (exists e, es = [e] /\ neutral e = true /\ event_ok (log s) e) -> actor_ok t (log s ++ es) a -> queue_inv w (put s i a t es).
Proof.
  intros Hi (E1 & E2 & E3) Hes Ha. assert (forall sig, entry t sig = entry (shared s) sig) as Ee by (intros sig; unfold entry; by rewrite E2).
  assert ((forall sig, is_up sig (log s ++ es) = is_up sig (log s) /\ last_stored sig (log s ++ es) = last_stored sig (log s)) /\ wakes (log s ++ es) = wakes (log s)) as [Hl Hw].
  { destruct Hes as [->|(e & -> & He & _)]; [by rewrite app_nil_r|]. by apply neutral_log. }
  split; cbn [put shared actors log].
  - destruct (qi_queue _ _ Hi) as [H1 H2]. split; by rewrite ?E1, ?E2.
  - rewrite E2. apply Hi.
  - intros sig Hs. rewrite E1, (proj1 (Hl sig)). by apply Hi.
  - intros sig Hs. unfold ever_stored. rewrite (proj1 (Hl sig)), (proj2 (Hl sig)). by apply Hi.
  - intros sig k Hs. unfold ever_stored. rewrite (proj2 (Hl sig)), Ee. intros Hst Hk. by apply posted_mono, (qi_entry _ _ Hi).
  - apply (actors_put w); [done| |done]. split_and!; [intros e He; apply elem_of_app; by left|intros sig; unfold ever_stored; by rewrite (proj2 (Hl sig))|]. intros sig k. rewrite Ee. apply posted_mono.
  - destruct Hes as [->|(e & -> & _ & He)]; [rewrite app_nil_r; apply Hi|]. by constructor; [apply Hi|].
  - unfold park_token. rewrite E3, Hw. apply Hi.
Qed.

(** A step that changes what is up, and nothing else. *)
Lemma inv_bits w s i a e p :
  queue_inv w s -> 0 <= p < 2 ^ 64 -> event_ok (log s) e -> wakes (log s ++ [e]) = wakes (log s) -> (forall sig, last_stored sig (log s ++ [e]) = last_stored sig (log s)) ->
  (forall sig, 1 <= sig <= 64 -> Z.testbit p (sig - 1) = is_up sig (log s ++ [e])) -> (forall sig, 1 <= sig <= 64 -> is_up sig (log s ++ [e]) = true -> ever_stored sig (log s)) ->
  actor_ok (shared s) (log s ++ [e]) a -> queue_inv w (put s i a (with_signals (shared s) p (pending_info_ (shared s))) [e]).
Proof.
  intros Hi Hp He Hw Hst Hbits Hup Ha. split; cbn [put shared actors log].
  - by split; [|apply Hi].
  - apply Hi.
  - done.
  - intros sig Hs. unfold ever_stored. rewrite Hst. by apply Hup.
  - intros sig k Hs. unfold ever_stored. rewrite Hst. intros Hl Hk. by apply posted_mono, (qi_entry _ _ Hi).
  - apply (actors_put w); [done|apply (grown_log (shared s)); by left|done].
  - by constructor; [apply Hi|].
  - rewrite Hw. apply Hi.
Qed.

Lemma inv_raise w s i info : queue_inv w s -> actor_ok (shared s) (log s) (Raising info) ->
  queue_inv w (put s i Halting (with_signals (shared s) (Z.lor (pending_signals_ (shared s)) (u64 (Z.shiftl 1 (si_signo info - 1)))) (pending_info_ (shared s))) [Raised (si_signo info)]).
Proof.
  intros Hi [Hr Hst]. destruct (qi_queue _ _ Hi) as [Hp _]. apply inv_bits; [done|apply (lor_range _ _ 64); [lia|done|apply u64_range]|done|apply wakes_snoc|intros; apply last_stored_snoc| | |done].
  - intros sig Hs. rewrite is_up_snoc, Z.lor_spec, testbit_u64, testbit_pow2 by lia. rewrite (qi_bits _ _ Hi) by done. destruct (Z.eqb_spec (si_signo info) sig); [rewrite bool_decide_true by lia; apply orb_true_r|rewrite bool_decide_false by lia; apply orb_false_r].
  - intros sig Hs. rewrite is_up_snoc. destruct (Z.eqb_spec (si_signo info) sig) as [<-|]; [done|]. by apply Hi.
Qed.

(** The exchange: the word is what the caller saw last. *)
Lemma inv_claim w s i blocked : let p := pending_signals_ (shared s) in let bit := countr_zero (Z.land p (u64 (Z.lnot blocked))) in
  queue_inv w s -> Z.land p (u64 (Z.lnot blocked)) <> 0 ->
  queue_inv w (put s i (Reading (bit + 1) siginfo32_init all_words) (with_signals (shared s) (Z.land p (u64 (Z.lnot (Z.shiftl 1 bit)))) (pending_info_ (shared s))) [Claimed blocked p (bit + 1)]).
Proof.
  intros p bit Hi Hn. destruct (qi_queue _ _ Hi) as [Hp _]. fold p in Hp. destruct (countr_zero_spec _ (deliverable_range p blocked Hp) Hn) as (Hr & Hb & Hlow). fold bit in Hr, Hb, Hlow. clearbody bit. rewrite deliverable_bit in Hb by done. apply andb_true_iff in Hb as [Hb1 Hb2].
  assert (forall sig, 1 <= sig <= 64 -> Z.testbit p (sig - 1) = is_up sig (log s)) as Hbits by apply Hi. pose proof (Hbits (bit + 1) ltac:(lia)) as Hbit. replace (bit + 1 - 1) with bit in * by lia.
  assert (ever_stored (bit + 1) (log s)) as Hst by (apply (qi_up _ _ Hi); [lia|congruence]).
  apply inv_bits; [done|apply deliverable_range, Hp| |apply wakes_snoc|intros; apply last_stored_snoc| | |].
  - cbn [event_ok]. replace (bit + 1 - 1) with bit by lia. split_and!; [lia|lia|congruence|by apply negb_true_iff|]. intros sg Hs Hup. rewrite <- Hbits in Hup by lia. specialize (Hlow (sg - 1)). rewrite deliverable_bit, Hup in Hlow by lia. apply negb_false_iff, Hlow. lia.
  - intros sig Hs. rewrite is_up_snoc, deliverable_bit, testbit_pow2, Hbits by lia. destruct (Z.eqb_spec (bit + 1) sig); [rewrite bool_decide_true by lia; apply andb_false_r|rewrite bool_decide_false by lia; apply andb_true_r].
  - intros sig Hs. rewrite is_up_snoc. destruct (Z.eqb_spec (bit + 1) sig); [done|]. by apply Hi.
  - cbn [actor_ok]. split_and!; [lia|lia|done|done|by repeat constructor; lia|by apply stored_mono|]. intros k Hk Hn'. exfalso. apply Hn'. apply elem_of_seq. lia.
Qed.

Lemma inv_wake w s i : queue_inv w s -> queue_inv w (put s i Idle (wake (shared s)) [Woken]).
Proof.
  intros Hi. split; cbn [put shared actors log].
  - apply Hi.
  - apply Hi.
  - intros sig Hs. rewrite is_up_snoc. by apply Hi.
  - intros sig Hs. unfold ever_stored. rewrite is_up_snoc, last_stored_snoc. by apply Hi.
  - intros sig k Hs. unfold ever_stored. rewrite last_stored_snoc. intros Hl Hk. by apply posted_mono, (qi_entry _ _ Hi).
  - apply (actors_put w); [done|apply (grown_log (shared s)); by left|done].
  - by constructor; [apply Hi|].
  - rewrite wakes_snoc. pose proof (qi_park _ _ Hi) as Hpk. unfold park_token in *. cbn. rewrite Hpk. unfold u32. rewrite Z.add_mod_idemp_l by lia. f_equal. lia.
Qed.

(** One word of an entry is written. *)
Lemma inv_store w s i info todo k a es :
  let e := set_word k (word_at info k) (entry (shared s) (si_signo info)) in
  queue_inv w s -> actor_ok (shared s) (log s) (Storing info todo) -> k ∈ todo ->
  without k todo = [] /\ a = Raising info /\ es = [Stored info] \/ without k todo <> [] /\ a = Storing info (without k todo) /\ es = [] ->
  queue_inv w (put s i a (with_signals (shared s) (pending_signals_ (shared s)) (<[Z.to_nat (si_signo info) := e]> (pending_info_ (shared s)))) es).
Proof.
  intros e Hi ((Hpost & Hr & Hwi) & Hne & Htodo & Hdone) Hk Hcase. assert ((k < 32)%nat) as Hk32 by (rewrite Forall_forall in Htodo; auto). pose proof (entry_whole w s _ Hi Hr) as Hwe. pose proof (qi_queue _ _ Hi) as Hq.
  set (t := with_signals _ _ _). assert (forall sg, entry t sg = if decide (sg = si_signo info) then e else entry (shared s) sg) as Ee by (intros sg; by apply entry_insert).
  assert (length es = 1%nat \/ es = []) as Hes by (destruct Hcase as [(_ & _ & ->)|(_ & _ & ->)]; auto).
  destruct (grown_log (shared s) (log s) es Hes) as (Hg1 & Hg2 & Hg3).
  assert (grown (shared s) (log s) t (log s ++ es)) as Hgrown.
  { split_and!; [done..|]. intros sg j Hj. rewrite Ee. case_decide as E; [|by apply Hg3]. subst sg. destruct (decide (j = k)) as [->|Hjk]; [exists info; split; [by apply Hg1|]; split; [done|]; by apply word_at_same|].
    destruct (Hg3 _ _ Hj) as (p & Hp & Ep & Ew). exists p. split_and!; [done..|]. unfold e. by rewrite word_at_other. }
  assert (forall j, (j < 32)%nat -> j ∉ without k todo -> word_posted (log s ++ es) (si_signo info) (entry t (si_signo info)) j) as Hdone'.
  { intros j Hj Hn. destruct (decide (j = k)) as [->|Hjk]; [exists info; split; [by apply Hg1|]; split; [done|]; rewrite Ee, decide_True by done; by apply word_at_same|]. apply Hgrown, Hdone; [done|]. intros Hin. apply Hn, without_in. done. }
  assert (forall sg, is_up sg (log s ++ es) = is_up sg (log s)) as Hup by (intros sg; destruct Hcase as [(_ & _ & ->)|(_ & _ & ->)]; [apply is_up_snoc|by rewrite app_nil_r]).
  split; cbn [put shared actors log].
  - split; [apply Hq|]. cbn. rewrite length_insert. apply Hq.
  - apply Forall_insert; [apply Hi|by apply set_word_whole].
  - intros sg Hs. rewrite Hup. by apply Hi.
  - intros sg Hs. rewrite Hup. intros Hu. by apply Hg2, Hi.
  - intros sg j Hs Hst Hj. destruct Hcase as [(Ew & -> & ->)|(_ & -> & ->)]; [|rewrite app_nil_r in *; apply Hgrown, (qi_entry _ _ Hi); done].
    destruct (decide (sg = si_signo info)) as [->|Hs']; [apply Hdone'; [done|]; rewrite Ew; apply not_elem_of_nil|]. apply Hgrown, (qi_entry _ _ Hi); [done| |done]. unfold ever_stored in *. rewrite last_stored_snoc in Hst. by rewrite (proj2 (Z.eqb_neq _ _)) in Hst by done.
  - apply (actors_put w); [done|done|]. destruct Hcase as [(Ew & -> & ->)|(Hw & -> & ->)]; cbn.
    + split; [done|]. unfold ever_stored. rewrite last_stored_snoc, Z.eqb_refl. done.
    + split; [split; [by apply Hg1|done]|]. split; [done|]. split; [|done]. apply Forall_forall. intros j [Hj _]%without_in. rewrite Forall_forall in Htodo. auto.
  - destruct Hcase as [(_ & _ & ->)|(_ & _ & ->)]; [constructor; [apply Hi|done]|rewrite app_nil_r; apply Hi].
  - replace (wakes (log s ++ es)) with (wakes (log s)); [apply Hi|]. destruct Hcase as [(_ & _ & ->)|(_ & _ & ->)]; [by rewrite wakes_snoc|by rewrite app_nil_r].
Qed.

Lemma queue_advance w s i a k : queue_inv w s -> actors s !! i = Some a -> exists a' t es, advance k a (shared s) = Ret (a', t, es) /\ queue_inv w (put s i a' t es).
Proof.
  intros Hi Ha. pose proof (Forall_lookup_1 _ _ _ _ (qi_actors _ _ Hi) Ha) as Hok. assert (same_queue (shared s) (shared s)) as Hsame by done. pose proof (qi_queue _ _ Hi) as Hq.
  assert (queue_inv w (put s i a (shared s) [])) as Hstay by (apply inv_note; [done|done|by left|by rewrite app_nil_r]).
  destruct a as [|info todo|info| | |blocked|blocked p|sig out todo]; cbn [advance].
  - by do 3 eexists.
  - case_decide as Hk; [|by do 3 eexists]. destruct Hok as ((Hp & Hr & Hw) & Hrest). rewrite (proj2 (vec_at_Ret _ _ _) (entry_at _ _ Hq Hr)), exec_ret_bind. rewrite vec_set_lt by (destruct Hq; lia). rewrite exec_ret_bind. cbv zeta.
    destruct (without k todo) as [|x rest] eqn:Ew; do 3 eexists; (split; [done|]); eapply (inv_store _ _ _ _ todo k); try done; [by left|right; by rewrite Ew].
  - do 3 eexists. split; [done|]. by apply inv_raise.
  - do 3 eexists. split; [done|]. by apply inv_note; [|done|left|].
  - do 3 eexists. split; [done|]. by apply inv_wake.
  - do 3 eexists. split; [done|]. apply inv_note; [done|done|right; eexists; split; [done|]; split; [done|]; exact (qi_bits _ _ Hi)|]. split; [apply Hq|]. apply elem_of_app. right. by left.
  - cbv zeta. destruct (Z.eqb_spec (Z.land p (u64 (Z.lnot blocked))) 0) as [Ez|Hn]; [|destruct (_ || _) eqn:Ec].
    + do 3 eexists. split; [done|]. apply inv_note; [done|done| |done]. right. eexists. split_and!; [done|done|]. split; [apply Hok|]. intros sg Hs Hb. by apply (proj1 (deliverable_zero p blocked (proj1 Hok)) Ez); [lia|].
    + do 3 eexists. split; [done|]. apply inv_note; [done|done|right; eexists; split; [done|]; split; [done|]; exact (qi_bits _ _ Hi)|]. split; [apply Hq|]. apply elem_of_app. right. by left.
    + apply orb_false_iff in Ec as [_ Ec]. apply negb_false_iff, Z.eqb_eq in Ec. subst p. do 3 eexists. split; [done|]. by apply inv_claim.
  - case_decide as Hk; [|by do 3 eexists]. destruct Hok as (Hr & Hw & Hne & Htodo & Hst & Hdone). assert ((k < 32)%nat) as Hk32 by (rewrite Forall_forall in Htodo; auto). rewrite (proj2 (vec_at_Ret _ _ _) (entry_at _ _ Hq Hr)), exec_ret_bind. cbv zeta.
    set (out' := set_word _ _ _). assert (forall j, (j < 32)%nat -> j ∉ without k todo -> word_posted (log s) sig out' j) as Hdone'.
    { intros j Hj Hn. destruct (decide (j = k)) as [->|Hjk]; [|destruct (Hdone j Hj) as (p & Hp & Ep & Ew); [intros Hin; by apply Hn, without_in|]; exists p; split_and!; [done..|]; unfold out'; by rewrite word_at_other].
      destruct (qi_entry _ _ Hi sig k Hr Hst Hk32) as (p & Hp & Ep & Ew). exists p. split_and!; [done..|]. unfold out'. by rewrite word_at_same. }
    destruct (without k todo) as [|x rest] eqn:Ew; do 3 eexists; (split; [done|]); (apply inv_note; [done|done| |]).
    + right. eexists. split_and!; [done|done|]. assert (forall j, (j < 32)%nat -> word_posted (log s) sig out' j) as Hall by (intros j Hj; apply Hdone'; [done|apply not_elem_of_nil]). split; [|done]. by destruct (Hall 0%nat ltac:(lia)) as (p & _ & <- & E).
    + done.
    + by left.
    + rewrite app_nil_r. cbn [actor_ok]. split_and!; [lia|lia|by apply set_word_whole|done| |done|done]. apply Forall_forall. intros j. rewrite <- Ew. intros [Hj _]%without_in. rewrite Forall_forall in Htodo. auto.
Qed.

(** The posted siginfos have the words of the array of the type. *)
Definition move_ok (m : move) : Prop := match m with Begin _ (Post i) => whole i | _ => True end.

Lemma inv_begin w s i op : queue_inv w s -> move_ok (Begin i op) -> queue_inv w (put s i (begin op).1 (shared s) (begin op).2).
Proof.
  intros Hi Hm. destruct op as [info|blocked]; cbn [begin]; [|by apply inv_note; [|done|left|]]. destruct ((si_signo info <? 1) || (64 <? si_signo info)) eqn:Er; [by apply inv_note; [|done|left|]|]. cbn [fst snd].
  apply inv_note; [done|done|right; by eexists|]. cbn [actor_ok]. split; [split; [apply elem_of_app; right; by left|split; [lia|done]]|]. split; [done|]. split; [by repeat constructor; lia|]. intros k Hk Hn. exfalso. apply Hn, elem_of_seq. lia.
Qed.

Lemma queue_moved w s m : queue_inv w s -> move_ok m -> exists s', moved m s = Ret s' /\ queue_inv w s'.
Proof.
  intros Hi Hm. destruct m as [i op|i k]; cbn [moved].
  - destruct (actors s !! i) as [[]|]; try (by exists s). pose proof (inv_begin w s i op Hi Hm) as Hb. destruct (begin op) as [a es]. by eexists.
  - destruct (actors s !! i) as [a|] eqn:Ea; [|by exists s]. destruct (queue_advance w s i a k Hi Ea) as (a' & t & es & E & Hb). rewrite E, exec_ret_bind. by eexists.
Qed.

(** ** Undisturbed copies *)

Definition storing (sig : Z) (a : actor) : bool := match a with Storing i _ => si_signo i =? sig | _ => false end.

Record calm_inv (sig : Z) (s : system) : Prop := {
  ci_entry : forall x, last_stored sig (log s) = Some x -> (forall j b, actors s !! j = Some b -> storing sig b = false) -> entry (shared s) sig = x;
  ci_storing : forall j i todo k, actors s !! j = Some (Storing i todo) -> si_signo i = sig -> (k < 32)%nat -> k ∉ todo -> word_at (entry (shared s) sig) k = word_at i k;
  ci_reading : forall j out todo k, actors s !! j = Some (Reading sig out todo) -> (k < 32)%nat -> k ∉ todo -> word_at out k = word_at (entry (shared s) sig) k;
  ci_exact : exact sig (log s);
}.

Lemma alone_one sig (s : system) j j' b b' : alone sig s = true -> actors s !! j = Some b -> actors s !! j' = Some b' -> busy sig b = true -> busy sig b' = true -> j = j'.
Proof.
  unfold alone. intros Hal%Nat.leb_le. revert j j' Hal. generalize (actors s). intros l. induction l as [|x l IH]; intros j j' Hal Hj Hj' Hb Hb'; [done|]. rewrite filter_cons in Hal.
  assert (forall n y, l !! n = Some y -> busy sig y = true -> (1 <= length (filter (fun a => busy sig a = true) l))%nat) as Hin.
  { intros n y Hn Hy. assert (y ∈ filter (fun a => busy sig a = true) l) as Hy' by (apply list_elem_of_filter; split; [done|by eapply list_elem_of_lookup_2]). destruct (filter _ l); [by apply elem_of_nil in Hy'|cbn; lia]. }
  destruct j as [|j], j' as [|j']; cbn in Hj, Hj'; [done|..].
  - injection Hj as <-. specialize (Hin _ _ Hj' Hb'). rewrite decide_True in Hal by done. cbn in Hal. lia.
  - injection Hj' as <-. specialize (Hin _ _ Hj Hb). rewrite decide_True in Hal by done. cbn in Hal. lia.
  - f_equal. apply IH; try done. destruct (decide _); cbn in Hal; lia.
Qed.

Lemma exact_snoc sig l e : exact sig l -> (forall info, e = Taken sig info -> last_stored sig l = Some info) -> exact sig (l ++ [e]).
Proof.
  intros Hl He l1 info l2 E. destruct (exists_last (l := Taken sig info :: l2)) as (r & x & Er); [done|]. rewrite Er, app_assoc in E. apply app_inj_tail in E as [-> ->]. destruct r as [|y r]; [injection Er as <- ->; rewrite app_nil_r in *; by apply He|].
  injection Er as <- ->. by eapply Hl.
Qed.

(** A step that does not write the entry. *)
Lemma calm_put sig s i a b t es :
  calm_inv sig s -> actors s !! i = Some a -> entry t sig = entry (shared s) sig -> last_stored sig (log s ++ es) = last_stored sig (log s) -> exact sig (log s ++ es) ->
  (storing sig a = true -> storing sig b = true) ->
  (forall info todo k, b = Storing info todo -> si_signo info = sig -> (k < 32)%nat -> k ∉ todo -> word_at (entry (shared s) sig) k = word_at info k) ->
  (forall out todo k, b = Reading sig out todo -> (k < 32)%nat -> k ∉ todo -> word_at out k = word_at (entry (shared s) sig) k) -> calm_inv sig (put s i b t es).
Proof.
  intros Hc Ha Ee El Hx Hst HB HC. pose proof (lookup_lt_Some _ _ _ Ha) as Hlt. split; cbn [put shared actors log]; rewrite ?Ee, ?El.
  - intros x Hl Hnone. apply (ci_entry _ _ Hc); [done|]. intros j y Hy. destruct (decide (j = i)) as [->|Hji]; [|apply (Hnone j); by rewrite list_lookup_insert_ne].
    assert (y = a) as -> by congruence. destruct (storing sig a) eqn:E; [|done]. rewrite <- (Hnone i b) by (by apply list_lookup_insert_eq). symmetry. auto.
  - intros j info todo k. destruct (decide (j = i)) as [->|Hji]; [rewrite list_lookup_insert_eq by done; intros [= ->]; by apply HB|rewrite list_lookup_insert_ne by done; apply Hc].
  - intros j out todo k. destruct (decide (j = i)) as [->|Hji]; [rewrite list_lookup_insert_eq by done; intros [= ->]; by apply HC|rewrite list_lookup_insert_ne by done; apply Hc].
  - done.
Qed.

(** A step that writes it: nobody else copies. *)
Lemma calm_store w sig s i info todo k a es :
  let e := set_word k (word_at info k) (entry (shared s) (si_signo info)) in
  queue_inv w s -> alone sig s = true -> calm_inv sig s -> actors s !! i = Some (Storing info todo) -> k ∈ todo -> si_signo info = sig ->
  without k todo = [] /\ a = Raising info /\ es = [Stored info] \/ without k todo <> [] /\ a = Storing info (without k todo) /\ es = [] ->
  calm_inv sig (put s i a (with_signals (shared s) (pending_signals_ (shared s)) (<[Z.to_nat (si_signo info) := e]> (pending_info_ (shared s)))) es).
Proof.
  intros e Hi Hal Hc Ha Hk Hs Hcase. pose proof (lookup_lt_Some _ _ _ Ha) as Hlt. destruct (Forall_lookup_1 _ _ _ _ (qi_actors _ _ Hi) Ha) as ((_ & Hr & Hwi) & _ & Htodo & _). assert ((k < 32)%nat) as Hk32 by (rewrite Forall_forall in Htodo; auto).
  pose proof (entry_whole w s _ Hi Hr) as Hwe. assert (forall p, entry (with_signals (shared s) p (<[Z.to_nat (si_signo info) := e]> (pending_info_ (shared s)))) sig = e) as Ee by (intros p; rewrite entry_insert by (done || apply Hi); by rewrite decide_True).
  assert (forall j, (j < 32)%nat -> j ∉ without k todo -> word_at e j = word_at info j) as Hwords.
  { intros j Hj Hn. unfold e. destruct (decide (j = k)) as [->|Hjk]; [by apply word_at_same|]. rewrite word_at_other by done. rewrite Hs. eapply (ci_storing _ _ Hc); [done..|]. intros Hin. by apply Hn, without_in. }
  assert (forall j b, j <> i -> actors s !! j = Some b -> busy sig b = false) as Hothers.
  { intros j b Hj Hb. destruct (busy sig b) eqn:E; [|done]. exfalso. apply Hj. eapply (alone_one sig s); try done. cbn. by apply Z.eqb_eq. }
  split; cbn [put shared actors log]; rewrite ?Ee.
  - intros x Hl Hnone. destruct Hcase as [(Ew & -> & ->)|(_ & -> & ->)].
    + rewrite last_stored_snoc, (proj2 (Z.eqb_eq _ _) Hs) in Hl. injection Hl as <-. apply words_inj; [by apply set_word_whole|done|]. intros j Hj. apply Hwords; [done|]. rewrite Ew. apply not_elem_of_nil.
    + specialize (Hnone i _ (list_lookup_insert_eq _ _ _ Hlt)). cbn in Hnone. apply Z.eqb_neq in Hnone. done.
  - intros j i' todo' n. destruct (decide (j = i)) as [->|Hji].
    + rewrite list_lookup_insert_eq by done. destruct Hcase as [(_ & -> & _)|(_ & -> & _)]; [done|]. intros [= <- <-]. auto.
    + rewrite list_lookup_insert_ne by done. intros Hj Es. apply Hothers in Hj; [|done]. cbn in Hj. by apply Z.eqb_neq in Hj.
  - intros j out todo' n. destruct (decide (j = i)) as [->|Hji]; [rewrite list_lookup_insert_eq by done; by destruct Hcase as [(_ & -> & _)|(_ & -> & _)]|].
    rewrite list_lookup_insert_ne by done. intros Hj. apply Hothers in Hj; [|done]. cbn in Hj. by rewrite Z.eqb_refl in Hj.
  - destruct Hcase as [(_ & _ & ->)|(_ & _ & ->)]; [by apply exact_snoc; [apply Hc|]|rewrite app_nil_r; apply Hc].
Qed.

Lemma calm_advance w sig s i a k a' t es :
  queue_inv w s -> 1 <= sig <= 64 -> alone sig s = true -> calm_inv sig s -> actors s !! i = Some a -> advance k a (shared s) = Ret (a', t, es) -> calm_inv sig (put s i a' t es).
Proof.
  intros Hi Hsig Hal Hc Ha Hadv. pose proof (Forall_lookup_1 _ _ _ _ (qi_actors _ _ Hi) Ha) as Hok. pose proof (qi_queue _ _ Hi) as Hq. pose proof (lookup_lt_Some _ _ _ Ha) as Hlt.
  assert (calm_inv sig (put s i a (shared s) [])) as Hstay.
  { apply (calm_put sig s i a); try done; rewrite ?app_nil_r; [done|apply Hc| |]; intros; subst; by eapply Hc. }
  destruct a as [|info todo|info| | |blocked|blocked p|sg out todo]; cbn [advance] in Hadv; try (injection Hadv as <- <- <-).
  - done.
  - case_decide as Hk; [|by injection Hadv as <- <- <-]. destruct Hok as ((Hp & Hr & Hw) & Hrest). rewrite (proj2 (vec_at_Ret _ _ _) (entry_at _ _ Hq Hr)), exec_ret_bind, vec_set_lt, exec_ret_bind in Hadv by (destruct Hq; lia). cbv zeta in Hadv.
    assert (without k todo = [] /\ a' = Raising info /\ es = [Stored info] \/ without k todo <> [] /\ a' = Storing info (without k todo) /\ es = []) as Hcase by (destruct (without k todo); injection Hadv as <- _ <-; [by left|by right]).
    assert (t = with_signals (shared s) (pending_signals_ (shared s)) (<[Z.to_nat (si_signo info) := set_word k (word_at info k) (entry (shared s) (si_signo info))]> (pending_info_ (shared s)))) as -> by (destruct (without k todo); by injection Hadv as _ <- _).
    destruct (decide (si_signo info = sig)) as [Es|Es]; [by eapply calm_store|]. apply (calm_put sig s i (Storing info todo)); try done.
    + rewrite entry_insert by done. by rewrite decide_False by congruence.
    + destruct Hcase as [(_ & _ & ->)|(_ & _ & ->)]; [rewrite last_stored_snoc; by rewrite (proj2 (Z.eqb_neq _ _) Es)|by rewrite app_nil_r].
    + destruct Hcase as [(_ & _ & ->)|(_ & _ & ->)]; [by apply exact_snoc; [apply Hc|]|rewrite app_nil_r; apply Hc].
    + cbn. intros E%Z.eqb_eq. done.
    + destruct Hcase as [(_ & -> & _)|(_ & -> & _)]; intros i' td n E; [done|]. by injection E as <- <-.
    + destruct Hcase as [(_ & -> & _)|(_ & -> & _)]; intros out td n E; done.
  - apply (calm_put sig s i (Raising info)); try done; [apply last_stored_snoc|by apply exact_snoc; [apply Hc|]].
  - apply (calm_put sig s i Halting); try done; rewrite app_nil_r; [done|apply Hc].
  - apply (calm_put sig s i Waking); try done; [apply last_stored_snoc|by apply exact_snoc; [apply Hc|]].
  - apply (calm_put sig s i (Looking blocked)); try done; [apply last_stored_snoc|by apply exact_snoc; [apply Hc|]].
  - cbv zeta in Hadv. destruct (_ =? 0); [injection Hadv as <- <- <-; apply (calm_put sig s i (Trying blocked p)); try done; [apply last_stored_snoc|by apply exact_snoc; [apply Hc|]]|].
    destruct (_ || _); injection Hadv as <- <- <-; [apply (calm_put sig s i (Trying blocked p)); try done; [apply last_stored_snoc|by apply exact_snoc; [apply Hc|]]|]. apply (calm_put sig s i (Trying blocked p)); try done; [apply last_stored_snoc|by apply exact_snoc; [apply Hc|]|].
    intros out td n E Hn Hin. injection E as _ _ <-. exfalso. apply Hin, elem_of_seq. lia.
  - case_decide as Hk; [|by injection Hadv as <- <- <-]. destruct Hok as (Hr & Hw & Hne & Htodo & Hst & Hdone). assert ((k < 32)%nat) as Hk32 by (rewrite Forall_forall in Htodo; auto). rewrite (proj2 (vec_at_Ret _ _ _) (entry_at _ _ Hq Hr)), exec_ret_bind in Hadv. cbv zeta in Hadv.
    set (out' := set_word _ _ _) in Hadv. assert (sg = sig -> forall j, (j < 32)%nat -> j ∉ without k todo -> word_at out' j = word_at (entry (shared s) sig) j) as Hwords.
    { intros -> j Hj Hn. unfold out'. destruct (decide (j = k)) as [->|Hjk]; [by apply word_at_same|]. rewrite word_at_other by done. eapply (ci_reading _ _ Hc); [done..|]. intros Hin. by apply Hn, without_in. }
    destruct (without k todo) as [|x rest] eqn:Ew; injection Hadv as <- <- <-; apply (calm_put sig s i (Reading sg out todo)); try done; rewrite ?app_nil_r; try done; [apply last_stored_snoc| |apply Hc|].
    + apply exact_snoc; [apply Hc|]. intros info [= -> <-]. unfold ever_stored in Hst. destruct (last_stored sig (log s)) as [x|] eqn:El; [|done]. f_equal.
      assert (entry (shared s) sig = x) as <-.
      { apply (ci_entry _ _ Hc); [done|]. intros j b Hb. destruct (storing sig b) eqn:E; [|done]. assert (j = i) as -> by (eapply (alone_one sig s); [done|done|done|by destruct b|cbn; apply Z.eqb_refl]). rewrite Ha in Hb. by injection Hb as <-. }
      symmetry. apply words_inj; [by apply set_word_whole|by eapply entry_whole|]. intros j Hj. apply Hwords; [done|done|apply not_elem_of_nil].
    + intros o td n E Hn Hin. injection E as -> <- <-. by apply Hwords.
Qed.

Lemma calm_moved w sig s m s' : queue_inv w s -> 1 <= sig <= 64 -> alone sig s = true -> calm_inv sig s -> moved m s = Ret s' -> calm_inv sig s'.
Proof.
  intros Hi Hsig Hal Hc Hm. destruct m as [i op|i k]; cbn [moved] in Hm.
  - destruct (actors s !! i) as [[]|] eqn:Ea; try (by injection Hm as <-). destruct (begin op) as [a es] eqn:Eb. injection Hm as <-. change (calm_inv sig (put s i a (shared s) es)).
    assert (es = [] /\ (a = Idle \/ exists b, a = Looking b) \/ exists info, es = [Posted info] /\ a = Storing info all_words) as [[-> Hcase]|(info & -> & ->)].
    { destruct op as [info|b]; cbn in Eb; [destruct (_ || _)|]; injection Eb as <- <-; eauto 6. }
    + apply (calm_put sig s i Idle); try done; rewrite ?app_nil_r; [done|apply Hc|intros; subst; by destruct Hcase as [?|[? ?]]..].
    + apply (calm_put sig s i Idle); try done; [apply last_stored_snoc|by apply exact_snoc; [apply Hc|]|]. intros i' td n [= <- <-] _ Hn Hin. exfalso. apply Hin, elem_of_seq. lia.
  - destruct (actors s !! i) as [a|] eqn:Ea; [|by injection Hm as <-]. apply exec_bind_Ret in Hm as ([[a' t] es] & E & Hm). injection Hm as <-. by eapply (calm_advance w).
Qed.

(** ** Runs *)

Lemma queue_moves w ms : forall s, queue_inv w s -> Forall move_ok ms -> exists s', moves ms s = Ret s' /\ queue_inv w s' /\ forall sig, 1 <= sig <= 64 -> calm_inv sig s -> calm sig ms s = true -> calm_inv sig s'.
Proof.
  induction ms as [|m ms IH]; intros s Hi Hms; cbn [moves calm]; [by exists s|]. apply Forall_cons in Hms as [Hm Hms]. destruct (queue_moved w s m Hi Hm) as (s1 & E1 & Hi1). rewrite E1, exec_ret_bind. destruct (IH s1 Hi1 Hms) as (s2 & E2 & Hi2 & Hc2).
  exists s2. split; [done|]. split; [done|]. intros sig Hsig Hc [Hal Hcalm]%andb_true_iff. apply Hc2; [done| |done]. by apply (calm_moved w sig s m).
Qed.

(** The thread with no signal pending and [n] callers that have not begun. *)
Definition fresh (t : GuestThread J) (n : nat) : system := {| shared := t; actors := replicate n Idle; log := [] |}.
Definition empty_queue (t : GuestThread J) : Prop := pending_signals_ t = 0 /\ length (pending_info_ t) = 65%nat /\ Forall whole (pending_info_ t) /\ 0 <= park_token t < 2 ^ 32.

Lemma queue_fresh t n : empty_queue t -> queue_inv (park_token t) (fresh t n) /\ forall sig, calm_inv sig (fresh t n).
Proof.
  intros (E & Hl & Hw & Hp). split; [|intros sig]; split; cbn [fresh shared actors log]; try done.
  - split; [rewrite E; lia|done].
  - intros sig Hs. rewrite E. apply Z.bits_0.
  - by apply Forall_replicate.
  - constructor.
  - cbn. rewrite Z.add_0_r. symmetry. by apply u32_small.
  - intros j i todo k Hj. apply lookup_replicate in Hj as [? _]. done.
  - intros j out todo k Hj. apply lookup_replicate in Hj as [? _]. done.
  - intros l1 info l2 El. by destruct l1.
Qed.

(** C18: the queue of pending signals of a guest thread, with any number of threads and host
    signal handlers posting to it and taking from it, their steps interleaved in any order,
    from an empty queue.  No step leaves the array.  A signal is pending exactly when it was
    raised and nobody claimed it since, so no raised signal is lost and none is delivered
    twice or invented.  A claim takes the lowest signal that was up and unblocked at that
    moment, and an answer "none" was given only after a look at the word at which nothing
    unblocked was up.  What a taker gets carries the number it claimed, and each of its words
    is that of a siginfo somebody posted for that number; it is the siginfo posted last, whole,
    when in no state of the run two callers copy to or from the entry of that number at once
    ([calm]).  Without that it may be a mix ([siginfo_torn]) or another post's
    ([siginfo_overwritten]), since nothing guards the array.  The park token counts the posts
    that completed. *)
Theorem signal_queue_interleaved (t : GuestThread J) n ms :
  empty_queue t -> Forall move_ok ms ->
  exists s, moves ms (fresh t n) = Ret s /\ queue_ok (shared s) /\ history (log s) /\
    (forall sig, 1 <= sig <= 64 -> Z.testbit (pending_signals_ (shared s)) (sig - 1) = is_up sig (log s)) /\
    park_token (shared s) = u32 (park_token t + wakes (log s)) /\
    (forall sig, 1 <= sig <= 64 -> calm sig ms (fresh t n) = true -> exact sig (log s)).
Proof.
  intros Ht Hms. destruct (queue_fresh t n Ht) as [Hi Hc]. destruct (queue_moves _ ms _ Hi Hms) as (s & E & Hs & Hcs). exists s. split_and!; [done|by apply Hs..|]. intros sig Hsig Hcalm. apply (Hcs sig Hsig (Hc sig) Hcalm).
Qed.

(** ** Undisturbed, a caller does what the call does *)

Definition copied (from : siginfo32) (ks : list nat) (e : siginfo32) : siginfo32 := fold_left (fun e k => set_word k (word_at from k) e) ks e.

Lemma copied_all from e : whole from -> whole e -> copied from all_words e = from.
Proof.
  intros Hf He. assert (forall ks e, Forall (fun k => (k < 32)%nat) ks -> whole e -> whole (copied from ks e) /\ forall j, word_at (copied from ks e) j = if decide (j ∈ ks) then word_at from j else word_at e j) as Hall.
  { clear e He. induction ks as [|k ks IH]; intros e Hks He; [split; [done|]; intros j; by rewrite decide_False by apply not_elem_of_nil|]. apply Forall_cons in Hks as [Hk Hks]. destruct (IH (set_word k (word_at from k) e) Hks (set_word_whole _ _ _ He)) as [Hw Hj].
    split; [done|]. intros j. change (copied from (k :: ks) e) with (copied from ks (set_word k (word_at from k) e)). rewrite Hj. destruct (decide (j = k)) as [->|Hn].
    - rewrite word_at_same by done. rewrite (decide_True (P := k ∈ k :: ks)) by left. by case_decide.
    - rewrite word_at_other by done. destruct (decide (j ∈ ks)); [by rewrite decide_True by (by right)|]. rewrite decide_False; [done|]. by intros [?|?]%elem_of_cons. }
  destruct (Hall all_words e) as [Hw Hj]; [by repeat constructor; lia|done|]. apply words_inj; [done..|]. intros k Hk. rewrite Hj, decide_True; [done|]. apply elem_of_seq. lia.
Qed.

Lemma without_head k ks : NoDup (k :: ks) -> without k (k :: ks) = ks.
Proof.
  intros [Hn _]%NoDup_cons. unfold without. rewrite filter_cons, decide_False by (intros Hk; by apply Hk). induction ks as [|j ks IH]; [done|]. rewrite filter_cons, decide_True by (intros ->; apply Hn; left). f_equal. apply IH. intros Hk. apply Hn. by right.
Qed.

Lemma post_copies info : 1 <= si_signo info <= 64 -> forall ks t l, queue_ok t -> NoDup ks -> ks <> [] ->
  moves (map (Step 0) ks) {| shared := t; actors := [Storing info ks]; log := l |} =
  Ret {| shared := with_signals t (pending_signals_ t) (<[Z.to_nat (si_signo info) := copied info ks (entry t (si_signo info))]> (pending_info_ t)); actors := [Raising info]; log := l ++ [Stored info] |}.
Proof.
  intros Hr ks. induction ks as [|k ks IH]; intros t l Hq Hnd Hne; [done|]. cbn [map moves moved actors lookup list_lookup shared log advance]. rewrite decide_True by left. rewrite (proj2 (vec_at_Ret _ _ _) (entry_at _ _ Hq Hr)), exec_ret_bind, vec_set_lt, exec_ret_bind by (destruct Hq; lia).
  cbv zeta. rewrite (without_head k ks Hnd). apply NoDup_cons in Hnd as [_ Hnd]. set (e := set_word _ _ _). set (t1 := with_signals _ _ _). destruct ks as [|k2 ks].
  - by rewrite !exec_ret_bind.
  - rewrite !exec_ret_bind. cbn [list_insert insert log]. rewrite app_nil_r. assert (queue_ok t1) as Hq1 by (split; [apply Hq|cbn; rewrite length_insert; apply Hq]). rewrite (IH t1 l Hq1 Hnd) by done.
    assert (entry t1 (si_signo info) = e) as -> by (unfold t1; rewrite entry_insert by done; by rewrite decide_True). unfold t1. cbn [pending_signals_ pending_info_ with_signals]. by rewrite list_insert_insert_eq.
Qed.

Definition post_moves (info : siginfo32) : list move := Begin 0 (Post info) :: map (Step 0) all_words ++ [Step 0 0; Step 0 0; Step 0 0].

Lemma moves_app ms1 ms2 (s : system) : moves (ms1 ++ ms2) s = (s ← moves ms1 s; moves ms2 s).
Proof. revert s. induction ms1 as [|m ms1 IH]; intros s; [done|]. cbn [app moves]. destruct (moved m s) as [s1| |]; [|done..]. rewrite !exec_ret_bind. apply IH. Qed.
Lemma moves_idle ks (s : system) i : actors s = [Idle] -> i = 0%nat -> moves (map (Step i) ks) s = Ret s.
Proof. intros Ha ->. induction ks as [|k ks IH]; [done|]. destruct s as [t a l]. cbn in Ha. subst a. cbn [map moves moved actors lookup list_lookup advance shared log]. rewrite exec_ret_bind. cbn [list_insert insert]. by rewrite app_nil_r. Qed.

(** A [post_signal] that nobody interferes with. *)
Lemma post_alone t info : queue_ok t -> Forall whole (pending_info_ t) -> whole info -> (s ← moves (post_moves info) (fresh t 1); Ret (shared s)) = post_signal t info.
Proof.
  intros Hq Hw Hi. unfold post_moves, post_signal. cbn [moves moved fresh replicate actors lookup list_lookup begin shared log]. destruct (_ || _) eqn:Er.
  - rewrite exec_ret_bind. change [Step 0 0; Step 0 0; Step 0 0] with (map (Step 0) [0; 0; 0]%nat). rewrite <- map_app, moves_idle by done. by rewrite exec_ret_bind.
  - assert (1 <= si_signo info <= 64) as Hr by lia. rewrite exec_ret_bind. cbn [list_insert insert]. rewrite moves_app, post_copies; [|done|done|apply NoDup_seq|done]. rewrite exec_ret_bind, copied_all; [|done|eapply (Forall_lookup_1 _ _ _ _ Hw), entry_at; done].
    rewrite vec_set_lt by (destruct Hq; lia). rewrite exec_ret_bind. reflexivity.
Qed.

Lemma take_copies sig : 1 <= sig <= 64 -> forall ks (t : GuestThread J) out l, queue_ok t -> NoDup ks -> ks <> [] ->
  moves (map (Step 0) ks) {| shared := t; actors := [Reading sig out ks]; log := l |} = Ret {| shared := t; actors := [Idle]; log := l ++ [Taken sig (copied (entry t sig) ks out)] |}.
Proof.
  intros Hr ks. induction ks as [|k ks IH]; intros t out l Hq Hnd Hne; [done|]. cbn [map moves moved actors lookup list_lookup shared log advance]. rewrite decide_True by left. rewrite (proj2 (vec_at_Ret _ _ _) (entry_at _ _ Hq Hr)), exec_ret_bind.
  cbv zeta. rewrite (without_head k ks Hnd). apply NoDup_cons in Hnd as [_ Hnd]. destruct ks as [|k2 ks]; [by rewrite !exec_ret_bind|]. rewrite !exec_ret_bind. cbn [list_insert insert log]. rewrite app_nil_r. by rewrite (IH t _ l Hq Hnd) by done.
Qed.

Definition take_moves (blocked : Z) : list move := Begin 0 (Take blocked) :: Step 0 1 :: Step 0 1 :: map (Step 0) all_words.
Definition answer_of (l : list event) : option siginfo32 := match last l with Some (Taken _ info) => Some info | _ => None end.

(** A [take_signal] that nobody interferes with. *)
Lemma take_alone t blocked : queue_ok t -> Forall whole (pending_info_ t) -> (s ← moves (take_moves blocked) (fresh t 1); Ret (answer_of (log s), shared s)) = take_signal t blocked.
Proof.
  intros Hq Hw. unfold take_moves, take_signal. cbn [moves moved fresh replicate actors lookup list_lookup begin shared log take_signal_loop]. rewrite exec_ret_bind. cbn [list_insert insert moves moved actors lookup list_lookup shared log advance]. rewrite !exec_ret_bind.
  cbn [list_insert insert moves moved actors lookup list_lookup shared log advance]. cbv zeta. destruct (Z.eqb_spec (Z.land (pending_signals_ t) (u64 (Z.lnot blocked))) 0) as [E|Hn].
  - rewrite !exec_ret_bind. rewrite moves_idle by done. by rewrite exec_ret_bind.
  - rewrite Z.eqb_refl. cbn [orb negb Nat.eqb]. rewrite !exec_ret_bind. cbn [list_insert insert log]. destruct (countr_zero_spec _ (deliverable_range _ blocked (proj1 Hq)) Hn) as (Hr & _). set (bit := countr_zero _) in *. clearbody bit.
    set (t1 := with_signals _ _ _). assert (queue_ok t1) as Hq1 by (split; [apply deliverable_range, Hq|apply Hq]). rewrite take_copies; [|lia|done|apply NoDup_seq|done]. rewrite exec_ret_bind. cbn [log shared]. unfold answer_of. rewrite last_snoc.
    assert (pending_info_ t !! Z.to_nat (bit + 1) = Some (entry t1 (bit + 1))) as Ee by (apply (entry_at t1); [done|lia]). change (pending_info_ t1) with (pending_info_ t). rewrite (proj2 (vec_at_Ret _ _ _) Ee), exec_ret_bind. rewrite copied_all; [done| |done]. by eapply (Forall_lookup_1 _ _ _ _ Hw).
Qed.
End Proofs.

(** ** Runs *)

#[local] Instance silent_Jit : Jit unit :=
  {| Regs _ := []; set_Regs _ j := j; ExtRegs _ := []; set_ExtRegs _ j := j; Cpsr _ := 0; SetCpsr _ j := j; Fpscr _ := 0; SetFpscr _ j := j; HaltExecution _ j := j; ClearHalt _ j := j; InvalidateCacheRange _ _ j := j |}.

Definition demo_thread : GuestThread unit :=
  {| jit_ := tt; pending_ := Stop_init; pending_signals_ := 0; pending_info_ := replicate 65 siginfo32_init; park_word_ := 0; sigmask := 0; altstack := {| ss_sp := 0; ss_flags := 2; ss_size := 0 |};
     clear_child_tid := 0; exit_status := 0; call_depth := 0; child_code_cache_size := 0; tid := 1; tpidruro_ := 0; processor_id_ := 0 |}.
Definition demo_info (sig n : Z) : siginfo32 := {| si_signo := sig; si_errno := n; si_code := n; fields := replicate 29 n |}.

(** Actor 0 posts [info], actor 1 takes what is not blocked; alone, or in parts. *)
Definition whole_post (i : nat) (info : siginfo32) : list move := Begin i (Post info) :: map (Step i) all_words ++ [Step i 0; Step i 0; Step i 0].
Definition whole_take (i : nat) : list move := Begin i (Take 0) :: Step i 1 :: Step i 1 :: map (Step i) all_words.

Definition taken_in (l : list event) : list (Z * Z * Z * Z) := omap (fun e => match e with Taken sig i => Some (sig, si_errno i, si_code i, nth 28 (fields i) 0) | _ => None end) l.
Definition taken_by (ms : list move) : option (list (Z * Z * Z * Z)) := match moves ms (fresh demo_thread 3) with Ret s => Some (taken_in (log s)) | _ => None end.

(** Two posts of different signals and a take, in turns: nobody is disturbed. *)
Definition demo_moves : list move := Begin 0 (Post (demo_info 10 7)) :: Begin 1 (Post (demo_info 12 8)) :: concat (map (fun k => [Step 0 k; Step 1 k]) (all_words ++ [0; 0; 0]%nat)) ++ whole_take 2.

Lemma demo_moves_ok : Forall move_ok demo_moves.
Proof.
  apply Forall_cons_2; [reflexivity|]. apply Forall_cons_2; [reflexivity|]. apply Forall_app_2; [|by repeat constructor]. apply Forall_concat, Forall_map, Forall_forall. intros k _. by repeat constructor.
Qed.
Lemma demo_empty : empty_queue demo_thread.
Proof. split_and!; [done|done|by apply Forall_replicate|done|done]. Qed.

Lemma demo_taken s : moves demo_moves (fresh demo_thread 3) = Ret s -> taken_in (log s) = [(10, 7, 7, 7)] /\ Z.testbit (pending_signals_ (shared s)) (12 - 1) = true.
Proof.
  assert (match moves demo_moves (fresh demo_thread 3) with Ret s => bool_decide (taken_in (log s) = [(10, 7, 7, 7)]) && Z.testbit (pending_signals_ (shared s)) (12 - 1) | _ => false end = true) as Ht by (vm_compute; reflexivity).
  intros E. rewrite E in Ht. apply andb_true_iff in Ht as [Ht Hb]. apply bool_decide_eq_true in Ht. exact (conj Ht Hb).
Qed.
Lemma demo_calm : calm 10 demo_moves (fresh demo_thread 3) = true /\ calm 12 demo_moves (fresh demo_thread 3) = true.
Proof. split; vm_compute; reflexivity. Qed.

Lemma signal_queue_interleaved_witness :
  exists s, moves demo_moves (fresh demo_thread 3) = Ret s /\ taken_in (log s) = [(10, 7, 7, 7)] /\ history (log s) /\ exact 10 (log s) /\ exact 12 (log s) /\ is_up 12 (log s) = true.
Proof.
  destruct (signal_queue_interleaved demo_thread 3 demo_moves demo_empty demo_moves_ok) as (s & E & _ & Hh & Hb & _ & Hx). exists s. destruct (demo_taken s E) as [Ht Hu]. split; [exact E|]. split; [exact Ht|]. split; [exact Hh|].
  split; [exact (Hx 10 ltac:(lia) (proj1 demo_calm))|]. split; [exact (Hx 12 ltac:(lia) (proj2 demo_calm))|]. rewrite <- (Hb 12 ltac:(lia)). exact Hu.
Defined.

(** Two posts of one signal whose copies overlap: the taker gets the error number of one and
    the rest of the other. *)
Example siginfo_torn :
  taken_by (Begin 0 (Post (demo_info 10 7)) :: Step 0 0 :: Step 0 1 :: whole_post 1 (demo_info 10 8) ++ map (Step 0) (drop 2 all_words ++ [0; 0; 0]%nat) ++ whole_take 2) = Some [(10, 8, 7, 7)].
Proof. vm_compute. reflexivity. Qed.

(** A post between the exchange of a taker and its copy: the first siginfo is lost, and the
    second is delivered twice. *)
Example siginfo_overwritten :
  taken_by (whole_post 0 (demo_info 10 7) ++ [Begin 2 (Take 0); Step 2 1; Step 2 1] ++ whole_post 1 (demo_info 10 8) ++ map (Step 2) all_words ++ whole_take 2) = Some [(10, 8, 8, 8); (10, 8, 8, 8)].
Proof. vm_compute. reflexivity. Qed.
