(* ===== verification/Signals.v ===== *)
(** * Guest signals

    [core/src/signals.cpp]: building a signal frame and entering the handler, taking
    it down again in sigreturn, turning faults into signals, and the hand-over of
    host signals to the thread published as the process signal target.

    The guest structures are little-endian and made of 32-bit words ([uc_sigmask] is
    two of them, [unused] thirty), so a structure is its list of words. *)

From stdpp Require Import numbers list gmap.
From S2P Require Import Prelude Bytes GuestMemory InitialStack NativeCall GuestThread.
Local Open Scope Z_scope.

(** ** Constants *)

Definition SIGILL : Z := 4.
Definition SIGTRAP : Z := 5.
Definition SIGBUS : Z := 7.
Definition SIGKILL : Z := 9.
Definition SIGSEGV : Z := 11.
Definition SIGCHLD : Z := 17.
Definition SIGCONT : Z := 18.
Definition SIGSTOP : Z := 19.
Definition SIGURG : Z := 23.
Definition SIGWINCH : Z := 28.
Definition SEGV_MAPERR : Z := 1.
Definition SEGV_ACCERR : Z := 2.
Definition TRAP_BRKPT : Z := 1.
Definition ILL_ILLOPC : Z := 1.

Definition kSaSiginfo : Z := 0x00000004.
Definition kSaRestorer : Z := 0x04000000.
Definition kSaOnstack : Z := 0x08000000.
Definition kSaNodefer : Z := 0x40000000.
Definition kSaResethand : Z := 0x80000000.
Definition kSigDfl : Z := 0.
Definition kSigIgn : Z := 1.
Definition kSsOnstack : Z := 1.
Definition kSsDisable : Z := 2.
Definition kCpsrUserMode : Z := 0x10.
Definition kCpsrUserRestorable : Z := Z.lor (Z.lor 0xF80F0000 kCpsrItMask) kCpsrThumb.
Definition kVfpFrameMagic : Z := 0x5A425646.
Definition kVfpWords : nat := 64.

Definition sig_bit (sig : Z) : Z := u64 (Z.shiftl 1 (sig - 1)).
Definition kUnblockable : Z := Z.lor (sig_bit SIGKILL) (sig_bit SIGSTOP).

Definition default_ignored (sig : Z) : bool :=
  (sig =? SIGCHLD) || (sig =? SIGCONT) || (sig =? SIGURG) || (sig =? SIGWINCH).

(** ** Structures *)

Record ksigaction32 := { handler : Z; flags : Z; restorer : Z; mask0 : Z; mask1 : Z }.

Record ucontext32 := {
  uc_flags : Z; uc_link : Z; uc_stack : stack32;
  trap_no : Z; error_code : Z; oldmask : Z; uc_regs : list Z; uc_cpsr : Z; fault_address : Z;
  uc_sigmask : Z; unused : list Z; uc_regspace : list Z;
}.

(** Its words in memory; a signed field is stored as its 32-bit pattern. *)
Definition ucontext_words (uc : ucontext32) : list Z :=
  [uc_flags uc; uc_link uc; ss_sp (uc_stack uc); u32 (ss_flags (uc_stack uc)); ss_size (uc_stack uc);
   trap_no uc; error_code uc; oldmask uc] ++ uc_regs uc ++
  [uc_cpsr uc; fault_address uc; u32 (uc_sigmask uc); Z.shiftr (uc_sigmask uc) 32] ++ unused uc ++ uc_regspace uc.

Definition siginfo_words (info : siginfo32) : list Z :=
  [u32 (si_signo info); u32 (si_errno info); u32 (si_code info)] ++ fields info.

(** [rt_sigframe32] and [sigframe32]; [retcode] is left zero. *)
Definition rt_sigframe_words (info : siginfo32) (uc : ucontext32) : list Z :=
  siginfo_words info ++ ucontext_words uc ++ replicate 4 0.
Definition sigframe_words (uc : ucontext32) : list Z := ucontext_words uc ++ replicate 4 0.

Definition sizeof_siginfo32 : Z := 128.
Definition sizeof_ucontext32 : Z := 744.
Definition sizeof_rt_sigframe32 : Z := 888.
Definition sizeof_sigframe32 : Z := 760.

Definition words_bytes (ws : list Z) : list Z := flat_map (to_le 4) ws.

(** [memcpy] of [n] words out of guest memory. *)
Definition read_words (m : GuestMemory) (a : Z) (n : nat) : list Z :=
  map (fun k => le (map (fun i => u8 (bytes_ m (a + 4 * Z.of_nat k + Z.of_nat i))) (seq 0 4))) (seq 0 n).

Section Signals.
Context {J : Type} `{Jit J}.

(** ** Delivery *)

Definition alt_enabled (alt : stack32) : bool := negb (ss_flags alt =? kSsDisable) && negb (ss_size alt =? 0).

(** The context saved for the handler to return to. *)
Definition saved_context (t : GuestThread J) (info : siginfo32) (alt_on on_altstack : bool) : exec ucontext32 :=
  fault ← (if (si_signo info =? SIGSEGV) || (si_signo info =? SIGBUS) then vec_at (fields info) 0 else Ret 0);
  let alt := altstack t in
  Ret {| uc_flags := 0; uc_link := 0;
         uc_stack := {| ss_sp := ss_sp alt; ss_flags := if alt_on then (if on_altstack then kSsOnstack else 0) else kSsDisable; ss_size := ss_size alt |};
         trap_no := 0; error_code := 0; oldmask := u32 (sigmask t); uc_regs := regs t; uc_cpsr := cpsr t; fault_address := fault;
         uc_sigmask := sigmask t; unused := replicate 30 0;
         uc_regspace := [kVfpFrameMagic] ++ ext_regs t ++ [fpscr t] ++ replicate 62 0 |}.

(** What the disposition table says: the signal kills the process or is ignored, or
    its handler runs, with the table as a one-shot handler leaves it. *)
Definition choose_action (sigactions : list ksigaction32) (t : GuestThread J) (sig : Z) (forced : bool) : exec (bool + ksigaction32 * list ksigaction32) :=
  act ← vec_at sigactions (Z.to_nat sig);
  let has_handler := kSigIgn <? handler act in
  if forced && (negb has_handler || has_bits (sigmask t) (sig_bit sig)) then Ret (inl false)
  else if (sig =? SIGKILL) || (sig =? SIGSTOP) then Ret (inl false)
  else if handler act =? kSigIgn then Ret (inl true)
  else if handler act =? kSigDfl then Ret (inl (default_ignored sig))
  else if has_bits (flags act) kSaResethand then
    let reset := {| handler := kSigDfl; flags := Z.land (flags act) (u32 (Z.lnot kSaSiginfo)); restorer := restorer act; mask0 := mask0 act; mask1 := mask1 act |} in
    acts ← vec_set sigactions (Z.to_nat sig) reset; Ret (inr (act, acts))
  else Ret (inr (act, sigactions)).

(** Where the frame goes. *)
Definition frame_address (t : GuestThread J) (act : ksigaction32) (sp : Z) : Z :=
  let alt := altstack t in
  let on_altstack := alt_enabled alt && (u32 (sp - ss_sp alt) <? ss_size alt) in
  let frame_top := if has_bits (flags act) kSaOnstack && alt_enabled alt && negb on_altstack then u32 (ss_sp alt + ss_size alt) else sp in
  let frame_size := if has_bits (flags act) kSaSiginfo then sizeof_rt_sigframe32 else sizeof_sigframe32 in
  Z.land (u32 (frame_top - frame_size)) (u32 (Z.lnot 7)).

(** The mask and registers the handler starts with. *)
Definition enter_handler (t : GuestThread J) (act : ksigaction32) (sig frame : Z) : exec (GuestThread J) :=
  let rt := has_bits (flags act) kSaSiginfo in
  let mask := Z.lor (Z.lor (sigmask t) (Z.shiftl (mask1 act) 32)) (mask0 act) in
  let mask := if negb (has_bits (flags act) kSaNodefer) then Z.lor mask (sig_bit sig) else mask in
  let t := with_mask t (Z.land mask (u64 (Z.lnot kUnblockable))) (altstack t) in
  t ← set_reg t 0 (u32 sig);
  t ← (if rt then t ← set_reg t 1 frame; set_reg t 2 (u32 (frame + sizeof_siginfo32)) else Ret t);
  t ← set_reg t 13 frame;
  t ← set_reg t 14 (if has_bits (flags act) kSaRestorer then restorer act else 0);
  t ← set_reg t 15 (Z.land (handler act) (u32 (Z.lnot 1)));
  Ret (set_cpsr t (Z.lor (Z.land (cpsr t) (u32 (Z.lnot (Z.lor (Z.lor kCpsrThumb kCpsrItMask) kCpsrEndian))))
                         (if has_bits (handler act) 1 then kCpsrThumb else 0))).

Definition deliver_signal (sigactions : list ksigaction32) (t : GuestThread J) (m : GuestMemory) (info : siginfo32) (forced : bool)
    : exec (bool * list ksigaction32 * GuestThread J * GuestMemory) :=
  let sig := si_signo info in
  if (sig <? 1) || (64 <? sig) then Ret (true, sigactions, t, m)
  else
    choice ← choose_action sigactions t sig forced;
    match choice with
    | inl r => Ret (r, sigactions, t, m)
    | inr (act, sigactions) =>
        sp ← vec_at (regs t) 13;
        let alt := altstack t in
        let on_altstack := alt_enabled alt && (u32 (sp - ss_sp alt) <? ss_size alt) in
        let rt := has_bits (flags act) kSaSiginfo in
        let frame_size := if rt then sizeof_rt_sigframe32 else sizeof_sigframe32 in
        let frame := frame_address t act sp in
        uc ← saved_context t info (alt_enabled alt) on_altstack;
        match host_ptr m frame frame_size kPageWrite with
        | None => Ret (false, sigactions, t, m)
        | Some dst =>
            m ← host_write m dst (words_bytes (if rt then rt_sigframe_words info uc else sigframe_words uc));
            t ← enter_handler t act sig frame;
            Ret (true, sigactions, t, m)
        end
    end.

Definition deliver_fault (sigactions : list ksigaction32) (t : GuestThread J) (m : GuestMemory) (stop : Stop)
    : exec (bool * list ksigaction32 * GuestThread J * GuestMemory) :=
  if decide (kind stop = MemoryFault) then
    let info := {| si_signo := SIGSEGV; si_errno := 0;
                   si_code := if accessible m (fault_addr stop) 1 0 then SEGV_ACCERR else SEGV_MAPERR;
                   fields := <[0%nat := fault_addr stop]> (replicate 29 0) |} in
    deliver_signal sigactions t m info true
  else
    let breakpoint := exception stop =? Breakpoint in
    let info := {| si_signo := if breakpoint then SIGTRAP else SIGILL; si_errno := 0;
                   si_code := if breakpoint then TRAP_BRKPT else ILL_ILLOPC; fields := <[0%nat := pc stop]> (replicate 29 0) |} in
    t ← set_reg t 15 (pc stop);
    deliver_signal sigactions t m info true.

(** The loop of [dispatch_pending_signals]; the result is whether the process goes
    on, and the status it exits with otherwise.  [None] when [fuel] signals are not
    enough. *)
Fixpoint dispatch_loop (fuel : nat) (sigactions : list ksigaction32) (t : GuestThread J) (m : GuestMemory)
    : exec (option (option Z * list ksigaction32 * GuestThread J * GuestMemory)) :=
  match fuel with
  | O => Ret None
  | S fuel =>
      '(taken, t) ← take_signal t (sigmask t);
      match taken with
      | None => Ret (Some (None, sigactions, t, m))
      | Some info =>
          '(ok, sigactions, t, m) ← deliver_signal sigactions t m info false;
          if negb ok then Ret (Some (Some (128 + si_signo info), sigactions, t, m)) else dispatch_loop fuel sigactions t m
      end
  end.

(** At most 64 signals are pending. *)
Definition dispatch_pending_signals (sigactions : list ksigaction32) (t : GuestThread J) (m : GuestMemory) := dispatch_loop 65 sigactions t m.

(** ** sigreturn *)

(** The fields sigreturn reads. *)
Definition word (ws : list Z) (i : nat) : Z := default 0 (ws !! i).

Definition sigreturn (t : GuestThread J) (m : GuestMemory) (rt : bool) : exec (bool * GuestThread J) :=
  sp ← vec_at (regs t) 13;
  let uc_addr := u32 (sp + (if rt then sizeof_siginfo32 else 0)) in
  match host_ptr m uc_addr sizeof_ucontext32 kPageRead with
  | None => Ret (false, t)
  | Some src =>
      let ws := read_words m src 186 in
      let t := set_regs t (take 16 (drop 8 ws)) in
      let t := set_cpsr t (Z.lor (Z.land (word ws 24) kCpsrUserRestorable) kCpsrUserMode) in
      let mask := word ws 26 + 2 ^ 32 * word ws 27 in
      let t := with_mask t (Z.land mask (u64 (Z.lnot kUnblockable))) (altstack t) in
      let t := if word ws 58 =? kVfpFrameMagic
               then set_fpscr (set_ext_regs t (take kVfpWords (drop 59 ws))) (word ws (59 + kVfpWords)) else t in
      let ss := {| ss_sp := word ws 2; ss_flags := s32 (word ws 3); ss_size := word ws 4 |} in
      let t := if (ss_flags ss =? 0) || (ss_flags ss =? kSsDisable) then with_mask t (sigmask t) ss else t in
      Ret (true, t)
  end.
End Signals.

(** ** Words in memory *)

Definition word_ok (w : Z) : Prop := 0 <= w < 2 ^ 32.

Lemma words_bytes_length ws : length (words_bytes ws) = (4 * length ws)%nat.
Proof. induction ws as [|w ws IH]; [done|]. unfold words_bytes in *. cbn [flat_map]. rewrite length_app, length_to_le, IH. cbn [length]. lia. Qed.

Lemma words_bytes_lookup ws k i w :
  ws !! k = Some w -> (i < 4)%nat -> words_bytes ws !! (4 * k + i)%nat = to_le 4 w !! i.
Proof.
  revert k. induction ws as [|w0 ws IH]; intros [|k] Hk Hi; [done|done|..]; unfold words_bytes; cbn [flat_map]; fold (words_bytes ws).
  - injection Hk as ->. rewrite lookup_app_l by (rewrite length_to_le; lia). done.
  - rewrite lookup_app_r by (rewrite length_to_le; lia). rewrite length_to_le. rewrite <- (IH k) by done. f_equal. lia.
Qed.

Lemma read_words_lookup m a n k : (k < n)%nat -> read_words m a n !! k = Some (le (map (fun i => u8 (bytes_ m (a + 4 * Z.of_nat k + Z.of_nat i))) (seq 0 4))).
Proof. intros Hk. unfold read_words. by rewrite list_lookup_fmap, lookup_seq_lt. Qed.

(** Reading back part of a stored list of words. *)
Lemma read_words_holds m a ws k n :
  holds m a (words_bytes ws) -> Forall word_ok ws -> (k + n <= length ws)%nat ->
  read_words m (a + 4 * Z.of_nat k) n = take n (drop k ws).
Proof.
  intros Hh Hok Hlen. apply list_eq. intros j. destruct (decide (j < n)%nat) as [Hj|Hj].
  - rewrite read_words_lookup, lookup_take_lt, lookup_drop by done.
    destruct (lookup_lt_is_Some_2 ws (k + j)) as [w Hw]; [lia|]. rewrite Hw. f_equal.
    assert (word_ok w) as Hww by (by eapply Forall_lookup_1 in Hok). rewrite <- (le_to_le 4 w) by exact Hww. f_equal.
    apply list_eq. intros i. rewrite list_lookup_fmap. destruct (decide (i < 4)%nat) as [Hi|Hi].
    + rewrite lookup_seq_lt by done. cbn [fmap option_fmap option_map]. destruct (lookup_lt_is_Some_2 (to_le 4 w) i) as [b Hb]; [by rewrite length_to_le|].
      rewrite Hb. f_equal. assert (0 <= b < 256) as Hbr by (eapply Forall_lookup_1 in Hb; [exact Hb|apply to_le_ok]).
      rewrite <- (words_bytes_lookup ws (k + j) i w) in Hb by done.
      transitivity (u8 b); [|by apply u8_small]. f_equal. rewrite <- (Hh _ _ Hb). f_equal. lia.
    + rewrite lookup_seq_ge, lookup_ge_None_2 by (rewrite ?length_to_le; lia). done.
  - rewrite lookup_take_ge by lia. apply lookup_ge_None. unfold read_words. rewrite length_map, length_seq. lia.
Qed.

Lemma holds_same m m' a bs : holds m a bs -> (forall x, a <= x < a + size bs -> bytes_ m' x = bytes_ m x) -> holds m' a bs.
Proof.
  intros Hh Hb i b Hi. rewrite Hb; [by apply Hh|]. apply lookup_lt_Some in Hi. unfold size. lia.
Qed.

(** ** Threads with values of their types *)

Section Typed.
Context {J : Type} `{JitLaws J}.

Definition stack_ok (s : stack32) : Prop := word_ok (ss_sp s) /\ word_ok (ss_size s) /\ - 2 ^ 31 <= ss_flags s < 2 ^ 31.

Record thread_ok (t : GuestThread J) : Prop := {
  to_regs : Forall word_ok (regs t);
  to_ext : Forall word_ok (ext_regs t);
  to_cpsr : word_ok (cpsr t);
  to_fpscr : word_ok (fpscr t);
  to_mask : 0 <= sigmask t < 2 ^ 64;
  to_alt : stack_ok (altstack t);
}.

Definition info_ok (info : siginfo32) : Prop := length (fields info) = 29%nat /\ Forall word_ok (fields info).

Definition action_ok (a : ksigaction32) : Prop := word_ok (handler a) /\ word_ok (flags a) /\ word_ok (restorer a) /\ word_ok (mask0 a) /\ word_ok (mask1 a).
Definition actions_ok (acts : list ksigaction32) : Prop := length acts = 65%nat /\ Forall action_ok acts.

Lemma regs_length (t : GuestThread J) : length (regs t) = 16%nat.
Proof. apply Regs_length. Qed.
Lemma ext_regs_length (t : GuestThread J) : length (ext_regs t) = 64%nat.
Proof. apply ExtRegs_length. Qed.

Lemma u32_word z : word_ok (u32 z).
Proof. apply u32_range. Qed.

(** The saved context has the size and the fields the frame needs. *)
Lemma saved_context_run t info alt_on on :
  info_ok info -> exists uc, saved_context t info alt_on on = Ret uc /\
    uc_regs uc = regs t /\ uc_cpsr uc = cpsr t /\ uc_sigmask uc = sigmask t /\ length (unused uc) = 30%nat /\
    uc_regspace uc = [kVfpFrameMagic] ++ ext_regs t ++ [fpscr t] ++ replicate 62 0 /\
    uc_stack uc = {| ss_sp := ss_sp (altstack t); ss_flags := if alt_on then (if on then kSsOnstack else 0) else kSsDisable; ss_size := ss_size (altstack t) |} /\
    (thread_ok t -> Forall word_ok (ucontext_words uc)).
Proof.
  intros [Hl Hf]. unfold saved_context.
  assert (exists fault, (if (si_signo info =? SIGSEGV) || (si_signo info =? SIGBUS) then vec_at (fields info) 0 else Ret 0) = Ret fault /\ word_ok fault) as (fault & -> & Hfault).
  { case_match; [|exists 0; split; [done|split; done]]. destruct (lookup_lt_is_Some_2 (fields info) 0) as [x Hx]; [lia|].
    exists x. unfold vec_at. rewrite Hx. split; [done|]. by eapply Forall_lookup_1 in Hf. }
  rewrite exec_ret_bind. eexists. split; [done|]. split_and!; try done. intros Ht. unfold ucontext_words. cbn [uc_flags uc_link uc_stack ss_sp ss_flags ss_size trap_no error_code oldmask uc_regs uc_cpsr fault_address uc_sigmask unused uc_regspace].
  destruct Ht as [H1 H2 H3 H4 H5 (H6 & H7 & H8)].
  assert (word_ok 0) as H00 by (split; done). assert (word_ok kVfpFrameMagic) by (split; done).
  assert (word_ok (Z.shiftr (sigmask t) 32)).
  { rewrite Z.shiftr_div_pow2 by done. split; [apply Z.div_pos; lia|apply Z.div_lt_upper_bound; lia]. }
  repeat first [apply Forall_app; split | apply Forall_cons; split | apply Forall_replicate | apply u32_word | apply Forall_nil; exact I | done].
Qed.

Lemma ucontext_words_length uc :
  length (uc_regs uc) = 16%nat -> length (unused uc) = 30%nat -> length (uc_regspace uc) = 128%nat -> length (ucontext_words uc) = 186%nat.
Proof. intros H1 H2 H3. unfold ucontext_words. rewrite !length_app, H1, H2, H3. done. Qed.

(** The handler's registers. *)
Definition handler_regs (old : list Z) (act : ksigaction32) (sig frame : Z) : list Z :=
  let rt := has_bits (flags act) kSaSiginfo in
  let r := <[0%nat := u32 sig]> old in
  let r := if rt then <[2%nat := u32 (frame + sizeof_siginfo32)]> (<[1%nat := frame]> r) else r in
  <[15%nat := Z.land (handler act) (u32 (Z.lnot 1))]>
    (<[14%nat := if has_bits (flags act) kSaRestorer then restorer act else 0]> (<[13%nat := frame]> r)).

(** The handler's signal mask. *)
Definition handler_mask (t : GuestThread J) (act : ksigaction32) (sig : Z) : Z :=
  let mask := Z.lor (Z.lor (sigmask t) (Z.shiftl (mask1 act) 32)) (mask0 act) in
  let mask := if negb (has_bits (flags act) kSaNodefer) then Z.lor mask (sig_bit sig) else mask in
  Z.land mask (u64 (Z.lnot kUnblockable)).

Lemma enter_handler_run t act sig frame :
  exists t', enter_handler t act sig frame = Ret t' /\ regs t' = handler_regs (regs t) act sig frame /\
    sigmask t' = handler_mask t act sig /\ altstack t' = altstack t /\ ext_regs t' = ext_regs t /\ fpscr t' = fpscr t /\
    pending_signals_ t' = pending_signals_ t /\ pending_info_ t' = pending_info_ t.
Proof.
  unfold enter_handler, handler_regs, handler_mask. cbv zeta.
  assert (forall (u : GuestThread J) i v, (i < 16)%nat -> regs (set_regs u (<[i := v]> (regs u))) = <[i := v]> (regs u)) as Hr.
  { intros u i v _. apply regs_set_regs. by rewrite length_insert, regs_length. }
  set (t0 := with_mask t _ _). assert (regs t0 = regs t) as E0 by done.
  rewrite set_reg_run, exec_ret_bind by lia. destruct (has_bits (flags act) kSaSiginfo).
  all: rewrite ?set_reg_run, ?exec_ret_bind by lia; repeat (rewrite set_reg_run, exec_ret_bind by lia).
  all: eexists; split; [reflexivity|]; unfold set_cpsr; unfold regs at 1; cbn [jit_ with_jit]; rewrite Regs_cpsr.
  all: change (Regs (jit_ ?x)) with (regs x); rewrite !Hr, E0 by lia.
  all: split_and!; try done; unfold ext_regs, fpscr; cbn [jit_ with_jit set_regs]; by rewrite ?ExtRegs_cpsr, ?ExtRegs_regs, ?Fpscr_cpsr, ?Fpscr_regs.
Qed.
End Typed.

(** ** What a signal does *)

Inductive fate := Kill | Ignore | Handle (act : ksigaction32).

Section Delivery.
Context {J : Type} `{JitLaws J}.

(** SIGKILL and SIGSTOP always kill here; a fault kills unless it can be handled now;
    otherwise the disposition decides. *)
Definition signal_fate (act : ksigaction32) (t : GuestThread J) (sig : Z) (forced : bool) : fate :=
  if decide (sig = SIGKILL \/ sig = SIGSTOP) then Kill
  else if decide (1 < handler act) then
    (if forced && Z.testbit (sigmask t) (sig - 1) then Kill else Handle act)
  else if forced then Kill
  else if decide (handler act = 1) then Ignore
  else if default_ignored sig then Ignore else Kill.

(** The table after the handler was chosen: a one-shot handler is gone. *)
Definition after_action (acts : list ksigaction32) (act : ksigaction32) (sig : Z) : list ksigaction32 :=
  if has_bits (flags act) kSaResethand
  then <[Z.to_nat sig := {| handler := kSigDfl; flags := Z.land (flags act) (u32 (Z.lnot kSaSiginfo)); restorer := restorer act;
                            mask0 := mask0 act; mask1 := mask1 act |}]> acts
  else acts.

Lemma has_sig_bit mask sig : 0 <= mask -> 1 <= sig <= 64 -> has_bits mask (sig_bit sig) = Z.testbit mask (sig - 1).
Proof.
  intros Hm Hs. unfold has_bits, sig_bit. destruct (Z.testbit mask (sig - 1)) eqn:E.
  - apply negb_true_iff, Z.eqb_neq. intros Hz. apply (f_equal (fun z => Z.testbit z (sig - 1))) in Hz.
    rewrite Z.land_spec, E, testbit_u64, testbit_pow2, Z.bits_0, bool_decide_true in Hz by lia. done.
  - apply negb_false_iff, Z.eqb_eq, Z.bits_inj'. intros k Hk. rewrite Z.land_spec, Z.bits_0.
    destruct (decide (k < 64)); [|by rewrite (testbit_above (u64 _) 64), andb_false_r by (apply u64_range || lia)].
    rewrite testbit_u64, testbit_pow2 by lia. case_bool_decide as Hks; [|by rewrite andb_false_r]. subst. by rewrite E.
Qed.

Lemma choose_action_fate acts t sig forced act :
  0 <= sigmask t -> 1 <= sig <= 64 -> length acts = 65%nat -> acts !! Z.to_nat sig = Some act -> word_ok (handler act) ->
  choose_action acts t sig forced =
  Ret match signal_fate act t sig forced with
      | Kill => inl false
      | Ignore => inl true
      | Handle act => inr (act, after_action acts act sig)
      end.
Proof.
  intros Ht Hs Hl Ha [Hh _]. unfold choose_action, vec_at, signal_fate, after_action, vec_set. rewrite Ha, exec_ret_bind. cbv zeta.
  rewrite has_sig_bit by done. rewrite (decide_True (P := (Z.to_nat sig < length acts)%nat)) by lia.
  unfold kSigIgn, kSigDfl. destruct (decide (sig = SIGKILL \/ sig = SIGSTOP)) as [Hk|Hk].
  { assert ((sig =? SIGKILL) || (sig =? SIGSTOP) = true) as -> by (apply orb_true_iff; rewrite !Z.eqb_eq; exact Hk). by case_match. }
  assert ((sig =? SIGKILL) || (sig =? SIGSTOP) = false) as ->.
  { apply orb_false_iff. rewrite !Z.eqb_neq. tauto. }
  destruct (decide (1 < handler act)) as [Hgt|Hle].
  - rewrite (proj2 (Z.ltb_lt 1 (handler act))) by done. rewrite (proj2 (Z.eqb_neq (handler act) 1)), (proj2 (Z.eqb_neq (handler act) 0)) by lia.
    cbn [negb orb]. destruct (forced && Z.testbit (sigmask t) (sig - 1)); [done|]. by case_match.
  - rewrite (proj2 (Z.ltb_ge 1 (handler act))) by lia. cbn [negb orb]. rewrite andb_true_r. destruct forced; [done|].
    destruct (decide (handler act = 1)) as [->|]; [done|]. rewrite (proj2 (Z.eqb_neq (handler act) 1)) by done.
    rewrite (proj2 (Z.eqb_eq (handler act) 0)) by lia. by destruct (default_ignored sig).
Qed.

(** The words of the frame a handler gets. *)
Definition frame_words (act : ksigaction32) (info : siginfo32) (uc : ucontext32) : list Z :=
  if has_bits (flags act) kSaSiginfo then rt_sigframe_words info uc else sigframe_words uc.
Definition frame_size (act : ksigaction32) : Z := if has_bits (flags act) kSaSiginfo then sizeof_rt_sigframe32 else sizeof_sigframe32.
Definition on_altstack (t : GuestThread J) (sp : Z) : bool := alt_enabled (altstack t) && (u32 (sp - ss_sp (altstack t)) <? ss_size (altstack t)).

Lemma frame_size_cases act :
  has_bits (flags act) kSaSiginfo = true /\ frame_size act = 888 \/ has_bits (flags act) kSaSiginfo = false /\ frame_size act = 760.
Proof. unfold frame_size. destruct (has_bits (flags act) kSaSiginfo); [by left|by right]. Qed.

Lemma frame_words_size act info uc : info_ok info -> length (ucontext_words uc) = 186%nat -> 4 * Z.of_nat (length (frame_words act info uc)) = frame_size act.
Proof.
  intros [Hi _] Hu. unfold frame_words, frame_size, rt_sigframe_words, sigframe_words, siginfo_words. case_match.
  - rewrite !length_app, Hu, Hi. done.
  - rewrite length_app, Hu. done.
Qed.

Lemma frame_address_range (t : GuestThread J) act sp : 0 <= frame_address t act sp < 2 ^ 32 /\ frame_address t act sp mod 8 = 0.
Proof.
  unfold frame_address. cbv zeta. set (v := u32 (_ - _)). assert (0 <= v < 2 ^ 32) as Hv by apply u32_range.
  assert (Z.land v (u32 (Z.lnot 7)) = v / 8 * 8) as -> by (apply (land_clear_low v 32 3); lia).
  pose proof (Z.mul_div_le v 8). pose proof (Z.div_pos v 8). split; [lia|]. apply Z.mod_mul. lia.
Qed.

(** Delivering to a handler whose frame can be written. *)
Lemma deliver_handle acts (t : GuestThread J) m info forced act sp :
  0 <= sigmask t -> info_ok info -> mem_wf m -> 1 <= si_signo info <= 64 -> length acts = 65%nat ->
  acts !! Z.to_nat (si_signo info) = Some act -> word_ok (handler act) -> signal_fate act t (si_signo info) forced = Handle act ->
  regs t !! 13%nat = Some sp ->
  let frame := frame_address t act sp in
  if accessible m frame (frame_size act) kPageWrite then
    exists uc t' m', saved_context t info (alt_enabled (altstack t)) (on_altstack t sp) = Ret uc /\
      deliver_signal acts t m info forced = Ret (true, after_action acts act (si_signo info), t', m') /\
      enter_handler t act (si_signo info) frame = Ret t' /\
      changes_within m m' frame (frame + frame_size act) /\ holds m' frame (words_bytes (frame_words act info uc))
  else deliver_signal acts t m info forced = Ret (false, after_action acts act (si_signo info), t, m).
Proof.
  intros Ht Hi Hm Hs Hl Ha Hw Hf Hsp frame. unfold deliver_signal. rewrite (proj2 (Z.ltb_ge (si_signo info) 1)), (proj2 (Z.ltb_ge 64 (si_signo info))) by lia.
  cbn [orb]. rewrite (choose_action_fate _ _ _ _ act) by done. rewrite Hf, exec_ret_bind. unfold vec_at. rewrite Hsp, exec_ret_bind. cbv zeta.
  fold (on_altstack t sp). fold (frame_size act). fold frame.
  destruct (saved_context_run t info (alt_enabled (altstack t)) (on_altstack t sp) Hi) as (uc & Euc & Hr & _ & _ & Hun & Hrs & _ & _).
  rewrite Euc, exec_ret_bind. unfold host_ptr. destruct (accessible m frame (frame_size act) kPageWrite) eqn:Eacc; [|done].
  assert (length (ucontext_words uc) = 186%nat) as Hlen.
  { apply ucontext_words_length; [by rewrite Hr, regs_length|done|]. rewrite Hrs, !length_app, ext_regs_length. done. }
  pose proof (frame_words_size act info uc Hi Hlen) as Hsz. pose proof (frame_address_range t act sp) as [Hfr _].
  fold (frame_words act info uc).
  assert (size (words_bytes (frame_words act info uc)) = frame_size act) as Hbs by (unfold size; rewrite words_bytes_length; lia).
  destruct (write_accessible m frame (words_bytes (frame_words act info uc))) as (m' & Em & Hch & Hho); [done|done| |by rewrite Hbs|].
  { rewrite Hbs. unfold frame_size. by case_match. }
  rewrite Em, exec_ret_bind. destruct (enter_handler_run t act (si_signo info) frame) as (t' & Et & _).
  rewrite Et, exec_ret_bind. exists uc, t', m'. rewrite Hbs in Hch. done.
Qed.
End Delivery.

(** ** Taking the frame down *)

(** The fields of a saved context, at their word offsets. *)
Lemma ucontext_fields uc space_rest f e :
  length (uc_regs uc) = 16%nat -> length (unused uc) = 30%nat -> length e = 64%nat ->
  uc_regspace uc = [kVfpFrameMagic] ++ e ++ [f] ++ space_rest ->
  let ws := ucontext_words uc in
  take 16 (drop 8 ws) = uc_regs uc /\ word ws 24 = uc_cpsr uc /\
  word ws 26 = u32 (uc_sigmask uc) /\ word ws 27 = Z.shiftr (uc_sigmask uc) 32 /\
  word ws 58 = kVfpFrameMagic /\ take 64 (drop 59 ws) = e /\ word ws 123 = f /\
  word ws 2 = ss_sp (uc_stack uc) /\ word ws 3 = u32 (ss_flags (uc_stack uc)) /\ word ws 4 = ss_size (uc_stack uc).
Proof.
  intros Hr Hu He Hs ws. set (l8 := [uc_flags uc; uc_link uc; ss_sp (uc_stack uc); u32 (ss_flags (uc_stack uc)); ss_size (uc_stack uc); trap_no uc; error_code uc; oldmask uc]).
  set (l4 := [uc_cpsr uc; fault_address uc; u32 (uc_sigmask uc); Z.shiftr (uc_sigmask uc) 32]).
  assert (ws = l8 ++ uc_regs uc ++ l4 ++ unused uc ++ [kVfpFrameMagic] ++ e ++ [f] ++ space_rest) as -> by (unfold ws, ucontext_words; by rewrite Hs).
  assert (forall i, word (l8 ++ uc_regs uc ++ l4 ++ unused uc ++ [kVfpFrameMagic] ++ e ++ [f] ++ space_rest) (24 + i) =
                    word (l4 ++ unused uc ++ [kVfpFrameMagic] ++ e ++ [f] ++ space_rest) i) as Hw.
  { intros i. unfold word. rewrite lookup_app_r by (cbn; lia). rewrite lookup_app_r by (rewrite Hr; cbn; lia). rewrite Hr. do 2 f_equal. cbn. lia. }
  assert (forall i, word (l4 ++ unused uc ++ [kVfpFrameMagic] ++ e ++ [f] ++ space_rest) (34 + i) = word ([kVfpFrameMagic] ++ e ++ [f] ++ space_rest) i) as Hw2.
  { intros i. unfold word. rewrite lookup_app_r by (cbn; lia). rewrite lookup_app_r by (rewrite Hu; cbn; lia). rewrite Hu. do 2 f_equal. cbn. lia. }
  split_and!.
  - rewrite drop_app_length' by done. by apply take_app_length'.
  - exact (Hw 0%nat).
  - exact (Hw 2%nat).
  - exact (Hw 3%nat).
  - etrans; [exact (Hw 34%nat)|]. exact (Hw2 0%nat).
  - rewrite (app_assoc l8), (app_assoc _ l4), (app_assoc _ (unused uc)), (app_assoc _ [kVfpFrameMagic]).
    rewrite drop_app_length' by (rewrite !length_app, Hr, Hu; done). by apply take_app_length'.
  - etrans; [exact (Hw 99%nat)|]. etrans; [exact (Hw2 65%nat)|]. unfold word. rewrite lookup_app_r by (cbn; lia). rewrite lookup_app_r by (rewrite He; cbn; lia). rewrite He. done.
  - done.
  - done.
  - done.
Qed.

Section Return.
Context {J : Type} `{JitLaws J}.

(** The alternate stack after sigreturn: untouched if the handler's frame was pushed
    while running on it. *)
Definition returned_altstack (t : GuestThread J) (sp : Z) (current : stack32) : stack32 :=
  if on_altstack t sp then current
  else {| ss_sp := ss_sp (altstack t); ss_flags := if alt_enabled (altstack t) then 0 else kSsDisable; ss_size := ss_size (altstack t) |}.

Lemma sigmask_join mask : 0 <= mask < 2 ^ 64 -> u32 mask + 2 ^ 32 * Z.shiftr mask 32 = mask.
Proof. intros. unfold u32. rewrite Z.shiftr_div_pow2 by done. pose proof (Z.div_mod mask (2 ^ 32)). lia. Qed.

Lemma clear_unblockable mask : Z.land mask kUnblockable = 0 -> 0 <= mask < 2 ^ 64 -> Z.land mask (u64 (Z.lnot kUnblockable)) = mask.
Proof.
  intros Hz Hm. apply Z.bits_inj'. intros k Hk. rewrite Z.land_spec. destruct (decide (k < 64)) as [Hlt|Hge].
  - rewrite testbit_u64, Z.lnot_spec by lia. apply (f_equal (fun z => Z.testbit z k)) in Hz. rewrite Z.land_spec, Z.bits_0 in Hz.
    destruct (Z.testbit mask k); [|done]. cbn in *. by rewrite Hz.
  - by rewrite (testbit_above mask 64) by lia.
Qed.

(** Returning through a saved context. *)
Lemma sigreturn_run (t : GuestThread J) info sp t2 m2 sp2 uc (rt : bool) :
  thread_ok t -> info_ok info -> Z.land (sigmask t) kUnblockable = 0 ->
  saved_context t info (alt_enabled (altstack t)) (on_altstack t sp) = Ret uc ->
  regs t2 !! 13%nat = Some sp2 ->
  let uc_addr := u32 (sp2 + (if rt then sizeof_siginfo32 else 0)) in
  accessible m2 uc_addr sizeof_ucontext32 kPageRead = true ->
  read_words m2 uc_addr 186 = ucontext_words uc ->
  exists t3, sigreturn t2 m2 rt = Ret (true, t3) /\ regs t3 = regs t /\ ext_regs t3 = ext_regs t /\ fpscr t3 = fpscr t /\
    sigmask t3 = sigmask t /\ altstack t3 = returned_altstack t sp (altstack t2) /\
    (Z.lor (Z.land (cpsr t) kCpsrUserRestorable) kCpsrUserMode = cpsr t -> cpsr t3 = cpsr t).
Proof.
  intros Ht Hi Hmask Huc Hsp2 uc_addr Hacc Hread.
  destruct (saved_context_run t info (alt_enabled (altstack t)) (on_altstack t sp) Hi) as (uc' & Euc & Hr & Hc & Hsm & Hun & Hrs & Hst & _).
  rewrite Huc in Euc. injection Euc as <-.
  destruct (ucontext_fields uc (replicate 62 0) (fpscr t) (ext_regs t)) as (F1 & F2 & F3 & F4 & F5 & F6 & F7 & F8 & F9 & F10);
    [by rewrite Hr, regs_length|done|apply ext_regs_length|done|].
  unfold sigreturn, vec_at. rewrite Hsp2, exec_ret_bind. unfold host_ptr. fold uc_addr. rewrite Hacc. cbv zeta. rewrite Hread.
  change (59 + kVfpWords)%nat with 123%nat. change kVfpWords with 64%nat.
  rewrite F1, F2, F3, F4, F5, F6, F7, F8, F9, F10, Hst. cbn [ss_sp ss_flags ss_size].
  rewrite Z.eqb_refl. rewrite Hsm, sigmask_join, clear_unblockable by (apply Ht || done). eexists. split; [reflexivity|].
  set (ss := if _ || _ then _ else _). set (fl := if alt_enabled _ then _ else _) in *.
  assert (jit_ ss = SetFpscr (fpscr t) (set_ExtRegs (ext_regs t) (SetCpsr (Z.lor (Z.land (uc_cpsr uc) kCpsrUserRestorable) kCpsrUserMode) (set_Regs (uc_regs uc) (jit_ t2))))) as Ej.
  { unfold ss. by case_match. }
  unfold regs, ext_regs, fpscr, cpsr. rewrite Ej. rewrite Regs_fpscr, Regs_ext, Regs_cpsr, Regs_set by (rewrite Hr; apply regs_length).
  rewrite ExtRegs_fpscr, ExtRegs_set by apply ext_regs_length. rewrite Cpsr_fpscr, Cpsr_ext. split_and!.
  - exact Hr.
  - done.
  - apply Fpscr_set.
  - unfold ss. by case_match.
  - unfold ss, returned_altstack. unfold on_altstack in *. subst fl. destruct (alt_enabled (altstack t)); cbn [andb]; [|done].
    by destruct (u32 (sp - ss_sp (altstack t)) <? ss_size (altstack t)).
  - intros Hcp. unfold cpsr in *. rewrite Hc, Hcp. apply Cpsr_set.
Qed.
End Return.

(** ** Dispatching terminates *)

Lemma filter_length_le {A} (P Q : A -> Prop) `{!forall x, Decision (P x), !forall x, Decision (Q x)} (l : list A) :
  (forall x, Q x -> P x) -> (length (filter Q l) <= length (filter P l))%nat.
Proof.
  intros HQP. induction l as [|x l IH]; [done|]. rewrite !filter_cons. repeat case_decide; cbn; try lia. exfalso. auto.
Qed.

Lemma filter_length_lt {A} (P Q : A -> Prop) `{!forall x, Decision (P x), !forall x, Decision (Q x)} (l : list A) a :
  (forall x, Q x -> P x) -> a ∈ l -> P a -> ~ Q a -> (length (filter Q l) < length (filter P l))%nat.
Proof.
  intros HQP Ha HP HQ. induction Ha as [a0 l0|a0 x l0 Ha IH]; rewrite !filter_cons.
  - rewrite (decide_True (P := P _)), (decide_False (P := Q _)) by done. cbn. pose proof (filter_length_le P Q l0 HQP). lia.
  - specialize (IH HP HQ). repeat case_decide; cbn; try lia. exfalso. auto.
Qed.

Section Dispatch.
Context {J : Type} `{JitLaws J}.

Record dispatch_ok (acts : list ksigaction32) (t : GuestThread J) (m : GuestMemory) : Prop := {
  do_queue : queue_ok t;
  do_mask : 0 <= sigmask t;
  do_infos : Forall info_ok (pending_info_ t);
  do_actions : actions_ok acts;
  do_memory : mem_wf m;
}.

(** How many signals are queued. *)
Definition queue_length (t : GuestThread J) : nat := length (filter (fun s => queued t s <> None) (seqZ 1 64)).

Lemma after_action_ok acts act sig : actions_ok acts -> action_ok act -> actions_ok (after_action acts act sig).
Proof.
  intros [Hl Ha] (H1 & H2 & H3 & H4 & H5). unfold after_action. case_match; [|by split]. split; [by rewrite length_insert|].
  apply Forall_insert; [done|]. split; [split; done|]. split; [|done]. apply (land_range _ _ 32); [lia|done|apply u32_range].
Qed.

Lemma regs_sp (t : GuestThread J) : exists sp, regs t !! 13%nat = Some sp.
Proof. apply lookup_lt_is_Some_2. rewrite regs_length. lia. Qed.

Lemma action_at acts sig : actions_ok acts -> 1 <= sig <= 64 -> exists act, acts !! Z.to_nat sig = Some act /\ action_ok act.
Proof.
  intros [Hl Ha] Hs. destruct (lookup_lt_is_Some_2 acts (Z.to_nat sig)) as [act E]; [lia|]. exists act. split; [done|]. by eapply Forall_lookup_1 in Ha.
Qed.

(** [deliver_signal] returns, and changes neither the queue nor the page table. *)
Lemma deliver_total acts t m info forced :
  dispatch_ok acts t m -> info_ok info ->
  exists r acts' t' m', deliver_signal acts t m info forced = Ret (r, acts', t', m') /\ dispatch_ok acts' t' m' /\
    pending_signals_ t' = pending_signals_ t /\ pending_info_ t' = pending_info_ t.
Proof.
  intros [Hq Hm Hin Hac Hmem] Hi. destruct (decide (1 <= si_signo info <= 64)) as [Hs|Hs].
  2: { unfold deliver_signal. assert ((si_signo info <? 1) || (64 <? si_signo info) = true) as -> by lia. by exists true, acts, t, m. }
  destruct (action_at acts (si_signo info) Hac Hs) as (act & Ea & Hact). destruct (regs_sp t) as [sp Hsp].
  assert (length acts = 65%nat) as Hl by apply Hac. assert (word_ok (handler act)) as Hw by apply Hact.
  pose proof (choose_action_fate acts t (si_signo info) forced act Hm Hs Hl Ea Hw) as Hch.
  destruct (signal_fate act t (si_signo info) forced) as [| |act'] eqn:Ef.
  1,2: unfold deliver_signal; rewrite (proj2 (Z.ltb_ge (si_signo info) 1)), (proj2 (Z.ltb_ge 64 (si_signo info))) by lia;
    cbn [orb]; rewrite Hch, exec_ret_bind; eexists _, acts, t, m; done.
  assert (act' = act) as -> by (unfold signal_fate in Ef; repeat case_match; congruence).
  pose proof (deliver_handle acts t m info forced act sp Hm Hi Hmem Hs Hl Ea Hw Ef Hsp) as Hd. cbv zeta in Hd.
  destruct (accessible m _ _ _).
  - destruct Hd as (uc & t' & m' & _ & E & Ee & Hcw & _). exists true, (after_action acts act (si_signo info)), t', m'. split; [done|].
    destruct (enter_handler_run t act (si_signo info) (frame_address t act sp)) as (t'' & Ee' & _ & Hmask & _ & _ & _ & Hp1 & Hp2).
    rewrite Ee in Ee'. injection Ee' as <-. split; [|done]. split; [|rewrite Hmask|rewrite Hp2; done|by apply after_action_ok|by eapply changes_within_wf].
    + destruct Hq as [? ?]. split; [by rewrite Hp1|by rewrite Hp2].
    + unfold handler_mask. apply Z.land_nonneg. right. apply u64_range.
  - eexists false, _, t, m. split; [done|]. split; [|done]. split; try done. by apply after_action_ok.
Qed.

Lemma dispatch_loop_total fuel acts t m :
  dispatch_ok acts t m -> (queue_length t < fuel)%nat ->
  exists status acts' t' m', dispatch_loop fuel acts t m = Ret (Some (status, acts', t', m')) /\ dispatch_ok acts' t' m' /\
    (status = None -> has_pending_signals t' (sigmask t') = false).
Proof.
  revert acts t m. induction fuel as [|fuel IH]; intros acts t m Hok Hlen; [lia|]. cbn [dispatch_loop].
  destruct (take_signal_queue [] t (sigmask t) (do_queue _ _ _ Hok) (Forall_nil_2 _)) as (r & t1 & E & Hq1 & Hr).
  assert (sigmask t1 = sigmask t /\ pending_info_ t1 = pending_info_ t) as [Em1 Ei1].
  { cbn [take_signal_loop] in E. destruct (_ =? 0); [by injection E as <- <-|]. apply exec_bind_Ret in E as (o & _ & E). by injection E as <- <-. }
  unfold take_signal. rewrite E, exec_ret_bind. cbv beta iota. destruct r as [info|].
  - destruct Hr as (sig & Hqs & _ & _ & Hq'). assert (info_ok info) as Hi.
    { unfold queued in Hqs. repeat case_match; try done. destruct Hok as [_ _ Hin _ _]. by eapply Forall_lookup_1 in Hin. }
    destruct (deliver_total acts t1 m info false) as (ok & acts2 & t2 & m2 & Ed & Hok2 & Hp & Hpi); [|done|].
    { destruct Hok. split; [done|by rewrite Em1|by rewrite Ei1|done..]. }
    rewrite Ed, exec_ret_bind. cbv beta iota. destruct (negb ok).
    + by eexists _, acts2, t2, m2.
    + apply IH; [done|]. enough (queue_length t2 < queue_length t)%nat by lia. unfold queue_length.
      assert (forall s, queued t2 s = queued t1 s) as Hq2 by (intros s; unfold queued; by rewrite Hp, Hpi).
      apply (filter_length_lt _ _ _ sig).
      * intros s. rewrite Hq2, Hq'. by case_decide.
      * apply elem_of_seqZ. unfold queued in Hqs. case_decide; [lia|done].
      * by rewrite Hqs.
      * rewrite Hq2, Hq', decide_True by done. tauto.
  - destruct Hr as (-> & p & Hp & Hnone). cbn in Hp. apply list_elem_of_singleton in Hp as ->. exists None, acts, t, m. split; [done|]. split; [done|]. intros _.
    unfold has_pending_signals. apply negb_false_iff, Z.eqb_eq. apply deliverable_zero; [apply Hok|done].
Qed.
End Dispatch.

(** ** The process signal target *)

(** [g_process_signal_target] and [g_target_readers] are shared by forwarding signal
    handlers, which may run on any host thread at any time, and by the owners that
    publish and retire a guest thread.  Each atomic access is one step.  Guest
    threads are numbers; [None] is the null pointer. *)
Module Target.

(** Where a handler is: it has counted itself, or has loaded the target and posts to it. *)
Inductive phase := Counted | Posting (target : option Z).

(** [waiting]: threads between the exchange and the end of the wait in
    [clear_process_signal_target].  [retired]: threads that were cleared, whose
    owners may free them. *)
Record state := {
  target : option Z;
  readers : Z;
  handlers : gmap Z phase;
  waiting : gset Z;
  retired : gset Z;
}.

Definition init : state := {| target := None; readers := 0; handlers := ∅; waiting := ∅; retired := ∅ |}.

(** The atomic accesses of [forward_host_signal]. *)
Definition handler_enter (s : state) (h : Z) : state :=
  {| target := target s; readers := u32 (readers s + 1); handlers := <[h := Counted]> (handlers s); waiting := waiting s; retired := retired s |}.
Definition handler_load (s : state) (h : Z) : state :=
  {| target := target s; readers := readers s; handlers := <[h := Posting (target s)]> (handlers s); waiting := waiting s; retired := retired s |}.
Definition handler_leave (s : state) (h : Z) : state :=
  {| target := target s; readers := u32 (readers s - 1); handlers := delete h (handlers s); waiting := waiting s; retired := retired s |}.

(** [set_process_signal_target]. *)
Definition set_target (s : state) (t : Z) : state :=
  {| target := Some t; readers := readers s; handlers := handlers s; waiting := waiting s; retired := retired s |}.

(** [clear_process_signal_target]: the exchange, which returns at once when [t] is
    not the target, and the end of the wait. *)
Definition clear_exchange (s : state) (t : Z) : state :=
  if decide (target s = Some t)
  then {| target := None; readers := readers s; handlers := handlers s; waiting := {[t]} ∪ waiting s; retired := retired s |}
  else {| target := target s; readers := readers s; handlers := handlers s; waiting := waiting s; retired := {[t]} ∪ retired s |}.
Definition clear_finish (s : state) (t : Z) : state :=
  {| target := target s; readers := readers s; handlers := handlers s; waiting := waiting s ∖ {[t]}; retired := {[t]} ∪ retired s |}.

(** Any interleaving of at most [2^32 - 1] handlers.  An owner publishes only while
    nothing is published, and clears its own thread once. *)
Inductive step (s : state) : state -> Prop :=
| st_enter h : handlers s !! h = None -> Z.of_nat (base.size (handlers s)) < 2 ^ 32 - 1 -> step s (handler_enter s h)
| st_load h : handlers s !! h = Some Counted -> step s (handler_load s h)
| st_leave h t : handlers s !! h = Some (Posting t) -> step s (handler_leave s h)
| st_set t : target s = None -> t ∉ retired s -> t ∉ waiting s -> step s (set_target s t)
| st_clear t : t ∉ waiting s -> t ∉ retired s -> step s (clear_exchange s t)
| st_finish t : t ∈ waiting s -> readers s = 0 -> step s (clear_finish s t).

(** The counter is the number of handlers; a handler posts only to the target or to
    a thread still being waited for; a retired thread is neither. *)
Record inv (s : state) : Prop := {
  inv_count : readers s = Z.of_nat (base.size (handlers s));
  inv_bound : Z.of_nat (base.size (handlers s)) < 2 ^ 32;
  inv_held : forall h t, handlers s !! h = Some (Posting (Some t)) -> target s = Some t \/ t ∈ waiting s;
  inv_target : forall t, target s = Some t -> t ∉ waiting s /\ t ∉ retired s;
  inv_waiting : forall t, t ∈ waiting s -> t ∉ retired s;
}.

Lemma init_inv : inv init.
Proof. split; cbn; try done. Qed.

Lemma step_inv s s' : step s s' -> inv s -> inv s'.
Proof.
  intros Hstep [Hc Hb Hh Ht Hw]. destruct Hstep as [h Hn Hlt|h Hl|h t Hp|t Hnone Hr Hnw|t Hnw Hr|t Hin Hz].
  - split; cbn; try done.
    + rewrite map_size_insert_None by done. rewrite Hc. rewrite u32_small by lia. lia.
    + rewrite map_size_insert_None by done. lia.
    + intros h' t [[<- [=]]|[_ Hl]]%lookup_insert_Some. by eapply Hh.
  - split; cbn; try done.
    + rewrite map_size_insert_Some by eauto. done.
    + rewrite map_size_insert_Some by eauto. done.
    + intros h' t [[<- [= Ht']]|[_ Hl']]%lookup_insert_Some; [by left|by eapply Hh].
  - pose proof (map_size_delete_Some h (handlers s) (ex_intro _ _ Hp)) as Hs.
    assert (base.size (handlers s) <> 0)%nat by (apply map_size_ne_0_lookup; eauto). split; cbn; try done.
    + rewrite Hc, Hs, u32_small by lia. lia.
    + lia.
    + intros h' t' [_ Hl]%lookup_delete_Some. by eapply Hh.
  - split; cbn; try done.
    + intros h t' Hl. destruct (Hh h t' Hl) as [E|]; [congruence|by right].
    + intros t' [= <-]. done.
  - unfold clear_exchange. case_decide as Htt.
    + split; cbn; try done.
      * intros h t' Hl. right. destruct (Hh h t' Hl) as [E|]; [|set_solver]. assert (t' = t) by congruence. set_solver.
      * intros t' [->%elem_of_singleton|Hin]%elem_of_union; [by apply Ht|by apply Hw].
    + split; cbn; try done.
      * intros t' E. destruct (Ht t' E). split; [done|]. set_solver.
      * intros t' Hin. pose proof (Hw t' Hin). set_solver.
  - assert (base.size (handlers s) = 0%nat) as Hz0 by lia. apply map_size_empty_inv in Hz0. split; cbn; try done.
    + intros h t' Hl. rewrite Hz0, lookup_empty in Hl. done.
    + intros t' E. destruct (Ht t' E). set_solver.
    + intros t' Hin'. pose proof (Hw t'). set_solver.
Qed.

Lemma reachable_inv s : rtc step init s -> inv s.
Proof.
  intros Hs. assert (forall s s', rtc step s s' -> inv s -> inv s') as Hr by (induction 1; eauto using step_inv).
  exact (Hr _ _ Hs init_inv).
Qed.
End Target.

(** ** Claims *)

(** C8: delivering a signal to a handler and returning from it is the identity.  Let
    the handler run and change any registers, memory and mask, as long as it leaves its
    frame alone and returns with the stack pointer it was entered with: sigreturn
    then restores all sixteen core registers, the extension registers, FPSCR, the
    signal mask and the alternate stack, and CPSR if it held user-mode bits. *)
Theorem signal_roundtrip {J} `{JitLaws J} acts (t : GuestThread J) m info forced act sp :
  thread_ok t -> info_ok info -> mem_wf m -> actions_ok acts -> Z.land (sigmask t) kUnblockable = 0 ->
  acts !! Z.to_nat (si_signo info) = Some act -> 1 <= si_signo info <= 64 ->
  signal_fate act t (si_signo info) forced = Handle act -> regs t !! 13%nat = Some sp ->
  let frame := frame_address t act sp in
  let rt := has_bits (flags act) kSaSiginfo in
  accessible m frame (frame_size act) kPageWrite = true ->
  exists acts' t1 m1, deliver_signal acts t m info forced = Ret (true, acts', t1, m1) /\ regs t1 !! 13%nat = Some frame /\
    forall t2 m2, regs t2 !! 13%nat = Some frame ->
      (forall x, frame <= x < frame + frame_size act -> bytes_ m2 x = bytes_ m1 x) ->
      accessible m2 (frame + (if rt then sizeof_siginfo32 else 0)) sizeof_ucontext32 kPageRead = true ->
      exists t3, sigreturn t2 m2 rt = Ret (true, t3) /\ regs t3 = regs t /\ ext_regs t3 = ext_regs t /\ fpscr t3 = fpscr t /\
        sigmask t3 = sigmask t /\ altstack t3 = returned_altstack t sp (altstack t2) /\
        (Z.lor (Z.land (cpsr t) kCpsrUserRestorable) kCpsrUserMode = cpsr t -> cpsr t3 = cpsr t).
Proof.
  intros Ht Hi Hm Hac Hmask Ea Hs Hf Hsp frame rt Hacc. destruct Hac as [Hl Hac].
  assert (action_ok act) as Hact by (by eapply Forall_lookup_1 in Hac).
  assert (0 <= sigmask t) as Hmk by apply Ht.
  pose proof (deliver_handle acts t m info forced act sp Hmk Hi Hm Hs Hl Ea (proj1 Hact) Hf Hsp) as Hd. cbv zeta in Hd. fold frame in Hd.
  rewrite Hacc in Hd. destruct Hd as (uc & t1 & m1 & Euc & Ed & Ee & _ & Hho).
  exists (after_action acts act (si_signo info)), t1, m1. split; [done|]. split.
  { destruct (enter_handler_run t act (si_signo info) frame) as (t' & Ee' & Hr & _). rewrite Ee in Ee'. injection Ee' as <-.
    rewrite Hr. unfold handler_regs. rewrite list_lookup_insert_ne, list_lookup_insert_ne by lia. apply list_lookup_insert_eq.
    case_match; rewrite ?length_insert, regs_length; lia. }
  intros t2 m2 Hsp2 Hsame Hacc2.
  destruct (saved_context_run t info (alt_enabled (altstack t)) (on_altstack t sp) Hi) as (uc' & Euc' & Hr & _ & _ & Hun & Hrs & _ & Hwords).
  rewrite Euc in Euc'. injection Euc' as <-. specialize (Hwords Ht).
  assert (length (ucontext_words uc) = 186%nat) as Hlen.
  { apply ucontext_words_length; [by rewrite Hr, regs_length|done|]. rewrite Hrs, !length_app, ext_regs_length. done. }
  assert (Forall word_ok (frame_words act info uc)) as Hfw.
  { unfold frame_words, rt_sigframe_words, sigframe_words, siginfo_words. destruct Hi as [_ Hfi].
    destruct (has_bits (flags act) kSaSiginfo); repeat first [exact Hwords | apply Forall_app; split | apply Forall_cons; split | apply Forall_replicate | apply u32_word | apply Forall_nil; exact I | done | by split]. }
  pose proof (frame_words_size act info uc Hi Hlen) as Hsz.
  assert (holds m2 frame (words_bytes (frame_words act info uc))) as Hho2.
  { apply (holds_same m1); [done|]. intros x Hx. apply Hsame. unfold size in Hx. rewrite words_bytes_length in Hx. lia. }
  pose proof (frame_address_range t act sp) as [Hfr _]. fold frame in Hfr.
  set (k := if rt then 32%nat else 0%nat). assert ((if rt then sizeof_siginfo32 else 0) = 4 * Z.of_nat k) as Ek by (unfold k; by destruct rt).
  pose proof (frame_size_cases act) as Hfs. fold rt in Hfs.
  apply accessible_pages in Hacc as Hend; [|lia..]. destruct Hend as [Hend|[Hend _]]; [lia|].
  assert (u32 (frame + (if rt then sizeof_siginfo32 else 0)) = frame + 4 * Z.of_nat k) as Eu.
  { rewrite Ek. apply u32_small. unfold k. destruct Hfs as [[-> ?]|[-> ?]]; lia. }
  apply (sigreturn_run t info sp t2 m2 frame uc rt); try done; rewrite Eu; [by rewrite <- Ek|].
  rewrite (read_words_holds m2 frame (frame_words act info uc) k 186 Hho2 Hfw).
  - unfold frame_words, k, rt. destruct (has_bits (flags act) kSaSiginfo).
    + unfold rt_sigframe_words. rewrite drop_app_length' by (unfold siginfo_words; rewrite length_app, (proj1 Hi); done). by apply take_app_length'.
    + unfold sigframe_words. by apply take_app_length'.
  - unfold k. destruct Hfs as [[-> ?]|[-> ?]]; lia.
Qed.

(** [deliver_signal] on every branch.  It returns, does nothing to a signal
    number out of range, and otherwise does what the disposition says ([signal_fate]):
    kill and ignore change nothing; a handler gets an 8-aligned frame on the stack the
    action asks for, written if and only if it can be, nothing else in memory changes,
    the handler's registers and mask are set, and a one-shot action is reset. *)
Theorem deliver_signal_exact {J} `{JitLaws J} acts (t : GuestThread J) m info forced sp :
  0 <= sigmask t -> info_ok info -> mem_wf m -> actions_ok acts -> regs t !! 13%nat = Some sp ->
  exists r acts' t' m', deliver_signal acts t m info forced = Ret (r, acts', t', m') /\
    let same := acts' = acts /\ t' = t /\ m' = m in
    (~ 1 <= si_signo info <= 64 -> r = true /\ same) /\
    (1 <= si_signo info <= 64 -> exists act, acts !! Z.to_nat (si_signo info) = Some act /\
       match signal_fate act t (si_signo info) forced with
       | Kill => r = false /\ same
       | Ignore => r = true /\ same
       | Handle _ =>
           let frame := frame_address t act sp in
           frame mod 8 = 0 /\ acts' = after_action acts act (si_signo info) /\
           r = accessible m frame (frame_size act) kPageWrite /\
           (r = false -> t' = t /\ m' = m) /\
           (r = true -> changes_within m m' frame (frame + frame_size act) /\
              regs t' = handler_regs (regs t) act (si_signo info) frame /\ sigmask t' = handler_mask t act (si_signo info) /\
              altstack t' = altstack t /\ ext_regs t' = ext_regs t /\ fpscr t' = fpscr t)
       end).
Proof.
  intros Hmk Hi Hm Hac Hsp. destruct (decide (1 <= si_signo info <= 64)) as [Hs|Hs].
  2: { unfold deliver_signal. assert ((si_signo info <? 1) || (64 <? si_signo info) = true) as -> by lia. exists true, acts, t, m. by split_and!. }
  destruct (action_at acts (si_signo info) Hac Hs) as (act & Ea & Hact). destruct Hac as [Hl Hac].
  pose proof (choose_action_fate acts t (si_signo info) forced act Hmk Hs Hl Ea (proj1 Hact)) as Hch.
  destruct (signal_fate act t (si_signo info) forced) as [| |act'] eqn:Ef.
  1,2: unfold deliver_signal; rewrite (proj2 (Z.ltb_ge (si_signo info) 1)), (proj2 (Z.ltb_ge 64 (si_signo info))) by lia;
    cbn [orb]; rewrite Hch, exec_ret_bind; eexists _, acts, t, m; split; [done|]; split; [done|]; intros _; exists act; rewrite Ef; by split_and!.
  assert (act' = act) as -> by (unfold signal_fate in Ef; repeat case_match; congruence).
  pose proof (deliver_handle acts t m info forced act sp Hmk Hi Hm Hs Hl Ea (proj1 Hact) Ef Hsp) as Hd. cbv zeta in Hd.
  destruct (accessible m _ _ _) eqn:Eacc.
  - destruct Hd as (uc & t' & m' & _ & E & Ee & Hcw & _). destruct (enter_handler_run t act (si_signo info) (frame_address t act sp)) as (t'' & Ee' & Hr & Hmask & Halt & Hext & Hfp & _).
    rewrite Ee in Ee'. injection Ee' as <-. eexists true, _, t', m'. split; [done|]. split; [done|]. intros _. exists act. cbv zeta. rewrite Ef, Eacc.
    split; [done|]. split; [apply frame_address_range|]. by split_and!.
  - eexists false, _, t, m. split; [done|]. split; [done|]. intros _. exists act. cbv zeta. rewrite Ef, Eacc. split; [done|]. split; [apply frame_address_range|]. by split_and!.
Qed.

(** C19: [dispatch_pending_signals] always returns: 65 rounds are enough for the 64
    signals that can be pending.  If the process goes on, no unblocked signal is left. *)
Theorem dispatch_terminates {J} `{JitLaws J} acts (t : GuestThread J) m :
  dispatch_ok acts t m ->
  exists status acts' t' m', dispatch_pending_signals acts t m = Ret (Some (status, acts', t', m')) /\ dispatch_ok acts' t' m' /\
    (status = None -> has_pending_signals t' (sigmask t') = false).
Proof.
  intros Hok. apply dispatch_loop_total; [done|]. unfold queue_length.
  pose proof (length_filter (fun s => queued t s <> None) (seqZ 1 64)). rewrite length_seqZ in *. lia.
Qed.

(** once [clear_process_signal_target] has returned for a guest thread, no
    forwarding handler on any host thread holds it or ever gets it again, under every
    interleaving of handlers and owners, so its owner may free it. *)
Theorem retired_target_unreachable s s' t :
  rtc Target.step Target.init s -> t ∈ Target.retired s -> rtc Target.step s s' ->
  Target.target s' <> Some t /\ forall h, Target.handlers s' !! h <> Some (Target.Posting (Some t)).
Proof.
  intros Hs Ht Hs'. assert (t ∈ Target.retired s') as Ht'.
  { clear Hs. induction Hs' as [|s1 s2 s3 H12 _ IH]; [done|]. apply IH. clear -H12 Ht.
    destruct H12; cbn; try done; [|set_solver]. unfold Target.clear_exchange. case_decide; cbn; set_solver. }
  assert (Target.inv s') as [_ _ Hh Htg Hw] by (apply Target.reachable_inv; by etrans).
  split; [intros E; by destruct (Htg t E)|]. intros h Hl. destruct (Hh h t Hl) as [E|E]; [by destruct (Htg t E)|by destruct (Hw t E)].
Qed.

(** ** Witnesses *)

#[local] Existing Instance sample_Jit.
#[local] Existing Instance sample_JitLaws.

(** SIGUSR1 has a one-shot handler with SA_SIGINFO; everything else is at its default. *)
Definition sample_action : ksigaction32 := {| handler := 0x8001; flags := Z.lor kSaSiginfo kSaResethand; restorer := 0; mask0 := 1; mask1 := 0 |}.
Definition sample_actions : list ksigaction32 :=
  <[10%nat := sample_action]> (replicate 65 {| handler := 0; flags := 0; restorer := 0; mask0 := 0; mask1 := 0 |}).

Lemma sample_actions_ok : actions_ok sample_actions.
Proof.
  split; [reflexivity|]. apply Forall_insert; [apply Forall_replicate|]; repeat split; vm_compute; congruence.
Qed.

Lemma sample_info_ok n : info_ok (sample_info n).
Proof. split; [reflexivity|]. apply Forall_replicate. split; lia. Qed.

Lemma sample_thread_ok : thread_ok sample_thread.
Proof.
  split.
  - repeat (apply Forall_cons; split; [split; cbn; lia|]). apply Forall_nil. exact I.
  - apply Forall_replicate. split; lia.
  - split; cbn; lia.
  - split; cbn; lia.
  - cbn. lia.
  - repeat split; cbn; lia.
Qed.

Lemma signal_roundtrip_witness :
  exists acts' t1 m1 t3, deliver_signal sample_actions sample_thread sample_memory (sample_info 10) false = Ret (true, acts', t1, m1) /\
    sigreturn t1 m1 true = Ret (true, t3) /\ regs t3 = regs sample_thread /\ cpsr t3 = cpsr sample_thread.
Proof.
  destruct (signal_roundtrip sample_actions sample_thread sample_memory (sample_info 10) false sample_action 0x11000) as (acts' & t1 & m1 & Ed & Hsp & Hret).
  - exact sample_thread_ok.
  - exact (sample_info_ok 10).
  - exact sample_memory_wf.
  - exact sample_actions_ok.
  - reflexivity.
  - reflexivity.
  - cbn. lia.
  - reflexivity.
  - reflexivity.
  - vm_compute. reflexivity.
  - destruct (Hret t1 m1) as (t3 & E & Hr & _ & _ & _ & _ & Hc); [exact Hsp|reflexivity| |].
    + assert (pages_ m1 = pages_ sample_memory) as Hp.
      { destruct (deliver_handle sample_actions sample_thread sample_memory (sample_info 10) false sample_action 0x11000) as (uc & t' & m' & _ & E & _ & Hcw & _);
          [cbn; lia|exact (sample_info_ok 10)|exact sample_memory_wf|cbn; lia|reflexivity|reflexivity|split; cbn; lia|reflexivity|reflexivity|].
        rewrite Ed in E. injection E as _ _ ->. apply Hcw. }
      rewrite (accessible_same sample_memory m1) by exact Hp. vm_compute. reflexivity.
    + exists acts', t1, m1, t3. split; [exact Ed|]. split; [exact E|]. split; [exact Hr|]. apply Hc. reflexivity.
Defined.

Lemma deliver_signal_exact_witness :
  exists acts' t' m', deliver_signal sample_actions sample_thread sample_memory (sample_info 9) true = Ret (false, acts', t', m') /\ m' = sample_memory.
Proof.
  destruct (deliver_signal_exact sample_actions sample_thread sample_memory (sample_info 9) true 0x11000) as (r & acts' & t' & m' & E & _ & H).
  - cbn. lia.
  - exact (sample_info_ok 9).
  - exact sample_memory_wf.
  - exact sample_actions_ok.
  - reflexivity.
  - destruct H as (act & Ha & Hf); [cbn; lia|]. vm_compute in Ha. injection Ha as <-.
    destruct Hf as (-> & _ & _ & ->). exists acts', t', sample_memory. split; [exact E|reflexivity].
Defined.

Lemma dispatch_terminates_witness :
  exists status acts' t' m', dispatch_pending_signals sample_actions sample_thread sample_memory = Ret (Some (status, acts', t', m')) /\
    (status = None -> has_pending_signals t' (sigmask t') = false).
Proof.
  destruct (dispatch_terminates sample_actions sample_thread sample_memory) as (status & acts' & t' & m' & E & _ & H).
  - split; [split; [cbn; lia|reflexivity]|cbn; lia| |exact sample_actions_ok|exact sample_memory_wf].
    apply Forall_replicate. split; [reflexivity|]. apply Forall_replicate. split; lia.
  - exists status, acts', t', m'. split; [exact E|exact H].
Defined.

(** A handler that entered before thread 7 was cleared leaves first. *)
Definition sample_retired : Target.state :=
  Target.clear_finish (Target.handler_leave (Target.handler_load (Target.clear_exchange (Target.handler_enter (Target.set_target Target.init 7) 1) 7) 1) 1) 7.

Lemma retired_target_unreachable_witness :
  Target.target sample_retired <> Some 7 /\ forall h, Target.handlers sample_retired !! h <> Some (Target.Posting (Some 7)).
Proof.
  apply (retired_target_unreachable sample_retired sample_retired 7).
  - eapply rtc_l; [apply (Target.st_set _ 7); [reflexivity|apply (bool_decide_unpack _); vm_compute; exact I|apply (bool_decide_unpack _); vm_compute; exact I]|].
    eapply rtc_l; [apply (Target.st_enter _ 1); [reflexivity|vm_compute; reflexivity]|].
    eapply rtc_l; [apply (Target.st_clear _ 7); apply (bool_decide_unpack _); vm_compute; exact I|].
    eapply rtc_l; [apply (Target.st_load _ 1); reflexivity|].
    eapply rtc_l; [eapply (Target.st_leave _ 1); reflexivity|].
    apply rtc_once, Target.st_finish; [apply (bool_decide_unpack _); vm_compute; exact I|reflexivity].
  - apply (bool_decide_unpack _). vm_compute. exact I.
  - apply rtc_refl.
Defined.
