(* ===== verification/ProcessMemory.v ===== *)
(** * Memory system calls

    The parts of [core/src/process.cpp] that record what guest memory holds (file
    mappings, text-relocation windows, which pages may become executable) and the
    system calls of [core/src/syscalls.cpp] that change guest memory: brk, mmap2,
    munmap, mprotect, madvise.  They run under [mm_mutex], so a history is a sequence
    of whole calls.

    What the host answers is a parameter: [grants] for mappings, [errno] after a
    failed one, and for a descriptor whether the file behind it may be executed
    ([guest_executable_allowed], modelled in [Paths]), its textrel marker and its name.
    [invalidated] records the ranges whose translated code was dropped. *)

From stdpp Require Import numbers list.
From S2P Require Import Prelude Bytes GuestMemory.
Local Open Scope Z_scope.
Local Ltac Zify.zify_post_hook ::= Z.div_mod_to_equations.

Definition EACCES : Z := 13.
Definition EEXIST : Z := 17.
Definition EINVAL : Z := 22.
Definition ENOEXEC : Z := 8.
Definition ENOMEM : Z := 12.
Definition MAP_FIXED_NOREPLACE : Z := 0x100000.

(** ** State *)

Record FileMapping := { fm_start : Z; fm_length : Z; fm_offset : Z; fm_path : list Z; offset_is_vaddr : bool }.
Record TextrelRange := { tr_start : Z; tr_length : Z; original_prot : Z }.

Record Process := {
  mem_ : GuestMemory;
  brk_start : Z;
  brk_current : Z;
  mmap_limit : Z;
  exec_eligible_ : Z -> bool;     (** of page [i], [0 <= i < 2^20] *)
  file_mappings_ : list FileMapping;
  textrel_ranges_ : list TextrelRange;
  invalidated : list (Z * Z);
}.

Definition kMmapLimit : Z := 0xFE000000.

(** A process before [run]. *)
Definition Process_init : Process :=
  {| mem_ := GuestMemory_init true; brk_start := 0; brk_current := 0; mmap_limit := kMmapLimit; exec_eligible_ := fun _ => true;
     file_mappings_ := []; textrel_ranges_ := []; invalidated := [] |}.

Definition with_mem (p : Process) (m : GuestMemory) : Process :=
  {| mem_ := m; brk_start := brk_start p; brk_current := brk_current p; mmap_limit := mmap_limit p; exec_eligible_ := exec_eligible_ p;
     file_mappings_ := file_mappings_ p; textrel_ranges_ := textrel_ranges_ p; invalidated := invalidated p |}.

Definition with_brk (p : Process) (b : Z) : Process :=
  {| mem_ := mem_ p; brk_start := brk_start p; brk_current := b; mmap_limit := mmap_limit p; exec_eligible_ := exec_eligible_ p;
     file_mappings_ := file_mappings_ p; textrel_ranges_ := textrel_ranges_ p; invalidated := invalidated p |}.

(** [invalidate] on every thread. *)
Definition invalidate (p : Process) (addr len : Z) : Process :=
  {| mem_ := mem_ p; brk_start := brk_start p; brk_current := brk_current p; mmap_limit := mmap_limit p; exec_eligible_ := exec_eligible_ p;
     file_mappings_ := file_mappings_ p; textrel_ranges_ := textrel_ranges_ p; invalidated := (addr, len) :: invalidated p |}.

(** ** Bookkeeping *)

Definition overlaps (start length a n : Z) : bool := (a <? start + length) && (start <? a + n).

Definition forget_mappings (p : Process) (start length : Z) : Process :=
  {| mem_ := mem_ p; brk_start := brk_start p; brk_current := brk_current p; mmap_limit := mmap_limit p; exec_eligible_ := exec_eligible_ p;
     file_mappings_ := filter (fun m => overlaps start length (fm_start m) (fm_length m) = false) (file_mappings_ p);
     textrel_ranges_ := filter (fun r => overlaps start length (tr_start r) (tr_length r) = false) (textrel_ranges_ p);
     invalidated := invalidated p |}.

Definition record_file_mapping (p : Process) (start length offset : Z) (path : list Z) (vaddr : bool) : Process :=
  let p := forget_mappings p start length in
  {| mem_ := mem_ p; brk_start := brk_start p; brk_current := brk_current p; mmap_limit := mmap_limit p; exec_eligible_ := exec_eligible_ p;
     file_mappings_ := file_mappings_ p ++ [{| fm_start := start; fm_length := length; fm_offset := offset; fm_path := path; offset_is_vaddr := vaddr |}];
     textrel_ranges_ := textrel_ranges_ p; invalidated := invalidated p |}.

(** The first mapping that holds [addr], with the offset (or vaddr) of [addr] in it. *)
Fixpoint describe_in (ms : list FileMapping) (addr : Z) : option (list Z * bool * Z) :=
  match ms with
  | [] => None
  | m :: ms =>
      if (fm_start m <=? addr) && (u32 (addr - fm_start m) <? fm_length m)
      then Some (fm_path m, offset_is_vaddr m, u64 (fm_offset m + u32 (addr - fm_start m))) else describe_in ms addr
  end.
Definition describe_address (p : Process) (addr : Z) : option (list Z * bool * Z) := describe_in (file_mappings_ p) addr.

Definition add_textrel_range (p : Process) (start length prot : Z) : Process :=
  {| mem_ := mem_ p; brk_start := brk_start p; brk_current := brk_current p; mmap_limit := mmap_limit p; exec_eligible_ := exec_eligible_ p;
     file_mappings_ := file_mappings_ p;
     textrel_ranges_ := textrel_ranges_ p ++ [{| tr_start := start; tr_length := length; original_prot := prot |}]; invalidated := invalidated p |}.

Definition set_exec_eligibility (p : Process) (start length : Z) (allowed : bool) : Process :=
  let end_ := u64 (start + page_round_up length) in
  if kGuestSpaceSize <? end_ then p
  else
    {| mem_ := mem_ p; brk_start := brk_start p; brk_current := brk_current p; mmap_limit := mmap_limit p;
       exec_eligible_ := fun i => if (start / kPageSize <=? i) && (i <? end_ / kPageSize) then allowed else exec_eligible_ p i;
       file_mappings_ := file_mappings_ p; textrel_ranges_ := textrel_ranges_ p; invalidated := invalidated p |}.

Fixpoint all_eligible (f : Z -> bool) (i : Z) (n : nat) : bool :=
  match n with O => true | S n' => if f i then all_eligible f (i + 1) n' else false end.

Definition may_execute_range (p : Process) (start length : Z) : bool :=
  let end_ := u64 (start + page_round_up length) in
  if kGuestSpaceSize <? end_ then false
  else all_eligible (exec_eligible_ p) (start / kPageSize) (Z.to_nat (end_ / kPageSize - start / kPageSize)).

(** ** System calls *)

Section Calls.
Context (grants : nat -> host_request -> bool) (file_at : Z -> Z -> Z).
Context (guest_executable_allowed : Z -> bool) (elf_has_textrel_marker : Z -> bool).
Context (fd_path : Z -> list Z).

(** The loop of [seal_textrel_ranges]: false at the first range that cannot be protected. *)
Fixpoint seal_loop (p : Process) (rs : list TextrelRange) : exec (bool * Process) :=
  match rs with
  | [] => Ret (true, p)
  | r :: rs =>
      '(ok, m) ← protect grants (mem_ p) (tr_start r) (tr_length r) (original_prot r);
      if negb ok then Ret (false, with_mem p m) else seal_loop (invalidate (with_mem p m) (tr_start r) (tr_length r)) rs
  end.

Definition seal_textrel_ranges (p : Process) : exec (bool * Process) :=
  '(ok, p) ← seal_loop p (textrel_ranges_ p);
  Ret (ok, if negb ok then p
           else {| mem_ := mem_ p; brk_start := brk_start p; brk_current := brk_current p; mmap_limit := mmap_limit p;
                   exec_eligible_ := exec_eligible_ p; file_mappings_ := file_mappings_ p; textrel_ranges_ := []; invalidated := invalidated p |}).

Definition sys_brk (p : Process) (want : Z) : exec (Z * Process) :=
  if want <? brk_start p then Ret (s32 (brk_current p), p)
  else
    let old_top := page_round_up (brk_current p) in
    let new_top := page_round_up want in
    if old_top <? new_top then
      let start := u32 old_top in
      if (mmap_limit p <? new_top) || negb (range_free (mem_ p) start (new_top - old_top)) then Ret (s32 (brk_current p), p)
      else
        '(ok, m) ← map_anon grants file_at (mem_ p) start (new_top - old_top) (Z.lor PROT_READ PROT_WRITE);
        let p := with_mem p m in
        if negb ok then Ret (s32 (brk_current p), p) else Ret (s32 want, with_brk p want)
    else if new_top <? old_top then
      '(_, m) ← unmap grants file_at (mem_ p) (u32 new_top) (old_top - new_top);
      let p := invalidate (with_mem p m) (u32 new_top) (u32 (old_top - new_top)) in
      Ret (s32 want, with_brk p want)
    else Ret (s32 want, with_brk p want).

(** Where mmap2 puts the mapping, or the error. *)
Definition mmap_place (p : Process) (addr size flags : Z) : Z + Z :=
  let fixed := has_bits flags MAP_FIXED in
  let noreplace := has_bits flags MAP_FIXED_NOREPLACE in
  if fixed || noreplace then
    if has_bits addr kPageMask then inl (- EINVAL)
    else if kGuestSpaceSize <? addr + size then inl (- ENOMEM)
    else if noreplace && negb (range_free (mem_ p) addr size) then inl (- EEXIST)
    else inr addr
  else if (0x10000 <=? addr) && negb (has_bits addr kPageMask) && (addr + size <=? mmap_limit p) && range_free (mem_ p) addr size then inr addr
  else
    let at_ := find_free (mem_ p) size (mmap_limit p) in
    if at_ =? 0 then inl (- ENOMEM) else inr at_.

(** [errno] is what a failed host call left. *)
Definition sys_mmap2 (p : Process) (errno addr len a2 a3 a4 a5 : Z) : exec (Z * Process) :=
  let prot := s32 a2 in
  let flags := s32 a3 in
  let fd := s32 a4 in
  let offset := a5 * kPageSize in
  if len =? 0 then Ret (- EINVAL, p)
  else
    let size := page_round_up len in
    match mmap_place p addr size flags with
    | inl e => Ret (e, p)
    | inr at_ =>
        let anonymous := has_bits flags MAP_ANONYMOUS in
        let executable_file := anonymous || guest_executable_allowed fd in
        if has_bits prot PROT_EXEC && negb executable_file then Ret (- ENOEXEC, p)
        else
          let textrel := negb anonymous && has_bits prot PROT_EXEC && elf_has_textrel_marker fd in
          let effective_prot := if textrel then Z.lor prot PROT_WRITE else prot in
          '(ok, m) ← (if anonymous then map_anon grants file_at (mem_ p) at_ size effective_prot
                      else map_file grants file_at (mem_ p) at_ size effective_prot flags fd offset);
          let p := with_mem p m in
          if negb ok then Ret (if errno =? 0 then - ENOMEM else - errno, p)
          else
            let p := set_exec_eligibility p at_ size executable_file in
            let p := if anonymous then forget_mappings p at_ size
                     else
                       let p := record_file_mapping p at_ (u32 size) offset (fd_path fd) false in
                       if textrel then add_textrel_range p at_ (u32 size) prot else p in
            Ret (s32 at_, invalidate p at_ (u32 size))
    end.

Definition sys_munmap (p : Process) (addr len : Z) : exec (Z * Process) :=
  if has_bits addr kPageMask || (len =? 0) then Ret (- EINVAL, p)
  else
    let size := page_round_up len in
    if kGuestSpaceSize <? addr + size then Ret (- EINVAL, p)
    else
      '(ok, m) ← unmap grants file_at (mem_ p) addr size;
      let p := with_mem p m in
      if negb ok then Ret (- EINVAL, p)
      else Ret (0, invalidate (forget_mappings (set_exec_eligibility p addr size true) addr size) addr (u32 size)).

Definition sys_mprotect (p : Process) (addr len a2 : Z) : exec (Z * Process) :=
  if has_bits addr kPageMask then Ret (- EINVAL, p)
  else if len =? 0 then Ret (0, p)
  else
    let size := page_round_up len in
    if negb (accessible (mem_ p) addr size 0) then Ret (- ENOMEM, p)
    else
      let prot := s32 a2 in
      if has_bits prot PROT_EXEC && negb (may_execute_range p addr size) then Ret (- ENOEXEC, p)
      else
        '(ok, m) ← protect grants (mem_ p) addr size prot;
        let p := with_mem p m in
        if negb ok then Ret (- EACCES, p) else Ret (0, invalidate p addr (u32 size)).

(** The host's madvise on the range, or an error before it. *)
Definition sys_madvise (p : Process) (addr len a2 : Z) : Z + (Z * Z * Z) :=
  if has_bits addr kPageMask then inl (- EINVAL)
  else if len =? 0 then inl 0
  else
    let size := page_round_up len in
    if negb (accessible (mem_ p) addr size 0) then inl (- ENOMEM) else inr (addr, size, s32 a2).
End Calls.

(** ** Histories *)

(** A memory system call with its arguments and what the host says at that time. *)
Inductive mm_op :=
| MmBrk (want : Z)
| MmMmap2 (allowed marker : Z -> bool) (path : Z -> list Z) (errno addr len prot flags fd pgoff : Z)
| MmMunmap (addr len : Z)
| MmMprotect (addr len prot : Z)
| MmSeal.

(** Arguments of their C++ types. *)
Definition mm_typed (o : mm_op) : Prop :=
  match o with
  | MmBrk want => 0 <= want < 2 ^ 32
  | MmMmap2 _ _ _ errno addr len _ _ _ pgoff => 0 <= errno < 4096 /\ 0 <= addr < 2 ^ 32 /\ 0 <= len < 2 ^ 32 /\ 0 <= pgoff < 2 ^ 32
  | MmMunmap addr len | MmMprotect addr len _ => 0 <= addr < 2 ^ 32 /\ 0 <= len < 2 ^ 32
  | MmSeal => True
  end.

(** A file mapped at a given address over all 4 GiB: the one call whose size does not
    fit the [uint32_t] that [record_file_mapping] and [add_textrel_range] take. *)
Definition maps_file_everywhere (o : mm_op) : bool :=
  match o with
  | MmMmap2 _ _ _ _ addr len _ flags _ _ => (addr =? 0) && (2 ^ 32 - 4096 <? len) && negb (has_bits (s32 flags) MAP_ANONYMOUS)
  | _ => false
  end.

Section History.
Context (grants : nat -> host_request -> bool) (file_at : Z -> Z -> Z).

(** The call, and which pages hold the contents of a file that was not allowed to be
    executed when it was mapped: a new mapping decides it anew, and a page that is no
    longer in use holds nothing. *)
Definition mm_step (o : mm_op) (p : Process) (foreign : Z -> bool) : exec (Process * (Z -> bool)) :=
  match o with
  | MmBrk want => '(_, p') ← sys_brk grants file_at p want; Ret (p', fun i => foreign i && negb (pages_ (mem_ p') i =? 0))
  | MmMmap2 allowed marker path errno addr len prot flags fd pgoff =>
      '(r, p') ← sys_mmap2 grants file_at allowed marker path p errno addr len prot flags fd pgoff;
      let made := (u32 r mod 4096 =? 0) in
      let foreign_file := negb (has_bits (s32 flags) MAP_ANONYMOUS) && negb (allowed (s32 fd)) in
      Ret (p', fun i => if made && (u32 r / 4096 <=? i) && (i <? u32 r / 4096 + page_count len) then foreign_file else foreign i)
  | MmMunmap addr len => '(_, p') ← sys_munmap grants file_at p addr len; Ret (p', fun i => foreign i && negb (pages_ (mem_ p') i =? 0))
  | MmMprotect addr len prot => '(_, p') ← sys_mprotect grants p addr len prot; Ret (p', foreign)
  | MmSeal => '(_, p') ← seal_textrel_ranges grants p; Ret (p', foreign)
  end.

Fixpoint mm_run (os : list mm_op) (p : Process) (foreign : Z -> bool) : exec (Process * (Z -> bool)) :=
  match os with
  | [] => Ret (p, foreign)
  | o :: os => '(p, foreign) ← mm_step o p foreign; mm_run os p foreign
  end.

End History.

(** ** The invariant *)

Definition exec_page (p : Process) (i : Z) : Prop := has_bits (pages_ (mem_ p) i) kPageExec = true.

(** A text-relocation window covers whole pages that may be executable. *)
Definition textrel_ok (eligible : Z -> bool) (r : TextrelRange) : Prop :=
  0 <= tr_start r < 2 ^ 32 /\ tr_start r mod 4096 = 0 /\ 0 < tr_length r /\ tr_length r mod 4096 = 0 /\ tr_start r + tr_length r <= 2 ^ 32 /\
  forall i, tr_start r / 4096 <= i < (tr_start r + tr_length r) / 4096 -> eligible i = true.

(** What is kept of a window by every call, and by every call but a file mapped
    everywhere ([strict]). *)
Definition window_ok (strict : bool) (eligible : Z -> bool) (r : TextrelRange) : Prop :=
  0 <= tr_start r < 2 ^ 32 /\ 0 <= tr_length r < 2 ^ 32 /\ (strict = true -> textrel_ok eligible r).

Record mm_inv (strict : bool) (p : Process) (foreign : Z -> bool) : Prop := {
  mi_exec : forall i, 0 <= i < 2 ^ 20 -> exec_page p i -> exec_eligible_ p i = true;
  mi_foreign : forall i, foreign i = true -> 0 <= i < 2 ^ 20 /\ exec_eligible_ p i = false;
  mi_textrel : Forall (window_ok strict (exec_eligible_ p)) (textrel_ranges_ p);
  mi_brk : 0 <= brk_current p < 2 ^ 32;
  mi_limit : 0 <= mmap_limit p < 2 ^ 32;
}.

Lemma exec_flags prot : has_bits (flags_from_prot prot) kPageExec = has_bits prot PROT_EXEC.
Proof. unfold flags_from_prot. destruct (has_bits prot PROT_READ), (has_bits prot PROT_WRITE), (has_bits prot PROT_EXEC); reflexivity. Qed.

(** The size the calls compute from a 32-bit length. *)
Lemma size_pages len : 0 <= len < 2 ^ 32 -> page_round_up len = page_count len * 4096 /\ no_wrap (page_round_up len) /\ page_count (page_round_up len) = page_count len.
Proof. intros Hl. unfold no_wrap, page_count. rewrite page_round_up_spec by lia. lia. Qed.

(** [set_exec_eligibility] on whole pages inside the guest space. *)
Lemma eligibility_pages p at_ len allowed :
  0 <= at_ -> at_ mod 4096 = 0 -> 0 <= len < 2 ^ 32 -> at_ / 4096 + page_count len <= 2 ^ 20 ->
  let p' := set_exec_eligibility p at_ (page_round_up len) allowed in
  (forall i, exec_eligible_ p' i = if decide (at_ / 4096 <= i < at_ / 4096 + page_count len) then allowed else exec_eligible_ p i) /\
  mem_ p' = mem_ p /\ textrel_ranges_ p' = textrel_ranges_ p /\ brk_current p' = brk_current p /\ mmap_limit p' = mmap_limit p.
Proof.
  intros Ha Hm Hl Hend. destruct (size_pages len Hl) as (E & Hnw & Ec). cbv zeta. unfold set_exec_eligibility.
  rewrite (page_round_up_spec (page_round_up len)) by (unfold no_wrap in Hnw; lia).
  change ((page_round_up len + 4095) / 4096) with (page_count (page_round_up len)). rewrite Ec.
  assert (0 <= page_count len) by (unfold page_count; lia). rewrite u64_small by lia. change kGuestSpaceSize with (2 ^ 32).
  rewrite (proj2 (Z.ltb_ge _ _)) by lia. cbn [mem_ textrel_ranges_ brk_current mmap_limit exec_eligible_]. split; [|done].
  intros i. change kPageSize with 4096. case_decide as Hi.
  - rewrite (proj2 (Z.leb_le _ _)), (proj2 (Z.ltb_lt _ _)) by lia. done.
  - destruct (Z.leb_spec (at_ / 4096) i), (Z.ltb_spec i ((at_ + page_count len * 4096) / 4096)); cbn; try done. lia.
Qed.

Lemma all_eligible_spec f i n : all_eligible f i n = true <-> forall j, i <= j < i + Z.of_nat n -> f j = true.
Proof.
  revert i. induction n as [|n IH]; intros i; cbn [all_eligible]; [split; [lia|done]|].
  destruct (f i) eqn:E.
  - rewrite IH. split; intros Hj j Hr; [|apply Hj; lia]. destruct (decide (j = i)) as [->|]; [done|]. apply Hj. lia.
  - split; [done|]. intros Hj. rewrite <- E. apply Hj. lia.
Qed.

(** Windows that survive [forget_mappings] do not meet the range. *)
Lemma forget_textrel p at_ n r : r ∈ textrel_ranges_ (forget_mappings p at_ n) -> r ∈ textrel_ranges_ p /\ overlaps at_ n (tr_start r) (tr_length r) = false.
Proof. cbn. intros [? ?]%list_elem_of_filter. done. Qed.

(** New eligibility for the range, with the windows that meet it forgotten. *)
Lemma textrel_forget strict p at_ len rs eligible' :
  0 <= at_ -> at_ mod 4096 = 0 ->
  Forall (window_ok strict (exec_eligible_ p)) rs ->
  (forall i, ~ (at_ / 4096 <= i < at_ / 4096 + page_count len) -> eligible' i = exec_eligible_ p i) ->
  Forall (window_ok strict eligible') (filter (fun r => overlaps at_ (page_count len * 4096) (tr_start r) (tr_length r) = false) rs).
Proof.
  intros Ha Hm Hrs He. apply Forall_forall. intros r [Ho Hr]%list_elem_of_filter. rewrite Forall_forall in Hrs.
  destruct (Hrs r Hr) as (Hs & Hl & Hok). split_and!; [lia..|]. intros Hst. destruct (Hok Hst) as (H1 & H2 & H3 & H4 & H5 & H6).
  split_and!; [lia..|]. intros i Hi. rewrite He; [by apply H6|].
  intros Hin. unfold overlaps in Ho. apply andb_false_iff in Ho as [Ho|Ho]; apply Z.ltb_ge in Ho; lia.
Qed.

(** Changing the memory of a page range to flags [fl] that may be executable there. *)
Lemma inv_pages strict p p' foreign lo n fl :
  mm_inv strict p foreign -> exec_eligible_ p' = exec_eligible_ p -> textrel_ranges_ p' = textrel_ranges_ p -> mmap_limit p' = mmap_limit p ->
  0 <= brk_current p' < 2 ^ 32 ->
  (forall i, pages_ (mem_ p') i = if decide (lo <= i < lo + n) then fl else pages_ (mem_ p) i) ->
  (has_bits fl kPageExec = true -> forall i, lo <= i < lo + n -> exec_eligible_ p i = true) ->
  mm_inv strict p' foreign.
Proof.
  intros [H1 H2 H3 H4 H5] He Ht Hl Hb Hp Hx. split; [| |by rewrite Ht, He|done|by rewrite Hl].
  - intros i Hi Hpage. rewrite He. unfold exec_page in Hpage. rewrite Hp in Hpage. case_decide as Hr; [by apply Hx|by apply H1].
  - intros i Hf. rewrite He. by apply H2.
Qed.

Lemma inv_foreign strict p foreign foreign' : mm_inv strict p foreign -> (forall i, foreign' i = true -> foreign i = true) -> mm_inv strict p foreign'.
Proof. intros [H1 H2 H3 H4 H5] Hf. split; try done. intros i Hi. apply H2, Hf, Hi. Qed.

Lemma inv_same strict p p' foreign :
  mm_inv strict p foreign -> exec_eligible_ p' = exec_eligible_ p -> textrel_ranges_ p' = textrel_ranges_ p -> mmap_limit p' = mmap_limit p ->
  0 <= brk_current p' < 2 ^ 32 -> pages_ (mem_ p') = pages_ (mem_ p) -> mm_inv strict p' foreign.
Proof.
  intros [H1 H2 H3 H4 H5] He Ht Hl Hb Hp. split; [| |by rewrite Ht, He|done|by rewrite Hl].
  - intros i Hi. unfold exec_page. rewrite Hp, He. by apply H1.
  - intros i Hf. rewrite He. by apply H2.
Qed.

Lemma fill_decide f lo n v i : fill f lo n v i = if decide (lo <= i < lo + n) then v else f i.
Proof. unfold fill. case_decide; destruct (Z.leb_spec lo i), (Z.ltb_spec i (lo + n)); cbn; try done; lia. Qed.

Lemma s32_u32 v : 0 <= v < 2 ^ 32 -> u32 (s32 v) = v.
Proof. intros Hv. unfold u32, s32. rewrite swrap_mod by lia. by apply Z.mod_small. Qed.

Lemma errno_unaligned e : 0 < e < 4096 -> u32 (- e) mod 4096 =? 0 = false.
Proof. intros He. unfold u32. apply Z.eqb_neq. lia. Qed.

Lemma good_pages at_ len : good_range at_ (page_round_up len) -> 0 <= len < 2 ^ 32 -> 0 <= at_ < 2 ^ 32 /\ at_ mod 4096 = 0 /\ at_ / 4096 + page_count len <= 2 ^ 20.
Proof. intros (H1 & _ & H2 & H3) Hl. destruct (size_pages len Hl) as (_ & _ & Ec). by rewrite Ec in H3. Qed.

(** A new mapping of a page range: flags [fl], eligibility [allowed], windows there forgotten. *)
Lemma inv_mapping strict p p' foreign foreign' at_ len fl allowed :
  mm_inv strict p foreign -> 0 <= at_ -> at_ mod 4096 = 0 -> at_ / 4096 + page_count len <= 2 ^ 20 ->
  (forall i, exec_eligible_ p' i = if decide (at_ / 4096 <= i < at_ / 4096 + page_count len) then allowed else exec_eligible_ p i) ->
  (forall i, pages_ (mem_ p') i = if decide (at_ / 4096 <= i < at_ / 4096 + page_count len) then fl else pages_ (mem_ p) i) ->
  Forall (window_ok strict (exec_eligible_ p')) (textrel_ranges_ p') -> brk_current p' = brk_current p -> mmap_limit p' = mmap_limit p ->
  (has_bits fl kPageExec = true -> allowed = true) ->
  (forall i, foreign' i = true -> if decide (at_ / 4096 <= i < at_ / 4096 + page_count len) then allowed = false else foreign i = true) ->
  mm_inv strict p' foreign'.
Proof.
  intros [H1 H2 H3 H4 H5] Ha Hm Hend He Hp Ht Hb Hl Hx Hf. split; [| |done|by rewrite Hb|by rewrite Hl].
  - intros i Hi Hpg. unfold exec_page in Hpg. rewrite Hp in Hpg. rewrite He. case_decide; [by apply Hx|by apply H1].
  - intros i Hfi. specialize (Hf i Hfi). rewrite He. case_decide as Hr; [|by apply H2]. split; [|done].
    assert (0 <= at_ / 4096) by (apply Z.div_pos; lia). lia.
Qed.

Lemma find_free_loop_range n pages want i run : 0 <= find_free_loop n pages want i run < 2 ^ 32.
Proof.
  revert i run. induction n as [|n IH]; intros i run; cbn [find_free_loop]; [lia|]. case_match; [lia|].
  case_match; [|apply IH]. case_match; [apply u32_range|apply IH].
Qed.

(** The placement is an error or a whole-page address. *)
Lemma mmap_place_error p addr size flags e : mmap_place p addr size flags = inl e -> u32 e mod 4096 =? 0 = false.
Proof.
  unfold mmap_place. repeat case_match; try done; intros [= <-]; by apply errno_unaligned.
Qed.

Lemma mmap_place_range p addr size flags at_ : 0 <= addr < 2 ^ 32 -> mmap_place p addr size flags = inr at_ -> 0 <= at_ < 2 ^ 32.
Proof.
  intros Ha. unfold mmap_place. repeat case_match; try done; intros [= <-]; try done. unfold find_free. case_match; [lia|]. apply find_free_loop_range.
Qed.

Lemma mmap_place_zero p addr size flags : mmap_place p addr size flags = inr 0 -> addr = 0.
Proof.
  unfold mmap_place. destruct (_ || _); [repeat case_match; try done; by intros [= ->]|]. destruct (_ && _) eqn:Eb.
  - intros [= ->]. done.
  - destruct (Z.eqb_spec (find_free (mem_ p) size (mmap_limit p)) 0); [done|]. by intros [= E].
Qed.

(** The windows after a new mapping of [n] bytes (all of them, unless the size was cut to
    32 bits). *)
Lemma mapped_windows strict p eligible' at_ len n allowed added :
  0 <= at_ < 2 ^ 32 -> at_ mod 4096 = 0 -> at_ / 4096 + page_count len <= 2 ^ 20 -> 0 < len ->
  Forall (window_ok strict (exec_eligible_ p)) (textrel_ranges_ p) ->
  (forall i, eligible' i = if decide (at_ / 4096 <= i < at_ / 4096 + page_count len) then allowed else exec_eligible_ p i) ->
  (strict = true -> n = page_count len * 4096) ->
  (forall r, r ∈ added -> tr_start r = at_ /\ tr_length r = n /\ 0 <= n < 2 ^ 32 /\ allowed = true) ->
  Forall (window_ok strict eligible') (filter (fun r => overlaps at_ n (tr_start r) (tr_length r) = false) (textrel_ranges_ p) ++ added).
Proof.
  intros Ha Hm Hend Hl Hrs He Hn Had. apply Forall_app. split.
  - destruct strict.
    + rewrite (Hn eq_refl). apply (textrel_forget _ p); [lia|done|done|]. intros i Hi. by rewrite He, decide_False.
    + apply Forall_forall. intros r [_ Hr]%list_elem_of_filter. rewrite Forall_forall in Hrs. by destruct (Hrs r Hr) as (? & ? & _).
  - apply Forall_forall. intros r Hr. destruct (Had r Hr) as (E1 & E2 & Hb & Hal). split_and!; [lia..|]. intros Hst. specialize (Hn Hst).
    assert (0 < page_count len) by (unfold page_count; lia). split_and!; [lia..|]. intros i Hi. rewrite He, decide_True by lia. done.
Qed.

Lemma eligibility_memory p start length allowed : mem_ (set_exec_eligibility p start length allowed) = mem_ p.
Proof. unfold set_exec_eligibility. by case_match. Qed.

Section Steps.
Context (grants : nat -> host_request -> bool) (file_at : Z -> Z -> Z).

Lemma brk_step strict p foreign want :
  mm_inv strict p foreign -> 0 <= want < 2 ^ 32 -> exists r p', sys_brk grants file_at p want = Ret (r, p') /\ mm_inv strict p' foreign.
Proof.
  intros Hinv Hw. pose proof (mi_brk _ _ _ Hinv) as Hb. pose proof (mi_limit _ _ _ Hinv) as Hlim. unfold sys_brk. case_match; [by eexists _, p|].
  destruct (size_pages _ Hb) as (Eo & _ & _). destruct (size_pages _ Hw) as (En & _ & _). unfold page_count in *.
  set (old_top := page_round_up (brk_current p)) in *. set (new_top := page_round_up want) in *.
  destruct (Z.ltb_spec old_top new_top) as [Hlt|Hge].
  - destruct (Z.ltb_spec (mmap_limit p) new_top) as [Hml|Hml]; [by eexists _, p|]. cbn [orb]. case_match; [by eexists _, p|].
    assert (u32 old_top = old_top) as Eu by (apply u32_small; lia). rewrite Eu.
    rewrite map_anon_run by (unfold no_wrap; lia). rewrite exec_ret_bind. destruct (ok (mem_ p) && _) eqn:E1; [destruct (grants _ _)|]; cbn [negb].
    + eexists _, _. split; [done|]. eapply (inv_pages _ p _ foreign (old_top / 4096) (page_count (new_top - old_top))); try done.
      * intros i. cbn. apply fill_decide.
      * intros Hx. by rewrite exec_flags in Hx.
    + eexists _, _. split; [done|]. by apply (inv_same _ p).
    + eexists _, _. split; [done|]. by apply (inv_same _ p).
  - destruct (Z.ltb_spec new_top old_top) as [Hlt|Hge'].
    + assert (0 <= u32 new_top < 2 ^ 32) as Hu by apply u32_range. rewrite unmap_run by (unfold no_wrap; lia). rewrite exec_ret_bind.
      destruct (ok (mem_ p) && _) eqn:E1; [destruct (grants _ _)|].
      * eexists _, _. split; [done|]. eapply (inv_pages _ p _ foreign (u32 new_top / 4096) (page_count (old_top - new_top)) 0); try done.
        intros i. cbn. apply fill_decide.
      * eexists _, _. split; [done|]. by apply (inv_same _ p).
      * eexists _, _. split; [done|]. by apply (inv_same _ p).
    + eexists _, _. split; [done|]. by apply (inv_same _ p).
Qed.

Lemma mprotect_step strict p foreign addr len prot :
  mm_inv strict p foreign -> 0 <= addr < 2 ^ 32 -> 0 <= len < 2 ^ 32 -> exists r p', sys_mprotect grants p addr len prot = Ret (r, p') /\ mm_inv strict p' foreign.
Proof.
  intros Hinv Ha Hl. pose proof (mi_brk _ _ _ Hinv) as Hb. destruct (size_pages len Hl) as (Es & Hnw & Ec). unfold sys_mprotect.
  case_match; [by eexists _, p|]. case_match; [by eexists _, p|]. case_match; [by eexists _, p|].
  destruct (has_bits (s32 prot) PROT_EXEC && negb (may_execute_range p addr (page_round_up len))) eqn:Ex; [by eexists _, p|].
  rewrite protect_run by done. rewrite exec_ret_bind.
  destruct (ok (mem_ p) && _ && _) eqn:Eg; [destruct (grants _ _)|]; cbn [negb].
  - eexists _, _. split; [done|]. eapply (inv_pages _ p _ foreign (addr / 4096) (page_count (page_round_up len))); try done.
    + intros i. cbn. apply fill_decide.
    + rewrite exec_flags. intros E i Hi. rewrite E in Ex. cbn in Ex. apply negb_false_iff in Ex.
      apply andb_true_iff in Eg as [[_ Hg%bool_decide_eq_true]%andb_true_iff _]. destruct (good_pages addr len Hg Hl) as (_ & Hm & Hend).
      unfold may_execute_range in Ex. rewrite (page_round_up_spec (page_round_up len)) in Ex by (unfold no_wrap in Hnw; lia).
      fold (page_count (page_round_up len)) in Ex. rewrite Ec in *. assert (0 <= page_count len) by (unfold page_count; lia).
      rewrite u64_small in Ex by lia. case_match; [done|]. change kPageSize with 4096 in Ex.
      rewrite all_eligible_spec in Ex. apply Ex. lia.
  - eexists _, _. split; [done|]. by apply (inv_same _ p).
  - eexists _, _. split; [done|]. by apply (inv_same _ p).
Qed.

Lemma seal_step p foreign rs :
  mm_inv true p foreign -> Forall (textrel_ok (exec_eligible_ p)) rs ->
  exists ok p', seal_loop grants p rs = Ret (ok, p') /\ mm_inv true p' foreign.
Proof.
  intros Hinv Hrs. revert p Hinv Hrs. induction rs as [|r rs IH]; intros p Hinv Hrs; [by eexists _, p|].
  apply Forall_cons in Hrs as [Hr Hrs]. destruct Hr as (H1 & H2 & H3 & H4 & H5 & H6). cbn [seal_loop].
  pose proof (mi_brk _ _ _ Hinv) as Hb. rewrite protect_run by (unfold no_wrap; lia). rewrite exec_ret_bind.
  destruct (ok (mem_ p) && _ && _) eqn:Eg; [destruct (grants _ _)|]; cbn [negb].
  - apply IH; [|done]. eapply (inv_pages _ p _ foreign (tr_start r / 4096) (page_count (tr_length r))); try done.
    + intros i. cbn. apply fill_decide.
    + intros _ i Hi. apply H6. unfold page_count in Hi. lia.
  - eexists _, _. split; [done|]. by apply (inv_same _ p).
  - eexists _, _. split; [done|]. by apply (inv_same _ p).
Qed.

Lemma munmap_step strict p foreign addr len :
  mm_inv strict p foreign -> 0 <= addr < 2 ^ 32 -> 0 <= len < 2 ^ 32 ->
  exists r p', sys_munmap grants file_at p addr len = Ret (r, p') /\ mm_inv strict p' (fun i => foreign i && negb (pages_ (mem_ p') i =? 0)).
Proof.
  intros Hinv Ha Hl. pose proof (mi_brk _ _ _ Hinv) as Hb. destruct (size_pages len Hl) as (Es & Hnw & Ec). unfold sys_munmap.
  assert (forall p', mm_inv strict p' foreign -> mm_inv strict p' (fun i => foreign i && negb (pages_ (mem_ p') i =? 0))) as Hweak.
  { intros p' Hp'. eapply inv_foreign; [exact Hp'|]. by intros i [? _]%andb_true_iff. }
  case_match; [eexists _, p; split; [done|by apply Hweak]|]. case_match; [eexists _, p; split; [done|by apply Hweak]|].
  rewrite unmap_run by done. rewrite exec_ret_bind. destruct (ok (mem_ p) && _) eqn:Eg; [destruct (grants _ _)|]; cbn [negb].
  - apply andb_true_iff in Eg as [_ Hg%bool_decide_eq_true]. destruct (good_pages addr len Hg Hl) as (_ & Hm & Hend).
    eexists _, _. split; [done|]. set (p1 := with_mem p _).
    destruct (eligibility_pages p1 addr len true) as (He & Hme & Htr & Hbr & Hli); [lia|done|done|done|].
    assert (forall i, pages_ (mem_ (set_exec_eligibility p1 addr (page_round_up len) true)) i =
              if decide (addr / 4096 <= i < addr / 4096 + page_count len) then 0 else pages_ (mem_ p) i) as Hpg.
    { intros i. rewrite Hme. unfold p1. cbn. rewrite Ec. apply fill_decide. }
    eapply (inv_mapping _ p _ foreign _ addr len 0 true); [done|lia|done|done|exact He|exact Hpg| |exact Hbr|exact Hli|done|].
    + cbn [textrel_ranges_ invalidate forget_mappings]. rewrite Htr, Es. apply (textrel_forget _ p); [lia|done|apply Hinv|].
      intros i Hi. cbn [exec_eligible_ invalidate forget_mappings]. rewrite <- Es. by rewrite He, decide_False.
    + intros i [Hfi Hz]%andb_true_iff. case_decide as Hr; [|done]. exfalso. specialize (Hpg i). rewrite decide_True in Hpg by done.
      cbn [mem_ invalidate forget_mappings] in Hz. by rewrite Hpg in Hz.
  - eexists _, _. split; [done|]. apply Hweak. by apply (inv_same _ p).
  - eexists _, _. split; [done|]. apply Hweak. by apply (inv_same _ p).
Qed.

Lemma mmap_step strict p foreign allowed marker path errno addr len prot flags fd pgoff :
  mm_inv strict p foreign -> 0 <= errno < 4096 -> 0 <= addr < 2 ^ 32 -> 0 <= len < 2 ^ 32 ->
  (strict = true -> maps_file_everywhere (MmMmap2 allowed marker path errno addr len prot flags fd pgoff) = false) ->
  exists r p', sys_mmap2 grants file_at allowed marker path p errno addr len prot flags fd pgoff = Ret (r, p') /\
    mm_inv strict p' (fun i => if (u32 r mod 4096 =? 0) && (u32 r / 4096 <=? i) && (i <? u32 r / 4096 + page_count len)
                        then negb (has_bits (s32 flags) MAP_ANONYMOUS) && negb (allowed (s32 fd)) else foreign i).
Proof.
  intros Hinv Herr Ha Hl Hev. pose proof (mi_brk _ _ _ Hinv) as Hb. destruct (size_pages len) as (Es & Hnw & Ec); [lia|]. unfold sys_mmap2.
  destruct (Z.eqb_spec len 0) as [|Hlen]; [eexists _, p; split; [done|]; by rewrite errno_unaligned|].
  destruct (mmap_place p addr (page_round_up len) (s32 flags)) as [e|at_] eqn:Epl; [eexists _, p; split; [done|]; by rewrite (mmap_place_error _ _ _ _ _ Epl)|].
  set (anon := has_bits (s32 flags) MAP_ANONYMOUS). set (exe := anon || allowed (s32 fd)).
  destruct (has_bits (s32 prot) PROT_EXEC && negb exe) eqn:Ex; [eexists _, p; split; [done|]; by rewrite errno_unaligned|].
  set (textrel := negb anon && has_bits (s32 prot) PROT_EXEC && marker (s32 fd)). set (eff := if textrel then _ else _).
  assert (has_bits eff PROT_EXEC = has_bits (s32 prot) PROT_EXEC) as Heff.
  { unfold eff. destruct textrel; [|done]. unfold has_bits. rewrite Z.land_lor_distr_l. change (Z.land PROT_WRITE PROT_EXEC) with 0. by rewrite Z.lor_0_r. }
  assert (0 <= at_ < 2 ^ 32) as Hat by exact (mmap_place_range _ _ _ _ _ Ha Epl).
  assert (exists ok m, (if anon then map_anon grants file_at (mem_ p) at_ (page_round_up len) eff
                        else map_file grants file_at (mem_ p) at_ (page_round_up len) eff (s32 flags) (s32 fd) (pgoff * kPageSize)) = Ret (ok, m) /\
    if ok : bool then good_range at_ (page_round_up len) /\ pages_ m = fill (pages_ (mem_ p)) (at_ / 4096) (page_count len) (flags_from_prot eff)
    else pages_ m = pages_ (mem_ p)) as (ok & m & Em & Hm).
  { destruct anon; [rewrite map_anon_run by done|rewrite map_file_run by done]; eexists _, _; (split; [apply (f_equal Ret), surjective_pairing|]);
    (destruct (GuestMemory.ok (mem_ p) && _) eqn:Eg; [destruct (grants _ _)|]; cbn [fst snd]; [|done..]);
    apply andb_true_iff in Eg as [_ Hg%bool_decide_eq_true]; (split; [done|]); cbn; by rewrite Ec. }
  rewrite Em, exec_ret_bind. destruct ok; cbn [negb].
  2: { eexists _, _. split; [done|]. assert (u32 (if errno =? 0 then - ENOMEM else - errno) mod 4096 =? 0 = false) as ->.
       { destruct (Z.eqb_spec errno 0); apply errno_unaligned; unfold ENOMEM; lia. } by apply (inv_same _ p). }
  destruct Hm as [Hg Hp]. destruct (good_pages at_ len Hg) as (_ & Hm & Hend); [lia|]. eexists _, _. split; [done|].
  rewrite s32_u32 by done. rewrite (proj2 (Z.eqb_eq (at_ mod 4096) 0)) by done. set (p1 := with_mem p m).
  destruct (eligibility_pages p1 at_ len exe) as (He & Hme & Htr & Hbr & Hli); [lia|done|lia|done|].
  set (p2 := set_exec_eligibility p1 at_ (page_round_up len) exe) in *.
  eapply (inv_mapping _ p _ foreign _ at_ len (flags_from_prot eff) exe); try done; try lia.
  - intros i. rewrite <- He. by destruct anon, textrel.
  - intros i. assert (pages_ (mem_ p2) i = fill (pages_ (mem_ p)) (at_ / 4096) (page_count len) (flags_from_prot eff) i) as E2 by (by rewrite Hme, <- Hp).
    rewrite <- fill_decide, <- E2. by destruct anon, textrel.
  - assert (forall i, exec_eligible_ p2 i = if decide (at_ / 4096 <= i < at_ / 4096 + page_count len) then exe else exec_eligible_ p i) as He2 by exact He.
    assert (textrel = true -> exe = true) as Hexe.
    { intros Et. unfold textrel in Et. apply andb_true_iff in Et as [[_ Et2]%andb_true_iff _]. rewrite Et2 in Ex. cbn in Ex. by apply negb_false_iff in Ex. }
    set (n := if anon then page_round_up len else u32 (page_round_up len)).
    assert (strict = true -> n = page_count len * 4096) as Hn.
    { intros Hst. specialize (Hev Hst). cbn [maps_file_everywhere] in Hev. fold anon in Hev. unfold n. destruct anon; [done|].
      rewrite Es. apply u32_small. pose proof (mmap_place_zero p addr (page_round_up len) (s32 flags)) as Hz. rewrite Epl in Hz. unfold page_count in *.
      rewrite andb_true_r in Hev. apply andb_false_iff in Hev as [Hev%Z.eqb_neq|Hev%Z.ltb_ge]; [|lia]. destruct (decide (at_ = 0)) as [->|]; [by destruct Hev; apply Hz|lia]. }
    pose proof (mapped_windows strict p (exec_eligible_ p2) at_ len n exe
      (if textrel then [{| tr_start := at_; tr_length := n; original_prot := s32 prot |}] else [])) as Hw.
    replace (textrel_ranges_ _) with (filter (fun r => overlaps at_ n (tr_start r) (tr_length r) = false) (textrel_ranges_ p) ++
      (if textrel then [{| tr_start := at_; tr_length := n; original_prot := s32 prot |}] else [])).
    + replace (exec_eligible_ _) with (exec_eligible_ p2) by (by destruct anon, textrel). apply Hw; [lia|done|done|lia|apply Hinv|exact He2|done|].
      intros r Hr. destruct textrel eqn:Et; [|by apply not_elem_of_nil in Hr]. apply list_elem_of_singleton in Hr as ->. cbn. split; [done|]. split; [done|]. split; [|by apply Hexe].
      unfold n. unfold textrel in Et. destruct anon; [done|apply u32_range].
    + assert (anon = true -> textrel = false) as Hat' by (unfold textrel; by intros ->). unfold n. clear Hw.
      destruct anon; [rewrite Hat' by done|destruct textrel];
        cbn [textrel_ranges_ invalidate add_textrel_range record_file_mapping forget_mappings]; rewrite ?app_nil_r, Htr; done.
  - by destruct anon, textrel.
  - by destruct anon, textrel.
  - rewrite exec_flags, Heff. intros E. rewrite E in Ex. cbn in Ex. by apply negb_false_iff in Ex.
  - intros i. case_decide as Hr.
    + rewrite (proj2 (Z.leb_le _ _)), (proj2 (Z.ltb_lt _ _)) by lia. cbn [andb]. unfold exe. destruct anon; [done|]. cbn. by destruct (allowed (s32 fd)).
    + destruct (Z.leb_spec (at_ / 4096) i), (Z.ltb_spec i (at_ / 4096 + page_count len)); cbn; try done. lia.
Qed.

(** Calls after which the windows are still those of eligible pages; sealing needs that. *)
Definition allowed_for (strict : bool) (o : mm_op) : Prop :=
  if strict then maps_file_everywhere o = false else o <> MmSeal.

Lemma mm_step_ok strict o p foreign :
  mm_inv strict p foreign -> mm_typed o -> allowed_for strict o ->
  exists p' foreign', mm_step grants file_at o p foreign = Ret (p', foreign') /\ mm_inv strict p' foreign'.
Proof.
  intros Hinv Ho Hal. destruct o as [want|allowed marker path errno addr len prot flags fd pgoff|addr len|addr len prot|]; cbn [mm_step mm_typed] in *.
  - destruct (brk_step strict p foreign want Hinv Ho) as (r & p' & E & Hp'). rewrite E, exec_ret_bind. eexists _, _. split; [done|].
    eapply inv_foreign; [done|]. by intros i [? _]%andb_true_iff.
  - destruct Ho as (H1 & H2 & H3 & _). destruct (mmap_step strict p foreign allowed marker path errno addr len prot flags fd pgoff Hinv H1 H2 H3) as (r & p' & E & Hp').
    { intros ->. exact Hal. }
    rewrite E, exec_ret_bind. by eexists _, _.
  - destruct Ho as (H1 & H2). destruct (munmap_step strict p foreign addr len Hinv H1 H2) as (r & p' & E & Hp'). rewrite E, exec_ret_bind. by eexists _, _.
  - destruct Ho as (H1 & H2). destruct (mprotect_step strict p foreign addr len prot Hinv H1 H2) as (r & p' & E & Hp'). rewrite E, exec_ret_bind. by eexists _, _.
  - destruct strict; [|done].
    destruct (seal_step p foreign (textrel_ranges_ p) Hinv) as (ok & p' & E & Hp').
    { eapply Forall_impl; [apply (mi_textrel _ _ _ Hinv)|]. intros r (_ & _ & H). by apply H. }
    unfold seal_textrel_ranges. rewrite E, !exec_ret_bind. eexists _, _. split; [done|]. destruct ok; [|done]. destruct Hp'. by split.
Qed.

(** The calls keep the page table and the host protection in step. *)
Lemma op_wf m o b m' : 0 <= op_addr o < 2 ^ 32 -> no_wrap (op_len o) -> mem_step grants file_at m o = Ret (b, m') -> mem_wf m -> mem_wf m'.
Proof.
  intros Ha Hl E Hm. destruct (mem_step_cases grants file_at m o Ha Hl) as [(m1 & E1 & _ & _ & Hw)|(m1 & E1 & (_ & Hp & _ & Hh) & _)]; rewrite E1 in E; injection E as <- <-; [auto|].
  intros i. by rewrite Hp, Hh.
Qed.

Lemma seal_loop_wf strict rs : forall p b p', Forall (window_ok strict (exec_eligible_ p)) rs -> seal_loop grants p rs = Ret (b, p') -> mem_wf (mem_ p) -> mem_wf (mem_ p').
Proof.
  induction rs as [|r rs IH]; intros p b p' Hrs E Hm; cbn [seal_loop] in E; [by injection E as <- <-|]. apply Forall_cons in Hrs as [(H1 & H3 & _) Hrs].
  apply exec_bind_Ret in E as ([ok m] & Em & E). apply (op_wf _ (OpProtect (tr_start r) (tr_length r) (original_prot r))) in Em; [|done|unfold no_wrap; cbn; lia|done].
  destruct (negb ok); [by injection E as <- <-|]. eapply IH; [|exact E|done]. exact Hrs.
Qed.

Lemma mm_step_wf strict o p foreign p' foreign' :
  mm_inv strict p foreign -> mm_typed o -> mm_step grants file_at o p foreign = Ret (p', foreign') -> mem_wf (mem_ p) -> mem_wf (mem_ p').
Proof.
  intros Hinv Ho E Hm. destruct o as [want|allowed marker path errno addr len prot flags fd pgoff|addr len|addr len prot|]; cbn [mm_step mm_typed] in *; apply exec_bind_Ret in E as ([r q] & Er & E); injection E as <- _.
  - destruct (size_pages _ (mi_brk _ _ _ Hinv)) as (E1 & N1 & _). destruct (size_pages _ Ho) as (E2 & N2 & _). unfold no_wrap, page_count in *. unfold sys_brk in Er. destruct (_ <? _); [by injection Er as <- <-|].
    destruct (Z.ltb_spec (page_round_up (brk_current p)) (page_round_up want)).
    + destruct (_ || _); [by injection Er as <- <-|]. apply exec_bind_Ret in Er as ([ok m] & Em & Er).
      apply (op_wf _ (OpMapAnon _ _ _)) in Em; [|apply u32_range|unfold no_wrap; cbn; lia|done]. destruct (negb ok); by injection Er as <- <-.
    + destruct (_ <? _) eqn:El; [|by injection Er as <- <-]. apply Z.ltb_lt in El. apply exec_bind_Ret in Er as ([ok m] & Em & Er).
      apply (op_wf _ (OpUnmap _ _)) in Em; [|apply u32_range|unfold no_wrap; cbn; lia|done]. by injection Er as <- <-.
  - destruct Ho as (_ & Ha & Hl & _). destruct (size_pages len) as (_ & Hnw & _); [lia|]. unfold sys_mmap2 in Er. destruct (len =? 0); [by injection Er as <- <-|].
    destruct (mmap_place _ _ _ _) as [e|at_] eqn:Epl; [by injection Er as <- <-|]. assert (0 <= at_ < 2 ^ 32) as Hat by exact (mmap_place_range _ _ _ _ _ Ha Epl).
    destruct (_ && _); [by injection Er as <- <-|]. apply exec_bind_Ret in Er as ([ok m] & Em & Er).
    assert (mem_wf m) as Hm'. { destruct (has_bits (s32 flags) MAP_ANONYMOUS); [apply (op_wf _ (OpMapAnon _ _ _)) in Em|apply (op_wf _ (OpMapFile _ _ _ _ _ _)) in Em]; done. }
    destruct (negb ok); injection Er as <- <-; [done|]. pose proof (eligibility_memory (with_mem p m) at_ (page_round_up len) (has_bits (s32 flags) MAP_ANONYMOUS || allowed (s32 fd))) as Eel.
    destruct (has_bits (s32 flags) MAP_ANONYMOUS), (has_bits (s32 prot) PROT_EXEC), (marker (s32 fd)); cbn in Eel |- *; by rewrite Eel.
  - destruct Ho as (Ha & Hl). destruct (size_pages len Hl) as (_ & Hnw & _). unfold sys_munmap in Er. destruct (_ || _); [by injection Er as <- <-|].
    destruct (_ <? _); [by injection Er as <- <-|]. apply exec_bind_Ret in Er as ([ok m] & Em & Er). apply (op_wf _ (OpUnmap _ _)) in Em; [|done..].
    destruct (negb ok); injection Er as <- <-; [done|]. cbn. by rewrite eligibility_memory.
  - destruct Ho as (Ha & Hl). destruct (size_pages len Hl) as (_ & Hnw & _). unfold sys_mprotect in Er. do 3 (destruct (_ : bool) in Er; [by injection Er as <- <-|]).
    destruct (_ && _); [by injection Er as <- <-|]. apply exec_bind_Ret in Er as ([ok m] & Em & Er). apply (op_wf _ (OpProtect _ _ _)) in Em; [|done..].
    destruct (negb ok); by injection Er as <- <-.
  - unfold seal_textrel_ranges in Er. apply exec_bind_Ret in Er as ([ok q'] & Es & Er). apply (seal_loop_wf strict) in Es; [|apply (mi_textrel _ _ _ Hinv)|done]. injection Er as <- <-. by destruct (negb ok).
Qed.

Lemma mm_run_ok strict os : forall p foreign, mm_inv strict p foreign -> Forall mm_typed os -> Forall (allowed_for strict) os -> exists p' foreign', mm_run grants file_at os p foreign = Ret (p', foreign') /\ mm_inv strict p' foreign'.
Proof.
  induction os as [|o os IH]; intros p foreign Hinv Hos Hal; [by eexists _, _|]. apply Forall_cons in Hos as [Ho Hos], Hal as [Hao Hal].
  destruct (mm_step_ok strict o p foreign Hinv Ho Hao) as (p1 & f1 & E & H1). cbn [mm_run]. rewrite E, exec_ret_bind. by apply IH.
Qed.
End Steps.

(** ** Claims *)

(** C5: start from a process with every page eligible and no text relocation window.  Whatever sequence of brk, mmap2,
    munmap, mprotect and sealing calls follows, with whatever the host grants and
    whatever files are allowed at each moment, provided none of them is an mmap2 of a file
    at address 0 over all 4 GiB or none of them seals, every call returns, and a page that
    holds a file that was not allowed to be executed when it was mapped is never
    executable.  The condition is needed: see [sealing_after_file_everywhere]. *)
Theorem foreign_never_executable grants file_at os p :
  (forall i, exec_eligible_ p i = true) -> textrel_ranges_ p = [] -> 0 <= brk_current p < 2 ^ 32 -> 0 <= mmap_limit p < 2 ^ 32 ->
  Forall mm_typed os -> Forall (fun o => maps_file_everywhere o = false) os \/ MmSeal ∉ os ->
  exists p' foreign, mm_run grants file_at os p (fun _ => false) = Ret (p', foreign) /\
    forall i, foreign i = true -> has_bits (pages_ (mem_ p') i) kPageExec = false.
Proof.
  intros He Ht Hb Hl Hos Hcond.
  assert (exists strict, Forall (allowed_for strict) os) as [strict Hal].
  { destruct Hcond as [H|H]; [by exists true|exists false]. apply Forall_forall. intros o Ho ->. done. }
  destruct (mm_run_ok grants file_at strict os p (fun _ => false)) as (p' & f' & E & [H1 H2 _ _ _]); [|done|done|].
  { split; try done. by rewrite Ht. }
  exists p', f'. split; [done|]. intros i Hi. destruct (H2 i Hi) as [Hr Hel]. apply not_true_is_false. intros Hx. specialize (H1 i Hr Hx). congruence.
Qed.

(** A file that may be executed and has text relocations is mapped executable; then a file
    that may not is mapped over all 4 GiB: its size, 0 in 32 bits, forgets no window, and
    sealing makes its page executable. *)
Example sealing_after_file_everywhere :
  match mm_run sample_grants sample_file
      [MmMmap2 (fun _ => true) (fun _ => true) (fun _ => []) 0 0x10000 4096 5 (Z.lor MAP_PRIVATE MAP_FIXED) 3 0;
       MmMmap2 (fun _ => false) (fun _ => false) (fun _ => []) 0 0 (2 ^ 32 - 1) 1 (Z.lor MAP_PRIVATE MAP_FIXED) 4 0; MmSeal]
      Process_init (fun _ => false) with
  | Ret (p, foreign) => foreign 0x10 && has_bits (pages_ (mem_ p) 0x10) kPageExec
  | _ => false
  end = true.
Proof. vm_compute. reflexivity. Qed.

(** [sys_brk].  It answers the new break and moves it, or answers the old one and
    changes nothing but the count of host calls.  Growing maps exactly the pages between
    the old and the new top, which were free, readable, writable and zero; shrinking
    changes no other page than those between the two tops; and growing succeeds
    whenever the pages are free, below the mmap limit and granted by the host. *)
Theorem brk_exact grants file_at p want :
  0 <= want < 2 ^ 32 -> 0 <= brk_current p < 2 ^ 32 -> 0 <= mmap_limit p < 2 ^ 32 ->
  let old_top := page_count (brk_current p) in
  let new_top := page_count want in
  exists r p', sys_brk grants file_at p want = Ret (r, p') /\ exec_eligible_ p' = exec_eligible_ p /\
    (r = s32 (brk_current p) /\ brk_current p' = brk_current p /\ same_space (mem_ p) (mem_ p')
     \/ brk_start p <= want /\ r = s32 want /\ brk_current p' = want /\
        (forall i, ~ (Z.min old_top new_top <= i < Z.max old_top new_top) -> pages_ (mem_ p') i = pages_ (mem_ p) i) /\
        (forall i, old_top <= i < new_top -> pages_ (mem_ p) i = 0 /\ pages_ (mem_ p') i = flags_from_prot 3) /\
        (forall a, old_top * 4096 <= a < new_top * 4096 -> bytes_ (mem_ p') a = 0)) /\
    ((forall n q, grants n q = true) -> ok (mem_ p) = true -> brk_start p <= want -> new_top * 4096 <= mmap_limit p ->
     (forall i, old_top <= i < new_top -> pages_ (mem_ p) i = 0) -> r = s32 want /\ brk_current p' = want).
Proof.
  intros Hw Hb Hl old_top new_top. destruct (size_pages _ Hb) as (Eo & _ & _). destruct (size_pages _ Hw) as (En & _ & _).
  assert (0 <= old_top /\ 0 <= new_top) as [Ho0 Hn0] by (unfold old_top, new_top, page_count; lia).
  assert (forall m, same_space m m) as Hrefl by (intros m0; by repeat split). assert (forall m, same_space m (called m)) as Hcalled by (intros m0; by repeat split).
  unfold sys_brk. rewrite Eo, En. fold old_top new_top. destruct (Z.ltb_spec want (brk_start p)).
  { eexists _, p. split; [done|]. split; [done|]. split; [left; split; [done|]; split; [done|]; (apply Hrefl || apply Hcalled)|]. lia. }
  destruct (Z.ltb_spec (old_top * 4096) (new_top * 4096)) as [Hlt|Hge].
  - assert (page_count (new_top * 4096 - old_top * 4096) = new_top - old_top) as Epc by (unfold page_count; lia).
    destruct (Z.ltb_spec (mmap_limit p) (new_top * 4096)) as [Hml|Hml]; cbn [orb].
    { eexists _, p. split; [done|]. split; [done|]. split; [left; split; [done|]; split; [done|]; (apply Hrefl || apply Hcalled)|]. lia. }
    rewrite u32_small by lia. assert (old_top * 4096 / 4096 = old_top) as Ed by (apply Z.div_mul; lia).
    assert (range_free (mem_ p) (old_top * 4096) (new_top * 4096 - old_top * 4096) = true <-> forall i, old_top <= i < new_top -> pages_ (mem_ p) i = 0) as Hrf.
    { rewrite (range_free_run _ _ _ (mmap_limit p)) by (rewrite ?Epc, ?Ed; lia). unfold free_run. rewrite Ed, Epc.
      split; intros Hf i Hi; apply Hf; lia. }
    destruct (range_free _ _ _) eqn:Erf; cbn [negb].
    2: { eexists _, p. split; [done|]. split; [done|]. split; [left; split; [done|]; split; [done|]; (apply Hrefl || apply Hcalled)|]. intros _ _ _ _ Hf. by apply Hrf in Hf. }
    rewrite map_anon_run by (unfold no_wrap; lia). rewrite exec_ret_bind.
    assert (good_range (old_top * 4096) (new_top * 4096 - old_top * 4096)) as Hg by (unfold good_range; rewrite Epc; lia).
    rewrite (bool_decide_eq_true_2 _ Hg), andb_true_r. destruct (ok (mem_ p)); [destruct (grants _ _) eqn:Egr|]; cbn [negb].
    + eexists _, _. split; [done|]. split; [done|]. split; [|done]. right. split_and!; try done.
      * intros i Hi. cbn [mem_ pages_ with_brk with_mem remapped]. rewrite Ed, Epc, fill_decide, decide_False by lia. done.
      * intros i Hi. split; [by apply Hrf|]. cbn [mem_ pages_ with_brk with_mem remapped]. rewrite Ed, Epc, fill_decide, decide_True by lia. done.
      * intros a Ha. cbn [mem_ bytes_ with_brk with_mem remapped]. rewrite Epc. rewrite (proj2 (Z.leb_le _ _)), (proj2 (Z.ltb_lt _ _)) by lia. done.
    + eexists _, _. split; [done|]. split; [done|]. split; [left; split; [done|]; split; [done|]; (apply Hrefl || apply Hcalled)|]. intros Hgr. by rewrite Hgr in Egr.
    + eexists _, _. split; [done|]. split; [done|]. split; [left; split; [done|]; split; [done|]; (apply Hrefl || apply Hcalled)|]. done.
  - destruct (Z.ltb_spec (new_top * 4096) (old_top * 4096)) as [Hlt|Hge'].
    + rewrite (u32_small (new_top * 4096)) by (unfold new_top, old_top, page_count in *; lia).
      rewrite unmap_run by (unfold no_wrap; unfold new_top, old_top, page_count in *; lia). rewrite exec_ret_bind.
      assert (page_count (old_top * 4096 - new_top * 4096) = old_top - new_top) as Epc by (unfold page_count; lia).
      destruct (ok (mem_ p) && _); [destruct (grants _ _)|].
      all: eexists _, _; split; [done|]; split; [done|]; split; [|done]; right; split_and!; try done; try lia.
      intros i Hi. cbn [mem_ pages_ with_brk with_mem invalidate remapped]. rewrite Z.div_mul, Epc, fill_decide, decide_False by lia. done.
    + eexists _, _. split; [done|]. split; [done|]. split; [|done]. right. split_and!; try done; lia.
Qed.

(** ** Witnesses *)

Lemma foreign_never_executable_witness :
  exists p' foreign, mm_run sample_grants sample_file
      [MmMmap2 (fun _ => false) (fun _ => false) (fun _ => []) 0 0 5000 1 MAP_PRIVATE 3 0; MmBrk 0x2000; MmMprotect 0xfdffe000 1 5; MmMunmap 0xfdffe000 1]
      Process_init (fun _ => false) = Ret (p', foreign) /\
    forall i, foreign i = true -> has_bits (pages_ (mem_ p') i) kPageExec = false.
Proof.
  apply (foreign_never_executable sample_grants sample_file).
  - reflexivity.
  - reflexivity.
  - cbn. lia.
  - cbn. unfold kMmapLimit. lia.
  - repeat (apply Forall_cons; split; [cbn; lia|]). apply Forall_nil. exact I.
  - left. repeat (apply Forall_cons; split; [reflexivity|]). apply Forall_nil. exact I.
Defined.

(** The first mmap2 of that history makes its pages foreign, and mprotect refuses to
    make one of them executable. *)
Example foreign_mapping_refused :
  match mm_run sample_grants sample_file [MmMmap2 (fun _ => false) (fun _ => false) (fun _ => []) 0 0 5000 1 MAP_PRIVATE 3 0] Process_init (fun _ => false) with
  | Ret (p, foreign) => foreign 0xfdffe && foreign 0xfdfff && match sys_mprotect sample_grants p 0xfdffe000 1 5 with Ret (r, _) => r =? - ENOEXEC | _ => false end
  | _ => false
  end = true.
Proof. vm_compute. reflexivity. Qed.

Lemma brk_exact_witness :
  exists r p', sys_brk sample_grants sample_file Process_init 5000 = Ret (r, p') /\
    (r = s32 (brk_current Process_init) /\ brk_current p' = 0 /\ same_space (mem_ Process_init) (mem_ p') \/ brk_current p' = 5000).
Proof.
  destruct (brk_exact sample_grants sample_file Process_init 5000) as (r & p' & E & _ & [H|H] & _).
  - lia.
  - cbn. lia.
  - cbn. unfold kMmapLimit. lia.
  - exists r, p'. split; [exact E|]. left. exact H.
  - exists r, p'. split; [exact E|]. right. apply H.
Defined.
