(* ===== verification/Kernel.v ===== *)
(** * Calling the host kernel

    The system calls of [core/src/syscalls.cpp] check the guest's arguments, hand
    guest memory to the host kernel by pointer and translate what comes back.  They
    are programs of a small monad over guest memory and the log of host calls made so
    far.  What the kernel answers is the parameter [host]; an answer carries the
    result, [errno], the bytes the kernel stored into guest memory and the fields of
    a structure it filled for the bridge. *)

From stdpp Require Import numbers list strings.
From Stdlib Require Import Ascii.
From S2P Require Import Prelude Bytes GuestMemory InitialStack GuestThread.
Local Open Scope Z_scope.

Definition EFAULT : Z := 14.

(** The bytes of a literal. *)
Fixpoint lit (s : string) : list Z :=
  match s with
  | EmptyString => []
  | String c s => Z.of_nat (nat_of_ascii c) :: lit s
  end.

(** ** Host calls *)

(** An argument: a number, null, guest memory by pointer with the access the kernel
    may make, a host path, a structure of the bridge with its fields, or one that the
    kernel fills in. *)
Inductive harg :=
| HInt (z : Z)
| HNull
| HGuest (addr len need : Z)
| HPath (path : list Z)
| HData (fields : list Z)
| HOut.

Record hostcall := { h_name : string; h_args : list harg }.

Record answer := { ret : Z; errno : Z; guest_writes : list (Z * list Z); outs : list Z }.

Record K := { km : GuestMemory; klog : list hostcall }.

Definition sysm (A : Type) : Type := K -> exec (A * K).

#[global] Instance sysm_ret : MRet sysm := fun A a k => Ret (a, k).
#[global] Instance sysm_bind : MBind sysm := fun A B f c k => match c k with Ret (a, k) => f a k | Aborted => Aborted | Undefined => Undefined end.

(** [std::int32_t result_of(long)]. *)
Definition result_of (a : answer) : Z := if ret a =? -1 then - errno a else s32 (ret a).

(** The [i]-th field the kernel filled in. *)
Definition out (a : answer) (i : nat) : Z := nth i (outs a) 0.

Fixpoint store_all (m : GuestMemory) (ws : list (Z * list Z)) : exec GuestMemory :=
  match ws with
  | [] => Ret m
  | (a, bs) :: ws => m ← host_write m a bs; store_all m ws
  end.

Section Host.
Context (host : list hostcall -> hostcall -> answer).

Definition call (name : string) (args : list harg) : sysm answer := fun k =>
  let c := {| h_name := name; h_args := args |} in
  let a := host (klog k) c in
  m ← store_all (km k) (guest_writes a);
  Ret (a, {| km := m; klog := klog k ++ [c] |}).

(** [m.host_ptr(..)]. *)
Definition get_ptr (addr len need : Z) : sysm (option Z) := fun k => Ret (host_ptr (km k) addr len need, k).

(** [m.accessible(..)]. *)
Definition get_accessible (addr len need : Z) : sysm bool := fun k => Ret (accessible (km k) addr len need, k).

(** A host load of [n] bytes. *)
Definition load_bytes (m : GuestMemory) (a : Z) (n : nat) : exec (list Z) :=
  if forallb (fun i => has_bits (hprot m ((a + Z.of_nat i) / kPageSize)) PROT_READ) (seq 0 n)
  then Ret (map (fun i => u8 (bytes_ m (a + Z.of_nat i))) (seq 0 n)) else Undefined.

(** [memcpy] of bytes behind a valid pointer. *)
Definition peek (a : Z) (n : nat) : sysm (list Z) := fun k => bs ← load_bytes (km k) a n; Ret (bs, k).
Definition poke (a : Z) (bs : list Z) : sysm unit := fun k => m ← host_write (km k) a bs; Ret (tt, {| km := m; klog := klog k |}).

(** The 32-bit words of a list of bytes. *)
Fixpoint to_words (n : nat) (bs : list Z) : list Z :=
  match n with
  | O => []
  | S n => le (take 4 bs) :: to_words n (drop 4 bs)
  end.
Definition from_words (ws : list Z) : list Z := flat_map (to_le 4) ws.

(** [read_guest] and [write_guest] on a structure of [n] words. *)
Definition read_guest (n : nat) (addr : Z) : sysm (option (list Z)) :=
  p ← get_ptr addr (4 * Z.of_nat n) kPageRead;
  match p with
  | None => mret None
  | Some p => bs ← peek p (4 * n); mret (Some (to_words n bs))
  end.

Definition write_guest (addr : Z) (bs : list Z) : sysm bool :=
  p ← get_ptr addr (size bs) kPageWrite;
  match p with
  | None => mret false
  | Some p => _ ← poke p bs; mret true
  end.

(** ** Guest strings *)

(** The bytes before the first zero. *)
Fixpoint until_zero (bs : list Z) : option (list Z) :=
  match bs with
  | [] => None
  | b :: bs => if b =? 0 then Some [] else cons b <$> until_zero bs
  end.

(** The loop of [guest_cstr]: page by page, [fuel] pages at most. *)
Fixpoint cstr_loop (fuel : nat) (a : Z) (acc : list Z) : sysm (option (list Z)) :=
  match fuel with
  | O => mret None
  | S fuel =>
      if kGuestSpaceSize <=? a then mret None
      else
        ok ← get_accessible (u32 a) 1 kPageRead;
        if negb ok then mret None
        else
          let page_end := page_round_up (a + 1) in
          bs ← peek a (Z.to_nat (page_end - a));
          match until_zero bs with
          | Some s => mret (Some (acc ++ s))
          | None => cstr_loop fuel page_end (acc ++ bs)
          end
  end.

(** There are [2^20] pages. *)
Definition guest_cstr (addr : Z) : sysm (option (list Z)) :=
  if addr =? 0 then mret None else cstr_loop (Z.to_nat (2 ^ 20)) addr [].
End Host.

Lemma page_end_spec a : 0 <= a < 2 ^ 32 -> page_round_up (a + 1) = (a / 4096 + 1) * 4096.
Proof.
  intros Ha. rewrite page_round_up_spec by lia. f_equal. replace (a + 1 + 4095) with (a + 1 * 4096) by lia. rewrite Z.div_add by lia. lia.
Qed.

(** ** Safe programs *)

Section Safe.
Context (host : list hostcall -> hostcall -> answer).

(** The guest pointers of a call are accessible, in the page table of [m0]. *)
Definition arg_ok (m0 : GuestMemory) (a : harg) : Prop :=
  match a with
  | HGuest addr len need => 0 <= addr < 2 ^ 32 /\ 0 <= len < 2 ^ 40 /\ (len = 0 \/ accessible m0 addr len need = true)
  | _ => True
  end.

Definition call_ok (m0 : GuestMemory) (c : hostcall) : Prop := Forall (arg_ok m0) (h_args c).

(** The kernel stores only into buffers it was given for writing. *)
Definition kernel_ok : Prop :=
  forall log c a bs, (a, bs) ∈ guest_writes (host log c) -> bs <> [] ->
    exists addr len need, HGuest addr len need ∈ h_args c /\ has_bits need kPageWrite = true /\ addr <= a /\ a + size bs <= addr + len.

(** What a step of a program may do: memory changes on writable pages, and every host
    call in the log got accessible memory. *)
Definition step_ok (m0 : GuestMemory) (k k' : K) : Prop :=
  only_writable (km k) (km k') /\ exists cs, klog k' = klog k ++ cs /\ Forall (call_ok m0) cs.

(** The program returns a value with [Q] and makes only such steps, from any state with
    the page table of [m0]. *)
Definition gives {A} (m0 : GuestMemory) (c : sysm A) (Q : A -> Prop) : Prop :=
  forall k, mem_wf (km k) -> pages_ (km k) = pages_ m0 -> exists a k', c k = Ret (a, k') /\ step_ok m0 k k' /\ Q a.

Definition safe {A} (m0 : GuestMemory) (c : sysm A) : Prop := gives m0 c (fun _ => True).

Lemma step_ok_refl m0 k : step_ok m0 k k.
Proof. split; [apply only_writable_refl|]. exists []. by rewrite app_nil_r. Qed.

Lemma step_ok_trans m0 k1 k2 k3 : step_ok m0 k1 k2 -> step_ok m0 k2 k3 -> step_ok m0 k1 k3.
Proof.
  intros [H1 (c1 & E1 & F1)] [H2 (c2 & E2 & F2)]. split; [by eapply only_writable_trans|].
  exists (c1 ++ c2). rewrite E2, E1, app_assoc. split; [done|]. by apply Forall_app.
Qed.

Lemma gives_ret {A} m0 (a : A) (Q : A -> Prop) : Q a -> gives m0 (mret a) Q.
Proof. intros H k _ _. eexists _, k. split; [done|]. split; [apply step_ok_refl|done]. Qed.

Lemma gives_bind {A B} m0 (c : sysm A) P (f : A -> sysm B) Q : gives m0 c P -> (forall a, P a -> gives m0 (f a) Q) -> gives m0 (c ≫= f) Q.
Proof.
  intros Hc Hf k Hm Hp. destruct (Hc k Hm Hp) as (a & k1 & E1 & H1 & HP). destruct (Hf a HP k1) as (b & k2 & E2 & H2 & HQ).
  - eapply only_writable_wf; [apply H1|done].
  - destruct H1 as [(Hp1 & _ & _) _]. congruence.
  - exists b, k2. unfold mbind, sysm_bind. rewrite E1. split; [done|]. split; [by eapply step_ok_trans|done].
Qed.

Lemma gives_ret_bind {A B} m0 (a : A) (f : A -> sysm B) Q : gives m0 (f a) Q -> gives m0 (mret a ≫= f) Q.
Proof. intros H k Hm Hp. exact (H k Hm Hp). Qed.

Lemma gives_mono {A} m0 (c : sysm A) (P Q : A -> Prop) : gives m0 c P -> (forall a, P a -> Q a) -> gives m0 c Q.
Proof. intros Hc H k Hm Hp. destruct (Hc k Hm Hp) as (a & k' & E & Hs & HP). exists a, k'. auto. Qed.

Lemma gives_safe {A} m0 (c : sysm A) Q : gives m0 c Q -> safe m0 c.
Proof. intros H. by eapply gives_mono. Qed.

Lemma gives_if {A} m0 (b : bool) (c d : sysm A) Q :
  (b = true -> gives m0 c Q) -> (b = false -> gives m0 d Q) -> gives m0 (if b then c else d) Q.
Proof. destruct b; auto. Qed.

Lemma gives_accessible m0 addr len need : gives m0 (get_accessible addr len need) (fun b => b = accessible m0 addr len need).
Proof. intros k _ Hp. eexists _, k. split; [done|]. split; [apply step_ok_refl|]. by apply accessible_same. Qed.

Lemma gives_get_ptr m0 addr len need :
  gives m0 (get_ptr addr len need) (fun r => match r with Some p => p = addr /\ accessible m0 addr len need = true | None => accessible m0 addr len need = false end).
Proof.
  intros k _ Hp. eexists _, k. split; [done|]. split; [apply step_ok_refl|]. unfold host_ptr.
  rewrite (accessible_same m0 (km k)) by done. by destruct (accessible m0 addr len need).
Qed.

Lemma load_bytes_ok m a n need :
  mem_wf m -> 0 <= a < 2 ^ 32 -> Z.of_nat n < 2 ^ 40 -> accessible m a (Z.of_nat n) need = true -> has_bits need (Z.lor kPageRead kPageExec) = true ->
  load_bytes m a n = Ret (map (fun i => u8 (bytes_ m (a + Z.of_nat i))) (seq 0 n)).
Proof.
  intros Hm Ha Hn Hacc Hneed. apply accessible_pages in Hacc as Hp; [|lia..]. unfold load_bytes.
  assert (forallb (fun i => has_bits (hprot m ((a + Z.of_nat i) / kPageSize)) PROT_READ) (seq 0 n) = true) as ->; [|done].
  apply forallb_forall. intros i Hi%in_seq. change kPageSize with 4096. destruct Hp as [?|[_ Hp]]; [lia|].
  destruct (page_ok_access _ _ need (Hm ((a + Z.of_nat i) / 4096))) as [Hr _]; [|by apply Hr]. apply Hp. split; apply Z.div_le_mono; lia.
Qed.

Lemma peek_ok m0 a n need :
  0 <= a < 2 ^ 32 -> Z.of_nat n < 2 ^ 40 -> accessible m0 a (Z.of_nat n) need = true -> has_bits need (Z.lor kPageRead kPageExec) = true ->
  gives m0 (peek a n) (fun bs => length bs = n /\ bytes_ok bs).
Proof.
  intros Ha Hn Hacc Hneed k Hm Hp. unfold peek. rewrite (load_bytes_ok _ _ _ need) by (done || by rewrite (accessible_same m0)).
  rewrite exec_ret_bind. eexists _, k. split; [done|]. split; [apply step_ok_refl|]. split; [by rewrite length_map, length_seq|].
  apply Forall_forall. intros b Hb. apply list_elem_of_fmap in Hb as (i & -> & _). apply u8_range.
Qed.

(** A write into accessible memory. *)
Lemma write_ok m a bs addr len need :
  mem_wf m -> 0 <= addr < 2 ^ 32 -> 0 <= len < 2 ^ 40 -> accessible m addr len need = true -> has_bits need kPageWrite = true ->
  addr <= a -> a + size bs <= addr + len -> exists m', host_write m a bs = Ret m' /\ only_writable m m'.
Proof.
  intros Hm Ha Hl Hacc Hneed Hle Hend. unfold size in Hend. destruct (decide (bs = [])) as [->|Hne].
  { exists m. unfold host_write. rewrite decide_True by done. split; [done|]. apply only_writable_refl. }
  assert (0 < length bs)%nat by (destruct bs; [done|cbn; lia]).
  apply accessible_pages in Hacc as Hp; [|lia..]. destruct Hp as [?|[Hb Hp]]; [lia|].
  assert (forall i, a / 4096 <= i <= (a + Z.of_nat (length bs) - 1) / 4096 -> page_has m kPageWrite i) as Hw.
  { intros i Hi. assert (page_has m need i) as Hpi.
    { apply Hp. split; [etrans; [|apply Hi]; apply Z.div_le_mono; lia|etrans; [apply Hi|]; apply Z.div_le_mono; lia]. }
    clear -Hpi Hneed. unfold page_has in *. apply Z.bits_inj'. intros j Hj. apply (f_equal (fun z => Z.testbit z j)) in Hpi.
    rewrite !Z.land_spec, !Z.lor_spec in *. destruct (Z.testbit (pages_ m i) j); [done|]. cbn in *.
    destruct (Z.testbit kPageMapped j) eqn:Em; [by rewrite orb_true_r in Hpi|]. rewrite orb_false_r in *.
    destruct (decide (j = 1)) as [->|]; [|change kPageWrite with (2 ^ 1); by rewrite Z.pow2_bits_false]. exfalso.
    unfold has_bits in Hneed. apply negb_true_iff, Z.eqb_neq in Hneed. apply Hneed. apply Z.bits_inj'. intros q Hq. rewrite Z.land_spec, Z.bits_0.
    destruct (decide (q = 1)) as [->|]; [by rewrite <- Hpi|]. change kPageWrite with (2 ^ 1). by rewrite Z.pow2_bits_false, andb_false_r. }
  destruct (write_accessible m a bs) as (m' & E & (_ & Hpg & Hh & Hby) & _); [done|lia|unfold size; lia| |].
  { unfold size. apply accessible_pages; [lia..|]. right. split; [lia|done]. }
  exists m'. split; [done|]. split_and!; [done..|]. intros x Hx. destruct (decide (a <= x < a + size bs)) as [Hin|Hout]; [|by destruct Hx; apply Hby].
  unfold size in Hin. apply Hw. split; apply Z.div_le_mono; lia.
Qed.

Lemma poke_ok m0 a bs addr len need :
  0 <= addr < 2 ^ 32 -> 0 <= len < 2 ^ 40 -> accessible m0 addr len need = true -> has_bits need kPageWrite = true ->
  addr <= a -> a + size bs <= addr + len -> safe m0 (poke a bs).
Proof.
  intros Ha Hl Hacc Hneed Hle Hend k Hm Hp. unfold poke.
  destruct (write_ok (km k) a bs addr len need) as (m' & E & How); try done; [by rewrite (accessible_same m0)|].
  rewrite E, exec_ret_bind. eexists _, _. split; [done|]. split; [|done]. split; [done|]. exists []. by rewrite app_nil_r.
Qed.

Hypothesis Hkernel : kernel_ok.

Lemma gives_call m0 name args :
  Forall (arg_ok m0) args -> gives m0 (call host name args) (fun a => exists log, a = host log {| h_name := name; h_args := args |}).
Proof.
  intros Hargs k Hm Hp. unfold call. set (c := {| h_name := name; h_args := args |}). set (ws := guest_writes (host (klog k) c)).
  assert (forall a bs, (a, bs) ∈ ws -> bs <> [] -> exists addr len need, HGuest addr len need ∈ args /\ has_bits need kPageWrite = true /\ addr <= a /\ a + size bs <= addr + len) as Hws
    by (intros a bs; apply Hkernel).
  assert (exists m', store_all (km k) ws = Ret m' /\ only_writable (km k) m') as (m' & E & How).
  { clearbody ws. clear c. revert Hm Hp. generalize (km k). induction ws as [|[a bs] ws IH]; intros m Hm Hp.
    { exists m. split; [done|]. apply only_writable_refl. }
    cbn [store_all]. assert (exists m1, host_write m a bs = Ret m1 /\ only_writable m m1) as (m1 & E1 & H1).
    { destruct (decide (bs = [])) as [->|Hne].
      { exists m. unfold host_write. rewrite decide_True by done. split; [done|]. apply only_writable_refl. }
      destruct (Hws a bs) as (addr & len & need & Hin & Hneed & Hle & Hend); [by left|done|].
      rewrite Forall_forall in Hargs. destruct (Hargs _ Hin) as (Ha & Hl & Hacc).
      destruct Hacc as [->|Hacc]; [exfalso; destruct bs; [done|unfold size in Hend; cbn [length] in Hend; lia]|].
      eapply write_ok; try done. by rewrite (accessible_same m0). }
    rewrite E1, exec_ret_bind. destruct (IH ltac:(intros; apply Hws; [by right|done]) m1) as (m2 & E2 & H2).
    - by eapply only_writable_wf.
    - destruct H1 as (Hp1 & _ & _). congruence.
    - exists m2. split; [done|]. by eapply only_writable_trans. }
  rewrite E, exec_ret_bind. eexists _, _. split; [done|]. split; [|by eexists]. split; [done|]. exists [c]. split; [done|]. by apply Forall_singleton.
Qed.

Lemma safe_call m0 name args : Forall (arg_ok m0) args -> safe m0 (call host name args).
Proof. intros H. by eapply gives_safe, gives_call. Qed.

(** Structures of words. *)
Lemma to_words_length n bs : length (to_words n bs) = n.
Proof. revert bs. induction n as [|n IH]; intros bs; cbn; [done|]. by rewrite IH. Qed.

Lemma to_words_ok n bs : bytes_ok bs -> (4 * n <= length bs)%nat -> Forall (fun w => 0 <= w < 2 ^ 32) (to_words n bs).
Proof.
  revert bs. induction n as [|n IH]; intros bs Hb Hl; cbn [to_words]; [done|]. apply Forall_cons. split.
  - pose proof (le_range (take 4 bs) (Forall_take _ _ _ Hb)) as Hr. rewrite length_take in Hr. by replace (4 `min` length bs)%nat with 4%nat in Hr by lia.
  - apply IH; [by apply Forall_drop|]. rewrite length_drop. lia.
Qed.

Lemma gives_read_guest m0 n addr :
  0 <= addr < 2 ^ 32 -> Z.of_nat n < 2 ^ 36 ->
  gives m0 (read_guest n addr) (fun r => match r with Some ws => length ws = n /\ Forall (fun w => 0 <= w < 2 ^ 32) ws | None => True end).
Proof.
  intros Ha Hn. eapply gives_bind; [apply gives_get_ptr|]. intros [p|]; [|intros _; by apply gives_ret]. intros [-> Hacc].
  eapply gives_bind; [apply (peek_ok m0 addr (4 * n) kPageRead); [done|lia| |done]|].
  - by replace (Z.of_nat (4 * n)) with (4 * Z.of_nat n) by lia.
  - intros bs [Hl Hb]. apply gives_ret. split; [apply to_words_length|]. apply to_words_ok; [done|lia].
Qed.

Lemma safe_write_guest m0 addr bs : 0 <= addr < 2 ^ 32 -> size bs < 2 ^ 40 -> safe m0 (write_guest addr bs).
Proof.
  intros Ha Hs. eapply gives_bind; [apply gives_get_ptr|]. intros [p|]; [|intros _; by apply gives_ret]. intros [-> Hacc].
  eapply gives_bind; [|intros _ _; by apply gives_ret]. eapply (poke_ok m0 addr bs addr (size bs) kPageWrite); try done. unfold size in *. lia.
Qed.

Lemma accessible_page m a n : 0 <= a < 2 ^ 32 -> 0 < n -> a + n <= (a / 4096 + 1) * 4096 -> accessible m a 1 kPageRead = true -> accessible m a n kPageRead = true.
Proof.
  intros Ha Hn Hend Hacc. apply accessible_pages in Hacc as Hp; [|lia..]. destruct Hp as [?|[_ Hp]]; [lia|].
  pose proof (Z.div_mod a 4096 ltac:(lia)). pose proof (Z.mod_pos_bound a 4096 ltac:(lia)).
  assert (a / 4096 < 2 ^ 20) by (apply Z.div_lt_upper_bound; lia).
  apply accessible_pages; [lia..|]. right. split; [lia|]. intros i Hi. apply Hp.
  replace (a + 1 - 1) with a by lia. assert ((a + n - 1) / 4096 <= a / 4096) by (apply Z.lt_succ_r, Z.div_lt_upper_bound; lia). lia.
Qed.

Lemma safe_cstr_loop m0 fuel a acc : 0 <= a -> safe m0 (cstr_loop fuel a acc).
Proof.
  revert a acc. induction fuel as [|fuel IH]; intros a acc Ha; cbn [cstr_loop]; [by apply gives_ret|].
  change kGuestSpaceSize with (2 ^ 32). destruct (Z.leb_spec (2 ^ 32) a) as [|Hlt]; [by apply gives_ret|].
  rewrite u32_small by lia. eapply gives_bind; [apply gives_accessible|]. intros b ->.
  destruct (accessible m0 a 1 kPageRead) eqn:Eacc; cbn [negb]; [|by apply gives_ret].
  pose proof (Z.div_mod a 4096 ltac:(lia)). pose proof (Z.mod_pos_bound a 4096 ltac:(lia)).
  rewrite page_end_spec by lia. eapply gives_bind; [apply (peek_ok m0 a _ kPageRead)|]; [lia|lia| |done|].
  { rewrite Z2Nat.id by lia. apply accessible_page; [lia|lia|lia|done]. }
  intros bs [Hl _]. destruct (until_zero bs); [by apply gives_ret|]. apply IH. lia.
Qed.

Lemma safe_cstr m0 addr : 0 <= addr < 2 ^ 32 -> safe m0 (guest_cstr addr).
Proof. intros Ha. unfold guest_cstr. case_match; [by apply gives_ret|]. apply safe_cstr_loop. lia. Qed.
End Safe.

(** ** Programs that change nothing *)

Definition pure_prog {A} (c : sysm A) : Prop := forall k a k', c k = Ret (a, k') -> k' = k.

Lemma pure_ret {A} (a : A) : pure_prog (mret a).
Proof. intros k b k' E. by injection E. Qed.

Lemma pure_bind {A B} (c : sysm A) (f : A -> sysm B) : pure_prog c -> (forall a, pure_prog (f a)) -> pure_prog (c ≫= f).
Proof.
  intros Hc Hf k b k' E. unfold mbind, sysm_bind in E. destruct (c k) as [[a k1]| |] eqn:E1; [|done..]. apply Hc in E1 as ->. by eapply Hf.
Qed.

Lemma pure_get_ptr addr len need : pure_prog (get_ptr addr len need).
Proof. intros k a k' E. by injection E. Qed.

Lemma pure_peek a n : pure_prog (peek a n).
Proof. intros k bs k' E. unfold peek in E. destruct (load_bytes _ _ _) as [x| |]; [|done..]. by injection E. Qed.

Lemma pure_read_guest n addr : pure_prog (read_guest n addr).
Proof.
  apply pure_bind; [apply pure_get_ptr|]. intros [p|]; [|apply pure_ret]. apply pure_bind; [apply pure_peek|]. intros. apply pure_ret.
Qed.

#[export] Hint Resolve pure_ret pure_bind pure_get_ptr pure_peek pure_read_guest : zb.

(** ** Guest strings, exactly *)

(** The [n] bytes at [a] as the host reads them. *)
Definition bytes_at (m : GuestMemory) (a : Z) (n : nat) : list Z := map (fun i => u8 (bytes_ m (a + Z.of_nat i))) (seq 0 n).

Definition readable (m : GuestMemory) (x : Z) : Prop := page_has m kPageRead (x / 4096).

(** From [addr] on there are [s], not holding a zero, on readable pages. *)
Definition text_at (m : GuestMemory) (addr : Z) (s : list Z) : Prop :=
  s = bytes_at m addr (length s) /\ Forall (fun b => b <> 0) s /\ forall x, addr <= x < addr + size s -> readable m x.

Lemma length_bytes_at m a n : length (bytes_at m a n) = n.
Proof. unfold bytes_at. by rewrite length_map, length_seq. Qed.

Lemma bytes_at_app m a n k : bytes_at m a (n + k) = bytes_at m a n ++ bytes_at m (a + Z.of_nat n) k.
Proof.
  unfold bytes_at. rewrite seq_app, map_app. f_equal.
  apply list_eq. intros i. rewrite !list_lookup_fmap. destruct (decide (i < k)%nat).
  - rewrite !lookup_seq_lt by done. cbn. do 3 f_equal. lia.
  - rewrite !lookup_seq_ge by lia. done.
Qed.

Lemma text_at_app m addr s s' : text_at m addr s -> text_at m (addr + size s) s' -> text_at m addr (s ++ s').
Proof.
  intros (E & H & R) (E' & H' & R'). unfold text_at, size in *. rewrite length_app, bytes_at_app, <- E, <- E'. split_and!; [done|by apply Forall_app|].
  intros x Hx. destruct (decide (x < addr + Z.of_nat (length s))); [apply R; lia|apply R'; lia].
Qed.

Lemma until_zero_spec bs :
  match until_zero bs with
  | Some s => exists rest, bs = s ++ 0 :: rest /\ Forall (fun b => b <> 0) s
  | None => Forall (fun b => b <> 0) bs
  end.
Proof.
  induction bs as [|b bs IH]; cbn [until_zero]; [done|]. destruct (Z.eqb_spec b 0) as [->|Hb]; [by exists bs|].
  destruct (until_zero bs) as [s|]; cbn.
  - destruct IH as (rest & -> & H). exists rest. split; [done|]. by apply Forall_cons.
  - by apply Forall_cons.
Qed.

(** The text read so far, and what ends it. *)
Definition cstr_result (m : GuestMemory) (addr : Z) (r : option (list Z)) : Prop :=
  match r with
  | Some s => text_at m addr s /\ addr + size s < 2 ^ 32 /\ readable m (addr + size s) /\ u8 (bytes_ m (addr + size s)) = 0
  | None => exists s, text_at m addr s /\ (addr + size s = 2 ^ 32 \/ addr + size s < 2 ^ 32 /\ ~ readable m (addr + size s))
  end.

Lemma accessible_byte m a : 0 <= a < 2 ^ 32 -> accessible m a 1 kPageRead = true <-> readable m a.
Proof.
  intros Ha. rewrite accessible_pages by lia. replace (a + 1 - 1) with a by lia. split.
  - intros [?|[_ H]]; [lia|]. by apply H.
  - intros H. right. split; [lia|]. intros i Hi. by replace i with (a / 4096) by lia.
Qed.

(** The bytes up to the end of the page of [a], when it is readable. *)
Lemma page_rest m a : mem_wf m -> 0 <= a < 2 ^ 32 -> readable m a ->
  load_bytes m a (Z.to_nat ((a / 4096 + 1) * 4096 - a)) = Ret (bytes_at m a (Z.to_nat ((a / 4096 + 1) * 4096 - a))) /\
  (forall x, a <= x < (a / 4096 + 1) * 4096 -> readable m x) /\ (a / 4096 + 1) * 4096 <= 2 ^ 32.
Proof.
  intros Hm Ha Hr. pose proof (Z.div_mod a 4096 ltac:(lia)). pose proof (Z.mod_pos_bound a 4096 ltac:(lia)).
  assert (a / 4096 < 2 ^ 20) by (apply Z.div_lt_upper_bound; lia). split_and!; [|intros x Hx|lia].
  - apply (load_bytes_ok m a _ kPageRead); [done|lia|lia| |done]. rewrite Z2Nat.id by lia. apply accessible_page; [lia..|]. by apply accessible_byte.
  - unfold readable in *. replace (x / 4096) with (a / 4096); [done|]. apply (Z.div_unique _ _ _ (x - 4096 * (a / 4096))); lia.
Qed.

(** The rest of a readable page: text up to a zero, or text to its end. *)
Lemma page_text m a : mem_wf m -> 0 <= a < 2 ^ 32 -> readable m a ->
  let bs := bytes_at m a (Z.to_nat ((a / 4096 + 1) * 4096 - a)) in
  match until_zero bs with
  | Some s => text_at m a s /\ a + size s < (a / 4096 + 1) * 4096 /\ readable m (a + size s) /\ u8 (bytes_ m (a + size s)) = 0
  | None => text_at m a bs
  end.
Proof.
  intros Hm Ha Hr bs. destruct (page_rest m a Hm Ha Hr) as (_ & Hpage & _). set (e := (a / 4096 + 1) * 4096) in *.
  assert (a < e) by (unfold e; pose proof (Z.div_mod a 4096 ltac:(lia)); pose proof (Z.mod_pos_bound a 4096 ltac:(lia)); lia).
  assert (length bs = Z.to_nat (e - a)) as Hbl by apply length_bytes_at. pose proof (until_zero_spec bs) as Hz. destruct (until_zero bs) as [s|].
  - destruct Hz as (rest & Ebs & Hs). assert (length bs = length s + 1 + length rest)%nat as Hl by (rewrite Ebs, length_app; cbn; lia).
    assert (bs = bytes_at m a (length s) ++ bytes_at m (a + size s) (S (length rest))) as Esplit.
    { unfold bs, size. rewrite <- bytes_at_app. f_equal. lia. }
    rewrite Ebs in Esplit. apply app_inj_1 in Esplit as [E1 E2]; [|by rewrite length_bytes_at].
    unfold size in *. split_and!; [|lia|apply Hpage; lia|injection E2 as E2 _; by rewrite Z.add_0_r in E2].
    split_and!; [done|done|]. intros x Hx. apply Hpage. unfold size in Hx. lia.
  - split_and!; [unfold bs at 1; by rewrite Hbl|done|]. intros x Hx. unfold size in Hx. apply Hpage. lia.
Qed.

Lemma cstr_loop_exact fuel a acc addr k :
  mem_wf (km k) -> 0 <= addr -> a = addr + size acc -> a <= 2 ^ 32 -> text_at (km k) addr acc -> 2 ^ 20 - a / 4096 <= Z.of_nat fuel ->
  exists r, cstr_loop fuel a acc k = Ret (r, k) /\ cstr_result (km k) addr r.
Proof.
  intros Hm Haddr. revert a acc. induction fuel as [|fuel IH]; intros a acc -> Hle Ht Hf.
  { assert (addr + size acc = 2 ^ 32). { pose proof (Z.mul_div_le (addr + size acc) 4096 ltac:(lia)). lia. }
    exists None. split; [done|]. exists acc. tauto. }
  cbn [cstr_loop]. change kGuestSpaceSize with (2 ^ 32). destruct (Z.leb_spec (2 ^ 32) (addr + size acc)) as [Hend|Hlt].
  { exists None. split; [done|]. exists acc. split; [done|]. left. lia. }
  assert (0 <= addr + size acc < 2 ^ 32) as Ha by (unfold size in *; lia). rewrite u32_small by done.
  pose proof (accessible_byte (km k) _ Ha) as Hacc. unfold mbind, sysm_bind, get_accessible. destruct (accessible _ _ _ _) eqn:Eacc; cbn [negb].
  2: { exists None. split; [done|]. exists acc. split; [done|]. right. split; [done|]. intros Hr. apply Hacc in Hr. done. }
  assert (readable (km k) (addr + size acc)) as Hr by by apply Hacc. clear Hacc. rewrite page_end_spec by lia.
  destruct (page_rest (km k) _ Hm Ha Hr) as (El & Hpage & Hpe). set (e := ((addr + size acc) / 4096 + 1) * 4096) in *. set (a := addr + size acc) in *.
  assert (a < e) by (unfold e; pose proof (Z.div_mod a 4096 ltac:(lia)); pose proof (Z.mod_pos_bound a 4096 ltac:(lia)); lia).
  unfold peek. rewrite El, exec_ret_bind. set (bs := bytes_at (km k) a (Z.to_nat (e - a))) in *.
  assert (length bs = Z.to_nat (e - a)) as Hbl by apply length_bytes_at.
  pose proof (page_text (km k) a Hm Ha Hr) as Hz. cbv zeta in Hz. fold e bs in Hz. destruct (until_zero bs) as [s|].
  - destruct Hz as (Ht' & Hse & Hrs & H0). exists (Some (acc ++ s)). split; [done|].
    assert (addr + size (acc ++ s) = a + size s) as Esz by (unfold a, size; rewrite length_app; lia). split; [by apply text_at_app|]. rewrite Esz. split_and!; [lia|done..].
  - assert (size bs = e - a) as Esz by (unfold size; lia). apply IH; [unfold size in *; rewrite length_app; lia|lia|by apply text_at_app|].
    unfold e. rewrite Z.div_mul by lia. unfold a in *. lia.
Qed.

(** [guest_cstr] always returns, and exactly: a pointer other than null to text that
    lies on readable pages up to and with its first zero gives that text; otherwise
    it gives nothing, and there is a first byte that cannot be read (or the end of the
    address space) before any zero.  Memory is not changed and nothing is asked of the
    host. *)
Theorem guest_cstr_exact (k : K) addr :
  mem_wf (km k) -> 0 <= addr < 2 ^ 32 ->
  exists r, guest_cstr addr k = Ret (r, k) /\ (if decide (addr = 0) then r = None else cstr_result (km k) addr r).
Proof.
  intros Hm Ha. unfold guest_cstr. case_decide as H0; [subst; by exists None|]. rewrite (proj2 (Z.eqb_neq _ _)) by done.
  apply cstr_loop_exact; [done|lia|unfold size; cbn; lia|lia| |].
  - split_and!; [done..|]. intros x Hx. unfold size in Hx. cbn in Hx. lia.
  - rewrite Z2Nat.id by lia. pose proof (Z.div_pos addr 4096 ltac:(lia) ltac:(lia)). lia.
Qed.

(** Two pages with a string across their boundary. *)
Definition sample_text : K :=
  {| km := {| base_ := true; pages_ := pages_ sample_memory; hprot := hprot sample_memory; host_calls := 0%nat;
              bytes_ := fun x => if x =? 0x10fff then 104 else if x =? 0x11000 then 105 else 0 |};
     klog := [] |}.

Lemma sample_text_wf : mem_wf (km sample_text).
Proof. apply sample_memory_wf. Qed.

Lemma guest_cstr_exact_witness :
  guest_cstr 0x10fff sample_text = Ret (Some [104; 105], sample_text) /\
  exists r, guest_cstr 0x10fff sample_text = Ret (r, sample_text) /\
    (if decide (0x10fff = 0) then r = None else cstr_result (km sample_text) 0x10fff r).
Proof. split; [vm_compute; reflexivity|]. apply (guest_cstr_exact sample_text 0x10fff sample_text_wf); lia. Defined.
