(* ===== verification/ProcFiles.v ===== *)
(** * Synthetic files of /proc

    [core/src/proc_files.cpp]: the guest's own [maps], [stat] and [cpuinfo], built from
    the state of the process and handed out as a memory file.  [build_maps] walks the
    page table; its lines are exactly the maximal runs of pages with equal flags and
    name. *)

From stdpp Require Import numbers list strings.
From S2P Require Import Prelude Bytes GuestMemory InitialStack GuestThread ProcessMemory Kernel.
Local Open Scope Z_scope.

Definition EIO : Z := 5.
Definition kKuserPage : Z := 0xFFFF0000.
Definition kMfdCloexec : Z := 1.
Definition O_CLOEXEC : Z := 0x80000.
Definition O_ACCMODE : Z := 3.
Definition kStackTop : Z := 0xFF000000.
Definition kStackSize : Z := 8 * 1024 * 1024.

(** ** Numbers as text *)

Definition digit (d : Z) : Z := if d <? 10 then 48 + d else 87 + d.

Fixpoint digits (fuel : nat) (base z : Z) (acc : list Z) : list Z :=
  match fuel with
  | O => acc
  | S fuel => let acc := digit (z mod base) :: acc in if z / base =? 0 then acc else digits fuel base (z / base) acc
  end.

(** "%d" *)
Definition dec (z : Z) : list Z := if z <? 0 then 45 :: digits 20 10 (- z) [] else digits 20 10 z [].

(** "%08x" *)
Definition hex8 (z : Z) : list Z := let d := digits 16 16 z [] in replicate (8 - length d) 48 ++ d.

(** ** Maps *)

Record map_entry := { e_start : Z; e_end : Z; e_flags : Z; e_offset : Z; e_name : list Z }.

Section Maps.
Context (p : Process).

Definition flags_at (page : Z) : Z := pages_ (mem_ p) page.

Fixpoint mapping_name (ms : list FileMapping) (addr : Z) : list Z * Z :=
  match ms with
  | [] => ([], 0)
  | m :: ms =>
      if (fm_start m <=? addr) && (u32 (addr - fm_start m) <? fm_length m)
      then (fm_path m, if offset_is_vaddr m then 0 else u64 (fm_offset m + u32 (addr - fm_start m))) else mapping_name ms addr
  end.

(** The name of the mapping at [addr], and the offset. *)
Definition name_at (addr : Z) : list Z * Z :=
  if (kStackTop - kStackSize <=? addr) && (addr <? kStackTop) then (lit "[stack]", 0)
  else if addr =? kKuserPage then (lit "[vectors]", 0)
  else mapping_name (file_mappings_ p) addr.

Definition page_count : Z := Z.shiftr kGuestSpaceSize 12.

(** The inner loop: the first page from [end_page] on that does not continue the run. *)
Fixpoint run_end (fuel : nat) (flags : Z) (name : list Z) (end_page : Z) : Z :=
  match fuel with
  | O => end_page
  | S fuel =>
      if (end_page <? page_count) && (flags_at end_page =? flags) then
        if bool_decide (fst (name_at (u32 (Z.shiftl end_page 12))) = name) then run_end fuel flags name (end_page + 1) else end_page
      else end_page
  end.

Fixpoint maps_loop (fuel : nat) (page : Z) : list map_entry :=
  match fuel with
  | O => []
  | S fuel =>
      if page <? page_count then
        let flags := flags_at page in
        if Z.land flags kPageMapped =? 0 then maps_loop fuel (page + 1)
        else
          let start := u32 (Z.shiftl page 12) in
          let '(name, offset) := name_at start in
          let end_page := run_end (Z.to_nat (page_count - page)) flags name (page + 1) in
          {| e_start := start; e_end := Z.shiftl end_page 12; e_flags := flags; e_offset := offset; e_name := name |} :: maps_loop fuel end_page
      else []
  end.

(** Each turn moves on by a page at least. *)
Definition map_entries : list map_entry := maps_loop (S (Z.to_nat page_count)) 0.

Definition map_line (e : map_entry) : list Z :=
  hex8 (e_start e) ++ lit "-" ++ hex8 (e_end e) ++ lit " " ++ (if has_bits (e_flags e) kPageRead then lit "r" else lit "-") ++
  (if has_bits (e_flags e) kPageWrite then lit "w" else lit "-") ++ (if has_bits (e_flags e) kPageExec then lit "x" else lit "-") ++ lit "p " ++
  hex8 (e_offset e) ++ lit " 00:00 0" ++ (if bool_decide (e_name e = []) then [] else lit "                    " ++ e_name e) ++ [10].

Definition build_maps : list Z := flat_map map_line map_entries.
End Maps.

(** ** The files *)

Section Files.
Context (host : list hostcall -> hostcall -> answer) (p : Process) (thread_count initial_sp : Z).

Definition is_self_path (path leaf : list Z) : sysm bool :=
  if bool_decide (path = lit "/proc/self/" ++ leaf) then mret true
  else if bool_decide (path = lit "/proc/thread-self/" ++ leaf) then mret true
  else r ← call host "getpid" []; mret (bool_decide (path = lit "/proc/" ++ dec (ret r) ++ lit "/" ++ leaf)).

Definition build_stat : sysm (list Z) :=
  pid ← call host "getpid" [];
  ppid ← call host "getppid" [];
  pgrp ← call host "getpgrp" [];
  sid ← call host "getsid" [HInt 0];
  mret (dec (ret pid) ++ lit " (zbguest) R " ++ dec (ret ppid) ++ lit " " ++ dec (ret pgrp) ++ lit " " ++ dec (ret sid) ++
        lit " 0 -1 4194304 0 0 0 0 0 0 0 0 20 0 " ++ dec thread_count ++ lit " 0 0 " ++ dec 0 ++ lit " 0 4294967295 " ++ dec 0 ++ lit " " ++
        dec 0 ++ lit " " ++ dec initial_sp ++ lit " 0 0 0 0 0 0 0 0 0 17 0 0 0 0 0 0 0 0 0 0 0 0 0 0" ++ [10]).

Definition cpu_block (i : nat) : list Z :=
  lit "processor" ++ [9] ++ lit ": " ++ dec (Z.of_nat i) ++ [10] ++
  lit "model name" ++ [9] ++ lit ": ARMv8 Processor rev 2 (v8l)" ++ [10] ++
  lit "BogoMIPS" ++ [9] ++ lit ": 38.40" ++ [10] ++
  lit "Features" ++ [9] ++ lit ": half thumb fastmult vfp edsp neon vfpv3 tls vfpv4 idiva idivt vfpd32 lpae evtstrm" ++ [10] ++
  lit "CPU implementer" ++ [9] ++ lit ": 0x51" ++ [10] ++ lit "CPU architecture: 8" ++ [10] ++
  lit "CPU variant" ++ [9] ++ lit ": 0x0" ++ [10] ++ lit "CPU part" ++ [9] ++ lit ": 0x001" ++ [10] ++
  lit "CPU revision" ++ [9] ++ lit ": 2" ++ [10; 10].

(** The kernel counts the processors of the mask. *)
Definition cpuinfo_text : sysm (list Z) :=
  r ← call host "sched_getaffinity" [HInt 0; HOut];
  let cpus := if ret r =? 0 then out r 0 else 1 in
  mret (flat_map cpu_block (seq 0 (Z.to_nat cpus)) ++ lit "Hardware" ++ [9] ++ lit ": ZettaBridge" ++ [10]).

(** The loop of [memfd_with]: [text] is what is left to write. *)
Fixpoint write_loop (fuel : nat) (fd : Z) (text : list Z) : sysm Z :=
  match fuel with
  | O => mret fd
  | S fuel =>
      if bool_decide (text = []) then _ ← call host "lseek" [HInt fd; HInt 0; HInt 0]; mret fd
      else
        r ← call host "write" [HInt fd; HData text; HInt (size text)];
        if ret r <=? 0 then
          let err := if ret r <? 0 then errno r else EIO in
          _ ← call host "close" [HInt fd]; mret (- err)
        else write_loop fuel fd (drop (Z.to_nat (ret r)) text)
  end.

(** Each turn writes a byte at least. *)
Definition memfd_with (text : list Z) (flags : Z) : sysm Z :=
  r ← call host "memfd_create" [HPath (lit "zbridge-proc"); HInt (if has_bits flags O_CLOEXEC then kMfdCloexec else 0)];
  let fd := s32 (ret r) in
  if fd <? 0 then mret (- errno r) else write_loop (S (length text)) fd text.

(** The text of the file that [path] names. *)
Definition synthetic_text (path : list Z) : sysm (option (list Z)) :=
  maps ← is_self_path path (lit "maps");
  if (maps : bool) then mret (Some (build_maps p))
  else
    stat ← is_self_path path (lit "stat");
    if (stat : bool) then t ← build_stat; mret (Some t)
    else if bool_decide (path = lit "/proc/cpuinfo") then t ← cpuinfo_text; mret (Some t)
    else mret None.

Definition open_synthetic_file (path : list Z) (flags : Z) : sysm (option Z) :=
  text ← synthetic_text path;
  match text with
  | None => mret None
  | Some text => if negb (Z.land flags O_ACCMODE =? 0) then mret (Some (- EACCES)) else r ← memfd_with text flags; mret (Some r)
  end.
End Files.

(** ** The lines of maps *)

Definition mapped (p : Process) (page : Z) : Prop := Z.land (flags_at p page) kPageMapped <> 0.

(** The name of page [i]. *)
Definition page_name (p : Process) (i : Z) : list Z := fst (name_at p (i * 4096)).

(** [es] lists the mapped pages from page [lo] on: what lies between the entries is not
    mapped, an entry's pages have its flags and name, and the page after it does not. *)
Fixpoint lists_pages (p : Process) (lo : Z) (es : list map_entry) : Prop :=
  match es with
  | [] => forall i, lo <= i < 2 ^ 20 -> ~ mapped p i
  | e :: es =>
      exists a b, e_start e = a * 4096 /\ e_end e = b * 4096 /\ lo <= a < b /\ b <= 2 ^ 20 /\
        (forall i, lo <= i < a -> ~ mapped p i) /\
        (forall i, a <= i < b -> mapped p i /\ flags_at p i = e_flags e /\ page_name p i = e_name e) /\
        (b = 2 ^ 20 \/ flags_at p b <> e_flags e \/ page_name p b <> e_name e) /\
        e_offset e = snd (name_at p (e_start e)) /\ lists_pages p b es
  end.

Lemma lists_pages_skip p lo es : ~ mapped p lo -> lists_pages p (lo + 1) es -> lists_pages p lo es.
Proof.
  intros Hlo. assert (forall hi, (forall i, lo + 1 <= i < hi -> ~ mapped p i) -> forall i, lo <= i < hi -> ~ mapped p i) as Hext.
  { intros hi H i Hi. destruct (decide (i = lo)) as [->|]; [done|]. apply H. lia. }
  destruct es as [|e es]; cbn [lists_pages]; [apply Hext|]. intros (a & b & E1 & E2 & Hab & Hb & Hgap & Hrest). exists a, b. split_and!; [done|done|lia|lia|lia|by apply Hext|apply Hrest..].
Qed.

Lemma page_shift i : 0 <= i < 2 ^ 20 -> u32 (Z.shiftl i 12) = i * 4096.
Proof. intros Hi. rewrite Z.shiftl_mul_pow2 by lia. change (2 ^ 12) with 4096. apply u32_small. lia. Qed.

Lemma run_end_spec p fuel flags name e :
  0 <= e <= 2 ^ 20 -> 2 ^ 20 - e <= Z.of_nat fuel ->
  let b := run_end p fuel flags name e in
  e <= b <= 2 ^ 20 /\ (forall i, e <= i < b -> flags_at p i = flags /\ page_name p i = name) /\
  (b = 2 ^ 20 \/ flags_at p b <> flags \/ page_name p b <> name).
Proof.
  revert e. induction fuel as [|fuel IH]; intros e He Hf; cbn [run_end].
  { split_and!; [lia|lia|lia|left; lia]. }
  change page_count with (2 ^ 20). destruct (Z.ltb_spec e (2 ^ 20)) as [Hlt|Hge]; cbn [andb]; [|split_and!; [lia|lia|lia|left; lia]].
  destruct (Z.eqb_spec (flags_at p e) flags) as [Hfl|Hfl]; [|split_and!; [lia|lia|lia|by right; left]].
  rewrite page_shift by lia. fold (page_name p e). destruct (decide (page_name p e = name)) as [Hn|Hn].
  - rewrite bool_decide_true by done. destruct (IH (e + 1)) as (Hb & Hrun & Hend); [lia..|]. split_and!; [lia..| |done].
    intros i Hi. destruct (decide (i = e)) as [->|]; [done|]. apply Hrun. lia.
  - rewrite bool_decide_false by done. split_and!; [lia|lia|lia|by right; right].
Qed.

Lemma maps_loop_spec p fuel page : 0 <= page <= 2 ^ 20 -> 2 ^ 20 - page < Z.of_nat fuel -> lists_pages p page (maps_loop p fuel page).
Proof.
  revert page. induction fuel as [|fuel IH]; intros page Hp Hf; [lia|]. cbn [maps_loop]. change page_count with (2 ^ 20).
  destruct (Z.ltb_spec page (2 ^ 20)) as [Hlt|Hge]; [|intros i Hi; lia].
  destruct (Z.eqb_spec (Z.land (flags_at p page) kPageMapped) 0) as [Hz|Hz]. { apply lists_pages_skip; [by intros ?|]. apply IH; lia. }
  rewrite page_shift by lia. destruct (name_at p (page * 4096)) as [name offset] eqn:En.
  destruct (run_end_spec p (Z.to_nat (2 ^ 20 - page)) (flags_at p page) name (page + 1)) as (Hb & Hrun & Hend); [lia..|].
  set (b := run_end _ _ _ _ _) in *. exists page, b. cbn [e_start e_end e_flags e_offset e_name]. rewrite Z.shiftl_mul_pow2 by lia.
  assert (forall i, page <= i < b -> mapped p i /\ flags_at p i = flags_at p page /\ page_name p i = name) as Hall.
  { intros i Hi. unfold mapped. destruct (decide (i = page)) as [->|].
    - split_and!; [done..|]. unfold page_name. by rewrite En.
    - destruct (Hrun i) as [E1 E2]; [lia|]. by rewrite E1. }
  split_and!; [done|done|lia|lia|lia|intros i Hi; lia|exact Hall|exact Hend|by rewrite En|apply IH; lia].
Qed.

(** [/proc/self/maps] of the guest, exactly.  The loops end, and the lines are in order
    the maximal runs of mapped pages with equal flags and name: between them nothing is
    mapped, every page of a line has its permissions and its name, and the page after it
    has not; no mapped page is left out. *)
Theorem maps_exact p : lists_pages p 0 (map_entries p).
Proof. unfold map_entries. change page_count with (2 ^ 20). apply maps_loop_spec; lia. Qed.

(** ** Opening is safe: the kernel gets no guest memory *)

Section SafeFiles.
Context (host : list hostcall -> hostcall -> answer) (Hk : kernel_ok host) (m0 : GuestMemory) (p : Process) (thread_count initial_sp : Z).

Lemma safe_is_self_path path leaf : safe m0 (is_self_path host path leaf).
Proof.
  unfold is_self_path. apply gives_if; intros _; [by apply gives_ret|]. apply gives_if; intros _; [by apply gives_ret|].
  eapply gives_bind; [by apply safe_call|]. intros r _. by apply gives_ret.
Qed.

Lemma safe_build_stat : safe m0 (build_stat host thread_count initial_sp).
Proof.
  repeat (eapply gives_bind; [apply safe_call; [exact Hk|by repeat constructor]|]; intros ? _). by apply gives_ret.
Qed.

Lemma safe_write_loop fuel fd text : safe m0 (write_loop host fuel fd text).
Proof.
  revert text. induction fuel as [|fuel IH]; intros text; cbn [write_loop]; [by apply gives_ret|]. apply gives_if; intros _.
  { eapply gives_bind; [apply safe_call; [exact Hk|by repeat constructor]|]. intros ? _. by apply gives_ret. }
  eapply gives_bind; [apply safe_call; [exact Hk|by repeat constructor]|]. intros r _. apply gives_if; intros _; [|apply IH].
  eapply gives_bind; [apply safe_call; [exact Hk|by repeat constructor]|]. intros ? _. by apply gives_ret.
Qed.

Lemma safe_open_synthetic_file path flags : safe m0 (open_synthetic_file host p thread_count initial_sp path flags).
Proof.
  unfold open_synthetic_file, synthetic_text. eapply (gives_bind m0 _ (fun _ => True)).
  - eapply gives_bind; [apply safe_is_self_path|]. intros [] _; [by apply gives_ret|]. eapply gives_bind; [apply safe_is_self_path|]. intros [] _.
    + eapply gives_bind; [apply safe_build_stat|]. intros t _. by apply gives_ret.
    + apply gives_if; intros _; [|by apply gives_ret]. eapply (gives_bind m0 _ (fun _ => True)); [|intros t _; by apply gives_ret].
      eapply gives_bind; [apply safe_call; [exact Hk|by repeat constructor]|]. intros r _. by apply gives_ret.
  - intros [t|] _; [|by apply gives_ret]. apply gives_if; intros _; [by apply gives_ret|]. eapply (gives_bind m0 _ (fun _ => True)); [|intros r _; by apply gives_ret].
    eapply gives_bind; [apply safe_call; [exact Hk|by repeat constructor]|]. intros r _. apply gives_if; intros _; [by apply gives_ret|apply safe_write_loop].
Qed.
End SafeFiles.
