(* ===== verification/SyscallNumbers.v ===== *)
(** * System call numbers

    The arm EABI numbers that [handle_syscall] of [core/src/syscalls.cpp] names, from
    the table [core/src/gen/syscall_nrs_arm.h]. *)

From stdpp Require Import numbers.
Local Open Scope Z_scope.

Definition NR_exit : Z := 1.
Definition NR_read : Z := 3.
Definition NR_write : Z := 4.
Definition NR_close : Z := 6.
Definition NR_chdir : Z := 12.
Definition NR_lseek : Z := 19.
Definition NR_getpid : Z := 20.
Definition NR_kill : Z := 37.
Definition NR_dup : Z := 41.
Definition NR_pipe : Z := 42.
Definition NR_times : Z := 43.
Definition NR_brk : Z := 45.
Definition NR_ioctl : Z := 54.
Definition NR_umask : Z := 60.
Definition NR_dup2 : Z := 63.
Definition NR_getppid : Z := 64.
Definition NR_setsid : Z := 66.
Definition NR_getrusage : Z := 77.
Definition NR_gettimeofday : Z := 78.
Definition NR_munmap : Z := 91.
Definition NR_fchmod : Z := 94.
Definition NR_getpriority : Z := 96.
Definition NR_setpriority : Z := 97.
Definition NR_setitimer : Z := 104.
Definition NR_getitimer : Z := 105.
Definition NR_wait4 : Z := 114.
Definition NR_sysinfo : Z := 116.
Definition NR_fsync : Z := 118.
Definition NR_sigreturn : Z := 119.
Definition NR_clone : Z := 120.
Definition NR_uname : Z := 122.
Definition NR_mprotect : Z := 125.
Definition NR_getpgid : Z := 132.
Definition NR_fchdir : Z := 133.
Definition NR_personality : Z := 136.
Definition NR__llseek : Z := 140.
Definition NR__newselect : Z := 142.
Definition NR_flock : Z := 143.
Definition NR_msync : Z := 144.
Definition NR_readv : Z := 145.
Definition NR_writev : Z := 146.
Definition NR_fdatasync : Z := 148.
Definition NR_mlock : Z := 150.
Definition NR_munlock : Z := 151.
Definition NR_sched_getscheduler : Z := 157.
Definition NR_sched_yield : Z := 158.
Definition NR_nanosleep : Z := 162.
Definition NR_mremap : Z := 163.
Definition NR_poll : Z := 168.
Definition NR_prctl : Z := 172.
Definition NR_rt_sigreturn : Z := 173.
Definition NR_rt_sigaction : Z := 174.
Definition NR_rt_sigprocmask : Z := 175.
Definition NR_rt_sigpending : Z := 176.
Definition NR_pread64 : Z := 180.
Definition NR_pwrite64 : Z := 181.
Definition NR_getcwd : Z := 183.
Definition NR_sigaltstack : Z := 186.
Definition NR_ugetrlimit : Z := 191.
Definition NR_mmap2 : Z := 192.
Definition NR_truncate64 : Z := 193.
Definition NR_ftruncate64 : Z := 194.
Definition NR_fstat64 : Z := 197.
Definition NR_getuid32 : Z := 199.
Definition NR_getgid32 : Z := 200.
Definition NR_geteuid32 : Z := 201.
Definition NR_getegid32 : Z := 202.
Definition NR_fchown32 : Z := 207.
Definition NR_getdents64 : Z := 217.
Definition NR_madvise : Z := 220.
Definition NR_fcntl64 : Z := 221.
Definition NR_gettid : Z := 224.
Definition NR_tkill : Z := 238.
Definition NR_futex : Z := 240.
Definition NR_sched_setaffinity : Z := 241.
Definition NR_sched_getaffinity : Z := 242.
Definition NR_exit_group : Z := 248.
Definition NR_epoll_ctl : Z := 251.
Definition NR_epoll_wait : Z := 252.
Definition NR_set_tid_address : Z := 256.
Definition NR_clock_gettime : Z := 263.
Definition NR_clock_getres : Z := 264.
Definition NR_clock_nanosleep : Z := 265.
Definition NR_statfs64 : Z := 266.
Definition NR_fstatfs64 : Z := 267.
Definition NR_tgkill : Z := 268.
Definition NR_socket : Z := 281.
Definition NR_bind : Z := 282.
Definition NR_connect : Z := 283.
Definition NR_listen : Z := 284.
Definition NR_accept : Z := 285.
Definition NR_getsockname : Z := 286.
Definition NR_getpeername : Z := 287.
Definition NR_socketpair : Z := 288.
Definition NR_send : Z := 289.
Definition NR_sendto : Z := 290.
Definition NR_recv : Z := 291.
Definition NR_recvfrom : Z := 292.
Definition NR_shutdown : Z := 293.
Definition NR_setsockopt : Z := 294.
Definition NR_getsockopt : Z := 295.
Definition NR_sendmsg : Z := 296.
Definition NR_recvmsg : Z := 297.
Definition NR_openat : Z := 322.
Definition NR_mkdirat : Z := 323.
Definition NR_fchownat : Z := 325.
Definition NR_fstatat64 : Z := 327.
Definition NR_unlinkat : Z := 328.
Definition NR_renameat : Z := 329.
Definition NR_linkat : Z := 330.
Definition NR_symlinkat : Z := 331.
Definition NR_readlinkat : Z := 332.
Definition NR_fchmodat : Z := 333.
Definition NR_faccessat : Z := 334.
Definition NR_pselect6 : Z := 335.
Definition NR_ppoll : Z := 336.
Definition NR_epoll_pwait : Z := 346.
Definition NR_utimensat : Z := 348.
Definition NR_timerfd_create : Z := 350.
Definition NR_timerfd_settime : Z := 353.
Definition NR_timerfd_gettime : Z := 354.
Definition NR_eventfd2 : Z := 356.
Definition NR_epoll_create1 : Z := 357.
Definition NR_dup3 : Z := 358.
Definition NR_pipe2 : Z := 359.
Definition NR_rt_tgsigqueueinfo : Z := 363.
Definition NR_accept4 : Z := 366.
Definition NR_prlimit64 : Z := 369.
Definition NR_renameat2 : Z := 382.
Definition NR_getrandom : Z := 384.
Definition NR_memfd_create : Z := 385.
Definition NR_statx : Z := 397.
Definition NR_clock_gettime64 : Z := 403.
Definition NR_clock_getres_time64 : Z := 406.
Definition NR_clock_nanosleep_time64 : Z := 407.
Definition NR_utimensat_time64 : Z := 412.
Definition NR_pselect6_time64 : Z := 413.
Definition NR_ppoll_time64 : Z := 414.
Definition NR_futex_time64 : Z := 422.
Definition NR_faccessat2 : Z := 439.
Definition NR_ARM_cacheflush : Z := 0xf0002.
Definition NR_ARM_set_tls : Z := 0xf0005.
Definition NR_ARM_get_tls : Z := 0xf0006.
