(* ===== verification/Syscalls.v ===== *)
(** * System calls that go to the host kernel

    The handlers of [core/src/syscalls.cpp] that keep no state of their own: they check
    the guest's pointers, convert structures between the arm EABI and the host, and ask
    the kernel.  Each is a program of the monad of [Kernel]; [translate_path] is the
    path translation of [core/src/process.cpp] at that time.  The one-time log lines for
    unsupported requests are left out. *)

From stdpp Require Import numbers list strings.
From S2P Require Import Prelude Bytes GuestMemory InitialStack GuestThread ProcessMemory Kernel ProcFiles SyscallNumbers.
Local Open Scope Z_scope.

Definition EINTR : Z := 4.
Definition ENOTTY : Z := 25.
Definition ENOSYS : Z := 38.
Definition EOVERFLOW : Z := 75.
Definition IOV_MAX : Z := 1024.
Definition FD_SETSIZE : Z := 1024.

(** The arguments [a\[0\]] to [a\[5\]]. *)
Record Ctx := { a0 : Z; a1 : Z; a2 : Z; a3 : Z; a4 : Z; a5 : Z }.

Definition ctx_ok (c : Ctx) : Prop :=
  0 <= a0 c < 2 ^ 32 /\ 0 <= a1 c < 2 ^ 32 /\ 0 <= a2 c < 2 ^ 32 /\ 0 <= a3 c < 2 ^ 32 /\ 0 <= a4 c < 2 ^ 32 /\ 0 <= a5 c < 2 ^ 32.

(** Fields of guest structures as bytes. *)
Definition w16 (v : Z) : list Z := to_le 2 v.
Definition w32 (v : Z) : list Z := to_le 4 v.
Definition w64 (v : Z) : list Z := to_le 8 v.

(** Word [i] of a structure. *)
Definition field (ws : list Z) (i : nat) : Z := nth i ws 0.

(** A pointer into guest memory as an argument. *)
Definition garg (p : option Z) (len need : Z) : harg := match p with Some a => HGuest a len need | None => HNull end.

Definition join64 (lo hi : Z) : Z := Z.lor lo (Z.shiftl hi 32).

(** ** Structures *)

Record timespec := { tv_sec : Z; tv_nsec : Z }.

(** [struct stat] of the host. *)
Record stat := {
  st_dev : Z; st_ino : Z; st_mode : Z; st_nlink : Z; st_uid : Z; st_gid : Z; st_rdev : Z; st_size : Z;
  st_blksize : Z; st_blocks : Z; st_atim : timespec; st_mtim : timespec; st_ctim : timespec;
}.

Definition stat_of (a : answer) : stat :=
  {| st_dev := out a 0; st_ino := out a 1; st_mode := out a 2; st_nlink := out a 3; st_uid := out a 4; st_gid := out a 5; st_rdev := out a 6;
     st_size := out a 7; st_blksize := out a 8; st_blocks := out a 9; st_atim := {| tv_sec := out a 10; tv_nsec := out a 11 |};
     st_mtim := {| tv_sec := out a 12; tv_nsec := out a 13 |}; st_ctim := {| tv_sec := out a 14; tv_nsec := out a 15 |} |}.

(** The bytes of [g::stat64]. *)
Definition fill_stat64 (st : stat) : list Z :=
  w64 (st_dev st) ++ w32 0 ++ w32 (st_ino st) ++ w32 (st_mode st) ++ w32 (st_nlink st) ++ w32 (st_uid st) ++ w32 (st_gid st) ++
  w64 (st_rdev st) ++ w32 0 ++ w32 0 ++ w64 (st_size st) ++ w32 (st_blksize st) ++ w32 0 ++ w64 (st_blocks st) ++
  w32 (tv_sec (st_atim st)) ++ w32 (tv_nsec (st_atim st)) ++ w32 (tv_sec (st_mtim st)) ++ w32 (tv_nsec (st_mtim st)) ++
  w32 (tv_sec (st_ctim st)) ++ w32 (tv_nsec (st_ctim st)) ++ w64 (st_ino st).

Definition fill_rusage32 (a : answer) (from : nat) : list Z := flat_map (fun i => w32 (out a (from + i))) (seq 0 18).

(** ** Handlers *)

Section Handlers.
Context (host : list hostcall -> hostcall -> answer) (translate_path : list hostcall -> list Z -> list Z).

Definition fail (e : Z) : sysm Z := mret (- e).

(** A host call whose result the guest gets. *)
Definition ask (name : string) (args : list harg) : sysm Z := r ← call host name args; mret (result_of r).

Definition host_path (p : list Z) : sysm (list Z) := fun k => Ret (translate_path (klog k) p, k).

Definition read_timespec (addr : Z) (time64 : bool) : sysm (option timespec) :=
  if time64 then
    t ← read_guest 4 addr;
    mret ((fun w => {| tv_sec := s64 (join64 (field w 0) (field w 1)); tv_nsec := s64 (join64 (field w 2) (field w 3)) |}) <$> t)
  else
    t ← read_guest 2 addr;
    mret ((fun w => {| tv_sec := s32 (field w 0); tv_nsec := s32 (field w 1) |}) <$> t).

Definition write_timespec (addr : Z) (time64 : bool) (ts : timespec) : sysm bool :=
  if time64 then write_guest addr (w64 (tv_sec ts) ++ w64 (tv_nsec ts)) else write_guest addr (w32 (tv_sec ts) ++ w32 (tv_nsec ts)).

Definition sys_read_write (c : Ctx) (is_write : bool) : sysm Z :=
  let len := a2 c in
  let need := if is_write then kPageRead else kPageWrite in
  buf ← get_ptr (a1 c) len need;
  if negb (len =? 0) && bool_decide (buf = None) then fail EFAULT
  else ask (if is_write then "write" else "read") [HInt (s32 (a0 c)); garg buf len need; HInt len].

Definition sys_pread_pwrite (c : Ctx) (is_write : bool) : sysm Z :=
  let len := a2 c in
  let need := if is_write then kPageRead else kPageWrite in
  buf ← get_ptr (a1 c) len need;
  if negb (len =? 0) && bool_decide (buf = None) then fail EFAULT
  else
    let offset := s64 (Z.lor (a4 c) (Z.shiftl (a5 c) 32)) in
    ask (if is_write then "pwrite" else "pread") [HInt (s32 (a0 c)); garg buf len need; HInt len; HInt offset].

(** The vector of a scatter-gather call: entry [i] up to [count]. *)
Fixpoint iov_loop (n : nat) (i : Z) (base need : Z) (acc : list harg) : sysm (option (list harg)) :=
  match n with
  | O => mret (Some acc)
  | S n =>
      v ← read_guest 2 (u32 (base + i * 8));
      match v with
      | None => mret None
      | Some v =>
          p ← get_ptr (field v 0) (field v 1) need;
          if negb (field v 1 =? 0) && bool_decide (p = None) then mret None
          else iov_loop n (i + 1) base need (acc ++ [garg p (field v 1) need])
      end
  end.

Definition sys_readv_writev (c : Ctx) (is_write : bool) : sysm Z :=
  let count := a2 c in
  if IOV_MAX <? count then fail EINVAL
  else
    iov ← iov_loop (Z.to_nat count) 0 (a1 c) (if is_write then kPageRead else kPageWrite) [];
    match iov with
    | None => fail EFAULT
    | Some iov => ask (if is_write then "writev" else "readv") (HInt (s32 (a0 c)) :: iov ++ [HInt (s32 count)])
    end.

Definition sys_clock_get (c : Ctx) (res time64 : bool) : sysm Z :=
  r ← call host (if res then "clock_getres" else "clock_gettime") [HInt (s32 (a0 c)); HOut];
  if negb (ret r =? 0) then fail (errno r)
  else if a1 c =? 0 then mret 0
  else
    ok ← write_timespec (a1 c) time64 {| tv_sec := out r 0; tv_nsec := out r 1 |};
    if (ok : bool) then mret 0 else fail EFAULT.

Definition sys_gettimeofday (c : Ctx) : sysm Z :=
  r ← call host "gettimeofday" [HOut; HOut];
  if negb (ret r =? 0) then fail (errno r)
  else
    ok ← (if a0 c =? 0 then mret true else write_guest (a0 c) (w32 (out r 0) ++ w32 (out r 1)));
    if negb ok then fail EFAULT
    else
      ok ← (if a1 c =? 0 then mret true else write_guest (a1 c) (w32 (out r 2) ++ w32 (out r 3)));
      if negb ok then fail EFAULT else mret 0.

Definition timespec_arg (t : timespec) : harg := HData [tv_sec t; tv_nsec t].

Definition sys_clock_nanosleep (c : Ctx) (time64 : bool) : sysm Z :=
  req ← read_timespec (a2 c) time64;
  match req with
  | None => fail EFAULT
  | Some req =>
      r ← call host "clock_nanosleep" [HInt (s32 (a0 c)); HInt (s32 (a1 c)); timespec_arg req; HOut];
      let rc := ret r in
      _ ← (if (rc =? EINTR) && negb (a3 c =? 0) then write_timespec (a3 c) time64 {| tv_sec := out r 0; tv_nsec := out r 1 |} else mret true);
      mret (- rc)
  end.

Definition sys_nanosleep (c : Ctx) : sysm Z :=
  req ← read_timespec (a0 c) false;
  match req with
  | None => fail EFAULT
  | Some req =>
      r ← call host "nanosleep" [timespec_arg req; HOut];
      if ret r =? 0 then mret 0
      else
        let err := errno r in
        _ ← (if (err =? EINTR) && negb (a1 c =? 0) then write_timespec (a1 c) false {| tv_sec := out r 0; tv_nsec := out r 1 |} else mret true);
        mret (- err)
  end.

(** *** Files *)

Definition sys_stat_common (r : answer) (out_addr : Z) : sysm Z :=
  if negb (ret r =? 0) then fail (errno r)
  else ok ← write_guest out_addr (fill_stat64 (stat_of r)); if (ok : bool) then mret 0 else fail EFAULT.

(** The bytes of [g::statfs64]; the host's fields in the order of the structure. *)
Definition fill_statfs64 (r : answer) : list Z :=
  w32 (out r 0) ++ w32 (out r 1) ++ w64 (out r 2) ++ w64 (out r 3) ++ w64 (out r 4) ++ w64 (out r 5) ++ w64 (out r 6) ++
  w32 (out r 7) ++ w32 (out r 8) ++ w32 (out r 9) ++ w32 (out r 10) ++ w32 (out r 11) ++ w32 0 ++ w32 0 ++ w32 0 ++ w32 0.

Definition sizeof_statfs64 : Z := 84.
Definition kStatfs64UserSize : Z := 88.

Definition sys_statfs_common (r : answer) (out_addr : Z) : sysm Z :=
  if negb (ret r =? 0) then fail (errno r)
  else ok ← write_guest out_addr (fill_statfs64 r); if (ok : bool) then mret 0 else fail EFAULT.

Definition sys_fstat64 (c : Ctx) : sysm Z :=
  r ← call host "fstat" [HInt (s32 (a0 c)); HOut]; sys_stat_common r (a1 c).

Definition sys_fstatat64 (c : Ctx) : sysm Z :=
  path ← guest_cstr (a1 c);
  match path with
  | None => fail EFAULT
  | Some path =>
      hp ← host_path path;
      r ← call host "fstatat" [HInt (s32 (a0 c)); HPath hp; HOut; HInt (s32 (a3 c))];
      sys_stat_common r (a2 c)
  end.

Definition statfs_size_ok (c : Ctx) : bool := (a1 c =? sizeof_statfs64) || (a1 c =? kStatfs64UserSize).

Definition sys_fstatfs64 (c : Ctx) : sysm Z :=
  if negb (statfs_size_ok c) then fail EINVAL
  else r ← call host "fstatfs" [HInt (s32 (a0 c)); HOut]; sys_statfs_common r (a2 c).

Definition sys_statfs64 (c : Ctx) : sysm Z :=
  path ← guest_cstr (a0 c);
  match path with
  | None => fail EFAULT
  | Some path =>
      if negb (statfs_size_ok c) then fail EINVAL
      else hp ← host_path path; r ← call host "statfs" [HPath hp; HOut]; sys_statfs_common r (a2 c)
  end.

Definition sys_statx (c : Ctx) : sysm Z :=
  path ← guest_cstr (a1 c);
  buf ← get_ptr (a4 c) 256 kPageWrite;
  match path, buf with
  | Some path, Some buf =>
      hp ← host_path path;
      ask "statx" [HInt (s32 (a0 c)); HPath hp; HInt (s32 (a2 c)); HInt (a3 c); HGuest buf 256 kPageWrite]
  | _, _ => fail EFAULT
  end.

Definition TCGETS : Z := 0x5401.
Definition TIOCGWINSZ : Z := 0x5413.
Definition FIONREAD : Z := 0x541B.
Definition FIONBIO : Z := 0x5421.

(** The size of the argument of a supported request, and the access the kernel makes. *)
Definition ioctl_arg (request : Z) : option (Z * Z) :=
  let rw := Z.lor kPageRead kPageWrite in
  if request =? TCGETS then Some (36, rw)
  else if request =? TIOCGWINSZ then Some (8, rw)
  else if request =? FIONREAD then Some (4, rw)
  else if request =? FIONBIO then Some (4, kPageRead)
  else None.

Definition sys_ioctl (c : Ctx) : sysm Z :=
  let request := a1 c in
  match ioctl_arg request with
  | None => fail ENOTTY
  | Some (arg_size, need) =>
      arg ← get_ptr (a2 c) arg_size need;
      match arg with
      | None => fail EFAULT
      | Some arg => ask "ioctl" [HInt (s32 (a0 c)); HInt request; HGuest arg arg_size need]
      end
  end.

(** F_DUPFD, F_GETFD, F_SETFD, F_GETFL, F_SETFL and F_DUPFD_CLOEXEC. *)
Definition fcntl_supported (cmd : Z) : bool := bool_decide (cmd ∈ [0; 1; 2; 3; 4; 1030]).

Definition sys_fcntl64 (c : Ctx) : sysm Z :=
  let cmd := s32 (a1 c) in
  if fcntl_supported cmd then ask "fcntl" [HInt (s32 (a0 c)); HInt cmd; HInt (a2 c)] else fail EINVAL.

Definition sys_llseek (c : Ctx) : sysm Z :=
  let offset := s64 (Z.lor (Z.shiftl (a1 c) 32) (a2 c)) in
  r ← call host "lseek" [HInt (s32 (a0 c)); HInt offset; HInt (s32 (a4 c))];
  if ret r =? -1 then fail (errno r) else ok ← write_guest (a3 c) (w64 (ret r)); if (ok : bool) then mret 0 else fail EFAULT.

Definition sys_lseek (c : Ctx) : sysm Z :=
  r ← call host "lseek" [HInt (s32 (a0 c)); HInt (s32 (a1 c)); HInt (s32 (a2 c))];
  if ret r =? -1 then fail (errno r) else if 2 ^ 31 - 1 <? ret r then fail EOVERFLOW else mret (s32 (ret r)).

(** pipe, pipe2 and socketpair: the two descriptors the host made go to [addr]. *)
Definition sys_descriptor_pair (addr : Z) (name : string) (args : list harg) : sysm Z :=
  o ← get_ptr addr 8 kPageWrite;
  match o with
  | None => fail EFAULT
  | Some p =>
      r ← call host name (args ++ [HOut]);
      if negb (ret r =? 0) then fail (errno r) else _ ← poke p (w32 (out r 0) ++ w32 (out r 1)); mret 0
  end.

Definition sys_pipe2 (c : Ctx) : sysm Z := sys_descriptor_pair (a0 c) "pipe2" [HInt (s32 (a1 c))].

Definition sys_path_call (path_arg : Z) (name : string) (args : list Z -> list harg) : sysm Z :=
  path ← guest_cstr path_arg;
  match path with
  | None => fail EFAULT
  | Some path => hp ← host_path path; ask name (args hp)
  end.

Definition sys_two_paths (first second : Z) (name : string) (args : list Z -> list Z -> list harg) : sysm Z :=
  a ← guest_cstr first;
  b ← guest_cstr second;
  match a, b with
  | Some a, Some b => ha ← host_path a; hb ← host_path b; ask name (args ha hb)
  | _, _ => fail EFAULT
  end.

(** The calls with one buffer that may be empty. *)
Definition sys_buffer (addr len need : Z) (name : string) (args : harg -> list harg) : sysm Z :=
  buf ← get_ptr addr len need;
  if negb (len =? 0) && bool_decide (buf = None) then fail EFAULT else ask name (args (garg buf len need)).

(** *** Process and scheduling *)

Definition kPrSetVma : Z := 0x53564d41.
Definition PR_SET_NAME : Z := 15.
Definition PR_GET_NAME : Z := 16.

(** PR_GET_DUMPABLE, PR_SET_DUMPABLE, PR_SET_NO_NEW_PRIVS and PR_GET_NO_NEW_PRIVS. *)
Definition prctl_plain (option : Z) : bool := bool_decide (option ∈ [3; 4; 38; 39]).

Definition sys_prctl (c : Ctx) : sysm Z :=
  let option := s32 (a0 c) in
  if option =? kPrSetVma then mret 0
  else if prctl_plain option then ask "prctl" [HInt option; HInt (a1 c); HInt (a2 c); HInt (a3 c); HInt (a4 c)]
  else if (option =? PR_SET_NAME) || (option =? PR_GET_NAME) then
    let need := if option =? PR_SET_NAME then kPageRead else kPageWrite in
    name ← get_ptr (a1 c) 16 need;
    match name with
    | None => fail EFAULT
    | Some name => ask "prctl" [HInt option; HGuest name 16 need; HInt 0; HInt 0; HInt 0]
    end
  else fail EINVAL.

(** A character array of [n] bytes. *)
Definition chars (n : nat) (s : list Z) : list Z := take n (s ++ replicate n 0).

(** "armv8l" *)
Definition kMachine : list Z := [97; 114; 109; 118; 56; 108].

(** [struct utsname]: six arrays of 65 characters, the fifth is [machine]. *)
Definition sys_uname (c : Ctx) : sysm Z :=
  r ← call host "uname" [HOut];
  if negb (ret r =? 0) then fail (errno r)
  else
    let u := map u8 (chars 390 (outs r)) in
    ok ← write_guest (a0 c) (take 260 u ++ chars 65 kMachine ++ drop 325 u);
    if (ok : bool) then mret 0 else fail EFAULT.

(** An optional timeout: null, or the structure at [addr]. *)
Definition timeout_arg (addr : Z) (time64 : bool) : sysm (option harg) :=
  if addr =? 0 then mret (Some HNull) else ts ← read_timespec addr time64; mret (timespec_arg <$> ts).

Definition FUTEX_CMD_MASK : Z := Z.lnot (Z.lor 128 256).

Definition sys_futex (c : Ctx) (time64 : bool) : sysm Z :=
  let op := s32 (a1 c) in
  let cmd := Z.land op FUTEX_CMD_MASK in
  uaddr ← get_ptr (a0 c) 4 kPageRead;
  match uaddr with
  | None => fail EFAULT
  | Some uaddr =>
      if (cmd =? 0) || (cmd =? 9) then
        t ← timeout_arg (a3 c) time64;
        match t with
        | None => fail EFAULT
        | Some tsp => ask "futex" [HGuest uaddr 4 kPageRead; HInt op; HInt (a2 c); tsp; HNull; HInt (a5 c)]
        end
      else if (cmd =? 1) || (cmd =? 10) then ask "futex" [HGuest uaddr 4 kPageRead; HInt op; HInt (a2 c); HNull; HNull; HInt (a5 c)]
      else fail ENOSYS
  end.

Definition clamp32 (v : Z) : Z := if 0xFFFFFFFF <? v then 0xFFFFFFFF else v.

Definition sys_ugetrlimit (c : Ctx) : sysm Z :=
  r ← call host "getrlimit" [HInt (s32 (a0 c)); HOut];
  if negb (ret r =? 0) then fail (errno r)
  else ok ← write_guest (a1 c) (w32 (clamp32 (out r 0)) ++ w32 (clamp32 (out r 1))); if (ok : bool) then mret 0 else fail EFAULT.

Definition sys_prlimit64 (c : Ctx) : sysm Z :=
  new_limit ← (if a2 c =? 0 then mret None else get_ptr (a2 c) 16 kPageRead);
  if negb (a2 c =? 0) && bool_decide (new_limit = None) then fail EFAULT
  else
    old_limit ← (if a3 c =? 0 then mret None else get_ptr (a3 c) 16 kPageWrite);
    if negb (a3 c =? 0) && bool_decide (old_limit = None) then fail EFAULT
    else ask "prlimit64" [HInt (s32 (a0 c)); HInt (s32 (a1 c)); garg new_limit 16 kPageRead; garg old_limit 16 kPageWrite].

Definition sys_times (c : Ctx) : sysm Z :=
  r ← call host "times" [HOut];
  if ret r =? -1 then fail (errno r)
  else
    ok ← (if a0 c =? 0 then mret true else write_guest (a0 c) (w32 (out r 0) ++ w32 (out r 1) ++ w32 (out r 2) ++ w32 (out r 3)));
    if negb ok then fail EFAULT else mret (s32 (ret r)).

Definition sys_getrusage (c : Ctx) : sysm Z :=
  r ← call host "getrusage" [HInt (s32 (a0 c)); HOut];
  if negb (ret r =? 0) then fail (errno r)
  else ok ← write_guest (a1 c) (fill_rusage32 r 0); if (ok : bool) then mret 0 else fail EFAULT.

(** The status is the first field the host filled, the usage follows. *)
Definition sys_wait4 (c : Ctx) : sysm Z :=
  r ← call host "wait4" [HInt (s32 (a0 c)); HOut; HInt (s32 (a2 c)); HOut];
  if ret r <? 0 then fail (errno r)
  else
    ok ← (if a1 c =? 0 then mret true else write_guest (a1 c) (w32 (out r 0)));
    if negb ok then fail EFAULT
    else
      _ ← (if a3 c =? 0 then mret true else write_guest (a3 c) (fill_rusage32 r 1));
      mret (ret r).

(** The scheduler mask: an empty one is still checked. *)
Definition sys_affinity (c : Ctx) (need : Z) (name : string) : sysm Z :=
  mask ← get_ptr (a2 c) (a1 c) need;
  match mask with
  | None => fail EFAULT
  | Some mask => ask name [HInt (s32 (a0 c)); HInt (a1 c); HGuest mask (a1 c) need]
  end.

(** *** [sysinfo] *)

(** The inner loop: double the unit until [b] fits in 32 bits. *)
Fixpoint grow_unit (fuel : nat) (b unit : Z) : Z :=
  match fuel with
  | O => unit
  | S fuel => if 0xFFFFFFFF <? b / unit then grow_unit fuel b (u64 (Z.shiftl unit 1)) else unit
  end.

(** A 64-bit value needs at most 32 doublings. *)
Definition guest_unit (bytes : list Z) : Z := fold_left (fun u b => grow_unit 33 b u) bytes 1.

(** The host's fields: uptime, three loads, the eight sizes, procs, mem_unit. *)
Definition sysinfo_bytes (r : answer) : list Z :=
  let unit := if out r 13 =? 0 then 1 else out r 13 in
  map (fun i => u64 (out r (4 + i) * unit)) (seq 0 8).

Definition fill_sysinfo32 (r : answer) : list Z :=
  let bytes := sysinfo_bytes r in
  let unit := guest_unit bytes in
  let scaled i := w32 (field bytes i / unit) in
  w32 (out r 0) ++ w32 (out r 1) ++ w32 (out r 2) ++ w32 (out r 3) ++ scaled 0%nat ++ scaled 1%nat ++ scaled 2%nat ++ scaled 3%nat ++
  scaled 4%nat ++ scaled 5%nat ++ w16 (out r 12) ++ w16 0 ++ scaled 6%nat ++ scaled 7%nat ++ w32 unit ++ w64 0.

Definition sys_sysinfo (c : Ctx) : sysm Z :=
  r ← call host "sysinfo" [HOut];
  if negb (ret r =? 0) then fail (errno r)
  else ok ← write_guest (a0 c) (fill_sysinfo32 r); if (ok : bool) then mret 0 else fail EFAULT.

(** *** Waiting *)

Definition rw : Z := Z.lor kPageRead kPageWrite.

Definition sys_poll (c : Ctx) (ppoll time64 : bool) : sysm Z :=
  let nfds := a1 c in
  if 65536 <? nfds then fail EINVAL
  else
    fds ← get_ptr (a0 c) (nfds * 8) rw;
    if negb (nfds =? 0) && bool_decide (fds = None) then fail EFAULT
    else if negb ppoll then ask "poll" [garg fds (nfds * 8) rw; HInt nfds; HInt (s32 (a2 c))]
    else
      t ← timeout_arg (a2 c) time64;
      match t with
      | None => fail EFAULT
      | Some tsp => ask "ppoll" [garg fds (nfds * 8) rw; HInt nfds; tsp; HNull]
      end.

(** A descriptor set of 128 bytes: null for address 0, nothing on a fault. *)
Definition guest_fd_set (addr : Z) : sysm (option harg) :=
  if addr =? 0 then mret (Some HNull) else p ← get_ptr addr 128 rw; mret ((fun p => HGuest p 128 rw) <$> p).

Definition sys_select (c : Ctx) (pselect time64 : bool) : sysm Z :=
  let nfds := s32 (a0 c) in
  if (nfds <? 0) || (FD_SETSIZE <? nfds) then fail EINVAL
  else
    r ← guest_fd_set (a1 c);
    w ← guest_fd_set (a2 c);
    e ← guest_fd_set (a3 c);
    match r, w, e with
    | Some r, Some w, Some e =>
        if negb pselect then
          t ← (if a4 c =? 0 then mret (Some HNull) else t ← read_guest 2 (a4 c); mret ((fun w => HData [s32 (field w 0); s32 (field w 1)]) <$> t));
          match t with
          | None => fail EFAULT
          | Some tvp =>
              res ← call host "select" [HInt nfds; r; w; e; tvp];
              if ret res <? 0 then fail (errno res)
              else
                _ ← (if a4 c =? 0 then mret true else write_guest (a4 c) (w32 (out res 0) ++ w32 (out res 1)));
                mret (ret res)
          end
        else
          t ← timeout_arg (a4 c) time64;
          match t with
          | None => fail EFAULT
          | Some tsp => ask "pselect" [HInt nfds; r; w; e; tsp; HNull]
          end
    | _, _, _ => fail EFAULT
    end.

Definition sys_epoll_ctl (c : Ctx) : sysm Z :=
  event ← (if a3 c =? 0 then mret None else get_ptr (a3 c) 16 kPageRead);
  if negb (a3 c =? 0) && bool_decide (event = None) then fail EFAULT
  else ask "epoll_ctl" [HInt (s32 (a0 c)); HInt (s32 (a1 c)); HInt (s32 (a2 c)); garg event 16 kPageRead].

Definition sys_epoll_wait (c : Ctx) : sysm Z :=
  let max_events := s32 (a2 c) in
  if (max_events <=? 0) || (65536 <? max_events) then fail EINVAL
  else
    events ← get_ptr (a1 c) (max_events * 16) kPageWrite;
    match events with
    | None => fail EFAULT
    | Some events => ask "epoll_pwait" [HInt (s32 (a0 c)); HGuest events (max_events * 16) kPageWrite; HInt max_events; HInt (s32 (a3 c)); HNull]
    end.

(** *** Timers: [itimerval] and [itimerspec] have four words each. *)

Definition read_itimer (addr : Z) : sysm (option (list Z)) := t ← read_guest 4 addr; mret (map s32 <$> t).
Definition write_itimer (addr : Z) (r : answer) : sysm bool := write_guest addr (w32 (out r 0) ++ w32 (out r 1) ++ w32 (out r 2) ++ w32 (out r 3)).

Definition sys_setitimer (c : Ctx) : sysm Z :=
  t ← (if a1 c =? 0 then mret (Some HNull) else t ← read_itimer (a1 c); mret (HData <$> t));
  match t with
  | None => fail EFAULT
  | Some new_value =>
      r ← call host "setitimer" [HInt (s32 (a0 c)); new_value; HOut];
      if negb (ret r =? 0) then fail (errno r)
      else
        ok ← (if a2 c =? 0 then mret true else write_itimer (a2 c) r);
        if negb ok then fail EFAULT else mret 0
  end.

Definition sys_getitimer (c : Ctx) : sysm Z :=
  r ← call host "getitimer" [HInt (s32 (a0 c)); HOut];
  if negb (ret r =? 0) then fail (errno r) else ok ← write_itimer (a1 c) r; if (ok : bool) then mret 0 else fail EFAULT.

Definition sys_timerfd_settime (c : Ctx) : sysm Z :=
  t ← read_itimer (a2 c);
  match t with
  | None => fail EFAULT
  | Some new_value =>
      r ← call host "timerfd_settime" [HInt (s32 (a0 c)); HInt (s32 (a1 c)); HData new_value; HOut];
      if negb (ret r =? 0) then fail (errno r)
      else
        ok ← (if a3 c =? 0 then mret true else write_itimer (a3 c) r);
        if negb ok then fail EFAULT else mret 0
  end.

Definition sys_timerfd_gettime (c : Ctx) : sysm Z :=
  r ← call host "timerfd_gettime" [HInt (s32 (a0 c)); HOut];
  if negb (ret r =? 0) then fail (errno r) else ok ← write_itimer (a1 c) r; if (ok : bool) then mret 0 else fail EFAULT.

Definition sys_utimensat (c : Ctx) (time64 : bool) : sysm Z :=
  path ← (if a1 c =? 0 then mret (Some HNull)
          else
            g ← guest_cstr (a1 c);
            match g with
            | None => mret None
            | Some g => hp ← host_path g; mret (Some (HPath hp))
            end);
  match path with
  | None => fail EFAULT
  | Some path =>
      tp ← (if a2 c =? 0 then mret (Some HNull)
            else
              t0 ← read_timespec (a2 c) time64;
              match t0 with
              | None => mret None
              | Some t0 =>
                  t1 ← read_timespec (u32 (a2 c + (if time64 then 16 else 8))) time64;
                  match t1 with
                  | None => mret None
                  | Some t1 => mret (Some (HData [tv_sec t0; tv_nsec t0; tv_sec t1; tv_nsec t1]))
                  end
              end);
      match tp with
      | None => fail EFAULT
      | Some tp => ask "utimensat" [HInt (s32 (a0 c)); path; tp; HInt (s32 (a3 c))]
      end
  end.

(** *** Sockets *)

Definition sys_sockaddr_in (c : Ctx) (name : string) : sysm Z :=
  sys_buffer (a1 c) (a2 c) kPageRead name (fun addr => [HInt (s32 (a0 c)); addr; HInt (a2 c)]).

(** An output buffer whose capacity is the word at [len_addr]: both null when that is
    0, the buffer null when its address is 0. *)
Definition sized_buffer (addr len_addr : Z) : sysm (option (harg * harg)) :=
  if len_addr =? 0 then mret (Some (HNull, HNull))
  else
    len ← get_ptr len_addr 4 rw;
    match len with
    | None => mret None
    | Some len =>
        bs ← peek len 4;
        let capacity := le bs in
        if addr =? 0 then mret (Some (HNull, HGuest len 4 rw))
        else
          p ← get_ptr addr capacity kPageWrite;
          if negb (capacity =? 0) && bool_decide (p = None) then mret None else mret (Some (garg p capacity kPageWrite, HGuest len 4 rw))
    end.

Definition sys_sockaddr_out (c : Ctx) (name : string) (with_flags : bool) : sysm Z :=
  b ← sized_buffer (a1 c) (a2 c);
  match b with
  | None => fail EFAULT
  | Some (addr, len) => ask name ([HInt (s32 (a0 c)); addr; len] ++ if with_flags then [HInt (s32 (a3 c))] else [])
  end.

Definition sys_sendto (c : Ctx) (dest dest_len : Z) : sysm Z :=
  buf ← get_ptr (a1 c) (a2 c) kPageRead;
  to ← (if dest =? 0 then mret None else get_ptr dest dest_len kPageRead);
  if negb (a2 c =? 0) && bool_decide (buf = None) || negb (dest =? 0) && bool_decide (to = None) then fail EFAULT
  else
    ask "sendto" [HInt (s32 (a0 c)); garg buf (a2 c) kPageRead; HInt (a2 c); HInt (s32 (a3 c)); garg to dest_len kPageRead;
                  HInt (if dest =? 0 then 0 else dest_len)].

Definition sys_recvfrom (c : Ctx) (src src_len_addr : Z) : sysm Z :=
  buf ← get_ptr (a1 c) (a2 c) kPageWrite;
  if negb (a2 c =? 0) && bool_decide (buf = None) then fail EFAULT
  else
    b ← sized_buffer src src_len_addr;
    match b with
    | None => fail EFAULT
    | Some (from, from_len) =>
        ask "recvfrom" [HInt (s32 (a0 c)); garg buf (a2 c) kPageWrite; HInt (a2 c); HInt (s32 (a3 c)); from; from_len]
    end.

Definition SOL_SOCKET : Z := 1.
Definition kSoRcvTimeoOld : Z := 20.
Definition kSoSndTimeoOld : Z := 21.

Definition is_old_timeval_option (level name : Z) : bool :=
  (level =? SOL_SOCKET) && ((name =? kSoRcvTimeoOld) || (name =? kSoSndTimeoOld)).

Definition sys_setsockopt (c : Ctx) : sysm Z :=
  let level := s32 (a1 c) in
  let name := s32 (a2 c) in
  if is_old_timeval_option level name && (8 <=? a4 c) then
    t ← read_guest 2 (a3 c);
    match t with
    | None => fail EFAULT
    | Some t => ask "setsockopt" [HInt (s32 (a0 c)); HInt level; HInt name; HData [s32 (field t 0); s32 (field t 1)]; HInt 16]
    end
  else
    sys_buffer (a3 c) (a4 c) kPageRead "setsockopt" (fun value => [HInt (s32 (a0 c)); HInt level; HInt name; value; HInt (a4 c)]).

Definition sys_getsockopt (c : Ctx) : sysm Z :=
  let level := s32 (a1 c) in
  let name := s32 (a2 c) in
  len ← get_ptr (a4 c) 4 rw;
  match len with
  | None => fail EFAULT
  | Some len =>
      bs ← peek len 4;
      let capacity := le bs in
      if is_old_timeval_option level name then
        r ← call host "getsockopt" [HInt (s32 (a0 c)); HInt level; HInt name; HOut; HInt 16];
        if negb (ret r =? 0) then fail (errno r)
        else if capacity <? 8 then fail EINVAL
        else
          ok ← write_guest (a3 c) (w32 (out r 0) ++ w32 (out r 1));
          if negb ok then fail EFAULT else _ ← poke len (w32 8); mret 0
      else
        sys_buffer (a3 c) capacity kPageWrite "getsockopt" (fun value => [HInt (s32 (a0 c)); HInt level; HInt name; value; HGuest len 4 rw])
  end.

(** *** Paths *)

(** "/proc/self/exe" *)
Definition kProcSelfExe : list Z := [47; 112; 114; 111; 99; 47; 115; 101; 108; 102; 47; 101; 120; 101].

Definition sys_readlinkat (exe_path : list Z) (c : Ctx) : sysm Z :=
  path ← guest_cstr (a1 c);
  buf ← get_ptr (a2 c) (a3 c) kPageWrite;
  match path with
  | None => fail EFAULT
  | Some path =>
      if negb (a3 c =? 0) && bool_decide (buf = None) then fail EFAULT
      else if decide (path = kProcSelfExe) then
        let n := Z.min (size exe_path) (a3 c) in
        _ ← poke (default 0 buf) (take (Z.to_nat n) exe_path);
        mret (s32 n)
      else
        hp ← host_path path;
        ask "readlinkat" [HInt (s32 (a0 c)); HPath hp; garg buf (a3 c) kPageWrite; HInt (a3 c)]
  end.

(** A file of [/proc] that the bridge makes itself, or the host's. *)
Definition sys_openat (proc : Process) (thread_count initial_sp : Z) (c : Ctx) : sysm Z :=
  guest_path ← guest_cstr (a1 c);
  opened ← match guest_path with
           | Some path => open_synthetic_file host proc thread_count initial_sp path (s32 (a2 c))
           | None => mret None
           end;
  match opened with
  | Some res => mret res
  | None => sys_path_call (a1 c) "openat" (fun p => [HInt (s32 (a0 c)); HPath p; HInt (s32 (a2 c)); HInt (a3 c)])
  end.

Definition sys_symlinkat (c : Ctx) : sysm Z :=
  target ← guest_cstr (a0 c);
  link ← guest_cstr (a2 c);
  match target, link with
  | Some target, Some link => hp ← host_path link; ask "symlinkat" [HPath target; HInt (s32 (a1 c)); HPath hp]
  | _, _ => fail EFAULT
  end.

Definition sys_memfd_create (c : Ctx) : sysm Z :=
  name ← guest_cstr (a0 c);
  match name with
  | None => fail EFAULT
  | Some name => ask "memfd_create" [HPath name; HInt (a1 c)]
  end.

Definition sys_msync (c : Ctx) : sysm Z :=
  let size := page_round_up (a1 c) in
  if has_bits (a0 c) kPageMask then fail EINVAL
  else
    ok ← get_accessible (a0 c) size 0;
    if negb ok then fail ENOMEM else ask "msync" [HGuest (a0 c) size 0; HInt size; HInt (s32 (a2 c))].

(** ** The switch

    The cases of [handle_syscall] that only ask the host, in the order of the source.
    Each label occurs once. *)

Section Switch.
Context (exe_path : list Z) (proc : Process) (thread_count initial_sp : Z).

Definition syscall_table : Type := list (Z * (Ctx -> sysm Z)).

(** A call that takes only numbers. *)
Definition plain (name : string) (args : Ctx -> list Z) : Ctx -> sysm Z := fun c => ask name (map HInt (args c)).

(** A call whose result is not checked for an error. *)
Definition plain_id (name : string) (args : Ctx -> list Z) : Ctx -> sysm Z := fun c => r ← call host name (map HInt (args c)); mret (s32 (ret r)).

Definition io_calls : syscall_table := [
  (NR_read, fun c => sys_read_write c false);
  (NR_write, fun c => sys_read_write c true);
  (NR_pread64, fun c => sys_pread_pwrite c false);
  (NR_pwrite64, fun c => sys_pread_pwrite c true);
  (NR_readv, fun c => sys_readv_writev c false);
  (NR_writev, fun c => sys_readv_writev c true);
  (NR_close, plain "close" (fun c => [s32 (a0 c)]));
  (NR_dup, plain "dup" (fun c => [s32 (a0 c)]));
  (NR_dup3, plain "dup3" (fun c => [s32 (a0 c); s32 (a1 c); s32 (a2 c)]));
  (NR_pipe2, sys_pipe2);
  (NR_lseek, sys_lseek);
  (NR__llseek, sys_llseek);
  (NR_fcntl64, sys_fcntl64);
  (NR_ioctl, sys_ioctl)].

Definition path_calls : syscall_table := [
  (NR_openat, sys_openat proc thread_count initial_sp);
  (NR_faccessat, fun c => sys_path_call (a1 c) "faccessat" (fun p => [HInt (s32 (a0 c)); HPath p; HInt (s32 (a2 c))]));
  (NR_faccessat2, fun c => sys_path_call (a1 c) "faccessat2" (fun p => [HInt (s32 (a0 c)); HPath p; HInt (s32 (a2 c)); HInt (s32 (a3 c))]));
  (NR_unlinkat, fun c => sys_path_call (a1 c) "unlinkat" (fun p => [HInt (s32 (a0 c)); HPath p; HInt (s32 (a2 c))]));
  (NR_mkdirat, fun c => sys_path_call (a1 c) "mkdirat" (fun p => [HInt (s32 (a0 c)); HPath p; HInt (a2 c)]));
  (NR_readlinkat, sys_readlinkat exe_path);
  (NR_getcwd, fun c => sys_buffer (a0 c) (a1 c) kPageWrite "getcwd" (fun buf => [buf; HInt (a1 c)]));
  (NR_fstat64, sys_fstat64);
  (NR_fstatat64, sys_fstatat64);
  (NR_statx, sys_statx);
  (NR_fstatfs64, sys_fstatfs64);
  (NR_statfs64, sys_statfs64)].

Definition id_calls : syscall_table := [
  (NR_getpid, plain "getpid" (fun _ => []));
  (NR_getppid, plain "getppid" (fun _ => []));
  (NR_getuid32, plain_id "getuid" (fun _ => []));
  (NR_geteuid32, plain_id "geteuid" (fun _ => []));
  (NR_getgid32, plain_id "getgid" (fun _ => []));
  (NR_getegid32, plain_id "getegid" (fun _ => []))].

Definition clock_calls : syscall_table := [
  (NR_clock_gettime, fun c => sys_clock_get c false false);
  (NR_clock_getres, fun c => sys_clock_get c true false);
  (NR_clock_gettime64, fun c => sys_clock_get c false true);
  (NR_clock_getres_time64, fun c => sys_clock_get c true true);
  (NR_gettimeofday, sys_gettimeofday);
  (NR_nanosleep, sys_nanosleep);
  (NR_clock_nanosleep, fun c => sys_clock_nanosleep c false);
  (NR_clock_nanosleep_time64, fun c => sys_clock_nanosleep c true);
  (NR_futex, fun c => sys_futex c false);
  (NR_futex_time64, fun c => sys_futex c true);
  (NR_sched_yield, plain "sched_yield" (fun _ => []));
  (NR_sched_getaffinity, fun c => sys_affinity c kPageWrite "sched_getaffinity");
  (NR_getrandom, fun c => sys_buffer (a0 c) (a1 c) kPageWrite "getrandom" (fun buf => [buf; HInt (a1 c); HInt (a2 c)]));
  (NR_prctl, sys_prctl);
  (NR_uname, sys_uname);
  (NR_ugetrlimit, sys_ugetrlimit);
  (NR_prlimit64, sys_prlimit64)].

Definition sched_calls : syscall_table := [
  (NR_sched_getscheduler, plain "sched_getscheduler" (fun c => [s32 (a0 c)]));
  (NR_socket, plain "socket" (fun c => [s32 (a0 c); s32 (a1 c); s32 (a2 c)]));
  (NR_connect, fun c => sys_sockaddr_in c "connect")].

Definition file_calls : syscall_table := [
  (NR_getdents64, fun c => sys_buffer (a1 c) (a2 c) kPageWrite "getdents64" (fun buf => [HInt (s32 (a0 c)); buf; HInt (a2 c)]));
  (NR_renameat, fun c => sys_two_paths (a1 c) (a3 c) "renameat" (fun a b => [HInt (s32 (a0 c)); HPath a; HInt (s32 (a2 c)); HPath b]));
  (NR_renameat2, fun c => sys_two_paths (a1 c) (a3 c) "renameat2" (fun a b => [HInt (s32 (a0 c)); HPath a; HInt (s32 (a2 c)); HPath b; HInt (a4 c)]));
  (NR_linkat, fun c => sys_two_paths (a1 c) (a3 c) "linkat" (fun a b => [HInt (s32 (a0 c)); HPath a; HInt (s32 (a2 c)); HPath b; HInt (s32 (a4 c))]));
  (NR_symlinkat, sys_symlinkat);
  (NR_fchmodat, fun c => sys_path_call (a1 c) "fchmodat" (fun p => [HInt (s32 (a0 c)); HPath p; HInt (a2 c)]));
  (NR_fchownat, fun c => sys_path_call (a1 c) "fchownat" (fun p => [HInt (s32 (a0 c)); HPath p; HInt (a2 c); HInt (a3 c); HInt (s32 (a4 c))]));
  (NR_chdir, fun c => sys_path_call (a0 c) "chdir" (fun p => [HPath p]));
  (NR_truncate64, fun c => sys_path_call (a0 c) "truncate" (fun p => [HPath p; HInt (s64 (join64 (a2 c) (a3 c)))]));
  (NR_ftruncate64, plain "ftruncate" (fun c => [s32 (a0 c); s64 (join64 (a2 c) (a3 c))]));
  (NR_utimensat, fun c => sys_utimensat c false);
  (NR_utimensat_time64, fun c => sys_utimensat c true);
  (NR_fchmod, plain "fchmod" (fun c => [s32 (a0 c); a1 c]));
  (NR_fchown32, plain "fchown" (fun c => [s32 (a0 c); a1 c; a2 c]));
  (NR_fsync, plain "fsync" (fun c => [s32 (a0 c)]));
  (NR_fdatasync, plain "fdatasync" (fun c => [s32 (a0 c)]));
  (NR_flock, plain "flock" (fun c => [s32 (a0 c); s32 (a1 c)]));
  (NR_umask, plain_id "umask" (fun c => [a0 c]));
  (NR_fchdir, plain "fchdir" (fun c => [s32 (a0 c)]));
  (NR_dup2, plain "dup2" (fun c => [s32 (a0 c); s32 (a1 c)]));
  (NR_pipe, fun c => sys_descriptor_pair (a0 c) "pipe" []);
  (NR_memfd_create, sys_memfd_create);
  (NR_msync, sys_msync);
  (NR_mlock, fun _ => mret 0);
  (NR_munlock, fun _ => mret 0)].

Definition wait_calls : syscall_table := [
  (NR_poll, fun c => sys_poll c false false);
  (NR_ppoll, fun c => sys_poll c true false);
  (NR_ppoll_time64, fun c => sys_poll c true true);
  (NR__newselect, fun c => sys_select c false false);
  (NR_pselect6, fun c => sys_select c true false);
  (NR_pselect6_time64, fun c => sys_select c true true);
  (NR_eventfd2, plain "eventfd2" (fun c => [a0 c; s32 (a1 c)]));
  (NR_epoll_create1, plain "epoll_create1" (fun c => [s32 (a0 c)]));
  (NR_epoll_ctl, sys_epoll_ctl);
  (NR_epoll_wait, sys_epoll_wait);
  (NR_epoll_pwait, sys_epoll_wait);
  (NR_timerfd_create, plain "timerfd_create" (fun c => [s32 (a0 c); s32 (a1 c)]));
  (NR_timerfd_settime, sys_timerfd_settime);
  (NR_timerfd_gettime, sys_timerfd_gettime)].

Definition socket_calls : syscall_table := [
  (NR_bind, fun c => sys_sockaddr_in c "bind");
  (NR_listen, plain "listen" (fun c => [s32 (a0 c); s32 (a1 c)]));
  (NR_accept, fun c => sys_sockaddr_out c "accept" false);
  (NR_accept4, fun c => sys_sockaddr_out c "accept4" true);
  (NR_getsockname, fun c => sys_sockaddr_out c "getsockname" false);
  (NR_getpeername, fun c => sys_sockaddr_out c "getpeername" false);
  (NR_socketpair, fun c => sys_descriptor_pair (a3 c) "socketpair" [HInt (s32 (a0 c)); HInt (s32 (a1 c)); HInt (s32 (a2 c))]);
  (NR_send, fun c => sys_sendto c 0 0);
  (NR_sendto, fun c => sys_sendto c (a4 c) (a5 c));
  (NR_recv, fun c => sys_recvfrom c 0 0);
  (NR_recvfrom, fun c => sys_recvfrom c (a4 c) (a5 c));
  (NR_shutdown, plain "shutdown" (fun c => [s32 (a0 c); s32 (a1 c)]));
  (NR_setsockopt, sys_setsockopt);
  (NR_getsockopt, sys_getsockopt)].

Definition resource_calls : syscall_table := [
  (NR_setitimer, sys_setitimer);
  (NR_getitimer, sys_getitimer);
  (NR_times, sys_times);
  (NR_getrusage, sys_getrusage);
  (NR_wait4, sys_wait4);
  (NR_sysinfo, sys_sysinfo);
  (NR_getpriority, plain "getpriority" (fun c => [s32 (a0 c); s32 (a1 c)]));
  (NR_setpriority, plain "setpriority" (fun c => [s32 (a0 c); s32 (a1 c); s32 (a2 c)]));
  (NR_sched_setaffinity, fun c => sys_affinity c kPageRead "sched_setaffinity");
  (NR_getpgid, plain "getpgid" (fun c => [s32 (a0 c)]));
  (NR_setsid, plain "setsid" (fun _ => []))].

Definition host_calls_table : syscall_table :=
  io_calls ++ path_calls ++ id_calls ++ clock_calls ++ sched_calls ++ file_calls ++ wait_calls ++ socket_calls ++ resource_calls.

(** The handler of a number. *)
Fixpoint handler_of (t : syscall_table) (nr : Z) : option (Ctx -> sysm Z) :=
  match t with
  | [] => None
  | (n, h) :: t => if nr =? n then Some h else handler_of t nr
  end.
End Switch.
End Handlers.

(** ** Every handler is safe *)

Lemma field_ok ws i : Forall (fun w => 0 <= w < 2 ^ 32) ws -> 0 <= field ws i < 2 ^ 32.
Proof.
  intros H. unfold field. destruct (Nat.lt_ge_cases i (length ws)) as [Hi|Hi].
  - rewrite Forall_forall in H. by apply H, list_elem_of_In, nth_In.
  - rewrite nth_overflow by done. lia.
Qed.

Lemma le_word_ok bs : length bs = 4%nat -> bytes_ok bs -> 0 <= le bs < 2 ^ 32.
Proof. intros Hl Hb. pose proof (le_range bs Hb) as H. by rewrite Hl in H. Qed.

Section Safety.
Context (host : list hostcall -> hostcall -> answer) (translate_path : list hostcall -> list Z -> list Z).
Context (Hkernel : kernel_ok host) (m0 : GuestMemory).

Lemma safe_host_path p : safe m0 (host_path translate_path p).
Proof. intros k _ _. eexists _, k. split; [done|]. split; [apply step_ok_refl|done]. Qed.

Lemma arg_ok_guest addr len need : 0 <= addr < 2 ^ 32 -> 0 <= len < 2 ^ 40 -> accessible m0 addr len need = true -> arg_ok m0 (HGuest addr len need).
Proof. intros. split; [done|]. split; [done|]. by right. Qed.

(** What is known of an optional pointer and of an optional argument. *)
Definition ptr_ok (addr len need : Z) (p : option Z) : Prop := match p with Some q => q = addr /\ accessible m0 addr len need = true | None => True end.
Definition oarg_ok (a : option harg) : Prop := match a with Some a => arg_ok m0 a | None => True end.

Lemma gives_ptr addr len need : gives m0 (get_ptr addr len need) (ptr_ok addr len need).
Proof. eapply gives_mono; [apply gives_get_ptr|]. by intros [p|]. Qed.

Lemma gives_opt_ptr (b : bool) addr len need : gives m0 (if b then mret None else get_ptr addr len need) (ptr_ok addr len need).
Proof. apply gives_if; intros _; [by apply gives_ret|apply gives_ptr]. Qed.

Lemma arg_ok_garg p addr len need : 0 <= addr < 2 ^ 32 -> 0 <= len < 2 ^ 40 -> ptr_ok addr len need p -> arg_ok m0 (garg p len need).
Proof. intros Ha Hl. destruct p as [q|]; [|done]. intros [-> H]. by apply arg_ok_guest. Qed.

Lemma safe_ask name args : Forall (arg_ok m0) args -> safe m0 (ask host name args).
Proof. intros H. eapply gives_bind; [by apply safe_call|]. intros a _. by apply gives_ret. Qed.

Lemma safe_write addr bs : 0 <= addr < 2 ^ 32 -> (length bs <= 1024)%nat -> safe m0 (write_guest addr bs).
Proof. intros Ha Hl. apply safe_write_guest; [done|]. unfold size. lia. Qed.
End Safety.

(** Sizes of structures. *)
Lemma length_w16 v : length (w16 v) = 2%nat. Proof. apply length_to_le. Qed.
Lemma length_w32 v : length (w32 v) = 4%nat. Proof. apply length_to_le. Qed.
Lemma length_w64 v : length (w64 v) = 8%nat. Proof. apply length_to_le. Qed.

Lemma length_chars n s : length (chars n s) = n.
Proof. unfold chars. rewrite length_take, length_app, length_replicate. lia. Qed.

Create Rewrite HintDb sizes.
#[export] Hint Rewrite @length_app @length_take @length_drop @length_map length_w16 length_w32 length_w64 length_chars : sizes.

Ltac sizes := autorewrite with sizes; cbn; lia.

Lemma length_stat64 st : length (fill_stat64 st) = 104%nat.
Proof. unfold fill_stat64. sizes. Qed.
Lemma length_statfs64 r : length (fill_statfs64 r) = 84%nat.
Proof. unfold fill_statfs64. sizes. Qed.
Lemma length_rusage32 r i : length (fill_rusage32 r i) = 72%nat.
Proof. unfold fill_rusage32. cbn [seq flat_map]. sizes. Qed.
Lemma length_sysinfo32 r : length (fill_sysinfo32 r) = 64%nat.
Proof. unfold fill_sysinfo32. sizes. Qed.

#[export] Hint Rewrite length_stat64 length_statfs64 length_rusage32 length_sysinfo32 : sizes.

Lemma ioctl_arg_range request arg_size need : ioctl_arg request = Some (arg_size, need) -> 0 <= arg_size < 2 ^ 40.
Proof. unfold ioctl_arg. intros H. repeat case_match; simplify_eq; lia. Qed.

(** The ranges and the arguments of host calls. *)
Ltac safe_range :=
  unfold ctx_ok, rw, IOV_MAX, FD_SETSIZE in *;
  match goal with
  | H : Forall _ ?ws |- context [field ?ws ?i] => pose proof (field_ok ws i H); lia
  | H : ioctl_arg _ = Some _ |- _ => pose proof (ioctl_arg_range _ _ _ H); lia
  | H : length ?bs = 4%nat, H' : bytes_ok ?bs |- context [le ?bs] => pose proof (le_word_ok bs H H'); lia
  | |- 0 <= page_round_up (?f ?c) < _ => rewrite (page_round_up_spec (f c)) by lia; pose proof (Z.mul_div_le (f c + 4095) 4096 ltac:(lia)); split; [apply Z.mul_nonneg_nonneg; [apply Z.div_pos|]|]; lia
  | |- 0 <= u32 _ < _ => apply u32_range
  | _ => lia
  end.

Ltac safe_args :=
  repeat first
    [ apply Forall_nil_2
    | apply Forall_cons; split
    | apply Forall_app; split
    | assumption
    | exact I
    | match goal with |- arg_ok _ (HGuest _ _ _) => apply arg_ok_guest; [safe_range|safe_range|assumption] end
    | match goal with |- arg_ok _ (garg _ _ _) => eapply arg_ok_garg; [| |eassumption]; safe_range end ].

(** *** Helpers of several handlers *)

Section Helpers.
Context (m0 : GuestMemory).

Lemma safe_read_timespec addr time64 : 0 <= addr < 2 ^ 32 -> safe m0 (read_timespec addr time64).
Proof.
  intros Ha. unfold read_timespec. apply gives_if; intros _; (eapply gives_bind; [apply gives_read_guest; [done|lia]|]); intros t _; by apply gives_ret.
Qed.

Lemma safe_write_timespec addr time64 ts : 0 <= addr < 2 ^ 32 -> safe m0 (write_timespec addr time64 ts).
Proof. intros Ha. unfold write_timespec. apply gives_if; intros _; (apply safe_write; [done|sizes]). Qed.

Lemma gives_timeout addr time64 : 0 <= addr < 2 ^ 32 -> gives m0 (timeout_arg addr time64) (oarg_ok m0).
Proof.
  intros Ha. unfold timeout_arg. apply gives_if; intros _; [by apply gives_ret|].
  eapply gives_bind; [by apply safe_read_timespec|]. intros [t|] _; by apply gives_ret.
Qed.

Lemma gives_fd_set addr : 0 <= addr < 2 ^ 32 -> gives m0 (guest_fd_set addr) (oarg_ok m0).
Proof.
  intros Ha. unfold guest_fd_set. apply gives_if; intros _; [by apply gives_ret|].
  eapply gives_bind; [apply gives_ptr|]. intros [p|] Hp; [|by apply gives_ret]. destruct Hp as [-> Hacc].
  apply gives_ret. by apply arg_ok_guest; [|lia|].
Qed.

Lemma safe_read_itimer addr : 0 <= addr < 2 ^ 32 -> safe m0 (read_itimer addr).
Proof. intros Ha. eapply gives_bind; [apply gives_read_guest; [done|lia]|]. intros t _. by apply gives_ret. Qed.

Lemma gives_sized_buffer addr len_addr :
  0 <= addr < 2 ^ 32 /\ 0 <= len_addr < 2 ^ 32 ->
  gives m0 (sized_buffer addr len_addr) (fun r => match r with Some (a, l) => arg_ok m0 a /\ arg_ok m0 l | None => True end).
Proof.
  intros [Ha Hl]. unfold sized_buffer. apply gives_if; intros _; [by apply gives_ret|].
  eapply gives_bind; [apply gives_ptr|]. intros [p|] Hp; [|by apply gives_ret]. destruct Hp as [-> Hacc].
  assert (arg_ok m0 (HGuest len_addr 4 rw)) by (by apply arg_ok_guest; [|lia|]).
  eapply gives_bind; [apply (peek_ok _ _ _ rw); [done|lia|done|done]|]. intros bs [Hlen Hb]. pose proof (le_word_ok bs Hlen Hb). cbv zeta.
  apply gives_if; intros _; [by apply gives_ret|]. eapply gives_bind; [apply gives_ptr|]. intros p Hp.
  apply gives_if; intros _; [by apply gives_ret|]. apply gives_ret. split; [|done]. eapply arg_ok_garg; [exact Ha|lia|done].
Qed.

Lemma gives_iov_loop n i base need acc :
  Forall (arg_ok m0) acc -> 0 <= base < 2 ^ 32 ->
  gives m0 (iov_loop n i base need acc) (fun r => match r with Some l => Forall (arg_ok m0) l | None => True end).
Proof.
  revert i acc. induction n as [|n IH]; intros i acc Hacc Hb; cbn [iov_loop]; [by apply gives_ret|].
  eapply gives_bind; [apply gives_read_guest; [apply u32_range|lia]|]. intros [v|]; [|intros _; by apply gives_ret]. intros [Hlen Hv].
  pose proof (field_ok v 0 Hv). pose proof (field_ok v 1 Hv).
  eapply gives_bind; [apply gives_ptr|]. intros p Hp. apply gives_if; intros _; [by apply gives_ret|]. apply IH; [|done].
  apply Forall_app. split; [done|]. apply Forall_singleton. eapply arg_ok_garg; [| |done]; lia.
Qed.

Lemma safe_readlinkat host translate_path exe_path c : kernel_ok host -> ctx_ok c -> safe m0 (sys_readlinkat host translate_path exe_path c).
Proof.
  intros Hk Hc. unfold ctx_ok in Hc. unfold sys_readlinkat. eapply gives_bind; [apply safe_cstr; lia|]. intros path _.
  eapply gives_bind; [apply gives_get_ptr|]. intros buf Hbuf. destruct path as [path|]; [|by apply gives_ret].
  destruct (negb _ && _) eqn:Eb; [by apply gives_ret|]. case_decide.
  - eapply gives_bind; [|intros _ _; by apply gives_ret].
    destruct buf as [b|].
    + destruct Hbuf as [-> Hacc]. apply (poke_ok _ _ _ (a2 c) (a3 c) kPageWrite); [lia|lia|done|done|cbn; lia|].
      change (default 0 (Some (a2 c))) with (a2 c). unfold size at 1. rewrite length_take. unfold size. lia.
    + assert (a3 c = 0) as Hz. { destruct (Z.eqb_spec (a3 c) 0); [done|]. by rewrite bool_decide_true in Eb by done. }
      rewrite Hz in Hbuf. by unfold accessible in Hbuf.
  - eapply gives_bind; [apply safe_host_path|]. intros hp _. apply safe_ask; [done|].
    destruct buf as [b|]; [destruct Hbuf as [-> ?]|]; cbn [garg]; safe_args.
Qed.
End Helpers.

(** The case analysis of a handler: one step of its program. *)
Ltac safe_step Hk Hc :=
  lazymatch goal with
  | H : _ /\ _ |- gives _ _ _ => destruct H
  | H : ptr_ok _ _ _ _ (Some _) |- gives _ _ _ => destruct H
  | H : oarg_ok _ (Some _) |- gives _ _ _ => cbn [oarg_ok] in H
  | H : ?x = a0 _ |- gives _ _ _ => subst x
  | H : ?x = a1 _ |- gives _ _ _ => subst x
  | H : ?x = a2 _ |- gives _ _ _ => subst x
  | H : ?x = a3 _ |- gives _ _ _ => subst x
  | H : ?x = a4 _ |- gives _ _ _ => subst x
  | H : ?x = field _ _ |- gives _ _ _ => subst x
  | H : ?x = accessible _ _ _ _ |- gives _ _ _ => subst x
  | H : negb (accessible _ _ _ _) = false |- gives _ _ _ => apply negb_false_iff in H
  | |- gives _ (mret _) _ => apply gives_ret; first [exact I|cbn [fmap option_fmap option_map oarg_ok]; safe_args]
  | |- gives _ (fail _) _ => apply gives_ret; exact I
  | |- gives _ (ask _ _ _) _ => apply safe_ask; [exact Hk|safe_args]
  | |- gives _ ((if _ then mret None else get_ptr _ _ _) ≫= _) _ => eapply gives_bind; [apply gives_opt_ptr|]
  | |- gives _ (get_accessible _ _ _ ≫= _) _ => eapply gives_bind; [apply gives_accessible|]
  | |- gives ?m (mbind (M:=sysm) (A:=bool) _ _) _ => eapply (gives_bind m _ (fun _ => True))
  | |- gives _ (mret _ ≫= _) _ => apply gives_ret_bind
  | |- gives ?m (mbind (M:=sysm) (A:=option harg) _ _) _ => eapply (gives_bind m _ (oarg_ok m))
  | |- gives _ (_ ≫= _) _ => eapply gives_bind
  | |- gives _ (get_ptr _ _ _) _ => apply gives_ptr
  | |- gives _ (get_accessible _ _ _) _ => apply gives_accessible
  | |- gives _ (read_guest _ _) _ => apply gives_read_guest; [safe_range|lia]
  | |- gives _ (write_guest _ _) _ => apply safe_write; [safe_range|sizes]
  | |- gives _ (read_timespec _ _) _ => apply safe_read_timespec; safe_range
  | |- gives _ (write_timespec _ _ _) _ => apply safe_write_timespec; safe_range
  | |- gives _ (timeout_arg _ _) _ => apply gives_timeout; safe_range
  | |- gives _ (guest_fd_set _) _ => apply gives_fd_set; safe_range
  | |- gives _ (read_itimer _) _ => apply safe_read_itimer; safe_range
  | |- gives _ (sized_buffer _ _) _ => apply gives_sized_buffer; safe_range
  | |- gives _ (open_synthetic_file _ _ _ _ _ _) _ => apply safe_open_synthetic_file; exact Hk
  | |- gives _ (sys_readlinkat _ _ _ _) _ => apply safe_readlinkat; [exact Hk|exact Hc]
  | |- gives _ (iov_loop _ _ _ _ _) _ => apply gives_iov_loop; [apply Forall_nil_2|safe_range]
  | |- gives _ (guest_cstr _) _ => apply safe_cstr; safe_range
  | |- gives _ (host_path _ _) _ => apply safe_host_path
  | |- gives _ (call _ _ _) _ => apply safe_call; [exact Hk|safe_args]
  | |- gives _ (peek ?a _) _ => apply (peek_ok _ a _ rw); [safe_range|lia|assumption|done]
  | |- gives _ (poke ?a ?bs) _ => eapply (poke_ok _ a bs a); [safe_range| |eassumption|done|lia|unfold size; sizes]; lia
  | |- gives _ (if ?b then _ else _) _ => destruct b eqn:?
  | |- gives _ (match ?p with _ => _ end) _ => destruct p eqn:?
  | |- forall p : option _, _ -> _ => let H := fresh in intros [?|] H; cbv beta in H
  | |- forall _, _ -> _ => let H := fresh in intros ? H; cbv beta in H
  end.
Ltac safe_steps Hk Hc := unfold safe; repeat (safe_step Hk Hc; cbn beta zeta delta [garg] iota).

(** Unfolding the handlers. *)
Create HintDb handlers.
#[export] Hint Unfold sys_read_write sys_pread_pwrite sys_readv_writev sys_clock_get sys_gettimeofday sys_clock_nanosleep sys_nanosleep
  sys_stat_common sys_statfs_common sys_fstat64 sys_fstatat64 sys_fstatfs64 sys_statfs64 sys_statx sys_ioctl sys_fcntl64 sys_llseek sys_lseek
  sys_descriptor_pair sys_pipe2 sys_path_call sys_two_paths sys_buffer sys_prctl sys_uname sys_futex sys_ugetrlimit sys_prlimit64 sys_times
  sys_getrusage sys_wait4 sys_affinity sys_sysinfo sys_poll sys_select sys_epoll_ctl sys_epoll_wait write_itimer sys_setitimer sys_getitimer
  sys_timerfd_settime sys_timerfd_gettime sys_utimensat sys_sockaddr_in sys_sockaddr_out sys_sendto sys_recvfrom sys_setsockopt sys_getsockopt
  sys_openat sys_symlinkat sys_memfd_create sys_msync plain plain_id : handlers.

Section Handled.
Context (host : list hostcall -> hostcall -> answer) (translate_path : list hostcall -> list Z -> list Z).
Context (Hk : kernel_ok host) (m0 : GuestMemory).

Definition safe_table (t : syscall_table) : Prop := Forall (fun e => forall c, ctx_ok c -> safe m0 (snd e c)) t.

Ltac table := repeat (apply Forall_cons; split; [intros c Hc; cbn [snd]; autounfold with handlers; safe_steps Hk Hc|]); apply Forall_nil_2.

Lemma safe_io_calls : safe_table (io_calls host).
Proof. unfold io_calls. table. Qed.
Lemma safe_id_calls : safe_table (id_calls host).
Proof. unfold id_calls. table. Qed.
Lemma safe_clock_calls : safe_table (clock_calls host).
Proof. unfold clock_calls. table. Qed.
Lemma safe_sched_calls : safe_table (sched_calls host).
Proof. unfold sched_calls. table. Qed.
Lemma safe_file_calls : safe_table (file_calls host translate_path).
Proof. unfold file_calls. table. Qed.
Lemma safe_wait_calls : safe_table (wait_calls host).
Proof. unfold wait_calls. table. Qed.
Lemma safe_socket_calls : safe_table (socket_calls host).
Proof. unfold socket_calls. table. Qed.
Lemma safe_resource_calls : safe_table (resource_calls host).
Proof. unfold resource_calls. table. Qed.
Lemma safe_path_calls exe_path proc thread_count initial_sp : safe_table (path_calls host translate_path exe_path proc thread_count initial_sp).
Proof. unfold path_calls. table. Qed.
End Handled.

(** ** Structures the guest sees *)

Lemma grow_unit_spec fuel b j :
  0 <= b < 2 ^ 64 -> 0 <= j <= 32 -> 33 - j <= Z.of_nat fuel ->
  exists j', j <= j' <= 32 /\ grow_unit fuel b (2 ^ j) = 2 ^ j' /\ b / 2 ^ j' <= 0xFFFFFFFF /\ (j' = j \/ 0xFFFFFFFF < b / 2 ^ (j' - 1)).
Proof.
  intros Hb. revert j. induction fuel as [|fuel IH]; intros j Hj Hf; [lia|]. cbn [grow_unit]. pose proof (Z.pow_pos_nonneg 2 j ltac:(lia) ltac:(lia)).
  destruct (Z.ltb_spec 0xFFFFFFFF (b / 2 ^ j)) as [Hbig|Hok]; [|exists j; split_and!; auto; lia].
  assert (j <> 32). { intros ->. assert (b / 2 ^ 32 < 2 ^ 32) by (apply Z.div_lt_upper_bound; lia). lia. }
  rewrite Z.shiftl_mul_pow2, <- Z.pow_add_r by lia. rewrite u64_small by (split; [apply Z.pow_nonneg|apply Z.pow_lt_mono_r]; lia).
  destruct (IH (j + 1)) as (j' & Hj' & E & Hfit & Hmin); [lia..|]. exists j'. split_and!; [lia..|done|done|].
  right. destruct Hmin as [->|?]; [|done]. by replace (j + 1 - 1) with j by lia.
Qed.

Lemma guest_unit_spec bytes j :
  Forall (fun b => 0 <= b < 2 ^ 64) bytes -> 0 <= j <= 32 ->
  exists j', j <= j' <= 32 /\ fold_left (fun u b => grow_unit 33 b u) bytes (2 ^ j) = 2 ^ j' /\
    Forall (fun b => b / 2 ^ j' <= 0xFFFFFFFF) bytes /\ (j' = j \/ Exists (fun b => 0xFFFFFFFF < b / 2 ^ (j' - 1)) bytes).
Proof.
  intros Hb. revert j. induction Hb as [|b bytes Hb _ IH]; intros j Hj; cbn [fold_left]; [exists j; split_and!; auto; lia|].
  destruct (grow_unit_spec 33 b j) as (j1 & H1 & E1 & Hf1 & Hm1); [done|done|lia|]. rewrite E1.
  destruct (IH j1) as (j2 & H2 & E2 & Hf2 & Hm2); [lia|]. exists j2. split_and!; [lia..|done| |].
  - apply Forall_cons. split; [|done]. etrans; [|exact Hf1]. apply Z.div_le_compat_l; [lia|]. split; [apply Z.pow_pos_nonneg|apply Z.pow_le_mono_r]; lia.
  - destruct Hm2 as [->|He]; [|right; by apply Exists_cons_tl]. destruct Hm1 as [->|?]; [by left|right; by apply Exists_cons_hd].
Qed.

(** The memory unit of sysinfo.  Both loops end: the unit is a power of two of at most
    [2^32]; in that unit every size the host reports fits a 32-bit word; and it is the
    least such unit (it is 1, or in half of it some size would not fit). *)
Theorem sysinfo_unit_exact (r : answer) :
  exists j, 0 <= j <= 32 /\ guest_unit (sysinfo_bytes r) = 2 ^ j /\
    Forall (fun b => 0 <= b / guest_unit (sysinfo_bytes r) < 2 ^ 32) (sysinfo_bytes r) /\
    (guest_unit (sysinfo_bytes r) = 1 \/ Exists (fun b => 2 ^ 32 <= b / (guest_unit (sysinfo_bytes r) / 2)) (sysinfo_bytes r)).
Proof.
  assert (Forall (fun b => 0 <= b < 2 ^ 64) (sysinfo_bytes r)) as Hb.
  { apply Forall_forall. intros b Hb. apply list_elem_of_fmap in Hb as (i & -> & _). apply u64_range. }
  destruct (guest_unit_spec (sysinfo_bytes r) 0 Hb ltac:(lia)) as (j & Hj & E & Hf & Hm). change (2 ^ 0) with 1 in E. unfold guest_unit. rewrite E.
  exists j. split_and!; [lia..|done| |].
  - rewrite Forall_forall in *. intros b Hi. specialize (Hf b Hi). specialize (Hb b Hi). split; [apply Z.div_pos; [lia|apply Z.pow_pos_nonneg; lia]|lia].
  - destruct Hm as [->|He]; [by left|]. destruct (decide (j = 0)) as [->|]; [by left|]. right. replace (2 ^ j / 2) with (2 ^ (j - 1)).
    + eapply Exists_impl; [exact He|]. cbn. lia.
    + replace j with (j - 1 + 1) at 2 by lia. rewrite Z.pow_add_r by lia. change (2 ^ 1) with 2. by rewrite Z.div_mul.
Qed.

(** The field of [n] bytes at offset [off]. *)
Definition at_offset (bs : list Z) (off n : nat) : Z := le (take n (drop off bs)).

Lemma at_offset_here (n : nat) v rest : at_offset (to_le n v ++ rest) 0 n = v mod 256 ^ Z.of_nat n.
Proof.
  unfold at_offset. rewrite drop_0, take_app_length' by (by rewrite length_to_le). revert v. induction n as [|n IH]; intros v; [by rewrite Z.mod_1_r|].
  cbn [to_le le]. rewrite IH, Nat2Z.inj_succ, Z.pow_succ_r, Z.rem_mul_r by lia. lia.
Qed.

Lemma at_offset_skip (m : nat) v rest off n : (m <= off)%nat -> at_offset (to_le m v ++ rest) off n = at_offset rest (off - m) n.
Proof. intros H. unfold at_offset. by rewrite drop_app_ge, length_to_le by (by rewrite length_to_le). Qed.

Lemma at_offset_last (n : nat) v : at_offset (to_le n v) 0 n = v mod 256 ^ Z.of_nat n.
Proof. rewrite <- (app_nil_r (to_le n v)). apply at_offset_here. Qed.

Ltac layout := unfold w16, w32, w64; repeat (rewrite at_offset_skip by lia; cbn [Nat.sub]); first [apply at_offset_here|apply at_offset_last].

(** The structures written to the guest have the sizes and field offsets of the arm
    EABI: 104 bytes for stat64 with each field, truncated to its width, at its offset; 84
    for statfs64, 72 for rusage and 64 for sysinfo. *)
Theorem guest_layouts st r i :
  length (fill_stat64 st) = 104%nat /\ length (fill_statfs64 r) = 84%nat /\ length (fill_rusage32 r i) = 72%nat /\ length (fill_sysinfo32 r) = 64%nat /\
  let f := at_offset (fill_stat64 st) in
  f 0%nat 8%nat = u64 (st_dev st) /\ f 12%nat 4%nat = u32 (st_ino st) /\ f 16%nat 4%nat = u32 (st_mode st) /\ f 20%nat 4%nat = u32 (st_nlink st) /\
  f 24%nat 4%nat = u32 (st_uid st) /\ f 28%nat 4%nat = u32 (st_gid st) /\ f 32%nat 8%nat = u64 (st_rdev st) /\ f 48%nat 8%nat = u64 (st_size st) /\
  f 56%nat 4%nat = u32 (st_blksize st) /\ f 64%nat 8%nat = u64 (st_blocks st) /\ f 72%nat 4%nat = u32 (tv_sec (st_atim st)) /\
  f 80%nat 4%nat = u32 (tv_sec (st_mtim st)) /\ f 88%nat 4%nat = u32 (tv_sec (st_ctim st)) /\ f 92%nat 4%nat = u32 (tv_nsec (st_ctim st)) /\
  f 96%nat 8%nat = u64 (st_ino st) /\
  at_offset (fill_sysinfo32 r) 16 4 = u32 (field (sysinfo_bytes r) 0 / guest_unit (sysinfo_bytes r)) /\
  at_offset (fill_sysinfo32 r) 52 4 = u32 (guest_unit (sysinfo_bytes r)).
Proof.
  split; [apply length_stat64|]. split; [apply length_statfs64|]. split; [apply length_rusage32|]. split; [apply length_sysinfo32|].
  cbv zeta. unfold fill_stat64, fill_sysinfo32. cbv zeta. repeat split; layout.
Qed.
