(* ===== verification/Messages.v ===== *)
(** * Socket messages

    sendmsg and recvmsg of [core/src/syscalls.cpp]: the guest's message header, its
    scatter-gather vector and its control messages, which have 12-byte headers and
    4-byte alignment in the guest and 16-byte headers and 8-byte alignment in the host.
    The guest's control messages are translated without leaving the buffer as long as no
    length they claim passes the check of the code by wrapping its 32-bit sum; with one
    that does, the copy leaves the buffer, and the bridge may fault. *)

From stdpp Require Import numbers list strings.
From S2P Require Import Prelude Bytes GuestMemory InitialStack GuestThread ProcessMemory Kernel SyscallNumbers Syscalls.
Local Open Scope Z_scope.

Definition EMSGSIZE : Z := 90.
Definition MSG_CTRUNC : Z := 8.

(** ** Message headers *)

(** [g::msghdr32], by the words it consists of. *)
Definition msg_name (gm : list Z) : Z := field gm 0.
Definition msg_namelen (gm : list Z) : Z := field gm 1.
Definition msg_iov (gm : list Z) : Z := field gm 2.
Definition msg_iovlen (gm : list Z) : Z := field gm 3.
Definition msg_control (gm : list Z) : Z := field gm 4.
Definition msg_controllen (gm : list Z) : Z := field gm 5.
Definition msg_flags (gm : list Z) : Z := field gm 6.

Section Messages.
Context (host : list hostcall -> hostcall -> answer).

(** The vector, the name with its length, and the flags; or an error. *)
Definition build_host_message (gm : list Z) (receiving : bool) : sysm (Z + list harg) :=
  let need := if receiving then kPageWrite else kPageRead in
  if IOV_MAX <? msg_iovlen gm then mret (inl (- EMSGSIZE))
  else
    iov ← iov_loop (Z.to_nat (msg_iovlen gm)) 0 (msg_iov gm) need [];
    match iov with
    | None => mret (inl (- EFAULT))
    | Some iov =>
        if msg_name gm =? 0 then mret (inr (iov ++ [HInt (msg_iovlen gm); HNull; HInt 0; HInt (s32 (msg_flags gm))]))
        else
          name ← get_ptr (msg_name gm) (msg_namelen gm) need;
          if negb (msg_namelen gm =? 0) && bool_decide (name = None) then mret (inl (- EFAULT))
          else mret (inr (iov ++ [HInt (msg_iovlen gm); garg name (msg_namelen gm) need; HInt (msg_namelen gm); HInt (s32 (msg_flags gm))]))
    end.

(** ** Control messages *)

Definition align4 (n : Z) : Z := Z.land (u32 (n + 3)) (Z.lxor 3 0xFFFFFFFF).
Definition align8 (n : Z) : Z := (n + 7) / 8 * 8.

(** A message in the host's buffer: [CMSG_SPACE] bytes, those after the data zero. *)
Definition host_msg (level type : Z) (data : list Z) : list Z :=
  w64 (16 + size data) ++ w32 level ++ w32 type ++ data ++ replicate (Z.to_nat (align8 (size data) - size data)) 0.

(** The loop of [control_to_host] from [offset].  It outruns its bound only after an offset
    that wrapped, and then need not end before the vector cannot grow. *)
Fixpoint to_host_loop (fuel : nat) (src len offset : Z) (out : list Z) : sysm (list Z) :=
  match fuel with
  | O => fun _ => Undefined
  | S fuel =>
      if len <? offset + 12 then mret out
      else
        header ← peek (src + offset) 12;
        let cmsg_len := le (take 4 header) in
        if (cmsg_len <? 12) || (len <? u32 (offset + cmsg_len)) then mret out
        else
          let data_len := u32 (cmsg_len - 12) in
          data ← peek (src + offset + 12) (Z.to_nat data_len);
          to_host_loop fuel src len (u32 (offset + align4 cmsg_len)) (out ++ host_msg (le (take 4 (drop 4 header))) (le (drop 8 header)) data)
  end.

(** A message takes at least 12 bytes. *)
Definition control_to_host (addr len : Z) : sysm (option (list Z)) :=
  src ← get_ptr addr len kPageRead;
  match src with
  | None => mret None
  | Some src => out ← to_host_loop (S (Z.to_nat (len / 12))) src len 0 []; mret (Some out)
  end.

(** [memcpy] out of a buffer of the bridge. *)
Definition buffer_bytes (bs : list Z) (off n : Z) : sysm (list Z) := fun k => (fun d => (d, k)) <$> read_bytes bs off n.

(** The loop of [control_to_guest]; [bs] is what is left of the host's buffer from the
    current header on.  [CMSG_FIRSTHDR] and [CMSG_NXTHDR] give none when no header fits. *)
Fixpoint to_guest_loop (fuel : nat) (bs : list Z) (dst capacity offset flags : Z) : sysm (Z * Z) :=
  match fuel with
  | O => mret (offset, flags)
  | S fuel =>
      if size bs <? 16 then mret (offset, flags)
      else
        let cmsg_len := le (take 8 bs) in
        let data_len := u64 (cmsg_len - 16) in
        let needed := u32 (12 + data_len) in
        if capacity <? u32 (offset + needed) then mret (offset, Z.lor flags MSG_CTRUNC)
        else
          _ ← poke (dst + offset) (w32 needed ++ take 8 (drop 8 bs));
          data ← buffer_bytes bs 16 data_len;
          _ ← poke (dst + offset + 12) data;
          to_guest_loop fuel (drop (Z.to_nat (align8 cmsg_len)) bs) dst capacity (Z.min capacity (u32 (offset + align4 needed))) flags
  end.

(** A message of the host takes at least 16 bytes. *)
Definition control_to_guest (bs : list Z) (dst capacity flags : Z) : sysm (Z * Z) := to_guest_loop (S (length bs / 16)) bs dst capacity 0 flags.

(** ** The calls *)

Definition sys_sendmsg (c : Ctx) : sysm Z :=
  gm ← read_guest 7 (a1 c);
  match gm with
  | None => fail EFAULT
  | Some gm =>
      hm ← build_host_message gm false;
      match hm with
      | inl err => mret err
      | inr msg =>
          control ← (if msg_controllen gm =? 0 then mret (Some HNull)
                     else out ← control_to_host (msg_control gm) (msg_controllen gm); mret (HData <$> out));
          match control with
          | None => fail EFAULT
          | Some control => ask host "sendmsg" ([HInt (s32 (a0 c))] ++ msg ++ [control; HInt (s32 (a2 c))])
          end
      end
  end.

(** The kernel fills in the flags, the length of the name, and the control messages. *)
Definition recv_control (r : answer) : list Z := map u8 (drop 2 (outs r)).

Definition sys_recvmsg (c : Ctx) : sysm Z :=
  gm ← read_guest 7 (a1 c);
  w ← get_ptr (a1 c) 28 kPageWrite;
  match gm, w with
  | Some gm, Some _ =>
      hm ← build_host_message gm true;
      match hm with
      | inl err => mret err
      | inr msg =>
          guest_control ← (if msg_controllen gm =? 0 then mret None else get_ptr (msg_control gm) (msg_controllen gm) kPageWrite);
          if negb (msg_controllen gm =? 0) && bool_decide (guest_control = None) then fail EFAULT
          else
            let room := if msg_controllen gm =? 0 then [HNull; HInt 0] else [HOut; HInt (msg_controllen gm * 2 + 64)] in
            r ← call host "recvmsg" ([HInt (s32 (a0 c))] ++ msg ++ room ++ [HInt (s32 (a2 c))]);
            if ret r <? 0 then fail (errno r)
            else
              cf ← match guest_control with
                   | Some dst => control_to_guest (recv_control r) dst (msg_controllen gm) (out r 0)
                   | None => mret (0, out r 0)
                   end;
              _ ← write_guest (a1 c) (w32 (msg_name gm) ++ w32 (out r 1) ++ w32 (msg_iov gm) ++ w32 (msg_iovlen gm) ++
                                      w32 (msg_control gm) ++ w32 (fst cf) ++ w32 (snd cf));
              mret (s32 (ret r))
      end
  | _, _ => fail EFAULT
  end.
End Messages.

(** ** Reference: the messages of a buffer *)

Record cmsg := { cm_level : Z; cm_type : Z; cm_data : list Z }.

#[global] Instance cmsg_eq_dec : EqDecision cmsg.
Proof. solve_decision. Defined.

Definition encode_host (m : cmsg) : list Z := host_msg (cm_level m) (cm_type m) (cm_data m).

(** What a message says its length is, and the messages of a guest buffer. *)
Fixpoint messages_in (fuel : nat) (bs : list Z) : list cmsg :=
  match fuel with
  | O => []
  | S fuel =>
      let l := le (take 4 bs) in
      if (size bs <? 12) || (l <? 12) || (size bs <? l) then []
      else
        {| cm_level := le (take 4 (drop 4 bs)); cm_type := le (take 4 (drop 8 bs)); cm_data := take (Z.to_nat (l - 12)) (drop 12 bs) |} ::
        messages_in fuel (drop (Z.to_nat ((l + 3) / 4 * 4)) bs)
  end.
Definition guest_messages (bs : list Z) : list cmsg := messages_in (S (length bs / 12)) bs.

(** In the buffer, which starts at [offset], every message that passes the code's 32-bit
    check really lies in the buffer, and ends before offset [2^32]. *)
Fixpoint fits_in (fuel : nat) (offset : Z) (bs : list Z) : bool :=
  match fuel with
  | O => true
  | S fuel =>
      let l := le (take 4 bs) in
      (size bs <? 12) || (l <? 12) || (offset + size bs <? u32 (offset + l)) ||
      (l <=? size bs) && (offset + (l + 3) / 4 * 4 <? 2 ^ 32) && fits_in fuel (offset + (l + 3) / 4 * 4) (drop (Z.to_nat ((l + 3) / 4 * 4)) bs)
  end.
Definition control_fits (bs : list Z) : bool := fits_in (S (length bs / 12)) 0 bs.

(** ** Translation to the host *)

Lemma align4_spec n : 0 <= n -> n + 3 < 2 ^ 32 -> align4 n = (n + 3) / 4 * 4.
Proof.
  intros H1 H2. unfold align4. rewrite u32_small by lia. apply Z.bits_inj'. intros i Hi. rewrite Z.land_spec.
  change 4 with (2 ^ 2). rewrite <- Z.shiftl_mul_pow2, <- Z.shiftr_div_pow2 by lia. rewrite Z.shiftl_spec by lia.
  destruct (decide (i < 2)) as [Hl|Hl].
  - rewrite (Z.testbit_neg_r _ (i - 2)) by lia. assert (i = 0 \/ i = 1) as [-> | ->] by lia; apply andb_false_r.
  - rewrite Z.shiftr_spec by lia. replace (i - 2 + 2) with i by lia. destruct (decide (i < 32)) as [Hs|Hs].
    + assert (Z.testbit (Z.lxor 3 0xFFFFFFFF) i = true) as ->; [|apply andb_true_r].
      change (Z.lxor 3 0xFFFFFFFF) with (Z.shiftl (Z.ones 30) 2). rewrite Z.shiftl_spec by lia. apply Z.ones_spec_low. lia.
    + rewrite (testbit_above (n + 3) 32) by lia. done.
Qed.

Lemma bytes_at_sub m a n off k : (off + k <= n)%nat -> bytes_at m (a + Z.of_nat off) k = take k (drop off (bytes_at m a n)).
Proof.
  intros H. replace n with (off + (k + (n - off - k)))%nat by lia. rewrite !bytes_at_app.
  rewrite drop_app_length' by (by rewrite length_bytes_at). rewrite take_app_length' by (by rewrite length_bytes_at). done.
Qed.

(** A load inside an accessible buffer. *)
Lemma load_sub m src len off n :
  mem_wf m -> 0 <= src < 2 ^ 32 -> 0 <= len < 2 ^ 32 -> accessible m src len kPageRead = true -> 0 <= off -> off + Z.of_nat n <= len ->
  load_bytes m (src + off) n = Ret (take n (drop (Z.to_nat off) (bytes_at m src (Z.to_nat len)))).
Proof.
  intros Hm Hs Hl Hacc Ho Hend. rewrite <- bytes_at_sub by lia. rewrite Z2Nat.id by done.
  destruct n as [|n]; [done|]. apply accessible_pages in Hacc as [?|[Hb Hp]]; [lia| |lia..].
  apply (load_bytes_ok m _ _ kPageRead); [done|lia|lia| |done]. apply accessible_pages; [lia..|]. right. split; [lia|].
  intros i Hi. apply Hp. split; [etrans; [|apply Hi]|etrans; [apply Hi|]]; apply Z.div_le_mono; lia.
Qed.

Lemma peek_sub k src len off n :
  mem_wf (km k) -> 0 <= src < 2 ^ 32 -> 0 <= len < 2 ^ 32 -> accessible (km k) src len kPageRead = true -> 0 <= off -> off + Z.of_nat n <= len ->
  peek (src + off) n k = Ret (take n (drop (Z.to_nat off) (bytes_at (km k) src (Z.to_nat len))), k).
Proof. intros. unfold peek. by rewrite (load_sub _ src len), exec_ret_bind. Qed.

Lemma sysm_bind_run {A B} (c : sysm A) (f : A -> sysm B) k a k' : c k = Ret (a, k') -> (c ≫= f) k = f a k'.
Proof. intros E. unfold mbind, sysm_bind. by rewrite E. Qed.

Lemma bytes_at_ok m a n : bytes_ok (bytes_at m a n).
Proof. apply Forall_forall. intros b Hb. apply list_elem_of_fmap in Hb as (i & -> & _). apply u8_range. Qed.

Lemma take4_range bs n : bytes_ok bs -> 0 <= le (take 4 (drop n bs)) < 2 ^ 32.
Proof.
  intros Hb. pose proof (le_range (take 4 (drop n bs)) (Forall_take _ _ _ (Forall_drop _ _ _ Hb))) as [H1 H2]. split; [done|].
  eapply Z.lt_le_trans; [exact H2|]. change (2 ^ 32) with (256 ^ 4). apply Z.pow_le_mono_r; [lia|]. rewrite length_take. lia.
Qed.

Lemma to_host_loop_run fuel k src len offset out :
  mem_wf (km k) -> 0 <= src < 2 ^ 32 -> 0 <= len < 2 ^ 32 -> accessible (km k) src len kPageRead = true -> 0 <= offset ->
  let bs := drop (Z.to_nat offset) (bytes_at (km k) src (Z.to_nat len)) in
  size bs < 12 * Z.of_nat fuel -> fits_in fuel offset bs = true ->
  to_host_loop fuel src len offset out k = Ret (out ++ flat_map encode_host (messages_in fuel bs), k).
Proof.
  intros Hm Hs Hl Hacc. revert offset out. induction fuel as [|fuel IH]; intros offset out Ho bs Hfuel Hfit; [unfold size in Hfuel; lia|].
  cbn [to_host_loop messages_in fits_in] in *. set (l := le (take 4 bs)) in *.
  assert (size bs = Z.max 0 (len - offset)) as Hsize by (unfold bs, size; rewrite length_drop, length_bytes_at; lia).
  assert (bytes_ok bs) as Hbs by (apply Forall_drop, bytes_at_ok).
  destruct (Z.ltb_spec (size bs) 12) as [Hsh|Hsh].
  { rewrite (proj2 (Z.ltb_lt len (offset + 12))) by lia. by rewrite app_nil_r. }
  rewrite (proj2 (Z.ltb_ge len (offset + 12))) by lia. cbn [orb] in *.
  rewrite (sysm_bind_run _ _ _ _ _ (peek_sub k src len offset 12 Hm Hs Hl Hacc Ho ltac:(lia))). fold bs.
  rewrite take_take. change (4 `min` 12)%nat with 4%nat. fold l. pose proof (take4_range bs 0 Hbs) as Hlr. rewrite drop_0 in Hlr. fold l in Hlr.
  replace (offset + size bs) with len in Hfit by lia.
  destruct (Z.ltb_spec l 12) as [|E1]; cbn [orb] in *; [by rewrite app_nil_r|].
  destruct (Z.ltb_spec len (u32 (offset + l))) as [Hw|Hw]; cbn [orb] in *.
  { assert (u32 (offset + l) <= offset + l) by (unfold u32; apply Z.mod_le; lia). rewrite (proj2 (Z.ltb_lt (size bs) l)) by lia. by rewrite app_nil_r. }
  apply andb_true_iff in Hfit as [[E2%Z.leb_le Hno%Z.ltb_lt]%andb_true_iff Hfit]. rewrite (proj2 (Z.ltb_ge (size bs) l)) by lia.
  rewrite (u32_small (l - 12)) by lia. replace (src + offset + 12) with (src + (offset + 12)) by lia.
  rewrite (sysm_bind_run _ _ _ _ _ (peek_sub k src len (offset + 12) (Z.to_nat (l - 12)) Hm Hs Hl Hacc ltac:(lia) ltac:(lia))).
  assert (l <= (l + 3) / 4 * 4 <= l + 3) as Hal. { pose proof (Z.div_mod (l + 3) 4 ltac:(lia)). pose proof (Z.mod_pos_bound (l + 3) 4 ltac:(lia)). lia. }
  assert (l + 3 < 2 ^ 32) as Hl3 by (pose proof (Z.div_mod (l + 3) 4 ltac:(lia)); pose proof (Z.mod_pos_bound (l + 3) 4 ltac:(lia)); lia).
  rewrite align4_spec by lia.
  rewrite u32_small by lia. rewrite IH.
  - rewrite Z2Nat.inj_add by lia. rewrite <- !drop_drop. fold bs. cbn [flat_map]. rewrite app_assoc. do 2 f_equal.
    unfold encode_host. cbn [cm_level cm_type cm_data]. do 3 f_equal.
    + change (take 12 bs) with (take (4 + 8) bs). rewrite <- take_drop_commute, take_take. done.
    + change (take 12 bs) with (take (8 + 4) bs). by rewrite <- take_drop_commute.
    + unfold bs. rewrite drop_drop. f_equal. lia.
  - lia.
  - unfold size in *. rewrite length_drop, length_bytes_at. lia.
  - unfold bs in Hfit. rewrite drop_drop, <- Z2Nat.inj_add in Hfit by lia. done.
Qed.

Lemma control_to_host_run k addr len :
  mem_wf (km k) -> 0 <= addr < 2 ^ 32 -> 0 <= len < 2 ^ 32 -> control_fits (bytes_at (km k) addr (Z.to_nat len)) = true ->
  control_to_host addr len k =
    Ret (if accessible (km k) addr len kPageRead then Some (flat_map encode_host (guest_messages (bytes_at (km k) addr (Z.to_nat len)))) else None, k).
Proof.
  intros Hm Ha Hl Hf. unfold control_to_host, control_fits, guest_messages in *. unfold mbind at 1, sysm_bind at 1, get_ptr, host_ptr.
  destruct (accessible (km k) addr len kPageRead) eqn:Hacc; [|done]. cbn [fst snd].
  rewrite length_bytes_at in *. replace (Z.to_nat len / 12)%nat with (Z.to_nat (len / 12)) in * by (by rewrite Z2Nat.inj_div by lia).
  assert (size (drop (Z.to_nat 0) (bytes_at (km k) addr (Z.to_nat len))) < 12 * Z.of_nat (S (Z.to_nat (len / 12)))) as Hfuel.
  { unfold size. rewrite length_drop, length_bytes_at. pose proof (Z.div_mod len 12 ltac:(lia)). pose proof (Z.mod_pos_bound len 12 ltac:(lia)). pose proof (Z.div_pos len 12). lia. }
  by rewrite (sysm_bind_run _ _ _ _ _ (to_host_loop_run _ k addr len 0 [] Hm Ha Hl Hacc ltac:(lia) Hfuel Hf)).
Qed.

(** Whatever the messages claim: the loop changes nothing, and either ends or faults. *)
Lemma to_host_loop_any fuel k src len : forall offset out,
  to_host_loop fuel src len offset out k = Undefined \/ exists out', to_host_loop fuel src len offset out k = Ret (out', k).
Proof.
  induction fuel as [|fuel IH]; intros offset out; cbn [to_host_loop]; [by left|]. destruct (_ <? _); [right; by eexists|].
  assert (forall a n, peek a n k = Undefined \/ exists bs, peek a n k = Ret (bs, k)) as Hpeek.
  { intros a n. unfold peek, load_bytes. destruct (forallb _ _); [right; by eexists|by left]. }
  destruct (Hpeek (src + offset) 12%nat) as [E|[h E]]; [left; unfold mbind, sysm_bind; by rewrite E|]. rewrite (sysm_bind_run _ _ _ _ _ E).
  destruct (_ || _); [right; by eexists|].
  destruct (Hpeek (src + offset + 12) (Z.to_nat (u32 (le (take 4 h) - 12)))) as [E2|[d E2]]; [left; unfold mbind, sysm_bind; by rewrite E2|].
  rewrite (sysm_bind_run _ _ _ _ _ E2). apply IH.
Qed.

Lemma control_to_host_any addr len k :
  control_to_host addr len k = Undefined \/ exists out, control_to_host addr len k = Ret (out, k).
Proof.
  unfold control_to_host. rewrite (sysm_bind_run _ _ k (host_ptr (km k) addr len kPageRead) k) by done. unfold host_ptr.
  destruct (accessible _ _ _ _); [|right; by eexists].
  destruct (to_host_loop_any (S (Z.to_nat (len / 12))) k addr len 0 []) as [E|[out E]].
  - left. unfold mbind, sysm_bind. by rewrite E.
  - right. rewrite (sysm_bind_run _ _ _ _ _ E). by eexists.
Qed.

(** ** Translation to the guest *)

Lemma align4_bounds n : n <= (n + 3) / 4 * 4 <= n + 3.
Proof. pose proof (Z.div_mod (n + 3) 4 ltac:(lia)). pose proof (Z.mod_pos_bound (n + 3) 4 ltac:(lia)). lia. Qed.

Lemma align8_bounds n : n <= align8 n <= n + 7.
Proof. unfold align8. pose proof (Z.div_mod (n + 7) 8 ltac:(lia)). pose proof (Z.mod_pos_bound (n + 7) 8 ltac:(lia)). lia. Qed.

(** The fuel of the reference is enough. *)
Lemma messages_in_fuel f f' bs : (length bs / 12 < f)%nat -> (length bs / 12 < f')%nat -> messages_in f bs = messages_in f' bs.
Proof.
  revert f' bs. induction f as [|f IH]; intros [|f'] bs Hf Hf'; [lia..|]. cbn [messages_in]. destruct (Z.ltb_spec (size bs) 12) as [|Hs]; [done|].
  destruct (Z.ltb_spec (le (take 4 bs)) 12) as [|Hl]; [done|]. destruct (Z.ltb_spec (size bs) (le (take 4 bs))) as [|Hf2]; [done|]. cbn [orb].
  f_equal. pose proof (align4_bounds (le (take 4 bs))). unfold size in *.
  assert (length (drop (Z.to_nat ((le (take 4 bs) + 3) / 4 * 4)) bs) / 12 + 1 <= length bs / 12)%nat.
  { rewrite length_drop, <- (Nat.div_add _ 1 12) by lia. apply Nat.Div0.div_le_mono. lia. }
  apply IH; lia.
Qed.

Lemma guest_messages_cons m bs rest al :
  0 <= cm_level m < 2 ^ 32 -> 0 <= cm_type m < 2 ^ 32 -> 12 + size (cm_data m) < 2 ^ 32 ->
  bs = w32 (12 + size (cm_data m)) ++ w32 (cm_level m) ++ w32 (cm_type m) ++ cm_data m ++ rest ->
  al = Z.to_nat ((12 + size (cm_data m) + 3) / 4 * 4) ->
  guest_messages bs = m :: guest_messages (drop al bs).
Proof.
  intros Hlv Hty Hd Ebs Hal. assert (size bs = 12 + size (cm_data m) + size rest) as Hsz by (subst bs; unfold size; sizes).
  assert (take 4 bs = w32 (12 + size (cm_data m))) as E4 by (subst bs; by rewrite take_app_length' by (by rewrite length_w32)).
  assert (le (take 4 bs) = 12 + size (cm_data m)) as El by (rewrite E4; apply le_to_le; unfold size in *; lia).
  unfold guest_messages at 1. cbn [messages_in]. rewrite El. unfold size in *.
  rewrite (proj2 (Z.ltb_ge (Z.of_nat (length bs)) 12)), (proj2 (Z.ltb_ge (12 + _) 12)), (proj2 (Z.ltb_ge (Z.of_nat (length bs)) _)) by lia. cbn [orb]. f_equal.
  - assert (drop 4 bs = w32 (cm_level m) ++ w32 (cm_type m) ++ cm_data m ++ rest) as D4 by (subst bs; by rewrite drop_app_length' by (by rewrite length_w32)).
    assert (drop 8 bs = w32 (cm_type m) ++ cm_data m ++ rest) as D8.
    { change 8%nat with (4 + 4)%nat. rewrite <- drop_drop, D4. by rewrite drop_app_length' by (by rewrite length_w32). }
    assert (drop 12 bs = cm_data m ++ rest) as D12.
    { change 12%nat with (8 + 4)%nat. rewrite <- drop_drop, D8. by rewrite drop_app_length' by (by rewrite length_w32). }
    rewrite D4, D8, D12, !take_app_length' by (rewrite ?length_w32; lia). unfold w32. rewrite !le_to_le by done. by destruct m.
  - rewrite <- Hal. apply messages_in_fuel; [|lia]. pose proof (align4_bounds (12 + Z.of_nat (length (cm_data m)))).
    assert (length (drop al bs) / 12 + 1 <= length bs / 12)%nat; [|lia].
    rewrite length_drop, <- (Nat.div_add _ 1 12) by lia. apply Nat.Div0.div_le_mono. lia.
Qed.

(** The messages that fit in the guest's buffer: those up to the first that does not. *)
Fixpoint fitting (capacity offset : Z) (ms : list cmsg) : list cmsg :=
  match ms with
  | [] => []
  | m :: ms =>
      let needed := 12 + size (cm_data m) in
      if capacity <? offset + needed then []
      else m :: fitting capacity (Z.min capacity (offset + (needed + 3) / 4 * 4)) ms
  end.

Definition cmsg_ok (m : cmsg) : Prop := 0 <= cm_level m < 2 ^ 32 /\ 0 <= cm_type m < 2 ^ 32 /\ bytes_ok (cm_data m).

Lemma size_encode_host m : size (encode_host m) = 16 + align8 (size (cm_data m)).
Proof.
  unfold encode_host, host_msg, size. autorewrite with sizes. rewrite length_replicate. pose proof (align8_bounds (Z.of_nat (length (cm_data m)))). lia.
Qed.

Lemma accessible_sub m a n off len need :
  0 <= a < 2 ^ 32 -> 0 <= n < 2 ^ 32 -> accessible m a n need = true -> 0 <= off -> 0 < len -> off + len <= n ->
  0 <= a + off < 2 ^ 32 /\ accessible m (a + off) len need = true.
Proof.
  intros Ha Hn Hacc Ho Hl Hend. apply accessible_pages in Hacc as [?|[Hb Hp]]; [lia| |lia..]. split; [lia|]. apply accessible_pages; [lia..|].
  right. split; [lia|]. intros i Hi. apply Hp. split; [etrans; [|apply Hi]|etrans; [apply Hi|]]; apply Z.div_le_mono; lia.
Qed.

Lemma poke_run k dst cap off bs :
  mem_wf (km k) -> 0 <= dst < 2 ^ 32 -> 0 <= cap < 2 ^ 32 -> accessible (km k) dst cap kPageWrite = true -> 0 <= off -> off + size bs <= cap ->
  exists k', poke (dst + off) bs k = Ret (tt, k') /\ klog k' = klog k /\
    changes_within (km k) (km k') (dst + off) (dst + off + size bs) /\ holds (km k') (dst + off) bs.
Proof.
  intros Hm Hd Hc Hacc Ho Hend. unfold poke. destruct (decide (bs = [])) as [->|Hne].
  { exists k. unfold host_write. rewrite decide_True, exec_ret_bind by done. destruct k. by split_and!. }
  assert (0 < size bs) by (destruct bs; [done|unfold size; cbn; lia]).
  destruct (accessible_sub _ _ _ off (size bs) _ Hd Hc Hacc Ho) as [Ha Hsub]; [lia..|].
  destruct (write_accessible (km k) (dst + off) bs Hm Ha ltac:(lia) Hsub) as (m' & E & Hch & Hh).
  rewrite E, exec_ret_bind. eexists. split; [done|]. done.
Qed.

Lemma bytes_at_holds m a bs : bytes_ok bs -> holds m a bs -> bytes_at m a (length bs) = bs.
Proof.
  intros Hb Hh. apply list_eq. intros i. unfold bytes_at. rewrite list_lookup_fmap. destruct (bs !! i) as [b|] eqn:E.
  - pose proof (lookup_lt_Some _ _ _ E). rewrite lookup_seq_lt by done. cbn. rewrite (Hh i b E). f_equal.
    unfold bytes_ok in Hb. rewrite Forall_lookup in Hb. apply Hb in E. by apply u8_small.
  - apply lookup_ge_None in E. by rewrite lookup_seq_ge.
Qed.

Lemma holds_app m a bs bs' : holds m a bs -> holds m (a + size bs) bs' -> holds m a (bs ++ bs').
Proof.
  intros H H' i b Hi. apply lookup_app_Some in Hi as [Hi|[Hge Hi]]; [by apply H|]. specialize (H' _ _ Hi). unfold size in H'.
  rewrite <- H'. f_equal. lia.
Qed.

(** The pieces of a message at the front of the host's buffer. *)
Lemma host_front m rest :
  cmsg_ok m -> size (cm_data m) < 2 ^ 31 -> let bs := encode_host m ++ rest in
  (size bs <? 16) = false /\ le (take 8 bs) = 16 + size (cm_data m) /\ take 8 (drop 8 bs) = w32 (cm_level m) ++ w32 (cm_type m) /\
  read_bytes bs 16 (size (cm_data m)) = Ret (cm_data m) /\ drop (Z.to_nat (align8 (16 + size (cm_data m)))) bs = rest.
Proof.
  intros Hok Hd bs. pose proof (size_encode_host m) as Hse. pose proof (align8_bounds (size (cm_data m))) as Ha.
  set (pad := replicate (Z.to_nat (align8 (size (cm_data m)) - size (cm_data m))) 0).
  assert (bs = w64 (16 + size (cm_data m)) ++ w32 (cm_level m) ++ w32 (cm_type m) ++ cm_data m ++ pad ++ rest) as E
    by (unfold bs, encode_host, host_msg; by rewrite <- !app_assoc).
  assert (drop 8 bs = w32 (cm_level m) ++ w32 (cm_type m) ++ cm_data m ++ pad ++ rest) as D8 by (rewrite E; by rewrite drop_app_length' by (by rewrite length_w64)).
  assert (drop 16 bs = cm_data m ++ pad ++ rest) as D16.
  { change 16%nat with (8 + 8)%nat. rewrite <- drop_drop, D8, app_assoc. by rewrite drop_app_length' by (autorewrite with sizes; done). }
  assert (size bs = 16 + align8 (size (cm_data m)) + size rest) as Hs by (rewrite <- Hse; unfold bs, size; rewrite length_app; lia).
  pose proof (size_nonneg (cm_data m)). pose proof (size_nonneg rest). split_and!.
  - apply Z.ltb_ge. lia.
  - rewrite E, take_app_length' by (by rewrite length_w64). apply le_to_le. lia.
  - rewrite D8, app_assoc. by rewrite take_app_length' by (autorewrite with sizes; done).
  - unfold read_bytes. rewrite (proj2 (Z.leb_le 0 (size (cm_data m)))), (proj2 (Z.leb_le _ (size bs))) by lia. cbn [andb Z.leb].
    change (Z.to_nat 16) with 16%nat. rewrite D16. by rewrite take_app_length' by (unfold size; lia).
  - unfold bs. rewrite drop_app_length'; [done|]. unfold size in Hse at 1. unfold align8 in *.
    replace (16 + size (cm_data m) + 7) with (size (cm_data m) + 7 + 2 * 8) by lia. rewrite Z.div_add by lia. lia.
Qed.

Lemma fitting_full capacity m ms : 0 <= capacity -> fitting capacity capacity (m :: ms) = [].
Proof. intros Hc. cbn [fitting]. pose proof (size_nonneg (cm_data m)). by rewrite (proj2 (Z.ltb_lt _ _)) by lia. Qed.

(** A message written at [a] in front of the bytes that hold [rest]. *)
Lemma guest_front mem a m n tail rest :
  cmsg_ok m -> 12 + size (cm_data m) < 2 ^ 31 ->
  holds mem a (w32 (12 + size (cm_data m)) ++ w32 (cm_level m) ++ w32 (cm_type m) ++ cm_data m) ->
  12 + size (cm_data m) <= Z.of_nat n ->
  tail = Z.to_nat ((12 + size (cm_data m) + 3) / 4 * 4) ->
  guest_messages (drop tail (bytes_at mem a n)) = rest ->
  guest_messages (bytes_at mem a n) = m :: rest.
Proof.
  intros (Hlv & Hty & Hd) Hs Hh Hn Ht Hr. rewrite <- Hr. set (bs := w32 _ ++ _) in Hh.
  assert (Z.of_nat (length bs) = 12 + size (cm_data m)) as Hl by (unfold bs, size; sizes).
  eapply (guest_messages_cons m _ (bytes_at mem (a + Z.of_nat (length bs)) (n - length bs)) tail); [done|done|lia| |done].
  replace n with (length bs + (n - length bs))%nat at 1 by lia. rewrite bytes_at_app, (bytes_at_holds mem a bs); [|unfold bs; repeat apply Forall_app_2; try apply to_le_ok; done|done].
  unfold bs. by rewrite <- !app_assoc.
Qed.

Lemma to_guest_loop_run ms fuel k dst cap offset flags :
  mem_wf (km k) -> 0 <= dst < 2 ^ 32 -> 0 <= cap < 2 ^ 32 -> accessible (km k) dst cap kPageWrite = true -> Forall cmsg_ok ms ->
  0 <= offset <= cap -> offset + size (flat_map encode_host ms) < 2 ^ 31 -> (length ms < fuel)%nat ->
  exists final k', 
    to_guest_loop fuel (flat_map encode_host ms) dst cap offset flags k =
      Ret ((final, if decide (fitting cap offset ms = ms) then flags else Z.lor flags MSG_CTRUNC), k') /\
    klog k' = klog k /\ changes_within (km k) (km k') (dst + offset) (dst + final) /\ offset <= final <= cap /\
    guest_messages (bytes_at (km k') (dst + offset) (Z.to_nat (final - offset))) = fitting cap offset ms.
Proof.
  intros Hm Hd Hc Hacc Hms. revert fuel k offset Hm Hacc. induction Hms as [|m ms Hok Hms IH]; intros [|fuel] k offset Hm Hacc Ho Hsz Hf; [cbn in Hf; lia| |cbn in Hf; lia|].
  { exists offset, k. cbn [to_guest_loop flat_map fitting]. change (size [] <? 16) with true. rewrite decide_True by done.
    replace (Z.to_nat (offset - offset)) with 0%nat by lia. split_and!; try done; lia. }
  cbn [flat_map] in *. assert (size (encode_host m ++ flat_map encode_host ms) = size (encode_host m) + size (flat_map encode_host ms)) as Hsa by (unfold size; rewrite length_app; lia).
  rewrite Hsa, size_encode_host in Hsz. pose proof (align8_bounds (size (cm_data m))). pose proof (size_nonneg (cm_data m)). pose proof (size_nonneg (flat_map encode_host ms)).
  destruct (host_front m (flat_map encode_host ms) Hok ltac:(lia)) as (E16 & El & Ehd & Edata & Edrop).
  set (bs := encode_host m ++ flat_map encode_host ms) in *. cbn [to_guest_loop fitting]. rewrite E16, El. cbv zeta.
  replace (16 + size (cm_data m) - 16) with (size (cm_data m)) by lia. rewrite (u64_small (size _)), (u32_small (12 + _)) by lia. rewrite (u32_small (offset + _)) by lia.
  set (needed := 12 + size (cm_data m)) in *. assert (needed = 12 + size (cm_data m)) as Hneeded by done. destruct (Z.ltb_spec cap (offset + needed)) as [Hno|Hfit].
  { exists offset, k. rewrite decide_False by done. replace (Z.to_nat (offset - offset)) with 0%nat by lia. split_and!; try done; lia. }
  rewrite Ehd. destruct (poke_run k dst cap offset (w32 needed ++ w32 (cm_level m) ++ w32 (cm_type m))) as (k1 & E1 & L1 & C1 & W1); try done; [lia| |].
  { unfold size. autorewrite with sizes. lia. }
  rewrite (sysm_bind_run _ _ _ _ _ E1). unfold size in C1. autorewrite with sizes in C1. change (Z.of_nat (4 + (4 + 4))) with 12 in C1.
  unfold mbind at 1, sysm_bind at 1, buffer_bytes. rewrite Edata. cbn [fmap exec_fmap].
  replace (dst + offset + 12) with (dst + (offset + 12)) by lia.
  destruct (poke_run k1 dst cap (offset + 12) (cm_data m)) as (k2 & E2 & L2 & C2 & W2); try done; [by eapply changes_within_wf| |lia|lia|].
  { rewrite (accessible_same (km k)) by apply C1. done. }
  rewrite (sysm_bind_run _ _ _ _ _ E2), Edrop, align4_spec by lia. pose proof (align4_bounds needed) as Hal. set (al := (needed + 3) / 4 * 4) in *.
  rewrite (u32_small (offset + al)) by lia. set (offset' := Z.min cap (offset + al)).
  assert (offset + needed <= offset' <= cap /\ offset' = Z.min cap (offset + al)) as [Hoff Hoff'] by lia.
  assert (mem_wf (km k2)) as Hm2 by (eapply changes_within_wf; [exact C2|by eapply changes_within_wf]).
  destruct (IH fuel k2 offset') as (final & k' & E' & L' & C' & Hfin & Hmsg); [done| |lia|lia|cbn in Hf; lia|].
  { rewrite (accessible_same (km k)); [done|]. destruct C1 as (_ & P1 & _), C2 as (_ & P2 & _). congruence. }
  exists final, k'. rewrite E'. split_and!; [|congruence| |lia|lia|].
  - do 3 f_equal. destruct (decide (fitting cap offset' ms = ms)) as [He|He].
    + by rewrite decide_True by (by rewrite He).
    + rewrite decide_False; [done|]. intros [=]. done.
  - assert (changes_within (km k1) (km k') (dst + offset) (dst + final)) by (eapply changes_within_trans; [exact C2|exact C'|lia..]).
    eapply changes_within_trans; [exact C1|done|lia..].
  - assert (holds (km k') (dst + offset) (w32 needed ++ w32 (cm_level m) ++ w32 (cm_type m) ++ cm_data m)) as Hh.
    { eapply holds_stable; [|exact C'|]; [|right; unfold size; autorewrite with sizes; unfold size in *; lia].
      rewrite !app_assoc, <- (app_assoc (w32 needed)). apply holds_app.
      - eapply holds_stable; [exact W1|exact C2|]. right. unfold size. autorewrite with sizes. lia.
      - replace (dst + offset + size (w32 needed ++ w32 (cm_level m) ++ w32 (cm_type m))) with (dst + (offset + 12)) by (unfold size; sizes). done. }
    eapply guest_front; [done|lia|exact Hh|lia|reflexivity|]. fold needed al.
    destruct (decide (offset + al <= cap)) as [Hle|Hgt].
    + rewrite <- Hmsg. f_equal. replace (Z.to_nat (final - offset)) with (Z.to_nat al + Z.to_nat (final - offset'))%nat by lia.
      rewrite bytes_at_app, drop_app_length' by (by rewrite length_bytes_at). f_equal. lia.
    + rewrite drop_ge by (rewrite length_bytes_at; lia). replace offset' with cap by lia. destruct ms; [done|]. by rewrite fitting_full by lia.
Qed.

(** ** Facts about the messages of a buffer *)

Lemma messages_in_ok f bs : bytes_ok bs -> Forall cmsg_ok (messages_in f bs).
Proof.
  revert bs. induction f as [|f IH]; intros bs Hb; cbn [messages_in]; [done|]. destruct (_ || _ || _); [done|].
  apply Forall_cons. split; [|by apply IH, Forall_drop].
  split_and!; [apply (take4_range bs 4 Hb)..|apply (take4_range bs 8 Hb)|apply (take4_range bs 8 Hb)|]. by apply Forall_take, Forall_drop.
Qed.

Lemma messages_in_step (P : nat -> list Z -> list cmsg -> Prop) :
  (forall f bs, P f bs []) ->
  (forall f bs ms, let l := le (take 4 bs) in
     12 <= l <= size bs -> P f (drop (Z.to_nat ((l + 3) / 4 * 4)) bs) ms ->
     P (S f) bs ({| cm_level := le (take 4 (drop 4 bs)); cm_type := le (take 4 (drop 8 bs)); cm_data := take (Z.to_nat (l - 12)) (drop 12 bs) |} :: ms)) ->
  forall f bs, P f bs (messages_in f bs).
Proof.
  intros H0 HS. induction f as [|f IH]; intros bs; cbn [messages_in]; [apply H0|]. destruct (_ || _ || _) eqn:E; [apply H0|].
  apply orb_false_iff in E as [[E1 E2]%orb_false_iff E3]. apply Z.ltb_ge in E1, E2, E3. apply HS; [lia|apply IH].
Qed.

Lemma data_size bs l : 12 <= l <= size bs -> size (take (Z.to_nat (l - 12)) (drop 12 bs)) = l - 12.
Proof. unfold size. rewrite length_take, length_drop. lia. Qed.

(** A buffer as long as the one they came from takes every message. *)
Lemma fitting_all f bs cap offset : offset + size bs <= cap -> fitting cap offset (messages_in f bs) = messages_in f bs.
Proof.
  revert offset. eapply (messages_in_step (fun f bs ms => forall offset, offset + size bs <= cap -> fitting cap offset ms = ms)); [done|].
  clear f bs. intros f bs ms l Hl IH offset Ho. cbn [fitting cm_data]. rewrite data_size by done. replace (12 + (l - 12)) with l by lia.
  rewrite (proj2 (Z.ltb_ge _ _)) by lia. f_equal. apply IH. pose proof (align4_bounds l). unfold size in *. rewrite length_drop. lia.
Qed.

(** The host's messages take at most twice the room. *)
Lemma host_size f bs : size (flat_map encode_host (messages_in f bs)) <= 2 * size bs.
Proof.
  apply (messages_in_step (fun f bs ms => size (flat_map encode_host ms) <= 2 * size bs)).
  - clear. intros _ bs. cbn. unfold size. cbn. lia.
  - clear. intros f bs ms l Hl IH. cbn [flat_map]. unfold size at 1. rewrite length_app, Nat2Z.inj_add. fold (size (flat_map encode_host ms)).
    match goal with |- Z.of_nat (length (encode_host ?m)) + _ <= _ => pose proof (size_encode_host m) as E; cbn [cm_data] in E end.
    rewrite data_size in E by done. unfold size in E at 1. rewrite E. pose proof (align8_bounds (l - 12)). pose proof (align4_bounds l).
    unfold size in *. rewrite length_drop in IH. lia.
Qed.

(** ** Safe receiving *)

(** Every header of the kernel's buffer is whole and its message lies inside. *)
Fixpoint headers_ok (fuel : nat) (bs : list Z) : bool :=
  match fuel with
  | O => true
  | S fuel => (size bs <? 16) || (16 <=? le (take 8 bs)) && (le (take 8 bs) <=? size bs) && headers_ok fuel (drop (Z.to_nat (align8 (le (take 8 bs)))) bs)
  end.

(** The kernel returns such control messages, less than 2 GiB of them. *)
Definition recv_ok (host : list hostcall -> hostcall -> answer) : Prop :=
  forall log c, h_name c = "recvmsg" -> let bs := recv_control (host log c) in size bs < 2 ^ 31 /\ headers_ok (S (length bs / 16)) bs = true.

Lemma safe_to_guest_loop m0 fuel bs dst cap offset flags :
  0 <= dst < 2 ^ 32 -> 0 <= cap < 2 ^ 32 -> accessible m0 dst cap kPageWrite = true -> 0 <= offset <= cap ->
  offset + size bs < 2 ^ 31 -> headers_ok fuel bs = true -> safe m0 (to_guest_loop fuel bs dst cap offset flags).
Proof.
  intros Hd Hc Hacc. revert bs offset flags. induction fuel as [|fuel IH]; intros bs offset flags Ho Hs Hh; cbn [to_guest_loop headers_ok] in *; [by apply gives_ret|].
  destruct (Z.ltb_spec (size bs) 16) as [|H16]; [by apply gives_ret|]. cbn [orb] in Hh. set (l := le (take 8 bs)) in *.
  apply andb_true_iff in Hh as [[H1%Z.leb_le H2%Z.leb_le]%andb_true_iff Hh]. rewrite (u64_small (l - 16)), (u32_small (12 + _)), (u32_small (offset + _)) by lia.
  destruct (Z.ltb_spec cap (offset + (12 + (l - 16)))) as [|Hfit]; [by apply gives_ret|].
  assert (length (take 8 (drop 8 bs)) = 8%nat) as H8 by (rewrite length_take, length_drop; unfold size in *; lia).
  eapply gives_bind. { apply (poke_ok m0 _ _ dst cap kPageWrite); [done|lia|done|done|lia|]. unfold size. rewrite length_app, length_w32, H8. lia. }
  intros _ _. eapply (gives_bind m0 _ (fun d => size d = l - 16)).
  { destruct (read_bytes_in bs 16 (l - 16)) as (d & E & Hsd & _); [lia..|]. intros k _ _. unfold buffer_bytes. rewrite E. eexists _, k. split; [done|]. split; [apply step_ok_refl|done]. }
  intros d Hsd. eapply gives_bind. { apply (poke_ok m0 _ _ dst cap kPageWrite); [done|lia|done|done|lia|lia]. }
  intros _ _. rewrite align4_spec by lia. pose proof (align4_bounds (12 + (l - 16))). pose proof (align8_bounds l).
  rewrite u32_small by lia. apply IH; [lia| |done]. unfold size in *. rewrite length_drop. lia.
Qed.

Lemma gives_build_host_message m0 gm receiving :
  Forall (fun w => 0 <= w < 2 ^ 32) gm ->
  gives m0 (build_host_message gm receiving) (fun r => match r with inr l => Forall (arg_ok m0) l | inl _ => True end).
Proof.
  intros Hgm. unfold build_host_message. apply gives_if; intros _; [by apply gives_ret|].
  eapply gives_bind; [apply gives_iov_loop; [done|by apply field_ok]|]. intros [iov|] Hiov; [|by apply gives_ret].
  apply gives_if; intros _. { apply gives_ret. apply Forall_app. split; [done|]. repeat constructor. }
  eapply gives_bind; [apply gives_ptr|]. intros name Hname. apply gives_if; intros _; [by apply gives_ret|]. apply gives_ret.
  pose proof (field_ok gm 0 Hgm). pose proof (field_ok gm 1 Hgm). apply Forall_app. split; [done|].
  repeat (apply Forall_cons; split); try exact I; [|apply Forall_nil_2]. eapply arg_ok_garg; [| |exact Hname]; unfold msg_name, msg_namelen; lia.
Qed.

Lemma safe_recvmsg host m0 c : kernel_ok host -> recv_ok host -> ctx_ok c -> safe m0 (sys_recvmsg host c).
Proof.
  intros Hk Hrecv Hc. unfold ctx_ok in Hc. unfold sys_recvmsg. eapply gives_bind; [apply gives_read_guest; lia|]. intros gm Hgm.
  eapply gives_bind; [apply gives_ptr|]. intros w Hw. destruct gm as [gm|]; [|by apply gives_ret]. destruct w as [w|]; [|by apply gives_ret].
  destruct Hgm as [_ Hgm]. pose proof (field_ok gm 4 Hgm). pose proof (field_ok gm 5 Hgm).
  eapply gives_bind; [by apply gives_build_host_message|]. intros [err|msg] Hmsg; [by apply gives_ret|].
  eapply gives_bind; [apply gives_opt_ptr|]. intros ctl Hctl. apply gives_if; intros _; [by apply gives_ret|]. cbv zeta.
  eapply gives_bind. { apply gives_call; [done|]. repeat apply Forall_app_2; [by repeat constructor|done|by case_match; repeat constructor|by repeat constructor]. }
  intros r [log ->]. apply gives_if; intros _; [by apply gives_ret|]. eapply (gives_bind m0 _ (fun _ => True)).
  - destruct ctl as [dst|]; [|by apply gives_ret]. destruct Hctl as [-> Hacc].
    match goal with |- context [recv_control (host log ?c')] => destruct (Hrecv log c' eq_refl) as [Hsz Hh] end.
    apply safe_to_guest_loop; unfold msg_control, msg_controllen in *; [lia|lia|done|lia|lia|done].
  - intros cf _. eapply gives_bind; [apply safe_write; [lia|sizes]|]. intros _ _. by apply gives_ret.
Qed.

Lemma pure_iov_loop n i base need acc : pure_prog (iov_loop n i base need acc).
Proof.
  revert i acc. induction n as [|n IH]; intros i acc; cbn [iov_loop]; [apply pure_ret|]. apply pure_bind; [apply pure_read_guest|].
  intros [v|]; [|apply pure_ret]. apply pure_bind; [apply pure_get_ptr|]. intros p. case_match; [apply pure_ret|apply IH].
Qed.

Lemma pure_build_host_message gm receiving : pure_prog (build_host_message gm receiving).
Proof.
  unfold build_host_message. case_match; [apply pure_ret|]. apply pure_bind; [apply pure_iov_loop|]. intros [iov|]; [|apply pure_ret].
  case_match; [apply pure_ret|]. apply pure_bind; [apply pure_get_ptr|]. intros p. case_match; apply pure_ret.
Qed.

(** ** Safe sending *)

Lemma read_guest_run n addr k :
  mem_wf (km k) -> 0 <= addr < 2 ^ 32 -> Z.of_nat n < 2 ^ 20 ->
  read_guest n addr k = Ret (if accessible (km k) addr (4 * Z.of_nat n) kPageRead then Some (to_words n (bytes_at (km k) addr (4 * n))) else None, k).
Proof.
  intros Hm Ha Hn. unfold read_guest, mbind at 1, sysm_bind at 1, get_ptr, host_ptr. destruct (accessible _ _ _ _) eqn:Hacc; [|done].
  rewrite (sysm_bind_run _ _ k (bytes_at (km k) addr (4 * n)) k); [done|]. unfold peek. rewrite (load_bytes_ok _ _ _ kPageRead); [done|done|done|lia| |done].
  by replace (Z.of_nat (4 * n)) with (4 * Z.of_nat n) by lia.
Qed.

(** No control message that the guest hands to sendmsg passes the check by wrapping. *)
Definition send_fits (m : GuestMemory) (c : Ctx) : bool :=
  let gm := to_words 7 (bytes_at m (a1 c) 28) in
  (msg_controllen gm =? 0) || control_fits (bytes_at m (msg_control gm) (Z.to_nat (msg_controllen gm))).

(** sendmsg goes through, or faults in the copy of a message that [send_fits] rules out. *)
Lemma sendmsg_runs host m0 c k :
  kernel_ok host -> ctx_ok c -> mem_wf (km k) -> pages_ (km k) = pages_ m0 ->
  (exists r k', sys_sendmsg host c k = Ret (r, k') /\ step_ok m0 k k') \/ (send_fits (km k) c = false /\ sys_sendmsg host c k = Undefined).
Proof.
  intros Hk Hc Hm Hp. assert (forall r : Z, exists r' k', (mret r : sysm Z) k = Ret (r', k') /\ step_ok m0 k k') as Hdone.
  { intros r. eexists _, k. split; [done|]. apply step_ok_refl. }
  unfold sys_sendmsg. rewrite (sysm_bind_run _ _ _ _ _ (read_guest_run 7 (a1 c) k Hm ltac:(unfold ctx_ok in Hc; lia) ltac:(lia))).
  destruct (accessible _ _ _ _); [|left; apply Hdone]. unfold send_fits. change (4 * 7)%nat with 28%nat. set (gm := to_words 7 _) in *.
  assert (Forall (fun w => 0 <= w < 2 ^ 32) gm) as Hgm by (apply to_words_ok; [apply bytes_at_ok|by rewrite length_bytes_at]).
  destruct (gives_build_host_message m0 gm false Hgm k Hm Hp) as (msg & k1 & E1 & _ & Hmsg).
  rewrite (sysm_bind_run _ _ _ _ _ E1). apply pure_build_host_message in E1 as ->. destruct msg as [err|msg]; [left; apply Hdone|].
  pose proof (field_ok gm 4 Hgm). pose proof (field_ok gm 5 Hgm).
  assert (forall control, arg_ok m0 control -> exists r k', ask host "sendmsg" ([HInt (s32 (a0 c))] ++ msg ++ [control; HInt (s32 (a2 c))]) k = Ret (r, k') /\ step_ok m0 k k') as Hask.
  { intros control Hctl. assert (Forall (arg_ok m0) ([HInt (s32 (a0 c))] ++ msg ++ [control; HInt (s32 (a2 c))])) as Ha
      by (repeat apply Forall_app_2; [by repeat constructor|done|by repeat constructor]).
    destruct (safe_ask host Hk m0 "sendmsg" _ Ha k Hm Hp) as (r & k' & E & Hs & _). by exists r, k'. }
  destruct (msg_controllen gm =? 0) eqn:Ez.
  { rewrite (sysm_bind_run _ _ k (Some HNull) k) by done. left. by apply Hask. }
  cbn [orb]. destruct (control_to_host_any (msg_control gm) (msg_controllen gm) k) as [E|[o E]].
  - right. split.
    + apply not_true_is_false. intros Hfit. rewrite control_to_host_run in E; [done|done|unfold msg_control; lia|unfold msg_controllen; lia|done].
    + unfold mbind, sysm_bind. by rewrite E.
  - left. rewrite (sysm_bind_run _ _ k (HData <$> o) k) by (by rewrite (sysm_bind_run _ _ _ _ _ E)). destruct o; [by apply Hask|apply Hdone].
Qed.

(** ** The table *)

Definition message_calls (host : list hostcall -> hostcall -> answer) : syscall_table := [(NR_recvmsg, sys_recvmsg host)].

Lemma safe_tables host translate_path exe_path proc thread_count initial_sp m0 :
  kernel_ok host -> recv_ok host ->
  safe_table m0 (host_calls_table host translate_path exe_path proc thread_count initial_sp ++ message_calls host).
Proof.
  intros Hk Hr. unfold safe_table, host_calls_table. rewrite !Forall_app. split_and!;
    [by apply safe_io_calls|by apply safe_path_calls|by apply safe_id_calls|by apply safe_clock_calls|by apply safe_sched_calls|by apply safe_file_calls|by apply safe_wait_calls|
     by apply safe_socket_calls|by apply safe_resource_calls|].
  apply Forall_singleton. intros c Hc. by apply safe_recvmsg.
Qed.

Lemma handler_of_elem (t : syscall_table) nr h : handler_of t nr = Some h -> (nr, h) ∈ t.
Proof.
  induction t as [|[n g] t IH]; cbn [handler_of]; [done|]. destruct (Z.eqb_spec nr n) as [->|]; [intros [= ->]; by left|]. intros H. right. by apply IH.
Qed.

(** ** Claims *)

(** C4: Every system call that goes to the host returns, and is memory safe: whatever the
    guest passes and whatever the kernel answers, each piece of guest memory handed to
    the kernel was checked (mapped, with the access the kernel makes), page table and
    protection stay, and only bytes of pages the guest may write change.  sendmsg is the
    one exception: either it is safe in the same sense, or a control message claims a
    length that passes the code's check by wrapping its 32-bit sum ([send_fits] is false)
    and the bridge faults copying it.  The kernel is assumed to store only into buffers it
    was given to write, and to return whole control messages. *)
Theorem syscalls_safe host translate_path exe_path proc thread_count initial_sp c k :
  kernel_ok host -> recv_ok host -> ctx_ok c -> mem_wf (km k) ->
  (forall nr h, handler_of (host_calls_table host translate_path exe_path proc thread_count initial_sp ++ message_calls host) nr = Some h ->
     exists r k', h c k = Ret (r, k') /\ only_writable (km k) (km k') /\ exists cs, klog k' = klog k ++ cs /\ Forall (call_ok (km k)) cs) /\
  ((send_fits (km k) c = false /\ sys_sendmsg host c k = Undefined) \/
     exists r k', sys_sendmsg host c k = Ret (r, k') /\ only_writable (km k) (km k') /\ exists cs, klog k' = klog k ++ cs /\ Forall (call_ok (km k)) cs).
Proof.
  intros Hk Hr Hc Hm. split.
  - intros nr h Hh%handler_of_elem. pose proof (safe_tables host translate_path exe_path proc thread_count initial_sp (km k) Hk Hr) as Ht.
    unfold safe_table in Ht. rewrite Forall_forall in Ht. destruct (Ht _ Hh c Hc k Hm eq_refl) as (r & k' & E & Hs & _). by exists r, k'.
  - destruct (sendmsg_runs host (km k) c k Hk Hc Hm eq_refl) as [(r & k' & E & Hs)|?]; [right; by exists r, k'|by left].
Qed.

(** C20: Control messages survive the two translations.  The messages of a guest buffer
    (of less than 1 GiB, with no length that wraps) go to the host's form and from there
    into another guest buffer: read back there, they are the messages that fit, all of
    them when the buffer is as long as the first; [MSG_CTRUNC] is set exactly when some
    did not fit, and no byte outside the reported length changes. *)
Theorem control_roundtrip k addr len dst capacity flags :
  mem_wf (km k) -> 0 <= addr < 2 ^ 32 -> 0 <= len < 2 ^ 30 -> accessible (km k) addr len kPageRead = true ->
  0 <= dst < 2 ^ 32 -> 0 <= capacity < 2 ^ 32 -> accessible (km k) dst capacity kPageWrite = true ->
  control_fits (bytes_at (km k) addr (Z.to_nat len)) = true ->
  let ms := guest_messages (bytes_at (km k) addr (Z.to_nat len)) in
  exists out final k',
    control_to_host addr len k = Ret (Some out, k) /\
    control_to_guest out dst capacity flags k = Ret ((final, if decide (fitting capacity 0 ms = ms) then flags else Z.lor flags MSG_CTRUNC), k') /\
    guest_messages (bytes_at (km k') dst (Z.to_nat final)) = fitting capacity 0 ms /\
    (len <= capacity -> fitting capacity 0 ms = ms) /\
    0 <= final <= capacity /\ changes_within (km k) (km k') dst (dst + final).
Proof.
  intros Hm Ha Hl Hacc Hd Hc Hdacc Hfit ms. set (bs := bytes_at (km k) addr (Z.to_nat len)) in *.
  assert (size bs = len) as Hbs by (unfold size, bs; rewrite length_bytes_at; lia).
  pose proof (host_size (S (length bs / 12)) bs) as Hhs. fold (guest_messages bs) in Hhs. fold ms in Hhs.
  destruct (to_guest_loop_run ms (S (length (flat_map encode_host ms) / 16)) k dst capacity 0 flags) as (final & k' & E & _ & Hch & Hfin & Hmsg);
    [done|done|done|done|apply messages_in_ok, bytes_at_ok|lia|lia| |].
  { assert (16 * length ms <= length (flat_map encode_host ms))%nat.
    { clear. induction ms as [|m ms IH]; [done|]. cbn [flat_map length]. rewrite length_app. pose proof (size_encode_host m) as E. unfold size in E.
      pose proof (align8_bounds (Z.of_nat (length (cm_data m)))). lia. }
    apply Nat.lt_succ_r, Nat.div_le_lower_bound; lia. }
  exists (flat_map encode_host ms), final, k'. rewrite !Z.add_0_r, Z.sub_0_r in *. split_and!; [|done|done| |lia|lia|done..].
  - rewrite control_to_host_run; [|done|done|lia|done]. by rewrite Hacc.
  - intros Hle. apply fitting_all. lia.
Qed.

Lemma load_undefined m a n x :
  a <= x < a + Z.of_nat n -> has_bits (hprot m (x / 4096)) PROT_READ = false -> load_bytes m a n = Undefined.
Proof.
  intros Hx Hp. unfold load_bytes. destruct (forallb _ _) eqn:E; [|done]. rewrite forallb_forall in E.
  specialize (E (Z.to_nat (x - a))). replace (a + Z.of_nat (Z.to_nat (x - a))) with x in E by lia. change kPageSize with 4096 in E.
  rewrite E in Hp; [done|]. apply in_seq. lia.
Qed.

(** One turn of the loop at a header that passes the check. *)
Lemma to_host_loop_turn fuel k src len offset out l :
  mem_wf (km k) -> 0 <= src < 2 ^ 32 -> 0 <= len < 2 ^ 32 -> accessible (km k) src len kPageRead = true -> 0 <= offset -> offset + 12 <= len ->
  le (bytes_at (km k) (src + offset) 4) = l -> 12 <= l < 2 ^ 32 -> u32 (offset + l) <= len ->
  exists level type, to_host_loop (S fuel) src len offset out k =
    (data ← peek (src + offset + 12) (Z.to_nat (l - 12)); to_host_loop fuel src len (u32 (offset + align4 l)) (out ++ host_msg level type data)) k.
Proof.
  intros Hm Hs Hl Hacc Ho Hin El Hlr Hle. cbn [to_host_loop]. rewrite (proj2 (Z.ltb_ge len (offset + 12))) by lia.
  rewrite (sysm_bind_run _ _ _ _ _ (peek_sub k src len offset 12 Hm Hs Hl Hacc Ho ltac:(lia))).
  assert (take 4 (take 12 (drop (Z.to_nat offset) (bytes_at (km k) src (Z.to_nat len)))) = bytes_at (km k) (src + offset) 4) as ->.
  { rewrite take_take. change (4 `min` 12)%nat with 4%nat. rewrite <- (bytes_at_sub (km k) src (Z.to_nat len) (Z.to_nat offset) 4) by lia. by rewrite Z2Nat.id. }
  rewrite El, (proj2 (Z.ltb_ge l 12)), (proj2 (Z.ltb_ge len _)) by lia. cbn [orb]. rewrite (u32_small (l - 12)) by lia. by eexists _, _.
Qed.

(** The check of a control message's length is done in 32 bits.  After a first
    message, a second one may claim a length [l] with [12 + l] at or above [2^32]: it
    passes the check, and the copy of its data runs over the end of the buffer, whatever
    the buffer's length; as soon as one byte of what it would copy is not readable, the
    bridge faults. *)
Theorem control_wrap_leaves_buffer k addr len l x :
  mem_wf (km k) -> 0 <= addr < 2 ^ 32 -> 24 <= len < 2 ^ 32 -> accessible (km k) addr len kPageRead = true ->
  le (bytes_at (km k) addr 4) = 12 -> le (bytes_at (km k) (addr + 12) 4) = l -> 2 ^ 32 <= 12 + l < 2 ^ 32 + 12 ->
  addr + 24 <= x < addr + 12 + l -> has_bits (hprot (km k) (x / 4096)) PROT_READ = false ->
  control_to_host addr len k = Undefined.
Proof.
  intros Hm Ha Hlen Hacc E1 E2 Hl Hx Hp. unfold control_to_host. unfold mbind at 1, sysm_bind at 1, get_ptr, host_ptr. rewrite Hacc.
  assert (2 <= len / 12) as H2 by (apply Z.div_le_lower_bound; lia). destruct (Z.to_nat (len / 12)) as [|[|n]] eqn:En; [lia|lia|].
  assert (u32 (12 + l) = 12 + l - 2 ^ 32) as Ew. { unfold u32. symmetry. apply (Z.mod_unique_pos _ _ 1); lia. }
  destruct (to_host_loop_turn (S (S n)) k addr len 0 [] 12) as (lv & ty & T1); [done|lia|lia|done|lia|lia|by rewrite Z.add_0_r|lia|by rewrite u32_small; lia|].
  destruct (to_host_loop_turn (S n) k addr len 12 ([] ++ host_msg lv ty []) l) as (lv2 & ty2 & T2); [done|lia|lia|done|lia|lia|done|lia|lia|].
  unfold mbind at 1, sysm_bind at 1. rewrite T1. rewrite (sysm_bind_run _ _ k [] k) by done. rewrite align4_spec by lia.
  change (u32 (0 + (12 + 3) / 4 * 4)) with 12. rewrite T2. unfold mbind, sysm_bind, peek.
  rewrite (load_undefined (km k) _ _ x); [done| |done]. lia.
Qed.

(** Two control messages, the second one byte long and without padding. *)
Definition sample_control : K :=
  {| km := {| base_ := true; pages_ := pages_ sample_memory; hprot := hprot sample_memory; host_calls := 0%nat;
              bytes_ := fun x => nth (Z.to_nat (x - 0x10000)) (w32 16 ++ w32 1 ++ w32 1 ++ w32 5 ++ w32 13 ++ w32 1 ++ w32 2 ++ [7]) 0 |};
     klog := [] |}.

Lemma control_roundtrip_witness :
  exists out final k',
    control_to_host 0x10000 29 sample_control = Ret (Some out, sample_control) /\
    control_to_guest out 0x11000 32 0 sample_control = Ret ((final, 0), k') /\
    guest_messages (bytes_at (km k') 0x11000 (Z.to_nat final)) = guest_messages (bytes_at (km sample_control) 0x10000 29).
Proof.
  destruct (control_roundtrip sample_control 0x10000 29 0x11000 32 0) as (out & final & k' & E1 & E2 & E3 & E4 & _);
    [exact sample_memory_wf|lia|lia|reflexivity|lia|lia|reflexivity|vm_compute; reflexivity|].
  specialize (E4 ltac:(lia)). rewrite decide_True in E2 by exact E4. rewrite E4 in E3. exists out, final, k'. exact (conj E1 (conj E2 E3)).
Defined.

(** A second message whose claimed length wraps. *)
Definition sample_wrap : K :=
  {| km := {| base_ := true; pages_ := pages_ sample_memory; hprot := hprot sample_memory; host_calls := 0%nat;
              bytes_ := fun x => nth (Z.to_nat (x - 0x10000)) (w32 12 ++ w32 1 ++ w32 1 ++ w32 0xFFFFFFF4) 0 |};
     klog := [] |}.

Lemma control_wrap_leaves_buffer_witness : control_to_host 0x10000 40 sample_wrap = Undefined.
Proof.
  apply (control_wrap_leaves_buffer sample_wrap 0x10000 40 0xFFFFFFF4 0x12000); [exact sample_memory_wf|lia|lia|reflexivity..| | |reflexivity]; lia.
Defined.

(** A kernel that stores one byte into the first buffer it may write and answers 1. *)
Definition sample_host (log : list hostcall) (c : hostcall) : answer :=
  {| ret := 1; errno := 0; outs := [];
     guest_writes := match list_find (fun a => match a with HGuest _ len need => (0 <? len) && has_bits need kPageWrite | _ => false end = true) (h_args c) with
                     | Some (_, HGuest addr _ _) => [(addr, [65])]
                     | _ => []
                     end |}.

Lemma sample_host_ok : kernel_ok sample_host /\ recv_ok sample_host.
Proof.
  split; [|by intros log c _; vm_compute].
  intros log c a bs. unfold sample_host. cbn [guest_writes]. destruct (list_find _ _) as [[i [| |addr len need| | |]]|] eqn:E; cbn; try by intros ?%not_elem_of_nil.
  intros [= -> ->]%list_elem_of_singleton _. apply list_find_Some in E as (Hi & [Hl Hn]%andb_true_iff & _). apply Z.ltb_lt in Hl.
  exists addr, len, need. split; [by eapply list_elem_of_lookup_2|]. split; [done|]. unfold size. cbn. lia.
Qed.

Definition sample_ctx : Ctx := {| a0 := 3; a1 := 0x10000; a2 := 16; a3 := 0; a4 := 0; a5 := 0 |}.

Lemma syscalls_safe_witness :
  exists h r k', handler_of (host_calls_table sample_host (fun _ p => p) [] Process_init 1 0 ++ message_calls sample_host) NR_read = Some h /\
    h sample_ctx sample_text = Ret (r, k') /\ only_writable (km sample_text) (km k').
Proof.
  destruct sample_host_ok as [Hk Hr].
  destruct (syscalls_safe sample_host (fun _ p => p) [] Process_init 1 0 sample_ctx sample_text Hk Hr) as [H _]; [unfold ctx_ok; cbn; lia|exact sample_text_wf|].
  eexists. destruct (H NR_read _ eq_refl) as (r & k' & E & How & _). exists r, k'. split; [reflexivity|]. split; [exact E|exact How].
Defined.
