(* ===== verification/Paths.v ===== *)
(** * Guest paths

    [Process::translate_path] and [Process::guest_executable_allowed] of
    [core/src/process.cpp], and the library roots that [Process::run] takes from the
    environment: which host file a path of the guest names, and which files may be mapped
    executable.  Paths are lists of bytes.  What the host's file system answers is the
    record [FileSystem]; [std::filesystem::path] is modelled as far as the code uses it
    (its elements and [operator/=]). *)

From stdpp Require Import numbers list strings.
From S2P Require Import Prelude Bytes Kernel Syscalls.
Local Open Scope Z_scope.

Definition slash : Z := 47.

(** [starts_with] and [ends_with]. *)
Definition starts_with (path prefix : list Z) : bool := bool_decide (take (length prefix) path = prefix).
Definition ends_with (path suffix : list Z) : bool := (length suffix <=? length path)%nat && bool_decide (drop (length path - length suffix) path = suffix).

(** The text before the first [sep], and what follows it when there is one. *)
Fixpoint break (sep : Z) (s : list Z) : list Z * option (list Z) :=
  match s with
  | [] => ([], None)
  | c :: s => if c =? sep then ([], Some s) else let '(part, rest) := break sep s in (c :: part, rest)
  end.

(** ** Answers of the file system *)

Record FileSystem := {
  weakly_canonical : list Z -> option (list Z);
  canonical : list Z -> option (list Z);
  is_symlink : list Z -> bool;
  exists_ : list Z -> bool;                (** [access(.., F_OK) == 0] *)
  realpath : list Z -> option (list Z);
}.

(** ** [std::filesystem::path] *)

(** The elements between slashes; a slash at the end gives an empty last element. *)
Fixpoint filenames (fuel : nat) (s : list Z) : list (list Z) :=
  match fuel with
  | O => []
  | S fuel =>
      match break slash s with
      | (part, None) => [part]
      | (part, Some rest) => if bool_decide (part = []) then filenames fuel rest else part :: filenames fuel rest
      end
  end.

Definition path_elements (p : list Z) : list (list Z) :=
  match p with
  | [] => []
  | c :: rest => if c =? slash then [slash] :: (if forallb (fun b => b =? slash) rest then [] else filenames (S (length rest)) rest) else filenames (S (length p)) p
  end.

(** [operator/=]: an absolute element replaces, a separator goes after a filename. *)
Definition path_append (p part : list Z) : list Z :=
  if starts_with part [slash] then part
  else if bool_decide (p = []) || bool_decide (last p = Some slash) then p ++ part
  else p ++ [slash] ++ part.

(** ** Path translation *)

(** [kPathMappings] *)
Definition kPathMappings : list (list Z * list Z) := [
  (lit "/apex/com.android.runtime/lib/bionic/", lit "/system/lib/");
  (lit "/apex/com.android.runtime/bin/", lit "/system/bin/");
  (lit "/system/", lit "/system/");
  (lit "/vendor/", lit "/vendor/");
  (lit "/odm/", lit "/odm/");
  (lit "/product/", lit "/product/");
  (lit "/system_ext/", lit "/system_ext/");
  (lit "/apex/", lit "/apex/");
  (lit "/linkerconfig/", lit "/linkerconfig/")].

(** The loop over the components: whether one is empty (and not the last), ["."] or
    [".."]. *)
Fixpoint bad_component (fuel : nat) (rest : list Z) : bool :=
  match fuel with
  | O => false
  | S fuel =>
      if bool_decide (rest = []) then false
      else
        let '(part, tail) := break slash rest in
        if (bool_decide (part = []) && bool_decide (tail <> None)) || bool_decide (part = lit ".") || bool_decide (part = lit "..") then true
        else match tail with None => false | Some tail => bad_component fuel tail end
  end.

Section Translate.
Context (fs : FileSystem) (sysroot exe_path : list Z).

Definition denied : list Z := sysroot ++ lit "/.zb-denied".

Definition inside (root candidate : list Z) : bool := bool_decide (candidate = root) || starts_with candidate (root ++ lit "/").

(** The loop over the prefixes of [out]: false when a symbolic link leads outside. *)
Fixpoint links_inside (root prefix : list Z) (parts : list (list Z)) : bool :=
  match parts with
  | [] => true
  | part :: parts =>
      let prefix := path_append prefix part in
      if is_symlink fs prefix then
        match canonical fs prefix with
        | Some target => if inside root target then links_inside root prefix parts else false
        | None => false
        end
      else links_inside root prefix parts
  end.

Definition is_font (path : list Z) : bool :=
  (starts_with path (lit "/system/fonts/") && (ends_with path (lit ".ttf") || ends_with path (lit ".ttc") || ends_with path (lit ".otf")))
  || bool_decide (path = lit "/system/etc/fonts.xml").

(** The body for the first mapping that matches. *)
Definition translate_mapped (path guest_prefix sysroot_prefix : list Z) : list Z :=
  let rest := drop (length guest_prefix) path in
  if bad_component (S (length rest)) rest then denied
  else
    let out := sysroot ++ sysroot_prefix ++ rest in
    match weakly_canonical fs sysroot with
    | None => denied
    | Some root =>
        if negb (links_inside root [] (path_elements out)) then denied
        else
          match weakly_canonical fs out with
          | None => denied
          | Some resolved =>
              if negb (inside root resolved) then denied
              else if exists_ fs out then out
              else if is_font path then path
              else out
          end
    end.

Fixpoint find_mapping (path : list Z) (ms : list (list Z * list Z)) : option (list Z * list Z) :=
  match ms with
  | [] => None
  | (g, s) :: ms => if starts_with path g then Some (g, s) else find_mapping path ms
  end.

Definition translate_path (path : list Z) : list Z :=
  if bool_decide (path = kProcSelfExe) then exe_path
  else if bool_decide (sysroot = []) then path
  else
    match find_mapping path kPathMappings with
    | Some (g, s) => translate_mapped path g s
    | None => path
    end.
End Translate.

(** ** Executable files *)

Definition PATH_MAX : Z := 4096.

(** Whether the bytes of [Elf32_Ehdr] are those of an arm32 executable or library. *)
Definition guest_header (h : list Z) : bool :=
  bool_decide (take 4 h = [127; 69; 76; 70]) && (nth 4 h 0 =? 1) && (nth 5 h 0 =? 1) &&
  (le (take 2 (drop 18 h)) =? 40) && ((le (take 2 (drop 16 h)) =? 3) || (le (take 2 (drop 16 h)) =? 2)).

Section Executable.
Context (fs : FileSystem) (sysroot : list Z) (guest_library_roots : list (list Z)).
(** The first 52 bytes of a descriptor's file, when there are as many, and what its link
    in [/proc/self/fd] holds. *)
Context (read_header : Z -> option (list Z)) (fd_link : Z -> option (list Z)).

Definition within (path root_path : list Z) : bool :=
  match realpath fs root_path with
  | None => false
  | Some base => starts_with path base && (length base <? length path)%nat && bool_decide (path !! length base = Some slash)
  end.

Definition guest_executable_allowed (fd : Z) : bool :=
  if bool_decide (sysroot = []) then true
  else
    match read_header fd with
    | None => false
    | Some h =>
        if negb (guest_header h) then false
        else
          match fd_link fd with
          | None => false
          | Some target =>
              if (size target =? 0) || (PATH_MAX - 1 <=? size target) then false
              else
                match realpath fs target with
                | None => false
                | Some path => if within path sysroot then true else existsb (within path) guest_library_roots
                end
          end
    end.
End Executable.

(** The absolute parts of [LD_LIBRARY_PATH]. *)
Fixpoint colon_parts (fuel : nat) (value : list Z) : list (list Z) :=
  match fuel with
  | O => []
  | S fuel =>
      let '(part, rest) := break 58 value in
      (if starts_with part [slash] then [part] else []) ++ match rest with None => [] | Some rest => colon_parts fuel rest end
  end.

Definition library_roots (envp : list (list Z)) : list (list Z) :=
  flat_map (fun v => if starts_with v (lit "LD_LIBRARY_PATH=") then let value := drop 16 v in colon_parts (S (length value)) value else []) envp.

(** ** Reference definitions *)

(** The components of a text. *)
Fixpoint split_on (sep : Z) (s : list Z) : list (list Z) :=
  match s with
  | [] => [[]]
  | c :: s =>
      match split_on sep s with
      | [] => [[c]]
      | p :: ps => if c =? sep then [] :: p :: ps else (c :: p) :: ps
      end
  end.

Lemma split_on_cons sep s : exists p ps, split_on sep s = p :: ps.
Proof. induction s as [|c s (p & ps & IH)]; cbn; [by eexists _, _|]. rewrite IH. case_match; by eexists _, _. Qed.

Lemma break_split sep s :
  match break sep s with
  | (part, None) => split_on sep s = [part]
  | (part, Some rest) => split_on sep s = part :: split_on sep rest /\ (length rest < length s)%nat
  end.
Proof.
  induction s as [|c s IH]; cbn [break split_on]; [done|]. destruct (split_on_cons sep s) as (p & ps & E). rewrite E. destruct (c =? sep).
  - rewrite E. split; [done|cbn; lia].
  - destruct (break sep s) as [part [rest|]].
    + destruct IH as [IH Hl]. rewrite IH in E. injection E as <- <-. split; [done|cbn; lia].
    + rewrite IH in E. by injection E as <- <-.
Qed.

(** A component that may lead elsewhere. *)
Definition harmless (part : list Z) : Prop := part <> lit "." /\ part <> lit "..".

Lemma starts_with_spec path prefix : starts_with path prefix = true <-> exists rest, path = prefix ++ rest.
Proof.
  unfold starts_with. rewrite bool_decide_eq_true. split.
  - intros E. exists (drop (length prefix) path). rewrite <- E at 1. by rewrite take_drop.
  - intros [rest ->]. by rewrite take_app_length.
Qed.

(** No component is ["."] or [".."], and none but the last is empty. *)
Definition plain_components (rest : list Z) : Prop :=
  Forall harmless (split_on slash rest) /\ Forall (fun p => p <> []) (removelast (split_on slash rest)).

Lemma bad_component_spec fuel rest : (length rest < fuel)%nat -> bad_component fuel rest = false <-> plain_components rest.
Proof.
  unfold plain_components. revert rest. induction fuel as [|fuel IH]; intros rest Hf; [lia|]. cbn [bad_component].
  destruct (decide (rest = [])) as [->|Hne].
  { rewrite bool_decide_true by done. split; [|done]. intros _. split; [|done]. by apply Forall_singleton. }
  rewrite bool_decide_false by done. pose proof (break_split slash rest) as Hb. destruct (break slash rest) as [part [tail|]].
  - destruct Hb as [E Hl]. destruct (split_on_cons slash tail) as (p & ps & Et). rewrite E, Et. change (removelast (part :: p :: ps)) with (part :: removelast (p :: ps)).
    rewrite <- Et, !Forall_cons. rewrite (bool_decide_true (Some tail <> None)), andb_true_r by done. unfold harmless at 1.
    destruct (decide (part = [])) as [->|H1]; [rewrite bool_decide_true by done; cbn [orb]; naive_solver|]. rewrite (bool_decide_false (part = [])) by done.
    destruct (decide (part = lit ".")) as [->|H2]; [rewrite bool_decide_true by done; cbn [orb]; naive_solver|]. rewrite (bool_decide_false (part = lit ".")) by done.
    destruct (decide (part = lit "..")) as [->|H3]; [rewrite bool_decide_true by done; cbn [orb]; naive_solver|]. rewrite (bool_decide_false (part = lit "..")) by done.
    cbn [orb]. rewrite IH by lia. naive_solver.
  - rewrite Hb. rewrite (bool_decide_false (None <> None)) by naive_solver. rewrite andb_false_r. cbn [orb removelast]. unfold harmless. rewrite Forall_singleton.
    destruct (decide (part = lit ".")) as [->|H2]; [rewrite bool_decide_true by done; cbn [orb]; naive_solver|]. rewrite (bool_decide_false (part = lit ".")) by done.
    destruct (decide (part = lit "..")) as [->|H3]; [rewrite bool_decide_true by done; cbn [orb]; naive_solver|]. rewrite (bool_decide_false (part = lit "..")) by done.
    naive_solver.
Qed.

(** The prefixes of [out] that the loop visits. *)
Fixpoint prefixes (prefix : list Z) (parts : list (list Z)) : list (list Z) :=
  match parts with
  | [] => []
  | part :: parts => let prefix := path_append prefix part in prefix :: prefixes prefix parts
  end.

(** Symbolic links on the way lead inside [root]. *)
Definition confined_links (fs : FileSystem) (root out : list Z) : Prop :=
  Forall (fun p => is_symlink fs p = true -> exists target, canonical fs p = Some target /\ inside root target = true) (prefixes [] (path_elements out)).

Lemma links_inside_spec fs root prefix parts :
  links_inside fs root prefix parts = true <->
  Forall (fun p => is_symlink fs p = true -> exists target, canonical fs p = Some target /\ inside root target = true) (prefixes prefix parts).
Proof.
  revert prefix. induction parts as [|part parts IH]; intros prefix; cbn [links_inside prefixes]; [done|]. rewrite Forall_cons.
  destruct (is_symlink fs (path_append prefix part)); [|rewrite IH; naive_solver].
  destruct (canonical fs (path_append prefix part)) as [t|]; [|naive_solver]. destruct (inside root t) eqn:E; rewrite ?IH; naive_solver.
Qed.

Lemma find_mapping_spec path ms g s : find_mapping path ms = Some (g, s) -> (g, s) ∈ ms /\ exists rest, path = g ++ rest.
Proof.
  induction ms as [|[g' s'] ms IH]; cbn [find_mapping]; [done|]. destruct (starts_with path g') eqn:E.
  - intros [= -> ->]. split; [by left|]. by apply starts_with_spec.
  - intros H. destruct (IH H) as [? ?]. split; [by right|done].
Qed.

Lemma find_mapping_none path ms : find_mapping path ms = None -> Forall (fun gs => starts_with path (fst gs) = false) ms.
Proof.
  induction ms as [|[g s] ms IH]; cbn [find_mapping]; [done|]. destruct (starts_with path g) eqn:E; [done|]. intros H. apply Forall_cons. by split; [|apply IH].
Qed.

(** ** Claims *)

(** C10: Where a path of the guest leads, with a sysroot.  A path under one of the mapped
    directories (other than [/proc/self/exe]) becomes the sysroot's denied name, or the
    sysroot, the directory's place in it and the rest of the path: then the rest has no
    ["."], [".."] or empty component in the middle, the file resolves inside the resolved
    sysroot and so does every symbolic link on the way.  Only a font that is not in the
    sysroot stays a host path, after the same checks.  Every other path is the host's. *)
Theorem translate_path_confined fs sysroot exe_path path :
  sysroot <> [] -> path <> kProcSelfExe ->
  match find_mapping path kPathMappings with
  | None => translate_path fs sysroot exe_path path = path /\ Forall (fun gs => starts_with path (fst gs) = false) kPathMappings
  | Some (g, s) =>
      exists rest, path = g ++ rest /\ (g, s) ∈ kPathMappings /\
      let out := sysroot ++ s ++ rest in
      let result := translate_path fs sysroot exe_path path in
      result = denied sysroot \/
      ((result = out \/ (result = path /\ is_font path = true /\ exists_ fs out = false)) /\
       plain_components rest /\
       exists root resolved, weakly_canonical fs sysroot = Some root /\ weakly_canonical fs out = Some resolved /\
         inside root resolved = true /\ confined_links fs root out)
  end.
Proof.
  intros Hs Hp. unfold translate_path. rewrite (bool_decide_false (path = _)), (bool_decide_false (sysroot = [])) by done.
  destruct (find_mapping path kPathMappings) as [[g s]|] eqn:E; [|split; [done|by apply find_mapping_none]].
  destruct (find_mapping_spec _ _ _ _ E) as [Hin [rest ->]]. exists rest. split; [done|]. split; [done|]. cbv zeta.
  unfold translate_mapped. rewrite drop_app_length. destruct (bad_component _ rest) eqn:Eb; [by left|]. apply bad_component_spec in Eb; [|lia].
  destruct (weakly_canonical fs sysroot) as [root|]; [|by left]. destruct (links_inside fs root [] _) eqn:El; cbn [negb]; [|by left].
  apply links_inside_spec in El. destruct (weakly_canonical fs (sysroot ++ s ++ rest)) as [resolved|] eqn:Er; [|by left].
  destruct (inside root resolved) eqn:Ei; cbn [negb]; [|by left]. right. split.
  - destruct (exists_ fs (sysroot ++ s ++ rest)); [by left|]. destruct (is_font (g ++ rest)); [by right|by left].
  - split; [done|]. by exists root, resolved.
Qed.

(** Which files may be mapped executable, exactly.  Without a sysroot every file; with
    one, a descriptor whose first 52 bytes are an arm32 little-endian ELF header of an
    executable or library and whose file, links resolved, lies strictly below the
    resolved sysroot or one of the library roots. *)
Theorem guest_executable_allowed_exact fs sysroot roots read_header fd_link fd :
  guest_executable_allowed fs sysroot roots read_header fd_link fd = true <->
  sysroot = [] \/
  exists h target path root base rest,
    read_header fd = Some h /\ guest_header h = true /\ fd_link fd = Some target /\ 0 < size target < PATH_MAX - 1 /\
    realpath fs target = Some path /\ root ∈ sysroot :: roots /\ realpath fs root = Some base /\ path = base ++ slash :: rest.
Proof.
  assert (forall path root, within fs path root = true <-> exists base rest, realpath fs root = Some base /\ path = base ++ slash :: rest) as Hw.
  { intros path root. unfold within. destruct (realpath fs root) as [base|]; [|naive_solver]. rewrite !andb_true_iff, bool_decide_eq_true, starts_with_spec. split.
    - intros [[[rest ->] Hl] Hc]. rewrite lookup_app_r, Nat.sub_diag in Hc by done. destruct rest as [|c rest]; [done|]. injection Hc as ->. by exists base, rest.
    - intros (b & rest & [= ->] & ->). split; [split; [by eexists|]|].
      + apply Nat.ltb_lt. rewrite length_app. cbn. lia.
      + by rewrite lookup_app_r, Nat.sub_diag. }
  unfold guest_executable_allowed. destruct (decide (sysroot = [])) as [->|Hs]; [rewrite bool_decide_true by done; naive_solver|].
  rewrite bool_decide_false by done. destruct (read_header fd) as [h|] eqn:Eh; [|naive_solver]. destruct (guest_header h) eqn:Eg; cbn [negb]; [|naive_solver].
  destruct (fd_link fd) as [target|]; [|naive_solver]. destruct ((size target =? 0) || (PATH_MAX - 1 <=? size target)) eqn:Esz.
  { split; [done|]. intros [?|(? & t & ? & ? & ? & ? & _ & _ & [= <-] & Ht & _)]; [done|]. apply orb_true_iff in Esz as [?%Z.eqb_eq|?%Z.leb_le]; lia. }
  apply orb_false_iff in Esz as [E0%Z.eqb_neq E1%Z.leb_gt]. pose proof (size_nonneg target).
  destruct (realpath fs target) as [path|] eqn:Ep; [|naive_solver]. trans (exists root, root ∈ sysroot :: roots /\ within fs path root = true).
  - destruct (within fs path sysroot) eqn:Ew; [split; [intros _; exists sysroot; split; [by left|done]|done]|].
    rewrite existsb_exists. setoid_rewrite elem_of_cons. setoid_rewrite <- list_elem_of_In. split; [naive_solver|]. intros (r & [->|?] & ?); [congruence|by exists r].
  - setoid_rewrite Hw. split.
    + intros (root & Hr & base & rest & Hb & ->). right. exists h, target, (base ++ slash :: rest), root, base, rest. split_and!; try done; lia.
    + intros [?|(? & ? & ? & root & base & rest & _ & _ & [= <-] & _ & Hpath & Hr & Hb & ->)]; [done|]. rewrite Ep in Hpath. injection Hpath as ->. naive_solver.
Qed.

(** The library roots are the absolute components of the variable. *)
Lemma colon_parts_spec fuel value : (length value < fuel)%nat -> colon_parts fuel value = filter (fun p => starts_with p [slash] = true) (split_on 58 value).
Proof.
  revert value. induction fuel as [|fuel IH]; intros value Hf; [lia|]. cbn [colon_parts]. pose proof (break_split 58 value) as Hb.
  destruct (break 58 value) as [part [rest|]].
  - destruct Hb as [-> Hl]. rewrite filter_cons, IH by lia. by destruct (starts_with part [slash]).
  - rewrite Hb, filter_cons, filter_nil. by destruct (starts_with part [slash]).
Qed.

(** A sysroot at [/r] without links that holds every file but fonts. *)
Definition sample_fs : FileSystem :=
  {| weakly_canonical := Some; canonical := Some; is_symlink := fun _ => false; exists_ := fun p => negb (ends_with p (lit ".ttf")); realpath := Some |}.

Lemma translate_path_confined_witness :
  translate_path sample_fs (lit "/r") [] (lit "/apex/com.android.runtime/bin/linker") = lit "/r/system/bin/linker" /\
  translate_path sample_fs (lit "/r") [] (lit "/system/lib/../../etc/x") = lit "/r/.zb-denied" /\
  translate_path sample_fs (lit "/r") [] (lit "/system/fonts/Roboto.ttf") = lit "/system/fonts/Roboto.ttf" /\
  exists rest, lit "/system/lib/libc.so" = lit "/system/" ++ rest /\ (lit "/system/", lit "/system/") ∈ kPathMappings.
Proof.
  split; [vm_compute; reflexivity|]. split; [vm_compute; reflexivity|]. split; [vm_compute; reflexivity|].
  assert (lit "/r" <> []) as Hs by discriminate. assert (lit "/system/lib/libc.so" <> kProcSelfExe) as Hp by discriminate.
  destruct (translate_path_confined sample_fs (lit "/r") [] (lit "/system/lib/libc.so") Hs Hp) as (rest & E & Hin & _). exists rest. exact (conj E Hin).
Defined.

Lemma guest_executable_allowed_exact_witness :
  let header := [127; 69; 76; 70; 1; 1; 1] ++ replicate 9 0 ++ [3; 0; 40; 0] ++ replicate 32 0 in
  guest_executable_allowed sample_fs (lit "/r") [lit "/data/app/lib"] (fun _ => Some header) (fun _ => Some (lit "/data/app/lib/libx.so")) 5 = true /\
  guest_executable_allowed sample_fs (lit "/r") [lit "/data/app/lib"] (fun _ => Some header) (fun _ => Some (lit "/data/app/libx.so")) 5 = false.
Proof.
  split; [|vm_compute; reflexivity].
  apply (guest_executable_allowed_exact sample_fs (lit "/r") [lit "/data/app/lib"] (fun _ => Some _) (fun _ => Some (lit "/data/app/lib/libx.so")) 5).
  right. eexists _, _, _, (lit "/data/app/lib"), (lit "/data/app/lib"), (lit "libx.so"). split; [reflexivity|]. split; [vm_compute; reflexivity|].
  split; [reflexivity|]. split; [vm_compute; split; reflexivity|]. split; [reflexivity|]. split; [right; left|]. split; reflexivity.
Defined.
