(* ===== verification/Threads.v ===== *)
(** * The thread registry

    The part of [core/src/process.cpp] that keeps the guest threads of a process: the
    processor ids of the exclusive monitor, the registered threads, the borrowers (host
    threads that run guest code as a parked thread), and how a signal finds its thread.
    A [GuestThread*] is an address into [heap].

    The bodies under [threads_mutex_] are atomic; [Module Steps] interleaves them with
    the construction and destruction of the threads, which happen outside it. *)

From stdpp Require Import numbers gmap list.
From S2P Require Import Prelude Bytes GuestMemory GuestThread Signals.
Local Open Scope Z_scope.

Definition kMaxThreads : nat := 256.
Definition EAGAIN : Z := 11.
Definition kCloneSetTls : Z := 0x00080000.
Definition kCloneParentSetTid : Z := 0x00100000.
Definition kCloneChildClearTid : Z := 0x00200000.
Definition kCloneChildSetTid : Z := 0x01000000.

(** ** Processor ids *)

(** The first clear bit. *)
Fixpoint first_clear (ids : list bool) : option nat :=
  match ids with
  | [] => None
  | b :: ids => if b then S <$> first_clear ids else Some 0%nat
  end.

(** The id, or -1 with the bits as they are. *)
Definition allocate_processor_id (ids : list bool) : Z * list bool :=
  match first_clear ids with
  | Some i => (Z.of_nat i, <[i:=true]> ids)
  | None => (-1, ids)
  end.

Section Registry.
Context {J : Type} `{Jit J} (new_jit : J).

Record Registry := {
  heap : gmap Z (GuestThread J);
  threads_ : list Z;
  borrowers_ : list Z;
  processor_ids_ : list bool;
}.

Definition with_heap (r : Registry) (h : gmap Z (GuestThread J)) : Registry :=
  {| heap := h; threads_ := threads_ r; borrowers_ := borrowers_ r; processor_ids_ := processor_ids_ r |}.
Definition with_ids (r : Registry) (ids : list bool) : Registry :=
  {| heap := heap r; threads_ := threads_ r; borrowers_ := borrowers_ r; processor_ids_ := ids |}.
Definition with_threads (r : Registry) (ts : list Z) : Registry :=
  {| heap := heap r; threads_ := ts; borrowers_ := borrowers_ r; processor_ids_ := processor_ids_ r |}.
Definition with_borrowers (r : Registry) (bs : list Z) : Registry :=
  {| heap := heap r; threads_ := threads_ r; borrowers_ := bs; processor_ids_ := processor_ids_ r |}.

(** The constructor, on a new JIT, with the member initialisers. *)
Definition GuestThread_init (processor_id : Z) : GuestThread J :=
  {| jit_ := new_jit; pending_ := Stop_init; pending_signals_ := 0; pending_info_ := replicate 65 siginfo32_init; park_word_ := 0; sigmask := 0;
     altstack := {| ss_sp := 0; ss_flags := 2; ss_size := 0 |}; clear_child_tid := 0; exit_status := 0; call_depth := 0; child_code_cache_size := 0;
     tid := 0; tpidruro_ := 0; processor_id_ := processor_id |}.

Definition with_tls (t : GuestThread J) (v : Z) : GuestThread J :=
  {| jit_ := jit_ t; pending_ := pending_ t; pending_signals_ := pending_signals_ t; pending_info_ := pending_info_ t; park_word_ := park_word_ t;
     sigmask := sigmask t; altstack := altstack t; clear_child_tid := clear_child_tid t; exit_status := exit_status t; call_depth := call_depth t;
     child_code_cache_size := child_code_cache_size t; tid := tid t; tpidruro_ := v; processor_id_ := processor_id_ t |}.

Definition with_tid (t : GuestThread J) (v : Z) : GuestThread J :=
  {| jit_ := jit_ t; pending_ := pending_ t; pending_signals_ := pending_signals_ t; pending_info_ := pending_info_ t; park_word_ := park_word_ t;
     sigmask := sigmask t; altstack := altstack t; clear_child_tid := clear_child_tid t; exit_status := exit_status t; call_depth := call_depth t;
     child_code_cache_size := child_code_cache_size t; tid := v; tpidruro_ := tpidruro_ t; processor_id_ := processor_id_ t |}.

Definition with_clear_child_tid (t : GuestThread J) (v : Z) : GuestThread J :=
  {| jit_ := jit_ t; pending_ := pending_ t; pending_signals_ := pending_signals_ t; pending_info_ := pending_info_ t; park_word_ := park_word_ t;
     sigmask := sigmask t; altstack := altstack t; clear_child_tid := v; exit_status := exit_status t; call_depth := call_depth t;
     child_code_cache_size := child_code_cache_size t; tid := tid t; tpidruro_ := tpidruro_ t; processor_id_ := processor_id_ t |}.

(** ** Lookup *)

Definition thread_count (r : Registry) : Z := Z.of_nat (length (threads_ r)).

Definition is_borrower (r : Registry) (t : Z) : bool := existsb (fun b => b =? t) (borrowers_ r).

Definition has_tid (r : Registry) (id t : Z) : bool := match heap r !! t with Some g => tid g =? id | None => false end.

Fixpoint first_tid (r : Registry) (id : Z) (ts : list Z) : option Z :=
  match ts with
  | [] => None
  | t :: ts => if has_tid r id t then Some t else first_tid r id ts
  end.

Definition find_thread (r : Registry) (id : Z) : option Z :=
  match first_tid r id (borrowers_ r) with
  | Some t => Some t
  | None => first_tid r id (threads_ r)
  end.

Definition deref (r : Registry) (t : Z) : exec (GuestThread J) := match heap r !! t with Some g => Ret g | None => Undefined end.

Definition post_to (r : Registry) (t : Z) (info : siginfo32) : exec Registry :=
  g ← deref r t; g ← post_signal g info; Ret (with_heap r (<[t:=g]> (heap r))).

Definition post_signal_to (r : Registry) (id : Z) (info : siginfo32) : exec (bool * Registry) :=
  match first_tid r id (borrowers_ r) with
  | Some t => r ← post_to r t info; Ret (true, r)
  | None =>
      match first_tid r id (threads_ r) with
      | Some t => r ← post_to r t info; Ret (true, r)
      | None => Ret (false, r)
      end
  end.

(** ** Registering *)

Definition register_thread (r : Registry) (t : Z) : Registry := with_threads r (threads_ r ++ [t]).

(** Under the lock: off the list, and its id free.  The monitor's slot and the signal
    target ([Signals.Target]) are cleared before. *)
Definition unregister_thread (r : Registry) (t : Z) : exec Registry :=
  g ← deref r t;
  ids ← vec_set (processor_ids_ r) (Z.to_nat (processor_id_ g)) false;
  Ret (with_ids (with_threads r (filter (fun x => x <> t) (threads_ r))) ids).

(** ** Borrowers *)

(** The registers of a borrower of [carrier]. *)
Definition borrower_of (carrier : GuestThread J) (processor_id : Z) : exec (GuestThread J) :=
  let b := GuestThread_init processor_id in
  sp ← vec_at (regs carrier) 13;
  let b := set_regs b (<[13%nat := Z.land sp (Z.lxor 7 0xFFFFFFFF)]> (replicate 16 0)) in
  let b := set_ext_regs b (replicate 64 0) in
  let b := set_cpsr b kCpsrUserMode in
  let b := set_fpscr b (fpscr carrier) in
  let b := with_tls b (tpidruro_ carrier) in
  let b := with_tid b (tid carrier) in
  Ret (with_mask b (sigmask carrier) (altstack carrier)).

(** [p] is the address of the new thread. *)
Definition create_borrower (r : Registry) (carrier p : Z) : exec (option Z * Registry) :=
  let '(id, ids) := allocate_processor_id (processor_ids_ r) in
  if id <? 0 then Ret (None, r)
  else
    c ← deref r carrier;
    b ← borrower_of c id;
    let r := with_heap (with_ids r ids) (<[p:=b]> (heap r)) in
    Ret (Some p, with_borrowers r (borrowers_ r ++ [p])).

(** [while (borrower->take_signal(0, info)) carrier.post_signal(info)]; there are 64
    signals. *)
Fixpoint hand_over (fuel : nat) (b c : GuestThread J) : exec (GuestThread J * GuestThread J) :=
  match fuel with
  | O => Ret (b, c)
  | S fuel =>
      '(info, b) ← take_signal b 0;
      match info with
      | None => Ret (b, c)
      | Some info => c ← post_signal c info; hand_over fuel b c
      end
  end.

Definition destroy_borrower (r : Registry) (borrower carrier : Z) : exec Registry :=
  b ← deref r borrower;
  c ← deref r carrier;
  let c := with_mask c (sigmask b) (altstack b) in
  let r := with_borrowers r (filter (fun x => x <> borrower) (borrowers_ r)) in
  '(b, c) ← hand_over 65 b c;
  let r := with_heap r (delete borrower (<[carrier:=c]> (heap r))) in
  ids ← vec_set (processor_ids_ r) (Z.to_nat (processor_id_ b)) false;
  Ret (with_ids r ids).

(** ** Clone *)

(** The child before it runs. *)
Definition child_of (parent : GuestThread J) (processor_id flags stack tls child_tid_addr : Z) : exec (GuestThread J) :=
  let c := GuestThread_init processor_id in
  let c := set_regs c (regs parent) in
  c ← set_reg c 0 0;
  c ← (if stack =? 0 then Ret c else set_reg c 13 stack);
  let c := set_ext_regs c (ext_regs parent) in
  let c := set_cpsr c (cpsr parent) in
  let c := set_fpscr c (fpscr parent) in
  let c := with_tls c (if has_bits flags kCloneSetTls then tls else tpidruro_ parent) in
  let c := with_mask c (sigmask parent) (altstack c) in
  Ret (if has_bits flags kCloneChildClearTid then with_clear_child_tid c child_tid_addr else c).

Definition write_guest_u32 (m : GuestMemory) (addr v : Z) : exec GuestMemory :=
  match host_ptr m addr 4 kPageWrite with
  | Some a => host_write m a (to_le 4 v)
  | None => Ret m
  end.

(** [p] is the address of the child and [id] the tid of its host thread. *)
Definition clone_thread (r : Registry) (m : GuestMemory) (parent p id flags stack parent_tid_addr tls child_tid_addr : Z) : exec (Z * Registry * GuestMemory) :=
  let '(pid, ids) := allocate_processor_id (processor_ids_ r) in
  if pid <? 0 then Ret (- EAGAIN, r, m)
  else
    g ← deref r parent;
    c ← child_of g pid flags stack tls child_tid_addr;
    let r := register_thread (with_heap (with_ids r ids) (<[p:=c]> (heap r))) p in
    let r := with_heap r (<[p:=with_tid c id]> (heap r)) in
    m ← (if has_bits flags kCloneChildSetTid then write_guest_u32 m child_tid_addr (u32 id) else Ret m);
    m ← (if has_bits flags kCloneParentSetTid then write_guest_u32 m parent_tid_addr (u32 id) else Ret m);
    Ret (id, r, m).
End Registry.
Arguments Registry J : clear implicits.

(** ** Interleavings

    [reserved] are ids handed out for a thread that is not constructed yet, [built]
    threads not listed yet, [unlisted] borrowers off the list whose JIT still exists,
    [freed] ids of borrowers destroyed but not yet given back, [retired] threads off the
    registry (they run no more guest code) that are not destroyed yet. *)
Module Steps.
Section Steps.
Context {J : Type} `{Jit J}.

Record state := {
  reg : Registry J;
  reserved : list Z;
  built : list Z;
  unlisted : list Z;
  freed : list Z;
  retired : list Z;
}.

Definition init : state :=
  {| reg := {| heap := ∅; threads_ := []; borrowers_ := []; processor_ids_ := replicate kMaxThreads false |};
     reserved := []; built := []; unlisted := []; freed := []; retired := [] |}.

Definition drop_one (x : Z) (l : list Z) : list Z := filter (fun y => y <> x) l.

Inductive step (s : state) : state -> Prop :=
| step_allocate id ids :
    allocate_processor_id (processor_ids_ (reg s)) = (id, ids) -> 0 <= id ->
    step s {| reg := with_ids (reg s) ids; reserved := id :: reserved s; built := built s; unlisted := unlisted s; freed := freed s; retired := retired s |}
| step_construct p t :
    heap (reg s) !! p = None -> processor_id_ t ∈ reserved s ->
    step s {| reg := with_heap (reg s) (<[p:=t]> (heap (reg s))); reserved := drop_one (processor_id_ t) (reserved s); built := p :: built s;
              unlisted := unlisted s; freed := freed s; retired := retired s |}
| step_register p :
    p ∈ built s ->
    step s {| reg := register_thread (reg s) p; reserved := reserved s; built := drop_one p (built s); unlisted := unlisted s; freed := freed s; retired := retired s |}
| step_borrow p :
    p ∈ built s ->
    step s {| reg := with_borrowers (reg s) (borrowers_ (reg s) ++ [p]); reserved := reserved s; built := drop_one p (built s);
              unlisted := unlisted s; freed := freed s; retired := retired s |}
| step_unregister p r :
    p ∈ threads_ (reg s) -> unregister_thread (reg s) p = Ret r ->
    step s {| reg := r; reserved := reserved s; built := built s; unlisted := unlisted s; freed := freed s; retired := p :: retired s |}
| step_unlist p :
    p ∈ borrowers_ (reg s) ->
    step s {| reg := with_borrowers (reg s) (drop_one p (borrowers_ (reg s))); reserved := reserved s; built := built s;
              unlisted := p :: unlisted s; freed := freed s; retired := retired s |}
| step_destroy p t :
    p ∈ unlisted s -> heap (reg s) !! p = Some t ->
    step s {| reg := with_heap (reg s) (delete p (heap (reg s))); reserved := reserved s; built := built s; unlisted := drop_one p (unlisted s);
              freed := processor_id_ t :: freed s; retired := retired s |}
| step_release id ids :
    id ∈ freed s -> vec_set (processor_ids_ (reg s)) (Z.to_nat id) false = Ret ids ->
    step s {| reg := with_ids (reg s) ids; reserved := reserved s; built := built s; unlisted := unlisted s; freed := drop_one id (freed s); retired := retired s |}
| step_free p :
    p ∈ retired s ->
    step s {| reg := with_heap (reg s) (delete p (heap (reg s))); reserved := reserved s; built := built s; unlisted := unlisted s; freed := freed s; retired := drop_one p (retired s) |}
| step_update p t t' :
    heap (reg s) !! p = Some t -> processor_id_ t' = processor_id_ t ->
    step s {| reg := with_heap (reg s) (<[p:=t']> (heap (reg s))); reserved := reserved s; built := built s; unlisted := unlisted s; freed := freed s; retired := retired s |}.

(** The threads that hold a processor id, and all ids held. *)
Definition holders (s : state) : list Z := built s ++ threads_ (reg s) ++ borrowers_ (reg s) ++ unlisted s.
Definition id_of (s : state) (p : Z) : Z := match heap (reg s) !! p with Some t => processor_id_ t | None => -1 end.
Definition claims (s : state) : list Z := reserved s ++ freed s ++ map (id_of s) (holders s).

Record inv (s : state) : Prop := {
  inv_ids : length (processor_ids_ (reg s)) = kMaxThreads;
  inv_alive : Forall (fun p => heap (reg s) !! p <> None) (holders s ++ retired s);
  inv_holders : NoDup (holders s ++ retired s);
  inv_claims : NoDup (claims s);
  inv_exact : forall i, 0 <= i < 256 -> processor_ids_ (reg s) !! Z.to_nat i = Some true <-> i ∈ claims s;
  inv_range : Forall (fun i => 0 <= i < 256) (claims s);
}.

Lemma drop_one_id x l : x ∉ l -> drop_one x l = l.
Proof.
  induction l as [|y l IH]; intros Hx; [done|]. apply not_elem_of_cons in Hx as [Hne Hx]. unfold drop_one. rewrite filter_cons, decide_True by done.
  f_equal. by apply IH.
Qed.

Lemma drop_one_perm x l : NoDup l -> x ∈ l -> l ≡ₚ x :: drop_one x l.
Proof.
  induction l as [|y l IH]; intros Hn Hx; [by apply not_elem_of_nil in Hx|]. apply NoDup_cons in Hn as [Hy Hn]. unfold drop_one. rewrite filter_cons.
  destruct (decide (y = x)) as [->|Hne].
  - rewrite decide_False by naive_solver. f_equiv. fold (drop_one x l). by rewrite drop_one_id.
  - rewrite decide_True by done. apply elem_of_cons in Hx as [->|Hx]; [done|]. rewrite (IH Hn Hx) at 1. apply Permutation_swap.
Qed.

Lemma id_of_with s s' p : heap (reg s') !! p = heap (reg s) !! p -> id_of s' p = id_of s p.
Proof. intros E. unfold id_of. by rewrite E. Qed.

Lemma ids_same s s' ps : (forall p, p ∈ ps -> heap (reg s') !! p = heap (reg s) !! p) -> map (id_of s') ps = map (id_of s) ps.
Proof. intros Hs. apply map_ext_in. intros p Hp%list_elem_of_In. by apply id_of_with, Hs. Qed.

(** The bits after setting or clearing the bit of one id. *)
Lemma bits_insert (ids : list bool) (i j : Z) (b : bool) : 0 <= i < 256 -> 0 <= j < 256 -> length ids = kMaxThreads ->
  <[Z.to_nat i:=b]> ids !! Z.to_nat j = if decide (i = j) then Some b else ids !! Z.to_nat j.
Proof.
  intros Hi Hj Hl. unfold kMaxThreads in Hl. case_decide as E; [subst j; by rewrite list_lookup_insert_eq by lia|]. rewrite list_lookup_insert_ne by lia. done.
Qed.

(** A state with the same bits whose claims are a rearrangement. *)
Lemma inv_moved s s' :
  inv s -> processor_ids_ (reg s') = processor_ids_ (reg s) -> claims s' ≡ₚ claims s ->
  Forall (fun p => heap (reg s') !! p <> None) (holders s' ++ retired s') -> NoDup (holders s' ++ retired s') -> inv s'.
Proof.
  intros [H1 H2 H3 H4 H5 H6] Ei Ec Ha Hn. constructor; rewrite ?Ei; [done|done|done|by rewrite Ec| |by rewrite Ec].
  intros i Hi. rewrite Ec. by apply H5.
Qed.

(** A state in which one id more is claimed and set. *)
Lemma inv_claimed s s' id :
  inv s -> 0 <= id < 256 -> processor_ids_ (reg s) !! Z.to_nat id <> Some true -> processor_ids_ (reg s') = <[Z.to_nat id:=true]> (processor_ids_ (reg s)) ->
  claims s' ≡ₚ id :: claims s -> Forall (fun p => heap (reg s') !! p <> None) (holders s' ++ retired s') -> NoDup (holders s' ++ retired s') -> inv s'.
Proof.
  intros [H1 H2 H3 H4 H5 H6] Hid Hfree Ei Ec Ha Hn. constructor; rewrite ?Ei, ?Ec; [by rewrite length_insert|done|done| | |by apply Forall_cons].
  - apply NoDup_cons. split; [|done]. intros Hin. by apply H5 in Hin.
  - intros i Hi. rewrite Ec, bits_insert, elem_of_cons, <- H5 by done. case_decide; naive_solver.
Qed.

(** A state in which one id less is claimed, and cleared. *)
Lemma inv_released s s' id :
  inv s -> processor_ids_ (reg s') = <[Z.to_nat id:=false]> (processor_ids_ (reg s)) -> claims s ≡ₚ id :: claims s' ->
  Forall (fun p => heap (reg s') !! p <> None) (holders s' ++ retired s') -> NoDup (holders s' ++ retired s') -> inv s'.
Proof.
  intros [H1 H2 H3 H4 H5 H6] Ei Ec Ha Hn. rewrite Ec in H4, H6. apply NoDup_cons in H4 as [Hnot H4]. apply Forall_cons in H6 as [Hid H6].
  constructor; rewrite ?Ei; [by rewrite length_insert|done|done|done| |done].
  intros i Hi. rewrite bits_insert by done. pose proof (H5 i Hi) as H5i. rewrite Ec, elem_of_cons in H5i. case_decide; naive_solver.
Qed.

Lemma registry_init_inv : inv init.
Proof.
  constructor; [apply length_replicate|by apply Forall_nil|apply NoDup_nil_2|apply NoDup_nil_2| |by apply Forall_nil]. intros i Hi. split; [|by intros ?%not_elem_of_nil]. intros E%lookup_replicate_1. naive_solver.
Qed.

Lemma first_clear_spec ids i : first_clear ids = Some i -> ids !! i = Some false.
Proof.
  revert i. induction ids as [|b ids IH]; intros i; cbn [first_clear]; [done|]. destruct b; [|by intros [= <-]].
  destruct (first_clear ids) as [j|]; [|done]. intros [= <-]. by apply IH.
Qed.

Lemma allocate_spec ids id ids' : allocate_processor_id ids = (id, ids') -> 0 <= id -> length ids = kMaxThreads ->
  0 <= id < 256 /\ ids !! Z.to_nat id = Some false /\ ids' = <[Z.to_nat id:=true]> ids.
Proof.
  unfold allocate_processor_id. destruct (first_clear ids) as [i|] eqn:E; intros [= <- <-] Hid Hl; [|lia].
  apply first_clear_spec in E. pose proof (lookup_lt_Some _ _ _ E). unfold kMaxThreads in Hl. rewrite Nat2Z.id. split; [lia|done].
Qed.

Lemma perm_two (x : Z) a b : a ++ x :: b ≡ₚ x :: a ++ b.
Proof. by rewrite <- Permutation_middle. Qed.

Lemma perm_three (x : Z) a b c : a ++ b ++ x :: c ≡ₚ x :: a ++ b ++ c.
Proof. by rewrite !app_assoc, perm_two. Qed.

(** The claims after a step, by the ids before it. *)
Lemma claims_by s s' l :
  holders s' ≡ₚ l -> (forall p, p ∈ l -> heap (reg s') !! p = heap (reg s) !! p) -> claims s' ≡ₚ reserved s' ++ freed s' ++ map (id_of s) l.
Proof. intros El Hl. unfold claims. rewrite El, (ids_same s s' l Hl). done. Qed.

Lemma holders_alive s p : inv s -> p ∈ holders s -> exists t, heap (reg s) !! p = Some t.
Proof.
  intros [_ H2 _ _ _ _] Hp. rewrite Forall_app, !Forall_forall in H2. destruct (heap (reg s) !! p) as [t|] eqn:E; [by exists t|]. by apply H2 in Hp.
Qed.

Ltac in_holders := unfold holders; rewrite !elem_of_app; tauto.

(** Moving a thread between the lists. *)
Lemma inv_relisted s s' :
  inv s -> heap (reg s') = heap (reg s) -> processor_ids_ (reg s') = processor_ids_ (reg s) -> reserved s' = reserved s -> freed s' = freed s ->
  retired s' = retired s -> holders s' ≡ₚ holders s -> inv s'.
Proof.
  intros Hi Eh Ei Er Ef Et El. pose proof Hi as [H1 H2 H3 H4 H5 H6]. eapply (inv_moved s); [done|done| | |].
  - rewrite (claims_by s s' (holders s)); [by rewrite Er, Ef|done|by rewrite Eh].
  - rewrite Eh, Et, El. done.
  - rewrite Et, El. done.
Qed.

Lemma step_allocate_inv s id ids :
  inv s -> allocate_processor_id (processor_ids_ (reg s)) = (id, ids) -> 0 <= id ->
  inv {| reg := with_ids (reg s) ids; reserved := id :: reserved s; built := built s; unlisted := unlisted s; freed := freed s; retired := retired s |}.
Proof.
  intros Hi E Hid. pose proof Hi as [H1 H2 H3 H4 H5 H6]. destruct (allocate_spec _ _ _ E Hid H1) as (Hr & Hf & ->).
  eapply (inv_claimed s _ id); [done|done|by rewrite Hf|done|done|done|done].
Qed.

Lemma step_construct_inv s p t :
  inv s -> heap (reg s) !! p = None -> processor_id_ t ∈ reserved s ->
  inv {| reg := with_heap (reg s) (<[p:=t]> (heap (reg s))); reserved := drop_one (processor_id_ t) (reserved s); built := p :: built s;
         unlisted := unlisted s; freed := freed s; retired := retired s |}.
Proof.
  intros Hi Hp Ht. pose proof Hi as [H1 H2 H3 H4 H5 H6].
  assert (p ∉ holders s ++ retired s) as Hnew. { intros Hin. rewrite Forall_forall in H2. by apply H2 in Hin. }
  assert (NoDup (reserved s)) as Hnr by (by apply NoDup_app in H4 as [? _]).
  eapply (inv_moved s); [done|done| | |].
  - unfold claims at 1. cbn [reserved freed]. change (holders _) with (p :: holders s) at 1. cbn [map]. unfold id_of at 1. cbn [reg with_heap heap]. rewrite lookup_insert_eq.
    rewrite (ids_same s). 2: { intros q Hq. cbn. rewrite lookup_insert_ne; [done|]. intros <-. apply Hnew, elem_of_app. by left. }
    unfold claims. rewrite (drop_one_perm _ _ Hnr Ht) at 2. cbn [app]. by rewrite perm_three.
  - change (holders _) with (p :: holders s). cbn. apply Forall_cons. split; [by rewrite lookup_insert_eq|]. eapply Forall_impl; [exact H2|].
    intros q Hq. cbn. destruct (decide (q = p)) as [->|]; [by rewrite lookup_insert_eq|by rewrite lookup_insert_ne].
  - change (holders _) with (p :: holders s). cbn. by apply NoDup_cons.
Qed.

Lemma step_unregister_inv s p r :
  inv s -> p ∈ threads_ (reg s) -> unregister_thread (reg s) p = Ret r ->
  inv {| reg := r; reserved := reserved s; built := built s; unlisted := unlisted s; freed := freed s; retired := p :: retired s |}.
Proof.
  intros Hi Hp Er. pose proof Hi as [H1 H2 H3 H4 H5 H6]. destruct (holders_alive s p Hi) as [t Ht]; [in_holders|].
  unfold unregister_thread, deref in Er. rewrite Ht, exec_ret_bind in Er. unfold vec_set in Er. case_decide; [|done]. rewrite exec_ret_bind in Er. injection Er as <-.
  assert (NoDup (threads_ (reg s))) as Hnt. { unfold holders in H3. apply NoDup_app in H3 as [H3 _]. apply NoDup_app in H3 as (_ & _ & H3). by apply NoDup_app in H3 as [? _]. }
  pose proof (drop_one_perm p _ Hnt Hp) as Ep. match goal with |- inv ?x => set (s' := x) end.
  assert (holders s ≡ₚ p :: holders s') as Eh.
  { unfold holders. subst s'. cbn [built reg with_ids with_threads threads_ borrowers_ unlisted]. fold (drop_one p (threads_ (reg s))).
    rewrite Ep at 1. cbn [app]. by rewrite perm_two. }
  eapply (inv_released s s' (processor_id_ t)); [done|done| | |].
  - unfold claims at 1. rewrite Eh. cbn [map]. unfold id_of at 1. rewrite Ht. apply perm_three.
  - rewrite Eh in H2. change (retired s') with (p :: retired s). by rewrite perm_two.
  - rewrite Eh in H3. change (retired s') with (p :: retired s). by rewrite perm_two.
Qed.

Lemma inv_parts s : inv s ->
  NoDup (built s) /\ NoDup (borrowers_ (reg s)) /\ NoDup (unlisted s) /\ NoDup (freed s) /\ NoDup (retired s).
Proof.
  intros [_ _ H3 H4 _ _]. unfold holders, claims in *. apply NoDup_app in H3 as (H3 & _ & Hr). apply NoDup_app in H3 as (Hb & _ & H3).
  apply NoDup_app in H3 as (_ & _ & H3). apply NoDup_app in H3 as (Hbo & _ & Hu). apply NoDup_app in H4 as (_ & _ & H4). by apply NoDup_app in H4 as (Hf & _ & _).
Qed.

Lemma step_destroy_inv s p t :
  inv s -> p ∈ unlisted s -> heap (reg s) !! p = Some t ->
  inv {| reg := with_heap (reg s) (delete p (heap (reg s))); reserved := reserved s; built := built s; unlisted := drop_one p (unlisted s);
         freed := processor_id_ t :: freed s; retired := retired s |}.
Proof.
  intros Hi Hp Ht. pose proof Hi as [H1 H2 H3 H4 H5 H6]. destruct (inv_parts s Hi) as (_ & _ & Hnu & _ & _).
  match goal with |- inv ?x => set (s' := x) end. assert (holders s ≡ₚ p :: holders s') as Eh.
  { unfold holders. subst s'. cbn [built reg with_heap threads_ borrowers_ unlisted]. rewrite (drop_one_perm p _ Hnu Hp) at 1. by rewrite !app_assoc, perm_two. }
  assert (p ∉ holders s' ++ retired s') as Hnot. { rewrite Eh in H3. by apply NoDup_cons in H3 as [? _]. }
  assert (forall q, q ∈ holders s' ++ retired s' -> heap (reg s') !! q = heap (reg s) !! q) as Hsame.
  { intros q Hq. cbn. rewrite lookup_delete_ne; [done|]. by intros <-. }
  eapply (inv_moved s); [done|done| | |].
  - rewrite (claims_by s s' (holders s')); [|done|intros q Hq; apply Hsame, elem_of_app; by left]. unfold claims. rewrite Eh. cbn [map].
    assert (id_of s p = processor_id_ t) as -> by (unfold id_of; by rewrite Ht). rewrite perm_three. apply perm_two.
  - rewrite Eh in H2. apply Forall_cons in H2 as [_ H2]. rewrite Forall_forall in *. intros q Hq. rewrite Hsame by done. by apply H2.
  - rewrite Eh in H3. by apply NoDup_cons in H3 as [_ ?].
Qed.

Lemma step_release_inv s id ids :
  inv s -> id ∈ freed s -> vec_set (processor_ids_ (reg s)) (Z.to_nat id) false = Ret ids ->
  inv {| reg := with_ids (reg s) ids; reserved := reserved s; built := built s; unlisted := unlisted s; freed := drop_one id (freed s); retired := retired s |}.
Proof.
  intros Hi Hid E. pose proof Hi as [H1 H2 H3 H4 H5 H6]. destruct (inv_parts s Hi) as (_ & _ & _ & Hnf & _).
  unfold vec_set in E. case_decide; [|done]. injection E as <-. eapply (inv_released s _ id); [done|done| |done|done].
  unfold claims at 1. rewrite (drop_one_perm id _ Hnf Hid) at 1. cbn [app]. apply perm_two.
Qed.

Lemma step_free_inv s p :
  inv s -> p ∈ retired s ->
  inv {| reg := with_heap (reg s) (delete p (heap (reg s))); reserved := reserved s; built := built s; unlisted := unlisted s; freed := freed s; retired := drop_one p (retired s) |}.
Proof.
  intros Hi Hp. pose proof Hi as [H1 H2 H3 H4 H5 H6]. destruct (inv_parts s Hi) as (_ & _ & _ & _ & Hnr).
  match goal with |- inv ?x => set (s' := x) end. assert (holders s ++ retired s ≡ₚ p :: holders s' ++ retired s') as Er.
  { change (holders s') with (holders s). change (retired s') with (drop_one p (retired s)). rewrite (drop_one_perm p _ Hnr Hp) at 1. apply perm_two. }
  rewrite Er in H2, H3. apply NoDup_cons in H3 as [Hnot H3]. apply Forall_cons in H2 as [_ H2].
  assert (forall q, q ∈ holders s' ++ retired s' -> heap (reg s') !! q = heap (reg s) !! q) as Hsame.
  { intros q Hq. cbn. rewrite lookup_delete_ne; [done|]. by intros <-. }
  eapply (inv_moved s); [done|done| | |done].
  - rewrite (claims_by s s' (holders s')); [done|done|]. intros q Hq. apply Hsame, elem_of_app. by left.
  - rewrite Forall_forall in *. intros q Hq. rewrite Hsame by done. by apply H2.
Qed.

Lemma step_update_inv s p t t' :
  inv s -> heap (reg s) !! p = Some t -> processor_id_ t' = processor_id_ t ->
  inv {| reg := with_heap (reg s) (<[p:=t']> (heap (reg s))); reserved := reserved s; built := built s; unlisted := unlisted s; freed := freed s; retired := retired s |}.
Proof.
  intros Hi Hp Ht. pose proof Hi as [H1 H2 H3 H4 H5 H6]. eapply (inv_moved s); [done|done| | |done].
  - unfold claims. cbn [reserved freed]. change (holders _) with (holders s) at 1. erewrite map_ext; [done|]. intros q. unfold id_of. cbn.
    destruct (decide (q = p)) as [->|]; [by rewrite lookup_insert_eq, Hp|by rewrite lookup_insert_ne].
  - change (holders _) with (holders s). eapply Forall_impl; [exact H2|]. intros q Hq. cbn.
    destruct (decide (q = p)) as [->|]; [by rewrite lookup_insert_eq|by rewrite lookup_insert_ne].
Qed.

Lemma registry_step_inv s s' : inv s -> step s s' -> inv s'.
Proof.
  intros Hi Hs. destruct (inv_parts s Hi) as (Hnb & Hnbo & _). destruct Hs as [id ids E Hid|p t Hp Ht|p Hp|p Hp|p r Hp Er|p Hp|p t Hp Ht|id ids Hid E|p Hp|p t t' Hp Ht].
  - by apply step_allocate_inv.
  - by apply step_construct_inv.
  - apply (inv_relisted s); try done. unfold holders. cbn. rewrite (drop_one_perm p _ Hnb Hp) at 2. rewrite <- !app_assoc. cbn [app]. by rewrite perm_three.
  - apply (inv_relisted s); try done. unfold holders. cbn. rewrite (drop_one_perm p _ Hnb Hp) at 2. rewrite <- !app_assoc. cbn [app]. rewrite perm_three.
    rewrite (app_assoc (drop_one p (built s))), (app_assoc (drop_one p (built s) ++ _)). by rewrite perm_two, <- !app_assoc.
  - by apply step_unregister_inv.
  - apply (inv_relisted s); try done. unfold holders. cbn. rewrite (drop_one_perm p _ Hnbo Hp) at 2. cbn [app]. by rewrite perm_two.
  - by apply step_destroy_inv.
  - by apply step_release_inv.
  - by apply step_free_inv.
  - by apply step_update_inv with t.
Qed.

Lemma registry_reachable_inv s s' : inv s -> rtc step s s' -> inv s'.
Proof. intros Hi. induction 1 as [|x y z Hs _ IH]; [done|]. apply IH. by eapply registry_step_inv. Qed.
End Steps.
End Steps.

(** ** Handing signals over *)

Section HandOver.
Context {J : Type} `{Jit J}.

(** What is queued carries its own number. *)
Definition numbered (t : GuestThread J) : Prop := forall s i, queued t s = Some i -> si_signo i = s.

(** What a thread is apart from its queue, its JIT's halt request and its park word. *)
Definition same_thread (t t' : GuestThread J) : Prop :=
  sigmask t' = sigmask t /\ altstack t' = altstack t /\ tid t' = tid t /\ tpidruro_ t' = tpidruro_ t /\ processor_id_ t' = processor_id_ t /\
  clear_child_tid t' = clear_child_tid t /\ exit_status t' = exit_status t.

Lemma take_signal_same (t : GuestThread J) blocked r t' : take_signal t blocked = Ret (r, t') -> same_thread t t'.
Proof.
  unfold take_signal. cbn [take_signal_loop]. destruct (_ =? 0); [by intros [= <- <-]|]. intros E. apply exec_bind_Ret in E as (o & _ & E). by injection E as <- <-.
Qed.

Lemma post_signal_same (t : GuestThread J) info t' : post_signal t info = Ret t' -> same_thread t t'.
Proof.
  unfold post_signal. destruct (_ || _); [by intros [= <-]|]. intros E. apply exec_bind_Ret in E as (o & _ & E). by injection E as <-.
Qed.

Lemma same_refl (t : GuestThread J) : same_thread t t.
Proof. done. Qed.

Lemma same_trans (t1 t2 t3 : GuestThread J) : same_thread t1 t2 -> same_thread t2 t3 -> same_thread t1 t3.
Proof. unfold same_thread. intuition congruence. Qed.

Lemma queue_length_bound (t : GuestThread J) : (length (filter (fun s => queued t s <> None) (seqZ 1 64)) <= 64)%nat.
Proof. etrans; [apply length_filter|]. by rewrite length_seqZ. Qed.

Lemma hand_over_run fuel b c :
  queue_ok b -> queue_ok c -> numbered b -> (length (filter (fun s => queued b s <> None) (seqZ 1 64)) < fuel)%nat ->
  exists b' c', hand_over fuel b c = Ret (b', c') /\ same_thread b b' /\ same_thread c c' /\ queue_ok c' /\
    (forall s, queued b' s = None) /\ forall s, queued c' s = match queued b s with Some i => Some i | None => queued c s end.
Proof.
  revert b c. induction fuel as [|fuel IH]; intros b c Hb Hc Hn Hf; [lia|]. cbn [hand_over].
  destruct (take_signal_queue [] b 0 Hb (Forall_nil_2 _)) as (r & b1 & E & Hb1 & Hr). pose proof (take_signal_same b 0 r b1 E) as Sb.
  unfold take_signal. rewrite E, exec_ret_bind. cbv beta iota. destruct r as [info|].
  - destruct Hr as (sig & Hs & _ & _ & Hq). assert (si_signo info = sig) as Esig by by apply Hn. assert (1 <= sig <= 64) as Hrange by (unfold queued in Hs; by case_decide).
    destruct (post_signal_queue c info Hc) as (c1 & E1 & Hc1 & _ & Hq1). rewrite E1, exec_ret_bind.
    destruct (IH b1 c1 Hb1 Hc1) as (b' & c' & E' & Sb' & Sc' & Hc' & Hnone & Hall).
    + intros s i. rewrite Hq. destruct (decide (s = sig)); [discriminate|]. apply Hn.
    + apply Nat.succ_lt_mono. eapply Nat.le_lt_trans; [|exact Hf]. apply (filter_length_lt _ _ _ sig).
      * intros s. rewrite Hq. destruct (decide (s = sig)); tauto.
      * apply elem_of_seqZ. lia.
      * by rewrite Hs.
      * rewrite Hq, decide_True by done. tauto.
    + exists b', c'. split; [done|]. split; [by eapply same_trans|]. split; [eapply same_trans; [by eapply post_signal_same|done]|]. split; [done|]. split; [done|].
      intros s. rewrite Hall, Hq, Hq1, Esig. destruct (decide (s = sig)) as [->|Hne]; [by rewrite decide_True, Hs by done|].
      rewrite (decide_False (P := _ /\ s = sig)) by tauto. done.
  - destruct Hr as (-> & p & Hp & Hnone). cbn in Hp. apply list_elem_of_singleton in Hp as ->. assert (forall s, queued b s = None) as Hempty.
    { intros s. unfold queued. case_decide; [|done]. destruct (Z.testbit (pending_signals_ b) (s - 1)) eqn:Et; [|done].
      specialize (Hnone (s - 1) ltac:(lia) Et). by rewrite Z.bits_0 in Hnone. }
    exists b, c. split; [done|]. split; [apply same_refl|]. split; [apply same_refl|]. split; [done|]. split; [done|]. intros s. by rewrite Hempty.
Qed.
End HandOver.

(** ** The calls are runs of the steps *)

Module Runs.
Import Steps.
Section Runs.
Context {J : Type} `{Jit J} (new_jit : J).

(** [s] with another registry. *)
Definition at_reg (s : state (J := J)) (r : Registry J) : state :=
  {| reg := r; reserved := reserved s; built := built s; unlisted := unlisted s; freed := freed s; retired := retired s |}.

Lemma at_reg_id s : at_reg s (reg s) = s.
Proof. by destruct s. Qed.

Lemma drop_one_head x l : x ∉ l -> drop_one x (x :: l) = l.
Proof. intros Hx. unfold drop_one. rewrite filter_cons, decide_False by tauto. by apply drop_one_id. Qed.

(** Allocating an id and constructing a thread with it. *)
Lemma new_thread_runs s p (t : GuestThread J) id ids :
  inv s -> heap (reg s) !! p = None -> allocate_processor_id (processor_ids_ (reg s)) = (id, ids) -> 0 <= id -> processor_id_ t = id ->
  rtc step s {| reg := with_heap (with_ids (reg s) ids) (<[p:=t]> (heap (reg s))); reserved := reserved s; built := p :: built s;
                unlisted := unlisted s; freed := freed s; retired := retired s |}.
Proof.
  intros Hi Hp E Hid Ht. pose proof Hi as [H1 _ _ _ H5 _]. destruct (allocate_spec _ _ _ E Hid H1) as (Hr & Hf & _).
  assert (id ∉ reserved s) as Hnew. { intros Hin. assert (id ∈ claims s) as Hc by (unfold claims; rewrite elem_of_app; by left). apply H5 in Hc; [|done]. by rewrite Hf in Hc. }
  eapply rtc_l; [by eapply step_allocate|]. eapply rtc_l; [apply (step_construct _ p t); cbn -[drop_one]; [done|by rewrite Ht; left]|]. cbn -[drop_one]. rewrite Ht, drop_one_head by done. apply rtc_refl.
Qed.

Lemma built_fresh (s : state (J := J)) p : inv s -> heap (reg s) !! p = None -> p ∉ built s.
Proof. intros Hi Hp Hin. destruct (holders_alive s p Hi) as [t Ht]; [unfold holders; rewrite elem_of_app; by left|]. congruence. Qed.

Lemma set_reg_same (t : GuestThread J) i v t' : set_reg t i v = Ret t' -> processor_id_ t' = processor_id_ t.
Proof. unfold set_reg. intros E. apply exec_bind_Ret in E as (rs & _ & E). by injection E as <-. Qed.

Lemma child_id g id flags stack tls ctid (c : GuestThread J) : child_of new_jit g id flags stack tls ctid = Ret c -> processor_id_ c = id.
Proof.
  unfold child_of. intros E. apply exec_bind_Ret in E as (c1 & E1 & E). apply exec_bind_Ret in E as (c2 & E2 & E).
  assert (processor_id_ c2 = id) as Hc2.
  { apply set_reg_same in E1. destruct (stack =? 0); [injection E2 as <-|apply set_reg_same in E2]; rewrite ?E2, E1; done. }
  injection E as <-. by destruct (has_bits flags kCloneChildClearTid).
Qed.

Lemma borrower_id c id (b : GuestThread J) : borrower_of new_jit c id = Ret b -> processor_id_ b = id.
Proof. unfold borrower_of. intros E. apply exec_bind_Ret in E as (sp & _ & E). by injection E as <-. Qed.

Lemma create_borrower_runs (s : state (J := J)) carrier p q r :
  inv s -> heap (reg s) !! p = None -> create_borrower new_jit (reg s) carrier p = Ret (q, r) ->
  match q with Some q => q = p /\ p ∈ borrowers_ r /\ rtc step s (at_reg s r) | None => r = reg s end.
Proof.
  intros Hi Hp E. unfold create_borrower in E. destruct (allocate_processor_id _) as [id ids] eqn:Ea. destruct (Z.ltb_spec id 0) as [|Hid]; [by injection E as <- <-|].
  apply exec_bind_Ret in E as (c & _ & E). apply exec_bind_Ret in E as (b & Eb & E). injection E as <- <-. split; [done|]. split; [cbn -[drop_one]; rewrite elem_of_app; right; by left|].
  etrans; [apply (new_thread_runs s p b id ids Hi Hp Ea Hid); by eapply borrower_id|]. eapply rtc_l; [apply (step_borrow _ p); cbn -[drop_one]; by left|].
  cbn -[drop_one]. rewrite drop_one_head by by apply built_fresh. apply rtc_refl.
Qed.

Lemma clone_thread_runs (s : state (J := J)) m parent p id flags stack ptid tls ctid res r m' :
  inv s -> heap (reg s) !! p = None -> clone_thread new_jit (reg s) m parent p id flags stack ptid tls ctid = Ret (res, r, m') ->
  (res = - EAGAIN /\ r = reg s) \/ (res = id /\ p ∈ threads_ r /\ rtc step s (at_reg s r)).
Proof.
  intros Hi Hp E. unfold clone_thread in E. destruct (allocate_processor_id _) as [pid ids] eqn:Ea. destruct (Z.ltb_spec pid 0) as [|Hpid]; [injection E as <- <- <-; by left|].
  apply exec_bind_Ret in E as (g & _ & E). apply exec_bind_Ret in E as (c & Ec & E). apply exec_bind_Ret in E as (m1 & _ & E). apply exec_bind_Ret in E as (m2 & _ & E).
  injection E as <- <- <-. right. split; [done|]. split; [cbn -[drop_one]; rewrite elem_of_app; right; by left|].
  etrans; [apply (new_thread_runs s p c pid ids Hi Hp Ea Hpid); by eapply child_id|]. eapply rtc_l; [apply (step_register _ p); cbn -[drop_one]; by left|].
  eapply rtc_l; [eapply (step_update _ p c (with_tid c id)); cbn -[drop_one]; [by rewrite lookup_insert_eq|done]|]. cbn -[drop_one]. rewrite drop_one_head by by apply built_fresh. apply rtc_refl.
Qed.

Lemma destroy_borrower_runs (s : state (J := J)) b c r :
  inv s -> b ∈ borrowers_ (reg s) -> b <> c -> destroy_borrower (reg s) b c = Ret r -> (forall g, heap (reg s) !! b = Some g -> queue_ok g /\ numbered g) ->
  (forall g, heap (reg s) !! c = Some g -> queue_ok g) -> rtc step s (at_reg s r).
Proof.
  intros Hi Hb Hne E Hqb Hqc. unfold destroy_borrower, deref in E. destruct (heap (reg s) !! b) as [gb|] eqn:Eb; [|done]. rewrite exec_ret_bind in E.
  destruct (heap (reg s) !! c) as [gc|] eqn:Ec; [|done]. rewrite exec_ret_bind in E. destruct (Hqb gb eq_refl) as [Hq Hn].
  destruct (hand_over_run 65 gb (with_mask gc (sigmask gb) (altstack gb))) as (gb' & gc' & Eh & Sb & Sc & _); [done|apply (Hqc gc eq_refl)|done| |].
  { pose proof (queue_length_bound gb). lia. }
  rewrite Eh, exec_ret_bind in E. cbv beta iota in E. apply exec_bind_Ret in E as (ids & Ei & E). injection E as <-. destruct Sb as (_ & _ & _ & _ & Eid & _).
  rewrite Eid in Ei. destruct (inv_parts s Hi) as (_ & Hnbo & Hnu & Hnf & _). pose proof Hi as [_ _ H3 H4 _ _].
  assert (b ∉ unlisted s) as Hnub. { unfold holders in H3. apply NoDup_app in H3 as [H3 _]. apply NoDup_app in H3 as (_ & _ & H3). apply NoDup_app in H3 as (_ & _ & H3).
    apply NoDup_app in H3 as (_ & H3 & _). by apply H3. }
  assert (processor_id_ gb ∉ freed s) as Hnfr. { intros Hin. unfold claims in H4. apply NoDup_app in H4 as (_ & _ & H4). apply NoDup_app in H4 as (_ & H4 & _). apply (H4 _ Hin).
    apply list_elem_of_fmap. exists b. split; [unfold id_of; by rewrite Eb|unfold holders; rewrite !elem_of_app; tauto]. }
  eapply rtc_l; [apply (step_update _ c gc gc'); [done|apply Sc]|]. eapply rtc_l; [by apply (step_unlist _ b)|].
  eapply rtc_l; [apply (step_destroy _ b gb); cbn -[drop_one]; [by left|by rewrite lookup_insert_ne]|]. eapply rtc_l; [apply (step_release _ (processor_id_ gb) ids); cbn -[drop_one]; [by left|done]|].
  cbn -[drop_one]. rewrite !drop_one_head by done. apply rtc_refl.
Qed.
End Runs.
End Runs.

(** ** Claims *)

(** C9: Two threads that exist and may run guest code never share a processor id.  Under
    every interleaving of creating, listing, unlisting and destroying threads and
    borrowers, the ids of threads being set up, registered or borrowing, and of
    borrowers being torn down, are distinct and below 256; a bit is set exactly when its
    id is held; and allocation fails only when all 256 are. *)
Theorem processor_ids_exclusive {J} `{Jit J} (s : Steps.state) :
  rtc Steps.step (Steps.init (J := J)) s ->
  NoDup (Steps.holders s) /\
  (forall p q, p ∈ Steps.holders s -> q ∈ Steps.holders s -> p <> q -> Steps.id_of s p <> Steps.id_of s q) /\
  (forall p, p ∈ Steps.holders s -> 0 <= Steps.id_of s p < 256) /\
  (forall i, 0 <= i < 256 -> processor_ids_ (Steps.reg s) !! Z.to_nat i = Some true <-> i ∈ Steps.claims s) /\
  (fst (allocate_processor_id (processor_ids_ (Steps.reg s))) = -1 -> length (Steps.claims s) = 256%nat).
Proof.
  intros Hr. pose proof (Steps.registry_reachable_inv _ _ Steps.registry_init_inv Hr) as [H1 H2 H3 H4 H5 H6]. split_and!.
  - by apply NoDup_app in H3 as [? _].
  - intros p q Hp Hq Hne E. unfold Steps.claims in H4. apply NoDup_app in H4 as (_ & _ & H4). apply NoDup_app in H4 as (_ & _ & H4).
    apply list_elem_of_lookup in Hp as [i Hi], Hq as [j Hj]. assert (i = j) as ->; [|congruence].
    eapply (NoDup_lookup _ i j (Steps.id_of s p) H4); rewrite list_lookup_fmap; [by rewrite Hi|by rewrite Hj, E].
  - intros p Hp. rewrite Forall_forall in H6. apply H6. unfold Steps.claims. rewrite !elem_of_app. right. right. by apply list_elem_of_fmap_2.
  - done.
  - unfold allocate_processor_id. destruct (first_clear (processor_ids_ (Steps.reg s))) as [i|] eqn:E; cbn [fst]; [lia|]. intros _.
    assert (Forall (fun b => b = true) (processor_ids_ (Steps.reg s))) as Hfull.
    { clear -E. induction (processor_ids_ (Steps.reg s)) as [|b ids IH]; [done|]. cbn [first_clear] in E. destruct b; [|done]. apply Forall_cons. split; [done|].
      apply IH. by destruct (first_clear ids). }
    assert (Steps.claims s ≡ₚ seqZ 0 256) as Ep.
    { apply NoDup_Permutation; [done|apply NoDup_seqZ|]. intros i. rewrite elem_of_seqZ. split.
      - intros Hi. rewrite Forall_forall in H6. apply H6 in Hi. lia.
      - intros Hi. apply H5; [lia|]. destruct (lookup_lt_is_Some_2 (processor_ids_ (Steps.reg s)) (Z.to_nat i)) as [b Hb]; [rewrite H1; unfold kMaxThreads; lia|].
        rewrite Hb. f_equal. by eapply Forall_lookup_1 in Hfull. }
    by rewrite Ep, length_seqZ.
Qed.

(** The calls of the registry are sequences of those atomic steps: creating a borrower
    (or failing, when no id is left, with nothing changed), cloning a thread,
    unregistering one and destroying a borrower take a reachable registry to a
    reachable one, so the ids stay exclusive whatever runs in between. *)
Theorem registry_calls_refine {J} `{Jit J} (new_jit : J) (s : Steps.state) :
  rtc Steps.step (Steps.init (J := J)) s ->
  (forall carrier p q r, heap (Steps.reg s) !! p = None -> create_borrower new_jit (Steps.reg s) carrier p = Ret (q, r) ->
     match q with Some q => q = p /\ p ∈ borrowers_ r /\ rtc Steps.step s (Runs.at_reg s r) | None => r = Steps.reg s end) /\
  (forall m parent p id flags stack ptid tls ctid res r m', heap (Steps.reg s) !! p = None ->
     clone_thread new_jit (Steps.reg s) m parent p id flags stack ptid tls ctid = Ret (res, r, m') ->
     (res = - EAGAIN /\ r = Steps.reg s) \/ (res = id /\ p ∈ threads_ r /\ rtc Steps.step s (Runs.at_reg s r))) /\
  (forall t, t ∈ threads_ (Steps.reg s) -> exists r s', unregister_thread (Steps.reg s) t = Ret r /\ Steps.reg s' = r /\ t ∉ threads_ r /\ Steps.step s s') /\
  (forall b c r, b ∈ borrowers_ (Steps.reg s) -> b <> c -> destroy_borrower (Steps.reg s) b c = Ret r ->
     (forall g, heap (Steps.reg s) !! b = Some g -> queue_ok g /\ numbered g) -> (forall g, heap (Steps.reg s) !! c = Some g -> queue_ok g) ->
     rtc Steps.step s (Runs.at_reg s r)).
Proof.
  intros Hr. pose proof (Steps.registry_reachable_inv _ _ Steps.registry_init_inv Hr) as Hi. split_and!.
  - intros carrier p q r. by apply Runs.create_borrower_runs.
  - intros m parent p id flags stack ptid tls ctid res r m'. by apply Runs.clone_thread_runs.
  - intros t Ht. assert (t ∈ Steps.holders s) as Hh by (unfold Steps.holders; rewrite !elem_of_app; tauto).
    destruct (Steps.holders_alive s t Hi Hh) as [g Hg]. pose proof Hi as [H1 _ _ _ _ H6].
    assert (0 <= processor_id_ g < 256) as Hid.
    { rewrite Forall_forall in H6. apply H6. unfold Steps.claims. rewrite !elem_of_app. right. right. apply list_elem_of_fmap. exists t. split; [|done]. unfold Steps.id_of. by rewrite Hg. }
    assert (exists r, unregister_thread (Steps.reg s) t = Ret r /\ t ∉ threads_ r) as (r & Er & Hnot).
    { unfold unregister_thread, deref. rewrite Hg, exec_ret_bind. unfold vec_set. rewrite H1, decide_True by (unfold kMaxThreads; lia). rewrite exec_ret_bind.
      eexists. split; [done|]. cbn. rewrite list_elem_of_filter. tauto. }
    exists r. eexists. split; [done|]. split; [|split; [done|by eapply Steps.step_unregister]]. done.
  - intros b c r. by apply Runs.destroy_borrower_runs.
Qed.

(** Destroying a borrower loses no signal.  It returns, the borrower is gone, its mask
    and alternate stack are the carrier's, and the carrier's queue holds everything that
    was pending on the borrower, and what was pending on itself unless the same number
    came with it; no other thread changes. *)
Theorem borrower_hands_over {J} `{Jit J} (r : Registry J) b c gb gc :
  heap r !! b = Some gb -> heap r !! c = Some gc -> b <> c -> queue_ok gb -> numbered gb -> queue_ok gc ->
  0 <= processor_id_ gb < Z.of_nat (length (processor_ids_ r)) ->
  exists r' gc', destroy_borrower r b c = Ret r' /\ heap r' !! c = Some gc' /\ heap r' !! b = None /\ b ∉ borrowers_ r' /\
    sigmask gc' = sigmask gb /\ altstack gc' = altstack gb /\
    (forall s, queued gc' s = match queued gb s with Some i => Some i | None => queued gc s end) /\
    (forall p, p <> b -> p <> c -> heap r' !! p = heap r !! p) /\ threads_ r' = threads_ r /\
    processor_ids_ r' !! Z.to_nat (processor_id_ gb) = Some false.
Proof.
  intros Eb Ec Hne Hb Hn Hc Hid. unfold destroy_borrower, deref. rewrite Eb, exec_ret_bind, Ec, exec_ret_bind.
  destruct (hand_over_run 65 gb (with_mask gc (sigmask gb) (altstack gb))) as (gb' & gc' & Eh & Sb & Sc & _ & _ & Hq); [done|apply Hc|done| |].
  { pose proof (queue_length_bound gb). lia. }
  rewrite Eh, exec_ret_bind. cbv beta iota. destruct Sb as (_ & _ & _ & _ & Eid & _). rewrite Eid. unfold vec_set. cbn [processor_ids_ with_heap with_borrowers].
  rewrite decide_True, exec_ret_bind by lia. eexists _, gc'. split; [done|]. cbn [heap with_ids with_heap with_borrowers borrowers_ threads_ processor_ids_].
  destruct Sc as (Em & Ea & _). split_and!; [by rewrite lookup_delete_ne, lookup_insert_eq|by rewrite lookup_delete_eq| |done|done|done| |done|by rewrite list_lookup_insert_eq by lia].
  - rewrite list_elem_of_filter. tauto.
  - intros p Hpb Hpc. by rewrite lookup_delete_ne, lookup_insert_ne.
Qed.

#[local] Existing Instance sample_Jit.

(** A registry reached by allocating, building and listing one thread. *)
Definition sample_registered : Steps.state (J := sample_jit) :=
  {| Steps.reg := {| heap := {[ 7 := GuestThread_init (jit_ sample_thread) 0 ]}; threads_ := [7]; borrowers_ := []; processor_ids_ := <[0%nat:=true]> (replicate kMaxThreads false) |};
     Steps.reserved := []; Steps.built := []; Steps.unlisted := []; Steps.freed := []; Steps.retired := [] |}.

Lemma sample_registered_reachable : rtc Steps.step Steps.init sample_registered.
Proof.
  eapply rtc_l; [eapply (Steps.step_allocate Steps.init 0); [reflexivity|lia]|].
  eapply rtc_l; [apply (Steps.step_construct _ 7 (GuestThread_init (jit_ sample_thread) 0)); [reflexivity|left]|].
  eapply rtc_l; [apply (Steps.step_register _ 7); left|]. vm_compute. apply rtc_refl.
Qed.

Lemma processor_ids_exclusive_witness : 0 <= Steps.id_of sample_registered 7 < 256 /\ processor_ids_ (Steps.reg sample_registered) !! 0%nat = Some true.
Proof.
  destruct (processor_ids_exclusive sample_registered sample_registered_reachable) as (_ & _ & H & _). split; [apply H; left|reflexivity].
Defined.

Lemma registry_calls_refine_witness : exists r s', unregister_thread (Steps.reg sample_registered) 7 = Ret r /\ Steps.reg s' = r /\ 7 ∉ threads_ r /\ Steps.step sample_registered s'.
Proof.
  destruct (registry_calls_refine (jit_ sample_thread) sample_registered sample_registered_reachable) as (_ & _ & H & _). apply H. left.
Defined.

(** A carrier (1) with signal 4 pending and its borrower (2) with signals 4 and 9. *)
Definition sample_pair : Registry sample_jit :=
  let c := with_signals (GuestThread_init (jit_ sample_thread) 0) 8 (<[4%nat:=sample_info 4]> (replicate 65 siginfo32_init)) in
  let b := with_signals (GuestThread_init (jit_ sample_thread) 1) 264 (<[4%nat:=sample_info 4]> (<[9%nat:=sample_info 9]> (replicate 65 siginfo32_init))) in
  {| heap := <[1:=c]> (<[2:=b]> ∅); threads_ := [1]; borrowers_ := [2]; processor_ids_ := <[0%nat:=true]> (<[1%nat:=true]> (replicate kMaxThreads false)) |}.

Lemma borrower_hands_over_witness : exists r' gc', destroy_borrower sample_pair 2 1 = Ret r' /\ heap r' !! 1 = Some gc' /\ queued gc' 9 = Some (sample_info 9).
Proof.
  destruct (borrower_hands_over sample_pair 2 1 _ _ eq_refl eq_refl) as (r' & gc' & E & Ec & _ & _ & _ & _ & Hq & _);
    [lia|split; [vm_compute; split; [discriminate|reflexivity]|reflexivity]| |split; [vm_compute; split; [discriminate|reflexivity]|reflexivity]|vm_compute; split; [discriminate|reflexivity]|].
  - intros s i. unfold queued. destruct (decide (1 <= s <= 64)) as [Hs|]; [|discriminate].
    assert (s ∈ seqZ 1 64) as Hin by (apply elem_of_seqZ; lia). revert i. revert s Hs Hin.
    assert (Forall (fun s => forall i, (if Z.testbit 264 (s - 1) then (<[4%nat:=sample_info 4]> (<[9%nat:=sample_info 9]> (replicate 65 siginfo32_init))) !! Z.to_nat s else None) = Some i -> si_signo i = s) (seqZ 1 64)) as HF.
    { vm_compute. repeat (apply Forall_cons; split; [intros i Hi; first [discriminate Hi|by injection Hi as <-]|]). apply Forall_nil_2. }
    rewrite Forall_forall in HF. intros s Hs Hin i. exact (HF s Hin i).
  - exists r', gc'. split; [exact E|]. split; [exact Ec|]. rewrite Hq. vm_compute. reflexivity.
Defined.
