(* ===== verification/HandleSyscall.v ===== *)
(** * handle_syscall

    [handle_syscall] of [core/src/syscalls.cpp] as a whole: the system calls that change
    the state of the process or of a thread (signals, memory, threads, exit), the switch
    that puts them next to the calls of [Syscalls] and [Messages], and what the caller
    finds in r0.

    The state [World] is the process ([ProcessMemory], [Threads], the disposition table)
    and the log of host calls.  Programs of the monad [wm] over it compose the operations
    of the other files; a call that ends the host process is an outcome.  What the host
    answers, the file system, the addresses of new threads and the JIT are parameters. *)

From stdpp Require Import numbers list gmap strings.
From S2P Require Import Prelude Bytes GuestMemory InitialStack GuestThread Signals ProcessMemory Kernel ProcFiles SyscallNumbers Syscalls Messages Paths Threads.
Local Open Scope Z_scope.

Definition EPERM : Z := 1.
Definition ESRCH : Z := 3.
Definition SIG_BLOCK : Z := 0.
Definition SIG_UNBLOCK : Z := 1.
Definition SIG_SETMASK : Z := 2.
Definition SI_USER : Z := 0.
Definition SI_QUEUE : Z := -1.
Definition SI_TKILL : Z := -6.

(** [kRequired] of clone: CLONE_VM and CLONE_THREAD. *)
Definition kRequired : Z := Z.lor 0x00000100 0x00010000.

(** How a system call leaves the switch: with a result for r0, with r0 as sigreturn
    restored it, ending the thread, or ending the host process. *)
Inductive flow := FResult (res : Z) | FNoResult | FStop | FHostExit (status : Z).

(** What [handle_syscall] answers: true, false, or it does not return. *)
Inductive outcome := Resumes | Ends | HostExits (status : Z).

Section HandleSyscall.
Context {J : Type} `{Jit J}.

Record World := {
  proc : Process;
  registry : Registry J;
  sigactions : list ksigaction32;
  personality : Z;
  exiting_ : bool;
  exit_status_ : Z;
  hlog : list hostcall;
}.

Definition with_proc (w : World) (p : Process) : World :=
  {| proc := p; registry := registry w; sigactions := sigactions w; personality := personality w; exiting_ := exiting_ w; exit_status_ := exit_status_ w; hlog := hlog w |}.
Definition with_registry (w : World) (r : Registry J) : World :=
  {| proc := proc w; registry := r; sigactions := sigactions w; personality := personality w; exiting_ := exiting_ w; exit_status_ := exit_status_ w; hlog := hlog w |}.
Definition with_sigactions (w : World) (acts : list ksigaction32) : World :=
  {| proc := proc w; registry := registry w; sigactions := acts; personality := personality w; exiting_ := exiting_ w; exit_status_ := exit_status_ w; hlog := hlog w |}.
Definition with_personality (w : World) (v : Z) : World :=
  {| proc := proc w; registry := registry w; sigactions := sigactions w; personality := v; exiting_ := exiting_ w; exit_status_ := exit_status_ w; hlog := hlog w |}.
Definition with_hlog (w : World) (l : list hostcall) : World :=
  {| proc := proc w; registry := registry w; sigactions := sigactions w; personality := personality w; exiting_ := exiting_ w; exit_status_ := exit_status_ w; hlog := l |}.

Definition memory (w : World) : GuestMemory := mem_ (proc w).

(** ** Programs over the world *)

Definition wm (A : Type) : Type := World -> exec (A * World).

#[global] Instance wm_ret : MRet wm := fun A a w => Ret (a, w).
#[global] Instance wm_bind : MBind wm := fun A B f c w => match c w with Ret (a, w) => f a w | Aborted => Aborted | Undefined => Undefined end.

Definition asks {A} (f : World -> A) : wm A := fun w => Ret (f w, w).
Definition modify (f : World -> World) : wm unit := fun w => Ret (tt, f w).
Definition lift_exec {A} (e : exec A) : wm A := fun w => a ← e; Ret (a, w).

(** A program of [Kernel]. *)
Definition in_kernel {A} (c : sysm A) : wm A := fun w =>
  '(a, k) ← c {| km := memory w; klog := hlog w |};
  Ret (a, with_hlog (with_proc w (with_mem (proc w) (km k))) (klog k)).

Definition caller (t : Z) : wm (GuestThread J) := fun w => g ← deref (registry w) t; Ret (g, w).
Definition set_caller (t : Z) (g : GuestThread J) : wm unit :=
  modify (fun w => with_registry w (with_heap (registry w) (<[t:=g]> (heap (registry w))))).

(** [invalidate] of the process: every listed thread drops its code of the range. *)
Fixpoint invalidate_each (h : gmap Z (GuestThread J)) (ts : list Z) (addr len : Z) : exec (gmap Z (GuestThread J)) :=
  match ts with
  | [] => Ret h
  | t :: ts =>
      match h !! t with
      | None => Undefined
      | Some g => invalidate_each (<[t := GuestThread.invalidate g addr len]> h) ts addr len
      end
  end.

Definition invalidate_threads (r : Registry J) (addr len : Z) : exec (Registry J) :=
  h ← invalidate_each (heap r) (threads_ r ++ borrowers_ r) addr len; Ret (with_heap r h).

(** The ranges of [invalidated], the oldest last. *)
Fixpoint invalidate_ranges (r : Registry J) (ranges : list (Z * Z)) : exec (Registry J) :=
  match ranges with
  | [] => Ret r
  | (addr, len) :: ranges => r ← invalidate_ranges r ranges; invalidate_threads r addr len
  end.

Definition no_invalidated (p : Process) : Process :=
  {| mem_ := mem_ p; brk_start := brk_start p; brk_current := brk_current p; mmap_limit := mmap_limit p; exec_eligible_ := exec_eligible_ p;
     file_mappings_ := file_mappings_ p; textrel_ranges_ := textrel_ranges_ p; invalidated := [] |}.

(** A call of [ProcessMemory], whose dropped ranges reach the threads. *)
Definition in_process {A} (f : Process -> exec (A * Process)) : wm A := fun w =>
  '(a, p) ← f (proc w);
  r ← invalidate_ranges (registry w) (invalidated p);
  Ret (a, with_registry (with_proc w (no_invalidated p)) r).

Definition request_exit (status : Z) : wm unit :=
  modify (fun w => {| proc := proc w; registry := registry w; sigactions := sigactions w; personality := personality w; exiting_ := true; exit_status_ := status; hlog := hlog w |}).

Definition with_exit_status (t : GuestThread J) (v : Z) : GuestThread J :=
  {| jit_ := jit_ t; pending_ := pending_ t; pending_signals_ := pending_signals_ t; pending_info_ := pending_info_ t; park_word_ := park_word_ t;
     sigmask := sigmask t; altstack := altstack t; clear_child_tid := clear_child_tid t; exit_status := v; call_depth := call_depth t;
     child_code_cache_size := child_code_cache_size t; tid := tid t; tpidruro_ := tpidruro_ t; processor_id_ := processor_id_ t |}.

(** ** Structures *)

Definition ksigaction32_init : ksigaction32 := {| handler := 0; flags := 0; restorer := 0; mask0 := 0; mask1 := 0 |}.

Definition action_of (ws : list Z) : ksigaction32 :=
  {| handler := field ws 0; flags := field ws 1; restorer := field ws 2; mask0 := field ws 3; mask1 := field ws 4 |}.
Definition action_words (a : ksigaction32) : list Z := [handler a; flags a; restorer a; mask0 a; mask1 a].

Definition stack_of (ws : list Z) : stack32 := {| ss_sp := field ws 0; ss_flags := s32 (field ws 1); ss_size := field ws 2 |}.
Definition stack_words (s : stack32) : list Z := [ss_sp s; u32 (ss_flags s); ss_size s].

Definition info_of (ws : list Z) : siginfo32 :=
  {| si_signo := s32 (field ws 0); si_errno := s32 (field ws 1); si_code := s32 (field ws 2); fields := take 29 (drop 3 ws) |}.
End HandleSyscall.
Arguments World J : clear implicits.

(** ** The surroundings *)

(** What the host answers.  [fs], [fd_header], [fd_link], [fd_marker] and [fd_path] are the
    file system as it is after the host calls so far; [mmap_errno] is what a refused
    mapping leaves in errno; [advised] are the bytes a page holds after madvise. *)
Record Env := {
  host : list hostcall -> hostcall -> answer;
  grants : nat -> host_request -> bool;
  file_at : Z -> Z -> Z;
  fs : list hostcall -> FileSystem;
  fd_header : list hostcall -> Z -> option (list Z);
  fd_link : list hostcall -> Z -> option (list Z);
  fd_marker : list hostcall -> Z -> bool;
  fd_path : list hostcall -> Z -> list Z;
  mmap_errno : list hostcall -> Z;
  advised : list hostcall -> Z -> Z;
}.

(** What [Process::run] fixed before the first instruction. *)
Record Image := {
  sysroot_ : list Z;
  exe_path_ : list Z;
  guest_library_roots_ : list (list Z);
  initial_sp_ : Z;
  linker_start_ : Z;
  linker_end_ : Z;
}.

Section Calls.
Context {J : Type} `{Jit J} (new_jit : J) (fresh : Registry J -> Z) (env : Env) (img : Image).

Definition translate (log : list hostcall) (path : list Z) : list Z := Paths.translate_path (fs env log) (sysroot_ img) (exe_path_ img) path.
Definition executable (log : list hostcall) (fd : Z) : bool :=
  Paths.guest_executable_allowed (fs env log) (sysroot_ img) (guest_library_roots_ img) (fd_header env log) (fd_link env log) fd.
Definition in_guest_linker (addr : Z) : bool := (linker_start_ img <=? addr) && (addr <? linker_end_ img).

Definition host_call (name : string) (args : list harg) : wm answer (J := J) := in_kernel (Kernel.call (host env) name args).

Definition guest_tid (t : Z) : wm Z (J := J) :=
  g ← caller t;
  if negb (tid g =? 0) then mret (tid g) else r ← host_call "gettid" []; mret (s32 (ret r)).

(** *** Signals *)

(** [signal_mutex] is held. *)
Definition sys_rt_sigaction (c : Ctx) : wm Z (J := J) :=
  let sig := a0 c in
  if (sig <? 1) || (64 <? sig) || negb (a3 c =? 8) then mret (- EINVAL)
  else
    let has_new := negb (a1 c =? 0) in
    if has_new && ((sig =? SIGKILL) || (sig =? SIGSTOP)) then mret (- EINVAL)
    else
      act ← (if has_new then in_kernel (read_guest 5 (a1 c)) else mret (Some []));
      match act with
      | None => mret (- EFAULT)
      | Some ws =>
          let act := if has_new then action_of ws else ksigaction32_init in
          let act := if (1 <? handler act) && in_guest_linker (Z.land (handler act) (u32 (Z.lnot 1))) then ksigaction32_init else act in
          acts ← asks sigactions;
          old ← lift_exec (vec_at acts (Z.to_nat sig));
          ok ← (if a2 c =? 0 then mret true else in_kernel (write_guest (a2 c) (words_bytes (action_words old))));
          if negb ok then mret (- EFAULT)
          else
            _ ← (if has_new then acts ← lift_exec (vec_set acts (Z.to_nat sig) act); modify (fun w => with_sigactions w acts) else mret tt);
            mret 0
      end.

Definition sys_rt_sigprocmask (t : Z) (c : Ctx) : wm Z (J := J) :=
  if negb (a3 c =? 8) then mret (- EINVAL)
  else
    g ← caller t;
    let old_mask := sigmask g in
    let write_old : wm Z := ok ← (if a2 c =? 0 then mret true else in_kernel (write_guest (a2 c) (w64 old_mask)));
                            if negb ok then mret (- EFAULT) else mret 0 in
    if a1 c =? 0 then write_old
    else
      set ← in_kernel (read_guest 2 (a1 c));
      match set with
      | None => mret (- EFAULT)
      | Some ws =>
          let set := join64 (field ws 0) (field ws 1) in
          let mask := if a0 c =? SIG_BLOCK then Some (Z.lor old_mask set)
                      else if a0 c =? SIG_UNBLOCK then Some (Z.land old_mask (u64 (Z.lnot set)))
                      else if a0 c =? SIG_SETMASK then Some set else None in
          match mask with
          | None => mret (- EINVAL)
          | Some mask =>
              _ ← set_caller t (with_mask g (Z.land mask (u64 (Z.lnot kUnblockable))) (altstack g));
              write_old
          end
      end.

Definition sys_sigaltstack (t : Z) (c : Ctx) : wm Z (J := J) :=
  let has_new := negb (a0 c =? 0) in
  ss ← (if has_new then in_kernel (read_guest 3 (a0 c)) else mret (Some []));
  match ss with
  | None => mret (- EFAULT)
  | Some ws =>
      g ← caller t;
      ok ← (if a1 c =? 0 then mret true else in_kernel (write_guest (a1 c) (words_bytes (stack_words (altstack g)))));
      if negb ok then mret (- EFAULT)
      else _ ← (if has_new then set_caller t (with_mask g (sigmask g) (stack_of ws)) else mret tt); mret 0
  end.

Definition with_signo (info : siginfo32) (sig : Z) : siginfo32 := {| si_signo := sig; si_errno := si_errno info; si_code := si_code info; fields := fields info |}.

(** kill, tkill, tgkill and rt_tgsigqueueinfo. *)
Definition sys_send_signal (t : Z) (process_directed : bool) (tgid id sig : Z) (queued_info : option siginfo32) (code : Z) : wm Z (J := J) :=
  if 64 <? sig then mret (- EINVAL)
  else
    r ← host_call "getpid" [];
    let pid := s32 (ret r) in
    info ← match queued_info with
           | Some info => mret info
           | None =>
               r ← host_call "getuid" [];
               mret {| si_signo := 0; si_errno := 0; si_code := code; fields := <[1%nat := u32 (ret r)]> (<[0%nat := u32 pid]> (replicate 29 0)) |}
           end;
    let info := with_signo info (s32 sig) in
    if process_directed then
      if negb (tgid =? pid) && negb (tgid =? 0) then mret (- EPERM)
      else
        _ ← (if sig =? 0 then mret tt else g ← caller t; g ← lift_exec (post_signal g info); set_caller t g);
        mret 0
    else if negb (tgid =? -1) && negb (tgid =? pid) then mret (- ESRCH)
    else if sig =? 0 then reg ← asks registry; mret (if bool_decide (find_thread reg id = None) then - ESRCH else 0)
    else
      reg ← asks registry;
      '(found, reg) ← lift_exec (post_signal_to reg id info);
      _ ← modify (fun w => with_registry w reg);
      mret (if (found : bool) then 0 else - ESRCH).

Definition sys_rt_tgsigqueueinfo (t : Z) (c : Ctx) : wm Z (J := J) :=
  queued ← (if a3 c =? 0 then mret (Some []) else in_kernel (read_guest 32 (a3 c)));
  match queued with
  | None => mret (- EFAULT)
  | Some ws => sys_send_signal t false (s32 (a0 c)) (s32 (a1 c)) (a2 c) (if a3 c =? 0 then None else Some (info_of ws)) SI_QUEUE
  end.

Definition sys_rt_sigpending (t : Z) (c : Ctx) : wm Z (J := J) :=
  g ← caller t;
  let pending := pending_signals g in
  if negb (a1 c =? 8) then mret (- EINVAL)
  else ok ← in_kernel (write_guest (a0 c) (w64 pending)); mret (if (ok : bool) then 0 else - EFAULT).

(** rt_sigreturn and sigreturn. *)
Definition sys_sigreturn (t : Z) (rt : bool) : wm flow (J := J) :=
  g ← caller t;
  m ← asks memory;
  '(ok, g) ← lift_exec (sigreturn g m rt);
  _ ← set_caller t g;
  if negb ok then _ ← request_exit (128 + SIGSEGV); mret FStop else mret FNoResult.

(** *** Memory, under [mm_mutex] *)

(** The contents of a range after madvise; its pages stay. *)
Definition advise (m : GuestMemory) (addr len : Z) (contents : Z -> Z) : GuestMemory :=
  {| base_ := base_ m; pages_ := pages_ m; bytes_ := fun a => if (addr <=? a) && (a <? addr + len) then contents a else bytes_ m a;
     hprot := hprot m; host_calls := host_calls m |}.

Definition mm_brk (c : Ctx) : wm Z (J := J) := in_process (fun p => sys_brk (grants env) (file_at env) p (a0 c)).

Definition mm_mmap2 (c : Ctx) : wm Z (J := J) :=
  log ← asks hlog;
  in_process (fun p => sys_mmap2 (grants env) (file_at env) (executable log) (fd_marker env log) (fd_path env log) p (mmap_errno env log) (a0 c) (a1 c) (a2 c) (a3 c) (a4 c) (a5 c)).

Definition mm_munmap (c : Ctx) : wm Z (J := J) := in_process (fun p => sys_munmap (grants env) (file_at env) p (a0 c) (a1 c)).
Definition mm_mprotect (c : Ctx) : wm Z (J := J) := in_process (fun p => sys_mprotect (grants env) p (a0 c) (a1 c) (a2 c)).

Definition mm_madvise (c : Ctx) : wm Z (J := J) :=
  p ← asks proc;
  match sys_madvise p (a0 c) (a1 c) (a2 c) with
  | inl res => mret res
  | inr (addr, size, advice) =>
      r ← host_call "madvise" [HGuest addr size 0; HInt size; HInt advice];
      log ← asks hlog;
      _ ← modify (fun w => with_proc w (with_mem (proc w) (advise (memory w) addr size (advised env log))));
      mret (result_of r)
  end.

(** *** Threads *)

Definition sys_clone (t : Z) (c : Ctx) : wm Z (J := J) :=
  if negb (Z.land (a0 c) kRequired =? kRequired) then mret (- EPERM)
  else
    reg ← asks registry;
    (* the child runs only when there is a processor id for it *)
    r ← (if fst (allocate_processor_id (processor_ids_ reg)) <? 0 then mret {| ret := 0; errno := 0; guest_writes := []; outs := [] |} else host_call "gettid" []);
    m ← asks memory;
    '(res, reg, m) ← lift_exec (clone_thread new_jit reg m t (fresh reg) (s32 (ret r)) (a0 c) (a1 c) (a2 c) (a3 c) (a4 c));
    _ ← modify (fun w => with_registry (with_proc w (with_mem (proc w) m)) reg);
    mret res.

Definition sys_exit (t : Z) (c : Ctx) : wm flow (J := J) :=
  g ← caller t; _ ← set_caller t (with_exit_status g (Z.land (a0 c) 0xff)); mret FStop.

Definition sys_exit_group (c : Ctx) : wm flow (J := J) :=
  reg ← asks registry;
  if 1 <? thread_count reg then mret (FHostExit (Z.land (a0 c) 0xff))
  else _ ← request_exit (Z.land (a0 c) 0xff); mret FStop.

Definition sys_set_tls (t : Z) (c : Ctx) : wm Z (J := J) := g ← caller t; _ ← set_caller t (with_tls g (a0 c)); mret 0.
Definition sys_get_tls (t : Z) : wm Z (J := J) := g ← caller t; mret (s32 (tpidruro_ g)).

Definition sys_cacheflush (c : Ctx) : wm Z (J := J) :=
  _ ← (if a0 c <? a1 c then in_process (fun p => Ret (tt, ProcessMemory.invalidate p (a0 c) (u32 (a1 c - a0 c)))) else mret tt);
  mret 0.

Definition sys_set_tid_address (t : Z) (c : Ctx) : wm Z (J := J) :=
  g ← caller t; _ ← set_caller t (with_clear_child_tid g (a0 c)); guest_tid t.

Definition sys_personality (c : Ctx) : wm Z (J := J) :=
  previous ← asks personality;
  _ ← (if a0 c =? 0xFFFFFFFF then mret tt else modify (fun w => with_personality w (a0 c)));
  mret (s32 previous).

(** ** The switch *)

Definition result (c : wm Z (J := J)) : wm flow (J := J) := r ← c; mret (FResult r).

(** The calls of the other files; [sendmsg] is not in a table. *)
Definition host_syscall (nr : Z) (c : Ctx) : wm (option Z) (J := J) :=
  w ← asks id;
  let table := host_calls_table (host env) translate (exe_path_ img) (proc w) (thread_count (registry w)) (initial_sp_ img) ++ message_calls (host env) in
  match handler_of table nr with
  | Some h => r ← in_kernel (h c); mret (Some r)
  | None => if nr =? NR_sendmsg then r ← in_kernel (sys_sendmsg (host env) c); mret (Some r) else mret None
  end.

(** The calls that change the process or a thread, by number. *)
Definition stateful_calls (t : Z) : list (Z * (Ctx -> wm flow (J := J))) := [
  (NR_exit, sys_exit t);
  (NR_exit_group, sys_exit_group);
  (NR_clone, fun c => result (sys_clone t c));
  (NR_brk, fun c => result (mm_brk c));
  (NR_mmap2, fun c => result (mm_mmap2 c));
  (NR_munmap, fun c => result (mm_munmap c));
  (NR_mprotect, fun c => result (mm_mprotect c));
  (NR_madvise, fun c => result (mm_madvise c));
  (NR_mremap, fun _ => mret (FResult (- ENOMEM)));
  (NR_ARM_set_tls, fun c => result (sys_set_tls t c));
  (NR_ARM_get_tls, fun _ => result (sys_get_tls t));
  (NR_ARM_cacheflush, fun c => result (sys_cacheflush c));
  (NR_set_tid_address, fun c => result (sys_set_tid_address t c));
  (NR_gettid, fun _ => result (guest_tid t));
  (NR_rt_sigaction, fun c => result (sys_rt_sigaction c));
  (NR_rt_sigprocmask, fun c => result (sys_rt_sigprocmask t c));
  (NR_sigaltstack, fun c => result (sys_sigaltstack t c));
  (NR_kill, fun c => result (sys_send_signal t true (s32 (a0 c)) 0 (a1 c) None SI_USER));
  (NR_tkill, fun c => result (sys_send_signal t false (-1) (s32 (a0 c)) (a1 c) None SI_TKILL));
  (NR_tgkill, fun c => result (sys_send_signal t false (s32 (a0 c)) (s32 (a1 c)) (a2 c) None SI_TKILL));
  (NR_rt_sigreturn, fun _ => sys_sigreturn t true);
  (NR_sigreturn, fun _ => sys_sigreturn t false);
  (NR_personality, fun c => result (sys_personality c));
  (NR_rt_tgsigqueueinfo, fun c => result (sys_rt_tgsigqueueinfo t c));
  (NR_rt_sigpending, fun c => result (sys_rt_sigpending t c))].

Fixpoint stateful_of (table : list (Z * (Ctx -> wm flow (J := J)))) (nr : Z) : option (Ctx -> wm flow (J := J)) :=
  match table with
  | [] => None
  | (n, h) :: table => if nr =? n then Some h else stateful_of table nr
  end.

(** Every label of the switch is in one of the tables; any other number is refused. *)
Definition switch (t nr : Z) (c : Ctx) : wm flow (J := J) :=
  match stateful_of (stateful_calls t) nr with
  | Some h => h c
  | None => r ← host_syscall nr c; mret (FResult (default (- ENOSYS) r))
  end.

(** The arguments and the number, from the registers of the caller. *)
Definition arguments (rs : list Z) : exec (Ctx * Z) :=
  a0 ← vec_at rs 0; a1 ← vec_at rs 1; a2 ← vec_at rs 2; a3 ← vec_at rs 3; a4 ← vec_at rs 4; a5 ← vec_at rs 5;
  nr ← vec_at rs 7;
  Ret ({| a0 := a0; a1 := a1; a2 := a2; a3 := a3; a4 := a4; a5 := a5 |}, nr).

(** The two calls of [guest_tid] are the records of thread activity. *)
Definition handle_syscall (t : Z) : wm outcome (J := J) :=
  g ← caller t;
  '(c, nr) ← lift_exec (arguments (regs g));
  _ ← guest_tid t;
  _ ← guest_tid t;
  f ← switch t nr c;
  match f with
  | FResult res =>
      g ← caller t;
      g ← lift_exec (set_reg g 0 (u32 res));
      _ ← set_caller t g;
      mret Resumes
  | FNoResult => mret Resumes
  | FStop => mret Ends
  | FHostExit status => mret (HostExits status)
  end.
End Calls.

(** ** The invariant *)

(** Asking a JIT to halt, taking that back and dropping code leave the registers alone
    (Dynarmic documents them as requests to the execution loop and to the code cache). *)
Class JitControl (J : Type) `{Jit J} := {
  Regs_halt v j : Regs (HaltExecution v j) = Regs j;
  Regs_clear v j : Regs (ClearHalt v j) = Regs j;
  Regs_invalidate a n j : Regs (InvalidateCacheRange a n j) = Regs j;
}.

Section Invariant.
Context {J : Type} `{JitControl J} `{!JitLaws J}.

(** A thread: a sound queue whose entries carry their own number, a mask that blocks
    neither SIGKILL nor SIGSTOP, values of their types. *)
Record thread_inv (g : GuestThread J) : Prop := {
  ti_queue : queue_ok g;
  ti_numbered : numbered g;
  ti_infos : Forall info_ok (pending_info_ g);
  ti_mask : 0 <= sigmask g < 2 ^ 64;
  ti_unblockable : Z.land (sigmask g) kUnblockable = 0;
  ti_altstack : stack_ok (altstack g);
  ti_regs : Forall word_ok (regs g);
}.

Record world_inv (w : World J) : Prop := {
  wi_mm : mm_inv false (proc w) (fun _ => false);
  wi_memory : mem_wf (memory w);
  wi_invalidated : invalidated (proc w) = [];
  wi_registry : exists s, Steps.inv s /\ Steps.reg s = registry w;
  wi_threads : map_Forall (fun _ => thread_inv) (heap (registry w));
  wi_actions : actions_ok (sigactions w);
}.

(** Thread [t] is there with these registers and this processor id. *)
Definition has_caller (t : Z) (rs : list Z) (i : Z) (w : World J) : Prop :=
  exists g, heap (registry w) !! t = Some g /\ regs g = rs /\ processor_id_ g = i.

(** The program returns a value with [Q], keeps the invariant and the registers of [t]. *)
Definition keeps {A} (t : Z) (rs : list Z) (i : Z) (c : wm A (J := J)) (Q : A -> Prop) : Prop :=
  forall w, world_inv w -> has_caller t rs i w -> exists a w', c w = Ret (a, w') /\ world_inv w' /\ has_caller t rs i w' /\ Q a.

Context (t : Z) (rs : list Z) (i : Z).

Lemma keeps_ret {A} (a : A) (Q : A -> Prop) : Q a -> keeps t rs i (mret a) Q.
Proof. intros HQ w Hw Hc. by exists a, w. Qed.

Lemma keeps_bind {A B} (c : wm A) P (f : A -> wm B) Q : keeps t rs i c P -> (forall a, P a -> keeps t rs i (f a) Q) -> keeps t rs i (c ≫= f) Q.
Proof.
  intros Hc Hf w Hw Hg. destruct (Hc w Hw Hg) as (a & w1 & E & Hw1 & Hg1 & HP). destruct (Hf a HP w1 Hw1 Hg1) as (b & w2 & E2 & H2).
  exists b, w2. unfold mbind, wm_bind. by rewrite E.
Qed.

Lemma keeps_mono {A} (c : wm A) (P Q : A -> Prop) : keeps t rs i c P -> (forall a, P a -> Q a) -> keeps t rs i c Q.
Proof. intros Hc HPQ w Hw Hg. destruct (Hc w Hw Hg) as (a & w' & E & H1 & H2 & HP). exists a, w'. auto. Qed.

Lemma keeps_if {A} (b : bool) (c d : wm A) Q : (b = true -> keeps t rs i c Q) -> (b = false -> keeps t rs i d Q) -> keeps t rs i (if b then c else d) Q.
Proof. destruct b; auto. Qed.

Lemma keeps_asks {A} (f : World J -> A) : keeps t rs i (asks f) (fun a => exists w, world_inv w /\ has_caller t rs i w /\ a = f w).
Proof. intros w Hw Hg. exists (f w), w. split; [done|]. split; [done|]. split; [done|]. by exists w. Qed.

Lemma keeps_exec {A} (e : exec A) (Q : A -> Prop) : (exists a, e = Ret a /\ Q a) -> keeps t rs i (lift_exec e) Q.
Proof. intros (a & -> & HQ) w Hw Hg. by exists a, w. Qed.

Lemma keeps_caller : keeps t rs i (caller t) (fun g => thread_inv g /\ regs g = rs /\ processor_id_ g = i).
Proof.
  intros w Hw (g & Eg & Hr & Hi). exists g, w. unfold caller, deref. rewrite Eg. split; [done|]. split; [done|]. split; [by exists g|].
  split; [|done]. by apply (wi_threads w Hw t).
Qed.

(** Threads of the registry replaced by others with the same id. *)
Definition replaced (h h' : gmap Z (GuestThread J)) : Prop :=
  forall p, match h !! p, h' !! p with
            | Some g, Some g' => processor_id_ g' = processor_id_ g /\ thread_inv g'
            | None, None => True
            | _, _ => False
            end.

Lemma replaced_registry (r : Registry J) h' : replaced (heap r) h' -> (exists s, Steps.inv s /\ Steps.reg s = r) -> exists s, Steps.inv s /\ Steps.reg s = with_heap r h'.
Proof.
  intros Hr (s & [H1 H2 H3 H4 H5 H6] & <-). exists (Runs.at_reg s (with_heap (Steps.reg s) h')). split; [|done].
  assert (forall p, Steps.id_of (Runs.at_reg s (with_heap (Steps.reg s) h')) p = Steps.id_of s p) as Hid.
  { intros p. unfold Steps.id_of. cbn. specialize (Hr p). destruct (heap (Steps.reg s) !! p), (h' !! p); naive_solver. }
  assert (Steps.claims (Runs.at_reg s (with_heap (Steps.reg s) h')) = Steps.claims s) as Hcl.
  { unfold Steps.claims, Steps.holders. cbn. do 2 f_equal. apply map_ext. exact Hid. }
  split; [done| |done|by rewrite Hcl|by rewrite Hcl|by rewrite Hcl].
  eapply Forall_impl; [exact H2|]. intros p Hp. cbn in *. specialize (Hr p). by destruct (heap (Steps.reg s) !! p), (h' !! p).
Qed.

Lemma replaced_threads h h' : replaced h h' -> map_Forall (fun _ => thread_inv) h'.
Proof. intros Hr p g Hg. specialize (Hr p). rewrite Hg in Hr. destruct (h !! p); [apply Hr|done]. Qed.

Lemma replaced_insert h p g g' :
  map_Forall (fun _ => thread_inv) h -> h !! p = Some g -> processor_id_ g' = processor_id_ g -> thread_inv g' -> replaced h (<[p:=g']> h).
Proof.
  intros Hh Eg Hid Hg q. destruct (decide (q = p)) as [->|Hne]; [by rewrite lookup_insert_eq, Eg|]. rewrite lookup_insert_ne by done.
  destruct (h !! q) as [gq|] eqn:Eq; [|done]. split; [done|]. by apply (Hh q).
Qed.

Lemma replaced_refl h : map_Forall (fun _ => thread_inv) h -> replaced h h.
Proof. intros Hh p. destruct (h !! p) as [g|] eqn:E; [|done]. split; [done|]. by apply (Hh p). Qed.

Lemma replaced_trans h1 h2 h3 : replaced h1 h2 -> replaced h2 h3 -> replaced h1 h3.
Proof. intros H12 H23 p. specialize (H12 p). specialize (H23 p). destruct (h1 !! p), (h2 !! p), (h3 !! p); try done. destruct H12, H23. split; [congruence|done]. Qed.

Lemma world_replaced w h' : world_inv w -> replaced (heap (registry w)) h' -> world_inv (with_registry w (with_heap (registry w) h')).
Proof. intros [H1 H2 H3 H4 H5 H6] Hr. split; try done; cbn; [by apply replaced_registry|by eapply replaced_threads]. Qed.

Lemma keeps_set_caller g (Q : unit -> Prop) : thread_inv g -> regs g = rs -> processor_id_ g = i -> Q tt -> keeps t rs i (set_caller t g) Q.
Proof.
  intros Hg Hr Hi HQ w Hw (g0 & Eg & Hr0 & Hi0). eexists tt, _. split; [done|]. split; [|split; [|done]].
  - apply world_replaced; [done|]. eapply replaced_insert; [apply Hw|exact Eg|congruence|done].
  - exists g. split; [by cbn; rewrite lookup_insert_eq|done].
Qed.

(** Programs that only use memory and the host. *)
Lemma world_kernel w k :
  world_inv w -> only_writable (memory w) (km k) -> world_inv (with_hlog (with_proc w (with_mem (proc w) (km k))) (klog k)).
Proof.
  intros [H1 H2 H3 H4 H5 H6] How. split; try done.
  - apply (inv_same _ (proc w)); [done..|apply H1|]. cbn. apply How.
  - by eapply only_writable_wf.
Qed.

Lemma keeps_kernel {A} (c : sysm A) Q : (forall m, gives m c Q) -> keeps t rs i (in_kernel c) Q.
Proof.
  intros Hc w Hw Hg. destruct (Hc (memory w) {| km := memory w; klog := hlog w |} (wi_memory w Hw) eq_refl) as (a & k & E & [How _] & HQ).
  eexists a, _. unfold in_kernel. rewrite E, exec_ret_bind. split; [done|]. split; [by apply world_kernel|done].
Qed.

Lemma keeps_modify (f : World J -> World J) (Q : unit -> Prop) :
  (forall w, world_inv w -> world_inv (f w)) -> (forall w, registry (f w) = registry w) -> Q tt -> keeps t rs i (modify f) Q.
Proof.
  intros Hf Hr HQ w Hw Hg. eexists tt, _. split; [done|]. split; [by apply Hf|]. split; [|done]. unfold has_caller. by rewrite Hr.
Qed.
End Invariant.

(** ** Operations on threads keep the invariant *)

Lemma masked_unblockable z : Z.land (Z.land z (u64 (Z.lnot kUnblockable))) kUnblockable = 0.
Proof. rewrite <- Z.land_assoc. change (Z.land (u64 (Z.lnot kUnblockable)) kUnblockable) with 0. apply Z.land_0_r. Qed.

Lemma masked_range z : 0 <= Z.land z (u64 (Z.lnot kUnblockable)) < 2 ^ 64.
Proof.
  pose proof (u64_range (Z.lnot kUnblockable)). apply bits_range; [lia|apply Z.land_nonneg; lia|]. intros k Hk.
  by rewrite Z.land_spec, (testbit_above (u64 (Z.lnot kUnblockable)) 64 k), andb_false_r.
Qed.

Section Threads.
Context {J : Type} `{JitControl J} `{!JitLaws J}.

(** Two threads that differ in nothing the invariant speaks about. *)
Definition alike (g g' : GuestThread J) : Prop :=
  pending_signals_ g' = pending_signals_ g /\ pending_info_ g' = pending_info_ g /\ sigmask g' = sigmask g /\ altstack g' = altstack g /\ regs g' = regs g.

Lemma alike_inv g g' : alike g g' -> thread_inv g -> thread_inv g'.
Proof.
  intros (E1 & E2 & E3 & E4 & E5) [[H1 H1'] H2 H3 H4 H5 H6 H7]. split.
  - split; [by rewrite E1|by rewrite E2].
  - intros s j. unfold queued. rewrite E1, E2. apply H2.
  - by rewrite E2.
  - by rewrite E3.
  - by rewrite E3.
  - by rewrite E4.
  - by rewrite E5.
Qed.

Lemma mask_inv (g : GuestThread J) mask alt : thread_inv g -> stack_ok alt -> thread_inv (with_mask g (Z.land mask (u64 (Z.lnot kUnblockable))) alt).
Proof.
  intros [H1 H2 H3 H4 H5 H6 H7] Ha. split; try done.
  - apply masked_range.
  - apply masked_unblockable.
Qed.

Lemma invalidate_alike (g : GuestThread J) addr len : alike g (GuestThread.invalidate g addr len) /\ processor_id_ (GuestThread.invalidate g addr len) = processor_id_ g.
Proof. repeat split; try done. apply Regs_invalidate. Qed.

(** A signal posted to a thread. *)
Lemma post_inv (g : GuestThread J) info :
  thread_inv g -> info_ok info -> exists g', post_signal g info = Ret g' /\ thread_inv g' /\ regs g' = regs g /\ processor_id_ g' = processor_id_ g.
Proof.
  intros Hg Hi. destruct (post_signal_queue g info (ti_queue g Hg)) as (g' & E & Hq & _ & Hqueued). exists g'. split; [done|].
  destruct (post_signal_same g info g' E) as (Em & Ea & _ & _ & Ep & _). unfold post_signal in E. destruct (_ || _) eqn:Eb.
  { injection E as <-. done. }
  apply exec_bind_Ret in E as (infos & Ev & E). injection E as <-. assert (regs (wake (with_jit (with_signals g (Z.lor (pending_signals_ g) (u64 (Z.shiftl 1 (si_signo info - 1)))) infos)
     (HaltExecution kInterruptHalt (jit_ g)))) = regs g) as Er by apply Regs_halt. split; [|done].
  destruct Hg as [H1 H2 H3 H4 H5 H6 H7]. split; try done.
  - intros s j. rewrite Hqueued. destruct (decide _) as [Hd|]; [|apply H2]. intros [= ->]. by destruct Hd.
  - cbn. unfold vec_set in Ev. destruct (decide _) in Ev; [|done]. injection Ev as <-. by apply Forall_insert.
  - by rewrite Er.
Qed.

(** Dropping code. *)
Lemma invalidate_each_run addr len ts : forall h : gmap Z (GuestThread J),
  map_Forall (fun _ => thread_inv) h -> Forall (fun p => h !! p <> None) ts ->
  exists h', invalidate_each h ts addr len = Ret h' /\ replaced h h' /\ forall p g, h !! p = Some g -> exists g', h' !! p = Some g' /\ regs g' = regs g.
Proof.
  induction ts as [|p ts IH]; intros h Hh Hts; cbn [invalidate_each].
  { exists h. split; [done|]. split; [by apply replaced_refl|]. eauto. }
  apply Forall_cons in Hts as [Hp Hts]. destruct (h !! p) as [g|] eqn:Eg; [|done].
  destruct (invalidate_alike g addr len) as [Hal Hid]. assert (thread_inv (GuestThread.invalidate g addr len)) as Hg' by (eapply alike_inv; [done|by apply (Hh p)]).
  pose proof (replaced_insert h p g _ Hh Eg Hid Hg') as Hr.
  destruct (IH (<[p := GuestThread.invalidate g addr len]> h)) as (h' & E & Hr' & Hregs).
  - by eapply replaced_threads.
  - eapply Forall_impl; [exact Hts|]. intros q Hq. destruct (decide (q = p)) as [->|]; [by rewrite lookup_insert_eq|by rewrite lookup_insert_ne].
  - exists h'. split; [done|]. split; [by eapply replaced_trans|]. intros q gq Eq. destruct (decide (q = p)) as [->|Hne].
    + destruct (Hregs p _ (lookup_insert_eq h p _)) as (g' & ? & Er). exists g'. split; [done|]. rewrite Er. rewrite Eg in Eq. injection Eq as <-. apply Regs_invalidate.
    + apply Hregs. by rewrite lookup_insert_ne.
Qed.

Lemma listed_alive (r : Registry J) : (exists s, Steps.inv s /\ Steps.reg s = r) -> Forall (fun p => heap r !! p <> None) (threads_ r ++ borrowers_ r).
Proof.
  intros (s & Hi & <-). destruct Hi as [_ H2 _ _ _ _]. rewrite Forall_forall in *. intros p Hp. apply H2. unfold Steps.holders. rewrite !elem_of_app in *. tauto.
Qed.

Lemma invalidate_ranges_run ranges : forall r : Registry J,
  map_Forall (fun _ => thread_inv) (heap r) -> (exists s, Steps.inv s /\ Steps.reg s = r) ->
  exists h', invalidate_ranges r ranges = Ret (with_heap r h') /\ replaced (heap r) h' /\ forall p g, heap r !! p = Some g -> exists g', h' !! p = Some g' /\ regs g' = regs g.
Proof.
  induction ranges as [|[addr len] ranges IH]; intros r Hh Hs; cbn [invalidate_ranges].
  { exists (heap r). split; [by destruct r|]. split; [by apply replaced_refl|]. eauto. }
  destruct (IH r Hh Hs) as (h1 & E1 & Hr1 & Hregs1). rewrite E1, exec_ret_bind. unfold invalidate_threads. cbn [heap with_heap threads_ borrowers_].
  destruct (invalidate_each_run addr len (threads_ r ++ borrowers_ r) h1) as (h2 & E2 & Hr2 & Hregs2).
  - by eapply replaced_threads.
  - apply (listed_alive (with_heap r h1)). by apply replaced_registry.
  - rewrite E2, exec_ret_bind. exists h2. split; [done|]. split; [by eapply replaced_trans|]. intros p g Eg.
    destruct (Hregs1 p g Eg) as (g1 & Eg1 & Er1). destruct (Hregs2 p g1 Eg1) as (g2 & Eg2 & Er2). exists g2. split; [done|congruence].
Qed.

Context (t : Z) (rs : list Z) (i : Z).

Lemma keeps_process {A} (f : Process -> exec (A * Process)) (Q : A -> Prop) :
  (forall p, mm_inv false p (fun _ => false) -> mem_wf (mem_ p) -> exists a p', f p = Ret (a, p') /\ mm_inv false p' (fun _ => false) /\ mem_wf (mem_ p') /\ Q a) ->
  keeps t rs i (in_process f) Q.
Proof.
  intros Hf w Hw (g & Eg & Hr & Hi). destruct Hw as [H1 H2 H3 H4 H5 H6]. destruct (Hf (proc w) H1 H2) as (a & p & E & Hp & Hm & HQ).
  destruct (invalidate_ranges_run (invalidated p) (registry w) H5 H4) as (h & Eh & Hrep & Hregs).
  eexists a, _. unfold in_process. rewrite E, exec_ret_bind, Eh, exec_ret_bind. split; [done|]. split; [split; try done|].
  - by apply (inv_same _ p); [..|apply Hp|].
  - by apply replaced_registry.
  - by eapply replaced_threads.
  - split; [|done]. destruct (Hregs t g Eg) as (g' & Eg' & Er). exists g'. split; [done|]. split; [congruence|]. specialize (Hrep t).
    rewrite Eg, Eg' in Hrep. destruct Hrep. congruence.
Qed.
End Threads.

(** ** Every call keeps the invariant *)

(** The kernel stores only into buffers it was given, returns whole control messages, and
    reports error numbers. *)
Record env_ok (env : Env) : Prop := {
  eo_kernel : kernel_ok (host env);
  eo_recv : recv_ok (host env);
  eo_errno : forall log, 0 <= mmap_errno env log < 4096;
}.

(** One step of a program. *)
Ltac keeps_step :=
  lazymatch goal with
  | |- keeps _ _ _ (mret _) _ => apply keeps_ret; first [exact I|done]
  | |- keeps _ _ _ (caller _ ≫= _) _ => eapply keeps_bind; [apply keeps_caller|]
  | |- keeps _ _ _ (in_kernel (read_guest _ _) ≫= _) _ => eapply keeps_bind; [apply keeps_kernel; intros ?; apply gives_read_guest; lia|]
  | |- keeps _ _ _ (in_kernel (write_guest _ _)) _ => apply keeps_kernel; intros ?; apply safe_write; [lia|first [by rewrite words_bytes_length; cbn; lia|sizes]]
  | |- keeps ?t ?rs ?i (mbind (M:=wm) (A:=bool) _ _) _ => eapply (keeps_bind t rs i _ (fun _ => True))
  | |- keeps ?t ?rs ?i (mbind (M:=wm) (A:=unit) _ _) _ => eapply (keeps_bind t rs i _ (fun _ => True))
  | |- keeps _ _ _ (if ?b then _ else _) _ => destruct b eqn:?
  | |- keeps _ _ _ (match ?p with _ => _ end) _ => destruct p eqn:?
  | |- forall _ : option _, _ -> _ => let H := fresh in intros [?|] H; cbv beta in H
  | |- forall _, _ -> _ => let H := fresh in intros ? H; cbv beta in H
  end.

Section Handlers.
Context {J : Type} `{JitControl J} `{!JitLaws J} (new_jit : J) (fresh : Registry J -> Z) (env : Env) (img : Image).
Context (Henv : env_ok env) (t : Z) (rs : list Z) (i : Z).

Lemma keeps_host_call name args : (forall m, Forall (arg_ok m) args) -> keeps t rs i (host_call env name args) (fun _ => True).
Proof. intros Ha. apply keeps_kernel. intros m. apply safe_call; [apply Henv|apply Ha]. Qed.

Lemma keeps_guest_tid : keeps t rs i (guest_tid env t) (fun _ => True).
Proof.
  unfold guest_tid. keeps_step. intros g _. apply keeps_if; intros _; [by apply keeps_ret|].
  eapply keeps_bind; [apply keeps_host_call; intros m; apply Forall_nil_2|]. intros r _. by apply keeps_ret.
Qed.

Lemma field_words ws n : Forall word_ok ws -> word_ok (field ws n).
Proof. apply field_ok. Qed.

Lemma action_of_ok ws : Forall word_ok ws -> action_ok (action_of ws).
Proof. intros Hw. repeat split; apply field_ok; exact Hw. Qed.

Lemma ksigaction32_init_ok : action_ok ksigaction32_init.
Proof. repeat split; cbn; lia. Qed.

Lemma keeps_sigaction c : ctx_ok c -> keeps t rs i (sys_rt_sigaction img c) (fun _ => True).
Proof.
  intros Hc. unfold ctx_ok in Hc. unfold sys_rt_sigaction. destruct ((a0 c <? 1) || (64 <? a0 c) || negb (a3 c =? 8)) eqn:Es; [by apply keeps_ret|].
  assert (1 <= a0 c <= 64) as Hsig by lia. apply keeps_if; intros _; [by apply keeps_ret|].
  eapply (keeps_bind t rs i _ (fun r => match r with Some ws => Forall word_ok ws | None => True end)).
  { apply keeps_if; intros _; [|by apply keeps_ret, Forall_nil_2]. apply keeps_kernel. intros m. eapply gives_mono; [apply gives_read_guest; lia|]. by intros [ws|]; [intros [_ Hws]|]. }
  intros [ws|] Hws; [|by apply keeps_ret]. eapply keeps_bind; [apply keeps_asks|]. intros acts (w & Hw & _ & ->).
  destruct (action_at (sigactions w) (a0 c) (wi_actions w Hw) Hsig) as (old & Eold & Hold).
  eapply keeps_bind; [apply (keeps_exec t rs i _ (fun a => a = old)); exists old; unfold vec_at; by rewrite Eold|]. intros ? ->.
  do 2 keeps_step. { keeps_step. } { keeps_step. }
  apply keeps_if; intros _; [by apply keeps_ret|]. eapply (keeps_bind t rs i _ (fun _ => True)); [|intros _ _; by apply keeps_ret].
  apply keeps_if; intros _; [|by apply keeps_ret]. match goal with |- context [vec_set _ _ ?a] => set (act := a) end.
  assert (action_ok act) as Hact by (unfold act; repeat case_match; try apply ksigaction32_init_ok; by apply action_of_ok).
  destruct (wi_actions w Hw) as [Hl Ha].
  eapply keeps_bind; [apply (keeps_exec t rs i _ actions_ok)|].
  { eexists. unfold vec_set. rewrite decide_True by lia. split; [done|]. split; [by rewrite length_insert|by apply Forall_insert]. }
  intros acts Hacts. apply keeps_modify; [|done|done]. intros w' []. by split.
Qed.

Lemma keeps_sigprocmask c : ctx_ok c -> keeps t rs i (sys_rt_sigprocmask t c) (fun _ => True).
Proof.
  intros Hc. unfold ctx_ok in Hc. unfold sys_rt_sigprocmask. apply keeps_if; intros _; [by apply keeps_ret|]. keeps_step. intros g (Hg & Hr & Hi).
  set (write_old := _ ≫= _). assert (keeps t rs i write_old (fun _ => True)) as Hold by (unfold write_old; repeat keeps_step).
  apply keeps_if; intros _; [done|]. keeps_step. intros [ws|]; [|intros _; by apply keeps_ret]. intros [_ Hws]. destruct (if a0 c =? SIG_BLOCK then _ else _) as [mask|]; [|by apply keeps_ret].
  eapply (keeps_bind t rs i _ (fun _ => True)); [|by intros _ _]. apply keeps_set_caller; [|done..]. apply mask_inv; [done|]. apply Hg.
Qed.

Lemma keeps_sigaltstack c : ctx_ok c -> keeps t rs i (sys_sigaltstack t c) (fun _ => True).
Proof.
  intros Hc. unfold ctx_ok in Hc. unfold sys_sigaltstack.
  eapply (keeps_bind t rs i _ (fun r => match r with Some ws => Forall word_ok ws | None => True end)).
  { apply keeps_if; intros _; [|by apply keeps_ret, Forall_nil_2]. apply keeps_kernel. intros m. eapply gives_mono; [apply gives_read_guest; lia|]. by intros [ws|]; [intros [_ Hws]|]. }
  intros [ws|] Hws; [|by apply keeps_ret]. keeps_step. intros g (Hg & Hr & Hi). do 2 keeps_step. { keeps_step. } { keeps_step. }
  apply keeps_if; intros _; [by apply keeps_ret|]. keeps_step; [|intros _ _; by apply keeps_ret]. apply keeps_if; intros _; [|by apply keeps_ret].
  apply keeps_set_caller; [|done..]. destruct Hg. split; try done. split; [by apply field_ok|]. split; [by apply field_ok|]. apply (swrap_range 32). lia.
Qed.

Lemma keeps_sigpending c : ctx_ok c -> keeps t rs i (sys_rt_sigpending t c) (fun _ => True).
Proof. intros Hc. unfold ctx_ok in Hc. unfold sys_rt_sigpending. repeat keeps_step. Qed.
End Handlers.

Lemma read_words_ok m a n : Forall word_ok (read_words m a n) /\ length (read_words m a n) = n.
Proof.
  unfold read_words. rewrite length_map, length_seq. split; [|done]. apply Forall_forall. intros w Hw. apply list_elem_of_fmap in Hw as (k & -> & _).
  apply (le_range (map _ (seq 0 4))). apply Forall_forall. intros b Hb. apply list_elem_of_fmap in Hb as (j & -> & _). apply u8_range.
Qed.

Lemma word_of_ok ws n : Forall word_ok ws -> word_ok (word ws n).
Proof. intros Hw. unfold word. destruct (ws !! n) as [v|] eqn:E; [by eapply Forall_lookup_1 in E|split; cbn; lia]. Qed.

Section Signals.
Context {J : Type} `{JitControl J} `{!JitLaws J}.

(** Whatever frame the guest made up, sigreturn leaves a thread of the invariant. *)
Lemma sigreturn_inv (g : GuestThread J) m rt : thread_inv g -> exists b g', sigreturn g m rt = Ret (b, g') /\ thread_inv g' /\ processor_id_ g' = processor_id_ g.
Proof.
  intros Hg. unfold sigreturn. destruct (regs_sp g) as [sp Hsp]. unfold vec_at. rewrite Hsp, exec_ret_bind. cbv zeta.
  destruct (host_ptr m _ _ _) as [src|]; [|by exists false, g]. destruct (read_words_ok m src 186) as [Hws Hlen]. set (ws := read_words m src 186) in *.
  eexists true, _. split; [done|]. set (g1 := with_mask _ _ (altstack _)). set (g2 := if word ws 58 =? _ then _ else g1).
  assert (length (take 16 (drop 8 ws)) = 16%nat) as Hl by (rewrite length_take, length_drop; lia).
  assert (regs g2 = take 16 (drop 8 ws)) as Er.
  { unfold g2, g1, regs. destruct (word ws 58 =? _); cbn; rewrite ?Regs_fpscr, ?Regs_ext, Regs_cpsr; by apply Regs_set. }
  assert (sigmask g2 = sigmask g1 /\ altstack g2 = altstack g /\ pending_signals_ g2 = pending_signals_ g /\ pending_info_ g2 = pending_info_ g /\ processor_id_ g2 = processor_id_ g) as (Em & Ea & Ep & Ei & Eid)
    by (unfold g2, g1; by destruct (word ws 58 =? _)).
  assert (forall alt, stack_ok alt -> thread_inv (with_mask g2 (sigmask g2) alt)) as Hinv.
  { intros alt Halt. destruct Hg as [[H1 H1'] H2 H3 H4 H5 H6 H7]. split; cbn; [split; cbn; [by rewrite Ep|by rewrite Ei]| |by rewrite Ei| | |done|].
    - intros s j. unfold queued. cbn. rewrite Ep, Ei. apply H2.
    - rewrite Em. apply masked_range.
    - rewrite Em. apply masked_unblockable.
    - change (regs (with_mask g2 (sigmask g2) alt)) with (regs g2). rewrite Er. by apply Forall_take, Forall_drop. }
  split; [|by destruct (_ || _)]. destruct (_ || _).
  - apply Hinv. split; [by apply word_of_ok|]. split; [by apply word_of_ok|]. apply (swrap_range 32). lia.
  - eapply alike_inv; [|apply (Hinv (altstack g2)); rewrite Ea; apply Hg]. by destruct g2.
Qed.

(** *** Posting by thread id *)

Lemma first_tid_found (r : Registry J) id ts p : first_tid r id ts = Some p -> exists g, heap r !! p = Some g /\ tid g = id.
Proof.
  induction ts as [|q ts IH]; cbn; [done|]. unfold has_tid at 1. destruct (heap r !! q) as [g|] eqn:Eg; [|done]. destruct (Z.eqb_spec (tid g) id); [|done].
  intros [= <-]. by exists g.
Qed.

Lemma post_to_run (r : Registry J) p g info :
  map_Forall (fun _ => thread_inv) (heap r) -> heap r !! p = Some g -> info_ok info ->
  exists h', post_to r p info = Ret (with_heap r h') /\ replaced (heap r) h' /\ forall q gq, heap r !! q = Some gq -> exists g', h' !! q = Some g' /\ regs g' = regs gq.
Proof.
  intros Hh Eg Hi. destruct (post_inv g info) as (g' & E & Hg' & Er & Eid); [by apply (Hh p)|done|]. unfold post_to, deref. rewrite Eg, exec_ret_bind, E, exec_ret_bind.
  eexists. split; [done|]. split; [by eapply replaced_insert|]. intros q gq Eq. destruct (decide (q = p)) as [->|Hne]; [rewrite lookup_insert_eq|rewrite lookup_insert_ne by done; eauto].
  exists g'. split; [done|]. congruence.
Qed.

Lemma post_signal_to_run (r : Registry J) id info :
  map_Forall (fun _ => thread_inv) (heap r) -> info_ok info ->
  exists b h', post_signal_to r id info = Ret (b, with_heap r h') /\ replaced (heap r) h' /\ forall q gq, heap r !! q = Some gq -> exists g', h' !! q = Some g' /\ regs g' = regs gq.
Proof.
  intros Hh Hi. unfold post_signal_to. destruct (first_tid r id (borrowers_ r)) as [p|] eqn:Eb.
  { destruct (first_tid_found _ _ _ _ Eb) as (g & Eg & _). destruct (post_to_run r p g info Hh Eg Hi) as (h' & E & H'). exists true, h'. by rewrite E, exec_ret_bind. }
  destruct (first_tid r id (threads_ r)) as [p|] eqn:Et.
  { destruct (first_tid_found _ _ _ _ Et) as (g & Eg & _). destruct (post_to_run r p g info Hh Eg Hi) as (h' & E & H'). exists true, h'. by rewrite E, exec_ret_bind. }
  exists false, (heap r). split; [by destruct r|]. split; [by apply replaced_refl|]. eauto.
Qed.

Context (env : Env) (Henv : env_ok env) (t : Z) (rs : list Z) (i : Z).

Lemma keeps_send_signal process_directed tgid id sig queued_info code :
  match queued_info with Some info => info_ok info | None => True end -> keeps t rs i (sys_send_signal env t process_directed tgid id sig queued_info code) (fun _ => True).
Proof.
  intros Hq. unfold sys_send_signal. apply keeps_if; intros _; [by apply keeps_ret|].
  eapply keeps_bind; [apply keeps_host_call; [done|intros m; apply Forall_nil_2]|]. intros r _. eapply (keeps_bind t rs i _ info_ok).
  { destruct queued_info as [info|]; [by apply keeps_ret|]. eapply keeps_bind; [apply keeps_host_call; [done|intros m; apply Forall_nil_2]|]. intros r' _. apply keeps_ret.
    split; [done|]. cbn [fields]. repeat (apply Forall_insert; [|apply u32_range]). apply Forall_replicate. split; lia. }
  intros info Hi. cbv zeta. set (info' := with_signo info (s32 sig)). assert (info_ok info') as Hi' by exact Hi. clearbody info'.
  destruct process_directed.
  - apply keeps_if; intros _; [by apply keeps_ret|]. eapply (keeps_bind t rs i _ (fun _ => True)); [|intros _ _; by apply keeps_ret].
    apply keeps_if; intros _; [by apply keeps_ret|]. keeps_step. intros g (Hg & Hr & Hid). destruct (post_inv g info' Hg Hi') as (g' & E & Hg' & Er & Eid).
    eapply (keeps_bind t rs i _ (fun x => x = g')); [by apply keeps_exec; exists g'|]. intros ? ->. apply keeps_set_caller; [done|congruence..|done].
  - apply keeps_if; intros _; [by apply keeps_ret|]. apply keeps_if; intros _; [eapply keeps_bind; [apply keeps_asks|]; intros reg _; by apply keeps_ret|].
    intros w Hw (g & Eg & Hr & Hid). destruct (post_signal_to_run (registry w) id info' (wi_threads w Hw) Hi') as (b & h' & E & Hrep & Hregs).
    unfold mbind, wm_bind, asks, lift_exec. rewrite E, exec_ret_bind. cbn. eexists _, _. split; [done|]. split; [by apply world_replaced|]. split; [|done].
    destruct (Hregs t g Eg) as (g' & Eg' & Er). exists g'. split; [done|]. split; [congruence|]. specialize (Hrep t). rewrite Eg, Eg' in Hrep. destruct Hrep. congruence.
Qed.

Lemma info_of_ok ws : length ws = 32%nat -> Forall word_ok ws -> info_ok (info_of ws).
Proof. intros Hl Hw. split; cbn; [rewrite length_take, length_drop; lia|by apply Forall_take, Forall_drop]. Qed.

Lemma keeps_tgsigqueueinfo c : ctx_ok c -> keeps t rs i (sys_rt_tgsigqueueinfo env t c) (fun _ => True).
Proof.
  intros Hc. unfold ctx_ok in Hc. unfold sys_rt_tgsigqueueinfo.
  eapply (keeps_bind t rs i _ (fun r => match r with Some ws => a3 c <> 0 -> length ws = 32%nat /\ Forall word_ok ws | None => True end)).
  { destruct (Z.eqb_spec (a3 c) 0); [by apply keeps_ret|]. apply keeps_kernel. intros m. eapply gives_mono; [apply gives_read_guest; lia|]. by intros [ws|]. }
  intros [ws|] Hws; [|by apply keeps_ret]. apply keeps_send_signal. destruct (Z.eqb_spec (a3 c) 0); [done|]. by apply info_of_ok; apply Hws.
Qed.
End Signals.

(** *** Threads and memory *)

Section Memory.
Context {J : Type} `{JitControl J} `{!JitLaws J} (new_jit : J) (fresh : Registry J -> Z) (env : Env) (img : Image).
Context (Henv : env_ok env) (Hfresh : forall r, heap r !! fresh r = None) (t : Z) (rs : list Z) (i : Z).

Lemma write_u32_run m addr v : mem_wf m -> 0 <= addr < 2 ^ 32 -> exists m', write_guest_u32 m addr v = Ret m' /\ only_writable m m'.
Proof.
  intros Hm Ha. unfold write_guest_u32, host_ptr. destruct (accessible m addr 4 kPageWrite) eqn:Hacc; [|exists m; split; [done|apply only_writable_refl]].
  apply (write_ok m addr (to_le 4 v) addr 4 kPageWrite); try done; try lia.
Qed.

Lemma if_write_run (b : bool) m addr v : mem_wf m -> 0 <= addr < 2 ^ 32 -> exists m', (if b then write_guest_u32 m addr v else Ret m) = Ret m' /\ only_writable m m'.
Proof. intros Hm Ha. destruct b; [by apply write_u32_run|]. exists m. split; [done|apply only_writable_refl]. Qed.

Lemma child_inv (g : GuestThread J) pid flags stack tls ctid id :
  thread_inv g -> word_ok stack -> exists c, child_of new_jit g pid flags stack tls ctid = Ret c /\ thread_inv c /\ thread_inv (with_tid c id).
Proof.
  intros Hg Hs. unfold child_of. rewrite set_reg_run, exec_ret_bind by lia. set (c1 := set_regs (set_regs _ _) _).
  assert (regs c1 = <[0%nat := 0]> (regs g)) as E1.
  { unfold c1. rewrite regs_set_regs by (rewrite length_insert; apply regs_length). by rewrite regs_set_regs by apply regs_length. }
  assert (exists c2, (if stack =? 0 then Ret c1 else set_reg c1 13 stack) = Ret c2 /\ Forall word_ok (regs c2) /\
    pending_signals_ c2 = 0 /\ pending_info_ c2 = replicate 65 siginfo32_init /\ altstack c2 = {| ss_sp := 0; ss_flags := 2; ss_size := 0 |}) as (c2 & E2 & Hr & Hp & Hi & Ha).
  { assert (Forall word_ok (regs c1)) as Hw1 by (rewrite E1; apply Forall_insert; [apply Hg|split; cbn; lia]). destruct (stack =? 0); [by exists c1|].
    rewrite set_reg_run by lia. eexists. split; [done|]. split; [|done]. rewrite regs_set_regs by (rewrite length_insert; apply regs_length). by apply Forall_insert. }
  rewrite E2, exec_ret_bind. eexists. split; [done|]. set (c3 := with_mask _ (sigmask g) _).
  assert (thread_inv c3) as H3.
  { assert (regs c3 = regs c2) as E3 by (unfold c3, regs; cbn; by rewrite Regs_fpscr, Regs_cpsr, Regs_ext).
    split; [split; cbn; [rewrite Hp; lia|by rewrite Hi]| | |apply Hg|apply Hg| |by rewrite E3].
    - intros s j. unfold queued. cbn. rewrite Hp, Z.bits_0. by case_decide.
    - cbn. rewrite Hi. apply Forall_replicate. split; [done|]. apply Forall_replicate. split; lia.
    - cbn. rewrite Ha. repeat split; cbn; lia. }
  split; (eapply alike_inv; [|exact H3]); by destruct (has_bits flags kCloneChildClearTid).
Qed.

Lemma clone_run (w : World J) id flags stack ptid tls ctid :
  world_inv w -> has_caller t rs i w -> word_ok stack -> word_ok ptid -> word_ok ctid ->
  exists res r m, clone_thread new_jit (registry w) (memory w) t (fresh (registry w)) id flags stack ptid tls ctid = Ret (res, r, m) /\
    world_inv (with_registry (with_proc w (with_mem (proc w) m)) r) /\ has_caller t rs i (with_registry (with_proc w (with_mem (proc w) m)) r).
Proof.
  intros Hw Hc Hst Hpt Hct. pose proof Hc as (g & Eg & Hr & Hi). destruct (wi_registry w Hw) as (s & Hs & Es). pose proof (Hfresh (registry w)) as Hp. set (p := fresh (registry w)) in *.
  destruct (clone_thread new_jit (registry w) (memory w) t p id flags stack ptid tls ctid) as [[[res r] m]| |] eqn:E; unfold clone_thread in E; destruct (allocate_processor_id _) as [pid ids] eqn:Ea.
  2,3: exfalso; unfold deref in E; rewrite Eg in E; destruct (child_inv g pid flags stack tls ctid id) as (c & Ec & _); [by apply (wi_threads w Hw t)|done|];
    destruct (pid <? 0); [discriminate|]; rewrite exec_ret_bind, Ec, exec_ret_bind in E;
    destruct (if_write_run (has_bits flags kCloneChildSetTid) (memory w) ctid (u32 id) (wi_memory w Hw) Hct) as (m1 & E1 & How1); rewrite E1, exec_ret_bind in E;
    destruct (if_write_run (has_bits flags kCloneParentSetTid) m1 ptid (u32 id) (only_writable_wf _ _ How1 (wi_memory w Hw)) Hpt) as (m2 & E2 & _); rewrite E2, exec_ret_bind in E; discriminate.
  exists res, r, m. split; [done|]. destruct (pid <? 0) eqn:Epid.
  { injection E as <- <- <-. replace (with_registry (with_proc w (with_mem (proc w) (memory w))) (registry w)) with w by (by destruct w as [[]]). done. }
  assert (clone_thread new_jit (Steps.reg s) (memory w) t p id flags stack ptid tls ctid = Ret (res, r, m)) as Erun by (rewrite Es; unfold clone_thread; by rewrite Ea, Epid).
  unfold deref in E. rewrite Eg, exec_ret_bind in E. destruct (child_inv g pid flags stack tls ctid id) as (c & Ec & _ & Hcinv); [by apply (wi_threads w Hw t)|done|].
  rewrite Ec, exec_ret_bind in E. destruct (if_write_run (has_bits flags kCloneChildSetTid) (memory w) ctid (u32 id) (wi_memory w Hw) Hct) as (m1 & E1 & How1). rewrite E1, exec_ret_bind in E.
  destruct (if_write_run (has_bits flags kCloneParentSetTid) m1 ptid (u32 id) (only_writable_wf _ _ How1 (wi_memory w Hw)) Hpt) as (m2 & E2 & How2). rewrite E2, exec_ret_bind in E.
  injection E as Eres Ereg Em. subst m2. assert (only_writable (memory w) m) as How by by eapply only_writable_trans.
  pose proof (world_kernel w {| km := m; klog := hlog w |} Hw How) as [K1 K2 K3 _ _ K6].
  assert (heap r = <[p := with_tid c id]> (<[p := c]> (heap (registry w)))) as Eh by (by rewrite <- Ereg).
  split; [split; try done|].
  - destruct (Runs.clone_thread_runs new_jit s _ _ _ _ _ _ _ _ _ _ _ _ Hs ltac:(by rewrite Es) Erun) as [[_ Hx]|(_ & _ & Hrtc)]; [by exists s|].
    exists (Runs.at_reg s r). split; [|done]. by eapply Steps.registry_reachable_inv.
  - cbn. rewrite Eh, insert_insert_eq. by apply map_Forall_insert_2; [|apply (wi_threads w Hw)].
  - exists g. split; [|done]. cbn. rewrite Eh, insert_insert_eq, lookup_insert_ne; [done|]. intros <-. congruence.
Qed.

(** A host call without guest buffers changes neither memory nor threads. *)
Lemma store_all_empty m ws : (forall a bs, (a, bs) ∈ ws -> bs = []) -> store_all m ws = Ret m.
Proof.
  induction ws as [|[a bs] ws IH]; intros Hws; cbn [store_all]; [done|]. rewrite (Hws a bs) by by left.
  unfold host_write. rewrite decide_True, exec_ret_bind by done. apply IH. intros a' bs' Hin. apply (Hws a'). by right.
Qed.

Lemma host_call_run (w : World J) name :
  world_inv w -> exists a w', host_call env name [] w = Ret (a, w') /\ world_inv w' /\ memory w' = memory w /\ registry w' = registry w.
Proof.
  intros Hw. unfold host_call, in_kernel, Kernel.call. rewrite store_all_empty.
  - rewrite !exec_ret_bind. eexists _, _. split; [done|]. split; [|done]. apply (world_kernel w {| km := memory w; klog := _ |} Hw). apply only_writable_refl.
  - intros a bs Hin. destruct (decide (bs = [])) as [|Hne]; [done|]. destruct (eo_kernel env Henv _ _ _ _ Hin Hne) as (addr & len & need & Harg & _). by apply not_elem_of_nil in Harg.
Qed.

Lemma guest_tid_run (w : World J) :
  world_inv w -> has_caller t rs i w -> exists a w', guest_tid env t w = Ret (a, w') /\ world_inv w' /\ memory w' = memory w /\ registry w' = registry w.
Proof.
  intros Hw (g & Eg & _). unfold guest_tid, mbind at 1, wm_bind at 1, caller, deref. rewrite Eg, exec_ret_bind. destruct (negb _); [by exists (tid g), w|].
  destruct (host_call_run w "gettid" Hw) as (a & w' & E & H'). unfold mbind, wm_bind. rewrite E. by eexists _, w'.
Qed.

Lemma has_caller_registry (w w' : World J) : registry w' = registry w -> has_caller t rs i w -> has_caller t rs i w'.
Proof. unfold has_caller. by intros ->. Qed.

Lemma keeps_clone c : ctx_ok c -> keeps t rs i (sys_clone new_jit fresh env t c) (fun _ => True).
Proof.
  intros Hc. unfold ctx_ok in Hc. unfold sys_clone. apply keeps_if; intros _; [by apply keeps_ret|]. intros w Hw Hg. unfold mbind at 1, wm_bind at 1, asks at 1.
  assert (exists a w1, (if fst (allocate_processor_id (processor_ids_ (registry w))) <? 0 then mret {| ret := 0; errno := 0; guest_writes := []; outs := [] |} else host_call env "gettid" []) w = Ret (a, w1) /\
    world_inv w1 /\ registry w1 = registry w) as (a & w1 & E1 & Hw1 & Er).
  { destruct (_ <? 0); [by eexists _, w|]. destruct (host_call_run w "gettid" Hw) as (a & w1 & E & ? & _ & ?). by exists a, w1. }
  unfold mbind at 1, wm_bind at 1. rewrite E1. apply (has_caller_registry w w1 Er) in Hg. unfold mbind at 1, wm_bind at 1, asks.
  destruct (clone_run w1 (s32 (ret a)) (a0 c) (a1 c) (a2 c) (a3 c) (a4 c) Hw1 Hg) as (res & r & m & E & Hw' & Hg'); [unfold word_ok; lia..|].
  unfold mbind at 1, wm_bind at 1, lift_exec. rewrite <- Er, E, exec_ret_bind. by eexists _, _.
Qed.

Lemma keeps_mm {A} (f : Process -> exec (A * Process)) (o : mm_op) (Q : A -> Prop) :
  mm_typed o -> o <> MmSeal -> (forall p p' fo, mm_step (grants env) (file_at env) o p (fun _ => false) = Ret (p', fo) -> exists r, f p = Ret (r, p') /\ Q r) -> keeps t rs i (in_process f) Q.
Proof.
  intros Ho Hseal Hf. apply keeps_process. intros p Hp Hm. destruct (mm_step_ok (grants env) (file_at env) false o p _ Hp Ho Hseal) as (p' & fo & E & Hp').
  destruct (Hf p p' fo E) as (r & Er & HQ). exists r, p'. split; [done|]. split; [eapply inv_foreign; [exact Hp'|done]|]. split; [|done]. exact (mm_step_wf _ _ _ _ _ _ _ _ Hp Ho E Hm).
Qed.

Lemma keeps_brk c : ctx_ok c -> keeps t rs i (mm_brk env c) (fun _ => True).
Proof. intros Hc. apply (keeps_mm _ (MmBrk (a0 c))); [apply Hc|done|]. intros p p' fo E. apply exec_bind_Ret in E as ([r q] & Er & E). injection E as <- _. by exists r. Qed.

Lemma keeps_munmap c : ctx_ok c -> keeps t rs i (mm_munmap env c) (fun _ => True).
Proof. intros Hc. apply (keeps_mm _ (MmMunmap (a0 c) (a1 c))); [split; apply Hc|done|]. intros p p' fo E. apply exec_bind_Ret in E as ([r q] & Er & E). injection E as <- _. by exists r. Qed.

Lemma keeps_mprotect c : ctx_ok c -> keeps t rs i (mm_mprotect env c) (fun _ => True).
Proof. intros Hc. apply (keeps_mm _ (MmMprotect (a0 c) (a1 c) (a2 c))); [split; apply Hc|done|]. intros p p' fo E. apply exec_bind_Ret in E as ([r q] & Er & E). injection E as <- _. by exists r. Qed.

Lemma keeps_mmap2 c : ctx_ok c -> keeps t rs i (mm_mmap2 env img c) (fun _ => True).
Proof.
  intros Hc. eapply keeps_bind; [apply keeps_asks|]. intros log _.
  apply (keeps_mm _ (MmMmap2 (executable env img log) (fd_marker env log) (fd_path env log) (mmap_errno env log) (a0 c) (a1 c) (a2 c) (a3 c) (a4 c) (a5 c))).
  - unfold ctx_ok in Hc. pose proof (eo_errno env Henv log). cbn. lia.
  - done.
  - intros p p' fo E. apply exec_bind_Ret in E as ([r q] & Er & E). injection E as <- _. by exists r.
Qed.

Lemma keeps_cacheflush c : keeps t rs i (sys_cacheflush c) (fun _ => True).
Proof.
  unfold sys_cacheflush. keeps_step; [|intros _ _; by apply keeps_ret]. apply keeps_if; intros _; [|by apply keeps_ret]. apply keeps_process. intros p Hp Hm. eexists tt, _. split; [done|].
  split; [|done]. by apply (inv_same _ p); [..|apply Hp|].
Qed.

Lemma keeps_madvise c : ctx_ok c -> keeps t rs i (mm_madvise env c) (fun _ => True).
Proof.
  intros Hc. unfold ctx_ok in Hc. unfold mm_madvise. intros w Hw Hg. unfold mbind at 1, wm_bind at 1, asks at 1. unfold sys_madvise.
  destruct (has_bits _ _); [by eexists _, w|]. destruct (_ =? 0); [by eexists _, w|]. destruct (accessible _ _ _ _) eqn:Hacc; [|by eexists _, w]. cbn [negb].
  destruct (size_pages (a1 c)) as (Esz & Hnw & _); [lia|].
  destruct (gives_call (host env) (eo_kernel env Henv) (memory w) "madvise" [HGuest (a0 c) (page_round_up (a1 c)) 0; HInt (page_round_up (a1 c)); HInt (s32 (a2 c))])
    with (k := {| km := memory w; klog := hlog w |}) as (a & k & E & [How _] & _); [|apply Hw|done|].
  { apply Forall_cons. split; [|by repeat constructor]. split; [lia|]. split; [|by right]. unfold GuestMemory.page_count in Esz. pose proof (Z.mul_div_le (a1 c + 4095) 4096). pose proof (Z.div_pos (a1 c + 4095) 4096). lia. }
  unfold mbind at 1, wm_bind at 1, host_call, in_kernel. rewrite E, exec_ret_bind. eexists _, _. split; [done|]. split; [|split; [|done]].
  - pose proof (world_kernel w k Hw How) as [K1 K2 K3 K4 K5 K6]. split; try done. by apply (inv_same _ _ _ _ K1); [..|apply K1|].
  - destruct Hg as (g & Eg & Hr). by exists g.
Qed.
End Memory.

(** ** The whole call *)

Section Whole.
Context {J : Type} `{JitControl J} `{!JitLaws J} (new_jit : J) (fresh : Registry J -> Z) (env : Env) (img : Image).
Context (Henv : env_ok env) (Hfresh : forall r, heap r !! fresh r = None) (t : Z) (rs : list Z) (i : Z).

(** What a case of the switch leaves: the registers of the caller are as before unless it
    ends or sigreturn replaced them. *)
Definition left_by (nr : Z) (f : flow) (w' : World J) : Prop :=
  match f with
  | FResult _ => has_caller t rs i w'
  | FNoResult => (nr = NR_sigreturn \/ nr = NR_rt_sigreturn) /\ exists rs', has_caller t rs' i w'
  | _ => exists rs', has_caller t rs' i w'
  end.

Definition handled (nr : Z) (c : wm flow (J := J)) : Prop :=
  forall w, world_inv w -> has_caller t rs i w -> exists f w', c w = Ret (f, w') /\ world_inv w' /\ left_by nr f w'.

Lemma handled_result nr (c : wm Z) Q : keeps t rs i c Q -> handled nr (result c).
Proof. intros Hc w Hw Hg. destruct (Hc w Hw Hg) as (a & w' & E & Hw' & Hg' & _). exists (FResult a), w'. unfold result, mbind, wm_bind. by rewrite E. Qed.

Lemma handled_keeps nr (c : wm flow) : keeps t rs i c (fun f => f <> FNoResult) -> handled nr c.
Proof. intros Hc w Hw Hg. destruct (Hc w Hw Hg) as (f & w' & E & Hw' & Hg' & Hf). exists f, w'. split; [done|]. split; [done|]. destruct f; cbn; by eauto. Qed.

Lemma keeps_request_exit status : keeps t rs i (request_exit status) (fun _ => True).
Proof. apply keeps_modify; [|done|done]. intros w []. by split. Qed.

Lemma handled_sigreturn nr rt : nr = NR_sigreturn \/ nr = NR_rt_sigreturn -> handled nr (sys_sigreturn t rt).
Proof.
  intros Hnr w Hw (g & Eg & Hr & Hi). destruct (sigreturn_inv g (memory w) rt) as (b & g' & E & Hg' & Eid); [by apply (wi_threads w Hw t)|].
  assert (world_inv (with_registry w (with_heap (registry w) (<[t:=g']> (heap (registry w)))))) as Hw'.
  { apply world_replaced; [done|]. by eapply replaced_insert; [apply Hw|..]. }
  unfold sys_sigreturn, mbind, wm_bind, caller, deref, asks, lift_exec, set_caller, modify. rewrite Eg, exec_ret_bind, E, exec_ret_bind. cbn.
  assert (forall f, registry f = with_heap (registry w) (<[t:=g']> (heap (registry w))) -> exists rs', has_caller t rs' i f) as Hc.
  { intros f Ef. exists (regs g'), g'. rewrite Ef. cbn. rewrite lookup_insert_eq. split; [done|]. split; [done|congruence]. }
  destruct b; cbn; eexists _, _; (split; [done|]); (split; [|first [by apply Hc|by split; [|apply Hc]]]); [done|]. destruct Hw'. by split.
Qed.

Lemma handled_exit nr c : handled nr (sys_exit t c).
Proof.
  apply handled_keeps. unfold sys_exit. keeps_step. intros g (Hg & Hr & Hi). keeps_step; [|intros _ _; by apply keeps_ret].
  apply keeps_set_caller; [|done..]. by apply (alike_inv g).
Qed.

Lemma handled_exit_group nr c : handled nr (sys_exit_group c).
Proof.
  apply handled_keeps. unfold sys_exit_group. eapply keeps_bind; [apply keeps_asks|]. intros reg _. apply keeps_if; intros _; [by apply keeps_ret|].
  eapply keeps_bind; [apply keeps_request_exit|]. intros _ _. by apply keeps_ret.
Qed.

(** Setting a field that the invariant does not speak about. *)
Lemma keeps_field (f : GuestThread J -> GuestThread J) (k : wm Z) :
  (forall g, alike g (f g) /\ processor_id_ (f g) = processor_id_ g) -> keeps t rs i k (fun _ => True) -> keeps t rs i (g ← caller t; _ ← set_caller t (f g); k) (fun _ => True).
Proof.
  intros Hf Hk. keeps_step. intros g (Hg & Hr & Hi). destruct (Hf g) as [Ha Hid]. eapply (keeps_bind t rs i _ (fun _ => True)); [|by intros _ _].
  apply keeps_set_caller; [by eapply alike_inv|destruct Ha as (_ & _ & _ & _ & ->); done|congruence|done].
Qed.

Lemma keeps_personality c : keeps t rs i (sys_personality c) (fun _ => True).
Proof.
  unfold sys_personality. eapply keeps_bind; [apply keeps_asks|]. intros v _. keeps_step; [|intros _ _; by apply keeps_ret].
  apply keeps_if; intros _; [by apply keeps_ret|]. apply keeps_modify; [|done|done]. intros w []. by split.
Qed.

Lemma stateful_handled :
  Forall (fun e => forall c, ctx_ok c -> handled (fst e) (snd e c)) (stateful_calls new_jit fresh env img t).
Proof.
  unfold stateful_calls. repeat (apply Forall_cons; split; [intros c Hc; cbn [fst snd] in *|]); [..|apply Forall_nil_2].
  - apply handled_exit.
  - apply handled_exit_group.
  - eapply handled_result, keeps_clone; done.
  - eapply handled_result, keeps_brk; done.
  - eapply handled_result, keeps_mmap2; done.
  - eapply handled_result, keeps_munmap; done.
  - eapply handled_result, keeps_mprotect; done.
  - eapply handled_result, keeps_madvise; done.
  - by apply handled_keeps, keeps_ret.
  - eapply handled_result, keeps_field; [done|by apply keeps_ret].
  - eapply (handled_result _ _ (fun _ => True)). unfold sys_get_tls. keeps_step. intros g _. by apply keeps_ret.
  - eapply handled_result, keeps_cacheflush.
  - eapply handled_result, keeps_field; [done|by apply keeps_guest_tid].
  - eapply handled_result, keeps_guest_tid; done.
  - eapply handled_result, keeps_sigaction; done.
  - eapply handled_result, keeps_sigprocmask; done.
  - eapply handled_result, keeps_sigaltstack; done.
  - eapply handled_result, keeps_send_signal; done.
  - eapply handled_result, keeps_send_signal; done.
  - eapply handled_result, keeps_send_signal; done.
  - apply handled_sigreturn. by right.
  - apply handled_sigreturn. by left.
  - eapply handled_result, keeps_personality.
  - eapply handled_result, keeps_tgsigqueueinfo; done.
  - eapply handled_result, keeps_sigpending; done.
Qed.

Lemma stateful_elem table nr (h : Ctx -> wm flow (J := J)) : stateful_of table nr = Some h -> (nr, h) ∈ table.
Proof.
  induction table as [|[n g] table IH]; cbn [stateful_of]; [done|]. destruct (Z.eqb_spec nr n) as [->|]; [intros [= ->]; by left|]. intros Hh. right. by apply IH.
Qed.

(** The call of [w] is a sendmsg with a control message that passes the check by wrapping. *)
Definition wrapping_sendmsg (nr : Z) (c : Ctx) (w : World J) : Prop := nr = NR_sendmsg /\ send_fits (memory w) c = false.

Lemma switch_handled nr c w :
  ctx_ok c -> world_inv w -> has_caller t rs i w ->
  (exists f w', switch new_jit fresh env img t nr c w = Ret (f, w') /\ world_inv w' /\ left_by nr f w') \/
  (wrapping_sendmsg nr c w /\ switch new_jit fresh env img t nr c w = Undefined).
Proof.
  intros Hc Hw Hg. unfold switch. destruct (stateful_of _ nr) as [h|] eqn:Eh.
  { apply stateful_elem in Eh. pose proof stateful_handled as Hall. rewrite Forall_forall in Hall. left. by apply (Hall _ Eh). }
  unfold host_syscall, mbind, wm_bind, asks. set (table := _ ++ _). destruct (handler_of table nr) as [h|] eqn:Ehost.
  - apply handler_of_elem in Ehost. pose proof (safe_tables (host env) (translate env img) (exe_path_ img) (proc w) (thread_count (registry w)) (initial_sp_ img) (memory w) (eo_kernel env Henv) (eo_recv env Henv)) as Hs.
    unfold safe_table in Hs. rewrite Forall_forall in Hs.
    destruct (Hs _ Ehost c Hc {| km := memory w; klog := hlog w |} (wi_memory w Hw) eq_refl) as (a & k & E & [How _] & _).
    left. unfold in_kernel. cbn [snd] in E. rewrite E, exec_ret_bind. eexists _, _. split; [done|]. split; [by apply world_kernel|]. destruct Hg as (g & Eg & Hr). by exists g.
  - destruct (Z.eqb_spec nr NR_sendmsg) as [->|Hne]; [|left; by eexists _, w].
    destruct (sendmsg_runs (host env) (memory w) c {| km := memory w; klog := hlog w |} (eo_kernel env Henv) Hc (wi_memory w Hw) eq_refl) as [(a & k & E & [How _])|[Hf E]].
    2: { right. split; [by split|]. unfold in_kernel. by rewrite E. }
    left. unfold in_kernel. rewrite E, exec_ret_bind. eexists _, _. split; [done|]. split; [by apply world_kernel|]. destruct Hg as (g & Eg & Hr). by exists g.
Qed.

Lemma arguments_ok (c : Ctx) nr l : Forall word_ok l -> arguments l = Ret (c, nr) -> ctx_ok c.
Proof.
  intros Hl E. unfold arguments in E. repeat (apply exec_bind_Ret in E as (? & ?E & E)). injection E as <- <-.
  assert (forall n v, vec_at l n = Ret v -> 0 <= v < 2 ^ 32) as Hv.
  { intros n v Ev. unfold vec_at in Ev. destruct (l !! n) eqn:En; [|done]. injection Ev as ->. eapply Forall_lookup_1 in En; [exact En|exact Hl]. }
  unfold ctx_ok. cbn. do 5 (split; [by eapply Hv|]). by eapply Hv.
Qed.
End Whole.

(** *** Numbers without a case *)

(** The labels of the switch. *)
Definition labels {J} `{Jit J} (new_jit : J) fresh env img t : list Z :=
  map fst (stateful_calls new_jit fresh env img t) ++
  map fst (host_calls_table (host env) (translate env img) [] Process_init 0 0 ++ message_calls (host env)) ++ [NR_sendmsg].

Lemma handler_of_None (table : syscall_table) nr : nr ∉ map fst table -> handler_of table nr = None.
Proof.
  induction table as [|[n h] table IH]; cbn [handler_of map fst]; [done|]. intros [Hne Hnot]%not_elem_of_cons. destruct (Z.eqb_spec nr n); [done|]. by apply IH.
Qed.

Lemma stateful_of_None {J} (table : list (Z * (Ctx -> wm flow (J := J)))) nr : nr ∉ map fst table -> stateful_of table nr = None.
Proof.
  induction table as [|[n h] table IH]; cbn [stateful_of map fst]; [done|]. intros [Hne Hnot]%not_elem_of_cons. destruct (Z.eqb_spec nr n); [done|]. by apply IH.
Qed.

Lemma switch_unknown {J} `{Jit J} (new_jit : J) fresh env img t nr c (w : World J) :
  nr ∉ labels new_jit fresh env img t -> switch new_jit fresh env img t nr c w = Ret (FResult (- ENOSYS), w).
Proof.
  unfold labels. rewrite !elem_of_app. intros Hnot. unfold switch. rewrite stateful_of_None by tauto. unfold host_syscall, mbind, wm_bind, asks.
  rewrite handler_of_None by (intros Hin; apply Hnot; right; left; exact Hin). destruct (Z.eqb_spec nr NR_sendmsg) as [->|]; [|done]. destruct Hnot. right. right. by left.
Qed.

(** A call with such a number. *)
Lemma handle_unknown {J} `{JitControl J} `{!JitLaws J} (new_jit : J) fresh env img (w : World J) t g c nr :
  env_ok env -> world_inv w -> heap (registry w) !! t = Some g -> arguments (regs g) = Ret (c, nr) -> nr ∉ labels new_jit fresh env img t ->
  exists w' g', handle_syscall new_jit fresh env img t w = Ret (Resumes, w') /\ memory w' = memory w /\
    registry w' = with_heap (registry w) (<[t:=g']> (heap (registry w))) /\ regs g' = <[0%nat := u32 (- ENOSYS)]> (regs g).
Proof.
  intros Henv Hw Eg Eargs Hnot. assert (has_caller t (regs g) (processor_id_ g) w) as Hc by by exists g.
  unfold handle_syscall. unfold mbind at 1, wm_bind at 1, caller at 1, deref. rewrite Eg, exec_ret_bind. unfold mbind at 1, wm_bind at 1, lift_exec at 1. rewrite Eargs, exec_ret_bind. cbv beta iota.
  destruct (guest_tid_run env Henv t _ _ w Hw Hc) as (x1 & w1 & E1 & Hw1 & Em1 & Er1). unfold mbind at 1, wm_bind at 1. rewrite E1. apply (has_caller_registry _ _ _ w w1 Er1) in Hc.
  destruct (guest_tid_run env Henv t _ _ w1 Hw1 Hc) as (x2 & w2 & E2 & Hw2 & Em2 & Er2). unfold mbind at 1, wm_bind at 1. rewrite E2.
  unfold mbind at 1, wm_bind at 1. rewrite switch_unknown by done. unfold mbind, wm_bind, caller, deref, lift_exec, set_caller, modify.
  rewrite Er2, Er1, Eg, exec_ret_bind, set_reg_run, exec_ret_bind by lia. eexists _, _. split; [done|]. split; [cbn; by rewrite <- Em1, <- Em2|]. split; [cbn; by rewrite Er2, Er1|].
  apply regs_set_regs. by rewrite length_insert, regs_length.
Qed.

(** *** Any number *)

Lemma handle_syscall_run {J} `{JitControl J} `{!JitLaws J} (new_jit : J) fresh env img (w : World J) t g c nr :
  env_ok env -> (forall r, heap r !! fresh r = None) -> world_inv w -> heap (registry w) !! t = Some g ->
  arguments (regs g) = Ret (c, nr) ->
  (wrapping_sendmsg nr c w /\ handle_syscall new_jit fresh env img t w = Undefined) \/
  exists o w', handle_syscall new_jit fresh env img t w = Ret (o, w') /\ world_inv w' /\
    exists g', heap (registry w') !! t = Some g' /\ processor_id_ g' = processor_id_ g /\
      (o = Resumes -> nr <> NR_sigreturn -> nr <> NR_rt_sigreturn -> exists res, 0 <= res < 2 ^ 32 /\ regs g' = <[0%nat := res]> (regs g)).
Proof.
  intros Henv Hfresh Hw Eg Eargs. assert (has_caller t (regs g) (processor_id_ g) w) as Hc by by exists g.
  assert (ctx_ok c) as Hctx by (eapply arguments_ok; [|exact Eargs]; apply (wi_threads w Hw t g Eg)).
  remember (handle_syscall new_jit fresh env img t w) as X eqn:EX. unfold handle_syscall in EX.
  unfold mbind at 1, wm_bind at 1, caller at 1, deref in EX. rewrite Eg, exec_ret_bind in EX. unfold mbind at 1, wm_bind at 1, lift_exec at 1 in EX. rewrite Eargs, exec_ret_bind in EX. cbv beta iota in EX.
  destruct (guest_tid_run env Henv t _ _ w Hw Hc) as (x1 & w1 & E1 & Hw1 & Em1 & Er1). unfold mbind at 1, wm_bind at 1 in EX. rewrite E1 in EX. apply (has_caller_registry _ _ _ w w1 Er1) in Hc.
  destruct (guest_tid_run env Henv t _ _ w1 Hw1 Hc) as (x2 & w2 & E2 & Hw2 & Em2 & Er2). unfold mbind at 1, wm_bind at 1 in EX. rewrite E2 in EX. apply (has_caller_registry _ _ _ w1 w2 Er2) in Hc.
  unfold mbind at 1, wm_bind at 1 in EX.
  destruct (switch_handled new_jit fresh env img Henv Hfresh t (regs g) (processor_id_ g) nr c w2) as [(f & w3 & E3 & Hw3 & Hl)|[Hwr E3]]; [done..| |]; rewrite E3 in EX; subst X.
  2: { left. split; [|done]. unfold wrapping_sendmsg in *. by rewrite <- Em1, <- Em2. }
  right. destruct f as [res| | |status]; cbn [left_by] in Hl.
  - destruct Hl as (g3 & Eg3 & Hr3 & Hi3). unfold mbind, wm_bind, caller, deref, lift_exec, set_caller, modify. rewrite Eg3, exec_ret_bind, set_reg_run, exec_ret_bind by lia.
    set (g4 := set_regs g3 _). assert (regs g4 = <[0%nat := u32 res]> (regs g3)) as E4 by (apply regs_set_regs; by rewrite length_insert, regs_length).
    eexists Resumes, _. split; [done|]. split.
    + apply world_replaced; [done|]. eapply replaced_insert; [apply Hw3|exact Eg3|done|]. destruct (wi_threads w3 Hw3 t g3 Eg3). split; try done. rewrite E4. apply Forall_insert; [done|apply u32_range].
    + exists g4. cbn. rewrite lookup_insert_eq. split; [done|]. split; [done|]. intros _ _ _. exists (u32 res). split; [apply u32_range|congruence].
  - destruct Hl as [Hnr (rs' & g3 & Eg3 & _ & Hi3)]. exists Resumes, w3. split; [done|]. split; [done|]. exists g3. split; [done|]. split; [done|]. tauto.
  - destruct Hl as (rs' & g3 & Eg3 & _ & Hi3). exists Ends, w3. split; [done|]. split; [done|]. by exists g3.
  - destruct Hl as (rs' & g3 & Eg3 & _ & Hi3). exists (HostExits status), w3. split; [done|]. split; [done|]. by exists g3.
Qed.

(** ** Claims *)

(** C2: handle_syscall answers every system call but one.  In a world that satisfies the
    invariant, whatever number and arguments the registers of a thread hold and whatever
    the host answers, the call returns (or ends the host process) and the invariant holds
    again: executable pages are eligible, page table and host protection agree, processor
    ids are exclusive and listed threads exist, every thread has a sound signal queue and
    a mask that blocks neither SIGKILL nor SIGSTOP.  When the thread goes on, r0 holds a
    32-bit result and every other register is as it was; only sigreturn replaces them.
    A number without a case gives -ENOSYS and changes nothing else of threads and memory.
    The exception is a sendmsg with a control message whose length passes the code's
    check by wrapping its 32-bit sum: there, and only there, the bridge may fault.
    Assumed of the host kernel: it stores only into buffers it was given to write,
    returns whole control messages, its errors are below 4096 ([env_ok]), and a mmap or
    mprotect it refuses changes nothing ([atomic]). *)
Theorem handle_syscall_sound {J} `{JitControl J} `{!JitLaws J} (new_jit : J) fresh env img (w : World J) t g c nr :
  env_ok env -> (forall r, heap r !! fresh r = None) -> world_inv w -> heap (registry w) !! t = Some g ->
  arguments (regs g) = Ret (c, nr) ->
  (wrapping_sendmsg nr c w /\ handle_syscall new_jit fresh env img t w = Undefined) \/
  exists o w', handle_syscall new_jit fresh env img t w = Ret (o, w') /\ world_inv w' /\
    exists g', heap (registry w') !! t = Some g' /\ processor_id_ g' = processor_id_ g /\
      (o = Resumes -> nr <> NR_sigreturn -> nr <> NR_rt_sigreturn -> exists res, 0 <= res < 2 ^ 32 /\ regs g' = <[0%nat := res]> (regs g)) /\
      (nr ∉ labels new_jit fresh env img t -> o = Resumes /\ regs g' = <[0%nat := u32 (- ENOSYS)]> (regs g) /\ memory w' = memory w /\
         forall p, p <> t -> heap (registry w') !! p = heap (registry w) !! p).
Proof.
  intros H1 H2 H3 H4 H5. destruct (handle_syscall_run new_jit fresh env img w t g c nr H1 H2 H3 H4 H5) as [?|(o & w' & E & Hw' & g' & Eg' & Hid & Hr)]; [by left|].
  right. exists o, w'. split; [done|]. split; [done|]. exists g'. split; [done|]. split; [done|]. split; [done|]. intros Hnot.
  destruct (handle_unknown new_jit fresh env img w t g c nr H1 H3 H4 H5 Hnot) as (w2 & g2 & E2 & Em & Ereg & Er). rewrite E in E2. injection E2 as -> <-.
  rewrite Ereg in Eg'. cbn in Eg'. rewrite lookup_insert_eq in Eg'. injection Eg' as <-. split; [done|]. split; [done|]. split; [done|].
  intros p Hp. rewrite Ereg. cbn. by rewrite lookup_insert_ne.
Qed.

(** ** Witnesses *)

#[local] Existing Instance sample_Jit.
#[local] Existing Instance sample_JitLaws.

#[local] Instance sample_JitControl : JitControl sample_jit.
Proof. by split. Qed.

Definition sample_env : Env :=
  {| host := sample_host; grants := fun _ _ => true; file_at := fun _ _ => 0; fs := fun _ => sample_fs; fd_header := fun _ _ => None; fd_link := fun _ _ => None;
     fd_marker := fun _ _ => false; fd_path := fun _ _ => []; mmap_errno := fun _ => 12; advised := fun _ _ => 0 |}.

Definition sample_image : Image := {| sysroot_ := []; exe_path_ := []; guest_library_roots_ := []; initial_sp_ := 0x11000; linker_start_ := 0; linker_end_ := 0 |}.

Lemma sample_env_ok : env_ok sample_env.
Proof. split; [apply sample_host_ok|apply sample_host_ok|]. intros log. cbn. lia. Qed.

(** An address no thread has. *)
Definition sample_fresh (r : Registry sample_jit) : Z := base.fresh (dom (heap r) : gset Z).

Lemma sample_fresh_ok r : heap r !! sample_fresh r = None.
Proof. apply not_elem_of_dom. exact (is_fresh (dom (heap r) : gset Z)). Qed.

(** A thread that makes the system call [nr] with arguments 7. *)
Definition sample_caller (nr : Z) : GuestThread sample_jit := set_regs (GuestThread_init (jit_ sample_thread) 0) (replicate 7 7 ++ [nr] ++ replicate 5 7 ++ [0x11000; 0; 0]).

Lemma sample_caller_inv nr : word_ok nr -> thread_inv (sample_caller nr).
Proof.
  intros Hnr. split.
  - split; cbn; [lia|done].
  - intros s j. unfold queued. cbn. rewrite Z.bits_0. by destruct (decide _).
  - apply Forall_replicate. split; [done|]. apply Forall_replicate. split; lia.
  - cbn. lia.
  - done.
  - repeat split; cbn; lia.
  - cbn. repeat (apply Forall_cons; split; [first [exact Hnr|split; cbn; lia]|]). apply Forall_nil_2.
Qed.

Definition sample_world (nr : Z) : World sample_jit :=
  {| proc := with_mem Process_init sample_memory; registry := with_heap (Steps.reg sample_registered) {[ 7 := sample_caller nr ]};
     sigactions := sample_actions; personality := 0; exiting_ := false; exit_status_ := 0; hlog := [] |}.

Lemma sample_world_inv nr : word_ok nr -> world_inv (sample_world nr).
Proof.
  intros Hnr. pose proof (sample_caller_inv nr Hnr) as Hg. split; cbn.
  - split; cbn; [done|done|by apply Forall_nil_2|lia|unfold kMmapLimit; lia].
  - apply sample_memory_wf.
  - done.
  - apply (replaced_registry (Steps.reg sample_registered)).
    + intros p. cbn. destruct (decide (p = 7)) as [->|Hne]; [by rewrite !lookup_singleton_eq|by rewrite !lookup_singleton_ne].
    + exists sample_registered. split; [|done]. eapply Steps.registry_reachable_inv; [apply Steps.registry_init_inv|apply sample_registered_reachable].
  - intros p g Hp. apply lookup_singleton_Some in Hp as [_ <-]. done.
  - apply sample_actions_ok.
Qed.

Lemma handle_syscall_sound_witness :
  exists o w' g', handle_syscall (jit_ sample_thread) sample_fresh sample_env sample_image 7 (sample_world 7) = Ret (o, w') /\ world_inv w' /\
    heap (registry w') !! 7 = Some g' /\ regs g' !! 0%nat = Some (2 ^ 32 - 38).
Proof.
  destruct (handle_syscall_sound (jit_ sample_thread) sample_fresh sample_env sample_image (sample_world 7) 7 (sample_caller 7) _ _
              sample_env_ok sample_fresh_ok (sample_world_inv 7 ltac:(split; lia)) eq_refl eq_refl) as [[[Hnr _] _]|(o & w' & E & Hw' & g' & Eg' & _ & _ & Hun)]; [discriminate|].
  exists o, w', g'. split; [exact E|]. split; [exact Hw'|]. split; [exact Eg'|]. destruct Hun as (_ & Er & _).
  - unfold labels. vm_compute. intros Hin. repeat (apply elem_of_cons in Hin as [Hin|Hin]; [discriminate|]). by apply not_elem_of_nil in Hin.
  - rewrite Er. reflexivity.
Defined.
