(* ===== verification/Dispatch.v ===== *)
(** * Stops

    [dispatch_stop], [fault_or_crash], [after_stop] and [thread_loop] of
    [core/src/process.cpp]: what the process does each time translated code stops, and
    the loop that runs a guest thread.  The lines for the log, the runtime report and the
    record of thread activity are left out.  [host_call_handler_], which the embedding
    program installs, is a parameter. *)

From stdpp Require Import numbers list gmap strings.
From S2P Require Import Prelude Bytes GuestMemory InitialStack GuestThread Signals ProcessMemory Kernel SyscallNumbers Syscalls Messages Threads HandleSyscall.
Local Open Scope Z_scope.

Definition kHostCallBase : Z := 0x5A0000.

Section Dispatch.
Context {J : Type} `{Jit J} (new_jit : J) (fresh : Registry J -> Z) (env : Env) (img : Image).
(** [None] when none was set; it answers whether it handled the index. *)
Context (host_call_handler_ : option (Z -> Z -> wm bool (J := J))).

(** [exit_host_process]. *)
Definition exit_host_process : wm outcome (J := J) := status ← asks exit_status_; mret (HostExits status).

(** [if (thread_count() > 1) exit_host_process(); return false]. *)
Definition end_or_exit : wm outcome (J := J) :=
  reg ← asks registry;
  if 1 <? thread_count reg then exit_host_process else mret Ends.

(** [deliver_fault] on the process; then the thread resumes or the process ends. *)
Definition fault_or_crash (t : Z) (stop : Stop) : wm outcome (J := J) :=
  g ← caller t;
  acts ← asks sigactions;
  m ← asks memory;
  '(ok, acts, g, m) ← lift_exec (deliver_fault acts g m stop);
  _ ← set_caller t g;
  _ ← modify (fun w => with_sigactions (with_proc w (with_mem (proc w) m)) acts);
  if (ok : bool) then mret Resumes
  else
    _ ← request_exit (128 + (if decide (kind stop = MemoryFault) then SIGSEGV else SIGILL));
    end_or_exit.

Definition set_r0 (t v : Z) : wm unit (J := J) := g ← caller t; g ← lift_exec (set_reg g 0 v); set_caller t g.

Definition illegal_stop (stop : Stop) : Stop :=
  {| kind := Exception; swi := 0; fault_addr := 0; fault_write := false; exception := UndefinedInstruction; pc := u32 (pc stop - 4) |}.

(** svc #0. *)
Definition dispatch_syscall (t : Z) : wm outcome (J := J) :=
  o ← handle_syscall new_jit fresh env img t;
  match o with
  | Resumes => mret Resumes
  | HostExits status => mret (HostExits status)
  | Ends =>
      exiting ← asks exiting_;
      g ← caller t;
      if negb exiting && (0 <? call_depth g) then _ ← request_exit 1; exit_host_process
      else
        reg ← asks registry;
        if exiting && (1 <? thread_count reg) then exit_host_process else mret Ends
  end.

(** svc #(0x5A0000 | index). *)
Definition dispatch_host_call (t index : Z) : wm outcome (J := J) :=
  handled ← match host_call_handler_ with Some h => h index t | None => mret false end;
  if (handled : bool) then exiting ← asks exiting_; mret (if (exiting : bool) then Ends else Resumes)
  else _ ← set_r0 t 0; mret Resumes.

Definition dispatch_stop (t : Z) (stop : Stop) : wm outcome (J := J) :=
  match kind stop with
  | Svc =>
      if swi stop =? 0 then dispatch_syscall t
      else if swi stop =? kHostReturnSwi then fault_or_crash t (illegal_stop stop)
      else if Z.land (swi stop) 0xFF0000 =? kHostCallBase then dispatch_host_call t (Z.land (swi stop) 0xFFFF)
      else _ ← set_r0 t (u32 (- ENOSYS)); mret Resumes
  | Interrupted => mret Resumes
  | MemoryFault | Exception => fault_or_crash t stop
  | SNone => _ ← request_exit 1; end_or_exit
  end.

(** Pending signals after a stop. *)
Definition after_stop (t : Z) : wm outcome (J := J) :=
  g ← caller t;
  if negb (has_pending_signals g (sigmask g)) then mret Resumes
  else
    acts ← asks sigactions;
    m ← asks memory;
    r ← lift_exec (dispatch_pending_signals acts g m);
    match r with
    | None => lift_exec Undefined
    | Some (status, acts, g, m) =>
        _ ← set_caller t g;
        _ ← modify (fun w => with_sigactions (with_proc w (with_mem (proc w) m)) acts);
        match status with
        | None => mret Resumes
        | Some status => _ ← request_exit status; end_or_exit
        end
    end.

Definition stop_step (t : Z) (stop : Stop) : wm outcome (J := J) :=
  o ← dispatch_stop t stop;
  match o with Resumes => after_stop t | _ => mret o end.

(** The loop of [thread_loop]: run translated code, then handle the stop.  [None] when the
    fuel runs out. *)
Context (jit_Run : GuestThread J -> GuestMemory -> Z * GuestThread J * GuestMemory).

Definition run_thread (fuel : nat) (t : Z) : wm (option Stop) (J := J) :=
  g ← caller t;
  m ← asks memory;
  r ← lift_exec (run jit_Run fuel g m);
  match r with
  | None => mret None
  | Some (stop, g, m) => _ ← set_caller t g; _ ← modify (fun w => with_proc w (with_mem (proc w) m)); mret (Some stop)
  end.

Fixpoint thread_loop (fuel : nat) (t : Z) : wm (option outcome) (J := J) :=
  match fuel with
  | O => mret None
  | S fuel =>
      stop ← run_thread (S fuel) t;
      match stop with
      | None => mret None
      | Some stop =>
          o ← stop_step t stop;
          match o with Resumes => thread_loop fuel t | _ => mret (Some o) end
      end
  end.
End Dispatch.

(** ** Calls that do not end the process *)

Section Quiet.
Context {J : Type} `{Jit J}.

(** The exit flag is as before. *)
Definition quiet {A} (c : wm A (J := J)) : Prop := forall w a w', c w = Ret (a, w') -> exiting_ w' = exiting_ w.

Lemma quiet_ret {A} (a : A) : quiet (mret a).
Proof. by intros w a' w' [= _ <-]. Qed.

Lemma wm_bind_Ret {A B} (c : wm A) (f : A -> wm B) (w : World J) b w' : (c ≫= f) w = Ret (b, w') -> exists a w1, c w = Ret (a, w1) /\ f a w1 = Ret (b, w').
Proof. unfold mbind, wm_bind. destruct (c w) as [[a w1]| |]; [|done..]. by exists a, w1. Qed.

Lemma quiet_bind {A B} (c : wm A) (f : A -> wm B) : quiet c -> (forall a, quiet (f a)) -> quiet (c ≫= f).
Proof.
  intros Hc Hf w b w' E. apply wm_bind_Ret in E as (a & w1 & Ec & E). by rewrite (Hf a w1 b w' E), (Hc w a w1 Ec).
Qed.

Lemma quiet_asks {A} (f : World J -> A) : quiet (asks f).
Proof. by intros w a w' [= _ <-]. Qed.

Lemma quiet_modify f : (forall w : World J, exiting_ (f w) = exiting_ w) -> quiet (modify f).
Proof. intros Hf w a w' [= _ <-]. apply Hf. Qed.

Lemma quiet_exec {A} (e : exec A) : quiet (lift_exec e).
Proof. intros w a w' E. apply exec_bind_Ret in E as (b & _ & E). by injection E as <- <-. Qed.

Lemma quiet_kernel {A} (c : sysm A) : quiet (in_kernel c).
Proof. intros w a w' E. apply exec_bind_Ret in E as ([b k] & _ & E). by injection E as <- <-. Qed.

Lemma quiet_process {A} (f : Process -> exec (A * Process)) : quiet (in_process f).
Proof. intros w a w' E. apply exec_bind_Ret in E as ([b p] & _ & E). apply exec_bind_Ret in E as (r & _ & E). by injection E as <- <-. Qed.

Lemma quiet_caller t : quiet (caller t).
Proof. intros w a w' E. apply exec_bind_Ret in E as (g & _ & E). by injection E as <- <-. Qed.

Lemma quiet_set_caller t g : quiet (set_caller t g).
Proof. by apply quiet_modify. Qed.
End Quiet.

Create HintDb quiet.
#[export] Hint Resolve quiet_ret quiet_asks quiet_exec quiet_kernel quiet_process quiet_caller quiet_set_caller : quiet.

Ltac quiet_step :=
  lazymatch goal with
  | |- quiet (_ ≫= _) => apply quiet_bind; [|intros ?]
  | |- quiet (modify _) => by apply quiet_modify
  | |- quiet (if ?b then _ else _) => destruct b
  | |- quiet (match ?x with _ => _ end) => destruct x
  | |- quiet (let _ := _ in _) => cbv zeta
  | |- _ => solve [auto with quiet]
  end.
Ltac quiet := repeat quiet_step.

Section QuietCalls.
Context {J : Type} `{Jit J} (new_jit : J) (fresh : Registry J -> Z) (env : Env) (img : Image) (t : Z).

Lemma sigreturn_quiet rt (w : World J) f w' : sys_sigreturn t rt w = Ret (f, w') -> f <> FStop -> exiting_ w' = exiting_ w.
Proof.
  intros E Hf. unfold sys_sigreturn in E. apply wm_bind_Ret in E as (g & w1 & E1 & E). apply wm_bind_Ret in E as (m & w2 & E2 & E).
  apply wm_bind_Ret in E as ([ok g'] & w3 & E3 & E). apply wm_bind_Ret in E as (u & w4 & E4 & E).
  apply quiet_caller in E1. apply quiet_asks in E2. apply quiet_exec in E3. apply quiet_set_caller in E4.
  destruct (negb ok); [by injection E as <- _|]. injection E as _ <-. congruence.
Qed.

Lemma quiet_host_call name args : quiet (host_call (J := J) env name args).
Proof. apply quiet_kernel. Qed.
Hint Resolve quiet_host_call : quiet.

(** Only exit_group and a sigreturn that fails set the flag, and they do not resume. *)
Lemma stateful_quiet :
  Forall (fun e => forall c, quiet (snd e c) \/ forall w f w', snd e c w = Ret (f, w') -> f = FNoResult \/ (exists r, f = FResult r) -> exiting_ w' = exiting_ w)
    (stateful_calls new_jit fresh env img t).
Proof.
  unfold stateful_calls. repeat (apply Forall_cons; split; [intros c; cbn [snd]|]); [..|apply Forall_nil_2].
  2: { right. intros w f w' E Hf. unfold sys_exit_group, mbind, wm_bind, asks in E. destruct (_ <? _); injection E as <- <-; destruct Hf as [?|[? ?]]; done. }
  20,21: right; intros w f w' E [->|[r ->]]; by eapply sigreturn_quiet.
  all: left; unfold result, sys_rt_tgsigqueueinfo, sys_exit, sys_clone, mm_brk, mm_mmap2, mm_munmap, mm_mprotect, mm_madvise, sys_set_tls, sys_get_tls, sys_cacheflush, sys_set_tid_address, guest_tid,
    sys_rt_sigaction, sys_rt_sigprocmask, sys_sigaltstack, sys_send_signal, sys_personality, sys_rt_sigpending; quiet.
Qed.
End QuietCalls.

(** ** Signals keep the invariant *)

Section Delivery.
Context {J : Type} `{JitControl J} `{!JitLaws J}.

Lemma set_reg_id (g g' : GuestThread J) n v : set_reg g n v = Ret g' -> processor_id_ g' = processor_id_ g.
Proof. intros E. apply exec_bind_Ret in E as (r & _ & E). by injection E as <-. Qed.

Lemma enter_handler_id (g g' : GuestThread J) act sig frame : enter_handler g act sig frame = Ret g' -> processor_id_ g' = processor_id_ g.
Proof.
  unfold enter_handler. cbv zeta. set (g0 := with_mask g _ _). intros E. apply exec_bind_Ret in E as (g1 & E1 & E). apply exec_bind_Ret in E as (g2 & E2 & E).
  apply exec_bind_Ret in E as (g3 & E3 & E). apply exec_bind_Ret in E as (g4 & E4 & E). apply exec_bind_Ret in E as (g5 & E5 & E). injection E as <-.
  assert (processor_id_ g2 = processor_id_ g1) as H2.
  { destruct (has_bits (flags act) kSaSiginfo); [|by injection E2 as <-]. apply exec_bind_Ret in E2 as (g1' & E2' & E2). apply set_reg_id in E2, E2'. congruence. }
  apply set_reg_id in E1, E3, E4, E5. cbn. rewrite E5, E4, E3, H2, E1. done.
Qed.

Lemma handler_regs_ok old act sig frame : Forall word_ok old -> action_ok act -> word_ok frame -> Forall word_ok (handler_regs old act sig frame).
Proof.
  intros Ho (Hh & _ & Hr & _) Hf. unfold handler_regs. cbv zeta. assert (word_ok 0) by (split; cbn; lia).
  apply Forall_insert; [|apply (land_range _ _ 32); [lia|exact Hh|apply u32_range]]. apply Forall_insert; [|by destruct (has_bits _ _)].
  apply Forall_insert; [|done]. destruct (has_bits _ _); repeat (apply Forall_insert; [|first [apply u32_range|done]]); done.
Qed.

(** Delivering a signal, on every branch. *)
Lemma deliver_inv acts (g : GuestThread J) m info forced :
  actions_ok acts -> thread_inv g -> mem_wf m -> info_ok info ->
  exists r acts' g' m', deliver_signal acts g m info forced = Ret (r, acts', g', m') /\ actions_ok acts' /\ thread_inv g' /\ processor_id_ g' = processor_id_ g /\ mem_wf m' /\ pages_ m' = pages_ m.
Proof.
  intros Hac Hg Hm Hi. destruct (decide (1 <= si_signo info <= 64)) as [Hs|Hs].
  2: { unfold deliver_signal. assert ((si_signo info <? 1) || (64 <? si_signo info) = true) as -> by lia. by exists true, acts, g, m. }
  destruct (action_at acts (si_signo info) Hac Hs) as (act & Ea & Hact). destruct (regs_sp g) as [sp Hsp].
  assert (length acts = 65%nat) as Hl by apply Hac. assert (word_ok (handler act)) as Hw by apply Hact. assert (0 <= sigmask g) as Hmask by apply Hg.
  pose proof (choose_action_fate acts g (si_signo info) forced act Hmask Hs Hl Ea Hw) as Hch.
  destruct (signal_fate act g (si_signo info) forced) as [| |act'] eqn:Ef.
  1,2: unfold deliver_signal; rewrite (proj2 (Z.ltb_ge (si_signo info) 1)), (proj2 (Z.ltb_ge 64 (si_signo info))) by lia;
    cbn [orb]; rewrite Hch, exec_ret_bind; by eexists _, acts, g, m.
  assert (act' = act) as -> by (unfold signal_fate in Ef; repeat case_match; congruence).
  pose proof (deliver_handle acts g m info forced act sp Hmask Hi Hm Hs Hl Ea Hw Ef Hsp) as Hd. cbv zeta in Hd. destruct (accessible m _ _ _).
  - destruct Hd as (uc & g' & m' & _ & E & Ee & Hcw & _). exists true, (after_action acts act (si_signo info)), g', m'. split; [done|]. split; [by apply after_action_ok|].
    pose proof (enter_handler_id _ _ _ _ _ Ee) as Hid.
    destruct (enter_handler_run g act (si_signo info) (frame_address g act sp)) as (g'' & Ee' & Hr & Hmask' & Halt & _ & _ & Hp1 & Hp2). rewrite Ee in Ee'. injection Ee' as <-.
    split; [|split; [done|split; [by eapply changes_within_wf|apply Hcw]]]. destruct Hg as [[H1 H1'] H2 H3 H4 H5 H6 H7]. split.
    + split; [by rewrite Hp1|by rewrite Hp2].
    + intros s j. unfold queued. rewrite Hp1, Hp2. apply H2.
    + by rewrite Hp2.
    + rewrite Hmask'. apply masked_range.
    + rewrite Hmask'. apply masked_unblockable.
    + by rewrite Halt.
    + rewrite Hr. apply handler_regs_ok; [done|done|apply frame_address_range].
  - eexists false, _, g, m. split; [done|]. split; [by apply after_action_ok|done].
Qed.

Lemma fault_inv acts (g : GuestThread J) m stop :
  actions_ok acts -> thread_inv g -> mem_wf m -> word_ok (fault_addr stop) -> word_ok (pc stop) ->
  exists r acts' g' m', deliver_fault acts g m stop = Ret (r, acts', g', m') /\ actions_ok acts' /\ thread_inv g' /\ processor_id_ g' = processor_id_ g /\ mem_wf m' /\ pages_ m' = pages_ m.
Proof.
  intros Hac Hg Hm Hf Hp. assert (forall v, word_ok v -> Forall word_ok (<[0%nat := v]> (replicate 29 0))) as Hw.
  { intros v Hv. apply Forall_insert; [|done]. apply Forall_replicate. split; lia. }
  unfold deliver_fault. destruct (decide _); [apply deliver_inv; [done..|]; split; [done|by apply Hw]|].
  rewrite set_reg_run, exec_ret_bind by lia. cbv zeta. set (g1 := set_regs g _).
  assert (regs g1 = <[15%nat := pc stop]> (regs g)) as Er by (apply regs_set_regs; by rewrite length_insert, regs_length).
  assert (thread_inv g1) as Hg1 by (destruct Hg; split; try done; rewrite Er; by apply Forall_insert).
  destruct (deliver_inv acts g1 m {| si_signo := if exception stop =? Breakpoint then SIGTRAP else SIGILL; si_errno := 0; si_code := if exception stop =? Breakpoint then TRAP_BRKPT else ILL_ILLOPC;
     fields := <[0%nat := pc stop]> (replicate 29 0) |} true Hac Hg1 Hm) as (r & acts' & g' & m' & E & H'); [split; [done|by apply Hw]|]. by exists r, acts', g', m'.
Qed.

(** Dispatching what is pending. *)
Lemma dispatch_inv fuel : forall acts (g : GuestThread J) m st acts' g' m',
  actions_ok acts -> thread_inv g -> mem_wf m -> dispatch_loop fuel acts g m = Ret (Some (st, acts', g', m')) ->
  actions_ok acts' /\ thread_inv g' /\ processor_id_ g' = processor_id_ g /\ mem_wf m' /\ pages_ m' = pages_ m.
Proof.
  induction fuel as [|fuel IH]; intros acts g m st acts' g' m' Hac Hg Hm E; [done|]. cbn [dispatch_loop] in E.
  destruct (take_signal_queue [] g (sigmask g) (ti_queue g Hg) (Forall_nil_2 _)) as (r & g1 & E1 & Hq1 & Hr1). pose proof (take_signal_same g (sigmask g) r g1 E1) as Hsame.
  unfold take_signal in E. rewrite E1, exec_ret_bind in E. cbv beta iota in E. destruct r as [info|].
  2: { destruct Hr1 as [-> _]. by injection E as <- <- <- <-. }
  assert (pending_info_ g1 = pending_info_ g /\ jit_ g1 = jit_ g) as [Ei Ej].
  { cbn [take_signal_loop] in E1. destruct (_ =? 0); [discriminate|]. apply exec_bind_Ret in E1 as (o & _ & E1). by injection E1 as _ <-. }
  destruct Hr1 as (sig & Hqs & _ & _ & Hq'). assert (info_ok info) as Hi.
  { unfold queued in Hqs. destruct (decide _); [|done]. destruct (Z.testbit _ _); [|done]. pose proof (ti_infos g Hg) as Hin. by eapply Forall_lookup_1 in Hin. }
  destruct Hsame as (Em & Ea & _ & _ & Eid & _). assert (thread_inv g1) as Hg1.
  { destruct Hg as [H1 H2 H3 H4 H5 H6 H7]. split; [done| |by rewrite Ei|by rewrite Em|by rewrite Em|by rewrite Ea|unfold regs; by rewrite Ej].
    intros s j. rewrite Hq'. destruct (decide (s = sig)); [done|]. apply H2. }
  destruct (deliver_inv acts g1 m info false Hac Hg1 Hm Hi) as (ok & acts2 & g2 & m2 & Ed & Hac2 & Hg2 & Hid2 & Hm2 & Hp2). rewrite Ed, exec_ret_bind in E. cbv beta iota in E.
  destruct (negb ok); [injection E as <- <- <- <-; split_and!; [done|done|congruence|done|done]|].
  destruct (IH _ _ _ _ _ _ _ Hac2 Hg2 Hm2 E) as (? & ? & ? & ? & ?). split_and!; [done|done|congruence|done|congruence].
Qed.
End Delivery.

(** ** Stops keep the invariant *)

Section Stops.
Context {J : Type} `{JitControl J} `{!JitLaws J} (new_jit : J) (fresh : Registry J -> Z) (env : Env) (img : Image).
Context (host_call_handler_ : option (Z -> Z -> wm bool (J := J))) (t : Z).
Context (Henv : env_ok env) (Hfresh : forall r, heap r !! fresh r = None).

(** The process runs: the invariant holds, thread [t] exists and no exit was requested. *)
Definition running (w : World J) : Prop := world_inv w /\ is_Some (heap (registry w) !! t) /\ exiting_ w = false.

(** How a stop leaves the process: it goes on with no exit requested; or the thread is
    over, and an exit of the process was requested only while it was the only one; or the
    host process ends. *)
Definition stop_left (o : outcome) (w : World J) : Prop :=
  match o with
  | Resumes => exiting_ w = false
  | Ends => exiting_ w = true -> thread_count (registry w) <= 1
  | HostExits _ => True
  end.

Definition stops (w : World J) (c : wm outcome (J := J)) : Prop :=
  exists o w', c w = Ret (o, w') /\ world_inv w' /\ is_Some (heap (registry w') !! t) /\ stop_left o w'.

(** The thread is at the one system call that may fault: a sendmsg with a control message
    that passes the check by wrapping ([handle_syscall_sound]). *)
Definition at_bad_send (stop : Stop) (w : World J) : Prop :=
  kind stop = Svc /\ swi stop = 0 /\
  exists g c, heap (registry w) !! t = Some g /\ arguments (regs g) = Ret (c, NR_sendmsg) /\ send_fits (memory w) c = false.

Definition stop_typed (stop : Stop) : Prop := word_ok (fault_addr stop) /\ word_ok (pc stop).

(** What the embedding program promises of its handler: it keeps the invariant and the
    thread; an index it does not know it leaves alone; it ends the process only from the
    only thread ([call_guest]). *)
Definition handler_ok : Prop :=
  forall h index w, host_call_handler_ = Some h -> running w ->
    exists b w', h index t w = Ret (b, w') /\ world_inv w' /\ is_Some (heap (registry w') !! t) /\
      (exiting_ w' = true -> b = true /\ thread_count (registry w') <= 1).
Context (Hhandler : handler_ok).

Lemma wm_bind_run {A B} (c : wm A) (f : A -> wm B) (w w' : World J) a : c w = Ret (a, w') -> (c ≫= f) w = f a w'.
Proof. intros E. unfold mbind, wm_bind. by rewrite E. Qed.

Lemma arguments_run (g : GuestThread J) : exists c nr, arguments (regs g) = Ret (c, nr).
Proof.
  assert (forall n, (n < 16)%nat -> exists v, vec_at (regs g) n = Ret v) as Hv.
  { intros n Hn. destruct (lookup_lt_is_Some_2 (regs g) n) as [v E]; [by rewrite regs_length|]. exists v. unfold vec_at. by rewrite E. }
  destruct (Hv 0%nat) as [v0 E0], (Hv 1%nat) as [v1 E1], (Hv 2%nat) as [v2 E2], (Hv 3%nat) as [v3 E3], (Hv 4%nat) as [v4 E4], (Hv 5%nat) as [v5 E5], (Hv 7%nat) as [v7 E7]; try lia.
  unfold arguments. rewrite E0, exec_ret_bind, E1, exec_ret_bind, E2, exec_ret_bind, E3, exec_ret_bind, E4, exec_ret_bind, E5, exec_ret_bind, E7, exec_ret_bind. by eexists _, _.
Qed.

Lemma end_or_exit_stops (w : World J) : world_inv w -> is_Some (heap (registry w) !! t) -> stops w end_or_exit.
Proof.
  intros Hw Ht. unfold stops, end_or_exit, exit_host_process, mbind, wm_bind, asks. destruct (Z.ltb_spec 1 (thread_count (registry w))); eexists _, w; (split; [done|]); (split; [done|]); (split; [done|]); cbn; [done|lia].
Qed.

Lemma request_exit_inv (w w' : World J) status u : request_exit status w = Ret (u, w') -> world_inv w -> world_inv w' /\ registry w' = registry w.
Proof. intros [= _ <-] []. by split. Qed.

Lemma request_then_end (w : World J) status : world_inv w -> is_Some (heap (registry w) !! t) -> stops w (_ ← request_exit status; end_or_exit).
Proof.
  intros Hw Ht. unfold stops. unfold mbind at 1, wm_bind at 1. destruct (request_exit status w) as [[u w1]| |] eqn:E; [|done..]. destruct (request_exit_inv _ _ _ _ E Hw) as [Hw1 Er].
  apply end_or_exit_stops; [done|by rewrite Er].
Qed.

(** Putting back a thread, the dispositions and the memory after a delivery. *)
Lemma delivered_inv (w : World J) g g' acts m :
  world_inv w -> heap (registry w) !! t = Some g -> actions_ok acts -> thread_inv g' -> processor_id_ g' = processor_id_ g -> mem_wf m -> pages_ m = pages_ (memory w) ->
  world_inv (with_sigactions (with_proc (with_registry w (with_heap (registry w) (<[t:=g']> (heap (registry w))))) (with_mem (proc w) m)) acts).
Proof.
  intros Hw Eg Hac Hg' Hid Hm Hp. assert (replaced (heap (registry w)) (<[t:=g']> (heap (registry w)))) as Hr by (by eapply replaced_insert; [apply Hw|..]).
  destruct (world_replaced w _ Hw Hr) as [K1 K2 K3 K4 K5 K6]. split; try done. by apply (inv_same _ (proc w)); [apply Hw|..|apply Hw|].
Qed.

Lemma fault_stops (w : World J) stop : running w -> stop_typed stop -> stops w (fault_or_crash t stop).
Proof.
  intros (Hw & [g Eg] & He) [Hf Hp].
  destruct (fault_inv (sigactions w) g (memory w) stop) as (ok & acts & g' & m & E & Hac & Hg' & Hid & Hm & Hpg); [apply Hw|by apply (wi_threads w Hw t)|apply Hw|done|done|].
  unfold stops, fault_or_crash. unfold mbind at 1, wm_bind at 1, caller, deref. rewrite Eg, exec_ret_bind. do 2 (unfold mbind at 1, wm_bind at 1, asks at 1).
  unfold mbind at 1, wm_bind at 1, lift_exec. rewrite E, exec_ret_bind. do 2 (unfold mbind at 1, wm_bind at 1; cbn [set_caller modify]).
  unfold set_caller, modify. pose proof (delivered_inv w g g' acts m Hw Eg Hac Hg' Hid Hm Hpg) as Hw'. set (w' := with_sigactions _ _) in *.
  assert (is_Some (heap (registry w') !! t)) as Ht by (cbn; rewrite lookup_insert_eq; eauto). destruct ok; [by exists Resumes, w'|]. by apply request_then_end.
Qed.

Lemma set_r0_run (w : World J) v : running w -> word_ok v -> exists w', set_r0 t v w = Ret (tt, w') /\ running w'.
Proof.
  intros (Hw & [g Eg] & He) Hv. unfold set_r0, mbind, wm_bind, caller, deref, lift_exec, set_caller, modify. rewrite Eg, exec_ret_bind, set_reg_run, exec_ret_bind by lia.
  eexists. split; [done|]. set (g' := set_regs g _). assert (regs g' = <[0%nat := v]> (regs g)) as Er by (apply regs_set_regs; by rewrite length_insert, regs_length).
  split; [|split; [cbn; rewrite lookup_insert_eq; eauto|done]]. apply world_replaced; [done|]. eapply replaced_insert; [apply Hw|exact Eg|done|].
  destruct (wi_threads w Hw t g Eg). split; try done. rewrite Er. by apply Forall_insert.
Qed.

Lemma handle_syscall_resumes (w w' : World J) : handle_syscall new_jit fresh env img t w = Ret (Resumes, w') -> exiting_ w' = exiting_ w.
Proof.
  unfold handle_syscall. intros E. apply wm_bind_Ret in E as (g & w1 & E1 & E). apply wm_bind_Ret in E as ([c nr] & w2 & E2 & E). apply wm_bind_Ret in E as (x & w3 & E3 & E).
  apply wm_bind_Ret in E as (y & w4 & E4 & E). apply wm_bind_Ret in E as (f & w5 & E5 & E).
  assert (quiet (guest_tid env t (J := J))) as Hq by (unfold guest_tid; quiet; apply quiet_kernel).
  apply quiet_caller in E1. apply quiet_exec in E2. apply Hq in E3, E4. assert (exiting_ w4 = exiting_ w) as E0 by congruence. clear Hq E1 E2 E3 E4.
  assert (f = FNoResult \/ (exists r, f = FResult r) -> exiting_ w5 = exiting_ w4) as Hsw.
  { unfold switch in E5. destruct (stateful_of _ nr) as [h|] eqn:Eh.
    - apply stateful_elem in Eh. pose proof (stateful_quiet new_jit fresh env img t) as Hall. rewrite Forall_forall in Hall. destruct (Hall _ Eh c) as [Hq|Hq]; [intros _; by eapply Hq|by apply Hq].
    - intros _. revert E5. apply quiet_bind; [|intros r; apply quiet_ret]. unfold host_syscall. apply quiet_bind; [apply quiet_asks|]. intros w0. quiet. }
  destruct f as [res| | |status]; [|injection E as <-; rewrite Hsw by (by left); done|done|done].
  assert (quiet (g ← caller t; g ← lift_exec (set_reg g 0 (u32 res)); _ ← set_caller t g; mret Resumes)) as Hq by quiet.
  apply Hq in E. rewrite E, Hsw by eauto. done.
Qed.

Lemma syscall_stops (w : World J) stop : running w -> kind stop = Svc -> swi stop = 0 ->
  stops w (dispatch_syscall new_jit fresh env img t) \/ (at_bad_send stop w /\ dispatch_syscall new_jit fresh env img t w = Undefined).
Proof.
  intros (Hw & [g Eg] & He) Hk Hs. destruct (arguments_run g) as (c & nr & Eargs).
  destruct (handle_syscall_run new_jit fresh env img w t g c nr Henv Hfresh Hw Eg Eargs) as [[[-> Hf] E]|(o & w1 & E & Hw1 & g1 & Eg1 & _)].
  { right. split; [split; [done|]; split; [done|]; by exists g, c|]. unfold dispatch_syscall, mbind, wm_bind. by rewrite E. }
  left.
  unfold stops, dispatch_syscall. unfold mbind at 1, wm_bind at 1. rewrite E. assert (is_Some (heap (registry w1) !! t)) as Ht by eauto. destruct o as [| |status].
  - exists Resumes, w1. split; [done|]. split; [done|]. split; [done|]. cbn. by rewrite (handle_syscall_resumes w w1 E).
  - unfold mbind at 1, wm_bind at 1, asks at 1. unfold mbind at 1, wm_bind at 1, caller, deref. rewrite Eg1, exec_ret_bind. destruct (negb (exiting_ w1) && _) eqn:Eb.
    + unfold mbind at 1, wm_bind at 1. destruct (request_exit 1 w1) as [[u w2]| |] eqn:E2; [|done..]. destruct (request_exit_inv _ _ _ _ E2 Hw1) as [Hw2 Er].
      eexists _, w2. split; [done|]. split; [done|]. by rewrite Er.
    + unfold mbind at 1, wm_bind at 1, asks at 1. destruct (exiting_ w1 && (1 <? _)) eqn:Ex; [by eexists _, w1|].
      exists Ends, w1. split; [done|]. split; [done|]. split; [done|]. cbn. intros Hex. rewrite Hex in Ex. cbn in Ex. lia.
  - by exists (HostExits status), w1.
Qed.

Lemma host_call_stops (w : World J) index : running w -> stops w (dispatch_host_call host_call_handler_ t index).
Proof.
  intros Hrun. assert (exists b w1, match host_call_handler_ with Some h => h index t | None => mret false end w = Ret (b, w1) /\ world_inv w1 /\ is_Some (heap (registry w1) !! t) /\
    (exiting_ w1 = true -> b = true /\ thread_count (registry w1) <= 1)) as (b & w1 & E & Hw1 & Ht1 & Hx).
  { destruct host_call_handler_ as [h|] eqn:Eh; [by apply (Hhandler h index w)|]. exists false, w. destruct Hrun as (? & ? & ->). by split_and!. }
  unfold stops, dispatch_host_call. unfold mbind at 1, wm_bind at 1. rewrite E. destruct b.
  - unfold mbind, wm_bind, asks. destruct (exiting_ w1) eqn:Ex; [|by exists Resumes, w1]. exists Ends, w1. split; [done|]. split; [done|]. split; [done|]. cbn. intros _. by apply Hx.
  - destruct (exiting_ w1) eqn:Ex; [by destruct (Hx eq_refl)|]. destruct (set_r0_run w1 0) as (w2 & E2 & Hw2 & Ht2 & He2); [by split|split; cbn; lia|].
    unfold mbind, wm_bind. rewrite E2. by exists Resumes, w2.
Qed.

Lemma dispatch_stops (w : World J) stop :
  running w -> stop_typed stop ->
  stops w (dispatch_stop new_jit fresh env img host_call_handler_ t stop) \/
  (at_bad_send stop w /\ dispatch_stop new_jit fresh env img host_call_handler_ t stop w = Undefined).
Proof.
  intros Hrun Hs. unfold dispatch_stop. destruct (kind stop) eqn:Ek.
  - left. apply request_then_end; apply Hrun.
  - destruct (Z.eqb_spec (swi stop) 0) as [E0|]; [by apply syscall_stops|]. left. destruct (_ =? kHostReturnSwi).
    { apply fault_stops; [done|]. split; [split; cbn; lia|apply u32_range]. }
    destruct (_ =? kHostCallBase); [by apply host_call_stops|]. destruct (set_r0_run w (u32 (- ENOSYS)) Hrun) as (w1 & E1 & Hw1 & Ht1 & He1); [apply u32_range|].
    unfold stops, mbind, wm_bind. rewrite E1. by exists Resumes, w1.
  - left. by apply fault_stops.
  - left. by apply fault_stops.
  - left. exists Resumes, w. destruct Hrun as (? & ? & ?). by split_and!.
Qed.

Lemma after_stops (w : World J) : running w -> stops w (after_stop t).
Proof.
  intros (Hw & [g Eg] & He). assert (thread_inv g) as Hg by by apply (wi_threads w Hw t). unfold stops, after_stop. unfold mbind at 1, wm_bind at 1, caller, deref. rewrite Eg, exec_ret_bind.
  destruct (negb _); [exists Resumes, w; split; [done|]; split; [done|]; split; [by eexists|done]|]. do 2 (unfold mbind at 1, wm_bind at 1, asks at 1).
  destruct (dispatch_loop_total 65 (sigactions w) g (memory w)) as (st & acts & g' & m & E & _ & _).
  { split; try apply Hg; apply Hw. }
  { pose proof (queue_length_bound g). unfold queue_length. lia. }
  destruct (dispatch_inv 65 _ _ _ _ _ _ _ (wi_actions w Hw) Hg (wi_memory w Hw) E) as (Hac & Hg' & Hid & Hm & Hpg).
  unfold mbind at 1, wm_bind at 1, lift_exec at 1, dispatch_pending_signals. rewrite E, exec_ret_bind. do 2 (unfold mbind at 1, wm_bind at 1; cbn [set_caller modify]).
  unfold set_caller, modify. pose proof (delivered_inv w g g' acts m Hw Eg Hac Hg' Hid Hm Hpg) as Hw'. set (w' := with_sigactions _ _) in *.
  assert (is_Some (heap (registry w') !! t)) as Ht by (cbn; rewrite lookup_insert_eq; eauto). destruct st as [st|]; [by apply request_then_end|by exists Resumes, w'].
Qed.

Lemma step_stops (w : World J) stop :
  running w -> stop_typed stop ->
  stops w (stop_step new_jit fresh env img host_call_handler_ t stop) \/
  (at_bad_send stop w /\ stop_step new_jit fresh env img host_call_handler_ t stop w = Undefined).
Proof.
  intros Hrun Hs. destruct (dispatch_stops w stop Hrun Hs) as [(o & w1 & E & Hw1 & Ht1 & Hl)|[Hbad E]].
  2: { right. split; [done|]. unfold stop_step, mbind, wm_bind. by rewrite E. }
  left. unfold stops, stop_step. unfold mbind at 1, wm_bind at 1. rewrite E.
  destruct o as [| |status]; [by apply after_stops; split|by exists Ends, w1|by exists (HostExits status), w1].
Qed.

(** *** Running translated code *)

Context (jit_Run : GuestThread J -> GuestMemory -> Z * GuestThread J * GuestMemory).

(** What a run of the JIT may do: what its callbacks allow ([guest_access_checked]), with
    registers and a recorded stop of their types. *)
Definition jit_ok : Prop :=
  forall g m, thread_inv g -> mem_wf m ->
    let '(_, g', m') := jit_Run g m in
    thread_inv g' /\ processor_id_ g' = processor_id_ g /\ only_writable m m' /\ stop_typed (pending_ g').
Context (Hjit : jit_ok).

Lemma clear_alike (g : GuestThread J) v : alike g (with_jit g (ClearHalt v (jit_ g))).
Proof. repeat split. apply Regs_clear. Qed.

Definition ran (g g' : GuestThread J) (m m' : GuestMemory) : Prop :=
  thread_inv g' /\ processor_id_ g' = processor_id_ g /\ only_writable m m' /\ stop_typed (pending_ g').

Lemma run_loop_ran fuel : forall g m g' m', thread_inv g -> mem_wf m -> run_loop jit_Run fuel g m = Some (g', m') -> ran g g' m m'.
Proof.
  induction fuel as [|fuel IH]; intros g m g' m' Hg Hm E; [done|]. cbn [run_loop] in E. specialize (Hjit g m Hg Hm). destruct (jit_Run g m) as [[reason g1] m1].
  destruct Hjit as (Hg1 & Hid1 & How1 & Hst1). set (g2 := with_jit g1 (ClearHalt (Z.lor kStopHalt kMemoryAbortHalt) (jit_ g1))) in *.
  assert (thread_inv g2) as Hg2 by (eapply alike_inv; [apply clear_alike|done]). assert (regs g2 = regs g1) as Er2 by apply Regs_clear. destruct (bool_decide _ && has_bits reason kInterruptHalt).
  { injection E as <- <-. split; [eapply alike_inv; [|exact Hg2]; repeat split; apply Regs_clear|]. split; [done|]. by split. }
  destruct (bool_decide _ && has_bits reason CacheInvalidation).
  - destruct (IH g2 m1 g' m' Hg2) as (H1 & H2 & H3 & H4); [by eapply only_writable_wf|done|]. split; [done|]. split; [rewrite H2; exact Hid1|]. split; [by eapply only_writable_trans|done].
  - injection E as <- <-. by split_and!.
Qed.

Lemma run_ran fuel g m : thread_inv g -> mem_wf m ->
  run jit_Run fuel g m = Ret None \/ exists stop g' m', run jit_Run fuel g m = Ret (Some (stop, g', m')) /\ thread_inv g' /\ processor_id_ g' = processor_id_ g /\ only_writable m m' /\
    stop_typed stop.
Proof.
  intros Hg Hm. unfold run. destruct (run_loop jit_Run fuel (with_pending g Stop_init) m) as [[g' m']|] eqn:E; [|by left]. right.
  apply run_loop_ran in E as (Hg' & Hid & How & Hst); [|by apply (alike_inv g)|done]. destruct (decide (kind (pending_ g') = Exception)); [by exists (pending_ g'), g', m'|].
  destruct (lookup_lt_is_Some_2 (regs g') 15) as [r15 E15]; [rewrite regs_length; lia|]. unfold vec_at. rewrite E15, exec_ret_bind.
  eexists _, g', m'. split; [done|]. split; [done|]. split; [done|]. split; [done|]. split; [apply Hst|]. cbn. pose proof (ti_regs g' Hg') as Hr. by eapply Forall_lookup_1 in Hr.
Qed.

Lemma run_thread_runs fuel (w : World J) : running w ->
  exists s w', run_thread jit_Run fuel t w = Ret (s, w') /\ running w' /\
    match s with None => True | Some stop => stop_typed stop end.
Proof.
  intros (Hw & [g Eg] & He). unfold run_thread. unfold mbind at 1, wm_bind at 1, caller, deref. rewrite Eg, exec_ret_bind. unfold mbind at 1, wm_bind at 1, asks at 1.
  unfold mbind at 1, wm_bind at 1, lift_exec. destruct (run_ran fuel g (memory w)) as [E|(stop & g' & m' & E & Hg' & Hid & How & Hst)]; [by apply (wi_threads w Hw t)|apply Hw|..]; rewrite E, exec_ret_bind.
  { exists None, w. split; [done|]. split; [split; [done|split; [by eexists|done]]|done]. }
  unfold mbind, wm_bind, set_caller, modify. eexists (Some stop), _. split; [done|]. split; [split; [|split; [cbn; rewrite lookup_insert_eq; eauto|done]]|done].
  pose proof (delivered_inv w g g' (sigactions w) m' Hw Eg (wi_actions w Hw) Hg' Hid) as Hw'. destruct Hw' as [K1 K2 K3 K4 K5 K6]; [by eapply only_writable_wf; [|apply Hw]|apply How|]. by split.
Qed.

End Stops.

(** ** Fatal faults *)

(** The signal of a fault, and the status a fatal one ends the process with. *)
Definition fault_signal (stop : Stop) : Z :=
  if decide (kind stop = MemoryFault) then SIGSEGV else if exception stop =? Breakpoint then SIGTRAP else SIGILL.
Definition fatal_status (stop : Stop) : Z := 128 + (if decide (kind stop = MemoryFault) then SIGSEGV else SIGILL).

(** The fault cannot be handled: no handler, blocked, or no room for the frame. *)
Definition fatal {J} `{Jit J} (w : World J) (g : GuestThread J) (act : ksigaction32) (sp sig : Z) : bool :=
  negb (1 <? handler act) || Z.testbit (sigmask g) (sig - 1) || negb (accessible (memory w) (frame_address g act sp) (frame_size act) kPageWrite).

Section Faults.
Context {J : Type} `{JitControl J} `{!JitLaws J}.

Lemma fault_signal_cases stop : fault_signal stop = SIGSEGV \/ fault_signal stop = SIGTRAP \/ fault_signal stop = SIGILL.
Proof. unfold fault_signal. destruct (decide _); [by left|]. destruct (_ =? _); auto. Qed.

(** Delivering the signal of a fault. *)
Lemma forced_delivery acts (g : GuestThread J) m info act sp :
  actions_ok acts -> thread_inv g -> mem_wf m -> info_ok info -> (si_signo info = SIGSEGV \/ si_signo info = SIGTRAP \/ si_signo info = SIGILL) ->
  acts !! Z.to_nat (si_signo info) = Some act -> regs g !! 13%nat = Some sp ->
  let sig := si_signo info in
  if negb (1 <? handler act) || Z.testbit (sigmask g) (sig - 1) || negb (accessible m (frame_address g act sp) (frame_size act) kPageWrite)
  then exists acts', deliver_signal acts g m info true = Ret (false, acts', g, m)
  else exists acts' g' m', deliver_signal acts g m info true = Ret (true, acts', g', m') /\ regs g' = handler_regs (regs g) act sig (frame_address g act sp) /\
         sigmask g' = handler_mask g act sig.
Proof.
  intros Hac Hg Hm Hi Hs Ea Hsp sig. assert (1 <= sig <= 64) as Hr by (unfold sig, SIGSEGV, SIGTRAP, SIGILL in *; lia).
  assert (length acts = 65%nat) as Hl by apply Hac. destruct (action_at acts sig Hac Hr) as (act' & Ea' & Hact). fold sig in Ea. rewrite Ea in Ea'. injection Ea' as <-.
  assert (word_ok (handler act)) as Hw by apply Hact. assert (0 <= sigmask g) as Hmask by apply Hg.
  assert (signal_fate act g sig true = if decide (1 < handler act) then (if Z.testbit (sigmask g) (sig - 1) then Kill else Handle act) else Kill) as Hf.
  { unfold signal_fate. rewrite decide_False by (unfold sig, SIGKILL, SIGSTOP, SIGSEGV, SIGTRAP, SIGILL in *; lia). by destruct (decide (1 < handler act)). }
  pose proof (choose_action_fate acts g sig true act Hmask Hr Hl Ea Hw) as Hch. rewrite Hf in Hch.
  assert (signal_fate act g sig true = Kill -> exists acts', deliver_signal acts g m info true = Ret (false, acts', g, m)) as Hkill.
  { intros Ek. rewrite Hf in Ek. rewrite Ek in Hch. exists acts. unfold deliver_signal. fold sig. rewrite (proj2 (Z.ltb_ge sig 1)), (proj2 (Z.ltb_ge 64 sig)) by lia. cbn [orb]. by rewrite Hch, exec_ret_bind. }
  destruct (Z.ltb_spec 1 (handler act)) as [Hh|Hh]; cbn [negb orb]; [|apply Hkill; by rewrite Hf, decide_False by lia].
  rewrite decide_True in Hf by lia. destruct (Z.testbit (sigmask g) (sig - 1)) eqn:Eb; [by apply Hkill|]. cbn [orb].
  pose proof (deliver_handle acts g m info true act sp Hmask Hi Hm Hr Hl Ea Hw Hf Hsp) as Hd. cbv zeta in Hd. destruct (accessible m _ _ _); cbn [negb]; [|by eexists].
  destruct Hd as (uc & g' & m' & _ & E & Ee & _). eexists _, g', m'. split; [exact E|].
  destruct (enter_handler_run g act sig (frame_address g act sp)) as (g'' & Ee' & Hregs & Hmask' & _). unfold sig in Ee'. rewrite Ee in Ee'. by injection Ee' as <-.
Qed.
(** [deliver_fault] is a forced delivery of [fault_signal]. *)
Lemma deliver_fault_forced acts (g : GuestThread J) m stop sp :
  thread_inv g -> stop_typed stop -> regs g !! 13%nat = Some sp ->
  exists g1 info, deliver_fault acts g m stop = deliver_signal acts g1 m info true /\ si_signo info = fault_signal stop /\ info_ok info /\ thread_inv g1 /\
    regs g1 !! 13%nat = Some sp /\ altstack g1 = altstack g /\ sigmask g1 = sigmask g.
Proof.
  intros Hg [Hf Hp] Hsp. assert (forall v, word_ok v -> Forall word_ok (<[0%nat := v]> (replicate 29 0))) as Hw.
  { intros v Hv. apply Forall_insert; [|done]. apply Forall_replicate. split; lia. }
  unfold deliver_fault, fault_signal. destruct (decide _); [eexists g, _; split; [done|]; split; [done|]; split; [split; [done|by apply Hw]|done]|].
  rewrite set_reg_run, exec_ret_bind by lia. cbv zeta. set (g1 := set_regs g _).
  assert (regs g1 = <[15%nat := pc stop]> (regs g)) as Er by (apply regs_set_regs; by rewrite length_insert, regs_length).
  eexists g1, _. split; [done|]. split; [done|]. split; [split; [done|by apply Hw]|]. split; [destruct Hg; split; try done; rewrite Er; by apply Forall_insert|].
  split; [by rewrite Er, list_lookup_insert_ne|done].
Qed.

Lemma handler_regs_entry old act sig frame : length old = 16%nat ->
  handler_regs old act sig frame !! 0%nat = Some (u32 sig) /\ handler_regs old act sig frame !! 15%nat = Some (Z.land (handler act) (u32 (Z.lnot 1))).
Proof.
  intros Hl. unfold handler_regs. cbv zeta. split.
  - rewrite !list_lookup_insert_ne by lia. destruct (has_bits _ _); rewrite ?list_lookup_insert_ne by lia; apply list_lookup_insert_eq; lia.
  - apply list_lookup_insert_eq. rewrite !length_insert. destruct (has_bits _ _); rewrite !length_insert; lia.
Qed.
End Faults.

(** ** Claims *)

(** A round of the loop after which the thread goes on. *)
Definition goes_on {J} `{Jit J} (new_jit : J) fresh env img host_call_handler_ jit_Run t (w w' : World J) : Prop :=
  exists n stop w0, run_thread jit_Run n t w = Ret (Some stop, w0) /\ stop_step new_jit fresh env img host_call_handler_ t stop w0 = Ret (Resumes, w').

(** C3: The loop of a guest thread never goes wrong, but for one system call.  Start from a
    process that satisfies the invariant of [handle_syscall_sound] with no exit requested.
    If each run of the JIT does only what its callbacks allow, then after any number of
    stops (system calls, host calls, faults, interrupts, and the signals pending after
    each) the invariant holds again; the loop goes on only while no exit was requested;
    and when the thread is over with an exit of the process requested, it is the only
    guest thread: otherwise the host process has been ended.  The exception is a guest
    that, after any number of such rounds, makes a sendmsg with a control message whose
    length passes the code's check by wrapping: there the bridge may fault.  Assumed: the
    host kernel as in [handle_syscall_sound], and a host call handler that keeps the
    invariant and the thread ([handler_ok]). *)
Theorem thread_loop_sound {J} `{JitControl J} `{!JitLaws J} (new_jit : J) fresh env img host_call_handler_ jit_Run t fuel (w : World J) :
  env_ok env -> (forall r, heap r !! fresh r = None) -> handler_ok host_call_handler_ t -> jit_ok jit_Run -> running t w ->
  (exists r w', thread_loop new_jit fresh env img host_call_handler_ jit_Run fuel t w = Ret (r, w') /\ world_inv w' /\
    match r with None => True | Some o => o <> Resumes /\ stop_left o w' end) \/
  (thread_loop new_jit fresh env img host_call_handler_ jit_Run fuel t w = Undefined /\
   exists n stop w1 w2, rtc (goes_on new_jit fresh env img host_call_handler_ jit_Run t) w w1 /\
     run_thread jit_Run n t w1 = Ret (Some stop, w2) /\ at_bad_send t stop w2).
Proof.
  intros Henv Hfresh Hh Hj. revert w. induction fuel as [|fuel IH]; intros w Hrun; cbn [thread_loop]; [left; exists None, w; split; [done|]; by split; [apply Hrun|]|].
  destruct (run_thread_runs t jit_Run Hj (S fuel) w Hrun) as (s & w1 & E1 & Hrun1 & Hs). rewrite (wm_bind_run _ _ _ _ _ E1).
  destruct s as [stop|]; [|left; exists None, w1; split; [done|]; by split; [apply Hrun1|]].
  destruct (step_stops new_jit fresh env img host_call_handler_ t Henv Hfresh Hh w1 stop Hrun1 Hs) as [(o & w2 & E2 & Hw2 & Ht2 & Hl)|[Hbad E2]].
  - rewrite (wm_bind_run _ _ _ _ _ E2).
    destruct o as [| |status]; [|left; exists (Some Ends), w2; by split_and!|left; exists (Some (HostExits status)), w2; by split_and!].
    destruct (IH w2) as [IHr|(E & n & stop' & w3 & w4 & Hr & Hw)]; [by split|by left|right]. split; [done|]. exists n, stop', w3, w4. split; [|done].
    eapply rtc_l; [|exact Hr]. by exists (S fuel), stop, w1.
  - right. split; [unfold mbind, wm_bind; by rewrite E2|]. exists (S fuel), stop, w, w1. split; [apply rtc_refl|done].
Qed.

(** A fault either enters the guest's handler or ends the process.  It enters the
    handler, with the signal number in r0 and the handler's address in the program counter,
    exactly when there is one, the signal is not blocked and its frame can be written;
    otherwise the exit status is 128 plus SIGSEGV for a memory fault and 128 plus SIGILL for
    any exception, a breakpoint included (whose signal is SIGTRAP), and the host process
    ends if other guest threads are alive. *)
Theorem fault_or_crash_exact {J} `{JitControl J} `{!JitLaws J} (w : World J) t g act sp stop :
  world_inv w -> heap (registry w) !! t = Some g -> stop_typed stop -> regs g !! 13%nat = Some sp -> sigactions w !! Z.to_nat (fault_signal stop) = Some act ->
  exists o w', fault_or_crash t stop w = Ret (o, w') /\
    if fatal w g act sp (fault_signal stop) then
      exiting_ w' = true /\ exit_status_ w' = fatal_status stop /\ o = (if 1 <? thread_count (registry w) then HostExits (fatal_status stop) else Ends)
    else
      o = Resumes /\ exiting_ w' = exiting_ w /\ exists g', heap (registry w') !! t = Some g' /\ regs g' !! 0%nat = Some (fault_signal stop) /\
        regs g' !! 15%nat = Some (Z.land (handler act) (u32 (Z.lnot 1))) /\ sigmask g' = handler_mask g act (fault_signal stop).
Proof.
  intros Hw Eg Hst Hsp Ea. destruct (deliver_fault_forced (sigactions w) g (memory w) stop sp) as (g1 & info & E & Es & Hi & Hg1 & Hsp1 & Halt & Hmask); [by apply (wi_threads w Hw t)|done|done|].
  rewrite <- Es in Ea. pose proof (forced_delivery (sigactions w) g1 (memory w) info act sp (wi_actions w Hw) Hg1 (wi_memory w Hw) Hi) as Hd. rewrite Es in Hd, Ea.
  specialize (Hd (fault_signal_cases stop) Ea Hsp1). cbv zeta in Hd. replace (frame_address g1 act sp) with (frame_address g act sp) in Hd by (unfold frame_address; by rewrite Halt).
  rewrite Hmask in Hd. fold (fatal w g act sp (fault_signal stop)) in Hd.
  unfold fault_or_crash. unfold mbind at 1, wm_bind at 1, caller, deref. rewrite Eg, exec_ret_bind. do 2 (unfold mbind at 1, wm_bind at 1, asks at 1). unfold mbind at 1, wm_bind at 1, lift_exec. rewrite E.
  destruct (fatal w g act sp (fault_signal stop)).
  - destruct Hd as (acts' & ->). rewrite exec_ret_bind. unfold end_or_exit, exit_host_process, mbind, wm_bind, set_caller, request_exit, modify, asks. cbn [registry with_sigactions with_proc with_registry].
    change (thread_count (with_heap (registry w) (<[t:=g1]> (heap (registry w))))) with (thread_count (registry w)). fold (fatal_status stop). destruct (1 <? thread_count (registry w)); by eexists _, _.
  - destruct Hd as (acts' & g' & m' & -> & Er & Em). rewrite exec_ret_bind. unfold mbind, wm_bind, set_caller, modify. eexists Resumes, _. split; [done|]. split; [done|]. split; [done|].
    exists g'. cbn. rewrite lookup_insert_eq. split; [done|]. destruct (handler_regs_entry (regs g1) act (fault_signal stop) (frame_address g act sp) (regs_length g1)) as [Er0 Er15].
    rewrite Er, Er0, Er15. split; [|split; [done|]].
    + f_equal. apply u32_small. destruct (fault_signal_cases stop) as [->|[->| ->]]; unfold SIGSEGV, SIGTRAP, SIGILL; lia.
    + rewrite Em. unfold handler_mask. by rewrite Hmask.
Qed.

(** ** Witnesses *)

#[local] Existing Instance sample_Jit.
#[local] Existing Instance sample_JitLaws.
#[local] Existing Instance sample_JitControl.

(** Translated code that makes the system call exit at once. *)
Definition exiting_run (g : GuestThread sample_jit) (m : GuestMemory) : Z * GuestThread sample_jit * GuestMemory :=
  (kStopHalt, with_pending (set_regs g (<[7%nat := NR_exit]> (regs g)))
                {| kind := Svc; swi := 0; fault_addr := 0; fault_write := false; exception := 0; pc := 0 |}, m).

Lemma exiting_run_ok : jit_ok exiting_run.
Proof.
  intros g m Hg Hm. unfold exiting_run. set (g1 := set_regs g _). assert (regs g1 = <[7%nat := NR_exit]> (regs g)) as Er by (apply regs_set_regs; by rewrite length_insert, regs_length).
  split; [|split; [done|split; [apply only_writable_refl|split; split; cbn; lia]]].
  destruct Hg. split; try done. change (Forall word_ok (regs g1)). rewrite Er. apply Forall_insert; [done|split; unfold NR_exit; lia].
Qed.

Lemma thread_loop_sound_witness :
  exists r w', thread_loop (jit_ sample_thread) sample_fresh sample_env sample_image None exiting_run 5 7 (sample_world 1) = Ret (r, w') /\ world_inv w' /\
    match r with None => True | Some o => o <> Resumes /\ stop_left o w' end.
Proof.
  destruct (thread_loop_sound (jit_ sample_thread) sample_fresh sample_env sample_image None exiting_run 7 5 (sample_world 1) sample_env_ok sample_fresh_ok) as [Hr|[E _]];
    [discriminate|exact exiting_run_ok|split; [apply sample_world_inv; split; lia|]; split; [eexists; reflexivity|reflexivity]|exact Hr|].
  assert (match thread_loop (jit_ sample_thread) sample_fresh sample_env sample_image None exiting_run 5 7 (sample_world 1) with Undefined => false | _ => true end = true) as Hc by (vm_compute; reflexivity).
  rewrite E in Hc. discriminate.
Defined.

(** A write to a page that is not there, with no handler for SIGSEGV. *)
Definition sample_fault : Stop := {| kind := MemoryFault; swi := 0; fault_addr := 0x20000; fault_write := true; exception := 0; pc := 0x8000 |}.

Lemma fault_or_crash_exact_witness : exists o w', fault_or_crash 7 sample_fault (sample_world 1) = Ret (o, w') /\ o = Ends /\ exit_status_ w' = 139.
Proof.
  destruct (fault_or_crash_exact (sample_world 1) 7 (sample_caller 1) ksigaction32_init 0x11000 sample_fault) as (o & w' & E & Hf);
    [apply sample_world_inv; split; lia|reflexivity|split; split; cbn; lia|reflexivity|reflexivity|].
  exists o, w'. split; [exact E|]. destruct Hf as (_ & Es & Eo). split; [exact Eo|exact Es].
Defined.
