(* ===== verification/Startup.v ===== *)
(** * Starting a process

    The first half of [Process::run] ([core/src/process.cpp]): load the executable and its
    dynamic linker, map the stack and the page of kernel user helpers, build the initial
    stack and make the main thread.  What follows it is [Dispatch.thread_loop].

    What the host knows ([Launch]) is a parameter: the files by path, the file system, the
    ids, the random bytes, the tid of the host thread and the address of the new thread. *)

From stdpp Require Import numbers list gmap strings.
From S2P Require Import Prelude Bytes GuestMemory ElfLoader InitialStack GuestThread Signals ProcessMemory Kernel ProcFiles Syscalls Messages Paths Threads HandleSyscall Dispatch.
Local Open Scope Z_scope.

Definition kExecutableLimit : Z := 0x40000000.
Definition kGuestHwcap : Z :=
  fold_right Z.lor 0 (map (Z.shiftl 1) [1; 2; 4; 6; 7; 12; 13; 15; 16; 17; 18; 19; 20]).

(** ** Kernel user helpers *)

Definition kKuserHostReturn : list Z := [0xef5affff].
Definition kKuserMemoryBarrier : list Z := [0xe12fff1e].
Definition kKuserCmpxchg : list Z := [0xe1923f9f; 0xe0533000; 0x01823f91; 0x03330001; 0x0afffffa; 0xe2730000; 0xe12fff1e].
Definition kKuserGetTls : list Z := [0xee1d0f70; 0xe12fff1e].
Definition kKuserHelperVersion : Z := 3.

(** The words put on the page, by offset. *)
Definition kuser_words : list (Z * list Z) :=
  [(0xfa0, kKuserMemoryBarrier); (0xfc0, kKuserCmpxchg); (0xfe0, kKuserGetTls); (0xf00, kKuserHostReturn); (0xffc, [kKuserHelperVersion])].

Fixpoint put_words (m : GuestMemory) (ws : list (Z * list Z)) : exec GuestMemory :=
  match ws with
  | [] => Ret m
  | (offset, words) :: ws => m ← host_write m (kKuserPage + offset) (Signals.words_bytes words); put_words m ws
  end.

Section Startup.
Context {J : Type} `{Jit J} (new_jit : J).
Context (grants : nat -> host_request -> bool) (file_at : Z -> Z -> Z).

Definition map_kuser_page (m : GuestMemory) : exec (bool * GuestMemory) :=
  '(ok, m) ← map_anon grants file_at m kKuserPage kPageSize (Z.lor PROT_READ PROT_WRITE);
  if negb ok then Ret (false, m)
  else m ← put_words m kuser_words; protect grants m kKuserPage kPageSize (Z.lor PROT_READ PROT_EXEC).

Record Launch := {
  l_path : list Z;
  l_argv : list (list Z);
  l_envp : list (list Z);
  l_sysroot : list Z;
  l_fs : FileSystem;
  l_files : list Z -> file_result;
  l_uid : Z; l_euid : Z; l_gid : Z; l_egid : Z;
  l_random : option (list Z);
  l_tid : Z;
  l_main : Z;
}.

Context (l : Launch).

(** The auxiliary vector. *)
Definition auxv_of (exe : LoadedElf) (interp_base : Z) : list AuxEntry :=
  map (fun e => {| type := fst e; value := snd e |})
    [(3, phdr exe); (4, 32); (5, phnum exe); (6, kPageSize); (7, interp_base); (8, 0); (9, entry exe); (11, u32 (l_uid l)); (12, u32 (l_euid l));
     (13, u32 (l_gid l)); (14, u32 (l_egid l)); (16, kGuestHwcap); (26, 0); (17, 100); (23, 0)].

(** The dynamic linker, when the executable names one: its base, its entry and its range. *)
Definition load_interp (p : Process) (exe_path : list Z) (exe : LoadedElf) : exec (option (Process * Z * Z * Z * Z)) :=
  if bool_decide (interp exe = []) then Ret (Some (p, 0, entry exe, 0, 0))
  else
    let interp_path := Paths.translate_path (l_fs l) (l_sysroot l) exe_path (interp exe) in
    '(r, m) ← load_elf grants file_at (mem_ p) (l_files l interp_path) kMmapLimit;
    match r with
    | inl _ => Ret None
    | inr i => Ret (Some (record_file_mapping (with_mem p m) (load_start i) (u32 (load_end i - load_start i)) (u32 (load_start i - bias i)) interp_path true,
                          bias i, entry i, load_start i, load_end i))
    end.

Definition set_brk (p : Process) (b : Z) : Process :=
  {| mem_ := mem_ p; brk_start := b; brk_current := b; mmap_limit := mmap_limit p; exec_eligible_ := exec_eligible_ p; file_mappings_ := file_mappings_ p;
     textrel_ranges_ := textrel_ranges_ p; invalidated := invalidated p |}.

(** The main thread, with the first free processor id. *)
Definition main_thread (processor_id sp start_pc : Z) : exec (GuestThread J) :=
  let g := GuestThread_init new_jit processor_id in
  let g := set_regs g (replicate 16 0) in
  g ← set_reg g 13 sp;
  g ← set_reg g 15 (Z.land start_pc (u32 (Z.lnot 1)));
  let g := set_cpsr g (Z.lor kCpsrUserMode (if has_bits start_pc 1 then kCpsrThumb else 0)) in
  Ret (with_tid g (l_tid l)).

(** [None] when [run] returns 1 before the thread exists. *)
Definition run_setup (p : Process) : exec (option (World J * Image)) :=
  if negb (ok (mem_ p)) then Ret None
  else
    let exe_path := default (l_path l) (realpath (l_fs l) (l_path l)) in
    '(r, m) ← load_elf grants file_at (mem_ p) (l_files l (l_path l)) kExecutableLimit;
    match r with
    | inl _ => Ret None
    | inr exe =>
        let p := record_file_mapping (with_mem p m) (load_start exe) (u32 (load_end exe - load_start exe)) (u32 (load_start exe - bias exe)) exe_path true in
        loaded ← load_interp p exe_path exe;
        match loaded with
        | None => Ret None
        | Some (p, interp_base, start_pc, linker_start, linker_end) =>
            '(ok, m) ← map_anon grants file_at (mem_ p) (kStackTop - kStackSize) kStackSize (Z.lor PROT_READ PROT_WRITE);
            if negb ok then Ret None
            else
              '(ok, m) ← map_kuser_page m;
              if negb ok then Ret None
              else
                let p := set_brk (with_mem p m) (load_end exe) in
                '(sp, m) ← build_initial_stack (mem_ p) kStackTop (l_argv l) (l_envp l) (auxv_of exe interp_base) exe_path (l_random l);
                if sp =? 0 then Ret None
                else
                  let '(id, ids) := allocate_processor_id (replicate kMaxThreads false) in
                  g ← main_thread id sp start_pc;
                  let reg := register_thread {| heap := {[ l_main l := g ]}; threads_ := []; borrowers_ := []; processor_ids_ := ids |} (l_main l) in
                  Ret (Some
                    ({| proc := with_mem p m; registry := reg; sigactions := replicate 65 ksigaction32_init; personality := 0; exiting_ := false; exit_status_ := 0; hlog := [] |},
                     {| sysroot_ := l_sysroot l; exe_path_ := exe_path; guest_library_roots_ := library_roots (l_envp l); initial_sp_ := sp;
                        linker_start_ := linker_start; linker_end_ := linker_end |}))
        end
    end.
End Startup.

(** ** The kuser page *)

(** The words of [ws] are on the page. *)
Definition words_at (m : GuestMemory) (ws : list (Z * list Z)) : Prop := Forall (fun e => holds m (kKuserPage + fst e) (Signals.words_bytes (snd e))) ws.

(** The byte range of an entry. *)
Definition in_entry (e : Z * list Z) (x : Z) : Prop := kKuserPage + fst e <= x < kKuserPage + fst e + 4 * Z.of_nat (length (snd e)).

Fixpoint separate (ws : list (Z * list Z)) : Prop :=
  match ws with
  | [] => True
  | e :: ws => Forall (fun e' => fst e + 4 * Z.of_nat (length (snd e)) <= fst e' \/ fst e' + 4 * Z.of_nat (length (snd e')) <= fst e) ws /\ separate ws
  end.

Lemma put_words_run ws : forall m,
  mem_wf m -> accessible m kKuserPage 4096 kPageWrite = true -> Forall (fun e => 0 <= fst e /\ (0 < length (snd e))%nat /\ fst e + 4 * Z.of_nat (length (snd e)) <= 4096) ws -> separate ws ->
  exists m', put_words m ws = Ret m' /\ changes_within m m' kKuserPage (kKuserPage + 4096) /\ words_at m' ws /\
    forall x, Forall (fun e => ~ in_entry e x) ws -> bytes_ m' x = bytes_ m x.
Proof.
  induction ws as [|[o words] ws IH]; intros m Hm Hacc Hr Hs; cbn [put_words].
  { exists m. split; [done|]. split; [by split_and!|]. split; [apply Forall_nil_2|done]. }
  apply Forall_cons in Hr as [Ho Hr]. destruct Hs as [Hsep Hs]. cbn [fst snd] in *.
  assert (size (Signals.words_bytes words) = 4 * Z.of_nat (length words)) as Esz by (unfold size; rewrite Signals.words_bytes_length; lia).
  destruct (write_accessible m (kKuserPage + o) (Signals.words_bytes words)) as (m1 & E1 & Hch & Hh); [done|unfold kKuserPage; lia|unfold kKuserPage in *; lia| |].
  { rewrite Esz. apply (accessible_sub m kKuserPage 4096); [unfold kKuserPage; lia|lia|done|lia..]. }
  rewrite Esz in Hch. rewrite E1, exec_ret_bind. pose proof Hch as (Hb & Hp & _ & Hy).
  destruct (IH m1) as (m2 & E2 & Hch2 & Hw2 & Hy2); [by eapply changes_within_wf|by rewrite (accessible_same m)|done|done|].
  exists m2. split; [done|]. split; [|split].
  - eapply changes_within_trans; [exact Hch|exact Hch2|lia..].
  - apply Forall_cons. split; [|done]. cbn [fst snd]. eapply Signals.holds_same; [exact Hh|]. intros x Hx. apply Hy2. rewrite Esz in Hx. eapply Forall_impl; [exact Hsep|].
    intros [o' w'] Hd. unfold in_entry. cbn in *. lia.
  - intros x [Hx Hxs]%Forall_cons. rewrite Hy2 by done. apply Hy. unfold in_entry in Hx. cbn in Hx. lia.
Qed.

Lemma words_at_stable m m' lo hi ws : changes_within m m' lo hi -> hi <= kKuserPage -> Forall (fun e => 0 <= fst e) ws -> words_at m ws -> words_at m' ws.
Proof.
  intros Hch Hhi Hpos Hw. unfold words_at in *. rewrite Forall_forall in *. intros e He. eapply holds_stable; [by apply Hw|exact Hch|]. specialize (Hpos e He). lia.
Qed.

(** What the helpers promise: their words, on a page the guest reads and executes but does
    not write. *)
Definition kuser_ready (m : GuestMemory) : Prop :=
  words_at m kuser_words /\ pages_ m (kKuserPage / 4096) = flags_from_prot (Z.lor PROT_READ PROT_EXEC).

Section Facts.
Context (grants : nat -> host_request -> bool) (file_at : Z -> Z -> Z).

Lemma map_kuser_run m : mem_wf m -> exists b m', map_kuser_page grants file_at m = Ret (b, m') /\ mem_wf m' /\ (b = true -> kuser_ready m').
Proof.
  intros Hm. unfold map_kuser_page. set (o := OpMapAnon kKuserPage kPageSize (Z.lor PROT_READ PROT_WRITE)).
  change (map_anon grants file_at m kKuserPage kPageSize (Z.lor PROT_READ PROT_WRITE)) with (mem_step grants file_at m o).
  destruct (mem_step_cases grants file_at m o) as [(m1 & E & _ & (_ & Hp & _) & Hwf)|(m1 & E & (_ & Hp & _ & Hh) & _)]; [vm_compute; split; [discriminate|reflexivity]|vm_compute; split; discriminate| |];
    rewrite E, exec_ret_bind; cbv beta iota; cbn [negb].
  2: { exists false, m1. split; [done|]. split; [|done]. intros i. by rewrite Hp, Hh. }
  specialize (Hwf Hm). assert (pages_ m1 (kKuserPage / 4096) = flags_from_prot (Z.lor PROT_READ PROT_WRITE)) as Hpg.
  { rewrite Hp, decide_True; [done|]. vm_compute. split; [discriminate|reflexivity]. }
  destruct (put_words_run kuser_words m1 Hwf) as (m2 & E2 & Hch & Hw & _).
  - apply accessible_pages; [unfold kKuserPage; lia..|]. right. split; [unfold kKuserPage; lia|]. intros i Hi.
    change ((kKuserPage + 4096 - 1) / 4096) with (kKuserPage / 4096) in Hi. replace i with (kKuserPage / 4096) by lia. unfold page_has. by rewrite Hpg.
  - repeat (apply Forall_cons; split; [cbn; lia|]). apply Forall_nil_2.
  - repeat (split; [repeat (apply Forall_cons; split; [cbn; lia|]); apply Forall_nil_2|]). done.
  - rewrite E2, exec_ret_bind. assert (mem_wf m2) as Hm2 by by eapply changes_within_wf. rewrite protect_run; [|vm_compute; split; [discriminate|reflexivity]|vm_compute; split; discriminate].
    eexists _, _. split; [apply (f_equal Ret), surjective_pairing|]. destruct (ok m2 && _ && _); [destruct (grants _ _)|]; cbn [fst snd]; (split; [|done]); try done.
    apply reprotected_wf; [done|apply page_ok_prot].
Qed.

(** A loaded file, as far as starting needs it. *)
Definition loaded_ok (e : LoadedElf) : Prop := 0 <= load_start e < load_end e /\ load_end e < 2 ^ 32 /\ word_ok (entry e).

Lemma load_elf_run m file limit : mem_wf m -> file_ok file -> 0 <= limit < 2 ^ 32 ->
  exists r m', load_elf grants file_at m file limit = Ret (r, m') /\ mem_wf m' /\ match r with inl _ => True | inr e => loaded_ok e end.
Proof.
  intros Hm Hf Hl. unfold load_elf. destruct file as [|sz|data]; [by eexists _, m|by eexists _, m|]. destruct (Z.ltb_spec (512 * 1024 * 1024) (size data)); [by eexists _, m|].
  destruct (load_data_ok grants file_at m data limit) as (r & m' & E & Hwf & Hr); [done..|lia|]. exists r, m'. split; [done|]. split; [done|]. destruct r as [e|out]; [done|].
  destruct Hr as (eh & phdrs & _ & _ & _ & _ & _ & _ & _ & _ & _ & _ & H1 & H2 & _ & _ & _ & He & _). split; [done|]. split; [done|]. rewrite He.
  apply (lor_range _ _ 32); [lia|apply u32_range|]. change 1 with (Z.ones 1). rewrite Z.land_ones by lia. pose proof (Z.mod_pos_bound (e_entry eh) (2 ^ 1)). lia.
Qed.
End Facts.

(** ** The first world *)

Record launch_ok (l : Launch) : Prop := {
  lo_files : forall path, file_ok (l_files l path);
  lo_argv : Forall (fun s => size s < 2 ^ 31) (l_argv l);
  lo_envp : Forall (fun s => size s < 2 ^ 31) (l_envp l);
  lo_path : size (default (l_path l) (realpath (l_fs l) (l_path l))) < 2 ^ 31;
  lo_random : forall bs, l_random l = Some bs -> length bs = 16%nat;
}.

(** A process before [run]; [reserved] is whether its address space was obtained. *)
Definition new_process (reserved : bool) : Process := with_mem Process_init (GuestMemory_init reserved).

(** What the records of a process are while [run] sets it up. *)
Definition untouched (p : Process) : Prop :=
  exec_eligible_ p = (fun _ => true) /\ textrel_ranges_ p = [] /\ mmap_limit p = kMmapLimit /\ invalidated p = [].

Lemma untouched_record p m start length offset path : untouched p -> untouched (record_file_mapping (with_mem p m) start length offset path true).
Proof. intros (H1 & H2 & H3 & H4). split; [done|]. split; [cbn; by rewrite H2|done]. Qed.

Section Main.
Context {J : Type} `{JitControl J} `{!JitLaws J} (new_jit : J).

Lemma main_thread_run (l : Launch) id sp start_pc : word_ok sp -> word_ok start_pc ->
  exists g, main_thread new_jit l id sp start_pc = Ret g /\ thread_inv g /\ processor_id_ g = id /\
    regs g = <[15%nat := Z.land start_pc (u32 (Z.lnot 1))]> (<[13%nat := sp]> (replicate 16 0)).
Proof.
  intros Hsp Hpc. unfold main_thread. rewrite set_reg_run, exec_ret_bind by lia. set (g1 := set_regs (set_regs _ _) _).
  assert (regs g1 = <[13%nat := sp]> (replicate 16 0)) as E1.
  { unfold g1. rewrite regs_set_regs by (rewrite length_insert; apply regs_length). by rewrite regs_set_regs. }
  rewrite set_reg_run, exec_ret_bind by lia. set (g2 := set_regs g1 _). assert (regs g2 = <[15%nat := Z.land start_pc (u32 (Z.lnot 1))]> (<[13%nat := sp]> (replicate 16 0))) as E2.
  { unfold g2. rewrite regs_set_regs by (rewrite length_insert; apply regs_length). by rewrite E1. }
  eexists. split; [done|]. assert (forall g' c tid, regs (with_tid (set_cpsr g' c) tid) = regs g') as Er by (intros; apply Regs_cpsr). rewrite Er, E2. split; [|done]. split.
  - split; cbn; [lia|done].
  - intros s j. unfold queued. cbn. rewrite Z.bits_0. by destruct (decide _).
  - apply Forall_replicate. split; [done|]. apply Forall_replicate. split; lia.
  - cbn. lia.
  - done.
  - repeat split; cbn; lia.
  - rewrite Er, E2. apply Forall_insert; [|apply (land_range _ _ 32); [lia|exact Hpc|apply u32_range]]. apply Forall_insert; [|done]. apply Forall_replicate. split; lia.
Qed.

(** The registry with the main thread alone. *)
Lemma main_registry (g : GuestThread J) p : processor_id_ g = 0 ->
  exists s, Steps.inv s /\ Steps.reg s = register_thread {| heap := {[ p := g ]}; threads_ := []; borrowers_ := []; processor_ids_ := <[0%nat:=true]> (replicate kMaxThreads false) |} p.
Proof.
  intros Hid. set (r := register_thread _ p). exists {| Steps.reg := r; Steps.reserved := []; Steps.built := []; Steps.unlisted := []; Steps.freed := []; Steps.retired := [] |}. split; [|done].
  eapply Steps.registry_reachable_inv; [apply Steps.registry_init_inv|]. eapply rtc_l; [eapply (Steps.step_allocate Steps.init 0); [reflexivity|lia]|].
  eapply rtc_l; [apply (Steps.step_construct _ p g); [reflexivity|rewrite Hid; left]|]. eapply rtc_l; [apply (Steps.step_register _ p); left|].
  cbn -[Steps.drop_one allocate_processor_id]. rewrite Hid. unfold Steps.drop_one. rewrite !filter_cons, !decide_False by tauto. apply rtc_refl.
Qed.
End Main.

(** What a start leaves: the process runs with the main thread alone; its stack pointer is
    aligned and points to the initial stack, its program counter is even; the helpers are
    on their page. *)
Definition started {J} `{Jit J} (l : Launch) (w : World J) (img : Image) : Prop :=
  world_inv w /\ exiting_ w = false /\ threads_ (registry w) = [l_main l] /\ borrowers_ (registry w) = [] /\
  (exists g pc, heap (registry w) !! l_main l = Some g /\ regs g = <[15%nat := pc]> (<[13%nat := initial_sp_ img]> (replicate 16 0)) /\ Z.even pc = true) /\
  initial_sp_ img mod 16 = 0 /\
  (exists auxv, stack_built (HandleSyscall.memory w) (initial_sp_ img) (l_argv l) (l_envp l) auxv (exe_path_ img) (l_random l)) /\
  kuser_ready (HandleSyscall.memory w).

Section Setup.
Context {J : Type} `{JitControl J} `{!JitLaws J} (new_jit : J) (grants : nat -> host_request -> bool) (file_at : Z -> Z -> Z) (l : Launch) (Hl : launch_ok l).

Lemma load_interp_run p exe_path exe : mem_wf (mem_ p) -> untouched p -> loaded_ok exe ->
  exists r, load_interp grants file_at l p exe_path exe = Ret r /\
    match r with None => True | Some (p', base, start_pc, ls, le) => mem_wf (mem_ p') /\ untouched p' /\ word_ok start_pc end.
Proof.
  intros Hm Hu He. unfold load_interp. destruct (bool_decide _); [eexists; split; [done|]; split; [done|]; split; [done|apply He]|].
  set (path := Paths.translate_path _ _ _ _). destruct (load_elf_run grants file_at (mem_ p) (l_files l path) kMmapLimit Hm (lo_files l Hl path)) as (r & m' & E & Hm' & Hr); [unfold kMmapLimit; lia|].
  rewrite E, exec_ret_bind. destruct r as [e|i]; [by eexists|]. eexists. split; [done|]. split; [exact Hm'|]. split; [by apply untouched_record|apply Hr].
Qed.

Lemma even_clear pc : Z.even (Z.land pc (u32 (Z.lnot 1))) = true.
Proof. rewrite <- Z.negb_odd, <- Z.bit0_odd, Z.land_spec. change (Z.testbit (u32 (Z.lnot 1)) 0) with false. by rewrite andb_false_r. Qed.

(** From a mapped stack and the helpers to the main thread. *)
Lemma finish_setup p exe interp_base start_pc ls le exe_path :
  mem_wf (mem_ p) -> untouched p -> loaded_ok exe -> word_ok start_pc -> kuser_ready (mem_ p) -> size exe_path < 2 ^ 31 ->
  exists sp m, build_initial_stack (mem_ p) kStackTop (l_argv l) (l_envp l) (auxv_of l exe interp_base) exe_path (l_random l) = Ret (sp, m) /\
    (sp <> 0 -> exists g, main_thread new_jit l 0 sp start_pc = Ret g /\
       started l {| proc := with_mem (set_brk p (load_end exe)) m;
                    registry := register_thread {| heap := {[ l_main l := g ]}; threads_ := []; borrowers_ := []; processor_ids_ := <[0%nat:=true]> (replicate kMaxThreads false) |} (l_main l);
                    sigactions := replicate 65 ksigaction32_init; personality := 0; exiting_ := false; exit_status_ := 0; hlog := [] |}
         {| sysroot_ := l_sysroot l; exe_path_ := exe_path; guest_library_roots_ := library_roots (l_envp l); initial_sp_ := sp; linker_start_ := ls; linker_end_ := le |}).
Proof.
  intros Hm Hu He Hpc Hk Hpath. destruct (build_initial_stack_cases (mem_ p) kStackTop (l_argv l) (l_envp l) (auxv_of l exe interp_base) exe_path (l_random l)) as (sp & m & E & Hwf & Hp & Hs & _);
    [done|unfold kStackTop; change kMaxStackData with 262144; lia|by split; [apply Hl|apply Hl|done|vm_compute; reflexivity|apply Hl]|].
  exists sp, m. split; [done|]. intros Hne. destruct Hs as [|(Hal & Hr & Hch & Hst)]; [done|]. change kMaxStackData with 262144 in Hr. unfold kStackTop in Hr, Hch.
  destruct (main_thread_run new_jit l 0 sp start_pc) as (g & Eg & Hg & Hid & Hregs); [split; lia|done|]. exists g. split; [done|].
  destruct Hu as (U1 & U2 & U3 & U4). destruct He as (E1 & E2 & E3).
  split; [split|]; cbn -[replicate]; [|done|done|by apply main_registry| | |].
  - split; cbn; [intros; by rewrite U1|done|by rewrite U2|lia|rewrite U3; unfold kMmapLimit; lia].
  - intros q gq Hq. apply lookup_singleton_Some in Hq as [_ <-]. done.
  - split; [done|]. apply Forall_replicate, ksigaction32_init_ok.
  - split; [done|]. split; [done|]. split; [done|]. split; [exists g, (Z.land start_pc (u32 (Z.lnot 1))); split; [apply lookup_singleton_eq|]; split; [done|apply even_clear]|].
    split; [done|]. split; [by exists (auxv_of l exe interp_base)|]. destruct Hk as [Hw Hpg]. split; [|cbn; by rewrite Hp].
    eapply words_at_stable; [exact Hch|unfold kKuserPage; lia| |exact Hw]. repeat (apply Forall_cons; split; [cbn; lia|]). apply Forall_nil_2.
Qed.
End Setup.

Lemma setup_started {J} `{JitControl J} `{!JitLaws J} (new_jit : J) grants file_at l reserved :
  launch_ok l ->
  exists r, run_setup new_jit grants file_at l (new_process reserved) = Ret r /\ match r with None => True | Some (w, img) => started l w img end.
Proof.
  intros Hl. unfold run_setup. destruct (negb _); [by exists None|]. set (p0 := new_process reserved). set (exe_path := default _ _).
  destruct (load_elf_run grants file_at (mem_ p0) (l_files l (l_path l)) kExecutableLimit (init_wf reserved) (lo_files l Hl _)) as (r & m1 & E1 & Hm1 & Hr); [unfold kExecutableLimit; lia|].
  rewrite E1, exec_ret_bind. destruct r as [e|exe]; [by exists None|]. set (p1 := record_file_mapping _ _ _ _ _ _).
  assert (untouched p1) as Hu1 by (by apply untouched_record).
  destruct (load_interp_run grants file_at l Hl p1 exe_path exe Hm1 Hu1 Hr) as (loaded & E2 & Hld). rewrite E2, exec_ret_bind.
  destruct loaded as [[[[[p2 interp_base] start_pc] ls] le]|]; [|by exists None]. destruct Hld as (Hm2 & Hu2 & Hpc).
  destruct (map_anon grants file_at (mem_ p2) (kStackTop - kStackSize) kStackSize (Z.lor PROT_READ PROT_WRITE)) as [[ok m3]| |] eqn:E3.
  2,3: rewrite map_anon_run in E3; [discriminate|vm_compute; split; [discriminate|reflexivity]|vm_compute; split; discriminate].
  rewrite exec_ret_bind. apply (op_wf grants file_at _ (OpMapAnon _ _ _)) in E3 as Hm3; [|vm_compute; split; [discriminate|reflexivity]|vm_compute; split; discriminate|done].
  destruct (negb ok); [by exists None|]. destruct (map_kuser_run grants file_at m3 Hm3) as (ok' & m4 & E4 & Hm4 & Hk). rewrite E4, exec_ret_bind.
  destruct ok'; [|by exists None]. cbn [negb]. cbv zeta.
  destruct (finish_setup new_jit l Hl (with_mem p2 m4) exe interp_base start_pc ls le exe_path Hm4 Hu2 Hr Hpc (Hk eq_refl) (lo_path l Hl)) as (sp & m5 & E5 & Hst).
  change (mem_ (set_brk (with_mem p2 m4) (load_end exe))) with (mem_ (with_mem p2 m4)). rewrite E5, exec_ret_bind. destruct (Z.eqb_spec sp 0) as [|Hne]; [by exists None|].
  destruct (Hst Hne) as (g & Eg & Hstart). change (allocate_processor_id (replicate kMaxThreads false)) with (0, <[0%nat:=true]> (replicate kMaxThreads false)). cbv iota beta.
  rewrite Eg, exec_ret_bind. eexists. split; [done|]. exact Hstart.
Qed.

(** ** Claims *)

(** Starting a process from any files, however malformed, is safe and right.  The first
    half of [Process::run] always returns: it fails before any guest code exists, or it
    leaves the invariant of [handle_syscall_sound] with the main thread alone, whose stack
    pointer is aligned to 16 and points to argc, argv, envp and the auxiliary vector, whose
    program counter is even with every other register zero, and the kernel user helpers
    on a page that is readable and executable and not writable. *)
Theorem run_setup_sound {J} `{JitControl J} `{!JitLaws J} (new_jit : J) grants file_at l reserved :
  launch_ok l ->
  exists r, run_setup new_jit grants file_at l (new_process reserved) = Ret r /\ match r with None => True | Some (w, img) => started l w img end.
Proof. apply setup_started. Qed.

(** ** Witness *)

#[local] Existing Instance sample_Jit.
#[local] Existing Instance sample_JitLaws.
#[local] Existing Instance sample_JitControl.

(** The executable of [ElfLoader], with one argument. *)
Definition sample_launch : Launch :=
  {| l_path := lit "/a"; l_argv := [lit "a"]; l_envp := []; l_sysroot := []; l_fs := sample_fs; l_files := fun _ => FileData sample_elf;
     l_uid := 0; l_euid := 0; l_gid := 0; l_egid := 0; l_random := None; l_tid := 1; l_main := 7 |}.

Lemma sample_launch_ok : launch_ok sample_launch.
Proof.
  split; [intros path; exact sample_elf_bytes|repeat (apply Forall_cons; split; [vm_compute; reflexivity|]); apply Forall_nil_2|apply Forall_nil_2|vm_compute; reflexivity|discriminate].
Qed.

Lemma run_setup_sound_witness :
  exists w img, run_setup (jit_ sample_thread) (fun _ _ => true) (fun _ _ => 0) sample_launch (new_process true) = Ret (Some (w, img)) /\ started sample_launch w img.
Proof.
  destruct (run_setup_sound (jit_ sample_thread) (fun _ _ => true) (fun _ _ => 0) sample_launch true sample_launch_ok) as (r & E & Hr).
  assert (match run_setup (jit_ sample_thread) (fun _ _ => true) (fun _ _ => 0) sample_launch (new_process true) with Ret (Some _) => true | _ => false end = true) as Hs by (vm_compute; reflexivity).
  rewrite E in Hs. destruct r as [[w img]|]; [|discriminate]. exists w, img. split; [exact E|exact Hr].
Defined.
