(* ===== verification/Lifecycle.v ===== *)
(** * The life of a process

    What [core/src/process.cpp] does with a guest thread when its loop is over
    ([thread_main], [finish_thread]) and how [Process::run] ends: with the status of an exit
    of the process, or, after the main thread has left, when the last guest thread is gone.

    The threads run in any order.  A turn (translated code up to a stop, then the stop and
    the signals pending after it) is one step, and so are the end of a thread and the
    arrival of a host signal for it; within a turn the other threads stand
    still.  The record of the thread that a host thread is running ([set_current_thread]) is
    left out. *)

From stdpp Require Import numbers list gmap strings relations.
From S2P Require Import Prelude Bytes GuestMemory GuestThread Signals ProcessMemory Kernel SyscallNumbers Syscalls Messages Threads HandleSyscall Dispatch Startup.
Local Open Scope Z_scope.

Definition FUTEX_WAKE : Z := 1.
Definition INT_MAX : Z := 2 ^ 31 - 1.

(** ** The end of a thread *)

Section Lifecycle.
Context {J : Type} `{Jit J} (new_jit : J) (fresh : Registry J -> Z) (env : Env) (img : Image).
Context (host_call_handler_ : option (Z -> Z -> wm bool (J := J))).
Context (jit_Run : GuestThread J -> GuestMemory -> Z * GuestThread J * GuestMemory).

Definition unregister (t : Z) : wm unit (J := J) :=
  reg ← asks registry;
  reg ← lift_exec (unregister_thread reg t);
  modify (fun w => with_registry w reg).

(** Zero at the address the thread asked to be cleared (a [uint32_t]), and the wake of
    whoever waits there. *)
Definition clear_tid (addr : Z) : sysm unit :=
  if addr =? 0 then mret tt
  else
    p ← get_ptr addr 4 kPageWrite;
    match p with
    | None => mret tt
    | Some p =>
        _ ← poke p (to_le 4 0);
        _ ← Kernel.call (host env) "futex" [HGuest p 4 kPageWrite; HInt FUTEX_WAKE; HInt INT_MAX; HNull; HNull; HInt 0];
        mret tt
    end.

Definition finish_thread (t : Z) : wm unit (J := J) :=
  g ← caller t;
  _ ← in_kernel (clear_tid (u32 (clear_child_tid g)));
  unregister t.

(** The [unique_ptr] of a cloned thread goes out of scope. *)
Definition free_thread (t : Z) : wm unit (J := J) :=
  modify (fun w => with_registry w (with_heap (registry w) (delete t (heap (registry w))))).

(** One round of [thread_loop]; [None] when the JIT does not come to a stop. *)
Definition turn (fuel : nat) (t : Z) : wm (option outcome) (J := J) :=
  stop ← run_thread jit_Run fuel t;
  match stop with
  | None => mret None
  | Some stop => o ← stop_step new_jit fresh env img host_call_handler_ t stop; mret (Some o)
  end.

(** [forward_host_signal], to the thread that the interrupted host thread runs or else to
    the process signal target ([Signals.Target]). *)
Definition host_info (sig code pid uid : Z) : siginfo32 :=
  {| si_signo := s32 sig; si_errno := 0; si_code := s32 code; fields := <[1%nat := u32 uid]> (<[0%nat := u32 pid]> (replicate 29 0)) |}.

Definition forward_host_signal (t sig code pid uid : Z) : wm unit (J := J) :=
  reg ← asks registry;
  reg ← lift_exec (post_to reg t (host_info sig code pid uid));
  modify (fun w => with_registry w reg).

(** ** All threads *)

(** Where [Process::run] is: in its loop; past [finish_thread] with the status of the main
    thread; returned; or the host process is gone. *)
Inductive phase :=
| InLoop
| Waiting (main_status : Z)
| Returned (status : Z)
| Gone (status : Z).

(** [over] are the threads whose loop has returned, [left] the cloned threads that are off
    the list and not freed yet. *)
Record Life := { world : World J; at_ : phase; over : gset Z; left : gset Z }.

Definition alive (p : phase) : bool := match p with InLoop | Waiting _ => true | _ => false end.

(** The steps of the threads of the guest. *)
Inductive advance (main_ : Z) (s : Life) : Life -> Prop :=
(* a thread runs *)
| life_turn fuel t w o :
    alive (at_ s) = true -> t ∈ threads_ (registry (world s)) -> t ∉ over s -> turn fuel t (world s) = Ret (Some o, w) ->
    advance main_ s {| world := w; at_ := match o with HostExits status => Gone status | _ => at_ s end;
                       over := match o with Ends => {[t]} ∪ over s | _ => over s end; left := left s |}
(* thread_main after its loop *)
| life_finish t w :
    alive (at_ s) = true -> t <> main_ -> t ∈ over s -> finish_thread t (world s) = Ret (tt, w) ->
    advance main_ s {| world := w; at_ := at_ s; over := over s ∖ {[t]}; left := {[t]} ∪ left s |}
(* run after its loop, with an exit requested *)
| life_exit w :
    at_ s = InLoop -> main_ ∈ over s -> exiting_ (world s) = true -> unregister main_ (world s) = Ret (tt, w) ->
    advance main_ s {| world := w; at_ := Returned (exit_status_ w); over := over s ∖ {[main_]}; left := left s |}
(* and without *)
| life_leave g w :
    at_ s = InLoop -> main_ ∈ over s -> exiting_ (world s) = false -> heap (registry (world s)) !! main_ = Some g -> finish_thread main_ (world s) = Ret (tt, w) ->
    advance main_ s {| world := w; at_ := Waiting (exit_status g); over := over s ∖ {[main_]}; left := left s |}
(* wait_for_threads is satisfied *)
| life_return status :
    at_ s = Waiting status -> threads_ (registry (world s)) = [] ->
    advance main_ s {| world := world s; at_ := Returned (if exiting_ (world s) then exit_status_ (world s) else status); over := over s; left := left s |}.

(** What happens besides: a host signal for a listed thread, and the end of the host thread
    of a cloned thread. *)
Inductive meanwhile (main_ : Z) (s : Life) : Life -> Prop :=
| life_signal t sig code pid uid w :
    alive (at_ s) = true -> t ∈ threads_ (registry (world s)) -> forward_host_signal t sig code pid uid (world s) = Ret (tt, w) ->
    meanwhile main_ s {| world := w; at_ := at_ s; over := over s; left := left s |}
| life_free t w :
    t ∈ left s -> free_thread t (world s) = Ret (tt, w) ->
    meanwhile main_ s {| world := w; at_ := at_ s; over := over s; left := left s ∖ {[t]} |}.

Definition life_step (main_ : Z) (s s' : Life) : Prop := advance main_ s s' \/ meanwhile main_ s s'.

Definition life_init (w : World J) : Life := {| world := w; at_ := InLoop; over := ∅; left := ∅ |}.
End Lifecycle.
Arguments Life J : clear implicits.

(** ** The list of threads only grows during a turn *)

Section Listing.
Context {J : Type} `{Jit J}.

(** A thread that no borrower's end frees. *)
Definition stays (r : Registry J) (p : Z) : Prop := is_Some (heap r !! p) /\ p ∉ borrowers_ r.

(** The list gets new threads at its end only; what stays, stays, and is not one of them. *)
Definition extends (r r' : Registry J) : Prop := exists new, threads_ r' = threads_ r ++ new /\ forall p, stays r p -> stays r' p /\ p ∉ new.

#[global] Instance extends_preorder : PreOrder extends.
Proof.
  split.
  - intros r. exists []. rewrite app_nil_r. split; [done|]. intros p Hp. split; [done|apply not_elem_of_nil].
  - intros r1 r2 r3 (n1 & E1 & H1) (n2 & E2 & H2). exists (n1 ++ n2). rewrite E2, E1, app_assoc. split; [done|]. intros p Hp.
    destruct (H1 p Hp) as [Hp2 ?]. destruct (H2 p Hp2) as [Hp3 ?]. split; [done|]. rewrite elem_of_app. tauto.
Qed.

Lemma extends_heap (r : Registry J) h : (forall p, is_Some (heap r !! p) -> is_Some (h !! p)) -> extends r (with_heap r h).
Proof. intros Hh. exists []. cbn. rewrite app_nil_r. split; [done|]. intros p [Hp Hb]. split; [split; [by apply Hh|done]|apply not_elem_of_nil]. Qed.

Lemma extends_insert (r : Registry J) p g : extends r (with_heap r (<[p:=g]> (heap r))).
Proof. apply extends_heap. intros q Hq. destruct (decide (q = p)) as [->|]; [rewrite lookup_insert_eq; eauto|by rewrite lookup_insert_ne]. Qed.

Definition listing {A} (c : wm A (J := J)) : Prop := forall w a w', c w = Ret (a, w') -> extends (registry w) (registry w').

Lemma listing_ret {A} (a : A) : listing (mret a).
Proof. by intros w a' w' [= _ <-]. Qed.

Lemma listing_bind {A B} (c : wm A) (f : A -> wm B) : listing c -> (forall a, listing (f a)) -> listing (c ≫= f).
Proof. intros Hc Hf w b w' E. apply wm_bind_Ret in E as (a & w1 & Ec & E). etrans; [by eapply Hc|by eapply Hf]. Qed.

Lemma listing_asks {A} (f : World J -> A) : listing (asks f).
Proof. by intros w a w' [= _ <-]. Qed.

Lemma listing_modify f : (forall w : World J, extends (registry w) (registry (f w))) -> listing (modify f).
Proof. intros Hf w a w' [= _ <-]. apply Hf. Qed.

Lemma listing_exec {A} (e : exec A) : listing (lift_exec e).
Proof. intros w a w' E. apply exec_bind_Ret in E as (b & _ & E). by injection E as <- <-. Qed.

Lemma listing_kernel {A} (c : sysm A) : listing (in_kernel c).
Proof. intros w a w' E. apply exec_bind_Ret in E as ([b k] & _ & E). by injection E as <- <-. Qed.

Lemma listing_caller t : listing (caller t).
Proof. intros w a w' E. apply exec_bind_Ret in E as (g & _ & E). by injection E as <- <-. Qed.

Lemma listing_set_caller t g : listing (set_caller t g).
Proof. apply listing_modify. intros w. apply extends_insert. Qed.

Lemma listing_request_exit status : listing (request_exit (J := J) status).
Proof. by apply listing_modify. Qed.

Lemma invalidate_each_dom ts addr len : forall h h' : gmap Z (GuestThread J),
  invalidate_each h ts addr len = Ret h' -> forall p, is_Some (h !! p) -> is_Some (h' !! p).
Proof.
  induction ts as [|t ts IH]; intros h h' E p Hp; cbn in E; [by injection E as <-|]. destruct (h !! t) as [g|]; [|done].
  apply (IH _ _ E). destruct (decide (p = t)) as [->|]; [rewrite lookup_insert_eq; eauto|by rewrite lookup_insert_ne].
Qed.

Lemma invalidate_ranges_extends ranges : forall r r' : Registry J, invalidate_ranges r ranges = Ret r' -> extends r r'.
Proof.
  induction ranges as [|[addr len] ranges IH]; intros r r' E; cbn in E; [by injection E as <-|]. apply exec_bind_Ret in E as (r1 & E1 & E).
  apply exec_bind_Ret in E as (h & Eh & E). injection E as <-. etrans; [by apply IH|]. apply extends_heap. by eapply invalidate_each_dom.
Qed.

Lemma listing_process {A} (f : Process -> exec (A * Process)) : listing (in_process f).
Proof.
  intros w a w' E. apply exec_bind_Ret in E as ([b p] & _ & E). apply exec_bind_Ret in E as (r & Er & E). injection E as <- <-. by eapply invalidate_ranges_extends.
Qed.

Lemma post_to_extends (r r' : Registry J) t info : post_to r t info = Ret r' -> extends r r'.
Proof. intros E. apply exec_bind_Ret in E as (g & _ & E). apply exec_bind_Ret in E as (g' & _ & E). injection E as <-. apply extends_insert. Qed.

Lemma post_signal_to_extends (r : Registry J) id info b r' : post_signal_to r id info = Ret (b, r') -> extends r r'.
Proof.
  unfold post_signal_to. destruct (first_tid r id (borrowers_ r)); [|destruct (first_tid r id (threads_ r))]; intros E; [..|by injection E as _ <-];
    apply exec_bind_Ret in E as (r1 & E1 & E); injection E as _ <-; by eapply post_to_extends.
Qed.
End Listing.

Create HintDb listing.
#[export] Hint Resolve listing_ret listing_asks listing_exec listing_kernel listing_process listing_caller listing_set_caller listing_request_exit : listing.

Ltac listing_step :=
  lazymatch goal with
  | |- listing (_ ≫= _) => apply listing_bind; [|intros ?]
  | |- listing (modify _) => by apply listing_modify
  | |- listing (if ?b then _ else _) => destruct b
  | |- listing (match ?x with _ => _ end) => destruct x
  | |- listing (let _ := _ in _) => cbv zeta
  | |- _ => solve [auto with listing]
  end.
Ltac listing := repeat listing_step.

Section ListingCalls.
Context {J : Type} `{Jit J} (new_jit : J) (fresh : Registry J -> Z) (env : Env) (img : Image).
Context (Hfresh : forall r, heap r !! fresh r = None).

Lemma listing_host_call name args : listing (host_call (J := J) env name args).
Proof. apply listing_kernel. Qed.
Hint Resolve listing_host_call : listing.

Lemma listing_guest_tid t : listing (guest_tid (J := J) env t).
Proof. unfold guest_tid. listing. Qed.
Hint Resolve listing_guest_tid : listing.

Lemma listing_send_signal t directed tgid id sig queued code : listing (sys_send_signal (J := J) env t directed tgid id sig queued code).
Proof.
  unfold sys_send_signal. destruct (64 <? sig); [listing|]. apply listing_bind; [listing|]. intros r. cbv zeta. apply listing_bind; [listing|]. intros info. destruct directed; [listing|].
  destruct (_ && _); [listing|]. destruct (sig =? 0); [listing|]. intros w a w' E. unfold mbind at 1, wm_bind at 1, asks in E.
  apply wm_bind_Ret in E as ([found reg] & w1 & E1 & E). apply exec_bind_Ret in E1 as ([found' reg'] & Ep & E1). injection E1 as -> -> <-.
  apply wm_bind_Ret in E as (u & w2 & E2 & E). injection E2 as _ <-. injection E as _ <-. by eapply post_signal_to_extends.
Qed.
Hint Resolve listing_send_signal : listing.

Lemma clone_extends (r : Registry J) m t id flags stack ptid tls ctid res r' m' :
  clone_thread new_jit r m t (fresh r) id flags stack ptid tls ctid = Ret (res, r', m') -> extends r r'.
Proof.
  intros E. unfold clone_thread in E. destruct (allocate_processor_id _) as [pid ids]. destruct (pid <? 0); [by injection E as _ <- _|].
  apply exec_bind_Ret in E as (g & _ & E). apply exec_bind_Ret in E as (c & _ & E). cbv zeta in E. apply exec_bind_Ret in E as (m1 & _ & E). apply exec_bind_Ret in E as (m2 & _ & E).
  injection E as _ <- _. exists [fresh r]. split; [done|]. intros p [Hp Hb]. assert (p <> fresh r) as Hne by (intros ->; rewrite Hfresh in Hp; by destruct Hp).
  split; [|by rewrite list_elem_of_singleton]. split; [|done]. cbn. by rewrite !lookup_insert_ne.
Qed.

Lemma listing_clone t c : listing (sys_clone new_jit fresh env t c).
Proof.
  unfold sys_clone. destruct (negb _); [listing|]. intros w a w' E. unfold mbind at 1, wm_bind at 1, asks at 1 in E. apply wm_bind_Ret in E as (r & w1 & E1 & E).
  unfold mbind at 1, wm_bind at 1, asks at 1 in E. apply wm_bind_Ret in E as ([[res reg] m] & w2 & E2 & E). apply exec_bind_Ret in E2 as ([[res' reg'] m'] & Ec & E2). injection E2 as -> -> -> <-.
  apply wm_bind_Ret in E as (u & w3 & E3 & E). injection E3 as _ <-. injection E as _ <-. cbn. by eapply clone_extends.
Qed.
Hint Resolve listing_clone : listing.

Lemma stateful_listing t : Forall (fun e => forall c, listing (snd e c)) (stateful_calls new_jit fresh env img t).
Proof.
  unfold stateful_calls. repeat (apply Forall_cons; split; [intros c; cbn [snd]|]); [..|apply Forall_nil_2].
  all: unfold result, sys_rt_tgsigqueueinfo, sys_exit, sys_exit_group, sys_sigreturn, mm_brk, mm_mmap2, mm_munmap, mm_mprotect, mm_madvise, sys_set_tls, sys_get_tls, sys_cacheflush, sys_set_tid_address,
    sys_rt_sigaction, sys_rt_sigprocmask, sys_sigaltstack, sys_personality, sys_rt_sigpending; listing.
Qed.

Lemma listing_switch t nr c : listing (switch new_jit fresh env img t nr c).
Proof.
  unfold switch. destruct (stateful_of _ nr) as [h|] eqn:Eh.
  - apply stateful_elem in Eh. pose proof (stateful_listing t) as Hl. rewrite Forall_forall in Hl. exact (Hl _ Eh c).
  - unfold host_syscall. listing.
Qed.
Hint Resolve listing_switch : listing.

Lemma listing_handle_syscall t : listing (handle_syscall new_jit fresh env img t).
Proof. unfold handle_syscall. listing. Qed.
Hint Resolve listing_handle_syscall : listing.

Context (host_call_handler_ : option (Z -> Z -> wm bool (J := J))) (Hlist : forall h index t, host_call_handler_ = Some h -> listing (h index t)).
Context (jit_Run : GuestThread J -> GuestMemory -> Z * GuestThread J * GuestMemory).

Lemma listing_stop t stop : listing (stop_step new_jit fresh env img host_call_handler_ t stop).
Proof.
  unfold stop_step, dispatch_stop, dispatch_host_call, dispatch_syscall, after_stop, fault_or_crash, end_or_exit, exit_host_process, set_r0. listing; by eapply Hlist.
Qed.

Lemma listing_turn fuel t : listing (turn new_jit fresh env img host_call_handler_ jit_Run fuel t).
Proof. unfold turn, run_thread. listing. apply listing_stop. Qed.
End ListingCalls.

(** ** The end of a thread keeps the invariant *)

Section Ends.
Context {J : Type} `{JitControl J} `{!JitLaws J} (env : Env) (Henv : env_ok env).

Lemma listed_held (w : World J) t : world_inv w -> t ∈ threads_ (registry w) ->
  exists g, heap (registry w) !! t = Some g /\ t ∉ borrowers_ (registry w) /\ NoDup (threads_ (registry w)) /\ 0 <= processor_id_ g < 256 /\ length (processor_ids_ (registry w)) = kMaxThreads.
Proof.
  intros Hw Ht. destruct (wi_registry w Hw) as (s & Hi & Es). rewrite <- Es in *. pose proof Hi as [H1 _ H3 _ _ H6]. destruct (Steps.holders_alive s t Hi) as [g Eg].
  { unfold Steps.holders. rewrite !elem_of_app. tauto. }
  exists g. unfold Steps.holders in H3. apply NoDup_app in H3 as [H3 _]. apply NoDup_app in H3 as (_ & _ & H3). apply NoDup_app in H3 as (Hn & Hd & _).
  split; [done|]. split; [intros Hb; apply (Hd t Ht); rewrite elem_of_app; by left|]. split; [done|]. split; [|done]. rewrite Forall_forall in H6. apply H6.
  unfold Steps.claims. rewrite !elem_of_app. right. right. apply list_elem_of_fmap. exists t. unfold Steps.id_of. rewrite Eg. split; [done|]. unfold Steps.holders. rewrite !elem_of_app. tauto.
Qed.

(** The state after [t] is off the list. *)
Definition unlisted (t : Z) (w w' : World J) : Prop :=
  world_inv w' /\ threads_ (registry w') = filter (fun x => x <> t) (threads_ (registry w)) /\ borrowers_ (registry w') = borrowers_ (registry w) /\
  heap (registry w') = heap (registry w) /\ exiting_ w' = exiting_ w /\ exit_status_ w' = exit_status_ w.

Lemma unregister_run (w : World J) t : world_inv w -> t ∈ threads_ (registry w) -> exists w', unregister t w = Ret (tt, w') /\ unlisted t w w'.
Proof.
  intros Hw Ht. destruct (listed_held w t Hw Ht) as (g & Eg & _ & _ & Hid & Hlen). destruct (wi_registry w Hw) as (s & Hi & Es).
  assert (unregister_thread (registry w) t = Ret (with_ids (with_threads (registry w) (filter (fun x => x <> t) (threads_ (registry w)))) (<[Z.to_nat (processor_id_ g):=false]> (processor_ids_ (registry w))))) as Eu.
  { unfold unregister_thread, deref. rewrite Eg, exec_ret_bind, vec_set_lt, exec_ret_bind; [done|]. rewrite Hlen. unfold kMaxThreads. lia. }
  unfold unregister, mbind, wm_bind, asks, lift_exec, modify. rewrite Eu, exec_ret_bind. eexists. split; [done|]. split; [|done]. destruct Hw as [H1 H2 H3 H4 H5 H6]. split; try done.
  rewrite <- Es in Ht, Eu. pose proof (Steps.step_unregister_inv s t _ Hi Ht Eu) as Hi'. eexists. split; [exact Hi'|]. by rewrite <- Es.
Qed.

Lemma safe_clear_tid m addr : 0 <= addr < 2 ^ 32 -> safe m (clear_tid env addr).
Proof.
  intros Ha. unfold clear_tid. apply gives_if; intros _; [by apply gives_ret|]. eapply gives_bind; [apply gives_get_ptr|]. intros [p|]; [|intros _; by apply gives_ret]. intros [-> Hacc].
  eapply gives_bind; [apply (poke_ok m addr _ addr 4 kPageWrite); try done; unfold size; cbn; lia|]. intros _ _. eapply gives_bind; [|intros _ _; by apply gives_ret].
  apply safe_call; [apply Henv|]. repeat (apply Forall_cons; split); try done. split; [done|]. split; [lia|]. by right.
Qed.

Lemma finish_run (w : World J) t : world_inv w -> t ∈ threads_ (registry w) -> exists w', finish_thread env t w = Ret (tt, w') /\ unlisted t w w'.
Proof.
  intros Hw Ht. destruct (listed_held w t Hw Ht) as (g & Eg & _). unfold finish_thread, mbind at 1, wm_bind at 1, caller, deref. rewrite Eg, exec_ret_bind.
  destruct (safe_clear_tid (memory w) (u32 (clear_child_tid g)) (u32_range _) {| km := memory w; klog := hlog w |} (wi_memory w Hw) eq_refl) as ([] & k & Ek & [How _] & _).
  unfold mbind at 1, wm_bind at 1, in_kernel. rewrite Ek, exec_ret_bind. set (w1 := with_hlog _ _).
  destruct (unregister_run w1 t) as (w' & E & Hu); [by apply world_kernel|done|]. by exists w'.
Qed.

(** The heap without a thread that is on no list. *)
Lemma inv_deleted (s : Steps.state (J := J)) p : Steps.inv s -> p ∉ threads_ (Steps.reg s) -> p ∉ borrowers_ (Steps.reg s) ->
  exists s', Steps.inv s' /\ Steps.reg s' = with_heap (Steps.reg s) (delete p (heap (Steps.reg s))).
Proof.
  intros Hi Ht Hb. pose proof Hi as [H1 H2 H3 H4 H5 H6]. destruct (Steps.inv_parts s Hi) as (Hnb & _ & _ & _ & _).
  destruct (decide (p ∈ Steps.retired s)) as [Hr|Hr]; [by eexists; split; [by apply (Steps.step_free_inv s p)|]|].
  destruct (decide (p ∈ Steps.unlisted s)) as [Hu|Hu].
  { destruct (Steps.holders_alive s p Hi) as [g Eg]; [unfold Steps.holders; rewrite !elem_of_app; tauto|]. by eexists; split; [by apply (Steps.step_destroy_inv s p g)|]. }
  destruct (decide (p ∈ Steps.built s)) as [Hbu|Hbu].
  - destruct (Steps.holders_alive s p Hi) as [g Eg]; [unfold Steps.holders; rewrite !elem_of_app; tauto|].
    set (s1 := {| Steps.reg := Steps.reg s; Steps.reserved := Steps.reserved s; Steps.built := Steps.drop_one p (Steps.built s); Steps.unlisted := p :: Steps.unlisted s; Steps.freed := Steps.freed s; Steps.retired := Steps.retired s |}).
    assert (Steps.inv s1) as Hi1.
    { apply (Steps.inv_relisted s s1); try done. unfold Steps.holders. cbn. rewrite (Steps.drop_one_perm p _ Hnb Hbu) at 2. solve_Permutation. }
    eexists. split; [apply (Steps.step_destroy_inv s1 p g Hi1); [by left|done]|done].
  - eexists {| Steps.reg := with_heap (Steps.reg s) (delete p (heap (Steps.reg s))); Steps.reserved := Steps.reserved s; Steps.built := Steps.built s; Steps.unlisted := Steps.unlisted s; Steps.freed := Steps.freed s; Steps.retired := Steps.retired s |}.
    split; [|done]. assert (forall q, q ∈ Steps.holders s ++ Steps.retired s -> delete p (heap (Steps.reg s)) !! q = heap (Steps.reg s) !! q) as Hq.
    { intros q Hq. apply lookup_delete_ne. intros ->. unfold Steps.holders in Hq. rewrite !elem_of_app in Hq. tauto. }
    apply (Steps.inv_moved s); try done.
    + unfold Steps.claims. cbn. rewrite (Steps.ids_same s); [done|]. intros q Hin. apply Hq. rewrite elem_of_app. by left.
    + rewrite Forall_forall in *. intros q Hin. cbn. rewrite Hq by done. by apply H2.
Qed.

Lemma free_inv (w : World J) t w' : world_inv w -> t ∉ threads_ (registry w) -> t ∉ borrowers_ (registry w) -> free_thread t w = Ret (tt, w') ->
  world_inv w' /\ registry w' = with_heap (registry w) (delete t (heap (registry w))) /\ exiting_ w' = exiting_ w /\ exit_status_ w' = exit_status_ w.
Proof.
  intros [H1 H2 H3 H4 H5 H6] Ht Hb [= <-]. split; [|done]. destruct H4 as (s & Hi & Es). split; try done.
  - destruct (inv_deleted s t Hi) as (s' & Hi' & Es'); [by rewrite Es..|]. exists s'. split; [done|]. by rewrite Es', Es.
  - cbn. by apply map_Forall_delete.
Qed.

Lemma host_info_ok sig code pid uid : info_ok (host_info sig code pid uid).
Proof. split; [done|]. apply Forall_insert; [|apply u32_range]. apply Forall_insert; [|apply u32_range]. apply Forall_replicate. split; lia. Qed.

Lemma forward_run (w : World J) t sig code pid uid : world_inv w -> t ∈ threads_ (registry w) ->
  exists w', forward_host_signal t sig code pid uid w = Ret (tt, w') /\ world_inv w' /\ extends (registry w) (registry w') /\ threads_ (registry w') = threads_ (registry w) /\ exiting_ w' = exiting_ w /\ exit_status_ w' = exit_status_ w.
Proof.
  intros Hw Ht. destruct (listed_held w t Hw Ht) as (g & Eg & _). destruct (post_to_run (registry w) t g _ (wi_threads w Hw) Eg (host_info_ok sig code pid uid)) as (h & E & Hr & _).
  unfold forward_host_signal, mbind, wm_bind, asks, lift_exec, modify. rewrite E, exec_ret_bind. eexists. split; [done|]. split; [by apply world_replaced|]. split; [by eapply post_to_extends|done].
Qed.
End Ends.

(** ** Every reachable state *)

Section Reach.
Context {J : Type} `{JitControl J} `{!JitLaws J} (new_jit : J) (fresh : Registry J -> Z) (env : Env) (img : Image).
Context (host_call_handler_ : option (Z -> Z -> wm bool (J := J))).
Context (jit_Run : GuestThread J -> GuestMemory -> Z * GuestThread J * GuestMemory).
Context (Henv : env_ok env) (Hfresh : forall r, heap r !! fresh r = None).
(** The embedding program's handler, on every thread: what a stop needs of it, and that it
    takes no thread off the list. *)
Context (Hhandler : forall t, handler_ok host_call_handler_ t) (Hlist : forall h index t, host_call_handler_ = Some h -> listing (h index t)).
Context (Hjit : jit_ok jit_Run) (main_ : Z).

#[local] Notation turn := (turn new_jit fresh env img host_call_handler_ jit_Run).
#[local] Notation advance := (advance new_jit fresh env img host_call_handler_ jit_Run main_).

(** The turn ends in the system call that may fault. *)
Definition bad_turn (fuel : nat) (t : Z) (w : World J) : Prop :=
  turn fuel t w = Undefined /\ exists stop w', run_thread jit_Run fuel t w = Ret (Some stop, w') /\ at_bad_send t stop w'.

(** One turn, from a world in which no exit was requested. *)
Lemma turn_run (w : World J) fuel t : world_inv w -> exiting_ w = false -> t ∈ threads_ (registry w) ->
  bad_turn fuel t w \/
  exists o w', turn fuel t w = Ret (o, w') /\ world_inv w' /\ extends (registry w) (registry w') /\ match o with None => True | Some o => stop_left o w' end.
Proof.
  intros Hw He Ht. destruct (listed_held w t Hw Ht) as (g & Eg & _). assert (running t w) as Hrun by (split; [done|split; [by eexists|done]]).
  assert (bad_turn fuel t w \/ exists o w', turn fuel t w = Ret (o, w') /\ world_inv w' /\ match o with None => True | Some o => stop_left o w' end) as [?|(o & w' & E & Hw' & Ho)]; [|by left|].
  { destruct (run_thread_runs t jit_Run Hjit fuel w Hrun) as (stop & w1 & E1 & Hrun1 & Hs). unfold bad_turn, Lifecycle.turn. rewrite (wm_bind_run _ _ _ _ _ E1).
    destruct stop as [stop|]; [|right; exists None, w1; split; [done|]; split; [apply Hrun1|done]].
    destruct (step_stops new_jit fresh env img host_call_handler_ t Henv Hfresh (Hhandler t) w1 stop Hrun1 Hs) as [(o & w2 & E2 & Hw2 & _ & Hl)|[Hbad E2]].
    - right. exists (Some o), w2. unfold mbind, wm_bind. by rewrite E2.
    - left. split; [unfold mbind, wm_bind; by rewrite E2|]. by exists stop, w1. }
  right. exists o, w'. split; [done|]. split; [done|]. split; [|done]. by eapply (listing_turn new_jit fresh env img Hfresh host_call_handler_ Hlist jit_Run fuel t).
Qed.

Record life_inv (s : Life J) : Prop := {
  li_world : world_inv (world s);
  li_over : forall t, t ∈ over s -> t ∈ threads_ (registry (world s));
  li_left : forall t, t ∈ left s -> stays (registry (world s)) t /\ t ∉ threads_ (registry (world s)) /\ t <> main_;
  li_exiting : alive (at_ s) = true -> exiting_ (world s) = true ->
    (length (threads_ (registry (world s))) <= 1)%nat /\ forall t, t ∈ threads_ (registry (world s)) -> t ∈ over s;
  li_main : stays (registry (world s)) main_;
  li_listed : at_ s = InLoop -> main_ ∈ threads_ (registry (world s));
  li_waiting : forall status, at_ s = Waiting status -> main_ ∉ threads_ (registry (world s));
  li_returned : forall status, at_ s = Returned status -> threads_ (registry (world s)) = [] /\ (exiting_ (world s) = true -> status = exit_status_ (world s));
}.

(** A step that keeps the listed threads listed. *)
Lemma grown_inv (s : Life J) w' at' over' :
  life_inv s -> alive (at_ s) = true -> world_inv w' -> extends (registry (world s)) (registry w') -> (at' = at_ s \/ exists status, at' = Gone status) ->
  (forall t, t ∈ over' -> t ∈ threads_ (registry w')) ->
  (alive at' = true -> exiting_ w' = true -> (length (threads_ (registry w')) <= 1)%nat /\ forall t, t ∈ threads_ (registry w') -> t ∈ over') ->
  life_inv {| world := w'; at_ := at'; over := over'; left := left s |}.
Proof.
  intros [H1 H2 H3 H4 H5 H6 H7 H8] Ha Hw' (new & En & Hst) Hat Hover Hex. destruct (Hst main_ H5) as [Hm Hmn]. split; cbn; try done.
  - intros t Ht. destruct (H3 t Ht) as (Hs & Hn & Hne). destruct (Hst t Hs) as [? ?]. split; [done|]. split; [|done]. rewrite En, elem_of_app. tauto.
  - intros ->. destruct Hat as [Hat|[? ?]]; [|done]. rewrite En, elem_of_app. left. by apply H6.
  - intros status ->. destruct Hat as [Hat|[? ?]]; [|done]. rewrite En, elem_of_app. intros [?|?]; [by apply (H7 status)|done].
  - intros status ->. destruct Hat as [Hat|[? ?]]; [|done]. by rewrite <- Hat in Ha.
Qed.

(** A step that takes a thread whose loop is over off the list. *)
Lemma shrunk_inv (s : Life J) w' t at' left' :
  life_inv s -> alive (at_ s) = true -> t ∈ over s -> unlisted t (world s) w' -> (forall x, x ∈ left' -> x ∈ left s \/ x = t /\ t <> main_) ->
  (at' = at_ s /\ t <> main_ \/ t = main_ /\ ((exists status, at' = Waiting status) \/ at' = Returned (exit_status_ w') /\ exiting_ (world s) = true)) ->
  life_inv {| world := w'; at_ := at'; over := over s ∖ {[t]}; left := left' |}.
Proof.
  intros [H1 H2 H3 H4 H5 H6 H7 H8] Ha Ht (Hw' & Et & Eb & Eh & Ee & Es) Hleft Hat. specialize (H4 Ha).
  assert (forall x, x ∈ threads_ (registry w') <-> x <> t /\ x ∈ threads_ (registry (world s))) as Hin by (intros x; by rewrite Et, list_elem_of_filter).
  assert (forall x, stays (registry (world s)) x -> stays (registry w') x) as Hstay by (intros x [? ?]; split; [by rewrite Eh|by rewrite Eb]).
  destruct (listed_held (world s) t H1 (H2 t Ht)) as (g & Eg & Hnb & _). split; cbn; try done.
  - intros x [Hx Hne]%elem_of_difference. rewrite Hin. split; [by rewrite elem_of_singleton in Hne|by apply H2].
  - intros x Hx. rewrite Hin. destruct (Hleft x Hx) as [Hl|[-> Hne]]; [destruct (H3 x Hl) as (? & ? & ?); split; [by apply Hstay|tauto]|]. split; [apply Hstay; split; [by eexists|done]|tauto].
  - intros _. rewrite Ee. intros Hex. destruct (H4 Hex) as [Hlen Hall]. split; [rewrite Et; etrans; [apply length_filter|done]|].
    intros x [Hne Hx]%Hin. apply elem_of_difference. split; [by apply Hall|by rewrite elem_of_singleton].
  - by apply Hstay.
  - intros ->. rewrite Hin. destruct Hat as [[Hat Hne]|[_ [[? ?]|[? _]]]]; [|done..]. split; [done|by apply H6].
  - intros status ->. rewrite Hin. destruct Hat as [[Hat _]|[-> _]]; [intros [_ ?]; by apply (H7 status)|tauto].
  - intros status ->. destruct Hat as [[Hat _]|[_ [[? ?]|[Hst Hex]]]]; [by rewrite <- Hat in Ha|done|]. injection Hst as ->. split; [|done].
    destruct (H4 Hex) as [Hlen _]. rewrite Et. pose proof (H2 t Ht) as Hl. destruct (threads_ (registry (world s))) as [|x [|y l]]; [done| |cbn in Hlen; lia].
    apply list_elem_of_singleton in Hl as ->. rewrite filter_cons, decide_False by tauto. done.
Qed.

Lemma turn_inv (s : Life J) fuel t w o :
  life_inv s -> alive (at_ s) = true -> t ∈ threads_ (registry (world s)) -> t ∉ over s -> turn fuel t (world s) = Ret (Some o, w) ->
  life_inv {| world := w; at_ := match o with HostExits status => Gone status | _ => at_ s end; over := match o with Ends => {[t]} ∪ over s | _ => over s end; left := left s |}.
Proof.
  intros Hs Ha Ht Hno E. assert (exiting_ (world s) = false) as He.
  { destruct (exiting_ (world s)) eqn:He; [|done]. destruct (li_exiting s Hs Ha He) as [_ Hall]. by destruct Hno; apply Hall. }
  destruct (turn_run (world s) fuel t (li_world s Hs) He Ht) as [[E' _]|(o' & w' & E' & Hw' & Hext & Hl)]; rewrite E in E'; [done|]. injection E' as <- <-. pose proof Hext as (new & En & _).
  assert (forall x, x ∈ over s -> x ∈ threads_ (registry w)) as Hov by (intros x Hx; rewrite En, elem_of_app; left; by apply (li_over s Hs)).
  apply grown_inv; try done; destruct o as [| |status]; try done; [by left..|by right; eexists| |cbn in Hl; intros _; congruence|].
  - intros x [->%elem_of_singleton|?]%elem_of_union; [|by apply Hov]. rewrite En, elem_of_app. by left.
  - intros _ Hex. specialize (Hl Hex). unfold thread_count in Hl. assert (t ∈ threads_ (registry w)) as Ht' by (rewrite En, elem_of_app; by left). split; [lia|].
    intros x Hx. destruct (threads_ (registry w)) as [|y [|z l]]; [by apply not_elem_of_nil in Hx| |cbn in Hl; lia]. apply list_elem_of_singleton in Hx as ->, Ht' as ->. set_solver.
Qed.

Lemma advance_inv (s s' : Life J) : life_inv s -> advance s s' -> life_inv s'.
Proof.
  intros Hs Hstep. destruct Hstep as [fuel t w o Ha Ht Hno E|t w Ha Hne Ht E|w Hat Hm Hex E|g w Hat Hm Hex Eg E|status Hat Hnil].
  - by eapply turn_inv.
  - destruct (finish_run env Henv (world s) t (li_world s Hs) (li_over s Hs t Ht)) as (w' & E' & Hu). rewrite E in E'. injection E' as <-.
    apply shrunk_inv; try done; [set_solver|by left].
  - destruct (unregister_run (world s) main_ (li_world s Hs) (li_over s Hs main_ Hm)) as (w' & E' & Hu). rewrite E in E'. injection E' as <-.
    apply shrunk_inv; try done; [by rewrite Hat|by left|]. right. split; [done|]. by right.
  - destruct (finish_run env Henv (world s) main_ (li_world s Hs) (li_over s Hs main_ Hm)) as (w' & E' & Hu). rewrite E in E'. injection E' as <-.
    apply shrunk_inv; try done; [by rewrite Hat|by left|]. right. split; [done|]. left. by eexists.
  - destruct Hs as [H1 H2 H3 H4 H5 H6 H7 H8]. split; cbn; try done. intros st [= <-]. split; [done|]. by intros ->.
Qed.

Lemma meanwhile_inv (s s' : Life J) : life_inv s -> meanwhile main_ s s' -> life_inv s'.
Proof.
  intros Hs Hstep. destruct Hstep as [t sig code pid uid w Ha Ht E|t w Ht E].
  - destruct (forward_run (world s) t sig code pid uid (li_world s Hs) Ht) as (w' & E' & Hw' & Hext & El & Ee & _). rewrite E in E'. injection E' as <-.
    apply grown_inv; try done; [by left| |]; rewrite ?El, ?Ee; [by apply Hs|by apply Hs].
  - destruct Hs as [H1 H2 H3 H4 H5 H6 H7 H8]. destruct (H3 t Ht) as ((_ & Hb) & Hl & Hne). destruct (free_inv (world s) t w H1 Hl Hb E) as (Hw' & Er & Ee & Es).
    assert (forall p, p <> t -> stays (registry (world s)) p -> stays (registry w) p) as Hstay by (intros p Hp [? ?]; rewrite Er; split; cbn; [by rewrite lookup_delete_ne|done]).
    assert (threads_ (registry w) = threads_ (registry (world s))) as Et by by rewrite Er. split; cbn; rewrite ?Et, ?Ee, ?Es; try done; [|by apply Hstay].
    intros x [Hx Hxt]%elem_of_difference. rewrite elem_of_singleton in Hxt. destruct (H3 x Hx) as (? & ? & ?). split; [by apply Hstay|done].
Qed.

(** Where nothing waits for the JIT, a step is possible. *)
Definition can_go_on (s : Life J) : Prop :=
  (exists s', advance s s') \/
  exists t, t ∈ threads_ (registry (world s)) /\ t ∉ over s /\
    forall fuel, bad_turn fuel t (world s) \/ exists o w', turn fuel t (world s) = Ret (o, w') /\ (o <> None -> exists s', advance s s').

Lemma loop_goes_on (s : Life J) t : life_inv s -> alive (at_ s) = true -> t ∈ threads_ (registry (world s)) -> t ∉ over s -> can_go_on s.
Proof.
  intros Hs Ha Ht Hno. right. exists t. split; [done|]. split; [done|]. intros fuel. assert (exiting_ (world s) = false) as He.
  { destruct (exiting_ (world s)) eqn:He; [|done]. destruct (li_exiting s Hs Ha He) as [_ Hall]. by destruct Hno; apply Hall. }
  destruct (turn_run (world s) fuel t (li_world s Hs) He Ht) as [?|(o & w' & E & _)]; [by left|right]. exists o, w'. split; [done|]. destruct o as [o|]; [|done]. intros _. eexists. by eapply life_turn.
Qed.

Lemma life_progress (s : Life J) : life_inv s -> alive (at_ s) = true -> can_go_on s.
Proof.
  intros Hs Ha. destruct (at_ s) as [|status|?|?] eqn:Eat; [| |done..].
  - pose proof (li_listed s Hs Eat) as Hm. destruct (decide (main_ ∈ over s)) as [Ho|Ho]; [|apply (loop_goes_on s main_); [done|by rewrite Eat|done..]]. left.
    destruct (listed_held (world s) main_ (li_world s Hs) Hm) as (g & Eg & _). destruct (exiting_ (world s)) eqn:He.
    + destruct (unregister_run (world s) main_ (li_world s Hs) Hm) as (w' & E & _). eexists. by eapply life_exit.
    + destruct (finish_run env Henv (world s) main_ (li_world s Hs) Hm) as (w' & E & _). eexists. by eapply life_leave.
  - destruct (threads_ (registry (world s))) as [|t l] eqn:El; [left; eexists; by eapply life_return|]. assert (t ∈ threads_ (registry (world s))) as Ht by (rewrite El; by left).
    destruct (decide (t ∈ over s)) as [Ho|Ho]; [|apply (loop_goes_on s t); [done|by rewrite Eat|done..]]. left.
    destruct (finish_run env Henv (world s) t (li_world s Hs) Ht) as (w' & E & _). eexists. eapply life_finish; [by rewrite Eat| |done..]. intros ->. by apply (li_waiting s Hs status).
Qed.

Lemma life_reachable (s s' : Life J) : life_inv s -> rtc (life_step new_jit fresh env img host_call_handler_ jit_Run main_) s s' -> life_inv s'.
Proof. intros Hs Hr. induction Hr as [|s1 s2 s3 [H12|H12] _ IH]; [done|..]; apply IH; [by eapply advance_inv|by eapply meanwhile_inv]. Qed.

(** The status [run] keeps of the main thread is the one that thread ended its loop with. *)
Definition main_ended (w : World J) (s : Life J) (status : Z) : Prop :=
  exists s0 g, rtc (life_step new_jit fresh env img host_call_handler_ jit_Run main_) (life_init w) s0 /\
    rtc (life_step new_jit fresh env img host_call_handler_ jit_Run main_) s0 s /\
    at_ s0 = InLoop /\ main_ ∈ over s0 /\ exiting_ (world s0) = false /\ heap (registry (world s0)) !! main_ = Some g /\ status = exit_status g.

Lemma status_kept w (s : Life J) :
  rtc (life_step new_jit fresh env img host_call_handler_ jit_Run main_) (life_init w) s ->
  match at_ s with
  | Waiting status => main_ended w s status
  | Returned status => exiting_ (world s) = false -> main_ended w s status
  | _ => True
  end.
Proof.
  intros Hr. revert s Hr. apply (rtc_ind_r _ (life_init w)); [done|]. intros s1 s2 Hr1 H12 IH.
  assert (forall status, main_ended w s1 status -> main_ended w s2 status) as Hlater.
  { intros status (s0 & g & H1 & H2 & H3). exists s0, g. split; [done|]. split; [by eapply rtc_r|done]. }
  assert (forall p, p = at_ s1 -> alive p = true -> match p with
    | Waiting status => main_ended w s2 status | Returned status => exiting_ (world s2) = false -> main_ended w s2 status | _ => True end) as Hsame.
  { intros p -> Ha. destruct (at_ s1); try done. by apply Hlater. }
  pose proof H12 as Hstep. destruct H12 as [Hadv|Hmean].
  - destruct Hadv as [fuel t w' o Ha Ht Hno E|t w' Ha Hne Ht E|w' Hat Hm Hex E|g w' Hat Hm Hex Eg E|status Hat Hnil]; cbn [at_ world] in *.
    + destruct o; [by apply Hsame|by apply Hsame|done].
    + by apply Hsame.
    + intros He. apply wm_bind_Ret in E as (reg & w1 & E1 & E). apply wm_bind_Ret in E as (reg' & w2 & E2 & E). injection E1 as <- <-.
      apply exec_bind_Ret in E2 as (b & _ & E2). injection E2 as <- <-. injection E as <-. cbn in He. congruence.
    + exists s1, g. split; [done|]. split; [by apply rtc_once|done].
    + rewrite Hat in IH. destruct (exiting_ (world s1)) eqn:Ex; [by intros|]. intros _. by apply Hlater.
  - destruct Hmean as [t sig code pid uid w' Ha Ht E|t w' Ht E]; cbn [at_ world] in *; [by apply Hsame|].
    destruct (at_ s1) as [|status|status|] eqn:Eat; [done|by apply Hlater| |done].
    intros He. apply Hlater, IH. injection E as <-. exact He.
Qed.

Lemma life_init_inv (w : World J) : world_inv w -> exiting_ w = false -> threads_ (registry w) = [main_] -> life_inv (life_init w).
Proof.
  intros Hw He Et. destruct (listed_held w main_ Hw) as (g & Eg & Hnb & _); [rewrite Et; by left|].
  split; cbn; [done|set_solver|set_solver|by rewrite He|by split; [eexists|]|rewrite Et; by left|done|done].
Qed.
End Reach.

(** ** Claims *)

(** C1: A process, from its files to its end.  Start it from any files and let its threads
    run in any order, with host signals arriving at any time.  In every state it reaches the
    invariant of [handle_syscall_sound] holds.  Once an exit of the process was requested
    and the host process lives on, no thread runs guest code any more.  [run] returns only
    when no guest thread is left, with the status of the requested exit if there was one,
    and otherwise with the status that the main thread had when its loop ended.  And it
    never gets stuck: until [run] returns or the host process ends, some thread has a next
    step, or is in translated code, whose every stop is handled, except a sendmsg with a
    control message whose length passes the code's check by wrapping, at which the bridge
    may fault ([bad_turn]).  Assumed: files, arguments and host kernel of their types and
    documented behaviour ([launch_ok], [env_ok], [atomic]), a JIT that does what its
    callbacks allow ([jit_ok]), and a host call handler that keeps the invariant and takes
    no thread off the list. *)
Theorem process_life_sound {J} `{JitControl J} `{!JitLaws J} (new_jit : J) fresh env l host_call_handler_ jit_Run reserved w img (s : Life J) :
  launch_ok l -> env_ok env -> (forall r, heap r !! fresh r = None) -> (forall t, handler_ok host_call_handler_ t) ->
  (forall h index t, host_call_handler_ = Some h -> listing (h index t)) -> jit_ok jit_Run ->
  run_setup new_jit (grants env) (file_at env) l (new_process reserved) = Ret (Some (w, img)) ->
  rtc (life_step new_jit fresh env img host_call_handler_ jit_Run (l_main l)) (life_init w) s ->
  world_inv (world s) /\
  (alive (at_ s) = true -> exiting_ (world s) = true -> forall t, t ∈ threads_ (registry (world s)) -> t ∈ over s) /\
  (forall status, at_ s = Returned status -> threads_ (registry (world s)) = [] /\
     if exiting_ (world s) then status = exit_status_ (world s)
     else main_ended new_jit fresh env img host_call_handler_ jit_Run (l_main l) w s status) /\
  (alive (at_ s) = true -> can_go_on new_jit fresh env img host_call_handler_ jit_Run (l_main l) s).
Proof.
  intros Hl Henv Hfresh Hh Hlist Hj Er Hreach. destruct (setup_started new_jit (grants env) (file_at env) l reserved Hl) as (r & Er' & Hst). rewrite Er in Er'. injection Er' as <-.
  destruct Hst as (Hw & He & Et & _). assert (life_inv (l_main l) (life_init w)) as Hi by by eapply life_init_inv.
  assert (life_inv (l_main l) s) as Hs by by eapply life_reachable.
  split; [apply Hs|]. split; [intros Ha Hex; by apply Hs|]. split; [|intros Ha; by apply life_progress].
  intros status Eat. destruct (li_returned _ s Hs status Eat) as [Hnil Hst]. split; [done|].
  apply status_kept in Hreach. rewrite Eat in Hreach. destruct (exiting_ (world s)); auto.
Qed.

(** ** Witness *)

Lemma is_Some_test {A} (o : option A) : match o with Some _ => true | None => false end = true -> is_Some o.
Proof. destruct o; [by eexists|discriminate]. Qed.

Section OneTurn.
Context {J : Type} `{Jit J} (new_jit : J) (fresh : Registry J -> Z) (env : Env) (l : Launch) (jit_Run : GuestThread J -> GuestMemory -> Z * GuestThread J * GuestMemory).

(** The worlds of a process whose only thread ends at its first stop: started, after that
    turn, and after [finish_thread]. *)
Definition one_turn (fuel : nat) : option (World J * Image * World J * World J) :=
  match run_setup new_jit (grants env) (file_at env) l (new_process true) with
  | Ret (Some (w, img)) =>
      match turn new_jit fresh env img None jit_Run fuel (l_main l) w with
      | Ret (Some Ends, w1) =>
          match finish_thread env (l_main l) w1 with
          | Ret (_, w2) =>
              if bool_decide (l_main l ∈ threads_ (registry w)) && negb (exiting_ w1) && bool_decide (is_Some (heap (registry w1) !! l_main l)) && bool_decide (threads_ (registry w2) = [])
              then Some (w, img, w1, w2) else None
          | _ => None
          end
      | _ => None
      end
  | _ => None
  end.

Lemma one_turn_life fuel : is_Some (one_turn fuel) ->
  exists w img s status, run_setup new_jit (grants env) (file_at env) l (new_process true) = Ret (Some (w, img)) /\
    rtc (life_step new_jit fresh env img None jit_Run (l_main l)) (life_init w) s /\ at_ s = Returned status.
Proof.
  intros [x Hx]. unfold one_turn in Hx. destruct (run_setup _ _ _ _ _) as [[[w img]|]| |] eqn:Er; try discriminate. destruct (turn _ _ _ _ _ _ _ _ _) as [[[[| |?]|] w1]| |] eqn:Et; try discriminate.
  destruct (finish_thread _ _ _) as [[[] w2]| |] eqn:Ef; try discriminate. destruct (_ && _) eqn:Hb; [|discriminate].
  apply andb_prop in Hb as [[[Hin He]%andb_prop Hg]%andb_prop Hnil]. apply bool_decide_eq_true in Hin, Hg, Hnil. apply negb_true_iff in He. destruct Hg as [g Eg].
  exists w, img, {| world := w2; at_ := Returned (if exiting_ w2 then exit_status_ w2 else exit_status g); over := ({[l_main l]} ∪ ∅) ∖ {[l_main l]}; left := ∅ |}, (if exiting_ w2 then exit_status_ w2 else exit_status g).
  split; [done|]. split; [|done].
  eapply rtc_l; [left; eapply (life_turn _ _ _ _ _ _ _ _ fuel (l_main l) w1 Ends); [done|exact Hin|apply not_elem_of_empty|exact Et]|].
  eapply rtc_l; [left; eapply (life_leave _ _ _ _ _ _ _ _ g w2); [done|set_solver|done|done|exact Ef]|].
  eapply rtc_l; [left; by eapply (life_return _ _ _ _ _ _ _ _ (exit_status g))|]. apply rtc_refl.
Qed.
End OneTurn.

#[local] Existing Instance sample_Jit.
#[local] Existing Instance sample_JitLaws.
#[local] Existing Instance sample_JitControl.

Lemma sample_one_turn : is_Some (one_turn (jit_ sample_thread) sample_fresh sample_env sample_launch exiting_run 5).
Proof. apply is_Some_test. vm_compute. reflexivity. Qed.

Lemma process_life_sound_witness :
  exists (w : World sample_jit) img s status, run_setup (jit_ sample_thread) (grants sample_env) (file_at sample_env) sample_launch (new_process true) = Ret (Some (w, img)) /\
    rtc (life_step (jit_ sample_thread) sample_fresh sample_env img None exiting_run (l_main sample_launch)) (life_init w) s /\ at_ s = Returned status /\
    world_inv (world s) /\ threads_ (registry (world s)) = [].
Proof.
  destruct (one_turn_life (jit_ sample_thread) sample_fresh sample_env sample_launch exiting_run 5 sample_one_turn) as (w & img & s & status & Er & Hreach & Hat).
  destruct (process_life_sound (jit_ sample_thread) sample_fresh sample_env sample_launch None exiting_run true w img s sample_launch_ok sample_env_ok sample_fresh_ok) as (Hw & _ & Hret & _);
    [discriminate|discriminate|exact exiting_run_ok|exact Er|exact Hreach|].
  exists w, img, s, status. split; [exact Er|]. split; [exact Hreach|]. split; [exact Hat|]. split; [exact Hw|]. apply (Hret status Hat).
Defined.
