(* ===== verification/Service.v ===== *)
(** * Host services

    The host calls of the bridge libraries (assets, bitmaps, windows, input,
    configurations, JNI) are served by objects that check the guest's pointers and
    handles, ask a platform backend and may call guest functions (the guest's malloc and
    free).  They are programs of a monad over the state of the object, guest memory and
    the log of calls made so far.

    The backend is the parameter [host], as in [Kernel]; a call that hands it guest memory
    the guest may not access is [Undefined].  A guest function runs guest code, which may
    change memory and come back into the object: the parameter [guest] says what it leaves
    behind.  A deliberate [std::abort] is [Aborted]. *)

From stdpp Require Import numbers list gmap strings.
From S2P Require Import Prelude Handles Bytes GuestMemory InitialStack GuestThread Kernel Syscalls.
Local Open Scope Z_scope.

Record Sv (S : Type) := { own : S; smem : GuestMemory; scalls : list hostcall }.
Arguments own {S} s.
Arguments smem {S} s.
Arguments scalls {S} s.
Arguments Build_Sv {S} _ _ _.

Definition svc (S A : Type) : Type := Sv S -> exec (A * Sv S).

#[global] Instance svc_ret {S} : MRet (svc S) := fun A a s => Ret (a, s).
#[global] Instance svc_bind {S} : MBind (svc S) := fun A B f c s =>
  match c s with Ret (a, s) => f a s | Aborted => Aborted | Undefined => Undefined end.

Definition INT32_MAX : Z := 2 ^ 31 - 1.
Definition UINT32_MAX : Z := 2 ^ 32 - 1.

(** Registers of the calling thread. *)
Definition reg (rs : list Z) (i : nat) : Z := nth i rs 0.
Definition set0 (rs : list Z) (v : Z) : list Z := <[0%nat := v]> rs.
Definition set01 (rs : list Z) (v w : Z) : list Z := <[1%nat := w]> (<[0%nat := v]> rs).

(** The bytes of a message. *)
Definition msg (s : string) : list Z := map (fun c => Z.of_N (Ascii.N_of_ascii c)) (String.list_ascii_of_string s).

(** The [n] bytes behind a pointer of the backend. *)
Definition host_bytes (a : answer) (n : nat) : list Z := map (fun i => u8 (nth i (outs a) 0)) (seq 0 n).

(** ** Operations *)

Definition arg_okb (m : GuestMemory) (a : harg) : bool :=
  match a with
  | HGuest addr len need => (0 <=? addr) && (addr <? 2 ^ 32) && (0 <=? len) && (len <? 2 ^ 40) && ((len =? 0) || accessible m addr len need)
  | _ => true
  end.

Section Operations.
Context {S : Type} (host : list hostcall -> hostcall -> answer) (guest : Z -> list Z -> Sv S -> option GuestResult * Sv S).

Definition get_own : svc S S := fun s => Ret (own s, s).
Definition put_own (x : S) : svc S unit := fun s => Ret (tt, Build_Sv x (smem s) (scalls s)).
Definition abort {A} : svc S A := fun _ => Aborted.
Definition lift_svc {A} (e : exec A) : svc S A := fun s => a ← e; Ret (a, s).

(** [memory().host_ptr(..)]. *)
Definition guest_ptr (addr len need : Z) : svc S (option Z) := fun s => Ret (host_ptr (smem s) addr len need, s).
Definition load (a : Z) (n : nat) : svc S (list Z) := fun s => bs ← load_bytes (smem s) a n; Ret (bs, s).
Definition store (a : Z) (bs : list Z) : svc S unit := fun s => m ← host_write (smem s) a bs; Ret (tt, Build_Sv (own s) m (scalls s)).

(** A call of the backend. *)
Definition backend (name : string) (args : list harg) : svc S answer := fun s =>
  if forallb (arg_okb (smem s)) args then
    let c := {| h_name := name; h_args := args |} in
    let a := host (scalls s) c in
    m ← store_all (smem s) (guest_writes a);
    Ret (a, Build_Sv (own s) m (scalls s ++ [c]))
  else Undefined.

(** [call_on_current(function, args)] with up to four words. *)
Definition call_guest (f : Z) (args : list Z) : svc S (option GuestResult) := fun s =>
  Ret (guest f args (Build_Sv (own s) (smem s) (scalls s ++ [{| h_name := "guest"; h_args := HInt f :: map HInt args |}]))).

(** ** The guest's heap *)

Context (malloc_fn free_fn : Z).

Definition allocate_guest (size : Z) : svc S Z :=
  r ← call_guest malloc_fn [size; 0; 0; 0];
  mret (match r with Some r => res_r0 r | None => 0 end).

Definition free_guest (address : Z) : svc S unit :=
  if address =? 0 then mret tt else _ ← call_guest free_fn [address; 0; 0; 0]; mret tt.

(** ** Strings *)

(** A string of the guest, page by page, until [limit] bytes were read without its end;
    [fuel] pages at most. *)
Fixpoint string_loop (fuel : nat) (limit cursor : Z) (acc : list Z) : svc S (option (list Z)) :=
  match fuel with
  | O => mret None
  | Datatypes.S fuel =>
      if (kGuestSpaceSize <=? cursor) || (limit <? size acc) then mret None
      else
        let chunk := kPageSize - Z.land cursor kPageMask in
        p ← guest_ptr (u32 cursor) chunk kPageRead;
        match p with
        | None => mret None
        | Some p =>
            bs ← load p (Z.to_nat chunk);
            match until_zero bs with
            | Some s => mret (Some (acc ++ s))
            | None => string_loop fuel limit (cursor + chunk) (acc ++ bs)
            end
        end
  end.

(** The switch of a [handle_host_call]: [None] when the index is not served. *)
Definition serve (table : list (Z * (list Z -> svc S (list Z)))) (index : Z) (rs : list Z) : svc S (option (list Z)) :=
  match list_find (fun e => fst e = index) table with
  | Some (_, (_, h)) => rs ← h rs; mret (Some rs)
  | None => mret None
  end.
End Operations.

(** ** Reasoning *)

(** The outcome satisfies [Q], or is an abort that [X] allows. *)
Definition runs {A} (X : Prop) (e : exec A) (Q : A -> Prop) : Prop :=
  match e with Ret a => Q a | Aborted => X | Undefined => False end.

Section Reasoning.
Context {S : Type}.

Definition wp {A} (X : Prop) (c : svc S A) (s : Sv S) (Q : A -> Sv S -> Prop) : Prop := runs X (c s) (fun '(a, s) => Q a s).

Lemma wp_ret {A} X (a : A) s (Q : A -> Sv S -> Prop) : Q a s -> wp X (mret a) s Q.
Proof. done. Qed.

(** A concrete run that returns, and what is known about it. *)
Lemma wp_run {A} X (c : svc S A) s Q (test : A -> bool) :
  wp X c s Q -> match c s with Ret (a, _) => test a | _ => false end = true -> exists a s', c s = Ret (a, s') /\ test a = true /\ Q a s'.
Proof. unfold wp, runs. destruct (c s) as [[a s']| |]; [|done..]. intros HQ Ht. by exists a, s'. Qed.

(** The state a program leaves. *)
Definition state_after {A} (c : svc S A) (s : Sv S) : Sv S := match c s with Ret (_, s') => s' | _ => s end.

Lemma wp_state {A} X (c : svc S A) s (P : Sv S -> Prop) : P s -> wp X c s (fun _ s' => P s') -> P (state_after c s).
Proof. unfold wp, state_after. by destruct (c s) as [[a s']| |]. Qed.

Lemma wp_bind {A B} X (c : svc S A) (f : A -> svc S B) s Q : wp X c s (fun a s => wp X (f a) s Q) -> wp X (c ≫= f) s Q.
Proof. unfold wp, mbind, svc_bind. by destruct (c s) as [[a s']| |]. Qed.

Lemma wp_mono {A} X (c : svc S A) s (P Q : A -> Sv S -> Prop) : wp X c s P -> (forall a s, P a s -> Q a s) -> wp X c s Q.
Proof. unfold wp, runs. destruct (c s) as [[a s']| |]; auto. Qed.

Lemma wp_get_own X (s : Sv S) Q : Q (own s) s -> wp X get_own s Q.
Proof. done. Qed.

Lemma wp_put_own X x (s : Sv S) Q : Q tt (Build_Sv x (smem s) (scalls s)) -> wp X (put_own x) s Q.
Proof. done. Qed.

Lemma wp_lift {A} X (e : exec A) (s : Sv S) Q : runs X e (fun a => Q a s) -> wp X (lift_svc e) s Q.
Proof. unfold wp, lift_svc. by destruct e. Qed.

Lemma wp_abort {A} (X : Prop) (s : Sv S) (Q : A -> Sv S -> Prop) : X -> wp X abort s Q.
Proof. done. Qed.

Lemma wp_ptr X addr len need (s : Sv S) Q :
  (accessible (smem s) addr len need = true -> Q (Some addr) s) -> (accessible (smem s) addr len need = false -> Q None s) -> wp X (guest_ptr addr len need) s Q.
Proof. intros H1 H2. unfold wp, guest_ptr, host_ptr, runs. destruct (accessible _ _ _ _); auto. Qed.

Lemma wp_load X a n need (s : Sv S) Q :
  mem_wf (smem s) -> 0 <= a < 2 ^ 32 -> Z.of_nat n < 2 ^ 40 -> accessible (smem s) a (Z.of_nat n) need = true -> has_bits need (Z.lor kPageRead kPageExec) = true ->
  Q (bytes_at (smem s) a n) s -> wp X (load a n) s Q.
Proof. intros Hm Ha Hn Hacc Hneed HQ. unfold wp, load. by rewrite (load_bytes_ok _ _ _ need), exec_ret_bind. Qed.

Lemma wp_store X a bs addr len need (s : Sv S) Q :
  mem_wf (smem s) -> 0 <= addr < 2 ^ 32 -> 0 <= len < 2 ^ 40 -> accessible (smem s) addr len need = true -> has_bits need kPageWrite = true ->
  addr <= a -> a + size bs <= addr + len ->
  (forall m, host_write (smem s) a bs = Ret m -> only_writable (smem s) m -> mem_wf m -> Q tt (Build_Sv (own s) m (scalls s))) -> wp X (store a bs) s Q.
Proof.
  intros Hm Ha Hl Hacc Hneed Hle Hend HQ. destruct (write_ok (smem s) a bs addr len need) as (m & E & How); [done..|].
  unfold wp, store. rewrite E, exec_ret_bind. apply HQ; [done|done|by eapply only_writable_wf].
Qed.

Lemma wp_serve X table index rs (s : Sv S) Q :
  (forall h, (index, h) ∈ table -> wp X (h rs) s (fun rs' s' => Q (Some rs') s')) -> (index ∉ table.*1 -> Q None s) -> wp X (serve table index rs) s Q.
Proof.
  intros Hh Hn. unfold serve. destruct (list_find _ table) as [[i [n h]]|] eqn:E.
  - apply list_find_Some in E as (Hi & Hidx & _). cbn in Hidx. subst n. apply wp_bind, Hh. by eapply list_elem_of_lookup_2.
  - apply wp_ret, Hn. rewrite list_elem_of_fmap. intros ([n h] & -> & Hin). apply list_find_None in E. rewrite Forall_forall in E. by apply (E _ Hin).
Qed.

Lemma arg_okb_spec m a : arg_okb m a = true <-> arg_ok m a.
Proof.
  destruct a; cbn; try done. rewrite !andb_true_iff, orb_true_iff, Z.leb_le, Z.ltb_lt, Z.leb_le, Z.ltb_lt, Z.eqb_eq. tauto.
Qed.

Context (host : list hostcall -> hostcall -> answer) (Hhost : kernel_ok host).

Lemma wp_backend X name args (s : Sv S) Q :
  mem_wf (smem s) -> Forall (arg_ok (smem s)) args ->
  (forall m, only_writable (smem s) m -> mem_wf m ->
     Q (host (scalls s) {| h_name := name; h_args := args |}) (Build_Sv (own s) m (scalls s ++ [{| h_name := name; h_args := args |}]))) ->
  wp X (backend host name args) s Q.
Proof.
  intros Hm Hargs HQ. unfold wp, backend. assert (forallb (arg_okb (smem s)) args = true) as ->.
  { apply forallb_forall. intros a Ha%list_elem_of_In. apply arg_okb_spec. by eapply Forall_forall in Hargs. }
  destruct (gives_call host Hhost (smem s) name args Hargs {| km := smem s; klog := scalls s |} Hm eq_refl) as (a & k & E & [How _] & _).
  unfold call in E. cbn [km klog] in E. destruct (store_all _ _) as [m| |]; [|done..]. rewrite exec_ret_bind in *. injection E as <- <-. apply HQ; [done|by eapply only_writable_wf].
Qed.
End Reasoning.

(** What guest code promises: memory stays well formed, and the object satisfies [I] when
    it did. *)
Definition guest_ok {S} (I : S -> Prop) (guest : Z -> list Z -> Sv S -> option GuestResult * Sv S) : Prop :=
  forall f args s, I (own s) -> mem_wf (smem s) ->
    let '(r, s') := guest f args s in
    I (own s') /\ mem_wf (smem s') /\ match r with Some r => 0 <= res_r0 r < 2 ^ 32 /\ 0 <= res_r1 r < 2 ^ 32 | None => True end.

Section GuestCalls.
Context {S : Type} (guest : Z -> list Z -> Sv S -> option GuestResult * Sv S) (I : S -> Prop) (Hguest : guest_ok I guest).

Lemma wp_guest X f args (s : Sv S) Q :
  I (own s) -> mem_wf (smem s) ->
  (forall r s', I (own s') -> mem_wf (smem s') -> match r with Some r => 0 <= res_r0 r < 2 ^ 32 /\ 0 <= res_r1 r < 2 ^ 32 | None => True end -> Q r s') ->
  wp X (call_guest guest f args) s Q.
Proof.
  intros HI Hm HQ. unfold wp, call_guest, runs. specialize (Hguest f args (Build_Sv (own s) (smem s) (scalls s ++ [{| h_name := "guest"; h_args := HInt f :: map HInt args |}])) HI Hm).
  destruct (guest _ _ _) as [r s']. destruct Hguest as (H1 & H2 & H3). by apply HQ.
Qed.

Lemma wp_allocate X malloc_fn size (s : Sv S) Q :
  I (own s) -> mem_wf (smem s) -> (forall a s', I (own s') -> mem_wf (smem s') -> 0 <= a < 2 ^ 32 -> Q a s') -> wp X (allocate_guest guest malloc_fn size) s Q.
Proof.
  intros HI Hm HQ. apply wp_bind, wp_guest; [done..|]. intros r s' HI' Hm' Hr. apply wp_ret, HQ; [done..|]. destruct r; [apply Hr|lia].
Qed.

Lemma wp_free X free_fn a (s : Sv S) Q :
  I (own s) -> mem_wf (smem s) -> (forall s', I (own s') -> mem_wf (smem s') -> Q tt s') -> wp X (free_guest guest free_fn a) s Q.
Proof.
  intros HI Hm HQ. unfold free_guest. destruct (a =? 0); [by apply wp_ret, HQ|]. apply wp_bind, wp_guest; [done..|]. intros r s' HI' Hm' _. by apply wp_ret, HQ.
Qed.
End GuestCalls.

(** ** Strings, exactly *)

(** The string at [addr]; or there is none that ends within [limit] bytes on readable
    pages. *)
Definition string_result (m : GuestMemory) (limit addr : Z) (r : option (list Z)) : Prop :=
  match r with
  | Some t => text_at m addr t /\ addr + size t < 2 ^ 32 /\ readable m (addr + size t) /\ u8 (bytes_ m (addr + size t)) = 0 /\ size t <= limit + 4095
  | None => exists t, text_at m addr t /\ (limit < size t \/ addr + size t = 2 ^ 32 \/ addr + size t < 2 ^ 32 /\ ~ readable m (addr + size t))
  end.

Section Strings.
Context {S : Type}.

Lemma string_loop_exact X fuel limit addr acc (s : Sv S) :
  mem_wf (smem s) -> 0 <= addr -> 0 <= limit -> addr + size acc <= 2 ^ 32 -> text_at (smem s) addr acc -> (acc = [] \/ (addr + size acc) mod 4096 = 0) ->
  limit - size acc < (Z.of_nat fuel - (if decide (acc = []) then 1 else 0)) * 4096 + (if decide (acc = []) then 1 else 0) ->
  wp X (string_loop fuel limit (addr + size acc) acc) s (fun r s' => s' = s /\ string_result (smem s) limit addr r).
Proof.
  intros Hm Ha Hl. revert acc. induction fuel as [|fuel IH]; intros acc Hle Ht Hal Hf.
  { apply wp_ret. split; [done|]. exists acc. split; [done|]. left. destruct (decide (acc = [])); lia. }
  cbn [string_loop]. change kGuestSpaceSize with (2 ^ 32). set (cur := addr + size acc) in *. destruct (Z.leb_spec (2 ^ 32) cur) as [Hend|Hlt]; cbn [orb].
  { apply wp_ret. split; [done|]. exists acc. split; [done|]. right. left. unfold cur in *. lia. }
  destruct (Z.ltb_spec limit (size acc)) as [Hbig|Hsmall]; [apply wp_ret; split; [done|]; exists acc; split; [done|by left]|].
  assert (0 <= cur < 2 ^ 32) as Hc by (unfold cur, size in *; lia). rewrite u32_small, land_page_mask by lia. change kPageSize with 4096.
  pose proof (Z.div_mod cur 4096 ltac:(lia)). pose proof (Z.mod_pos_bound cur 4096 ltac:(lia)). set (e := (cur / 4096 + 1) * 4096). assert (4096 - cur mod 4096 = e - cur) as -> by (unfold e; lia).
  pose proof (accessible_byte (smem s) cur Hc) as Hacc. apply wp_bind, wp_ptr; intros Ea.
  - assert (readable (smem s) cur) as Hr. { apply Hacc. rewrite accessible_pages in Ea by (unfold e; lia). destruct Ea as [?|[_ Hp]]; [unfold e in *; lia|]. apply accessible_pages; [lia..|]. right. split; [lia|].
      intros i Hi. apply Hp. replace (cur + 1 - 1) with cur in Hi by lia. split; [lia|]. etrans; [apply Hi|]. apply Z.div_le_mono; unfold e; lia. }
    apply wp_bind, (wp_load _ _ _ kPageRead); [done|done|unfold e; lia|rewrite Z2Nat.id by (unfold e; lia); done|done|].
    pose proof (page_text (smem s) cur Hm Hc Hr) as Hz. cbv zeta in Hz. fold e in Hz. set (bs := bytes_at (smem s) cur (Z.to_nat (e - cur))) in *.
    assert (size bs = e - cur) as Esz by (unfold size, bs; rewrite length_bytes_at; unfold e; lia). assert (e <= 2 ^ 32) by (destruct (page_rest (smem s) cur Hm Hc Hr) as (_ & _ & ?); done).
    destruct (until_zero bs) as [t|].
    + apply wp_ret. split; [done|]. destruct Hz as (Ht' & Hse & Hrs & Hnul). assert (addr + size (acc ++ t) = cur + size t) as E by (unfold cur, size; rewrite length_app; lia).
      split; [by apply text_at_app|]. rewrite E. split_and!; [lia|done|done|]. unfold size in *. rewrite length_app. unfold e in *. lia.
    + assert (cur + (e - cur) = addr + size (acc ++ bs)) as -> by (unfold size in *; rewrite length_app; unfold cur; lia).
      assert (acc ++ bs <> []) as Hne by (intros [_ ->]%app_eq_nil; unfold size, e in *; cbn in *; lia).
      apply IH; [unfold size in *; rewrite length_app; unfold cur in *; lia|by apply text_at_app|right|].
      * replace (addr + size (acc ++ bs)) with ((cur / 4096 + 1) * 4096); [by apply Z.mod_mul|]. fold e. unfold size in *. rewrite length_app. unfold cur in *. lia.
      * rewrite decide_False by done. unfold size in *. rewrite length_app. destruct (decide (acc = [])) as [->|Hn]; [cbn in *; unfold e in *; lia|].
        destruct Hal as [?|Hal]; [done|]. fold cur in Hal. unfold e in *. lia.
  - apply wp_ret. split; [done|]. exists acc. split; [done|]. right. right. split; [done|]. intros Hr. apply Hacc in Hr.
    rewrite (accessible_page (smem s) cur (e - cur)) in Ea; [done|done|unfold e; lia|unfold e; lia|done].
Qed.

Lemma wp_string X fuel limit addr (s : Sv S) Q :
  mem_wf (smem s) -> 0 <= addr < 2 ^ 32 -> 0 <= limit <= (Z.of_nat fuel - 1) * 4096 -> (forall r, string_result (smem s) limit addr r -> Q r s) -> wp X (string_loop fuel limit addr []) s Q.
Proof.
  intros Hm Ha Hl HQ. apply (wp_mono _ _ _ (fun r s' => s' = s /\ string_result (smem s) limit addr r)); [|intros r s' [-> Hr]; by apply HQ]. replace addr with (addr + size []) at 1 by (unfold size; cbn; lia).
  apply string_loop_exact; [done|lia|lia|unfold size; cbn; lia| |by left|].
  - split_and!; [done..|]. intros x Hx. unfold size in Hx. cbn in Hx. lia.
  - rewrite decide_True by done. unfold size. cbn. lia.
Qed.
End Strings.

(** ** Registers *)

Definition words (rs : list Z) : Prop := length rs = 16%nat /\ Forall (fun v => 0 <= v < 2 ^ 32) rs.

(** A call leaves its result in r0 and r1 and the other registers as they were. *)
Definition answered (rs rs' : list Z) : Prop := words rs' /\ forall i, (2 <= i)%nat -> rs' !! i = rs !! i.

Lemma reg_word rs i : words rs -> 0 <= reg rs i < 2 ^ 32.
Proof.
  intros [_ Hf]. unfold reg. destruct (nth_in_or_default i rs 0) as [Hi| ->]; [|lia]. apply list_elem_of_In in Hi. rewrite Forall_forall in Hf. by apply Hf.
Qed.

Lemma answered_set0 rs v : words rs -> 0 <= v < 2 ^ 32 -> answered rs (set0 rs v).
Proof.
  intros [Hl Hf] Hv. split; [split; [unfold set0; by rewrite length_insert|by apply Forall_insert]|]. intros i Hi. unfold set0. by rewrite list_lookup_insert_ne by lia.
Qed.

Lemma answered_set01 rs v w : words rs -> 0 <= v < 2 ^ 32 -> 0 <= w < 2 ^ 32 -> answered rs (set01 rs v w).
Proof.
  intros [Hl Hf] Hv Hw. split; [split; [unfold set01; by rewrite !length_insert|by apply Forall_insert; [apply Forall_insert|]]|].
  intros i Hi. unfold set01. by rewrite !list_lookup_insert_ne by lia.
Qed.

Lemma set0_twice rs v w : set0 (set0 rs v) w = set0 rs w.
Proof. apply list_insert_insert_eq. Qed.

(** ** Handle tables inside an object *)

Definition live_value (t : GlobalHandles) (r : Z) : Prop := exists h, 0 < h /\ GlobalHandles_get t h = Ret (Some r).
Definition room (t : GlobalHandles) : Prop := free_ t <> [] \/ Z.of_nat (length (grefs_ t)) < kMaxSlots.

Lemma runs_get X t h (Q : option Z -> Prop) : global_wf t -> 0 <= h -> Q None -> (h = 0 -> Q (Some 0)) -> (forall r, r <> 0 -> 0 < h -> GlobalHandles_get t h = Ret (Some r) -> Q (Some r)) -> runs X (GlobalHandles_get t h) Q.
Proof.
  intros Hwf Hh Hn H0 Hs. destruct (decide (h = 0)) as [->|Hne]; [by apply H0|]. destruct (global_get_spec t h Hwf Hne) as [(r & E & Hl)|(E & _)]; rewrite E; [|done].
  apply Hs; [apply Hl|lia|done].
Qed.

Lemma runs_add (X : Prop) t r (Q : Z * GlobalHandles -> Prop) :
  global_wf t -> r <> 0 -> (~ room t -> X) ->
  (forall h t', global_wf t' -> 0 < h < 2 ^ 32 -> GlobalHandles_get t' h = Ret (Some r) -> (forall v, live_value t v -> live_value t' v) ->
     (forall h', 0 <= h' -> h' <> h -> GlobalHandles_get t' h' = GlobalHandles_get t h') -> Q (h, t')) -> runs X (GlobalHandles_add t r) Q.
Proof.
  intros Hwf Hr HX HQ. destruct (GlobalHandles_add t r) as [[h t']| |] eqn:E.
  - destruct (global_add_ok t r h t' Hwf Hr E) as (Hwf' & Hh & Hnone & _ & Hget & Hsame). apply HQ; [done..| |done].
    intros v (h' & Hp & Hg). destruct (decide (h' = h)) as [->|Hne]; [congruence|]. exists h'. split; [done|]. by rewrite Hsame by lia.
  - apply HX. destruct (global_add_spec t r Hwf Hr) as [(t' & i & v & E' & _)|(_ & Hf & Hl)]; [congruence|]. intros [?|?]; [done|lia].
  - destruct (global_add_spec t r Hwf Hr) as [(t' & i & v & E' & _)|(E' & _)]; congruence.
Qed.

Lemma runs_add_new (Y : Prop) t r (Q : Z * GlobalHandles -> Prop) :
  global_wf t -> r <> 0 -> (~ room t -> Y) ->
  (forall h t', global_wf t' -> 0 < h < 2 ^ 32 -> GlobalHandles_get t h = Ret None -> GlobalHandles_get t' h = Ret (Some r) -> (forall h', 0 <= h' -> h' <> h -> GlobalHandles_get t' h' = GlobalHandles_get t h') -> Q (h, t')) -> runs Y (GlobalHandles_add t r) Q.
Proof.
  intros Ht Hr HY HQ. pose proof (runs_add Y t r (fun _ => True) Ht Hr HY ltac:(done)) as H. destruct (GlobalHandles_add t r) as [[h t']| |] eqn:E; [|done..]. destruct (global_add_ok t r h t' Ht Hr E) as (H1 & H2 & H3 & _ & H4 & H5). by apply HQ.
Qed.

Lemma runs_remove X t h (Q : option Z * GlobalHandles -> Prop) :
  global_wf t -> 0 <= h -> Q (None, t) -> (h = 0 -> Q (Some 0, t)) ->
  (forall r t', r <> 0 -> 0 < h -> GlobalHandles_get t h = Ret (Some r) -> global_wf t' -> GlobalHandles_get t' h = Ret None ->
     (forall v, v <> r -> live_value t v -> live_value t' v) -> (forall h', 0 <= h' -> h' <> h -> GlobalHandles_get t' h' = GlobalHandles_get t h') -> Q (Some r, t')) ->
  runs X (GlobalHandles_remove t h) Q.
Proof.
  intros Hwf Hh Hn H0 Hs. destruct (decide (h = 0)) as [->|Hne]; [by apply H0|]. destruct (global_get_spec t h Hwf Hne) as [(r & E & Hl)|(_ & _ & E)]; [|by rewrite E].
  destruct (global_remove_ok t h r Hwf ltac:(lia) E) as (t' & Er & Hwf' & Hsp & _ & _ & Hsame). rewrite Er. apply Hs; [apply Hl|lia|done|done|exact (ht_spent_get t' h Hwf' Hsp)| |done].
  intros v Hv (h' & Hp & Hg). exists h'. split; [done|]. rewrite Hsame; [done|lia|]. intros ->. congruence.
Qed.

(** ** What was taken and given back *)

(** The sum over a log of what each call, after those before it, takes ([delta]). *)
Fixpoint log_total (delta : list hostcall -> hostcall -> Z) (past log : list hostcall) : Z :=
  match log with [] => 0 | c :: rest => delta past c + log_total delta (past ++ [c]) rest end.

Lemma log_total_snoc delta log c : forall past, log_total delta past (log ++ [c]) = log_total delta past log + delta (past ++ log) c.
Proof. induction log as [|d log IH]; intros past; cbn; [by rewrite app_nil_r; lia|]. rewrite IH, <- app_assoc. cbn. lia. Qed.

(** ** Checked arguments *)

(** An argument the driver may get under the page table [p]. *)
Definition arg_okp (p : Z -> Z) (a : harg) : Prop := forall m, pages_ m = p -> arg_ok m a.

Lemma arg_okp_int p z : arg_okp p (HInt z).
Proof. done. Qed.
Lemma arg_okp_forall p args m : pages_ m = p -> Forall (arg_okp p) args -> Forall (arg_ok m) args.
Proof. intros E H. eapply Forall_impl; [exact H|]. intros a Ha. by apply Ha. Qed.

(** A pointer the bridge checked for [n] bytes. *)
Definition ptr_okp (p : Z -> Z) (q : option Z) (n need : Z) : Prop :=
  match q with Some a => 0 < a < 2 ^ 32 /\ 0 <= n <= 2 ^ 32 /\ forall m, pages_ m = p -> accessible m a n need = true | None => True end.

Lemma arg_okp_ptr p q n need : ptr_okp p q n need -> arg_okp p (garg q n need).
Proof. destruct q as [a|]; [|done]. intros (Ha & Hn & Hacc) m Em. cbn. split_and!; [lia..|]. right. by apply Hacc. Qed.

(** ** Contracts *)

(** Every call of a log fulfils a contract that may depend on the calls before it. *)
Lemma contracts_snoc (contract : list hostcall -> hostcall -> Prop) log c : (forall i c, log !! i = Some c -> contract (take i log) c) -> contract log c -> forall i d, (log ++ [c]) !! i = Some d -> contract (take i (log ++ [c])) d.
Proof.
  intros Hl Hc i d Hi. apply lookup_app_Some in Hi as [Hi|[Hlen Hi]].
  - pose proof (lookup_lt_Some _ _ _ Hi). rewrite take_app_le by lia. by apply Hl.
  - destruct (i - length log)%nat as [|k] eqn:Ek; [|done]. injection Hi as <-. replace i with (length log) by lia. by rewrite take_app_length.
Qed.
