(* ===== verification/HostAssets.v ===== *)
(** * Assets

    [core/src/assets/host_assets.cpp]: the AAsset host calls (indices 142 to 159).  Asset
    managers, assets and directories of the platform are named by handles of three tables;
    the buffer of an asset and the current name of a directory are copies in the guest's
    heap that the object owns.  A call holds the object's (recursive) mutex, so it is one
    step; what the guest's allocator does meanwhile is the parameter [guest]. *)

From stdpp Require Import numbers list gmap strings.
From S2P Require Import Prelude Handles Bytes GuestMemory InitialStack GuestThread Kernel Syscalls Service.
Local Open Scope Z_scope.

Definition kMaxFilenameLength : Z := 4096.
Definition kMaxBufferedBytes : Z := Z.shiftl 64 20.

Definition ZB_ASSET_HC_AAssetDir_close : Z := 142.
Definition ZB_ASSET_HC_AAssetDir_getNextFileName : Z := 143.
Definition ZB_ASSET_HC_AAssetDir_rewind : Z := 144.
Definition ZB_ASSET_HC_AAssetManager_fromJava : Z := 145.
Definition ZB_ASSET_HC_AAssetManager_open : Z := 146.
Definition ZB_ASSET_HC_AAssetManager_openDir : Z := 147.
Definition ZB_ASSET_HC_AAsset_close : Z := 148.
Definition ZB_ASSET_HC_AAsset_getBuffer : Z := 149.
Definition ZB_ASSET_HC_AAsset_getLength : Z := 150.
Definition ZB_ASSET_HC_AAsset_getLength64 : Z := 151.
Definition ZB_ASSET_HC_AAsset_getRemainingLength : Z := 152.
Definition ZB_ASSET_HC_AAsset_getRemainingLength64 : Z := 153.
Definition ZB_ASSET_HC_AAsset_isAllocated : Z := 154.
Definition ZB_ASSET_HC_AAsset_openFileDescriptor : Z := 155.
Definition ZB_ASSET_HC_AAsset_openFileDescriptor64 : Z := 156.
Definition ZB_ASSET_HC_AAsset_read : Z := 157.
Definition ZB_ASSET_HC_AAsset_seek : Z := 158.
Definition ZB_ASSET_HC_AAsset_seek64 : Z := 159.

Record HostAssets := {
  managers_ : GlobalHandles;
  assets_ : GlobalHandles;
  directories_ : GlobalHandles;
  logged_overflow_ : bool;
  asset_buffers_ : gmap Z Z;
  directory_names_ : gmap Z Z;
  buffered_bytes_ : Z;
}.

Definition HostAssets_init : HostAssets :=
  {| managers_ := GlobalHandles_init Global; assets_ := GlobalHandles_init Global; directories_ := GlobalHandles_init Global; logged_overflow_ := false;
     asset_buffers_ := ∅; directory_names_ := ∅; buffered_bytes_ := 0 |}.

Definition with_managers (a : HostAssets) (t : GlobalHandles) : HostAssets :=
  {| managers_ := t; assets_ := assets_ a; directories_ := directories_ a; logged_overflow_ := logged_overflow_ a;
     asset_buffers_ := asset_buffers_ a; directory_names_ := directory_names_ a; buffered_bytes_ := buffered_bytes_ a |}.
Definition with_assets (a : HostAssets) (t : GlobalHandles) : HostAssets :=
  {| managers_ := managers_ a; assets_ := t; directories_ := directories_ a; logged_overflow_ := logged_overflow_ a;
     asset_buffers_ := asset_buffers_ a; directory_names_ := directory_names_ a; buffered_bytes_ := buffered_bytes_ a |}.
Definition with_directories (a : HostAssets) (t : GlobalHandles) : HostAssets :=
  {| managers_ := managers_ a; assets_ := assets_ a; directories_ := t; logged_overflow_ := logged_overflow_ a;
     asset_buffers_ := asset_buffers_ a; directory_names_ := directory_names_ a; buffered_bytes_ := buffered_bytes_ a |}.
Definition with_logged (a : HostAssets) : HostAssets :=
  {| managers_ := managers_ a; assets_ := assets_ a; directories_ := directories_ a; logged_overflow_ := true;
     asset_buffers_ := asset_buffers_ a; directory_names_ := directory_names_ a; buffered_bytes_ := buffered_bytes_ a |}.
Definition with_buffers (a : HostAssets) (m : gmap Z Z) (bytes : Z) : HostAssets :=
  {| managers_ := managers_ a; assets_ := assets_ a; directories_ := directories_ a; logged_overflow_ := logged_overflow_ a;
     asset_buffers_ := m; directory_names_ := directory_names_ a; buffered_bytes_ := bytes |}.
Definition with_names (a : HostAssets) (m : gmap Z Z) : HostAssets :=
  {| managers_ := managers_ a; assets_ := assets_ a; directories_ := directories_ a; logged_overflow_ := logged_overflow_ a;
     asset_buffers_ := asset_buffers_ a; directory_names_ := m; buffered_bytes_ := buffered_bytes_ a |}.

Section HostAssets.
Context (host : list hostcall -> hostcall -> answer) (guest : Z -> list Z -> Sv HostAssets -> option GuestResult * Sv HostAssets).
(** [service_api()], and what [HostJni] answers on the calling thread: [resolve_ref] aborts
    on an invalid reference. *)
Context (malloc_fn free_fn : Z) (current_env : Z) (resolve_ref : Z -> exec Z).

#[local] Notation svc := (svc HostAssets).
#[local] Notation backend := (backend host).
#[local] Notation allocate_guest := (allocate_guest guest malloc_fn).
#[local] Notation free_guest := (free_guest guest free_fn).

Definition require (table : HostAssets -> GlobalHandles) (handle : Z) : svc Z :=
  st ← get_own;
  r ← lift_svc (GlobalHandles_get (table st) handle);
  mret (default 0 r).

Definition require_manager : Z -> svc Z := require managers_.
Definition require_asset : Z -> svc Z := require assets_.

Definition copy_to_guest (source : list Z) : svc Z :=
  if (size source =? 0) || (UINT32_MAX <? size source) then mret 0
  else
    address ← allocate_guest (size source);
    if address =? 0 then mret 0
    else
      destination ← guest_ptr address (size source) kPageWrite;
      match destination with
      | None => _ ← free_guest address; mret 0
      | Some p => _ ← store p source; mret address
      end.

(** [emplace] does nothing when the key is there. *)
Definition emplace (m : gmap Z Z) (k v : Z) : gmap Z Z := match m !! k with Some _ => m | None => <[k := v]> m end.

Definition asset_buffer (asset : Z) : svc Z :=
  st ← get_own;
  match asset_buffers_ st !! asset with
  | Some address => mret address
  | None =>
      length ← backend "length" [HInt asset];
      bytes ← backend "buffer" [HInt asset];
      let size := s64 (ret length) in
      if (ret bytes =? 0) || (size <=? 0) then mret 0
      else if (kMaxBufferedBytes <? size) || (kMaxBufferedBytes <? u64 (buffered_bytes_ st + size)) then mret 0
      else
        address ← copy_to_guest (host_bytes bytes (Z.to_nat size));
        if address =? 0 then mret 0
        else
          st ← get_own;
          _ ← put_own (with_buffers st (emplace (asset_buffers_ st) asset address) (u64 (buffered_bytes_ st + size)));
          mret address
  end.

(** [free_guest(name->second); directory_names_.erase(name)]. *)
Definition drop_name (directory : Z) : svc unit :=
  st ← get_own;
  match directory_names_ st !! directory with
  | None => mret tt
  | Some address =>
      _ ← free_guest address;
      st ← get_own;
      put_own (with_names st (delete directory (directory_names_ st)))
  end.

Definition hc_dir_close (rs : list Z) : svc (list Z) :=
  st ← get_own;
  '(directory, t) ← lift_svc (GlobalHandles_remove (directories_ st) (reg rs 0));
  _ ← put_own (with_directories st t);
  _ ← match directory with
      | Some d => if d =? 0 then mret tt else _ ← drop_name d; _ ← backend "close_dir" [HInt d]; mret tt
      | None => mret tt
      end;
  mret (set0 rs 0).

Definition hc_next_file_name (rs : list Z) : svc (list Z) :=
  st ← get_own;
  directory ← lift_svc (GlobalHandles_get (directories_ st) (reg rs 0));
  let rs := set0 rs 0 in
  match directory with
  | None => mret rs
  | Some d =>
      if d =? 0 then mret rs
      else
        _ ← drop_name d;
        name ← backend "next_file_name" [HInt d];
        if ret name =? 0 then mret rs
        else
          let text := default (map u8 (outs name)) (until_zero (map u8 (outs name))) in
          if kMaxFilenameLength <? size text then mret rs
          else
            address ← copy_to_guest (text ++ [0]);
            st ← get_own;
            _ ← (if address =? 0 then mret tt else put_own (with_names st (emplace (directory_names_ st) d address)));
            mret (set0 rs address)
  end.

Definition hc_dir_rewind (rs : list Z) : svc (list Z) :=
  d ← require directories_ (reg rs 0);
  _ ← (if d =? 0 then mret tt else _ ← backend "rewind_dir" [HInt d]; mret tt);
  mret (set0 rs 0).

Definition hc_manager_from_java (rs : list Z) : svc (list Z) :=
  java_manager ← lift_svc (resolve_ref (reg rs 1));
  manager ← backend "manager_from_java" [HInt current_env; HInt java_manager];
  st ← get_own;
  '(h, t) ← lift_svc (if ret manager =? 0 then Ret (0, managers_ st) else GlobalHandles_add (managers_ st) (ret manager));
  _ ← put_own (with_managers st t);
  mret (set0 rs h).

Definition read_filename (address : Z) : svc (option (list Z)) :=
  if address =? 0 then mret None else string_loop 3 kMaxFilenameLength address [].

Definition hc_open (rs : list Z) : svc (list Z) :=
  manager ← require_manager (reg rs 0);
  filename ← (if manager =? 0 then mret None else read_filename (reg rs 1));
  match filename with
  | None => mret (set0 rs 0)
  | Some filename =>
      asset ← backend "open" [HInt manager; HPath filename; HInt (s32 (reg rs 2))];
      st ← get_own;
      '(h, t) ← lift_svc (if ret asset =? 0 then Ret (0, assets_ st) else GlobalHandles_add (assets_ st) (ret asset));
      _ ← put_own (with_assets st t);
      _ ← (if negb (ret asset =? 0) && (h =? 0) then _ ← backend "close" [HInt (ret asset)]; mret tt else mret tt);
      mret (set0 rs h)
  end.

Definition hc_open_dir (rs : list Z) : svc (list Z) :=
  manager ← require_manager (reg rs 0);
  name ← (if manager =? 0 then mret None else read_filename (reg rs 1));
  match name with
  | None => mret (set0 rs 0)
  | Some name =>
      directory ← backend "open_dir" [HInt manager; HPath name];
      st ← get_own;
      '(h, t) ← lift_svc (if ret directory =? 0 then Ret (0, directories_ st) else GlobalHandles_add (directories_ st) (ret directory));
      _ ← put_own (with_directories st t);
      _ ← (if negb (ret directory =? 0) && (h =? 0) then _ ← backend "close_dir" [HInt (ret directory)]; mret tt else mret tt);
      mret (set0 rs h)
  end.

Definition hc_close (rs : list Z) : svc (list Z) :=
  st ← get_own;
  '(asset, t) ← lift_svc (GlobalHandles_remove (assets_ st) (reg rs 0));
  _ ← put_own (with_assets st t);
  _ ← match asset with
      | None => mret tt
      | Some a =>
          if a =? 0 then mret tt
          else
            st ← get_own;
            _ ← match asset_buffers_ st !! a with
                | None => mret tt
                | Some address =>
                    _ ← free_guest address;
                    length ← backend "length" [HInt a];
                    st ← get_own;
                    let size := s64 (ret length) in
                    put_own (with_buffers st (delete a (asset_buffers_ st)) (if 0 <? size then u64 (buffered_bytes_ st - size) else buffered_bytes_ st))
                end;
            _ ← backend "close" [HInt a];
            mret tt
      end;
  mret (set0 rs 0).

Definition hc_length (rs : list Z) (remaining wide : bool) : svc (list Z) :=
  asset ← require_asset (reg rs 0);
  length ← (if asset =? 0 then mret (-1) else a ← backend (if remaining then "remaining_length" else "length") [HInt asset]; mret (s64 (ret a)));
  let over := negb wide && (INT32_MAX <? length) in
  st ← get_own;
  _ ← (if over then put_own (with_logged st) else mret tt);
  let length := if over then -1 else length in
  mret (set01 rs (u32 (s32 length)) (if wide then u32 (Z.shiftr (u64 length) 32) else 0)).

Definition hc_is_allocated (rs : list Z) : svc (list Z) :=
  asset ← require_asset (reg rs 0);
  v ← (if asset =? 0 then mret (-1) else a ← backend "is_allocated" [HInt asset]; mret (s32 (ret a)));
  mret (set0 rs (u32 v)).

Definition hc_read (rs : list Z) : svc (list Z) :=
  asset ← require_asset (reg rs 0);
  let count := reg rs 2 in
  result ← (if asset =? 0 then mret (-1)
            else if count =? 0 then mret 0
            else if INT32_MAX <? count then mret (-1)
            else
              buf ← guest_ptr (reg rs 1) count kPageWrite;
              match buf with
              | None => mret (-1)
              | Some p => a ← backend "read" [HInt asset; HGuest p count kPageWrite; HInt count]; mret (s64 (ret a))
              end);
  mret (set0 rs (u32 (s32 result))).

Definition hc_get_buffer (rs : list Z) : svc (list Z) :=
  asset ← require_asset (reg rs 0);
  v ← (if asset =? 0 then mret 0 else asset_buffer asset);
  mret (set0 rs v).

(** [::close(descriptor.fd)]. *)
Definition close_fd (fd : Z) : svc unit := _ ← backend "::close" [HInt fd]; mret tt.

Definition hc_open_fd (rs : list Z) (wide : bool) : svc (list Z) :=
  asset ← require_asset (reg rs 0);
  fd ← (if asset =? 0 then mret (-1)
        else
          d ← backend "open_file_descriptor" [HInt asset];
          let fd := s32 (ret d) in
          let start := s64 (out d 0) in
          let length := s64 (out d 1) in
          let fits := (0 <=? fd) && (0 <=? start) && (0 <=? length) && (wide || (start <=? INT32_MAX) && (length <=? INT32_MAX)) in
          if fits then
            let bytes := if wide then 8%nat else 4%nat in
            out_start ← guest_ptr (reg rs 1) (Z.of_nat bytes) kPageWrite;
            out_length ← guest_ptr (reg rs 2) (Z.of_nat bytes) kPageWrite;
            match out_start, out_length with
            | Some p, Some q => _ ← store p (to_le bytes start); _ ← store q (to_le bytes length); mret fd
            | _, _ => _ ← close_fd fd; mret (-1)
            end
          else _ ← (if 0 <=? fd then close_fd fd else mret tt); mret (-1));
  mret (set0 rs (u32 fd)).

Definition hc_seek (rs : list Z) : svc (list Z) :=
  asset ← require_asset (reg rs 0);
  result ← (if asset =? 0 then mret (-1) else a ← backend "seek" [HInt asset; HInt (s32 (reg rs 1)); HInt (s32 (reg rs 2))]; mret (s64 (ret a)));
  let result := if INT32_MAX <? result then -1 else result in
  mret (set01 rs (u32 result) 0).

Definition hc_seek64 (rs : list Z) : svc (list Z) :=
  asset ← require_asset (reg rs 0);
  let offset := s64 (Z.lor (reg rs 2) (Z.shiftl (reg rs 3) 32)) in
  stack ← guest_ptr (reg rs 13) 4 kPageRead;
  match stack with
  | None => mret (set01 rs UINT32_MAX UINT32_MAX)
  | Some p =>
      w ← load p 4;
      result ← (if asset =? 0 then mret (-1) else a ← backend "seek" [HInt asset; HInt offset; HInt (s32 (le w))]; mret (s64 (ret a)));
      mret (set01 rs (u32 result) (u32 (Z.shiftr (u64 result) 32)))
  end.

(** The cases of the switch. *)
Definition asset_calls : list (Z * (list Z -> svc (list Z))) := [
  (ZB_ASSET_HC_AAssetDir_close, hc_dir_close);
  (ZB_ASSET_HC_AAssetDir_getNextFileName, hc_next_file_name);
  (ZB_ASSET_HC_AAssetDir_rewind, hc_dir_rewind);
  (ZB_ASSET_HC_AAssetManager_fromJava, hc_manager_from_java);
  (ZB_ASSET_HC_AAssetManager_open, hc_open);
  (ZB_ASSET_HC_AAssetManager_openDir, hc_open_dir);
  (ZB_ASSET_HC_AAsset_close, hc_close);
  (ZB_ASSET_HC_AAsset_getBuffer, hc_get_buffer);
  (ZB_ASSET_HC_AAsset_getLength, fun rs => hc_length rs false false);
  (ZB_ASSET_HC_AAsset_getLength64, fun rs => hc_length rs false true);
  (ZB_ASSET_HC_AAsset_getRemainingLength, fun rs => hc_length rs true false);
  (ZB_ASSET_HC_AAsset_getRemainingLength64, fun rs => hc_length rs true true);
  (ZB_ASSET_HC_AAsset_isAllocated, hc_is_allocated);
  (ZB_ASSET_HC_AAsset_openFileDescriptor, fun rs => hc_open_fd rs false);
  (ZB_ASSET_HC_AAsset_openFileDescriptor64, fun rs => hc_open_fd rs true);
  (ZB_ASSET_HC_AAsset_read, hc_read);
  (ZB_ASSET_HC_AAsset_seek, hc_seek);
  (ZB_ASSET_HC_AAsset_seek64, hc_seek64)].

(** [None] when the index is not served. *)
Definition handle_host_call (index : Z) (rs : list Z) : svc (option (list Z)) := serve asset_calls index rs.
End HostAssets.

(** ** The invariant *)

Section Invariant.
(** How long an asset is; it is read-only. *)
Context (len : Z -> Z).

Definition total (m : gmap Z Z) : Z := map_fold (fun a _ n => len a + n) 0 m.

(** The tables are sound; the budget counts exactly the cached buffers, which belong to open
    assets, and the cached names belong to open directories. *)
Record assets_inv (st : HostAssets) : Prop := {
  ai_managers : global_wf (managers_ st);
  ai_assets : global_wf (assets_ st);
  ai_directories : global_wf (directories_ st);
  ai_total : buffered_bytes_ st = total (asset_buffers_ st);
  ai_budget : 0 <= buffered_bytes_ st <= kMaxBufferedBytes;
  ai_buffers : forall a v, asset_buffers_ st !! a = Some v -> 0 < len a <= kMaxBufferedBytes /\ 0 < v < 2 ^ 32 /\ live_value (assets_ st) a;
  ai_names : forall d v, directory_names_ st !! d = Some v -> 0 < v < 2 ^ 32 /\ live_value (directories_ st) d;
}.

Lemma total_insert m a v : m !! a = None -> total (<[a := v]> m) = len a + total m.
Proof. intros Hm. unfold total. rewrite map_fold_insert_L; [done| |done]. intros. lia. Qed.

Lemma total_delete m a v : m !! a = Some v -> total m = len a + total (delete a m).
Proof. intros Hm. rewrite <- (insert_delete_id m a v Hm) at 1. rewrite total_insert; [done|]. apply lookup_delete_eq. Qed.

Lemma total_nonneg m : map_Forall (fun a _ => 0 <= len a) m -> 0 <= total m.
Proof.
  induction m as [|a v m Hm IH] using map_ind; intros Hf; [done|]. rewrite total_insert by done. apply map_Forall_insert in Hf as [Ha Hf]; [|done]. specialize (IH Hf). lia.
Qed.

Lemma assets_init_inv : assets_inv HostAssets_init.
Proof. split; try apply global_wf_init; [done|vm_compute; split; discriminate|done..]. Qed.
End Invariant.

(** The platform: it fills only the buffers it was given, and the length of an asset does
    not change. *)
Record assets_host (host : list hostcall -> hostcall -> answer) (len : Z -> Z) : Prop := {
  ah_kernel : kernel_ok host;
  ah_length : forall log a, s64 (ret (host log {| h_name := "length"; h_args := [HInt a] |})) = len a;
}.

(** The guest's malloc and free make no asset call of their own: they leave the object as it
    is.  The code admits such calls (its mutex is recursive), but does not reckon with them:
    [nested_buffer_counts_twice]. *)
Definition allocator_quiet (guest : Z -> list Z -> Sv HostAssets -> option GuestResult * Sv HostAssets) : Prop := forall st, guest_ok (eq st) guest.

Section Sound.
Context (host : list hostcall -> hostcall -> answer) (guest : Z -> list Z -> Sv HostAssets -> option GuestResult * Sv HostAssets) (len : Z -> Z).
Context (malloc_fn free_fn current_env : Z) (resolve_ref : Z -> exec Z).
Context (Hhost : assets_host host len) (Hguest : allocator_quiet guest) (Hresolve : forall h, defined (resolve_ref h)).

(** A call that starts with the state [st] may abort only when a table is full or the JNI
    reference it was given is invalid. *)
Definition may_abort (st : HostAssets) (rs : list Z) : Prop :=
  ~ room (managers_ st) \/ ~ room (assets_ st) \/ ~ room (directories_ st) \/ resolve_ref (reg rs 1) = Aborted.

Definition kept (rs rs' : list Z) (s : Sv HostAssets) : Prop := assets_inv len (own s) /\ mem_wf (smem s) /\ answered rs rs'.

Lemma wp_require X table h (s : Sv HostAssets) Q :
  global_wf (table (own s)) -> 0 <= h -> Q 0 s -> (forall r, r <> 0 -> live_value (table (own s)) r -> Q r s) -> wp X (require table h) s Q.
Proof.
  intros Hwf Hh H0 Hr. apply wp_bind, wp_get_own, wp_bind, wp_lift, runs_get; [done..| |]; [done|]. intros r Hne Hp Hg. apply Hr; [done|]. by exists h.
Qed.

Lemma wp_ask X name args (s : Sv HostAssets) Q :
  mem_wf (smem s) -> Forall (arg_ok (smem s)) args ->
  (forall m, only_writable (smem s) m -> mem_wf m -> Q (host (scalls s) {| h_name := name; h_args := args |}) (Build_Sv (own s) m (scalls s ++ [{| h_name := name; h_args := args |}]))) ->
  wp X (backend host name args) s Q.
Proof. apply wp_backend, Hhost. Qed.

(** Freeing leaves the object alone. *)
Lemma wp_release X a (s : Sv HostAssets) Q : mem_wf (smem s) -> (forall m log, mem_wf m -> Q tt (Build_Sv (own s) m log)) -> wp X (free_guest guest free_fn a) s Q.
Proof. intros Hm HQ. apply (wp_free guest (eq (own s)) (Hguest (own s))); [done..|]. intros [st m log] Hst Hm'. cbn in Hst. subst st. by apply HQ. Qed.

Lemma wp_copy X source (s : Sv HostAssets) Q :
  mem_wf (smem s) -> (forall a m log, mem_wf m -> 0 <= a < 2 ^ 32 -> Q a (Build_Sv (own s) m log)) -> wp X (copy_to_guest guest malloc_fn free_fn source) s Q.
Proof.
  intros Hm HQ. assert (forall s', own s' = own s -> mem_wf (smem s') -> Q 0 s') as H0 by (intros [st m log] Hst Hm'; cbn in Hst; subst st; by apply HQ).
  unfold copy_to_guest. destruct (_ || _) eqn:Esz; [by apply wp_ret, H0|]. apply orb_false_iff in Esz as [E1%Z.eqb_neq E2%Z.ltb_ge]. unfold UINT32_MAX in E2.
  apply wp_bind, (wp_allocate guest (eq (own s)) (Hguest (own s))); [done..|]. intros a s1 Hown Hm1 Ha. destruct (a =? 0); [by apply wp_ret, H0|].
  apply wp_bind, wp_ptr; intros Hacc.
  - apply wp_bind, (wp_store _ _ _ a (size source) kPageWrite); [done|done|unfold size in *; lia|done|done|lia|lia|]. intros m _ _ Hm2. apply wp_ret. rewrite <- Hown. by apply HQ.
  - apply wp_bind, wp_release; [done|]. intros m log Hm2. apply wp_ret. rewrite <- Hown. by apply HQ.
Qed.

(** The state with a table replaced, when no live value is lost. *)
Lemma inv_managers st t : assets_inv len st -> global_wf t -> assets_inv len (with_managers st t).
Proof. intros [H1 H2 H3 H4 H5 H6 H7] Ht. by split. Qed.

Lemma inv_assets st t : assets_inv len st -> global_wf t -> (forall a v, asset_buffers_ st !! a = Some v -> live_value (assets_ st) a -> live_value t a) -> assets_inv len (with_assets st t).
Proof. intros [H1 H2 H3 H4 H5 H6 H7] Ht Hl. split; try done. intros a v Ha. destruct (H6 a v Ha) as (? & ? & ?). split; [done|]. split; [done|]. by eapply Hl. Qed.

Lemma inv_directories st t : assets_inv len st -> global_wf t -> (forall d v, directory_names_ st !! d = Some v -> live_value (directories_ st) d -> live_value t d) -> assets_inv len (with_directories st t).
Proof. intros [H1 H2 H3 H4 H5 H6 H7] Ht Hl. split; try done. intros d v Hd. destruct (H7 d v Hd) as (? & ?). split; [done|]. by eapply Hl. Qed.

Lemma inv_buffer_added st a v : assets_inv len st -> live_value (assets_ st) a -> 0 < v < 2 ^ 32 -> asset_buffers_ st !! a = None -> 0 < len a -> buffered_bytes_ st + len a <= kMaxBufferedBytes ->
  assets_inv len (with_buffers st (emplace (asset_buffers_ st) a v) (u64 (buffered_bytes_ st + len a))).
Proof.
  intros [H1 H2 H3 H4 H5 H6 H7] Hl Hv Hn Hp Hb. assert (kMaxBufferedBytes = 2 ^ 26) as Emax by reflexivity. unfold emplace. rewrite Hn, u64_small by lia.
  split; cbn; try done; [rewrite total_insert by done; lia|lia|]. intros b w. rewrite lookup_insert_Some. intros [[<- <-]|[_ Hb']]; [|by apply H6]. split; [lia|]. by split.
Qed.

Lemma inv_buffer_dropped st a v : assets_inv len st -> asset_buffers_ st !! a = Some v ->
  assets_inv len (with_buffers st (delete a (asset_buffers_ st)) (u64 (buffered_bytes_ st - len a))).
Proof.
  intros [H1 H2 H3 H4 H5 H6 H7] Ha. assert (kMaxBufferedBytes = 2 ^ 26) as Emax by reflexivity. destruct (H6 a v Ha) as (Hp & _).
  pose proof (total_delete len _ _ _ Ha) as Et. assert (0 <= total len (delete a (asset_buffers_ st))) as Hn.
  { apply total_nonneg. apply map_Forall_delete. intros b w Hb. destruct (H6 b w Hb) as [? _]. lia. }
  rewrite u64_small by lia. split; cbn; try done; [lia|lia|]. intros b w. rewrite lookup_delete_Some. intros [_ Hb]. by eapply H6.
Qed.

Lemma inv_names st m : assets_inv len st -> (forall d v, m !! d = Some v -> 0 < v < 2 ^ 32 /\ live_value (directories_ st) d) -> assets_inv len (with_names st m).
Proof. intros [H1 H2 H3 H4 H5 H6 H7] Hm. by split. Qed.

Lemma wp_drop_name X d (s : Sv HostAssets) Q :
  mem_wf (smem s) -> (forall m log, mem_wf m -> Q tt (Build_Sv (with_names (own s) (delete d (directory_names_ (own s)))) m log)) ->
  wp X (drop_name guest free_fn d) s Q.
Proof.
  intros Hm HQ. apply wp_bind, wp_get_own. destruct (directory_names_ (own s) !! d) as [a|] eqn:E.
  - apply wp_bind, wp_release; [done|]. intros m log Hm'. apply wp_bind, wp_get_own, wp_put_own. by apply HQ.
  - apply wp_ret. assert (own s = with_names (own s) (delete d (directory_names_ (own s)))) as Eo by (rewrite delete_id by done; by destruct (own s)).
    destruct s as [st m log]. cbn in *. rewrite Eo at 1. by apply HQ.
Qed.

Lemma kept_set0 rs v s : words rs -> assets_inv len (own s) -> mem_wf (smem s) -> 0 <= v < 2 ^ 32 -> kept rs (set0 rs v) s.
Proof. intros. split; [done|]. split; [done|]. by apply answered_set0. Qed.

Lemma kept_set01 rs v w s : words rs -> assets_inv len (own s) -> mem_wf (smem s) -> 0 <= v < 2 ^ 32 -> 0 <= w < 2 ^ 32 -> kept rs (set01 rs v w) s.
Proof. intros. split; [done|]. split; [done|]. by apply answered_set01. Qed.

Lemma inv_names_deleted st d : assets_inv len st -> assets_inv len (with_names st (delete d (directory_names_ st))).
Proof. intros Hi. apply inv_names; [done|]. intros d' v [_ Hd]%lookup_delete_Some. by eapply ai_names. Qed.

Definition sound (hc : list Z -> svc HostAssets (list Z)) : Prop :=
  forall rs s, words rs -> assets_inv len (own s) -> mem_wf (smem s) -> wp (may_abort (own s) rs) (hc rs) s (kept rs).

Lemma dir_close_sound : sound (hc_dir_close host guest free_fn).
Proof.
  intros rs s Hw Hi Hm. pose proof (reg_word rs 0 Hw). apply wp_bind, wp_get_own, wp_bind, wp_lift, runs_remove; [by apply Hi|lia|..].
  - apply wp_bind, wp_put_own, wp_bind, wp_ret, wp_ret, kept_set0; [done| |done|lia]. by destruct Hi.
  - intros _. apply wp_bind, wp_put_own, wp_bind, wp_ret, wp_ret, kept_set0; [done| |done|lia]. by destruct Hi.
  - intros r t' Hr _ Hg Ht' _ Hl _. apply wp_bind, wp_put_own, wp_bind. rewrite (proj2 (Z.eqb_neq r 0)) by done.
    apply wp_bind, wp_drop_name; [done|]. intros m log Hm'. apply wp_bind, wp_ask; [done|by repeat constructor|]. intros m2 _ Hm2. apply wp_ret, wp_ret, kept_set0; [done| |done|lia].
    change (assets_inv len (with_directories (with_names (own s) (delete r (directory_names_ (own s)))) t')). apply inv_directories; [by apply inv_names_deleted|done|]. cbn. intros d v [Hne _]%lookup_delete_Some. by apply Hl.
Qed.

Lemma next_file_name_sound : sound (hc_next_file_name host guest malloc_fn free_fn).
Proof.
  intros rs s Hw Hi Hm. pose proof (reg_word rs 0 Hw). apply wp_bind, wp_get_own, wp_bind, wp_lift, runs_get; [by apply Hi|lia|..].
  - apply wp_ret, kept_set0; [done..|lia].
  - intros _. apply wp_ret, kept_set0; [done..|lia].
  - intros d Hd Hp Hg. cbn zeta. rewrite (proj2 (Z.eqb_neq d 0)) by done. apply wp_bind, wp_drop_name; [done|]. intros m log Hm'. apply wp_bind, wp_ask; [done|by repeat constructor|]. intros m2 _ Hm2.
    pose proof (inv_names_deleted _ d Hi) as Hi'. destruct (_ =? 0); [apply wp_ret, kept_set0; [done..|lia]|]. cbn zeta. destruct (_ <? _); [apply wp_ret, kept_set0; [done..|lia]|].
    apply wp_bind, wp_copy; [done|]. intros a m3 log3 Hm3 Ha. apply wp_bind, wp_get_own, wp_bind. rewrite set0_twice. destruct (Z.eqb_spec a 0) as [->|Hne]; [apply wp_ret, wp_ret, kept_set0; [done..|lia]|].
    apply wp_put_own, wp_ret, kept_set0; [done| |done|done]. cbn. unfold emplace. rewrite lookup_delete_eq.
    apply (inv_names _ _ Hi'). intros d' v [[<- <-]|[_ Hd']]%lookup_insert_Some; [split; [lia|by eexists]|]. by apply (ai_names len _ Hi').
Qed.

Lemma dir_rewind_sound : sound (hc_dir_rewind host).
Proof.
  intros rs s Hw Hi Hm. pose proof (reg_word rs 0 Hw). apply wp_bind, wp_require; [by apply Hi|lia|apply wp_bind, wp_ret, wp_ret, kept_set0; [done..|lia]|].
  intros d Hd _. rewrite (proj2 (Z.eqb_neq d 0)) by done. apply wp_bind, wp_bind, wp_ask; [done|by repeat constructor|]. intros m _ Hm'. apply wp_ret, wp_ret, kept_set0; [done..|lia].
Qed.

Lemma manager_from_java_sound : sound (hc_manager_from_java host current_env resolve_ref).
Proof.
  intros rs s Hw Hi Hm. apply wp_bind, wp_lift. destruct (resolve_ref (reg rs 1)) as [j| |] eqn:E; [|by right; right; right|by apply (Hresolve (reg rs 1))].
  apply wp_bind, wp_ask; [done|by repeat constructor|]. intros m _ Hm'. apply wp_bind, wp_get_own, wp_bind, wp_lift. destruct (Z.eqb_spec (ret (host (scalls s) {| h_name := "manager_from_java"; h_args := [HInt current_env; HInt j] |})) 0) as [_|Hne].
  - apply wp_bind, wp_put_own, wp_ret, kept_set0; [done| |done|lia]. apply inv_managers; [done|by apply Hi].
  - apply runs_add; [by apply Hi|done|by left|]. intros h t' Ht' Hh _ _ _. apply wp_bind, wp_put_own, wp_ret, kept_set0; [done| |done|lia]. by apply inv_managers.
Qed.

Lemma wp_filename X addr (s : Sv HostAssets) Q : mem_wf (smem s) -> 0 <= addr < 2 ^ 32 -> Q None s -> (forall r, string_result (smem s) kMaxFilenameLength addr r -> Q r s) -> wp X (read_filename addr) s Q.
Proof. intros Hm Ha Hn HQ. unfold read_filename. destruct (addr =? 0); [by apply wp_ret|]. by apply wp_string. Qed.

Lemma open_sound : sound (hc_open host).
Proof.
  intros rs s Hw Hi Hm. pose proof (reg_word rs 0 Hw). pose proof (reg_word rs 1 Hw) as Hr1. apply wp_bind, wp_require; [by apply Hi|lia|apply wp_bind, wp_ret, wp_ret, kept_set0; [done..|lia]|].
  intros mgr Hne _. rewrite (proj2 (Z.eqb_neq mgr 0)) by done. apply wp_bind, wp_filename; [done|done|apply wp_ret, kept_set0; [done..|lia]|].
  intros [f|] _; [|apply wp_ret, kept_set0; [done..|lia]]. apply wp_bind, wp_ask; [done|by repeat constructor|]. intros m _ Hm'. set (v := ret _).
  apply wp_bind, wp_get_own, wp_bind, wp_lift. destruct (Z.eqb_spec v 0) as [_|Hv].
  - apply wp_bind, wp_put_own, wp_bind, wp_ret, wp_ret, kept_set0; [done| |done|lia]. apply inv_assets; [done|by apply Hi|done].
  - apply runs_add; [by apply Hi|done|intros Hr; right; by left|]. intros h t' Ht' Hh _ Hl _. apply wp_bind, wp_put_own, wp_bind. rewrite (proj2 (Z.eqb_neq h 0)) by lia. apply wp_ret, wp_ret, kept_set0; [done| |done|lia].
    apply inv_assets; [done..|]. intros a w _. apply Hl.
Qed.

Lemma open_dir_sound : sound (hc_open_dir host).
Proof.
  intros rs s Hw Hi Hm. pose proof (reg_word rs 0 Hw). pose proof (reg_word rs 1 Hw) as Hr1. apply wp_bind, wp_require; [by apply Hi|lia|apply wp_bind, wp_ret, wp_ret, kept_set0; [done..|lia]|].
  intros mgr Hne _. rewrite (proj2 (Z.eqb_neq mgr 0)) by done. apply wp_bind, wp_filename; [done|done|apply wp_ret, kept_set0; [done..|lia]|].
  intros [f|] _; [|apply wp_ret, kept_set0; [done..|lia]]. apply wp_bind, wp_ask; [done|by repeat constructor|]. intros m _ Hm'. set (v := ret _).
  apply wp_bind, wp_get_own, wp_bind, wp_lift. destruct (Z.eqb_spec v 0) as [_|Hv].
  - apply wp_bind, wp_put_own, wp_bind, wp_ret, wp_ret, kept_set0; [done| |done|lia]. apply inv_directories; [done|by apply Hi|done].
  - apply runs_add; [by apply Hi|done|intros Hr; right; right; by left|]. intros h t' Ht' Hh _ Hl _. apply wp_bind, wp_put_own, wp_bind. rewrite (proj2 (Z.eqb_neq h 0)) by lia. apply wp_ret, wp_ret, kept_set0; [done| |done|lia].
    apply inv_directories; [done..|]. intros a w _. apply Hl.
Qed.

Lemma close_sound : sound (hc_close host guest free_fn).
Proof.
  intros rs s Hw Hi Hm. pose proof (reg_word rs 0 Hw). apply wp_bind, wp_get_own, wp_bind, wp_lift, runs_remove; [by apply Hi|lia|..].
  - apply wp_bind, wp_put_own, wp_bind, wp_ret, wp_ret, kept_set0; [done| |done|lia]. by destruct Hi.
  - intros _. apply wp_bind, wp_put_own, wp_bind, wp_ret, wp_ret, kept_set0; [done| |done|lia]. by destruct Hi.
  - intros a t' Hr _ Hg Ht' _ Hl _. apply wp_bind, wp_put_own, wp_bind. rewrite (proj2 (Z.eqb_neq a 0)) by done. apply wp_bind, wp_get_own, wp_bind. cbn [own asset_buffers_ with_assets].
    destruct (asset_buffers_ (own s) !! a) as [v|] eqn:Eb.
    + apply wp_bind, wp_release; [done|]. intros m log Hm'. apply wp_bind, wp_ask; [done|by repeat constructor|]. intros m2 _ Hm2. apply wp_bind, wp_get_own, wp_put_own, wp_bind, wp_ask; [done|by repeat constructor|].
      intros m3 _ Hm3. apply wp_ret, wp_ret, kept_set0; [done| |done|lia]. cbn. rewrite (ah_length host len Hhost). destruct (ai_buffers len _ Hi a v Eb) as ([Hp _] & _). rewrite (proj2 (Z.ltb_lt 0 (len a)) Hp).
      change (assets_inv len (with_assets (with_buffers (own s) (delete a (asset_buffers_ (own s))) (u64 (buffered_bytes_ (own s) - len a))) t')).
      apply inv_assets; [by eapply inv_buffer_dropped|done|]. cbn. intros b w [Hne _]%lookup_delete_Some. by apply Hl.
    + apply wp_ret, wp_bind, wp_ask; [done|by repeat constructor|]. intros m _ Hm'. apply wp_ret, wp_ret, kept_set0; [done| |done|lia]. cbn.
      apply inv_assets; [done..|]. intros b w Hb. apply Hl. congruence.
Qed.

(** The calls that only ask about an open asset. *)
Lemma wp_value X asset name args (d : Z) (g : answer -> Z) (s : Sv HostAssets) Q :
  mem_wf (smem s) -> Forall (arg_ok (smem s)) args -> (forall v m log, mem_wf m -> Q v (Build_Sv (own s) m log)) ->
  wp X (if asset =? 0 then mret d else a ← backend host name args; mret (g a)) s Q.
Proof.
  intros Hm Ha HQ. destruct (_ =? _); [apply wp_ret; destruct s; by apply HQ|]. apply wp_bind, wp_ask; [done..|]. intros m _ Hm'. by apply wp_ret, HQ.
Qed.

Lemma inv_logged st : assets_inv len st -> assets_inv len (with_logged st).
Proof. by intros []. Qed.

Lemma wp_require_any X h (s : Sv HostAssets) Q : assets_inv len (own s) -> 0 <= h -> (forall r, Q r s) -> wp X (require_asset h) s Q.
Proof. intros Hi Hh HQ. apply wp_require; [apply Hi|done|apply HQ|]. intros r _ _. apply HQ. Qed.

Lemma length_sound remaining wide : sound (fun rs => hc_length host rs remaining wide).
Proof.
  intros rs s Hw Hi Hm. pose proof (reg_word rs 0 Hw). apply wp_bind, wp_require_any; [done|lia|]. intros r. apply wp_bind, wp_value; [done|by repeat constructor|]. intros v m log Hm'. cbn zeta. apply wp_bind, wp_get_own, wp_bind.
  assert (forall l, 0 <= (if wide then u32 (Z.shiftr (u64 l) 32) else 0) < 2 ^ 32) as Hhi by (intros l; destruct wide; [apply u32_range|lia]).
  destruct (negb wide && (INT32_MAX <? v)); [apply wp_put_own, wp_ret, kept_set01; [done|by apply inv_logged|done|apply u32_range|done]|apply wp_ret, wp_ret, kept_set01; [done..|apply u32_range|done]].
Qed.

Lemma is_allocated_sound : sound (hc_is_allocated host).
Proof.
  intros rs s Hw Hi Hm. pose proof (reg_word rs 0 Hw). apply wp_bind, wp_require_any; [done|lia|]. intros r. apply wp_bind, wp_value; [done|by repeat constructor|].
  intros v m log Hm'. apply wp_ret, kept_set0; [done..|apply u32_range].
Qed.

Lemma seek_sound : sound (hc_seek host).
Proof.
  intros rs s Hw Hi Hm. pose proof (reg_word rs 0 Hw). apply wp_bind, wp_require_any; [done|lia|]. intros r. apply wp_bind, wp_value; [done|by repeat constructor|].
  intros v m log Hm'. apply wp_ret, kept_set01; [done..|apply u32_range|lia].
Qed.

Lemma seek64_sound : sound (hc_seek64 host).
Proof.
  intros rs s Hw Hi Hm. pose proof (reg_word rs 0 Hw). pose proof (reg_word rs 13 Hw) as H13. apply wp_bind, wp_require_any; [done|lia|]. intros r. cbn zeta. apply wp_bind, wp_ptr; intros Hacc; [|by apply wp_ret, kept_set01].
  apply wp_bind, (wp_load _ _ _ kPageRead); [done..|]. apply wp_bind, wp_value; [done|by repeat constructor|]. intros v m log Hm'. apply wp_ret, kept_set01; [done..|apply u32_range|apply u32_range].
Qed.

Lemma read_sound : sound (hc_read host).
Proof.
  intros rs s Hw Hi Hm. pose proof (reg_word rs 0 Hw). pose proof (reg_word rs 1 Hw) as Hr1. pose proof (reg_word rs 2 Hw) as Hr2.
  assert (forall v m log, mem_wf m -> kept rs (set0 rs (u32 (s32 v))) (Build_Sv (own s) m log)) as Hk by (intros v m log Hm'; apply kept_set0; [done..|apply u32_range]).
  assert (forall v, kept rs (set0 rs (u32 (s32 v))) s) as Hk' by (intros v; destruct s; by apply Hk).
  apply wp_bind, wp_require; [by apply Hi|lia|by apply wp_bind, wp_ret, wp_ret, Hk'|]. intros r Hr _. rewrite (proj2 (Z.eqb_neq r 0)) by done. cbn zeta. apply wp_bind.
  destruct (_ =? 0); [by apply wp_ret, wp_ret, Hk'|]. destruct (Z.ltb_spec INT32_MAX (reg rs 2)); [by apply wp_ret, wp_ret, Hk'|]. apply wp_bind, wp_ptr; intros Hacc; [|by apply wp_ret, wp_ret, Hk'].
  apply wp_bind, wp_ask; [done| |].
  - constructor; [done|]. constructor; [|by repeat constructor]. cbn. unfold INT32_MAX in *. split; [lia|]. split; [lia|]. by right.
  - intros m _ Hm'. by apply wp_ret, wp_ret, Hk.
Qed.

Lemma get_buffer_sound : sound (hc_get_buffer host guest malloc_fn free_fn).
Proof.
  intros rs s Hw Hi Hm. pose proof (reg_word rs 0 Hw). assert (kMaxBufferedBytes = 2 ^ 26) as Emax by reflexivity.
  assert (forall m log, mem_wf m -> kept rs (set0 rs 0) (Build_Sv (own s) m log)) as Hk by (intros m log Hm'; apply kept_set0; [done..|lia]).
  apply wp_bind, wp_require; [by apply Hi|lia|destruct s; by apply wp_bind, wp_ret, wp_ret, Hk|]. intros a Ha Hlive. rewrite (proj2 (Z.eqb_neq a 0)) by done.
  apply wp_bind, wp_bind, wp_get_own. destruct (asset_buffers_ (own s) !! a) as [v|] eqn:Eb; [apply wp_ret, wp_ret, kept_set0; [done..|]; destruct (ai_buffers len _ Hi a v Eb) as (_ & ? & _); lia|].
  apply wp_bind, wp_ask; [done|by repeat constructor|]. intros m1 _ Hm1. rewrite (ah_length host len Hhost). apply wp_bind, wp_ask; [done|by repeat constructor|]. intros m2 _ Hm2. cbn zeta.
  destruct (_ || _) eqn:E1; [by apply wp_ret, wp_ret, Hk|]. destruct ((kMaxBufferedBytes <? len a) || _) eqn:E2; [by apply wp_ret, wp_ret, Hk|].
  apply orb_false_iff in E1 as [_ Hpos%Z.leb_gt], E2 as [Hle%Z.ltb_ge Hsum%Z.ltb_ge]. pose proof (ai_budget len _ Hi) as Hbud. rewrite u64_small in Hsum by lia.
  apply wp_bind, wp_copy; [done|]. intros p m3 log3 Hm3 Hp. destruct (Z.eqb_spec p 0); [by apply wp_ret, wp_ret, Hk|].
  apply wp_bind, wp_get_own, wp_bind, wp_put_own, wp_ret, wp_ret, kept_set0; [done| |done|done]. apply inv_buffer_added; [done|done|lia|done|lia|exact Hsum].
Qed.

Lemma open_fd_sound wide : sound (fun rs => hc_open_fd host rs wide).
Proof.
  intros rs s Hw Hi Hm. pose proof (reg_word rs 0 Hw). pose proof (reg_word rs 1 Hw) as Hr1. pose proof (reg_word rs 2 Hw) as Hr2.
  assert (forall v m log, mem_wf m -> kept rs (set0 rs (u32 v)) (Build_Sv (own s) m log)) as Hk by (intros v m log Hm'; apply kept_set0; [done..|apply u32_range]).
  assert (forall fd m log, mem_wf m -> wp (may_abort (own s) rs) (_ ← close_fd host fd; mret (-1)) (Build_Sv (own s) m log) (fun v s' => wp (may_abort (own s) rs) (mret (set0 rs (u32 v))) s' (kept rs))) as Hclose.
  { intros fd m log Hm'. apply wp_bind, wp_bind, wp_ask; [done|by repeat constructor|]. intros m2 _ Hm2. by apply wp_ret, wp_ret, wp_ret, Hk. }
  apply wp_bind, wp_require_any; [done|lia|]. intros r. apply wp_bind. destruct (r =? 0); [destruct s; by apply wp_ret, wp_ret, Hk|]. apply wp_bind, wp_ask; [done|by repeat constructor|].
  intros m1 _ Hm1. cbn zeta. set (d := host _ _). set (bytes := if wide then 8%nat else 4%nat). assert (0 < Z.of_nat bytes <= 8) as Hb by (unfold bytes; destruct wide; lia).
  destruct (_ && _); [|destruct (0 <=? s32 (ret d)); [by apply Hclose|by apply wp_bind, wp_ret, wp_ret, wp_ret, Hk]].
  apply wp_bind, wp_ptr; intros Ha1; (apply wp_bind, wp_ptr; intros Ha2); [|by apply Hclose..].
  assert (forall v, size (to_le bytes v) = Z.of_nat bytes) as Hsz by (intros; unfold size; by rewrite length_to_le).
  apply wp_bind, (wp_store _ _ _ (reg rs 1) (Z.of_nat bytes) kPageWrite); [done|done|lia|done|done|lia|rewrite Hsz; lia|]. intros m2 _ How2 Hm2.
  apply wp_bind, (wp_store _ _ _ (reg rs 2) (Z.of_nat bytes) kPageWrite); [done|done|lia|rewrite <- Ha2; apply accessible_same, How2|done|lia|rewrite Hsz; lia|]. intros m3 _ _ Hm3. by apply wp_ret, wp_ret, Hk.
Qed.

#[local] Notation calls := (asset_calls host guest malloc_fn free_fn current_env resolve_ref).

Lemma calls_sound : Forall (fun e => sound (snd e)) calls.
Proof.
  repeat apply Forall_cons_2; [apply dir_close_sound|apply next_file_name_sound|apply dir_rewind_sound|apply manager_from_java_sound|apply open_sound|apply open_dir_sound|apply close_sound|apply get_buffer_sound
    |apply length_sound..|apply is_allocated_sound|apply open_fd_sound|apply open_fd_sound|apply read_sound|apply seek_sound|apply seek64_sound|apply Forall_nil_2].
Qed.

(** C21: every AAsset call of a guest whose malloc and free make no asset calls of their own
    ([allocator_quiet]; with a nested call the budget would count an asset twice), on a
    platform where the length of an asset does not change, whatever registers it passes, is
    answered or not an asset call at all: nothing outside the guest's own pages is touched, the call aborts
    only when a handle table is full or the JNI reference is invalid, r0 and r1 alone
    change, and afterwards the cached buffers still belong to open assets, within the
    64 MiB that the budget counts exactly. *)
Theorem assets_call_sound index rs s :
  words rs -> assets_inv len (own s) -> mem_wf (smem s) ->
  wp (may_abort (own s) rs) (handle_host_call host guest malloc_fn free_fn current_env resolve_ref index rs) s
    (fun r s' => match r with
                 | Some rs' => 142 <= index <= 159 /\ kept rs rs' s'
                 | None => ~ 142 <= index <= 159 /\ s' = s
                 end).
Proof.
  intros Hw Hi Hm. assert (calls.*1 = seqZ 142 18) as Eidx by reflexivity. apply wp_serve.
  - intros hc Hin. pose proof calls_sound as Hall. rewrite Forall_forall in Hall. eapply wp_mono; [by apply (Hall _ Hin)|]. cbn. intros rs' s' Hk. split; [|done].
    apply (list_elem_of_fmap_2 fst) in Hin. rewrite Eidx, elem_of_seqZ in Hin. cbn in Hin. lia.
  - rewrite Eidx, elem_of_seqZ. intros Hn. split; [lia|done].
Qed.
End Sound.

(** ** A run *)

(** A platform where every asset has eight bytes, and a guest heap with one block. *)
Definition sample_platform (log : list hostcall) (c : hostcall) : answer :=
  {| ret := if decide (h_name c = "length") then 8 else 77; errno := 0; guest_writes := []; outs := [1; 2; 3; 4; 5; 6; 7; 8] |}.
Definition sample_heap (f : Z) (args : list Z) (s : Sv HostAssets) : option GuestResult * Sv HostAssets := (Some {| res_r0 := 0x10100; res_r1 := 0 |}, s).
Definition sample_regs (a b : Z) : list Z := a :: b :: replicate 14 0.
Definition sample_service : Sv HostAssets := Build_Sv HostAssets_init (km sample_text) [].

Lemma sample_platform_ok : assets_host sample_platform (fun _ => 8).
Proof. split; [by intros log c a bs ?%elem_of_nil|done]. Qed.

#[local] Notation sample_call := (handle_host_call sample_platform sample_heap 1 2 3 (fun h => Ret h)).

Lemma assets_call_sound_witness :
  exists rs s, sample_call ZB_ASSET_HC_AAssetManager_fromJava (sample_regs 0 9) sample_service = Ret (Some rs, s) /\ reg rs 0 <> 0 /\ kept (fun _ => 8) (sample_regs 0 9) rs s.
Proof.
  pose proof (assets_call_sound sample_platform sample_heap (fun _ => 8) 1 2 3 (fun h => Ret h) sample_platform_ok) as H.
  specialize (H ltac:(intros st f args s E Hm; split; [exact E|split; [exact Hm|vm_compute; intuition discriminate]]) ltac:(intros h; discriminate)).
  specialize (H ZB_ASSET_HC_AAssetManager_fromJava (sample_regs 0 9) sample_service).
  specialize (H ltac:(split; [reflexivity|repeat constructor; discriminate]) (assets_init_inv _) sample_text_wf). unfold wp, runs in H.
  assert (match sample_call ZB_ASSET_HC_AAssetManager_fromJava (sample_regs 0 9) sample_service with Ret (Some rs, _) => negb (reg rs 0 =? 0) | _ => false end = true) as E by (vm_compute; reflexivity).
  destruct (sample_call _ _ _) as [[[rs|] s]| |]; try discriminate E. exists rs, s. split; [reflexivity|]. split; [|apply H]. intros E0. rewrite E0 in E. discriminate E.
Defined.

(** A heap whose first malloc reads the same asset through a nested call. *)
Definition nested_heap (f : Z) (args : list Z) (s : Sv HostAssets) : option GuestResult * Sv HostAssets :=
  match asset_buffer sample_platform sample_heap 1 2 77 s with
  | Ret (_, s') => (Some {| res_r0 := 0x10200; res_r1 := 0 |}, s')
  | _ => (None, s)
  end.

(** A nested [AAsset_getBuffer] of the same asset breaks the promise of one copy per asset:
    the outer call returns a copy the object does not remember (so nothing frees it), and the
    budget counts the asset twice. *)
Example nested_buffer_counts_twice :
  match asset_buffer sample_platform nested_heap 1 2 77 sample_service with
  | Ret (a, s) => (a =? 0x10200) && (default 0 (asset_buffers_ (own s) !! 77) =? 0x10100) && (buffered_bytes_ (own s) =? 16)
  | _ => false
  end = true.
Proof. vm_compute. reflexivity. Qed.
