(* ===== verification/LibraryService.v ===== *)
(** * Requests of the library runtime

    The part of [core/src/library_runtime.cpp] that talks to a guest in library mode: the
    service interface zbhost publishes, strings handed over in a scratch buffer, dlopen,
    dlsym and dlerror inside the guest, the execution of a command on the service thread,
    and the calls of a leased carrier.  Programs of [Service]; [guest] runs a function of
    the guest on the current guest thread.  Which thread runs which request, and when, is
    in [LibraryRuntime]. *)

From stdpp Require Import numbers list gmap strings.
From S2P Require Import Prelude NativeCall Bytes GuestMemory InitialStack GuestThread ProcessMemory Kernel Syscalls Messages Service.
Local Open Scope Z_scope.

Definition ZB_SERVICE_PROTOCOL_VERSION : Z := 2.
Definition ZB_SERVICE_SCRATCH_SIZE : Z := 4096.
Definition kCarrierCodeCacheSize : Z := 2 * 1024 * 1024.

Record zb_service_api := {
  api_size : Z;
  version : Z;
  dlopen_fn : Z;
  dlsym_fn : Z;
  dlerror_fn : Z;
  spawn_carrier_fn : Z;
  malloc_fn : Z;
  free_fn : Z;
  scratch : Z;
  scratch_size : Z;
}.

Definition zb_service_api_init : zb_service_api :=
  {| api_size := 0; version := 0; dlopen_fn := 0; dlsym_fn := 0; dlerror_fn := 0; spawn_carrier_fn := 0; malloc_fn := 0; free_fn := 0; scratch := 0; scratch_size := 0 |}.

(** [sizeof(zb_service_api)] and its copy out of guest memory. *)
Definition api_bytes : Z := 40.
Definition word_of (bs : list Z) (i : nat) : Z := le (take 4 (drop (4 * i) bs)).
Definition api_of (bs : list Z) : zb_service_api :=
  {| api_size := word_of bs 0; version := word_of bs 1; dlopen_fn := word_of bs 2; dlsym_fn := word_of bs 3; dlerror_fn := word_of bs 4;
     spawn_carrier_fn := word_of bs 5; malloc_fn := word_of bs 6; free_fn := word_of bs 7; scratch := word_of bs 8; scratch_size := word_of bs 9 |}.

(** The interface, the process (its memory is that of the monad), the guest thread the host
    thread runs, the code cache size for its children, and the scratch buffer of a lease. *)
Record Library := {
  api : zb_service_api;
  process : Process;
  current : option Z;
  child_code_cache_size : Z;
  lease_scratch : Z;
}.

Definition with_api (l : Library) (a : zb_service_api) : Library :=
  {| api := a; process := process l; current := current l; child_code_cache_size := child_code_cache_size l; lease_scratch := lease_scratch l |}.
Definition with_process (l : Library) (p : Process) : Library :=
  {| api := api l; process := p; current := current l; child_code_cache_size := child_code_cache_size l; lease_scratch := lease_scratch l |}.
Definition with_current (l : Library) (c : option Z) : Library :=
  {| api := api l; process := process l; current := c; child_code_cache_size := child_code_cache_size l; lease_scratch := lease_scratch l |}.
Definition with_child_cache (l : Library) (n : Z) : Library :=
  {| api := api l; process := process l; current := current l; child_code_cache_size := n; lease_scratch := lease_scratch l |}.
Definition with_lease_scratch (l : Library) (a : Z) : Library :=
  {| api := api l; process := process l; current := current l; child_code_cache_size := child_code_cache_size l; lease_scratch := a |}.

Inductive CommandKind := Load | Symbol | Call | SpawnCarrier.
Record Command := { kind : CommandKind; value : Z; cflags : Z; text : list Z; cargs : GuestCall }.
Record Response := { ok : bool; result : option GuestResult; error : list Z }.

Definition Response_init : Response := {| ok := false; result := None; error := [] |}.

Section LibraryService.
Context (grants : nat -> host_request -> bool) (guest : Z -> list Z -> Sv Library -> option GuestResult * Sv Library).

#[local] Notation svc := (svc Library).

(** [process.seal_textrel_ranges()]. *)
Definition seal : svc bool := fun s =>
  '(b, p) ← seal_textrel_ranges grants (with_mem (process (own s)) (smem s));
  Ret (b, Build_Sv (with_process (own s) p) (mem_ p) (scalls s)).

(** The error, if any. *)
Definition validate_api (address : Z) : svc (option (list Z)) :=
  source ← guest_ptr address api_bytes kPageRead;
  match source with
  | None => mret (Some (msg "zbhost passed an unreadable service API"))
  | Some p =>
      bs ← load p (Z.to_nat api_bytes);
      let candidate := api_of bs in
      if negb (api_size candidate =? api_bytes) || negb (version candidate =? ZB_SERVICE_PROTOCOL_VERSION)
      then mret (Some (msg "zbhost service protocol mismatch"))
      else
        let bad := (dlopen_fn candidate =? 0) || (dlsym_fn candidate =? 0) || (dlerror_fn candidate =? 0) || (spawn_carrier_fn candidate =? 0) ||
                   (malloc_fn candidate =? 0) || (free_fn candidate =? 0) || (scratch_size candidate =? 0) || (ZB_SERVICE_SCRATCH_SIZE <? scratch_size candidate) in
        writable ← (if bad then mret None else guest_ptr (scratch candidate) (scratch_size candidate) kPageWrite);
        match writable with
        | None => mret (Some (msg "zbhost passed an invalid service API"))
        | Some _ => st ← get_own; _ ← put_own (with_api st candidate); mret None
        end
  end.

Definition copy_text (buffer size_ : Z) (text : list Z) : svc (option (list Z)) :=
  if bool_decide (0 ∈ text) || (size_ <? size text + 1) then mret (Some (msg "guest loader string does not fit its scratch buffer"))
  else
    destination ← guest_ptr buffer (size text + 1) kPageWrite;
    match destination with
    | None => mret (Some (msg "guest loader scratch buffer is not writable"))
    | Some p => _ ← store p (text ++ [0]); mret None
    end.

Fixpoint read_text_loop (n : nat) (address : Z) (acc : list Z) : svc (list Z) :=
  match n with
  | O => mret (msg "guest dlerror string is not terminated")
  | Datatypes.S n =>
      byte ← guest_ptr (u32 address) 1 kPageRead;
      match byte with
      | None => mret (msg "guest dlerror returned an unreadable string")
      | Some p =>
          b ← load p 1;
          if le b =? 0 then mret acc else read_text_loop n (address + 1) (acc ++ b)
      end
  end.

Definition read_text (address : Z) : svc (list Z) :=
  if address =? 0 then mret (msg "guest dlerror returned null") else read_text_loop (Z.to_nat ZB_SERVICE_SCRATCH_SIZE) address [].

(** [invoke]: a call on the service thread, or on the borrower of a lease. *)
Section Invoke.
Context (invoke : Z -> GuestCall -> svc (option GuestResult)).

Definition last_dlerror : svc (list Z) :=
  st ← get_own;
  r ← invoke (dlerror_fn (api st)) GuestCall_init;
  match r with Some r => read_text (res_r0 r) | None => mret (msg "guest dlerror call failed") end.

Definition load_ (buffer size_ : Z) (path : list Z) (guest_flags : Z) : svc (Z * list Z) :=
  e ← copy_text buffer size_ path;
  match e with
  | Some e => mret (0, e)
  | None =>
      st ← get_own;
      r ← invoke (dlopen_fn (api st)) (Build_GuestCall [buffer; guest_flags; 0; 0] []);
      match r with
      | None => mret (0, msg "guest dlopen call failed")
      | Some r =>
          sealed ← seal;
          if negb sealed then mret (0, msg "cannot seal legacy text relocation pages after dlopen")
          else if res_r0 r =? 0 then e ← last_dlerror; mret (0, e)
          else mret (res_r0 r, [])
      end
  end.

Definition symbol (buffer size_ handle : Z) (name : list Z) : svc (Z * list Z) :=
  e ← copy_text buffer size_ name;
  match e with
  | Some e => mret (0, e)
  | None =>
      st ← get_own;
      r ← invoke (dlsym_fn (api st)) (Build_GuestCall [handle; buffer; 0; 0] []);
      match r with
      | None => mret (0, msg "guest dlsym call failed")
      | Some r => if res_r0 r =? 0 then e ← last_dlerror; mret (0, e) else mret (res_r0 r, [])
      end
  end.
End Invoke.

(** [process.call_guest(thread, ..)] with the thread of the program. *)
Definition on_thread (function : Z) (args : GuestCall) : svc (option GuestResult) := call_guest guest function (NativeCall.regs args ++ NativeCall.stack args).

(** [std::to_string] of a 32-bit number. *)
Fixpoint digits (fuel : nat) (n : Z) : list Z :=
  match fuel with
  | O => []
  | Datatypes.S fuel => (if n <? 10 then [] else digits fuel (n / 10)) ++ [48 + n mod 10]
  end.
Definition to_string (n : Z) : list Z := digits 10 n.

Definition execute (command : Command) : svc Response :=
  st ← get_own;
  match kind command with
  | Load =>
      '(h, e) ← load_ on_thread (scratch (api st)) (scratch_size (api st)) (text command) (cflags command);
      mret {| ok := negb (h =? 0); result := Some {| res_r0 := h; res_r1 := 0 |}; error := e |}
  | Symbol =>
      '(h, e) ← symbol on_thread (scratch (api st)) (scratch_size (api st)) (value command) (text command);
      mret {| ok := negb (h =? 0); result := Some {| res_r0 := h; res_r1 := 0 |}; error := e |}
  | Call =>
      r ← on_thread (value command) (cargs command);
      mret {| ok := bool_decide (is_Some r); result := r; error := if bool_decide (is_Some r) then [] else msg "guest service call failed" |}
  | SpawnCarrier =>
      _ ← put_own (with_child_cache st kCarrierCodeCacheSize);
      r ← on_thread (spawn_carrier_fn (api st)) GuestCall_init;
      st ← get_own;
      _ ← put_own (with_child_cache st 0);
      mret match r with
           | None => {| ok := false; result := None; error := msg "guest pthread_create call failed" |}
           | Some r => if res_r0 r =? 0 then {| ok := true; result := Some r; error := [] |}
                       else {| ok := false; result := Some r; error := msg "guest pthread_create returned " ++ to_string (res_r0 r) |}
           end
  end.

(** ** The carrier of a lease *)

(** The host thread, the one that took the lease, and the borrower. *)
Context (this_thread owner borrower : Z).

Definition Carrier_call (function : Z) (args : GuestCall) : svc (option GuestResult) :=
  if negb (owner =? this_thread) then abort
  else
    st ← get_own;
    let previous := current st in
    if match previous with Some t => negb (t =? borrower) | None => false end then mret None
    else
      _ ← put_own (with_current st (Some borrower));
      r ← on_thread function args;
      st ← get_own;
      _ ← put_own (with_current st previous);
      mret r.

Definition ensure_scratch : svc (option (list Z)) :=
  st ← get_own;
  if negb (lease_scratch st =? 0) then mret None
  else
    r ← Carrier_call (malloc_fn (api st)) (Build_GuestCall [ZB_SERVICE_SCRATCH_SIZE; 0; 0; 0] []);
    match r with
    | Some r =>
        if res_r0 r =? 0 then mret (Some (msg "guest malloc for the carrier scratch buffer failed"))
        else st ← get_own; _ ← put_own (with_lease_scratch st (res_r0 r)); mret None
    | None => mret (Some (msg "guest malloc for the carrier scratch buffer failed"))
    end.

Definition Carrier_load_library (path : list Z) (guest_flags : Z) : svc (Z * list Z) :=
  e ← ensure_scratch;
  match e with
  | Some e => mret (0, e)
  | None => st ← get_own; load_ Carrier_call (lease_scratch st) ZB_SERVICE_SCRATCH_SIZE path guest_flags
  end.

Definition Carrier_find_symbol (handle : Z) (name : list Z) : svc (Z * list Z) :=
  e ← ensure_scratch;
  match e with
  | Some e => mret (0, e)
  | None => st ← get_own; symbol Carrier_call (lease_scratch st) ZB_SERVICE_SCRATCH_SIZE handle name
  end.

(** The part of [~Carrier] that calls the guest. *)
Definition Carrier_free : svc unit :=
  if negb (owner =? this_thread) then abort
  else
    st ← get_own;
    if lease_scratch st =? 0 then mret tt
    else _ ← Carrier_call (free_fn (api st)) (Build_GuestCall [lease_scratch st; 0; 0; 0] []); mret tt.
End LibraryService.

(** ** The interface zbhost publishes *)

Definition api_valid (m : GuestMemory) (address : Z) : Prop :=
  let a := api_of (bytes_at m address 40) in
  accessible m address api_bytes kPageRead = true /\ api_size a = api_bytes /\ version a = ZB_SERVICE_PROTOCOL_VERSION /\
  dlopen_fn a <> 0 /\ dlsym_fn a <> 0 /\ dlerror_fn a <> 0 /\ spawn_carrier_fn a <> 0 /\ malloc_fn a <> 0 /\ free_fn a <> 0 /\
  0 < scratch_size a <= ZB_SERVICE_SCRATCH_SIZE /\ accessible m (scratch a) (scratch_size a) kPageWrite = true.

Lemma word_of_range bs i : bytes_ok bs -> 0 <= word_of bs i < 2 ^ 32.
Proof.
  intros Hb. unfold word_of. pose proof (le_range (take 4 (drop (4 * i) bs))) as Hr. assert (bytes_ok (take 4 (drop (4 * i) bs))) as Hok by (by apply Forall_take, Forall_drop).
  specialize (Hr Hok). rewrite length_take in Hr. split; [lia|]. eapply Z.lt_le_trans; [apply Hr|]. change (2 ^ 32) with (256 ^ 4). apply Z.pow_le_mono_r; lia.
Qed.

(** the interface is taken exactly when it is valid: readable, of this size and
    version, with every function and a writable scratch buffer of at most 4096 bytes.
    Otherwise nothing changes and an error is reported. *)
Theorem validate_api_exact (s : Sv Library) address :
  mem_wf (smem s) -> 0 <= address < 2 ^ 32 ->
  wp False (validate_api address) s (fun r s' =>
    match r with
    | None => api_valid (smem s) address /\ s' = Build_Sv (with_api (own s) (api_of (bytes_at (smem s) address 40))) (smem s) (scalls s)
    | Some e => e <> [] /\ ~ api_valid (smem s) address /\ s' = s
    end).
Proof.
  intros Hm Ha. unfold api_valid. set (a := api_of (bytes_at (smem s) address 40)). apply wp_bind, wp_ptr; intros Hacc.
  2: { apply wp_ret. split; [done|]. split; [|done]. intros (H & _). congruence. }
  apply wp_bind, (wp_load _ _ _ kPageRead); [done|done|done|done|done|]. cbn zeta. change (Z.to_nat api_bytes) with 40%nat. fold a.
  destruct (Z.eqb_spec (api_size a) api_bytes) as [Hsz|Hsz]; cbn [negb orb]; [|apply wp_ret; split; [done|]; split; [|done]; tauto].
  destruct (Z.eqb_spec (version a) ZB_SERVICE_PROTOCOL_VERSION) as [Hv|Hv]; cbn [negb]; [|apply wp_ret; split; [done|]; split; [|done]; tauto].
  match goal with |- context [if ?b then mret None else _] => destruct b eqn:Eb end.
  - apply wp_bind, wp_ret, wp_ret. split; [done|]. split; [|done]. intros (_ & _ & _ & H1 & H2 & H3 & H4 & H5 & H6 & H7 & _). unfold ZB_SERVICE_SCRATCH_SIZE in *. lia.
  - rewrite !orb_false_iff, !Z.eqb_neq, Z.ltb_ge in Eb. assert (0 <= scratch_size a) as Hp by (apply word_of_range, bytes_at_ok). apply wp_bind, wp_ptr; intros Hw.
    + apply wp_bind, wp_get_own, wp_bind, wp_put_own, wp_ret. split; [|done]. repeat split; try tauto; lia.
    + apply wp_ret. split; [done|]. split; [|done]. intros (_ & _ & _ & _ & _ & _ & _ & _ & _ & _ & H). congruence.
Qed.

(** ** Strings *)

(** The text is in the buffer with its NUL, and only the buffer changed; or it does not fit,
    or the buffer is not writable, and nothing changed. *)
Definition text_copied (m m' : GuestMemory) (buffer : Z) (t : list Z) : Prop :=
  host_write m buffer (t ++ [0]) = Ret m' /\ only_writable m m' /\ mem_wf m'.

Lemma host_write_holds m a bs m' : bs <> [] -> host_write m a bs = Ret m' -> holds m' a bs.
Proof.
  intros Hne. unfold host_write. rewrite decide_False by done. destruct (pages_writable _ _ _); [|done]. intros [= <-] i b Hi. cbn. unfold store_bytes. apply lookup_lt_Some in Hi as Hl.
  destruct (Z.leb_spec a (a + Z.of_nat i)); [|lia]. destruct (Z.ltb_spec (a + Z.of_nat i) (a + Z.of_nat (length bs))); [|lia]. cbn [andb]. replace (Z.to_nat (a + Z.of_nat i - a)) with i by lia. by rewrite Hi.
Qed.

Lemma wp_copy_text X buffer size_ t (s : Sv Library) Q :
  mem_wf (smem s) -> 0 <= buffer < 2 ^ 32 -> 0 <= size_ < 2 ^ 40 ->
  (forall m, 0 ∉ t -> size t + 1 <= size_ -> text_copied (smem s) m buffer t -> Q None (Build_Sv (own s) m (scalls s))) ->
  (forall e, e <> [] -> 0 ∈ t \/ size_ < size t + 1 \/ accessible (smem s) buffer (size t + 1) kPageWrite = false -> Q (Some e) s) ->
  wp X (copy_text buffer size_ t) s Q.
Proof.
  intros Hm Hb Hs Hok He. unfold copy_text. case_bool_decide as H0; [apply wp_ret, He; [done|by left]|]. cbn [orb].
  destruct (Z.ltb_spec size_ (size t + 1)); [apply wp_ret, He; [done|right; by left]|].
  apply wp_bind, wp_ptr; intros Hacc; [|apply wp_ret, He; [done|right; by right]]. apply wp_bind, (wp_store _ _ _ buffer (size t + 1) kPageWrite); [done|done|unfold size in *; lia|done|done|lia|unfold size; rewrite length_app; cbn; lia|].
  intros m E How Hm'. by apply wp_ret, Hok.
Qed.

Lemma wp_read_text_loop X n address acc (s : Sv Library) Q : mem_wf (smem s) -> (forall t, Q t s) -> wp X (read_text_loop n address acc) s Q.
Proof.
  intros Hm HQ. revert address acc. induction n as [|n IH]; intros address acc; [by apply wp_ret|]. cbn [read_text_loop]. apply wp_bind, wp_ptr; intros Hacc; [|by apply wp_ret].
  apply wp_bind, (wp_load _ _ _ kPageRead); [done|apply u32_range|done|done|done|]. destruct (_ =? 0); [by apply wp_ret|apply IH].
Qed.

Lemma wp_read_text X address (s : Sv Library) Q : mem_wf (smem s) -> (forall t, Q t s) -> wp X (read_text address) s Q.
Proof. intros Hm HQ. unfold read_text. destruct (_ =? 0); [by apply wp_ret|]. by apply wp_read_text_loop. Qed.

Lemma text_at_cons m a b t : text_at m a (b :: t) -> b = u8 (bytes_ m a) /\ b <> 0 /\ readable m a /\ text_at m (a + 1) t.
Proof.
  intros (E & Hnz & Hr). apply Forall_cons in Hnz as [Hb Hnz]. unfold size in *. cbn [length] in *. change (S (length t)) with (1 + length t)%nat in E. unfold bytes_at in E. rewrite seq_app, map_app in E. cbn in E. rewrite Z.add_0_r in E. injection E as Eb Et.
  split; [done|]. split; [done|]. split; [apply Hr; lia|]. split; [|split; [done|intros x Hx; apply Hr; unfold size in Hx; lia]]. rewrite Et at 1. unfold bytes_at. rewrite <- seq_shift, map_map. apply map_ext. intros i. f_equal. f_equal. lia.
Qed.

Lemma read_text_loop_exact n (s : Sv Library) t : forall address acc,
  mem_wf (smem s) -> 0 <= address -> address + size t < 2 ^ 32 -> text_at (smem s) address t -> readable (smem s) (address + size t) -> u8 (bytes_ (smem s) (address + size t)) = 0 ->
  (length t < n)%nat -> wp False (read_text_loop n address acc) s (fun r s' => r = acc ++ t /\ s' = s).
Proof.
  revert t. induction n as [|n IH]; intros t address acc Hm Ha Hend Ht Hr Hz Hn; [lia|]. cbn [read_text_loop]. assert (0 <= size t) by (unfold size; lia).
  assert (readable (smem s) address) as Hra by (destruct t; [replace address with (address + size []) by (unfold size; cbn; lia); done|by destruct (text_at_cons _ _ _ _ Ht) as (_ & _ & ? & _)]).
  pose proof (proj2 (accessible_byte (smem s) address ltac:(lia)) Hra) as Hacc. rewrite u32_small by lia. apply wp_bind, wp_ptr; [intros _|congruence]. apply wp_bind, (wp_load _ _ _ kPageRead); [done|lia|done|exact Hacc|done|].
  assert (bytes_at (smem s) address 1 = [u8 (bytes_ (smem s) address)]) as -> by (unfold bytes_at; cbn; by rewrite Z.add_0_r). assert (le [u8 (bytes_ (smem s) address)] = u8 (bytes_ (smem s) address)) as -> by (cbn [le]; lia). destruct t as [|b t].
  - unfold size in Hz. cbn in Hz. rewrite Z.add_0_r in Hz. rewrite Hz, app_nil_r. by apply wp_ret.
  - apply text_at_cons in Ht as (-> & Hb & _ & Ht). rewrite (proj2 (Z.eqb_neq _ 0)) by done. assert (size (u8 (bytes_ (smem s) address) :: t) = 1 + size t) as Es by (unfold size; cbn [length]; lia). rewrite Es in *.
    eapply wp_mono; [apply (IH t)|cbn; intros r s' [-> ->]; by rewrite <- app_assoc]; [done|lia|lia|done|by replace (address + 1 + size t) with (address + (1 + size t)) by lia|by replace (address + 1 + size t) with (address + (1 + size t)) by lia|cbn in Hn; lia].
Qed.

(** an error text of the guest is read up to its NUL: a readable string of fewer than
    4096 bytes is returned as it is. *)
Theorem read_text_exact (s : Sv Library) address t :
  mem_wf (smem s) -> 0 < address -> address + size t < 2 ^ 32 -> text_at (smem s) address t -> readable (smem s) (address + size t) -> u8 (bytes_ (smem s) (address + size t)) = 0 ->
  size t < ZB_SERVICE_SCRATCH_SIZE -> read_text address s = Ret (t, s).
Proof.
  intros Hm Ha Hend Ht Hr Hz Hn. unfold read_text. rewrite (proj2 (Z.eqb_neq address 0)) by lia.
  assert (wp False (read_text_loop (Z.to_nat ZB_SERVICE_SCRATCH_SIZE) address []) s (fun r s' => r = t /\ s' = s)) as Hw by (apply (read_text_loop_exact _ s t address []); try done; [lia|]; unfold size, ZB_SERVICE_SCRATCH_SIZE in *; lia).
  unfold wp, runs in Hw. destruct (read_text_loop _ _ _ _) as [[r s']| |]; [|done..]. by destruct Hw as [-> ->].
Qed.

(** ** Sealing *)

(** What holds of the object between requests. *)
Record lib_inv (l : Library) : Prop := {
  li_textrel : Forall (textrel_ok (exec_eligible_ (process l))) (textrel_ranges_ (process l));
  li_scratch : 0 <= scratch (api l) < 2 ^ 32 /\ 0 <= scratch_size (api l) < 2 ^ 32;
  li_lease : 0 <= lease_scratch l < 2 ^ 32;
}.

Lemma seal_loop_runs grants rs : forall p, Forall (textrel_ok (exec_eligible_ p)) rs -> mem_wf (mem_ p) ->
  exists b p', seal_loop grants p rs = Ret (b, p') /\ mem_wf (mem_ p') /\ exec_eligible_ p' = exec_eligible_ p /\ textrel_ranges_ p' = textrel_ranges_ p.
Proof.
  induction rs as [|r rs IH]; intros p Hrs Hm; [by exists true, p|]. pose proof Hrs as Hall. apply Forall_cons in Hrs as [(H1 & _ & H3 & _ & H5 & _) Hrs].
  destruct (protect grants (mem_ p) (tr_start r) (tr_length r) (original_prot r)) as [[b m]| |] eqn:E; [|rewrite protect_run in E by (unfold no_wrap; lia); done..].
  assert (mem_wf m) as Hm' by (eapply (op_wf grants (fun _ _ => 0) _ (OpProtect (tr_start r) (tr_length r) (original_prot r))); [done|unfold no_wrap; cbn; lia|exact E|done]).
  cbn [seal_loop]. rewrite E, exec_ret_bind. destruct b; cbn [negb]; [|by eexists _, _].
  destruct (IH (invalidate (with_mem p m) (tr_start r) (tr_length r))) as (b & p' & E' & Hm2 & He & Ht); [done..|]. by exists b, p'.
Qed.

Lemma wp_seal grants X (s : Sv Library) Q :
  lib_inv (own s) -> mem_wf (smem s) -> (forall b p, lib_inv (with_process (own s) p) -> mem_wf (mem_ p) -> Q b (Build_Sv (with_process (own s) p) (mem_ p) (scalls s))) ->
  wp X (seal grants) s Q.
Proof.
  intros [H1 H2 H3] Hm HQ. unfold wp, seal, seal_textrel_ranges. destruct (seal_loop_runs grants (textrel_ranges_ (process (own s))) (with_mem (process (own s)) (smem s)) H1 Hm) as (b & p & E & Hm' & He & Ht).
  cbn [textrel_ranges_ with_mem]. rewrite E, !exec_ret_bind. apply HQ; [|by destruct b]. cbn in He, Ht. split; [|done..]. destruct b; cbn; [done|]. by rewrite He, Ht.
Qed.

(** ** Requests *)

Definition word_result (r : option GuestResult) : Prop := match r with Some r => 0 <= res_r0 r < 2 ^ 32 | None => True end.

(** What a way to call the guest promises. *)
Definition invoke_ok (X : Prop) (invoke : Z -> GuestCall -> svc Library (option GuestResult)) : Prop :=
  forall f args s, lib_inv (own s) -> mem_wf (smem s) -> wp X (invoke f args) s (fun r s' => lib_inv (own s') /\ mem_wf (smem s') /\ word_result r).

Definition sane (s : Sv Library) : Prop := lib_inv (own s) /\ mem_wf (smem s).

(** A handle other than 0 comes with no error. *)
Definition loader_result (r : Z * list Z) (s : Sv Library) : Prop := sane s /\ 0 <= r.1 < 2 ^ 32 /\ (r.1 <> 0 -> r.2 = []).

Section Requests.
Context (grants : nat -> host_request -> bool) (X : Prop) (invoke : Z -> GuestCall -> svc Library (option GuestResult)) (Hinvoke : invoke_ok X invoke).

Lemma wp_invoke_service f args (s : Sv Library) Q : sane s -> (forall r s', sane s' -> word_result r -> Q r s') -> wp X (invoke f args) s Q.
Proof. intros [Hi Hm] HQ. eapply wp_mono; [by apply Hinvoke|]. intros r s' (? & ? & ?). by apply HQ. Qed.

Lemma wp_last_dlerror (s : Sv Library) Q : sane s -> (forall e s', sane s' -> Q e s') -> wp X (last_dlerror invoke) s Q.
Proof.
  intros Hs HQ. apply wp_bind, wp_get_own, wp_bind, wp_invoke_service; [done|]. intros [r|] s' Hs' _; [|by apply wp_ret, HQ]. apply wp_read_text; [apply Hs'|]. intros t. by apply HQ.
Qed.

Lemma load_sound buffer size_ path flags (s : Sv Library) : sane s -> 0 <= buffer < 2 ^ 32 -> 0 <= size_ < 2 ^ 40 -> wp X (load_ grants invoke buffer size_ path flags) s loader_result.
Proof.
  intros Hs Hb Hz. apply wp_bind, wp_copy_text; [apply Hs|done|done| |intros e _ _; by apply wp_ret]. intros m _ _ (_ & _ & Hm). assert (sane (Build_Sv (own s) m (scalls s))) as Hs1 by (split; [apply Hs|done]).
  apply wp_bind, wp_get_own, wp_bind, wp_invoke_service; [done|]. intros [r|] s2 Hs2 Hr; [|by apply wp_ret]. apply wp_bind, wp_seal; [apply Hs2|apply Hs2|]. intros b p Hi Hm'. assert (sane (Build_Sv (with_process (own s2) p) (mem_ p) (scalls s2))) as Hs3 by (by split).
  destruct b; cbn [negb]; [|by apply wp_ret]. destruct (Z.eqb_spec (res_r0 r) 0) as [_|Hne]; [|by apply wp_ret]. apply wp_bind, wp_last_dlerror; [done|]. intros e s4 Hs4. by apply wp_ret.
Qed.

Lemma symbol_sound buffer size_ handle name (s : Sv Library) : sane s -> 0 <= buffer < 2 ^ 32 -> 0 <= size_ < 2 ^ 40 -> wp X (symbol invoke buffer size_ handle name) s loader_result.
Proof.
  intros Hs Hb Hz. apply wp_bind, wp_copy_text; [apply Hs|done|done| |intros e _ _; by apply wp_ret]. intros m _ _ (_ & _ & Hm). assert (sane (Build_Sv (own s) m (scalls s))) as Hs1 by (split; [apply Hs|done]).
  apply wp_bind, wp_get_own, wp_bind, wp_invoke_service; [done|]. intros [r|] s2 Hs2 Hr; [|by apply wp_ret].
  destruct (Z.eqb_spec (res_r0 r) 0) as [_|Hne]; [|by apply wp_ret]. apply wp_bind, wp_last_dlerror; [done|]. intros e s4 Hs4. by apply wp_ret.
Qed.
End Requests.

Lemma inv_child_cache l n : lib_inv l -> lib_inv (with_child_cache l n).
Proof. by intros []. Qed.
Lemma inv_current l c : lib_inv l -> lib_inv (with_current l c).
Proof. by intros []. Qed.
Lemma inv_lease_scratch l a : lib_inv l -> 0 <= a < 2 ^ 32 -> lib_inv (with_lease_scratch l a).
Proof. by intros []. Qed.

Section Execute.
Context (grants : nat -> host_request -> bool) (guest : Z -> list Z -> Sv Library -> option GuestResult * Sv Library) (Hguest : guest_ok lib_inv guest).

Lemma on_thread_ok X : invoke_ok X (on_thread guest).
Proof. intros f args s Hi Hm. apply (wp_guest guest lib_inv Hguest); [done..|]. intros r s' Hi' Hm' Hr. split; [done|]. split; [done|]. destruct r; [apply Hr|done]. Qed.

(** C25: a command on the service thread always gets a response, whatever the guest does:
    it never aborts and touches only guest memory that is there.  A positive response
    carries a result (the handle or address for a load or lookup, which is not 0) and no
    error; a spawned thread leaves the code cache size of later children at its default. *)
Theorem execute_sound command (s : Sv Library) :
  sane s ->
  wp False (execute grants guest command) s (fun r s' =>
    sane s' /\
    (ok r = true -> error r = [] /\ exists g, result r = Some g /\ 0 <= res_r0 g < 2 ^ 32 /\
       match kind command with Load | Symbol => res_r0 g <> 0 | SpawnCarrier => res_r0 g = 0 | Call => True end) /\
    (kind command = SpawnCarrier -> child_code_cache_size (own s') = 0)).
Proof.
  intros Hs. pose proof (li_scratch _ (proj1 Hs)) as [Hb Hz]. apply wp_bind, wp_get_own. destruct (kind command) eqn:Ek.
  - eapply wp_bind, wp_mono; [apply load_sound; [apply on_thread_ok|done|done|lia]|]. intros [h e] s' (Hs' & Hh & He). cbn in *. split; [done|]. split; [|done]. intros Hok%negb_true_iff%Z.eqb_neq. split; [by apply He|]. by eexists.
  - eapply wp_bind, wp_mono; [apply symbol_sound; [apply on_thread_ok|done|done|lia]|]. intros [h e] s' (Hs' & Hh & He). cbn in *. split; [done|]. split; [|done]. intros Hok%negb_true_iff%Z.eqb_neq. split; [by apply He|]. by eexists.
  - apply wp_bind, wp_invoke_service; [apply on_thread_ok|done|]. intros r s' Hs' Hr. apply wp_ret. split; [done|]. split; [|done]. destruct r as [r|]; cbn; [|done]. intros _. split; [done|]. by eexists.
  - apply wp_bind, wp_put_own, wp_bind, wp_invoke_service; [apply on_thread_ok|split; [by apply inv_child_cache, Hs|apply Hs]|]. intros r s' [Hi Hm] Hr. apply wp_bind, wp_get_own, wp_bind, wp_put_own, wp_ret.
    split; [split; [by apply inv_child_cache|done]|]. split; [|done]. destruct r as [r|]; [|done]. destruct (Z.eqb_spec (res_r0 r) 0); [|done]. intros _. split; [done|]. exists r. split; [done|]. by split; [apply Hr|].
Qed.
End Execute.

(** ** Leases *)

Section Leases.
Context (grants : nat -> host_request -> bool) (guest : Z -> list Z -> Sv Library -> option GuestResult * Sv Library) (Hguest : guest_ok lib_inv guest).
Context (this_thread owner borrower : Z).

#[local] Notation call := (Carrier_call guest this_thread owner borrower).

Lemma carrier_call_ok : invoke_ok (owner <> this_thread) call.
Proof.
  intros f args s Hi Hm. unfold Carrier_call. destruct (Z.eqb_spec owner this_thread); cbn [negb]; [|by apply wp_abort]. apply wp_bind, wp_get_own. cbn zeta. destruct (match current (own s) with Some t => _ | None => _ end); [by apply wp_ret|].
  apply wp_bind, wp_put_own, wp_bind, wp_invoke_service; [apply (on_thread_ok _ Hguest)|split; [by apply inv_current|done]|]. intros r s' [Hi' Hm'] Hr. apply wp_bind, wp_get_own, wp_bind, wp_put_own, wp_ret. split; [by apply inv_current|done].
Qed.

Lemma ensure_scratch_sound (s : Sv Library) : sane s ->
  wp (owner <> this_thread) (ensure_scratch guest this_thread owner borrower) s (fun e s' => sane s' /\ (e = None -> lease_scratch (own s') <> 0)).
Proof.
  intros Hs. apply wp_bind, wp_get_own. destruct (Z.eqb_spec (lease_scratch (own s)) 0); cbn [negb]; [|by apply wp_ret]. apply wp_bind, wp_invoke_service; [apply carrier_call_ok|done|].
  intros [r|] s' Hs' Hr; [|by apply wp_ret]. destruct (Z.eqb_spec (res_r0 r) 0); [by apply wp_ret|]. apply wp_bind, wp_get_own, wp_bind, wp_put_own, wp_ret. split; [split; [by apply inv_lease_scratch; [apply Hs'|]|apply Hs']|done].
Qed.

(** loading a library or looking up a symbol through a lease works from any state of
    the guest: it aborts only on a host thread other than the one that took the lease, and
    otherwise returns a handle with no error, or 0. *)
Theorem lease_requests_sound path flags handle name (s : Sv Library) :
  sane s ->
  wp (owner <> this_thread) (Carrier_load_library grants guest this_thread owner borrower path flags) s loader_result /\
  wp (owner <> this_thread) (Carrier_find_symbol guest this_thread owner borrower handle name) s loader_result /\
  wp (owner <> this_thread) (Carrier_free guest this_thread owner borrower) s (fun _ s' => sane s').
Proof.
  intros Hs. split; [|split].
  - eapply wp_bind, wp_mono; [by apply ensure_scratch_sound|]. intros [e|] s' [Hs' _]; [by apply wp_ret|]. apply wp_bind, wp_get_own, load_sound; [apply carrier_call_ok|done|apply Hs'|done].
  - eapply wp_bind, wp_mono; [by apply ensure_scratch_sound|]. intros [e|] s' [Hs' _]; [by apply wp_ret|]. apply wp_bind, wp_get_own, symbol_sound; [apply carrier_call_ok|done|apply Hs'|done].
  - unfold Carrier_free. destruct (Z.eqb_spec owner this_thread); cbn [negb]; [|by apply wp_abort]. apply wp_bind, wp_get_own. destruct (_ =? 0); [by apply wp_ret|]. apply wp_bind, wp_invoke_service; [apply carrier_call_ok|done|]. intros r s' Hs' _. by apply wp_ret.
Qed.

(** a call through a lease runs the guest with the borrower as the thread of this host
    thread and names the previous thread again afterwards; while the host thread runs other
    guest code it refuses and calls nothing. *)
Theorem lease_call_exact f args (s : Sv Library) :
  owner = this_thread ->
  call f args s =
    (if match current (own s) with Some t => bool_decide (t <> borrower) | None => false end then Ret (None, s)
     else let '(r, s') := guest f (NativeCall.regs args ++ NativeCall.stack args)
                            (Build_Sv (with_current (own s) (Some borrower)) (smem s) (scalls s ++ [{| h_name := "guest"; h_args := HInt f :: map HInt (NativeCall.regs args ++ NativeCall.stack args) |}])) in
          Ret (r, Build_Sv (with_current (own s') (current (own s))) (smem s') (scalls s'))).
Proof.
  intros ->. unfold Carrier_call. rewrite Z.eqb_refl. cbn [negb]. unfold mbind at 1, svc_bind at 1, get_own at 1.
  assert (match current (own s) with Some t => negb (t =? borrower) | None => false end = match current (own s) with Some t => bool_decide (t <> borrower) | None => false end) as ->.
  { destruct (current (own s)) as [t|]; [|done]. destruct (Z.eqb_spec t borrower); case_bool_decide; done. }
  destruct (match current (own s) with Some t => _ | None => _ end); [done|]. unfold on_thread, call_guest, mbind, svc_bind, put_own, get_own. cbn. by destruct (guest _ _ _) as [r s'].
Qed.

End Leases.

(** the guest's dlopen is called with the path, NUL-terminated, in the scratch buffer,
    and with the caller's flags; a path that does not fit or contains a NUL is refused before
    the guest runs. *)
Theorem load_hands_over_path grants invoke buffer size_ path flags (s : Sv Library) :
  mem_wf (smem s) -> 0 <= buffer < 2 ^ 32 -> 0 <= size_ < 2 ^ 40 -> bytes_ok path ->
  (exists m rest, load_ grants invoke buffer size_ path flags s = (r ← invoke (dlopen_fn (api (own s))) (Build_GuestCall [buffer; flags; 0; 0] []); rest r) (Build_Sv (own s) m (scalls s)) /\
     bytes_at m buffer (length path + 1) = path ++ [0] /\ only_writable (smem s) m) \/
  (exists e, e <> [] /\ load_ grants invoke buffer size_ path flags s = Ret ((0, e), s) /\
     (0 ∈ path \/ size_ < size path + 1 \/ accessible (smem s) buffer (size path + 1) kPageWrite = false)).
Proof.
  intros Hm Hb Hz Hp. assert (wp False (copy_text buffer size_ path) s (fun r s' => match r with
     | None => exists m, text_copied (smem s) m buffer path /\ s' = Build_Sv (own s) m (scalls s)
     | Some e => s' = s /\ e <> [] /\ (0 ∈ path \/ size_ < size path + 1 \/ accessible (smem s) buffer (size path + 1) kPageWrite = false) end)) as Hc.
  { apply wp_copy_text; [done|done|done|intros m _ _ Ht; by exists m|intros e He Hr; by split]. }
  unfold wp, runs in Hc. destruct (copy_text buffer size_ path s) as [[[e|] s']| |] eqn:E; [| |done..].
  - destruct Hc as (-> & He & Hr). right. exists e. split; [done|]. split; [|done]. unfold load_, mbind, svc_bind. by rewrite E.
  - destruct Hc as (m & (Hw & How & Hm') & ->). left. exists m. eexists. split; [unfold load_; unfold mbind at 1, svc_bind at 1; rewrite E; reflexivity|]. split; [|done].
    replace (length path + 1)%nat with (length (path ++ [0])) by (by rewrite length_app). apply bytes_at_holds; [apply Forall_app; split; [done|by repeat constructor]|]. eapply host_write_holds; [|exact Hw]. by destruct path.
Qed.

(** ** Runs *)

Definition sample_api : zb_service_api :=
  {| api_size := 40; version := 2; dlopen_fn := 1; dlsym_fn := 2; dlerror_fn := 3; spawn_carrier_fn := 4; malloc_fn := 5; free_fn := 6; scratch := 0x10100; scratch_size := 64 |}.
Definition sample_library (a : zb_service_api) : Library := {| api := a; process := Process_init; current := None; child_code_cache_size := 0; lease_scratch := 0 |}.
Definition sample_words : GuestMemory :=
  {| base_ := true; pages_ := pages_ sample_memory; hprot := hprot sample_memory; host_calls := 0%nat;
     bytes_ := fun x => nth (Z.to_nat (x - 0x10000)) (concat (map (to_le 4) [40; 2; 1; 2; 3; 4; 5; 6; 0x10100; 64])) 0 |}.
Definition sample_state (a : zb_service_api) : Sv Library := Build_Sv (sample_library a) sample_words [].
Definition sample_guest (f : Z) (args : list Z) (s : Sv Library) : option GuestResult * Sv Library := (Some {| res_r0 := u32 (f + 6); res_r1 := 0 |}, s).
Definition sample_command : Command := {| kind := Load; value := 0; cflags := 2; text := [47; 97]; cargs := GuestCall_init |}.

Lemma sample_sane : sane (sample_state sample_api).
Proof. split; [split; [constructor|vm_compute; intuition discriminate..]|exact sample_memory_wf]. Qed.

Lemma validate_api_exact_witness : exists e, validate_api 0x10000 (sample_state zb_service_api_init) = Ret (e, sample_state sample_api) /\ e = None.
Proof.
  pose proof (validate_api_exact (sample_state zb_service_api_init) 0x10000 sample_memory_wf ltac:(lia)) as H. unfold wp, runs in H.
  assert (match validate_api 0x10000 (sample_state zb_service_api_init) with Ret (None, _) => true | _ => false end = true) as E by (vm_compute; reflexivity).
  destruct (validate_api 0x10000 _) as [[[e|] s]| |]; try discriminate E. destruct H as [_ ->]. exists None. split; [|reflexivity]. f_equal.
Defined.

Lemma sample_guest_ok I : guest_ok I sample_guest.
Proof. intros f args s HI Hm. split; [done|]. split; [done|]. split; [apply u32_range|cbn; lia]. Qed.

Lemma execute_sound_witness :
  exists r s, execute (fun _ _ => true) sample_guest sample_command (sample_state sample_api) = Ret (r, s) /\ sane s /\ exists g, result r = Some g /\ res_r0 g <> 0.
Proof.
  pose proof (execute_sound (fun _ _ => true) sample_guest (sample_guest_ok _) sample_command (sample_state sample_api) sample_sane) as H. unfold wp, runs in H.
  assert (match execute (fun _ _ => true) sample_guest sample_command (sample_state sample_api) with Ret (r, _) => ok r | _ => false end = true) as E by (vm_compute; reflexivity).
  destruct (execute _ _ _ _) as [[r s]| |]; try discriminate E. destruct H as (Hs & Hr & _). destruct (Hr E) as (_ & g & Eg & _ & Hne). exists r, s. split; [reflexivity|]. split; [exact Hs|]. exists g. split; [exact Eg|exact Hne].
Defined.

Lemma load_hands_over_path_witness :
  exists m rest, load_ (fun _ _ => true) (on_thread sample_guest) 0x10100 64 [47; 97] 2 (sample_state sample_api) =
    (r ← on_thread sample_guest 1 (Build_GuestCall [0x10100; 2; 0; 0] []); rest r) (Build_Sv (sample_library sample_api) m []) /\ bytes_at m 0x10100 3 = [47; 97; 0].
Proof.
  destruct (load_hands_over_path (fun _ _ => true) (on_thread sample_guest) 0x10100 64 [47; 97] 2 (sample_state sample_api)) as [(m & rest & E & Hb & _)|(e & _ & _ & Hr)];
    [exact sample_memory_wf|lia|lia|repeat constructor; discriminate|..].
  - exists m, rest. split; [exact E|exact Hb].
  - exfalso. destruct Hr as [Hr|[Hr|Hr]]; [|discriminate Hr..]. apply list_elem_of_In in Hr. cbn in Hr. lia.
Defined.

Lemma lease_requests_sound_witness :
  exists r s, Carrier_load_library (fun _ _ => true) sample_guest 7 7 9 [47; 97] 2 (sample_state sample_api) = Ret (r, s) /\ loader_result r s.
Proof.
  destruct (lease_requests_sound (fun _ _ => true) sample_guest (sample_guest_ok _) 7 7 9 [47; 97] 2 0 [] (sample_state sample_api) sample_sane) as [H _]. unfold wp, runs in H.
  destruct (Carrier_load_library _ _ _ _ _ _ _ _) as [[r s]| |]; [|exfalso; apply H; reflexivity|destruct H]. exists r, s. split; [reflexivity|exact H].
Defined.
