(* ===== verification/LibraryRuntime.v ===== *)
(** * The threads of the library runtime

    [core/src/library_runtime.cpp]: the service thread of a guest in library mode takes
    commands that host threads submit; carriers (guest pthreads inside their PARK host call)
    are leased to host threads that run guest code on their behalf.  Waiting threads sleep
    in a futex ([GuestThread::park]) and are woken by [GuestThread::wake], an addition
    followed by a futex call, so that a wake-up can fall between any two actions of the
    thread it is meant for.

    The state is what the threads share, and where each guest thread and each host thread
    stands in the code.  A step is one action another thread can observe: a section under
    [Impl::mutex] that does not sleep or wake, one half of a wake, a read of the token.  A
    section that wakes a carrier keeps the mutex until the wake is complete.

    Guest code outside these host calls is arbitrary; the guest protocol is that only the
    main thread (zbhost) calls READY. *)

From stdpp Require Import numbers list gmap strings.
From S2P Require Import Prelude GuestThread Service LibraryService.
Local Open Scope Z_scope.

Definition ZB_RUNTIME_HOST_CALL_FIRST : Z := 0xFE00.
Definition ZB_RUNTIME_HOST_CALL_LAST : Z := 0xFEFF.
Definition ZB_SERVICE_READY_INDEX : Z := 0xFE00.
Definition ZB_CARRIER_PARK_INDEX : Z := 0xFE01.
Definition ZB_SERVICE_AGAIN : Z := 0xFFFFFFF5.

(** ** State *)

Inductive CarrierState := Available | Leased | Released.
#[global] Instance CarrierState_eq_dec : EqDecision CarrierState.
Proof. solve_decision. Defined.

Record ParkedCarrier := { thread : Z; state : CarrierState; listed : bool }.

Inductive wake_stage := ToAdd | ToFutex.

(** Where a guest thread is.  [g] is the number of wake-ups when it read its token, [n] the
    number when it fell asleep. *)
Inductive gpc :=
| Gone
| Running
| SvTop
| SvSignals (g : Z)
| SvPop (g : Z)
| SvPark (g : Z)
| SvAsleep (g n : Z)
| SvExec (c : nat)
| PkEnter
| PkTop (r : Z) (detached : bool)
| PkLock (r : Z) (detached : bool) (g : Z)
| PkPark (r : Z) (detached : bool) (g : Z)
| PkAsleep (r : Z) (detached : bool) (g n : Z).

#[global] Instance gpc_eq_dec : EqDecision gpc.
Proof. solve_decision. Defined.

(** Where a host thread is.  [CHold p] is inside [wake()] with the mutex, with [p] next. *)
Inductive cpc :=
| CIdle
| CSubmit (k : CommandKind)
| CAdd (c : nat) (k : CommandKind)
| CFutex (c : nat) (k : CommandKind)
| CWait (c : nat) (k : CommandKind)
| CBorrow
| CMake (r : Z)
| CLease (r : Z)
| CDrop (r : Z)
| CHold (next : cpc).

Record Impl := {
  records : gmap Z ParkedCarrier;
  carriers : gmap Z Z;
  available : list Z;
  commands : list nat;
  service : option Z;
  started : bool;
  ready : bool;
  finished : bool;
  startup_error : option (list Z);
  locked : option (Z * Z * wake_stage);   (** the host thread, the record whose carrier it wakes *)
}.

Record World := {
  impl : Impl;
  issued : nat;                           (** commands submitted so far *)
  draining : list nat;                    (** commands the runner still has to answer *)
  answers : gmap nat Response;            (** promises that were set *)
  flying : list (Z * wake_stage);         (** wake-ups by posted signals *)
  wakes : Z -> Z;                         (** wake-ups of a thread; its park word is this modulo 2^32 *)
  deliverable : Z -> bool;                (** [has_pending_signals(sigmask)] *)
  r0 : Z -> Z;                            (** what the host call returned *)
  gs : Z -> gpc;
  cs : Z -> cpc;
}.

Definition upd {A} (f : Z -> A) (k : Z) (v : A) : Z -> A := fun x => if decide (x = k) then v else f x.

Definition Impl_init : Impl :=
  {| records := ∅; carriers := ∅; available := []; commands := []; service := None; started := false; ready := false; finished := false; startup_error := None; locked := None |}.

Definition World_init : World :=
  {| impl := Impl_init; issued := 0; draining := []; answers := ∅; flying := []; wakes := fun _ => 0; deliverable := fun _ => false; r0 := fun _ => 0;
     gs := fun _ => Gone; cs := fun _ => CIdle |}.

Definition with_impl (w : World) (i : Impl) : World :=
  {| impl := i; issued := issued w; draining := draining w; answers := answers w; flying := flying w; wakes := wakes w; deliverable := deliverable w; r0 := r0 w; gs := gs w; cs := cs w |}.
Definition with_gs (w : World) (t : Z) (p : gpc) : World :=
  {| impl := impl w; issued := issued w; draining := draining w; answers := answers w; flying := flying w; wakes := wakes w; deliverable := deliverable w; r0 := r0 w; gs := upd (gs w) t p; cs := cs w |}.
Definition with_cs (w : World) (h : Z) (p : cpc) : World :=
  {| impl := impl w; issued := issued w; draining := draining w; answers := answers w; flying := flying w; wakes := wakes w; deliverable := deliverable w; r0 := r0 w; gs := gs w; cs := upd (cs w) h p |}.
Definition returned (w : World) (t v : Z) : World :=
  {| impl := impl w; issued := issued w; draining := draining w; answers := answers w; flying := flying w; wakes := wakes w; deliverable := deliverable w; r0 := upd (r0 w) t v; gs := upd (gs w) t Running; cs := cs w |}.
Definition with_wakes (w : World) (f : Z -> Z) : World :=
  {| impl := impl w; issued := issued w; draining := draining w; answers := answers w; flying := flying w; wakes := f; deliverable := deliverable w; r0 := r0 w; gs := gs w; cs := cs w |}.
Definition with_flying (w : World) (l : list (Z * wake_stage)) : World :=
  {| impl := impl w; issued := issued w; draining := draining w; answers := answers w; flying := l; wakes := wakes w; deliverable := deliverable w; r0 := r0 w; gs := gs w; cs := cs w |}.
Definition with_deliverable (w : World) (t : Z) (b : bool) : World :=
  {| impl := impl w; issued := issued w; draining := draining w; answers := answers w; flying := flying w; wakes := wakes w; deliverable := upd (deliverable w) t b; r0 := r0 w; gs := gs w; cs := cs w |}.
Definition answered_with (w : World) (c : nat) (a : Response) : World :=
  {| impl := impl w; issued := issued w; draining := draining w; answers := <[c := a]> (answers w); flying := flying w; wakes := wakes w; deliverable := deliverable w; r0 := r0 w; gs := gs w; cs := cs w |}.
Definition with_draining (w : World) (l : list nat) : World :=
  {| impl := impl w; issued := issued w; draining := l; answers := answers w; flying := flying w; wakes := wakes w; deliverable := deliverable w; r0 := r0 w; gs := gs w; cs := cs w |}.
Definition issue (w : World) : World :=
  {| impl := impl w; issued := S (issued w); draining := draining w; answers := answers w; flying := flying w; wakes := wakes w; deliverable := deliverable w; r0 := r0 w; gs := gs w; cs := cs w |}.

Definition with_records (i : Impl) (m : gmap Z ParkedCarrier) : Impl :=
  {| records := m; carriers := carriers i; available := available i; commands := commands i; service := service i; started := started i; ready := ready i; finished := finished i; startup_error := startup_error i; locked := locked i |}.
Definition with_carriers (i : Impl) (m : gmap Z Z) : Impl :=
  {| records := records i; carriers := m; available := available i; commands := commands i; service := service i; started := started i; ready := ready i; finished := finished i; startup_error := startup_error i; locked := locked i |}.
Definition with_available (i : Impl) (l : list Z) : Impl :=
  {| records := records i; carriers := carriers i; available := l; commands := commands i; service := service i; started := started i; ready := ready i; finished := finished i; startup_error := startup_error i; locked := locked i |}.
Definition with_commands (i : Impl) (l : list nat) : Impl :=
  {| records := records i; carriers := carriers i; available := available i; commands := l; service := service i; started := started i; ready := ready i; finished := finished i; startup_error := startup_error i; locked := locked i |}.
Definition with_locked (i : Impl) (l : option (Z * Z * wake_stage)) : Impl :=
  {| records := records i; carriers := carriers i; available := available i; commands := commands i; service := service i; started := started i; ready := ready i; finished := finished i; startup_error := startup_error i; locked := l |}.
Definition with_startup_error (i : Impl) (e : list Z) : Impl :=
  {| records := records i; carriers := carriers i; available := available i; commands := commands i; service := service i; started := started i; ready := ready i; finished := finished i; startup_error := Some e; locked := locked i |}.
Definition with_ready (i : Impl) (t : Z) : Impl :=
  {| records := records i; carriers := carriers i; available := available i; commands := commands i; service := Some t; started := started i; ready := true; finished := finished i; startup_error := startup_error i; locked := locked i |}.
Definition with_started (i : Impl) : Impl :=
  {| records := records i; carriers := carriers i; available := available i; commands := commands i; service := service i; started := true; ready := ready i; finished := finished i; startup_error := startup_error i; locked := locked i |}.
Definition with_finished (i : Impl) (status : list Z) : Impl :=
  {| records := records i; carriers := carriers i; available := available i; commands := []; service := service i; started := started i; ready := ready i; finished := true;
     startup_error := match startup_error i with None => if ready i then None else Some status | e => e end; locked := locked i |}.

(** ** Sections of the code *)

(** [park_word_.fetch_add(1)]. *)
Definition wake_add (w : World) (t : Z) : World := with_wakes w (upd (wakes w) t (wakes w t + 1)).

(** [FUTEX_WAKE]: a sleeping thread goes back to the top of its loop. *)
Definition awake (p : gpc) : gpc := match p with SvAsleep _ _ => SvTop | PkAsleep r d _ _ => PkTop r d | p => p end.
Definition wake_futex (w : World) (t : Z) : World := with_gs w t (awake (gs w t)).

(** [park(token)]: the futex compares 32-bit words. *)
Definition sleeps (w : World) (t g : Z) : bool := u32 g =? u32 (wakes w t).

(** [handle_ready] up to [serve]; [verdict] is the error of sealing and [validate_api]. *)
Definition ready_section (w : World) (t : Z) (verdict : option (list Z)) : World :=
  if ready (impl w) then with_gs w t SvTop
  else match verdict with
       | Some e => returned (with_impl w (with_startup_error (impl w) e)) t 1
       | None => with_gs (with_impl w (with_ready (impl w) t)) t SvTop
       end.

(** [serve]. *)
Definition serve_signals (w : World) (t g : Z) : World := if deliverable w t then returned w t ZB_SERVICE_AGAIN else with_gs w t (SvPop g).
Definition serve_pop (w : World) (t g : Z) : World :=
  match commands (impl w) with
  | c :: rest => with_gs (with_impl w (with_commands (impl w) rest)) t (SvExec c)
  | [] => with_gs w t (SvPark g)
  end.
Definition serve_park (w : World) (t g : Z) : World := with_gs w t (if sleeps w t g then SvAsleep g (wakes w t) else SvTop).
(** [command->done.set_value(execute(..))], then the test of [process.exiting()]. *)
Definition serve_done (w : World) (t : Z) (c : nat) (a : Response) (exiting : bool) : World :=
  if exiting then returned (answered_with w c a) t 1 else with_gs (answered_with w c a) t SvTop.

(** [park_carrier]. *)
Definition park_enter (w : World) (t fresh : Z) : World :=
  match carriers (impl w) !! t with
  | Some r => with_gs w t (PkTop r false)
  | None => with_gs (with_impl w (with_carriers (with_records (impl w) (<[fresh := {| thread := t; state := Available; listed := false |}]> (records (impl w)))) (<[t := fresh]> (carriers (impl w))))) t (PkTop fresh false)
  end.

Definition set_record (i : Impl) (r : Z) (p : ParkedCarrier) : Impl := with_records i (<[r := p]> (records i)).

Definition park_section (w : World) (t r : Z) (detached : bool) (g : Z) : World :=
  match records (impl w) !! r with
  | None => w
  | Some p =>
      match state p with
      | Released => returned (with_impl w (with_carriers (impl w) (delete t (carriers (impl w))))) t 0
      | Available =>
          if deliverable w t then
            let i := if listed p then set_record (with_available (impl w) (filter (fun x => x <> r) (available (impl w)))) r {| thread := thread p; state := state p; listed := false |} else impl w in
            returned (with_impl w i) t ZB_SERVICE_AGAIN
          else
            let i := if listed p then impl w else set_record (with_available (impl w) (available (impl w) ++ [r])) r {| thread := thread p; state := state p; listed := true |} in
            with_gs (with_impl w i) t (PkPark r detached g)
      | Leased => with_gs w t (PkPark r true g)
      end
  end.
Definition park_park (w : World) (t r : Z) (d : bool) (g : Z) : World := with_gs w t (if sleeps w t g then PkAsleep r d g (wakes w t) else PkTop r d).

(** [submit] under the mutex: the command is queued, or refused. *)
Definition submit_section (w : World) (h : Z) (k : CommandKind) (on_service : bool) : World :=
  if negb (ready (impl w)) || finished (impl w) || on_service then with_cs w h CIdle
  else with_cs (issue (with_impl w (with_commands (impl w) (commands (impl w) ++ [issued w])))) h (CAdd (issued w) k).

(** [future.get()]; [borrow] goes on when the carrier was spawned. *)
Definition submit_get (w : World) (h : Z) (k : CommandKind) (a : Response) : World :=
  with_cs w h (match k with SpawnCarrier => if ok a then CBorrow else CIdle | _ => CIdle end).

(** [borrow] after its wait: the oldest available carrier is leased. *)
Definition take_carrier (w : World) (h : Z) : World :=
  match available (impl w) with
  | [] => with_cs w h CIdle
  | r :: rest =>
      match records (impl w) !! r with
      | None => w
      | Some p =>
          with_cs (with_impl w (with_locked (set_record (with_available (impl w) rest) r {| thread := thread p; state := Leased; listed := false |}) (Some (h, r, ToAdd)))) h (CHold (CMake r))
      end
  end.

(** The end of [~Carrier], and [borrow] without a borrower. *)
Definition release_carrier (w : World) (h r : Z) : World :=
  match records (impl w) !! r with
  | None => w
  | Some p => with_cs (with_impl w (with_locked (set_record (impl w) r {| thread := thread p; state := Released; listed := listed p |}) (Some (h, r, ToAdd)))) h (CHold CIdle)
  end.

(** The thread the host thread in the mutex wakes. *)
Definition locked_target (i : Impl) (r : Z) : option Z := thread <$> records i !! r.

(** The runner after [process.run]. *)
Definition runner_finish (w : World) (status : list Z) : World := with_draining (with_impl w (with_finished (impl w) status)) (commands (impl w)).
Definition runner_answer (w : World) (c : nat) (rest : list nat) (status : list Z) : World := with_draining (answered_with w c {| ok := false; result := None; error := status |}) rest.

(** [handle_host_call]: which handler an index goes to. *)
Inductive route := RouteReady | RoutePark | RouteRefused | RouteChained.
Definition handle_host_call (index : Z) : route :=
  if (ZB_RUNTIME_HOST_CALL_FIRST <=? index) && (index <=? ZB_RUNTIME_HOST_CALL_LAST) then
    if index =? ZB_SERVICE_READY_INDEX then RouteReady else if index =? ZB_CARRIER_PARK_INDEX then RoutePark else RouteRefused
  else RouteChained.

(** [set_host_call_handler] and the destructor abort once the runtime was started, unless
    the guest ended before it was ready. *)
Definition set_host_call_handler (i : Impl) : exec unit := if started i then Aborted else Ret tt.
Definition destroy (i : Impl) (joinable : bool) : exec unit := if negb joinable then Ret tt else if ready i || negb (finished i) then Aborted else Ret tt.

(** What [start] reports after its wait; [None] for success. *)
Definition start_result (i : Impl) (timeout : list Z) : option (list Z) :=
  if ready i then None else Some (if finished i || bool_decide (is_Some (startup_error i)) then default [] (startup_error i) else timeout).

(** ** Steps *)

Section Steps.
(** The main guest thread, [zbhost]. *)
Context (main : Z).

Inductive step (w : World) : World -> Prop :=
(* start, the guest threads *)
| s_start : started (impl w) = false -> locked (impl w) = None -> step w (with_gs (with_impl w (with_started (impl w))) main Running)
| s_new t : gs w t = Gone -> t <> main -> started (impl w) = true -> finished (impl w) = false -> (exists t', gs w t' <> Gone) ->
    step w (with_deliverable (with_wakes (with_gs w t Running) (upd (wakes w) t 0)) t false)
| s_exit t : gs w t = Running -> (forall st, (t, st) ∉ flying w) -> step w (with_gs w t Gone)
| s_mask t b : gs w t = Running \/ (exists c, gs w t = SvExec c) -> step w (with_deliverable w t b)
| s_signal t : gs w t <> Gone -> step w (with_flying (with_deliverable w t true) ((t, ToAdd) :: flying w))
| s_signal_add t l1 l2 : flying w = l1 ++ (t, ToAdd) :: l2 -> step w (wake_add (with_flying w (l1 ++ (t, ToFutex) :: l2)) t)
| s_signal_futex t l1 l2 : flying w = l1 ++ (t, ToFutex) :: l2 -> step w (wake_futex (with_flying w (l1 ++ l2)) t)
| s_spurious t : step w (wake_futex w t)
(* READY *)
| s_ready verdict : gs w main = Running -> locked (impl w) = None -> step w (ready_section w main verdict)
| s_sv_token t : gs w t = SvTop -> step w (with_gs w t (SvSignals (wakes w t)))
| s_sv_signals t g : gs w t = SvSignals g -> step w (serve_signals w t g)
| s_sv_pop t g : gs w t = SvPop g -> locked (impl w) = None -> step w (serve_pop w t g)
| s_sv_park t g : gs w t = SvPark g -> step w (serve_park w t g)
| s_sv_done t c a exiting : gs w t = SvExec c -> step w (serve_done w t c a exiting)
(* PARK *)
| s_park t : gs w t = Running -> step w (with_gs w t PkEnter)
| s_pk_enter t fresh : gs w t = PkEnter -> locked (impl w) = None -> records (impl w) !! fresh = None -> step w (park_enter w t fresh)
| s_pk_token t r d : gs w t = PkTop r d -> step w (with_gs w t (PkLock r d (wakes w t)))
| s_pk_lock t r d g : gs w t = PkLock r d g -> locked (impl w) = None -> step w (park_section w t r d g)
| s_pk_park t r d g : gs w t = PkPark r d g -> step w (park_park w t r d g)
(* host threads *)
| s_call h k : cs w h = CIdle -> step w (with_cs w h (CSubmit k))
| s_submit h k on_service : cs w h = CSubmit k -> locked (impl w) = None -> step w (submit_section w h k on_service)
| s_submit_add h c k t : cs w h = CAdd c k -> service (impl w) = Some t -> step w (with_cs (wake_add w t) h (CFutex c k))
| s_submit_futex h c k t : cs w h = CFutex c k -> service (impl w) = Some t -> step w (with_cs (wake_futex w t) h (CWait c k))
| s_get h c k a : cs w h = CWait c k -> answers w !! c = Some a -> step w (submit_get w h k a)
| s_take h : cs w h = CBorrow -> locked (impl w) = None -> step w (take_carrier w h)
| s_lock_add h r t : locked (impl w) = Some (h, r, ToAdd) -> locked_target (impl w) r = Some t ->
    step w (wake_add (with_impl w (with_locked (impl w) (Some (h, r, ToFutex)))) t)
| s_lock_futex h r t p : locked (impl w) = Some (h, r, ToFutex) -> locked_target (impl w) r = Some t -> cs w h = CHold p ->
    step w (with_cs (wake_futex (with_impl w (with_locked (impl w) None)) t) h p)
| s_make h r : cs w h = CMake r -> step w (with_cs w h (CLease r))
| s_make_fails h r : cs w h = CMake r -> locked (impl w) = None -> step w (release_carrier w h r)
| s_drop h r t b : cs w h = CLease r -> locked_target (impl w) r = Some t -> step w (with_cs (with_deliverable w t b) h (CDrop r))
| s_release h r : cs w h = CDrop r -> locked (impl w) = None -> step w (release_carrier w h r)
(* the runner *)
| s_finish status : started (impl w) = true -> finished (impl w) = false -> (forall t, gs w t = Gone) -> locked (impl w) = None -> step w (runner_finish w status)
| s_drain c rest status : draining w = c :: rest -> step w (runner_answer w c rest status).

Definition reachable (w : World) : Prop := rtc step World_init w.
End Steps.

(** ** Carriers *)

(** The record of a thread that is inside PARK. *)
Definition in_park (p : gpc) : option Z :=
  match p with PkTop r _ | PkLock r _ _ | PkPark r _ _ | PkAsleep r _ _ _ => Some r | _ => None end.

(** The record a host thread holds a lease of. *)
Fixpoint holds (p : cpc) : option Z :=
  match p with CMake r | CLease r | CDrop r => Some r | CHold p => holds p | _ => None end.
Definition next_of (p : cpc) : option cpc := match p with CHold p => Some p | _ => None end.

(** Claimed by a borrower or by the list: its thread must not leave PARK. *)
Definition claimed (m : gmap Z Z) (r : Z) (p : ParkedCarrier) : Prop :=
  listed p = true \/ state p = Leased \/ state p = Released /\ m !! thread p = Some r.

Record carriers_ok (m : gmap Z ParkedCarrier) (k : gmap Z Z) (l : list Z) (lk : option (Z * Z * wake_stage)) (park : Z -> option Z) (c : Z -> cpc) : Prop := {
  co_nodup : NoDup l;
  co_listed : forall r, r ∈ l <-> exists p, m !! r = Some p /\ listed p = true;
  co_available : forall r p, m !! r = Some p -> listed p = true -> state p = Available;
  co_slot : forall t r, k !! t = Some r -> exists p, m !! r = Some p /\ thread p = t;
  co_parked : forall t r, park t = Some r -> k !! t = Some r;
  co_claimed : forall r p, m !! r = Some p -> claimed k r p -> park (thread p) = Some r;
  co_holds : forall h r, holds (c h) = Some r -> exists p, m !! r = Some p /\ state p = Leased;
  co_once : forall h h' r, holds (c h) = Some r -> holds (c h') = Some r -> h = h';
  co_leased : forall r p, m !! r = Some p -> state p = Leased -> exists h, holds (c h) = Some r;
  co_locked : forall h r st, lk = Some (h, r, st) -> (next_of (c h) = Some (CMake r) \/ next_of (c h) = Some CIdle) /\ exists p, m !! r = Some p /\ claimed k r p /\ state p <> Available;
  co_next : forall h p, next_of (c h) = Some p -> exists r st, lk = Some (h, r, st);
}.

Definition carriers_inv (w : World) : Prop :=
  carriers_ok (records (impl w)) (carriers (impl w)) (available (impl w)) (locked (impl w)) (fun t => in_park (gs w t)) (cs w).

Lemma carriers_park m k l lk park park' c : (forall t, park' t = park t) -> carriers_ok m k l lk park c -> carriers_ok m k l lk park' c.
Proof. intros E [H1 H2 H3 H4 H5 H6 H7 H8 H9 H10 H11]. split; try done; intros *; rewrite E; auto. Qed.

Lemma carriers_cs m k l lk park c c' :
  (forall h, holds (c' h) = holds (c h)) -> (forall h, next_of (c' h) = next_of (c h)) -> carriers_ok m k l lk park c -> carriers_ok m k l lk park c'.
Proof.
  intros E1 E2 [H1 H2 H3 H4 H5 H6 H7 H8 H9 H10 H11]. split; try done.
  - intros h r. rewrite E1. apply H7.
  - intros h h' r. rewrite !E1. apply H8.
  - intros r p Hp Hs. destruct (H9 r p Hp Hs) as [h Hh]. exists h. by rewrite E1.
  - intros h r st. rewrite E2. apply H10.
  - intros h p. rewrite E2. apply H11.
Qed.

Lemma upd_eq {A} (f : Z -> A) k v : upd f k v k = v.
Proof. unfold upd. by rewrite decide_True. Qed.
Lemma upd_ne {A} (f : Z -> A) k v x : x <> k -> upd f k v x = f x.
Proof. intros. unfold upd. by rewrite decide_False. Qed.
Lemma upd_view {A B} (g : A -> B) (f : Z -> A) k v x : g v = g (f k) -> g (upd f k v x) = g (f x).
Proof. intros E. unfold upd. case_decide; [by subst|done]. Qed.

(** Steps that move a guest thread outside PARK or within it. *)
Lemma carriers_moved w t p : in_park p = in_park (gs w t) -> carriers_inv w -> carriers_inv (with_gs w t p).
Proof. intros E. apply carriers_park. intros t'. cbn. by apply upd_view. Qed.

Lemma carriers_returned w t v : in_park (gs w t) = None -> carriers_inv w -> carriers_inv (returned w t v).
Proof. intros E. apply carriers_park. intros t'. cbn. apply (upd_view in_park). by rewrite E. Qed.

(** Steps of a host thread that neither take nor give up a lease. *)
Lemma carriers_client w h p : holds p = holds (cs w h) -> next_of p = next_of (cs w h) -> carriers_inv w -> carriers_inv (with_cs w h p).
Proof. intros E1 E2. apply carriers_cs; intros h'; cbn; by apply upd_view. Qed.

Lemma in_park_awake p : in_park (awake p) = in_park p.
Proof. by destruct p. Qed.

Section CarrierSections.
Context (m : gmap Z ParkedCarrier) (k : gmap Z Z) (l : list Z) (park : Z -> option Z) (c : Z -> cpc).

Lemma enters_again lk t r : park t = None -> k !! t = Some r -> carriers_ok m k l lk park c -> carriers_ok m k l lk (upd park t (Some r)) c.
Proof.
  intros Hn Hk [H1 H2 H3 H4 H5 H6 H7 H8 H9 H10 H11]. split; try done.
  - intros t' r'. unfold upd. case_decide as E; [subst t'; by intros [= <-]|apply H5].
  - intros r' p Hp Hc. pose proof (H6 r' p Hp Hc) as Hpk. unfold upd. case_decide as E; [|done]. rewrite E in Hpk. congruence.
Qed.

Lemma enters_fresh lk t f : park t = None -> k !! t = None -> m !! f = None -> carriers_ok m k l lk park c ->
  carriers_ok (<[f := {| thread := t; state := Available; listed := false |}]> m) (<[t := f]> k) l lk (upd park t (Some f)) c.
Proof.
  intros Hn Hk Hf [H1 H2 H3 H4 H5 H6 H7 H8 H9 H10 H11].
  assert (forall r p, m !! r = Some p -> claimed (<[t := f]> k) r p <-> claimed k r p) as Hcl.
  { intros r p Hp. unfold claimed. destruct (decide (thread p = t)) as [E|E]; [rewrite E, lookup_insert_eq, Hk|by rewrite lookup_insert_ne by congruence]. split; [|naive_solver]. intros [?|[?|[_ [= ->]]]]; [tauto..|congruence]. }
  assert (forall r, r ∈ l -> r <> f) as Hlf by (intros r Hr%H2 ->; destruct Hr as (p & Hp & _); congruence).
  split; try done.
  - intros r. destruct (decide (r = f)) as [->|Hne]; [|by rewrite lookup_insert_ne; [apply H2|congruence]]. rewrite lookup_insert_eq. split; [intros Hr; by destruct (Hlf f Hr)|intros (p & [= <-] & Hl); done].
  - intros r p [[<- <-]|[_ Hp]]%lookup_insert_Some; [done|by eapply H3].
  - intros t' r [[<- <-]|[Hne Hr]]%lookup_insert_Some; [eexists; by rewrite lookup_insert_eq|]. destruct (H4 t' r Hr) as (p & Hp & Ht). exists p. split; [|done]. rewrite lookup_insert_ne; [done|congruence].
  - intros t' r. unfold upd. case_decide as E; [subst t'; intros [= <-]; by rewrite lookup_insert_eq|]. intros Hr. rewrite lookup_insert_ne by done. by apply H5.
  - intros r p [[<- <-]|[_ Hp]]%lookup_insert_Some; [intros _; cbn; apply upd_eq|]. rewrite Hcl by done. intros Hc. pose proof (H6 r p Hp Hc) as Hpk. rewrite upd_ne; [done|]. intros E. rewrite E in Hpk. congruence.
  - intros h r Hh. destruct (H7 h r Hh) as (p & Hp & Hs). exists p. split; [|done]. rewrite lookup_insert_ne; [done|congruence].
  - intros r p [[<- <-]|[_ Hp]]%lookup_insert_Some; [done|by eapply H9].
  - intros h r st Hlk. destruct (H10 h r st Hlk) as (Hn' & p & Hp & Hc & Hs). split; [done|]. exists p. rewrite Hcl by done. split; [|done]. rewrite lookup_insert_ne; [done|congruence].
Qed.

(** A thread inside PARK whose record is not claimed may leave. *)
Lemma leaves t r k' : park t = Some r -> k' = k \/ k' = delete t k -> (forall p, m !! r = Some p -> ~ claimed k' r p) -> carriers_ok m k l None park c -> carriers_ok m k' l None (upd park t None) c.
Proof.
  intros Ht Hk' Hun [H1 H2 H3 H4 H5 H6 H7 H8 H9 H10 H11]. assert (forall t' r', k' !! t' = Some r' -> k !! t' = Some r') as Hsub by (destruct Hk' as [->| ->]; [done|by intros ? ? [_ ?]%lookup_delete_Some]).
  assert (forall r' p, claimed k' r' p -> claimed k r' p) as Hcl by (intros r' p; unfold claimed; naive_solver).
  split; try done.
  - intros t' r' Hr. by apply H4, Hsub.
  - intros t' r'. unfold upd. case_decide as E; [done|]. intros Hr. apply H5 in Hr. destruct Hk' as [->| ->]; [done|]. by rewrite lookup_delete_ne by congruence.
  - intros r' p Hp Hc. pose proof (H6 r' p Hp (Hcl _ _ Hc)) as Hpk. rewrite upd_ne; [done|]. intros E. rewrite E, Ht in Hpk. injection Hpk as ->. by apply (Hun p).
Qed.

(** The record [r] changes its place in the list. *)
Lemma unlisted r p : m !! r = Some p -> listed p = true -> carriers_ok m k l None park c ->
  carriers_ok (<[r := {| thread := thread p; state := state p; listed := false |}]> m) k (filter (fun x => x <> r) l) None park c.
Proof.
  intros Hp Hl [H1 H2 H3 H4 H5 H6 H7 H8 H9 H10 H11]. pose proof (H3 r p Hp Hl) as Hs. split; try done.
  - by apply NoDup_filter.
  - intros x. rewrite list_elem_of_filter. destruct (decide (x = r)) as [->|Hne]; [|rewrite lookup_insert_ne, H2 by congruence; tauto].
    rewrite lookup_insert_eq. split; [by intros []|]. by intros (q & [= <-] & Hq).
  - intros x q [[<- <-]|[_ Hq]]%lookup_insert_Some; [done|by eapply H3].
  - intros t x Hx. destruct (H4 t x Hx) as (q & Hq & Ht). destruct (decide (x = r)) as [->|Hne]; [|exists q; by rewrite lookup_insert_ne by congruence]. eexists. rewrite lookup_insert_eq. split; [done|]. cbn. congruence.
  - intros x q [[<- <-]|[_ Hq]]%lookup_insert_Some; [|by apply H6]. intros Hc. apply (H6 r p Hp). by left.
  - intros h x Hh. destruct (H7 h x Hh) as (q & Hq & Hs'). exists q. split; [|done]. rewrite lookup_insert_ne; [done|congruence].
  - intros x q [[<- <-]|[_ Hq]]%lookup_insert_Some; [cbn; congruence|by eapply H9].
Qed.

Lemma relisted r p : m !! r = Some p -> listed p = false -> state p = Available -> park (thread p) = Some r -> carriers_ok m k l None park c ->
  carriers_ok (<[r := {| thread := thread p; state := state p; listed := true |}]> m) k (l ++ [r]) None park c.
Proof.
  intros Hp Hl Hs Hpk [H1 H2 H3 H4 H5 H6 H7 H8 H9 H10 H11]. assert (r ∉ l) as Hr by (intros (q & Hq & Hl')%H2; congruence). split; try done.
  - apply NoDup_app. split; [done|]. split; [|apply NoDup_singleton]. intros x Hx ->%list_elem_of_singleton. done.
  - intros x. rewrite elem_of_app, list_elem_of_singleton. destruct (decide (x = r)) as [->|Hne]; [|rewrite lookup_insert_ne, H2 by congruence; tauto].
    rewrite lookup_insert_eq. split; [|by right]. intros _. by eexists.
  - intros x q [[<- <-]|[_ Hq]]%lookup_insert_Some; [done|by eapply H3].
  - intros t x Hx. destruct (H4 t x Hx) as (q & Hq & Ht). destruct (decide (x = r)) as [->|Hne]; [|exists q; by rewrite lookup_insert_ne by congruence]. eexists. rewrite lookup_insert_eq. split; [done|]. cbn. congruence.
  - intros x q [[<- <-]|[_ Hq]]%lookup_insert_Some; [done|by apply H6].
  - intros h x Hh. destruct (H7 h x Hh) as (q & Hq & Hs'). exists q. split; [|done]. rewrite lookup_insert_ne; [done|congruence].
  - intros x q [[<- <-]|[_ Hq]]%lookup_insert_Some; [cbn; congruence|by eapply H9].
Qed.

Lemma leased_to h r rest p : c h = CBorrow -> l = r :: rest -> m !! r = Some p -> carriers_ok m k l None park c ->
  carriers_ok (<[r := {| thread := thread p; state := Leased; listed := false |}]> m) k rest (Some (h, r, ToAdd)) park (upd c h (CHold (CMake r))).
Proof.
  intros Hh El Hp [H1 H2 H3 H4 H5 H6 H7 H8 H9 H10 H11]. rewrite El in *. apply NoDup_cons in H1 as [Hr Hnd]. assert (listed p = true) as Hl by (destruct (proj1 (H2 r)) as (q & Hq & ?); [left|congruence]).
  pose proof (H3 r p Hp Hl) as Hs. assert (forall h', holds (c h') <> Some r) as Hno by (intros h' E; destruct (H7 _ _ E) as (q & Hq & ?); congruence). split; try done.
  - intros x. destruct (decide (x = r)) as [->|Hne]; [rewrite lookup_insert_eq; split; [done|by intros (q & [= <-] & ?)]|]. rewrite lookup_insert_ne, <- H2 by congruence. rewrite elem_of_cons. tauto.
  - intros x q [[<- <-]|[_ Hq]]%lookup_insert_Some; [done|by eapply H3].
  - intros t x Hx. destruct (H4 t x Hx) as (q & Hq & Ht). destruct (decide (x = r)) as [->|Hne]; [|exists q; by rewrite lookup_insert_ne by congruence]. eexists. rewrite lookup_insert_eq. split; [done|]. cbn. congruence.
  - intros x q [[<- <-]|[_ Hq]]%lookup_insert_Some; [|by apply H6]. intros _. apply (H6 r p Hp). by left.
  - intros h' x. unfold upd. case_decide; [cbn; intros [= <-]; rewrite lookup_insert_eq; by eexists|]. intros E. destruct (H7 h' x E) as (q & Hq & Hs'). exists q. split; [|done]. rewrite lookup_insert_ne; [done|congruence].
  - intros h1 h2 x. unfold upd. repeat case_decide; cbn; [congruence|intros [= <-] E; by apply Hno in E|intros E [= <-]; by apply Hno in E|apply H8].
  - intros x q [[<- <-]|[_ Hq]]%lookup_insert_Some; [intros _; exists h; by rewrite upd_eq|]. intros Hq'. destruct (H9 x q Hq Hq') as [h' E]. exists h'. rewrite upd_ne; [done|]. intros ->. rewrite Hh in E. done.
  - intros h' x st [= <- <- <-]. rewrite upd_eq. split; [by left|]. eexists. rewrite lookup_insert_eq. split; [done|]. split; [right; by left|done].
  - intros h' q. unfold upd. case_decide as E; [subst h'; by eexists _, _|]. intros Hn. by apply H11 in Hn as (? & ? & ?).
Qed.

Lemma released_by h r p : holds (c h) = Some r -> m !! r = Some p -> carriers_ok m k l None park c ->
  carriers_ok (<[r := {| thread := thread p; state := Released; listed := listed p |}]> m) k l (Some (h, r, ToAdd)) park (upd c h (CHold CIdle)).
Proof.
  intros Hh Hp [H1 H2 H3 H4 H5 H6 H7 H8 H9 H10 H11]. destruct (H7 h r Hh) as (p' & Hp' & Hs). assert (p' = p) as -> by congruence.
  assert (listed p = false) as Hl by (destruct (listed p) eqn:E; [|done]; rewrite (H3 r p Hp E) in Hs; done). assert (park (thread p) = Some r) as Hpk by (apply (H6 r p Hp); right; by left).
  split; try done.
  - intros x. destruct (decide (x = r)) as [->|Hne]; [rewrite lookup_insert_eq, H2|by rewrite lookup_insert_ne; [apply H2|congruence]]. split; [intros (q & Hq & ?); congruence|intros (q & [= <-] & Hl2); cbn in Hl2; congruence].
  - intros x q [[<- <-]|[_ Hq]]%lookup_insert_Some; [cbn; congruence|by eapply H3].
  - intros t x Hx. destruct (H4 t x Hx) as (q & Hq & Ht). destruct (decide (x = r)) as [->|Hne]; [|exists q; by rewrite lookup_insert_ne by congruence]. eexists. rewrite lookup_insert_eq. split; [done|]. cbn. congruence.
  - intros x q [[<- <-]|[_ Hq]]%lookup_insert_Some; [done|by apply H6].
  - intros h' x. unfold upd. case_decide; [done|]. intros E. destruct (H7 h' x E) as (q & Hq & Hs'). exists q. split; [|done]. rewrite lookup_insert_ne; [done|]. intros <-. by pose proof (H8 _ _ _ E Hh).
  - intros h1 h2 x. unfold upd. repeat case_decide; cbn; [congruence|done|done|apply H8].
  - intros x q [[<- <-]|[Hne Hq]]%lookup_insert_Some; [done|]. intros Hq'. destruct (H9 x q Hq Hq') as [h' E]. exists h'. rewrite upd_ne; [done|]. intros ->. congruence.
  - intros h' x st [= <- <- <-]. rewrite upd_eq. split; [by right|]. eexists. rewrite lookup_insert_eq. split; [done|]. split; [|done]. right. right. split; [done|]. cbn. by apply H5.
  - intros h' q. unfold upd. case_decide as E; [subst h'; by eexists _, _|]. intros Hn. by apply H11 in Hn as (? & ? & ?).
Qed.

Lemma lock_stage h r st st' : carriers_ok m k l (Some (h, r, st)) park c -> carriers_ok m k l (Some (h, r, st')) park c.
Proof.
  intros [H1 H2 H3 H4 H5 H6 H7 H8 H9 H10 H11]. split; try done; [intros h' r' st2 [= <- <- <-]; by eapply H10|]. intros h' p Hn. destruct (H11 h' p Hn) as (r' & st2 & [= <- <- <-]). by eexists _, _.
Qed.

Lemma unlocked h r st p : next_of (c h) = Some p -> carriers_ok m k l (Some (h, r, st)) park c -> carriers_ok m k l None park (upd c h p).
Proof.
  intros Hn [H1 H2 H3 H4 H5 H6 H7 H8 H9 H10 H11]. destruct (H10 h r st eq_refl) as (Hp & _). assert (forall h', holds (upd c h p h') = holds (c h')) as Eh.
  { intros h'. apply upd_view. destruct (c h); try done. cbn in Hn. by injection Hn as ->. }
  split; try done.
  - intros h' x. rewrite Eh. apply H7.
  - intros h1 h2 x. rewrite !Eh. apply H8.
  - intros x q Hq Hs. destruct (H9 x q Hq Hs) as [h' E]. exists h'. by rewrite Eh.
  - intros h' q. unfold upd. case_decide as E; [|intros Hq; destruct (H11 h' q Hq) as (? & ? & [= <- _ _]); done]. subst h'. rewrite Hn in Hp. by destruct Hp as [[= ->]|[= ->]].
Qed.
End CarrierSections.

(** ** Life of the runtime *)

Definition serving (p : gpc) : Prop := match p with SvTop | SvSignals _ | SvPop _ | SvPark _ | SvAsleep _ _ | SvExec _ => True | _ => False end.

Record life_inv (main : Z) (w : World) : Prop := {
  lf_before : started (impl w) = false -> forall t, gs w t = Gone;
  lf_after : finished (impl w) = true -> commands (impl w) = [] /\ forall t, gs w t = Gone;
  lf_serving : forall t, serving (gs w t) -> t = main /\ ready (impl w) = true;
  lf_service : service (impl w) = if ready (impl w) then Some main else None;
  lf_order : finished (impl w) = true -> started (impl w) = true;
  lf_issued : issued w <> O -> ready (impl w) = true;
}.

(** A thread that exists moves; one that serves is the main one of a ready runtime. *)
Lemma life_moved main w t p : gs w t <> Gone -> (serving p -> t = main /\ ready (impl w) = true) -> life_inv main w -> life_inv main (with_gs w t p).
Proof.
  intros Hg Hp [H1 H2 H3 H4 H5 H6]. split; cbn; try done.
  - intros E. by specialize (H1 E t).
  - intros E. destruct (H2 E) as [_ Hall]. by specialize (Hall t).
  - intros t'. unfold upd. case_decide; [subst; apply Hp|apply H3].
Qed.

Lemma life_impl main w i : started i = started (impl w) -> finished i = finished (impl w) -> ready i = ready (impl w) -> service i = service (impl w) -> (finished i = true -> commands i = commands (impl w)) ->
  life_inv main w -> life_inv main (with_impl w i).
Proof. intros E1 E2 E3 E4 E5 [H1 H2 H3 H4 H5 H6]. split; cbn; rewrite ?E1, ?E3, ?E4; try done; [|by rewrite E2]. intros E. split; [rewrite E5 by done; apply H2; congruence|apply H2; congruence]. Qed.

Lemma life_returned main w t v : gs w t <> Gone -> life_inv main w -> life_inv main (returned w t v).
Proof. intros Hg Hl. assert (life_inv main (with_gs w t Running)) as [H1 H2 H3 H4 H5 H6] by (by apply life_moved). by split. Qed.

Lemma life_futex main w t : life_inv main w -> life_inv main (wake_futex w t).
Proof.
  intros Hl. unfold wake_futex. destruct (decide (gs w t = Gone)) as [E|E].
  - rewrite E. destruct Hl as [H1 H2 H3 H4 H5 H6]. split; cbn; try done.
    + intros Es t'. unfold upd. case_decide; [done|by apply H1].
    + intros Ef. split; [by apply H2|]. intros t'. unfold upd. case_decide; [done|by apply H2].
    + intros t'. unfold upd. case_decide; [done|apply H3].
  - apply life_moved; [done| |done]. intros Hs. apply (lf_serving _ _ Hl). by destruct (gs w t).
Qed.


Lemma life_inv_step main w w' : step main w w' -> life_inv main w -> life_inv main w'.
Proof.
  intros Hstep Hl. pose proof Hl as [H1 H2 H3 H4 H5 H6]. assert (forall t p, gs w t = p -> p <> Gone -> gs w t <> Gone) as Hg by congruence.
  destruct Hstep as [Hs ?|t Ht Hne Hst Hf ?|t Ht ?|t b ?|t ?|t l1 l2 ?|t l1 l2 ?|t|v Ht ?|t Ht|t g Ht|t g Ht ?|t g Ht|t c a e Ht|t Ht|t f Ht Hk Hf|t r d Ht|t r d g Ht Hk|t r d g Ht
    |h k Hh|h k s Hh ?|h c k t Hh ?|h c k t Hh ?|h c k a Hh ?|h Hh Hk|h r t Hk ?|h r t p Hk ? Hh|h r Hh|h r Hh Hk|h r t b Hh ?|h r Hh Hk|st ? ? Hall ?|c rest st ?];
    try (by split); try (by apply life_moved; eauto); try (by apply life_futex; split).
  - (* start *) split; cbn; try done. { intros E. by rewrite H5 in Hs. }
    { intros t. unfold upd. case_decide; [done|apply H3]. }
  - (* a new thread *) split; cbn; try done; [congruence|congruence|]. intros t'. unfold upd. case_decide; [done|apply H3].
  - unfold ready_section. destruct (ready (impl w)) eqn:Er; [apply life_moved; eauto|]. destruct v as [e|].
    + apply life_returned; [cbn; by rewrite Ht|]. by apply life_impl.
    + split; cbn; try done; [intros E; by specialize (H1 E main); congruence|intros E; destruct (H2 E) as [_ Ha]; by rewrite Ha in Ht|]. intros t. unfold upd. case_decide; [done|]. intros Hs. by destruct (H3 t Hs).
  - apply life_moved; [by rewrite Ht| |done]. intros _. apply H3. by rewrite Ht.
  - unfold serve_signals. destruct (deliverable w t); [apply life_returned; [by rewrite Ht|done]|]. apply life_moved; [by rewrite Ht| |done]. intros _. apply H3. by rewrite Ht.
  - assert (t = main /\ ready (impl w) = true) as Hr by (apply H3; by rewrite Ht). unfold serve_pop. destruct (commands (impl w)) as [|c rest] eqn:Ec; [by apply life_moved; [rewrite Ht|..]|].
    apply life_moved; [cbn; by rewrite Ht|done|]. apply life_impl; try done. cbn. intros E. destruct (H2 E) as [_ Ha]. by rewrite Ha in Ht.
  - assert (t = main /\ ready (impl w) = true) as Hr by (apply H3; by rewrite Ht). apply life_moved; [by rewrite Ht|done|done].
  - assert (t = main /\ ready (impl w) = true) as Hr by (apply H3; by rewrite Ht). unfold serve_done. destruct e; [apply life_returned; [cbn; by rewrite Ht|by split]|]. apply life_moved; [cbn; by rewrite Ht|done|by split].
  - unfold park_enter. destruct (carriers (impl w) !! t); (apply life_moved; [cbn; by rewrite Ht|done|]); [done|by apply life_impl].
  - unfold park_section. destruct (records (impl w) !! r) as [p|]; [|done]. destruct (state p); [destruct (deliverable w t)|..].
    + apply life_returned; [cbn; by rewrite Ht|]. apply life_impl; destruct (listed p); done.
    + apply life_moved; [cbn; by rewrite Ht|done|]. apply life_impl; destruct (listed p); done.
    + by apply life_moved; [rewrite Ht|..].
    + apply life_returned; [cbn; by rewrite Ht|]. by apply life_impl.
  - apply life_moved; [by rewrite Ht| |done]. by destruct (sleeps w t g).
  - unfold submit_section. destruct (negb _ || _ || _) eqn:E; [by split|]. apply orb_false_iff in E as [[Er%negb_false_iff E]%orb_false_iff _]. split; cbn; try done. congruence.
  - by destruct (life_futex main w t Hl).
  - unfold take_carrier. destruct (available (impl w)) as [|r rest]; [by split|]. destruct (records (impl w) !! r); [by split|done].
  - by destruct (life_futex main (with_impl w (with_locked (impl w) None)) t ltac:(by apply life_impl)).
  - unfold release_carrier. destruct (records (impl w) !! r); [by split|done].
  - unfold release_carrier. destruct (records (impl w) !! r); [by split|done].
Qed.

Lemma park_upd (g : Z -> gpc) t p x : in_park (upd g t p x) = upd (fun t => in_park (g t)) t (in_park p) x.
Proof. unfold upd. by case_decide. Qed.

(** The section of [park_carrier]. *)
Lemma carriers_section w t r d g : gs w t = PkLock r d g -> locked (impl w) = None -> carriers_inv w -> carriers_inv (park_section w t r d g).
Proof.
  intros Ht Hk Hi. assert (in_park (gs w t) = Some r) as Hp by (by rewrite Ht). pose proof (co_parked _ _ _ _ _ _ Hi t r Hp) as Hslot. destruct (co_slot _ _ _ _ _ _ Hi t r Hslot) as (p & Ep & Etp).
  unfold carriers_inv in *. rewrite Hk in Hi. unfold park_section. rewrite Ep. destruct (state p) eqn:Es; [destruct (deliverable w t)|..].
  - eapply carriers_park; [intros x; apply park_upd|]. destruct (listed p) eqn:El; cbn; rewrite Hk.
    + eapply (leaves _ _ _ _ _ t r); [done|by left| |rewrite <- Es; by apply unlisted]. intros q. rewrite lookup_insert_eq. intros [= <-]. unfold claimed. cbn. intuition congruence.
    + eapply (leaves _ _ _ _ _ t r); [done|by left| |done]. intros q Eq. assert (q = p) as -> by congruence. unfold claimed. intuition congruence.
  - eapply carriers_park; [intros x; apply (upd_view in_park); cbn; by rewrite Ht|]. destruct (listed p) eqn:El; cbn; rewrite Hk; [done|]. rewrite <- Es. apply relisted; [done..| |done]. by rewrite Etp.
  - apply carriers_moved; [by rewrite Ht|]. unfold carriers_inv. by rewrite Hk.
  - eapply carriers_park; [intros x; apply park_upd|]. cbn. rewrite Hk. eapply (leaves _ _ _ _ _ t r); [done|by right| |done]. intros q Eq. assert (q = p) as -> by congruence. unfold claimed. rewrite Etp, lookup_delete_eq.
    assert (listed p = true -> False) by (intros El; rewrite (co_available _ _ _ _ _ _ Hi r p Ep El) in Es; done). intuition congruence.
Qed.

Lemma carriers_inv_step main w w' : step main w w' -> life_inv main w -> carriers_inv w -> carriers_inv w'.
Proof.
  intros Hstep [Hbefore _ _ _ _ _] Hi. assert (forall t p, gs w t = p -> in_park (gs w t) = in_park p) as Hg by congruence. unfold carriers_inv in Hi |- *.
  destruct Hstep as [Hs ?|t Ht Hne Hst Hf ?|t Ht ?|t b ?|t ?|t l1 l2 ?|t l1 l2 ?|t|v Ht ?|t Ht|t g Ht|t g Ht ?|t g Ht|t c a e Ht|t Ht|t f Ht Hk Hf|t r d Ht|t r d g Ht Hk|t r d g Ht
    |h k Hh|h k s Hh ?|h c k t Hh ?|h c k t Hh ?|h c k a Hh ?|h Hh Hk|h r t Hk ?|h r t p Hk ? Hh|h r Hh|h r Hh Hk|h r t b Hh ?|h r Hh Hk|st ? ? Hall ?|c rest st ?];
    try done; try (by apply carriers_moved; [rewrite Ht|]); try (by apply carriers_client; rewrite ?Hh); try (by apply carriers_moved; [apply in_park_awake|]).
  - apply carriers_moved; [|exact Hi]. cbn. by rewrite Hbefore.
  - unfold ready_section. destruct (ready (impl w)); [by apply carriers_moved; [rewrite Ht|]|]. destruct v; [apply carriers_returned|apply carriers_moved]; cbn; rewrite ?Ht; done.
  - unfold serve_signals. destruct (deliverable w t); [apply carriers_returned|apply carriers_moved]; by rewrite ?Ht.
  - unfold serve_pop. destruct (commands (impl w)); (apply carriers_moved; [cbn; by rewrite Ht|done]).
  - apply carriers_moved; [rewrite Ht; by destruct (sleeps w t g)|done].
  - unfold serve_done. destruct e; [apply carriers_returned|apply carriers_moved]; cbn; rewrite ?Ht; done.
  - unfold park_enter. destruct (carriers (impl w) !! t) as [r|] eqn:Ek; (eapply carriers_park; [intros x; apply park_upd|]); [apply enters_again|apply enters_fresh]; cbn; rewrite ?Ht; done.
  - by apply carriers_section.
  - apply carriers_moved; [rewrite Ht; by destruct (sleeps w t g)|done].
  - unfold submit_section. destruct (negb _ || _ || _); (apply carriers_client; [cbn; by rewrite Hh..|done]).
  - apply (carriers_client (wake_add w t)); [cbn; by rewrite Hh..|exact Hi].
  - apply (carriers_client (wake_futex w t)); [cbn; by rewrite Hh..|]. by apply carriers_moved; [apply in_park_awake|].
  - apply carriers_client; [rewrite Hh; by destruct k, (ok a)..|done].
  - unfold take_carrier. destruct (available (impl w)) as [|r rest] eqn:Ea; [apply carriers_client; [by rewrite Hh..|unfold carriers_inv; by rewrite Ea]|]. destruct (records (impl w) !! r) as [p|] eqn:Ep; [|by rewrite Ea]. cbn. rewrite Hk in Hi. by apply (leased_to _ _ (r :: rest)).
  - cbn. rewrite Hk in Hi. by eapply lock_stage.
  - cbn. rewrite Hk in Hi. eapply carriers_park; [intros x; apply (upd_view in_park); apply in_park_awake|]. eapply unlocked; [by rewrite Hh|exact Hi].
  - unfold release_carrier. destruct (records (impl w) !! r) as [p|] eqn:Ep; [|done]. cbn. rewrite Hk in Hi. apply released_by; [by rewrite Hh|done|done].
  - apply (carriers_client (with_deliverable w t b)); [cbn; by rewrite Hh..|exact Hi].
  - unfold release_carrier. destruct (records (impl w) !! r) as [p|] eqn:Ep; [|done]. cbn. rewrite Hk in Hi. apply released_by; [by rewrite Hh|done|done].
Qed.

(** ** Wake-ups *)

(** The count at the last read of the token; when and how long the thread sleeps; the record
    whose state it has seen; that it has looked for signals; that it found no command. *)
Definition token (p : gpc) : option Z :=
  match p with SvSignals g | SvPop g | SvPark g | SvAsleep g _ | PkLock _ _ g | PkPark _ _ g | PkAsleep _ _ g _ => Some g | _ => None end.
Definition slept (p : gpc) : option (Z * Z) := match p with SvAsleep g n | PkAsleep _ _ g n => Some (g, n) | _ => None end.
Definition settled (p : gpc) : option (Z * Z) := match p with PkPark r _ g | PkAsleep r _ g _ => Some (r, g) | _ => None end.
Definition quiet (p : gpc) : option Z := match p with SvPop g | SvPark g | SvAsleep g _ => Some g | _ => None end.
Definition idle (p : gpc) : option Z := match p with SvPark g | SvAsleep g _ => Some g | _ => None end.

(** Some thread is about to call the futex of [t]; to add to its word. *)
Definition futex_coming (w : World) (t : Z) : Prop :=
  (t, ToFutex) ∈ flying w \/ (exists h r, locked (impl w) = Some (h, r, ToFutex) /\ locked_target (impl w) r = Some t) \/
  (exists h c k, cs w h = CFutex c k /\ service (impl w) = Some t).
Definition submitting (w : World) : Prop := exists h c k, cs w h = CAdd c k.
Definition unlocking (w : World) (r : Z) : Prop := exists h, locked (impl w) = Some (h, r, ToAdd).

(** What holds of a thread [t] at [p]: nothing it waits for happened since it read its
    token, or its word has moved or is about to. *)
Record pc_ok (w : World) (t : Z) (p : gpc) : Prop := {
  po_token : forall g, token p = Some g -> g <= wakes w t;
  po_slept : forall g n, slept p = Some (g, n) -> g <= n <= wakes w t /\ u32 g = u32 n /\ (n < wakes w t -> futex_coming w t);
  po_released : forall r g q, settled p = Some (r, g) -> records (impl w) !! r = Some q -> state q = Released -> g < wakes w t \/ unlocking w r;
  po_signal : forall r g q, settled p = Some (r, g) -> records (impl w) !! r = Some q -> state q = Available -> deliverable w t = true -> g < wakes w t \/ (t, ToAdd) ∈ flying w;
  po_quiet : forall g, quiet p = Some g -> deliverable w t = true -> g < wakes w t \/ (t, ToAdd) ∈ flying w;
  po_idle : forall g, idle p = Some g -> commands (impl w) <> [] -> g < wakes w t \/ submitting w;
  po_gone : p = Gone -> forall st, (t, st) ∉ flying w;
}.

Definition wakes_inv (w : World) : Prop := forall t, pc_ok w t (gs w t).

(** A pc without a token waits for nothing. *)
Lemma pc_free w t p : token p = None -> p <> Gone -> pc_ok w t p.
Proof. intros Ht Hg. split; try done; by destruct p. Qed.

Lemma wakes_moved w w' t p :
  impl w' = impl w -> flying w' = flying w -> wakes w' = wakes w -> deliverable w' = deliverable w -> cs w' = cs w -> gs w' = upd (gs w) t p ->
  pc_ok w t p -> wakes_inv w -> wakes_inv w'.
Proof.
  intros E1 E2 E3 E4 E5 E6 Hp Hw t'. assert (forall q, pc_ok w t' q -> pc_ok w' t' q) as Hq.
  { intros q [H1 H2 H3 H4 H5 H6 H7]. split; unfold futex_coming, submitting, unlocking in *; rewrite ?E1, ?E2, ?E3, ?E4, ?E5; done. }
  apply Hq. rewrite E6. unfold upd. case_decide; [by subst|apply Hw].
Qed.

(** The part of the world a thread looks at did not change for it. *)
Lemma pc_same w w' t p :
  wakes w' t = wakes w t -> deliverable w' t = deliverable w t -> (forall st, (t, st) ∈ flying w' <-> (t, st) ∈ flying w) ->
  (forall r g q', settled p = Some (r, g) -> records (impl w') !! r = Some q' -> exists q, records (impl w) !! r = Some q /\ state q = state q') ->
  (forall r g, settled p = Some (r, g) -> unlocking w r -> unlocking w' r) ->
  (idle p <> None -> commands (impl w') <> [] -> commands (impl w) <> [] /\ (submitting w -> submitting w') \/ submitting w') ->
  (slept p <> None -> futex_coming w t -> futex_coming w' t) -> pc_ok w t p -> pc_ok w' t p.
Proof.
  intros Ew Ed Ef Er El Ec Ex [H1 H2 H3 H4 H5 H6 H7]. split; rewrite ?Ew, ?Ed.
  - done.
  - intros g n Hs. destruct (H2 g n Hs) as (? & ? & Hx). split; [done|]. split; [done|]. intros Hn. apply Ex; [by rewrite Hs|auto].
  - intros r g q Hs Hq Hst. destruct (Er r g q Hs Hq) as (q0 & Hq0 & E0). destruct (H3 r g q0 Hs Hq0) as [?|?]; [congruence|by left|right; by eapply El].
  - intros r g q Hs Hq Hst Hd. destruct (Er r g q Hs Hq) as (q0 & Hq0 & E0). rewrite Ef. eapply H4; [done|exact Hq0|congruence|done].
  - intros g Hq Hd. rewrite Ef. by apply H5.
  - intros g Hi Hc. destruct (Ec ltac:(by rewrite Hi) Hc) as [[Hc' Hs]|Hs]; [|by right]. destruct (H6 g Hi Hc'); [by left|right; auto].
  - intros Hp st. rewrite Ef. by apply H7.
Qed.

(** The word of the thread just moved, and its futex call is coming. *)
Lemma pc_woken w w' t p :
  wakes w' t = wakes w t + 1 -> futex_coming w' t -> (p = Gone -> forall st, (t, st) ∉ flying w') -> pc_ok w t p -> pc_ok w' t p.
Proof.
  intros Ew Hf Hg [H1 H2 H3 H4 H5 H6 H7]. assert (forall g, token p = Some g -> g < wakes w' t) as Ht by (intros g Hg'; apply H1 in Hg'; lia).
  split; try done.
  - intros g Hg'. apply Ht in Hg'. lia.
  - intros g n Hs. destruct (H2 g n Hs) as (? & ? & _). split; [lia|done].
  - intros r g q Hs _ _. left. apply Ht. by destruct p; try done; injection Hs as <- <-.
  - intros r g q Hs _ _ _. left. apply Ht. by destruct p; try done; injection Hs as <- <-.
  - intros g Hs _. left. apply Ht. by destruct p.
  - intros g Hs _. left. apply Ht. by destruct p.
Qed.

(** The futex call: a sleeper restarts, and nobody else needed that call. *)
Lemma wakes_futex w w' t :
  wakes w' = wakes w -> deliverable w' = deliverable w -> (forall x, (x, ToAdd) ∈ flying w' <-> (x, ToAdd) ∈ flying w) -> (forall x, x <> t -> (x, ToFutex) ∈ flying w' <-> (x, ToFutex) ∈ flying w) ->
  (forall x st, (x, st) ∈ flying w' -> (x, st) ∈ flying w) -> records (impl w') = records (impl w) -> commands (impl w') = commands (impl w) ->
  (forall r, unlocking w r -> unlocking w' r) -> (submitting w -> submitting w') -> (forall x, x <> t -> futex_coming w x -> futex_coming w' x) ->
  gs w' = upd (gs w) t (awake (gs w t)) -> wakes_inv w -> wakes_inv w'.
Proof.
  intros Ew Ed Ea Ef Esub Er Ec Eu Es Ex Eg Hw x. rewrite Eg. unfold upd. case_decide as E.
  - subst x. assert (slept (awake (gs w t)) = None /\ (awake (gs w t) = gs w t \/ token (awake (gs w t)) = None /\ awake (gs w t) <> Gone)) as [Hsl [Eaw|[Ht Hg]]] by (destruct (gs w t); cbn; auto); [|by apply pc_free].
    rewrite Eaw in *.
    destruct (Hw t) as [H1 H2 H3 H4 H5 H6 H7]. split; rewrite ?Ew, ?Ed, ?Er, ?Ec; try done.
    + intros g n. by rewrite Hsl.
    + intros r g q Hs Hq Hr. destruct (H3 r g q Hs Hq Hr); [by left|right; by apply Eu].
    + intros r g q. rewrite Ea. apply H4.
    + intros g. rewrite Ea. apply H5.
    + intros g Hi Hc. destruct (H6 g Hi Hc); [by left|right; auto].
    + intros Hg st Hin. by apply (H7 Hg st), Esub.
  - apply (pc_same w); rewrite ?Ew, ?Ed, ?Er, ?Ec; try done; eauto. intros st. destruct st; [apply Ea|by apply Ef].
Qed.

Section WakeSteps.
Context (main : Z) (w : World) (Hl : life_inv main w) (Hc : carriers_inv w) (Hw : wakes_inv w).

Lemma idle_main t : idle (gs w t) <> None -> t = main /\ ready (impl w) = true.
Proof. intros Hi. apply (lf_serving _ _ Hl). by destruct (gs w t). Qed.

Lemma settled_record t r g : settled (gs w t) = Some (r, g) -> exists q, records (impl w) !! r = Some q /\ thread q = t.
Proof. intros Hs. apply (co_slot _ _ _ _ _ _ Hc), (co_parked _ _ _ _ _ _ Hc). by destruct (gs w t); try done; injection Hs as <- <-. Qed.

(** Moves of one thread that change nothing others see. *)
Lemma moved t p : pc_ok w t p -> wakes_inv (with_gs w t p).
Proof. intros Hp. by apply (wakes_moved w _ t p). Qed.

Lemma moved_free t p : token p = None -> p <> Gone -> wakes_inv (with_gs w t p).
Proof. intros. by apply moved, pc_free. Qed.

Lemma returned_free t v : wakes_inv (returned w t v).
Proof. by apply (wakes_moved w _ t Running). Qed.

Lemma settled_token p r g : settled p = Some (r, g) -> token p = Some g.
Proof. by destruct p; try done; intros [= <- <-]. Qed.

Lemma wakes_new t : gs w t = Gone -> wakes_inv (with_deliverable (with_wakes (with_gs w t Running) (upd (wakes w) t 0)) t false).
Proof.
  intros Ht x. destruct (decide (x = t)) as [->|E]; [cbn [gs with_deliverable with_wakes with_gs]; rewrite upd_eq; by apply pc_free|].
  cbn [gs with_deliverable with_wakes with_gs]. rewrite upd_ne by done. apply (pc_same w); cbn; rewrite ?upd_ne by done; try done; eauto.
Qed.

Lemma wakes_mask t b : token (gs w t) = None -> gs w t <> Gone -> wakes_inv (with_deliverable w t b).
Proof.
  intros Ht Hg x. destruct (decide (x = t)) as [->|E]; [by apply pc_free|]. apply (pc_same w); cbn; rewrite ?upd_ne by done; try done; eauto.
Qed.

Lemma wakes_signal t : gs w t <> Gone -> wakes_inv (with_flying (with_deliverable w t true) ((t, ToAdd) :: flying w)).
Proof.
  intros Hg x. destruct (decide (x = t)) as [->|E].
  - destruct (Hw t) as [H1 H2 H3 H4 H5 H6 H7]. split; cbn; try done.
    + intros g n Hs. destruct (H2 g n Hs) as (? & ? & Hx). split; [done|]. split; [done|]. intros Hn. destruct (Hx Hn) as [?|[?|?]]; [left; by right|right; by left|right; by right].
    + intros. right. by left.
    + intros. right. by left.
  - apply (pc_same w); cbn; rewrite ?upd_ne by done; try done; eauto.
    + intros st. rewrite elem_of_cons. split; [intros [[= -> _]|?]; done|by right].
    + intros _ [?|[?|?]]; [left; by right|right; by left|right; by right].
Qed.

Lemma wakes_signal_add t l1 l2 : flying w = l1 ++ (t, ToAdd) :: l2 -> wakes_inv (wake_add (with_flying w (l1 ++ (t, ToFutex) :: l2)) t).
Proof.
  intros Ef x. destruct (decide (x = t)) as [->|E].
  - apply (pc_woken w); [cbn; by rewrite upd_eq|left; cbn; apply elem_of_app; right; by left| |apply Hw]. intros Hg. exfalso. apply (po_gone _ _ _ (Hw t) Hg ToAdd). rewrite Ef. apply elem_of_app. right. by left.
  - assert (forall st, (x, st) ∈ l1 ++ (t, ToFutex) :: l2 <-> (x, st) ∈ flying w) as Hfl by (intros st; rewrite Ef, !elem_of_app, !elem_of_cons; naive_solver).
    apply (pc_same w); cbn; rewrite ?upd_ne by done; try done; eauto. intros _ [?|[?|?]]; [left; by apply Hfl|right; by left|right; by right].
Qed.

Lemma wakes_signal_futex t l1 l2 : flying w = l1 ++ (t, ToFutex) :: l2 -> wakes_inv (wake_futex (with_flying w (l1 ++ l2)) t).
Proof.
  intros Ef. assert (forall x st, x <> t \/ st = ToAdd -> (x, st) ∈ l1 ++ l2 <-> (x, st) ∈ flying w) as Hfl.
  { intros x st Hx. rewrite Ef, !elem_of_app, elem_of_cons. split; [tauto|]. intros [?|[[= -> ->]|?]]; [tauto| |tauto]. by destruct Hx. }
  apply (wakes_futex w _ t); try done.
  - intros x. apply Hfl. by right.
  - intros x Hx. apply Hfl. by left.
  - cbn. intros x st. rewrite Ef, !elem_of_app, elem_of_cons. tauto.
  - intros x Hx [?|[?|?]]; [left; apply Hfl; [by left|done]|right; by left|right; by right].
Qed.

(** Steps of a host thread that is not inside [wake]: the futex calls in flight stay. *)
Lemma client_moved h p : (forall c k, cs w h <> CAdd c k) -> (forall c k, cs w h <> CFutex c k) ->
  (forall x, futex_coming w x -> futex_coming (with_cs w h p) x) /\ (submitting w -> submitting (with_cs w h p)).
Proof.
  intros Ha Hf. split.
  - intros x [?|[?|(h' & c & k & Hh & ?)]]; [by left|right; by left|]. right. right. exists h', c, k. split; [|done]. cbn. rewrite upd_ne; [done|]. intros ->. by apply Hf in Hh.
  - intros (h' & c & k & Hh). exists h', c, k. cbn. rewrite upd_ne; [done|]. intros ->. by apply Ha in Hh.
Qed.

Lemma wakes_client h p : (forall c k, cs w h <> CAdd c k) -> (forall c k, cs w h <> CFutex c k) -> wakes_inv (with_cs w h p).
Proof. intros Ha Hf x. destruct (client_moved h p Ha Hf) as [Hx Hs]. apply (pc_same w); try done; [eauto|intros _ ?; left; split; auto|auto]. Qed.

Lemma wakes_submit h k s : cs w h = CSubmit k -> wakes_inv (submit_section w h k s).
Proof.
  intros Hh. unfold submit_section. destruct (_ || _); [apply wakes_client; rewrite Hh; done|]. intros x. destruct (client_moved h (CAdd (issued w) k)) as [Hx Hs]; [rewrite Hh; done..|].
  apply (pc_same w); cbn; try done; [eauto| |intros _; apply Hx]. intros _ _. right. exists h, (issued w), k. cbn. by rewrite upd_eq.
Qed.

Lemma wakes_submit_add h c k t : cs w h = CAdd c k -> service (impl w) = Some t -> wakes_inv (with_cs (wake_add w t) h (CFutex c k)).
Proof.
  intros Hh Hs x. assert (t = main) as -> by (pose proof (lf_service _ _ Hl); destruct (ready (impl w)); congruence). destruct (decide (x = main)) as [->|E].
  - apply (pc_woken w); [cbn; by rewrite upd_eq|right; right; exists h, c, k; cbn; by rewrite upd_eq|apply (Hw main)|apply Hw].
  - assert (idle (gs w x) = None) as Hi by (destruct (idle (gs w x)) eqn:Ei; [|done]; destruct (idle_main x); [by rewrite Ei|done]).
    apply (pc_same w); cbn; rewrite ?upd_ne by done; try done; [eauto|]. intros _ [?|[?|(h' & c' & k' & Hh' & Hs')]]; [by left|right; by left|]. cbn in Hs'. congruence.
Qed.

Lemma wakes_submit_futex h c k t : cs w h = CFutex c k -> service (impl w) = Some t -> wakes_inv (with_cs (wake_futex w t) h (CWait c k)).
Proof.
  intros Hh Hs. apply (wakes_futex w _ t); try done.
  - intros (h' & c' & k' & Hh'). exists h', c', k'. cbn. rewrite upd_ne; [done|]. intros ->. congruence.
  - intros x Hx [?|[?|(h' & c' & k' & Hh' & Hs')]]; [by left|right; by left|]. congruence.
Qed.

(** A record whose state changes; the mutex is taken for a wake-up. *)
Lemma wakes_record r q q' i h p : records (impl w) !! r = Some q -> thread q' = thread q -> (state q' = Leased \/ state q' = Released) -> records i = <[r := q']> (records (impl w)) -> commands i = commands (impl w) ->
  locked (impl w) = None -> locked i = Some (h, r, ToAdd) -> service i = service (impl w) -> (forall c k, cs w h <> CAdd c k) -> (forall c k, cs w h <> CFutex c k) -> wakes_inv (with_cs (with_impl w i) h p).
Proof.
  intros Hq Ht Hst Er Ec Hk Ek Es Ha Hf x. destruct (client_moved h p Ha Hf) as [Hx Hs]. pose proof (Hw x) as [H1 H2 H3 H4 H5 H6 H7]. split; cbn; rewrite ?Er, ?Ec; try done.
  - intros g n Hsl. destruct (H2 g n Hsl) as (? & ? & Hn). split; [done|]. split; [done|]. intros Hlt. destruct (Hx x (Hn Hlt)) as [?|[(h' & r' & Hk' & _)|(h' & c & k & Hh & Hsv)]]; [by left|cbn in Hk'; congruence|].
    right. right. exists h', c, k. split; [done|]. cbn in *. congruence.
  - intros r' g q0 Hs0 [[<- <-]|[Hne Hq0]]%lookup_insert_Some Hr; [right; exists h; cbn; by rewrite Ek|]. destruct (H3 r' g q0 Hs0 Hq0 Hr) as [?|[h' Hk']]; [by left|congruence].
  - intros r' g q0 Hs0 [[<- <-]|[Hne Hq0]]%lookup_insert_Some Hr Hd; [destruct Hst; congruence|]. by eapply H4.
  - intros g Hi Hcm. destruct (H6 g Hi Hcm); [by left|right; apply Hs; done].
Qed.

Lemma wakes_lock_add h r t : locked (impl w) = Some (h, r, ToAdd) -> locked_target (impl w) r = Some t -> wakes_inv (wake_add (with_impl w (with_locked (impl w) (Some (h, r, ToFutex)))) t).
Proof.
  intros Hk Ht x. destruct (decide (x = t)) as [->|E].
  - apply (pc_woken w); [cbn; by rewrite upd_eq|right; left; by exists h, r|apply (Hw t)|apply Hw].
  - apply (pc_same w); cbn; rewrite ?upd_ne by done; try done; [eauto| |intros _ ?; left; split; auto|].
    + intros r' g Hs (h' & Hk'). rewrite Hk in Hk'. injection Hk' as <- <-. destruct (settled_record x r g Hs) as (q & Hq & Hx). unfold locked_target in Ht. rewrite Hq in Ht. cbn in Ht. congruence.
    + intros _ [?|[(h' & r' & Hk' & _)|?]]; [by left|congruence|right; by right].
Qed.

Lemma wakes_lock_futex h r t p : locked (impl w) = Some (h, r, ToFutex) -> locked_target (impl w) r = Some t -> cs w h = CHold p -> wakes_inv (with_cs (wake_futex (with_impl w (with_locked (impl w) None)) t) h p).
Proof.
  intros Hk Ht Hh. apply (wakes_futex w _ t); try done.
  - intros r' (h' & Hk'). congruence.
  - intros (h' & c' & k' & Hh'). exists h', c', k'. cbn. rewrite upd_ne; [done|]. intros ->. congruence.
  - intros x Hx [?|[(h' & r' & Hk' & Ht')|(h' & c' & k' & Hh' & Hs')]]; [by left| |]. { rewrite Hk in Hk'. injection Hk' as <- <-. congruence. }
    right. right. exists h', c', k'. split; [|done]. cbn. rewrite upd_ne; [done|]. intros ->. congruence.
Qed.

Lemma wakes_drop h r t b : cs w h = CLease r -> locked_target (impl w) r = Some t -> wakes_inv (with_cs (with_deliverable w t b) h (CDrop r)).
Proof.
  intros Hh Ht x. destruct (client_moved h (CDrop r)) as [Hx Hs]; [rewrite Hh; done..|]. destruct (decide (x = t)) as [->|E].
  2: { apply (pc_same w); cbn; rewrite ?upd_ne by done; try done; [eauto|intros _ ?; left; split; auto|intros _; apply Hx]. }
  unfold locked_target in Ht. destruct (records (impl w) !! r) as [q|] eqn:Eq; [|done]. injection Ht as Ht. destruct (co_holds _ _ _ _ _ _ Hc h r) as (q' & Eq' & Hl'); [by rewrite Hh|]. assert (q' = q) as -> by congruence.
  assert (in_park (gs w t) = Some r) as Hp by (rewrite <- Ht; apply (co_claimed _ _ _ _ _ _ Hc r q Eq); right; by left). destruct (Hw t) as [H1 H2 H3 H4 H5 H6 H7]. split; cbn; try done.
  - intros g n Hsl. destruct (H2 g n Hsl) as (? & ? & Hn). split; [done|]. split; [done|]. intros Hlt. by apply Hx, Hn.
  - intros r' g q0 Hs0 Hq0 Hr. assert (r' = r) as -> by (destruct (gs w t); try done; injection Hs0 as <- <-; by injection Hp). congruence.
  - intros g Hq. by destruct (gs w t).
  - intros g Hi Hcm. destruct (H6 g Hi Hcm); [by left|right; by apply Hs].
Qed.

(** A thread moves while the records keep their states. *)
Lemma wakes_section w' t p :
  wakes w' = wakes w -> deliverable w' = deliverable w -> flying w' = flying w -> cs w' = cs w -> gs w' = upd (gs w) t p -> locked (impl w') = locked (impl w) -> (forall x, service (impl w) = Some x -> service (impl w') = Some x) ->
  (commands (impl w') <> [] -> commands (impl w) <> []) ->
  (forall x r g q', settled (gs w x) = Some (r, g) -> records (impl w') !! r = Some q' -> exists q, records (impl w) !! r = Some q /\ state q = state q') ->
  (forall r q, records (impl w) !! r = Some q -> exists q', records (impl w') !! r = Some q' /\ thread q' = thread q) -> pc_ok w' t p -> wakes_inv w'.
Proof.
  intros E1 E2 E3 E4 E5 E6 E7 Ecm Er Et Hp x. rewrite E5. unfold upd. case_decide; [by subst|].
  apply (pc_same w); rewrite ?E1, ?E2, ?E3; try done.
  - intros r g q'. apply Er.
  - intros r g _. unfold unlocking. by rewrite E6.
  - intros _ Hcm. left. split; [auto|]. unfold submitting. by rewrite E4.
  - intros _. unfold futex_coming. rewrite E3, E4, E6. intros [?|[(h & r & Hk & Ht)|(h & c & k & Hh & Hs)]]; [by left| |right; right; exists h, c, k; split; [done|auto]]. right. left. exists h, r. split; [done|].
    unfold locked_target in *. destruct (records (impl w) !! r) as [q|] eqn:Eq; [|done]. destruct (Et r q Eq) as (q' & -> & E). cbn in *. congruence.
Qed.

Lemma wakes_enter t f : gs w t = PkEnter -> records (impl w) !! f = None -> wakes_inv (park_enter w t f).
Proof.
  intros Ht Hf. unfold park_enter. destruct (carriers (impl w) !! t); [by apply moved_free|]. eapply wakes_section; try done; cbn.
  - intros x r g q' Hs. destruct (settled_record x r g Hs) as (q & Hq & _). rewrite lookup_insert_ne by congruence. eauto.
  - intros r q Hq. exists q. rewrite lookup_insert_ne by congruence. done.
Qed.

(** A record that changes only its place in the list. *)
Lemma wakes_relist w' t p r q b : records (impl w) !! r = Some q -> records (impl w') = <[r := {| thread := thread q; state := state q; listed := b |}]> (records (impl w)) -> commands (impl w') = commands (impl w) ->
  locked (impl w') = locked (impl w) -> service (impl w') = service (impl w) -> pc_ok w t p -> wakes w' = wakes w -> deliverable w' = deliverable w -> flying w' = flying w -> cs w' = cs w -> gs w' = upd (gs w) t p -> wakes_inv w'.
Proof.
  intros Hq Er Ec Ek Es Hp E1 E2 E3 E4 E5. assert (forall r' q', records (impl w') !! r' = Some q' -> exists q0, records (impl w) !! r' = Some q0 /\ state q0 = state q') as Hst.
  { intros r' q'. rewrite Er. intros [[<- <-]|[_ Hq']]%lookup_insert_Some; eauto. }
  assert (forall r' q0, records (impl w) !! r' = Some q0 -> exists q', records (impl w') !! r' = Some q' /\ thread q' = thread q0) as Hth.
  { intros r' q0 Hq0. rewrite Er. destruct (decide (r' = r)) as [->|Hne]; [rewrite lookup_insert_eq; eexists; split; [done|cbn; congruence]|rewrite lookup_insert_ne by congruence; eauto]. }
  eapply (wakes_section w' t p); [done|done|done|done|done|done|by rewrite Es|by rewrite Ec|intros x r' g q' _; apply Hst|exact Hth|]. apply (pc_same w); rewrite ?E1, ?E2, ?E3; try done; [eauto| | |].
  - intros r' g _. unfold unlocking. by rewrite Ek.
  - intros _ Hcm. left. rewrite <- Ec. split; [done|]. unfold submitting. by rewrite E4.
  - intros _. unfold futex_coming. rewrite E3, E4, Ek, Es. intros [?|[(h & r' & Hk & Ht)|?]]; [by left| |right; by right]. right. left. exists h, r'. split; [done|].
    unfold locked_target in *. destruct (records (impl w) !! r') as [q0|] eqn:Eq; [|done]. destruct (Hth r' q0 Eq) as (q' & -> & E). cbn in *. congruence.
Qed.

Lemma wakes_park_section t r d g : gs w t = PkLock r d g -> wakes_inv (park_section w t r d g).
Proof.
  intros Ht. assert (g <= wakes w t) as Hg by (apply (po_token _ _ _ (Hw t)); by rewrite Ht). unfold park_section. destruct (records (impl w) !! r) as [q|] eqn:Eq; [|done].
  assert (forall d', (state q = Leased \/ state q = Available /\ deliverable w t = false) -> pc_ok w t (PkPark r d' g)) as Hpp.
  { intros d' Hs. split; try done; cbn; [congruence|..]; intros ? ? ? [= <- <-] Hq0; assert (q = _) as <- by (by rewrite Hq0 in Eq; injection Eq); intuition congruence. }
  destruct (state q) eqn:Es; [destruct (deliverable w t) eqn:Ed; destruct (listed q) eqn:El|..].
  - apply (wakes_relist _ t Running r q false); try done. cbn. by rewrite Es.
  - by apply (wakes_moved w _ t Running).
  - apply (wakes_moved w _ t (PkPark r d g)); try done. apply Hpp. auto.
  - apply (wakes_relist _ t (PkPark r d g) r q true); try done; [cbn; by rewrite Es|apply Hpp; auto].
  - apply moved. apply Hpp. auto.
  - eapply wakes_section; try done; eauto.
Qed.

Lemma wakes_pop t g : gs w t = SvPop g -> wakes_inv (serve_pop w t g).
Proof.
  intros Ht. unfold serve_pop. destruct (commands (impl w)) as [|c rest] eqn:Ec.
  - apply moved. destruct (Hw t) as [H1 H2 H3 H4 H5 H6 H7]. rewrite Ht in *. split; try done.
  - eapply wakes_section; try done; [by rewrite Ec|eauto|eauto].
Qed.

Lemma wakes_serve_park t g : gs w t = SvPark g -> wakes_inv (serve_park w t g).
Proof.
  intros Ht. unfold serve_park. destruct (sleeps w t g) eqn:Es; [|by apply moved_free]. apply Z.eqb_eq in Es. apply moved. destruct (Hw t) as [H1 H2 H3 H4 H5 H6 H7]. rewrite Ht in *. specialize (H1 g eq_refl).
  split; try done; [intros g' [= <-]; lia|]. intros g' n [= <- <-]. split; [lia|]. split; [done|lia].
Qed.

Lemma wakes_park_park t r d g : gs w t = PkPark r d g -> wakes_inv (park_park w t r d g).
Proof.
  intros Ht. unfold park_park. destruct (sleeps w t g) eqn:Es; [|by apply moved_free]. apply Z.eqb_eq in Es. apply moved. destruct (Hw t) as [H1 H2 H3 H4 H5 H6 H7]. rewrite Ht in *. specialize (H1 g eq_refl).
  split; try done; [intros g' [= <-]; lia|]. intros g' n [= <- <-]. split; [lia|]. split; [done|lia].
Qed.
End WakeSteps.

Lemma wakes_inv_step main w w' : step main w w' -> life_inv main w -> carriers_inv w -> wakes_inv w -> wakes_inv w'.
Proof.
  intros Hstep Hl Hc Hw. destruct Hstep as [Hs ?|t Ht Hne Hst Hf ?|t Ht ?|t b ?|t ?|t l1 l2 ?|t l1 l2 ?|t|v Ht ?|t Ht|t g Ht|t g Ht ?|t g Ht|t c a e Ht|t Ht|t f Ht Hk Hf|t r d Ht|t r d g Ht Hk|t r d g Ht
    |h k Hh|h k s Hh ?|h c k t Hh ?|h c k t Hh ?|h c k a Hh ?|h Hh Hk|h r t Hk ?|h r t p Hk ? Hh|h r Hh|h r Hh Hk|h r t b Hh ?|h r Hh Hk|st ? ? Hall ?|c rest st ?].
  - apply (wakes_section w Hw _ main Running); try done; eauto.
  - by apply wakes_new.
  - apply moved; [done|]. split; try done.
  - destruct H as [E|[c E]]; apply wakes_mask; rewrite ?E; done.
  - by apply wakes_signal.
  - by apply wakes_signal_add.
  - by apply wakes_signal_futex.
  - by apply (wakes_futex w _ t).
  - unfold ready_section. destruct (ready (impl w)); [by apply moved_free|]. destruct v.
    + apply (wakes_section w Hw _ main Running); try done; eauto.
    + apply (wakes_section w Hw _ main SvTop); try done; eauto. intros x Hx. pose proof (lf_service _ _ Hl) as E. destruct (ready (impl w)); cbn; congruence.
  - apply moved; [done|]. split; try done. intros g [= <-]. lia.
  - unfold serve_signals. destruct (deliverable w t) eqn:Ed; [by apply returned_free|]. apply moved; [done|]. destruct (Hw t) as [H1 H2 H3 H4 H5 H6 H7]. rewrite Ht in *. split; try done. cbn. congruence.
  - by apply wakes_pop.
  - by apply wakes_serve_park.
  - unfold serve_done. destruct e; [by apply (wakes_moved w _ t Running)|by apply (wakes_moved w _ t SvTop)].
  - by apply moved_free.
  - by apply wakes_enter.
  - apply moved; [done|]. split; try done. intros g [= <-]. lia.
  - by apply wakes_park_section.
  - by apply wakes_park_park.
  - apply wakes_client; [done|rewrite Hh; done..].
  - by apply wakes_submit.
  - by eapply wakes_submit_add.
  - by apply wakes_submit_futex.
  - apply wakes_client; [done|rewrite Hh; done..].
  - unfold take_carrier. destruct (available (impl w)) as [|r rest]; [apply wakes_client; [done|rewrite Hh; done..]|]. destruct (records (impl w) !! r) as [q|] eqn:Eq; [|done].
    eapply (wakes_record w Hw r q {| thread := thread q; state := Leased; listed := false |}); try done; [by left|rewrite Hh; done..].
  - by apply wakes_lock_add.
  - by eapply wakes_lock_futex.
  - apply wakes_client; [done|rewrite Hh; done..].
  - unfold release_carrier. destruct (records (impl w) !! r) as [q|] eqn:Eq; [|done]. eapply (wakes_record w Hw r q {| thread := thread q; state := Released; listed := listed q |}); try done; [by right|rewrite Hh; done..].
  - by apply wakes_drop.
  - unfold release_carrier. destruct (records (impl w) !! r) as [q|] eqn:Eq; [|done]. eapply (wakes_record w Hw r q {| thread := thread q; state := Released; listed := listed q |}); try done; [by right|rewrite Hh; done..].
  - intros x. apply (pc_same w); try done; eauto.
  - intros x. apply (pc_same w); try done; eauto.
Qed.

(** ** Commands *)

Definition executing (p : gpc) : option nat := match p with SvExec c => Some c | _ => None end.
Definition command_of (p : cpc) : option nat := match p with CAdd c _ | CFutex c _ | CWait c _ => Some c | _ => None end.

(** A command is queued, running, left to the runner, or answered: exactly one of these. *)
Record commands_ok (queue : list nat) (run : option nat) (ans : gmap nat Response) (n : nat) (c : Z -> cpc) : Prop := {
  cm_nodup : NoDup queue;
  cm_known : forall x, (x < n)%nat <-> x ∈ queue \/ run = Some x \/ is_Some (ans !! x);
  cm_queued : forall x, x ∈ queue -> run <> Some x /\ ans !! x = None;
  cm_running : forall x, run = Some x -> ans !! x = None;
  cm_waiting : forall h x, command_of (c h) = Some x -> (x < n)%nat;
}.

Definition commands_inv (main : Z) (w : World) : Prop :=
  commands_ok (commands (impl w) ++ draining w) (executing (gs w main)) (answers w) (issued w) (cs w) /\ (finished (impl w) = false -> draining w = []).

Lemma commands_client q run ans n c h p : command_of p = None \/ command_of p = command_of (c h) -> commands_ok q run ans n c -> commands_ok q run ans n (upd c h p).
Proof.
  intros Hp [H1 H2 H3 H4 H5]. split; try done. intros h' x. unfold upd. case_decide; [|apply H5]. destruct Hp as [->| ->]; [done|apply H5].
Qed.

(** A running command is answered. *)
Lemma commands_answer q x a ans n c : commands_ok q (Some x) ans n c -> commands_ok q None (<[x := a]> ans) n c.
Proof.
  intros [H1 H2 H3 H4 H5]. split; try done.
  - intros y. rewrite H2. destruct (decide (y = x)) as [->|Hne]; [rewrite lookup_insert_eq|rewrite lookup_insert_ne by done]; split.
    + intros _. right. right. done.
    + intros _. right. by left.
    + intros [?|[[= ->]|?]]; [by left|done|right; by right].
    + intros [?|[?|?]]; [by left|done|right; by right].
  - intros y Hy. destruct (H3 y Hy) as [Hr Ha]. split; [done|]. rewrite lookup_insert_ne; [done|congruence].
Qed.

(** The first of the queue, or of the runner's list, is taken. *)
Lemma commands_pop x q ans n c : commands_ok (x :: q) None ans n c -> commands_ok q (Some x) ans n c.
Proof.
  intros [H1 H2 H3 H4 H5]. apply NoDup_cons in H1 as [Hx Hnd]. split; try done.
  - intros y. rewrite H2, elem_of_cons. split; [intros [[->|?]|[?|?]]; [right; by left|by left|done|right; by right]|intros [?|[[= ->]|?]]; [by left; right|by left; left|right; by right]].
  - intros y Hy. split; [congruence|]. apply H3. by right.
  - intros y [= <-]. apply H3. by left.
Qed.

Lemma commands_push q run ans n c h k : command_of (c h) = None -> commands_ok q run ans n c -> commands_ok (q ++ [n]) run ans (S n) (upd c h (CAdd n k)).
Proof.
  intros Hh [H1 H2 H3 H4 H5]. assert (~ (n ∈ q \/ run = Some n \/ is_Some (ans !! n))) as Hn by (rewrite <- H2; lia). split.
  - apply NoDup_app. split; [done|]. split; [|apply NoDup_singleton]. intros x Hx ->%list_elem_of_singleton. tauto.
  - intros x. rewrite elem_of_app, list_elem_of_singleton. destruct (decide (x = n)) as [->|Hne]; [split; [by left; right|lia]|]. assert ((x < S n)%nat <-> (x < n)%nat) as -> by lia. rewrite H2. tauto.
  - intros x [Hx| ->%list_elem_of_singleton]%elem_of_app; [by apply H3|]. split; [tauto|]. apply eq_None_not_Some. tauto.
  - done.
  - intros h' x. unfold upd. case_decide; [intros [= <-]; lia|]. intros Hx. apply H5 in Hx. lia.
Qed.

(** The order in which the two queues are joined does not matter. *)
Lemma commands_perm q q' run ans n c : q ≡ₚ q' -> commands_ok q run ans n c -> commands_ok q' run ans n c.
Proof. intros Hp [H1 H2 H3 H4 H5]. split; try done; [by rewrite <- Hp|intros x; by rewrite <- Hp|intros x; rewrite <- Hp; apply H3]. Qed.

Lemma draining_step main w w' : step main w w' -> (finished (impl w) = false -> draining w = []) -> finished (impl w') = false -> draining w' = [].
Proof.
  intros Hstep Hd. destruct Hstep as [| | | | | | | |v| | | | |t c a e| |t f|t|t r d g| | |h k s| | | |h| |h r t p|h r|h r| |h r| |c rest st E]; try exact Hd.
  - unfold ready_section. by destruct (ready (impl w)) eqn:?, v.
  - unfold serve_signals. by destruct (deliverable w t).
  - unfold serve_pop. by destruct (commands (impl w)).
  - unfold serve_done. by destruct e.
  - unfold park_enter. by destruct (carriers (impl w) !! t).
  - unfold park_section. destruct (records (impl w) !! r) as [p|]; [|done]. by destruct (state p), (deliverable w t), (listed p).
  - unfold submit_section. by destruct (_ || _).
  - unfold take_carrier. destruct (available (impl w)) as [|r rest]; [done|]. by destruct (records (impl w) !! r).
  - unfold release_carrier. by destruct (records (impl w) !! r).
  - unfold release_carrier. by destruct (records (impl w) !! r).
  - done.
  - cbn. intros Hf. by rewrite (Hd Hf) in E.
Qed.

Lemma commands_inv_step main w w' : step main w w' -> life_inv main w -> carriers_inv w -> commands_inv main w -> commands_inv main w'.
Proof.
  intros Hstep Hl Hc [Hi Hd]. split; [|by eapply draining_step]. assert (forall t p, executing (gs w t) = None -> executing p = None -> executing (upd (gs w) t p main) = executing (gs w main)) as Hu.
  { intros t p Ht Hp. apply upd_view. by rewrite Ht, Hp. }
  assert (forall t, executing (upd (gs w) t (awake (gs w t)) main) = executing (gs w main)) as Haw by (intros t; apply (upd_view executing); by destruct (gs w t)).
  destruct Hstep as [Hs ?|t Ht Hne Hst Hf ?|t Ht ?|t b ?|t ?|t l1 l2 ?|t l1 l2 ?|t|v Ht ?|t Ht|t g Ht|t g Ht ?|t g Ht|t c a e Ht|t Ht|t f Ht Hk Hf|t r d Ht|t r d g Ht Hk|t r d g Ht
    |h k Hh|h k s Hh ?|h c k t Hh ?|h c k t Hh ?|h c k a Hh ?|h Hh Hk|h r t Hk ?|h r t p Hk ? Hh|h r Hh|h r Hh Hk|h r t b Hh ?|h r Hh Hk|st ? Hfin Hall ?|c rest st Hdr];
    cbn; try done; try (rewrite Hu by (rewrite ?Ht; done); done); try (rewrite Haw; done); try (apply commands_client; [by left|done]).
  - rewrite Hu; [done| |done]. by rewrite (lf_before _ _ Hl).
  - unfold ready_section. destruct (ready (impl w)); [|destruct v]; cbn; rewrite Hu by (rewrite ?Ht; done); done.
  - unfold serve_signals. destruct (deliverable w t); cbn; rewrite Hu by (rewrite ?Ht; done); done.
  - assert (t = main) as -> by (apply (lf_serving _ _ Hl); by rewrite Ht). unfold serve_pop. rewrite Ht in Hi. destruct (commands (impl w)) as [|c rest] eqn:Ec; cbn; rewrite upd_eq, ?Ec; [done|by apply commands_pop].
  - rewrite Hu; [done|by rewrite Ht|by destruct (sleeps w t g)].
  - assert (t = main) as -> by (apply (lf_serving _ _ Hl); by rewrite Ht). rewrite Ht in Hi. unfold serve_done. destruct e; cbn; rewrite upd_eq; by apply commands_answer.
  - unfold park_enter. destruct (carriers (impl w) !! t); cbn; rewrite Hu by (rewrite ?Ht; done); done.
  - unfold park_section. destruct (records (impl w) !! r) as [p|]; [|done]. destruct (state p), (deliverable w t), (listed p); cbn; rewrite Hu by (rewrite ?Ht; done); done.
  - rewrite Hu; [done|by rewrite Ht|by destruct (sleeps w t g)].
  - unfold submit_section. destruct (_ || _) eqn:E; [by apply commands_client; [left|]|]. cbn. apply orb_false_iff in E as [[_ E]%orb_false_iff _]. rewrite (Hd E), app_nil_r in *. apply commands_push; [by rewrite Hh|done].
  - apply commands_client; [right; by rewrite Hh|done].
  - rewrite Haw. apply commands_client; [right; by rewrite Hh|done].
  - apply commands_client; [left; by destruct k, (ok a)|done].
  - unfold take_carrier. destruct (available (impl w)) as [|r rest]; [by apply commands_client; [left|]|]. destruct (records (impl w) !! r); [|done]. by apply commands_client; [left|].
  - rewrite Haw. apply commands_client; [|done]. left. destruct (co_locked _ _ _ _ _ _ Hc h r ToFutex Hk) as [Hn _]. rewrite Hh in Hn. by destruct Hn as [[= ->]|[= ->]].
  - unfold release_carrier. destruct (records (impl w) !! r); [|done]. by apply commands_client; [left|].
  - unfold release_carrier. destruct (records (impl w) !! r); [|done]. by apply commands_client; [left|].
  - rewrite (Hd Hfin), app_nil_r in Hi. done.
  - assert (finished (impl w) = true) as Hf by (destruct (finished (impl w)) eqn:E; [done|by rewrite (Hd eq_refl) in Hdr]). destruct (lf_after _ _ Hl Hf) as [Ec Hall]. rewrite Ec, Hdr, Hall in *. cbn in *. by apply commands_answer, commands_pop.
Qed.

(** ** Every reachable state *)

Record runtime_inv (main : Z) (w : World) : Prop := {
  ri_life : life_inv main w;
  ri_carriers : carriers_inv w;
  ri_wakes : wakes_inv w;
  ri_commands : commands_inv main w;
}.

Lemma runtime_inv_init main : runtime_inv main World_init.
Proof.
  split; [by split| | |].
  - split; try done; [apply NoDup_nil_2|]. intros r. cbn. split; [by intros ?%elem_of_nil|]. intros (p & Hp & _). by rewrite lookup_empty in Hp.
  - intros t. split; try done. by intros _ st ?%elem_of_nil.
  - split; [|done]. split; [apply NoDup_nil_2| |by intros x ?%elem_of_nil|done|done].
    intros x. cbn. split; [lia|]. intros [?%elem_of_nil|[?|[a Ha]]]; [done..|]. by rewrite lookup_empty in Ha.
Qed.

Lemma runtime_reachable_inv main w : reachable main w -> runtime_inv main w.
Proof.
  intros Hr. apply (rtc_ind_r (fun w => runtime_inv main w)) in Hr; [done|apply runtime_inv_init|]. intros w1 w2 _ Hs [H1 H2 H3 H4].
  split; [by eapply life_inv_step|by eapply carriers_inv_step|by eapply wakes_inv_step|by eapply commands_inv_step].
Qed.

(** C22: leases are exclusive.  In every reachable state a carrier is leased exactly when
    one host thread holds its lease; a leased or listed carrier's thread is inside PARK with
    that record, so it runs no guest code of its own; the available list holds every listed
    record once, and only unleased ones. *)
Theorem lease_exclusive main w :
  reachable main w ->
  NoDup (available (impl w)) /\
  (forall h h' r, holds (cs w h) = Some r -> holds (cs w h') = Some r -> h = h') /\
  (forall r q, records (impl w) !! r = Some q ->
     (state q = Leased <-> exists h, holds (cs w h) = Some r) /\
     (r ∈ available (impl w) <-> listed q = true) /\
     (listed q = true -> state q = Available) /\
     (state q = Leased \/ listed q = true -> in_park (gs w (thread q)) = Some r)).
Proof.
  intros [_ [H1 H2 H3 H4 H5 H6 H7 H8 H9 H10 H11] _ _]%runtime_reachable_inv. split; [done|]. split; [done|]. intros r q Hq. split; [|split; [|split; [by eapply H3|intros Hs; apply (H6 r q Hq); unfold claimed; tauto]]].
  - split; [by apply H9|]. intros [h Hh]. destruct (H7 h r Hh) as (q' & Hq' & Hs). congruence.
  - rewrite H2. split; [intros (q' & Hq' & Hs); congruence|eauto].
Qed.

(** A thread leaves PARK only in its locked section. *)
Lemma leaves_in_section main w w' t r : life_inv main w -> step main w w' -> in_park (gs w t) = Some r -> gs w' t = Running -> exists d g, gs w t = PkLock r d g /\ w' = park_section w t r d g.
Proof.
  intros Hl Hstep Hp Hr. assert (forall t' p, gs w' = upd (gs w) t' p -> t = t') as Hsame.
  { intros t' p E. destruct (decide (t = t')); [done|]. rewrite E, upd_ne in Hr by done. by rewrite Hr in Hp. }
  assert (forall p, gs w' = p -> p t = Running) as Hrun by congruence. assert (gs w' = gs w -> False) as Hno by (intros E; rewrite E in Hr; by rewrite Hr in Hp).
  assert (forall t', gs w' = upd (gs w) t' (awake (gs w t')) -> False) as Hawake by (intros t' E; pose proof (Hsame _ _ E) as <-; rewrite E, upd_eq in Hr; by destruct (gs w t)).
  destruct Hstep as [Hs ?|t' Ht Hne Hst Hf ?|t' Ht ?|t' b ?|t' ?|t' l1 l2 ?|t' l1 l2 ?|t'|v Ht ?|t' Ht|t' g Ht|t' g Ht ?|t' g Ht|t' c a e Ht|t' Ht|t' f Ht Hk Hf|t' r' d Ht|t' r' d g Ht Hk|t' r' d g Ht
    |h k Hh|h k s Hh ?|h c k t' Hh ?|h c k t' Hh ?|h c k a Hh ?|h Hh Hk|h r' t' Hk ?|h r' t' p Hk ? Hh|h r' Hh|h r' Hh Hk|h r' t' b Hh ?|h r' Hh Hk|st ? ? Hall ?|c rest st ?];
    try (by destruct (Hno eq_refl)); try (exfalso; by eapply Hawake); try (exfalso; pose proof (Hsame _ _ eq_refl) as <-; by rewrite Ht in Hp).
  - exfalso. by rewrite (lf_before _ _ Hl Hs) in Hp.
  - exfalso. assert (t = main) as -> by (unfold ready_section in Hsame; destruct (ready (impl w)); [|destruct v]; by eapply Hsame). by rewrite Ht in Hp.
  - exfalso. assert (t = t') as <- by (unfold serve_signals in Hsame; destruct (deliverable w t'); by eapply Hsame). by rewrite Ht in Hp.
  - exfalso. assert (t = t') as <- by (unfold serve_pop in Hsame; destruct (commands (impl w)); by eapply Hsame). by rewrite Ht in Hp.
  - exfalso. assert (t = t') as <- by (unfold serve_done in Hsame; destruct e; by eapply Hsame). by rewrite Ht in Hp.
  - exfalso. assert (t = t') as <- by (unfold park_enter in Hsame; destruct (carriers (impl w) !! t'); by eapply Hsame). by rewrite Ht in Hp.
  - exfalso. pose proof (Hsame _ _ eq_refl) as <-. cbn in Hr. by rewrite upd_eq in Hr.
  - assert (t = t') as <-.
    { unfold park_section in Hsame, Hno. destruct (records (impl w) !! r') as [q|]; [|by destruct (Hno eq_refl)]. destruct (state q); [destruct (deliverable w t')|..]; by eapply Hsame. }
    rewrite Ht in Hp. injection Hp as <-. by exists d, g.
  - exfalso. pose proof (Hsame _ _ eq_refl) as <-. cbn in Hr. rewrite upd_eq in Hr. by destruct (sleeps w t g).
  - exfalso. apply Hno. unfold submit_section. by destruct (_ || _).
  - exfalso. apply Hno. unfold take_carrier. destruct (available (impl w)) as [|x ?]; [done|]. by destruct (records (impl w) !! x).
  - exfalso. apply Hno. unfold release_carrier. by destruct (records (impl w) !! r').
  - exfalso. apply Hno. unfold release_carrier. by destruct (records (impl w) !! r').
Qed.

(** a host call PARK returns in two ways only.  With 0 after the lease of that carrier
    was released; or with AGAIN, to take signals, when it is neither leased nor listed any
    more. *)
Theorem park_returns main w w' t r :
  reachable main w -> step main w w' -> in_park (gs w t) = Some r -> gs w' t = Running ->
  exists q, records (impl w) !! r = Some q /\ thread q = t /\
    (state q = Released /\ r0 w' t = 0 /\ carriers (impl w') !! t = None \/
     state q = Available /\ r0 w' t = ZB_SERVICE_AGAIN /\ deliverable w t = true /\ r ∉ available (impl w')).
Proof.
  intros [Hl Hc _ _]%runtime_reachable_inv Hstep Hp Hr. destruct (leaves_in_section main w w' t r Hl Hstep Hp Hr) as (d & g & Ht & ->).
  destruct (co_slot _ _ _ _ _ _ Hc t r (co_parked _ _ _ _ _ _ Hc t r Hp)) as (q & Hq & Htq). exists q. split; [done|]. split; [done|]. unfold park_section in *. rewrite Hq in *. destruct (state q) eqn:Es.
  - destruct (deliverable w t) eqn:Ed; [|cbn in Hr; by rewrite upd_eq in Hr]. right. split; [done|]. cbn. rewrite upd_eq. split; [done|]. split; [done|].
    destruct (listed q) eqn:El; cbn; [rewrite list_elem_of_filter; tauto|]. intros (q' & Hq' & ?)%(co_listed _ _ _ _ _ _ Hc). congruence.
  - cbn in Hr. by rewrite upd_eq in Hr.
  - left. split; [done|]. cbn. rewrite upd_eq, lookup_delete_eq. done.
Qed.

(** C23: no wake-up is lost.  A sleeping carrier whose lease was released, or that is not
    leased and has a signal to take, is about to be woken; so is the sleeping service thread
    when a command is queued or a signal is pending.  The one exception is the width of the
    futex word: 2^32 wake-ups between reading the token and falling asleep. *)
Theorem no_lost_wakeup main w t :
  reachable main w ->
  (forall r d g n q, gs w t = PkAsleep r d g n -> records (impl w) !! r = Some q -> state q = Released \/ state q = Available /\ deliverable w t = true ->
     futex_coming w t \/ unlocking w r \/ (t, ToAdd) ∈ flying w \/ 2 ^ 32 <= n - g) /\
  (forall g n, gs w t = SvAsleep g n -> commands (impl w) <> [] \/ deliverable w t = true ->
     futex_coming w t \/ submitting w \/ (t, ToAdd) ∈ flying w \/ 2 ^ 32 <= n - g).
Proof.
  intros [_ _ Hw _]%runtime_reachable_inv. destruct (Hw t) as [H1 H2 H3 H4 H5 H6 H7].
  assert (forall g n, slept (gs w t) = Some (g, n) -> g < wakes w t -> futex_coming w t \/ 2 ^ 32 <= n - g) as Hmoved.
  { intros g n Hs Hg. destruct (H2 g n Hs) as (Hgn & Hu & Hx). destruct (decide (n < wakes w t)) as [Hn|Hn]; [left; auto|]. right. assert (n = wakes w t) as -> by lia. unfold u32 in Hu.
    pose proof (Z.div_mod g (2 ^ 32) ltac:(lia)). pose proof (Z.div_mod (wakes w t) (2 ^ 32) ltac:(lia)). nia. }
  split.
  - intros r d g n q Hg Hq Hs. rewrite Hg in *. destruct Hs as [Hs|[Hs Hd]].
    + destruct (H3 r g q eq_refl Hq Hs) as [Hlt|?]; [|tauto]. destruct (Hmoved g n eq_refl Hlt); tauto.
    + destruct (H4 r g q eq_refl Hq Hs Hd) as [Hlt|?]; [|tauto]. destruct (Hmoved g n eq_refl Hlt); tauto.
  - intros g n Hg Hs. rewrite Hg in *. destruct Hs as [Hs|Hd].
    + destruct (H6 g eq_refl Hs) as [Hlt|?]; [|tauto]. destruct (Hmoved g n eq_refl Hlt); tauto.
    + destruct (H5 g eq_refl Hd) as [Hlt|?]; [|tauto]. destruct (Hmoved g n eq_refl Hlt); tauto.
Qed.

(** a wake-up never touches a thread that was freed: the carrier that is woken under
    the mutex is inside PARK, a signal's target has not exited, and a command wakes the main
    thread, which lives as long as the process. *)
Theorem wakes_hit_live_threads main w :
  reachable main w ->
  (forall h r st, locked (impl w) = Some (h, r, st) -> exists t, locked_target (impl w) r = Some t /\ in_park (gs w t) = Some r) /\
  (forall t st, (t, st) ∈ flying w -> gs w t <> Gone) /\
  (forall h c k, cs w h = CAdd c k \/ cs w h = CFutex c k -> service (impl w) = Some main).
Proof.
  intros [Hl Hc Hw [Hm _]]%runtime_reachable_inv. split; [|split].
  - intros h r st Hk. destruct (co_locked _ _ _ _ _ _ Hc h r st Hk) as (_ & q & Hq & Hcl & _). exists (thread q). unfold locked_target. rewrite Hq. split; [done|]. by apply (co_claimed _ _ _ _ _ _ Hc r q Hq).
  - intros t st Hin Hg. by apply (po_gone _ _ _ (Hw t) Hg st).
  - intros h c k Hh. assert (c < issued w)%nat as Hlt by (apply (cm_waiting _ _ _ _ _ Hm h); by destruct Hh as [->| ->]). rewrite (lf_service _ _ Hl), (lf_issued _ _ Hl); [done|lia].
Qed.

(** C24: every command is answered once.  In every reachable state a submitted command is
    queued, running, left to the runner or answered, and only one of these; what is about to
    be answered has no answer yet (the promise is never set twice); and once the runner is
    done, every command that was ever accepted has its answer. *)
Theorem commands_answered_once main w :
  reachable main w ->
  (forall c, (c < issued w)%nat <-> c ∈ commands (impl w) \/ c ∈ draining w \/ gs w main = SvExec c \/ is_Some (answers w !! c)) /\
  NoDup (commands (impl w) ++ draining w) /\
  (forall c t, c ∈ commands (impl w) \/ c ∈ draining w \/ gs w t = SvExec c -> answers w !! c = None) /\
  (forall c t, gs w t = SvExec c -> t = main /\ c ∉ commands (impl w) /\ c ∉ draining w) /\
  (finished (impl w) = true -> draining w = [] -> forall h c k, cs w h = CWait c k -> is_Some (answers w !! c)).
Proof.
  intros [Hl _ _ [[H1 H2 H3 H4 H5] _]]%runtime_reachable_inv. assert (forall c, executing (gs w main) = Some c <-> gs w main = SvExec c) as He by (intros c; destruct (gs w main); cbn; split; congruence).
  assert (forall c t, gs w t = SvExec c -> t = main) as Hmain by (intros c t Ht; apply (lf_serving _ _ Hl); by rewrite Ht).
  split; [|split; [done|split; [|split]]].
  - intros c. rewrite H2, He, elem_of_app. tauto.
  - intros c t [Hc|[Hc|Hc]]; [apply H3, elem_of_app; by left|apply H3, elem_of_app; by right|]. pose proof (Hmain c t Hc) as ->. apply H4. by rewrite He.
  - intros c t Ht. pose proof (Hmain c t Ht) as ->. split; [done|]. split; intros Hc; (destruct (H3 c) as [Hx _]; [apply elem_of_app; auto|]; by rewrite Ht in Hx).
  - intros Hf Hd h c k Hh. destruct (lf_after _ _ Hl Hf) as [Ec Hall]. assert (c < issued w)%nat as Hlt by (apply (H5 h); by rewrite Hh). apply H2 in Hlt as [Hq|[Hx|Ha]]; [|by rewrite Hall in Hx|done].
    rewrite Ec, Hd in Hq. by apply elem_of_nil in Hq.
Qed.

(** ** A run *)

(** Thread 1 is zbhost; host thread 5 asks for a carrier, guest thread 2 parks with record 7
    and is leased. *)
Definition sample_spawned : Response := {| ok := true; result := Some {| res_r0 := 0; res_r1 := 0 |}; error := [] |}.
Definition sample_ready : World := ready_section (with_gs (with_impl World_init (with_started (impl World_init))) 1 Running) 1 None.
Definition sample_queued : World := submit_section (with_cs sample_ready 5 (CSubmit SpawnCarrier)) 5 SpawnCarrier false.
Definition sample_added : World := with_cs (wake_add sample_queued 1) 5 (CFutex 0 SpawnCarrier).
Definition sample_waiting : World := with_cs (wake_futex sample_added 1) 5 (CWait 0 SpawnCarrier).
Definition sample_running : World := serve_pop (serve_signals (with_gs sample_waiting 1 (SvSignals (wakes sample_waiting 1))) 1 1) 1 1.
Definition sample_thread : World := with_deliverable (with_wakes (with_gs sample_running 2 Running) (upd (wakes sample_running) 2 0)) 2 false.
Definition sample_parked : World := park_enter (with_gs sample_thread 2 PkEnter) 2 7.
Definition sample_listed : World := park_section (with_gs sample_parked 2 (PkLock 7 false (wakes sample_parked 2))) 2 7 false 0.
Definition sample_answered : World := submit_get (serve_done sample_listed 1 0 sample_spawned false) 5 SpawnCarrier sample_spawned.
Definition sample_leased : World := take_carrier (park_park sample_answered 2 7 false 0) 5.

Lemma sample_running_reachable : reachable 1 sample_running.
Proof.
  assert (reachable 1 sample_ready) as H1 by (eapply rtc_r; [eapply rtc_r; [apply rtc_refl|by apply (s_start 1)]|by apply (s_ready 1)]).
  assert (reachable 1 sample_queued) as H2 by (eapply rtc_r; [eapply rtc_r; [exact H1|by apply (s_call 1 _ 5 SpawnCarrier)]|by apply (s_submit 1)]).
  assert (reachable 1 sample_added) as H3 by (eapply rtc_r; [exact H2|by apply (s_submit_add 1)]).
  assert (reachable 1 sample_waiting) as H4 by (eapply rtc_r; [exact H3|by apply (s_submit_futex 1)]).
  eapply rtc_r; [eapply rtc_r; [eapply rtc_r; [exact H4|by apply (s_sv_token 1 _ 1)]|by apply (s_sv_signals 1 _ 1 1)]|by apply (s_sv_pop 1)].
Qed.

Lemma sample_leased_reachable : reachable 1 sample_leased.
Proof.
  assert (reachable 1 sample_thread) as H1 by (eapply rtc_r; [exact sample_running_reachable|apply (s_new 1); [done..|by exists 1]]).
  assert (reachable 1 sample_parked) as H2 by (eapply rtc_r; [eapply rtc_r; [exact H1|by apply (s_park 1 _ 2)]|by apply (s_pk_enter 1)]).
  assert (reachable 1 sample_listed) as H3 by (eapply rtc_r; [eapply rtc_r; [exact H2|by apply (s_pk_token 1 _ 2 7 false)]|by apply (s_pk_lock 1)]).
  assert (reachable 1 sample_answered) as H4 by (eapply rtc_r; [eapply rtc_r; [exact H3|by apply (s_sv_done 1 _ 1 0 sample_spawned false)]|by apply (s_get 1 _ 5 0)]).
  eapply rtc_r; [eapply rtc_r; [exact H4|by apply (s_pk_park 1 _ 2 7 false 0)]|by apply (s_take 1)].
Qed.

Lemma lease_exclusive_witness :
  exists q, records (impl sample_leased) !! 7 = Some q /\ state q = Leased /\ (exists h, holds (cs sample_leased h) = Some 7) /\ in_park (gs sample_leased (thread q)) = Some 7.
Proof.
  destruct (lease_exclusive 1 sample_leased sample_leased_reachable) as (_ & _ & H). exists {| thread := 2; state := Leased; listed := false |}.
  destruct (H 7 {| thread := 2; state := Leased; listed := false |} ltac:(vm_compute; reflexivity)) as (H1 & _ & _ & H2).
  split; [vm_compute; reflexivity|]. split; [reflexivity|]. split; [apply H1; reflexivity|apply H2; left; reflexivity].
Defined.

Lemma wakes_hit_live_threads_witness : exists t, locked_target (impl sample_leased) 7 = Some t /\ in_park (gs sample_leased t) = Some 7.
Proof. destruct (wakes_hit_live_threads 1 sample_leased sample_leased_reachable) as (H & _). apply (H 5 7 ToAdd). vm_compute. reflexivity. Defined.

Lemma commands_answered_once_witness : gs sample_running 1 = SvExec 0 /\ answers sample_running !! 0%nat = None.
Proof. destruct (commands_answered_once 1 sample_running sample_running_reachable) as (_ & _ & H & _). split; [vm_compute; reflexivity|]. apply (H 0%nat 1). right. right. vm_compute. reflexivity. Defined.

(** The service thread asleep while a command arrives. *)
Definition sample_idle : World := serve_pop (serve_signals (with_gs sample_ready 1 (SvSignals (wakes sample_ready 1))) 1 0) 1 0.
Definition sample_asleep : World := submit_section (with_cs (serve_park sample_idle 1 0) 5 (CSubmit Call)) 5 Call false.

Lemma no_lost_wakeup_witness :
  gs sample_asleep 1 = SvAsleep 0 0 /\ commands (impl sample_asleep) = [0%nat] /\
  (futex_coming sample_asleep 1 \/ submitting sample_asleep \/ (1, ToAdd) ∈ flying sample_asleep \/ 2 ^ 32 <= 0 - 0).
Proof.
  assert (reachable 1 sample_ready) as H1 by (eapply rtc_r; [eapply rtc_r; [apply rtc_refl|by apply (s_start 1)]|by apply (s_ready 1)]).
  assert (reachable 1 sample_idle) as H2 by (eapply rtc_r; [eapply rtc_r; [eapply rtc_r; [exact H1|by apply (s_sv_token 1 _ 1)]|by apply (s_sv_signals 1 _ 1 0)]|by apply (s_sv_pop 1)]).
  assert (reachable 1 sample_asleep) as H3 by (eapply rtc_r; [eapply rtc_r; [eapply rtc_r; [exact H2|by apply (s_sv_park 1 _ 1 0)]|by apply (s_call 1 _ 5 Call)]|by apply (s_submit 1)]).
  destruct (no_lost_wakeup 1 sample_asleep 1 H3) as [_ H]. split; [vm_compute; reflexivity|]. split; [vm_compute; reflexivity|]. apply H; [vm_compute; reflexivity|left; vm_compute; discriminate].
Defined.

(** A carrier that gets a signal before it is listed. *)
Definition sample_signalled : World := with_flying (with_deliverable (with_gs sample_parked 2 (PkLock 7 false (wakes sample_parked 2))) 2 true) ((2, ToAdd) :: flying (with_gs sample_parked 2 (PkLock 7 false (wakes sample_parked 2)))).

Lemma park_returns_witness : exists q, records (impl sample_signalled) !! 7 = Some q /\ state q = Available /\ r0 (park_section sample_signalled 2 7 false 0) 2 = ZB_SERVICE_AGAIN.
Proof.
  assert (reachable 1 sample_thread) as H1 by (eapply rtc_r; [exact sample_running_reachable|apply (s_new 1); [done..|by exists 1]]).
  assert (reachable 1 sample_parked) as H2 by (eapply rtc_r; [eapply rtc_r; [exact H1|by apply (s_park 1 _ 2)]|by apply (s_pk_enter 1)]).
  assert (reachable 1 sample_signalled) as H3 by (eapply rtc_r; [eapply rtc_r; [exact H2|by apply (s_pk_token 1 _ 2 7 false)]|by apply (s_signal 1 _ 2)]).
  destruct (park_returns 1 sample_signalled (park_section sample_signalled 2 7 false 0) 2 7 H3) as (q & Hq & _ & [(Hs & _)|(Hs & Hr & _)]);
    [by apply (s_pk_lock 1)|vm_compute; reflexivity|vm_compute; reflexivity| |].
  - vm_compute in Hq. injection Hq as <-. discriminate Hs.
  - exists q. split; [exact Hq|]. split; [exact Hs|exact Hr].
Defined.
