(* ===== verification/JniState.v ===== *)
(** * The JNI bridge: state and access

    [core/src/jni/host_jni_internal.h], the shared parts of [host_jni.cpp] and the thunk slots
    of [native_thunks.cpp]: the state of the bridge and of one host thread, the arguments of
    a flat JNI host call, the resolution of handles and ids, the guest's strings and buffers,
    and calls into the guest.  The calls themselves are in [JniCalls].

    The Java side ([JniBackend]) is the parameter [host] of [Service], guest code is [guest].
    What the source reports with [fatal] ends the process: [Aborted].  The tables of the
    bridge have their own locks, so the calls of one thread are followed while other threads
    are not. *)

From stdpp Require Import numbers list gmap strings.
From Stdlib Require Import Ascii.
From S2P Require Import Prelude Handles JniNames Bytes GuestMemory InitialStack GuestThread Kernel Syscalls Service.
Local Open Scope Z_scope.

Definition ZB_JNI_PROTOCOL_VERSION : Z := 1.
Definition ZB_JNI_SHORTY_SIZE : Z := 257.
Definition kMaxGuestString : Z := Z.shiftl 64 20.
Definition kNativeThunkCount : Z := 16384.
Definition kMirrorCapBytes : Z := 64 * 1024 * 1024.

Record zb_jni_guest_api := { japi_size : Z; japi_version : Z; new_env_fn : Z; free_env_fn : Z; java_vm : Z }.
Definition zb_jni_guest_api_init : zb_jni_guest_api := {| japi_size := 0; japi_version := 0; new_env_fn := 0; free_env_fn := 0; java_vm := 0 |}.

(** ** Thunk slots *)

Record NativeTarget := { guest_function : Z; shorty : list ascii; is_static : bool }.

(** [targets_] and [ready_] up to [count_]. *)
Record NativeSlots := { capacity_ : Z; targets_ : list NativeTarget; sready_ : list bool; released_ : list nat }.

Definition NativeSlots_init (capacity : Z) : NativeSlots := {| capacity_ := capacity `min` kNativeThunkCount; targets_ := []; sready_ := []; released_ := [] |}.

(** [released_] has its back first. *)
Definition slots_allocate (s : NativeSlots) (target : NativeTarget) : exec (Z * NativeSlots) :=
  match released_ s with
  | reused :: rest =>
      ts ← vec_set (targets_ s) reused target;
      rd ← vec_set (sready_ s) reused true;
      Ret (Z.of_nat reused, {| capacity_ := capacity_ s; targets_ := ts; sready_ := rd; released_ := rest |})
  | [] =>
      let slot := Z.of_nat (length (targets_ s)) in
      if capacity_ s <=? slot then Ret (-1, s)
      else Ret (slot, {| capacity_ := capacity_ s; targets_ := targets_ s ++ [target]; sready_ := sready_ s ++ [true]; released_ := released_ s |})
  end.

Definition slots_target (s : NativeSlots) (slot : Z) : option NativeTarget :=
  match sready_ s !! Z.to_nat slot with Some true => targets_ s !! Z.to_nat slot | _ => None end.

Definition slots_release (s : NativeSlots) (slot : Z) : exec NativeSlots :=
  match sready_ s !! Z.to_nat slot with
  | Some true => Ret {| capacity_ := capacity_ s; targets_ := targets_ s; sready_ := <[Z.to_nat slot := false]> (sready_ s); released_ := Z.to_nat slot :: released_ s |}
  | _ => Aborted
  end.

Definition native_thunk_address (base slot : Z) : Z := if kNativeThunkCount <=? slot then 0 else base + 8 * slot.

(** ** State *)

Record BufferMirror := { mguest : Z; msize : Z; mglobal : Z }.

Record JniThread := {
  tenv : Z;   (** host JNIEnv of the thread, 0 without one *)
  guest_env : Z;
  attached : bool;
  native_depth : Z;
  user_frames : Z;
  locals : LocalHandles;
  carrier : bool;   (** the thread holds a lease *)
}.

Definition set_tenv (t : JniThread) (v : Z) : JniThread :=
  {| tenv := v; guest_env := guest_env t; attached := attached t; native_depth := native_depth t; user_frames := user_frames t; locals := locals t; carrier := carrier t |}.
Definition set_guest_env (t : JniThread) (v : Z) : JniThread :=
  {| tenv := tenv t; guest_env := v; attached := attached t; native_depth := native_depth t; user_frames := user_frames t; locals := locals t; carrier := carrier t |}.
Definition set_attached (t : JniThread) (v : bool) : JniThread :=
  {| tenv := tenv t; guest_env := guest_env t; attached := v; native_depth := native_depth t; user_frames := user_frames t; locals := locals t; carrier := carrier t |}.
Definition set_native_depth (t : JniThread) (v : Z) : JniThread :=
  {| tenv := tenv t; guest_env := guest_env t; attached := attached t; native_depth := v; user_frames := user_frames t; locals := locals t; carrier := carrier t |}.
Definition set_user_frames (t : JniThread) (v : Z) : JniThread :=
  {| tenv := tenv t; guest_env := guest_env t; attached := attached t; native_depth := native_depth t; user_frames := v; locals := locals t; carrier := carrier t |}.
Definition set_locals (t : JniThread) (v : LocalHandles) : JniThread :=
  {| tenv := tenv t; guest_env := guest_env t; attached := attached t; native_depth := native_depth t; user_frames := user_frames t; locals := v; carrier := carrier t |}.
Definition set_carrier (t : JniThread) (v : bool) : JniThread :=
  {| tenv := tenv t; guest_env := guest_env t; attached := attached t; native_depth := native_depth t; user_frames := user_frames t; locals := locals t; carrier := v |}.

Definition JniThread_init : JniThread :=
  {| tenv := 0; guest_env := 0; attached := false; native_depth := 0; user_frames := 0; locals := LocalHandles_init; carrier := false |}.

Record Jni := {
  ready : bool;
  api : zb_jni_guest_api;
  globals : GlobalHandles;
  weaks : GlobalHandles;
  methods : IdTable;
  fields : IdTable;
  shorties : list (list ascii);   (** index: guest method id - 1 *)
  slots : NativeSlots;
  mirrors : gmap Z BufferMirror;   (** by host address *)
  mirrored_bytes : Z;
  mirror_failures : Z;
  me : JniThread;   (** the [JniThread] of the host thread *)
  in_guest : bool;   (** [Process::current_thread() != nullptr] *)
}.

Definition set_ready (j : Jni) (v : bool) : Jni :=
  {| ready := v; api := api j; globals := globals j; weaks := weaks j; methods := methods j; fields := fields j; shorties := shorties j; slots := slots j; mirrors := mirrors j; mirrored_bytes := mirrored_bytes j; mirror_failures := mirror_failures j; me := me j; in_guest := in_guest j |}.
Definition set_api (j : Jni) (v : zb_jni_guest_api) : Jni :=
  {| ready := ready j; api := v; globals := globals j; weaks := weaks j; methods := methods j; fields := fields j; shorties := shorties j; slots := slots j; mirrors := mirrors j; mirrored_bytes := mirrored_bytes j; mirror_failures := mirror_failures j; me := me j; in_guest := in_guest j |}.
Definition set_globals (j : Jni) (v : GlobalHandles) : Jni :=
  {| ready := ready j; api := api j; globals := v; weaks := weaks j; methods := methods j; fields := fields j; shorties := shorties j; slots := slots j; mirrors := mirrors j; mirrored_bytes := mirrored_bytes j; mirror_failures := mirror_failures j; me := me j; in_guest := in_guest j |}.
Definition set_weaks (j : Jni) (v : GlobalHandles) : Jni :=
  {| ready := ready j; api := api j; globals := globals j; weaks := v; methods := methods j; fields := fields j; shorties := shorties j; slots := slots j; mirrors := mirrors j; mirrored_bytes := mirrored_bytes j; mirror_failures := mirror_failures j; me := me j; in_guest := in_guest j |}.
Definition set_methods (j : Jni) (v : IdTable) : Jni :=
  {| ready := ready j; api := api j; globals := globals j; weaks := weaks j; methods := v; fields := fields j; shorties := shorties j; slots := slots j; mirrors := mirrors j; mirrored_bytes := mirrored_bytes j; mirror_failures := mirror_failures j; me := me j; in_guest := in_guest j |}.
Definition set_fields (j : Jni) (v : IdTable) : Jni :=
  {| ready := ready j; api := api j; globals := globals j; weaks := weaks j; methods := methods j; fields := v; shorties := shorties j; slots := slots j; mirrors := mirrors j; mirrored_bytes := mirrored_bytes j; mirror_failures := mirror_failures j; me := me j; in_guest := in_guest j |}.
Definition set_shorties (j : Jni) (v : list (list ascii)) : Jni :=
  {| ready := ready j; api := api j; globals := globals j; weaks := weaks j; methods := methods j; fields := fields j; shorties := v; slots := slots j; mirrors := mirrors j; mirrored_bytes := mirrored_bytes j; mirror_failures := mirror_failures j; me := me j; in_guest := in_guest j |}.
Definition set_slots (j : Jni) (v : NativeSlots) : Jni :=
  {| ready := ready j; api := api j; globals := globals j; weaks := weaks j; methods := methods j; fields := fields j; shorties := shorties j; slots := v; mirrors := mirrors j; mirrored_bytes := mirrored_bytes j; mirror_failures := mirror_failures j; me := me j; in_guest := in_guest j |}.
Definition set_mirrors (j : Jni) (v : gmap Z BufferMirror) : Jni :=
  {| ready := ready j; api := api j; globals := globals j; weaks := weaks j; methods := methods j; fields := fields j; shorties := shorties j; slots := slots j; mirrors := v; mirrored_bytes := mirrored_bytes j; mirror_failures := mirror_failures j; me := me j; in_guest := in_guest j |}.
Definition set_mirrored_bytes (j : Jni) (v : Z) : Jni :=
  {| ready := ready j; api := api j; globals := globals j; weaks := weaks j; methods := methods j; fields := fields j; shorties := shorties j; slots := slots j; mirrors := mirrors j; mirrored_bytes := v; mirror_failures := mirror_failures j; me := me j; in_guest := in_guest j |}.
Definition set_mirror_failures (j : Jni) (v : Z) : Jni :=
  {| ready := ready j; api := api j; globals := globals j; weaks := weaks j; methods := methods j; fields := fields j; shorties := shorties j; slots := slots j; mirrors := mirrors j; mirrored_bytes := mirrored_bytes j; mirror_failures := v; me := me j; in_guest := in_guest j |}.
Definition set_me (j : Jni) (v : JniThread) : Jni :=
  {| ready := ready j; api := api j; globals := globals j; weaks := weaks j; methods := methods j; fields := fields j; shorties := shorties j; slots := slots j; mirrors := mirrors j; mirrored_bytes := mirrored_bytes j; mirror_failures := mirror_failures j; me := v; in_guest := in_guest j |}.
Definition set_in_guest (j : Jni) (v : bool) : Jni :=
  {| ready := ready j; api := api j; globals := globals j; weaks := weaks j; methods := methods j; fields := fields j; shorties := shorties j; slots := slots j; mirrors := mirrors j; mirrored_bytes := mirrored_bytes j; mirror_failures := mirror_failures j; me := me j; in_guest := v |}.

Definition Jni_init (slot_capacity : Z) : Jni :=
  {| ready := false; api := zb_jni_guest_api_init; globals := GlobalHandles_init Global; weaks := GlobalHandles_init WeakGlobal; methods := IdTable_init; fields := IdTable_init; shorties := [];
     slots := NativeSlots_init slot_capacity; mirrors := ∅; mirrored_bytes := 0; mirror_failures := 0; me := JniThread_init; in_guest := false |}.

(** ** Access *)

(** A guest string as characters and back. *)
Definition chars (bs : list Z) : list ascii := map (fun b => Ascii.ascii_of_N (Z.to_N b)) bs.
Definition bytes_of (cs : list ascii) : list Z := map (fun c => Z.of_N (Ascii.N_of_ascii c)) cs.

Section JniAccess.
Context (host : list hostcall -> hostcall -> answer) (guest : Z -> list Z -> Sv Jni -> option GuestResult * Sv Jni).

#[local] Notation svc := (svc Jni).

(** [fatal] logs, reports to Java and aborts. *)
Definition fatal {A} : svc A := abort.

Definition modify_own (f : Jni -> Jni) : svc unit := st ← get_own; put_own (f st).
Definition set_thread (f : JniThread -> JniThread) : svc unit := modify_own (fun j => set_me j (f (me j))).

(** [JniCall::arg]: r0 to r3 of the call, then the stack. *)
Definition arg (rs : list Z) (position : nat) : svc Z :=
  if (position <? 4)%nat then mret (reg rs position)
  else
    let address := u32 (reg rs 13 + 4 * Z.of_nat (position - 4)) in
    word ← guest_ptr address 4 kPageRead;
    match word with
    | None => fatal
    | Some p => bs ← load p 4; mret (le bs)
    end.

(** [JniCall::env]. *)
Definition env : svc Z := st ← get_own; if tenv (me st) =? 0 then abort else mret (tenv (me st)).

Definition resolve (handle : Z) : svc Z :=
  if handle =? 0 then mret 0
  else
    st ← get_own;
    r ← lift_svc (let kind := Z.land handle 3 in
                  if kind =? kind_bits Local then LocalHandles_get (locals (me st)) handle
                  else if kind =? kind_bits Global then GlobalHandles_get (globals st) handle
                  else if kind =? kind_bits WeakGlobal then GlobalHandles_get (weaks st) handle
                  else Ret None);
    match r with None => fatal | Some r => mret r end.

Definition ref (rs : list Z) (position : nat) : svc Z := h ← arg rs position; resolve h.
Definition sint (rs : list Z) (position : nat) : svc Z := v ← arg rs position; mret (s32 v).

Definition local (r : Z) : svc Z :=
  st ← get_own;
  '(h, t) ← lift_svc (LocalHandles_add (locals (me st)) r);
  _ ← set_thread (fun m => set_locals m t);
  mret h.

(** [shorties.resize(guest)] when it is shorter, then the assignment. *)
Definition intern_method (id : Z) (sh : list ascii) : svc Z :=
  st ← get_own;
  let '(g, t) := IdTable_intern (methods st) id in
  _ ← modify_own (fun j => set_methods j t);
  if g =? 0 then mret 0
  else
    l ← lift_svc (vec_set (if Z.of_nat (length (shorties st)) <? g then resize (Z.to_nat g) [] (shorties st) else shorties st) (Z.to_nat (g - 1)) sh);
    _ ← modify_own (fun j => set_shorties j l);
    mret g.

Definition method_shorty (id : Z) : svc (option (list ascii)) :=
  st ← get_own;
  mret (if id =? 0 then None else match shorties st !! Z.to_nat (id - 1) with Some [] | None => None | Some s => Some s end).

Definition id_of (table : Jni -> IdTable) (id : Z) : svc Z :=
  st ← get_own;
  h ← lift_svc (IdTable_get (table st) id);
  match h with Some h => if id =? 0 then fatal else mret h | None => fatal end.
Definition method_id : Z -> svc Z := id_of methods.
Definition field_id : Z -> svc Z := id_of fields.

(** [kMaxGuestString] is 16384 pages. *)
Definition read_string (address : Z) : svc (list Z) :=
  s ← string_loop (Z.to_nat 16385) kMaxGuestString address [];
  match s with Some s => mret s | None => fatal end.

Definition checked (address size_ need : Z) : svc Z :=
  p ← guest_ptr address size_ need;
  match p with
  | Some p => if kGuestSpaceSize <? address + size_ then fatal else mret p
  | None => fatal
  end.
Definition readable_ (address size_ : Z) : svc Z := checked address size_ kPageRead.
Definition writable_ (address size_ : Z) : svc Z := checked address size_ kPageWrite.

Definition write_shorty (address : Z) (sh : list ascii) : svc unit :=
  if ZB_JNI_SHORTY_SIZE <? size (bytes_of sh) + 1 then fatal
  else p ← writable_ address (size (bytes_of sh) + 1); store p (bytes_of sh ++ [0]).

(** [invoke]: on the guest thread this host thread runs, or on its carrier. *)
Definition invoke (function : Z) (args : list Z) : svc (option GuestResult) :=
  st ← get_own;
  if in_guest st then call_guest guest function args
  else
    ok ← (if carrier (me st) then mret true
          else a ← backend host "borrow" []; if ret a =? 0 then mret false else _ ← set_thread (fun m => set_carrier m true); mret true);
    if negb ok then mret None
    else
      _ ← modify_own (fun j => set_in_guest j true);
      r ← call_guest guest function args;
      _ ← modify_own (fun j => set_in_guest j false);
      mret r.

Definition ensure_guest_env : svc bool :=
  st ← get_own;
  if negb (guest_env (me st) =? 0) then mret true
  else
    r ← invoke (new_env_fn (api st)) [0; 0; 0; 0];
    match r with
    | Some r => if res_r0 r =? 0 then mret false else _ ← set_thread (fun m => set_guest_env m (res_r0 r)); mret true
    | None => mret false
    end.
End JniAccess.
