(* ===== verification/JniCalls.v ===== *)
(** * The JNI host calls

    [core/src/jni/host_jni_vm.cpp], [host_jni_objects.cpp], [host_jni_values.cpp],
    [host_jni_data.cpp], the registration of natives in [host_jni_natives.cpp], and the
    host-call switch of [host_jni.cpp].  A call gets the registers of the guest thread and
    answers r0 and r1, which the switch clears first.  A backend call that may run Java
    code is [java]: Java may call natives, and they run guest code.

    A [JValue] is its eight bytes.  What the bridge copies between host memory of a Java
    buffer and guest memory is a call of the log ([memcpy_from], [memcpy_to]). *)

From stdpp Require Import numbers list gmap strings.
From Stdlib Require Import Ascii.
From S2P Require Import Prelude Handles JniNames Bytes GuestMemory InitialStack GuestThread Kernel Syscalls Service JniState.
Local Open Scope Z_scope.

Definition ZB_JNI_HC_Register : Z := 0xfc00.
Definition ZB_JNI_HC_FindClass : Z := 0xfc01.
Definition ZB_JNI_HC_GetSuperclass : Z := 0xfc02.
Definition ZB_JNI_HC_IsAssignableFrom : Z := 0xfc03.
Definition ZB_JNI_HC_GetMethodID : Z := 0xfc04.
Definition ZB_JNI_HC_GetFieldID : Z := 0xfc05.
Definition ZB_JNI_HC_GetMethodShorty : Z := 0xfc06.
Definition ZB_JNI_HC_FromReflectedMethod : Z := 0xfc07.
Definition ZB_JNI_HC_FromReflectedField : Z := 0xfc08.
Definition ZB_JNI_HC_ToReflectedMethod : Z := 0xfc09.
Definition ZB_JNI_HC_ToReflectedField : Z := 0xfc0a.
Definition ZB_JNI_HC_AllocObject : Z := 0xfc0b.
Definition ZB_JNI_HC_GetObjectClass : Z := 0xfc0c.
Definition ZB_JNI_HC_IsInstanceOf : Z := 0xfc0d.
Definition ZB_JNI_HC_IsSameObject : Z := 0xfc0e.
Definition ZB_JNI_HC_GetObjectRefType : Z := 0xfc0f.
Definition ZB_JNI_HC_CallMethodA : Z := 0xfc10.
Definition ZB_JNI_HC_GetField : Z := 0xfc11.
Definition ZB_JNI_HC_SetField : Z := 0xfc12.
Definition ZB_JNI_HC_NewString : Z := 0xfc13.
Definition ZB_JNI_HC_NewStringUTF : Z := 0xfc14.
Definition ZB_JNI_HC_GetStringLength : Z := 0xfc15.
Definition ZB_JNI_HC_GetStringUTFLength : Z := 0xfc16.
Definition ZB_JNI_HC_GetStringRegion : Z := 0xfc17.
Definition ZB_JNI_HC_GetStringUTFRegion : Z := 0xfc18.
Definition ZB_JNI_HC_GetArrayLength : Z := 0xfc19.
Definition ZB_JNI_HC_GetArrayElementType : Z := 0xfc1a.
Definition ZB_JNI_HC_NewObjectArray : Z := 0xfc1b.
Definition ZB_JNI_HC_GetObjectArrayElement : Z := 0xfc1c.
Definition ZB_JNI_HC_SetObjectArrayElement : Z := 0xfc1d.
Definition ZB_JNI_HC_NewPrimitiveArray : Z := 0xfc1e.
Definition ZB_JNI_HC_GetPrimitiveArrayRegion : Z := 0xfc1f.
Definition ZB_JNI_HC_SetPrimitiveArrayRegion : Z := 0xfc20.
Definition ZB_JNI_HC_NewGlobalRef : Z := 0xfc21.
Definition ZB_JNI_HC_DeleteGlobalRef : Z := 0xfc22.
Definition ZB_JNI_HC_NewWeakGlobalRef : Z := 0xfc23.
Definition ZB_JNI_HC_DeleteWeakGlobalRef : Z := 0xfc24.
Definition ZB_JNI_HC_NewLocalRef : Z := 0xfc25.
Definition ZB_JNI_HC_DeleteLocalRef : Z := 0xfc26.
Definition ZB_JNI_HC_EnsureLocalCapacity : Z := 0xfc27.
Definition ZB_JNI_HC_PushLocalFrame : Z := 0xfc28.
Definition ZB_JNI_HC_PopLocalFrame : Z := 0xfc29.
Definition ZB_JNI_HC_Throw : Z := 0xfc2a.
Definition ZB_JNI_HC_ThrowNew : Z := 0xfc2b.
Definition ZB_JNI_HC_ExceptionOccurred : Z := 0xfc2c.
Definition ZB_JNI_HC_ExceptionDescribe : Z := 0xfc2d.
Definition ZB_JNI_HC_ExceptionClear : Z := 0xfc2e.
Definition ZB_JNI_HC_ExceptionCheck : Z := 0xfc2f.
Definition ZB_JNI_HC_FatalError : Z := 0xfc30.
Definition ZB_JNI_HC_MonitorEnter : Z := 0xfc31.
Definition ZB_JNI_HC_MonitorExit : Z := 0xfc32.
Definition ZB_JNI_HC_RegisterNatives : Z := 0xfc33.
Definition ZB_JNI_HC_UnregisterNatives : Z := 0xfc34.
Definition ZB_JNI_HC_NewDirectByteBuffer : Z := 0xfc35.
Definition ZB_JNI_HC_GetDirectBufferAddress : Z := 0xfc36.
Definition ZB_JNI_HC_GetDirectBufferCapacity : Z := 0xfc37.
Definition ZB_JNI_HC_GetEnv : Z := 0xfc38.
Definition ZB_JNI_HC_AttachCurrentThread : Z := 0xfc39.
Definition ZB_JNI_HC_DetachCurrentThread : Z := 0xfc3a.
Definition ZB_JNI_SLOT_STUB_FIRST : Z := 0xFB00.
Definition ZB_JNI_HOST_CALL_LAST : Z := 0xFCFF.
Definition ZB_JNI_CALL_NEW_OBJECT : Z := 3.

Definition kJniErr : Z := u32 (-1).
Definition kJniEVersion : Z := u32 (-3).

(** ** Values *)

Definition letter (c : ascii) (s : string) : bool := bool_decide ([c] = String.list_ascii_of_string s).

Definition element_size (type : ascii) : Z :=
  if letter type "Z" || letter type "B" then 1
  else if letter type "C" || letter type "S" then 2
  else if letter type "I" || letter type "F" then 4
  else if letter type "J" || letter type "D" then 8
  else 0.

(** The bytes of the union after its member of that type was set. *)
Definition value_from_bits (type : ascii) (bits : Z) : Z :=
  if letter type "Z" || letter type "B" then u8 bits
  else if letter type "C" || letter type "S" then u16 bits
  else if letter type "I" || letter type "F" then u32 bits
  else u64 bits.

(** The member of that type as a 64-bit result. *)
Definition bits_from_value (type : ascii) (value : Z) : Z :=
  if letter type "Z" || letter type "B" then u8 value
  else if letter type "C" || letter type "S" then u16 value
  else if letter type "I" || letter type "F" then u32 value
  else if letter type "J" || letter type "D" then u64 value
  else 0.

Definition is_value_type (type : ascii) : bool := negb (element_size type =? 0) || letter type "L".

(** [static_cast<char>]. *)
Definition char_of (v : Z) : ascii := Ascii.ascii_of_N (Z.to_N (u8 v)).

Section JniCalls.
Context (host : list hostcall -> hostcall -> answer) (guest : Z -> list Z -> Sv Jni -> option GuestResult * Sv Jni).
(** What natives that Java code calls during a backend call leave behind. *)
Context (natives : hostcall -> Sv Jni -> Sv Jni).
(** [service_api().malloc_fn]; where guest memory and the thunks lie in host memory. *)
Context (malloc_fn base_address thunk_base : Z).

#[local] Notation svc := (svc Jni).
#[local] Notation backend := (backend host).
#[local] Notation invoke := (invoke host guest).
#[local] Notation ensure_guest_env := (ensure_guest_env host guest).

Definition reenter (c : hostcall) : svc unit := fun s => Ret (tt, natives c s).

(** A backend call that may run Java code. *)
Definition java (name : string) (args : list harg) : svc answer :=
  a ← backend name args; _ ← reenter {| h_name := name; h_args := args |}; mret a.

(** What [call.set] and [call.set64] leave in r0 and r1. *)
Definition set (v : Z) : svc (Z * Z) := mret (v, 0).
Definition set64 (v : Z) : svc (Z * Z) := mret (u32 v, u32 (Z.shiftr (u64 v) 32)).
Definition nothing : svc (Z * Z) := mret (0, 0).
Definition truth (a : answer) : Z := if ret a =? 0 then 0 else 1.

(** A backend call whose result is a reference, handed over as a local handle. *)
Definition local_of (name : string) (args : list harg) : svc (Z * Z) := a ← java name args; h ← local (ret a); set h.

(** ** Objects *)

Definition hc_FindClass (rs : list Z) : svc (Z * Z) :=
  e ← env; addr ← arg rs 0; class_name ← read_string addr; local_of "find_class" [HInt e; HPath class_name].

Definition hc_GetSuperclass (rs : list Z) : svc (Z * Z) := e ← env; c ← ref rs 0; local_of "get_superclass" [HInt e; HInt c].
Definition hc_IsAssignableFrom (rs : list Z) : svc (Z * Z) := e ← env; a ← ref rs 0; b ← ref rs 1; r ← java "is_assignable_from" [HInt e; HInt a; HInt b]; set (truth r).

(** The end of GetMethodID and FromReflectedMethod. *)
Definition hand_method (id : Z) (signature : list Z) (position : nat) (rs : list Z) : svc (Z * Z) :=
  if id =? 0 then nothing
  else
    match Shorty.shorty_from_signature (chars signature) with
    | None => fatal
    | Some sh => out ← arg rs position; _ ← write_shorty out sh; g ← intern_method id sh; set g
    end.

Definition hc_GetMethodID (rs : list Z) : svc (Z * Z) :=
  e ← env; cls ← ref rs 0; a1 ← arg rs 1; method ← read_string a1; a2 ← arg rs 2; signature ← read_string a2; is_static ← arg rs 3;
  id ← java "get_method_id" [HInt e; HInt cls; HPath method; HPath signature; HInt (Z.b2z (negb (is_static =? 0)))];
  hand_method (ret id) signature 4 rs.

Definition hc_GetFieldID (rs : list Z) : svc (Z * Z) :=
  e ← env; cls ← ref rs 0; a1 ← arg rs 1; field ← read_string a1; a2 ← arg rs 2; signature ← read_string a2; is_static ← arg rs 3;
  id ← java "get_field_id" [HInt e; HInt cls; HPath field; HPath signature; HInt (Z.b2z (negb (is_static =? 0)))];
  st ← get_own;
  let '(g, t) := IdTable_intern (fields st) (ret id) in
  _ ← modify_own (fun j => set_fields j t); set g.

Definition hc_GetMethodShorty (rs : list Z) : svc (Z * Z) :=
  _ ← env; id ← arg rs 0; sh ← method_shorty id;
  match sh with None => fatal | Some sh => out ← arg rs 1; _ ← write_shorty out sh; set 1 end.

Definition hc_FromReflectedMethod (rs : list Z) : svc (Z * Z) :=
  e ← env; m ← ref rs 0; id ← java "from_reflected_method" [HInt e; HInt m]; hand_method (ret id) (map u8 (outs id)) 1 rs.

Definition hc_FromReflectedField (rs : list Z) : svc (Z * Z) :=
  e ← env; f ← ref rs 0; id ← java "from_reflected_field" [HInt e; HInt f];
  st ← get_own;
  let '(g, t) := IdTable_intern (fields st) (ret id) in
  _ ← modify_own (fun j => set_fields j t); set g.

Definition hc_ToReflectedMethod (rs : list Z) : svc (Z * Z) :=
  e ← env; g ← arg rs 1; id ← method_id g; cls ← ref rs 0; s ← arg rs 2; local_of "to_reflected_method" [HInt e; HInt cls; HInt id; HInt (Z.b2z (negb (s =? 0)))].
Definition hc_ToReflectedField (rs : list Z) : svc (Z * Z) :=
  e ← env; g ← arg rs 1; id ← field_id g; cls ← ref rs 0; s ← arg rs 2; local_of "to_reflected_field" [HInt e; HInt cls; HInt id; HInt (Z.b2z (negb (s =? 0)))].

Definition hc_AllocObject (rs : list Z) : svc (Z * Z) := e ← env; c ← ref rs 0; local_of "alloc_object" [HInt e; HInt c].
Definition hc_GetObjectClass (rs : list Z) : svc (Z * Z) := e ← env; o ← ref rs 0; local_of "get_object_class" [HInt e; HInt o].
Definition hc_IsInstanceOf (rs : list Z) : svc (Z * Z) := e ← env; a ← ref rs 0; b ← ref rs 1; r ← java "is_instance_of" [HInt e; HInt a; HInt b]; set (truth r).
Definition hc_IsSameObject (rs : list Z) : svc (Z * Z) := e ← env; a ← ref rs 0; b ← ref rs 1; r ← java "is_same_object" [HInt e; HInt a; HInt b]; set (truth r).

Definition hc_GetObjectRefType (rs : list Z) : svc (Z * Z) :=
  handle ← arg rs 0;
  let kind := Z.land handle 3 in
  st ← get_own;
  r ← lift_svc (if kind =? 1 then LocalHandles_get (locals (me st)) handle else if kind =? 2 then GlobalHandles_get (globals st) handle
                else if kind =? 3 then GlobalHandles_get (weaks st) handle else Ret None);
  set (if negb (handle =? 0) && bool_decide (is_Some r) then kind else 0).

Definition hc_NewGlobalRef (rs : list Z) : svc (Z * Z) :=
  e ← env; obj ← ref rs 0;
  if obj =? 0 then set 0
  else a ← java "new_global_ref" [HInt e; HInt obj]; st ← get_own; '(h, t) ← lift_svc (GlobalHandles_add (globals st) (ret a)); _ ← modify_own (fun j => set_globals j t); set h.

Definition hc_DeleteGlobalRef (rs : list Z) : svc (Z * Z) :=
  e ← env; handle ← arg rs 0;
  if handle =? 0 then nothing
  else
    st ← get_own; '(removed, t) ← lift_svc (GlobalHandles_remove (globals st) handle); _ ← modify_own (fun j => set_globals j t);
    match removed with None => fatal | Some r => _ ← java "delete_global_ref" [HInt e; HInt r]; nothing end.

Definition hc_NewWeakGlobalRef (rs : list Z) : svc (Z * Z) :=
  e ← env; obj ← ref rs 0;
  if obj =? 0 then set 0
  else a ← java "new_weak_global_ref" [HInt e; HInt obj]; st ← get_own; '(h, t) ← lift_svc (GlobalHandles_add (weaks st) (ret a)); _ ← modify_own (fun j => set_weaks j t); set h.

Definition hc_DeleteWeakGlobalRef (rs : list Z) : svc (Z * Z) :=
  e ← env; handle ← arg rs 0;
  if handle =? 0 then nothing
  else
    st ← get_own; '(removed, t) ← lift_svc (GlobalHandles_remove (weaks st) handle); _ ← modify_own (fun j => set_weaks j t);
    match removed with None => fatal | Some r => _ ← java "delete_weak_global_ref" [HInt e; HInt r]; nothing end.

Definition hc_NewLocalRef (rs : list Z) : svc (Z * Z) :=
  e ← env; obj ← ref rs 0; if obj =? 0 then set 0 else local_of "new_local_ref" [HInt e; HInt obj].

Definition hc_DeleteLocalRef (rs : list Z) : svc (Z * Z) :=
  e ← env; handle ← arg rs 0;
  if handle =? 0 then nothing
  else
    st ← get_own; '(removed, t) ← lift_svc (LocalHandles_remove (locals (me st)) handle); _ ← set_thread (fun m => set_locals m t);
    match removed with None => fatal | Some r => _ ← java "delete_local_ref" [HInt e; HInt r]; nothing end.

Definition hc_EnsureLocalCapacity (rs : list Z) : svc (Z * Z) := e ← env; n ← sint rs 0; r ← java "ensure_local_capacity" [HInt e; HInt n]; set (u32 (ret r)).

Definition hc_PushLocalFrame (rs : list Z) : svc (Z * Z) :=
  e ← env; n ← sint rs 0; rc ← java "push_local_frame" [HInt e; HInt n];
  _ ← (if s32 (ret rc) =? 0 then set_thread (fun m => set_user_frames (set_locals m (LocalHandles_push_frame (locals m))) (user_frames m + 1)) else mret tt);
  set (u32 (ret rc)).

Definition hc_PopLocalFrame (rs : list Z) : svc (Z * Z) :=
  e ← env; st ← get_own;
  if user_frames (me st) =? 0 then fatal
  else
    result ← ref rs 0;
    st ← get_own;
    '(_, t) ← lift_svc (LocalHandles_pop_frame (locals (me st)));
    _ ← set_thread (fun m => set_user_frames (set_locals m t) (user_frames m - 1));
    local_of "pop_local_frame" [HInt e; HInt result].

Definition hc_MonitorEnter (rs : list Z) : svc (Z * Z) := e ← env; o ← ref rs 0; r ← java "monitor_enter" [HInt e; HInt o]; set (u32 (ret r)).
Definition hc_MonitorExit (rs : list Z) : svc (Z * Z) := e ← env; o ← ref rs 0; r ← java "monitor_exit" [HInt e; HInt o]; set (u32 (ret r)).
Definition hc_Throw (rs : list Z) : svc (Z * Z) := e ← env; o ← ref rs 0; r ← java "throw_exception" [HInt e; HInt o]; set (u32 (ret r)).

Definition hc_ThrowNew (rs : list Z) : svc (Z * Z) :=
  e ← env; cls ← ref rs 0; m ← arg rs 1;
  if m =? 0 then r ← java "throw_new" [HInt e; HInt cls]; set (u32 (ret r))
  else message ← read_string m; r ← java "throw_new" [HInt e; HInt cls; HPath message]; set (u32 (ret r)).

Definition hc_ExceptionOccurred (rs : list Z) : svc (Z * Z) := e ← env; local_of "exception_occurred" [HInt e].
Definition hc_ExceptionDescribe (rs : list Z) : svc (Z * Z) := e ← env; _ ← java "exception_describe" [HInt e]; nothing.
Definition hc_ExceptionClear (rs : list Z) : svc (Z * Z) := e ← env; _ ← java "exception_clear" [HInt e]; nothing.
Definition hc_ExceptionCheck (rs : list Z) : svc (Z * Z) := e ← env; r ← java "exception_check" [HInt e]; set (truth r).
Definition hc_FatalError (rs : list Z) : svc (Z * Z) := e ← env; a ← arg rs 0; _ ← read_string a; abort.

(** ** Method calls and fields *)

(** The arguments of a call: one 8-byte value per letter.  [values] is an array of
    [ZB_JNI_SHORTY_SIZE] entries. *)
Fixpoint read_values (letters : list ascii) (i : nat) (raw : list Z) (values : list Z) : svc (list Z) :=
  match letters with
  | [] => mret values
  | c :: rest =>
      let bits := le (take 8 raw) in
      v ← (if letter c "L" then r ← resolve (u32 bits); mret (value_from_bits c r) else mret (value_from_bits c bits));
      values ← lift_svc (vec_set values i v);
      read_values rest (S i) (drop 8 raw) values
  end.

Definition hc_CallMethodA (rs : list Z) : svc (Z * Z) :=
  e ← env; kind ← arg rs 0; t ← arg rs 1; method ← arg rs 4;
  let type := char_of t in
  if (ZB_JNI_CALL_NEW_OBJECT <? kind) || (negb (is_value_type type) && negb (letter type "V")) then fatal
  else
    id ← method_id method; sh ← method_shorty method;
    match sh with
    | None => fatal
    | Some sh =>
        s0 ← lift_svc (vec_at sh 0);
        if negb (if kind =? ZB_JNI_CALL_NEW_OBJECT then letter s0 "V" && letter type "L" else bool_decide (s0 = type)) then fatal
        else
          obj ← ref rs 2; cls ← ref rs 3;
          let count := length (drop 1 sh) in
          let values := repeat 0 (Z.to_nat ZB_JNI_SHORTY_SIZE) in
          values ← (if (count =? 0)%nat then mret values
                    else a ← arg rs 5; raw ← readable_ a (8 * Z.of_nat count); bs ← load raw (8 * count); read_values (drop 1 sh) 0 bs values);
          r ← java "call_method" (HInt e :: HInt kind :: HInt (u8 t) :: HInt obj :: HInt cls :: HInt id :: map HInt values);
          if letter type "L" then h ← local (u64 (ret r)); set h
          else if letter type "V" then nothing
          else set64 (bits_from_value type (ret r))
    end.

Definition hc_GetField (rs : list Z) : svc (Z * Z) :=
  e ← env; t ← arg rs 1;
  let type := char_of t in
  if negb (is_value_type type) then fatal
  else
    obj ← ref rs 2; g ← arg rs 3; id ← field_id g; s ← arg rs 0;
    r ← java "get_field" [HInt e; HInt (Z.b2z (negb (s =? 0))); HInt (u8 t); HInt obj; HInt id];
    if letter type "L" then h ← local (u64 (ret r)); set h else set64 (bits_from_value type (ret r)).

Definition hc_SetField (rs : list Z) : svc (Z * Z) :=
  e ← env; t ← arg rs 1;
  let type := char_of t in
  if negb (is_value_type type) then fatal
  else
    obj ← ref rs 2; g ← arg rs 3; id ← field_id g;
    bits ← (if letter type "L" then ref rs 4 else low ← arg rs 4; high ← arg rs 5; mret (Z.lor low (Z.shiftl high 32)));
    s ← arg rs 0;
    _ ← java "set_field" [HInt e; HInt (Z.b2z (negb (s =? 0))); HInt (u8 t); HInt obj; HInt id; HInt (value_from_bits type bits)]; nothing.

(** ** Strings and arrays *)

(** A guest buffer for the backend, a null pointer when nothing is to be copied. *)
Definition buffer (need bytes : Z) (rs : list Z) (position : nat) : svc harg :=
  if bytes =? 0 then mret (HInt 0) else a ← arg rs position; p ← checked a bytes need; mret (HGuest p bytes need).

Definition hc_NewString (rs : list Z) : svc (Z * Z) :=
  e ← env; length ← sint rs 1; b ← buffer kPageRead (2 * (length `max` 0)) rs 0; local_of "new_string" [HInt e; b; HInt length].

Definition hc_NewStringUTF (rs : list Z) : svc (Z * Z) :=
  e ← env; a ← arg rs 0; if a =? 0 then nothing else utf ← read_string a; local_of "new_string_utf" [HInt e; HPath utf].

Definition hc_GetStringLength (rs : list Z) : svc (Z * Z) := e ← env; s ← ref rs 0; r ← java "get_string_length" [HInt e; HInt s]; set (u32 (ret r)).
Definition hc_GetStringUTFLength (rs : list Z) : svc (Z * Z) := e ← env; s ← ref rs 0; r ← java "get_string_utf_length" [HInt e; HInt s]; set (u32 (ret r)).

Definition hc_GetStringRegion (rs : list Z) : svc (Z * Z) :=
  e ← env; str ← ref rs 0; length ← sint rs 2; b ← buffer kPageWrite (2 * (length `max` 0)) rs 3; start ← sint rs 1;
  _ ← java "get_string_region" [HInt e; HInt str; HInt start; HInt length; b]; nothing.

Definition hc_GetStringUTFRegion (rs : list Z) : svc (Z * Z) :=
  e ← env; str ← ref rs 0; start ← sint rs 1; length ← sint rs 2;
  r ← java "get_string_utf_region" [HInt e; HInt str; HInt start; HInt length];
  let utf := map u8 (outs r) in
  if (ret r =? 0) || (size utf =? 0) then nothing
  else a ← arg rs 3; p ← writable_ a (size utf); _ ← store p utf; nothing.

Definition hc_GetArrayLength (rs : list Z) : svc (Z * Z) := e ← env; a ← ref rs 0; r ← java "get_array_length" [HInt e; HInt a]; set (u32 (ret r)).
Definition hc_GetArrayElementType (rs : list Z) : svc (Z * Z) := e ← env; a ← ref rs 0; r ← java "get_array_element_type" [HInt e; HInt a]; set (u8 (ret r)).
Definition hc_NewObjectArray (rs : list Z) : svc (Z * Z) := e ← env; n ← sint rs 0; c ← ref rs 1; i ← ref rs 2; local_of "new_object_array" [HInt e; HInt n; HInt c; HInt i].
Definition hc_GetObjectArrayElement (rs : list Z) : svc (Z * Z) := e ← env; a ← ref rs 0; i ← sint rs 1; local_of "get_object_array_element" [HInt e; HInt a; HInt i].
Definition hc_SetObjectArrayElement (rs : list Z) : svc (Z * Z) :=
  e ← env; a ← ref rs 0; i ← sint rs 1; v ← ref rs 2; _ ← java "set_object_array_element" [HInt e; HInt a; HInt i; HInt v]; nothing.

Definition hc_NewPrimitiveArray (rs : list Z) : svc (Z * Z) :=
  e ← env; t ← arg rs 0;
  if element_size (char_of t) =? 0 then fatal else n ← sint rs 1; local_of "new_primitive_array" [HInt e; HInt (u8 t); HInt n].

Definition primitive_array_region (name : string) (need : Z) (rs : list Z) : svc (Z * Z) :=
  e ← env; t ← arg rs 0;
  let size := element_size (char_of t) in
  if size =? 0 then fatal
  else
    array ← ref rs 1; length ← sint rs 3;
    b ← buffer need (if 0 <? length then length * size else 0) rs 4; start ← sint rs 2;
    _ ← java name [HInt e; HInt (u8 t); HInt array; HInt start; HInt length; b]; nothing.
Definition hc_GetPrimitiveArrayRegion : list Z -> svc (Z * Z) := primitive_array_region "get_primitive_array_region" kPageWrite.
Definition hc_SetPrimitiveArrayRegion : list Z -> svc (Z * Z) := primitive_array_region "set_primitive_array_region" kPageRead.

(** ** Direct buffers *)

Definition hc_NewDirectByteBuffer (rs : list Z) : svc (Z * Z) :=
  e ← env; address ← arg rs 0; low ← arg rs 1; high ← arg rs 2;
  let capacity := s64 (Z.lor low (Z.shiftl high 32)) in
  if (capacity <? 0) || (INT32_MAX <? capacity) then fatal
  else if address =? 0 then local_of "new_direct_byte_buffer" [HInt e; HInt 0; HInt capacity]
  else
    p ← guest_ptr address (if capacity =? 0 then 1 else capacity) (Z.lor kPageRead kPageWrite);
    match p with
    | None => fatal
    | Some p => local_of "new_direct_byte_buffer" [HInt e; HInt (base_address + p); HInt capacity]
    end.

(** The guest's block for a buffer that is not mirrored yet; 0 on failure. *)
Definition mirror_block (size : Z) : svc Z :=
  r ← call_guest guest malloc_fn [u32 size; 0; 0; 0];
  match r with
  | Some r => if res_r0 r =? 0 then _ ← modify_own (fun j => set_mirror_failures j (u32 (mirror_failures j + 1))); mret 0 else mret (res_r0 r)
  | None => _ ← modify_own (fun j => set_mirror_failures j (u32 (mirror_failures j + 1))); mret 0
  end.

Definition mirror_direct_buffer (e buffer_ address capacity : Z) : svc Z :=
  if (address =? 0) || (capacity <=? 0) then mret 0
  else if kMirrorCapBytes <? capacity then mret 0
  else
    st ← get_own;
    let known := match mirrors st !! address with Some m => mguest m | None => 0 end in
    if (known =? 0) && (kMirrorCapBytes <? u64 (mirrored_bytes st + capacity)) then _ ← modify_own (fun j => set_mirror_failures j (u32 (mirror_failures j + 1))); mret 0
    else
      block ← (if known =? 0 then mirror_block capacity else mret known);
      if block =? 0 then mret 0
      else
        st ← get_own;
        found ← match mirrors st !! address with
                | Some m => mret m
                | None =>
                    g ← backend "new_global_ref" [HInt e; HInt buffer_];
                    let m := {| mguest := block; msize := capacity; mglobal := ret g |} in
                    _ ← modify_own (fun j => set_mirrored_bytes (set_mirrors j (<[address := m]> (mirrors j))) (u64 (mirrored_bytes j + capacity)));
                    mret m
                end;
        _ ← backend "memcpy_from" [HInt address; HGuest (mguest found) (capacity `min` msize found) kPageWrite];
        mret (mguest found).

(** The part of GetDirectBufferAddress that answers; the rest reports it. *)
Definition hc_GetDirectBufferAddress (rs : list Z) : svc (Z * Z) :=
  e ← env; buffer_ ← ref rs 0; a ← backend "get_direct_buffer_address" [HInt e; HInt buffer_];
  let address := ret a in
  if negb (address =? 0) && (base_address <=? address) && (address - base_address <? kGuestSpaceSize) then
    c ← backend "get_direct_buffer_capacity" [HInt e; HInt buffer_];
    let capacity := s64 (ret c) in
    p ← guest_ptr (u32 (address - base_address)) (if capacity =? 0 then 1 else capacity) (Z.lor kPageRead kPageWrite);
    if (capacity <? 0) || negb (bool_decide (is_Some p)) then fatal else set (u32 (address - base_address))
  else if address =? 0 then set 0
  else
    c ← backend "get_direct_buffer_capacity" [HInt e; HInt buffer_];
    answer ← mirror_direct_buffer e buffer_ address (s64 (ret c));
    set answer.

Definition hc_GetDirectBufferCapacity (rs : list Z) : svc (Z * Z) := e ← env; b ← ref rs 0; r ← java "get_direct_buffer_capacity" [HInt e; HInt b]; set64 (ret r).

(** One mirror of [flush_buffer_mirrors]: written back, or dropped when the Java buffer
    changed. *)
Definition flush_mirror (e address : Z) (m : BufferMirror) : svc unit :=
  a ← (if mglobal m =? 0 then mret 0 else a ← backend "get_direct_buffer_address" [HInt e; HInt (mglobal m)]; mret (ret a));
  capacity ← (if a =? 0 then mret 0 else c ← backend "get_direct_buffer_capacity" [HInt e; HInt (mglobal m)]; mret (s64 (ret c)));
  if negb (a =? address) || (capacity <? 0) || (capacity <? msize m) then
    _ ← (if mglobal m =? 0 then mret tt else _ ← backend "delete_global_ref" [HInt e; HInt (mglobal m)]; mret tt);
    modify_own (fun j => set_mirrors (set_mirrored_bytes j (u64 (mirrored_bytes j - msize m))) (delete address (mirrors j)))
  else _ ← backend "memcpy_to" [HInt a; HGuest (mguest m) (msize m) kPageRead]; mret tt.

Fixpoint flush_list (e : Z) (l : list (Z * BufferMirror)) : svc unit :=
  match l with [] => mret tt | (address, m) :: rest => _ ← flush_mirror e address m; flush_list e rest end.

(** The mirrors are visited in the order of the table. *)
Definition flush_buffer_mirrors (e : Z) : svc unit := st ← get_own; flush_list e (map_to_list (mirrors st)).

(** ** Natives *)

Definition strip_fast (signature : list Z) : list Z := match signature with 33 :: rest => rest | _ => signature end.

Definition register_native (e cls : Z) (name signature : list Z) (guest_fn : Z) (static : bool) : svc Z :=
  let descriptor := strip_fast signature in
  match Shorty.shorty_from_signature (chars descriptor) with
  | None =>
      error ← java "find_class" [HInt e; HPath (msg "java/lang/NoSuchMethodError")];
      _ ← (if ret error =? 0 then mret tt else _ ← java "throw_new" [HInt e; HInt (ret error); HPath (name ++ signature)]; mret tt);
      mret (-1)
  | Some sh =>
      st ← get_own;
      '(slot, t) ← lift_svc (slots_allocate (slots st) {| guest_function := guest_fn; shorty := sh; is_static := static |});
      _ ← modify_own (fun j => set_slots j t);
      if slot <? 0 then mret (-1)
      else
        rc ← backend "register_native" [HInt e; HInt cls; HPath name; HPath descriptor; HInt (native_thunk_address thunk_base (u32 slot))];
        let rc := s32 (ret rc) in
        if rc =? 0 then mret rc
        else st ← get_own; t ← lift_svc (slots_release (slots st) (u32 slot)); _ ← modify_own (fun j => set_slots j t); mret rc
  end.

(** [table] is checked once; each entry is 12 bytes. *)
Fixpoint register_all (e cls : Z) (count : nat) (table : Z) : svc (Z * Z) :=
  match count with
  | O => set 0
  | S count =>
      bs ← load table 12;
      name ← read_string (le (take 4 bs));
      signature ← read_string (le (take 4 (drop 4 bs)));
      rc ← register_native e cls name signature (le (drop 8 bs)) false;
      if rc =? 0 then register_all e cls count (table + 12) else set kJniErr
  end.

Definition hc_RegisterNatives (rs : list Z) : svc (Z * Z) :=
  e ← env; cls ← ref rs 0; count ← sint rs 2;
  if count <? 0 then set kJniErr
  else
    table ← (if count =? 0 then mret 0 else a ← arg rs 1; readable_ a (12 * count));
    register_all e cls (Z.to_nat count) table.

Definition hc_UnregisterNatives (rs : list Z) : svc (Z * Z) := e ← env; c ← ref rs 0; r ← java "unregister_natives" [HInt e; HInt c]; set (u32 (ret r)).

(** ** The Java VM *)

Definition hc_GetEnv (rs : list Z) : svc (Z * Z) := st ← get_own; set (if tenv (me st) =? 0 then 0 else guest_env (me st)).

Definition attach_version (v : Z) : bool := (v =? 0x00010002) || (v =? 0x00010004) || (v =? 0x00010006).

(** The name and group an attach asks for; [None] when the version is unknown. *)
Definition attach_args (address : Z) : svc (option (list harg * Z)) :=
  if address =? 0 then mret (Some ([], 0))
  else
    p ← readable_ address 12; bs ← load p 12;
    if negb (attach_version (s32 (le (take 4 bs)))) then mret None
    else
      let name := le (take 4 (drop 4 bs)) in
      text ← (if name =? 0 then mret [] else read_string name);
      group ← resolve (le (drop 8 bs));
      mret (Some ([HPath text], group)).

Definition hc_AttachCurrentThread (rs : list Z) : svc (Z * Z) :=
  out ← arg rs 0; p ← writable_ out 4; _ ← store p [0; 0; 0; 0];
  st ← get_own;
  (** what the guest is told when the attach failed *)
  status ← (if negb (tenv (me st) =? 0) then mret (inl false : bool + Z)
            else
              a ← arg rs 1; args ← attach_args a;
              match args with
              | None => mret (inr kJniEVersion)
              | Some (name, group) =>
                  d ← arg rs 2;
                  r ← java "attach_current_thread" (HInt (Z.b2z (negb (d =? 0))) :: HInt group :: name);
                  if ret r =? 0 then mret (inr kJniErr) else _ ← set_thread (fun m => set_attached (set_tenv m (ret r)) true); mret (inl true)
              end);
  match (status : bool + Z) with
  | inr error => set error
  | inl just_attached =>
      ok ← ensure_guest_env;
      if negb ok then
        _ ← (if just_attached then _ ← backend "detach_current_thread" []; set_thread (fun m => set_attached (set_tenv m 0) false) else mret tt);
        set kJniErr
      else st ← get_own; p ← writable_ out 4; _ ← store p (to_le 4 (guest_env (me st))); set 0
  end.

Definition hc_DetachCurrentThread (rs : list Z) : svc (Z * Z) :=
  st ← get_own;
  if negb (attached (me st)) || negb (native_depth (me st) =? 0) then set kJniErr
  else
    r ← java "detach_current_thread" [];
    let rc := s32 (ret r) in
    if negb (rc =? 0) then set (u32 rc)
    else
      _ ← set_thread (fun m => set_user_frames (set_locals m LocalHandles_init) 0);
      st ← get_own;
      _ ← (if guest_env (me st) =? 0 then mret tt else _ ← invoke (free_env_fn (api st)) [guest_env (me st); 0; 0; 0]; mret tt);
      _ ← set_thread (fun m => set_attached (set_tenv (set_guest_env m 0) 0) false);
      set (u32 rc).

(** ** The switch *)

Definition hc_Register (rs : list Z) : svc (list Z) :=
  p ← guest_ptr (reg rs 0) 20 kPageRead;
  match p with
  | None => mret (set0 rs 0)
  | Some p =>
      bs ← load p 20;
      let a := {| japi_size := le (take 4 bs); japi_version := le (take 4 (drop 4 bs)); new_env_fn := le (take 4 (drop 8 bs)); free_env_fn := le (take 4 (drop 12 bs)); java_vm := le (drop 16 bs) |} in
      let valid := (japi_size a =? 20) && (japi_version a =? ZB_JNI_PROTOCOL_VERSION) && negb (new_env_fn a =? 0) && negb (free_env_fn a =? 0) && negb (java_vm a =? 0) in
      _ ← modify_own (fun j => if valid && negb (ready j) then set_ready (set_api j a) true else j);
      mret (set0 rs (Z.b2z valid))
  end.

Definition served : list (Z * (list Z -> svc (Z * Z))) :=
  [ (ZB_JNI_HC_GetEnv, hc_GetEnv); (ZB_JNI_HC_AttachCurrentThread, hc_AttachCurrentThread); (ZB_JNI_HC_DetachCurrentThread, hc_DetachCurrentThread);
    (ZB_JNI_HC_FindClass, hc_FindClass); (ZB_JNI_HC_GetSuperclass, hc_GetSuperclass); (ZB_JNI_HC_IsAssignableFrom, hc_IsAssignableFrom);
    (ZB_JNI_HC_GetMethodID, hc_GetMethodID); (ZB_JNI_HC_GetFieldID, hc_GetFieldID); (ZB_JNI_HC_GetMethodShorty, hc_GetMethodShorty);
    (ZB_JNI_HC_FromReflectedMethod, hc_FromReflectedMethod); (ZB_JNI_HC_FromReflectedField, hc_FromReflectedField);
    (ZB_JNI_HC_ToReflectedMethod, hc_ToReflectedMethod); (ZB_JNI_HC_ToReflectedField, hc_ToReflectedField);
    (ZB_JNI_HC_AllocObject, hc_AllocObject); (ZB_JNI_HC_GetObjectClass, hc_GetObjectClass); (ZB_JNI_HC_IsInstanceOf, hc_IsInstanceOf);
    (ZB_JNI_HC_IsSameObject, hc_IsSameObject); (ZB_JNI_HC_GetObjectRefType, hc_GetObjectRefType);
    (ZB_JNI_HC_NewGlobalRef, hc_NewGlobalRef); (ZB_JNI_HC_DeleteGlobalRef, hc_DeleteGlobalRef);
    (ZB_JNI_HC_NewWeakGlobalRef, hc_NewWeakGlobalRef); (ZB_JNI_HC_DeleteWeakGlobalRef, hc_DeleteWeakGlobalRef);
    (ZB_JNI_HC_NewLocalRef, hc_NewLocalRef); (ZB_JNI_HC_DeleteLocalRef, hc_DeleteLocalRef); (ZB_JNI_HC_EnsureLocalCapacity, hc_EnsureLocalCapacity);
    (ZB_JNI_HC_PushLocalFrame, hc_PushLocalFrame); (ZB_JNI_HC_PopLocalFrame, hc_PopLocalFrame);
    (ZB_JNI_HC_MonitorEnter, hc_MonitorEnter); (ZB_JNI_HC_MonitorExit, hc_MonitorExit);
    (ZB_JNI_HC_Throw, hc_Throw); (ZB_JNI_HC_ThrowNew, hc_ThrowNew); (ZB_JNI_HC_ExceptionOccurred, hc_ExceptionOccurred);
    (ZB_JNI_HC_ExceptionDescribe, hc_ExceptionDescribe); (ZB_JNI_HC_ExceptionClear, hc_ExceptionClear); (ZB_JNI_HC_ExceptionCheck, hc_ExceptionCheck);
    (ZB_JNI_HC_FatalError, hc_FatalError);
    (ZB_JNI_HC_CallMethodA, hc_CallMethodA); (ZB_JNI_HC_GetField, hc_GetField); (ZB_JNI_HC_SetField, hc_SetField);
    (ZB_JNI_HC_NewString, hc_NewString); (ZB_JNI_HC_NewStringUTF, hc_NewStringUTF); (ZB_JNI_HC_GetStringLength, hc_GetStringLength);
    (ZB_JNI_HC_GetStringUTFLength, hc_GetStringUTFLength); (ZB_JNI_HC_GetStringRegion, hc_GetStringRegion); (ZB_JNI_HC_GetStringUTFRegion, hc_GetStringUTFRegion);
    (ZB_JNI_HC_GetArrayLength, hc_GetArrayLength); (ZB_JNI_HC_GetArrayElementType, hc_GetArrayElementType);
    (ZB_JNI_HC_NewObjectArray, hc_NewObjectArray); (ZB_JNI_HC_GetObjectArrayElement, hc_GetObjectArrayElement); (ZB_JNI_HC_SetObjectArrayElement, hc_SetObjectArrayElement);
    (ZB_JNI_HC_NewPrimitiveArray, hc_NewPrimitiveArray); (ZB_JNI_HC_GetPrimitiveArrayRegion, hc_GetPrimitiveArrayRegion); (ZB_JNI_HC_SetPrimitiveArrayRegion, hc_SetPrimitiveArrayRegion);
    (ZB_JNI_HC_NewDirectByteBuffer, hc_NewDirectByteBuffer); (ZB_JNI_HC_GetDirectBufferAddress, hc_GetDirectBufferAddress); (ZB_JNI_HC_GetDirectBufferCapacity, hc_GetDirectBufferCapacity);
    (ZB_JNI_HC_RegisterNatives, hc_RegisterNatives); (ZB_JNI_HC_UnregisterNatives, hc_UnregisterNatives) ].

Definition jni_handle_host_call (index : Z) (rs : list Z) : svc (option (list Z)) :=
  if (index <? ZB_JNI_SLOT_STUB_FIRST) || (ZB_JNI_HOST_CALL_LAST <? index) then mret None
  else if index =? ZB_JNI_HC_Register then rs ← hc_Register rs; mret (Some rs)
  else
    st ← get_own;
    if negb (ready st) then abort
    else
      match list_find (fun c => fst c = index) served with
      | Some (_, (_, h)) => '(v, w) ← h rs; mret (Some (set01 rs v w))
      | None => abort
      end.
End JniCalls.
