(* ===== verification/JniSound.v ===== *)
(** * The JNI bridge keeps its promises

    Whatever the guest passes to a JNI host call, the call stays inside guest memory and
    leaves the bridge in a state that the next call can rely on.  Guest code and Java code
    that run inside a call come back into the bridge; what they may do is the relation
    [keeps], and every call and every native method is shown to respect the same relation,
    so the promise holds at any depth of nesting. *)

From stdpp Require Import numbers list gmap strings.
From Stdlib Require Import Ascii.
From S2P Require Import Prelude Handles JniNames Bytes GuestMemory InitialStack GuestThread Kernel Syscalls Messages Service JniState JniCalls.
Local Open Scope Z_scope.

(** ** Invariant *)

(** The guest ids of a table: every host id is one of [known]. *)
Definition ids_in (known : gset Z) (t : IdTable) : Prop := id_wf t /\ Forall (fun x => x ∈ known) (ids_ t).

Definition shorty_ok (sh : list ascii) : Prop := 1 <= Z.of_nat (length sh) <= 256.

(** The frames below the guest's own [PushLocalFrame] frames. *)
Definition base_frames (t : JniThread) : list nat := drop (Z.to_nat (user_frames t)) (frame_starts_ (locals t)).

Record thread_wf (t : JniThread) : Prop := {
  tw_locals : local_wf (locals t);
  tw_user : 0 <= user_frames t <= Z.of_nat (LocalHandles_frame_count (locals t));
  tw_depth : 0 <= native_depth t;
  tw_native : 0 < native_depth t -> tenv t <> 0 /\ base_frames t <> [];
  tw_env : 0 <= guest_env t < 2 ^ 32;
}.

(** The shorty of a bound native comes from a signature. *)
Definition accepted (t : NativeTarget) : Prop := exists sig, Shorty.shorty_from_signature sig = Some (shorty t).

(** Released slots are the ones that are not ready, each once. *)
Record slots_wf (s : NativeSlots) : Prop := {
  sw_len : length (sready_ s) = length (targets_ s);
  sw_cap : Z.of_nat (length (targets_ s)) <= capacity_ s <= kNativeThunkCount;
  sw_released : forall i, i ∈ released_ s <-> sready_ s !! i = Some false;
  sw_nodup : NoDup (released_ s);
  sw_shorty : Forall accepted (targets_ s);
}.

Definition mirror_ok (m : BufferMirror) : Prop := 0 < mguest m < 2 ^ 32 /\ 0 < msize m <= kMirrorCapBytes.

(** What the mirrors of a table hold. *)
Definition mirror_bytes (ms : gmap Z BufferMirror) : Z := map_fold (fun _ m n => msize m + n) 0 ms.

Record jni_inv (known : gset Z) (j : Jni) : Prop := {
  ji_me : thread_wf (me j);
  ji_globals : global_wf (globals j);
  ji_weaks : global_wf (weaks j);
  ji_methods : ids_in known (methods j);
  ji_fields : ids_in known (fields j);
  ji_shorties : length (shorties j) = length (ids_ (methods j));
  ji_shorty : Forall shorty_ok (shorties j);
  ji_slots : slots_wf (slots j);
  ji_mirrors : map_Forall (fun _ => mirror_ok) (mirrors j);
  ji_bytes : mirrored_bytes j = u64 (mirror_bytes (mirrors j));
}.

(** Mirror blocks are memory of the guest. *)
Definition mirrors_mapped (s : Sv Jni) : Prop :=
  map_Forall (fun _ m => accessible (smem s) (mguest m) (msize m) (Z.lor kPageRead kPageWrite) = true) (mirrors (own s)).

Definition safe_state (known : gset Z) (s : Sv Jni) : Prop := jni_inv known (own s) /\ mem_wf (smem s) /\ mirrors_mapped s.

(** What a call may not change: inside a native method, its environment and its frame; ids
    that were handed out; bound thunk slots; a registered API. *)
Record keeps (j j' : Jni) : Prop := {
  k_depth : native_depth (me j') = native_depth (me j);
  k_frame : 0 < native_depth (me j) -> tenv (me j') = tenv (me j) /\ base_frames (me j') = base_frames (me j);
  k_ready : ready j = true -> ready j' = true /\ api j' = api j;
  k_methods : ids_ (methods j) `prefix_of` ids_ (methods j');
  k_fields : ids_ (fields j) `prefix_of` ids_ (fields j');
  k_slots : forall i t, slots_target (slots j) i = Some t -> slots_target (slots j') i = Some t;
}.

#[export] Instance keeps_preorder : PreOrder keeps.
Proof.
  split; [by split|]. intros a b c H1 H2. split.
  - by rewrite (k_depth _ _ H2), (k_depth _ _ H1).
  - intros H. destruct (k_frame _ _ H1 H) as [E1 E2]. rewrite <- (k_depth _ _ H1) in H. destruct (k_frame _ _ H2 H) as [E3 E4]. by rewrite E3, E4.
  - intros H. destruct (k_ready _ _ H1 H) as [E1 E2]. destruct (k_ready _ _ H2 E1) as [E3 E4]. by rewrite E4.
  - etrans; [apply H1|apply H2].
  - etrans; [apply H1|apply H2].
  - intros i t H. by apply H2, H1.
Qed.

(** A state reached from [s0] by code that keeps the promise. *)
Definition from (known : gset Z) (s0 s : Sv Jni) : Prop := safe_state known s /\ keeps (own s0) (own s).

Definition word (v : Z) : Prop := 0 <= v < 2 ^ 32.

(** What the bridge relies on.  The backend answers with ids of the classes loaded. *)
Definition ids_known (known : gset Z) (host : list hostcall -> hostcall -> answer) : Prop :=
  Z.of_nat (stdpp.base.size known) < 2 ^ 32 - 1 /\
  forall log c, h_name c ∈ ["get_method_id"; "get_field_id"; "from_reflected_method"; "from_reflected_field"] -> ret (host log c) = 0 \/ ret (host log c) ∈ known.

(** What guest code may do to the bridge: it comes back with the tables consistent and with
    what a call may not change as it was. *)
Definition disciplined (known : gset Z) (s s' : Sv Jni) : Prop := jni_inv known (own s') /\ mem_wf (smem s') /\ keeps (own s) (own s').

(** What the bridge relies on in guest code, each part on its own: the calls it makes into
    the bridge are the bridge's, and it answers with words; it does not unmap or protect the
    blocks of buffer mirrors, which the bridge copies to and from without a check
    ([host_jni_data.cpp], [JniNative.mirror_copy_unchecked]); and its malloc answers with
    memory it can use, which the bridge does not check either. *)
Record guest_keeps (known : gset Z) (malloc_fn : Z) (guest : Z -> list Z -> Sv Jni -> option GuestResult * Sv Jni) : Prop := {
  gk_disciplined : forall f args s, safe_state known s -> disciplined known s (guest f args s).2;
  gk_words : forall f args s r, safe_state known s -> (guest f args s).1 = Some r -> word (res_r0 r) /\ word (res_r1 r);
  gk_mirrors : forall f args s, safe_state known s -> mirrors_mapped (guest f args s).2;
  gk_malloc : forall args s r, safe_state known s -> (guest malloc_fn args s).1 = Some r -> res_r0 r <> 0 -> accessible (smem (guest malloc_fn args s).2) (res_r0 r) (nth 0 args 0) (Z.lor kPageRead kPageWrite) = true;
}.

(** The same of the natives that run inside a call of Java. *)
Record natives_keep (known : gset Z) (natives : hostcall -> Sv Jni -> Sv Jni) : Prop := {
  nk_disciplined : forall c s, safe_state known s -> disciplined known s (natives c s);
  nk_mirrors : forall c s, safe_state known s -> mirrors_mapped (natives c s);
}.

Lemma disciplined_from known s s' : disciplined known s s' -> mirrors_mapped s' -> from known s s'.
Proof. intros (Hi & Hm & Hk) Hmap. by split. Qed.
Lemma from_disciplined known s s' : from known s s' -> disciplined known s s' /\ mirrors_mapped s'.
Proof. by intros [(Hi & Hm & Hmap) Hk]. Qed.

(** ** Ids *)

Lemma ids_small known t : Z.of_nat (stdpp.base.size known) < 2 ^ 32 - 1 -> ids_in known t -> Z.of_nat (length (ids_ t)) + 1 < 2 ^ 32.
Proof.
  intros Hk [Hwf Hin]. assert (NoDup (ids_ t)) as Hnd.
  { apply NoDup_alt. intros i k x Hi Hk'. pose proof (lookup_lt_Some _ _ _ Hi). pose proof (lookup_lt_Some _ _ _ Hk').
    assert (index_ t !! x = Some (Z.of_nat i + 1)) as E1 by (apply (iwf_index _ Hwf); split; [lia|]; by replace (Z.to_nat (Z.of_nat i + 1 - 1)) with i by lia).
    assert (index_ t !! x = Some (Z.of_nat k + 1)) as E2 by (apply (iwf_index _ Hwf); split; [lia|]; by replace (Z.to_nat (Z.of_nat k + 1 - 1)) with k by lia). simplify_eq. lia. }
  assert (stdpp.base.size (list_to_set (ids_ t) : gset Z) <= stdpp.base.size known)%nat.
  { apply subseteq_size. intros x Hx%elem_of_list_to_set. rewrite Forall_forall in Hin. by apply Hin. }
  rewrite size_list_to_set in H by done. lia.
Qed.

Lemma intern_in known t x :
  Z.of_nat (stdpp.base.size known) < 2 ^ 32 - 1 -> ids_in known t -> x = 0 \/ x ∈ known ->
  ids_in known (IdTable_intern t x).2 /\ word (IdTable_intern t x).1 /\ ids_ t `prefix_of` ids_ (IdTable_intern t x).2 /\
  (x <> 0 -> 1 <= (IdTable_intern t x).1 <= Z.of_nat (length (ids_ (IdTable_intern t x).2)) /\ ids_ (IdTable_intern t x).2 !! Z.to_nat ((IdTable_intern t x).1 - 1) = Some x).
Proof.
  intros Hk Ht Hx. pose proof (ids_small known t Hk Ht) as Hs. destruct Ht as [Hwf Hin]. pose proof (id_intern_wf t x Hwf Hs) as Hwf'.
  assert (Forall (fun x => x ∈ known) (ids_ (IdTable_intern t x).2) /\ ids_ t `prefix_of` ids_ (IdTable_intern t x).2) as [Hf Hp].
  { unfold IdTable_intern. destruct (Z.eqb_spec x 0) as [->|Hn]; [done|]. destruct (index_ t !! x); [done|]. cbn. split; [|by apply prefix_app_r]. apply Forall_app. split; [done|]. apply Forall_singleton. tauto. }
  assert (x <> 0 -> 1 <= (IdTable_intern t x).1 <= Z.of_nat (length (ids_ (IdTable_intern t x).2)) /\ ids_ (IdTable_intern t x).2 !! Z.to_nat ((IdTable_intern t x).1 - 1) = Some x) as Hnz.
  { intros Hn. destruct (id_intern_index t x Hn) as [E _]. by apply (iwf_index _ Hwf') in E. }
  split; [by split|]. split; [|done]. destruct (decide (x = 0)) as [->|Hn]; [done|]. pose proof (iwf_len _ Hwf'). destruct (Hnz Hn). unfold word. lia.
Qed.

(** ** Steps *)

Section Sound.
Context (known : gset Z) (host : list hostcall -> hostcall -> answer) (guest : Z -> list Z -> Sv Jni -> option GuestResult * Sv Jni) (natives : hostcall -> Sv Jni -> Sv Jni).
Context (malloc_fn base_address thunk_base : Z).
Context (Hhost : kernel_ok host) (Hids : ids_known known host) (Hguest : guest_keeps known malloc_fn guest) (Hnatives : natives_keep known natives).

#[local] Notation from := (from known).

Lemma from_refl s : safe_state known s -> from s s.
Proof. by split. Qed.

Lemma from_trans s0 s s' : from s0 s -> from s s' -> from s0 s'.
Proof. intros [_ H1] [H2 H3]. split; [done|]. by trans (own s). Qed.

(** Writing to the guest's pages and logging calls keep everything. *)
Lemma from_memory s0 s m cs : from s0 s -> only_writable (smem s) m -> mem_wf m -> from s0 (Build_Sv (own s) m cs).
Proof.
  intros [(Hi & Hm & Hmap) Hk] How Hm'. split; [|done]. split; [done|]. split; [done|]. intros a x Hx. cbn [smem]. rewrite (accessible_same (smem s)); [by apply (Hmap a x)|apply How].
Qed.

(** A change of the object that keeps the promise. *)
Lemma from_own s0 s j : from s0 s -> jni_inv known j -> keeps (own s) j -> mirrors j = mirrors (own s) -> from s0 (Build_Sv j (smem s) (scalls s)).
Proof. intros [(Hi & Hm & Hmap) Hk] Hi' Hk' E. split; [|by trans (own s)]. split; [done|]. split; [done|]. unfold mirrors_mapped in *. cbn. by rewrite E. Qed.

Lemma from_wf s0 s : from s0 s -> mem_wf (smem s).
Proof. by intros [(_ & ? & _) _]. Qed.
Lemma from_inv s0 s : from s0 s -> jni_inv known (own s).
Proof. by intros [(? & _) _]. Qed.
#[local] Hint Resolve from_wf from_inv : jni.

(** Rules for the accessors: a continuation gets what the accessor promises. *)

Lemma wp_fatal {A} s (Q : A -> Sv Jni -> Prop) : wp True fatal s Q.
Proof. by apply wp_abort. Qed.

Lemma wp_env s Q : (tenv (me (own s)) <> 0 -> Q (tenv (me (own s))) s) -> wp True env s Q.
Proof. intros HQ. apply wp_bind, wp_get_own. destruct (Z.eqb_spec (tenv (me (own s))) 0); [by apply wp_abort|]. by apply wp_ret, HQ. Qed.

Lemma wp_arg rs i s0 s Q : words rs -> from s0 s -> (forall v, word v -> Q v s) -> wp True (arg rs i) s Q.
Proof.
  intros Hw Hs HQ. unfold arg. destruct (i <? 4)%nat; [by apply wp_ret, HQ, reg_word|]. apply wp_bind, wp_ptr; intros Ea; [|apply wp_fatal].
  apply wp_bind, (wp_load _ _ _ kPageRead); [by eapply from_wf|apply u32_range|lia|done|done|]. apply wp_ret, HQ, le_word_ok; [apply length_bytes_at|apply bytes_at_ok].
Qed.

Lemma wp_resolve h s0 s Q : from s0 s -> 0 <= h -> (forall r, Q r s) -> wp True (resolve h) s Q.
Proof.
  intros Hs Hh HQ. pose proof (from_inv _ _ Hs) as Hi. unfold resolve. destruct (h =? 0); [by apply wp_ret|]. apply wp_bind, wp_get_own, wp_bind, wp_lift. cbv zeta.
  assert (forall r, wp True (match r with None => fatal | Some r => mret r end) s Q) as Hend by (intros [r|]; [by apply wp_ret, HQ|apply wp_fatal]).
  destruct (_ =? _); [|destruct (_ =? _); [|destruct (_ =? _); [|apply (Hend None)]]].
  - destruct (local_get_total _ h (tw_locals _ (ji_me _ _ Hi))) as (o & ->). apply (Hend o).
  - apply runs_get; [apply Hi|done|apply (Hend None)|intros; apply (Hend (Some _))..].
  - apply runs_get; [apply Hi|done|apply (Hend None)|intros; apply (Hend (Some _))..].
Qed.

Lemma wp_ref rs i s0 s Q : words rs -> from s0 s -> (forall r, Q r s) -> wp True (ref rs i) s Q.
Proof. intros Hw Hs HQ. eapply wp_bind, wp_arg; [done..|]. intros v Hv. eapply wp_resolve; [done|apply Hv|done]. Qed.

Lemma wp_sint rs i s0 s Q : words rs -> from s0 s -> (forall v, - 2 ^ 31 <= v < 2 ^ 31 -> Q v s) -> wp True (sint rs i) s Q.
Proof. intros Hw Hs HQ. eapply wp_bind, wp_arg; [done..|]. intros v _. apply wp_ret, HQ, (swrap_range 32). lia. Qed.

(** ** Changes of the thread and of the tables *)

Lemma from_thread s0 s t :
  from s0 s -> thread_wf t -> native_depth t = native_depth (me (own s)) ->
  (0 < native_depth (me (own s)) -> tenv t = tenv (me (own s)) /\ base_frames t = base_frames (me (own s))) ->
  from s0 (Build_Sv (set_me (own s) t) (smem s) (scalls s)).
Proof. intros Hs Ht Hd Hf. apply from_own; [done| | |done]; [destruct (from_inv _ _ Hs); by split|]. by split. Qed.

Lemma wp_thread f s0 s Q :
  from s0 s -> thread_wf (f (me (own s))) -> native_depth (f (me (own s))) = native_depth (me (own s)) ->
  (0 < native_depth (me (own s)) -> tenv (f (me (own s))) = tenv (me (own s)) /\ base_frames (f (me (own s))) = base_frames (me (own s))) ->
  (forall s', from s0 s' -> me (own s') = f (me (own s)) -> api (own s') = api (own s) -> Q tt s') -> wp True (set_thread f) s Q.
Proof. intros Hs Ht Hd Hf HQ. apply wp_bind, wp_get_own, wp_put_own, HQ; [by apply from_thread|done..]. Qed.

Lemma add_frames t r h t' :
  LocalHandles_add t r = Ret (h, t') -> t' = t \/ frame_starts_ t' = match frame_starts_ t with [] => frame_starts_ (LocalHandles_push_frame t) | l => l end.
Proof.
  unfold LocalHandles_add. destruct (r =? 0); [intros [= _ <-]; by left|]. case_decide; [done|]. intros E. right.
  destruct (frame_starts_ t) eqn:Ef; destruct (serials_ _ !! _); cbn in E; destruct (vec_set _ _ _); cbn in E; try done; injection E as _ <-; cbn; by rewrite ?Ef.
Qed.

Lemma runs_local t r (Q : Z * LocalHandles -> Prop) :
  thread_wf t -> (forall h l, word h -> thread_wf (set_locals t l) -> (0 < native_depth t -> base_frames (set_locals t l) = base_frames t) -> Q (h, l)) -> runs True (LocalHandles_add (locals t) r) Q.
Proof.
  intros Ht HQ. destruct (local_add_total (locals t) r (tw_locals _ Ht)) as [(h & l & E)|[-> _]]; [|done]. rewrite E. apply HQ.
  - destruct (decide (r = 0)) as [->|Hr]; [by injection E as <- <-|]. destruct (local_add_ok _ _ _ _ (tw_locals _ Ht) Hr E) as (_ & ? & _). unfold word. lia.
  - pose proof (add_frames _ _ _ _ E) as Hf. assert (local_wf l) by (destruct (decide (r = 0)) as [->|Hr]; [injection E as <- <-; apply Ht|apply (local_add_ok _ _ _ _ (tw_locals _ Ht) Hr E)]).
    destruct Ht as [H1 H2 H3 H4 H5]. unfold base_frames, LocalHandles_frame_count in *. split; unfold base_frames, LocalHandles_frame_count; cbn; try done.
    + destruct Hf as [-> | Ef]; [done|]. rewrite Ef. destruct (frame_starts_ (locals t)); cbn in *; lia.
    + intros Hd. destruct (H4 Hd) as [Hv Hb]. split; [done|]. destruct Hf as [-> | Ef]; [done|]. rewrite Ef. by destruct (frame_starts_ (locals t)); [rewrite drop_nil in Hb|].
  - intros Hd. destruct (tw_native _ Ht Hd) as [_ Hb]. destruct (add_frames _ _ _ _ E) as [->|Ef]; [done|]. unfold base_frames in *. cbn. rewrite Ef. by destruct (frame_starts_ (locals t)); [rewrite drop_nil in Hb|].
Qed.

Lemma wp_local r s0 s Q : from s0 s -> (forall h s', word h -> from s0 s' -> Q h s') -> wp True (local r) s Q.
Proof.
  intros Hs HQ. apply wp_bind, wp_get_own, wp_bind, wp_lift, runs_local; [apply (from_inv _ _ Hs)|]. intros h l Hh Hl Hb.
  eapply wp_bind, wp_thread; [done|done|done| |]; [intros Hd; by split; [|apply Hb]|]. intros s' Hs' _ _. by apply wp_ret, HQ.
Qed.

(** ** Calls that leave the bridge *)

Lemma wp_call name args s0 s Q :
  from s0 s -> Forall (arg_ok (smem s)) args -> (forall a s', from s0 s' -> own s' = own s -> pages_ (smem s') = pages_ (smem s) -> a = host (scalls s) {| h_name := name; h_args := args |} -> Q a s') -> wp True (backend host name args) s Q.
Proof. intros Hs Ha HQ. apply (wp_backend host Hhost); [by eapply from_wf|done|]. intros m How Hm. apply HQ; [by apply from_memory|done|apply How|done]. Qed.

Lemma wp_java name args s0 s Q : from s0 s -> Forall (arg_ok (smem s)) args -> (forall a s', from s0 s' -> (exists log, a = host log {| h_name := name; h_args := args |}) -> Q a s') -> wp True (java host natives name args) s Q.
Proof.
  intros Hs Ha HQ. eapply wp_bind, wp_call; [done..|]. intros a s' Hs' _ _ Ea. apply wp_bind. change (wp True (mret a) (natives {| h_name := name; h_args := args |} s') Q). apply wp_ret, HQ; [|by eauto].
  eapply from_trans; [done|]. apply disciplined_from; [apply (nk_disciplined _ _ Hnatives)|apply (nk_mirrors _ _ Hnatives)]; apply Hs'.
Qed.

Lemma wp_run_guest f args s0 s Q :
  from s0 s -> (forall r s', from s0 s' -> match r with Some r => word (res_r0 r) /\ word (res_r1 r) /\ (f = malloc_fn -> res_r0 r <> 0 -> accessible (smem s') (res_r0 r) (nth 0 args 0) (Z.lor kPageRead kPageWrite) = true) | None => True end -> Q r s') ->
  wp True (call_guest guest f args) s Q.
Proof.
  intros Hs HQ. unfold wp, call_guest, runs. set (s1 := Build_Sv _ _ _). assert (safe_state known s1) as H1 by apply Hs. pose proof (disciplined_from _ _ _ (gk_disciplined _ _ _ Hguest f args s1 H1) (gk_mirrors _ _ _ Hguest f args s1 H1)) as Hs'.
  pose proof (gk_words _ _ _ Hguest f args s1) as Hr. pose proof (gk_malloc _ _ _ Hguest args s1) as Hb. destruct (guest f args s1) as [r s'] eqn:E. cbn [fst snd] in *. apply HQ.
  - eapply from_trans; [|done]. destruct Hs. by split.
  - destruct r as [r|]; [|done]. destruct (Hr r H1 eq_refl) as [H2 H3]. split_and!; [done..|]. intros -> Hn. rewrite E in Hb. by apply Hb.
Qed.

(** ** Guest memory *)

Lemma wp_read_string a s0 s Q : from s0 s -> word a -> (forall t, Q t s) -> wp True (read_string a) s Q.
Proof.
  intros Hs Ha HQ. apply wp_bind, wp_string; [by eapply from_wf|done|vm_compute; split; discriminate|]. intros [t|] _; [by apply wp_ret|apply wp_fatal].
Qed.

Lemma wp_checked a n need s0 s Q :
  from s0 s -> word a -> (accessible (smem s) a n need = true -> a + n <= 2 ^ 32 -> Q a s) -> wp True (checked a n need) s Q.
Proof.
  intros Hs Ha HQ. apply wp_bind, wp_ptr; intros Ea; [|apply wp_fatal]. change kGuestSpaceSize with (2 ^ 32). destruct (Z.ltb_spec (2 ^ 32) (a + n)); [apply wp_fatal|]. by apply wp_ret, HQ.
Qed.

(** A checked buffer is read, or written. *)
Lemma wp_read_block a n s0 s Q :
  from s0 s -> word a -> Z.of_nat n < 2 ^ 40 -> accessible (smem s) a (Z.of_nat n) kPageRead = true -> (forall bs, length bs = n -> bytes_ok bs -> Q bs s) -> wp True (load a n) s Q.
Proof. intros Hs Ha Hn Hacc HQ. apply (wp_load _ _ _ kPageRead); [by eapply from_wf|done..|]. apply HQ; [apply length_bytes_at|apply bytes_at_ok]. Qed.

Lemma wp_write_block a bs n s0 s Q :
  from s0 s -> word a -> size bs <= n < 2 ^ 40 -> accessible (smem s) a n kPageWrite = true -> (forall s', from s0 s' -> Q tt s') -> wp True (store a bs) s Q.
Proof.
  intros Hs Ha Hn Hacc HQ. pose proof (size_nonneg bs). apply (wp_store _ _ _ a n kPageWrite); [by eapply from_wf|done|lia|done|done|lia|lia|]. intros m _ How Hm. apply HQ. by apply from_memory.
Qed.

Lemma wp_write_shorty a sh s0 s Q : from s0 s -> word a -> (forall s', from s0 s' -> Z.of_nat (length sh) <= 256 -> Q tt s') -> wp True (write_shorty a sh) s Q.
Proof.
  intros Hs Ha HQ. unfold write_shorty. destruct (Z.ltb_spec ZB_JNI_SHORTY_SIZE (size (bytes_of sh) + 1)) as [|Hn]; [apply wp_fatal|]. unfold ZB_JNI_SHORTY_SIZE in Hn.
  eapply wp_bind, wp_checked; [done..|]. intros Hacc He. eapply wp_write_block; [done|done| |done|]; unfold size in *; rewrite ?length_app; cbn [length]; [lia|].
  intros s' Hs'. apply HQ; [done|]. unfold bytes_of in Hn. rewrite length_map in Hn. lia.
Qed.

(** ** Guest functions *)

Lemma wp_invoke f args s0 s Q :
  from s0 s -> (forall r s', from s0 s' -> match r with Some r => word (res_r0 r) /\ word (res_r1 r) | None => True end -> Q r s') -> wp True (invoke host guest f args) s Q.
Proof.
  intros Hs HQ. apply wp_bind, wp_get_own. destruct (in_guest (own s)).
  { eapply wp_run_guest; [done|]. intros r s' Hs' Hr. apply HQ; [done|]. destruct r; [split; apply Hr|done]. }
  apply wp_bind. eapply (wp_mono _ _ _ (fun _ => from s0)).
  - destruct (carrier (me (own s))); [by apply wp_ret|]. eapply wp_bind, wp_call; [done|by constructor|]. intros a s' Hs' E _ _. destruct (ret a =? 0); [by apply wp_ret|].
    eapply wp_bind, wp_thread; [done| | | |]; [|done|done|]; [|by intros s2 Hs2 _ _; apply wp_ret]. destruct (ji_me _ _ (from_inv _ _ Hs')); by split.
  - intros ok s1 Hs1. destruct ok; cbn [negb]; [|by apply wp_ret, HQ]. apply wp_bind, wp_bind, wp_get_own, wp_put_own, wp_bind. eapply (wp_run_guest _ _ s0).
    { apply from_own; [done|destruct (from_inv _ _ Hs1); by split|by split|done]. }
    intros r s2 Hs2 Hr. apply wp_bind, wp_bind, wp_get_own, wp_put_own, wp_ret, HQ; [|destruct r; [split; apply Hr|done]].
    apply from_own; [done|destruct (from_inv _ _ Hs2); by split|by split|done].
Qed.

Lemma wp_guest_env s0 s Q : from s0 s -> (forall ok s', from s0 s' -> Q ok s') -> wp True (ensure_guest_env host guest) s Q.
Proof.
  intros Hs HQ. apply wp_bind, wp_get_own. destruct (negb _); [by apply wp_ret, HQ|]. eapply wp_bind, wp_invoke; [done|]. intros [r|] s' Hs' Hr; [|by apply wp_ret, HQ]. destruct (res_r0 r =? 0); [by apply wp_ret, HQ|].
  eapply wp_bind, wp_thread; [done| | | |]; [|done|done|by intros; apply wp_ret, HQ]. destruct (ji_me _ _ (from_inv _ _ Hs')). split; try done. apply Hr.
Qed.

(** ** Ids *)

Lemma wp_intern_method id sh s0 s Q :
  from s0 s -> id ∈ known -> id <> 0 -> shorty_ok sh ->
  (forall g s', from s0 s' -> word g -> IdTable_get (methods (own s')) g = Ret (Some id) -> shorties (own s') !! Z.to_nat (g - 1) = Some sh -> g <> 0 -> smem s' = smem s -> Q g s') -> wp True (intern_method id sh) s Q.
Proof.
  intros Hs Hid Hnz Hsh HQ. pose proof (from_inv _ _ Hs) as Hi. apply wp_bind, wp_get_own. destruct (intern_in known (methods (own s)) id (proj1 Hids) (ji_methods _ _ Hi) (or_intror Hid)) as (Ht & Hg & Hp & Hn).
  destruct (Hn Hnz) as [Hr Hl]. assert (IdTable_get (IdTable_intern (methods (own s)) id).2 (IdTable_intern (methods (own s)) id).1 = Ret (Some id)) as Eget.
  { apply id_get_spec; [apply Ht|lia|]. destruct (id_intern_index (methods (own s)) id Hnz) as [E _]. exact E. }
  assert (length (ids_ (IdTable_intern (methods (own s)) id).2) = (length (ids_ (methods (own s))) `max` Z.to_nat (IdTable_intern (methods (own s)) id).1)%nat /\ (IdTable_intern (methods (own s)) id).1 <= Z.of_nat (length (ids_ (methods (own s)))) + 1) as [Elen Enew].
  { revert Hr. unfold IdTable_intern. destruct (id =? 0); [cbn; lia|]. destruct (index_ (methods (own s)) !! id) eqn:Ei; cbn; intros Hr.
    - apply (iwf_index _ (proj1 (ji_methods _ _ Hi))) in Ei. lia.
    - pose proof (ids_small _ _ (proj1 Hids) (ji_methods _ _ Hi)). rewrite u32_small in * by (rewrite length_app; cbn; lia). rewrite length_app in *. cbn in *. lia. }
  destruct (IdTable_intern (methods (own s)) id) as [g t]. cbn [fst snd] in *. apply wp_bind, wp_bind, wp_get_own, wp_put_own. destruct (Z.eqb_spec g 0); [lia|].
  pose proof (ji_shorties _ _ Hi) as Esh. set (l0 := if _ <? _ then _ else _). assert (length l0 = length (ids_ t) /\ forall k x, l0 !! k = Some x -> k <> Z.to_nat (g - 1) -> shorty_ok x) as [El0 Hl0].
  { pose proof (ji_shorty _ _ Hi) as Hok. unfold l0. destruct (Z.ltb_spec (Z.of_nat (length (shorties (own s)))) g).
    - rewrite length_resize. split; [lia|]. intros k x Hx Hk. assert (k < length (resize (Z.to_nat g) [] (shorties (own s))))%nat as Hlt by (by eapply lookup_lt_Some). rewrite length_resize in Hlt.
      rewrite lookup_resize in Hx by lia. rewrite Forall_lookup in Hok. by apply (Hok k).
    - split; [lia|]. intros k x Hx _. rewrite Forall_lookup in Hok. by apply (Hok k). }
  apply wp_bind, wp_lift. rewrite vec_set_lt by lia. apply wp_bind, wp_bind, wp_get_own, wp_put_own, wp_ret. cbn [own smem scalls]. apply HQ; [|done|done| |lia|done].
  - apply from_own; [done| | |done].
    + destruct Hi. split; try done; cbn; [by rewrite length_insert|]. apply Forall_lookup. intros k x Hx. apply list_lookup_insert_Some in Hx as [(<- & <- & _)|[Hk Hx]]; [done|by apply (Hl0 k)].
    + by split.
  - cbn. rewrite list_lookup_insert_eq; [done|lia].
Qed.

Lemma wp_intern_field id s0 s Q :
  from s0 s -> id = 0 \/ id ∈ known -> (forall g s', from s0 s' -> word g -> Q (g, 0) s') ->
  wp True (st ← get_own; let '(g, t) := IdTable_intern (fields st) id in _ ← modify_own (fun j => set_fields j t); set g) s Q.
Proof.
  intros Hs Hid HQ. pose proof (from_inv _ _ Hs) as Hi. apply wp_bind, wp_get_own. destruct (intern_in known (fields (own s)) id (proj1 Hids) (ji_fields _ _ Hi) Hid) as (Ht & Hg & Hp & _).
  destruct (IdTable_intern (fields (own s)) id) as [g t]. cbn [fst snd] in *. apply wp_bind, wp_bind, wp_get_own, wp_put_own, wp_ret, HQ; [|done]. apply from_own; [done|destruct Hi; by split|by split|done].
Qed.

Lemma wp_id_of (table : Jni -> IdTable) id s0 s Q : from s0 s -> ids_in known (table (own s)) -> word id -> (forall h, IdTable_get (table (own s)) id = Ret (Some h) -> Q h s) -> wp True (id_of table id) s Q.
Proof.
  intros Hs Ht Hid HQ. apply wp_bind, wp_get_own, wp_bind, wp_lift. destruct (decide (id = 0)) as [->|Hn]; [exact I|].
  assert (IdTable_get (table (own s)) id = Ret None \/ exists x, IdTable_get (table (own s)) id = Ret (Some x)) as [E|(x & E)]; [|by rewrite E|].
  - unfold IdTable_get. rewrite (proj2 (Z.eqb_neq id 0)) by done. case_decide; [by left|right]. destruct (vec_at_lt (ids_ (table (own s))) (Z.to_nat (id - 1))) as (x & _ & ->); [destruct Hid; lia|by exists x].
  - rewrite E. cbn [runs]. rewrite (proj2 (Z.eqb_neq id 0)) by done. by apply wp_ret, HQ.
Qed.

Lemma wp_method_id id s0 s Q : from s0 s -> word id -> (forall h, IdTable_get (methods (own s)) id = Ret (Some h) -> Q h s) -> wp True (method_id id) s Q.
Proof. intros Hs. eapply wp_id_of; [done|]. apply (from_inv _ _ Hs). Qed.
Lemma wp_field_id id s0 s Q : from s0 s -> word id -> (forall h, Q h s) -> wp True (field_id id) s Q.
Proof. intros Hs Hid HQ. eapply wp_id_of; [done|apply (from_inv _ _ Hs)|done|]. intros. apply HQ. Qed.

Lemma wp_method_shorty id s0 s Q : from s0 s -> (forall sh, shorty_ok sh -> shorties (own s) !! Z.to_nat (id - 1) = Some sh -> Q (Some sh) s) -> Q None s -> wp True (method_shorty id) s Q.
Proof.
  intros Hs HQ HN. apply wp_bind, wp_get_own, wp_ret. destruct (id =? 0); [done|]. destruct (shorties (own s) !! Z.to_nat (id - 1)) as [[|c sh]|] eqn:E; [done| |done]. apply HQ; [|done].
  pose proof (ji_shorty _ _ (from_inv _ _ Hs)) as Hok. rewrite Forall_lookup in Hok. by apply (Hok _ _ E).
Qed.

(** ** The calls *)

Definition post (s0 : Sv Jni) : Z * Z -> Sv Jni -> Prop := fun r s => word r.1 /\ word r.2 /\ from s0 s.

Definition sound (h : list Z -> svc Jni (Z * Z)) : Prop := forall rs s0 s, words rs -> from s0 s -> wp True (h rs) s (post s0).

Lemma wp_set v s0 s : word v -> from s0 s -> wp True (set v) s (post s0).
Proof. intros Hv Hs. by apply wp_ret. Qed.
Lemma wp_set64 v s0 s : from s0 s -> wp True (set64 v) s (post s0).
Proof. intros Hs. apply wp_ret. split; [apply u32_range|split; [apply u32_range|done]]. Qed.
Lemma wp_nothing s0 s : from s0 s -> wp True nothing s (post s0).
Proof. intros Hs. by apply wp_ret. Qed.

Lemma wp_local_of name args s0 s : from s0 s -> Forall (arg_ok (smem s)) args -> wp True (local_of host natives name args) s (post s0).
Proof. intros Hs Ha. eapply wp_bind, wp_java; [done..|]. intros a s' Hs' _. eapply wp_bind, wp_local; [done|]. intros h s2 Hh Hs2. by apply wp_set. Qed.

Lemma word_bit (b : bool) : word (if b then 1 else 0).
Proof. by destruct b. Qed.
Lemma word_truth a : word (truth a).
Proof. unfold truth. by destruct (_ =? 0). Qed.
Lemma word_u32 z : word (u32 z).
Proof. apply u32_range. Qed.
Lemma word_u8 z : word (u8 z).
Proof. pose proof (Z.mod_pos_bound z (2 ^ 8) ltac:(lia)). unfold word, u8. lia. Qed.
#[local] Hint Resolve word_truth word_u32 word_u8 word_bit : jni.

Ltac args_ok := repeat (apply Forall_cons_2; [exact I|]); apply Forall_nil_2.

(** One operation of a call. *)
Ltac jni_step :=
  lazymatch goal with
  | |- wp _ fatal _ _ => apply wp_fatal
  | |- wp _ abort _ _ => by apply wp_abort
  | |- wp _ (set64 _) _ _ => by apply wp_set64
  | |- wp _ (set _) _ _ => apply wp_set; [try by auto with jni|eassumption]
  | |- wp _ nothing _ _ => by apply wp_nothing
  | |- wp _ (local_of _ _ _ _) _ _ => apply wp_local_of; [eassumption|args_ok]
  | |- wp _ (mbind _ ?c) _ _ =>
      lazymatch c with
      | env => apply wp_bind, wp_env; intros ?
      | get_own => apply wp_bind, wp_get_own
      | arg _ _ => eapply wp_bind, wp_arg; [eassumption..|]; intros ? ?
      | ref _ _ => eapply wp_bind, wp_ref; [eassumption..|]; intros ?
      | sint _ _ => eapply wp_bind, wp_sint; [eassumption..|]; intros ? ?
      | read_string _ => eapply wp_bind, wp_read_string; [eassumption..|]; intros ?
      | method_id _ => eapply wp_bind, wp_method_id; [eassumption..|]; intros ? ?
      | field_id _ => eapply wp_bind, wp_field_id; [eassumption..|]; intros ?
      | java _ _ _ _ => eapply wp_bind, wp_java; [eassumption|args_ok|]; intros ? ? ? ?
      | local _ => eapply wp_bind, wp_local; [eassumption|]; intros ? ? ? ?
      end
  | |- wp _ (if ?b then _ else _) _ _ => destruct b eqn:?
  | |- wp _ (let _ := _ in _) _ _ => cbv zeta
  end.
Ltac jni_open := intros rs s0 s Hw Hs; lazymatch goal with |- wp _ ?c _ _ => let c' := eval red in c in change c with c' end.
Ltac jni_call := jni_open; repeat jni_step.

Lemma id_answers name args log : name ∈ ["get_method_id"; "get_field_id"; "from_reflected_method"; "from_reflected_field"] -> ret (host log {| h_name := name; h_args := args |}) = 0 \/ ret (host log {| h_name := name; h_args := args |}) ∈ known.
Proof. intros H. by apply (proj2 Hids). Qed.

Lemma signature_shorty sig sh : Shorty.shorty_from_signature sig = Some sh -> 1 <= Z.of_nat (length sh).
Proof. intros (ps & r & _ & _ & _ & ->)%signature_grammar. cbn. lia. Qed.

Lemma wp_hand_method id sig position rs s0 s : words rs -> from s0 s -> id = 0 \/ id ∈ known -> wp True (hand_method id sig position rs) s (post s0).
Proof.
  intros Hw Hs Hid. unfold hand_method. destruct (Z.eqb_spec id 0) as [|Hn]; [jni_step|]. destruct (Shorty.shorty_from_signature (chars sig)) as [sh|] eqn:E; [|jni_step]. jni_step.
  eapply wp_bind, wp_write_shorty; [done..|]. intros s1 Hs1 Hl. eapply wp_bind, wp_intern_method; [done|by destruct Hid|done|split; [by eapply signature_shorty|lia]|]. intros g s2 Hs2 Hg _ _ _ _. by jni_step.
Qed.

Lemma method_id_sound : sound (hc_GetMethodID host natives).
Proof. jni_open. do 7 jni_step. eapply wp_bind, wp_java; [done|args_ok|]. intros a s1 Hs1 [log ->]. apply wp_hand_method; [done..|]. by apply id_answers; set_solver. Qed.
Lemma reflected_method_sound : sound (hc_FromReflectedMethod host natives).
Proof. jni_open. do 2 jni_step. eapply wp_bind, wp_java; [done|args_ok|]. intros a s1 Hs1 [log ->]. apply wp_hand_method; [done..|]. by apply id_answers; set_solver. Qed.
Lemma field_id_sound : sound (hc_GetFieldID host natives).
Proof. jni_open. do 7 jni_step. eapply wp_bind, wp_java; [done|args_ok|]. intros a s1 Hs1 [log ->]. eapply wp_intern_field; [done|by apply id_answers; set_solver|]. intros g s2 Hs2 Hg. by split. Qed.
Lemma reflected_field_sound : sound (hc_FromReflectedField host natives).
Proof. jni_open. do 2 jni_step. eapply wp_bind, wp_java; [done|args_ok|]. intros a s1 Hs1 [log ->]. eapply wp_intern_field; [done|by apply id_answers; set_solver|]. intros g s2 Hs2 Hg. by split. Qed.

Lemma method_shorty_sound : sound hc_GetMethodShorty.
Proof. jni_open. do 2 jni_step. eapply wp_bind, wp_method_shorty; [done| |jni_step]. intros sh Hsh _. jni_step. eapply wp_bind, wp_write_shorty; [done..|]. intros s1 Hs1 _. by jni_step. Qed.

Lemma ref_type_sound : sound hc_GetObjectRefType.
Proof.
  jni_open. jni_step. cbv zeta. jni_step. pose proof (from_inv _ _ Hs) as Hi. apply wp_bind, wp_lift. assert (word (Z.land v 3)) as Hk by (change 3 with (Z.ones 2); rewrite Z.land_ones by lia; pose proof (Z.mod_pos_bound v (2 ^ 2) ltac:(lia)); unfold word; lia).
  assert (forall r : option Z, wp True (set (if negb (v =? 0) && bool_decide (is_Some r) then Z.land v 3 else 0)) s (post s0)) as Hend by (intros r; apply wp_set; [by destruct (_ && _)|done]).
  destruct (_ =? 1); [|destruct (_ =? 2); [|destruct (_ =? 3); [|apply (Hend None)]]].
  - destruct (local_get_total _ v (tw_locals _ (ji_me _ _ Hi))) as (o & ->). apply (Hend o).
  - apply runs_get; [apply Hi|apply H|apply (Hend None)|intros; apply (Hend (Some _))..].
  - apply runs_get; [apply Hi|apply H|apply (Hend None)|intros; apply (Hend (Some _))..].
Qed.

(** ** References *)

Lemma from_globals s0 s t : from s0 s -> global_wf t -> from s0 (Build_Sv (set_globals (own s) t) (smem s) (scalls s)).
Proof. intros Hs Ht. apply from_own; [done|destruct (from_inv _ _ Hs); by split|by split|done]. Qed.
Lemma from_weaks s0 s t : from s0 s -> global_wf t -> from s0 (Build_Sv (set_weaks (own s) t) (smem s) (scalls s)).
Proof. intros Hs Ht. apply from_own; [done|destruct (from_inv _ _ Hs); by split|by split|done]. Qed.

Lemma runs_add_any t r (Q : Z * GlobalHandles -> Prop) : global_wf t -> (forall h t', global_wf t' -> word h -> Q (h, t')) -> runs True (GlobalHandles_add t r) Q.
Proof.
  intros Ht HQ. destruct (decide (r = 0)) as [->|Hr]; [by apply HQ|]. apply runs_add; [done..|]. intros h t' Ht' Hh _ _ _. apply HQ; [done|]. unfold word. lia.
Qed.

Lemma runs_remove_any t h (Q : option Z * GlobalHandles -> Prop) : global_wf t -> 0 <= h -> (forall o t', global_wf t' -> Q (o, t')) -> runs True (GlobalHandles_remove t h) Q.
Proof. intros Ht Hh HQ. apply runs_remove; [done|done|by apply HQ|by intros; apply HQ|]. intros r t' _ _ _ Ht' _ _ _. by apply HQ. Qed.

Lemma new_global_sound : sound (hc_NewGlobalRef host natives).
Proof.
  jni_open. do 3 jni_step; [by jni_step|]. eapply wp_bind, wp_java; [done|args_ok|]. intros a s1 Hs1 _. jni_step. apply wp_bind, wp_lift, runs_add_any; [apply (from_inv _ _ Hs1)|]. intros h t Ht Hh.
  apply wp_bind, wp_bind, wp_get_own, wp_put_own, wp_set; [done|]. by apply from_globals.
Qed.
Lemma new_weak_sound : sound (hc_NewWeakGlobalRef host natives).
Proof.
  jni_open. do 3 jni_step; [by jni_step|]. eapply wp_bind, wp_java; [done|args_ok|]. intros a s1 Hs1 _. jni_step. apply wp_bind, wp_lift, runs_add_any; [apply (from_inv _ _ Hs1)|]. intros h t Ht Hh.
  apply wp_bind, wp_bind, wp_get_own, wp_put_own, wp_set; [done|]. by apply from_weaks.
Qed.
Lemma delete_global_sound : sound (hc_DeleteGlobalRef host natives).
Proof.
  jni_open. do 3 jni_step; [by jni_step|]. jni_step. apply wp_bind, wp_lift, runs_remove_any; [apply (from_inv _ _ Hs)|by destruct H0|]. intros o t Ht.
  apply wp_bind, wp_bind, wp_get_own, wp_put_own. destruct o as [r|]; [|jni_step]. eapply wp_bind, wp_java; [by apply from_globals|args_ok|]. intros a s1 Hs1 _. by jni_step.
Qed.
Lemma delete_weak_sound : sound (hc_DeleteWeakGlobalRef host natives).
Proof.
  jni_open. do 3 jni_step; [by jni_step|]. jni_step. apply wp_bind, wp_lift, runs_remove_any; [apply (from_inv _ _ Hs)|by destruct H0|]. intros o t Ht.
  apply wp_bind, wp_bind, wp_get_own, wp_put_own. destruct o as [r|]; [|jni_step]. eapply wp_bind, wp_java; [by apply from_weaks|args_ok|]. intros a s1 Hs1 _. by jni_step.
Qed.

(** ** Local references and frames *)

Lemma remove_frames t h o t' : LocalHandles_remove t h = Ret (o, t') -> frame_starts_ t' = frame_starts_ t.
Proof.
  unfold LocalHandles_remove. destruct (h =? 0); [by intros [= _ <-]|]. destruct (LocalHandles_get t h) as [[r|]| |]; cbn; [|by intros [= _ <-]|done..].
  destruct (vec_set _ _ _); cbn; [|done..]. destruct (bump_serial _ _); cbn; [|done..]. by intros [= _ <-].
Qed.

Lemma thread_wf_same t l : thread_wf t -> local_wf l -> frame_starts_ l = frame_starts_ (locals t) -> thread_wf (set_locals t l) /\ base_frames (set_locals t l) = base_frames t.
Proof. intros [H1 H2 H3 H4 H5] Hl E. unfold base_frames, LocalHandles_frame_count in *. split; [split|]; unfold base_frames, LocalHandles_frame_count; cbn; by rewrite ?E. Qed.

Lemma delete_local_sound : sound (hc_DeleteLocalRef host natives).
Proof.
  jni_open. do 3 jni_step; [by jni_step|]. jni_step. pose proof (ji_me _ _ (from_inv _ _ Hs)) as Ht. apply wp_bind, wp_lift.
  assert (exists o l, LocalHandles_remove (locals (me (own s))) v = Ret (o, l) /\ local_wf l) as (o & l & E & Hl).
  { apply Z.eqb_neq in Heqb. destruct (local_get_spec _ v (tw_locals _ Ht) Heqb) as [(r & E & _)|[E _]]; [|exists None, (locals (me (own s))); split; [by apply local_remove_invalid|apply Ht]].
    destruct (local_remove_ok _ v r (tw_locals _ Ht)) as (l & El & Hl & _); [destruct H0; lia|done|by eauto]. }
  rewrite E. destruct (thread_wf_same _ l Ht Hl (remove_frames _ _ _ _ E)) as [Hw' Hb]. eapply wp_bind, wp_thread; [done|done|done|by intros _|]. intros s1 Hs1 _ _.
  destruct o as [r|]; [|jni_step]. by repeat jni_step.
Qed.

Lemma thread_push t : thread_wf t -> thread_wf (set_user_frames (set_locals t (LocalHandles_push_frame (locals t))) (user_frames t + 1)) /\
  base_frames (set_user_frames (set_locals t (LocalHandles_push_frame (locals t))) (user_frames t + 1)) = base_frames t.
Proof.
  intros [H1 H2 H3 H4 H5]. assert (base_frames (set_user_frames (set_locals t (LocalHandles_push_frame (locals t))) (user_frames t + 1)) = base_frames t) as E
    by (unfold base_frames; cbn; by replace (Z.to_nat (user_frames t + 1)) with (S (Z.to_nat (user_frames t))) by lia).
  unfold LocalHandles_frame_count in H2. split; [split|]; rewrite ?E; cbn; unfold LocalHandles_frame_count; cbn; auto using local_push_wf with lia.
Qed.

Lemma thread_pop t : thread_wf t -> user_frames t <> 0 ->
  exists rel l, LocalHandles_pop_frame (locals t) = Ret (rel, l) /\ thread_wf (set_user_frames (set_locals t l) (user_frames t - 1)) /\ base_frames (set_user_frames (set_locals t l) (user_frames t - 1)) = base_frames t.
Proof.
  intros [H1 H2 H3 H4 H5] Hu. unfold LocalHandles_frame_count in H2. destruct (frame_starts_ (locals t)) as [|start rest] eqn:Ef; [cbn in *; lia|].
  destruct (local_pop_ok (locals t) start rest H1 Ef) as (l & E & Hl & El & _). exists (filter (fun r => r <> 0) (drop start (refs_ (locals t)))), l. split; [done|].
  assert (base_frames (set_user_frames (set_locals t l) (user_frames t - 1)) = base_frames t) as Eb by (unfold base_frames; cbn; rewrite El, Ef; by replace (Z.to_nat (user_frames t)) with (S (Z.to_nat (user_frames t - 1))) by lia).
  split; [split|]; rewrite ?Eb; cbn; try done. unfold LocalHandles_frame_count. cbn in H2. rewrite El. lia.
Qed.

Lemma push_frame_sound : sound (hc_PushLocalFrame host natives).
Proof.
  jni_open. do 2 jni_step. eapply wp_bind, wp_java; [done|args_ok|]. intros a s1 Hs1 _. destruct (s32 (ret a) =? 0); [|by apply wp_bind, wp_ret; jni_step].
  destruct (thread_push (me (own s1)) (ji_me _ _ (from_inv _ _ Hs1))) as [Hw' Hb]. eapply wp_bind, wp_thread; [done|done|done|by intros _|]. intros s2 Hs2 _ _. by jni_step.
Qed.

Lemma pop_frame_sound : sound (hc_PopLocalFrame host natives).
Proof.
  jni_open. do 3 jni_step; [jni_step|]. do 2 jni_step. destruct (thread_pop (me (own s)) (ji_me _ _ (from_inv _ _ Hs))) as (rel & l & E & Hw' & Hb); [by apply Z.eqb_neq|].
  apply wp_bind, wp_lift. rewrite E. eapply wp_bind, wp_thread; [done|done|done|by intros _|]. intros s2 Hs2 _ _. by jni_step.
Qed.

(** ** Values *)

Lemma ints_ok m vs : Forall (arg_ok m) (map HInt vs).
Proof. induction vs; by constructor. Qed.

(** The array of a method call is long enough for every shorty the bridge keeps. *)
Lemma wp_read_values letters s0 s : forall i raw values Q,
  from s0 s -> (i + length letters <= length values)%nat -> (forall vs, length vs = length values -> Q vs s) -> wp True (read_values letters i raw values) s Q.
Proof.
  induction letters as [|c letters IH]; intros i raw values Q Hs Hl HQ; cbn [read_values]; [by apply wp_ret, HQ|]. cbn in Hl. cbv zeta. apply wp_bind.
  assert (forall v, wp True (mbind (fun values => read_values letters (S i) (drop 8 raw) values) (lift_svc (vec_set values i v))) s Q) as Hrest.
  { intros v. apply wp_bind, wp_lift. rewrite vec_set_lt by lia. cbn. apply IH; [done|rewrite length_insert; lia|]. intros vs. rewrite length_insert. apply HQ. }
  destruct (letter c "L"); [|by apply wp_ret]. eapply wp_bind, wp_resolve; [done|apply u32_range|]. intros r. by apply wp_ret.
Qed.

Lemma wp_result type r s0 s : from s0 s -> wp True (if letter type "L" then h ← local (u64 (ret r)); set h else set64 (bits_from_value type (ret r))) s (post s0).
Proof. intros Hs. destruct (letter type "L"); by repeat jni_step. Qed.

Lemma wp_call_method type args s0 s :
  from s0 s -> Forall (arg_ok (smem s)) args ->
  wp True (r ← java host natives "call_method" args; if letter type "L" then h ← local (u64 (ret r)); set h else if letter type "V" then nothing else set64 (bits_from_value type (ret r))) s (post s0).
Proof. intros Hs Ha. eapply wp_bind, wp_java; [done..|]. intros r s1 Hs1 _. destruct (letter type "L"); [|destruct (letter type "V")]; by repeat jni_step. Qed.

Lemma call_method_sound : sound (hc_CallMethodA host natives).
Proof.
  jni_open. do 4 jni_step. cbv zeta. jni_step; [jni_step|]. jni_step. eapply wp_bind, wp_method_shorty; [done| |jni_step]. intros [|c sh] Hsh _; [by destruct Hsh|].
  apply wp_bind, wp_lift. cbn [runs vec_at lookup list_lookup]. jni_step; [jni_step|]. do 2 jni_step. apply wp_bind. change (drop 1 (c :: sh)) with sh. destruct Hsh as [_ Hsh]. cbn [length] in Hsh.
  destruct (length sh =? 0)%nat; [apply wp_ret, wp_call_method; [done|]; do 6 (apply Forall_cons_2; [exact I|]); apply ints_ok|]. jni_step.
  eapply wp_bind, wp_checked; [done..|]. intros Hacc Hle. eapply wp_bind, wp_read_block; [done|done|lia|by replace (Z.of_nat (8 * length sh)) with (8 * Z.of_nat (length sh)) by lia|].
  intros bs _ _. eapply wp_read_values; [done|rewrite repeat_length; change (Z.to_nat ZB_JNI_SHORTY_SIZE) with 257%nat; lia|]. intros vs _. apply wp_call_method; [done|]. do 6 (apply Forall_cons_2; [exact I|]). apply ints_ok.
Qed.

Lemma get_field_sound : sound (hc_GetField host natives).
Proof. jni_open. do 2 jni_step. cbv zeta. jni_step; [jni_step|]. do 5 jni_step. by apply wp_result. Qed.

Lemma set_field_sound : sound (hc_SetField host natives).
Proof.
  jni_open. do 2 jni_step. cbv zeta. jni_step; [jni_step|]. do 3 jni_step. apply wp_bind. eapply (wp_mono _ _ _ (fun _ s' => s' = s)).
  - destruct (letter _ _); [eapply wp_ref; [done..|]; done|]. do 2 jni_step. by apply wp_ret.
  - intros bits s' ->. by repeat jni_step.
Qed.

(** ** Strings and arrays *)

Lemma wp_buffer need bytes rs i s0 s Q : words rs -> from s0 s -> 0 <= bytes < 2 ^ 40 -> (forall b, arg_ok (smem s) b -> Q b s) -> wp True (buffer need bytes rs i) s Q.
Proof.
  intros Hw Hs Hb HQ. unfold buffer. destruct (bytes =? 0); [by apply wp_ret, HQ|]. jni_step. eapply wp_bind, wp_checked; [done..|]. intros Hacc _. apply wp_ret, HQ. split; [done|]. split; [done|]. by right.
Qed.

Lemma new_string_sound : sound (hc_NewString host natives).
Proof.
  jni_open. do 2 jni_step. eapply wp_bind, wp_buffer; [done|done|lia|]. intros b Hb. apply wp_local_of; [done|]. repeat first [apply Forall_cons_2; [done|] | apply Forall_nil_2].
Qed.

Lemma string_region_sound : sound (hc_GetStringRegion host natives).
Proof.
  jni_open. do 3 jni_step. eapply wp_bind, wp_buffer; [done|done|lia|]. intros b Hb. jni_step. eapply wp_bind, wp_java; [done|repeat first [apply Forall_cons_2; [done|] | apply Forall_nil_2]|]. intros ra s1 Hs1 _. by jni_step.
Qed.

Lemma string_utf_region_sound : sound (hc_GetStringUTFRegion host natives).
Proof.
  jni_open. do 5 jni_step. cbv zeta. jni_step; [by jni_step|]. jni_step. eapply wp_bind, wp_checked; [done..|]. intros Hacc Hle.
  eapply wp_bind, wp_write_block; [done|done| |done|]; [pose proof (size_nonneg (map u8 (outs a))); unfold word in *; lia|]. intros s1 Hs1. by jni_step.
Qed.

Lemma element_size_bound c : 0 <= element_size c <= 8.
Proof. unfold element_size. repeat destruct (_ || _); lia. Qed.

Lemma array_region_sound name need : sound (primitive_array_region host natives name need).
Proof.
  jni_open. do 2 jni_step. cbv zeta. jni_step; [jni_step|]. do 2 jni_step. match goal with |- context [buffer need ?b rs 4] => assert (0 <= b < 2 ^ 40) as Hb end.
  { pose proof (element_size_bound (char_of v)). destruct (Z.ltb_spec 0 v0); [nia|lia]. }
  eapply wp_bind, wp_buffer; [done..|]. intros b Hbuf. jni_step. eapply wp_bind, wp_java; [done|repeat first [apply Forall_cons_2; [done|] | apply Forall_nil_2]|]. intros r' s1 Hs1 _. by jni_step.
Qed.

Lemma new_buffer_sound : sound (hc_NewDirectByteBuffer host natives base_address).
Proof. jni_open. do 4 jni_step. cbv zeta. jni_step; [jni_step|]. jni_step; [by jni_step|]. apply wp_bind, wp_ptr; intros Ea; by jni_step. Qed.

(** ** Direct buffers *)

Lemma accessible_part m a n len need :
  word a -> 0 <= len <= n -> n < 2 ^ 32 -> need = kPageRead \/ need = kPageWrite -> accessible m a n (Z.lor kPageRead kPageWrite) = true -> accessible m a len need = true.
Proof.
  intros Ha Hl Hn Hneed Hacc. unfold word in Ha. destruct (decide (len = 0)) as [->|Hz]; [done|]. apply accessible_pages in Hacc as [?|[Hb Hp]]; [lia| |lia..]. apply accessible_pages; [lia..|]. right. split; [lia|]. intros i Hi.
  assert (page_has m (Z.lor kPageRead kPageWrite) i) as H by (apply Hp; split; [lia|]; etrans; [apply Hi|]; apply Z.div_le_mono; lia). unfold page_has in *.
  assert (Z.land (Z.lor (Z.lor kPageRead kPageWrite) kPageMapped) (Z.lor need kPageMapped) = Z.lor need kPageMapped) as <- by (by destruct Hneed as [-> | ->]). rewrite Z.land_assoc. by rewrite H.
Qed.

Lemma mirror_bytes_insert ms a m : ms !! a = None -> mirror_bytes (<[a := m]> ms) = msize m + mirror_bytes ms.
Proof. intros H. unfold mirror_bytes. rewrite map_fold_insert_L; [done|intros; lia|done]. Qed.
Lemma mirror_bytes_delete ms a m : ms !! a = Some m -> mirror_bytes ms = msize m + mirror_bytes (delete a ms).
Proof. intros H. unfold mirror_bytes. rewrite (map_fold_delete_L _ _ a m); [done|intros; lia|done]. Qed.

Lemma from_failure s0 s v : from s0 s -> from s0 (Build_Sv (set_mirror_failures (own s) v) (smem s) (scalls s)).
Proof. intros Hs. apply from_own; [done|destruct (from_inv _ _ Hs); by split|by split|done]. Qed.

Lemma wp_mirror_block n s0 s Q :
  from s0 s -> 0 < n <= kMirrorCapBytes ->
  (forall b s', from s0 s' -> word b -> (b <> 0 -> accessible (smem s') b n (Z.lor kPageRead kPageWrite) = true) -> Q b s') -> wp True (mirror_block guest malloc_fn n) s Q.
Proof.
  intros Hs Hn HQ. unfold kMirrorCapBytes in Hn. eapply wp_bind, wp_run_guest; [done|]. intros r s' Hs' Hr.
  assert (wp True (_ ← modify_own (fun j => set_mirror_failures j (u32 (mirror_failures j + 1))); mret 0) s' Q) as Hfail by (apply wp_bind, wp_bind, wp_get_own, wp_put_own, wp_ret, HQ; [by apply from_failure|done..]).
  destruct r as [r|]; [|done]. destruct (Z.eqb_spec (res_r0 r) 0) as [|Hnz]; [done|]. destruct Hr as (Hr & _ & Hacc). apply wp_ret, HQ; [done..|]. intros _. rewrite <- (u32_small n) by lia. by apply Hacc.
Qed.

(** The mirror of a buffer: the one that is there, or a new one of the block. *)
Lemma wp_mirror_found e b address capacity block s0 s Q :
  from s0 s -> 0 < capacity <= kMirrorCapBytes -> word block -> block <> 0 -> (mirrors (own s) !! address = None -> accessible (smem s) block capacity (Z.lor kPageRead kPageWrite) = true) ->
  (forall m s', from s0 s' -> mirrors (own s') !! address = Some m -> Q m s') ->
  wp True (match mirrors (own s) !! address with
           | Some m => mret m
           | None =>
               g ← backend host "new_global_ref" [HInt e; HInt b];
               let m := {| mguest := block; msize := capacity; mglobal := ret g |} in
               _ ← modify_own (fun j => set_mirrored_bytes (set_mirrors j (<[address := m]> (mirrors j))) (u64 (mirrored_bytes j + capacity)));
               mret m
           end) s Q.
Proof.
  intros Hs Hc Hb Hnz Hacc HQ. destruct (mirrors (own s) !! address) as [m|] eqn:E; [by apply wp_ret, HQ|]. eapply wp_bind, wp_call; [done|args_ok|]. intros g s1 Hs1 E1 Ep _. cbv zeta.
  apply wp_bind, wp_bind, wp_get_own, wp_put_own, wp_ret, HQ; [|cbn; apply lookup_insert_eq]. destruct Hs1 as [(Hi & Hm & Hmap) Hk]. split; [|by trans (own s1); [|split]]. split; [|split; [done|]].
  - destruct Hi as [? ? ? ? ? ? ? ? Hms Hby]. split; try done; cbn.
    + apply map_Forall_insert_2; [|done]. by split; cbn; [unfold word in Hb; lia|].
    + rewrite mirror_bytes_insert by (by rewrite E1). cbn. rewrite Hby. unfold u64. rewrite Z.add_mod_idemp_l by lia. f_equal. lia.
  - apply map_Forall_insert_2; [|exact Hmap]. cbn. rewrite (accessible_same (smem s)) by done. by apply Hacc.
Qed.

Lemma wp_mirror e b address capacity s0 s Q :
  from s0 s -> (forall v s', from s0 s' -> word v -> Q v s') -> wp True (mirror_direct_buffer host guest malloc_fn e b address capacity) s Q.
Proof.
  intros Hs HQ. unfold mirror_direct_buffer. destruct (Z.eqb_spec address 0); [by apply wp_ret, HQ|]. destruct (Z.leb_spec capacity 0); [by apply wp_ret, HQ|]. cbn [orb].
  destruct (Z.ltb_spec kMirrorCapBytes capacity); [by apply wp_ret, HQ|]. apply wp_bind, wp_get_own. set (known_block := match mirrors (own s) !! address with Some m => _ | None => _ end).
  destruct (_ && _); [apply wp_bind, wp_bind, wp_get_own, wp_put_own, wp_ret, HQ; [by apply from_failure|done]|]. apply wp_bind.
  eapply (wp_mono _ _ _ (fun block s' => from s0 s' /\ word block /\ (block <> 0 -> mirrors (own s') !! address = None -> accessible (smem s') block capacity (Z.lor kPageRead kPageWrite) = true))).
  - destruct (Z.eqb_spec known_block 0) as [E|Hk].
    + eapply wp_mirror_block; [done|lia|]. intros bl s' Hs' Hbl Hacc. split; [done|]. split; [done|]. intros Hn _. by apply Hacc.
    + apply wp_ret. split; [done|]. unfold known_block in *. destruct (mirrors (own s) !! address) as [m|] eqn:E; [|done]. destruct (ji_mirrors _ _ (from_inv _ _ Hs) address m E) as [? _]. by split; [unfold word; lia|].
  - intros block s1 (Hs1 & Hb & Hacc). destruct (Z.eqb_spec block 0); [by apply wp_ret, HQ|]. apply wp_bind, wp_get_own, wp_bind. eapply wp_mirror_found; [done|lia|done|done|by apply Hacc|]. intros m s2 Hs2 E.
    destruct (ji_mirrors _ _ (from_inv _ _ Hs2) address m E) as [Hg Hsz]. unfold kMirrorCapBytes in *. assert (word (mguest m)) by (unfold word; lia). eapply wp_bind, wp_call; [done| |].
    + apply Forall_cons_2; [done|]. apply Forall_cons_2; [|done]. split; [done|]. split; [lia|]. right. apply (accessible_part _ _ (msize m)); [done|lia|lia|by right|]. apply (proj2 (proj2 (proj1 Hs2)) address m E).
    + intros a s3 Hs3 _ _ _. by apply wp_ret, HQ.
Qed.

Lemma buffer_address_sound : sound (hc_GetDirectBufferAddress host guest malloc_fn base_address).
Proof.
  jni_open. do 2 jni_step. eapply wp_bind, wp_call; [done|args_ok|]. intros a s1 Hs1 _ _ _. cbv zeta. destruct (_ && _).
  - eapply wp_bind, wp_call; [done|args_ok|]. intros c s2 Hs2 _ _ _. apply wp_bind, wp_ptr; intros _; (destruct (_ || _); [jni_step|by jni_step]).
  - destruct (ret a =? 0); [by jni_step|]. eapply wp_bind, wp_call; [done|args_ok|]. intros c s2 Hs2 _ _ _. eapply wp_bind, wp_mirror; [done|]. intros v s3 Hs3 Hv. by jni_step.
Qed.

(** The mirrors are flushed one by one; the rest of the table stays as it is. *)
Lemma wp_flush_list e l s0 : forall s Q,
  from s0 s -> NoDup l.*1 -> (forall a m, (a, m) ∈ l -> mirrors (own s) !! a = Some m) -> (forall s', from s0 s' -> me (own s') = me (own s) -> Q tt s') -> wp True (flush_list host e l) s Q.
Proof.
  induction l as [|[a m] l IH]; intros s Q Hs Hnd Hl HQ; cbn [flush_list]; [by apply wp_ret, HQ|]. apply NoDup_cons in Hnd as [Hna Hnd]. pose proof (Hl a m ltac:(left)) as E.
  destruct (ji_mirrors _ _ (from_inv _ _ Hs) a m E) as [Hg Hsz]. unfold kMirrorCapBytes in Hsz. apply wp_bind, wp_bind.
  eapply (wp_mono _ _ _ (fun _ s' => from s0 s' /\ own s' = own s)); [destruct (mglobal m =? 0); [by apply wp_ret|]; eapply wp_bind, wp_call; [done|args_ok|]; intros; by apply wp_ret|]. intros x s1 [Hs1 E1]. apply wp_bind.
  eapply (wp_mono _ _ _ (fun _ s' => from s0 s' /\ own s' = own s)); [destruct (x =? 0); [by apply wp_ret|]; eapply wp_bind, wp_call; [done|args_ok|]; intros s2 ? ? E2 ? ?; apply wp_ret; by rewrite E2, E1|]. intros c s2 [Hs2 E2].
  destruct (_ || _).
  - apply wp_bind. eapply (wp_mono _ _ _ (fun _ s' => from s0 s' /\ own s' = own s)); [destruct (mglobal m =? 0); [by apply wp_ret|]; eapply wp_bind, wp_call; [done|args_ok|]; intros ? ? ? E3 ? ?; apply wp_ret; by rewrite E3, E2|].
    intros _ s3 [Hs3 E3]. apply wp_bind, wp_get_own, wp_put_own. set (s4 := Build_Sv _ _ _).
    assert (from s0 s4) as Hs4.
    { destruct Hs3 as [(Hi & Hm & Hmap) Hk]. split; [|by trans (own s3); [|split]]. split; [|split; [done|by apply map_Forall_delete]]. destruct Hi as [? ? ? ? ? ? ? ? Hms Hby]. split; try done; cbn; [by apply map_Forall_delete|].
      rewrite Hby, E3, (mirror_bytes_delete _ _ _ E). unfold u64. rewrite Zminus_mod_idemp_l. f_equal. lia. }
    apply IH; [done|done| |intros s' Hs' Em; apply HQ; [done|]; rewrite Em; unfold s4; cbn; by rewrite E3]. intros a' m' Hin. unfold s4. cbn. rewrite E3, lookup_delete_ne; [by apply Hl; right|]. intros ->. apply Hna. apply list_elem_of_fmap. by exists (a', m').
  - eapply wp_bind, wp_call; [done| |].
    + apply Forall_cons_2; [done|]. apply Forall_cons_2; [|done]. split; [lia|]. split; [lia|]. right. apply (accessible_part _ _ (msize m)); [unfold word; lia|lia|lia|by left|].
      apply (proj2 (proj2 (proj1 Hs2)) a m). by rewrite E2.
    + intros ? s3 Hs3 E3 _ _. apply wp_ret. apply IH; [done|done| |intros s' Hs' Em; apply HQ; [done|]; by rewrite Em, E3, E2]. intros a' m' Hin. rewrite E3, E2. apply Hl. by right.
Qed.

Lemma wp_flush e s0 s Q : from s0 s -> (forall s', from s0 s' -> me (own s') = me (own s) -> Q tt s') -> wp True (flush_buffer_mirrors host e) s Q.
Proof.
  intros Hs HQ. apply wp_bind, wp_get_own. eapply wp_flush_list; [done|apply NoDup_fst_map_to_list| |done]. intros a m. apply elem_of_map_to_list.
Qed.

(** ** Thunk slots *)

Lemma slots_allocate_ok s t :
  slots_wf s -> accepted t -> exists slot s', slots_allocate s t = Ret (slot, s') /\ slots_wf s' /\
    (slot = -1 /\ s' = s \/ 0 <= slot < kNativeThunkCount /\ slots_target s slot = None /\ slots_target s' slot = Some t /\ forall i, Z.to_nat i <> Z.to_nat slot -> slots_target s' i = slots_target s i).
Proof.
  intros [Hlen Hcap Hrel Hnd Hacc] Hat. unfold slots_allocate. destruct (released_ s) as [|r rest] eqn:Er.
  - destruct (Z.leb_spec (capacity_ s) (Z.of_nat (length (targets_ s)))) as [Hfull|Hroom].
    { exists (-1), s. split; [done|]. split; [split; try done; by rewrite Er|by left]. }
    eexists (Z.of_nat (length (targets_ s))), _. split; [done|]. split; [split; cbn; rewrite ?length_app; cbn; [lia|lia| |done|by apply Forall_app_2; [|apply Forall_singleton]]|right].
    + intros i. rewrite lookup_snoc_Some, Hrel. split; [intros Hi; left; split; [by eapply lookup_lt_Some|done]|intros [[_ ?]|[_ ?]]; done].
    + split; [lia|]. unfold slots_target. cbn. rewrite Nat2Z.id. split; [rewrite lookup_ge_None_2 by lia; done|]. split; [rewrite <- Hlen at 1; rewrite list_lookup_middle, list_lookup_middle by done; done|].
      intros i Hi. destruct (decide (Z.to_nat i < length (targets_ s))%nat) as [Hlt|Hge]; [by rewrite !lookup_app_l by lia|].
      rewrite (lookup_ge_None_2 (sready_ s ++ [true])) by (rewrite length_app; cbn; lia). by rewrite (lookup_ge_None_2 (sready_ s)) by lia.
  - assert (sready_ s !! r = Some false) as Hr by (apply Hrel; left). pose proof (lookup_lt_Some _ _ _ Hr). apply NoDup_cons in Hnd as [Hnr Hnd]. rewrite !vec_set_lt by lia. cbn.
    eexists (Z.of_nat r), _. split; [done|]. split; [split; cbn; rewrite ?length_insert; try done; [|by apply Forall_insert]|right].
    + intros i. rewrite list_lookup_insert_Some. rewrite <- (Hrel i), elem_of_cons. split; [intros Hi; right; split; [by intros <-|by right]|intros [(_ & ? & _)|[Hi [?|?]]]; done].
    + split; [lia|]. unfold slots_target. cbn. rewrite Nat2Z.id, Hr, !list_lookup_insert_eq by lia. split; [done|]. split; [done|]. intros i Hi. by rewrite !list_lookup_insert_ne by lia.
Qed.

Lemma slots_release_ok s slot t :
  slots_wf s -> slots_target s slot = Some t -> exists s', slots_release s slot = Ret s' /\ slots_wf s' /\ slots_target s' slot = None /\ forall i, Z.to_nat i <> Z.to_nat slot -> slots_target s' i = slots_target s i.
Proof.
  intros [Hlen Hcap Hrel Hnd Hacc] Ht. unfold slots_release, slots_target in *. destruct (sready_ s !! Z.to_nat slot) as [[]|] eqn:E; [|done..]. pose proof (lookup_lt_Some _ _ _ E). eexists. split; [done|]. cbn.
  split; [split; cbn; rewrite ?length_insert; try done|].
  - intros i. rewrite elem_of_cons, list_lookup_insert_Some, Hrel. split; [intros [->|Hi]; [by left|]|intros [(<- & _)|[_ ?]]; [by left|by right]].
    destruct (decide (Z.to_nat slot = i)) as [<-|Hn]; [congruence|by right].
  - apply NoDup_cons. split; [|done]. rewrite Hrel. congruence.
  - split; [by rewrite list_lookup_insert_eq by lia|]. intros i Hi. by rewrite list_lookup_insert_ne by lia.
Qed.

(** ** Natives *)

Lemma from_slots s0 s t m cs :
  from s0 s -> mem_wf m -> pages_ m = pages_ (smem s) -> slots_wf t -> (forall i x, slots_target (slots (own s)) i = Some x -> slots_target t i = Some x) -> from s0 (Build_Sv (set_slots (own s) t) m cs).
Proof.
  intros [(Hi & Hm & Hmap) Hk] Hm' Ep Ht Hsame. split; [|trans (own s); [done|by split]]. split; [destruct Hi; by split|]. split; [done|]. intros a x Hx. cbn [smem]. rewrite (accessible_same (smem s)); [by apply (Hmap a x)|done].
Qed.

(** A native is bound to a new slot, or the table is as before. *)
Lemma wp_register_native e cls name sig fn static s0 s Q :
  from s0 s ->
  (forall rc s', from s0 s' ->
     (rc = 0 -> exists sh slot, Shorty.shorty_from_signature (chars (strip_fast sig)) = Some sh /\ 0 <= slot < kNativeThunkCount /\ slots_target (slots (own s)) slot = None /\
        slots_target (slots (own s')) slot = Some {| guest_function := fn; shorty := sh; is_static := static |} /\
        last (scalls s') = Some {| h_name := "register_native"; h_args := [HInt e; HInt cls; HPath name; HPath (strip_fast sig); HInt (native_thunk_address thunk_base slot)] |}) ->
     (Shorty.shorty_from_signature (chars (strip_fast sig)) <> None -> pages_ (smem s') = pages_ (smem s)) -> Q rc s') ->
  wp True (register_native host natives thunk_base e cls name sig fn static) s Q.
Proof.
  intros Hs HQ. unfold register_native. destruct (Shorty.shorty_from_signature (chars (strip_fast sig))) as [sh|] eqn:Esh.
  2: { eapply wp_bind, wp_java; [done|args_ok|]. intros a s1 Hs1 _. apply wp_bind. destruct (ret a =? 0); [by apply wp_ret, wp_ret, HQ|]. eapply wp_bind, wp_java; [done|args_ok|]. intros b s2 Hs2 _. by apply wp_ret, wp_ret, HQ. }
  apply wp_bind, wp_get_own, wp_bind, wp_lift. set (tg := {| guest_function := fn; shorty := sh; is_static := static |}).
  destruct (slots_allocate_ok (slots (own s)) tg (ji_slots _ _ (from_inv _ _ Hs)) (ex_intro _ _ Esh)) as (slot & t & -> & Ht & Hcase). apply wp_bind, wp_bind, wp_get_own, wp_put_own.
  assert (forall i x, slots_target (slots (own s)) i = Some x -> slots_target t i = Some x) as Hold.
  { intros i x Hx. destruct Hcase as [[_ ->]|(_ & Hnone & _ & Hsame)]; [done|]. rewrite Hsame; [done|]. intros E. unfold slots_target in *. rewrite E in Hx. rewrite Hx in Hnone. done. }
  assert (from s0 (Build_Sv (set_slots (own s) t) (smem s) (scalls s))) as Hs1 by (apply from_slots; [done|by eapply from_wf|done..]).
  destruct (Z.ltb_spec slot 0) as [Hneg|Hpos]; [by apply wp_ret, HQ|]. destruct Hcase as [[? _]|(Hslot & Hnone & Hsome & Hsame)]; [lia|]. unfold kNativeThunkCount in Hslot. rewrite u32_small by lia.
  apply wp_bind, (wp_backend host Hhost); [by eapply from_wf|args_ok|]. intros m How Hm'. cbn [own smem scalls] in *. set (a := host _ _). cbv zeta. destruct (Z.eqb_spec (s32 (ret a)) 0) as [E0|Hne].
  - apply wp_ret, HQ; [apply from_slots; [done|done|apply How|done..]| |intros _; apply How]. intros _. exists sh, slot. do 4 (split; [done|]). cbn. by rewrite last_snoc.
  - apply wp_bind, wp_get_own, wp_bind, wp_lift. destruct (slots_release_ok t slot tg Ht Hsome) as (t' & E' & Ht' & _ & Hsame'). cbn [own set_slots slots]. rewrite E'. apply wp_bind, wp_bind, wp_get_own, wp_put_own, wp_ret, HQ.
    + apply (from_slots s0 s); [done|done|apply How|done|]. intros i x Hx. rewrite Hsame'; [by apply Hold|]. intros E. unfold slots_target in *. rewrite E in Hx. rewrite Hx in Hnone. done.
    + done.
    + intros _. apply How.
Qed.

Lemma wp_register_all e cls s0 n : forall table s,
  from s0 s -> word table -> Z.of_nat n < 2 ^ 31 -> accessible (smem s) table (12 * Z.of_nat n) kPageRead = true -> wp True (register_all host natives thunk_base e cls n table) s (post s0).
Proof.
  induction n as [|n IH]; intros table s Hs Ht Hn Hacc; cbn [register_all]; [by jni_step|].
  assert (table + 12 * Z.of_nat (S n) <= 2 ^ 32) as Hend by (unfold word in Ht; apply accessible_pages in Hacc as [?|[? _]]; lia).
  destruct (accessible_sub (smem s) table (12 * Z.of_nat (S n)) 0 12 kPageRead) as [_ H12]; [done|unfold word in *; lia|done|lia..|]. rewrite Z.add_0_r in H12.
  eapply wp_bind, (wp_read_block _ 12); [done|done|lia|done|]. intros bs Hl Hb. assert (forall k, (k + 4 <= 12)%nat -> word (le (take 4 (drop k bs)))) as Hword.
  { intros k Hk. apply le_word_ok; [rewrite length_take, length_drop; lia|]. by apply Forall_take, Forall_drop. }
  eapply wp_bind, wp_read_string; [done|apply (Hword 0%nat); lia|]. intros name. eapply wp_bind, wp_read_string; [done|apply (Hword 4%nat); lia|]. intros sig.
  eapply wp_bind, wp_register_native; [done|]. intros rc s1 Hs1 Hok Hpages. destruct (Z.eqb_spec rc 0) as [->|]; [|apply wp_set; [apply word_u32|done]]. destruct (Hok eq_refl) as (sh & slot & Esh & _).
  destruct n as [|n']; [by apply wp_set|].
  destruct (accessible_sub (smem s) table (12 * Z.of_nat (S (S n'))) 12 (12 * Z.of_nat (S n')) kPageRead) as [Hw' Hacc']; [done|unfold word in *; lia|done|lia..|].
  apply IH; [done|done|lia|]. rewrite (accessible_same (smem s)); [done|]. apply Hpages. congruence.
Qed.

Lemma register_natives_sound : sound (hc_RegisterNatives host natives thunk_base).
Proof.
  jni_open. do 4 jni_step; [apply wp_set; [apply word_u32|done]|]. apply Z.ltb_ge in Heqb. destruct (Z.eqb_spec v 0) as [->|Hn]; [by apply wp_bind, wp_ret, wp_set|].
  apply wp_bind. jni_step. eapply wp_checked; [done..|]. intros Hacc Hle. apply wp_register_all; [done|done|lia|]. by rewrite Z2Nat.id by lia.
Qed.

(** ** The Java VM *)

Lemma from_depth s0 s : from s0 s -> native_depth (me (own s)) = native_depth (me (own s0)).
Proof. intros [_ Hk]. apply Hk. Qed.

(** Outside native methods the environment may change. *)
Lemma wp_outside f s0 s Q :
  from s0 s -> native_depth (me (own s)) = 0 -> thread_wf (f (me (own s))) -> native_depth (f (me (own s))) = native_depth (me (own s)) ->
  (forall s', from s0 s' -> me (own s') = f (me (own s)) -> api (own s') = api (own s) -> Q tt s') -> wp True (set_thread f) s Q.
Proof. intros Hs Hd Ht Hf HQ. eapply wp_thread; [done|done|done| |done]. lia. Qed.

Lemma thread_wf_env t v b : thread_wf t -> native_depth t = 0 -> thread_wf (set_attached (set_tenv t v) b).
Proof. intros [H1 H2 H3 H4 H5] Hd. split; try done. cbn. lia. Qed.

Lemma get_env_sound : sound hc_GetEnv.
Proof. jni_open. jni_step. jni_step. destruct (_ =? 0); [done|]. apply (tw_env _ (ji_me _ _ (from_inv _ _ Hs))). Qed.

Lemma wp_attach_args a s0 s Q : from s0 s -> word a -> (forall o, match o with Some (name, _) => Forall (arg_ok (smem s)) name | None => True end -> Q o s) -> wp True (attach_args a) s Q.
Proof.
  intros Hs Ha HQ. unfold attach_args. destruct (a =? 0); [by apply wp_ret, HQ|]. eapply wp_bind, wp_checked; [done..|]. intros Hacc _. eapply wp_bind, (wp_read_block _ 12); [done|done|lia|done|]. intros bs Hl Hb.
  assert (forall k n, bytes_ok (take n (drop k bs))) as Hsub by (intros; by apply Forall_take, Forall_drop). destruct (negb _); [by apply wp_ret, HQ|]. cbv zeta. apply wp_bind. set (name := le (take 4 (drop 4 bs))).
  assert (word name) as Hname by (apply le_word_ok; [rewrite length_take, length_drop; lia|done]).
  assert (word (le (drop 8 bs))) as Hgroup by (apply le_word_ok; [rewrite length_drop; lia|by apply Forall_drop]).
  assert (forall text : list Z, wp True (mbind (fun group => mret (Some ([HPath text], group))) (resolve (le (drop 8 bs)))) s Q) as Hend.
  { intros text. eapply wp_bind, wp_resolve; [done|apply Hgroup|]. intros r. apply wp_ret, HQ. args_ok. }
  destruct (name =? 0); [by apply wp_ret|]. eapply wp_read_string; [done..|]. intros t. apply Hend.
Qed.

Lemma attach_sound : sound (hc_AttachCurrentThread host guest natives).
Proof.
  jni_open. eapply wp_bind, wp_arg; [done..|]. intros out Hout. eapply wp_bind, wp_checked; [done..|]. intros Hacc _. eapply wp_bind, wp_write_block; [done|done| |done|]; [by vm_compute|]. intros s1 Hs1. jni_step. apply wp_bind.
  eapply (wp_mono _ _ _ (fun st s' => from s0 s' /\ match st with inl true => native_depth (me (own s')) = 0 | inl false => True | inr e => word e end)).
  - destruct (Z.eqb_spec (tenv (me (own s1))) 0) as [E|]; [|by apply wp_ret]. cbn [negb]. assert (native_depth (me (own s0)) = 0) as Hd.
    { rewrite <- (from_depth _ _ Hs1). destruct (ji_me _ _ (from_inv _ _ Hs1)) as [_ _ Hge Hn _]. destruct (decide (0 < native_depth (me (own s1)))) as [Hlt|]; [by destruct (Hn Hlt)|lia]. }
    jni_step. eapply wp_bind, wp_attach_args; [done..|]. intros [[name group]|] Hargs; [|apply wp_ret; split; [done|apply word_u32]]. jni_step.
    eapply wp_bind, wp_java; [done|by repeat apply Forall_cons_2|]. intros r s2 Hs2 _. destruct (ret r =? 0); [apply wp_ret; split; [done|apply word_u32]|]. pose proof (from_depth _ _ Hs2).
    eapply wp_bind, wp_outside; [done|lia|apply thread_wf_env; [apply (from_inv _ _ Hs2)|lia]|done|]. intros s3 Hs3 _ _. apply wp_ret. split; [done|]. rewrite (from_depth _ _ Hs3). done.
  - intros st s2 [Hs2 Hst]. destruct st as [just|e]; [|by apply wp_set]. eapply wp_bind, wp_guest_env; [done|]. intros ok s3 Hs3. destruct ok; cbn [negb].
    + jni_step. eapply wp_bind, wp_checked; [done..|]. intros Hacc3 _. eapply wp_bind, wp_write_block; [done|done| |done|]; [unfold size; rewrite length_to_le; lia|]. intros s4 Hs4. by jni_step.
    + apply wp_bind. destruct just; [|apply wp_ret, wp_set; [apply word_u32|done]]. eapply wp_bind, wp_call; [done|args_ok|]. intros a s4 Hs4 _ _ _. pose proof (from_depth _ _ Hs4). pose proof (from_depth _ _ Hs2).
      eapply wp_outside; [done|lia|apply thread_wf_env; [apply (from_inv _ _ Hs4)|lia]|done|]. intros s5 Hs5 _ _. apply wp_set; [apply word_u32|done].
Qed.

Lemma detach_sound : sound (hc_DetachCurrentThread host guest natives).
Proof.
  jni_open. jni_step. destruct (attached (me (own s))); cbn [negb orb]; [|apply wp_set; [apply word_u32|done]]. destruct (Z.eqb_spec (native_depth (me (own s))) 0) as [Hd|]; cbn [negb]; [|apply wp_set; [apply word_u32|done]].
  rewrite (from_depth _ _ Hs) in Hd. eapply wp_bind, wp_java; [done|args_ok|]. intros a s1 Hs1 _. cbv zeta. destruct (negb _); [by jni_step|]. pose proof (from_depth _ _ Hs1).
  eapply wp_bind, wp_outside; [done|lia| |done|]; [destruct (ji_me _ _ (from_inv _ _ Hs1)); split; cbn; try done; [apply local_wf_init|lia]|]. intros s2 Hs2 _ _. jni_step. apply wp_bind.
  assert (forall s3, from s0 s3 -> wp True (_ ← set_thread (fun m => set_attached (set_tenv (set_guest_env m 0) 0) false); set (u32 (s32 (ret a)))) s3 (post s0)) as Hend.
  { intros s3 Hs3. pose proof (from_depth _ _ Hs3). eapply wp_bind, wp_outside; [done|lia| |done|]; [|intros s4 Hs4 _ _; by jni_step]. destruct (ji_me _ _ (from_inv _ _ Hs3)). split; cbn; try done; lia. }
  destruct (_ =? 0); [by apply wp_ret, Hend|]. eapply wp_bind, wp_invoke; [done|]. intros r s3 Hs3 _. by apply wp_ret, Hend.
Qed.

(** ** The switch *)

#[local] Notation served := (served host guest natives malloc_fn base_address thunk_base).

Lemma served_sound : Forall (fun c => sound (snd c)) served.
Proof.
  repeat apply Forall_cons_2; cbn [snd]; [apply get_env_sound|apply attach_sound|apply detach_sound|jni_call|jni_call|jni_call|apply method_id_sound|apply field_id_sound|apply method_shorty_sound|apply reflected_method_sound|apply reflected_field_sound
    |jni_call..|apply ref_type_sound|apply new_global_sound|apply delete_global_sound|apply new_weak_sound|apply delete_weak_sound|jni_call|apply delete_local_sound|jni_call|apply push_frame_sound|apply pop_frame_sound
    |jni_call|jni_call|jni_call|jni_call|jni_call|jni_call|jni_call|jni_call|jni_call|apply call_method_sound|apply get_field_sound|apply set_field_sound|apply new_string_sound|jni_call|jni_call|jni_call|apply string_region_sound|apply string_utf_region_sound
    |jni_call|jni_call|jni_call|jni_call|jni_call|jni_call|apply array_region_sound|apply array_region_sound|apply new_buffer_sound|apply buffer_address_sound|jni_call|apply register_natives_sound|jni_call|apply Forall_nil_2].
Qed.

Lemma register_api_sound rs s : words rs -> safe_state known s -> wp True (hc_Register rs) s (fun rs' s' => answered rs rs' /\ from s s').
Proof.
  intros Hw Hs. pose proof (from_refl _ Hs) as Hf. apply wp_bind, wp_ptr; intros Ea; [|by apply wp_ret; split; [apply answered_set0|]]. eapply wp_bind, (wp_read_block _ 20); [done|by apply reg_word|lia|done|]. intros bs _ _. cbv zeta.
  apply wp_bind, wp_bind, wp_get_own, wp_put_own, wp_ret. split; [apply answered_set0; [done|]; by destruct (_ && _)|]. apply from_own; [done|..].
  - destruct (_ && negb _); [|apply Hs]. destruct (proj1 Hs). by split.
  - destruct (_ && negb (ready (own s))) eqn:E; [|done]. apply andb_true_iff in E as [_ E]. split; try done. cbn. intros E'. by rewrite E' in E.
  - by destruct (_ && negb _).
Qed.

(** C26: every JNI host call of the guest, whatever registers it passes and whatever its memory
    holds, in a bridge whose buffer mirrors are mapped, whose Java side hands out fewer than
    2^32 - 1 method and field ids ([ids_known]), and whose guest code and natives leave the
    bridge's tables to the bridge, keep the blocks of its buffer mirrors mapped and have a
    malloc that answers with usable memory ([guest_keeps], [natives_keep]; without the last
    two the copy of a mirror faults, [mirror_copy_unchecked]), and whose Java side writes only
    into memory it was handed ([kernel_ok]): unless the bridge aborts, the call returns, nothing
    but the guest's own pages is touched, r0 and r1 alone change, and the handle tables, method ids with their
    shorties, thunk slots, buffer mirrors and local frames are consistent afterwards.  Inside a native method
    its environment and its frame stay; ids handed out and bound thunk slots stay for ever.
    An index outside the range of the bridge is left to others. *)
Theorem jni_call_sound index rs s :
  words rs -> safe_state known s ->
  wp True (jni_handle_host_call host guest natives malloc_fn base_address thunk_base index rs) s
    (fun r s' => match r with
                 | Some rs' => 0xFB00 <= index <= 0xFCFF /\ answered rs rs' /\ from s s'
                 | None => ~ 0xFB00 <= index <= 0xFCFF /\ s' = s
                 end).
Proof.
  intros Hw Hs. unfold jni_handle_host_call, ZB_JNI_SLOT_STUB_FIRST, ZB_JNI_HOST_CALL_LAST. destruct (Z.ltb_spec index 0xFB00); [apply wp_ret; split; [lia|done]|]. destruct (Z.ltb_spec 0xFCFF index); [apply wp_ret; split; [lia|done]|]. cbn [orb].
  destruct (index =? ZB_JNI_HC_Register).
  { apply wp_bind. eapply wp_mono; [by apply register_api_sound|]. intros rs' s' [H1 H2]. apply wp_ret. split; [lia|done]. }
  apply wp_bind, wp_get_own. destruct (negb _); [by apply wp_abort|]. destruct (list_find _ served) as [[i [n h]]|] eqn:E; [|by apply wp_abort].
  apply list_find_Some in E as (Hi & _). pose proof served_sound as Hall. rewrite Forall_forall in Hall. apply wp_bind. eapply wp_mono; [apply (Hall (n, h)); [by eapply list_elem_of_lookup_2|done|by apply from_refl]|].
  intros [v w] s' (Hv & Hw' & Hs'). apply wp_ret. split; [lia|]. split; [by apply answered_set01|done].
Qed.
End Sound.
