(* ===== verification/JniNative.v ===== *)
(** * Native methods and the guest loader

    The Java to guest direction of the bridge: [HostJni::call_native] and the loader calls
    of [core/src/jni/host_jni.cpp], and the thunk dispatcher of [host_jni_natives.cpp].

    A native method runs in a frame of its own; whatever the guest does inside it, the frame,
    the environment and the depth of the calling thread are restored.  Together with
    [JniSound] this closes the circle: what a call relies on is what native methods and host
    calls are shown to keep. *)

From stdpp Require Import numbers list gmap strings.
From Stdlib Require Import Ascii.
From S2P Require Import Prelude Handles JniNames NativeCall Bytes GuestMemory InitialStack GuestThread Kernel Syscalls Messages Service LibraryService JniState JniCalls JniSound.
Local Open Scope Z_scope.

Section JniNative.
Context (host : list hostcall -> hostcall -> answer) (guest : Z -> list Z -> Sv Jni -> option GuestResult * Sv Jni).

#[local] Notation svc := (svc Jni).
#[local] Notation backend := (backend host).
#[local] Notation invoke := (invoke host guest).

(** The pending exception is put aside while the mirrors are flushed. *)
Definition flush_around (e : Z) : svc unit :=
  pending ← backend "exception_occurred" [HInt e];
  _ ← (if ret pending =? 0 then mret tt else _ ← backend "exception_clear" [HInt e]; mret tt);
  _ ← flush_buffer_mirrors host e;
  if ret pending =? 0 then mret tt
  else
    check ← backend "exception_check" [HInt e];
    _ ← (if ret check =? 0 then mret tt else _ ← backend "exception_clear" [HInt e]; mret tt);
    _ ← backend "throw_exception" [HInt e; HInt (ret pending)];
    _ ← backend "delete_local_ref" [HInt e; HInt (ret pending)];
    mret tt.

Definition pop_frame : svc unit :=
  st ← get_own; '(_, l) ← lift_svc (LocalHandles_pop_frame (locals (me st))); set_thread (fun m => set_locals m l).

(** [while (state.user_frames > 0)]; nothing else changes the counter meanwhile. *)
Fixpoint pop_user_frames (n : nat) (e kept : Z) : svc Z :=
  match n with
  | O => mret kept
  | S n =>
      _ ← pop_frame;
      r ← backend "pop_local_frame" [HInt e; HInt kept];
      _ ← set_thread (fun m => set_user_frames m (user_frames m - 1));
      pop_user_frames n e (ret r)
  end.

(** Inside the frame: the arguments, the guest's run, the flush, the result, and the frames
    the guest left open.  [build] makes the guest's arguments and their handles. *)
Definition native_body (e : Z) (return_type : ascii) (function : Z) (build : Z -> LocalHandles -> exec (GuestCall * LocalHandles)) (frames : nat) : svc (option GuestResult * Z) :=
  st ← get_own;
  '(args, l) ← lift_svc (build (guest_env (me st)) (locals (me st)));
  _ ← set_thread (fun m => set_locals m l);
  r ← invoke function (NativeCall.regs args ++ NativeCall.stack args);
  _ ← flush_around e;
  kept ← match r with Some g => if letter return_type "L" then resolve (res_r0 g) else mret 0 | None => mret 0 end;
  st ← get_own;
  kept ← (if negb (LocalHandles_frame_count (locals (me st)) =? frames)%nat || negb (user_frames (me st) =? 0) then pop_user_frames (Z.to_nat (user_frames (me st))) e kept else mret kept);
  mret (r, kept).

Definition call_native (e : Z) (return_type : ascii) (function : Z) (build : Z -> LocalHandles -> exec (GuestCall * LocalHandles)) : svc (option (GuestResult * Z)) :=
  st ← get_own;
  let outer_env := tenv (me st) in
  if negb (outer_env =? 0) && negb (outer_env =? e) then abort
  else if negb (ready st) then mret None
  else
    ok ← ensure_guest_env host guest;
    if negb ok then mret None
    else
      rc ← backend "push_local_frame" [HInt e; HInt 16];
      if negb (s32 (ret rc) =? 0) then mret None
      else
        st ← get_own;
        let outer_user_frames := user_frames (me st) in
        _ ← set_thread (fun m => set_locals (set_user_frames (set_native_depth (set_tenv m e) (native_depth m + 1)) 0) (LocalHandles_push_frame (locals m)));
        st ← get_own;
        let frames := LocalHandles_frame_count (locals (me st)) in
        '(r, kept) ← native_body e return_type function build frames;
        _ ← pop_frame;
        outer ← backend "pop_local_frame" [HInt e; HInt kept];
        _ ← set_thread (fun m => set_tenv (set_native_depth (set_user_frames m outer_user_frames) (native_depth m - 1)) outer_env);
        mret (match r with Some g => Some (g, if letter return_type "L" then ret outer else 0) | None => None end).

(** The dispatcher of the thunks. *)
Definition dispatch_native (slot : Z) (regs : NativeRegs) : svc NativeRegs :=
  st ← get_own;
  match slots_target (slots st) slot with
  | None => abort
  | Some target =>
      return_type ← lift_svc (vec_at (shorty target) 0);
      e ← lift_svc (vec_at (x_ regs) 0);
      result ← call_native e return_type (guest_function target) (fun guest_env l => marshal_native_args LocalHandles_add (shorty target) regs guest_env l);
      match result with
      | None =>
          check ← backend "exception_check" [HInt e];
          if ret check =? 0 then fatal
          else
            x ← lift_svc (vec_set (x_ regs) 0 0);
            d ← lift_svc (vec_set (d_ regs) 0 0);
            mret {| x_ := x; d_ := d; stack_ := stack_ regs |}
      | Some (g, r) => lift_svc (store_native_result return_type (res_r0 g) (res_r1 g) regs (fun _ => r))
      end
  end.

(** ** The guest loader *)

Context (malloc_fn free_fn dlopen_fn dlsym_fn dlerror_fn : Z).

Fixpoint error_loop (n : nat) (address : Z) (text : list Z) : svc (list Z) :=
  match n with
  | O => mret (msg "guest dlerror string is not terminated")
  | S n =>
      if kGuestSpaceSize <=? address then mret (msg "guest dlerror returned an unreadable string")
      else
        p ← guest_ptr (u32 address) 1 kPageRead;
        match p with
        | None => mret (msg "guest dlerror returned an unreadable string")
        | Some p => bs ← load p 1; if le bs =? 0 then mret text else error_loop n (address + 1) (text ++ bs)
        end
  end.

Definition loader_error : svc (list Z) :=
  r ← invoke dlerror_fn [0; 0; 0; 0];
  match r with
  | Some g => if res_r0 g =? 0 then mret (msg "guest dlerror returned no message") else error_loop (Z.to_nat ZB_SERVICE_SCRATCH_SIZE) (res_r0 g) []
  | None => mret (msg "guest dlerror returned no message")
  end.

(** [ThreadEnvScope]: the environment of the thread while the operation runs. *)
Definition with_thread_env (e : Z) (body : svc (Z * option (list Z))) : svc (Z * option (list Z)) :=
  st ← get_own;
  let previous := tenv (me st) in
  if e =? 0 then mret (0, Some (msg "JNI loader received a null JNIEnv"))
  else if negb (previous =? 0) && negb (previous =? e) then mret (0, Some (msg "JNI loader received a JNIEnv from another call"))
  else
    _ ← set_thread (fun m => set_tenv m e);
    r ← body;
    _ ← set_thread (fun m => set_tenv m previous);
    mret r.

(** The result and the error, [None] while it is empty. *)
Definition loader_operation (e : Z) (symbol : bool) (value : Z) (text : list Z) : svc (Z * option (list Z)) :=
  st ← get_own;
  if negb (ready st) then mret (0, Some (msg "JNI bridge is not ready"))
  else if existsb (Z.eqb 0) text || (ZB_SERVICE_SCRATCH_SIZE <=? size text) then mret (0, Some (msg "guest loader string does not fit the bounded buffer"))
  else
    with_thread_env e (
      allocated ← invoke malloc_fn [u32 (size text + 1); 0; 0; 0];
      let scratch := match allocated with Some r => res_r0 r | None => 0 end in
      if scratch =? 0 then mret (0, Some (msg "guest malloc for the loader string failed"))
      else
        destination ← guest_ptr scratch (size text + 1) kPageWrite;
        '(result, error) ← match destination with
          | None => mret (0, Some (msg "guest loader string buffer is not writable"))
          | Some p =>
              _ ← store p (text ++ [0]);
              r ← invoke (if symbol then dlsym_fn else dlopen_fn) (if symbol then [value; scratch; 0; 0] else [scratch; value; 0; 0]);
              match r with
              | None => mret (0, Some (msg (if symbol then "guest dlsym call failed" else "guest dlopen call failed")))
              | Some g => if res_r0 g =? 0 then error ← loader_error; mret (0, Some error) else mret (res_r0 g, None)
              end
          end;
        _ ← invoke free_fn [scratch; 0; 0; 0];
        mret (result, error)).

Definition load_library_on_current (e : Z) (path : list Z) (guest_flags : Z) : svc (Z * option (list Z)) := loader_operation e false guest_flags path.
Definition find_symbol_on_current (e handle : Z) (name : list Z) : svc (Z * option (list Z)) := loader_operation e true handle name.

Definition new_local_handle (r : Z) : svc Z := if r =? 0 then mret 0 else local r.
Definition current_env : svc Z := st ← get_own; mret (tenv (me st)).
End JniNative.

(** ** Arguments *)

Section Marshal.
Context {S : Type} (ref_to_handle : S -> Z -> exec (Z * S)) (P : S -> Prop) (Hstep : forall s v, P s -> runs True (ref_to_handle s v) (fun p => P p.2)).

Lemma marshal_loop_runs r cs : Forall (fun c => c ∈ arg_letters) cs -> forall w ints fps vs s,
  P s -> host_args r cs ints fps = Some vs -> runs True (marshal_loop ref_to_handle cs r (writer_of w) (reader_of ints fps) s) (fun p => P p.2).
Proof.
  intros Hcs. induction Hcs as [|c cs Hc _ IH]; intros w ints fps vs s HP Hv; [done|]. cbn [host_args] in Hv. apply bind_Some in Hv as (v & Hv & Hrest). apply bind_Some in Hrest as (vs' & Hrest & _).
  destruct (decide (c = "L"%char)) as [->|Hl].
  - pose proof (Hstep s v HP) as Hr. destruct (ref_to_handle s v) as [[h s1]| |] eqn:E; [|clear Hr|done].
    + erewrite marshal_step_ref by done. by eapply IH.
    + cbn [marshal_loop]. repeat (first [rewrite decide_True by done|rewrite decide_False by done]). by rewrite (next_int_host r ints fps v Hv), exec_ret_bind, E.
  - erewrite marshal_step_prim by done. unfold appended, advanced. destruct (is_fp c); by eapply IH.
Qed.

Lemma marshal_runs r sig ret cs env vs s :
  Shorty.shorty_from_signature sig = Some (ret :: cs) -> length (x_ r) = 8%nat -> host_args r cs 0 0 = Some vs -> P s -> runs True (marshal_native_args ref_to_handle (ret :: cs) r env s) (fun p => P p.2).
Proof.
  intros Hs Hx Hv HP. apply signature_grammar in Hs as (ps & res & Hps & _ & _ & [= -> ->]). unfold marshal_native_args. change GuestArgWriter_init with (writer_of []). rewrite put32_flat, exec_ret_bind.
  destruct (vec_at_lt (x_ r) 1) as (recv & _ & ->); [lia|]. rewrite exec_ret_bind. pose proof (Hstep s recv HP) as Hr. destruct (ref_to_handle s recv) as [[h s1]| |]; [|done..]. rewrite exec_ret_bind, put32_flat, exec_ret_bind.
  change (runs True (marshal_loop ref_to_handle (Grammar.letter <$> ps) r (writer_of (([] ++ [env]) ++ [h])) (reader_of 0 0) s1) (fun p => P p.2)).
  eapply marshal_loop_runs; [|done|done]. apply Forall_fmap. eapply Forall_impl; [exact Hps|]. apply grammar_letter.
Qed.
End Marshal.

(** ** Native methods *)

Lemma wp_eq {A} (c : svc Jni A) s Q : wp True c s Q -> wp True c s (fun a s' => c s = Ret (a, s') /\ Q a s').
Proof. unfold wp, runs. by destruct (c s) as [[a s']| |]. Qed.


Section NativeSound.
Context (known : gset Z) (host : list hostcall -> hostcall -> answer) (guest : Z -> list Z -> Sv Jni -> option GuestResult * Sv Jni) (malloc_fn : Z).
Context (Hhost : kernel_ok host) (Hguest : guest_keeps known malloc_fn guest).

#[local] Notation from := (from known).
#[local] Notation wp_call := (wp_call known host Hhost).

Ltac args_ok := repeat (apply Forall_cons_2; [exact I|]); apply Forall_nil_2.

Lemma wp_optional b name args s0 s Q :
  from s0 s -> Forall (arg_ok (smem s)) args -> (forall s', from s0 s' -> own s' = own s -> Q tt s') -> wp True (if b : bool then mret tt else _ ← backend host name args; mret tt) s Q.
Proof. intros Hs Ha HQ. destruct b; [by apply wp_ret, HQ|]. eapply wp_bind, wp_call; [done..|]. intros a s' Hs' E _ _. by apply wp_ret, HQ. Qed.

Lemma wp_flush_around e s0 s Q : from s0 s -> (forall s', from s0 s' -> me (own s') = me (own s) -> Q tt s') -> wp True (flush_around host e) s Q.
Proof.
  intros Hs HQ. eapply wp_bind, wp_call; [done|args_ok|]. intros p s1 Hs1 E1 _ _. eapply wp_bind, wp_optional; [done|args_ok|]. intros s2 Hs2 E2. eapply wp_bind, (wp_flush known host Hhost); [done|]. intros s3 Hs3 E3.
  assert (me (own s3) = me (own s)) as E by (by rewrite E3, E2, E1). destruct (ret p =? 0); [by apply wp_ret, HQ|]. eapply wp_bind, wp_call; [done|args_ok|]. intros c s4 Hs4 E4 _ _.
  eapply wp_bind, wp_optional; [done|args_ok|]. intros s5 Hs5 E5. eapply wp_bind, wp_call; [done|args_ok|]. intros t s6 Hs6 E6 _ _. eapply wp_bind, wp_call; [done|args_ok|]. intros d s7 Hs7 E7 _ _.
  apply wp_ret, HQ; [done|]. by rewrite E7, E6, E5, E4.
Qed.

(** Popping one frame of the guest: the pop, the backend's pop, the counter. *)
Lemma wp_pop_frame s Q :
  thread_wf (me (own s)) -> (forall l, local_wf l -> frame_starts_ l = tail (frame_starts_ (locals (me (own s)))) -> Q tt (Build_Sv (set_me (own s) (set_locals (me (own s)) l)) (smem s) (scalls s))) -> wp True pop_frame s Q.
Proof.
  intros Ht HQ. apply wp_bind, wp_get_own, wp_bind, wp_lift. destruct (frame_starts_ (locals (me (own s)))) as [|start rest] eqn:Ef.
  - unfold LocalHandles_pop_frame. rewrite Ef. apply wp_bind, wp_get_own, wp_put_own, HQ; [apply Ht|by rewrite Ef].
  - destruct (local_pop_ok _ start rest (tw_locals _ Ht) Ef) as (l & E & Hl & El & _). rewrite E. by apply wp_bind, wp_get_own, wp_put_own, HQ.
Qed.

Lemma wp_pop_user n e s0 : forall kept s Q, from s0 s -> user_frames (me (own s)) = Z.of_nat n ->
  (forall kept s', from s0 s' -> user_frames (me (own s')) = 0 -> Q kept s') -> wp True (pop_user_frames host n e kept) s Q.
Proof.
  induction n as [|n IH]; intros kept s Q Hs Hn HQ; cbn [pop_user_frames]; [by apply wp_ret, HQ|]. pose proof (ji_me _ _ (from_inv known _ _ Hs)) as Ht.
  destruct (thread_pop (me (own s)) Ht) as (rel & l & E & Hw & Hb); [lia|]. apply wp_bind, wp_bind, wp_get_own, wp_bind, wp_lift. rewrite E. apply wp_bind, wp_get_own, wp_put_own, wp_bind, (wp_backend host Hhost); [exact (from_wf known s0 s Hs)|args_ok|].
  intros m How Hm. cbn [own smem scalls]. apply wp_bind, wp_bind, wp_get_own, wp_put_own. cbn [own smem scalls]. apply IH; [|cbn; lia|done].
  change (JniSound.from known s0 (Build_Sv (set_me (own s) (set_user_frames (set_locals (me (own s)) l) (user_frames (me (own s)) - 1))) m (scalls s ++ [{| h_name := "pop_local_frame"; h_args := [HInt e; HInt kept] |}]))).
  apply (from_memory known s0 (Build_Sv (set_me (own s) (set_user_frames (set_locals (me (own s)) l) (user_frames (me (own s)) - 1))) (smem s) (scalls s))); [|done..]. by apply from_thread.
Qed.

(** The thread inside a native method, and after it. *)
Definition entered (t : JniThread) (e : Z) : JniThread := set_locals (set_user_frames (set_native_depth (set_tenv t e) (native_depth t + 1)) 0) (LocalHandles_push_frame (locals t)).
Definition returned_to (t : JniThread) (l : LocalHandles) (outer_env outer_user_frames : Z) : JniThread :=
  set_tenv (set_native_depth (set_user_frames (set_locals t l) outer_user_frames) (native_depth t - 1)) outer_env.

Definition inside (s : Sv Jni) (e : Z) : Sv Jni := Build_Sv (set_me (own s) (entered (me (own s)) e)) (smem s) (scalls s).

Lemma inside_safe s e : safe_state known s -> e <> 0 -> safe_state known (inside s e).
Proof.
  intros (Hi & Hm & Hmap) He. split; [|done]. destruct Hi as [[H1 H2 H3 H4 H5] ? ? ? ? ? ? ? ?]. split; try done. split; cbn; try done.
  - by apply local_push_wf.
  - lia.
Qed.

(** Leaving a native method after anything the promise allows. *)
Lemma leave_native s s1 e s6 l m cs :
  from s s1 -> from (inside s1 e) s6 -> user_frames (me (own s6)) = 0 -> local_wf l -> frame_starts_ l = tail (frame_starts_ (locals (me (own s6)))) -> mem_wf m -> pages_ m = pages_ (smem s6) ->
  let t := returned_to (me (own s6)) l (tenv (me (own s))) (user_frames (me (own s1))) in
  from s (Build_Sv (set_me (own s6) t) m cs) /\ frame_starts_ (locals t) = frame_starts_ (locals (me (own s1))).
Proof.
  intros Hs1 [(Hi & Hm & Hmap) Hk] Hu Hl El Hm' Ep t. destruct (ji_me _ _ (proj1 (proj1 Hs1))) as [H1 H2 H3 H4 H5]. pose proof (k_depth _ _ Hk) as Ed. cbn in Ed.
  destruct (k_frame _ _ Hk) as [_ Ef]; [cbn; lia|]. unfold base_frames in Ef. rewrite Hu in Ef. cbn in Ef. rewrite !drop_0 in Ef. rewrite Ef in El. cbn in El.
  pose proof (k_depth _ _ (proj2 Hs1)) as Ed1. assert (base_frames t = base_frames (me (own s1))) as Eb by (unfold base_frames, t; cbn; by rewrite El).
  assert (0 < native_depth (me (own s)) -> tenv (me (own s)) <> 0) as Henv. { intros Hd. destruct (k_frame _ _ (proj2 Hs1) Hd) as [<- _]. apply H4. lia. }
  split; [|done]. split; [split; [|split; [done|]]|].
  - destruct Hi as [[? ? ? ? Henv6] ? ? ? ? ? ? ? ?]. split; try done. change (thread_wf t). assert (native_depth t = native_depth (me (own s))) as Et by (unfold t; cbn; lia). split; rewrite ?Et, ?Eb; try done.
    + unfold t, LocalHandles_frame_count in *. cbn. by rewrite El.
    + lia.
    + intros Hd. split; [by apply Henv|apply H4; lia].
  - intros a x Hx. cbn [smem]. rewrite (accessible_same (smem s6)); [by apply (Hmap a x)|done].
  - destruct (proj2 Hs1) as [K1 K2 K3 K4 K5 K6]. destruct Hk as [_ _ L3 L4 L5 L6]. split.
    + cbn. lia.
    + intros Hd. split; [done|]. change (base_frames t = base_frames (me (own s))). rewrite Eb. by apply K2.
    + cbn. intros Hr. destruct (K3 Hr) as [R1 R2]. destruct (L3 R1) as [R3 R4]. split; [done|]. by rewrite R4.
    + by trans (ids_ (methods (own s1))).
    + by trans (ids_ (fields (own s1))).
    + intros i x Hx. by apply L6, K6.
Qed.

Definition build_ok (build : Z -> LocalHandles -> exec (GuestCall * LocalHandles)) : Prop :=
  forall ge l, local_wf l -> frame_starts_ l <> [] -> runs True (build ge l) (fun p => local_wf p.2 /\ frame_starts_ p.2 = frame_starts_ l).

(** The environment of the thread in the guest is there, or the guest's code makes it. *)
Definition given_env (s s1 : Sv Jni) : Prop := s1 = s \/ guest_env (me (own s)) = 0 /\ exists ok, ensure_guest_env host guest s = Ret (ok, s1).

(** What a native call leaves behind: the frames are those of the thread once it had its
    environment in the guest, which is the state before the call unless the call is the
    first of the thread. *)
Definition restored (s s' : Sv Jni) : Prop :=
  from s s' /\ exists s1, given_env s s1 /\ from s s1 /\
    user_frames (me (own s')) = user_frames (me (own s1)) /\ frame_starts_ (locals (me (own s'))) = frame_starts_ (locals (me (own s1))) /\
    (tenv (me (own s')) = tenv (me (own s)) \/ own s' = own s1).

Lemma wp_ensured s Q : safe_state known s -> (forall ok s', from s s' -> given_env s s' -> Q ok s') -> wp True (ensure_guest_env host guest) s Q.
Proof.
  intros Hs HQ. destruct (Z.eqb_spec (guest_env (me (own s))) 0) as [E|Hn].
  - eapply wp_mono; [apply wp_eq, (wp_guest_env known host guest malloc_fn Hhost Hguest s s (fun _ s' => from s s')); [by apply from_refl|done]|]. intros ok s' [Er Hs']. apply HQ; [done|]. right. by eauto.
  - apply wp_bind, wp_get_own. rewrite (proj2 (Z.eqb_neq _ 0)) by done. apply wp_ret, HQ; [by apply from_refl|by left].
Qed.

(** The body of a native method: the arguments, the guest's run, the flush and the result. *)
Lemma wp_native_body e return_type function build s0 s frames Q :
  from s0 s -> build_ok build -> 0 < native_depth (me (own s)) -> user_frames (me (own s)) = 0 -> frame_starts_ (locals (me (own s))) <> [] ->
  (forall r kept s', from s0 s' -> user_frames (me (own s')) = 0 -> Q (r, kept) s') ->
  wp True (native_body host guest e return_type function build frames) s Q.
Proof.
  intros Hs Hb Hd Hu Hf HQ. pose proof (ji_me _ _ (from_inv known _ _ Hs)) as Ht. apply wp_bind, wp_get_own, wp_bind, wp_lift. pose proof (Hb (guest_env (me (own s))) _ (tw_locals _ Ht) Hf) as Hrun.
  destruct (build _ _) as [[args l]| |]; [|done..]. destruct Hrun as [Hl El]. destruct (thread_wf_same (me (own s)) l Ht Hl El) as [Hw Eb]. cbn [runs].
  eapply wp_bind, wp_thread; [done|done|done|by intros _|]. intros s1 Hs1 _ _. eapply wp_bind, (wp_invoke known host guest malloc_fn Hhost Hguest); [done|]. intros r s2 Hs2 Hr.
  eapply wp_bind, wp_flush_around; [done|]. intros s3 Hs3 _. apply wp_bind. eapply (wp_mono _ _ _ (fun _ s' => s' = s3)).
  - destruct r as [g|]; [|by apply wp_ret]. destruct (letter _ _); [|by apply wp_ret]. eapply wp_resolve; [done|apply Hr|done].
  - intros kept s' ->. apply wp_bind, wp_get_own, wp_bind. pose proof (tw_user _ (ji_me _ _ (from_inv known _ _ Hs3))). destruct (_ || _) eqn:Ec.
    + eapply wp_pop_user; [done|lia|]. intros kept' s4 Hs4 Hu4. by apply wp_ret, HQ.
    + apply wp_ret, wp_ret, HQ; [done|]. apply orb_false_iff in Ec as [_ Ec]. apply negb_false_iff, Z.eqb_eq in Ec. done.
Qed.

(** A native call, with what the guest returned. *)
Lemma wp_call_native e return_type function build s :
  safe_state known s -> e <> 0 -> build_ok build -> wp True (call_native host guest e return_type function build) s (fun r s' => restored s s' /\ (r <> None -> tenv (me (own s')) = tenv (me (own s)))).
Proof.
  intros Hs He Hb. pose proof (from_refl known s Hs) as Hf. apply wp_bind, wp_get_own. cbv zeta. destruct (_ && _); [by apply wp_abort|].
  assert (forall s1 s', from s s1 -> given_env s s1 -> from s s' -> own s' = own s1 -> restored s s') as Hearly. { intros s1 s' Hs1 Hg Hs' E. split; [done|]. exists s1. rewrite E. split_and!; [done..|by right]. }
  destruct (negb (ready (own s))); [apply wp_ret; split; [apply (Hearly s); [done|by left|done|done]|done]|].
  apply wp_bind, wp_ensured; [done|]. intros ok s1 Hs1 Hg. destruct ok; cbn [negb]; [|apply wp_ret; split; [by apply (Hearly s1)|done]]. eapply wp_bind, wp_call; [done|args_ok|]. intros rc s2 Hs2 E2 _ _. destruct (negb _); [apply wp_ret; split; [by apply (Hearly s1)|done]|].
  apply wp_bind, wp_get_own, wp_bind, wp_bind, wp_get_own, wp_put_own, wp_bind, wp_get_own, wp_bind. change (Build_Sv _ (smem s2) (scalls s2)) with (inside s2 e). cbn [own inside].
  pose proof (inside_safe s2 e (proj1 Hs2) He) as Hin. pose proof (tw_depth _ (ji_me _ _ (from_inv known _ _ Hs2))) as Hd.
  eapply (wp_native_body e return_type function build (inside s2 e)); [by apply from_refl|done|cbn; lia|done|done|]. intros r kept s6 Hs6 Hu. apply wp_bind, wp_pop_frame; [apply (from_inv known _ _ Hs6)|]. intros l Hl El.
  apply wp_bind, (wp_backend host Hhost); [exact (from_wf known _ _ Hs6)|args_ok|]. intros m How Hm. apply wp_bind, wp_bind, wp_get_own, wp_put_own, wp_ret. cbn [own smem scalls].
  destruct (leave_native s s2 e s6 l m (scalls s6 ++ [{| h_name := "pop_local_frame"; h_args := [HInt e; HInt kept] |}]) Hs2 Hs6 Hu Hl El Hm (proj1 How)) as [Hend Ef].
  split; [|done]. split; [exact Hend|]. exists s1. split_and!; [done..|cbn; by rewrite E2|etrans; [exact Ef|]; by rewrite E2|by left].
Qed.

(** C27: a native method that Java calls, on a thread that is inside other natives or in none
    and with or without an environment in the guest, under the same reliance on guest code as
    the bridge's calls ([guest_keeps]: it leaves the bridge's tables to the bridge, keeps the
    buffer mirrors mapped, and its malloc answers with usable memory): whatever else the
    guest does inside it, unless the bridge aborts, the depth of the thread is afterwards what it was before; so are
    its local frames and its frame counter, counted from the state in which the thread has
    its environment in the guest, that is the state before the call unless the guest's code
    had to make one; a native that ran leaves the thread the environment of Java it had; and
    when the thread was inside a native already, that native's environment and frame are as
    they were even so.  The bridge is consistent, and nothing outside guest memory was
    touched.  This is what the bridge relies on when a native runs inside one of its calls. *)
Theorem call_native_restores e return_type function build s :
  safe_state known s -> e <> 0 -> build_ok build ->
  wp True (call_native host guest e return_type function build) s
    (fun r s' => restored s s' /\ native_depth (me (own s')) = native_depth (me (own s)) /\
       (r <> None -> tenv (me (own s')) = tenv (me (own s))) /\
       (guest_env (me (own s)) <> 0 -> tenv (me (own s')) = tenv (me (own s)) /\ user_frames (me (own s')) = user_frames (me (own s)) /\ frame_starts_ (locals (me (own s'))) = frame_starts_ (locals (me (own s)))) /\
       (0 < native_depth (me (own s)) -> tenv (me (own s')) = tenv (me (own s)) /\ base_frames (me (own s')) = base_frames (me (own s)))).
Proof.
  intros Hs He Hb. eapply wp_mono; [by apply wp_call_native|]. intros r s' [Hr Ht]. split; [done|]. destruct Hr as [Hf (s1 & Hg & _ & Eu & Ef & Et)]. split; [apply (from_depth known _ _ Hf)|]. split; [done|]. split; [|apply (k_frame _ _ (proj2 Hf))].
  intros Hn. destruct Hg as [->|[? _]]; [|done]. split_and!; [|done..]. by destruct Et as [?| ->].
Qed.

(** ** The dispatcher *)

Lemma add_keeps_frames fs l v : fs <> [] -> local_wf l /\ frame_starts_ l = fs -> runs True (LocalHandles_add l v) (fun p => local_wf p.2 /\ frame_starts_ p.2 = fs).
Proof.
  intros Hfs [Hl El]. destruct (local_add_total l v Hl) as [(h & l' & E)|[-> _]]; [|done]. rewrite E. cbn. pose proof (add_frames _ _ _ _ E) as Hf. split.
  - destruct (decide (v = 0)) as [->|Hv]; [by injection E as <- <-|]. by apply (local_add_ok _ _ _ _ Hl Hv E).
  - rewrite El in Hf. destruct Hf as [-> | ->]; [done|]. by destruct fs.
Qed.

(** a thunk that Java calls: the slot runs the guest function it was bound to with the
    converted arguments, or ends the process; the thread is restored afterwards, and the
    result registers are always written from what the guest returned, since a bound slot
    has the shorty of an accepted signature. *)
Theorem dispatch_native_sound slot regs s :
  safe_state known s -> length (x_ regs) = 8%nat -> length (d_ regs) = 8%nat -> x_ regs !! 0%nat <> Some 0 ->
  (forall t, slots_target (slots (own s)) slot = Some t -> is_Some (host_args regs (drop 1 (shorty t)) 0 0)) ->
  wp True (dispatch_native host guest slot regs) s (fun _ s' => restored s s' /\ is_Some (slots_target (slots (own s')) slot)).
Proof.
  intros Hs Hx Hd He Hargs. apply wp_bind, wp_get_own. destruct (slots_target (slots (own s)) slot) as [t|] eqn:Et; [|by apply wp_abort]. destruct (Hargs t eq_refl) as [vs Hvs].
  assert (accepted t) as [sig Hsig].
  { pose proof (sw_shorty _ (ji_slots _ _ (proj1 Hs))) as Hall. unfold slots_target in Et. destruct (sready_ (slots (own s)) !! Z.to_nat slot) as [[]|]; [|done..]. rewrite Forall_lookup in Hall. by apply (Hall _ _ Et). }
  pose proof Hsig as Hg. apply signature_grammar in Hg as (ps & res & _ & Hres & _ & Esh). rewrite Esh in *. apply wp_bind, wp_lift. cbn [vec_at lookup list_lookup runs]. apply wp_bind, wp_lift.
  destruct (vec_at_lt (x_ regs) 0) as (e & He0 & ->); [lia|]. cbn [runs]. assert (e <> 0) as Hne by congruence. apply wp_bind. eapply wp_mono; [apply wp_call_native; [done|done|]|].
  - intros ge l Hl Hfs. eapply (marshal_runs LocalHandles_add (fun l' => local_wf l' /\ frame_starts_ l' = frame_starts_ l)); [|done|done|done|done]. intros l' v Hl'. by apply add_keeps_frames.
  - intros r s1 [Hr _]. assert (is_Some (slots_target (slots (own s1)) slot)) as Hslot by (exists t; by apply (k_slots _ _ (proj2 (proj1 Hr)))). destruct r as [[g ref]|].
    + apply wp_lift. destruct (store_result_total res regs (res_r0 g) (res_r1 g) (fun _ => ref) Hres Hx Hd) as (r' & ->). by split.
    + eapply wp_bind, wp_call; [apply Hr|args_ok|]. intros c s2 Hs2 E2 _ _. destruct (ret c =? 0); [by apply wp_fatal|]. apply wp_bind, wp_lift. rewrite vec_set_lt by lia. apply wp_bind, wp_lift. rewrite vec_set_lt by lia.
      apply wp_ret. rewrite E2. split; [|done]. destruct Hr as [_ Hr]. split; [done|]. by rewrite E2.
Qed.

(** ** The loader *)

Lemma wp_error_loop n : forall s address text Q, from s s -> 0 <= address -> (forall t, Q t s) -> wp True (error_loop n address text) s Q.
Proof.
  induction n as [|n IH]; intros s address text Q Hs Ha HQ; cbn [error_loop]; [by apply wp_ret|]. destruct (_ <=? _); [by apply wp_ret|]. apply wp_bind, wp_ptr; intros Ea; [|by apply wp_ret].
  eapply wp_bind, (wp_read_block known _ 1); [done|apply u32_range|lia|done|]. intros bs _ _. destruct (_ =? 0); [by apply wp_ret|]. apply IH; [done|lia|done].
Qed.

Lemma wp_loader_error dlerror_fn s0 s Q : from s0 s -> (forall t s', from s0 s' -> Q t s') -> wp True (loader_error host guest dlerror_fn) s Q.
Proof.
  intros Hs HQ. eapply wp_bind, (wp_invoke known host guest malloc_fn Hhost Hguest); [done|]. intros [g|] s1 Hs1 Hr; [|by apply wp_ret, HQ]. destruct (_ =? 0); [by apply wp_ret, HQ|].
  apply wp_error_loop; [apply from_refl, Hs1|apply Hr|]. intros t. by apply HQ.
Qed.

Lemma wp_set_env v s0 s Q :
  from s0 s -> (0 < native_depth (me (own s)) -> tenv (me (own s)) = v) -> (forall s', from s0 s' -> tenv (me (own s')) = v -> Q tt s') -> wp True (set_thread (fun m => set_tenv m v)) s Q.
Proof.
  intros Hs Hv HQ. eapply (wp_thread known); [done| |done| |].
  - destruct (ji_me _ _ (from_inv known _ _ Hs)) as [H1 H2 H3 H4 H5]. split; try done. cbn. intros Hd. rewrite <- (Hv Hd). by apply H4.
  - intros Hd. by rewrite (Hv Hd).
  - intros s' Hs' E _. apply HQ; [done|]. by rewrite E.
Qed.

(** The operation under the environment keeps the promise when its body does. *)
Lemma wp_thread_env e body s (R : Z * option (list Z) -> Prop) :
  safe_state known s -> (forall m, R (0, Some m)) -> (forall s0, safe_state known s0 -> tenv (me (own s0)) = e -> wp True body s0 (fun r s' => from s0 s' /\ R r)) ->
  wp True (with_thread_env e body) s (fun r s' => from s s' /\ R r /\ tenv (me (own s')) = tenv (me (own s))).
Proof.
  intros Hs HR Hbody. apply wp_bind, wp_get_own. cbv zeta. pose proof (from_refl known _ Hs) as Hf. destruct (Z.eqb_spec e 0); [by apply wp_ret|].
  destruct (_ && _) eqn:Ec; [by apply wp_ret|]. assert (0 < native_depth (me (own s)) -> tenv (me (own s)) = e) as Henv.
  { intros Hd. destruct (tw_native _ (ji_me _ _ (proj1 Hs)) Hd) as [Hn _]. apply andb_false_iff in Ec as [Ec|Ec]; apply negb_false_iff, Z.eqb_eq in Ec; done. }
  eapply wp_bind, wp_set_env; [done|done|]. intros s1 Hs1 E1. apply wp_bind. eapply wp_mono; [by apply Hbody; [apply Hs1|]|]. intros r s2 [Hs2 Hr]. pose proof (from_trans known _ _ _ Hs1 Hs2) as H12.
  eapply wp_bind, wp_set_env; [done| |].
  - intros Hd. rewrite (from_depth known _ _ H12) in Hd. by apply (k_frame _ _ (proj2 H12)).
  - intros s3 Hs3 E3. by apply wp_ret.
Qed.

Lemma wp_loader_operation free_fn dlopen_fn dlsym_fn dlerror_fn e symbol value text s :
  safe_state known s ->
  wp True (loader_operation host guest malloc_fn free_fn dlopen_fn dlsym_fn dlerror_fn e symbol value text) s
    (fun r s' => from s s' /\ (word r.1 /\ (r.1 = 0 <-> r.2 <> None)) /\ tenv (me (own s')) = tenv (me (own s))).
Proof.
  intros Hs. pose proof (from_refl known _ Hs) as Hf. apply wp_bind, wp_get_own. destruct (negb _); [by apply wp_ret|]. destruct (_ || _) eqn:Eb; [by apply wp_ret|]. apply orb_false_iff in Eb as [_ Eb]. apply Z.leb_gt in Eb.
  unfold ZB_SERVICE_SCRATCH_SIZE in Eb. apply (wp_thread_env e _ s (fun r => word r.1 /\ (r.1 = 0 <-> r.2 <> None))); [done|done|]. intros s0 Hs0 _. pose proof (from_refl known _ Hs0) as Hf0.
  eapply wp_bind, (wp_invoke known host guest malloc_fn Hhost Hguest); [done|]. intros r s1 Hs1 Hr. cbv zeta. set (scratch := match r with Some r => _ | None => _ end). assert (word scratch) as Hw by (unfold scratch; destruct r; [apply Hr|done]).
  destruct (scratch =? 0); [by apply wp_ret|]. pose proof (size_nonneg text).
  assert (forall result (error : option (list Z)) s2, from s0 s2 -> word result /\ (result = 0 <-> error <> None) -> wp True (_ ← invoke host guest free_fn [scratch; 0; 0; 0]; mret (result, error)) s2 (fun r s' => from s0 s' /\ word r.1 /\ (r.1 = 0 <-> r.2 <> None))) as Hend.
  { intros result error s2 Hs2 Hres. eapply wp_bind, (wp_invoke known host guest malloc_fn Hhost Hguest); [done|]. intros _ s3 Hs3 _. by apply wp_ret. }
  apply wp_bind, wp_ptr; intros Ea; apply wp_bind; [|by apply wp_ret, Hend]. eapply wp_bind, (wp_write_block known _ _ (size text + 1)); [done|done| |done|]; [unfold size in *; rewrite length_app; cbn; lia|]. intros s2 Hs2.
  eapply wp_bind, (wp_invoke known host guest malloc_fn Hhost Hguest); [done|]. intros [g|] s3 Hs3 Hg; [|by apply wp_ret, Hend]. destruct (Z.eqb_spec (res_r0 g) 0).
  - eapply wp_bind, wp_loader_error; [done|]. intros t s4 Hs4. by apply wp_ret, Hend.
  - apply wp_ret, Hend; [done|]. split; [apply Hg|done].
Qed.

(** the loader calls of the bridge return a handle or an error, never both and never
    neither; the environment of the thread is the one before the call, the bridge keeps its
    promises, and the string handed to the guest lies in a block the guest may write. *)
Theorem loader_operation_sound free_fn dlopen_fn dlsym_fn dlerror_fn e symbol value text s :
  safe_state known s ->
  wp True (loader_operation host guest malloc_fn free_fn dlopen_fn dlsym_fn dlerror_fn e symbol value text) s
    (fun r s' => from s s' /\ (word r.1 /\ (r.1 = 0 <-> r.2 <> None)) /\ tenv (me (own s')) = tenv (me (own s))).
Proof. apply wp_loader_operation. Qed.
End NativeSound.

(** ** Method ids *)

Section MethodIds.
Context (known : gset Z) (host : list hostcall -> hostcall -> answer) (natives : hostcall -> Sv Jni -> Sv Jni).
Context (Hhost : kernel_ok host) (Hids : ids_known known host) (Hnatives : natives_keep known natives).

Lemma wp_write_shorty_holds a sh s0 s Q :
  from known s0 s -> word a -> (forall s', from known s0 s' -> Z.of_nat (length sh) <= 256 -> holds (smem s') a (bytes_of sh ++ [0]) -> Q tt s') -> wp True (write_shorty a sh) s Q.
Proof.
  intros Hs Ha HQ. unfold write_shorty. destruct (Z.ltb_spec ZB_JNI_SHORTY_SIZE (size (bytes_of sh) + 1)) as [|Hn]; [apply wp_fatal|]. unfold ZB_JNI_SHORTY_SIZE in Hn. pose proof (size_nonneg (bytes_of sh)).
  eapply wp_bind, (wp_checked known); [done..|]. intros Hacc He. apply (wp_store _ _ _ a (size (bytes_of sh) + 1) kPageWrite); [by eapply from_wf|done|lia|done|done|lia|unfold size; rewrite length_app; cbn; lia|].
  intros m Ew How Hm. apply HQ; [by apply from_memory|unfold size, bytes_of in Hn; rewrite length_map in Hn; lia|]. cbn. eapply host_write_holds; [|done]. by destruct (bytes_of sh).
Qed.

Lemma wp_read_string_exact a s Q : mem_wf (smem s) -> word a -> (forall t, text_at (smem s) a t -> Q t s) -> wp True (read_string a) s Q.
Proof.
  intros Hm Ha HQ. apply wp_bind, wp_string; [done|done|vm_compute; split; discriminate|]. intros [t|] Ht; [|apply wp_fatal]. apply wp_ret, HQ, Ht.
Qed.

Lemma wp_arg_reg rs i s Q : (i < 4)%nat -> Q (reg rs i) s -> wp True (arg rs i) s Q.
Proof. intros Hi HQ. unfold arg. rewrite (proj2 (Nat.ltb_lt i 4)) by done. by apply wp_ret. Qed.

(** a method id that [GetMethodID] hands to the guest names the method Java found for
    the strings of the guest, the bridge keeps with it the shorty of exactly that signature,
    and the same letters are in the guest's buffer, ended by a zero.  So a later call with
    the id converts the arguments by the signature the guest asked for. *)
Theorem method_id_hands_over rs s :
  words rs -> safe_state known s ->
  wp True (hc_GetMethodID host natives rs) s (fun r s' => r.1 = 0 \/
    exists name sig sh cls log out s1,
      text_at (smem s) (reg rs 1) name /\ text_at (smem s) (reg rs 2) sig /\ Shorty.shorty_from_signature (chars sig) = Some sh /\
      IdTable_get (methods (own s')) r.1 =
        Ret (Some (ret (host log {| h_name := "get_method_id"; h_args := [HInt (tenv (me (own s))); HInt cls; HPath name; HPath sig; HInt (Z.b2z (negb (reg rs 3 =? 0)))] |}))) /\
      shorties (own s') !! Z.to_nat (r.1 - 1) = Some sh /\ from known s s1 /\ arg rs 4 s1 = Ret (out, s1) /\ holds (smem s') out (bytes_of sh ++ [0])).
Proof.
  intros Hw Hs. pose proof (from_refl known s Hs) as Hf. pose proof (from_wf known _ _ Hf) as Hm. apply wp_bind, wp_env. intros _. eapply wp_bind, (wp_ref known); [done..|]. intros cls.
  apply wp_bind, wp_arg_reg; [lia|]. apply wp_bind, wp_read_string_exact; [done|by apply reg_word|]. intros name Hname. apply wp_bind, wp_arg_reg; [lia|].
  apply wp_bind, wp_read_string_exact; [done|by apply reg_word|]. intros sig Hsig. apply wp_bind, wp_arg_reg; [lia|].
  eapply wp_bind, (wp_java known host natives Hhost Hnatives); [done|repeat (apply Forall_cons_2; [exact I|]); apply Forall_nil_2|]. intros a s1 Hs1 [log Ea]. unfold hand_method.
  assert (ret a = 0 \/ ret a ∈ known) as Hid by (rewrite Ea; apply id_answers; [done|set_solver]). destruct (Z.eqb_spec (ret a) 0) as [|Hnz]; [by apply wp_ret; left|].
  destruct (Shorty.shorty_from_signature (chars sig)) as [sh|] eqn:Esh; [|apply wp_fatal]. apply wp_bind. eapply wp_mono; [apply wp_eq; eapply (wp_arg known rs 4 s s1 (fun v s' => word v /\ s' = s1)); by auto|].
  intros out s1' (Earg & Hout & ->). eapply wp_bind, wp_write_shorty_holds; [done..|]. intros s2 Hs2 Hl Hholds.
  eapply wp_bind, (wp_intern_method known host Hids); [done|by destruct Hid|done|split; [by eapply signature_shorty|lia]|]. intros g s3 Hs3 _ Eg Esh' _ Em. apply wp_ret. right. rewrite Em. cbn [fst]. rewrite Ea in Eg.
  exists name, sig, sh, cls, log, out, s1. by split_and!.
Qed.
End MethodIds.

(** ** A run *)

(** A Java side that answers 0, the environment 5 on this thread, and a guest that leaves a
    local frame open in every call. *)
Definition sample_java (log : list hostcall) (c : hostcall) : answer := {| ret := if decide (h_name c = "exception_check") then 1 else 0; errno := 0; guest_writes := []; outs := [] |}.
Definition sample_quiet (c : hostcall) (s : Sv Jni) : Sv Jni := s.
Definition sample_native (f : Z) (args : list Z) (s : Sv Jni) : option GuestResult * Sv Jni :=
  match hc_PushLocalFrame sample_java sample_quiet (replicate 16 0) s with
  | Ret (_, s') => (Some {| res_r0 := 0; res_r1 := 0 |}, s')
  | _ => (None, s)
  end.

Definition sample_method : NativeTarget := {| guest_function := 0x8000; shorty := ["I"%char; "J"%char]; is_static := true |}.
Definition sample_bridge : Jni :=
  set_slots (set_me (set_ready (Jni_init 4) true) (set_carrier (set_guest_env (set_tenv JniThread_init 5) 0x9000) true))
    {| capacity_ := 4; targets_ := [sample_method]; sready_ := [true]; released_ := [] |}.
Definition sample_jni : Sv Jni := Build_Sv sample_bridge (km sample_text) [].
Definition sample_args : NativeRegs := {| x_ := [5; 0; 7; 0; 0; 0; 0; 0]; d_ := replicate 8 0; stack_ := [] |}.

Lemma sample_java_ok : kernel_ok sample_java.
Proof. by intros log c a bs ?%elem_of_nil. Qed.
Lemma sample_ids : ids_known ∅ sample_java.
Proof. split; [by vm_compute|]. intros log c Hc. left. cbn. case_decide as E; [|done]. rewrite E in Hc. exfalso. set_solver. Qed.
Lemma sample_quiet_ok : natives_keep ∅ sample_quiet.
Proof. split; intros c s Hs; apply (from_disciplined ∅ s s), from_refl, Hs. Qed.

Lemma words_zero : words (replicate 16 0).
Proof. split; [done|]. by apply Forall_replicate. Qed.

Lemma sample_native_ok : guest_keeps ∅ 1 sample_native.
Proof.
  assert (forall f args s, safe_state ∅ s -> from ∅ s (sample_native f args s).2 /\ (forall r, (sample_native f args s).1 = Some r -> r = {| res_r0 := 0; res_r1 := 0 |})) as Hall; [|split; [intros f args s Hs; apply (from_disciplined ∅ s), Hall, Hs|intros f args s r Hs E; by rewrite (proj2 (Hall f args s Hs) r E)|intros f args s Hs; apply (from_disciplined ∅ s), Hall, Hs|intros args s r Hs E; by rewrite (proj2 (Hall 1 args s Hs) r E)]].
  intros f args s Hs. unfold sample_native. pose proof (push_frame_sound ∅ sample_java sample_quiet sample_java_ok sample_quiet_ok (replicate 16 0) s s words_zero (from_refl _ _ Hs)) as H. unfold wp, runs in H.
  destruct (hc_PushLocalFrame _ _ _ _) as [[r s']| |]; [|split; [by apply from_refl|done]|done]. split; [apply H|]. by intros ? [= <-].
Qed.

Lemma sample_jni_safe : safe_state ∅ sample_jni.
Proof.
  split; [|split; [exact sample_text_wf|by intros a m Hm]]. split; try done.
  - split; try done. apply local_wf_init.
  - apply global_wf_init.
  - apply global_wf_init.
  - split; [apply id_wf_init|done].
  - split; [apply id_wf_init|done].
  - split; try done; [|by constructor|].
    + intros i. split; [by intros ?%elem_of_nil|]. destruct i as [|i]; [done|]. by destruct i.
    + apply Forall_singleton. exists (String.list_ascii_of_string "(J)I"). reflexivity.
Qed.

(** The native returned although a frame was open, and its frame is gone. *)
Lemma call_native_restores_witness :
  exists r s, call_native sample_java sample_native 5 "I" 0x8000 (fun ge l => Ret (GuestCall_init, l)) sample_jni = Ret (r, s) /\ bool_decide (is_Some r) = true /\
    restored ∅ sample_java sample_native sample_jni s /\ native_depth (me (own s)) = native_depth (me (own sample_jni)) /\ (r <> None -> tenv (me (own s)) = tenv (me (own sample_jni))) /\
    (guest_env (me (own sample_jni)) <> 0 -> tenv (me (own s)) = tenv (me (own sample_jni)) /\ user_frames (me (own s)) = user_frames (me (own sample_jni)) /\ frame_starts_ (locals (me (own s))) = frame_starts_ (locals (me (own sample_jni)))) /\
    (0 < native_depth (me (own sample_jni)) -> tenv (me (own s)) = tenv (me (own sample_jni)) /\ base_frames (me (own s)) = base_frames (me (own sample_jni))).
Proof.
  apply (wp_run _ _ _ _ (fun r => bool_decide (is_Some r)) (call_native_restores ∅ sample_java sample_native 1 sample_java_ok sample_native_ok 5 "I" 0x8000 (fun ge l => Ret (GuestCall_init, l)) sample_jni sample_jni_safe
    ltac:(discriminate) ltac:(intros ge l Hl Hf; split; [exact Hl|reflexivity]))).
  vm_compute. reflexivity.
Defined.

Lemma dispatch_native_sound_witness :
  exists regs s, dispatch_native sample_java sample_native 0 sample_args sample_jni = Ret (regs, s) /\ (length (x_ regs) =? 8)%nat = true /\ restored ∅ sample_java sample_native sample_jni s /\ is_Some (slots_target (slots (own s)) 0).
Proof.
  apply (wp_run _ _ _ _ (fun regs => (length (x_ regs) =? 8)%nat) (dispatch_native_sound ∅ sample_java sample_native 1 sample_java_ok sample_native_ok 0 sample_args sample_jni sample_jni_safe eq_refl eq_refl
    ltac:(discriminate) ltac:(intros t E; injection E as <-; eexists; vm_compute; reflexivity))).
  vm_compute. reflexivity.
Defined.

Lemma loader_operation_sound_witness :
  exists r s, loader_operation sample_java sample_native 1 2 3 4 6 5 true 7 [65] sample_jni = Ret (r, s) /\ bool_decide (is_Some r.2) = true /\
    from ∅ sample_jni s /\ (word r.1 /\ (r.1 = 0 <-> r.2 <> None)) /\ tenv (me (own s)) = tenv (me (own sample_jni)).
Proof.
  apply (wp_run _ _ _ _ (fun r => bool_decide (is_Some r.2)) (loader_operation_sound ∅ sample_java sample_native 1 sample_java_ok sample_native_ok 2 3 4 6 5 true 7 [65] sample_jni sample_jni_safe)). vm_compute. reflexivity.
Defined.

#[local] Notation sample_switch := (jni_handle_host_call sample_java sample_native sample_quiet 1 0x100000000 0).

Lemma jni_call_sound_witness :
  exists r s, sample_switch ZB_JNI_HC_PushLocalFrame (replicate 16 0) sample_jni = Ret (r, s) /\ bool_decide (is_Some r) = true /\
    match r with Some rs => 0xFB00 <= ZB_JNI_HC_PushLocalFrame <= 0xFCFF /\ answered (replicate 16 0) rs /\ from ∅ sample_jni s | None => ~ 0xFB00 <= ZB_JNI_HC_PushLocalFrame <= 0xFCFF /\ s = sample_jni end.
Proof.
  apply (wp_run _ _ _ _ (fun r => bool_decide (is_Some r))
    (jni_call_sound ∅ sample_java sample_native sample_quiet 1 0x100000000 0 sample_java_ok sample_ids sample_native_ok sample_quiet_ok ZB_JNI_HC_PushLocalFrame (replicate 16 0) sample_jni words_zero sample_jni_safe)).
  vm_compute. reflexivity.
Defined.

(** ** Where the code says more than it does *)

Definition sample_attached : Sv Jni := Build_Sv (set_me sample_bridge (set_attached (me sample_bridge) true)) (km sample_text) [].

(** A detach starts the local table anew, serials included: the first handle of the thread
    names another object when the thread attaches again. *)
Example detach_revives_handle :
  match (h ← local 77; _ ← hc_DetachCurrentThread sample_java sample_native sample_quiet (replicate 16 0); _ ← local 99; r ← resolve h; mret (h, r)) sample_attached with
  | Ret ((h, r), _) => negb (h =? 0) && (r =? 99)
  | _ => false
  end = true.
Proof. vm_compute. reflexivity. Qed.

Definition sample_slice : Sv Jni :=
  Build_Sv (set_mirrored_bytes (set_mirrors sample_bridge {[ 0x5000000000 := {| mguest := 0x10000; msize := 10; mglobal := 3 |} ]}) 10) (km sample_text) [].

(** A Java buffer whose slice at the same address was mirrored before: the guest gets the
    slice's block of 10 bytes as the buffer of 1000, and only 10 bytes are copied. *)
Example slice_mirror_too_small :
  match mirror_direct_buffer sample_java sample_native 1 5 8 0x5000000000 1000 sample_slice with
  | Ret (a, s) => (a =? 0x10000) && bool_decide (msize <$> mirrors (own s) !! 0x5000000000 = Some 10) && match scalls s with [{| h_args := [_; HGuest _ n _] |}] => n =? 10 | _ => false end
  | _ => false
  end = true.
Proof. vm_compute. reflexivity. Qed.

(** A mirror block the guest has unmapped: the copy faults. *)
Example mirror_copy_unchecked :
  mirror_direct_buffer sample_java sample_native 1 5 8 0x5000000000 10
    (Build_Sv (set_mirrors sample_bridge {[ 0x5000000000 := {| mguest := 0x400000; msize := 10; mglobal := 3 |} ]}) (km sample_text) []) = Undefined.
Proof. vm_compute. reflexivity. Qed.

(** ** A method id *)

Definition sample_names : GuestMemory :=
  {| base_ := true; pages_ := pages_ sample_memory; hprot := hprot sample_memory; host_calls := 0%nat;
     bytes_ := fun x => nth (Z.to_nat (x - 0x10000)) ([102; 0; 0; 0] ++ msg "(J)I" ++ replicate 8 0 ++ to_le 4 0x10100) 0 |}.
Definition sample_named : Sv Jni := Build_Sv sample_bridge sample_names [].
Definition sample_found (log : list hostcall) (c : hostcall) : answer := {| ret := 7; errno := 0; guest_writes := []; outs := [] |}.
Definition sample_request : list Z := [0; 0x10000; 0x10004; 1] ++ replicate 9 0 ++ [0x10010; 0; 0].

Lemma sample_named_safe : safe_state {[7]} sample_named.
Proof.
  destruct sample_jni_safe as ([] & _ & _). split; [|split; [exact sample_memory_wf|by intros a m Hm]]. split; try done; split; try apply id_wf_init; done.
Qed.

Lemma method_id_hands_over_witness :
  exists r s, hc_GetMethodID sample_found sample_quiet sample_request sample_named = Ret (r, s) /\ (r.1 =? 1) = true /\ (r.1 = 0 \/
    exists name sig sh cls log out s1,
      text_at (smem sample_named) (reg sample_request 1) name /\ text_at (smem sample_named) (reg sample_request 2) sig /\ Shorty.shorty_from_signature (chars sig) = Some sh /\
      IdTable_get (methods (own s)) r.1 =
        Ret (Some (ret (sample_found log {| h_name := "get_method_id"; h_args := [HInt (tenv (me (own sample_named))); HInt cls; HPath name; HPath sig; HInt (Z.b2z (negb (reg sample_request 3 =? 0)))] |}))) /\
      shorties (own s) !! Z.to_nat (r.1 - 1) = Some sh /\ from {[7]} sample_named s1 /\ arg sample_request 4 s1 = Ret (out, s1) /\ holds (smem s) out (bytes_of sh ++ [0])).
Proof.
  apply (wp_run _ _ _ _ (fun r => r.1 =? 1) (method_id_hands_over {[7]} sample_found sample_quiet ltac:(intros log c a bs H; apply elem_of_nil in H; destruct H) ltac:(split; [reflexivity|intros; right; cbn; set_solver])
    ltac:(split; intros c s Hs; apply (from_disciplined {[7]} s s), from_refl, Hs) sample_request sample_named ltac:(split; [reflexivity|repeat constructor; discriminate]) sample_named_safe)).
  vm_compute. reflexivity.
Defined.
