(* ===== verification/HostWindow.v ===== *)
(** * Native windows

    [core/src/android/host_native_window.cpp]: the ANativeWindow host calls (indices 160 to
    167, 212 and 213).  A window of the platform is named by a handle; the references the
    guest holds are counted, and a locked window has its pixels staged in a block of the
    guest's heap.

    The platform is the parameter [host], guest code [guest], the calling thread [me].  The
    pixels that are copied between the platform's buffer and guest memory are calls of the
    log ([memcpy_from], [memcpy_to]).  [HostJni]'s answers are parameters. *)

From stdpp Require Import numbers list gmap strings.
From S2P Require Import Prelude Handles Bytes GuestMemory InitialStack GuestThread ProcessMemory Kernel Syscalls Messages HandleSyscall Service.
Local Open Scope Z_scope.

Definition ZB_WINDOW_HC_ANativeWindow_acquire : Z := 160.
Definition ZB_WINDOW_HC_ANativeWindow_fromSurface : Z := 161.
Definition ZB_WINDOW_HC_ANativeWindow_getFormat : Z := 162.
Definition ZB_WINDOW_HC_ANativeWindow_getHeight : Z := 163.
Definition ZB_WINDOW_HC_ANativeWindow_getWidth : Z := 164.
Definition ZB_WINDOW_HC_ANativeWindow_release : Z := 165.
Definition ZB_WINDOW_HC_ANativeWindow_setBuffersGeometry : Z := 166.
Definition ZB_WINDOW_HC_ANativeWindow_toSurface : Z := 167.
Definition ZB_COMPAT_HC_ANativeWindow_lock : Z := 212.
Definition ZB_COMPAT_HC_ANativeWindow_unlockAndPost : Z := 213.
Definition EBUSY : Z := 16.
Definition ENOTSUP : Z := 95.
Definition kMaxPixels : Z := Z.shiftl 64 20.

Record LockState := { laddress : Z; lbytes : Z; lbits : Z; lowner : Z }.
Record HostNativeWindow := { windows_ : GlobalHandles; references_ : gmap Z Z; locks_ : gmap Z LockState }.

Definition HostNativeWindow_init : HostNativeWindow := {| windows_ := GlobalHandles_init Global; references_ := ∅; locks_ := ∅ |}.
Definition with_windows (s : HostNativeWindow) (t : GlobalHandles) : HostNativeWindow := {| windows_ := t; references_ := references_ s; locks_ := locks_ s |}.
Definition with_references (s : HostNativeWindow) (m : gmap Z Z) : HostNativeWindow := {| windows_ := windows_ s; references_ := m; locks_ := locks_ s |}.
Definition with_locks (s : HostNativeWindow) (m : gmap Z LockState) : HostNativeWindow := {| windows_ := windows_ s; references_ := references_ s; locks_ := m |}.

(** Bytes of a pixel of an Android format; 0 for one without a defined row layout. *)
Definition pixel_bytes (format : Z) : Z :=
  if (format =? 1) || (format =? 2) || (format =? 43) then 4 else if format =? 3 then 3 else if format =? 4 then 2 else if format =? 22 then 8 else 0.

(** What the platform's [lock] answered. *)
Record Buffer := { width : Z; height : Z; stride : Z; format : Z; bits : Z }.
Definition buffer_of (a : answer) : Buffer := {| width := s32 (out a 0); height := s32 (out a 1); stride := s32 (out a 2); format := s32 (out a 3); bits := out a 4 |}.
Definition row_bytes (b : Buffer) : Z := if 0 <? stride b then stride b * pixel_bytes (format b) else 0.
Definition buffer_valid (b : Buffer) : bool :=
  negb (bits b =? 0) && (0 <? width b) && (0 <? height b) && (width b <=? stride b) && negb (pixel_bytes (format b) =? 0) && negb (row_bytes b =? 0) && (row_bytes b <=? kMaxPixels) && (height b <=? kMaxPixels / row_bytes b).

Section HostWindow.
Context (host : list hostcall -> hostcall -> answer) (guest : Z -> list Z -> Sv HostNativeWindow -> option GuestResult * Sv HostNativeWindow).
Context (malloc_fn free_fn this_thread : Z) (current_env : Z) (resolve_ref new_local_handle : Z -> exec Z).

#[local] Notation svc := (svc HostNativeWindow).
#[local] Notation backend := (backend host).
#[local] Notation allocate_guest := (allocate_guest guest malloc_fn).
#[local] Notation free_guest := (free_guest guest free_fn).

Definition modify (f : HostNativeWindow -> HostNativeWindow) : svc unit := st ← get_own; put_own (f st).

Definition require_window (handle : Z) : svc Z := st ← get_own; r ← lift_svc (GlobalHandles_get (windows_ st) handle); mret (default 0 r).

Definition set_lock (handle : Z) (l : LockState) : svc unit := modify (fun st => with_locks st (<[handle := l]> (locks_ st))).

(** The platform's lock is given back. *)
Definition cancel_lock (handle window error : Z) : svc Z :=
  _ ← backend "unlock_and_post" [HInt window];
  _ ← modify (fun st => with_locks st (delete handle (locks_ st)));
  mret (- error).

Definition overlaps (allocated bytes address length : Z) : bool := negb (address =? 0) && (address <? allocated + bytes) && (allocated <? address + length).

(** The pixels of a locked window in a block of the guest, then its description in the
    guest's ANativeWindow_Buffer at [out]. *)
Definition stage_pixels (handle window out out_buffer dirty_address : Z) (r : answer) : svc Z :=
  let b := buffer_of r in
  if negb (buffer_valid b) then cancel_lock handle window ENOTSUP
  else
    let bytes := height b * row_bytes b in
    allocated ← allocate_guest (u32 bytes);
    if allocated =? 0 then cancel_lock handle window ENOMEM
    else if overlaps allocated bytes out_buffer 44 || overlaps allocated bytes dirty_address 16 then _ ← free_guest allocated; cancel_lock handle window EINVAL
    else
      pixels ← guest_ptr allocated bytes (Z.lor kPageRead kPageWrite);
      match pixels with
      | None => _ ← free_guest allocated; cancel_lock handle window EFAULT
      | Some pixels =>
          _ ← backend "memcpy_from" [HInt (bits b); HGuest pixels bytes kPageWrite];
          _ ← store out (concat (map (to_le 4) [u32 (width b); u32 (height b); u32 (stride b); u32 (format b); allocated; 0; 0; 0; 0; 0; 0]));
          _ ← (if dirty_address =? 0 then mret tt
               else
                 p ← guest_ptr dirty_address 16 kPageWrite;
                 match p with
                 | None => lift_svc Undefined
                 | Some p => store p (concat (map (fun i => to_le 4 (Kernel.out r i)) [5%nat; 6%nat; 7%nat; 8%nat]))
                 end);
          _ ← set_lock handle {| laddress := allocated; lbytes := bytes; lbits := bits b; lowner := this_thread |};
          mret 0
      end.

Definition lock_window (handle out_buffer dirty_address : Z) : svc Z :=
  window ← require_window handle;
  if window =? 0 then mret (- EINVAL)
  else
    out ← guest_ptr out_buffer 44 kPageWrite;
    match out with
    | None => mret (- EFAULT)
    | Some out =>
        dirty ← (if dirty_address =? 0 then mret (Some [])
                 else
                   p ← guest_ptr dirty_address 16 (Z.lor kPageRead kPageWrite);
                   match p with None => mret None | Some p => bs ← load p 16; mret (Some bs) end);
        match dirty with
        | None => mret (- EFAULT)
        | Some dirty =>
            st ← get_own;
            if decide (is_Some (locks_ st !! handle)) then mret (- EBUSY)
            else
              _ ← set_lock handle {| laddress := 0; lbytes := 0; lbits := 0; lowner := this_thread |};
              r ← backend "lock" [HInt window; HPath dirty];
              if negb (s32 (ret r) =? 0) then _ ← modify (fun st => with_locks st (delete handle (locks_ st))); mret (s32 (ret r))
              else stage_pixels handle window out out_buffer dirty_address r
        end
    end.

Definition unlock_window (handle : Z) : svc Z :=
  window ← require_window handle;
  if window =? 0 then mret (- EINVAL)
  else
    st ← get_own;
    match locks_ st !! handle with
    | None => mret (- EINVAL)
    | Some state =>
        if laddress state =? 0 then mret (- EBUSY)
        else if negb (lowner state =? this_thread) then mret (- EPERM)
        else
          _ ← put_own (with_locks st (delete handle (locks_ st)));
          pixels ← guest_ptr (laddress state) (lbytes state) kPageRead;
          _ ← match pixels with None => mret tt | Some p => _ ← backend "memcpy_to" [HInt (lbits state); HGuest p (lbytes state) kPageRead]; mret tt end;
          _ ← free_guest (laddress state);
          result ← backend "unlock_and_post" [HInt window];
          mret (match pixels with Some _ => s32 (ret result) | None => - EFAULT end)
    end.

Definition hc_fromSurface (rs : list Z) : svc (list Z) :=
  surface ← lift_svc (resolve_ref (reg rs 1));
  window ← (if surface =? 0 then mret 0 else a ← backend "from_surface" [HInt current_env; HInt surface]; mret (ret a));
  handle ← (if window =? 0 then mret 0
            else
              st ← get_own;
              '(h, t) ← lift_svc (GlobalHandles_add (windows_ st) window);
              _ ← put_own (with_windows st t);
              if h =? 0 then _ ← backend "release" [HInt window]; mret 0
              else _ ← modify (fun st => with_references st (<[h := 1]> (references_ st))); mret h);
  mret (set0 rs handle).

Definition hc_acquire (rs : list Z) : svc (list Z) :=
  window ← require_window (reg rs 0);
  st ← get_own;
  _ ← match references_ st !! reg rs 0 with
      | Some n =>
          if (window =? 0) || (n =? UINT32_MAX) then mret tt
          else _ ← backend "acquire" [HInt window]; modify (fun st => with_references st (<[reg rs 0 := n + 1]> (references_ st)))
      | None => mret tt
      end;
  mret (set0 rs 0).

Definition hc_release (rs : list Z) : svc (list Z) :=
  let h := reg rs 0 in
  window ← require_window h;
  _ ← (if window =? 0 then mret tt
       else
         st ← get_own;
         if decide (is_Some (locks_ st !! h)) then mret tt
         else
           final ← match references_ st !! h with
                   | None => mret false
                   | Some n =>
                       if u32 (n - 1) =? 0 then _ ← put_own (with_references st (delete h (references_ st))); mret true
                       else _ ← put_own (with_references st (<[h := u32 (n - 1)]> (references_ st))); mret false
                   end;
           _ ← backend "release" [HInt window];
           if (final : bool) then st ← get_own; '(_, t) ← lift_svc (GlobalHandles_remove (windows_ st) h); put_own (with_windows st t) else mret tt);
  mret (set0 rs 0).

Definition query (which : Z) (rs : list Z) : svc (list Z) :=
  window ← require_window (reg rs 0);
  result ← (if window =? 0 then mret (-1) else a ← backend "query" [HInt window; HInt which]; mret (s32 (ret a)));
  mret (set0 rs (u32 result)).
Definition hc_getWidth : list Z -> svc (list Z) := query 0.
Definition hc_getHeight : list Z -> svc (list Z) := query 1.
Definition hc_getFormat : list Z -> svc (list Z) := query 2.

Definition hc_setBuffersGeometry (rs : list Z) : svc (list Z) :=
  window ← require_window (reg rs 0);
  result ← (if window =? 0 then mret (-1)
            else a ← backend "set_buffers_geometry" [HInt window; HInt (s32 (reg rs 1)); HInt (s32 (reg rs 2)); HInt (s32 (reg rs 3))]; mret (s32 (ret a)));
  mret (set0 rs (u32 result)).

Definition hc_toSurface (rs : list Z) : svc (list Z) :=
  window ← require_window (reg rs 1);
  surface ← (if window =? 0 then mret 0 else a ← backend "to_surface" [HInt current_env; HInt window]; mret (ret a));
  h ← lift_svc (new_local_handle surface);
  mret (set0 rs h).

Definition hc_lock (rs : list Z) : svc (list Z) := v ← lock_window (reg rs 0) (reg rs 1) (reg rs 2); mret (set01 rs (u32 v) 0).
Definition hc_unlockAndPost (rs : list Z) : svc (list Z) := v ← unlock_window (reg rs 0); mret (set01 rs (u32 v) 0).

Definition window_calls : list (Z * (list Z -> svc (list Z))) :=
  [(ZB_WINDOW_HC_ANativeWindow_fromSurface, hc_fromSurface); (ZB_WINDOW_HC_ANativeWindow_acquire, hc_acquire); (ZB_WINDOW_HC_ANativeWindow_release, hc_release);
   (ZB_WINDOW_HC_ANativeWindow_getWidth, hc_getWidth); (ZB_WINDOW_HC_ANativeWindow_getHeight, hc_getHeight); (ZB_WINDOW_HC_ANativeWindow_getFormat, hc_getFormat);
   (ZB_WINDOW_HC_ANativeWindow_setBuffersGeometry, hc_setBuffersGeometry); (ZB_WINDOW_HC_ANativeWindow_toSurface, hc_toSurface);
   (ZB_COMPAT_HC_ANativeWindow_lock, hc_lock); (ZB_COMPAT_HC_ANativeWindow_unlockAndPost, hc_unlockAndPost)].

Definition window_handle_host_call (index : Z) (rs : list Z) : svc (option (list Z)) := serve window_calls index rs.
End HostWindow.

(** ** Invariant *)

(** The handle names that window. *)
Definition names (t : GlobalHandles) (h w : Z) : bool := match GlobalHandles_get t h with Ret (Some r) => r =? w | _ => false end.

(** The guest's references to a window, over all its handles. *)
Definition held (t : GlobalHandles) (refs : gmap Z Z) (w : Z) : Z := map_fold (fun h n acc => (if names t h w then n else 0) + acc) 0 refs.

Record windows_inv (st : HostNativeWindow) : Prop := {
  wi_table : global_wf (windows_ st);
  wi_refs : forall h, is_Some (references_ st !! h) <-> 0 < h /\ exists w, w <> 0 /\ GlobalHandles_get (windows_ st) h = Ret (Some w);
  wi_counts : map_Forall (fun _ n => 1 <= n < 2 ^ 32) (references_ st);
  wi_locks : forall h, is_Some (locks_ st !! h) -> is_Some (references_ st !! h);
  wi_lock : map_Forall (fun _ l => 0 <= laddress l < 2 ^ 32 /\ 0 <= lbytes l <= kMaxPixels) (locks_ st);
}.

(** A lock that is being taken stays. *)
Definition keeps_pending (j j' : HostNativeWindow) : Prop := forall h l, locks_ j !! h = Some l -> laddress l = 0 -> locks_ j' !! h = Some l.

#[export] Instance keeps_pending_preorder : PreOrder keeps_pending.
Proof. split; [by intros j h l|]. intros a b c H1 H2 h l Hl Hz. apply H2; [by apply H1|done]. Qed.

(** ** The table of references *)

Section Held.
Implicit Types (t : GlobalHandles) (m : gmap Z Z).

Lemma held_fresh t m h n w : m !! h = None -> held t (<[h := n]> m) w = (if names t h w then n else 0) + held t m w.
Proof. intros H. unfold held. rewrite map_fold_insert_L; [done|intros; lia|done]. Qed.

Lemma held_split t m h n w : m !! h = Some n -> held t m w = (if names t h w then n else 0) + held t (delete h m) w.
Proof. intros H. rewrite <- (insert_delete_id m h n H) at 1. by rewrite held_fresh by apply lookup_delete_eq. Qed.

Lemma held_update t m h n n' w : m !! h = Some n -> held t (<[h := n']> m) w = held t m w + (if names t h w then n' - n else 0).
Proof.
  intros H. rewrite (held_split t m h n w H), <- (insert_delete_eq m h n'), held_fresh by apply lookup_delete_eq. destruct (names t h w); lia.
Qed.

Lemma held_same t t' m w : (forall h n, m !! h = Some n -> names t' h w = names t h w) -> held t' m w = held t m w.
Proof.
  induction m as [|h n m Hn IH] using map_ind; [done|]. intros H. rewrite !held_fresh by done. rewrite (H h n) by apply lookup_insert_eq. f_equal. apply IH. intros h' n' Hn'. apply (H h' n').
  rewrite lookup_insert_ne; [done|]. intros <-. congruence.
Qed.
End Held.

Section Sound.
Context (host : list hostcall -> hostcall -> answer) (guest : Z -> list Z -> Sv HostNativeWindow -> option GuestResult * Sv HostNativeWindow).
Context (malloc_fn free_fn this_thread : Z) (current_env : Z) (resolve_ref new_local_handle : Z -> exec Z).

(** References to a window taken from the platform and not given back, by the log. *)
Definition delta (past : list hostcall) (c : hostcall) (w : Z) : Z :=
  if decide (h_name c = "from_surface") then Z.b2z (ret (host past c) =? w)
  else if decide (h_name c = "acquire") then match h_args c with [HInt v] => Z.b2z (v =? w) | _ => 0 end
  else if decide (h_name c = "release") then match h_args c with [HInt v] => - Z.b2z (v =? w) | _ => 0 end
  else 0.

Fixpoint taken (past log : list hostcall) (w : Z) : Z :=
  match log with
  | [] => 0
  | c :: rest => delta past c w + taken (past ++ [c]) rest w
  end.

Lemma taken_snoc log c w : forall past, taken past (log ++ [c]) w = taken past log w + delta (past ++ log) c w.
Proof. induction log as [|d log IH]; intros past; cbn; [by rewrite app_nil_r; lia|]. rewrite IH, <- app_assoc. cbn. lia. Qed.

(** What the guest holds is what was taken from the platform. *)
Definition balanced (s : Sv HostNativeWindow) : Prop := forall w, w <> 0 -> taken [] (scalls s) w = held (windows_ (own s)) (references_ (own s)) w.

Definition wsafe (s : Sv HostNativeWindow) : Prop := windows_inv (own s) /\ mem_wf (smem s) /\ balanced s.
Definition wfrom (s0 s : Sv HostNativeWindow) : Prop := wsafe s /\ keeps_pending (own s0) (own s).

(** What the calls rely on: the guest's code keeps the promise that the calls keep, and its
    malloc leaves the pages that are mapped. *)
Definition wguest_keeps : Prop := forall f args s, wsafe s ->
  let '(r, s') := guest f args s in
  wfrom s s' /\ match r with Some r => 0 <= res_r0 r < 2 ^ 32 | None => True end /\
  (f = malloc_fn -> forall a n need, accessible (smem s) a n need = true -> accessible (smem s') a n need = true).

Context (Hhost : kernel_ok host) (Hguest : wguest_keeps).
Context (Hres : forall h, resolve_ref h <> Undefined) (Hnew : forall r, runs True (new_local_handle r) (fun h => 0 <= h < 2 ^ 32)).

Lemma wfrom_refl s : wsafe s -> wfrom s s.
Proof. by split. Qed.

Lemma wfrom_trans s0 s s' : wfrom s0 s -> wfrom s s' -> wfrom s0 s'.
Proof. intros [_ H1] [H2 H3]. split; [done|]. by trans (own s). Qed.

Definition neutral (name : string) : bool := negb (bool_decide (name ∈ ["from_surface"; "acquire"; "release"])).

Lemma neutral_delta past c w : neutral (h_name c) = true -> delta past c w = 0.
Proof.
  unfold neutral, delta. intros H%negb_true_iff%bool_decide_eq_false. rewrite !decide_False; [done|..]; intros E; apply H; rewrite E; set_solver.
Qed.

(** A call that takes and gives no reference. *)
Lemma wfrom_call s0 s m c : wfrom s0 s -> only_writable (smem s) m -> mem_wf m -> neutral (h_name c) = true -> wfrom s0 (Build_Sv (own s) m (scalls s ++ [c])).
Proof.
  intros [(Hi & Hm & Hb) Hk] How Hm' Hn. split; [|done]. split; [done|]. split; [done|]. intros w Hw. cbn. rewrite taken_snoc, neutral_delta by done. rewrite <- (Hb w Hw). lia.
Qed.

Lemma wfrom_memory s0 s m : wfrom s0 s -> only_writable (smem s) m -> mem_wf m -> wfrom s0 (Build_Sv (own s) m (scalls s)).
Proof. intros [(Hi & Hm & Hb) Hk] How Hm'. by split. Qed.

Lemma wp_neutral X name args s0 s Q :
  wfrom s0 s -> neutral name = true -> Forall (arg_ok (smem s)) args ->
  (forall a s', wfrom s0 s' -> own s' = own s -> pages_ (smem s') = pages_ (smem s) -> Q a s') -> wp X (backend host name args) s Q.
Proof. intros Hs Hn Ha HQ. apply (wp_backend host Hhost); [apply Hs|done|]. intros m How Hm. apply HQ; [by apply wfrom_call|done|apply How]. Qed.

Lemma wp_wguest X f args s0 s Q :
  wfrom s0 s ->
  (forall r s', wfrom s0 s' -> keeps_pending (own s) (own s') -> match r with Some r => 0 <= res_r0 r < 2 ^ 32 | None => True end ->
     (f = malloc_fn -> forall a n need, accessible (smem s) a n need = true -> accessible (smem s') a n need = true) -> Q r s') -> wp X (call_guest guest f args) s Q.
Proof.
  intros Hs HQ. unfold wp, call_guest, runs. set (s1 := Build_Sv _ _ _). assert (wfrom s0 s1) as H1 by (apply wfrom_call; [done|apply only_writable_refl|apply Hs|done]).
  pose proof (Hguest f args s1 (proj1 H1)) as Hg. destruct (guest f args s1) as [r s']. destruct Hg as (Hs' & Hr & Hm). apply HQ; [by eapply wfrom_trans|apply Hs'|done..].
Qed.

Lemma wp_wallocate X n s0 s Q :
  wfrom s0 s -> (forall v s', wfrom s0 s' -> keeps_pending (own s) (own s') -> 0 <= v < 2 ^ 32 -> (forall a n need, accessible (smem s) a n need = true -> accessible (smem s') a n need = true) -> Q v s') ->
  wp X (allocate_guest guest malloc_fn n) s Q.
Proof. intros Hs HQ. eapply wp_bind, wp_wguest; [done|]. intros r s' Hs' Hk Hr Hm. apply wp_ret, HQ; [done|done|destruct r; [done|lia]|by apply Hm]. Qed.

Lemma wp_wfree X a s0 s Q : wfrom s0 s -> (forall s', wfrom s0 s' -> keeps_pending (own s) (own s') -> Q tt s') -> wp X (free_guest guest free_fn a) s Q.
Proof. intros Hs HQ. unfold free_guest. destruct (a =? 0); [by apply wp_ret, HQ|]. eapply wp_bind, wp_wguest; [done|]. intros r s' Hs' Hk _ _. by apply wp_ret, HQ. Qed.

(** A handle the guest passes: 0, or the window it names. *)
Lemma wp_require_window X h s Q :
  windows_inv (own s) -> 0 <= h -> Q 0 s -> (forall w, w <> 0 -> 0 < h -> GlobalHandles_get (windows_ (own s)) h = Ret (Some w) -> Q w s) -> wp X (require_window h) s Q.
Proof.
  intros Hi Hh H0 Hw. apply wp_bind, wp_get_own, wp_bind, wp_lift, runs_get; [apply Hi|done|by apply wp_ret|by intros; apply wp_ret|]. intros r Hr Hp E. by apply wp_ret, Hw.
Qed.

(** ** Locks *)

(** No lock of that handle is being taken. *)
Definition unclaimed (st : HostNativeWindow) (h : Z) : Prop := forall l, locks_ st !! h = Some l -> laddress l <> 0.

Lemma unclaimed_none s0 s h : wfrom s0 s -> locks_ (own s) !! h = None -> unclaimed (own s0) h.
Proof. intros [_ Hk] E l Hl Hz. rewrite (Hk h l Hl Hz) in E. done. Qed.

Lemma wfrom_lock s0 s h l :
  wfrom s0 s -> unclaimed (own s0) h -> is_Some (references_ (own s) !! h) -> 0 <= laddress l < 2 ^ 32 -> 0 <= lbytes l <= kMaxPixels ->
  wfrom s0 (Build_Sv (with_locks (own s) (<[h := l]> (locks_ (own s)))) (smem s) (scalls s)).
Proof.
  intros [(Hi & Hm & Hb) Hk] Hu Hr Ha Hn. split; [split; [|done]|].
  - destruct Hi as [H1 H2 H3 H4 H5]. split; try done; cbn.
    + intros h'. destruct (decide (h = h')) as [<-|Hne]; [done|]. rewrite lookup_insert_ne by done. apply H4.
    + by apply map_Forall_insert_2.
  - intros h' l' Hl' Hz. cbn. destruct (decide (h = h')) as [<-|Hne]; [by destruct (Hu l' Hl')|]. rewrite lookup_insert_ne by done. by apply Hk.
Qed.

Lemma wfrom_unlock s0 s h : wfrom s0 s -> unclaimed (own s0) h -> wfrom s0 (Build_Sv (with_locks (own s) (delete h (locks_ (own s)))) (smem s) (scalls s)).
Proof.
  intros [(Hi & Hm & Hb) Hk] Hu. split; [split; [|done]|].
  - destruct Hi as [H1 H2 H3 H4 H5]. split; try done; cbn; [|by apply map_Forall_delete]. intros h' Hh'. apply H4. destruct Hh' as [l Hl]. apply lookup_delete_Some in Hl as [_ Hl]. by exists l.
  - intros h' l' Hl' Hz. cbn. destruct (decide (h = h')) as [<-|Hne]; [by destruct (Hu l' Hl')|]. rewrite lookup_delete_ne by done. by apply Hk.
Qed.

Lemma wp_cancel X h w e s0 s Q : wfrom s0 s -> unclaimed (own s0) h -> (forall s', wfrom s0 s' -> Q (- e) s') -> wp X (cancel_lock host h w e) s Q.
Proof.
  intros Hs Hu HQ. eapply wp_bind, wp_neutral; [done|done|by repeat constructor|]. intros a s1 Hs1 _ _. apply wp_bind, wp_bind, wp_get_own, wp_put_own, wp_ret, HQ. by apply wfrom_unlock.
Qed.

Lemma length_words ws : length (concat (map (to_le 4) ws)) = (4 * length ws)%nat.
Proof. induction ws as [|w ws IH]; [done|]. cbn [map concat]. rewrite length_app, IH, length_to_le. cbn. lia. Qed.

Lemma wp_wstore X a bs n s0 s Q :
  wfrom s0 s -> 0 <= a < 2 ^ 32 -> size bs <= n < 2 ^ 40 -> accessible (smem s) a n kPageWrite = true -> (forall s', wfrom s0 s' -> own s' = own s -> pages_ (smem s') = pages_ (smem s) -> Q tt s') -> wp X (store a bs) s Q.
Proof.
  intros Hs Ha Hn Hacc HQ. pose proof (size_nonneg bs). apply (wp_store _ _ _ a n kPageWrite); [apply Hs|done|lia|done|done|lia|lia|]. intros m _ How Hm. apply HQ; [by apply wfrom_memory|done|apply How].
Qed.

Lemma buffer_bytes b : buffer_valid b = true -> 0 < height b * row_bytes b <= kMaxPixels.
Proof.
  unfold buffer_valid. rewrite !andb_true_iff, !negb_true_iff, !Z.eqb_neq, !Z.ltb_lt, !Z.leb_le. intros [[[[[[[_ _] Hh] _] _] Hr] Hm] Hd]. assert (0 < row_bytes b) as Hp.
  { unfold row_bytes in *. destruct (Z.ltb_spec 0 (stride b)); [|done]. assert (0 <= pixel_bytes (format b)) by (unfold pixel_bytes; repeat destruct (_ =? _); cbn; lia). nia. }
  split; [nia|]. pose proof (Z.mul_div_le kMaxPixels (row_bytes b) Hp). nia.
Qed.

Lemma accessible_weaker m a n need : 0 <= a < 2 ^ 32 -> 0 <= n < 2 ^ 40 -> need = kPageRead \/ need = kPageWrite -> accessible m a n (Z.lor kPageRead kPageWrite) = true -> accessible m a n need = true.
Proof.
  intros Ha Hn Hneed Hacc. apply accessible_pages in Hacc as [->|[Hb Hp]]; [done| |lia..]. apply accessible_pages; [lia..|]. right. split; [done|]. intros i Hi. specialize (Hp i Hi). unfold page_has in *.
  assert (Z.land (Z.lor (Z.lor kPageRead kPageWrite) kPageMapped) (Z.lor need kPageMapped) = Z.lor need kPageMapped) as <- by (by destruct Hneed as [-> | ->]). rewrite Z.land_assoc. by rewrite Hp.
Qed.

Lemma wp_stage X h w out ob da r s0 s Q :
  wfrom s0 s -> unclaimed (own s0) h -> (exists l, locks_ (own s) !! h = Some l /\ laddress l = 0) ->
  0 <= out < 2 ^ 32 -> accessible (smem s) out 44 kPageWrite = true -> 0 <= da < 2 ^ 32 -> (da <> 0 -> accessible (smem s) da 16 (Z.lor kPageRead kPageWrite) = true) ->
  (forall v s', wfrom s0 s' -> Q v s') -> wp X (stage_pixels host guest malloc_fn free_fn this_thread h w out ob da r) s Q.
Proof.
  intros Hs Hu (l & Hl & Hz) Hout Hacc Hda Hdirty HQ. unfold stage_pixels. cbv zeta. destruct (buffer_valid (buffer_of r)) eqn:Hv; cbn [negb]; [|eapply wp_cancel; eauto].
  set (b := buffer_of r) in *. pose proof (buffer_bytes b Hv) as Hbytes. set (bytes := height b * row_bytes b) in *. unfold kMaxPixels in Hbytes. change (Z.shiftl 64 20) with 67108864 in Hbytes.
  eapply wp_bind, wp_wallocate; [done|]. intros v s1 Hs1 Hk1 Hvr Hm1. destruct (v =? 0); [eapply wp_cancel; eauto|].
  destruct (_ || _); [eapply wp_bind, wp_wfree; [done|]; intros; eapply wp_cancel; eauto|].
  apply wp_bind, wp_ptr; intros Ea; [|eapply wp_bind, wp_wfree; [done|]; intros; eapply wp_cancel; eauto]. pose proof (accessible_weaker (smem s1) v bytes kPageWrite Hvr ltac:(lia) ltac:(by right) Ea) as Eaw.
  eapply wp_bind, wp_neutral; [done|done| |].
  { apply Forall_cons_2; [done|]. apply Forall_cons_2; [|done]. split; [done|]. split; [lia|]. by right. }
  intros _ s2 Hs2 E2 P2. eapply wp_bind, (wp_wstore _ _ _ 44); [done|done|unfold size; rewrite length_words; cbn; lia|rewrite (accessible_same _ _ _ _ _ P2); by apply Hm1|]. intros s3 Hs3 E3 P3.
  assert (forall s4, wfrom s0 s4 -> own s4 = own s3 -> wp X (_ ← set_lock h {| laddress := v; lbytes := bytes; lbits := bits b; lowner := this_thread |}; mret 0) s4 Q) as Hend.
  { intros s4 Hs4 E4. apply wp_bind, wp_bind, wp_get_own, wp_put_own, wp_ret, HQ. apply wfrom_lock; [done|done| |done|cbn; unfold kMaxPixels; change (Z.shiftl 64 20) with 67108864; lia].
    apply (wi_locks _ (proj1 (proj1 Hs4))). exists l. rewrite E4, E3, E2. by apply Hk1. }
  apply wp_bind. destruct (Z.eqb_spec da 0) as [|Hnz]; [by apply wp_ret, Hend|]. assert (accessible (smem s3) da 16 kPageWrite = true) as Hd3.
  { rewrite (accessible_same _ _ _ _ _ P3), (accessible_same _ _ _ _ _ P2). apply accessible_weaker; [done|lia|by right|]. by apply Hm1, Hdirty. }
  apply wp_bind, wp_ptr; intros Ed; [|congruence]. eapply (wp_wstore _ _ _ 16); [done|done|by vm_compute|done|]. intros s4 Hs4 E4 _. by apply Hend.
Qed.

Lemma wp_lock X h ob da s Q :
  wsafe s -> 0 <= h < 2 ^ 32 -> 0 <= ob < 2 ^ 32 -> 0 <= da < 2 ^ 32 -> (forall v s', wfrom s s' -> Q v s') -> wp X (lock_window host guest malloc_fn free_fn this_thread h ob da) s Q.
Proof.
  intros Hs Hh Hob Hda HQ. pose proof (wfrom_refl s Hs) as Hf. apply wp_bind, wp_require_window; [apply Hs|lia|by apply wp_ret, HQ|]. intros w Hw Hp Eg. rewrite (proj2 (Z.eqb_neq w 0)) by done.
  apply wp_bind, wp_ptr; intros Ea; [|by apply wp_ret, HQ]. apply wp_bind.
  eapply (wp_mono _ _ _ (fun o s' => s' = s /\ (o <> None -> da <> 0 -> accessible (smem s) da 16 (Z.lor kPageRead kPageWrite) = true))).
  { destruct (da =? 0) eqn:Ed; [apply Z.eqb_eq in Ed; by apply wp_ret|]. apply wp_bind, wp_ptr; intros Eda; [|by apply wp_ret]. apply wp_bind, (wp_load _ _ _ (Z.lor kPageRead kPageWrite)); [apply Hs|done|lia|done|done|]. by apply wp_ret. }
  intros o s' [-> Hdirty]. destruct o as [dirty|]; [|by apply wp_ret, HQ]. apply wp_bind, wp_get_own. case_decide as Hlock; [by apply wp_ret, HQ|]. apply eq_None_not_Some in Hlock.
  pose proof (unclaimed_none s s h Hf Hlock) as Hu. apply wp_bind, wp_bind, wp_get_own, wp_put_own. set (l := {| laddress := 0 |}). set (s1 := Build_Sv _ _ _).
  assert (wfrom s s1) as Hs1. { apply wfrom_lock; [done|done| |done|done]. apply (wi_refs _ (proj1 Hs)). split; [done|]. by exists w. }
  eapply wp_bind, wp_neutral; [done|done|by repeat constructor|]. intros r s2 Hs2 E2 P2. destruct (negb _); [apply wp_bind, wp_bind, wp_get_own, wp_put_own, wp_ret, HQ; by apply wfrom_unlock|].
  apply (wp_stage _ _ _ _ _ _ _ s s2); [done|done| |done|by rewrite (accessible_same _ _ _ _ _ P2)|done|intros Hn; rewrite (accessible_same _ _ _ _ _ P2); by apply Hdirty|done].
  exists l. rewrite E2. split; [|done]. apply lookup_insert_eq.
Qed.

Lemma wp_unlock X h s Q : wsafe s -> 0 <= h < 2 ^ 32 -> (forall v s', wfrom s s' -> Q v s') -> wp X (unlock_window host guest free_fn this_thread h) s Q.
Proof.
  intros Hs Hh HQ. pose proof (wfrom_refl s Hs) as Hf. apply wp_bind, wp_require_window; [apply Hs|lia|by apply wp_ret, HQ|]. intros w Hw Hp Eg. rewrite (proj2 (Z.eqb_neq w 0)) by done. apply wp_bind, wp_get_own.
  destruct (locks_ (own s) !! h) as [l|] eqn:El; [|by apply wp_ret, HQ]. destruct (Z.eqb_spec (laddress l) 0) as [|Hnz]; [by apply wp_ret, HQ|]. destruct (negb _); [by apply wp_ret, HQ|].
  destruct (wi_lock _ (proj1 Hs) h l El) as [Hla Hlb]. apply wp_bind, wp_put_own. set (s1 := Build_Sv _ _ _). assert (wfrom s s1) as Hs1 by (apply wfrom_unlock; [done|]; intros l' Hl'; by simplify_eq).
  assert (forall s2 (pixels : option Z), wfrom s s2 -> wp X (_ ← free_guest guest free_fn (laddress l); result ← backend host "unlock_and_post" [HInt w]; mret (match pixels with Some _ => s32 (ret result) | None => - EFAULT end)) s2 Q) as Hend.
  { intros s2 pixels Hs2. eapply wp_bind, wp_wfree; [done|]. intros s3 Hs3 _. eapply wp_bind, wp_neutral; [done|done|by repeat constructor|]. intros a s4 Hs4 _ _. by apply wp_ret, HQ. }
  unfold kMaxPixels in Hlb. change (Z.shiftl 64 20) with 67108864 in Hlb.
  apply wp_bind, wp_ptr; intros Ea; apply wp_bind; [|by apply wp_ret, (Hend _ None)]. eapply wp_bind, wp_neutral; [done|done| |intros a s2 Hs2 _ _; by apply wp_ret, (Hend _ (Some (laddress l)))].
  apply Forall_cons_2; [done|]. apply Forall_cons_2; [|done]. split; [done|]. split; [lia|]. by right.
Qed.

(** ** References *)

Lemma names_get t h w : GlobalHandles_get t h = Ret (Some w) -> forall w', names t h w' = (w =? w').
Proof. intros E w'. unfold names. by rewrite E. Qed.

Lemma delta_acquire past w w' : delta past {| h_name := "acquire"; h_args := [HInt w] |} w' = Z.b2z (w =? w').
Proof. done. Qed.
Lemma delta_release past w w' : delta past {| h_name := "release"; h_args := [HInt w] |} w' = - Z.b2z (w =? w').
Proof. done. Qed.

(** A handle with its count raised or lowered by as much as the log says. *)
Lemma wfrom_count s0 s h w n n' m c :
  wfrom s0 s -> GlobalHandles_get (windows_ (own s)) h = Ret (Some w) -> references_ (own s) !! h = Some n -> 1 <= n' < 2 ^ 32 -> mem_wf m ->
  (forall past w', delta past c w' = (n' - n) * Z.b2z (w =? w')) -> wfrom s0 (Build_Sv (with_references (own s) (<[h := n']> (references_ (own s)))) m (scalls s ++ [c])).
Proof.
  intros [(Hi & Hm & Hb) Hk] Eg En Hn' Hm' Hd. split; [split; [|split; [done|]]|done].
  - destruct Hi as [H1 H2 H3 H4 H5]. assert (forall h', is_Some (<[h := n']> (references_ (own s)) !! h') <-> is_Some (references_ (own s) !! h')) as Hdom.
    { intros h'. destruct (decide (h = h')) as [<-|Hne]; [rewrite lookup_insert_eq, En; by split; eauto|by rewrite lookup_insert_ne by done]. }
    split; try done; cbn.
    + intros h'. by rewrite Hdom.
    + by apply map_Forall_insert_2.
    + intros h' Hh'. by apply Hdom, H4.
  - intros w' Hw'. cbn. rewrite taken_snoc, (Hb w' Hw'), (held_update _ _ _ n), Hd, (names_get _ _ _ Eg) by done. destruct (w =? w'); cbn; lia.
Qed.

Context (X : Prop).
Definition wpost (rs : list Z) (s0 : Sv HostNativeWindow) (rs' : list Z) (s : Sv HostNativeWindow) : Prop := answered rs rs' /\ wfrom s0 s.

Lemma wp_answer rs v s0 s : words rs -> 0 <= v < 2 ^ 32 -> wfrom s0 s -> wp X (mret (set0 rs v)) s (wpost rs s0).
Proof. intros Hw Hv Hs. apply wp_ret. split; [by apply answered_set0|done]. Qed.

(** A new handle for a window the platform handed over. *)
Lemma wfrom_new s0 s h t w m c :
  wfrom s0 s -> w <> 0 -> global_wf t -> 0 < h -> GlobalHandles_get (windows_ (own s)) h = Ret None -> GlobalHandles_get t h = Ret (Some w) ->
  (forall h', 0 <= h' -> h' <> h -> GlobalHandles_get t h' = GlobalHandles_get (windows_ (own s)) h') -> mem_wf m -> (forall w', delta (scalls s) c w' = Z.b2z (w =? w')) ->
  wfrom s0 (Build_Sv {| windows_ := t; references_ := <[h := 1]> (references_ (own s)); locks_ := locks_ (own s) |} m (scalls s ++ [c])).
Proof.
  intros [(Hi & Hm & Hb) Hk] Hw Ht Hh Enone Esome Hother Hm' Hd. destruct Hi as [H1 H2 H3 H4 H5]. assert (references_ (own s) !! h = None) as Hnone.
  { apply eq_None_not_Some. rewrite H2. intros (_ & w' & _ & E). rewrite Enone in E. done. }
  split; [split; [|split; [done|]]|done].
  - split; try done; cbn.
    + intros h'. destruct (decide (h = h')) as [<-|Hne]; [rewrite lookup_insert_eq; split; [by intros _; split; [|exists w]|by eauto]|]. rewrite lookup_insert_ne, H2 by done. by split; intros (Hp & w' & Hn & E); (split; [done|]); exists w'; rewrite Hother in * by lia.
    + apply map_Forall_insert_2; [lia|done].
    + intros h' Hh'. destruct (decide (h = h')) as [<-|Hne]; [by rewrite lookup_insert_eq; eauto|]. rewrite lookup_insert_ne by done. by apply H4.
  - intros w' Hw'. cbn [scalls own windows_ references_]. rewrite taken_snoc, (Hb w' Hw'), held_fresh, (names_get _ _ _ Esome), Hd by done.
    rewrite (held_same (windows_ (own s)) t); [destruct (w =? w'); cbn; lia|]. intros h' n Hn. unfold names. assert (is_Some (references_ (own s) !! h')) as [Hp _]%H2 by eauto. rewrite Hother; [done|lia|]. intros ->. congruence.
Qed.

Lemma from_surface_sound rs s :
  words rs -> wsafe s -> (resolve_ref (reg rs 1) = Aborted -> X) -> (~ room (windows_ (own s)) -> X) -> wp X (hc_fromSurface host current_env resolve_ref rs) s (wpost rs s).
Proof.
  intros Hw Hs HX1 HX2. pose proof (wfrom_refl s Hs) as Hf. apply wp_bind, wp_lift. pose proof (Hres (reg rs 1)). destruct (resolve_ref (reg rs 1)) as [surface| |]; [|by apply HX1|done]. cbn [runs]. apply wp_bind.
  destruct (surface =? 0); [by apply wp_ret, wp_bind, wp_ret, wp_answer|]. apply wp_bind, (wp_backend host Hhost); [apply Hs|by repeat constructor|]. intros m How Hm. set (c := {| h_name := "from_surface" |}). set (a := host (scalls s) c). apply wp_ret.
  assert (forall w', delta (scalls s) c w' = Z.b2z (ret a =? w')) as Hd by done. destruct (Z.eqb_spec (ret a) 0) as [E0|Hn].
  { apply wp_bind, wp_ret, wp_answer; [done|done|]. destruct Hs as (Hi & _ & Hb). split; [|done]. split; [done|]. split; [done|]. intros w Hw'. cbn [scalls own]. rewrite taken_snoc, <- (Hb w Hw'). cbn [app]. rewrite Hd, E0. destruct (Z.eqb_spec 0 w); [done|]. cbn. lia. }
  apply wp_bind, wp_bind, wp_get_own, wp_bind, wp_lift, runs_add_new; [apply Hs|done|done|]. intros h t Ht Hh Enone Esome Hother. apply wp_bind, wp_put_own. rewrite (proj2 (Z.eqb_neq h 0)) by lia.
  apply wp_bind, wp_bind, wp_get_own, wp_put_own, wp_ret, wp_answer; [done|lia|]. apply (wfrom_new s s h t (ret a)); try done. lia.
Qed.

Lemma acquire_sound rs s : words rs -> wsafe s -> wp X (hc_acquire host rs) s (wpost rs s).
Proof.
  intros Hw Hs. pose proof (wfrom_refl s Hs) as Hf. pose proof (reg_word rs 0 Hw) as Hh. assert (forall w, GlobalHandles_get (windows_ (own s)) (reg rs 0) = Ret (Some w) \/ w = 0 -> wp X (st ← get_own;
    _ ← match references_ st !! reg rs 0 with
        | Some n => if (w =? 0) || (n =? UINT32_MAX) then mret tt else _ ← backend host "acquire" [HInt w]; modify (fun st => with_references st (<[reg rs 0 := n + 1]> (references_ st)))
        | None => mret tt
        end; mret (set0 rs 0)) s (wpost rs s)) as Hmain.
  { intros w Eg. apply wp_bind, wp_get_own, wp_bind. destruct (references_ (own s) !! reg rs 0) as [n|] eqn:En; [|by apply wp_ret, wp_answer]. destruct (Z.eqb_spec w 0) as [|Hn]; cbn [orb]; [by apply wp_ret, wp_answer|].
    destruct (Z.eqb_spec n UINT32_MAX) as [|Hmax]; [by apply wp_ret, wp_answer|]. destruct Eg as [Eg|]; [|done]. apply wp_bind, (wp_backend host Hhost); [apply Hs|by repeat constructor|]. intros m How Hm. apply wp_bind, wp_get_own, wp_put_own, wp_answer; [done|done|].
    pose proof (wi_counts _ (proj1 Hs) _ _ En) as Hc. cbn in Hc. unfold UINT32_MAX in Hmax. apply (wfrom_count s s _ w n); try done; [lia|]. intros past w'. rewrite delta_acquire. lia. }
  apply wp_bind, wp_require_window; [apply Hs|lia|apply (Hmain 0); by right|]. intros w _ _ Eg. apply (Hmain w). by left.
Qed.

(** The last reference: the window leaves the table. *)
Lemma wfrom_final s0 s h w t m c :
  wfrom s0 s -> 0 < h -> GlobalHandles_get (windows_ (own s)) h = Ret (Some w) -> references_ (own s) !! h = Some 1 -> locks_ (own s) !! h = None -> global_wf t -> GlobalHandles_get t h = Ret None ->
  (forall h', 0 <= h' -> h' <> h -> GlobalHandles_get t h' = GlobalHandles_get (windows_ (own s)) h') -> mem_wf m -> (forall past w', delta past c w' = - Z.b2z (w =? w')) ->
  wfrom s0 (Build_Sv {| windows_ := t; references_ := delete h (references_ (own s)); locks_ := locks_ (own s) |} m (scalls s ++ [c])).
Proof.
  intros [(Hi & Hm & Hb) Hk] Hh Eg En El Ht Enone Hother Hm' Hd. destruct Hi as [H1 H2 H3 H4 H5]. split; [split; [|split; [done|]]|done].
  - split; try done; cbn.
    + intros h'. destruct (decide (h = h')) as [<-|Hne]; [rewrite lookup_delete_eq, Enone; split; [by intros [? ?]|by intros (_ & w' & _ & ?)]|]. rewrite lookup_delete_ne, H2 by done. by split; intros (Hp & w' & Hn & E); (split; [done|]); exists w'; rewrite Hother in * by lia.
    + by apply map_Forall_delete.
    + intros h' Hh'. destruct (decide (h = h')) as [<-|Hne]; [by rewrite El in Hh'; destruct Hh'|]. rewrite lookup_delete_ne by done. by apply H4.
  - intros w' Hw'. cbn [scalls own windows_ references_]. rewrite taken_snoc, (Hb w' Hw'), (held_split _ _ h 1), (names_get _ _ _ Eg), Hd by done.
    rewrite (held_same (windows_ (own s)) t); [destruct (w =? w'); cbn; lia|]. intros h' n Hn%lookup_delete_Some. destruct Hn as [Hne Hn]. unfold names. assert (is_Some (references_ (own s) !! h')) as [Hp _]%H2 by eauto. rewrite Hother; [done|lia|done].
Qed.

Lemma release_sound rs s : words rs -> wsafe s -> wp X (hc_release host rs) s (wpost rs s).
Proof.
  intros Hw Hs. pose proof (wfrom_refl s Hs) as Hf. pose proof (reg_word rs 0 Hw) as Hh. cbv [hc_release]. apply wp_bind, wp_require_window; [apply Hs|lia|by apply wp_bind, wp_ret, wp_answer|]. intros w Hwn Hp Eg. rewrite (proj2 (Z.eqb_neq w 0)) by done.
  apply wp_bind, wp_bind, wp_get_own. case_decide as Hlock; [by apply wp_ret, wp_answer|]. apply eq_None_not_Some in Hlock. apply wp_bind. assert (is_Some (references_ (own s) !! reg rs 0)) as [n En] by (apply (wi_refs _ (proj1 Hs)); eauto). rewrite En.
  pose proof (wi_counts _ (proj1 Hs) _ _ En) as Hc. cbn in Hc. rewrite u32_small by lia. destruct (Z.eqb_spec (n - 1) 0) as [E1|Hn1].
  - apply wp_bind, wp_put_own, wp_ret, wp_bind, (wp_backend host Hhost); [apply Hs|by repeat constructor|]. intros m How Hm. apply wp_bind, wp_get_own, wp_bind, wp_lift. cbn [own with_references windows_].
    destruct (global_remove_ok _ _ _ (wi_table _ (proj1 Hs)) Hp Eg) as (t' & Er & Ht' & Hsp & _ & _ & Hsame). rewrite Er. apply wp_put_own, wp_answer; [done|done|].
    apply (wfrom_final s s (reg rs 0) w t'); try done; [by replace 1 with n by lia|exact (ht_spent_get t' _ Ht' Hsp)].
  - apply wp_bind, wp_put_own, wp_ret, wp_bind, (wp_backend host Hhost); [apply Hs|by repeat constructor|]. intros m How Hm. apply wp_ret, wp_answer; [done|done|].
    apply (wfrom_count s s _ w n); try done; [lia|]. intros past w'. rewrite delta_release. lia.
Qed.

Lemma query_sound which rs s : words rs -> wsafe s -> wp X (query host which rs) s (wpost rs s).
Proof.
  intros Hw Hs. pose proof (wfrom_refl s Hs) as Hf. apply wp_bind, wp_require_window; [apply Hs|by apply reg_word|apply wp_bind, wp_ret, wp_answer; [done|apply u32_range|done]|]. intros w Hn _ _. rewrite (proj2 (Z.eqb_neq w 0)) by done.
  eapply wp_bind, wp_bind, wp_neutral; [done|done|by repeat constructor|]. intros a s1 Hs1 _ _. apply wp_ret, wp_answer; [done|apply u32_range|done].
Qed.

Lemma geometry_sound rs s : words rs -> wsafe s -> wp X (hc_setBuffersGeometry host rs) s (wpost rs s).
Proof.
  intros Hw Hs. pose proof (wfrom_refl s Hs) as Hf. apply wp_bind, wp_require_window; [apply Hs|by apply reg_word|apply wp_bind, wp_ret, wp_answer; [done|apply u32_range|done]|]. intros w Hn _ _. rewrite (proj2 (Z.eqb_neq w 0)) by done.
  eapply wp_bind, wp_bind, wp_neutral; [done|done|by repeat constructor|]. intros a s1 Hs1 _ _. apply wp_ret, wp_answer; [done|apply u32_range|done].
Qed.

Lemma to_surface_sound rs s : words rs -> wsafe s -> (forall r, new_local_handle r = Aborted -> X) -> wp X (hc_toSurface host current_env new_local_handle rs) s (wpost rs s).
Proof.
  intros Hw Hs HX. pose proof (wfrom_refl s Hs) as Hf. assert (forall r s1, wfrom s s1 -> wp X (h ← lift_svc (new_local_handle r); mret (set0 rs h)) s1 (wpost rs s)) as Hend.
  { intros r s1 Hs1. apply wp_bind, wp_lift. pose proof (Hnew r) as Hr. pose proof (HX r) as Ha. destruct (new_local_handle r); [by apply wp_answer|by apply Ha|done]. }
  apply wp_bind, wp_require_window; [apply Hs|by apply reg_word|by apply wp_bind, wp_ret, Hend|]. intros w Hn _ _. rewrite (proj2 (Z.eqb_neq w 0)) by done.
  eapply wp_bind, wp_bind, wp_neutral; [done|done|by repeat constructor|]. intros a s1 Hs1 _ _. by apply wp_ret, Hend.
Qed.

Lemma lock_sound rs s : words rs -> wsafe s -> wp X (hc_lock host guest malloc_fn free_fn this_thread rs) s (wpost rs s).
Proof.
  intros Hw Hs. apply wp_bind, wp_lock; [done|by apply reg_word..|]. intros v s' Hs'. apply wp_ret. split; [apply answered_set01; [done|apply u32_range|lia]|done].
Qed.
Lemma unlock_sound rs s : words rs -> wsafe s -> wp X (hc_unlockAndPost host guest free_fn this_thread rs) s (wpost rs s).
Proof.
  intros Hw Hs. apply wp_bind, wp_unlock; [done|by apply reg_word|]. intros v s' Hs'. apply wp_ret. split; [apply answered_set01; [done|apply u32_range|lia]|done].
Qed.
End Sound.

(** Only a full table and [HostJni] end the process. *)
Definition window_abort (resolve_ref new_local_handle : Z -> exec Z) (st : HostNativeWindow) (rs : list Z) : Prop :=
  ~ room (windows_ st) \/ resolve_ref (reg rs 1) = Aborted \/ exists r, new_local_handle r = Aborted.

(** every ANativeWindow call of the guest, with any registers and memory: only guest
    memory is touched, r0 and r1 alone change, and for every window of the platform the
    references taken from it and not given back are exactly those the guest's handles count,
    so no window is released twice, used after its last release or kept for ever.  A window
    that is locked, or being locked, keeps its handle. *)
Theorem window_call_sound host guest malloc_fn free_fn this_thread current_env resolve_ref new_local_handle index rs s :
  kernel_ok host -> wguest_keeps host guest malloc_fn -> (forall h, resolve_ref h <> Undefined) -> (forall r, runs True (new_local_handle r) (fun h => 0 <= h < 2 ^ 32)) ->
  words rs -> wsafe host s ->
  wp (window_abort resolve_ref new_local_handle (own s) rs) (window_handle_host_call host guest malloc_fn free_fn this_thread current_env resolve_ref new_local_handle index rs) s
    (fun r s' => match r with
                 | Some rs' => index ∈ seqZ 160 8 ++ [212; 213] /\ answered rs rs' /\ wfrom host s s'
                 | None => index ∉ seqZ 160 8 ++ [212; 213] /\ s' = s
                 end).
Proof.
  intros Hhost Hguest Hres Hnew Hw Hs. set (calls := window_calls host guest malloc_fn free_fn this_thread current_env resolve_ref new_local_handle). assert (forall i, i ∈ calls.*1 <-> i ∈ seqZ 160 8 ++ [212; 213]) as Hidx by (intros i; cbn; set_solver).
  apply wp_serve; [|intros Hn; split; [by rewrite <- Hidx|done]]. intros hc Hin. assert (index ∈ seqZ 160 8 ++ [212; 213]) as Hi by (apply Hidx; apply (list_elem_of_fmap_2 fst) in Hin; done).
  eapply wp_mono; [|intros rs' s' Hp; split; [exact Hi|exact Hp]]. revert Hin. unfold calls, window_calls. rewrite !elem_of_cons, elem_of_nil. intros Hin.
  repeat (destruct Hin as [E|Hin]; [injection E as _ ->|]); [..|done].
  - eapply from_surface_sound; [eassumption..|by right; left|by left].
  - eapply acquire_sound; eassumption.
  - eapply release_sound; eassumption.
  - eapply query_sound; eassumption.
  - eapply query_sound; eassumption.
  - eapply query_sound; eassumption.
  - eapply geometry_sound; eassumption.
  - eapply to_surface_sound; [eassumption..|]. intros r Hr. right. right. by exists r.
  - eapply lock_sound; eassumption.
  - eapply unlock_sound; eassumption.
Qed.

(** ** Runs *)

(** A platform with one window of 2 by 2 pixels, and a guest heap with one block. *)
Definition sample_display (log : list hostcall) (c : hostcall) : answer :=
  {| ret := if decide (h_name c = "from_surface") then 50 else 0; errno := 0; guest_writes := []; outs := [2; 2; 2; 1; 77; 0; 0; 2; 2] |}.
Definition window_heap (f : Z) (args : list Z) (s : Sv HostNativeWindow) : option GuestResult * Sv HostNativeWindow := (Some {| res_r0 := 0x10100; res_r1 := 0 |}, s).
Definition sample_window : Sv HostNativeWindow := Build_Sv HostNativeWindow_init (km sample_text) [].
Definition window_regs (a b c : Z) : list Z := [a; b; c] ++ replicate 13 0.

Lemma sample_window_safe : wsafe sample_display sample_window.
Proof.
  split; [|split; [exact sample_text_wf|done]]. split; try done; [apply global_wf_init| |].
  - intros h. split; [by intros [n Hn]|]. intros (Hp & w & _ & E). exfalso. unfold GlobalHandles_get in E. rewrite (proj2 (Z.eqb_neq h 0)) in E by lia. cbn in E. by case_decide.
  - by intros h [l Hl].
Qed.

#[local] Notation sample_call g := (window_handle_host_call sample_display g 1 2 7 3 (fun h => Ret h) (fun r => Ret 5)).

Lemma window_call_sound_witness :
  exists r s, sample_call window_heap ZB_WINDOW_HC_ANativeWindow_fromSurface (window_regs 0 9 0) sample_window = Ret (r, s) /\ match r with Some rs => negb (reg rs 0 =? 0) | None => false end = true /\
    match r with Some rs => ZB_WINDOW_HC_ANativeWindow_fromSurface ∈ seqZ 160 8 ++ [212; 213] /\ answered (window_regs 0 9 0) rs /\ wfrom sample_display sample_window s
               | None => ZB_WINDOW_HC_ANativeWindow_fromSurface ∉ seqZ 160 8 ++ [212; 213] /\ s = sample_window end.
Proof.
  apply (wp_run _ _ _ _ (fun r => match r with Some rs => negb (reg rs 0 =? 0) | None => false end)
    (window_call_sound sample_display window_heap 1 2 7 3 (fun h => Ret h) (fun r => Ret 5) ZB_WINDOW_HC_ANativeWindow_fromSurface (window_regs 0 9 0) sample_window
      ltac:(intros log c a bs H; apply elem_of_nil in H; destruct H) ltac:(intros f args s Hs; split; [apply wfrom_refl, Hs|split; [split; [discriminate|reflexivity]|auto]]) ltac:(intros h; discriminate)
      ltac:(intros r; split; [discriminate|reflexivity]) ltac:(split; [reflexivity|repeat constructor; discriminate]) sample_window_safe)).
  vm_compute. reflexivity.
Defined.

(** The calls of a guest one after the other. *)
Definition lock_session (g : Z -> list Z -> Sv HostNativeWindow -> option GuestResult * Sv HostNativeWindow) (out dirty : Z) : svc HostNativeWindow Z :=
  r ← sample_call g ZB_WINDOW_HC_ANativeWindow_fromSurface (window_regs 0 9 0);
  match r with
  | Some rs => r ← sample_call g ZB_COMPAT_HC_ANativeWindow_lock (window_regs (reg rs 0) out dirty); mret (match r with Some rs => reg rs 0 | None => -1 end)
  | None => mret (-1)
  end.

Example lock_stages_pixels :
  match lock_session window_heap 0x11000 0x11100 sample_window with
  | Ret (v, s) => (v =? 0) && bool_decide (bytes_at (smem s) 0x11010 4 = to_le 4 0x10100) && bool_decide (bytes_at (smem s) 0x11108 4 = [2; 0; 0; 0])
  | _ => false
  end = true.
Proof. vm_compute. reflexivity. Qed.

(** A malloc that unmaps the page of the guest's buffer: the pointer checked before it ran is
    written all the same. *)
Definition unmapping_heap (f : Z) (args : list Z) (s : Sv HostNativeWindow) : option GuestResult * Sv HostNativeWindow :=
  (Some {| res_r0 := 0x10100; res_r1 := 0 |},
   Build_Sv (own s) {| base_ := base_ (smem s); pages_ := fun i => if i =? 0x11 then 0 else pages_ (smem s) i; hprot := fun i => if i =? 0x11 then 0 else hprot (smem s) i; host_calls := 0%nat; bytes_ := bytes_ (smem s) |} (scalls s)).

Example lock_writes_unmapped : lock_session unmapping_heap 0x11000 0 sample_window = Undefined.
Proof. vm_compute. reflexivity. Qed.
