(* ===== verification/HostBitmap.v ===== *)
(** * Bitmaps

    [core/src/android/host_bitmap.cpp]: the AndroidBitmap host calls (indices 217 to 219).
    Locked pixels are staged in a block of the guest's heap; [locks_] remembers the locked
    bitmaps, each with a reference of its own.

    The platform is the parameter [host], guest code [guest]; copies of pixels are calls of
    the log. *)

From stdpp Require Import numbers list gmap strings.
From S2P Require Import Prelude Handles Bytes GuestMemory InitialStack GuestThread Kernel Syscalls Messages Service HostWindow.
Local Open Scope Z_scope.

Definition ZB_COMPAT_HC_AndroidBitmap_getInfo : Z := 217.
Definition ZB_COMPAT_HC_AndroidBitmap_lockPixels : Z := 218.
Definition ZB_COMPAT_HC_AndroidBitmap_unlockPixels : Z := 219.

Record BitmapInfo := { bwidth : Z; bheight : Z; bstride : Z; bformat : Z; bflags : Z }.
Definition info_of (a : answer) : BitmapInfo := {| bwidth := u32 (out a 0); bheight := u32 (out a 1); bstride := u32 (out a 2); bformat := s32 (out a 3); bflags := u32 (out a 4) |}.

Definition bitmap_pixel_bytes (format : Z) : Z :=
  if (format =? 1) || (format =? 10) then 4 else if (format =? 4) || (format =? 7) then 2 else if format =? 8 then 1 else if format =? 9 then 8 else 0.

Definition info_valid (i : BitmapInfo) : bool :=
  negb ((bwidth i =? 0) || (bheight i =? 0) || (bitmap_pixel_bytes (bformat i) =? 0) || (bstride i <? bwidth i * bitmap_pixel_bytes (bformat i)) || (kMaxPixels <? bstride i) ||
        (kMaxPixels / bstride i <? bheight i) || negb (Z.land (bflags i) 0x80000000 =? 0)).

Record Lock := { bitmap : Z; address : Z; bytes : Z; pixels : Z; owner : Z }.
Record HostBitmap := { blocks_ : list Lock }.
Definition HostBitmap_init : HostBitmap := {| blocks_ := [] |}.

Section HostBitmap.
Context (host : list hostcall -> hostcall -> answer) (guest : Z -> list Z -> Sv HostBitmap -> option GuestResult * Sv HostBitmap).
Context (malloc_fn free_fn this_thread current_env : Z) (resolve_ref : Z -> exec Z).

#[local] Notation svc := (svc HostBitmap).
#[local] Notation backend := (backend host).
#[local] Notation allocate_guest := (allocate_guest guest malloc_fn).
#[local] Notation free_guest := (free_guest guest free_fn).

(** The first lock of that bitmap. *)
Fixpoint find_lock (b : Z) (locks : list Lock) (i : nat) : svc (option (nat * Lock)) :=
  match locks with
  | [] => mret None
  | l :: rest => a ← backend "same_object" [HInt current_env; HInt b; HInt (bitmap l)]; if ret a =? 0 then find_lock b rest (S i) else mret (Some (i, l))
  end.

Definition hc_getInfo (b : Z) (rs : list Z) : svc Z :=
  target ← guest_ptr (reg rs 2) 20 kPageWrite;
  match target with
  | None => mret (-1)
  | Some p =>
      a ← backend "get_info" [HInt current_env; HInt b];
      let i := info_of a in
      _ ← (if s32 (ret a) =? 0 then store p (concat (map (to_le 4) [bwidth i; bheight i; bstride i; u32 (bformat i); bflags i])) else mret tt);
      mret (s32 (ret a))
  end.

Definition give_back (b result : Z) : svc Z := _ ← backend "unlock_pixels" [HInt current_env; HInt b]; mret result.

(** The locked pixels in a block of the guest, its address at [target]. *)
Definition stage_bitmap (b target word_ n px : Z) : svc Z :=
  block ← allocate_guest (u32 n);
  if block =? 0 then give_back b (-3)
  else if (word_ <? block + n) && (block <? word_ + 4) then _ ← free_guest block; give_back b (-1)
  else
    p ← guest_ptr block n (Z.lor kPageRead kPageWrite);
    match p with
    | None => _ ← free_guest block; give_back b (-1)
    | Some p =>
        retained ← backend "retain" [HInt current_env; HInt b];
        if ret retained =? 0 then _ ← free_guest block; give_back b (-3)
        else
          _ ← backend "memcpy_from" [HInt px; HGuest p n kPageWrite];
          _ ← store target (to_le 4 block);
          st ← get_own;
          _ ← put_own {| blocks_ := blocks_ st ++ [{| bitmap := ret retained; address := block; bytes := n; pixels := px; owner := this_thread |}] |};
          mret 0
    end.

Definition hc_lockPixels (b : Z) (rs : list Z) : svc Z :=
  target ← guest_ptr (reg rs 2) 4 kPageWrite;
  match target with
  | None => mret (-1)
  | Some p =>
      a ← backend "get_info" [HInt current_env; HInt b];
      let i := info_of a in
      if negb (s32 (ret a) =? 0) then mret (s32 (ret a))
      else if negb (info_valid i) then mret (-1)
      else
        st ← get_own;
        found ← find_lock b (blocks_ st) 0;
        match found with
        | Some _ => mret (-1)
        | None =>
            r ← backend "lock_pixels" [HInt current_env; HInt b];
            if negb (s32 (ret r) =? 0) then mret (s32 (ret r))
            else if out r 0 =? 0 then give_back b (-1)
            else stage_bitmap b p (reg rs 2) (bheight i * bstride i) (out r 0)
        end
  end.

Definition hc_unlockPixels (b : Z) : svc Z :=
  st ← get_own;
  found ← find_lock b (blocks_ st) 0;
  match found with
  | None => mret (-1)
  | Some (i, l) =>
      if negb (owner l =? this_thread) then mret (-1)
      else
        _ ← put_own {| blocks_ := delete i (blocks_ st) |};
        p ← guest_ptr (address l) (bytes l) kPageRead;
        _ ← match p with None => mret tt | Some p => _ ← backend "memcpy_to" [HInt (pixels l); HGuest p (bytes l) kPageRead]; mret tt end;
        _ ← free_guest (address l);
        result ← backend "unlock_pixels" [HInt current_env; HInt (bitmap l)];
        _ ← backend "release" [HInt current_env; HInt (bitmap l)];
        mret (match p with None => -1 | Some _ => s32 (ret result) end)
  end.

Definition bitmap_handle_host_call (index : Z) (rs : list Z) : svc (option (list Z)) :=
  if (index <? ZB_COMPAT_HC_AndroidBitmap_getInfo) || (ZB_COMPAT_HC_AndroidBitmap_unlockPixels <? index) then mret None
  else
    b ← lift_svc (resolve_ref (reg rs 1));
    result ← (if (current_env =? 0) || (b =? 0) then mret (-1)
              else if index =? ZB_COMPAT_HC_AndroidBitmap_getInfo then hc_getInfo b rs
              else if index =? ZB_COMPAT_HC_AndroidBitmap_lockPixels then hc_lockPixels b rs
              else hc_unlockPixels b);
    mret (Some (set01 rs (u32 result) 0)).
End HostBitmap.

(** ** Invariant *)

Definition lock_ok (l : Lock) : Prop := 0 < address l < 2 ^ 32 /\ 0 < bytes l <= kMaxPixels /\ bitmap l <> 0.

Section Sound.
Context (host : list hostcall -> hostcall -> answer) (guest : Z -> list Z -> Sv HostBitmap -> option GuestResult * Sv HostBitmap).
Context (malloc_fn free_fn this_thread current_env : Z) (resolve_ref : Z -> exec Z).

(** What a call takes from the platform or gives back: locked pixels, and references. *)
Definition pixel_delta (past : list hostcall) (c : hostcall) : Z :=
  if decide (h_name c = "lock_pixels") then Z.b2z (s32 (ret (host past c)) =? 0) else if decide (h_name c = "unlock_pixels") then -1 else 0.
Definition ref_delta (past : list hostcall) (c : hostcall) : Z :=
  if decide (h_name c = "retain") then Z.b2z (negb (ret (host past c) =? 0)) else if decide (h_name c = "release") then -1 else 0.

(** Locked pixels and references not given back, [p] and [r] more than there are locks. *)
Definition owing (s : Sv HostBitmap) (p r : Z) : Prop :=
  log_total pixel_delta [] (scalls s) = Z.of_nat (length (blocks_ (own s))) + p /\ log_total ref_delta [] (scalls s) = Z.of_nat (length (blocks_ (own s))) + r.

Definition bstate (p r : Z) (s : Sv HostBitmap) : Prop := Forall lock_ok (blocks_ (own s)) /\ mem_wf (smem s) /\ owing s p r.
Definition bsafe : Sv HostBitmap -> Prop := bstate 0 0.

Definition bguest_keeps : Prop := forall f args s p r, bstate p r s ->
  let '(o, s') := guest f args s in
  bstate p r s' /\ match o with Some o => 0 <= res_r0 o < 2 ^ 32 | None => True end /\
  (f = malloc_fn -> forall a n need, accessible (smem s) a n need = true -> accessible (smem s') a n need = true).

Context (Hhost : kernel_ok host) (Hguest : bguest_keeps).

Lemma wp_bitmap_platform X name args p r s Q :
  bstate p r s -> Forall (arg_ok (smem s)) args ->
  (forall a s', bstate (p + pixel_delta (scalls s) {| h_name := name; h_args := args |}) (r + ref_delta (scalls s) {| h_name := name; h_args := args |}) s' -> own s' = own s -> pages_ (smem s') = pages_ (smem s) ->
     a = host (scalls s) {| h_name := name; h_args := args |} -> Q a s') -> wp X (backend host name args) s Q.
Proof.
  intros (Hl & Hm & Ho1 & Ho2) Ha HQ. apply (wp_backend host Hhost); [done|done|]. intros m How Hm'. apply HQ; [|done|apply How|done]. split; [done|]. split; [done|]. split; cbn [scalls own]; rewrite log_total_snoc; cbn [app]; lia.
Qed.

Lemma no_delta past c : h_name c ∉ ["lock_pixels"; "unlock_pixels"; "retain"; "release"] -> pixel_delta past c = 0 /\ ref_delta past c = 0.
Proof. intros Hn. unfold pixel_delta, ref_delta. rewrite !decide_False; [done|..]; intros E; apply Hn; rewrite E; set_solver. Qed.

(** A call that takes and gives nothing. *)
Lemma wp_plain X name args p r s Q :
  bstate p r s -> name ∉ ["lock_pixels"; "unlock_pixels"; "retain"; "release"] -> Forall (arg_ok (smem s)) args ->
  (forall a s', bstate p r s' -> own s' = own s -> pages_ (smem s') = pages_ (smem s) -> a = host (scalls s) {| h_name := name; h_args := args |} -> Q a s') -> wp X (backend host name args) s Q.
Proof.
  intros Hs Hn Ha HQ. eapply wp_bitmap_platform; [done|done|]. intros a s' Hs' E P Ea. apply HQ; [|done..]. destruct (no_delta (scalls s) {| h_name := name; h_args := args |} Hn) as [E1 E2]. rewrite E1, E2 in Hs'. by rewrite !Z.add_0_r in Hs'.
Qed.

Lemma wp_bguest X f args p r s Q :
  bstate p r s -> (forall o s', bstate p r s' -> match o with Some o => 0 <= res_r0 o < 2 ^ 32 | None => True end ->
     (f = malloc_fn -> forall a n need, accessible (smem s) a n need = true -> accessible (smem s') a n need = true) -> Q o s') -> wp X (call_guest guest f args) s Q.
Proof.
  intros (Hl & Hm & Ho1 & Ho2) HQ. unfold wp, call_guest, runs. set (s1 := Build_Sv _ _ _). assert (bstate p r s1) as H1.
  { split; [done|]. split; [done|]. unfold owing, s1. cbn [scalls own]. rewrite !log_total_snoc. destruct (no_delta ([] ++ scalls s) {| h_name := "guest"; h_args := HInt f :: map HInt args |} ltac:(set_solver)) as [-> ->]. lia. }
  pose proof (Hguest f args s1 p r H1) as Hg. destruct (guest f args s1) as [o s']. destruct Hg as (H2 & H3 & H4). by apply HQ.
Qed.

Lemma wp_bfree X a p r s Q : bstate p r s -> (forall s', bstate p r s' -> Q tt s') -> wp X (free_guest guest free_fn a) s Q.
Proof. intros Hs HQ. unfold free_guest. destruct (a =? 0); [by apply wp_ret, HQ|]. eapply wp_bind, wp_bguest; [done|]. intros o s' Hs' _ _. by apply wp_ret, HQ. Qed.

Lemma wp_give_back X b v s Q : bstate 1 0 s -> (forall s', bsafe s' -> Q v s') -> wp X (give_back host current_env b v) s Q.
Proof. intros Hs HQ. eapply wp_bind, wp_bitmap_platform; [done|by repeat constructor|]. intros a s' Hs' _ _ _. apply wp_ret, HQ. exact Hs'. Qed.

Lemma wp_find X b ls p r : forall i s Q, bstate p r s ->
  (forall o s', bstate p r s' -> own s' = own s -> pages_ (smem s') = pages_ (smem s) -> match o with Some (j, l) => (i <= j)%nat /\ ls !! (j - i)%nat = Some l | None => True end -> Q o s') -> wp X (find_lock host current_env b ls i) s Q.
Proof.
  induction ls as [|l ls IH]; intros i s Q Hs HQ; cbn [find_lock]; [by apply wp_ret, HQ|]. eapply wp_bind, wp_plain; [done|set_solver|by repeat constructor|]. intros a s1 Hs1 E1 P1 _. destruct (ret a =? 0).
  - apply IH; [done|]. intros o s2 Hs2 E2 P2 Ho. apply HQ; [done|by rewrite E2|by rewrite P2|]. destruct o as [[j l']|]; [|done]. destruct Ho as [Hj Hl]. split; [lia|]. replace (j - i)%nat with (S (j - S i)) by lia. done.
  - apply wp_ret, HQ; [done..|]. split; [lia|]. by replace (i - i)%nat with 0%nat by lia.
Qed.

Lemma info_bytes i : 0 <= bwidth i -> 0 <= bheight i -> 0 <= bstride i -> info_valid i = true -> 0 < bheight i * bstride i <= kMaxPixels.
Proof.
  unfold info_valid. rewrite negb_true_iff, !orb_false_iff, !Z.eqb_neq, !Z.ltb_ge. intros Hw Hh Hst [[[[[[H1 H2] H3] H4] H5] H6] _]. assert (0 < bitmap_pixel_bytes (bformat i)) as Hp.
  { unfold bitmap_pixel_bytes in *. repeat (destruct (_ =? _); cbn in *; try lia). }
  assert (0 < bstride i) by nia. split; [nia|]. pose proof (Z.mul_div_le kMaxPixels (bstride i) ltac:(lia)). nia.
Qed.

Lemma wp_bstore X a bs n p r s Q :
  bstate p r s -> 0 <= a < 2 ^ 32 -> size bs <= n < 2 ^ 40 -> accessible (smem s) a n kPageWrite = true -> (forall s', bstate p r s' -> own s' = own s -> Q tt s') -> wp X (store a bs) s Q.
Proof.
  intros (Hl & Hm & Ho) Ha Hn Hacc HQ. pose proof (size_nonneg bs). apply (wp_store _ _ _ a n kPageWrite); [done|done|lia|done|done|lia|lia|]. intros m _ How Hm'. by apply HQ.
Qed.

Lemma wp_stage_bitmap X b target w n px s Q :
  bstate 1 0 s -> 0 <= target < 2 ^ 32 -> accessible (smem s) target 4 kPageWrite = true -> 0 < n <= kMaxPixels -> (forall v s', bsafe s' -> Q v s') ->
  wp X (stage_bitmap host guest malloc_fn free_fn this_thread current_env b target w n px) s Q.
Proof.
  intros Hs Ht Hacc Hn HQ. unfold kMaxPixels in Hn. change (Z.shiftl 64 20) with 67108864 in Hn. apply wp_bind. eapply wp_bind, wp_bguest; [done|]. intros o s1 Hs1 Ho Hm1. apply wp_ret.
  set (block := match o with Some o => res_r0 o | None => 0 end). assert (0 <= block < 2 ^ 32) as Hblock by (unfold block; destruct o; [done|lia]). destruct (Z.eqb_spec block 0) as [|Hnz]; [by eapply wp_give_back; auto|].
  assert (forall v s2, bstate 1 0 s2 -> wp X (_ ← free_guest guest free_fn block; give_back host current_env b v) s2 Q) as Hback by (intros v s2 Hs2; eapply wp_bind, wp_bfree; [done|]; intros s3 Hs3; by eapply wp_give_back; auto).
  destruct (_ && _); [by apply Hback|]. apply wp_bind, wp_ptr; intros Ea; [|by apply Hback]. eapply wp_bind, wp_bitmap_platform; [done|by repeat constructor|]. intros a s2 Hs2 E2 P2 Eret.
  assert (bstate 1 (if ret a =? 0 then 0 else 1) s2) as Hs2'. { change (bstate (1 + 0) (0 + Z.b2z (negb (ret (host (scalls s1) {| h_name := "retain"; h_args := [HInt current_env; HInt b] |}) =? 0))) s2) in Hs2. rewrite <- Eret in Hs2. by destruct (ret a =? 0). }
  destruct (Z.eqb_spec (ret a) 0) as [|Hret]; [by apply Hback|]. eapply wp_bind, wp_plain; [done|set_solver| |].
  { apply Forall_cons_2; [done|]. apply Forall_cons_2; [|done]. split; [done|]. split; [lia|]. right. rewrite (accessible_same _ _ _ _ _ P2). apply accessible_weaker; [done|lia|by right|done]. }
  intros _ s3 Hs3 E3 P3 _. eapply wp_bind, (wp_bstore _ _ _ 4); [done|done|unfold size; rewrite length_to_le; lia|rewrite (accessible_same _ _ _ _ _ P3), (accessible_same _ _ _ _ _ P2); by apply Hm1|].
  intros s4 (Hl4 & Hm4 & Ho1 & Ho2) E4. apply wp_bind, wp_get_own, wp_bind, wp_put_own, wp_ret, HQ. split; [|split; [done|]].
  - cbn. apply Forall_app_2; [done|]. apply Forall_singleton. split; [cbn; lia|]. split; [|done]. cbn. unfold kMaxPixels. change (Z.shiftl 64 20) with 67108864. lia.
  - split; cbn [scalls own blocks_]; rewrite length_app; cbn [length]; lia.
Qed.

Lemma wp_get_info X b rs s Q : words rs -> bsafe s -> (forall v s', bsafe s' -> Q v s') -> wp X (hc_getInfo host current_env b rs) s Q.
Proof.
  intros Hw Hs HQ. apply wp_bind, wp_ptr; intros Ea; [|by apply wp_ret, HQ]. eapply wp_bind, wp_plain; [exact Hs|set_solver|by repeat constructor|]. intros a s1 Hs1 _ P1 _. cbv zeta. apply wp_bind. destruct (_ =? 0); [|by apply wp_ret, wp_ret, HQ].
  eapply (wp_bstore _ _ _ 20); [done|by apply reg_word|unfold size; rewrite length_words; cbn; lia|by rewrite (accessible_same _ _ _ _ _ P1)|]. intros s2 Hs2 _. by apply wp_ret, HQ.
Qed.

Lemma wp_lock_pixels X b rs s Q : words rs -> bsafe s -> (forall v s', bsafe s' -> Q v s') -> wp X (hc_lockPixels host guest malloc_fn free_fn this_thread current_env b rs) s Q.
Proof.
  intros Hw Hs HQ. apply wp_bind, wp_ptr; intros Ea; [|by apply wp_ret, HQ]. eapply wp_bind, wp_plain; [exact Hs|set_solver|by repeat constructor|]. intros a s1 Hs1 _ P1 _. cbv zeta. destruct (negb _); [by apply wp_ret, HQ|].
  destruct (info_valid (info_of a)) eqn:Ev; cbn [negb]; [|by apply wp_ret, HQ]. pose proof (info_bytes (info_of a) ltac:(apply u32_range) ltac:(apply u32_range) ltac:(apply u32_range) Ev) as Hb.
  apply wp_bind, wp_get_own. eapply wp_bind, wp_find; [done|]. intros o s2 Hs2 _ P2 _. destruct o; [by apply wp_ret, HQ|]. eapply wp_bind, wp_bitmap_platform; [done|by repeat constructor|]. intros l s3 Hs3 _ P3 El.
  change (bstate (0 + Z.b2z (s32 (ret (host (scalls s2) {| h_name := "lock_pixels"; h_args := [HInt current_env; HInt b] |})) =? 0)) (0 + 0) s3) in Hs3. rewrite <- El in Hs3. destruct (Z.eqb_spec (s32 (ret l)) 0) as [E0|Hn]; cbn [negb]; [|by apply wp_ret, HQ]. destruct (_ =? 0); [by eapply wp_give_back; auto|].
  apply wp_stage_bitmap; [done|by apply reg_word| |done|done]. by rewrite (accessible_same _ _ _ _ _ P3), (accessible_same _ _ _ _ _ P2), (accessible_same _ _ _ _ _ P1).
Qed.

Lemma wp_unlock_pixels X b s Q : bsafe s -> (forall v s', bsafe s' -> Q v s') -> wp X (hc_unlockPixels host guest free_fn this_thread current_env b) s Q.
Proof.
  intros Hs HQ. apply wp_bind, wp_get_own. eapply wp_bind, wp_find; [exact Hs|]. intros o s1 Hs1 E1 _ Ho. destruct o as [[i l]|]; [|by apply wp_ret, HQ]. destruct (negb _); [by apply wp_ret, HQ|]. destruct Ho as [_ Hl]. rewrite Nat.sub_0_r in Hl.
  destruct Hs1 as (Hl1 & Hm1 & Ho1 & Ho2). rewrite E1 in *. pose proof (lookup_lt_Some _ _ _ Hl) as Hi. rewrite Forall_lookup in Hl1. destruct (Hl1 i l Hl) as (Ha & Hb & Hbm). unfold kMaxPixels in Hb. change (Z.shiftl 64 20) with 67108864 in Hb.
  apply wp_bind, wp_put_own. set (s2 := Build_Sv _ _ _). assert (bstate 1 1 s2) as Hs2.
  { split; [apply Forall_delete, Forall_lookup; exact Hl1|]. split; [done|]. split; cbn [scalls own blocks_ s2]; rewrite length_delete by done; lia. }
  assert (forall (v : option Z) s3, bstate 1 1 s3 -> wp X (_ ← free_guest guest free_fn (address l); result ← backend host "unlock_pixels" [HInt current_env; HInt (bitmap l)]; _ ← backend host "release" [HInt current_env; HInt (bitmap l)];
    mret (match v with None => -1 | Some _ => s32 (ret result) end)) s3 Q) as Hend.
  { intros v s3 Hs3. eapply wp_bind, wp_bfree; [done|]. intros s4 Hs4. eapply wp_bind, wp_bitmap_platform; [done|by repeat constructor|]. intros r s5 Hs5 _ _ _. eapply wp_bind, wp_bitmap_platform; [done|by repeat constructor|]. intros ? s6 Hs6 _ _ _. by apply wp_ret, HQ. }
  apply wp_bind, wp_ptr; intros Ea; apply wp_bind; [|by apply wp_ret, (Hend None)]. eapply wp_bind, wp_plain; [done|set_solver| |intros ? s3 Hs3 _ _ _; by apply wp_ret, (Hend (Some (address l)))].
  apply Forall_cons_2; [done|]. apply Forall_cons_2; [|done]. split; [lia|]. split; [lia|]. by right.
Qed.

(** every AndroidBitmap call of the guest, with any registers: only guest memory is
    touched, r0 and r1 alone change, and the locks the bridge remembers are exactly the
    pixel locks and the references it took from the platform and has not given back, so each
    is given back once, whichever error ends a call. *)
Theorem bitmap_call_sound index rs s :
  (forall h, resolve_ref h <> Undefined) -> words rs -> bsafe s ->
  wp (resolve_ref (reg rs 1) = Aborted) (bitmap_handle_host_call host guest malloc_fn free_fn this_thread current_env resolve_ref index rs) s
    (fun r s' => match r with
                 | Some rs' => 217 <= index <= 219 /\ answered rs rs' /\ bsafe s'
                 | None => ~ 217 <= index <= 219 /\ s' = s
                 end).
Proof.
  intros Hres Hw Hs. unfold bitmap_handle_host_call, ZB_COMPAT_HC_AndroidBitmap_getInfo, ZB_COMPAT_HC_AndroidBitmap_unlockPixels. destruct (Z.ltb_spec index 217); [apply wp_ret; split; [lia|done]|]. destruct (Z.ltb_spec 219 index); [apply wp_ret; split; [lia|done]|]. cbn [orb].
  apply wp_bind, wp_lift. pose proof (Hres (reg rs 1)). destruct (resolve_ref (reg rs 1)) as [b| |]; [|done..]. cbn [runs]. apply wp_bind.
  assert (forall v s', bsafe s' -> wp (Ret b = Aborted) (mret (Some (set01 rs (u32 v) 0))) s' (fun r s' => match r with Some rs' => 217 <= index <= 219 /\ answered rs rs' /\ bsafe s' | None => ~ 217 <= index <= 219 /\ s' = s end)) as Hend.
  { intros v s' Hs'. apply wp_ret. split; [lia|]. split; [apply answered_set01; [done|apply u32_range|lia]|done]. }
  destruct (_ || _); [by apply wp_ret, Hend|]. destruct (_ =? _); [by apply wp_get_info|]. destruct (_ =? _); [by apply wp_lock_pixels|by apply wp_unlock_pixels].
Qed.
End Sound.

(** ** A run *)

(** A platform with a bitmap of 2 by 2 pixels at 77. *)
Definition sample_canvas (log : list hostcall) (c : hostcall) : answer :=
  {| ret := if decide (h_name c = "retain") then 40 else 0; errno := 0; guest_writes := []; outs := if decide (h_name c = "lock_pixels") then [77] else [2; 2; 8; 1; 0] |}.
Definition bitmap_heap (f : Z) (args : list Z) (s : Sv HostBitmap) : option GuestResult * Sv HostBitmap := (Some {| res_r0 := 0x10100; res_r1 := 0 |}, s).
Definition sample_bitmap : Sv HostBitmap := Build_Sv HostBitmap_init (km sample_text) [].

Lemma sample_bitmap_safe : bsafe sample_canvas sample_bitmap.
Proof. split; [by constructor|]. split; [exact sample_text_wf|done]. Qed.

Lemma bitmap_call_sound_witness :
  exists r s, bitmap_handle_host_call sample_canvas bitmap_heap 1 2 7 3 (fun h => Ret h) ZB_COMPAT_HC_AndroidBitmap_lockPixels (window_regs 0 9 0x11000) sample_bitmap = Ret (r, s) /\
    match r with Some rs => reg rs 0 =? 0 | None => false end = true /\
    match r with Some rs => 217 <= ZB_COMPAT_HC_AndroidBitmap_lockPixels <= 219 /\ answered (window_regs 0 9 0x11000) rs /\ bsafe sample_canvas s
               | None => ~ 217 <= ZB_COMPAT_HC_AndroidBitmap_lockPixels <= 219 /\ s = sample_bitmap end.
Proof.
  apply (wp_run _ _ _ _ (fun r => match r with Some rs => reg rs 0 =? 0 | None => false end)
    (bitmap_call_sound sample_canvas bitmap_heap 1 2 7 3 (fun h => Ret h) ltac:(intros log c a bs H; apply elem_of_nil in H; destruct H)
      ltac:(intros f args s p r Hs; split; [exact Hs|split; [split; [discriminate|reflexivity]|auto]]) ZB_COMPAT_HC_AndroidBitmap_lockPixels (window_regs 0 9 0x11000) sample_bitmap
      ltac:(intros h; discriminate) ltac:(split; [reflexivity|repeat constructor; discriminate]) sample_bitmap_safe)).
  vm_compute. reflexivity.
Defined.
