(* ===== verification/HostCallTable.v ===== *)
(** * The table of host calls

    [core/src/gen/hostcalls.inc], which lists every host call of the bridge libraries as
    index, library and function, and the name tests the services make on it. *)

From stdpp Require Import numbers list strings.
From S2P Require Import Prelude.
Local Open Scope string_scope.
Local Open Scope Z_scope.

Record HostCall := { call_index : Z; call_library : string; call_name : string }.

Definition rows (library : string) (first : Z) (names : list string) : list HostCall :=
  imap (fun i n => {| call_index := first + Z.of_nat i; call_library := library; call_name := n |}) names.

Definition rows_0 : list HostCall := rows "libGLESv2.so" 0 [
    "glActiveTexture"; "glAttachShader"; "glBindAttribLocation"; "glBindBuffer"; "glBindFramebuffer"; "glBindRenderbuffer"; "glBindTexture"; "glBlendColor";
    "glBlendEquation"; "glBlendEquationSeparate"; "glBlendFunc"; "glBlendFuncSeparate"; "glBufferData"; "glBufferSubData"; "glCheckFramebufferStatus";
    "glClear"; "glClearColor"; "glClearDepthf"; "glClearStencil"; "glColorMask"; "glCompileShader"; "glCompressedTexImage2D"; "glCompressedTexSubImage2D";
    "glCopyTexImage2D"; "glCopyTexSubImage2D"; "glCreateProgram"; "glCreateShader"; "glCullFace"; "glDeleteBuffers"; "glDeleteFramebuffers"; "glDeleteProgram";
    "glDeleteRenderbuffers"; "glDeleteShader"; "glDeleteTextures"; "glDepthFunc"; "glDepthMask"; "glDepthRangef"; "glDetachShader"; "glDisable";
    "glDisableVertexAttribArray"; "glDrawArrays"; "glDrawElements"; "glEnable"; "glEnableVertexAttribArray"; "glFinish"; "glFlush";
    "glFramebufferRenderbuffer"; "glFramebufferTexture2D"; "glFrontFace"; "glGenBuffers"; "glGenFramebuffers"; "glGenRenderbuffers"; "glGenTextures";
    "glGenerateMipmap"; "glGetActiveAttrib"; "glGetActiveUniform"; "glGetAttachedShaders"; "glGetAttribLocation"; "glGetBooleanv"; "glGetBufferParameteriv";
    "glGetError"; "glGetFloatv"; "glGetFramebufferAttachmentParameteriv"; "glGetIntegerv"; "glGetProgramInfoLog"; "glGetProgramiv";
    "glGetRenderbufferParameteriv"; "glGetShaderInfoLog"; "glGetShaderPrecisionFormat"; "glGetShaderSource"; "glGetShaderiv"; "glGetString";
    "glGetTexParameterfv"; "glGetTexParameteriv"; "glGetUniformLocation"; "glGetUniformfv"; "glGetUniformiv"; "glGetVertexAttribPointerv";
    "glGetVertexAttribfv"; "glGetVertexAttribiv"; "glHint"; "glIsBuffer"; "glIsEnabled"; "glIsFramebuffer"; "glIsProgram"; "glIsRenderbuffer"; "glIsShader";
    "glIsTexture"; "glLineWidth"; "glLinkProgram"; "glPixelStorei"; "glPolygonOffset"; "glReadPixels"; "glReleaseShaderCompiler"; "glRenderbufferStorage";
    "glSampleCoverage"; "glScissor"; "glShaderBinary"; "glShaderSource"; "glStencilFunc"; "glStencilFuncSeparate"; "glStencilMask"; "glStencilMaskSeparate";
    "glStencilOp"; "glStencilOpSeparate"; "glTexImage2D"; "glTexParameterf"; "glTexParameterfv"; "glTexParameteri"; "glTexParameteriv"; "glTexSubImage2D";
    "glUniform1f"; "glUniform1fv"; "glUniform1i"; "glUniform1iv"; "glUniform2f"; "glUniform2fv"; "glUniform2i"; "glUniform2iv"; "glUniform3f"; "glUniform3fv";
    "glUniform3i"; "glUniform3iv"; "glUniform4f"; "glUniform4fv"; "glUniform4i"; "glUniform4iv"; "glUniformMatrix2fv"; "glUniformMatrix3fv";
    "glUniformMatrix4fv"; "glUseProgram"; "glValidateProgram"; "glVertexAttrib1f"; "glVertexAttrib1fv"; "glVertexAttrib2f"; "glVertexAttrib2fv";
    "glVertexAttrib3f"; "glVertexAttrib3fv"; "glVertexAttrib4f"; "glVertexAttrib4fv"; "glVertexAttribPointer"; "glViewport"].

Definition rows_142 : list HostCall := rows "libandroid.so" 142 [
    "AAssetDir_close"; "AAssetDir_getNextFileName"; "AAssetDir_rewind"; "AAssetManager_fromJava"; "AAssetManager_open"; "AAssetManager_openDir";
    "AAsset_close"; "AAsset_getBuffer"; "AAsset_getLength"; "AAsset_getLength64"; "AAsset_getRemainingLength"; "AAsset_getRemainingLength64";
    "AAsset_isAllocated"; "AAsset_openFileDescriptor"; "AAsset_openFileDescriptor64"; "AAsset_read"; "AAsset_seek"; "AAsset_seek64"; "ANativeWindow_acquire";
    "ANativeWindow_fromSurface"; "ANativeWindow_getFormat"; "ANativeWindow_getHeight"; "ANativeWindow_getWidth"; "ANativeWindow_release";
    "ANativeWindow_setBuffersGeometry"; "ANativeWindow_toSurface"].

Definition rows_168 : list HostCall := rows "libEGL.so" 168 [
    "eglBindAPI"; "eglBindTexImage"; "eglChooseConfig"; "eglClientWaitSync"; "eglCopyBuffers"; "eglCreateContext"; "eglCreateImage";
    "eglCreatePbufferFromClientBuffer"; "eglCreatePbufferSurface"; "eglCreatePixmapSurface"; "eglCreatePlatformPixmapSurface";
    "eglCreatePlatformWindowSurface"; "eglCreateSync"; "eglCreateWindowSurface"; "eglDestroyContext"; "eglDestroyImage"; "eglDestroySurface"; "eglDestroySync";
    "eglGetConfigAttrib"; "eglGetConfigs"; "eglGetCurrentContext"; "eglGetCurrentDisplay"; "eglGetCurrentSurface"; "eglGetDisplay"; "eglGetError";
    "eglGetPlatformDisplay"; "eglGetProcAddress"; "eglGetSyncAttrib"; "eglInitialize"; "eglMakeCurrent"; "eglQueryAPI"; "eglQueryContext"; "eglQueryString";
    "eglQuerySurface"; "eglReleaseTexImage"; "eglReleaseThread"; "eglSurfaceAttrib"; "eglSwapBuffers"; "eglSwapInterval"; "eglTerminate"; "eglWaitClient";
    "eglWaitGL"; "eglWaitNative"; "eglWaitSync"].

Definition rows_212 : list HostCall := rows "libandroid.so" 212 [
    "ANativeWindow_lock"; "ANativeWindow_unlockAndPost"].

Definition rows_214 : list HostCall := rows "libEGL.so" 214 [
    "eglCreateImageKHR"; "eglDestroyImageKHR"].

Definition rows_216 : list HostCall := rows "libGLESv2.so" 216 [
    "glEGLImageTargetTexture2DOES"].

Definition rows_217 : list HostCall := rows "libjnigraphics.so" 217 [
    "AndroidBitmap_getInfo"; "AndroidBitmap_lockPixels"; "AndroidBitmap_unlockPixels"].

Definition rows_220 : list HostCall := rows "libandroid.so" 220 [
    "ALooper_acquire"; "ALooper_addFd"; "ALooper_forThread"; "ALooper_pollOnce"; "ALooper_prepare"; "ALooper_release"; "ALooper_removeFd"; "ALooper_wake"].

Definition rows_228 : list HostCall := rows "libGLESv2.so" 228 [
    "glBeginQuery"; "glBeginTransformFeedback"; "glBindBufferBase"; "glBindBufferRange"; "glBindSampler"; "glBindTransformFeedback"; "glBindVertexArray";
    "glBlitFramebuffer"; "glClearBufferfi"; "glClearBufferfv"; "glClearBufferiv"; "glClearBufferuiv"; "glClientWaitSync"; "glCompressedTexImage3D";
    "glCompressedTexSubImage3D"; "glCopyBufferSubData"; "glCopyTexSubImage3D"; "glDeleteQueries"; "glDeleteSamplers"; "glDeleteSync";
    "glDeleteTransformFeedbacks"; "glDeleteVertexArrays"; "glDrawArraysInstanced"; "glDrawBuffers"; "glDrawElementsInstanced"; "glDrawRangeElements";
    "glEndQuery"; "glEndTransformFeedback"; "glFenceSync"; "glFlushMappedBufferRange"; "glFramebufferTextureLayer"; "glGenQueries"; "glGenSamplers";
    "glGenTransformFeedbacks"; "glGenVertexArrays"; "glGetActiveUniformBlockName"; "glGetActiveUniformBlockiv"; "glGetActiveUniformsiv";
    "glGetBufferParameteri64v"; "glGetBufferPointerv"; "glGetFragDataLocation"; "glGetInteger64i_v"; "glGetInteger64v"; "glGetIntegeri_v";
    "glGetInternalformativ"; "glGetProgramBinary"; "glGetQueryObjectuiv"; "glGetQueryiv"; "glGetSamplerParameterfv"; "glGetSamplerParameteriv"; "glGetStringi";
    "glGetSynciv"; "glGetTransformFeedbackVarying"; "glGetUniformBlockIndex"; "glGetUniformIndices"; "glGetUniformuiv"; "glGetVertexAttribIiv";
    "glGetVertexAttribIuiv"; "glInvalidateFramebuffer"; "glInvalidateSubFramebuffer"; "glIsQuery"; "glIsSampler"; "glIsSync"; "glIsTransformFeedback";
    "glIsVertexArray"; "glMapBufferRange"; "glPauseTransformFeedback"; "glProgramBinary"; "glProgramParameteri"; "glReadBuffer";
    "glRenderbufferStorageMultisample"; "glResumeTransformFeedback"; "glSamplerParameterf"; "glSamplerParameterfv"; "glSamplerParameteri";
    "glSamplerParameteriv"; "glTexImage3D"; "glTexStorage2D"; "glTexStorage3D"; "glTexSubImage3D"; "glTransformFeedbackVaryings"; "glUniform1ui";
    "glUniform1uiv"; "glUniform2ui"; "glUniform2uiv"; "glUniform3ui"; "glUniform3uiv"; "glUniform4ui"; "glUniform4uiv"; "glUniformBlockBinding";
    "glUniformMatrix2x3fv"; "glUniformMatrix2x4fv"; "glUniformMatrix3x2fv"; "glUniformMatrix3x4fv"; "glUniformMatrix4x2fv"; "glUniformMatrix4x3fv";
    "glUnmapBuffer"; "glVertexAttribDivisor"; "glVertexAttribI4i"; "glVertexAttribI4iv"; "glVertexAttribI4ui"; "glVertexAttribI4uiv"; "glVertexAttribIPointer";
    "glWaitSync"; "glRenderbufferStorageMultisampleEXT"; "glFramebufferTexture2DMultisampleEXT"; "glDiscardFramebufferEXT"; "glBindVertexArrayOES";
    "glDeleteVertexArraysOES"; "glGenVertexArraysOES"; "glIsVertexArrayOES"; "glMapBufferOES"; "glUnmapBufferOES"; "glGetBufferPointervOES";
    "glTexStorage2DEXT"; "glTexStorage3DEXT"].

Definition rows_344 : list HostCall := rows "libandroid.so" 344 [
    "AConfiguration_copy"; "AConfiguration_delete"; "AConfiguration_diff"; "AConfiguration_fromAssetManager"; "AConfiguration_getCountry";
    "AConfiguration_getDensity"; "AConfiguration_getGrammaticalGender"; "AConfiguration_getKeyboard"; "AConfiguration_getKeysHidden";
    "AConfiguration_getLanguage"; "AConfiguration_getLayoutDirection"; "AConfiguration_getMcc"; "AConfiguration_getMnc"; "AConfiguration_getNavHidden";
    "AConfiguration_getNavigation"; "AConfiguration_getOrientation"; "AConfiguration_getScreenHeightDp"; "AConfiguration_getScreenLong";
    "AConfiguration_getScreenRound"; "AConfiguration_getScreenSize"; "AConfiguration_getScreenWidthDp"; "AConfiguration_getSdkVersion";
    "AConfiguration_getSmallestScreenWidthDp"; "AConfiguration_getTouchscreen"; "AConfiguration_getUiModeNight"; "AConfiguration_getUiModeType";
    "AConfiguration_isBetterThan"; "AConfiguration_match"; "AConfiguration_new"; "AConfiguration_setCountry"; "AConfiguration_setDensity";
    "AConfiguration_setGrammaticalGender"; "AConfiguration_setKeyboard"; "AConfiguration_setKeysHidden"; "AConfiguration_setLanguage";
    "AConfiguration_setLayoutDirection"; "AConfiguration_setMcc"; "AConfiguration_setMnc"; "AConfiguration_setNavHidden"; "AConfiguration_setNavigation";
    "AConfiguration_setOrientation"; "AConfiguration_setScreenHeightDp"; "AConfiguration_setScreenLong"; "AConfiguration_setScreenRound";
    "AConfiguration_setScreenSize"; "AConfiguration_setScreenWidthDp"; "AConfiguration_setSdkVersion"; "AConfiguration_setSmallestScreenWidthDp";
    "AConfiguration_setTouchscreen"; "AConfiguration_setUiModeNight"; "AConfiguration_setUiModeType"; "AInputQueue_attachLooper"; "AInputQueue_detachLooper";
    "AInputQueue_finishEvent"; "AInputQueue_fromJava"; "AInputQueue_getEvent"; "AInputQueue_hasEvents"; "AInputQueue_preDispatchEvent";
    "AInputEvent_getDeviceId"; "AInputEvent_getSource"; "AInputEvent_getType"; "AInputEvent_release"; "AInputEvent_toJava"; "AKeyEvent_fromJava";
    "AKeyEvent_getAction"; "AKeyEvent_getDownTime"; "AKeyEvent_getEventTime"; "AKeyEvent_getFlags"; "AKeyEvent_getKeyCode"; "AKeyEvent_getMetaState";
    "AKeyEvent_getRepeatCount"; "AKeyEvent_getScanCode"; "AMotionEvent_fromJava"; "AMotionEvent_getAction"; "AMotionEvent_getActionButton";
    "AMotionEvent_getAxisValue"; "AMotionEvent_getButtonState"; "AMotionEvent_getClassification"; "AMotionEvent_getDownTime"; "AMotionEvent_getEdgeFlags";
    "AMotionEvent_getEventTime"; "AMotionEvent_getFlags"; "AMotionEvent_getHistoricalAxisValue"; "AMotionEvent_getHistoricalEventTime";
    "AMotionEvent_getHistoricalOrientation"; "AMotionEvent_getHistoricalPressure"; "AMotionEvent_getHistoricalRawX"; "AMotionEvent_getHistoricalRawY";
    "AMotionEvent_getHistoricalSize"; "AMotionEvent_getHistoricalToolMajor"; "AMotionEvent_getHistoricalToolMinor"; "AMotionEvent_getHistoricalTouchMajor";
    "AMotionEvent_getHistoricalTouchMinor"; "AMotionEvent_getHistoricalX"; "AMotionEvent_getHistoricalY"; "AMotionEvent_getHistorySize";
    "AMotionEvent_getMetaState"; "AMotionEvent_getOrientation"; "AMotionEvent_getPointerCount"; "AMotionEvent_getPointerId"; "AMotionEvent_getPressure";
    "AMotionEvent_getRawX"; "AMotionEvent_getRawY"; "AMotionEvent_getSize"; "AMotionEvent_getToolMajor"; "AMotionEvent_getToolMinor";
    "AMotionEvent_getToolType"; "AMotionEvent_getTouchMajor"; "AMotionEvent_getTouchMinor"; "AMotionEvent_getX"; "AMotionEvent_getXOffset";
    "AMotionEvent_getXPrecision"; "AMotionEvent_getY"; "AMotionEvent_getYOffset"; "AMotionEvent_getYPrecision"].

Definition kHostCalls : list HostCall := rows_0 ++ rows_142 ++ rows_168 ++ rows_212 ++ rows_214 ++ rows_216 ++ rows_217 ++ rows_220 ++ rows_228 ++ rows_344.

(** [std::string_view]'s tests. *)
Definition starts_with (prefix s : string) : bool := String.prefix prefix s.
Fixpoint ends_with (suffix s : string) : bool :=
  bool_decide (s = suffix) || match s with EmptyString => false | String _ rest => ends_with suffix rest end.
Definition one_of (name : string) (names : list string) : bool := existsb (String.eqb name) names.

(** The first row with that index in libandroid.so whose name passes the test. *)
Definition android_name (accepted : string -> bool) (index : Z) : option string :=
  option_map (fun p => call_name p.2) (list_find (fun c => call_index c = index /\ call_library c = "libandroid.so" /\ accepted (call_name c) = true) kHostCalls).

(** The table is dense: row [i] has index [i]. *)
Lemma rows_dense : imap (fun i c => call_index c =? Z.of_nat i) kHostCalls = replicate 459 true.
Proof. vm_compute. reflexivity. Qed.

Lemma row_index i c : kHostCalls !! i = Some c -> call_index c = Z.of_nat i.
Proof.
  intros H. pose proof (f_equal (fun l => l !! i) rows_dense) as E. cbn beta in E. rewrite list_lookup_imap, H in E. symmetry in E.
  apply lookup_replicate in E as [E _]. by apply Z.eqb_eq in E.
Qed.

(** So a search by index is a lookup. *)
Lemma android_name_exact accepted index n :
  android_name accepted index = Some n <-> exists c, kHostCalls !! Z.to_nat index = Some c /\ 0 <= index /\ call_library c = "libandroid.so" /\ accepted n = true /\ n = call_name c.
Proof.
  unfold android_name. split.
  - intros H. destruct (list_find _ _) as [[i c]|] eqn:E; [|done]. injection H as <-. apply list_find_Some in E as (Hi & (Hx & Hl & Ha) & _). exists c.
    pose proof (row_index i c Hi). cbn. split_and!; [|lia|done..]. by replace (Z.to_nat index) with i by lia.
  - intros (c & Hc & Hp & Hl & Ha & ->). pose proof (row_index _ _ Hc) as Hx. rewrite Z2Nat.id in Hx by done. destruct (list_find _ _) as [[i d]|] eqn:E.
    + apply list_find_Some in E as (Hi & (Hx' & _) & _). pose proof (row_index i d Hi). replace i with (Z.to_nat index) in Hi by lia. cbn. congruence.
    + apply list_find_None in E. rewrite Forall_forall in E. destruct (E c); [by eapply list_elem_of_lookup_2|done].
Qed.

(** Which indices a name test accepts, checked row by row. *)
Lemma android_name_range accepted (p : Z -> bool) :
  imap (fun i c => Bool.eqb (String.eqb (call_library c) "libandroid.so" && accepted (call_name c)) (p (Z.of_nat i))) kHostCalls = replicate 459 true ->
  (forall i, p i = true -> 0 <= i < 459) -> forall index, is_Some (android_name accepted index) <-> p index = true.
Proof.
  intros Hrows Hp index.
  assert (forall c, kHostCalls !! Z.to_nat index = Some c -> 0 <= index -> (call_library c = "libandroid.so" /\ accepted (call_name c) = true) <-> p index = true) as Hrow.
  { intros c Hc Hi. pose proof (f_equal (fun l => l !! Z.to_nat index) Hrows) as E. cbn beta in E. rewrite list_lookup_imap, Hc in E. symmetry in E.
    apply lookup_replicate in E as [E _]. rewrite Z2Nat.id in E by done. apply Bool.eqb_prop in E. by rewrite <- E, andb_true_iff, String.eqb_eq. }
  split.
  - intros [n (c & Hc & Hi & Hl & Ha & ->)%android_name_exact]. by apply (Hrow c).
  - intros Ht. pose proof (Hp index Ht) as Hi. assert (length kHostCalls = 459%nat) as Hlen by (vm_compute; reflexivity). destruct (lookup_lt_is_Some_2 kHostCalls (Z.to_nat index)) as [c Hc]; [lia|].
    destruct (proj2 (Hrow c Hc ltac:(lia)) Ht) as [Hl Ha]. exists (call_name c). apply android_name_exact. exists c. split_and!; [done|lia|done..].
Qed.
