(* ===== verification/HostConfiguration.v ===== *)
(** * Configurations and platform fallbacks

    [core/src/android/host_configuration.cpp]: the AConfiguration host calls (indices 344 to
    394), which name a configuration of the platform by a handle; and
    [core/src/android/host_platform_compat.cpp], the last service of the chain, which answers
    calls nothing else served.

    The platform is the parameter [host]; what the runtime report notes is a call of the log.
    [assets] is the asset service, when there is one. *)

From stdpp Require Import numbers list gmap strings.
From S2P Require Import Prelude Handles Bytes GuestMemory InitialStack GuestThread ProcessMemory Kernel Syscalls Messages Service HostAssets HostCallTable.
Local Open Scope string_scope.
Local Open Scope Z_scope.

Record HostConfiguration := { configs_ : GlobalHandles }.
Definition HostConfiguration_init : HostConfiguration := {| configs_ := GlobalHandles_init Global |}.

Definition config_name (index : Z) : option string := android_name (starts_with "AConfiguration_") index.

(** [full_name + strlen("AConfiguration_")]. *)
Definition short_name (full_name : string) : string := String.substring 15 (String.length full_name - 15) full_name.

Definition manager_value (assets : option HostAssets) (handle : Z) : exec Z :=
  match assets with None => Ret 0 | Some a => r ← GlobalHandles_get (managers_ a) handle; Ret (default 0 r) end.

Section HostConfiguration.
Context (host : list hostcall -> hostcall -> answer) (assets : option HostAssets).

#[local] Notation svc := (svc HostConfiguration).
#[local] Notation backend := (backend host).

Definition config_value (handle : Z) : svc Z := st ← get_own; r ← lift_svc (GlobalHandles_get (configs_ st) handle); mret (default 0 r).
Definition unsupported (index : Z) : svc unit := _ ← backend "note_unimplemented_host_call" [HInt index]; mret tt.

Definition hc_new : svc Z :=
  value ← backend "create" [];
  if ret value =? 0 then mret 0
  else
    st ← get_own;
    '(handle, t) ← lift_svc (GlobalHandles_add (configs_ st) (ret value));
    _ ← put_own {| configs_ := t |};
    _ ← (if handle =? 0 then _ ← backend "destroy" [HInt (ret value)]; mret tt else mret tt);
    mret handle.

Definition hc_delete (rs : list Z) : svc Z :=
  st ← get_own;
  '(value, t) ← lift_svc (GlobalHandles_remove (configs_ st) (reg rs 0));
  _ ← put_own {| configs_ := t |};
  _ ← match value with
      | Some v => if v =? 0 then mret tt else _ ← backend "destroy" [HInt v]; mret tt
      | None => mret tt
      end;
  mret 0.

Definition hc_copy (index first : Z) (rs : list Z) : svc Z :=
  second ← config_value (reg rs 1);
  _ ← (if second =? 0 then mret tt else ok ← backend "copy" [HInt first; HInt second]; if ret ok =? 0 then unsupported index else mret tt);
  mret 0.

Definition hc_fromAssetManager (index first : Z) (rs : list Z) : svc Z :=
  manager ← lift_svc (manager_value assets (reg rs 1));
  _ ← (if manager =? 0 then mret tt else ok ← backend "from_asset_manager" [HInt first; HInt manager]; if ret ok =? 0 then unsupported index else mret tt);
  mret 0.

Definition hc_compare (index first : Z) (name : string) (rs : list Z) : svc Z :=
  second ← config_value (reg rs 1);
  if second =? 0 then mret (- EINVAL)
  else
    ok ← backend "compare" [HPath (msg name); HInt first; HInt second];
    if ret ok =? 0 then _ ← unsupported index; mret (- ENOSYS) else mret (s32 (out ok 0)).

Definition hc_get_code (index first : Z) (name : string) (rs : list Z) : svc Z :=
  p ← guest_ptr (reg rs 1) 2 kPageWrite;
  match p with
  | None => mret (- EFAULT)
  | Some p =>
      ok ← backend "get_code" [HPath (msg name); HInt first];
      _ ← (if ret ok =? 0 then unsupported index else store p (host_bytes ok 2));
      mret 0
  end.

Definition hc_set_code (index first : Z) (name : string) (rs : list Z) : svc Z :=
  p ← guest_ptr (reg rs 1) 2 kPageRead;
  match p with
  | None => mret (- EFAULT)
  | Some p =>
      ok ← backend "set_code" [HPath (msg name); HInt first; HGuest p 2 kPageRead];
      _ ← (if ret ok =? 0 then unsupported index else mret tt);
      mret 0
  end.

Definition hc_get_int (index first : Z) (name : string) : svc Z :=
  ok ← backend "get_int" [HPath (msg name); HInt first];
  if ret ok =? 0 then _ ← unsupported index; mret (- ENOSYS) else mret (s32 (out ok 0)).

Definition hc_set_int (index first : Z) (name : string) (rs : list Z) : svc Z :=
  ok ← backend "set_int" [HPath (msg name); HInt first; HInt (s32 (reg rs 1))];
  _ ← (if ret ok =? 0 then unsupported index else mret tt);
  mret 0.

(** The calls on a live configuration. *)
Definition config_operation (index first : Z) (name : string) (rs : list Z) : svc Z :=
  if String.eqb name "copy" then hc_copy index first rs
  else if String.eqb name "fromAssetManager" then hc_fromAssetManager index first rs
  else if one_of name ["diff"; "match"; "isBetterThan"] then hc_compare index first name rs
  else if one_of name ["getLanguage"; "getCountry"] then hc_get_code index first name rs
  else if one_of name ["setLanguage"; "setCountry"] then hc_set_code index first name rs
  else if starts_with "get" name then hc_get_int index first name
  else if starts_with "set" name then hc_set_int index first name rs
  else _ ← unsupported index; mret (- ENOSYS).

Definition config_call (index : Z) (name : string) (rs : list Z) : svc Z :=
  if String.eqb name "new" then hc_new
  else if String.eqb name "delete" then hc_delete rs
  else
    first ← config_value (reg rs 0);
    if first =? 0 then mret (- EINVAL) else config_operation index first name rs.

Definition config_handle_host_call (index : Z) (rs : list Z) : svc (option (list Z)) :=
  match config_name index with
  | None => mret None
  | Some full_name => v ← config_call index (short_name full_name) rs; mret (Some (set01 rs (u32 v) 0))
  end.
End HostConfiguration.

(** ** Invariant *)

(** Live handles of that value. *)
Definition named (t : GlobalHandles) (w : Z) : Z := Z.of_nat (length (filter (fun r => r = w) (grefs_ t))).

Lemma named_insert l (i : nat) (r v w : Z) : l !! i = Some r ->
  Z.of_nat (length (filter (fun x => x = w) (<[i := v]> l))) = Z.of_nat (length (filter (fun x => x = w) l)) + Z.b2z (v =? w) - Z.b2z (r =? w).
Proof.
  revert i. induction l as [|x l IH]; intros [|i] H; [done..| |]; cbn in H.
  - injection H as ->. cbn [insert list_insert]. rewrite !filter_cons. destruct (Z.eqb_spec v w), (Z.eqb_spec r w); repeat case_decide; cbn [length Z.b2z]; try done; lia.
  - change (<[S i := v]> (x :: l)) with (x :: <[i := v]> l). rewrite !filter_cons. specialize (IH i H). case_decide; cbn [length]; lia.
Qed.

Lemma named_add t r h t' w : global_wf t -> r <> 0 -> w <> 0 -> GlobalHandles_add t r = Ret (h, t') -> named t' w = named t w + Z.b2z (r =? w).
Proof.
  intros Hwf Hr Hw. unfold GlobalHandles_add. rewrite (proj2 (Z.eqb_neq r 0)) by done. destruct (free_ t) as [|i rest] eqn:Ef.
  - case_decide; [done|]. intros E. injection E as <- <-. unfold named. cbn [grefs_]. rewrite filter_app, length_app, filter_cons, filter_nil. destruct (Z.eqb_spec r w); case_decide; cbn [length Z.b2z]; try done; lia.
  - destruct (gwf_free _ Hwf i) as (H0 & v & Hv & _); [rewrite Ef; by left|]. vec_simpl. intros E. injection E as <- <-.
    unfold named. cbn [grefs_]. rewrite (named_insert _ _ 0) by done. rewrite (proj2 (Z.eqb_neq 0 w)) by done. cbn. lia.
Qed.

Lemma named_remove t h r t' w : global_wf t -> r <> 0 -> w <> 0 -> GlobalHandles_remove t h = Ret (Some r, t') -> named t' w = named t w - Z.b2z (r =? w).
Proof.
  intros Hwf Hr Hw. unfold GlobalHandles_remove. destruct (h =? 0); [congruence|]. case_decide; [done|]. destruct (grefs_ t !! handle_slot h) as [v|] eqn:Ei; [|done]. destruct (Z.eqb_spec v 0) as [|Hv]; [done|].
  destruct (gwf_live _ Hwf _ _ Ei Hv) as (n & Hn & _). vec_simpl. destruct (_ =? n); [|done]. vec_simpl. intros E. injection E as -> <-. unfold named. cbn [grefs_]. rewrite (named_insert _ _ r) by done.
  rewrite (proj2 (Z.eqb_neq 0 w)) by done. cbn. lia.
Qed.

Section Sound.
Context (host : list hostcall -> hostcall -> answer) (assets : option HostAssets).

(** Configurations with value [w] created and not destroyed, by the log. *)
Definition config_delta (w : Z) (past : list hostcall) (c : hostcall) : Z :=
  if decide (h_name c = "create") then Z.b2z (ret (host past c) =? w)
  else if decide (h_name c = "destroy") then match h_args c with [HInt v] => - Z.b2z (v =? w) | _ => 0 end else 0.

Definition csafe (s : Sv HostConfiguration) : Prop :=
  global_wf (configs_ (own s)) /\ mem_wf (smem s) /\ forall w, w <> 0 -> log_total (config_delta w) [] (scalls s) = named (configs_ (own s)) w.

Context (Hhost : kernel_ok host) (Hassets : match assets with Some a => global_wf (managers_ a) | None => True end).

(** A call that neither creates nor destroys. *)
Lemma wp_config_quiet X name args s Q :
  csafe s -> name ∉ ["create"; "destroy"] -> Forall (arg_ok (smem s)) args ->
  (forall a s', csafe s' -> own s' = own s -> pages_ (smem s') = pages_ (smem s) -> Q a s') -> wp X (backend host name args) s Q.
Proof.
  intros (Hg & Hm & Hb) Hn Ha HQ. apply (wp_backend host Hhost); [done|done|]. intros m How Hm'. apply HQ; [|done|apply How]. split; [done|]. split; [done|]. intros w Hw. cbn [scalls own]. rewrite log_total_snoc, Hb by done.
  unfold config_delta. cbn [h_name]. rewrite !decide_False by set_solver. lia.
Qed.

Lemma wp_config X h s Q : csafe s -> 0 <= h -> (forall v, Q v s) -> wp X (config_value h) s Q.
Proof. intros Hs Hh HQ. apply wp_bind, wp_get_own, wp_bind, wp_lift, runs_get; [apply Hs|done|by apply wp_ret|by intros _; apply wp_ret|]. intros r _ _ _. by apply wp_ret. Qed.

Lemma wp_config_unsupported X index s Q : csafe s -> (forall s', csafe s' -> Q tt s') -> wp X (unsupported host index) s Q.
Proof. intros Hs HQ. eapply wp_bind, wp_config_quiet; [done|set_solver|by repeat constructor|]. intros a s' Hs' _ _. by apply wp_ret, HQ. Qed.

(** The end of a call whose backend may not know it. *)
Lemma wp_or_note X (b : bool) index (v : Z) s (Q : Z -> Sv HostConfiguration -> Prop) : csafe s -> (forall v s', csafe s' -> Q v s') -> wp X (_ ← (if b then unsupported host index else mret tt); mret v) s Q.
Proof. intros Hs HQ. apply wp_bind. destruct b; [eapply wp_config_unsupported; [done|]; intros s' Hs'|]; by apply wp_ret, HQ. Qed.

Lemma wp_new X s Q : csafe s -> (~ room (configs_ (own s)) -> X) -> (forall v s', csafe s' -> Q v s') -> wp X (hc_new host) s Q.
Proof.
  intros (Hg & Hm & Hb) HX HQ. apply wp_bind, (wp_backend host Hhost); [done|by constructor|]. intros m How Hm'. set (c := {| h_name := "create" |}). set (a := host (scalls s) c).
  assert (forall w, w <> 0 -> log_total (config_delta w) [] (scalls s ++ [c]) = named (configs_ (own s)) w + Z.b2z (ret a =? w)) as Ht by (intros w Hw; rewrite log_total_snoc, Hb by done; done).
  destruct (Z.eqb_spec (ret a) 0) as [E0|Hne].
  { apply wp_ret, HQ. split; [done|]. split; [done|]. intros w Hw. cbn [scalls own]. rewrite Ht, E0, (proj2 (Z.eqb_neq 0 w)) by done. cbn. lia. }
  apply wp_bind, wp_get_own, wp_bind, wp_lift. cbn [own]. destruct (GlobalHandles_add (configs_ (own s)) (ret a)) as [[h t]| |] eqn:E.
  - destruct (global_add_ok _ _ _ _ Hg Hne E) as (Hwf & Hh & _). apply wp_bind, wp_put_own. rewrite (proj2 (Z.eqb_neq h 0)) by lia. apply wp_bind, wp_ret, wp_ret, HQ. split; [done|]. split; [done|]. intros w Hw. cbn [scalls own configs_]. rewrite Ht by done.
    symmetry. by eapply named_add.
  - apply HX. destruct (global_add_spec _ _ Hg Hne) as [(t' & i & v & E' & _)|(_ & Hf & Hl)]; [congruence|]. intros [?|?]; [done|lia].
  - destruct (global_add_spec _ _ Hg Hne) as [(t' & i & v & E' & _)|(E' & _)]; congruence.
Qed.

Lemma wp_delete X rs s Q : csafe s -> 0 <= reg rs 0 -> (forall v s', csafe s' -> Q v s') -> wp X (hc_delete host rs) s Q.
Proof.
  intros Hs Hh HQ. pose proof Hs as (Hg & Hm & Hb). assert (forall v, match v with Some v => v = 0 | None => True end -> wp X (_ ← put_own {| configs_ := configs_ (own s) |};
    _ ← match v with Some v => if v =? 0 then mret tt else _ ← backend host "destroy" [HInt v]; mret tt | None => mret tt end; mret 0) s Q) as Hnone.
  { intros v Hv. apply wp_bind, wp_put_own, wp_bind. destruct v as [v|]; [subst v|]; by apply wp_ret, wp_ret, HQ. }
  apply wp_bind, wp_get_own, wp_bind, wp_lift. destruct (decide (reg rs 0 = 0)) as [->|Hne]; [by apply (Hnone (Some 0))|]. destruct (global_get_spec _ _ Hg Hne) as [(r & E & Hl)|(_ & _ & E)]; [|rewrite E; by apply (Hnone None)].
  destruct (global_remove_ok (configs_ (own s)) (reg rs 0) r Hg ltac:(lia) E) as (t & Er & Hwf & _). rewrite Er. assert (r <> 0) as Hr by apply Hl. apply wp_bind, wp_put_own, wp_bind. rewrite (proj2 (Z.eqb_neq r 0)) by done.
  apply wp_bind, (wp_backend host Hhost); [done|by repeat constructor|]. intros m How Hm'. apply wp_ret, wp_ret, HQ. split; [done|]. split; [done|]. intros w Hw. cbn [scalls own configs_ smem]. rewrite log_total_snoc, Hb, (named_remove _ _ _ _ _ Hg Hr Hw Er) by done. unfold config_delta. cbn [h_name h_args]. rewrite decide_False, decide_True by done. lia.
Qed.

Lemma code_args s v name h need : csafe s -> 0 <= h < 2 ^ 32 -> accessible (smem s) h 2 need = true -> Forall (arg_ok (smem s)) [HPath name; HInt v; HGuest h 2 need].
Proof. intros Hs Hh Ha. repeat (apply Forall_cons_2; [done|]). apply Forall_cons_2; [|done]. split; [done|]. split; [lia|by right]. Qed.

(** Every call on a live configuration returns and creates or destroys nothing. *)
Lemma wp_operation X index first name rs s Q : words rs -> csafe s -> (forall v s', csafe s' -> Q v s') -> wp X (config_operation host assets index first name rs) s Q.
Proof.
  intros Hw Hs HQ. pose proof (reg_word rs 1 Hw) as H1. unfold config_operation. repeat (destruct (String.eqb _ _) || destruct (one_of _ _) || destruct (starts_with _ _)).
  - apply wp_bind, wp_config; [done|lia|]. intros v. apply wp_bind. destruct (v =? 0); [by apply wp_ret, wp_ret, HQ|]. eapply wp_bind, wp_config_quiet; [done|set_solver|by repeat constructor|]. intros a s1 Hs1 _ _.
    destruct (ret a =? 0); [eapply wp_config_unsupported; [done|]; intros s2 Hs2|]; by apply wp_ret, HQ.
  - apply wp_bind, wp_lift. eassert (runs X (manager_value assets (reg rs 1)) (fun _ => True)) as Hmv.
    { unfold manager_value. destruct assets as [a|]; [|done]. destruct (decide (reg rs 1 = 0)) as [->|Hne]; [done|]. destruct (global_get_spec _ _ Hassets Hne) as [(r & E & _)|(E & _)]; by rewrite E. }
    destruct (manager_value assets (reg rs 1)) as [v| |]; [|done..]. cbn [runs]. apply wp_bind. destruct (v =? 0); [by apply wp_ret, wp_ret, HQ|]. eapply wp_bind, wp_config_quiet; [done|set_solver|by repeat constructor|]. intros a s1 Hs1 _ _.
    destruct (ret a =? 0); [eapply wp_config_unsupported; [done|]; intros s2 Hs2|]; by apply wp_ret, HQ.
  - apply wp_bind, wp_config; [done|lia|]. intros v. destruct (v =? 0); [by apply wp_ret, HQ|]. eapply wp_bind, wp_config_quiet; [done|set_solver|by repeat constructor|]. intros a s1 Hs1 _ _.
    destruct (ret a =? 0); [eapply wp_bind, wp_config_unsupported; [done|]; intros s2 Hs2|]; by apply wp_ret, HQ.
  - apply wp_bind, wp_ptr; intros Ea; [|by apply wp_ret, HQ]. eapply wp_bind, wp_config_quiet; [done|set_solver|by repeat constructor|]. intros a s1 Hs1 _ P1. apply wp_bind. destruct (ret a =? 0); [eapply wp_config_unsupported; [done|]; intros s2 Hs2; by apply wp_ret, HQ|].
    destruct Hs1 as (Hg & Hm & Hb). apply (wp_store _ _ _ (reg rs 1) 2 kPageWrite); [done|done|lia|by rewrite (accessible_same _ _ _ _ _ P1)|done|lia|by unfold size; cbn|]. intros m _ How Hm'. by apply wp_ret, HQ.
  - apply wp_bind, wp_ptr; intros Ea; [|by apply wp_ret, HQ]. eapply wp_bind, wp_config_quiet; [done|set_solver|by apply code_args|]. intros a s1 Hs1 _ P1. by apply wp_or_note.
  - eapply wp_bind, wp_config_quiet; [done|set_solver|by repeat constructor|]. intros a s1 Hs1 _ _. destruct (ret a =? 0); [eapply wp_bind, wp_config_unsupported; [done|]; intros s2 Hs2|]; by apply wp_ret, HQ.
  - eapply wp_bind, wp_config_quiet; [done|set_solver|by repeat constructor|]. intros a s1 Hs1 _ _. by apply wp_or_note.
  - eapply wp_bind, wp_config_unsupported; [done|]. intros s2 Hs2. by apply wp_ret, HQ.
Qed.

(** The served indices. *)
Lemma config_name_range index : is_Some (config_name index) <-> 344 <= index <= 394.
Proof.
  unfold config_name. rewrite (android_name_range _ (fun i => (344 <=? i) && (i <=? 394))); [by rewrite andb_true_iff, !Z.leb_le|vm_compute; reflexivity|]. intros i. rewrite andb_true_iff, !Z.leb_le. lia.
Qed.

(** every AConfiguration call of the guest, with any registers and memory, returns
    unless the handle table is full: only guest memory is touched, r0 and r1 alone change,
    and for every configuration of the platform those created and not destroyed are exactly
    those the guest's live handles name, so none is destroyed twice or used afterwards. *)
Theorem config_call_sound index rs s :
  words rs -> csafe s ->
  wp (~ room (configs_ (own s))) (config_handle_host_call host assets index rs) s
    (fun r s' => match r with Some rs' => 344 <= index <= 394 /\ answered rs rs' /\ csafe s' | None => ~ 344 <= index <= 394 /\ s' = s end).
Proof.
  intros Hw Hs. pose proof (config_name_range index) as Hr. unfold config_handle_host_call. destruct (config_name index) as [n|]; [|apply wp_ret; split; [rewrite <- Hr; by intros [? ?]|done]]. apply wp_bind.
  assert (forall v s', csafe s' -> wp (~ room (configs_ (own s))) (mret (Some (set01 rs (u32 v) 0))) s'
    (fun r s' => match r with Some rs' => 344 <= index <= 394 /\ answered rs rs' /\ csafe s' | None => ~ 344 <= index <= 394 /\ s' = s end)) as Hend.
  { intros v s' Hs'. apply wp_ret. split; [by apply Hr|]. split; [|done]. apply answered_set01; [done|apply u32_range|lia]. }
  unfold config_call. destruct (String.eqb _ _); [by apply wp_new|]. destruct (String.eqb _ _); [apply wp_delete; [done|by apply reg_word|done]|].
  apply wp_bind, wp_config; [done|by apply reg_word|]. intros v. destruct (v =? 0); [by apply wp_ret, Hend|by apply wp_operation].
Qed.
End Sound.

(** ** A run *)

Definition sample_platform (log : list hostcall) (c : hostcall) : answer := {| ret := 60; errno := 0; guest_writes := []; outs := [3] |}.
Definition sample_config : Sv HostConfiguration := Build_Sv HostConfiguration_init (km sample_text) [].
Definition config_regs (a b : Z) : list Z := [a; b] ++ replicate 14 0.

Lemma config_call_sound_witness :
  exists r s, config_handle_host_call sample_platform None 372 (config_regs 0 0) sample_config = Ret (r, s) /\ match r with Some rs => negb (reg rs 0 =? 0) | None => false end = true /\
    match r with Some rs => 344 <= 372 <= 394 /\ answered (config_regs 0 0) rs /\ csafe sample_platform s | None => ~ 344 <= 372 <= 394 /\ s = sample_config end.
Proof.
  apply (wp_run _ _ _ _ (fun r => match r with Some rs => negb (reg rs 0 =? 0) | None => false end)
    (config_call_sound sample_platform None ltac:(intros log c a bs H; apply elem_of_nil in H; destruct H) I 372 (config_regs 0 0) sample_config ltac:(split; [reflexivity|repeat constructor; discriminate])
      ltac:(split; [apply global_wf_init|split; [exact sample_text_wf|reflexivity]]))).
  vm_compute. reflexivity.
Defined.

(** A deleted configuration is refused and not destroyed again. *)
Example config_session :
  match (r ← config_handle_host_call sample_platform None 372 (config_regs 0 0);
         let h := match r with Some rs => reg rs 0 | None => 0 end in
         g ← config_handle_host_call sample_platform None 349 (config_regs h 0);
         _ ← config_handle_host_call sample_platform None 345 (config_regs h 0);
         _ ← config_handle_host_call sample_platform None 345 (config_regs h 0);
         d ← config_handle_host_call sample_platform None 349 (config_regs h 0);
         mret (g, d)) sample_config with
  | Ret ((Some g, Some d), s) => Some (s32 (reg g 0), s32 (reg d 0), map h_name (scalls s))
  | _ => None
  end = Some (3, -22, ["create"; "get_int"; "destroy"]).
Proof. vm_compute. reflexivity. Qed.

(** ** Fallbacks *)

Record Fallback := { f_index : Z; f_library : string; f_function : string; f_result : Z }.
Definition kFallbacks : list Fallback :=
  [{| f_index := 212; f_library := "libandroid.so"; f_function := "ANativeWindow_lock"; f_result := - ENOSYS |};
   {| f_index := 213; f_library := "libandroid.so"; f_function := "ANativeWindow_unlockAndPost"; f_result := - ENOSYS |};
   {| f_index := 214; f_library := "libEGL.so"; f_function := "eglCreateImageKHR"; f_result := 0 |};
   {| f_index := 215; f_library := "libEGL.so"; f_function := "eglDestroyImageKHR"; f_result := 0 |};
   {| f_index := 216; f_library := "libGLESv2.so"; f_function := "glEGLImageTargetTexture2DOES"; f_result := 0 |};
   {| f_index := 217; f_library := "libjnigraphics.so"; f_function := "AndroidBitmap_getInfo"; f_result := -1 |};
   {| f_index := 218; f_library := "libjnigraphics.so"; f_function := "AndroidBitmap_lockPixels"; f_result := -1 |};
   {| f_index := 219; f_library := "libjnigraphics.so"; f_function := "AndroidBitmap_unlockPixels"; f_result := -1 |}].

Definition compat_name (name : string) : bool :=
  starts_with "AInputQueue_" name || starts_with "AConfiguration_" name || starts_with "AInputEvent_" name || starts_with "AKeyEvent_" name || starts_with "AMotionEvent_" name.

(** The answer for a call by name: a null pointer, -ENOSYS, or nothing for a void call. *)
Definition compat_result (name : string) : Z :=
  let pointer := one_of name ["AInputQueue_fromJava"; "AConfiguration_new"; "AInputEvent_toJava"] || ends_with "_fromJava" name in
  let status := one_of name ["AInputQueue_getEvent"; "AInputQueue_hasEvents"; "AInputQueue_preDispatchEvent"] || starts_with "AInputEvent_get" name || starts_with "AKeyEvent_get" name ||
                starts_with "AMotionEvent_get" name || starts_with "AConfiguration_get" name || one_of name ["AConfiguration_diff"; "AConfiguration_match"; "AConfiguration_isBetterThan"] in
  if pointer then 0 else if status then - ENOSYS else 0.

(** The first row of libandroid.so with that index ends the search, accepted or not. *)
Definition compat_handle_host_call (host : list hostcall -> hostcall -> answer) (index : Z) (rs : list Z) : svc unit (option (list Z)) :=
  match list_find (fun f => f_index f = index) kFallbacks with
  | Some (_, f) => _ ← backend host "note_unimplemented_host_call" [HInt index]; mret (Some (set01 rs (u32 (f_result f)) 0))
  | None =>
      match list_find (fun c => call_index c = index /\ call_library c = "libandroid.so") kHostCalls with
      | Some (_, c) =>
          if negb (compat_name (call_name c)) then mret None
          else _ ← backend host "note_unimplemented_host_call" [HInt index]; mret (Some (set01 rs (u32 (compat_result (call_name c))) 0))
      | None => mret None
      end
  end.

Example compat_answers :
  map (fun i => match compat_handle_host_call (fun _ _ => {| ret := 0; errno := 0; guest_writes := []; outs := [] |}) i (replicate 16 7) (Build_Sv tt (km sample_text) []) with
                | Ret (Some rs, _) => Some (s32 (reg rs 0)) | _ => None end) [0; 212; 214; 219; 220; 345; 349; 372; 398; 458; 459]
  = [None; Some (-38); Some 0; Some (-1); None; Some 0; Some (-38); Some 0; Some 0; Some (-38); None].
Proof. vm_compute. reflexivity. Qed.
