(* ===== verification/HostInput.v ===== *)
(** * Input

    [core/src/android/host_input.cpp]: the input queue and input event host calls (indices
    395 to 458).  A queue of the platform keeps its handle for ever and may be attached to a
    looper ([HostLooper]); an event gets a handle of its own, which finishing it or giving it
    to the input method ends.

    The platform is the parameter [host], the calling thread [this_thread], [HostJni]'s
    answers parameters.  The looper is the shared object of [HostLooper]: [looper_] is its
    state. *)

From stdpp Require Import numbers list gmap strings.
From S2P Require Import Prelude Handles Bytes GuestMemory InitialStack HostLooper GuestThread ProcessMemory Kernel ProcFiles Syscalls Messages Service HostCallTable.
Local Open Scope string_scope.
Local Open Scope list_scope.
Local Open Scope Z_scope.

Record Queue := { q_native : Z; q_looper : Z; q_fd : Z }.
Record Event := { e_native : Z; e_queue : Z; e_owner : Z }.
Record HostInput := { queues_ : GlobalHandles; events_ : GlobalHandles; queue_state_ : gmap Z Queue; event_state_ : gmap Z Event; looper_ : Impl }.

Definition HostInput_init (looper : Impl) : HostInput :=
  {| queues_ := GlobalHandles_init Global; events_ := GlobalHandles_init WeakGlobal; queue_state_ := ∅; event_state_ := ∅; looper_ := looper |}.
Definition with_queues (s : HostInput) (t : GlobalHandles) (m : gmap Z Queue) : HostInput :=
  {| queues_ := t; events_ := events_ s; queue_state_ := m; event_state_ := event_state_ s; looper_ := looper_ s |}.
Definition with_events (s : HostInput) (t : GlobalHandles) (m : gmap Z Event) : HostInput :=
  {| queues_ := queues_ s; events_ := t; queue_state_ := queue_state_ s; event_state_ := m; looper_ := looper_ s |}.
Definition with_looper (s : HostInput) (l : Impl) : HostInput :=
  {| queues_ := queues_ s; events_ := events_ s; queue_state_ := queue_state_ s; event_state_ := event_state_ s; looper_ := l |}.

Definition input_prefix (name : string) : bool :=
  starts_with "AInputQueue_" name || starts_with "AInputEvent_" name || starts_with "AKeyEvent_" name || starts_with "AMotionEvent_" name.
Definition input_name (index : Z) : option string := android_name input_prefix index.

(** 'i', 'l' or 'f'. *)
Inductive kind := KInt | KLong | KFloat.
Definition kind_char (k : kind) : Z := match k with KInt => 105 | KLong => 108 | KFloat => 102 end.

Definition result_kind (name : string) : kind :=
  if one_of name ["AKeyEvent_getDownTime"; "AKeyEvent_getEventTime"; "AMotionEvent_getDownTime"; "AMotionEvent_getEventTime"; "AMotionEvent_getHistoricalEventTime"] then KLong
  else if starts_with "AMotionEvent_get" name &&
    negb (one_of name ["AMotionEvent_getAction"; "AMotionEvent_getFlags"; "AMotionEvent_getMetaState"; "AMotionEvent_getButtonState"; "AMotionEvent_getEdgeFlags"; "AMotionEvent_getPointerCount";
                       "AMotionEvent_getPointerId"; "AMotionEvent_getToolType"; "AMotionEvent_getHistorySize"; "AMotionEvent_getActionButton"; "AMotionEvent_getClassification"]) then KFloat
  else KInt.

(** Which accessors take an axis, a pointer index, a position in the history. *)
Definition is_historical (name : string) : bool := starts_with "AMotionEvent_getHistorical" name.
Definition is_axis (name : string) : bool := one_of name ["AMotionEvent_getAxisValue"; "AMotionEvent_getHistoricalAxisValue"].
Definition is_pointer (name : string) : bool :=
  is_axis name ||
  one_of name ["AMotionEvent_getPointerId"; "AMotionEvent_getToolType"; "AMotionEvent_getRawX"; "AMotionEvent_getRawY"; "AMotionEvent_getX"; "AMotionEvent_getY"; "AMotionEvent_getPressure";
               "AMotionEvent_getSize"; "AMotionEvent_getTouchMajor"; "AMotionEvent_getTouchMinor"; "AMotionEvent_getToolMajor"; "AMotionEvent_getToolMinor"; "AMotionEvent_getOrientation"] ||
  (is_historical name && negb (one_of name ["AMotionEvent_getHistoricalEventTime"; "AMotionEvent_getHistorySize"])).

(** The bits of a quiet NaN. *)
Definition quiet_NaN : Z := 0x7fc00000.

Section HostInput.
Context (host : list hostcall -> hostcall -> answer) (this_thread current_env : Z) (resolve_ref : Z -> exec Z) (context_ : option (Z -> Z * Z)).

#[local] Notation svc := (svc HostInput).
#[local] Notation backend := (backend host).

Definition modify (f : HostInput -> HostInput) : svc unit := st ← get_own; put_own (f st).

Definition unsupported (index : Z) (name : string) : svc Z :=
  _ ← backend "note_unimplemented_host_call" [HInt index];
  mret (if String.eqb name "AInputEvent_toJava" || ends_with "_fromJava" name then 0 else - ENOSYS).

(** ** Queues *)

Definition find_queue (native : Z) (m : gmap Z Queue) : option Z := option_map (fun p => p.2.1) (list_find (fun p => q_native p.2 = native) (map_to_list m)).

Definition java_context (b : Z) : svc (Z * Z) :=
  match context_ with
  | Some f => mret (f b)
  | None => object ← (if b =? 0 then mret 0 else lift_svc (resolve_ref b)); mret (current_env, object)
  end.

Definition hc_fromJava (index : Z) (name : string) (b : Z) : svc Z :=
  available ← backend "from_java_available" [];
  if ret available =? 0 then unsupported index name
  else
    '(env, object) ← java_context b;
    if (env =? 0) || (b =? 0) then mret 0
    else if object =? 0 then mret 0
    else
      native ← backend "from_java" [HInt env; HInt object];
      if ret native =? 0 then mret 0
      else
        st ← get_own;
        match find_queue (ret native) (queue_state_ st) with
        | Some handle => mret handle
        | None =>
            fd ← backend "readiness_fd" [HInt (ret native)];
            if s32 (ret fd) <? 0 then mret 0
            else
              '(handle, t) ← lift_svc (GlobalHandles_add (queues_ st) (ret native));
              _ ← put_own (with_queues st t (queue_state_ st));
              if handle =? 0 then mret 0
              else
                _ ← modify (fun st => with_queues st (queues_ st) (<[handle := {| q_native := ret native; q_looper := 0; q_fd := s32 (ret fd) |}]> (queue_state_ st)));
                mret handle
        end.

(** What the looper does outside its lock. *)
Definition run_effect (e : effect) : svc unit :=
  match e with
  | SignalEventfd fd => _ ← backend "eventfd_write" [HInt fd]; mret tt
  | DrainEventfd fd => _ ← backend "eventfd_read" [HInt fd]; mret tt
  | BackendAcquire r => _ ← backend "looper_acquire" [HInt r]; mret tt
  | BackendRelease r => _ ← backend "looper_release" [HInt r]; mret tt
  | BackendRemoveFd r fd => _ ← backend "looper_remove_fd" [HInt r; HInt fd]; mret tt
  | BackendWake r => _ ← backend "looper_wake" [HInt r]; mret tt
  | BackendAddFd _ _ _ _ _ => mret tt
  end.

(** [looper_.add_external_fd]: the platform's looper answers in between when there is one. *)
Definition looper_add (looper fd ident callback data : Z) : svc Z :=
  st ← get_own;
  accepted ← match (add_fd_section (looper_ st) looper fd ident kEventInput callback data).1 with
             | Some (BackendAddFd r f i e _) => a ← backend "looper_add_fd" [HInt r; HInt f; HInt i; HInt e]; mret (s32 (ret a))
             | Some e => _ ← run_effect e; mret 0
             | None => mret 0
             end;
  let '(v, _, l) := add_external_fd (looper_ st) looper fd ident callback data accepted in
  _ ← put_own (with_looper st l);
  mret v.

Definition looper_remove (looper fd : Z) : svc unit :=
  st ← get_own;
  let '(_, es, l) := remove_external_fd (looper_ st) looper fd in
  _ ← put_own (with_looper st l);
  match es with [] => mret tt | e :: _ => run_effect e end.

Definition set_looper (handle : Z) (queue : Queue) (looper : Z) : svc unit :=
  modify (fun st => with_queues st (queues_ st) (<[handle := {| q_native := q_native queue; q_looper := looper; q_fd := q_fd queue |}]> (queue_state_ st))).

Definition hc_attachLooper (a : Z) (queue : Queue) (rs : list Z) : svc Z :=
  source ← guest_ptr (reg rs 13) 4 kPageRead;
  match source with
  | None => mret (- EFAULT)
  | Some p =>
      bs ← load p 4;
      let b := reg rs 1 in
      if b =? 0 then mret (- EINVAL)
      else
        added ← looper_add b (q_fd queue) (s32 (reg rs 2)) (reg rs 3) (le bs);
        if negb (added =? 1) then mret (- EINVAL)
        else
          _ ← (if negb (q_looper queue =? 0) && negb (q_looper queue =? b) then looper_remove (q_looper queue) (q_fd queue) else mret tt);
          _ ← set_looper a queue b;
          mret 0
  end.

Definition hc_detachLooper (a : Z) (queue : Queue) : svc Z :=
  _ ← (if q_looper queue =? 0 then mret tt else _ ← looper_remove (q_looper queue) (q_fd queue); set_looper a queue 0);
  mret 0.

Definition hc_getEvent (a : Z) (queue : Queue) (rs : list Z) : svc Z :=
  target ← guest_ptr (reg rs 1) 4 kPageWrite;
  match target with
  | None => mret (- EFAULT)
  | Some p =>
      r ← backend "get_event" [HInt (q_native queue)];
      let native_event := out r 0 in
      if negb (s32 (ret r) =? 0) then mret (s32 (ret r))
      else if native_event =? 0 then mret (- EIO)
      else
        st ← get_own;
        '(handle, t) ← lift_svc (GlobalHandles_add (events_ st) native_event);
        _ ← put_own (with_events st t (event_state_ st));
        if handle =? 0 then _ ← backend "finish_event" [HInt (q_native queue); HInt native_event; HInt 0]; mret (- ENOMEM)
        else
          _ ← modify (fun st => with_events st (events_ st) (<[handle := {| e_native := native_event; e_queue := a; e_owner := this_thread |}]> (event_state_ st)));
          _ ← store p (to_le 4 handle);
          mret 0
  end.

(** An event's handle ends. *)
Definition drop_event (b : Z) : svc unit :=
  st ← get_own;
  '(_, t) ← lift_svc (GlobalHandles_remove (events_ st) b);
  put_own (with_events st t (delete b (event_state_ st))).

Definition queue_call (index : Z) (name : string) (rs : list Z) : svc Z :=
  let a := reg rs 0 in
  let b := reg rs 1 in
  st ← get_own;
  match queue_state_ st !! a with
  | None => mret (- EINVAL)
  | Some queue =>
      value ← lift_svc (GlobalHandles_get (queues_ st) a);
      if negb (bool_decide (value = Some (q_native queue))) then mret (- EINVAL)
      else if String.eqb name "AInputQueue_attachLooper" then hc_attachLooper a queue rs
      else if String.eqb name "AInputQueue_detachLooper" then hc_detachLooper a queue
      else if String.eqb name "AInputQueue_hasEvents" then r ← backend "has_events" [HInt (q_native queue)]; mret (s32 (ret r))
      else if String.eqb name "AInputQueue_getEvent" then hc_getEvent a queue rs
      else
        match event_state_ st !! b with
        | None => mret (- EINVAL)
        | Some ev =>
            if negb (e_queue ev =? a) || negb (e_owner ev =? this_thread) then mret (- EINVAL)
            else if String.eqb name "AInputQueue_preDispatchEvent" then
              r ← backend "pre_dispatch" [HInt (q_native queue); HInt (e_native ev)];
              _ ← (if s32 (ret r) =? 0 then mret tt else drop_event b);
              mret (s32 (ret r))
            else if String.eqb name "AInputQueue_finishEvent" then
              _ ← backend "finish_event" [HInt (q_native queue); HInt (e_native ev); HInt (s32 (reg rs 2))];
              _ ← drop_event b;
              mret 0
            else unsupported index name
        end
  end.

(** ** Events *)

(** [backend_.query]: the bits, when the platform knows the accessor. *)
Definition query (name : string) (event a b c : Z) (k : kind) : svc (option Z) :=
  r ← backend "query" [HPath (msg name); HInt event; HInt a; HInt b; HInt c; HInt (kind_char k)];
  mret (if ret r =? 0 then None else Some (u64 (out r 0))).

Definition invalid_index (k : kind) : Z * Z :=
  match k with KFloat => (quiet_NaN, 0) | KLong => (- EINVAL, UINT32_MAX) | KInt => (- EINVAL, 0) end.

(** A check of an accessor: its answer when it ends the call. *)
Definition low {A} (c : svc Z) : svc (Z * Z + A) := v ← c; mret (inl (v, 0)).

Definition check_type (index : Z) (name : string) (event : Z) : svc (Z * Z + unit) :=
  let event_type := if starts_with "AKeyEvent_" name then 1 else if starts_with "AMotionEvent_" name then 2 else 0 in
  if event_type =? 0 then mret (inr tt)
  else
    type ← query "AInputEvent_getType" event 0 0 0 KInt;
    match type with
    | None => low (unsupported index name)
    | Some type => if s32 type =? event_type then mret (inr tt) else mret (inl (- EINVAL, 0))
    end.

Definition check_index (index : Z) (name counter : string) (event argument : Z) : svc (Z * Z + unit) :=
  count ← query counter event 0 0 0 KInt;
  match count with
  | None => low (unsupported index name)
  | Some count => if count <=? argument then mret (inl (invalid_index (result_kind name))) else mret (inr tt)
  end.

Definition check_motion (index : Z) (name : string) (event b c d : Z) : svc (Z * Z + unit) :=
  if starts_with "AMotionEvent_get" name then
    r ← (if is_pointer name then check_index index name "AMotionEvent_getPointerCount" event (if is_axis name then c else b) else mret (inr tt));
    match r with
    | inl v => mret (inl v)
    | inr _ =>
        if is_historical name then
          check_index index name "AMotionEvent_getHistorySize" event (if String.eqb name "AMotionEvent_getHistoricalEventTime" then b else if is_axis name then d else c)
        else mret (inr tt)
    end
  else mret (inr tt).

Definition event_call (index : Z) (name : string) (rs : list Z) : svc (Z * Z) :=
  let a := reg rs 0 in
  st ← get_own;
  match event_state_ st !! a with
  | None => mret (- EINVAL, 0)
  | Some ev =>
      value ← lift_svc (GlobalHandles_get (events_ st) a);
      if negb (bool_decide (value = Some (e_native ev))) || negb (e_owner ev =? this_thread) then mret (- EINVAL, 0)
      else
        typed ← check_type index name (e_native ev);
        match typed with
        | inl v => mret v
        | inr _ =>
            checked ← check_motion index name (e_native ev) (reg rs 1) (reg rs 2) (reg rs 3);
            match checked with
            | inl v => mret v
            | inr _ =>
                bits ← query name (e_native ev) (reg rs 1) (reg rs 2) (reg rs 3) (result_kind name);
                match bits with
                | None => v ← unsupported index name; mret (v, 0)
                | Some bits => mret (s32 bits, u32 (Z.shiftr bits 32))
                end
            end
        end
  end.

Definition not_served (name : string) : bool := one_of name ["AInputEvent_release"; "AInputEvent_toJava"; "AKeyEvent_fromJava"; "AMotionEvent_fromJava"].

Definition input_handle_host_call (index : Z) (rs : list Z) : svc (option (list Z)) :=
  match input_name index with
  | None => mret None
  | Some name =>
      '(v, high) ← (if String.eqb name "AInputQueue_fromJava" then v ← hc_fromJava index name (reg rs 1); mret (v, 0)
                    else if starts_with "AInputQueue_" name then v ← queue_call index name rs; mret (v, 0)
                    else if not_served name then v ← unsupported index name; mret (v, 0)
                    else event_call index name rs);
      mret (Some (set01 rs (u32 v) high))
  end.
End HostInput.

(** ** Invariant *)

(** Sums over a table. *)
Definition count_by {A} (f : A -> Z) (m : gmap Z A) : Z := map_fold (fun _ x acc => f x + acc) 0 m.

Lemma count_fresh {A} (f : A -> Z) m h x : m !! h = None -> count_by f (<[h := x]> m) = f x + count_by f m.
Proof. intros H. unfold count_by. rewrite map_fold_insert_L; [done|intros; lia|done]. Qed.

Lemma count_delete {A} (f : A -> Z) m h x : m !! h = Some x -> count_by f m = f x + count_by f (delete h m).
Proof. intros H. rewrite <- (insert_delete_id m h x H) at 1. by rewrite count_fresh by apply lookup_delete_eq. Qed.

Lemma count_ext {A} (f g : A -> Z) m : map_Forall (fun _ x => f x = g x) m -> count_by f m = count_by g m.
Proof.
  induction m as [|h x m Hn IH] using map_ind; [done|]. intros H. rewrite !count_fresh by done. apply map_Forall_insert in H as [Hx Hm]; [|done]. by rewrite Hx, IH.
Qed.

(** The event is [e] of the queue [q] of the platform. *)
Definition is_event (queues : gmap Z Queue) (q e : Z) (ev : Event) : Z :=
  match queues !! e_queue ev with Some x => Z.b2z ((e_native ev =? e) && (q_native x =? q)) | None => 0 end.

Record input_inv (st : HostInput) : Prop := {
  ii_queues : global_wf (queues_ st);
  ii_events : global_wf (events_ st);
  ii_queue : forall h q, queue_state_ st !! h = Some q -> 0 < h < 2 ^ 32 /\ q_native q <> 0 /\ 0 <= q_fd q /\ GlobalHandles_get (queues_ st) h = Ret (Some (q_native q));
  ii_queue_live : forall h w, 0 < h -> GlobalHandles_get (queues_ st) h = Ret (Some w) -> is_Some (queue_state_ st !! h);
  ii_queue_inj : forall h1 h2 q1 q2, queue_state_ st !! h1 = Some q1 -> queue_state_ st !! h2 = Some q2 -> q_native q1 = q_native q2 -> h1 = h2;
  ii_event : forall h ev, event_state_ st !! h = Some ev -> 0 < h /\ e_native ev <> 0 /\ GlobalHandles_get (events_ st) h = Ret (Some (e_native ev)) /\ is_Some (queue_state_ st !! e_queue ev);
  ii_event_live : forall h w, 0 < h -> GlobalHandles_get (events_ st) h = Ret (Some w) -> is_Some (event_state_ st !! h);
  ii_looper : bindings_ok (looper_ st);
}.

Section Sound.
Context (host : list hostcall -> hostcall -> answer) (this_thread current_env : Z) (resolve_ref : Z -> exec Z) (context_ : option (Z -> Z * Z)).

(** Events [e] of the queue [q] taken from the platform and not finished, by the log. *)
Definition event_delta (q e : Z) (past : list hostcall) (c : hostcall) : Z :=
  let r := host past c in
  if decide (h_name c = "get_event") then match h_args c with [HInt q'] => Z.b2z ((s32 (ret r) =? 0) && (q' =? q) && (out r 0 =? e)) | _ => 0 end
  else if decide (h_name c = "finish_event") then match h_args c with [HInt q'; HInt e'; _] => - Z.b2z ((e' =? e) && (q' =? q)) | _ => 0 end
  else if decide (h_name c = "pre_dispatch") then match h_args c with [HInt q'; HInt e'] => - Z.b2z (negb (s32 (ret r) =? 0) && (e' =? e) && (q' =? q)) | _ => 0 end
  else 0.

(** The platform was asked for that count of the event, [n] calls ago, and it exceeds the
    index. *)
Definition counted_at (n : nat) (counter : string) (event argument : Z) (past : list hostcall) : Prop :=
  exists before c after, past = before ++ c :: after /\ length after = n /\
    c = {| h_name := "query"; h_args := [HPath (msg counter); HInt event; HInt 0; HInt 0; HInt 0; HInt (kind_char KInt)] |} /\ ret (host before c) <> 0 /\ argument < u64 (out (host before c) 0).
Definition counted (counter : string) (event argument : Z) (past : list hostcall) : Prop := exists n, (n <= 1)%nat /\ counted_at n counter event argument past.

Lemma counted_snoc n counter event argument past c : counted_at n counter event argument past -> counted_at (S n) counter event argument (past ++ [c]).
Proof. intros (before & x & after & -> & Hn & Hx). exists before, x, (after ++ [c]). rewrite <- app_assoc. split; [done|]. split; [rewrite length_app, Hn; cbn; lia|done]. Qed.

(** A query of an accessor with indices is made with checked indices. *)
Definition query_checked (past : list hostcall) (c : hostcall) : Prop :=
  forall name event a b d k, c = {| h_name := "query"; h_args := [HPath (msg name); HInt event; HInt a; HInt b; HInt d; HInt k] |} ->
    (is_pointer name = true -> counted "AMotionEvent_getPointerCount" event (if is_axis name then b else a) past) /\
    (is_historical name = true -> counted "AMotionEvent_getHistorySize" event (if String.eqb name "AMotionEvent_getHistoricalEventTime" then a else if is_axis name then d else b) past).

Definition checked_log (log : list hostcall) : Prop := forall past c rest, log = past ++ c :: rest -> query_checked past c.

Lemma checked_snoc log c : checked_log log -> query_checked log c -> checked_log (log ++ [c]).
Proof.
  intros Hl Hc past d rest E. destruct rest as [|x rest _] using rev_ind.
  - apply app_inj_tail in E as [-> ->]. done.
  - rewrite app_comm_cons, app_assoc in E. apply app_inj_tail in E as [E _]. by apply (Hl past d rest).
Qed.

Definition isafe (s : Sv HostInput) : Prop :=
  input_inv (own s) /\ mem_wf (smem s) /\ checked_log (scalls s) /\
  forall q e, e <> 0 -> log_total (event_delta q e) [] (scalls s) = count_by (is_event (queue_state_ (own s)) q e) (event_state_ (own s)).

Context (Hhost : kernel_ok host) (Hres : forall h, resolve_ref h <> Undefined).

Lemma msg_inj n1 n2 : msg n1 = msg n2 -> n1 = n2.
Proof.
  intros E. rewrite <- (String.string_of_list_ascii_of_string n1), <- (String.string_of_list_ascii_of_string n2). f_equal. apply (list_fmap_eq_inj (fun c => Z.of_N (Ascii.N_of_ascii c))); [|exact E].
  intros c1 c2 Ec. rewrite <- (Ascii.ascii_N_embedding c1), <- (Ascii.ascii_N_embedding c2). f_equal. by apply N2Z.inj.
Qed.

(** Any call, given what it takes and that a query is checked. *)
Lemma wp_platform X name args s Q :
  isafe s -> Forall (arg_ok (smem s)) args -> query_checked (scalls s) {| h_name := name; h_args := args |} ->
  (forall s', let c := {| h_name := name; h_args := args |} in own s' = own s -> pages_ (smem s') = pages_ (smem s) -> mem_wf (smem s') -> scalls s' = scalls s ++ [c] -> checked_log (scalls s') ->
     (forall q e, e <> 0 -> log_total (event_delta q e) [] (scalls s') = count_by (is_event (queue_state_ (own s)) q e) (event_state_ (own s)) + event_delta q e (scalls s) c) ->
     Q (host (scalls s) c) s') -> wp X (backend host name args) s Q.
Proof.
  intros (Hi & Hm & Hl & Hb) Ha Hc HQ. apply (wp_backend host Hhost); [done|done|]. intros m How Hm'. apply HQ; [done|apply How|done|done|by apply checked_snoc|]. intros q e He. cbn [scalls]. by rewrite log_total_snoc, Hb.
Qed.

(** A call that takes or finishes no event. *)
Lemma wp_quiet X name args s Q :
  isafe s -> Forall (arg_ok (smem s)) args -> query_checked (scalls s) {| h_name := name; h_args := args |} -> name ∉ ["get_event"; "finish_event"; "pre_dispatch"] ->
  (forall s', let c := {| h_name := name; h_args := args |} in isafe s' -> own s' = own s -> pages_ (smem s') = pages_ (smem s) -> scalls s' = scalls s ++ [c] -> Q (host (scalls s) c) s') -> wp X (backend host name args) s Q.
Proof.
  intros Hs Ha Hc Hn HQ. eapply wp_platform; [done..|]. intros s' c E P Hm El Hl Hb. apply HQ; [|done..]. split; [rewrite E; apply Hs|]. split; [done|]. split; [done|]. intros q e He. rewrite Hb, E by done. unfold event_delta, c. cbn [h_name]. rewrite !decide_False by set_solver. lia.
Qed.

Lemma not_query past name args : name <> "query" -> query_checked past {| h_name := name; h_args := args |}.
Proof. by intros Hn n e a b d k [=]. Qed.

(** A call that is no query either. *)
Lemma wp_other X name args s Q :
  isafe s -> Forall (arg_ok (smem s)) args -> name ∉ ["get_event"; "finish_event"; "pre_dispatch"; "query"] ->
  (forall a s', isafe s' -> own s' = own s -> pages_ (smem s') = pages_ (smem s) -> Q a s') -> wp X (backend host name args) s Q.
Proof. intros Hs Ha Hn HQ. eapply wp_quiet; [done|done|apply not_query; set_solver|set_solver|]. intros s' c Hs' E P _. by apply HQ. Qed.

Lemma wp_unsupported X index name s Q : isafe s -> (forall v s', isafe s' -> Q v s') -> wp X (unsupported host index name) s Q.
Proof. intros Hs HQ. eapply wp_bind, wp_other; [done|by repeat constructor|set_solver|]. intros a s' Hs' _ _. by apply wp_ret, HQ. Qed.

(** ** Updates of the state *)

Lemma isafe_looper s l : isafe s -> bindings_ok l -> isafe (Build_Sv (with_looper (own s) l) (smem s) (scalls s)).
Proof. intros (Hi & Hm & Hl & Hb) Hok. split; [|done]. destruct Hi. by split. Qed.

Lemma isafe_set_looper s h q v : isafe s -> queue_state_ (own s) !! h = Some q ->
  isafe (Build_Sv (with_queues (own s) (queues_ (own s)) (<[h := {| q_native := q_native q; q_looper := v; q_fd := q_fd q |}]> (queue_state_ (own s)))) (smem s) (scalls s)).
Proof.
  intros (Hi & Hm & Hl & Hb) Hq. set (q' := {| q_native := q_native q; q_looper := v; q_fd := q_fd q |}). destruct Hi as [H1 H2 H3 H4 H5 H6 H7 H8].
  assert (forall h' x, <[h := q']> (queue_state_ (own s)) !! h' = Some x -> exists y, queue_state_ (own s) !! h' = Some y /\ q_native x = q_native y /\ q_fd x = q_fd y) as Hold.
  { intros h' x [[<- <-]|[Hne Hx]]%lookup_insert_Some; [by exists q|by exists x]. }
  assert (forall h', is_Some (queue_state_ (own s) !! h') -> is_Some (<[h := q']> (queue_state_ (own s)) !! h')) as Hsome.
  { intros h' [x Hx]. destruct (decide (h = h')) as [<-|Hne]; [rewrite lookup_insert_eq|rewrite lookup_insert_ne by done]; eauto. }
  split; [split; cbn; try done|split; [done|split; [done|]]].
  - intros h' x (y & Hy & -> & ->)%Hold. by apply H3.
  - intros h' w Hp Hg. apply Hsome. by eapply H4.
  - intros h1 h2 q1 q2 (y1 & Hy1 & -> & _)%Hold (y2 & Hy2 & -> & _)%Hold. by eapply H5.
  - intros h' ev Hev. destruct (H6 _ _ Hev) as (? & ? & ? & ?). by eauto.
  - intros q0 e He. cbn [scalls own event_state_ queue_state_ with_queues]. rewrite Hb by done. apply count_ext. intros h' ev Hev. unfold is_event. destruct (decide (h = e_queue ev)) as [<-|Hne]; [by rewrite lookup_insert_eq, Hq|by rewrite lookup_insert_ne].
Qed.

(** A new queue. *)
Lemma isafe_queue s h t native fd : isafe s -> native <> 0 -> 0 <= fd -> 0 < h < 2 ^ 32 -> global_wf t -> GlobalHandles_get (queues_ (own s)) h = Ret None -> GlobalHandles_get t h = Ret (Some native) ->
  (forall h', 0 <= h' -> h' <> h -> GlobalHandles_get t h' = GlobalHandles_get (queues_ (own s)) h') -> find_queue native (queue_state_ (own s)) = None ->
  isafe (Build_Sv (with_queues (own s) t (<[h := {| q_native := native; q_looper := 0; q_fd := fd |}]> (queue_state_ (own s)))) (smem s) (scalls s)).
Proof.
  intros (Hi & Hm & Hl & Hb) Hn Hfd Hh Ht Hnone Hsome Hother Hfind. set (q' := {| q_native := native; q_looper := 0; q_fd := fd |}). destruct Hi as [H1 H2 H3 H4 H5 H6 H7 H8].
  assert (queue_state_ (own s) !! h = None) as Hfresh. { destruct (_ !! h) as [q|] eqn:E; [|done]. destruct (H3 _ _ E) as (_ & _ & _ & Eg). congruence. }
  assert (forall h' x, queue_state_ (own s) !! h' = Some x -> q_native x <> native) as Hnew.
  { intros h' x Hx En. unfold find_queue in Hfind. destruct (list_find _ _) as [[i [k y]]|] eqn:E; [done|]. apply list_find_None in E. rewrite Forall_forall in E. apply (E (h', x)); [by apply elem_of_map_to_list|done]. }
  split; [split; cbn; try done|split; [done|split; [done|]]].
  - intros h' x [[<- <-]|[Hne Hx]]%lookup_insert_Some; [done|]. destruct (H3 _ _ Hx) as (? & ? & ? & ?). rewrite Hother by lia. done.
  - intros h' w Hp Hg. destruct (decide (h = h')) as [<-|Hne]; [rewrite lookup_insert_eq; eauto|]. rewrite lookup_insert_ne by done. rewrite Hother in Hg by lia. by eapply H4.
  - intros h1 h2 q1 q2 [[<- <-]|[Hne1 Hq1]]%lookup_insert_Some [[<- <-]|[Hne2 Hq2]]%lookup_insert_Some En; [done|by apply Hnew in Hq2|by apply Hnew in Hq1|by eapply H5].
  - intros h' ev Hev. destruct (H6 _ _ Hev) as (? & ? & ? & [x Hx]). split_and!; [done..|]. exists x. rewrite lookup_insert_ne; [done|]. intros Eh. congruence.
  - intros q0 e He. cbn [scalls own event_state_ queue_state_ with_queues]. rewrite Hb by done. apply count_ext. intros h' ev Hev. unfold is_event. destruct (H6 _ _ Hev) as (_ & _ & _ & [x Hx]). rewrite lookup_insert_ne; [done|]. intros Eh. congruence.
Qed.

(** ** Events in flight *)

(** As [isafe], but [f q e] more events were taken than have handles. *)
Definition owing (f : Z -> Z -> Z) (s : Sv HostInput) : Prop :=
  input_inv (own s) /\ mem_wf (smem s) /\ checked_log (scalls s) /\
  forall q e, e <> 0 -> log_total (event_delta q e) [] (scalls s) = count_by (is_event (queue_state_ (own s)) q e) (event_state_ (own s)) + f q e.

Lemma owing_none f s : owing f s -> (forall q e, e <> 0 -> f q e = 0) -> isafe s.
Proof. intros (Hi & Hm & Hl & Hb) Hf. split_and!; [done..|]. intros q e He. rewrite Hb, Hf by done. lia. Qed.

(** A taken event gets a handle. *)
Lemma isafe_event s h t a q native owner : owing (fun q' e => Z.b2z ((native =? e) && (q_native q =? q'))) s -> native <> 0 -> queue_state_ (own s) !! a = Some q ->
  0 < h < 2 ^ 32 -> global_wf t -> GlobalHandles_get (events_ (own s)) h = Ret None -> GlobalHandles_get t h = Ret (Some native) ->
  (forall h', 0 <= h' -> h' <> h -> GlobalHandles_get t h' = GlobalHandles_get (events_ (own s)) h') ->
  isafe (Build_Sv (with_events (own s) t (<[h := {| e_native := native; e_queue := a; e_owner := owner |}]> (event_state_ (own s)))) (smem s) (scalls s)).
Proof.
  intros (Hi & Hm & Hl & Hb) Hn Hq Hh Ht Hnone Hsome Hother. set (ev' := {| e_native := native |}). destruct Hi as [H1 H2 H3 H4 H5 H6 H7 H8].
  assert (event_state_ (own s) !! h = None) as Hfresh. { destruct (_ !! h) as [ev|] eqn:E; [|done]. destruct (H6 _ _ E) as (_ & _ & Eg & _). congruence. }
  split; [split; cbn; try done|split; [done|split; [done|]]].
  - intros h' x [[<- <-]|[Hne Hx]]%lookup_insert_Some; [split_and!; [lia|done|done|eauto]|]. destruct (H6 _ _ Hx) as (? & ? & ? & ?). rewrite Hother by lia. done.
  - intros h' w Hp Hg. destruct (decide (h = h')) as [<-|Hne]; [rewrite lookup_insert_eq; eauto|]. rewrite lookup_insert_ne by done. rewrite Hother in Hg by lia. by eapply H7.
  - intros q0 e He. cbn [scalls own event_state_ queue_state_ with_events]. rewrite Hb, count_fresh by done. unfold is_event at 2. cbn [e_queue e_native ev']. rewrite Hq. lia.
Qed.

(** An event that was finished loses its handle. *)
Lemma isafe_drop s h t ev q : owing (fun q' e => - Z.b2z ((e_native ev =? e) && (q_native q =? q'))) s -> event_state_ (own s) !! h = Some ev -> queue_state_ (own s) !! e_queue ev = Some q ->
  global_wf t -> GlobalHandles_get t h = Ret None -> (forall h', 0 <= h' -> h' <> h -> GlobalHandles_get t h' = GlobalHandles_get (events_ (own s)) h') ->
  isafe (Build_Sv (with_events (own s) t (delete h (event_state_ (own s)))) (smem s) (scalls s)).
Proof.
  intros (Hi & Hm & Hl & Hb) Hev Hq Ht Hnone Hother. destruct Hi as [H1 H2 H3 H4 H5 H6 H7 H8]. split; [split; cbn; try done|split; [done|split; [done|]]].
  - intros h' x [Hne Hx]%lookup_delete_Some. destruct (H6 _ _ Hx) as (? & ? & ? & ?). rewrite Hother by (done || lia). done.
  - intros h' w Hp Hg. destruct (decide (h = h')) as [<-|Hne]; [congruence|]. rewrite lookup_delete_ne by done. rewrite Hother in Hg by (done || lia). by eapply H7.
  - intros q0 e He. cbn [scalls own event_state_ queue_state_ with_events]. rewrite Hb, (count_delete _ _ _ _ Hev) by done. unfold is_event at 1. rewrite Hq. lia.
Qed.

(** A call that takes or finishes events. *)
Lemma wp_taking X name args s Q :
  isafe s -> Forall (arg_ok (smem s)) args -> name <> "query" ->
  (forall s', let c := {| h_name := name; h_args := args |} in owing (fun q e => event_delta q e (scalls s) c) s' -> own s' = own s -> pages_ (smem s') = pages_ (smem s) -> Q (host (scalls s) c) s') -> wp X (backend host name args) s Q.
Proof. intros Hs Ha Hn HQ. eapply wp_platform; [done|done|by apply not_query|]. intros s' c E P Hm El Hl Hb. apply HQ; [|done..]. split; [rewrite E; apply Hs|]. split_and!; [done..|]. by rewrite E. Qed.

Lemma wp_drop X h ev q s Q : owing (fun q' e => - Z.b2z ((e_native ev =? e) && (q_native q =? q'))) s -> event_state_ (own s) !! h = Some ev -> queue_state_ (own s) !! e_queue ev = Some q ->
  (forall s', isafe s' -> Q tt s') -> wp X (drop_event h) s Q.
Proof.
  intros Hs Hev Hq HQ. pose proof (proj1 Hs) as Hi. destruct (ii_event _ Hi _ _ Hev) as (Hp & _ & Eg & _). apply wp_bind, wp_get_own, wp_bind, wp_lift.
  destruct (global_remove_ok _ _ _ (ii_events _ Hi) Hp Eg) as (t & Er & Ht & Hsp & _ & _ & Hsame). rewrite Er. apply wp_put_own, HQ. eapply isafe_drop; [done..|exact (ht_spent_get t _ Ht Hsp)|done].
Qed.

(** ** Queues *)

Lemma wp_from_java X index name b s Q : isafe s -> 0 <= b -> (resolve_ref b = Aborted -> X) -> (~ room (queues_ (own s)) -> X) -> (forall v s', isafe s' -> Q v s') ->
  wp X (hc_fromJava host current_env resolve_ref context_ index name b) s Q.
Proof.
  intros Hs Hb HX1 HX2 HQ. eapply wp_bind, wp_other; [done|by constructor|set_solver|]. intros av s1 Hs1 E1 _. destruct (_ =? 0); [by apply wp_unsupported|].
  assert (forall p, wp X (let '(env, object) := p in if (env =? 0) || (b =? 0) then mret 0 else if object =? 0 then mret 0 else native ← backend host "from_java" [HInt env; HInt object]; if ret native =? 0 then mret 0 else st ← get_own;
    match find_queue (ret native) (queue_state_ st) with
    | Some handle => mret handle
    | None => fd ← backend host "readiness_fd" [HInt (ret native)]; if s32 (ret fd) <? 0 then mret 0 else '(handle, t) ← lift_svc (GlobalHandles_add (queues_ st) (ret native)); _ ← put_own (with_queues st t (queue_state_ st));
        if handle =? 0 then mret 0 else _ ← modify (fun st => with_queues st (queues_ st) (<[handle := {| q_native := ret native; q_looper := 0; q_fd := s32 (ret fd) |}]> (queue_state_ st))); mret handle
    end) s1 Q) as Hmain.
  { intros [env object]. destruct (_ || _); [by apply wp_ret, HQ|]. destruct (_ =? 0); [by apply wp_ret, HQ|]. eapply wp_bind, wp_other; [done|by repeat constructor|set_solver|]. intros a s2 Hs2 E2 _. destruct (Z.eqb_spec (ret a) 0) as [|Hn]; [by apply wp_ret, HQ|].
    apply wp_bind, wp_get_own. destruct (find_queue _ _) as [h|] eqn:Ef; [by apply wp_ret, HQ|]. eapply wp_bind, wp_other; [done|by repeat constructor|set_solver|]. intros fd s3 Hs3 E3 _. destruct (Z.ltb_spec (s32 (ret fd)) 0); [by apply wp_ret, HQ|].
    apply wp_bind, wp_lift, runs_add_new; [apply Hs2|done|by rewrite E2, E1|]. intros h t Ht Hh Hnone Hsome Hother. apply wp_bind, wp_put_own. rewrite (proj2 (Z.eqb_neq h 0)) by lia.
    apply wp_bind, wp_bind, wp_get_own, wp_put_own, wp_ret, HQ. cbn [own]. rewrite <- E3 in Hnone, Hother, Ef |- *. by apply (isafe_queue s3 h t (ret a)). }
  apply wp_bind. unfold java_context. destruct context_ as [f|]; [apply wp_ret, Hmain|]. apply wp_bind. destruct (b =? 0); [apply wp_ret, wp_ret, (Hmain (_, _))|]. apply wp_lift. pose proof (Hres b). destruct (resolve_ref b) as [o| |]; [apply wp_ret, (Hmain (_, _))|by apply HX1|done].
Qed.

Lemma wp_effect X e s Q : isafe s -> (forall s', isafe s' -> own s' = own s -> pages_ (smem s') = pages_ (smem s) -> Q tt s') -> wp X (run_effect host e) s Q.
Proof. intros Hs HQ. destruct e; try by apply wp_ret, HQ. all: eapply wp_bind, wp_other; [done|by repeat constructor|set_solver|]; intros a s' Hs' E P; by apply wp_ret, HQ. Qed.

Lemma wp_looper_add X l fd ident cb data s Q : isafe s ->
  (forall acc s', isafe s' -> own s' = with_looper (own s) (add_external_fd (looper_ (own s)) l fd ident cb data acc).2 -> Q (add_external_fd (looper_ (own s)) l fd ident cb data acc).1.1 s') -> wp X (looper_add host l fd ident cb data) s Q.
Proof.
  intros Hs HQ. apply wp_bind, wp_get_own. assert (forall acc s', isafe s' -> own s' = own s -> wp X (let '(v, _, l) := add_external_fd (looper_ (own s)) l fd ident cb data acc in _ ← put_own (with_looper (own s) l); mret v) s' Q) as Hend.
  { intros acc s' Hs' E. specialize (HQ acc). pose proof (looper_steps_ok _ _ (add_fd_steps (looper_ (own s)) l fd ident kEventInput cb data acc) (ii_looper _ (proj1 Hs))) as Hok. fold (add_external_fd (looper_ (own s)) l fd ident cb data acc) in Hok.
    destruct (add_external_fd _ _ _ _ _ _ _) as [[v es] l']. apply wp_bind, wp_put_own, wp_ret, HQ; [|done]. rewrite <- E. by apply isafe_looper. }
  apply wp_bind. destruct (add_fd_section _ _ _ _ _ _ _).1 as [e|]; [|by apply wp_ret, Hend].
  destruct e; try (apply wp_bind, wp_effect; [done|]; intros s' Hs' E _; by apply wp_ret, Hend). eapply wp_bind, wp_other; [done|by repeat constructor|set_solver|]. intros a s' Hs' E _. by apply wp_ret, Hend.
Qed.

Lemma wp_looper_remove X l fd s Q : isafe s -> (forall s', isafe s' -> own s' = with_looper (own s) (remove_external_fd (looper_ (own s)) l fd).2 -> Q tt s') -> wp X (looper_remove host l fd) s Q.
Proof.
  intros Hs HQ. apply wp_bind, wp_get_own. pose proof (remove_fd_ok (looper_ (own s)) l fd (ii_looper _ (proj1 Hs))) as Hok. fold (remove_external_fd (looper_ (own s)) l fd) in Hok. destruct (remove_external_fd _ _ _) as [[v es] l']. apply wp_bind, wp_put_own.
  assert (isafe (Build_Sv (with_looper (own s) l') (smem s) (scalls s))) as H1 by (by apply isafe_looper). destruct es as [|e es]; [by apply wp_ret, HQ|]. apply wp_effect; [done|]. intros s' Hs' E _. by apply HQ.
Qed.

Lemma wp_set_looper X h q v s Q : isafe s -> queue_state_ (own s) !! h = Some q ->
  (forall s', isafe s' -> own s' = with_queues (own s) (queues_ (own s)) (<[h := {| q_native := q_native q; q_looper := v; q_fd := q_fd q |}]> (queue_state_ (own s))) -> Q tt s') -> wp X (set_looper h q v) s Q.
Proof. intros Hs Hq HQ. apply wp_bind, wp_get_own, wp_put_own, HQ; [by apply isafe_set_looper|done]. Qed.

(** Attaching: what the queue and both loopers look like when the call succeeds. *)
Definition attached_to (l : Impl) (looper fd ident callback data : Z) : Prop :=
  exists x r, loopers l !! looper = Some x /\ registrations x !! fd = Some r /\ r_fd r = fd /\ r_ident r = ident /\ r_events r = kEventInput /\ r_callback r = callback /\ r_data r = data.
Definition unregistered (l : Impl) (looper fd : Z) : Prop := forall x, loopers l !! looper = Some x -> registrations x !! fd = None.

Lemma add_registers l h fd ident cb data acc : (add_external_fd l h fd ident cb data acc).1.1 = 1 -> attached_to (add_external_fd l h fd ident cb data acc).2 h fd ident cb data.
Proof.
  unfold add_external_fd, add_fd, add_fd_section. destruct (loopers l !! h) as [x|] eqn:E; [|done]. destruct (_ || _); [done|]. destruct (_ && _); [done|]. cbv zeta. set (r := {| r_fd := fd |}). set (l' := {| thread_loopers := _ |}).
  assert (attached_to l' h fd ident cb data) as H. { eexists _, r. split; [apply lookup_insert_eq|]. split; [apply lookup_insert_eq|done]. }
  destruct (attached x); [|done]. unfold bind_locked. cbv zeta. destruct (negb (acc =? 1)); [done|]. intros _. destruct H as (y & r' & Hy & Hr). exists y, r'. split; [|done]. cbn. by rewrite retire_loopers.
Qed.

Lemma remove_unregisters l h fd : unregistered (remove_external_fd l h fd).2 h fd.
Proof.
  unfold remove_external_fd, remove_fd. destruct (loopers l !! h) as [x|] eqn:E; [|intros x Hx; cbn in Hx; congruence]. destruct (registrations x !! fd) eqn:Er; [|intros y Hy; cbn in Hy; congruence].
  intros y. destruct (attached x); cbn [snd]; rewrite ?retire_loopers; cbn [loopers with_loopers]; rewrite lookup_insert_eq; intros [= <-]; apply lookup_delete_eq.
Qed.

Lemma remove_keeps_other l h fd h' : h' <> h -> loopers (remove_external_fd l h fd).2 !! h' = loopers l !! h'.
Proof.
  intros Hne. unfold remove_external_fd, remove_fd. destruct (loopers l !! h) as [x|]; [|done]. destruct (registrations x !! fd); [|done]. destruct (attached x); cbn [snd]; rewrite ?retire_loopers; cbn [loopers with_loopers]; by rewrite lookup_insert_ne.
Qed.

Lemma wp_attach X a q rs s Q : isafe s -> words rs -> queue_state_ (own s) !! a = Some q ->
  (forall v s', isafe s' -> v ∈ [0; - EINVAL; - EFAULT] -> (v = 0 -> exists data, accessible (smem s) (reg rs 13) 4 kPageRead = true /\ data = le (bytes_at (smem s) (reg rs 13) 4) /\
       q_looper <$> queue_state_ (own s') !! a = Some (reg rs 1) /\ attached_to (looper_ (own s')) (reg rs 1) (q_fd q) (s32 (reg rs 2)) (reg rs 3) data /\
       (q_looper q <> 0 -> q_looper q <> reg rs 1 -> unregistered (looper_ (own s')) (q_looper q) (q_fd q))) -> Q v s') -> wp X (hc_attachLooper host a q rs) s Q.
Proof.
  intros Hs Hw Hq HQ. assert (forall s', isafe s' -> wp X (mret (- EINVAL)) s' Q /\ wp X (mret (- EFAULT)) s' Q) as Hfail by (intros s' Hs'; split; apply wp_ret, HQ; [done|set_solver|done|done|set_solver|done]). apply wp_bind, wp_ptr; intros Ea; [|by apply Hfail]. apply wp_bind, (wp_load _ _ _ kPageRead); [apply Hs|by apply reg_word|lia|done|done|]. cbv zeta.
  destruct (Z.eqb_spec (reg rs 1) 0) as [|Hn]; [by apply Hfail|]. apply wp_bind, wp_looper_add; [done|]. intros acc s1 Hs1 E1. set (data := le _) in *. pose proof (add_registers (looper_ (own s)) (reg rs 1) (q_fd q) (s32 (reg rs 2)) (reg rs 3) data acc) as Hreg.
  destruct (add_external_fd _ _ _ _ _ _ _) as [[v es] l1]. cbn [fst snd] in *. destruct (Z.eqb_spec v 1) as [->|]; cbn [negb]; [|by apply Hfail]. specialize (Hreg eq_refl).
  assert (forall s2 l2, isafe s2 -> own s2 = with_looper (own s) l2 -> attached_to l2 (reg rs 1) (q_fd q) (s32 (reg rs 2)) (reg rs 3) data -> (q_looper q <> 0 -> q_looper q <> reg rs 1 -> unregistered l2 (q_looper q) (q_fd q)) ->
    wp X (_ ← set_looper a q (reg rs 1); mret 0) s2 Q) as Hend.
  { intros s2 l2 Hs2 E2 Hat Hun. apply wp_bind, wp_set_looper; [done|by rewrite E2|]. intros s3 Hs3 E3. apply wp_ret, HQ; [done|set_solver|]. intros _. exists data. rewrite E3, E2. split; [done|]. split; [done|]. split; [cbn; by rewrite lookup_insert_eq|done]. }
  apply wp_bind. destruct (Z.eqb_spec (q_looper q) 0) as [E0|Hn0]; cbn [negb andb]; [by apply wp_ret, (Hend s1 l1)|]. destruct (Z.eqb_spec (q_looper q) (reg rs 1)) as [Eb|Hnb]; cbn [negb andb]; [by apply wp_ret, (Hend s1 l1)|].
  apply wp_looper_remove; [done|]. intros s2 Hs2 E2. rewrite E1 in E2. cbn [looper_ with_looper] in E2. apply (Hend s2 (remove_external_fd l1 (q_looper q) (q_fd q)).2); [done|done| |intros _ _; apply remove_unregisters].
  destruct Hreg as (x & r & Hx & Hr). exists x, r. split; [|done]. by rewrite remove_keeps_other.
Qed.

Lemma wp_detach X a q s Q : isafe s -> queue_state_ (own s) !! a = Some q -> (forall v s', isafe s' -> Q v s') -> wp X (hc_detachLooper host a q) s Q.
Proof.
  intros Hs Hq HQ. apply wp_bind. destruct (_ =? 0); [by apply wp_ret, wp_ret, HQ|]. apply wp_bind, wp_looper_remove; [done|]. intros s1 Hs1 E1. apply wp_set_looper; [done|by rewrite E1|]. intros s2 Hs2 _. by apply wp_ret, HQ.
Qed.

Lemma wp_get_event X a q rs s Q : isafe s -> words rs -> queue_state_ (own s) !! a = Some q -> (~ room (events_ (own s)) -> X) -> (forall v s', isafe s' -> Q v s') -> wp X (hc_getEvent host this_thread a q rs) s Q.
Proof.
  intros Hs Hw Hq HX HQ. apply wp_bind, wp_ptr; intros Ea; [|by apply wp_ret, HQ]. eapply wp_bind, wp_taking; [done|by repeat constructor|done|]. intros s1 c Hs1 E1 P1. set (r := host (scalls s) c) in *. cbv zeta.
  assert (forall q' e, event_delta q' e (scalls s) c = Z.b2z ((s32 (ret r) =? 0) && (q_native q =? q') && (out r 0 =? e))) as Hd by done.
  destruct (Z.eqb_spec (s32 (ret r)) 0) as [E0|Hn0]; cbn [negb]; [|apply wp_ret, HQ; apply (owing_none _ _ Hs1); intros q' e He; by rewrite Hd].
  destruct (Z.eqb_spec (out r 0) 0) as [Ez|Hn]; [apply wp_ret, HQ; apply (owing_none _ _ Hs1); intros q' e He; rewrite Hd, Ez, (proj2 (Z.eqb_neq 0 e)) by done; by rewrite andb_false_r|].
  apply wp_bind, wp_get_own, wp_bind, wp_lift, runs_add_new; [apply Hs1|done|by rewrite E1|]. intros h t Ht Hh Hnone Hsome Hother. apply wp_bind, wp_put_own. rewrite (proj2 (Z.eqb_neq h 0)) by lia.
  apply wp_bind, wp_bind, wp_get_own, wp_put_own. cbn [own smem scalls]. set (s2 := Build_Sv _ _ _). assert (isafe s2) as Hs2.
  { apply (isafe_event s1 h t a q (out r 0)); [|done|by rewrite E1|done..]. destruct Hs1 as (? & ? & ? & Hb). split_and!; [done..|]. intros q' e He. rewrite Hb, Hd by done. cbn [andb]. by rewrite andb_comm. }
  destruct Hs2 as (Hi & Hm & Hl & Hb). apply wp_bind, (wp_store _ _ _ (reg rs 1) 4 kPageWrite); [done|by apply reg_word|lia|cbn [smem s2]; by rewrite (accessible_same _ _ _ _ _ P1)|done|lia|unfold size; rewrite length_to_le; lia|]. intros m _ How Hm'. by apply wp_ret, HQ.
Qed.

Lemma wp_queue_call X index name rs s Q : isafe s -> words rs -> (~ room (events_ (own s)) -> X) -> (forall v s', isafe s' -> Q v s') -> wp X (queue_call host this_thread index name rs) s Q.
Proof.
  intros Hs Hw HX HQ. cbv [queue_call]. apply wp_bind, wp_get_own. destruct (queue_state_ (own s) !! reg rs 0) as [q|] eqn:Eq; [|by apply wp_ret, HQ]. destruct (ii_queue _ (proj1 Hs) _ _ Eq) as (Hp & Hn & Hfd & Eg). apply wp_bind, wp_lift. rewrite Eg. cbn [runs]. rewrite bool_decide_true by done. cbn [negb].
  destruct (String.eqb _ _); [apply wp_attach; [done..|]; intros v s' Hs' _ _; by apply HQ|]. destruct (String.eqb _ _); [by apply wp_detach|]. destruct (String.eqb _ _).
  { eapply wp_bind, wp_other; [done|by repeat constructor|set_solver|]. intros r s1 Hs1 _ _. by apply wp_ret, HQ. }
  destruct (String.eqb _ _); [by apply wp_get_event|]. destruct (event_state_ (own s) !! reg rs 1) as [ev|] eqn:Ee; [|by apply wp_ret, HQ]. destruct (Z.eqb_spec (e_queue ev) (reg rs 0)) as [Eqe|]; cbn [negb orb]; [|by apply wp_ret, HQ]. destruct (negb _); [by apply wp_ret, HQ|].
  rewrite <- Eqe in Eq. destruct (String.eqb _ _); [|destruct (String.eqb _ _); [|by apply wp_unsupported]].
  - eapply wp_bind, wp_taking; [done|by repeat constructor|done|]. intros s1 c Hs1 E1 _. set (r := host (scalls s) c) in *. assert (forall q' e, event_delta q' e (scalls s) c = - Z.b2z (negb (s32 (ret r) =? 0) && (e_native ev =? e) && (q_native q =? q'))) as Hd by done.
    apply wp_bind. destruct (Z.eqb_spec (s32 (ret r)) 0) as [E0|Hn0]; [apply wp_ret, wp_ret, HQ; apply (owing_none _ _ Hs1); intros q' e He; by rewrite Hd|].
    apply (wp_drop _ _ ev q); [|by rewrite E1..|intros s2 Hs2; by apply wp_ret, HQ]. destruct Hs1 as (? & ? & ? & Hb). split_and!; [done..|]. intros q' e He. by rewrite Hb, Hd.
  - eapply wp_bind, wp_taking; [done|by repeat constructor|done|]. intros s1 c Hs1 E1 _. apply wp_bind, (wp_drop _ _ ev q); [done|by rewrite E1..|intros s2 Hs2; by apply wp_ret, HQ].
Qed.

(** ** Accessors *)

Definition query_of (name : string) (event a b d : Z) (k : kind) : hostcall := {| h_name := "query"; h_args := [HPath (msg name); HInt event; HInt a; HInt b; HInt d; HInt (kind_char k)] |}.

Lemma wp_query X name event a b d k s Q : isafe s -> query_checked (scalls s) (query_of name event a b d k) ->
  (forall r s', isafe s' -> scalls s' = scalls s ++ [query_of name event a b d k] -> (forall n, r = Some n -> ret (host (scalls s) (query_of name event a b d k)) <> 0 /\ n = u64 (out (host (scalls s) (query_of name event a b d k)) 0)) -> Q r s') -> wp X (query host name event a b d k) s Q.
Proof.
  intros Hs Hc HQ. eapply wp_bind, wp_quiet; [done|by repeat constructor|exact Hc|set_solver|]. intros s1 c Hs1 E1 P1 El. apply wp_ret, HQ; [done|done|]. fold (query_of name event a b d k) in c. unfold c. intros n. destruct (Z.eqb_spec (ret (host (scalls s) (query_of name event a b d k))) 0); [done|]. by intros [= <-].
Qed.

Lemma free_query past name event a b d k : is_pointer name = false -> is_historical name = false -> query_checked past (query_of name event a b d k).
Proof. intros H1 H2 name' e' a' b' d' k' E. injection E as E. apply msg_inj in E as ->. by rewrite H1, H2. Qed.

Definition high_word (v : Z * Z) : Prop := 0 <= v.2 < 2 ^ 32.

Lemma invalid_high k : high_word (invalid_index k).
Proof. by destruct k. Qed.

(** A passed check leaves the count in the log. *)
Lemma wp_check_index X index name counter event argument s (Q : Z * Z + unit -> Sv HostInput -> Prop) : isafe s -> is_pointer counter = false -> is_historical counter = false ->
  (forall v s', isafe s' -> high_word v -> Q (inl v) s') -> (forall s', isafe s' -> counted_at 0 counter event argument (scalls s') -> (exists c, scalls s' = scalls s ++ [c]) -> Q (inr tt) s') -> wp X (check_index host index name counter event argument) s Q.
Proof.
  intros Hs H1 H2 Hl Hr. apply wp_bind, wp_query; [done|by apply free_query|]. intros o s1 Hs1 E1 Ho. destruct o as [n|]; [|apply wp_bind, wp_unsupported; [done|]; intros v s2 Hs2; by apply wp_ret, Hl]. destruct (Ho n eq_refl) as [Hret ->].
  destruct (Z.leb_spec (u64 (out (host (scalls s) (query_of counter event 0 0 0 KInt)) 0)) argument) as [|Hlt]; [apply wp_ret, Hl; [done|apply invalid_high]|]. apply wp_ret, Hr; [done| |by eexists]. rewrite E1. by exists (scalls s), (query_of counter event 0 0 0 KInt), [].
Qed.

(** The last call of an accessor is made with checked indices. *)
Lemma wp_check_motion X index name event b c d s (Q : Z * Z + unit -> Sv HostInput -> Prop) k : isafe s -> (is_pointer name || is_historical name = true -> starts_with "AMotionEvent_get" name = true) ->
  (forall v s', isafe s' -> high_word v -> Q (inl v) s') -> (forall s', isafe s' -> query_checked (scalls s') (query_of name event b c d k) -> Q (inr tt) s') -> wp X (check_motion host index name event b c d) s Q.
Proof.
  intros Hs Hname Hl Hr. unfold check_motion. destruct (starts_with _ _) eqn:Es; [clear Hname|apply wp_ret, Hr; [done|]; destruct (is_pointer name) eqn:Hp, (is_historical name) eqn:Hh; try (by specialize (Hname eq_refl)); by apply free_query].
  assert (forall s', isafe s' -> (is_pointer name = true -> counted_at 0 "AMotionEvent_getPointerCount" event (if is_axis name then c else b) (scalls s')) ->
    wp X (if is_historical name then check_index host index name "AMotionEvent_getHistorySize" event (if String.eqb name "AMotionEvent_getHistoricalEventTime" then b else if is_axis name then d else c) else mret (inr tt)) s' Q) as Hend.
  { intros s' Hs' Hp. destruct (is_historical name) eqn:Hh.
    - apply wp_check_index; [done..|]. intros s2 Hs2 Hc2 [x E2]. apply Hr; [done|]. intros name' e' a' b' d' k' E. injection E as E -> -> -> -> _. apply msg_inj in E as <-. rewrite Hh. split; [|intros _; exists 0%nat; split; [lia|done]].
      intros Hpt. exists 1%nat. split; [lia|]. rewrite E2. by apply counted_snoc, Hp.
    - apply wp_ret, Hr; [done|]. intros name' e' a' b' d' k' E. injection E as E -> -> -> -> _. apply msg_inj in E as <-. rewrite Hh. split; [|done]. intros Hpt. exists 0%nat. split; [lia|]. by apply Hp. }
  apply wp_bind. destruct (is_pointer name) eqn:Hp; [|apply wp_ret; by apply Hend]. apply wp_check_index; [done..|intros v s' Hs' Hv; by apply wp_ret, Hl|]. intros s' Hs' Hc _. by apply Hend.
Qed.

Lemma wp_check_type X index name event s (Q : Z * Z + unit -> Sv HostInput -> Prop) : isafe s -> (forall v s', isafe s' -> match v with inl v => high_word v | inr _ => True end -> Q v s') -> wp X (check_type host index name event) s Q.
Proof.
  intros Hs HQ. cbv [check_type]. destruct (_ =? 0); [by apply wp_ret, HQ|]. apply wp_bind, wp_query; [done|by apply free_query|]. intros o s1 Hs1 _ _. destruct o as [n|]; [|apply wp_bind, wp_unsupported; [done|]; intros v s2 Hs2; by apply wp_ret, HQ]. destruct (_ =? _); by apply wp_ret, HQ.
Qed.

Lemma wp_event_call X index name rs s Q : isafe s -> (is_pointer name || is_historical name = true -> starts_with "AMotionEvent_get" name = true) ->
  (forall v s', isafe s' -> high_word v -> Q v s') -> wp X (event_call host this_thread index name rs) s Q.
Proof.
  intros Hs Hn HQ. cbv [event_call]. apply wp_bind, wp_get_own. destruct (event_state_ (own s) !! reg rs 0) as [ev|] eqn:Ee; [|by apply wp_ret, HQ]. destruct (ii_event _ (proj1 Hs) _ _ Ee) as (Hp & _ & Eg & _). apply wp_bind, wp_lift. rewrite Eg. cbn [runs]. rewrite bool_decide_true by done. cbn [negb orb].
  destruct (negb _); [by apply wp_ret, HQ|]. apply wp_bind, wp_check_type; [done|]. intros [v|[]] s1 Hs1 Hv; [by apply wp_ret, HQ|]. apply wp_bind, (wp_check_motion _ _ _ _ _ _ _ _ _ (result_kind name)); [done|done|intros v s2 Hs2 Hv2; by apply wp_ret, HQ|].
  intros s2 Hs2 Hc. apply wp_bind, wp_query; [done|done|]. intros [bits|] s3 Hs3 _ _; [apply wp_ret, HQ; [done|apply u32_range]|]. apply wp_bind, wp_unsupported; [done|]. intros v s4 Hs4. by apply wp_ret, HQ.
Qed.
End Sound.

(** ** The calls *)

(** The served indices, and which names have indices. *)
Lemma input_name_range index : is_Some (input_name index) <-> 395 <= index <= 458.
Proof.
  unfold input_name. rewrite (android_name_range _ (fun i => (395 <=? i) && (i <=? 458))); [by rewrite andb_true_iff, !Z.leb_le|vm_compute; reflexivity|]. intros i. rewrite andb_true_iff, !Z.leb_le. lia.
Qed.

Lemma indexed_names index name : input_name index = Some name -> is_pointer name || is_historical name = true -> starts_with "AMotionEvent_get" name = true.
Proof.
  intros (c & Hc & _ & _ & _ & ->)%android_name_exact. assert (forallb (fun c => implb (is_pointer (call_name c) || is_historical (call_name c)) (starts_with "AMotionEvent_get" (call_name c))) kHostCalls = true) as H by (vm_compute; reflexivity).
  rewrite forallb_forall in H. specialize (H c ltac:(apply list_elem_of_In; by eapply list_elem_of_lookup_2)). intros Hp. by rewrite Hp in H.
Qed.

(** Only a full table and [HostJni] end the process. *)
Definition input_abort (resolve_ref : Z -> exec Z) (st : HostInput) (rs : list Z) : Prop := ~ room (queues_ st) \/ ~ room (events_ st) \/ resolve_ref (reg rs 1) = Aborted.

(** every input call of the guest, with any registers and memory: only guest memory is
    touched, r0 and r1 alone change, a queue of the platform has one handle for ever, the
    events taken from the platform and not finished or given to the input method are, queue
    by queue, exactly those with a live handle, so each is finished at most once and on its
    own queue, and the platform is asked for a pointer or a position of the history only
    after its count of the same event exceeded the index. *)
Theorem input_call_sound host this_thread current_env resolve_ref context_ index rs s :
  kernel_ok host -> (forall h, resolve_ref h <> Undefined) -> words rs -> isafe host s ->
  wp (input_abort resolve_ref (own s) rs) (input_handle_host_call host this_thread current_env resolve_ref context_ index rs) s
    (fun r s' => match r with
                 | Some rs' => 395 <= index <= 458 /\ answered rs rs' /\ isafe host s'
                 | None => ~ 395 <= index <= 458 /\ s' = s
                 end).
Proof.
  intros Hhost Hres Hw Hs. pose proof (input_name_range index) as Hr. unfold input_handle_host_call. destruct (input_name index) as [name|] eqn:En; [|apply wp_ret; split; [rewrite <- Hr; by intros [? ?]|done]]. apply wp_bind. set (X := input_abort _ _ _). set (P := fun (r : option (list Z)) (s' : Sv HostInput) => _).
  assert (forall v s', isafe host s' -> high_word v -> wp X (let '(v, high) := v in mret (Some (set01 rs (u32 v) high))) s' P) as Hend.
  { intros [v high] s' Hs' Hv. apply wp_ret. split; [by apply Hr|]. split; [|done]. apply answered_set01; [done|apply u32_range|exact Hv]. }
  assert (forall v s', isafe host s' -> wp X (mret (v, 0)) s' (fun a s' => wp X (let '(v, high) := a in mret (Some (set01 rs (u32 v) high))) s' P)) as Hlow by (intros v s' Hs'; by apply wp_ret, (Hend (v, 0))).
  destruct (String.eqb _ _); [eapply wp_bind, wp_from_java; [done..|by apply reg_word|by right; right|by left|exact Hlow]|]. destruct (starts_with _ _); [eapply wp_bind, wp_queue_call; [done..|by right; left|exact Hlow]|].
  destruct (not_served name); [eapply wp_bind, wp_unsupported; [done..|exact Hlow]|]. eapply wp_event_call; [done..|by eapply indexed_names|exact Hend].
Qed.

(** AInputQueue_attachLooper that succeeds leaves the queue's descriptor registered for
    input with the guest's ident, callback and the data word on its stack at the new looper,
    and registered no more at the looper it was attached to before. *)
Theorem attach_moves_queue host this_thread current_env resolve_ref context_ rs s q :
  kernel_ok host -> (forall h, resolve_ref h <> Undefined) -> words rs -> isafe host s -> queue_state_ (own s) !! reg rs 0 = Some q ->
  wp False (input_handle_host_call host this_thread current_env resolve_ref context_ 395 rs) s
    (fun r s' => exists rs', r = Some rs' /\
       (reg rs' 0 = 0 -> q_looper <$> queue_state_ (own s') !! reg rs 0 = Some (reg rs 1) /\
          attached_to (looper_ (own s')) (reg rs 1) (q_fd q) (s32 (reg rs 2)) (reg rs 3) (le (bytes_at (smem s) (reg rs 13) 4)) /\
          (q_looper q <> 0 -> q_looper q <> reg rs 1 -> unregistered (looper_ (own s')) (q_looper q) (q_fd q)))).
Proof.
  intros Hhost Hres Hw Hs Hq. unfold input_handle_host_call. assert (input_name 395 = Some "AInputQueue_attachLooper") as -> by (vm_compute; reflexivity). cbn [String.eqb Ascii.eqb Bool.eqb starts_with String.prefix]. destruct (ii_queue _ (proj1 Hs) _ _ Hq) as (Hp & _ & _ & Eg).
  apply wp_bind, wp_bind. cbv [queue_call]. apply wp_bind, wp_get_own. rewrite Hq. apply wp_bind, wp_lift. rewrite Eg. cbn [runs]. rewrite bool_decide_true by done. cbn [negb String.eqb Ascii.eqb Bool.eqb].
  eapply wp_attach; [done..|]. intros v s' Hs' Hv Hpost. apply wp_ret, wp_ret. eexists. split; [done|]. intros E0. assert (v = 0) as Hv0.
  { assert (u32 v = 0) as Eu by (destruct Hw as [Hl _]; unfold reg, set01 in E0; destruct rs as [|? [|? ?]]; done). rewrite !elem_of_cons, elem_of_nil in Hv. destruct Hv as [->|[->|[->|[]]]]; done. }
  destruct (Hpost Hv0) as (data & _ & -> & H). exact H.
Qed.

Lemma bind_returns {A B} (c : svc HostInput A) (f : A -> svc HostInput B) s a s1 : c s = Ret (a, s1) -> (c ≫= f) s = f a s1.
Proof. unfold mbind, svc_bind. by intros ->. Qed.

Definition finishing : list Z := [397; 401].
Definition accessors : list Z := [402; 403; 404] ++ seqZ 408 8 ++ seqZ 417 42.

Lemma accessor_names index name : index ∈ accessors -> input_name index = Some name -> starts_with "AInputQueue_" name = false /\ not_served name = false.
Proof.
  intros Hi (c & Hc & Hp & _ & _ & ->)%android_name_exact. pose proof (row_index _ _ Hc) as Hx. rewrite Z2Nat.id in Hx by done.
  assert (forallb (fun c => implb (bool_decide (call_index c ∈ accessors)) (negb (starts_with "AInputQueue_" (call_name c)) && negb (not_served (call_name c)))) kHostCalls = true) as H by (vm_compute; reflexivity).
  rewrite forallb_forall in H. specialize (H c ltac:(apply list_elem_of_In; by eapply list_elem_of_lookup_2)). rewrite Hx, bool_decide_true in H by done. cbn [implb] in H. by rewrite andb_true_iff, !negb_true_iff in H.
Qed.

(** an event is for the thread that received it: a call that reads, finishes or
    dispatches an event whose handle is not live or was given to another thread answers
    -EINVAL, asks the platform nothing and changes nothing. *)
Theorem foreign_event_refused host this_thread current_env resolve_ref context_ index rs s :
  isafe host s -> index ∈ finishing ++ accessors ->
  (forall ev, event_state_ (own s) !! reg rs (if bool_decide (index ∈ finishing) then 1 else 0) = Some ev -> e_owner ev <> this_thread) ->
  input_handle_host_call host this_thread current_env resolve_ref context_ index rs s = Ret (Some (set01 rs (u32 (- EINVAL)) 0), s).
Proof.
  intros Hs Hi Hev. assert (395 <= index <= 458) as Hr by (revert Hi; unfold finishing, accessors; rewrite !elem_of_app, !elem_of_cons, !elem_of_seqZ, elem_of_nil; lia). apply input_name_range in Hr as [name En].
  apply elem_of_app in Hi as [Hi|Hi].
  - rewrite bool_decide_true in Hev by done. unfold input_handle_host_call. rewrite En. assert (name = "AInputQueue_finishEvent" \/ name = "AInputQueue_preDispatchEvent") as Hn.
    { unfold finishing in Hi. rewrite !elem_of_cons, elem_of_nil in Hi. destruct Hi as [->|[->|[]]]; vm_compute in En; injection En as <-; [by left|by right]. }
    assert (queue_call host this_thread index name rs s = Ret (- EINVAL, s)) as Hq; [|assert (String.eqb name "AInputQueue_fromJava" = false /\ starts_with "AInputQueue_" name = true) as [-> ->] by (destruct Hn as [->| ->]; by vm_compute); by rewrite (bind_returns _ _ s (- EINVAL, 0) s) by (by rewrite (bind_returns _ _ s (- EINVAL) s))].
    unfold queue_call, get_own, lift_svc, mbind, svc_bind. cbv beta iota zeta. destruct (queue_state_ (own s) !! reg rs 0) as [q|] eqn:Eq; [|done]. destruct (ii_queue _ (proj1 Hs) _ _ Eq) as (_ & _ & _ & Eg). rewrite Eg. cbn [mbind exec_bind]. rewrite bool_decide_true by done.
    destruct Hn as [->| ->]; cbn [negb String.eqb Ascii.eqb Bool.eqb]; (destruct (event_state_ (own s) !! reg rs 1) as [ev|] eqn:Ee; [|done]); specialize (Hev ev eq_refl); rewrite (proj2 (Z.eqb_neq _ _) Hev), orb_true_r; done.
  - destruct (accessor_names _ _ Hi En) as [Hnq Hns]. rewrite bool_decide_false in Hev by (revert Hi; unfold finishing, accessors; rewrite !elem_of_app, !elem_of_cons, !elem_of_seqZ, elem_of_nil; lia).
    unfold input_handle_host_call. rewrite En, Hnq, Hns. assert (String.eqb name "AInputQueue_fromJava" = false) as -> by (apply String.eqb_neq; intros ->; done).
    assert (event_call host this_thread index name rs s = Ret ((- EINVAL, 0), s)) as Hc; [|by rewrite (bind_returns _ _ s _ s Hc)].
    unfold event_call, get_own, lift_svc, mbind, svc_bind. cbv beta iota zeta. destruct (event_state_ (own s) !! reg rs 0) as [ev|] eqn:Ee; [|done]. destruct (ii_event _ (proj1 Hs) _ _ Ee) as (_ & _ & Eg & _). rewrite Eg. cbn [exec_bind]. rewrite (proj2 (Z.eqb_neq _ _) (Hev ev eq_refl)), orb_true_r. done.
Qed.

(** ** Runs *)

(** A platform with one queue that always has the same motion event of two pointers. *)
Definition sample_input (log : list hostcall) (c : hostcall) : answer :=
  {| ret := if decide (h_name c = "get_event") then 0 else 90; errno := 0; guest_writes := []; outs := if decide (h_name c = "get_event") then [200] else if decide (h_name c = "query") then [2] else [] |}.
(** A thread with a looper that needs no callbacks. *)
Definition sample_looper : Impl := (prepare Impl_init 7 1 false 0 5).2.
Definition sample_start : Sv HostInput := Build_Sv (HostInput_init sample_looper) (km sample_text) [].
Definition input_regs (a b c : Z) : list Z := [a; b; c] ++ replicate 10 0 ++ [0x10000; 0; 0].

#[local] Notation sample_call t := (input_handle_host_call sample_input t 3 (fun h => Ret h) None).
#[local] Notation start_queue := (hc_fromJava sample_input 3 (fun h => Ret h) None 398 "AInputQueue_fromJava" 9).

Lemma sample_input_ok : kernel_ok sample_input.
Proof. intros log c a bs H. by apply elem_of_nil in H. Qed.

Lemma sample_start_safe : isafe sample_input sample_start.
Proof.
  split; [|split; [exact sample_text_wf|split; [|done]]].
  - split; try done; [apply global_wf_init..| | |]; try (intros h w Hp E; exfalso; revert E; cbn; unfold GlobalHandles_get; rewrite (proj2 (Z.eqb_neq h 0)) by lia; cbn; by case_decide).
    apply prepare_ok, init_ok.
  - intros past c rest E. by destruct past.
Qed.

(** The state with the queue open, and the queue's handle. *)
Definition sample_open : Sv HostInput := state_after start_queue sample_start.
Definition sample_handle : Z := default 0 (find_queue 90 (queue_state_ (own sample_open))).

Lemma sample_open_safe : isafe sample_input sample_open.
Proof.
  apply (wp_state True start_queue sample_start (isafe sample_input)); [exact sample_start_safe|]. by eapply wp_from_java; [apply sample_input_ok|done|exact sample_start_safe|..].
Qed.

Lemma input_call_sound_witness :
  exists r s, sample_call 7 399 (input_regs sample_handle 0x11000 0) sample_open = Ret (r, s) /\ match r with Some rs => reg rs 0 =? 0 | None => false end = true /\
    match r with Some rs => 395 <= 399 <= 458 /\ answered (input_regs sample_handle 0x11000 0) rs /\ isafe sample_input s | None => ~ 395 <= 399 <= 458 /\ s = sample_open end.
Proof.
  apply (wp_run _ _ _ _ (fun r => match r with Some rs => reg rs 0 =? 0 | None => false end)
    (input_call_sound sample_input 7 3 (fun h => Ret h) None 399 (input_regs sample_handle 0x11000 0) sample_open sample_input_ok ltac:(intros h; discriminate) ltac:(split; [reflexivity|repeat constructor; discriminate]) sample_open_safe)).
  vm_compute. reflexivity.
Defined.

Lemma attach_moves_queue_witness :
  exists r s q, sample_call 7 395 (input_regs sample_handle 0x7a000000 4) sample_open = Ret (r, s) /\ match r with Some rs => reg rs 0 =? 0 | None => false end = true /\
    exists rs', r = Some rs' /\ (reg rs' 0 = 0 -> q_looper <$> queue_state_ (own s) !! sample_handle = Some 0x7a000000 /\
      attached_to (looper_ (own s)) 0x7a000000 (q_fd q) 4 0 (le (bytes_at (smem sample_open) 0x10000 4)) /\ (q_looper q <> 0 -> q_looper q <> 0x7a000000 -> unregistered (looper_ (own s)) (q_looper q) (q_fd q))).
Proof.
  pose (q := {| q_native := 90; q_looper := 0; q_fd := 90 |}).
  destruct (wp_run _ _ _ _ (fun r => match r with Some rs => reg rs 0 =? 0 | None => false end)
    (attach_moves_queue sample_input 7 3 (fun h => Ret h) None (input_regs sample_handle 0x7a000000 4) sample_open q sample_input_ok ltac:(intros h; discriminate) ltac:(split; [reflexivity|repeat constructor; discriminate]) sample_open_safe
      ltac:(vm_compute; reflexivity)) ltac:(vm_compute; reflexivity)) as (r & s & H1 & H2 & H3).
  exists r, s, q. exact (conj H1 (conj H2 H3)).
Defined.

(** No event is live yet. *)
Lemma foreign_event_refused_witness :
  397 ∈ finishing ++ accessors /\ sample_call 7 397 (input_regs sample_handle 8 1) sample_open = Ret (Some (set01 (input_regs sample_handle 8 1) (u32 (- EINVAL)) 0), sample_open).
Proof.
  split; [apply elem_of_app; left; left|].
  apply (foreign_event_refused sample_input 7 3 (fun h => Ret h) None 397 (input_regs sample_handle 8 1) sample_open sample_open_safe ltac:(apply elem_of_app; left; left)). intros ev H. vm_compute in H. discriminate H.
Defined.

(** An event is read by the thread that took it, with valid indices only, and finished
    once. *)
Definition event_session : svc HostInput (list Z) :=
  let answer_of (r : option (list Z)) := match r with Some rs => s32 (reg rs 0) | None => 0 end in
  a ← sample_call 7 399 (input_regs sample_handle 0x11000 0);
  h ← load 0x11000 4;
  x ← sample_call 7 453 (input_regs (le h) 1 0);
  y ← sample_call 7 453 (input_regs (le h) 2 0);
  o ← sample_call 8 453 (input_regs (le h) 1 0);
  k ← sample_call 7 412 (input_regs (le h) 0 0);
  f ← sample_call 7 397 (input_regs sample_handle (le h) 1);
  g ← sample_call 7 397 (input_regs sample_handle (le h) 1);
  mret (map answer_of [a; x; y; o; k; f; g]).

Example event_session_runs :
  match event_session sample_open with
  | Ret (vs, s) => Some (vs, List.filter (String.eqb "finish_event") (map h_name (scalls s)))
  | _ => None
  end = Some ([0; 2; quiet_NaN; - EINVAL; - EINVAL; 0; - EINVAL], ["finish_event"]).
Proof. vm_compute. reflexivity. Qed.
