(* ===== verification/JniLoader.v ===== *)
(** * Loading a JNI library

    [core/src/jni/loader.cpp]: the exports of an arm32 library are read from its file
    ([ElfSymbols]), the library is opened in the guest, each [Java_] export is decoded
    ([JniNames]), looked up among the natives Java declares, resolved in the guest and bound
    to a thunk for every declared method that matches; then the library's [JNI_OnLoad] runs.

    The Java side is [host] and [natives] of [JniState]; [declared] reads the methods a
    [find_declared_natives] call left, and [file] is what opening the library gives.  The
    names that were logged already are the state of the loader. *)

From stdpp Require Import numbers list gmap strings.
From Stdlib Require Import Ascii.
From S2P Require Import Prelude Handles JniNames NativeCall Bytes GuestMemory InitialStack ElfDynamic ElfSymbols GuestThread Kernel ProcFiles Syscalls Messages Service LibraryService JniState JniCalls JniSound JniNative.
Local Open Scope Z_scope.

Definition kJniVersion11 : Z := 0x00010001.
Definition kJniVersion12 : Z := 0x00010002.
Definition kJniVersion14 : Z := 0x00010004.
Definition kJniVersion16 : Z := 0x00010006.
Definition supported_version (version : Z) : bool := (version =? kJniVersion11) || (version =? kJniVersion12) || (version =? kJniVersion14) || (version =? kJniVersion16).

Inductive NativeLookupStatus := Found | MissingClass | Unresolvable | LookupError.
Definition lookup_status (z : Z) : NativeLookupStatus := if z =? 0 then Found else if z =? 1 then MissingClass else if z =? 2 then Unresolvable else LookupError.

Record DeclaredNativeMethod := { msignature : list Z; mstatic : bool }.

Record JniLoadReport := {
  ok : bool;
  guest_handle : Z;
  jni_version : Z;
  bound_methods : Z;
  skipped_classes : Z;
  skipped_exports : Z;
  rerror : list Z;
}.
Definition JniLoadReport_init : JniLoadReport :=
  {| ok := false; guest_handle := 0; jni_version := kJniVersion16; bound_methods := 0; skipped_classes := 0; skipped_exports := 0; rerror := [] |}.

Definition with_error (r : JniLoadReport) (e : list Z) : JniLoadReport :=
  {| ok := ok r; guest_handle := guest_handle r; jni_version := jni_version r; bound_methods := bound_methods r; skipped_classes := skipped_classes r; skipped_exports := skipped_exports r; rerror := e |}.
Definition with_handle (r : JniLoadReport) (h : Z) : JniLoadReport :=
  {| ok := ok r; guest_handle := h; jni_version := jni_version r; bound_methods := bound_methods r; skipped_classes := skipped_classes r; skipped_exports := skipped_exports r; rerror := rerror r |}.
Definition with_version (r : JniLoadReport) (v : Z) : JniLoadReport :=
  {| ok := ok r; guest_handle := guest_handle r; jni_version := v; bound_methods := bound_methods r; skipped_classes := skipped_classes r; skipped_exports := skipped_exports r; rerror := rerror r |}.
Definition with_ok (r : JniLoadReport) : JniLoadReport :=
  {| ok := true; guest_handle := guest_handle r; jni_version := jni_version r; bound_methods := bound_methods r; skipped_classes := skipped_classes r; skipped_exports := skipped_exports r; rerror := rerror r |}.
Definition count_bound (r : JniLoadReport) : JniLoadReport :=
  {| ok := ok r; guest_handle := guest_handle r; jni_version := jni_version r; bound_methods := bound_methods r + 1; skipped_classes := skipped_classes r; skipped_exports := skipped_exports r; rerror := rerror r |}.
Definition count_class (r : JniLoadReport) : JniLoadReport :=
  {| ok := ok r; guest_handle := guest_handle r; jni_version := jni_version r; bound_methods := bound_methods r; skipped_classes := skipped_classes r + 1; skipped_exports := skipped_exports r; rerror := rerror r |}.
Definition count_export (r : JniLoadReport) : JniLoadReport :=
  {| ok := ok r; guest_handle := guest_handle r; jni_version := jni_version r; bound_methods := bound_methods r; skipped_classes := skipped_classes r; skipped_exports := skipped_exports r + 1; rerror := rerror r |}.

(** The loader's own state. *)
Record JniLoader := { missing_classes_ : gset (list Z); unresolvable_exports_ : gset (list Z) }.
Definition JniLoader_init : JniLoader := {| missing_classes_ := ∅; unresolvable_exports_ := ∅ |}.
Definition log_missing_class_once (l : JniLoader) (name : list Z) : JniLoader := {| missing_classes_ := {[name]} ∪ missing_classes_ l; unresolvable_exports_ := unresolvable_exports_ l |}.
Definition log_unresolvable_once (l : JniLoader) (symbol : list Z) : JniLoader := {| missing_classes_ := missing_classes_ l; unresolvable_exports_ := {[symbol]} ∪ unresolvable_exports_ l |}.
Definition log_unmatched_once (l : JniLoader) (symbol : list Z) : JniLoader := log_unresolvable_once l symbol.

(** Up to and with the first ')'. *)
Fixpoint through_close (s : list Z) : option (list Z) :=
  match s with [] => None | c :: rest => if c =? 41 then Some [c] else cons c <$> through_close rest end.

Definition matches_arguments (signature : list Z) (arguments : option (list Z)) : bool :=
  match arguments with
  | None => true
  | Some a => match through_close signature with Some p => bool_decide (p = a) | None => false end
  end.

Section JniLoader.
Context (host : list hostcall -> hostcall -> answer) (guest : Z -> list Z -> Sv Jni -> option GuestResult * Sv Jni) (natives : hostcall -> Sv Jni -> Sv Jni).
Context (malloc_fn free_fn dlopen_fn dlsym_fn dlerror_fn thunk_base : Z) (declared : answer -> list DeclaredNativeMethod).

#[local] Notation svc := (svc Jni).
#[local] Notation backend := (backend host).
#[local] Notation find_symbol := (find_symbol_on_current host guest malloc_fn free_fn dlopen_fn dlsym_fn dlerror_fn).

(** The methods of one export; [inl] ends the load. *)
Fixpoint bind_methods (e cls : Z) (class method : list Z) (function : Z) (ms : list DeclaredNativeMethod) (r : JniLoadReport) : svc (JniLoadReport + JniLoadReport) :=
  match ms with
  | [] => mret (inr r)
  | m :: ms =>
      rc ← register_native host natives thunk_base e cls method (msignature m) function (mstatic m);
      if negb (rc =? 0) then mret (inl (with_error r (msg "RegisterNatives failed for " ++ class ++ msg "." ++ method ++ msignature m)))
      else bind_methods e cls class method function ms (count_bound r)
  end.

(** The export of a class that was found; the class reference is released on every path. *)
Definition bind_class (e : Z) (symbol : list Z) (d : Mangle.JniExport) (cls : Z) (methods : list DeclaredNativeMethod) (r : JniLoadReport) (l : JniLoader) : svc ((JniLoadReport + JniLoadReport) * JniLoader) :=
  let methods := List.filter (fun m => matches_arguments (msignature m) (bytes_of <$> Mangle.arguments d)) methods in
  result ← match methods with
           | [] => mret (inr (count_export r), log_unmatched_once l symbol)
           | _ =>
               '(function, symbol_error) ← find_symbol e (guest_handle r) symbol;
               if function =? 0 then mret (inl (with_error r (msg "guest dlsym failed for " ++ symbol ++ msg ": " ++ default [] symbol_error)), l)
               else
                 b ← bind_methods e cls (bytes_of (Mangle.class_name d)) (bytes_of (Mangle.method d)) function methods r;
                 mret (b, l)
           end;
  _ ← backend "delete_local_ref" [HInt e; HInt cls];
  mret result.

Definition bind_export (e : Z) (symbol : list Z) (d : Mangle.JniExport) (r : JniLoadReport) (l : JniLoader) : svc ((JniLoadReport + JniLoadReport) * JniLoader) :=
  a ← java host natives "find_declared_natives" [HInt e; HPath (bytes_of (Mangle.class_name d)); HPath (bytes_of (Mangle.method d)); match Mangle.arguments d with Some x => HPath (bytes_of x) | None => HNull end];
  match lookup_status (ret a) with
  | MissingClass => mret (inr (count_class r), log_missing_class_once l (bytes_of (Mangle.class_name d)))
  | Unresolvable => mret (inr (count_export r), log_unresolvable_once l symbol)
  | Found =>
      if out a 0 =? 0 then mret (inl (with_error r (msg "failed to inspect declared natives for " ++ bytes_of (Mangle.class_name d) ++ msg "." ++ bytes_of (Mangle.method d))), l)
      else bind_class e symbol d (out a 0) (declared a) r l
  | LookupError => mret (inl (with_error r (msg "failed to inspect declared natives for " ++ bytes_of (Mangle.class_name d) ++ msg "." ++ bytes_of (Mangle.method d))), l)
  end.

(** The loop over the exports: whether there is a [JNI_OnLoad]. *)
Fixpoint bind_exports (e : Z) (symbols : list (list ascii)) (has_onload : bool) (r : JniLoadReport) (l : JniLoader) : svc ((JniLoadReport + JniLoadReport * bool) * JniLoader) :=
  match symbols with
  | [] => mret (inr (r, has_onload), l)
  | s :: rest =>
      if bool_decide (s = JniNames.lit "JNI_OnLoad") then bind_exports e rest true r l
      else
        match Mangle.decode_jni_export s with
        | None => mret (inl (with_error r (msg "invalid JNI export name: " ++ bytes_of s)), l)
        | Some d =>
            '(b, l) ← bind_export e (bytes_of s) d r l;
            match b with inl r => mret (inl r, l) | inr r => bind_exports e rest has_onload r l end
        end
  end.

Definition run_onload (e : Z) (r : JniLoadReport) : svc (JniLoadReport + JniLoadReport) :=
  '(onload, symbol_error) ← find_symbol e (guest_handle r) (msg "JNI_OnLoad");
  if onload =? 0 then mret (inl (with_error r (msg "guest dlsym failed for JNI_OnLoad: " ++ default [] symbol_error)))
  else
    st ← get_own;
    result ← call_native host guest e "I"%char onload (fun _ l => Ret (Build_GuestCall [java_vm (api st); 0; 0; 0] [], l));
    match result with
    | None => mret (inl (with_error r (msg "guest JNI_OnLoad call failed")))
    | Some (g, _) =>
        check ← backend "exception_check" [HInt e];
        if negb (ret check =? 0) then mret (inl (with_error r (msg "guest JNI_OnLoad left a pending Java exception")))
        else
          let r := with_version r (s32 (res_r0 g)) in
          if negb (supported_version (jni_version r)) then mret (inl (with_error r (msg "guest JNI_OnLoad returned unsupported JNI version 0x" ++ hex8 (u32 (jni_version r)))))
          else mret (inr r)
    end.

Definition load_jni (e : Z) (file : input) (path : list Z) (guest_flags : Z) (l : JniLoader) : svc (JniLoadReport * JniLoader) :=
  symbols ← lift_svc (scan_elf32_jni_exports file);
  match status symbols with
  | Skipped | Error => mret (with_error JniLoadReport_init (msg "cannot scan JNI exports: " ++ msg (message symbols)), l)
  | Ok =>
      '(handle, error) ← load_library_on_current host guest malloc_fn free_fn dlopen_fn dlsym_fn dlerror_fn e path guest_flags;
      let r := with_error (with_handle JniLoadReport_init handle) (default [] error) in
      if handle =? 0 then mret (with_error r (msg "guest dlopen failed: " ++ rerror r), l)
      else
        '(b, l) ← bind_exports e (exports symbols) false r l;
        match b with
        | inl r => mret (r, l)
        | inr (r, false) => mret (with_ok r, l)
        | inr (r, true) => o ← run_onload e r; mret (match o with inl r => r | inr r => with_ok r end, l)
        end
  end.
End JniLoader.

(** ** What a load leaves behind *)

(** Thunk slots that are bound, all different. *)
Definition bound (s : Sv Jni) (binds : list (Z * NativeTarget)) : Prop := NoDup binds.*1 /\ Forall (fun p => slots_target (slots (own s)) p.1 = Some p.2) binds.

(** What became of an export. *)
Inductive outcome := NoClass | NoMatch | Bound (binds : list (Z * NativeTarget)).
Definition binds_of (o : outcome) : list (Z * NativeTarget) := match o with Bound b => b | _ => [] end.
Definition all_binds (os : list outcome) : list (Z * NativeTarget) := concat (map binds_of os).
Definition no_class (o : outcome) : bool := match o with NoClass => true | _ => false end.
Definition no_match (o : outcome) : bool := match o with NoMatch => true | _ => false end.
Definition how_many (f : outcome -> bool) (os : list outcome) : Z := Z.of_nat (length (List.filter f os)).

Section Loaded.
Context (host : list hostcall -> hostcall -> answer) (guest : Z -> list Z -> Sv Jni -> option GuestResult * Sv Jni) (natives : hostcall -> Sv Jni -> Sv Jni).
Context (malloc_fn free_fn dlopen_fn dlsym_fn dlerror_fn thunk_base : Z) (declared : answer -> list DeclaredNativeMethod).

#[local] Notation find_symbol := (find_symbol_on_current host guest malloc_fn free_fn dlopen_fn dlsym_fn dlerror_fn).

(** The methods [ms] of the class [cls], bound to the guest function [f] one after the other:
    each to a slot that was free and now runs [f] with the shorty of its signature, and Java
    was given the thunk of that slot, for that method, in the last call made. *)
Inductive methods_bound (e cls : Z) (meth : list Z) (f : Z) : list DeclaredNativeMethod -> Sv Jni -> Sv Jni -> list (Z * NativeTarget) -> Prop :=
| bound_none s : methods_bound e cls meth f [] s s []
| bound_one m ms s s1 s2 slot sh binds :
    Shorty.shorty_from_signature (chars (strip_fast (msignature m))) = Some sh ->
    slots_target (slots (own s)) slot = None ->
    slots_target (slots (own s1)) slot = Some {| guest_function := f; shorty := sh; is_static := mstatic m |} ->
    last (scalls s1) = Some {| h_name := "register_native"; h_args := [HInt e; HInt cls; HPath meth; HPath (strip_fast (msignature m)); HInt (native_thunk_address thunk_base slot)] |} ->
    methods_bound e cls meth f ms s1 s2 binds ->
    methods_bound e cls meth f (m :: ms) s s2 ((slot, {| guest_function := f; shorty := sh; is_static := mstatic m |}) :: binds).

(** What Java says of the natives an export names. *)
Definition natives_declared (e : Z) (d : Mangle.JniExport) : svc Jni answer :=
  java host natives "find_declared_natives" [HInt e; HPath (bytes_of (Mangle.class_name d)); HPath (bytes_of (Mangle.method d)); match Mangle.arguments d with Some x => HPath (bytes_of x) | None => HNull end].
Definition matching (d : Mangle.JniExport) (ms : list DeclaredNativeMethod) : list DeclaredNativeMethod := List.filter (fun m => matches_arguments (msignature m) (bytes_of <$> Mangle.arguments d)) ms.

(** An export that was dealt with: its class is missing; it cannot be resolved or Java
    declares no native it stands for; or every native it stands for is bound to what the
    guest's dlsym gave for it in the library [h].  The class reference is given back. *)
Inductive export_done (e h : Z) (symbol : list Z) (d : Mangle.JniExport) (s : Sv Jni) : outcome -> Sv Jni -> Prop :=
| done_missing a s1 : natives_declared e d s = Ret (a, s1) -> lookup_status (ret a) = MissingClass -> export_done e h symbol d s NoClass s1
| done_unresolvable a s1 : natives_declared e d s = Ret (a, s1) -> lookup_status (ret a) = Unresolvable -> export_done e h symbol d s NoMatch s1
| done_unmatched a b s1 s2 :
    natives_declared e d s = Ret (a, s1) -> lookup_status (ret a) = Found -> out a 0 <> 0 -> matching d (declared a) = [] ->
    backend host "delete_local_ref" [HInt e; HInt (out a 0)] s1 = Ret (b, s2) -> export_done e h symbol d s NoMatch s2
| done_bound a b f s1 s2 s3 s4 binds :
    natives_declared e d s = Ret (a, s1) -> lookup_status (ret a) = Found -> out a 0 <> 0 -> matching d (declared a) <> [] ->
    find_symbol e h symbol s1 = Ret ((f, None), s2) -> f <> 0 ->
    methods_bound e (out a 0) (bytes_of (Mangle.method d)) f (matching d (declared a)) s2 s3 binds ->
    backend host "delete_local_ref" [HInt e; HInt (out a 0)] s3 = Ret (b, s4) -> export_done e h symbol d s (Bound binds) s4.

(** The Java_ exports of the library, in order. *)
Inductive exports_done (e h : Z) : list (list ascii) -> Sv Jni -> list outcome -> Sv Jni -> Prop :=
| exports_none s : exports_done e h [] s [] s
| exports_onload symbols s os s' : exports_done e h symbols s os s' -> exports_done e h (JniNames.lit "JNI_OnLoad" :: symbols) s os s'
| exports_java x d symbols s o s1 os s' :
    x <> JniNames.lit "JNI_OnLoad" -> Mangle.decode_jni_export x = Some d -> export_done e h (bytes_of x) d s o s1 -> exports_done e h symbols s1 os s' -> exports_done e h (x :: symbols) s (o :: os) s'.

(** [JNI_OnLoad] of the library ran with the guest's VM, left no exception, and the version
    is the one it returned. *)
Definition onload_ran (e h version : Z) (s s' : Sv Jni) : Prop :=
  exists f g v c s1 s2, find_symbol e h (msg "JNI_OnLoad") s = Ret ((f, None), s1) /\ f <> 0 /\
    call_native host guest e "I"%char f (fun _ l => Ret (Build_GuestCall [java_vm (api (own s1)); 0; 0; 0] [], l)) s1 = Ret (Some (g, v), s2) /\
    backend host "exception_check" [HInt e] s2 = Ret (c, s') /\ ret c = 0 /\ version = s32 (res_r0 g).

(** A load that succeeded, from [s] to [s']. *)
Definition loaded (e : Z) (file : input) (path : list Z) (guest_flags : Z) (s s' : Sv Jni) (r : JniLoadReport) : Prop :=
  exists symbols s1 os s2,
    scan_elf32_jni_exports file = Ret symbols /\ status symbols = Ok /\
    load_library_on_current host guest malloc_fn free_fn dlopen_fn dlsym_fn dlerror_fn e path guest_flags s = Ret ((guest_handle r, None), s1) /\ guest_handle r <> 0 /\
    exports_done e (guest_handle r) (exports symbols) s1 os s2 /\
    bound_methods r = Z.of_nat (length (all_binds os)) /\ skipped_classes r = how_many no_class os /\ skipped_exports r = how_many no_match os /\ bound s' (all_binds os) /\
    (if bool_decide (JniNames.lit "JNI_OnLoad" ∈ exports symbols) then onload_ran e (guest_handle r) (jni_version r) s2 s' else s' = s2 /\ jni_version r = kJniVersion16) /\
    supported_version (jni_version r) = true /\ rerror r = [].
End Loaded.

(** A load that failed: there is a message, and it is not about the name of an export. *)
Definition failed (r : JniLoadReport) : Prop := ok r = false /\ rerror r <> [] /\ take 7 (rerror r) <> msg "invalid".

Lemma failed_with r m : ok r = false -> m <> [] -> take 7 m <> msg "invalid" -> failed (with_error r m).
Proof. intros H1 H2 H3. exact (conj H1 (conj H2 H3)). Qed.

(** The report after an export, and after them all. *)
Definition counted (r : JniLoadReport) (o : outcome) : JniLoadReport :=
  match o with NoClass => count_class r | NoMatch => count_export r | Bound b => Nat.iter (length b) count_bound r end.

Lemma count_bounds_ok n r : let r' := Nat.iter n count_bound r in
  ok r' = ok r /\ guest_handle r' = guest_handle r /\ jni_version r' = jni_version r /\ rerror r' = rerror r /\ bound_methods r' = bound_methods r + Z.of_nat n /\ skipped_classes r' = skipped_classes r /\ skipped_exports r' = skipped_exports r.
Proof.
  cbv zeta. induction n as [|n (H1 & H2 & H3 & H4 & H5 & H6 & H7)]; [cbn; split_and!; try done; lia|]. rewrite Nat.iter_succ. cbn [count_bound ok guest_handle jni_version rerror bound_methods skipped_classes skipped_exports]. split_and!; try done. lia.
Qed.

Lemma counted_ok os : forall r, let r' := fold_left counted os r in
  ok r' = ok r /\ guest_handle r' = guest_handle r /\ jni_version r' = jni_version r /\ rerror r' = rerror r /\
  bound_methods r' = bound_methods r + Z.of_nat (length (all_binds os)) /\ skipped_classes r' = skipped_classes r + how_many no_class os /\ skipped_exports r' = skipped_exports r + how_many no_match os.
Proof.
  unfold all_binds, how_many. induction os as [|o os IH]; intros r; cbn [fold_left map concat List.filter length]; [split_and!; try done; cbn; lia|]. destruct (IH (counted r o)) as (H1 & H2 & H3 & H4 & H5 & H6 & H7). clear IH.
  assert (ok (counted r o) = ok r /\ guest_handle (counted r o) = guest_handle r /\ jni_version (counted r o) = jni_version r /\ rerror (counted r o) = rerror r /\
    bound_methods (counted r o) = bound_methods r + Z.of_nat (length (binds_of o)) /\ skipped_classes (counted r o) = skipped_classes r + Z.b2z (no_class o) /\ skipped_exports (counted r o) = skipped_exports r + Z.b2z (no_match o)) as (K1 & K2 & K3 & K4 & K5 & K6 & K7).
  { destruct o as [| |b]; cbn; [split_and!; try done; lia..|]. pose proof (count_bounds_ok (length b) r) as K. cbv zeta in K. destruct K as (? & ? & ? & ? & ? & ? & ?). split_and!; try done; lia. }
  rewrite H1, H2, H3, H4, H5, H6, H7, K5, K6, K7, length_app. split_and!; try done; [lia|destruct o; cbn; lia..].
Qed.

Section LoadSound.
Context (known : gset Z) (host : list hostcall -> hostcall -> answer) (guest : Z -> list Z -> Sv Jni -> option GuestResult * Sv Jni) (natives : hostcall -> Sv Jni -> Sv Jni).
Context (malloc_fn free_fn dlopen_fn dlsym_fn dlerror_fn thunk_base : Z) (declared : answer -> list DeclaredNativeMethod).
Context (Hhost : kernel_ok host) (Hguest : guest_keeps known malloc_fn guest) (Hnatives : natives_keep known natives).

#[local] Notation from := (from known).
#[local] Notation loader_ok := (wp_loader_operation known host guest malloc_fn Hhost Hguest free_fn dlopen_fn dlsym_fn dlerror_fn).
#[local] Notation methods_bound := (methods_bound thunk_base).
#[local] Notation export_done := (export_done host guest natives malloc_fn free_fn dlopen_fn dlsym_fn dlerror_fn thunk_base declared).
#[local] Notation exports_done := (exports_done host guest natives malloc_fn free_fn dlopen_fn dlsym_fn dlerror_fn thunk_base declared).
#[local] Notation onload_ran := (onload_ran host guest malloc_fn free_fn dlopen_fn dlsym_fn dlerror_fn).
#[local] Notation loaded := (loaded host guest natives malloc_fn free_fn dlopen_fn dlsym_fn dlerror_fn thunk_base declared).

Ltac args_ok := repeat (apply Forall_cons_2; [exact I|]); apply Forall_nil_2.
Ltac load_fails Hr := apply failed_with; [by rewrite ?Hr|done|by vm_compute].

Lemma bound_from s s' binds : from s s' -> bound s binds -> bound s' binds.
Proof. intros [_ Hk] [Hn Hf]. split; [done|]. eapply Forall_impl; [exact Hf|]. intros p Hp. by apply (k_slots _ _ Hk). Qed.

(** One more method: its slot was free. *)
Lemma bound_more s s' slot t b : from s s' -> bound s b -> slots_target (slots (own s)) slot = None -> slots_target (slots (own s')) slot = Some t -> bound s' (b ++ [(slot, t)]).
Proof.
  intros Hs [Hn Hf] Hnone Hsome. destruct (bound_from s s' b Hs (conj Hn Hf)) as [_ Hf']. split; [|by apply Forall_app_2; [|apply Forall_singleton]]. rewrite fmap_app. apply NoDup_app. split_and!; [done| |by apply NoDup_singleton].
  intros i (p & -> & Hp)%list_elem_of_fmap Hi%list_elem_of_singleton. cbn in Hi. rewrite Forall_forall in Hf. specialize (Hf p Hp). rewrite Hi, Hnone in Hf. done.
Qed.

(** What a part of the load gives: the outcome [o] counted, with its slots next to those
    bound before, or the end of the load. *)
Definition part (s0 : Sv Jni) (r : JniLoadReport) (R : outcome -> Sv Jni -> Prop) (b : JniLoadReport + JniLoadReport) (s : Sv Jni) : Prop :=
  from s0 s /\ match b with inl r' => failed r' | inr r' => exists o, r' = counted r o /\ R o s /\ forall b0, bound s0 b0 -> bound s (b0 ++ binds_of o) end.

Lemma wp_bind_methods e cls class meth f ms : forall r s, safe_state known s -> ok r = false ->
  wp True (bind_methods host natives thunk_base e cls class meth f ms r) s (part s r (fun o s' => exists b, o = Bound b /\ methods_bound e cls meth f ms s s' b)).
Proof.
  induction ms as [|m ms IH]; intros r s Hs Hr; cbn [bind_methods].
  - apply wp_ret. split; [by apply from_refl|]. exists (Bound []). split; [done|]. split; [exists []; split; [done|constructor]|]. intros b0 Hb. cbn. by rewrite app_nil_r.
  - eapply wp_bind, (wp_register_native known host natives thunk_base Hhost Hnatives); [by apply from_refl|]. intros rc s1 Hs1 Hok _. destruct (Z.eqb_spec rc 0) as [E|_]; cbn [negb]; [|apply wp_ret; split; [done|load_fails Hr]].
    destruct (Hok E) as (sh & slot & Esh & _ & Hnone & Hsome & Hlast). eapply wp_mono; [apply (IH (count_bound r)); [apply Hs1|done]|]. intros b s2 [Hs2 Hb]. split; [by eapply from_trans|]. destruct b as [|r']; [done|].
    destruct Hb as (o & -> & (b & -> & Hb) & Hmore). eexists (Bound ((slot, _) :: b)). split; [cbn [counted length]; by rewrite Nat.iter_succ_r|]. split; [eexists; split; [done|]; by econstructor|].
    intros b0 H0. cbn [binds_of]. replace (b0 ++ _) with ((b0 ++ [(slot, {| guest_function := f; shorty := sh; is_static := mstatic m |})]) ++ b) by (by rewrite <- app_assoc). apply (Hmore _). by eapply bound_more.
Qed.

(** Giving the class reference back at the end. *)
Lemma wp_release_class e cls s0 s r (R R' : outcome -> Sv Jni -> Prop) b (l : JniLoader) :
  part s0 r R b s -> (forall o a s', R o s -> backend host "delete_local_ref" [HInt e; HInt cls] s = Ret (a, s') -> R' o s') ->
  wp True (_ ← backend host "delete_local_ref" [HInt e; HInt cls]; mret (b, l)) s (fun p s' => part s0 r R' p.1 s').
Proof.
  intros [Hs Hb] HR. apply wp_bind. eapply wp_mono; [apply wp_eq, (wp_call known host Hhost _ _ s0 _ (fun _ s' => from s0 s' /\ own s' = own s)); [done|args_ok|done]|]. intros a s' (E & Hs' & Eo). apply wp_ret. split; [done|]. destruct b as [|r']; [done|].
  destruct Hb as (o & Er & Ho & Hmore). exists o. split; [done|]. split; [by eapply HR|]. intros b0 H0. unfold bound. rewrite Eo. by apply Hmore.
Qed.

Lemma wp_bind_class e symbol d cls ms r l s : safe_state known s -> ok r = false ->
  wp True (bind_class host guest natives malloc_fn free_fn dlopen_fn dlsym_fn dlerror_fn thunk_base e symbol d cls ms r l) s
    (fun p s' => part s r (fun o s' => match o with
       | NoClass => False
       | NoMatch => matching d ms = [] /\ exists b, backend host "delete_local_ref" [HInt e; HInt cls] s = Ret (b, s')
       | Bound binds => matching d ms <> [] /\ exists f b s1 s2, find_symbol_on_current host guest malloc_fn free_fn dlopen_fn dlsym_fn dlerror_fn e (guest_handle r) symbol s = Ret ((f, None), s1) /\ f <> 0 /\
           methods_bound e cls (bytes_of (Mangle.method d)) f (matching d ms) s1 s2 binds /\ backend host "delete_local_ref" [HInt e; HInt cls] s2 = Ret (b, s')
       end) p.1 s').
Proof.
  intros Hs Hr. cbv [bind_class]. fold (matching d ms). apply wp_bind. pose proof (from_refl known s Hs) as Hf. destruct (matching d ms) as [|m fs] eqn:Em.
  - apply wp_ret. eapply (wp_release_class _ _ _ _ _ (fun o s' => o = NoMatch /\ s' = s)); [|intros o b s' [-> _] E; by eauto]. split; [done|]. exists NoMatch. split_and!; [done..|]. intros b0 H0. cbn. by rewrite app_nil_r.
  - apply wp_bind. eapply wp_mono; [apply wp_eq; by apply loader_ok|]. intros [f err] s1 (Esym & Hs1 & (_ & Herr) & _). cbn [fst snd] in *. destruct (Z.eqb_spec f 0) as [|Hfz].
    + apply wp_ret. eapply (wp_release_class _ _ _ _ _ (fun _ _ => False)); [|done]. split; [done|]. load_fails Hr.
    + assert (err = None) as -> by (destruct err; [exfalso; by apply Hfz, Herr|done]). apply wp_bind. eapply wp_mono; [apply (wp_bind_methods _ _ _ _ _ _ r); [apply Hs1|done]|].
      intros b s2 [Hs2 Hb]. apply wp_ret. eapply (wp_release_class _ _ _ _ _ (fun o s' => s' = s2 /\ exists bs, o = Bound bs /\ methods_bound e cls (bytes_of (Mangle.method d)) f (m :: fs) s1 s2 bs)).
      * split; [by eapply from_trans|]. destruct b as [|r']; [done|]. destruct Hb as (o & Er & Ho & Hmore). exists o. split_and!; [done..|]. intros b0 H0. apply Hmore. by eapply bound_from.
      * intros o a s' (_ & bs & -> & Hbs) E. split; [done|]. by exists f, a, s1, s2.
Qed.

Lemma wp_bind_export e symbol d r l s : safe_state known s -> ok r = false ->
  wp True (bind_export host guest natives malloc_fn free_fn dlopen_fn dlsym_fn dlerror_fn thunk_base declared e symbol d r l) s (fun p s' => part s r (export_done e (guest_handle r) symbol d s) p.1 s').
Proof.
  intros Hs Hr. unfold bind_export. fold (natives_declared host natives e d). apply wp_bind. eapply wp_mono; [apply wp_eq, (JniSound.wp_java known host natives Hhost Hnatives _ _ s _ (fun _ s' => from s s')); [by apply from_refl|by destruct (Mangle.arguments d); args_ok|done]|].
  intros a s1 [Ea Hs1]. assert (forall b0, bound s b0 -> bound s1 (b0 ++ [])) as Hsame by (intros b0 H0; rewrite app_nil_r; by eapply bound_from). destruct (lookup_status (ret a)) eqn:El.
  - destruct (Z.eqb_spec (out a 0) 0) as [|Hc]; [apply wp_ret; split; [done|load_fails Hr]|]. eapply wp_mono; [apply wp_bind_class; [apply Hs1|done]|]. intros [b l'] s2 [Hs2 Hb]. split; [by eapply from_trans|]. cbn [fst] in *. destruct b as [|r']; [done|].
    destruct Hb as (o & Er & Ho & Hmore). exists o. split; [done|]. split; [|intros b0 H0; apply Hmore; by eapply bound_from]. destruct o as [| |bs]; [done| |].
    + destruct Ho as (Em & b & Eb). by eapply done_unmatched.
    + destruct Ho as (Em & f & b & s3 & s4 & Esym & Hfz & Hbs & Eb). by eapply done_bound.
  - apply wp_ret. split; [done|]. exists NoClass. split_and!; [done|by eapply done_missing|done].
  - apply wp_ret. split; [done|]. exists NoMatch. split_and!; [done|by eapply done_unresolvable|done].
  - apply wp_ret. split; [done|]. load_fails Hr.
Qed.

Lemma wp_bind_exports e symbols : forall has_onload r l s, safe_state known s -> Forall (fun name => wanted name = true) symbols -> ok r = false ->
  wp True (bind_exports host guest natives malloc_fn free_fn dlopen_fn dlsym_fn dlerror_fn thunk_base declared e symbols has_onload r l) s
    (fun p s' => from s s' /\ match p.1 with
       | inl r => failed r
       | inr (r', on) => on = has_onload || bool_decide (JniNames.lit "JNI_OnLoad" ∈ symbols) /\ exists os, r' = fold_left counted os r /\ exports_done e (guest_handle r) symbols s os s' /\ forall b0, bound s b0 -> bound s' (b0 ++ all_binds os)
       end).
Proof.
  induction symbols as [|x symbols IH]; intros has_onload r l s Hs Hw Hr; cbn [bind_exports].
  - apply wp_ret. split; [by apply from_refl|]. split; [by rewrite orb_false_r|]. exists []. split_and!; [done|constructor|]. intros b0 H0. unfold all_binds. cbn. by rewrite app_nil_r.
  - apply Forall_cons in Hw as [Hx Hw]. destruct (decide (x = JniNames.lit "JNI_OnLoad")) as [Ex|Ex]; [rewrite (bool_decide_true (x = _)) by done|rewrite (bool_decide_false (x = _)) by done].
    + subst x. eapply wp_mono; [by apply IH|]. intros [b l'] s' [Hs' Hb]. split; [done|]. cbn [fst] in *. destruct b as [|[r' on]]; [done|]. destruct Hb as (-> & os & E & Hd & Hmore). split; [rewrite (bool_decide_true (_ ∈ _ :: _)) by left; by rewrite orb_true_r|].
      exists os. split_and!; [done|by constructor|done].
    + unfold wanted in Hx. rewrite bool_decide_false in Hx by done. cbn [orb] in Hx. apply andb_true_iff in Hx as [_ Hx]. apply bool_decide_eq_true in Hx as [d Hd]. rewrite Hd.
      apply wp_bind. eapply wp_mono; [by apply wp_bind_export|]. intros [[r'|r'] l'] s1 [Hs1 Hb]; [by apply wp_ret|]. cbn [fst] in Hb. destruct Hb as (o & -> & Ho & Hmore).
      destruct (counted_ok [o] r) as (Eok & Eh & _). cbn [fold_left] in Eok, Eh. eapply wp_mono; [apply (IH has_onload (counted r o) l'); [apply Hs1|done|by rewrite Eok]|].
      intros [b l2] s2 [Hs2 Hb2]. split; [by eapply from_trans|]. cbn [fst] in *. destruct b as [|[r2 on]]; [done|]. destruct Hb2 as (-> & os & E & Hds & Hmore2). rewrite Eh in Hds. split.
      * f_equal. apply bool_decide_ext. rewrite elem_of_cons. split; [by right|]. by intros [?|?].
      * exists (o :: os). split_and!; [done|by econstructor|]. intros b0 H0. change (all_binds (o :: os)) with (binds_of o ++ all_binds os). rewrite app_assoc. by apply Hmore2, Hmore.
Qed.

Lemma wp_run_onload e r s : safe_state known s -> e <> 0 -> ok r = false ->
  wp True (run_onload host guest malloc_fn free_fn dlopen_fn dlsym_fn dlerror_fn e r) s
    (fun o s' => from s s' /\ match o with inl r => failed r | inr r' => exists v, r' = with_version r v /\ supported_version v = true /\ onload_ran e (guest_handle r) v s s' end).
Proof.
  intros Hs He Hr. apply wp_bind. eapply wp_mono; [apply wp_eq; by apply loader_ok|]. intros [f err] s1 (Esym & Hs1 & (_ & Herr) & _). cbn [fst snd] in *. destruct (Z.eqb_spec f 0) as [|Hfz]; [apply wp_ret; split; [done|load_fails Hr]|].
  assert (err = None) as -> by (destruct err; [exfalso; by apply Hfz, Herr|done]).
  apply wp_bind, wp_get_own, wp_bind. eapply wp_mono; [apply wp_eq, (wp_call_native known host guest malloc_fn Hhost Hguest); [apply Hs1|done|]|].
  { intros ge l Hl Hf. split; [exact Hl|done]. }
  intros o s2 (Ecall & [Hs2 _] & _). pose proof (from_trans known _ _ _ Hs1 Hs2) as H12. destruct o as [[g v]|]; [|apply wp_ret; split; [done|load_fails Hr]].
  apply wp_bind. eapply wp_mono; [apply wp_eq, (wp_call known host Hhost _ _ s _ (fun _ s' => from s s')); [done|args_ok|done]|]. intros c s3 [Ec Hs3]. destruct (Z.eqb_spec (ret c) 0) as [Ez|]; cbn [negb]; [|apply wp_ret; split; [done|load_fails Hr]]. cbv zeta.
  destruct (supported_version _) eqn:Ev; cbn [negb]; [|apply wp_ret; split; [done|load_fails Hr]]. apply wp_ret. split; [done|]. eexists. split; [done|]. split; [exact Ev|]. by exists f, g, v, c, s1, s2.
Qed.

(** C28: loading a JNI library from any file, in a bridge that keeps its promises and relies
    on guest code and natives as its calls do ([guest_keeps], [natives_keep]): unless it
    aborts, the bridge keeps them, and the report is exact.  A success means that the file scanned, the guest's
    dlopen gave the handle, and every Java_ export of the file in turn was counted as skipped
    because Java says its class is missing or because it cannot be resolved or no declared
    native matches it, or had every declared native that matches it bound to a thunk slot,
    free before and live and different from all others afterwards, that runs the function the
    guest's dlsym gave for that very symbol, with the thunk of that slot registered with Java
    for that class, method and signature; the counts in the report are those numbers.  A
    library that exports JNI_OnLoad had it found, run with the guest's VM, and checked for an
    exception after all exports were bound, and the version reported is what it returned,
    one the bridge supports; without it the version is 1.6.  A failure carries a message,
    which is never about the name of an export, since the scanner reports decodable names
    only. *)
Theorem jni_load_sound e file path guest_flags l s :
  safe_state known s -> e <> 0 -> match file with Contents _ bytes => bytes_ok bytes | _ => True end ->
  wp True (load_jni host guest natives malloc_fn free_fn dlopen_fn dlsym_fn dlerror_fn thunk_base declared e file path guest_flags l) s
    (fun p s' => from s s' /\ if ok p.1 then loaded e file path guest_flags s s' p.1 else failed p.1).
Proof.
  intros Hs He Hfile. assert (exists symbols, scan_elf32_jni_exports file = Ret symbols /\ Forall (fun name => wanted name = true) (exports symbols)) as (symbols & Hsc & Hw).
  { destruct file as [m|m|g n m|g bytes]; [by eexists..| |]; [cbn; destruct (_ || _); by eexists|]. destruct (scan_exports_returns g bytes Hfile) as (r & E & _ & _ & _ & Hw). by exists r. }
  assert (forall r (s' : Sv Jni), from s s' -> failed r -> from s s' /\ (if ok r then loaded e file path guest_flags s s' r else failed r)) as Hfail by (intros r s' Hs' Hr; split; [done|]; by rewrite (proj1 Hr)).
  apply wp_bind, wp_lift. rewrite Hsc. cbn [runs]. destruct (status symbols) eqn:Est; [|apply wp_ret, Hfail; [by apply from_refl|apply failed_with; [done|done|by vm_compute]]..].
  apply wp_bind. eapply wp_mono; [apply wp_eq; by apply loader_ok|]. intros [h err] s1 (Eload & Hs1 & (_ & Herr) & _). cbn [fst snd] in *. cbv zeta. destruct (Z.eqb_spec h 0) as [|Hh]; [apply wp_ret, Hfail; [done|apply failed_with; [done|done|by vm_compute]]|].
  assert (err = None) as -> by (destruct err; [exfalso; by apply Hh, Herr|done]). cbn [default]. apply wp_bind. eapply wp_mono; [apply (wp_bind_exports e (exports symbols) false _ l); [apply Hs1|done|done]|].
  intros [[r|[r on]] l'] s2 [Hs2 Hb]; cbn [fst] in Hb; pose proof (from_trans known _ _ _ Hs1 Hs2) as H12; [by apply wp_ret, Hfail|]. destruct Hb as (Eon & os & Er & Hd & Hmore). cbn [orb] in Eon.
  pose proof (counted_ok os (with_error (with_handle JniLoadReport_init h) [])) as Hc. cbv zeta in Hc. rewrite <- Er in Hc. cbn [with_error with_handle JniLoadReport_init ok guest_handle jni_version rerror bound_methods skipped_classes skipped_exports] in *.
  destruct Hc as (C1 & C2 & C3 & C4 & C5 & C6 & C7). assert (bound s2 (all_binds os)) as Hbd by (apply (Hmore []); split; constructor). destruct on.
  - apply wp_bind. eapply wp_mono; [apply wp_run_onload; [apply Hs2|done|done]|]. intros [r'|r'] s3 [Hs3 Hr]; apply wp_ret; pose proof (from_trans known _ _ _ H12 Hs3) as H13; [by apply Hfail|]. destruct Hr as (v & -> & Hv & Hon). split; [done|]. cbn [fst ok with_ok with_version].
    exists symbols, s1, os, s2. cbn. rewrite <- Eon, C2, C4, C5, C6, C7. rewrite C2 in Hon. destruct (bound_from _ _ _ Hs3 Hbd). by split_and!.
  - apply wp_ret. split; [done|]. cbn [fst ok with_ok]. exists symbols, s1, os, s2. cbn. rewrite <- Eon, C2, C3, C4, C5, C6, C7. destruct Hbd. by split_and!.
Qed.
End LoadSound.

(** ** A run *)

(** A Java side that finds every class, with one native [int m(long)], and a guest whose
    symbols are at 0x8000 and return JNI 1.6. *)
Definition load_java (log : list hostcall) (c : hostcall) : answer := {| ret := 0; errno := 0; guest_writes := []; outs := [33] |}.
Definition load_guest (f : Z) (args : list Z) (s : Sv Jni) : option GuestResult * Sv Jni :=
  (Some {| res_r0 := if f =? 1 then if accessible (smem s) 0x10100 (nth 0 args 0) (Z.lor kPageRead kPageWrite) then 0x10100 else 0 else if f =? 0x8000 then kJniVersion16 else 0x8000; res_r1 := 0 |}, s).
Definition load_declared (a : answer) : list DeclaredNativeMethod := [{| msignature := msg "(J)I"; mstatic := true |}].

Lemma load_guest_ok : guest_keeps ∅ 1 load_guest.
Proof.
  split.
  - intros f args s Hs. apply (from_disciplined ∅ s s), from_refl, Hs.
  - intros f args s r _ [= <-]. cbn. split; [|done]. destruct (f =? 1); [by destruct (accessible _ _ _ _)|by destruct (_ =? _)].
  - intros f args s Hs. apply Hs.
  - intros args s r _ [= <-] Hn. cbn in *. by destruct (accessible (smem s) 0x10100 _ _) eqn:E.
Qed.

Lemma jni_load_sound_witness :
  exists p s, load_jni load_java load_guest sample_quiet 1 2 3 4 6 0x100000000 load_declared 5 (Contents true ElfSymbols.sample_library) (msg "/lib/libx.so") 2 JniLoader_init sample_jni = Ret (p, s) /\
    (ok p.1 && (bound_methods p.1 =? 1)) = true /\ from ∅ sample_jni s /\ 
    if ok p.1 then loaded load_java load_guest sample_quiet 1 2 3 4 6 0x100000000 load_declared 5 (Contents true ElfSymbols.sample_library) (msg "/lib/libx.so") 2 sample_jni s p.1 else failed p.1.
Proof.
  apply (wp_run _ _ _ _ (fun p => ok p.1 && (bound_methods p.1 =? 1)) (jni_load_sound ∅ load_java load_guest sample_quiet 1 2 3 4 6 0x100000000 load_declared
    ltac:(intros log c a bs H; apply elem_of_nil in H; destruct H) load_guest_ok sample_quiet_ok 5 (Contents true ElfSymbols.sample_library) (msg "/lib/libx.so") 2 JniLoader_init sample_jni sample_jni_safe ltac:(discriminate) ElfSymbols.sample_library_bytes)).
  vm_compute. reflexivity.
Defined.
