(* ===== verification/ProxyRuntime.v ===== *)
(** * The proxy runtime

    [core/src/jni/proxy_runtime.cpp]: ART loads a proxy library in place of each arm32
    library of a plugin, and the proxy's [JNI_OnLoad] asks [ProxyRuntime::on_proxy_loaded]
    to load the real one.  The process activates one plugin or installed package, starts the
    guest runtime once, and remembers the outcome of every proxy by its canonical path.

    Paths are lists of bytes; what the file system answers is the record [Files], which may
    change from call to call.  The engine ([ProxyLoadEngine], implemented by [JniLoader] and
    [LibraryRuntime]) is asked through calls that end with a step of their own, since other
    threads run meanwhile and the library being loaded may load others on the same thread:
    the state keeps a stack of loads per thread.  A step is one section under the mutex. *)

From stdpp Require Import numbers list gmap strings.
From S2P Require Import Prelude Bytes Kernel Syscalls ProcFiles Paths.
Local Open Scope Z_scope.

#[local] Notation text := (list Z).

Definition kMaxTargetSdk : Z := 10000.
Definition kRestartHint : text := lit "restart the :guest process to change plugins".
Definition supported_art_version (version : Z) : bool := (version =? 0x00010002) || (version =? 0x00010004) || (version =? 0x00010006).

Record Files := { real_path : text -> text + text; regular : text -> bool; is_dir : text -> bool }.

(** ** Paths *)

Definition split (path : text) : list text := if 1 <=? size path then split_on slash (drop 1 path) else [].

Definition join (parts : list text) (count : nat) : text :=
  let out := concat (map (fun p => slash :: p) (take count parts)) in if bool_decide (out = []) then [slash] else out.

Definition is_library_name (name : text) : bool := (6 <? size name) && starts_with name (lit "lib") && ends_with name (lit ".so") && negb (bool_decide (slash ∈ name)).

(** [rfind('/')]: what precedes and what follows the last slash. *)
Fixpoint split_last (s : text) : option (text * text) :=
  match s with
  | [] => None
  | c :: rest => match split_last rest with Some (a, b) => Some (c :: a, b) | None => if c =? slash then Some ([], rest) else None end
  end.
Definition parent_of (path : text) : text := match split_last path with Some (c :: a, _) => c :: a | _ => [slash] end.
Definition base_name (path : text) : text := match split_last path with Some (_, b) => b | None => path end.

Definition hex_version (version : Z) : text := lit "0x" ++ hex8 (u32 version).

Definition canonical_path (fs : Files) (path : text) : text + text :=
  match real_path fs path with inr p => inr p | inl strerror => inl (lit "cannot resolve " ++ path ++ lit ": " ++ strerror) end.

Record ProxyLocation := { proxy : text; files_dir : text; plugin_root : text; package : text; library : text; guest_library : text }.

(** [parts[n - i]], for parts long enough. *)
Definition from_end (parts : list text) (i : nat) : text := nth (length parts - i) parts [].

Definition parse_proxy_path (p : text) : text + ProxyLocation :=
  let fail (why : text) : text + ProxyLocation := inl (lit "proxy path " ++ p ++ lit " is not <files>/plugins/<package>/proxy/lib<name>.so: " ++ why) in
  if negb (bool_decide (head p = Some slash)) then fail (lit "not absolute")
  else
    let parts := split p in
    if existsb (fun part => bool_decide (part = []) || bool_decide (part = lit ".") || bool_decide (part = lit "..")) parts then fail (lit "not canonical")
    else if (length parts <? 5)%nat then fail (lit "too short")
    else
      let n := length parts in
      let file := from_end parts 1 in
      if negb (bool_decide (from_end parts 2 = lit "proxy")) then fail (lit "not in a proxy directory")
      else if negb (bool_decide (from_end parts 4 = lit "plugins")) then fail (lit "not under a plugins directory")
      else if (size file <=? 6) || negb (bool_decide (take 3 file = lit "lib")) || negb (bool_decide (drop (length file - 3) file = lit ".so")) then fail (lit "file name is not lib<name>.so")
      else
        let root := join parts (n - 2) in
        inr {| proxy := p; files_dir := join parts (n - 4); plugin_root := root; package := from_end parts 3; library := file; guest_library := root ++ lit "/lib/" ++ file |}.

(** ** The guest runtime *)

Record GuestRuntimeLayout := { sysroot : text; zbhost : text; guest_lib_dir : text }.

Definition resolve_guest_runtime_layout (fs : Files) (files : text) : text + GuestRuntimeLayout :=
  let runtime := files ++ lit "/zb" in
  let layout := {| sysroot := runtime ++ lit "/sysroot"; zbhost := runtime ++ lit "/guest/zbhost"; guest_lib_dir := runtime ++ lit "/guest/lib" |} in
  let required := [zbhost layout; guest_lib_dir layout ++ lit "/libzbcompat.so"; guest_lib_dir layout ++ lit "/libzbjni.so"; sysroot layout ++ lit "/system/bin/linker"] in
  match list_find (fun p => regular fs p = false) required with
  | Some (_, p) => inl (lit "guest runtime file " ++ p ++ lit " is missing; the launcher runtime assets are not installed")
  | None => inr layout
  end.

Record LibraryRuntimeOptions := { o_zbhost : text; o_sysroot : text; o_target_sdk : Z; o_environment : list text; o_preload : text; o_ready_timeout : Z }.
Definition LibraryRuntimeOptions_init : LibraryRuntimeOptions := {| o_zbhost := []; o_sysroot := []; o_target_sdk := 0; o_environment := []; o_preload := []; o_ready_timeout := 10000 |}.

Definition guest_runtime_options (fs : Files) (layout : GuestRuntimeLayout) (root : text) (target_sdk : Z) : LibraryRuntimeOptions :=
  let search := guest_lib_dir layout ++ lit ":" ++ root ++ lit "/lib" in
  let candidates := map (fun d => sysroot layout ++ d) [lit "/system/lib"; lit "/system_ext/lib"; lit "/product/lib"; lit "/vendor/lib"; lit "/odm/lib"] in
  let search := search ++ concat (map (fun c => if is_dir fs c then lit ":" ++ c else []) candidates) in
  {| o_zbhost := zbhost layout; o_sysroot := sysroot layout; o_target_sdk := target_sdk; o_environment := [lit "LD_LIBRARY_PATH=" ++ search]; o_preload := lit "libzbjni.so"; o_ready_timeout := 10000 |}.

(** ** State *)

Inductive LoadState := Loading | Loaded | Failed.
Inductive StartState := NotStarted | Starting | Started | StartFailed.
Record Entry := { state : LoadState; owner : Z; jni_version : Z; error : text }.
Record ProxyLoadResult := { ok : bool; version : Z; message : text }.

Record ProxyRuntime := {
  active_ : bool;
  installed_ : bool;
  plugin_root_ : text;
  native_lib_dir_ : text;
  installed_guest_lib_dir_ : text;
  target_sdk_ : Z;
  options_ : LibraryRuntimeOptions;
  start_state_ : StartState;
  start_error_ : text;
  entries_ : gmap text Entry;
  last_error_ : text;
}.

Definition ProxyRuntime_init : ProxyRuntime :=
  {| active_ := false; installed_ := false; plugin_root_ := []; native_lib_dir_ := []; installed_guest_lib_dir_ := []; target_sdk_ := 0; options_ := LibraryRuntimeOptions_init;
     start_state_ := NotStarted; start_error_ := []; entries_ := ∅; last_error_ := [] |}.

Definition with_entry (r : ProxyRuntime) (key : text) (e : Entry) : ProxyRuntime :=
  {| active_ := active_ r; installed_ := installed_ r; plugin_root_ := plugin_root_ r; native_lib_dir_ := native_lib_dir_ r; installed_guest_lib_dir_ := installed_guest_lib_dir_ r; target_sdk_ := target_sdk_ r;
     options_ := options_ r; start_state_ := start_state_ r; start_error_ := start_error_ r; entries_ := <[key := e]> (entries_ r); last_error_ := last_error_ r |}.
Definition with_last_error (r : ProxyRuntime) (e : text) : ProxyRuntime :=
  {| active_ := active_ r; installed_ := installed_ r; plugin_root_ := plugin_root_ r; native_lib_dir_ := native_lib_dir_ r; installed_guest_lib_dir_ := installed_guest_lib_dir_ r; target_sdk_ := target_sdk_ r;
     options_ := options_ r; start_state_ := start_state_ r; start_error_ := start_error_ r; entries_ := entries_ r; last_error_ := e |}.
Definition with_start (r : ProxyRuntime) (s : StartState) (e : text) : ProxyRuntime :=
  {| active_ := active_ r; installed_ := installed_ r; plugin_root_ := plugin_root_ r; native_lib_dir_ := native_lib_dir_ r; installed_guest_lib_dir_ := installed_guest_lib_dir_ r; target_sdk_ := target_sdk_ r;
     options_ := options_ r; start_state_ := s; start_error_ := e; entries_ := entries_ r; last_error_ := last_error_ r |}.
Definition activated (r : ProxyRuntime) (installed : bool) (root native guest_libs : text) (sdk : Z) (o : LibraryRuntimeOptions) : ProxyRuntime :=
  {| active_ := true; installed_ := installed; plugin_root_ := root; native_lib_dir_ := native; installed_guest_lib_dir_ := guest_libs; target_sdk_ := sdk;
     options_ := o; start_state_ := start_state_ r; start_error_ := start_error_ r; entries_ := entries_ r; last_error_ := last_error_ r |}.

(** ** Activation *)

(** [bound] is what [bind_class_loader] answers; the error when it refuses. *)
Definition activate_plugin (fs : Files) (bound : option text) (plugin_root : text) (target_sdk class_loader : Z) (r : ProxyRuntime) : text + ProxyRuntime :=
  if (target_sdk =? 0) || (kMaxTargetSdk <? target_sdk) then inl (lit "invalid plugin targetSdk " ++ dec target_sdk)
  else if class_loader =? 0 then inl (lit "the plugin class loader is null")
  else
    match canonical_path fs plugin_root with
    | inl e => inl (lit "plugin root: " ++ e)
    | inr root =>
        if active_ r && installed_ r then inl (lit "this process already has an installed-app runtime")
        else if active_ r && (negb (bool_decide (root = plugin_root_ r)) || negb (target_sdk =? target_sdk_ r)) then
          inl (lit "this :guest process already runs plugin " ++ plugin_root_ r ++ lit " (targetSdk " ++ dec (target_sdk_ r) ++ lit "); cannot activate " ++ root ++ lit " (targetSdk " ++ dec target_sdk ++ lit "): " ++ kRestartHint)
        else
          let options : text + LibraryRuntimeOptions :=
            if active_ r then inr (options_ r)
            else
              let plugins := parent_of root in
              if negb (bool_decide (base_name plugins = lit "plugins")) then inl (lit "plugin root " ++ root ++ lit " is not <files>/plugins/<package>")
              else if negb (is_dir fs (root ++ lit "/lib")) then inl (lit "plugin root " ++ root ++ lit " has no lib directory")
              else match resolve_guest_runtime_layout fs (parent_of plugins) with inl e => inl e | inr layout => inr (guest_runtime_options fs layout root target_sdk) end in
          match options with
          | inl e => inl e
          | inr o =>
              match bound with
              | Some e => inl (lit "cannot bind the plugin class loader: " ++ e)
              | None => inr (if active_ r then r else activated r (installed_ r) root (native_lib_dir_ r) (installed_guest_lib_dir_ r) target_sdk o)
              end
          end
    end.

Definition activate_installed (fs : Files) (bound : option text) (files_dir native_lib_dir : text) (target_sdk class_loader : Z) (r : ProxyRuntime) : text + ProxyRuntime :=
  if (target_sdk =? 0) || (kMaxTargetSdk <? target_sdk) || (class_loader =? 0) then inl (lit "installed-app targetSdk or class loader is invalid")
  else
    match canonical_path fs files_dir with
    | inl e => inl e
    | inr files =>
        if negb (is_dir fs files) then inl []
        else
          match canonical_path fs native_lib_dir with
          | inl e => inl e
          | inr native_libs =>
              if negb (is_dir fs native_libs) then inl []
              else
                let own := files ++ lit "/zb/app/lib" in
                let bad : text := lit "installed ARM32 library directory must be <files>/zb/app/lib without symlinks" in
                match canonical_path fs own with
                | inl _ => inl bad
                | inr guest_libs =>
                    if negb (bool_decide (guest_libs = own)) || negb (is_dir fs guest_libs) then inl bad
                    else
                      match resolve_guest_runtime_layout fs files with
                      | inl e => inl e
                      | inr layout =>
                          if active_ r && (negb (installed_ r) || negb (bool_decide (plugin_root_ r = files)) || negb (bool_decide (native_lib_dir_ r = native_libs)) ||
                                           negb (bool_decide (installed_guest_lib_dir_ r = guest_libs)) || negb (target_sdk_ r =? target_sdk)) then inl (lit "this process already has a different runtime configuration")
                          else
                            match bound with
                            | Some e => inl (lit "cannot bind the installed package class loader: " ++ e)
                            | None => inr (if active_ r then r else activated r true files native_libs guest_libs target_sdk (guest_runtime_options fs layout (files ++ lit "/zb/app") target_sdk))
                            end
                      end
                end
          end
    end.

(** ** Loads *)

(** Where a load stands.  [AtEntry] is the loop over the proxy's entry, [AtStart] the wait
    for the runtime, [InStart] and [InLoad] calls of the engine. *)
Inductive frame :=
| AtEntry (path key : text) (resolved : bool) (why : text)
| AtStart (key : text) (loc : ProxyLocation)
| InStart (key : text) (loc : ProxyLocation)
| InLoad (key : text) (loc : ProxyLocation).

Inductive engine_call :=
| EStart (thread : Z) (options : LibraryRuntimeOptions)
| ELoad (thread : Z) (key : text) (guest_library : text).

Record World := {
  rt : ProxyRuntime;
  frames : gmap Z (list frame);   (** the loads of a thread, the innermost first *)
  asleep : gset Z;   (** threads in [cv_.wait] *)
  calls : list engine_call;
  results : list (Z * text * ProxyLoadResult);
}.

Definition World_init : World := {| rt := ProxyRuntime_init; frames := ∅; asleep := ∅; calls := []; results := [] |}.

Definition stack (w : World) (t : Z) : list frame := default [] (frames w !! t).

Definition set_rt (w : World) (r : ProxyRuntime) : World := {| rt := r; frames := frames w; asleep := asleep w; calls := calls w; results := results w |}.
Definition set_frames (w : World) (t : Z) (l : list frame) : World := {| rt := rt w; frames := <[t := l]> (frames w); asleep := asleep w; calls := calls w; results := results w |}.
Definition set_asleep (w : World) (s : gset Z) : World := {| rt := rt w; frames := frames w; asleep := s; calls := calls w; results := results w |}.
Definition add_call (w : World) (c : engine_call) : World := {| rt := rt w; frames := frames w; asleep := asleep w; calls := calls w ++ [c]; results := results w |}.
Definition add_result (w : World) (t : Z) (key : text) (r : ProxyLoadResult) : World := {| rt := rt w; frames := frames w; asleep := asleep w; calls := calls w; results := results w ++ [(t, key, r)] |}.

Definition notify_all (w : World) : World := set_asleep w ∅.
Definition replace_top (w : World) (t : Z) (f : frame) : World := set_frames w t (f :: tail (stack w t)).

(** The call returns. *)
Definition returns (w : World) (t : Z) (key : text) (r : ProxyLoadResult) : World := add_result (set_frames w t (tail (stack w t))) t key r.
Definition success (v : Z) : ProxyLoadResult := {| ok := true; version := v; message := [] |}.
Definition failure (m : text) : ProxyLoadResult := {| ok := false; version := 0; message := m |}.

Definition fail_locked (w : World) (t : Z) (key library detail : text) : World :=
  let old := default {| state := Loading; owner := 0; jni_version := 0; error := [] |} (entries_ (rt w) !! key) in
  let m := lit "ZettaBridge cannot load " ++ library ++ lit " (proxy " ++ key ++ lit "): " ++ detail in
  let e := {| state := Failed; owner := owner old; jni_version := jni_version old; error := m |} in
  returns (notify_all (set_rt w (with_last_error (with_entry (rt w) key e) m))) t key (failure m).

(** The library of a proxy, under the configuration of the process; or its name and what is
    wrong. *)
Definition locate (fs : Files) (r : ProxyRuntime) (key : text) : text * text + ProxyLocation :=
  let found :=
    if installed_ r then
      let lib := base_name key in
      if negb (bool_decide (parent_of key = native_lib_dir_ r)) || negb (is_library_name lib) then inl (lib, lit "proxy is not a lib<name>.so in the installed package native library directory")
      else inr {| proxy := key; files_dir := []; plugin_root := []; package := []; library := lib; guest_library := installed_guest_lib_dir_ r ++ lit "/" ++ lib |}
    else
      match parse_proxy_path key with
      | inl e => inl (base_name key, e)
      | inr loc =>
          if negb (active_ r) then inl (library loc, lit "no plugin is active in this process; ZBridge.activatePlugin must run before plugin code loads libraries")
          else if negb (bool_decide (plugin_root loc = plugin_root_ r)) then
            inl (library loc, lit "the proxy belongs to plugin " ++ plugin_root loc ++ lit " but this :guest process runs " ++ plugin_root_ r ++ lit ": " ++ kRestartHint)
          else inr loc
      end in
  match found with
  | inl e => inl e
  | inr loc => if regular fs (guest_library loc) then inr loc else inl (library loc, lit "the arm32 library " ++ guest_library loc ++ lit " is missing; reimport the plugin")
  end.

Definition begin_load (w : World) (t : Z) (key : text) (loc : ProxyLocation) : World := add_call (replace_top w t (InLoad key loc)) (ELoad t key (guest_library loc)).

(** From [cv_.wait(lock, start_state_ != Starting)] on. *)
Definition start_section (w : World) (t : Z) (key : text) (loc : ProxyLocation) : World :=
  match start_state_ (rt w) with
  | Starting => set_asleep (replace_top w t (AtStart key loc)) ({[t]} ∪ asleep w)
  | NotStarted => add_call (replace_top (set_rt w (with_start (rt w) Starting (start_error_ (rt w)))) t (InStart key loc)) (EStart t (options_ (rt w)))
  | StartFailed => fail_locked w t key (library loc) (lit "the guest runtime failed to start: " ++ start_error_ (rt w))
  | Started => begin_load w t key loc
  end.

(** From the loop over the proxy's entry on. *)
Definition entry_section (fs : Files) (w : World) (t : Z) (path key : text) (resolved : bool) (why : text) : World :=
  match entries_ (rt w) !! key with
  | Some e =>
      match state e with
      | Loaded => returns w t key (success (jni_version e))
      | Failed => returns w t key (failure (error e))
      | Loading => if owner e =? t then returns w t key (failure (lit "ZettaBridge: recursive load of proxy " ++ key)) else set_asleep w ({[t]} ∪ asleep w)
      end
  | None =>
      if negb resolved then fail_locked w t key (base_name path) why
      else
        let w := set_rt w (with_entry (rt w) key {| state := Loading; owner := t; jni_version := 0; error := [] |}) in
        match locate fs (rt w) key with
        | inl (lib, detail) => fail_locked w t key lib detail
        | inr loc => start_section w t key loc
        end
  end.

(** [engine_.start] has answered. *)
Definition start_done (w : World) (t : Z) (key : text) (loc : ProxyLocation) (answer : option text) : World :=
  let w := notify_all (set_rt w (match answer with None => with_start (rt w) Started [] | Some e => with_start (rt w) StartFailed e end)) in
  match answer with
  | None => begin_load w t key loc
  | Some e => fail_locked w t key (library loc) (lit "the guest runtime failed to start: " ++ e)
  end.

(** [engine_.load] has answered: the version, or the error. *)
Definition load_done (w : World) (t : Z) (key : text) (loc : ProxyLocation) (answer : text + Z) : World :=
  match answer with
  | inl e => fail_locked w t key (library loc) e
  | inr v =>
      if negb (supported_art_version v) then fail_locked w t key (library loc) (lit "guest JNI_OnLoad returned unsupported JNI version " ++ hex_version v ++ lit " (ART accepts 1.2, 1.4 and 1.6)")
      else
        let old := default {| state := Loading; owner := 0; jni_version := 0; error := [] |} (entries_ (rt w) !! key) in
        returns (notify_all (set_rt w (with_entry (rt w) key {| state := Loaded; owner := owner old; jni_version := v; error := error old |}))) t key (success v)
  end.

(** A call of [on_proxy_loaded] begins. *)
Definition on_proxy_loaded (fs : Files) (w : World) (t : Z) (path : text) : World :=
  match canonical_path fs path with
  | inr c => set_frames w t (AtEntry path c true [] :: stack w t)
  | inl e => set_frames w t (AtEntry path path false e :: stack w t)
  end.

(** Code of the engine runs on the thread, or none of a load does. *)
Definition may_call (w : World) (t : Z) : bool := match stack w t with [] => true | InStart _ _ :: _ | InLoad _ _ :: _ => true | _ => false end.

Inductive step (w : World) : World -> Prop :=
| StepCall fs t path : may_call w t = true -> step w (on_proxy_loaded fs w t path)
| StepEntry fs t path key resolved why rest : stack w t = AtEntry path key resolved why :: rest -> t ∉ asleep w -> step w (entry_section fs w t path key resolved why)
| StepStart t key loc rest : stack w t = AtStart key loc :: rest -> t ∉ asleep w -> step w (start_section w t key loc)
| StepWake t : step w (set_asleep w (asleep w ∖ {[t]}))
| StepStartDone t key loc rest answer : stack w t = InStart key loc :: rest -> step w (start_done w t key loc answer)
| StepLoadDone t key loc rest answer : stack w t = InLoad key loc :: rest -> step w (load_done w t key loc answer)
| StepActivate fs bound root sdk loader r : activate_plugin fs bound root sdk loader (rt w) = inr r -> step w (set_rt w r)
| StepInstall fs bound files native sdk loader r : activate_installed fs bound files native sdk loader (rt w) = inr r -> step w (set_rt w r).

Definition steps : World -> World -> Prop := rtc step.
Definition reachable (w : World) : Prop := steps World_init w.

Definition load_error (fs : Files) (r : ProxyRuntime) (path : text) : option text :=
  let key := match canonical_path fs path with inr c => c | inl _ => path end in
  match (match entries_ r !! key with Some e => Some e | None => entries_ r !! path end) with
  | Some e => match state e with Failed => Some (error e) | _ => None end
  | None => None
  end.
Definition last_load_error (r : ProxyRuntime) : option text := if bool_decide (last_error_ r = []) then None else Some (last_error_ r).

(** ** Invariant *)

(** The proxy a load is working on. *)
Definition working (f : frame) : option text := match f with AtEntry _ _ _ _ => None | AtStart k _ | InStart k _ | InLoad k _ => Some k end.
Definition work (w : World) (t : Z) : list text := omap working (stack w t).

(** The library belongs to the proxy, under the configuration of the process. *)
Definition located (r : ProxyRuntime) (key : text) (loc : ProxyLocation) : Prop :=
  active_ r = true /\
  if installed_ r then
    parent_of key = native_lib_dir_ r /\ is_library_name (base_name key) = true /\ library loc = base_name key /\ guest_library loc = installed_guest_lib_dir_ r ++ lit "/" ++ base_name key
  else parse_proxy_path key = inr loc /\ plugin_root loc = plugin_root_ r.

Definition frame_located (r : ProxyRuntime) (f : frame) : Prop := match f with AtEntry _ _ _ _ => True | AtStart k loc | InStart k loc | InLoad k loc => located r k loc end.

Definition load_key (c : engine_call) : option text := match c with ELoad _ k _ => Some k | EStart _ _ => None end.
Definition loads (w : World) : list text := omap load_key (calls w).
Definition starts (w : World) : nat := length (List.filter (fun c => match c with EStart _ _ => true | ELoad _ _ _ => false end) (calls w)).

Definition recursion (key : text) : text := lit "ZettaBridge: recursive load of proxy " ++ key.

Definition call_ok (r : ProxyRuntime) (c : engine_call) : Prop :=
  match c with EStart _ o => active_ r = true /\ o = options_ r | ELoad _ k g => (exists loc, located r k loc /\ g = guest_library loc) /\ is_Some (entries_ r !! k) end.

Definition result_ok (r : ProxyRuntime) (x : Z * text * ProxyLoadResult) : Prop :=
  let '(_, k, v) := x in
  if ok v then exists e, entries_ r !! k = Some e /\ state e = Loaded /\ jni_version e = version v
  else message v = recursion k \/ exists e, entries_ r !! k = Some e /\ state e = Failed /\ error e = message v.

Definition is_load (f : frame) : Prop := match f with InLoad _ _ => True | _ => False end.

Record core (w : World) : Prop := {
  c_installed : installed_ (rt w) = true -> active_ (rt w) = true;
  c_loading : forall k e, entries_ (rt w) !! k = Some e -> state e = Loading -> k ∈ work w (owner e);
  c_work : forall t k, k ∈ work w t -> exists e, entries_ (rt w) !! k = Some e /\ state e = Loading /\ owner e = t;
  c_nodup : forall t, NoDup (work w t);
  c_located : forall t, Forall (frame_located (rt w)) (stack w t);
  c_calls : Forall (call_ok (rt w)) (calls w);
  c_loads : NoDup (loads w);
  c_fresh : forall t f k, f ∈ stack w t -> working f = Some k -> k ∈ loads w <-> is_load f;
  c_loaded : forall k e, entries_ (rt w) !! k = Some e -> state e = Loaded -> k ∈ loads w /\ supported_art_version (jni_version e) = true;
  c_results : Forall (result_ok (rt w)) (results w);
}.

Definition is_start (f : frame) : Prop := match f with InStart _ _ => True | _ => False end.
#[global] Instance is_start_dec f : Decision (is_start f).
Proof. destruct f; apply _. Defined.
Definition starting (l : list frame) : nat := length (filter is_start l).

(** The runtime is started once, by one load, and nothing is loaded before it runs. *)
Definition start_ok (w : World) : Prop :=
  match start_state_ (rt w) with
  | NotStarted => calls w = [] /\ forall t, starting (stack w t) = 0%nat /\ Forall (fun f => ~ is_load f) (stack w t)
  | Starting => starts w = 1%nat /\ loads w = [] /\ (forall t, Forall (fun f => ~ is_load f) (stack w t)) /\ exists t0, starting (stack w t0) = 1%nat /\ forall t, t <> t0 -> starting (stack w t) = 0%nat
  | Started => starts w = 1%nat /\ forall t, starting (stack w t) = 0%nat
  | StartFailed => starts w = 1%nat /\ loads w = [] /\ forall t, starting (stack w t) = 0%nat /\ Forall (fun f => ~ is_load f) (stack w t)
  end.

(** A sleeping thread waits for something that is under way. *)
Definition sleep_ok (w : World) : Prop := forall t, t ∈ asleep w ->
  match stack w t with
  | AtEntry _ k _ _ :: _ => exists e, entries_ (rt w) !! k = Some e /\ state e = Loading /\ owner e <> t
  | AtStart _ _ :: _ => start_state_ (rt w) = Starting
  | _ => False
  end.

Record pinv (w : World) : Prop := { p_core : core w; p_start : start_ok w; p_sleep : sleep_ok w }.

(** ** Stacks *)

Lemma stack_set w t l x : stack (set_frames w t l) x = if decide (x = t) then l else stack w x.
Proof. unfold stack, set_frames. cbn. destruct (decide (x = t)) as [->|Hne]; [by rewrite lookup_insert_eq|by rewrite lookup_insert_ne]. Qed.

Lemma stack_same w t l : stack (set_frames w t l) t = l.
Proof. by rewrite stack_set, decide_True. Qed.

Lemma replace_twice w t f g : replace_top (replace_top w t f) t g = replace_top w t g.
Proof. unfold replace_top. rewrite stack_same. unfold set_frames. cbn. by rewrite insert_insert_eq. Qed.
Lemma tail_replace w t f : tail (stack (replace_top w t f) t) = tail (stack w t).
Proof. unfold replace_top. by rewrite stack_same. Qed.

Lemma starting_cons f l : starting (f :: l) = ((if decide (is_start f) then 1 else 0) + starting l)%nat.
Proof. unfold starting. rewrite filter_cons. by case_decide. Qed.

Lemma work_set w t l x : work (set_frames w t l) x = if decide (x = t) then omap working l else work w x.
Proof. unfold work. rewrite stack_set. by case_decide. Qed.

(** A stack whose work is the same leaves the work of every thread. *)
Lemma work_same w t l x : omap working l = work w t -> work (set_frames w t l) x = work w x.
Proof. intros E. rewrite work_set. case_decide as Ex; [by subst|done]. Qed.

Lemma elem_work w t f k : f ∈ stack w t -> working f = Some k -> k ∈ work w t.
Proof. intros Hf Hk. apply list_elem_of_omap. by exists f. Qed.

(** ** The core of the invariant, update by update *)

(** A call returns what the entry says, or refuses recursion. *)
Lemma core_return w t f rest k r : core w -> stack w t = f :: rest -> working f = None -> result_ok (rt w) (t, k, r) -> core (returns w t k r).
Proof.
  intros [H1 H2 H3 H4 H5 H6 H7 H8 H9 H10] Hst Hf Hr. unfold returns. rewrite Hst. cbn [tail]. assert (forall x, work (set_frames w t rest) x = work w x) as Hw by (intros x; apply work_same; unfold work; rewrite Hst; cbn; by rewrite Hf).
  assert (forall x f', f' ∈ stack (set_frames w t rest) x -> f' ∈ stack w x) as Hin by (intros x f'; rewrite stack_set; case_decide as Ex; [subst x; rewrite Hst; by right|done]).
  split; try done.
  - intros k' e He Hs. change (k' ∈ work (set_frames w t rest) (owner e)). rewrite Hw. by apply H2.
  - intros t' k' Hk. change (k' ∈ work (set_frames w t rest) t') in Hk. rewrite Hw in Hk. by apply H3.
  - intros t'. change (NoDup (work (set_frames w t rest) t')). rewrite Hw. apply H4.
  - intros t'. apply Forall_forall. intros f' Hf'. change (f' ∈ stack (set_frames w t rest) t') in Hf'. specialize (H5 t'). rewrite Forall_forall in H5. by apply H5, Hin.
  - intros t' f' k' Hf'. change (f' ∈ stack (set_frames w t rest) t') in Hf'. apply (H8 t'). by apply Hin.
  - cbn. apply Forall_app_2; [done|by constructor].
Qed.

(** The keys of the frames below a working frame are others. *)
Lemma work_top w t f rest k : core w -> stack w t = f :: rest -> working f = Some k -> work w t = k :: omap working rest /\ k ∉ omap working rest.
Proof.
  intros Hc Hst Hf. assert (work w t = k :: omap working rest) as E by (unfold work; rewrite Hst; cbn; by rewrite Hf). split; [done|]. pose proof (c_nodup _ Hc t) as Hn. rewrite E in Hn. by apply NoDup_cons in Hn as [Hn _].
Qed.

(** The entry of the load that ends, or one that was not there. *)
Definition mine (w : World) (f : frame) (k : text) : Prop := working f = Some k \/ working f = None /\ entries_ (rt w) !! k = None.

Lemma located_entry r k e k' loc : located (with_entry r k e) k' loc <-> located r k' loc.
Proof. done. Qed.

(** A load ends: its entry is settled. *)
Definition settle (w : World) (t : Z) (k : text) (e : Entry) (m : text) (r : ProxyLoadResult) : World := returns (notify_all (set_rt w (with_last_error (with_entry (rt w) k e) m))) t k r.

Lemma core_settle w t f rest k e m r :
  core w -> stack w t = f :: rest -> mine w f k -> state e <> Loading -> (state e = Loaded -> k ∈ loads w /\ supported_art_version (jni_version e) = true) -> result_ok (with_entry (rt w) k e) (t, k, r) -> core (settle w t k e m r).
Proof.
  intros Hc Hst Hm He Hl Hr. pose proof Hc as [H1 H2 H3 H4 H5 H6 H7 H8 H9 H10]. unfold settle, returns. change (stack (notify_all _) t) with (stack w t). rewrite Hst. cbn [tail].
  set (w1 := set_frames w t rest). assert (forall k' e', entries_ (rt w) !! k' = Some e' -> state e' <> Loading -> k' <> k) as Hother.
  { intros k' e' He' Hne ->. destruct Hm as [Hf|[_ Hnone]]; [|congruence]. destruct (H3 t k) as (e2 & E2 & Hs2 & _); [eapply elem_work; [rewrite Hst; by left|done]|]. congruence. }
  assert (forall x k', k' ∈ work w1 x -> k' ∈ work w x /\ k' <> k) as Hwork.
  { intros x k' Hk'. assert (k' ∈ work w x) as Hin. { revert Hk'. unfold w1. rewrite work_set. case_decide as Ex; [|done]. subst x. intros Hk'. apply list_elem_of_omap in Hk' as (f' & Hf' & Ef'). eapply elem_work; [rewrite Hst; by right|done]. }
    split; [done|]. intros ->. destruct (H3 _ _ Hin) as (e' & E' & _ & Eo). destruct Hm as [Hf|[_ Hnone]]; [|congruence]. destruct (work_top w t f rest k Hc Hst Hf) as [Ew Hn].
    destruct (H3 t k) as (e2 & E2 & _ & Eo2); [rewrite Ew; by left|]. assert (x = t) as -> by congruence. unfold w1 in Hk'. rewrite work_set, decide_True in Hk' by done. done. }
  assert (forall x k', k' <> k -> k' ∈ work w x -> k' ∈ work w1 x) as Hwork'.
  { intros x k' Hne Hk'. unfold w1. rewrite work_set. case_decide as Ex; [|done]. subst x. unfold work in Hk'. rewrite Hst in Hk'. cbn in Hk'. destruct Hm as [Hf|[Hf _]]; rewrite Hf in Hk'; [|done]. apply elem_of_cons in Hk' as [?|?]; done. }
  assert (forall x f', f' ∈ stack w1 x -> f' ∈ stack w x) as Hin by (intros x f'; unfold w1; rewrite stack_set; case_decide as Ex; [subst x; rewrite Hst; by right|done]).
  split; cbn; try done.
  - intros k' e' [[<- <-]|[Hne He']]%lookup_insert_Some Hs'; [done|]. apply (Hwork' (owner e')); [done|]. by apply H2.
  - intros x k' Hk'. destruct (Hwork x k' Hk') as [Hw Hne]. rewrite lookup_insert_ne by done. by apply H3.
  - intros x. change (NoDup (work w1 x)). unfold w1. rewrite work_set. case_decide as Ex; [|apply H4]. subst x. specialize (H4 t). unfold work in H4. rewrite Hst in H4. cbn in H4. destruct (working f); [by apply NoDup_cons in H4 as [_ H4]|done].
  - intros x. apply Forall_forall. intros f' Hf'. change (frame_located (rt w) f'). specialize (H5 x). rewrite Forall_forall in H5. by apply H5, Hin.
  - eapply Forall_impl; [exact H6|]. intros [t' o|t' k' g]; [done|]. intros [Hloc Hsome]. split; [done|]. cbn. destruct (decide (k = k')) as [<-|Hne]; [rewrite lookup_insert_eq; eauto|by rewrite lookup_insert_ne].
  - intros x f' k' Hf'. apply (H8 x). by apply Hin.
  - intros k' e' [[<- <-]|[Hne He']]%lookup_insert_Some; [done|]. by apply H9.
  - apply Forall_app_2; [|by constructor]. eapply Forall_impl; [exact H10|]. intros [[t' k'] v]. unfold result_ok. cbn. destruct (ok v).
    + intros (e' & He' & Hs' & Ev). exists e'. rewrite lookup_insert_ne; [done|]. apply not_eq_sym. apply (Hother k' e' He'). congruence.
    + intros [?|(e' & He' & Hs' & Ev)]; [by left|right]. exists e'. rewrite lookup_insert_ne; [done|]. apply not_eq_sym. apply (Hother k' e' He'). congruence.
Qed.

(** A load claims a proxy nobody has asked for. *)
Definition claim (w : World) (t : Z) (k : text) : World := set_rt w (with_entry (rt w) k {| state := Loading; owner := t; jni_version := 0; error := [] |}).

Lemma core_claim w t f rest k loc : core w -> stack w t = f :: rest -> working f = None -> entries_ (rt w) !! k = None -> located (rt w) k loc -> core (replace_top (claim w t k) t (AtStart k loc)).
Proof.
  intros Hc Hst Hf Hnone Hloc. pose proof Hc as [H1 H2 H3 H4 H5 H6 H7 H8 H9 H10]. unfold replace_top. change (stack (claim w t k) t) with (stack w t). rewrite Hst. cbn [tail]. set (w1 := set_frames (claim w t k) t (AtStart k loc :: rest)).
  assert (omap working rest = work w t) as Erest by (unfold work; rewrite Hst; cbn; by rewrite Hf).
  assert (forall x, work w1 x = if decide (x = t) then k :: work w t else work w x) as Hwork by (intros x; unfold w1; rewrite work_set; case_decide; [cbn; by rewrite Erest|done]).
  assert (forall x, k ∉ work w x) as Hk by (intros x Hx; destruct (H3 _ _ Hx) as (e & He & _); congruence).
  assert (k ∉ loads w) as Hkl. { intros (c & Hcl & Ec)%list_elem_of_omap. rewrite Forall_forall in H6. specialize (H6 c Hcl). destruct c as [|t' k' g]; [done|]. injection Ec as <-. destruct H6 as [_ [e He]]. congruence. }
  assert (forall k' e, entries_ (rt w) !! k' = Some e -> <[k := {| state := Loading; owner := t; jni_version := 0; error := [] |}]> (entries_ (rt w)) !! k' = Some e) as Hold.
  { intros k' e He. rewrite lookup_insert_ne; [done|]. intros ->. congruence. }
  split; cbn; try done.
  - intros k' e' [[<- <-]|[Hne He']]%lookup_insert_Some Hs'; change (k ∈ work w1 t) || change (k' ∈ work w1 (owner e')); rewrite Hwork; [rewrite decide_True by done; by left|]. specialize (H2 _ _ He' Hs'). case_decide as Ex; [|done]. right. by rewrite <- Ex.
  - intros x k' Hk'. change (k' ∈ work w1 x) in Hk'. rewrite Hwork in Hk'. destruct (decide (x = t)) as [->|Hx].
    + apply elem_of_cons in Hk' as [->|Hk']; [eexists; split; [apply lookup_insert_eq|done]|]. destruct (H3 _ _ Hk') as (e & He & Hs & Ho). exists e. split; [by apply Hold|done].
    + destruct (H3 _ _ Hk') as (e & He & Hs & Ho). exists e. split; [by apply Hold|done].
  - intros x. change (NoDup (work w1 x)). rewrite Hwork. case_decide; [by apply NoDup_cons|apply H4].
  - intros x. unfold w1. rewrite stack_set. case_decide as Ex; [|exact (H5 x)]. constructor; [exact Hloc|]. specialize (H5 t). rewrite Hst in H5. by apply Forall_cons in H5 as [_ H5].
  - eapply Forall_impl; [exact H6|]. intros [t' o|t' k' g]; [done|]. intros [Hl' [e He]]. split; [done|]. exists e. by apply Hold.
  - intros x f' k' Hf' Hw. unfold w1 in Hf'. rewrite stack_set in Hf'. destruct (decide (x = t)) as [->|Hx]; [|by apply (H8 x)]. apply elem_of_cons in Hf' as [->|Hf']; [injection Hw as <-; by split|]. apply (H8 t); [rewrite Hst; by right|done].
  - intros k' e' [[<- <-]|[Hne He']]%lookup_insert_Some; [done|]. by apply H9.
  - eapply Forall_impl; [exact H10|]. intros [[t' k'] v]. unfold result_ok. cbn. destruct (ok v); [intros (e & He & H)|intros [?|(e & He & H)]; [by left|right]]; (exists e; split; [by apply Hold|done]).
Qed.

(** The frames of a proxy that is being worked on. *)
Lemma one_frame w t f rest k x g : core w -> stack w t = f :: rest -> working f = Some k -> g ∈ (if decide (x = t) then rest else stack w x) -> working g <> Some k.
Proof.
  intros Hc Hst Hf Hg Hk. destruct (decide (x = t)) as [->|Hx].
  - destruct (work_top w t f rest k Hc Hst Hf) as [_ Hn]. apply Hn, list_elem_of_omap. by exists g.
  - destruct (c_work _ Hc t k) as (e & He & _ & Ho); [eapply elem_work; [rewrite Hst; by left|done]|]. destruct (c_work _ Hc x k) as (e' & He' & _ & Ho'); [by eapply elem_work|]. congruence.
Qed.

Definition with_calls (w : World) (cs : list engine_call) : World := {| rt := rt w; frames := frames w; asleep := asleep w; calls := calls w ++ cs; results := results w |}.

(** The top frame moves on with the same proxy, maybe with a call of the engine. *)
Lemma core_move w t f rest f' k cs :
  core w -> stack w t = f :: rest -> working f = Some k -> working f' = Some k -> frame_located (rt w) f' -> Forall (call_ok (rt w)) cs ->
  omap load_key cs = [] /\ (k ∈ loads w <-> is_load f') \/ omap load_key cs = [k] /\ k ∉ loads w /\ is_load f' -> core (with_calls (replace_top w t f') cs).
Proof.
  intros Hc Hst Hf Hf' Hloc Hcs Hnew. pose proof Hc as [H1 H2 H3 H4 H5 H6 H7 H8 H9 H10]. unfold replace_top. rewrite Hst. cbn [tail]. set (w1 := set_frames w t (f' :: rest)). set (w2 := with_calls w1 cs).
  assert (forall x, work w2 x = work w x) as Hw by (intros x; apply (work_same w t (f' :: rest)); unfold work; rewrite Hst; cbn; by rewrite Hf, Hf').
  assert (loads w2 = loads w ++ omap load_key cs) as Hl by (unfold loads, w2; cbn; by rewrite omap_app).
  split; try done.
  - intros k' e He Hs. rewrite Hw. by apply H2.
  - intros x k' Hk'. rewrite Hw in Hk'. by apply H3.
  - intros x. rewrite Hw. apply H4.
  - intros x. change (stack w2 x) with (stack w1 x). unfold w1. rewrite stack_set. case_decide as Ex; [|exact (H5 x)]. constructor; [exact Hloc|]. specialize (H5 t). rewrite Hst in H5. by apply Forall_cons in H5 as [_ H5].
  - cbn. by apply Forall_app_2.
  - rewrite Hl. destruct Hnew as [[-> _]|(-> & Hn & _)]; [by rewrite app_nil_r|]. apply NoDup_app. split; [done|]. split; [by intros k' Hk' ->%list_elem_of_singleton|apply NoDup_singleton].
  - intros x g k' Hg Hwk. change (stack w2 x) with (stack w1 x) in Hg. unfold w1 in Hg. rewrite stack_set in Hg. rewrite Hl, elem_of_app. assert (g = f' /\ k' = k \/ g ∈ (if decide (x = t) then rest else stack w x)) as [[-> ->]|Hrest].
    { case_decide; [|by right]. apply elem_of_cons in Hg as [->|Hg]; [|by right]. left. split; [done|congruence]. }
    + destruct Hnew as [[-> Hiff]|(-> & Hn & Hil)]; [rewrite elem_of_nil; tauto|]. rewrite list_elem_of_singleton. tauto.
    + assert (k' <> k) as Hne by (intros ->; by eapply one_frame). assert (k' ∉ omap load_key cs) as Hnk by (destruct Hnew as [[-> _]|(-> & _)]; [apply not_elem_of_nil|by rewrite list_elem_of_singleton]).
      rewrite <- (H8 x g k'); [tauto| |done]. case_decide; [subst x; rewrite Hst; by right|done].
  - intros k' e He Hs. destruct (H9 k' e He Hs) as [Hin Hv]. split; [|done]. rewrite Hl. apply elem_of_app. by left.
Qed.

Lemma with_one_call w c : with_calls w [c] = add_call w c.
Proof. done. Qed.
Lemma with_no_call w : with_calls w [] = w.
Proof. destruct w. unfold with_calls. cbn. by rewrite app_nil_r. Qed.

Lemma core_start w s m : core w -> core (set_rt w (with_start (rt w) s m)).
Proof. intros []. by split. Qed.
Lemma core_asleep w s : core w -> core (set_asleep w s).
Proof. intros []. by split. Qed.

(** A call begins. *)
Lemma core_enter w t path k b why : core w -> core (set_frames w t (AtEntry path k b why :: stack w t)).
Proof.
  intros [H1 H2 H3 H4 H5 H6 H7 H8 H9 H10]. assert (forall x, work (set_frames w t (AtEntry path k b why :: stack w t)) x = work w x) as Hw by (intros x; by apply work_same).
  split; try done.
  - intros k' e He Hs. rewrite Hw. by apply H2.
  - intros x k' Hk'. rewrite Hw in Hk'. by apply H3.
  - intros x. rewrite Hw. apply H4.
  - intros x. rewrite stack_set. case_decide as Ex; [|exact (H5 x)]. constructor; [done|]. apply (H5 t).
  - intros x f k' Hf Hk'. rewrite stack_set in Hf. destruct (decide (x = t)) as [->|]; [|by apply (H8 x)]. apply elem_of_cons in Hf as [->|Hf]; [done|]. by apply (H8 t).
Qed.

(** Activation happens once, before anything works. *)
Lemma core_activated w i root native libs sdk o : core w -> active_ (rt w) = false -> core (set_rt w (activated (rt w) i root native libs sdk o)).
Proof.
  intros [H1 H2 H3 H4 H5 H6 H7 H8 H9 H10] Ha. assert (calls w = []) as Ec. { destruct (calls w) as [|c cs] eqn:E; [done|]. apply Forall_cons in H6 as [Hc _]. destruct c as [t o'|t k g]; [destruct Hc; congruence|]. destruct Hc as [(loc & [Hact _] & _) _]. congruence. }
  split; try done.
  - intros t. eapply Forall_impl; [exact (H5 t)|]. intros [p k b y|k loc|k loc|k loc]; [done|..]; intros [Hact _]; congruence.
  - change (Forall (call_ok (activated (rt w) i root native libs sdk o)) (calls w)). rewrite Ec. by constructor.
Qed.

Definition activates (r r' : ProxyRuntime) : Prop := r' = r /\ active_ r = true \/ active_ r = false /\ exists i root native libs sdk o, r' = activated r i root native libs sdk o.

Lemma plugin_activates fs b root sdk l r r' : activate_plugin fs b root sdk l r = inr r' -> activates r r'.
Proof.
  unfold activate_plugin. destruct (_ || _); [done|]. destruct (l =? 0); [done|]. destruct (canonical_path fs root) as [e|c]; [done|]. destruct (active_ r && installed_ r); [done|]. destruct (_ && (_ || _)); [done|]. destruct (active_ r) eqn:Ea.
  - destruct b; [done|]. intros [= <-]. by left.
  - case_match; [done|]. destruct b; [done|]. intros [= <-]. right. split; [done|]. by do 6 eexists.
Qed.

Lemma installed_activates fs b files native sdk l r r' : activate_installed fs b files native sdk l r = inr r' -> activates r r'.
Proof.
  unfold activate_installed. destruct (_ || _ || _); [done|]. destruct (canonical_path fs files) as [e|c]; [done|]. destruct (negb (is_dir fs c)); [done|]. destruct (canonical_path fs native) as [e|n]; [done|]. destruct (negb (is_dir fs n)); [done|].
  destruct (canonical_path fs (c ++ _)) as [e|g]; [done|]. destruct (_ || _); [done|]. destruct (resolve_guest_runtime_layout fs c) as [e|lay]; [done|]. destruct (active_ r) eqn:Ea; cbn [andb].
  - destruct (_ || _); [done|]. destruct b; [done|]. intros [= <-]. by left.
  - destruct b; [done|]. intros [= <-]. right. split; [done|]. by do 6 eexists.
Qed.

(** ** Whole steps *)

Lemma start_same w w' : start_ok w -> start_state_ (rt w') = start_state_ (rt w) -> calls w' = calls w -> (forall x, starting (stack w' x) = starting (stack w x)) ->
  (forall x, Forall (fun f => ~ is_load f) (stack w x) -> Forall (fun f => ~ is_load f) (stack w' x)) -> start_ok w'.
Proof.
  intros H Es Ec Hst Hl. unfold start_ok, starts, loads in *. rewrite Es, Ec. destruct (start_state_ (rt w)).
  - destruct H as [H1 H2]. split; [done|]. intros t. destruct (H2 t). rewrite Hst. auto.
  - destruct H as (H1 & H2 & H3 & t0 & H4 & H5). split_and!; [done..|by auto|]. exists t0. rewrite Hst. split; [done|]. intros t Ht. rewrite Hst. auto.
  - destruct H as [H1 H2]. split; [done|]. intros t. by rewrite Hst.
  - destruct H as (H1 & H2 & H3). split_and!; [done..|]. intros t. destruct (H3 t). rewrite Hst. auto.
Qed.

(** Popping or replacing the top frame. *)
Lemma start_pop w w' t f rest : start_ok w -> stack w t = f :: rest -> ~ is_start f -> start_state_ (rt w') = start_state_ (rt w) -> calls w' = calls w -> (forall x, stack w' x = if decide (x = t) then rest else stack w x) -> start_ok w'.
Proof.
  intros H Hst Hf Es Ec Hx. apply (start_same w); [done..| |]; intros x; rewrite Hx; case_decide as E; try done; subst x; rewrite Hst.
  - rewrite starting_cons, decide_False by done. done.
  - by intros [_ ?]%Forall_cons.
Qed.
Lemma start_replace w w' t f f' rest : start_ok w -> stack w t = f :: rest -> ~ is_start f -> ~ is_start f' -> ~ is_load f' -> start_state_ (rt w') = start_state_ (rt w) -> calls w' = calls w ->
  (forall x, stack w' x = if decide (x = t) then f' :: rest else stack w x) -> start_ok w'.
Proof.
  intros H Hst Hf Hf' Hl' Es Ec Hx. apply (start_same w); [done..| |]; intros x; rewrite Hx; case_decide as E; try done; subst x; rewrite Hst.
  - by rewrite !starting_cons, !decide_False by done.
  - intros [_ ?]%Forall_cons. by constructor.
Qed.

Lemma pinv_settle w t f rest k e m r :
  core w -> start_ok w -> stack w t = f :: rest -> ~ is_start f -> mine w f k -> state e <> Loading -> (state e = Loaded -> k ∈ loads w /\ supported_art_version (jni_version e) = true) -> result_ok (with_entry (rt w) k e) (t, k, r) -> pinv (settle w t k e m r).
Proof.
  intros Hc Hs Hst Hf Hm He Hl Hr. split; [by eapply core_settle| |by intros x Hx%elem_of_empty]. eapply (start_pop w _ t f rest); try done. intros x. unfold settle, returns, add_result. change (stack (notify_all _) t) with (stack w t). rewrite Hst. exact (stack_set (notify_all (set_rt w (with_last_error (with_entry (rt w) k e) m))) t rest x).
Qed.

(** [fail_locked] settles the entry, also when the load had just claimed it. *)
Lemma fail_settles w t k lib d : exists e m, fail_locked w t k lib d = settle w t k e m (failure m) /\ state e = Failed /\ error e = m.
Proof. eexists _, _. split; [reflexivity|done]. Qed.
Lemma fail_claimed w t k lib d : exists e m, fail_locked (claim w t k) t k lib d = settle w t k e m (failure m) /\ state e = Failed /\ error e = m.
Proof.
  unfold fail_locked, settle, claim. cbn. rewrite lookup_insert_eq. cbn. unfold returns, notify_all, set_asleep, set_frames, add_result, set_rt, stack, with_last_error, with_entry. cbn. rewrite insert_insert_eq.
  eexists {| state := Failed; owner := t; jni_version := 0; error := _ |}, _. split; [reflexivity|done].
Qed.

Lemma failed_result r k e m t : state e = Failed -> error e = m -> result_ok (with_entry r k e) (t, k, failure m).
Proof. intros Hs He. right. exists e. cbn. by rewrite lookup_insert_eq. Qed.

Lemma pinv_fail w t f rest k lib d : core w -> start_ok w -> stack w t = f :: rest -> ~ is_start f -> mine w f k -> pinv (fail_locked w t k lib d).
Proof. intros Hc Hs Hst Hf Hm. destruct (fail_settles w t k lib d) as (e & m & -> & He & Hm'). eapply pinv_settle; [done..|by rewrite He|by rewrite He|by apply failed_result]. Qed.

(** A load of the engine begins. *)
Lemma core_begin w t f rest k loc : core w -> stack w t = f :: rest -> working f = Some k -> ~ is_load f -> located (rt w) k loc -> core (begin_load w t k loc).
Proof.
  intros Hc Hst Hf Hl Hloc. assert (f ∈ stack w t) as Hin by (rewrite Hst; by left). assert (k ∉ loads w) as Hk by (by rewrite (c_fresh _ Hc t f k Hin Hf)). destruct (c_work _ Hc t k) as (e & He & _ & Ho); [by eapply elem_work|].
  unfold begin_load. rewrite <- with_one_call. eapply core_move; [done..| |by right]. constructor; [|by constructor]. split; [by exists loc|by exists e].
Qed.

Lemma sleep_others w w' t : sleep_ok w -> t ∉ asleep w -> asleep w' = asleep w -> entries_ (rt w') = entries_ (rt w) -> (start_state_ (rt w) = Starting -> start_state_ (rt w') = Starting) -> (forall x, x <> t -> stack w' x = stack w x) -> sleep_ok w'.
Proof.
  intros H Ht Ea Ee Es Hx x Hin. rewrite Ea in Hin. assert (x <> t) as Hne by (intros ->; done). specialize (H x Hin). rewrite Hx, Ee by done. destruct (stack w x) as [|[]]; auto.
Qed.

Lemma omap_calls w c : loads (add_call w c) = loads w ++ match c with ELoad _ k _ => [k] | EStart _ _ => [] end /\ starts (add_call w c) = (starts w + match c with EStart _ _ => 1 | ELoad _ _ _ => 0 end)%nat.
Proof. unfold loads, starts, add_call. cbn. rewrite omap_app, List.filter_app, length_app. by destruct c. Qed.
Lemma stack_call w c x : stack (add_call w c) x = stack w x.
Proof. done. Qed.

Lemma starts_begin w t k loc : starts (begin_load w t k loc) = starts w.
Proof. unfold begin_load. rewrite (proj2 (omap_calls _ _)). change (starts (replace_top w t (InLoad k loc))) with (starts w). lia. Qed.

Lemma stack_replace w t f rest g x : stack w t = f :: rest -> stack (replace_top w t g) x = if decide (x = t) then g :: rest else stack w x.
Proof. intros Hst. unfold replace_top. rewrite Hst. apply stack_set. Qed.

(** The wait for the runtime ends, or begins. *)
Lemma pinv_start w t k loc rest : core w -> start_ok w -> sleep_ok w -> stack w t = AtStart k loc :: rest -> t ∉ asleep w -> pinv (start_section w t k loc).
Proof.
  intros Hc Hs Hz Hst Ht. assert (located (rt w) k loc) as Hloc by (pose proof (c_located _ Hc t) as H; rewrite Hst in H; by apply Forall_cons in H as [H _]). assert (k ∉ loads w) as Hk.
  { rewrite (c_fresh _ Hc t (AtStart k loc) k); [by intros []|rewrite Hst; by left|done]. }
  unfold start_section. destruct (start_state_ (rt w)) eqn:Es.
  - unfold start_ok in Hs. rewrite Es in Hs. destruct Hs as [Hcalls Hfr]. set (w1 := set_rt w (with_start (rt w) Starting (start_error_ (rt w)))). assert (core w1) as Hc1 by (by apply core_start). split.
    + rewrite <- with_one_call. eapply (core_move w1 t (AtStart k loc) rest); [done..| |left; split; [done|]; by split]. constructor; [split; [apply Hloc|done]|by constructor].
    + assert (forall x, stack (replace_top w1 t (InStart k loc)) x = if decide (x = t) then InStart k loc :: rest else stack w x) as Hx by (intros x; by apply (stack_replace w1 t (AtStart k loc) rest)).
      unfold start_ok. destruct (omap_calls (replace_top w1 t (InStart k loc)) (EStart t (options_ (rt w)))) as [-> ->]. change (start_state_ (rt (add_call _ _))) with Starting. cbv iota. unfold loads, starts. change (calls (replace_top w1 t (InStart k loc))) with (calls w). rewrite Hcalls. split; [done|]. split; [done|].
      destruct (Hfr t) as [H0 Hl]. rewrite Hst in H0, Hl. apply Forall_cons in Hl as [_ Hl]. rewrite starting_cons, decide_False in H0 by (intros []). split.
      * intros x. rewrite stack_call, Hx. case_decide; [by constructor; [intros []|]|apply Hfr].
      * exists t. rewrite stack_call, Hx, decide_True by done. rewrite starting_cons, decide_True by done. split; [lia|].
        intros x Hne. rewrite stack_call, Hx, decide_False by done. apply Hfr.
    + apply (sleep_others w _ t); [done..|]. intros x Hne. change (stack (replace_top w1 t (InStart k loc)) x = stack w x). rewrite (stack_replace w1 t (AtStart k loc) rest) by done. by rewrite decide_False.
  - assert (forall x, stack (replace_top w t (AtStart k loc)) x = if decide (x = t) then AtStart k loc :: rest else stack w x) as Hx by (intros x; by apply (stack_replace w t (AtStart k loc) rest)). split.
    + apply core_asleep. rewrite <- (with_no_call (replace_top w t (AtStart k loc))). eapply core_move; [done..|by constructor|left; split; [done|]; by split].
    + apply (start_replace w _ t (AtStart k loc) (AtStart k loc) rest); [done|done|by intros []..|done|done|exact Hx].
    + intros x. unfold set_asleep. cbn [asleep]. intros [->%elem_of_singleton|Hin]%elem_of_union; change (stack {| rt := _ |} ?y) with (stack (replace_top w t (AtStart k loc)) y); rewrite Hx; [by rewrite decide_True|]. rewrite decide_False by (intros ->; done). by apply Hz.
  - unfold start_ok in Hs. rewrite Es in Hs. destruct Hs as [Hn Hfr]. assert (forall x, stack (begin_load w t k loc) x = if decide (x = t) then InLoad k loc :: rest else stack w x) as Hx by (intros x; by apply (stack_replace w t (AtStart k loc) rest)). split.
    + eapply core_begin; [done..|intros []|done].
    + unfold start_ok. change (start_state_ (rt (begin_load w t k loc))) with (start_state_ (rt w)). rewrite Es. cbv iota. rewrite starts_begin. split; [done|].
      intros x. rewrite Hx. case_decide; [|apply Hfr]. subst x. specialize (Hfr t). rewrite Hst, starting_cons, decide_False in Hfr by (intros []). rewrite starting_cons, decide_False by (intros []). done.
    + apply (sleep_others w _ t); [done..|]. intros x Hne. rewrite Hx. by rewrite decide_False.
  - eapply pinv_fail; [done..|intros []|by left].
Qed.

(** A load that starts the runtime is alone with it. *)
Lemma starting_alone w t k loc rest : start_ok w -> stack w t = InStart k loc :: rest ->
  start_state_ (rt w) = Starting /\ starts w = 1%nat /\ loads w = [] /\ starting rest = 0%nat /\ Forall (fun f => ~ is_load f) rest /\ forall x, x <> t -> starting (stack w x) = 0%nat /\ Forall (fun f => ~ is_load f) (stack w x).
Proof.
  intros Hs Hst. assert (starting (stack w t) = S (starting rest)) as E by (rewrite Hst, starting_cons, decide_True; done). unfold start_ok in Hs. destruct (start_state_ (rt w)).
  - destruct Hs as [_ H]. destruct (H t). lia.
  - destruct Hs as (H1 & H2 & H3 & t0 & H4 & H5). destruct (decide (t = t0)) as [<-|Hne]; [|rewrite H5 in E; done]. split_and!; [done..|lia| |].
    + specialize (H3 t). rewrite Hst in H3. by apply Forall_cons in H3 as [_ H3].
    + intros x Hx. split; [by apply H5|apply H3].
  - destruct Hs as [_ H]. rewrite H in E. done.
  - destruct Hs as (_ & _ & H). destruct (H t). lia.
Qed.

Lemma pinv_start_done w t k loc rest answer : pinv w -> stack w t = InStart k loc :: rest -> pinv (start_done w t k loc answer).
Proof.
  intros [Hc Hs Hz] Hst. destruct (starting_alone w t k loc rest Hs Hst) as (_ & Hn & Hl & H0 & Hrest & Hoth). assert (located (rt w) k loc) as Hloc by (pose proof (c_located _ Hc t) as H; rewrite Hst in H; by apply Forall_cons in H as [H _]). unfold start_done.
  destruct answer as [m|].
  - set (w1 := notify_all _). assert (core w1) as Hc1 by (by apply core_asleep, core_start). destruct (fail_settles w1 t k (library loc) (lit "the guest runtime failed to start: " ++ m)) as (e & m' & -> & He & Hm'). split; [|..|by intros x Hx%elem_of_empty].
    + eapply (core_settle w1 t _ rest); [done|exact Hst|by left|by rewrite He|by rewrite He|by apply failed_result].
    + unfold start_ok. change (start_state_ (rt (settle w1 t k e m' (failure m')))) with StartFailed. split; [done|]. split; [done|]. intros x.
      assert (stack (settle w1 t k e m' (failure m')) x = if decide (x = t) then rest else stack w x) as ->. { unfold settle, returns, add_result. change (stack (notify_all _) t) with (stack w t). rewrite Hst. exact (stack_set (notify_all (set_rt w1 (with_last_error (with_entry (rt w1) k e) m'))) t rest x). }
      case_decide as Ex; [done|by apply Hoth].
  - set (w1 := notify_all _). assert (core w1) as Hc1 by (by apply core_asleep, core_start). split; [by eapply (core_begin w1 t _ rest); [done|exact Hst|done|intros []|]| |by intros x Hx%elem_of_empty].
    unfold start_ok. change (start_state_ (rt (begin_load w1 t k loc))) with Started. cbv iota. rewrite starts_begin. split; [done|].
    intros x. unfold begin_load. rewrite stack_call, (stack_replace w1 t (InStart k loc) rest) by exact Hst. case_decide as Ex; [by rewrite starting_cons, decide_False by (intros [])|by apply Hoth].
Qed.

Lemma pinv_load_done w t k loc rest answer : pinv w -> stack w t = InLoad k loc :: rest -> pinv (load_done w t k loc answer).
Proof.
  intros [Hc Hs Hz] Hst. assert (forall lib d, pinv (fail_locked w t k lib d)) as Hfail by (intros lib d; eapply pinv_fail; [done..|intros []|by left]). unfold load_done. destruct answer as [m|v]; [apply Hfail|]. destruct (supported_art_version v) eqn:Ev; cbn [negb]; [|apply Hfail].
  set (e := {| state := Loaded |}). change (pinv (settle w t k e (last_error_ (rt w)) (success v))). eapply pinv_settle; [done..|intros []|by left|done| |].
  - intros _. split; [|done]. rewrite (c_fresh _ Hc t (InLoad k loc)); [done|rewrite Hst; by left|done].
  - exists e. cbn. by rewrite lookup_insert_eq.
Qed.

Lemma locate_located fs r k loc : (installed_ r = true -> active_ r = true) -> locate fs r k = inr loc -> located r k loc.
Proof.
  intros Hi. unfold locate, located. destruct (installed_ r) eqn:Ei.
  - destruct (_ || _) eqn:Eb; [done|]. cbv zeta. destruct (regular fs _); [|done]. intros [= <-]. apply orb_false_iff in Eb as [E1 E2]. apply negb_false_iff, bool_decide_eq_true in E1. apply negb_false_iff in E2. split; [by apply Hi|done].
  - destruct (parse_proxy_path k) as [e|l]; [done|]. destruct (active_ r) eqn:Ea; cbn [negb]; [|done]. case_bool_decide as Er; cbn [negb]; [|done]. destruct (regular fs _); [|done]. by intros [= <-].
Qed.

(** Claiming first and then waiting is what [entry_section] does at once. *)
Lemma start_claimed w t k loc : start_section (claim w t k) t k loc = start_section (replace_top (claim w t k) t (AtStart k loc)) t k loc.
Proof.
  assert (forall w f, stack (replace_top w t f) t = f :: tail (stack w t)) as Hs by (intros; unfold replace_top; by rewrite stack_same). unfold start_section. change (start_state_ (rt (replace_top ?v _ _))) with (start_state_ (rt v)). destruct (start_state_ (rt (claim w t k))).
  - unfold replace_top, set_rt, set_frames, add_call, stack. cbn. rewrite lookup_insert_eq. cbn. by rewrite insert_insert_eq.
  - by rewrite replace_twice.
  - unfold begin_load. by rewrite replace_twice.
  - unfold fail_locked, returns, notify_all, set_asleep, set_rt, replace_top, set_frames, add_result, stack. cbn. rewrite !lookup_insert_eq. cbn. by rewrite !insert_insert_eq.
Qed.

Lemma pinv_entry fs w t path k b why rest : pinv w -> stack w t = AtEntry path k b why :: rest -> t ∉ asleep w -> pinv (entry_section fs w t path k b why).
Proof.
  intros [Hc Hs Hz] Hst Ht. unfold entry_section. assert (forall r, result_ok (rt w) (t, k, r) -> pinv (returns w t k r)) as Hret.
  { intros r Hr. assert (forall x, stack (returns w t k r) x = if decide (x = t) then rest else stack w x) as Hx by (intros x; unfold returns, add_result; rewrite Hst; exact (stack_set w t rest x)). split.
    - by eapply core_return.
    - apply (start_pop w _ t (AtEntry path k b why) rest); [done|done|by intros []|done|done|exact Hx].
    - apply (sleep_others w _ t); [done..|]. intros x Hne. by rewrite Hx, decide_False. }
  destruct (entries_ (rt w) !! k) as [e|] eqn:Ee.
  - destruct (state e) eqn:Es.
    + destruct (Z.eqb_spec (owner e) t) as [|Ho]; [apply Hret; by left|]. split; [by apply core_asleep|done|]. intros x [->%elem_of_singleton|Hin]%elem_of_union; [|by apply Hz]. change (stack (set_asleep w _) t) with (stack w t). rewrite Hst. by exists e.
    + apply Hret. by exists e.
    + apply Hret. right. by exists e.
  - assert (mine w (AtEntry path k b why) k) as Hm by (by right). destruct b; cbn [negb]; [|eapply pinv_fail; [done..|by intros []|done]]. fold (claim w t k). cbv zeta. destruct (locate fs (rt (claim w t k)) k) as [[lib d]|loc] eqn:El.
    + destruct (fail_claimed w t k lib d) as (e & m & -> & He & Hm'). eapply pinv_settle; [done..|by intros []|done|by rewrite He|by rewrite He|by apply failed_result].
    + assert (located (rt w) k loc) as Hloc by (apply (locate_located fs (rt (claim w t k))); [apply Hc|done]). rewrite start_claimed. eapply (pinv_start _ _ _ _ rest).
      * by eapply core_claim.
      * apply (start_replace w _ t (AtEntry path k true why) (AtStart k loc) rest); [done|done|by intros []..|done|done|]. intros x. by apply (stack_replace (claim w t k) t (AtEntry path k true why)).
      * intros x Hin. change (x ∈ asleep w) in Hin. assert (x <> t) as Hne by (intros ->; done). rewrite (stack_replace (claim w t k) t (AtEntry path k true why) rest), decide_False by done. change (stack (claim w t k) x) with (stack w x). specialize (Hz x Hin). destruct (stack w x) as [|[p' k' b' y'|k' l'|k' l'|k' l'] rest']; try done.
        destruct Hz as (e & He & Hse & Ho). exists e. cbn. rewrite lookup_insert_ne; [done|]. intros ->. congruence.
      * rewrite (stack_replace (claim w t k) t (AtEntry path k true why) rest), decide_True by done. done.
      * done.
Qed.

Lemma pinv_enter fs w t path : pinv w -> may_call w t = true -> pinv (on_proxy_loaded fs w t path).
Proof.
  intros [Hc Hs Hz] Hm. assert (t ∉ asleep w) as Ht by (intros Hin; specialize (Hz t Hin); unfold may_call in Hm; destruct (stack w t) as [|[] ?]; done).
  assert (forall k b y, pinv (set_frames w t (AtEntry path k b y :: stack w t))) as H; [|unfold on_proxy_loaded; destruct (canonical_path fs path); apply H]. intros k b y. split.
  - by apply core_enter.
  - apply (start_same w); [done..| |]; intros x; rewrite stack_set; case_decide as Ex; try done; subst x; [by rewrite starting_cons, decide_False by (intros [])|]. intros Hl. constructor; [by intros []|done].
  - apply (sleep_others w _ t); [done..|]. intros x Hne. by rewrite stack_set, decide_False.
Qed.

Lemma pinv_config w r : pinv w -> activates (rt w) r -> pinv (set_rt w r).
Proof.
  intros [Hc Hs Hz] [[-> Ha]|(Ha & i & root & native & libs & sdk & o & ->)]; [by destruct w|]. split; [by apply core_activated|exact Hs|exact Hz].
Qed.

Lemma pinv_step w w' : step w w' -> pinv w -> pinv w'.
Proof.
  intros Hst Hp. destruct Hst.
  - by apply pinv_enter.
  - by eapply pinv_entry.
  - destruct Hp. by eapply pinv_start.
  - destruct Hp as [Hc Hs Hz]. split; [by apply core_asleep|done|]. intros x [Hin _]%elem_of_difference. by apply Hz.
  - by eapply pinv_start_done.
  - by eapply pinv_load_done.
  - apply pinv_config; [done|]. by eapply plugin_activates.
  - apply pinv_config; [done|]. by eapply installed_activates.
Qed.

Lemma pinv_init : pinv World_init.
Proof.
  split; [split; cbn; try done| |by intros x Hx%elem_of_empty].
  - by intros t k Hk%elem_of_nil.
  - intros t. constructor.
  - constructor.
  - by intros t f k Hf%elem_of_nil.
  - split; [done|]. intros t. split; [done|constructor].
Qed.

Lemma pinv_steps w w' : steps w w' -> pinv w -> pinv w'.
Proof. induction 1 as [w|w1 w2 w3 H _ IH]; [done|]. intros Hp. by apply IH, (pinv_step w1). Qed.
Lemma pinv_reachable w : reachable w -> pinv w.
Proof. intros H. by apply (pinv_steps _ _ H), pinv_init. Qed.

(** ** Properties *)

(** C29: in every reachable interleaving of loads, nested loads, wake-ups and activations the
    engine is started at most once, with the options of the active plugin; a proxy is loaded
    at most once, only when the start has succeeded, and only as the arm32 library that the
    active plugin or package keeps for it. *)
Theorem proxy_loads_once w : reachable w ->
  (starts w <= 1)%nat /\ NoDup (loads w) /\ (loads w <> [] -> start_state_ (rt w) = Started) /\
  forall c, c ∈ calls w -> match c with EStart _ o => active_ (rt w) = true /\ o = options_ (rt w) | ELoad _ k g => exists loc, located (rt w) k loc /\ g = guest_library loc end.
Proof.
  intros [Hc Hs _]%pinv_reachable. split_and!.
  - unfold start_ok in Hs. unfold starts in *. destruct (start_state_ (rt w)); [destruct Hs as [-> _]; cbn; lia|destruct Hs; lia..].
  - apply Hc.
  - intros Hl. unfold start_ok in Hs. destruct (start_state_ (rt w)); [|by destruct Hs as (_ & ? & _)|done|by destruct Hs as (_ & ? & _)]. destruct Hs as [Ec _]. unfold loads in Hl. by rewrite Ec in Hl.
  - intros c Hin. pose proof (c_calls _ Hc) as H. rewrite Forall_forall in H. specialize (H c Hin). destruct c; [done|]. by destruct H as [H _].
Qed.

(** A step keeps settled entries, the configuration of an active process and the results. *)
Definition final (w w' : World) : Prop :=
  (forall k e, entries_ (rt w) !! k = Some e -> state e <> Loading -> entries_ (rt w') !! k = Some e) /\
  (active_ (rt w) = true -> active_ (rt w') = true /\ plugin_root_ (rt w') = plugin_root_ (rt w) /\ installed_ (rt w') = installed_ (rt w) /\ target_sdk_ (rt w') = target_sdk_ (rt w) /\ options_ (rt w') = options_ (rt w)).

Lemma final_trans w1 w2 w3 : final w1 w2 -> final w2 w3 -> final w1 w3.
Proof.
  intros [A1 A2] [B1 B2]. split; [by auto|]. intros Ha. destruct (A2 Ha) as (Ha2 & -> & -> & -> & ->) || destruct (A2 Ha) as (Ha2 & E1 & E2 & E3 & E4). destruct (B2 Ha2) as (Ha3 & F1 & F2 & F3 & F4). split_and!; congruence.
Qed.

(** Only the entry of [k] may differ. *)
Definition touches (k : text) (r r' : ProxyRuntime) : Prop :=
  active_ r' = active_ r /\ plugin_root_ r' = plugin_root_ r /\ installed_ r' = installed_ r /\ target_sdk_ r' = target_sdk_ r /\ options_ r' = options_ r /\ forall k', k' <> k -> entries_ r' !! k' = entries_ r !! k'.

Lemma final_touches w w' k : touches k (rt w) (rt w') -> (forall e, entries_ (rt w) !! k = Some e -> state e = Loading) -> final w w'.
Proof.
  intros (E1 & E2 & E3 & E4 & E5 & Ho) Hk. split; [|by rewrite E1, E2, E3, E4, E5]. intros k' e He Hs. rewrite Ho; [done|]. intros ->. by apply Hs, Hk.
Qed.

Lemma touches_fail w t k lib d : touches k (rt w) (rt (fail_locked w t k lib d)).
Proof. split_and!; try done. intros k' Hne. cbn. by rewrite lookup_insert_ne. Qed.
Lemma touches_start w t k loc : touches k (rt w) (rt (start_section w t k loc)).
Proof. unfold start_section. destruct (start_state_ (rt w)); [by split_and!..|apply touches_fail]. Qed.

Lemma touches_claim w w' t k : touches k (rt (claim w t k)) (rt w') -> touches k (rt w) (rt w').
Proof. intros (E1 & E2 & E3 & E4 & E5 & Ho). split_and!; try done. intros k' Hne. rewrite Ho by done. cbn. by rewrite lookup_insert_ne. Qed.

Lemma touches_entry fs w t path k b why : touches k (rt w) (rt (entry_section fs w t path k b why)) /\ (entries_ (rt w) !! k <> None -> rt (entry_section fs w t path k b why) = rt w).
Proof.
  unfold entry_section. destruct (entries_ (rt w) !! k) as [e|] eqn:Ee.
  - assert (rt (match state e with Loaded => returns w t k (success (jni_version e)) | Failed => returns w t k (failure (error e)) | Loading => if owner e =? t then returns w t k (failure (lit "ZettaBridge: recursive load of proxy " ++ k)) else set_asleep w ({[t]} ∪ asleep w) end) = rt w) as E by (destruct (state e); [by destruct (_ =? _)|done..]).
    split; [|done]. unfold touches. by rewrite E.
  - split; [|done]. destruct b; cbn [negb]; [|apply touches_fail]. fold (claim w t k). cbv zeta. destruct (locate _ _ _) as [[lib d]|loc]; apply (touches_claim _ _ t); [apply touches_fail|apply touches_start].
Qed.

Lemma touches_start_done w t k loc a : touches k (rt w) (rt (start_done w t k loc a)).
Proof. destruct a as [m|]; [|by split_and!]. split_and!; try done. intros k' Hne. cbn. by rewrite lookup_insert_ne. Qed.
Lemma touches_load_done w t k loc a : touches k (rt w) (rt (load_done w t k loc a)).
Proof. unfold load_done. destruct a as [m|v]; [apply touches_fail|]. destruct (negb _); [apply touches_fail|]. split_and!; try done. intros k' Hne. cbn. by rewrite lookup_insert_ne. Qed.

Lemma top_loading w t f rest k : core w -> stack w t = f :: rest -> working f = Some k -> forall e, entries_ (rt w) !! k = Some e -> state e = Loading.
Proof. intros Hc Hst Hf e He. destruct (c_work _ Hc t k) as (e' & He' & Hs & _); [eapply elem_work; [rewrite Hst; by left|done]|]. congruence. Qed.

Lemma step_final w w' : step w w' -> pinv w -> final w w'.
Proof.
  assert (forall w, final w w) as Hrefl by (intros w0; split; [done|by intros]).
  intros Hst [Hc _ _]. destruct Hst as [fs t path Hm|fs t path k b why rest Hf Ht|t k loc rest Hf Ht|t|t k loc rest a Hf|t k loc rest a Hf|fs b root sdk l r Ha|fs b files native sdk l r Ha].
  - unfold on_proxy_loaded. destruct (canonical_path fs path); exact (Hrefl w).
  - destruct (touches_entry fs w t path k b why) as [Ht1 Ht2]. destruct (entries_ (rt w) !! k) as [e|] eqn:Ee; [|eapply final_touches; [done|congruence]]. unfold final. rewrite Ht2 by done. exact (Hrefl w).
  - eapply final_touches; [apply touches_start|by eapply top_loading].
  - exact (Hrefl w).
  - eapply final_touches; [apply touches_start_done|by eapply top_loading].
  - eapply final_touches; [apply touches_load_done|by eapply top_loading].
  - apply plugin_activates in Ha as [[-> _]|(Hin & i & c & n & g & s & o & ->)]; [exact (Hrefl w)|]. split; [done|congruence].
  - apply installed_activates in Ha as [[-> _]|(Hin & i & c & n & g & s & o & ->)]; [exact (Hrefl w)|]. split; [done|congruence].
Qed.

(** outcomes are final.  From a reachable state on, a proxy that was loaded or failed
    stays so with the same version or message, and an activated process keeps its plugin,
    target and options; and every result a caller was given is the outcome of its proxy, or
    the refusal of a load by the thread that is loading it. *)
Theorem proxy_outcomes_final w w' : reachable w -> steps w w' -> final w w' /\ Forall (result_ok (rt w')) (results w').
Proof.
  intros Hr Hst. split.
  - pose proof (pinv_reachable w Hr) as Hp. clear Hr. induction Hst as [w|w1 w2 w3 H _ IH]; [by split; [done|intros]|]. eapply final_trans; [by apply step_final|]. apply IH. by eapply pinv_step.
  - assert (reachable w') as Hr' by (unfold reachable, steps in *; by etrans). apply (c_results _ (p_core _ (pinv_reachable w' Hr'))).
Qed.

(** What a thread asleep in the condition variable waits for: a load another thread has in
    progress, further down that thread's stack; a start of the runtime that another thread
    makes; or, when the engine's start asked for a library on the very thread that makes it,
    that thread's own start, which is then below it on its stack and cannot end. *)
Definition waits_for (w : World) (t : Z) : Prop :=
  (exists path k b why rest e, stack w t = AtEntry path k b why :: rest /\ entries_ (rt w) !! k = Some e /\ state e = Loading /\ owner e <> t /\ exists f, f ∈ stack w (owner e) /\ working f = Some k) \/
  (exists k loc rest t0 k0 loc0, stack w t = AtStart k loc :: rest /\ start_state_ (rt w) = Starting /\ t0 <> t /\ InStart k0 loc0 ∈ stack w t0) \/
  (exists k loc rest k0 loc0, stack w t = AtStart k loc :: rest /\ start_state_ (rt w) = Starting /\ InStart k0 loc0 ∈ rest).

(** C30: no wake-up is lost and no thread waits for nothing: a thread asleep in the condition
    variable waits for a proxy that another thread has a load in progress for, further down
    its stack, or for a start that another thread is making.  The one exception is a thread
    that loads a proxy from inside the engine's start of the runtime, which the engine is not
    kept from: it waits for the start it makes itself ([own_start_waits]). *)
Theorem proxy_waits_justified w t : reachable w -> t ∈ asleep w -> waits_for w t.
Proof.
  intros [Hc Hs Hz]%pinv_reachable Ht. specialize (Hz t Ht). destruct (stack w t) as [|[path k b why|k loc|k loc|k loc] rest] eqn:Est; try done.
  - left. destruct Hz as (e & He & Hse & Ho). exists path, k, b, why, rest, e. split_and!; [done..|]. pose proof (c_loading _ Hc k e He Hse) as Hw. apply list_elem_of_omap in Hw as (f & Hf & Ek). by exists f.
  - right. unfold start_ok in Hs. rewrite Hz in Hs. destruct Hs as (_ & _ & _ & t0 & H1 & _). unfold starting in H1. destruct (filter is_start (stack w t0)) as [|f l] eqn:Ef; [done|].
    assert (f ∈ filter is_start (stack w t0)) as Hin by (rewrite Ef; by left). apply list_elem_of_filter in Hin as [Hf Hin]. destruct f as [|?|k0 loc0|?]; try done.
    destruct (decide (t0 = t)) as [->|Hne]; [right|left; by exists k, loc, rest, t0, k0, loc0]. rewrite Est in Hin. apply elem_of_cons in Hin as [?|Hin]; [done|]. by exists k, loc, rest, k0, loc0.
Qed.

(** ** Proxy paths *)

(** The path of a list of components. *)
Definition path_of (cs : list text) : text := concat (map (cons slash) cs).
Definition plain (c : text) : Prop := c <> [] /\ slash ∉ c /\ c <> lit "." /\ c <> lit "..".

Lemma split_on_plain c : slash ∉ c -> split_on slash c = [c] /\ forall r, split_on slash (c ++ slash :: r) = c :: split_on slash r.
Proof.
  induction c as [|x c IH]; intros Hn; [split; [done|]; intros r; cbn; by destruct (split_on_cons slash r) as (p & ps & ->)|]. apply not_elem_of_cons in Hn as [Hx Hn]. destruct (IH Hn) as [H1 H2]. cbn [split_on app]. rewrite H1, (proj2 (Z.eqb_neq x slash)) by done.
  split; [done|]. intros r. by rewrite H2.
Qed.

Lemma split_path_of cs : cs <> [] -> Forall (fun c => slash ∉ c) cs -> split (path_of cs) = cs.
Proof.
  intros Hne Hf. unfold split. destruct cs as [|c cs]; [done|]. clear Hne. unfold path_of. cbn [map concat app]. rewrite (proj2 (Z.leb_le _ _)) by (unfold size; cbn; lia). cbn [drop]. revert c Hf.
  induction cs as [|d cs IH]; intros c [Hc Hf]%Forall_cons; cbn [map concat]; [rewrite app_nil_r; by apply split_on_plain|]. change (split_on slash (c ++ slash :: (d ++ concat (map (cons slash) cs))) = c :: d :: cs). rewrite (proj2 (split_on_plain c Hc)). f_equal. by apply IH.
Qed.

Lemma path_of_split_on s : path_of (split_on slash s) = slash :: s /\ Forall (fun c => slash ∉ c) (split_on slash s).
Proof.
  induction s as [|x s [IH1 IH2]]; [split; [done|]; constructor; [apply not_elem_of_nil|constructor]|]. cbn [split_on]. destruct (split_on_cons slash s) as (p & ps & E). rewrite E in *. apply Forall_cons in IH2 as [Hp Hps]. destruct (Z.eqb_spec x slash) as [->|Hx].
  - split; [|constructor; [apply not_elem_of_nil|by constructor]]. unfold path_of in *. cbn [map concat] in *. by rewrite <- IH1.
  - split; [|constructor; [|done]; by apply not_elem_of_cons]. unfold path_of in *. cbn [map concat] in *. cbn in IH1. injection IH1 as IH1. cbn. by rewrite IH1.
Qed.

Lemma join_path parts n : (0 < n)%nat -> parts <> [] -> join parts n = path_of (take n parts).
Proof. intros Hn Hp. unfold join, path_of. destruct n; [lia|]. destruct parts; [done|]. done. Qed.

(** The last four components. *)
Lemma last_four (l : list text) : (4 <= length l)%nat -> exists dirs a b c d, l = dirs ++ [a; b; c; d].
Proof.
  intros Hl. exists (take (length l - 4) l). assert (length (drop (length l - 4) l) = 4%nat) as Hd by (rewrite length_drop; lia). destruct (drop (length l - 4) l) as [|a [|b [|c [|d [|]]]]] eqn:E; try done.
  exists a, b, c, d. by rewrite <- E, take_drop.
Qed.

Lemma from_end_four dirs (a b c d : text) : from_end (dirs ++ [a; b; c; d]) 1 = d /\ from_end (dirs ++ [a; b; c; d]) 2 = c /\ from_end (dirs ++ [a; b; c; d]) 3 = b /\ from_end (dirs ++ [a; b; c; d]) 4 = a.
Proof.
  unfold from_end. rewrite length_app. cbn [length]. split_and!; rewrite app_nth2 by lia; [replace (length dirs + 4 - 1 - length dirs)%nat with 3%nat by lia|replace (length dirs + 4 - 2 - length dirs)%nat with 2%nat by lia|replace (length dirs + 4 - 3 - length dirs)%nat with 1%nat by lia|replace (length dirs + 4 - 4 - length dirs)%nat with 0%nat by lia]; done.
Qed.

Lemma join_four dirs (a b c d : text) : dirs <> [] -> let l := dirs ++ [a; b; c; d] in join l (length l - 4) = path_of dirs /\ join l (length l - 2) = path_of (dirs ++ [a; b]).
Proof.
  intros Hd l. assert (length l = (length dirs + 4)%nat) as E by (unfold l; by rewrite length_app). assert (l <> []) as Hl by (unfold l; by destruct dirs). destruct dirs as [|x dirs]; [done|]. rewrite !join_path by (rewrite ?E; cbn; done || lia). rewrite E.
  replace (length (x :: dirs) + 4 - 4)%nat with (length (x :: dirs) + 0)%nat by lia. replace (length (x :: dirs) + 4 - 2)%nat with (length (x :: dirs) + 2)%nat by lia. unfold l. rewrite !take_app_add. cbn [take]. by rewrite app_nil_r.
Qed.

Lemma path_of_app l1 l2 : path_of (l1 ++ l2) = path_of l1 ++ path_of l2.
Proof. unfold path_of. by rewrite map_app, concat_app. Qed.

Lemma inr_inj (x y : ProxyLocation) : (inr x : text + ProxyLocation) = inr y -> x = y.
Proof. by intros [= ->]. Qed.

Lemma library_shape file : (size file <=? 6) || negb (bool_decide (take 3 file = lit "lib")) || negb (bool_decide (drop (length file - 3) file = lit ".so")) = false <-> exists name, name <> [] /\ file = lit "lib" ++ name ++ lit ".so".
Proof.
  rewrite !orb_false_iff, Z.leb_gt, !negb_false_iff, !bool_decide_eq_true. split.
  - intros [[Hs Ht] Hd]. unfold size in Hs. exists (drop 3 (take (length file - 3) file)). split.
    + intros E. apply (f_equal length) in E. rewrite length_drop, length_take in E. cbn in E. lia.
    + rewrite <- Hd, <- Ht at 1. rewrite app_assoc. assert (take 3 file = take 3 (take (length file - 3) file)) as -> by (rewrite take_take; f_equal; lia). by rewrite take_drop, take_drop.
  - intros (name & Hn & ->). destruct name as [|x name]; [done|]. assert (length (lit "lib" ++ (x :: name) ++ lit ".so") = (length name + 7)%nat) as E by (rewrite !length_app; cbn; lia). split; [split; [unfold size; rewrite E; lia|done]|].
    rewrite E. replace (length name + 7 - 3)%nat with (length (lit "lib" ++ (x :: name))) by (rewrite length_app; cbn; lia). rewrite app_assoc. by rewrite drop_app_length.
Qed.

Lemma dots_plain parts : existsb (fun part => bool_decide (part = []) || bool_decide (part = lit ".") || bool_decide (part = lit "..")) parts = false <-> Forall (fun c => c <> [] /\ c <> lit "." /\ c <> lit "..") parts.
Proof.
  induction parts as [|c parts IH]; cbn [existsb]; [split; [constructor|done]|]. rewrite orb_false_iff, IH, Forall_cons, !orb_false_iff, !bool_decide_eq_false. tauto.
Qed.

(** a proxy path is accepted exactly when it is an absolute path of plain components
    that ends in plugins/<package>/proxy/lib<name>.so below some directory, and the location
    names that directory, the plugin, the package, the file, and the library of the same
    name in the plugin's lib directory. *)
Theorem parse_proxy_path_exact p loc :
  parse_proxy_path p = inr loc <->
  exists dirs pkg name, dirs <> [] /\ Forall plain (dirs ++ [pkg]) /\ name <> [] /\ slash ∉ name /\
    let file := lit "lib" ++ name ++ lit ".so" in
    p = path_of (dirs ++ [lit "plugins"; pkg; lit "proxy"; file]) /\
    loc = {| proxy := p; files_dir := path_of dirs; plugin_root := path_of (dirs ++ [lit "plugins"; pkg]); package := pkg; library := file;
             guest_library := path_of (dirs ++ [lit "plugins"; pkg; lit "lib"; file]) |}.
Proof.
  unfold parse_proxy_path. split.
  - case_bool_decide as Hh; [|done]. cbn [negb]. destruct p as [|x p]; [done|]. injection Hh as ->. assert (split (slash :: p) = split_on slash p) as -> by (unfold split; rewrite (proj2 (Z.leb_le _ _)); [done|unfold size; cbn; lia]). destruct (path_of_split_on p) as [Ep Hns].
    destruct (existsb _ _) eqn:Ed; [done|]. apply dots_plain in Ed. destruct (Nat.ltb_spec (length (split_on slash p)) 5) as [|Hlen]; [done|]. destruct (last_four (split_on slash p)) as (dirs & a & b & c & d & E); [lia|]. rewrite E in *. cbv zeta.
    destruct (from_end_four dirs a b c d) as (-> & -> & -> & ->). case_bool_decide as Hc; [|done]. case_bool_decide as Ha; [|done]. cbn [negb]. subst a c. destruct (_ || _) eqn:Es; [done|]. apply library_shape in Es as (name & Hn & ->). intros Eloc. apply inr_inj in Eloc as <-.
    rewrite length_app in Hlen. cbn [length] in Hlen. assert (dirs <> []) as Hdirs by (intros ->; cbn in Hlen; lia). exists dirs, b, name. assert (Forall plain (dirs ++ [b])) as Hpl.
    { apply Forall_app in Ed as [Ed1 Ed2], Hns as [Hn1 Hn2]. apply Forall_app. split.
      - apply Forall_forall. intros y Hy. rewrite Forall_forall in Ed1, Hn1. destruct (Ed1 y Hy) as (? & ? & ?). specialize (Hn1 y Hy). by split_and!.
      - inversion Ed2 as [|? ? _ Ed3]. inversion Ed3 as [|? ? (? & ? & ?) _]. inversion Hn2 as [|? ? _ Hn3]. inversion Hn3. constructor; [by split_and!|constructor]. }
    split_and!; [done..| | |].
    + apply Forall_app in Hns as [_ Hns]. rewrite !Forall_cons in Hns. destruct Hns as (_ & _ & _ & Hns & _). intros Hin. apply Hns. rewrite !elem_of_app. tauto.
    + by rewrite <- Ep.
    + destruct (join_four dirs (lit "plugins") b (lit "proxy") (lit "lib" ++ name ++ lit ".so") Hdirs) as [-> ->]. f_equal. rewrite !path_of_app, <- app_assoc. f_equal. unfold path_of. cbn [map concat]. rewrite !app_nil_r. by rewrite <- !app_assoc.
  - intros (dirs & pkg & name & Hd & Hp & Hn & Hs & -> & ->). set (file := lit "lib" ++ name ++ lit ".so"). set (l := dirs ++ [lit "plugins"; pkg; lit "proxy"; file]). assert (slash ∉ file) as Hfs by (unfold file; rewrite !elem_of_app; intros [H|[H|H]]; [|done|]; revert H; vm_compute; set_solver).
    apply Forall_app in Hp as [Hp1 Hp2]. apply Forall_cons in Hp2 as [(Hk1 & Hk2 & Hk3 & Hk4) _]. assert (Forall (fun c => slash ∉ c) l) as Hns.
    { apply Forall_app. split; [eapply Forall_impl; [exact Hp1|]; by intros y (_ & ? & _)|]. repeat (apply Forall_cons_2; [try done; vm_compute; set_solver|]). constructor. }
    assert (split (path_of l) = l) as -> by (apply split_path_of; [unfold l; by destruct dirs|done]). rewrite bool_decide_true by (unfold l; by destruct dirs). cbn [negb]. rewrite (proj2 (dots_plain l)).
    2: { apply Forall_app. split; [eapply Forall_impl; [exact Hp1|]; by intros y (? & _ & ? & ?)|]. repeat (apply Forall_cons_2; [by split_and!|]). constructor. }
    assert (length l = (length dirs + 4)%nat) as El by (unfold l; by rewrite length_app). destruct (Nat.ltb_spec (length l) 5) as [Hlt|_]; [exfalso; destruct dirs; [done|]; cbn in *; lia|]. cbv zeta.
    destruct (from_end_four dirs (lit "plugins") pkg (lit "proxy") file) as (E1 & E2 & E3 & E4). fold l in E1, E2, E3, E4. rewrite E1, E2, E3, E4. rewrite (proj2 (library_shape file)) by (by exists name). rewrite !bool_decide_true by done. cbn [negb].
    destruct (join_four dirs (lit "plugins") pkg (lit "proxy") file Hd) as [J1 J2]. fold l in J1, J2. rewrite J1, J2. do 2 f_equal. rewrite !path_of_app, <- app_assoc. f_equal. unfold path_of. cbn [map concat]. rewrite !app_nil_r. by rewrite <- !app_assoc.
Qed.

(** ** Runs *)

Definition sample_files : Files := {| real_path := fun p => inr p; regular := fun _ => true; is_dir := fun _ => true |}.
Definition sample_proxy (name : string) : text := lit "/d/plugins/p/proxy/lib" ++ lit name ++ lit ".so".

(** The operations of a script, for threads that are awake. *)
Inductive action := Activate | Call (t : Z) (path : text) | Go (t : Z) | Wake (t : Z) | Answer (t : Z) (a : text + Z).

Definition act (w : World) (a : action) : option World :=
  match a with
  | Activate => match activate_plugin sample_files None (lit "/d/plugins/p") 30 1 (rt w) with inr r => Some (set_rt w r) | inl _ => None end
  | Call t path => if may_call w t then Some (on_proxy_loaded sample_files w t path) else None
  | Go t =>
      if decide (t ∈ asleep w) then None
      else match stack w t with
           | AtEntry path k b why :: _ => Some (entry_section sample_files w t path k b why)
           | AtStart k loc :: _ => Some (start_section w t k loc)
           | _ => None
           end
  | Wake t => Some (set_asleep w (asleep w ∖ {[t]}))
  | Answer t a =>
      match stack w t with
      | InStart k loc :: _ => Some (start_done w t k loc (match a with inl e => Some e | inr _ => None end))
      | InLoad k loc :: _ => Some (load_done w t k loc a)
      | _ => None
      end
  end.

Definition play (l : list action) (w : World) : option World := foldl (fun o a => o ≫= fun w => act w a) (Some w) l.

Lemma act_step w a w' : act w a = Some w' -> step w w'.
Proof.
  destruct a as [|t path|t|t|t a]; unfold act.
  - destruct (activate_plugin sample_files None (lit "/d/plugins/p") 30 1 (rt w)) as [|r] eqn:E; [done|]. intros [= <-]. exact (StepActivate w sample_files None _ 30 1 r E).
  - destruct (may_call w t) eqn:E; [|done]. intros [= <-]. by apply StepCall.
  - case_decide as Ht; [done|]. destruct (stack w t) as [|[] rest] eqn:E; try done; intros [= <-]; [by eapply StepEntry|by eapply StepStart].
  - intros [= <-]. apply StepWake.
  - destruct (stack w t) as [|[] rest] eqn:E; try done; intros [= <-]; [by eapply StepStartDone|by eapply StepLoadDone].
Qed.

Lemma play_steps l : forall w w', play l w = Some w' -> steps w w'.
Proof.
  assert (forall l, foldl (fun (o : option World) a => o ≫= fun w => act w a) None l = None) as Hnone by (induction l0 as [|a l0 IH]; [done|exact IH]).
  unfold play. induction l as [|a l IH]; intros w w'; cbn; [intros [= <-]; apply rtc_refl|]. destruct (act w a) as [w1|] eqn:E; cbn; [|by rewrite Hnone]. intros H. eapply rtc_l; [by eapply act_step|by apply IH].
Qed.

(** Two threads ask for the same proxy; the first starts the runtime meanwhile. *)
Definition sample_waiting : World := default World_init (play [Activate; Call 1 (sample_proxy "a"); Go 1; Call 2 (sample_proxy "a"); Go 2] World_init).
Definition sample_loaded : World := default World_init (play [Answer 1 (inr 0); Answer 1 (inr 0x10006); Go 2] sample_waiting).

Lemma sample_waiting_reachable : reachable sample_waiting.
Proof. apply (play_steps [Activate; Call 1 (sample_proxy "a"); Go 1; Call 2 (sample_proxy "a"); Go 2]). unfold sample_waiting. by destruct (play _ _) eqn:E; [|vm_compute in E]. Qed.
Lemma sample_loaded_steps : steps sample_waiting sample_loaded.
Proof. apply (play_steps [Answer 1 (inr 0); Answer 1 (inr 0x10006); Go 2]). unfold sample_loaded. by destruct (play [_; _; _] _) eqn:E; [|vm_compute in E]. Qed.

Lemma sample_loaded_reachable : reachable sample_loaded.
Proof. pose proof sample_waiting_reachable. pose proof sample_loaded_steps. unfold reachable, steps in *. by etrans. Qed.

Lemma proxy_loads_once_witness :
  reachable sample_loaded /\ loads sample_loaded = [sample_proxy "a"] /\
  ((starts sample_loaded <= 1)%nat /\ NoDup (loads sample_loaded) /\ (loads sample_loaded <> [] -> start_state_ (rt sample_loaded) = Started) /\
   forall c, c ∈ calls sample_loaded -> match c with EStart _ o => active_ (rt sample_loaded) = true /\ o = options_ (rt sample_loaded) | ELoad _ k g => exists loc, located (rt sample_loaded) k loc /\ g = guest_library loc end).
Proof.
  split; [exact sample_loaded_reachable|]. split; [vm_compute; reflexivity|]. exact (proxy_loads_once sample_loaded sample_loaded_reachable).
Defined.

Lemma proxy_outcomes_final_witness :
  length (results sample_loaded) = 2%nat /\ (final sample_waiting sample_loaded /\ Forall (result_ok (rt sample_loaded)) (results sample_loaded)).
Proof. split; [vm_compute; reflexivity|]. apply (proxy_outcomes_final sample_waiting sample_loaded sample_waiting_reachable sample_loaded_steps). Defined.

Lemma proxy_waits_justified_witness : 2 ∈ asleep sample_waiting /\ waits_for sample_waiting 2.
Proof.
  assert (2 ∈ asleep sample_waiting) as H by (apply (bool_decide_unpack _); vm_compute; exact I). exact (conj H (proxy_waits_justified sample_waiting 2 sample_waiting_reachable H)).
Defined.

(** A start that asks for a library on its own thread: the thread sleeps on itself, and goes
    back to sleep when it is woken. *)
Example own_start_waits :
  match play [Activate; Call 1 (sample_proxy "a"); Go 1; Call 1 (sample_proxy "b"); Go 1; Wake 1; Go 1] World_init with
  | Some w => bool_decide (asleep w = {[1]}) && match stack w 1 with [AtStart _ _; InStart _ _] => true | _ => false end
  | None => false
  end = true.
Proof. vm_compute. reflexivity. Qed.

(** The second caller got the version the first one loaded. *)
Example sample_results : map (fun '(t, _, r) => (t, ok r, version r)) (results sample_loaded) = [(1, true, 0x10006); (2, true, 0x10006)].
Proof. vm_compute. reflexivity. Qed.

(** Two libraries that load each other, on two threads: each waits for the other's load, and
    a thread that is woken goes back to sleep. *)
Example crossed_loads_wait :
  match play [Activate; Call 1 (sample_proxy "a"); Go 1; Answer 1 (inr 0); Call 2 (sample_proxy "b"); Go 2; Call 1 (sample_proxy "b"); Go 1; Call 2 (sample_proxy "a"); Go 2; Wake 1; Go 1; Wake 2; Go 2] World_init with
  | Some w => bool_decide (asleep w = {[1; 2]}) && bool_decide (length (results w) = 0%nat) && bool_decide (length (stack w 1) = 2%nat) && bool_decide (length (stack w 2) = 2%nat)
  | None => false
  end = true.
Proof. vm_compute. reflexivity. Qed.
