(* ===== verification/GlSizes.v ===== *)
(** * Sizes of GLES arguments

    The size computations of [core/src/gl/gl_manual.cpp]: bytes of an image, of a vertex
    attribute, of an element index, and the number of components of a uniform.  The theorem
    relates [gl_pixel_bytes] to the place of every pixel of an image whose rows are padded
    to the pixel store alignment. *)

From stdpp Require Import numbers list.
From S2P Require Import Prelude.
Local Open Scope Z_scope.

Definition UINT64_MAX : Z := 2 ^ 64 - 1.

Definition checked_multiply (a b : Z) : option Z :=
  if negb (a =? 0) && (UINT64_MAX / a <? b) then None else Some (u64 (a * b)).

Definition uniform_components (type : Z) : Z :=
  if bool_decide (type ∈ [0x1404; 0x1406; 0x8B56; 0x8B5E; 0x8B60]) then 1
  else if bool_decide (type ∈ [0x8B50; 0x8B53; 0x8B57]) then 2
  else if bool_decide (type ∈ [0x8B51; 0x8B54; 0x8B58]) then 3
  else if bool_decide (type ∈ [0x8B52; 0x8B55; 0x8B59; 0x8B5A]) then 4
  else if type =? 0x8B5B then 9
  else if type =? 0x8B5C then 16
  else 0.

Definition attribute_component_bytes (type : Z) : Z :=
  if bool_decide (type ∈ [0x1400; 0x1401]) then 1
  else if bool_decide (type ∈ [0x1402; 0x1403; 0x140B]) then 2
  else if bool_decide (type ∈ [0x1404; 0x1405; 0x1406; 0x140C]) then 4
  else 0.

Definition element_index_bytes (type : Z) : Z :=
  if type =? 0x1401 then 1 else if type =? 0x1403 then 2 else if type =? 0x1405 then 4 else 0.

(** ** Images *)

Definition format_components (format : Z) : option Z :=
  if bool_decide (format ∈ [0x1901; 0x1902; 0x1903; 0x1906; 0x1909; 0x84F9; 0x8D94]) then Some 1
  else if bool_decide (format ∈ [0x190A; 0x8227; 0x8228]) then Some 2
  else if bool_decide (format ∈ [0x1907; 0x8D98]) then Some 3
  else if bool_decide (format ∈ [0x1908; 0x80E1; 0x8D99]) then Some 4
  else None.

Record PackedType := { p_type : Z; p_bytes : Z; p_format : Z; p_other_format : Z }.
Definition kPacked : list PackedType :=
  [{| p_type := 0x8363; p_bytes := 2; p_format := 0x1907; p_other_format := 0 |};
   {| p_type := 0x8033; p_bytes := 2; p_format := 0x1908; p_other_format := 0 |};
   {| p_type := 0x8034; p_bytes := 2; p_format := 0x1908; p_other_format := 0 |};
   {| p_type := 0x8368; p_bytes := 4; p_format := 0x1908; p_other_format := 0x8D99 |};
   {| p_type := 0x8C3B; p_bytes := 4; p_format := 0x1907; p_other_format := 0 |};
   {| p_type := 0x8C3E; p_bytes := 4; p_format := 0x1907; p_other_format := 0 |};
   {| p_type := 0x84FA; p_bytes := 4; p_format := 0x84F9; p_other_format := 0 |};
   {| p_type := 0x8DAD; p_bytes := 8; p_format := 0x84F9; p_other_format := 0 |}].

(** The loop over the packed types: [None] leaves the function. *)
Fixpoint packed_bytes (table : list PackedType) (format type bytes_per_pixel : Z) : option Z :=
  match table with
  | [] => Some bytes_per_pixel
  | packed :: rest =>
      if negb (p_type packed =? type) then packed_bytes rest format type bytes_per_pixel
      else if negb (p_format packed =? format) && negb (p_other_format packed =? format) then None
      else packed_bytes rest format type (p_bytes packed)
  end.

Definition component_bytes (type : Z) : option Z :=
  if bool_decide (type ∈ [0x1400; 0x1401]) then Some 1
  else if bool_decide (type ∈ [0x1402; 0x1403; 0x140B]) then Some 2
  else if bool_decide (type ∈ [0x1404; 0x1405; 0x1406]) then Some 4
  else None.

Definition valid_alignment (alignment : Z) : bool := (alignment =? 1) || (alignment =? 2) || (alignment =? 4) || (alignment =? 8).

Definition gl_pixel_bytes (format type width height alignment : Z) : option Z :=
  if (width <? 0) || (height <? 0) || negb (valid_alignment alignment) then None
  else
    components ← format_components format;
    packed ← packed_bytes kPacked format type 0;
    bytes_per_pixel ← (if packed =? 0 then cb ← component_bytes type; Some (u64 (components * cb)) else Some packed);
    row ← checked_multiply width bytes_per_pixel;
    if (height =? 0) || (row =? 0) then Some 0
    else if UINT64_MAX - (alignment - 1) <? row then None
    else
      let stride := Z.land (u64 (row + alignment - 1)) (u64 (Z.lnot (alignment - 1))) in
      preceding ← checked_multiply (height - 1) stride;
      if UINT64_MAX - row <? preceding then None else Some (u64 (preceding + row)).

(** ** What an image is *)

(** Bytes of one pixel: a packed type fixes them and goes with its own formats only;
    otherwise each component has the size of the type. *)
Definition pixel_size (format type : Z) : option Z :=
  match format_components format with
  | None => None
  | Some n =>
      match list_find (fun p => p_type p = type) kPacked with
      | Some (_, p) => if bool_decide (format = p_format p \/ format = p_other_format p) then Some (p_bytes p) else None
      | None => Z.mul n <$> component_bytes type
      end
  end.

(** Rows start at multiples of the alignment. *)
Definition row_stride (px width alignment : Z) : Z := (width * px + alignment - 1) / alignment * alignment.

(** Where the pixel [x] of the row [y] starts, and in the image [z] of a stack of images. *)
Definition pixel_at (px width alignment x y : Z) : Z := y * row_stride px width alignment + x * px.
Definition texel_at (px width height alignment x y z : Z) : Z := z * (height * row_stride px width alignment) + y * row_stride px width alignment + x * px.

Lemma checked_multiply_small a b : 0 <= a -> 0 <= b -> a * b < 2 ^ 64 -> checked_multiply a b = Some (a * b).
Proof.
  intros Ha Hb Hab. unfold checked_multiply, UINT64_MAX. rewrite u64_small by nia. destruct (Z.eqb_spec a 0) as [->|Hne]; [done|]. cbn [negb andb].
  assert (b <= (2 ^ 64 - 1) / a) by (apply Z.div_le_lower_bound; lia). by rewrite (proj2 (Z.ltb_ge _ _)) by lia.
Qed.

Lemma checked_multiply_some a b n : 0 <= a -> 0 <= b -> checked_multiply a b = Some n -> n = a * b /\ a * b < 2 ^ 64.
Proof.
  intros Ha Hb. unfold checked_multiply, UINT64_MAX. destruct (Z.eqb_spec a 0) as [->|Hne]; [intros [= <-]; done|]. cbn [negb andb]. destruct (Z.ltb_spec ((2 ^ 64 - 1) / a) b) as [|Hle]; [done|].
  intros [= <-]. assert (a * b < 2 ^ 64). { pose proof (Z.mul_div_le (2 ^ 64 - 1) a ltac:(lia)). nia. } by rewrite u64_small by nia.
Qed.

Lemma format_components_range format n : format_components format = Some n -> 1 <= n <= 4.
Proof. unfold format_components. repeat case_match; intros [= <-]; lia. Qed.

Lemma component_bytes_range type n : component_bytes type = Some n -> 1 <= n <= 4.
Proof. unfold component_bytes. repeat case_match; intros [= <-]; lia. Qed.

(** The loop finds the entry of the type. *)
Lemma packed_bytes_spec format type b table :
  NoDup (p_type <$> table) ->
  packed_bytes table format type b =
  match list_find (fun p => p_type p = type) table with
  | Some (_, p) => if bool_decide (format = p_format p \/ format = p_other_format p) then Some (p_bytes p) else None
  | None => Some b
  end.
Proof.
  revert b. induction table as [|p table IH]; intros b Hnd; [done|]. rewrite fmap_cons in Hnd. apply NoDup_cons in Hnd as [Hnew Hnd]. cbn [packed_bytes list_find].
  destruct (Z.eqb_spec (p_type p) type) as [E|Hne]; cbn [negb]; [rewrite decide_True by done|rewrite decide_False by done; rewrite IH by done; by destruct (list_find _ _) as [[? ?]|]].
  case_bool_decide as Hf.
  - replace (negb (p_format p =? format) && negb (p_other_format p =? format)) with false by (symmetry; apply andb_false_iff; rewrite !negb_false_iff, !Z.eqb_eq; naive_solver).
    rewrite IH by done. destruct (list_find _ table) as [[i q]|] eqn:Eq; [|done]. apply list_find_Some in Eq as (Hq & Et & _). destruct Hnew. rewrite E, <- Et. apply list_elem_of_fmap. exists q. split; [done|by eapply list_elem_of_lookup_2].
  - replace (negb (p_format p =? format) && negb (p_other_format p =? format)) with true by (symmetry; apply andb_true_iff; rewrite !negb_true_iff, !Z.eqb_neq; naive_solver). done.
Qed.

Lemma packed_types_distinct : NoDup (p_type <$> kPacked).
Proof. apply (bool_decide_unpack _). vm_compute. exact I. Qed.

Lemma pixel_size_range format type px : pixel_size format type = Some px -> 1 <= px <= 16.
Proof.
  unfold pixel_size. destruct (format_components format) as [n|] eqn:En; [|done]. apply format_components_range in En. destruct (list_find _ _) as [[i p]|] eqn:Ef.
  - case_bool_decide; [|done]. intros [= <-]. apply list_find_Some in Ef as (Hp & _). apply list_elem_of_lookup_2 in Hp. revert Hp. unfold kPacked. rewrite !elem_of_cons, elem_of_nil. intuition subst; cbn; lia.
  - destruct (component_bytes type) as [c|] eqn:Ec; [|done]. apply component_bytes_range in Ec. intros [= <-]. nia.
Qed.

(** The size of a pixel the code works with. *)
Lemma pixel_size_code format type :
  pixel_size format type =
  (components ← format_components format;
   packed ← packed_bytes kPacked format type 0;
   if packed =? 0 then cb ← component_bytes type; Some (u64 (components * cb)) else Some packed).
Proof.
  unfold pixel_size. rewrite packed_bytes_spec by apply packed_types_distinct. destruct (format_components format) as [n|] eqn:En; [|done]. cbn [mbind option_bind].
  destruct (list_find _ _) as [[i p]|] eqn:Ef.
  - case_bool_decide; [|done]. cbn. apply list_find_Some in Ef as (Hp & _). apply list_elem_of_lookup_2 in Hp. revert Hp. unfold kPacked. rewrite !elem_of_cons, elem_of_nil. intuition subst; done.
  - cbn. destruct (component_bytes type) as [c|] eqn:Ec; [|done]. cbn. apply format_components_range in En. apply component_bytes_range in Ec. by rewrite u64_small by nia.
Qed.

Lemma valid_alignment_spec a : valid_alignment a = true <-> a = 1 \/ a = 2 \/ a = 4 \/ a = 8.
Proof. unfold valid_alignment. rewrite !orb_true_iff, !Z.eqb_eq. tauto. Qed.

(** The mask rounds up to the alignment. *)
Lemma stride_code row a : valid_alignment a = true -> 0 <= row -> row + a - 1 < 2 ^ 64 ->
  Z.land (u64 (row + a - 1)) (u64 (Z.lnot (a - 1))) = (row + a - 1) / a * a.
Proof.
  intros Ha Hr Hlt. assert (exists k, 0 <= k /\ a = 2 ^ k) as (k & Hk & ->).
  { apply valid_alignment_spec in Ha as [->|[->|[->| ->]]]; [by exists 0|by exists 1|by exists 2|by exists 3]. }
  pose proof (Z.pow_pos_nonneg 2 k). rewrite (u64_small (row + 2 ^ k - 1)) by lia. by apply land_clear_low; [lia| |lia].
Qed.

Lemma row_stride_bounds px w a : 0 < a -> 0 <= w * px -> w * px <= row_stride px w a < w * px + a /\ (row_stride px w a) mod a = 0.
Proof.
  intros Ha Hr. unfold row_stride. pose proof (Z.div_mod (w * px + a - 1) a ltac:(lia)). pose proof (Z.mod_pos_bound (w * px + a - 1) a Ha). split; [nia|]. by apply Z.mod_mul; lia.
Qed.

(** [r] is the size of the image, or says that there is none. *)
Definition image_spec (format type width height alignment : Z) (r : option Z) : Prop :=
  match r with
  | Some n =>
      exists px, pixel_size format type = Some px /\ 0 <= width /\ 0 <= height /\ valid_alignment alignment = true /\ 0 <= n < 2 ^ 64 /\
      (forall x y, 0 <= x < width -> 0 <= y < height -> 0 <= pixel_at px width alignment x y /\ pixel_at px width alignment x y + px <= n) /\
      (n = 0 /\ (width = 0 \/ height = 0) \/ 0 < width /\ 0 < height /\ pixel_at px width alignment (width - 1) (height - 1) + px = n)
  | None =>
      width < 0 \/ height < 0 \/ valid_alignment alignment = false \/ pixel_size format type = None \/
      exists px, pixel_size format type = Some px /\ 0 < width /\ 0 < height /\ 2 ^ 64 <= pixel_at px width alignment (width - 1) (height - 1) + px
  end.

Lemma gl_pixel_bytes_image format type width height alignment :
  - 2 ^ 31 <= width < 2 ^ 31 -> - 2 ^ 31 <= height < 2 ^ 31 -> image_spec format type width height alignment (gl_pixel_bytes format type width height alignment).
Proof.
  intros Hw Hh. unfold image_spec, gl_pixel_bytes. destruct (Z.ltb_spec width 0) as [|Hw0]; [by left|]. destruct (Z.ltb_spec height 0) as [|Hh0]; [by right; left|].
  destruct (valid_alignment alignment) eqn:Ha; [|by right; right; left]. cbn [orb negb].
  pose proof (pixel_size_code format type) as Ep. destruct (format_components format) as [c|]; [|by do 3 right; left]. cbn [mbind option_bind] in *.
  destruct (packed_bytes _ _ _ _) as [packed|]; [|by do 3 right; left]. cbn [mbind option_bind] in *. rewrite <- Ep. destruct (pixel_size format type) as [px|] eqn:Epx; [|by do 3 right; left].
  cbn [mbind option_bind]. pose proof (pixel_size_range _ _ _ Epx) as Hpx. rewrite checked_multiply_small by nia. cbn [mbind option_bind].
  set (a := alignment) in *. assert (1 <= a <= 8) as Har by (apply valid_alignment_spec in Ha; lia). pose proof (row_stride_bounds px width a ltac:(lia) ltac:(nia)) as [Hs _].
  destruct (Z.eqb_spec height 0) as [->|Hh1]; [exists px; split_and!; [done..|lia|lia|intros; lia|by left; split; [|right]]|].
  destruct (Z.eqb_spec (width * px) 0) as [Hr0|Hr1]; [exists px; split_and!; [done..|lia|lia|intros; nia|left; split; [done|left; nia]]|]. cbn [orb].
  rewrite (proj2 (Z.ltb_ge _ _)) by (unfold UINT64_MAX; nia). rewrite stride_code by (done || nia). fold (row_stride px width a). set (st := row_stride px width a) in *.
  assert (pixel_at px width a (width - 1) (height - 1) + px = (height - 1) * st + width * px) as Elast by (unfold pixel_at; fold st; lia).
  destruct (checked_multiply (height - 1) st) as [p|] eqn:Em; cbn [mbind option_bind].
  - apply checked_multiply_some in Em as [-> Hp]; [|nia..]. unfold UINT64_MAX. destruct (Z.ltb_spec (2 ^ 64 - 1 - width * px) ((height - 1) * st)) as [Hov|Hfit].
    + do 4 right. exists px. split_and!; [done|nia|lia|lia].
    + rewrite u64_small by nia. exists px. split_and!; [done..|nia|lia| |right; split_and!; [nia|lia|lia]].
      intros x y Hx Hy. unfold pixel_at. fold st. split; nia.
  - do 4 right. exists px. split_and!; [done|nia|lia|]. rewrite Elast. destruct (decide ((height - 1) * st < 2 ^ 64)) as [Hlt|]; [|nia]. by rewrite checked_multiply_small in Em by nia.
Qed.

(** A stack of [depth] images has every texel inside the size of one image of
    [height * depth] rows. *)
Lemma texels_inside format type width height depth alignment n :
  0 <= height -> 0 <= depth -> height * depth < 2 ^ 31 -> - 2 ^ 31 <= width < 2 ^ 31 ->
  gl_pixel_bytes format type width (height * depth) alignment = Some n ->
  exists px, pixel_size format type = Some px /\ forall x y z, 0 <= x < width -> 0 <= y < height -> 0 <= z < depth ->
    0 <= texel_at px width height alignment x y z /\ texel_at px width height alignment x y z + px <= n.
Proof.
  intros Hh Hd Hrows Hw E. pose proof (gl_pixel_bytes_image format type width (height * depth) alignment Hw ltac:(nia)) as H. rewrite E in H. destruct H as (px & Epx & _ & _ & _ & _ & Hin & _).
  exists px. split; [done|]. intros x y z Hx Hy Hz. replace (texel_at px width height alignment x y z) with (pixel_at px width alignment x (z * height + y)) by (unfold texel_at, pixel_at; lia). apply Hin; [done|nia].
Qed.

(** C33: [gl_pixel_bytes] of any 32-bit dimensions is the exact number of bytes from the first byte
    of an image to the end of its last pixel: every pixel of the rows, each padded to the
    alignment, lies inside, and a smaller size would cut the last one off.  It refuses
    exactly negative dimensions, a bad alignment, a pair of format and type that does not
    exist and an image that needs 2^64 bytes or more; nothing wraps around. *)
Theorem gl_pixel_bytes_exact format type width height alignment :
  - 2 ^ 31 <= width < 2 ^ 31 -> - 2 ^ 31 <= height < 2 ^ 31 ->
  match gl_pixel_bytes format type width height alignment with
  | Some n =>
      exists px, pixel_size format type = Some px /\ 0 <= width /\ 0 <= height /\ valid_alignment alignment = true /\ 0 <= n < 2 ^ 64 /\
      (forall x y, 0 <= x < width -> 0 <= y < height -> 0 <= pixel_at px width alignment x y /\ pixel_at px width alignment x y + px <= n) /\
      (n = 0 /\ (width = 0 \/ height = 0) \/ 0 < width /\ 0 < height /\ pixel_at px width alignment (width - 1) (height - 1) + px = n)
  | None =>
      width < 0 \/ height < 0 \/ valid_alignment alignment = false \/ pixel_size format type = None \/
      exists px, pixel_size format type = Some px /\ 0 < width /\ 0 < height /\ 2 ^ 64 <= pixel_at px width alignment (width - 1) (height - 1) + px
  end.
Proof. exact (gl_pixel_bytes_image format type width height alignment). Qed.

Lemma gl_pixel_bytes_exact_witness :
  gl_pixel_bytes 0x1907 0x1401 3 2 4 = Some 21 /\
  exists px, pixel_size 0x1907 0x1401 = Some px /\ 0 <= 3 /\ 0 <= 2 /\ valid_alignment 4 = true /\ 0 <= 21 < 2 ^ 64 /\
      (forall x y, 0 <= x < 3 -> 0 <= y < 2 -> 0 <= pixel_at px 3 4 x y /\ pixel_at px 3 4 x y + px <= 21) /\
      (21 = 0 /\ (3 = 0 \/ 2 = 0) \/ 0 < 3 /\ 0 < 2 /\ pixel_at px 3 4 (3 - 1) (2 - 1) + px = 21).
Proof. split; [reflexivity|]. exact (gl_pixel_bytes_exact 0x1907 0x1401 3 2 4 ltac:(lia) ltac:(lia)). Defined.

