(* ===== verification/GlCalls.v ===== *)
(** * The GLES entry points

    The host call numbers and the table of [core/include/zb/gl_hostcalls.h], and the cases
    of the generated [HostGl::dispatch] ([core/src/gen/gl_dispatch.inc]).  A generated case
    reads scalar and array arguments, calls the driver function of the same name and notes
    state the bridge follows; its row lists these statements in order.  The other cases call
    a function of [gl_manual.cpp]. *)

From stdpp Require Import numbers list strings.
From S2P Require Import Prelude GuestMemory.
Local Open Scope string_scope.
Local Open Scope Z_scope.

(** ** Types *)

Inductive gtype := GLenum | GLint | GLuint | GLsizei | GLfloat | GLboolean | GLbitfield | GLsizeiptr | GLintptr | GLchar | GLint64 | GLvoid.

(** [call.scalar<T>] of a word; a float keeps its bits. *)
Definition scalar_of (t : gtype) (word : Z) : Z :=
  match t with
  | GLint | GLsizei | GLsizeiptr | GLintptr => s32 word
  | GLboolean | GLchar => u8 word
  | _ => word
  end.

(** The element size of [call.pointer<T>]. *)
Definition size_of (t : gtype) : Z := match t with GLvoid | GLchar | GLboolean => 1 | GLint64 => 8 | _ => 4 end.

(** ** Cases *)

(** How many elements an array has: a constant, or [call.length(variable, multiplier)]. *)
Inductive elements := Fixed (n : Z) | Length (variable : string) (multiplier : Z).

Inductive binding := Scalar (x : string) (t : gtype) (position : nat) | Pointer (x : string) (t : gtype) (position : nat) (n : elements) (need : Z).

Inductive note := NoteBindBuffer (target buffer : string) | InvalidateUniforms (program : string) | NoteAttrib (index : string) (enabled : bool) | NotePixelStore (pname param : string).

Inductive outcome := Void | Value.

Record gl_case := { c_name : string; c_body : option (list binding * list string * outcome * list note) }.
Definition generated (name : string) (binds : list binding) (arguments : list string) (o : outcome) (notes : list note) : gl_case := {| c_name := name; c_body := Some (binds, arguments, o, notes) |}.
Definition manual (name : string) : gl_case := {| c_name := name; c_body := None |}.

#[global] Instance gtype_eq_dec : EqDecision gtype.
Proof. solve_decision. Defined.
#[global] Instance elements_eq_dec : EqDecision elements.
Proof. solve_decision. Defined.
#[global] Instance binding_eq_dec : EqDecision binding.
Proof. solve_decision. Defined.
#[global] Instance note_eq_dec : EqDecision note.
Proof. solve_decision. Defined.
#[global] Instance outcome_eq_dec : EqDecision outcome.
Proof. solve_decision. Defined.
#[global] Instance gl_case_eq_dec : EqDecision gl_case.
Proof. solve_decision. Defined.

Definition RW : Z := Z.lor kPageRead kPageWrite.

Definition gl_cases_1 : list gl_case := [
    generated "glActiveTexture" [Scalar "texture" GLenum 0] ["texture"] Void [];
    generated "glAttachShader" [Scalar "program" GLuint 0; Scalar "shader" GLuint 1] ["program"; "shader"] Void [];
    manual "glBindAttribLocation";
    generated "glBindBuffer" [Scalar "target" GLenum 0; Scalar "buffer" GLuint 1] ["target"; "buffer"] Void [NoteBindBuffer "target" "buffer"];
    generated "glBindFramebuffer" [Scalar "target" GLenum 0; Scalar "framebuffer" GLuint 1] ["target"; "framebuffer"] Void [];
    generated "glBindRenderbuffer" [Scalar "target" GLenum 0; Scalar "renderbuffer" GLuint 1] ["target"; "renderbuffer"] Void [];
    generated "glBindTexture" [Scalar "target" GLenum 0; Scalar "texture" GLuint 1] ["target"; "texture"] Void [];
    generated "glBlendColor" [Scalar "red" GLfloat 0; Scalar "green" GLfloat 1; Scalar "blue" GLfloat 2; Scalar "alpha" GLfloat 3] ["red"; "green"; "blue"; "alpha"] Void [];
    generated "glBlendEquation" [Scalar "mode" GLenum 0] ["mode"] Void [];
    generated "glBlendEquationSeparate" [Scalar "modeRGB" GLenum 0; Scalar "modeAlpha" GLenum 1] ["modeRGB"; "modeAlpha"] Void [];
    generated "glBlendFunc" [Scalar "sfactor" GLenum 0; Scalar "dfactor" GLenum 1] ["sfactor"; "dfactor"] Void [];
    generated "glBlendFuncSeparate" [Scalar "sfactorRGB" GLenum 0; Scalar "dfactorRGB" GLenum 1; Scalar "sfactorAlpha" GLenum 2; Scalar "dfactorAlpha" GLenum 3] ["sfactorRGB"; "dfactorRGB"; "sfactorAlpha"; "dfactorAlpha"] Void [];
    generated "glBufferData" [Scalar "target" GLenum 0; Scalar "size" GLsizeiptr 1; Scalar "usage" GLenum 3; Pointer "data" GLvoid 2 (Length "size" 1) kPageRead] ["target"; "size"; "data"; "usage"] Void [];
    generated "glBufferSubData" [Scalar "target" GLenum 0; Scalar "offset" GLintptr 1; Scalar "size" GLsizeiptr 2; Pointer "data" GLvoid 3 (Length "size" 1) kPageRead] ["target"; "offset"; "size"; "data"] Void [];
    generated "glCheckFramebufferStatus" [Scalar "target" GLenum 0] ["target"] Value [];
    generated "glClear" [Scalar "mask" GLbitfield 0] ["mask"] Void [];
    generated "glClearColor" [Scalar "red" GLfloat 0; Scalar "green" GLfloat 1; Scalar "blue" GLfloat 2; Scalar "alpha" GLfloat 3] ["red"; "green"; "blue"; "alpha"] Void [];
    generated "glClearDepthf" [Scalar "d" GLfloat 0] ["d"] Void [];
    generated "glClearStencil" [Scalar "s" GLint 0] ["s"] Void [];
    generated "glColorMask" [Scalar "red" GLboolean 0; Scalar "green" GLboolean 1; Scalar "blue" GLboolean 2; Scalar "alpha" GLboolean 3] ["red"; "green"; "blue"; "alpha"] Void [];
    generated "glCompileShader" [Scalar "shader" GLuint 0] ["shader"] Void []].

Definition gl_cases_2 : list gl_case := [
    generated "glCompressedTexImage2D" [Scalar "target" GLenum 0; Scalar "level" GLint 1; Scalar "internalformat" GLenum 2; Scalar "width" GLsizei 3; Scalar "height" GLsizei 4; Scalar "border" GLint 5; Scalar "imageSize" GLsizei 6; Pointer "data" GLvoid 7 (Length "imageSize" 1) kPageRead] ["target"; "level"; "internalformat"; "width"; "height"; "border"; "imageSize"; "data"] Void [];
    generated "glCompressedTexSubImage2D" [Scalar "target" GLenum 0; Scalar "level" GLint 1; Scalar "xoffset" GLint 2; Scalar "yoffset" GLint 3; Scalar "width" GLsizei 4; Scalar "height" GLsizei 5; Scalar "format" GLenum 6; Scalar "imageSize" GLsizei 7; Pointer "data" GLvoid 8 (Length "imageSize" 1) kPageRead] ["target"; "level"; "xoffset"; "yoffset"; "width"; "height"; "format"; "imageSize"; "data"] Void [];
    generated "glCopyTexImage2D" [Scalar "target" GLenum 0; Scalar "level" GLint 1; Scalar "internalformat" GLenum 2; Scalar "x" GLint 3; Scalar "y" GLint 4; Scalar "width" GLsizei 5; Scalar "height" GLsizei 6; Scalar "border" GLint 7] ["target"; "level"; "internalformat"; "x"; "y"; "width"; "height"; "border"] Void [];
    generated "glCopyTexSubImage2D" [Scalar "target" GLenum 0; Scalar "level" GLint 1; Scalar "xoffset" GLint 2; Scalar "yoffset" GLint 3; Scalar "x" GLint 4; Scalar "y" GLint 5; Scalar "width" GLsizei 6; Scalar "height" GLsizei 7] ["target"; "level"; "xoffset"; "yoffset"; "x"; "y"; "width"; "height"] Void [];
    generated "glCreateProgram" [] [] Value [];
    generated "glCreateShader" [Scalar "type" GLenum 0] ["type"] Value [];
    generated "glCullFace" [Scalar "mode" GLenum 0] ["mode"] Void [];
    generated "glDeleteBuffers" [Scalar "n" GLsizei 0; Pointer "buffers" GLuint 1 (Length "n" 1) kPageRead] ["n"; "buffers"] Void [];
    generated "glDeleteFramebuffers" [Scalar "n" GLsizei 0; Pointer "framebuffers" GLuint 1 (Length "n" 1) kPageRead] ["n"; "framebuffers"] Void [];
    generated "glDeleteProgram" [Scalar "program" GLuint 0] ["program"] Void [InvalidateUniforms "program"];
    generated "glDeleteRenderbuffers" [Scalar "n" GLsizei 0; Pointer "renderbuffers" GLuint 1 (Length "n" 1) kPageRead] ["n"; "renderbuffers"] Void [];
    generated "glDeleteShader" [Scalar "shader" GLuint 0] ["shader"] Void [];
    generated "glDeleteTextures" [Scalar "n" GLsizei 0; Pointer "textures" GLuint 1 (Length "n" 1) kPageRead] ["n"; "textures"] Void [];
    generated "glDepthFunc" [Scalar "func" GLenum 0] ["func"] Void [];
    generated "glDepthMask" [Scalar "flag" GLboolean 0] ["flag"] Void [];
    generated "glDepthRangef" [Scalar "n" GLfloat 0; Scalar "f" GLfloat 1] ["n"; "f"] Void [];
    generated "glDetachShader" [Scalar "program" GLuint 0; Scalar "shader" GLuint 1] ["program"; "shader"] Void [];
    generated "glDisable" [Scalar "cap" GLenum 0] ["cap"] Void [];
    generated "glDisableVertexAttribArray" [Scalar "index" GLuint 0] ["index"] Void [NoteAttrib "index" false]].

Definition gl_cases_3 : list gl_case := [
    manual "glDrawArrays";
    manual "glDrawElements";
    generated "glEnable" [Scalar "cap" GLenum 0] ["cap"] Void [];
    generated "glEnableVertexAttribArray" [Scalar "index" GLuint 0] ["index"] Void [NoteAttrib "index" true];
    generated "glFinish" [] [] Void [];
    generated "glFlush" [] [] Void [];
    generated "glFramebufferRenderbuffer" [Scalar "target" GLenum 0; Scalar "attachment" GLenum 1; Scalar "renderbuffertarget" GLenum 2; Scalar "renderbuffer" GLuint 3] ["target"; "attachment"; "renderbuffertarget"; "renderbuffer"] Void [];
    generated "glFramebufferTexture2D" [Scalar "target" GLenum 0; Scalar "attachment" GLenum 1; Scalar "textarget" GLenum 2; Scalar "texture" GLuint 3; Scalar "level" GLint 4] ["target"; "attachment"; "textarget"; "texture"; "level"] Void [];
    generated "glFrontFace" [Scalar "mode" GLenum 0] ["mode"] Void [];
    generated "glGenBuffers" [Scalar "n" GLsizei 0; Pointer "buffers" GLuint 1 (Length "n" 1) RW] ["n"; "buffers"] Void [];
    generated "glGenFramebuffers" [Scalar "n" GLsizei 0; Pointer "framebuffers" GLuint 1 (Length "n" 1) RW] ["n"; "framebuffers"] Void [];
    generated "glGenRenderbuffers" [Scalar "n" GLsizei 0; Pointer "renderbuffers" GLuint 1 (Length "n" 1) RW] ["n"; "renderbuffers"] Void [];
    generated "glGenTextures" [Scalar "n" GLsizei 0; Pointer "textures" GLuint 1 (Length "n" 1) RW] ["n"; "textures"] Void [];
    generated "glGenerateMipmap" [Scalar "target" GLenum 0] ["target"] Void [];
    generated "glGetActiveAttrib" [Scalar "program" GLuint 0; Scalar "index" GLuint 1; Scalar "bufSize" GLsizei 2; Pointer "length" GLsizei 3 (Fixed 1) RW; Pointer "size" GLint 4 (Fixed 1) RW; Pointer "type" GLenum 5 (Fixed 1) RW; Pointer "name" GLchar 6 (Length "bufSize" 1) RW] ["program"; "index"; "bufSize"; "length"; "size"; "type"; "name"] Void [];
    generated "glGetActiveUniform" [Scalar "program" GLuint 0; Scalar "index" GLuint 1; Scalar "bufSize" GLsizei 2; Pointer "length" GLsizei 3 (Fixed 1) RW; Pointer "size" GLint 4 (Fixed 1) RW; Pointer "type" GLenum 5 (Fixed 1) RW; Pointer "name" GLchar 6 (Length "bufSize" 1) RW] ["program"; "index"; "bufSize"; "length"; "size"; "type"; "name"] Void [];
    generated "glGetAttachedShaders" [Scalar "program" GLuint 0; Scalar "maxCount" GLsizei 1; Pointer "count" GLsizei 2 (Fixed 1) RW; Pointer "shaders" GLuint 3 (Length "maxCount" 1) RW] ["program"; "maxCount"; "count"; "shaders"] Void [];
    manual "glGetAttribLocation";
    manual "glGetBooleanv";
    generated "glGetBufferParameteriv" [Scalar "target" GLenum 0; Scalar "pname" GLenum 1; Pointer "params" GLint 2 (Fixed 1) RW] ["target"; "pname"; "params"] Void [];
    generated "glGetError" [] [] Value [];
    manual "glGetFloatv"].

Definition gl_cases_4 : list gl_case := [
    generated "glGetFramebufferAttachmentParameteriv" [Scalar "target" GLenum 0; Scalar "attachment" GLenum 1; Scalar "pname" GLenum 2; Pointer "params" GLint 3 (Fixed 1) RW] ["target"; "attachment"; "pname"; "params"] Void [];
    manual "glGetIntegerv";
    generated "glGetProgramInfoLog" [Scalar "program" GLuint 0; Scalar "bufSize" GLsizei 1; Pointer "length" GLsizei 2 (Fixed 1) RW; Pointer "infoLog" GLchar 3 (Length "bufSize" 1) RW] ["program"; "bufSize"; "length"; "infoLog"] Void [];
    generated "glGetProgramiv" [Scalar "program" GLuint 0; Scalar "pname" GLenum 1; Pointer "params" GLint 2 (Fixed 1) RW] ["program"; "pname"; "params"] Void [];
    generated "glGetRenderbufferParameteriv" [Scalar "target" GLenum 0; Scalar "pname" GLenum 1; Pointer "params" GLint 2 (Fixed 1) RW] ["target"; "pname"; "params"] Void [];
    generated "glGetShaderInfoLog" [Scalar "shader" GLuint 0; Scalar "bufSize" GLsizei 1; Pointer "length" GLsizei 2 (Fixed 1) RW; Pointer "infoLog" GLchar 3 (Length "bufSize" 1) RW] ["shader"; "bufSize"; "length"; "infoLog"] Void [];
    generated "glGetShaderPrecisionFormat" [Scalar "shadertype" GLenum 0; Scalar "precisiontype" GLenum 1; Pointer "range" GLint 2 (Fixed 2) RW; Pointer "precision" GLint 3 (Fixed 1) RW] ["shadertype"; "precisiontype"; "range"; "precision"] Void [];
    generated "glGetShaderSource" [Scalar "shader" GLuint 0; Scalar "bufSize" GLsizei 1; Pointer "length" GLsizei 2 (Fixed 1) RW; Pointer "source" GLchar 3 (Length "bufSize" 1) RW] ["shader"; "bufSize"; "length"; "source"] Void [];
    generated "glGetShaderiv" [Scalar "shader" GLuint 0; Scalar "pname" GLenum 1; Pointer "params" GLint 2 (Fixed 1) RW] ["shader"; "pname"; "params"] Void [];
    manual "glGetString";
    generated "glGetTexParameterfv" [Scalar "target" GLenum 0; Scalar "pname" GLenum 1; Pointer "params" GLfloat 2 (Fixed 1) RW] ["target"; "pname"; "params"] Void [];
    generated "glGetTexParameteriv" [Scalar "target" GLenum 0; Scalar "pname" GLenum 1; Pointer "params" GLint 2 (Fixed 1) RW] ["target"; "pname"; "params"] Void [];
    manual "glGetUniformLocation";
    manual "glGetUniformfv";
    manual "glGetUniformiv";
    manual "glGetVertexAttribPointerv";
    generated "glGetVertexAttribfv" [Scalar "index" GLuint 0; Scalar "pname" GLenum 1; Pointer "params" GLfloat 2 (Fixed 4) RW] ["index"; "pname"; "params"] Void [];
    generated "glGetVertexAttribiv" [Scalar "index" GLuint 0; Scalar "pname" GLenum 1; Pointer "params" GLint 2 (Fixed 4) RW] ["index"; "pname"; "params"] Void [];
    generated "glHint" [Scalar "target" GLenum 0; Scalar "mode" GLenum 1] ["target"; "mode"] Void [];
    generated "glIsBuffer" [Scalar "buffer" GLuint 0] ["buffer"] Value [];
    generated "glIsEnabled" [Scalar "cap" GLenum 0] ["cap"] Value [];
    generated "glIsFramebuffer" [Scalar "framebuffer" GLuint 0] ["framebuffer"] Value [];
    generated "glIsProgram" [Scalar "program" GLuint 0] ["program"] Value []].

Definition gl_cases_5 : list gl_case := [
    generated "glIsRenderbuffer" [Scalar "renderbuffer" GLuint 0] ["renderbuffer"] Value [];
    generated "glIsShader" [Scalar "shader" GLuint 0] ["shader"] Value [];
    generated "glIsTexture" [Scalar "texture" GLuint 0] ["texture"] Value [];
    generated "glLineWidth" [Scalar "width" GLfloat 0] ["width"] Void [];
    generated "glLinkProgram" [Scalar "program" GLuint 0] ["program"] Void [InvalidateUniforms "program"];
    generated "glPixelStorei" [Scalar "pname" GLenum 0; Scalar "param" GLint 1] ["pname"; "param"] Void [NotePixelStore "pname" "param"];
    generated "glPolygonOffset" [Scalar "factor" GLfloat 0; Scalar "units" GLfloat 1] ["factor"; "units"] Void [];
    manual "glReadPixels";
    generated "glReleaseShaderCompiler" [] [] Void [];
    generated "glRenderbufferStorage" [Scalar "target" GLenum 0; Scalar "internalformat" GLenum 1; Scalar "width" GLsizei 2; Scalar "height" GLsizei 3] ["target"; "internalformat"; "width"; "height"] Void [];
    generated "glSampleCoverage" [Scalar "value" GLfloat 0; Scalar "invert" GLboolean 1] ["value"; "invert"] Void [];
    generated "glScissor" [Scalar "x" GLint 0; Scalar "y" GLint 1; Scalar "width" GLsizei 2; Scalar "height" GLsizei 3] ["x"; "y"; "width"; "height"] Void [];
    generated "glShaderBinary" [Scalar "count" GLsizei 0; Scalar "binaryFormat" GLenum 2; Scalar "length" GLsizei 4; Pointer "shaders" GLuint 1 (Length "count" 1) kPageRead; Pointer "binary" GLvoid 3 (Length "length" 1) kPageRead] ["count"; "shaders"; "binaryFormat"; "binary"; "length"] Void [];
    manual "glShaderSource";
    generated "glStencilFunc" [Scalar "func" GLenum 0; Scalar "ref" GLint 1; Scalar "mask" GLuint 2] ["func"; "ref"; "mask"] Void [];
    generated "glStencilFuncSeparate" [Scalar "face" GLenum 0; Scalar "func" GLenum 1; Scalar "ref" GLint 2; Scalar "mask" GLuint 3] ["face"; "func"; "ref"; "mask"] Void [];
    generated "glStencilMask" [Scalar "mask" GLuint 0] ["mask"] Void [];
    generated "glStencilMaskSeparate" [Scalar "face" GLenum 0; Scalar "mask" GLuint 1] ["face"; "mask"] Void [];
    generated "glStencilOp" [Scalar "fail" GLenum 0; Scalar "zfail" GLenum 1; Scalar "zpass" GLenum 2] ["fail"; "zfail"; "zpass"] Void [];
    generated "glStencilOpSeparate" [Scalar "face" GLenum 0; Scalar "sfail" GLenum 1; Scalar "dpfail" GLenum 2; Scalar "dppass" GLenum 3] ["face"; "sfail"; "dpfail"; "dppass"] Void [];
    manual "glTexImage2D";
    generated "glTexParameterf" [Scalar "target" GLenum 0; Scalar "pname" GLenum 1; Scalar "param" GLfloat 2] ["target"; "pname"; "param"] Void []].

Definition gl_cases_6 : list gl_case := [
    generated "glTexParameterfv" [Scalar "target" GLenum 0; Scalar "pname" GLenum 1; Pointer "params" GLfloat 2 (Fixed 1) kPageRead] ["target"; "pname"; "params"] Void [];
    generated "glTexParameteri" [Scalar "target" GLenum 0; Scalar "pname" GLenum 1; Scalar "param" GLint 2] ["target"; "pname"; "param"] Void [];
    generated "glTexParameteriv" [Scalar "target" GLenum 0; Scalar "pname" GLenum 1; Pointer "params" GLint 2 (Fixed 1) kPageRead] ["target"; "pname"; "params"] Void [];
    manual "glTexSubImage2D";
    generated "glUniform1f" [Scalar "location" GLint 0; Scalar "v0" GLfloat 1] ["location"; "v0"] Void [];
    generated "glUniform1fv" [Scalar "location" GLint 0; Scalar "count" GLsizei 1; Pointer "value" GLfloat 2 (Length "count" 1) kPageRead] ["location"; "count"; "value"] Void [];
    generated "glUniform1i" [Scalar "location" GLint 0; Scalar "v0" GLint 1] ["location"; "v0"] Void [];
    generated "glUniform1iv" [Scalar "location" GLint 0; Scalar "count" GLsizei 1; Pointer "value" GLint 2 (Length "count" 1) kPageRead] ["location"; "count"; "value"] Void [];
    generated "glUniform2f" [Scalar "location" GLint 0; Scalar "v0" GLfloat 1; Scalar "v1" GLfloat 2] ["location"; "v0"; "v1"] Void [];
    generated "glUniform2fv" [Scalar "location" GLint 0; Scalar "count" GLsizei 1; Pointer "value" GLfloat 2 (Length "count" 2) kPageRead] ["location"; "count"; "value"] Void [];
    generated "glUniform2i" [Scalar "location" GLint 0; Scalar "v0" GLint 1; Scalar "v1" GLint 2] ["location"; "v0"; "v1"] Void [];
    generated "glUniform2iv" [Scalar "location" GLint 0; Scalar "count" GLsizei 1; Pointer "value" GLint 2 (Length "count" 2) kPageRead] ["location"; "count"; "value"] Void [];
    generated "glUniform3f" [Scalar "location" GLint 0; Scalar "v0" GLfloat 1; Scalar "v1" GLfloat 2; Scalar "v2" GLfloat 3] ["location"; "v0"; "v1"; "v2"] Void [];
    generated "glUniform3fv" [Scalar "location" GLint 0; Scalar "count" GLsizei 1; Pointer "value" GLfloat 2 (Length "count" 3) kPageRead] ["location"; "count"; "value"] Void [];
    generated "glUniform3i" [Scalar "location" GLint 0; Scalar "v0" GLint 1; Scalar "v1" GLint 2; Scalar "v2" GLint 3] ["location"; "v0"; "v1"; "v2"] Void [];
    generated "glUniform3iv" [Scalar "location" GLint 0; Scalar "count" GLsizei 1; Pointer "value" GLint 2 (Length "count" 3) kPageRead] ["location"; "count"; "value"] Void [];
    generated "glUniform4f" [Scalar "location" GLint 0; Scalar "v0" GLfloat 1; Scalar "v1" GLfloat 2; Scalar "v2" GLfloat 3; Scalar "v3" GLfloat 4] ["location"; "v0"; "v1"; "v2"; "v3"] Void [];
    generated "glUniform4fv" [Scalar "location" GLint 0; Scalar "count" GLsizei 1; Pointer "value" GLfloat 2 (Length "count" 4) kPageRead] ["location"; "count"; "value"] Void []].

Definition gl_cases_7 : list gl_case := [
    generated "glUniform4i" [Scalar "location" GLint 0; Scalar "v0" GLint 1; Scalar "v1" GLint 2; Scalar "v2" GLint 3; Scalar "v3" GLint 4] ["location"; "v0"; "v1"; "v2"; "v3"] Void [];
    generated "glUniform4iv" [Scalar "location" GLint 0; Scalar "count" GLsizei 1; Pointer "value" GLint 2 (Length "count" 4) kPageRead] ["location"; "count"; "value"] Void [];
    generated "glUniformMatrix2fv" [Scalar "location" GLint 0; Scalar "count" GLsizei 1; Scalar "transpose" GLboolean 2; Pointer "value" GLfloat 3 (Length "count" 4) kPageRead] ["location"; "count"; "transpose"; "value"] Void [];
    generated "glUniformMatrix3fv" [Scalar "location" GLint 0; Scalar "count" GLsizei 1; Scalar "transpose" GLboolean 2; Pointer "value" GLfloat 3 (Length "count" 9) kPageRead] ["location"; "count"; "transpose"; "value"] Void [];
    generated "glUniformMatrix4fv" [Scalar "location" GLint 0; Scalar "count" GLsizei 1; Scalar "transpose" GLboolean 2; Pointer "value" GLfloat 3 (Length "count" 16) kPageRead] ["location"; "count"; "transpose"; "value"] Void [];
    generated "glUseProgram" [Scalar "program" GLuint 0] ["program"] Void [];
    generated "glValidateProgram" [Scalar "program" GLuint 0] ["program"] Void [];
    generated "glVertexAttrib1f" [Scalar "index" GLuint 0; Scalar "x" GLfloat 1] ["index"; "x"] Void [];
    generated "glVertexAttrib1fv" [Scalar "index" GLuint 0; Pointer "v" GLfloat 1 (Fixed 1) kPageRead] ["index"; "v"] Void [];
    generated "glVertexAttrib2f" [Scalar "index" GLuint 0; Scalar "x" GLfloat 1; Scalar "y" GLfloat 2] ["index"; "x"; "y"] Void [];
    generated "glVertexAttrib2fv" [Scalar "index" GLuint 0; Pointer "v" GLfloat 1 (Fixed 2) kPageRead] ["index"; "v"] Void [];
    generated "glVertexAttrib3f" [Scalar "index" GLuint 0; Scalar "x" GLfloat 1; Scalar "y" GLfloat 2; Scalar "z" GLfloat 3] ["index"; "x"; "y"; "z"] Void [];
    generated "glVertexAttrib3fv" [Scalar "index" GLuint 0; Pointer "v" GLfloat 1 (Fixed 3) kPageRead] ["index"; "v"] Void [];
    generated "glVertexAttrib4f" [Scalar "index" GLuint 0; Scalar "x" GLfloat 1; Scalar "y" GLfloat 2; Scalar "z" GLfloat 3; Scalar "w" GLfloat 4] ["index"; "x"; "y"; "z"; "w"] Void [];
    generated "glVertexAttrib4fv" [Scalar "index" GLuint 0; Pointer "v" GLfloat 1 (Fixed 4) kPageRead] ["index"; "v"] Void [];
    manual "glVertexAttribPointer";
    generated "glViewport" [Scalar "x" GLint 0; Scalar "y" GLint 1; Scalar "width" GLsizei 2; Scalar "height" GLsizei 3] ["x"; "y"; "width"; "height"] Void [];
    generated "glBeginQuery" [Scalar "target" GLenum 0; Scalar "id" GLuint 1] ["target"; "id"] Void [];
    generated "glBeginTransformFeedback" [Scalar "primitiveMode" GLenum 0] ["primitiveMode"] Void []].

Definition gl_cases_8 : list gl_case := [
    generated "glBindBufferBase" [Scalar "target" GLenum 0; Scalar "index" GLuint 1; Scalar "buffer" GLuint 2] ["target"; "index"; "buffer"] Void [];
    generated "glBindBufferRange" [Scalar "target" GLenum 0; Scalar "index" GLuint 1; Scalar "buffer" GLuint 2; Scalar "offset" GLintptr 3; Scalar "size" GLsizeiptr 4] ["target"; "index"; "buffer"; "offset"; "size"] Void [];
    generated "glBindSampler" [Scalar "unit" GLuint 0; Scalar "sampler" GLuint 1] ["unit"; "sampler"] Void [];
    generated "glBindTransformFeedback" [Scalar "target" GLenum 0; Scalar "id" GLuint 1] ["target"; "id"] Void [];
    generated "glBindVertexArray" [Scalar "array" GLuint 0] ["array"] Void [];
    generated "glBlitFramebuffer" [Scalar "srcX0" GLint 0; Scalar "srcY0" GLint 1; Scalar "srcX1" GLint 2; Scalar "srcY1" GLint 3; Scalar "dstX0" GLint 4; Scalar "dstY0" GLint 5; Scalar "dstX1" GLint 6; Scalar "dstY1" GLint 7; Scalar "mask" GLbitfield 8; Scalar "filter" GLenum 9] ["srcX0"; "srcY0"; "srcX1"; "srcY1"; "dstX0"; "dstY0"; "dstX1"; "dstY1"; "mask"; "filter"] Void [];
    generated "glClearBufferfi" [Scalar "buffer" GLenum 0; Scalar "drawbuffer" GLint 1; Scalar "depth" GLfloat 2; Scalar "stencil" GLint 3] ["buffer"; "drawbuffer"; "depth"; "stencil"] Void [];
    manual "glClearBufferfv";
    manual "glClearBufferiv";
    manual "glClearBufferuiv";
    manual "glClientWaitSync";
    generated "glCompressedTexImage3D" [Scalar "target" GLenum 0; Scalar "level" GLint 1; Scalar "internalformat" GLenum 2; Scalar "width" GLsizei 3; Scalar "height" GLsizei 4; Scalar "depth" GLsizei 5; Scalar "border" GLint 6; Scalar "imageSize" GLsizei 7; Pointer "data" GLvoid 8 (Length "imageSize" 1) kPageRead] ["target"; "level"; "internalformat"; "width"; "height"; "depth"; "border"; "imageSize"; "data"] Void [];
    generated "glCompressedTexSubImage3D" [Scalar "target" GLenum 0; Scalar "level" GLint 1; Scalar "xoffset" GLint 2; Scalar "yoffset" GLint 3; Scalar "zoffset" GLint 4; Scalar "width" GLsizei 5; Scalar "height" GLsizei 6; Scalar "depth" GLsizei 7; Scalar "format" GLenum 8; Scalar "imageSize" GLsizei 9; Pointer "data" GLvoid 10 (Length "imageSize" 1) kPageRead] ["target"; "level"; "xoffset"; "yoffset"; "zoffset"; "width"; "height"; "depth"; "format"; "imageSize"; "data"] Void [];
    generated "glCopyBufferSubData" [Scalar "readTarget" GLenum 0; Scalar "writeTarget" GLenum 1; Scalar "readOffset" GLintptr 2; Scalar "writeOffset" GLintptr 3; Scalar "size" GLsizeiptr 4] ["readTarget"; "writeTarget"; "readOffset"; "writeOffset"; "size"] Void [];
    generated "glCopyTexSubImage3D" [Scalar "target" GLenum 0; Scalar "level" GLint 1; Scalar "xoffset" GLint 2; Scalar "yoffset" GLint 3; Scalar "zoffset" GLint 4; Scalar "x" GLint 5; Scalar "y" GLint 6; Scalar "width" GLsizei 7; Scalar "height" GLsizei 8] ["target"; "level"; "xoffset"; "yoffset"; "zoffset"; "x"; "y"; "width"; "height"] Void [];
    generated "glDeleteQueries" [Scalar "n" GLsizei 0; Pointer "ids" GLuint 1 (Length "n" 1) kPageRead] ["n"; "ids"] Void [];
    generated "glDeleteSamplers" [Scalar "count" GLsizei 0; Pointer "samplers" GLuint 1 (Length "count" 1) kPageRead] ["count"; "samplers"] Void [];
    manual "glDeleteSync"].

Definition gl_cases_9 : list gl_case := [
    generated "glDeleteTransformFeedbacks" [Scalar "n" GLsizei 0; Pointer "ids" GLuint 1 (Length "n" 1) kPageRead] ["n"; "ids"] Void [];
    generated "glDeleteVertexArrays" [Scalar "n" GLsizei 0; Pointer "arrays" GLuint 1 (Length "n" 1) kPageRead] ["n"; "arrays"] Void [];
    manual "glDrawArraysInstanced";
    generated "glDrawBuffers" [Scalar "n" GLsizei 0; Pointer "bufs" GLenum 1 (Length "n" 1) kPageRead] ["n"; "bufs"] Void [];
    manual "glDrawElementsInstanced";
    manual "glDrawRangeElements";
    generated "glEndQuery" [Scalar "target" GLenum 0] ["target"] Void [];
    generated "glEndTransformFeedback" [] [] Void [];
    manual "glFenceSync";
    manual "glFlushMappedBufferRange";
    generated "glFramebufferTextureLayer" [Scalar "target" GLenum 0; Scalar "attachment" GLenum 1; Scalar "texture" GLuint 2; Scalar "level" GLint 3; Scalar "layer" GLint 4] ["target"; "attachment"; "texture"; "level"; "layer"] Void [];
    generated "glGenQueries" [Scalar "n" GLsizei 0; Pointer "ids" GLuint 1 (Length "n" 1) RW] ["n"; "ids"] Void [];
    generated "glGenSamplers" [Scalar "count" GLsizei 0; Pointer "samplers" GLuint 1 (Length "count" 1) RW] ["count"; "samplers"] Void [];
    generated "glGenTransformFeedbacks" [Scalar "n" GLsizei 0; Pointer "ids" GLuint 1 (Length "n" 1) RW] ["n"; "ids"] Void [];
    generated "glGenVertexArrays" [Scalar "n" GLsizei 0; Pointer "arrays" GLuint 1 (Length "n" 1) RW] ["n"; "arrays"] Void [];
    generated "glGetActiveUniformBlockName" [Scalar "program" GLuint 0; Scalar "uniformBlockIndex" GLuint 1; Scalar "bufSize" GLsizei 2; Pointer "length" GLsizei 3 (Fixed 1) RW; Pointer "uniformBlockName" GLchar 4 (Length "bufSize" 1) RW] ["program"; "uniformBlockIndex"; "bufSize"; "length"; "uniformBlockName"] Void [];
    manual "glGetActiveUniformBlockiv";
    manual "glGetActiveUniformsiv";
    generated "glGetBufferParameteri64v" [Scalar "target" GLenum 0; Scalar "pname" GLenum 1; Pointer "params" GLint64 2 (Fixed 1) RW] ["target"; "pname"; "params"] Void [];
    manual "glGetBufferPointerv";
    manual "glGetFragDataLocation";
    generated "glGetInteger64i_v" [Scalar "target" GLenum 0; Scalar "index" GLuint 1; Pointer "data" GLint64 2 (Fixed 1) RW] ["target"; "index"; "data"] Void [];
    manual "glGetInteger64v";
    generated "glGetIntegeri_v" [Scalar "target" GLenum 0; Scalar "index" GLuint 1; Pointer "data" GLint 2 (Fixed 1) RW] ["target"; "index"; "data"] Void [];
    generated "glGetInternalformativ" [Scalar "target" GLenum 0; Scalar "internalformat" GLenum 1; Scalar "pname" GLenum 2; Scalar "count" GLsizei 3; Pointer "params" GLint 4 (Length "count" 1) RW] ["target"; "internalformat"; "pname"; "count"; "params"] Void []].

Definition gl_cases_10 : list gl_case := [
    generated "glGetProgramBinary" [Scalar "program" GLuint 0; Scalar "bufSize" GLsizei 1; Pointer "length" GLsizei 2 (Fixed 1) RW; Pointer "binaryFormat" GLenum 3 (Fixed 1) RW; Pointer "binary" GLvoid 4 (Length "bufSize" 1) RW] ["program"; "bufSize"; "length"; "binaryFormat"; "binary"] Void [];
    generated "glGetQueryObjectuiv" [Scalar "id" GLuint 0; Scalar "pname" GLenum 1; Pointer "params" GLuint 2 (Fixed 1) RW] ["id"; "pname"; "params"] Void [];
    generated "glGetQueryiv" [Scalar "target" GLenum 0; Scalar "pname" GLenum 1; Pointer "params" GLint 2 (Fixed 1) RW] ["target"; "pname"; "params"] Void [];
    generated "glGetSamplerParameterfv" [Scalar "sampler" GLuint 0; Scalar "pname" GLenum 1; Pointer "params" GLfloat 2 (Fixed 1) RW] ["sampler"; "pname"; "params"] Void [];
    generated "glGetSamplerParameteriv" [Scalar "sampler" GLuint 0; Scalar "pname" GLenum 1; Pointer "params" GLint 2 (Fixed 1) RW] ["sampler"; "pname"; "params"] Void [];
    manual "glGetStringi";
    manual "glGetSynciv";
    generated "glGetTransformFeedbackVarying" [Scalar "program" GLuint 0; Scalar "index" GLuint 1; Scalar "bufSize" GLsizei 2; Pointer "length" GLsizei 3 (Fixed 1) RW; Pointer "size" GLsizei 4 (Fixed 1) RW; Pointer "type" GLenum 5 (Fixed 1) RW; Pointer "name" GLchar 6 (Length "bufSize" 1) RW] ["program"; "index"; "bufSize"; "length"; "size"; "type"; "name"] Void [];
    manual "glGetUniformBlockIndex";
    manual "glGetUniformIndices";
    manual "glGetUniformuiv";
    generated "glGetVertexAttribIiv" [Scalar "index" GLuint 0; Scalar "pname" GLenum 1; Pointer "params" GLint 2 (Fixed 1) RW] ["index"; "pname"; "params"] Void [];
    generated "glGetVertexAttribIuiv" [Scalar "index" GLuint 0; Scalar "pname" GLenum 1; Pointer "params" GLuint 2 (Fixed 1) RW] ["index"; "pname"; "params"] Void [];
    generated "glInvalidateFramebuffer" [Scalar "target" GLenum 0; Scalar "numAttachments" GLsizei 1; Pointer "attachments" GLenum 2 (Length "numAttachments" 1) kPageRead] ["target"; "numAttachments"; "attachments"] Void [];
    generated "glInvalidateSubFramebuffer" [Scalar "target" GLenum 0; Scalar "numAttachments" GLsizei 1; Scalar "x" GLint 3; Scalar "y" GLint 4; Scalar "width" GLsizei 5; Scalar "height" GLsizei 6; Pointer "attachments" GLenum 2 (Length "numAttachments" 1) kPageRead] ["target"; "numAttachments"; "attachments"; "x"; "y"; "width"; "height"] Void [];
    generated "glIsQuery" [Scalar "id" GLuint 0] ["id"] Value [];
    generated "glIsSampler" [Scalar "sampler" GLuint 0] ["sampler"] Value [];
    manual "glIsSync";
    generated "glIsTransformFeedback" [Scalar "id" GLuint 0] ["id"] Value [];
    generated "glIsVertexArray" [Scalar "array" GLuint 0] ["array"] Value [];
    manual "glMapBufferRange";
    generated "glPauseTransformFeedback" [] [] Void [];
    generated "glProgramBinary" [Scalar "program" GLuint 0; Scalar "binaryFormat" GLenum 1; Scalar "length" GLsizei 3; Pointer "binary" GLvoid 2 (Length "length" 1) kPageRead] ["program"; "binaryFormat"; "binary"; "length"] Void []].

Definition gl_cases_11 : list gl_case := [
    generated "glProgramParameteri" [Scalar "program" GLuint 0; Scalar "pname" GLenum 1; Scalar "value" GLint 2] ["program"; "pname"; "value"] Void [];
    generated "glReadBuffer" [Scalar "src" GLenum 0] ["src"] Void [];
    generated "glRenderbufferStorageMultisample" [Scalar "target" GLenum 0; Scalar "samples" GLsizei 1; Scalar "internalformat" GLenum 2; Scalar "width" GLsizei 3; Scalar "height" GLsizei 4] ["target"; "samples"; "internalformat"; "width"; "height"] Void [];
    generated "glResumeTransformFeedback" [] [] Void [];
    generated "glSamplerParameterf" [Scalar "sampler" GLuint 0; Scalar "pname" GLenum 1; Scalar "param" GLfloat 2] ["sampler"; "pname"; "param"] Void [];
    generated "glSamplerParameterfv" [Scalar "sampler" GLuint 0; Scalar "pname" GLenum 1; Pointer "param" GLfloat 2 (Fixed 1) kPageRead] ["sampler"; "pname"; "param"] Void [];
    generated "glSamplerParameteri" [Scalar "sampler" GLuint 0; Scalar "pname" GLenum 1; Scalar "param" GLint 2] ["sampler"; "pname"; "param"] Void [];
    generated "glSamplerParameteriv" [Scalar "sampler" GLuint 0; Scalar "pname" GLenum 1; Pointer "param" GLint 2 (Fixed 1) kPageRead] ["sampler"; "pname"; "param"] Void [];
    manual "glTexImage3D";
    generated "glTexStorage2D" [Scalar "target" GLenum 0; Scalar "levels" GLsizei 1; Scalar "internalformat" GLenum 2; Scalar "width" GLsizei 3; Scalar "height" GLsizei 4] ["target"; "levels"; "internalformat"; "width"; "height"] Void [];
    generated "glTexStorage3D" [Scalar "target" GLenum 0; Scalar "levels" GLsizei 1; Scalar "internalformat" GLenum 2; Scalar "width" GLsizei 3; Scalar "height" GLsizei 4; Scalar "depth" GLsizei 5] ["target"; "levels"; "internalformat"; "width"; "height"; "depth"] Void [];
    manual "glTexSubImage3D";
    manual "glTransformFeedbackVaryings";
    generated "glUniform1ui" [Scalar "location" GLint 0; Scalar "v0" GLuint 1] ["location"; "v0"] Void [];
    generated "glUniform1uiv" [Scalar "location" GLint 0; Scalar "count" GLsizei 1; Pointer "value" GLuint 2 (Length "count" 1) kPageRead] ["location"; "count"; "value"] Void [];
    generated "glUniform2ui" [Scalar "location" GLint 0; Scalar "v0" GLuint 1; Scalar "v1" GLuint 2] ["location"; "v0"; "v1"] Void [];
    generated "glUniform2uiv" [Scalar "location" GLint 0; Scalar "count" GLsizei 1; Pointer "value" GLuint 2 (Length "count" 2) kPageRead] ["location"; "count"; "value"] Void [];
    generated "glUniform3ui" [Scalar "location" GLint 0; Scalar "v0" GLuint 1; Scalar "v1" GLuint 2; Scalar "v2" GLuint 3] ["location"; "v0"; "v1"; "v2"] Void [];
    generated "glUniform3uiv" [Scalar "location" GLint 0; Scalar "count" GLsizei 1; Pointer "value" GLuint 2 (Length "count" 3) kPageRead] ["location"; "count"; "value"] Void [];
    generated "glUniform4ui" [Scalar "location" GLint 0; Scalar "v0" GLuint 1; Scalar "v1" GLuint 2; Scalar "v2" GLuint 3; Scalar "v3" GLuint 4] ["location"; "v0"; "v1"; "v2"; "v3"] Void []].

Definition gl_cases_12 : list gl_case := [
    generated "glUniform4uiv" [Scalar "location" GLint 0; Scalar "count" GLsizei 1; Pointer "value" GLuint 2 (Length "count" 4) kPageRead] ["location"; "count"; "value"] Void [];
    generated "glUniformBlockBinding" [Scalar "program" GLuint 0; Scalar "uniformBlockIndex" GLuint 1; Scalar "uniformBlockBinding" GLuint 2] ["program"; "uniformBlockIndex"; "uniformBlockBinding"] Void [];
    generated "glUniformMatrix2x3fv" [Scalar "location" GLint 0; Scalar "count" GLsizei 1; Scalar "transpose" GLboolean 2; Pointer "value" GLfloat 3 (Length "count" 6) kPageRead] ["location"; "count"; "transpose"; "value"] Void [];
    generated "glUniformMatrix2x4fv" [Scalar "location" GLint 0; Scalar "count" GLsizei 1; Scalar "transpose" GLboolean 2; Pointer "value" GLfloat 3 (Length "count" 8) kPageRead] ["location"; "count"; "transpose"; "value"] Void [];
    generated "glUniformMatrix3x2fv" [Scalar "location" GLint 0; Scalar "count" GLsizei 1; Scalar "transpose" GLboolean 2; Pointer "value" GLfloat 3 (Length "count" 6) kPageRead] ["location"; "count"; "transpose"; "value"] Void [];
    generated "glUniformMatrix3x4fv" [Scalar "location" GLint 0; Scalar "count" GLsizei 1; Scalar "transpose" GLboolean 2; Pointer "value" GLfloat 3 (Length "count" 12) kPageRead] ["location"; "count"; "transpose"; "value"] Void [];
    generated "glUniformMatrix4x2fv" [Scalar "location" GLint 0; Scalar "count" GLsizei 1; Scalar "transpose" GLboolean 2; Pointer "value" GLfloat 3 (Length "count" 8) kPageRead] ["location"; "count"; "transpose"; "value"] Void [];
    generated "glUniformMatrix4x3fv" [Scalar "location" GLint 0; Scalar "count" GLsizei 1; Scalar "transpose" GLboolean 2; Pointer "value" GLfloat 3 (Length "count" 12) kPageRead] ["location"; "count"; "transpose"; "value"] Void [];
    manual "glUnmapBuffer";
    generated "glVertexAttribDivisor" [Scalar "index" GLuint 0; Scalar "divisor" GLuint 1] ["index"; "divisor"] Void [];
    generated "glVertexAttribI4i" [Scalar "index" GLuint 0; Scalar "x" GLint 1; Scalar "y" GLint 2; Scalar "z" GLint 3; Scalar "w" GLint 4] ["index"; "x"; "y"; "z"; "w"] Void [];
    generated "glVertexAttribI4iv" [Scalar "index" GLuint 0; Pointer "v" GLint 1 (Fixed 4) kPageRead] ["index"; "v"] Void [];
    generated "glVertexAttribI4ui" [Scalar "index" GLuint 0; Scalar "x" GLuint 1; Scalar "y" GLuint 2; Scalar "z" GLuint 3; Scalar "w" GLuint 4] ["index"; "x"; "y"; "z"; "w"] Void [];
    generated "glVertexAttribI4uiv" [Scalar "index" GLuint 0; Pointer "v" GLuint 1 (Fixed 4) kPageRead] ["index"; "v"] Void [];
    manual "glVertexAttribIPointer";
    manual "glWaitSync";
    generated "glRenderbufferStorageMultisampleEXT" [Scalar "target" GLenum 0; Scalar "samples" GLsizei 1; Scalar "internalformat" GLenum 2; Scalar "width" GLsizei 3; Scalar "height" GLsizei 4] ["target"; "samples"; "internalformat"; "width"; "height"] Void [];
    generated "glFramebufferTexture2DMultisampleEXT" [Scalar "target" GLenum 0; Scalar "attachment" GLenum 1; Scalar "textarget" GLenum 2; Scalar "texture" GLuint 3; Scalar "level" GLint 4; Scalar "samples" GLsizei 5] ["target"; "attachment"; "textarget"; "texture"; "level"; "samples"] Void [];
    generated "glDiscardFramebufferEXT" [Scalar "target" GLenum 0; Scalar "numAttachments" GLsizei 1; Pointer "attachments" GLenum 2 (Length "numAttachments" 1) kPageRead] ["target"; "numAttachments"; "attachments"] Void []].

Definition gl_cases_13 : list gl_case := [
    generated "glBindVertexArrayOES" [Scalar "array" GLuint 0] ["array"] Void [];
    generated "glDeleteVertexArraysOES" [Scalar "n" GLsizei 0; Pointer "arrays" GLuint 1 (Length "n" 1) kPageRead] ["n"; "arrays"] Void [];
    generated "glGenVertexArraysOES" [Scalar "n" GLsizei 0; Pointer "arrays" GLuint 1 (Length "n" 1) RW] ["n"; "arrays"] Void [];
    generated "glIsVertexArrayOES" [Scalar "array" GLuint 0] ["array"] Value [];
    manual "glMapBufferOES";
    manual "glUnmapBufferOES";
    manual "glGetBufferPointervOES";
    generated "glTexStorage2DEXT" [Scalar "target" GLenum 0; Scalar "levels" GLsizei 1; Scalar "internalformat" GLenum 2; Scalar "width" GLsizei 3; Scalar "height" GLsizei 4] ["target"; "levels"; "internalformat"; "width"; "height"] Void [];
    generated "glTexStorage3DEXT" [Scalar "target" GLenum 0; Scalar "levels" GLsizei 1; Scalar "internalformat" GLenum 2; Scalar "width" GLsizei 3; Scalar "height" GLsizei 4; Scalar "depth" GLsizei 5] ["target"; "levels"; "internalformat"; "width"; "height"; "depth"] Void []].

Definition gl_cases : list gl_case :=
  gl_cases_1 ++ gl_cases_2 ++ gl_cases_3 ++ gl_cases_4 ++ gl_cases_5 ++ gl_cases_6 ++ gl_cases_7 ++ gl_cases_8 ++ gl_cases_9 ++ gl_cases_10 ++ gl_cases_11 ++ gl_cases_12 ++ gl_cases_13.

(** ** Numbers *)

Definition gl_indices_0 : list (string * Z) := [
    ("glActiveTexture", 0); ("glAttachShader", 1); ("glBindAttribLocation", 2); ("glBindBuffer", 3); ("glBindFramebuffer", 4); ("glBindRenderbuffer", 5);
    ("glBindTexture", 6); ("glBlendColor", 7); ("glBlendEquation", 8); ("glBlendEquationSeparate", 9); ("glBlendFunc", 10); ("glBlendFuncSeparate", 11);
    ("glBufferData", 12); ("glBufferSubData", 13); ("glCheckFramebufferStatus", 14); ("glClear", 15); ("glClearColor", 16); ("glClearDepthf", 17); ("glClearStencil", 18);
    ("glColorMask", 19); ("glCompileShader", 20); ("glCompressedTexImage2D", 21); ("glCompressedTexSubImage2D", 22); ("glCopyTexImage2D", 23);
    ("glCopyTexSubImage2D", 24); ("glCreateProgram", 25); ("glCreateShader", 26); ("glCullFace", 27); ("glDeleteBuffers", 28); ("glDeleteFramebuffers", 29);
    ("glDeleteProgram", 30); ("glDeleteRenderbuffers", 31); ("glDeleteShader", 32); ("glDeleteTextures", 33); ("glDepthFunc", 34); ("glDepthMask", 35);
    ("glDepthRangef", 36); ("glDetachShader", 37); ("glDisable", 38); ("glDisableVertexAttribArray", 39); ("glDrawArrays", 40); ("glDrawElements", 41); ("glEnable", 42);
    ("glEnableVertexAttribArray", 43); ("glFinish", 44); ("glFlush", 45); ("glFramebufferRenderbuffer", 46); ("glFramebufferTexture2D", 47); ("glFrontFace", 48);
    ("glGenBuffers", 49); ("glGenFramebuffers", 50); ("glGenRenderbuffers", 51); ("glGenTextures", 52); ("glGenerateMipmap", 53); ("glGetActiveAttrib", 54);
    ("glGetActiveUniform", 55); ("glGetAttachedShaders", 56); ("glGetAttribLocation", 57); ("glGetBooleanv", 58); ("glGetBufferParameteriv", 59); ("glGetError", 60);
    ("glGetFloatv", 61); ("glGetFramebufferAttachmentParameteriv", 62); ("glGetIntegerv", 63); ("glGetProgramInfoLog", 64); ("glGetProgramiv", 65);
    ("glGetRenderbufferParameteriv", 66); ("glGetShaderInfoLog", 67); ("glGetShaderPrecisionFormat", 68); ("glGetShaderSource", 69); ("glGetShaderiv", 70);
    ("glGetString", 71); ("glGetTexParameterfv", 72); ("glGetTexParameteriv", 73); ("glGetUniformLocation", 74); ("glGetUniformfv", 75); ("glGetUniformiv", 76);
    ("glGetVertexAttribPointerv", 77); ("glGetVertexAttribfv", 78); ("glGetVertexAttribiv", 79); ("glHint", 80); ("glIsBuffer", 81); ("glIsEnabled", 82);
    ("glIsFramebuffer", 83); ("glIsProgram", 84); ("glIsRenderbuffer", 85); ("glIsShader", 86); ("glIsTexture", 87); ("glLineWidth", 88); ("glLinkProgram", 89);
    ("glPixelStorei", 90); ("glPolygonOffset", 91); ("glReadPixels", 92); ("glReleaseShaderCompiler", 93); ("glRenderbufferStorage", 94); ("glSampleCoverage", 95);
    ("glScissor", 96); ("glShaderBinary", 97); ("glShaderSource", 98); ("glStencilFunc", 99); ("glStencilFuncSeparate", 100); ("glStencilMask", 101);
    ("glStencilMaskSeparate", 102); ("glStencilOp", 103); ("glStencilOpSeparate", 104); ("glTexImage2D", 105); ("glTexParameterf", 106); ("glTexParameterfv", 107);
    ("glTexParameteri", 108); ("glTexParameteriv", 109); ("glTexSubImage2D", 110); ("glUniform1f", 111); ("glUniform1fv", 112); ("glUniform1i", 113);
    ("glUniform1iv", 114); ("glUniform2f", 115); ("glUniform2fv", 116); ("glUniform2i", 117); ("glUniform2iv", 118); ("glUniform3f", 119); ("glUniform3fv", 120);
    ("glUniform3i", 121); ("glUniform3iv", 122); ("glUniform4f", 123); ("glUniform4fv", 124); ("glUniform4i", 125); ("glUniform4iv", 126); ("glUniformMatrix2fv", 127);
    ("glUniformMatrix3fv", 128); ("glUniformMatrix4fv", 129); ("glUseProgram", 130); ("glValidateProgram", 131); ("glVertexAttrib1f", 132); ("glVertexAttrib1fv", 133);
    ("glVertexAttrib2f", 134); ("glVertexAttrib2fv", 135); ("glVertexAttrib3f", 136); ("glVertexAttrib3fv", 137); ("glVertexAttrib4f", 138); ("glVertexAttrib4fv", 139)].

Definition gl_indices_140 : list (string * Z) := [
    ("glVertexAttribPointer", 140); ("glViewport", 141); ("glBeginQuery", 228); ("glBeginTransformFeedback", 229); ("glBindBufferBase", 230); ("glBindBufferRange", 231);
    ("glBindSampler", 232); ("glBindTransformFeedback", 233); ("glBindVertexArray", 234); ("glBlitFramebuffer", 235); ("glClearBufferfi", 236); ("glClearBufferfv", 237);
    ("glClearBufferiv", 238); ("glClearBufferuiv", 239); ("glClientWaitSync", 240); ("glCompressedTexImage3D", 241); ("glCompressedTexSubImage3D", 242);
    ("glCopyBufferSubData", 243); ("glCopyTexSubImage3D", 244); ("glDeleteQueries", 245); ("glDeleteSamplers", 246); ("glDeleteSync", 247);
    ("glDeleteTransformFeedbacks", 248); ("glDeleteVertexArrays", 249); ("glDrawArraysInstanced", 250); ("glDrawBuffers", 251); ("glDrawElementsInstanced", 252);
    ("glDrawRangeElements", 253); ("glEndQuery", 254); ("glEndTransformFeedback", 255); ("glFenceSync", 256); ("glFlushMappedBufferRange", 257);
    ("glFramebufferTextureLayer", 258); ("glGenQueries", 259); ("glGenSamplers", 260); ("glGenTransformFeedbacks", 261); ("glGenVertexArrays", 262);
    ("glGetActiveUniformBlockName", 263); ("glGetActiveUniformBlockiv", 264); ("glGetActiveUniformsiv", 265); ("glGetBufferParameteri64v", 266);
    ("glGetBufferPointerv", 267); ("glGetFragDataLocation", 268); ("glGetInteger64i_v", 269); ("glGetInteger64v", 270); ("glGetIntegeri_v", 271);
    ("glGetInternalformativ", 272); ("glGetProgramBinary", 273); ("glGetQueryObjectuiv", 274); ("glGetQueryiv", 275); ("glGetSamplerParameterfv", 276);
    ("glGetSamplerParameteriv", 277); ("glGetStringi", 278); ("glGetSynciv", 279); ("glGetTransformFeedbackVarying", 280); ("glGetUniformBlockIndex", 281);
    ("glGetUniformIndices", 282); ("glGetUniformuiv", 283); ("glGetVertexAttribIiv", 284); ("glGetVertexAttribIuiv", 285); ("glInvalidateFramebuffer", 286);
    ("glInvalidateSubFramebuffer", 287); ("glIsQuery", 288); ("glIsSampler", 289); ("glIsSync", 290); ("glIsTransformFeedback", 291); ("glIsVertexArray", 292);
    ("glMapBufferRange", 293); ("glPauseTransformFeedback", 294); ("glProgramBinary", 295); ("glProgramParameteri", 296); ("glReadBuffer", 297);
    ("glRenderbufferStorageMultisample", 298); ("glResumeTransformFeedback", 299); ("glSamplerParameterf", 300); ("glSamplerParameterfv", 301);
    ("glSamplerParameteri", 302); ("glSamplerParameteriv", 303); ("glTexImage3D", 304); ("glTexStorage2D", 305); ("glTexStorage3D", 306); ("glTexSubImage3D", 307);
    ("glTransformFeedbackVaryings", 308); ("glUniform1ui", 309); ("glUniform1uiv", 310); ("glUniform2ui", 311); ("glUniform2uiv", 312); ("glUniform3ui", 313);
    ("glUniform3uiv", 314); ("glUniform4ui", 315); ("glUniform4uiv", 316); ("glUniformBlockBinding", 317); ("glUniformMatrix2x3fv", 318); ("glUniformMatrix2x4fv", 319);
    ("glUniformMatrix3x2fv", 320); ("glUniformMatrix3x4fv", 321); ("glUniformMatrix4x2fv", 322); ("glUniformMatrix4x3fv", 323); ("glUnmapBuffer", 324);
    ("glVertexAttribDivisor", 325); ("glVertexAttribI4i", 326); ("glVertexAttribI4iv", 327); ("glVertexAttribI4ui", 328); ("glVertexAttribI4uiv", 329);
    ("glVertexAttribIPointer", 330); ("glWaitSync", 331); ("glRenderbufferStorageMultisampleEXT", 332); ("glFramebufferTexture2DMultisampleEXT", 333);
    ("glDiscardFramebufferEXT", 334); ("glBindVertexArrayOES", 335); ("glDeleteVertexArraysOES", 336); ("glGenVertexArraysOES", 337); ("glIsVertexArrayOES", 338);
    ("glMapBufferOES", 339); ("glUnmapBufferOES", 340); ("glGetBufferPointervOES", 341); ("glTexStorage2DEXT", 342); ("glTexStorage3DEXT", 343)].

Definition gl_indices : list (string * Z) := gl_indices_0 ++ gl_indices_140.

Record GlHostCallInfo := { i_index : Z; i_name : string; has_pointer : bool }.
Definition call_info (index : Z) (name : string) (b : bool) : GlHostCallInfo := {| i_index := index; i_name := name; has_pointer := b |}.

Definition gl_calls_0 : list GlHostCallInfo := [
    call_info 0 "glActiveTexture" false; call_info 1 "glAttachShader" false; call_info 2 "glBindAttribLocation" true; call_info 3 "glBindBuffer" false;
    call_info 4 "glBindFramebuffer" false; call_info 5 "glBindRenderbuffer" false; call_info 6 "glBindTexture" false; call_info 7 "glBlendColor" false;
    call_info 8 "glBlendEquation" false; call_info 9 "glBlendEquationSeparate" false; call_info 10 "glBlendFunc" false; call_info 11 "glBlendFuncSeparate" false;
    call_info 12 "glBufferData" true; call_info 13 "glBufferSubData" true; call_info 14 "glCheckFramebufferStatus" false; call_info 15 "glClear" false;
    call_info 16 "glClearColor" false; call_info 17 "glClearDepthf" false; call_info 18 "glClearStencil" false; call_info 19 "glColorMask" false;
    call_info 20 "glCompileShader" false; call_info 21 "glCompressedTexImage2D" true; call_info 22 "glCompressedTexSubImage2D" true;
    call_info 23 "glCopyTexImage2D" false; call_info 24 "glCopyTexSubImage2D" false; call_info 25 "glCreateProgram" false; call_info 26 "glCreateShader" false;
    call_info 27 "glCullFace" false; call_info 28 "glDeleteBuffers" true; call_info 29 "glDeleteFramebuffers" true; call_info 30 "glDeleteProgram" false;
    call_info 31 "glDeleteRenderbuffers" true; call_info 32 "glDeleteShader" false; call_info 33 "glDeleteTextures" true; call_info 34 "glDepthFunc" false;
    call_info 35 "glDepthMask" false; call_info 36 "glDepthRangef" false; call_info 37 "glDetachShader" false; call_info 38 "glDisable" false;
    call_info 39 "glDisableVertexAttribArray" false; call_info 40 "glDrawArrays" false; call_info 41 "glDrawElements" true; call_info 42 "glEnable" false;
    call_info 43 "glEnableVertexAttribArray" false; call_info 44 "glFinish" false; call_info 45 "glFlush" false; call_info 46 "glFramebufferRenderbuffer" false;
    call_info 47 "glFramebufferTexture2D" false; call_info 48 "glFrontFace" false; call_info 49 "glGenBuffers" true; call_info 50 "glGenFramebuffers" true;
    call_info 51 "glGenRenderbuffers" true; call_info 52 "glGenTextures" true; call_info 53 "glGenerateMipmap" false; call_info 54 "glGetActiveAttrib" true;
    call_info 55 "glGetActiveUniform" true; call_info 56 "glGetAttachedShaders" true; call_info 57 "glGetAttribLocation" true; call_info 58 "glGetBooleanv" true;
    call_info 59 "glGetBufferParameteriv" true; call_info 60 "glGetError" false; call_info 61 "glGetFloatv" true;
    call_info 62 "glGetFramebufferAttachmentParameteriv" true; call_info 63 "glGetIntegerv" true; call_info 64 "glGetProgramInfoLog" true;
    call_info 65 "glGetProgramiv" true; call_info 66 "glGetRenderbufferParameteriv" true; call_info 67 "glGetShaderInfoLog" true;
    call_info 68 "glGetShaderPrecisionFormat" true; call_info 69 "glGetShaderSource" true; call_info 70 "glGetShaderiv" true; call_info 71 "glGetString" false;
    call_info 72 "glGetTexParameterfv" true; call_info 73 "glGetTexParameteriv" true; call_info 74 "glGetUniformLocation" true; call_info 75 "glGetUniformfv" true;
    call_info 76 "glGetUniformiv" true; call_info 77 "glGetVertexAttribPointerv" true; call_info 78 "glGetVertexAttribfv" true; call_info 79 "glGetVertexAttribiv" true;
    call_info 80 "glHint" false; call_info 81 "glIsBuffer" false; call_info 82 "glIsEnabled" false; call_info 83 "glIsFramebuffer" false;
    call_info 84 "glIsProgram" false; call_info 85 "glIsRenderbuffer" false; call_info 86 "glIsShader" false; call_info 87 "glIsTexture" false;
    call_info 88 "glLineWidth" false; call_info 89 "glLinkProgram" false; call_info 90 "glPixelStorei" false; call_info 91 "glPolygonOffset" false;
    call_info 92 "glReadPixels" true; call_info 93 "glReleaseShaderCompiler" false; call_info 94 "glRenderbufferStorage" false; call_info 95 "glSampleCoverage" false;
    call_info 96 "glScissor" false; call_info 97 "glShaderBinary" true; call_info 98 "glShaderSource" true; call_info 99 "glStencilFunc" false;
    call_info 100 "glStencilFuncSeparate" false; call_info 101 "glStencilMask" false; call_info 102 "glStencilMaskSeparate" false; call_info 103 "glStencilOp" false;
    call_info 104 "glStencilOpSeparate" false; call_info 105 "glTexImage2D" true; call_info 106 "glTexParameterf" false; call_info 107 "glTexParameterfv" true;
    call_info 108 "glTexParameteri" false; call_info 109 "glTexParameteriv" true; call_info 110 "glTexSubImage2D" true; call_info 111 "glUniform1f" false;
    call_info 112 "glUniform1fv" true; call_info 113 "glUniform1i" false; call_info 114 "glUniform1iv" true; call_info 115 "glUniform2f" false;
    call_info 116 "glUniform2fv" true; call_info 117 "glUniform2i" false; call_info 118 "glUniform2iv" true; call_info 119 "glUniform3f" false;
    call_info 120 "glUniform3fv" true; call_info 121 "glUniform3i" false; call_info 122 "glUniform3iv" true; call_info 123 "glUniform4f" false;
    call_info 124 "glUniform4fv" true; call_info 125 "glUniform4i" false; call_info 126 "glUniform4iv" true; call_info 127 "glUniformMatrix2fv" true;
    call_info 128 "glUniformMatrix3fv" true; call_info 129 "glUniformMatrix4fv" true; call_info 130 "glUseProgram" false; call_info 131 "glValidateProgram" false;
    call_info 132 "glVertexAttrib1f" false; call_info 133 "glVertexAttrib1fv" true; call_info 134 "glVertexAttrib2f" false; call_info 135 "glVertexAttrib2fv" true;
    call_info 136 "glVertexAttrib3f" false; call_info 137 "glVertexAttrib3fv" true; call_info 138 "glVertexAttrib4f" false; call_info 139 "glVertexAttrib4fv" true].

Definition gl_calls_140 : list GlHostCallInfo := [
    call_info 140 "glVertexAttribPointer" true; call_info 141 "glViewport" false; call_info 228 "glBeginQuery" false; call_info 229 "glBeginTransformFeedback" false;
    call_info 230 "glBindBufferBase" false; call_info 231 "glBindBufferRange" false; call_info 232 "glBindSampler" false; call_info 233 "glBindTransformFeedback" false;
    call_info 234 "glBindVertexArray" false; call_info 235 "glBlitFramebuffer" false; call_info 236 "glClearBufferfi" false; call_info 237 "glClearBufferfv" true;
    call_info 238 "glClearBufferiv" true; call_info 239 "glClearBufferuiv" true; call_info 240 "glClientWaitSync" false; call_info 241 "glCompressedTexImage3D" true;
    call_info 242 "glCompressedTexSubImage3D" true; call_info 243 "glCopyBufferSubData" false; call_info 244 "glCopyTexSubImage3D" false;
    call_info 245 "glDeleteQueries" true; call_info 246 "glDeleteSamplers" true; call_info 247 "glDeleteSync" false; call_info 248 "glDeleteTransformFeedbacks" true;
    call_info 249 "glDeleteVertexArrays" true; call_info 250 "glDrawArraysInstanced" false; call_info 251 "glDrawBuffers" true;
    call_info 252 "glDrawElementsInstanced" true; call_info 253 "glDrawRangeElements" true; call_info 254 "glEndQuery" false;
    call_info 255 "glEndTransformFeedback" false; call_info 256 "glFenceSync" false; call_info 257 "glFlushMappedBufferRange" false;
    call_info 258 "glFramebufferTextureLayer" false; call_info 259 "glGenQueries" true; call_info 260 "glGenSamplers" true; call_info 261 "glGenTransformFeedbacks" true;
    call_info 262 "glGenVertexArrays" true; call_info 263 "glGetActiveUniformBlockName" true; call_info 264 "glGetActiveUniformBlockiv" true;
    call_info 265 "glGetActiveUniformsiv" true; call_info 266 "glGetBufferParameteri64v" true; call_info 267 "glGetBufferPointerv" true;
    call_info 268 "glGetFragDataLocation" true; call_info 269 "glGetInteger64i_v" true; call_info 270 "glGetInteger64v" true; call_info 271 "glGetIntegeri_v" true;
    call_info 272 "glGetInternalformativ" true; call_info 273 "glGetProgramBinary" true; call_info 274 "glGetQueryObjectuiv" true; call_info 275 "glGetQueryiv" true;
    call_info 276 "glGetSamplerParameterfv" true; call_info 277 "glGetSamplerParameteriv" true; call_info 278 "glGetStringi" false; call_info 279 "glGetSynciv" true;
    call_info 280 "glGetTransformFeedbackVarying" true; call_info 281 "glGetUniformBlockIndex" true; call_info 282 "glGetUniformIndices" true;
    call_info 283 "glGetUniformuiv" true; call_info 284 "glGetVertexAttribIiv" true; call_info 285 "glGetVertexAttribIuiv" true;
    call_info 286 "glInvalidateFramebuffer" true; call_info 287 "glInvalidateSubFramebuffer" true; call_info 288 "glIsQuery" false; call_info 289 "glIsSampler" false;
    call_info 290 "glIsSync" false; call_info 291 "glIsTransformFeedback" false; call_info 292 "glIsVertexArray" false; call_info 293 "glMapBufferRange" false;
    call_info 294 "glPauseTransformFeedback" false; call_info 295 "glProgramBinary" true; call_info 296 "glProgramParameteri" false; call_info 297 "glReadBuffer" false;
    call_info 298 "glRenderbufferStorageMultisample" false; call_info 299 "glResumeTransformFeedback" false; call_info 300 "glSamplerParameterf" false;
    call_info 301 "glSamplerParameterfv" true; call_info 302 "glSamplerParameteri" false; call_info 303 "glSamplerParameteriv" true; call_info 304 "glTexImage3D" true;
    call_info 305 "glTexStorage2D" false; call_info 306 "glTexStorage3D" false; call_info 307 "glTexSubImage3D" true; call_info 308 "glTransformFeedbackVaryings" true;
    call_info 309 "glUniform1ui" false; call_info 310 "glUniform1uiv" true; call_info 311 "glUniform2ui" false; call_info 312 "glUniform2uiv" true;
    call_info 313 "glUniform3ui" false; call_info 314 "glUniform3uiv" true; call_info 315 "glUniform4ui" false; call_info 316 "glUniform4uiv" true;
    call_info 317 "glUniformBlockBinding" false; call_info 318 "glUniformMatrix2x3fv" true; call_info 319 "glUniformMatrix2x4fv" true;
    call_info 320 "glUniformMatrix3x2fv" true; call_info 321 "glUniformMatrix3x4fv" true; call_info 322 "glUniformMatrix4x2fv" true;
    call_info 323 "glUniformMatrix4x3fv" true; call_info 324 "glUnmapBuffer" false; call_info 325 "glVertexAttribDivisor" false; call_info 326 "glVertexAttribI4i" false;
    call_info 327 "glVertexAttribI4iv" true; call_info 328 "glVertexAttribI4ui" false; call_info 329 "glVertexAttribI4uiv" true;
    call_info 330 "glVertexAttribIPointer" true; call_info 331 "glWaitSync" false; call_info 332 "glRenderbufferStorageMultisampleEXT" false;
    call_info 333 "glFramebufferTexture2DMultisampleEXT" false; call_info 334 "glDiscardFramebufferEXT" true; call_info 335 "glBindVertexArrayOES" false;
    call_info 336 "glDeleteVertexArraysOES" true; call_info 337 "glGenVertexArraysOES" true; call_info 338 "glIsVertexArrayOES" false;
    call_info 339 "glMapBufferOES" false; call_info 340 "glUnmapBufferOES" false; call_info 341 "glGetBufferPointervOES" true; call_info 342 "glTexStorage2DEXT" false;
    call_info 343 "glTexStorage3DEXT" false].

Definition kGlHostCalls : list GlHostCallInfo := gl_calls_0 ++ gl_calls_140.

Definition kGlHostCallLast : Z := 141.
Definition kGlHostCallCount : Z := 142.
Definition kGlHostCall3First : Z := 228.
Definition kGlHostCall3Last : Z := 331.
Definition kGlHostCall3Count : Z := 104.
Definition kGlHostCallExtFirst : Z := 332.
Definition kGlHostCallExtLast : Z := 343.

Definition gl_host_call (index : Z) : option GlHostCallInfo :=
  if index <=? kGlHostCallLast then kGlHostCalls !! Z.to_nat index
  else if (kGlHostCall3First <=? index) && (index <=? kGlHostCall3Last) then kGlHostCalls !! Z.to_nat (kGlHostCallCount + (index - kGlHostCall3First))
  else if (kGlHostCallExtFirst <=? index) && (index <=? kGlHostCallExtLast) then kGlHostCalls !! Z.to_nat (kGlHostCallCount + kGlHostCall3Count + (index - kGlHostCallExtFirst))
  else None.

Definition is_gl_host_call (index : Z) : bool := bool_decide (is_Some (gl_host_call index)).
Definition gl_host_call_name (index : Z) : string := match gl_host_call index with Some info => i_name info | None => "?" end.

(** The value of [ZB_GL_HC_<name>]. *)
Definition hc_index (name : string) : option Z := snd <$> (snd <$> list_find (fun e => fst e = name) gl_indices).

(** The labels of the switch, and the case that an index selects. *)
Definition gl_switch : list (option Z * gl_case) := map (fun c => (hc_index (c_name c), c)) gl_cases.
Definition select_case (index : Z) : option gl_case := snd <$> (snd <$> list_find (fun e => fst e = Some index) gl_switch).

(** ** The tables agree *)

Definition gl_ranges (index : Z) : bool := ((0 <=? index) && (index <=? 141)) || ((228 <=? index) && (index <=? 343)).

(** Every number of the ranges has a row in both tables, with one name. *)
Definition same_name (index : Z) : bool :=
  match select_case index, gl_host_call index with
  | Some c, Some info => String.eqb (c_name c) (i_name info) && (i_index info =? index)
  | _, _ => false
  end.

Lemma gl_names_agree : forallb (fun n => implb (gl_ranges (Z.of_nat n)) (same_name (Z.of_nat n))) (seq 0 344) = true.
Proof. vm_compute. reflexivity. Qed.

Lemma gl_name_agree index : 0 <= index -> gl_ranges index = true -> same_name index = true.
Proof.
  intros H0 Hr. pose proof gl_names_agree as H. rewrite forallb_forall in H. specialize (H (Z.to_nat index)). rewrite Z2Nat.id, Hr in H by done. apply H, in_seq.
  unfold gl_ranges in Hr. rewrite orb_true_iff, !andb_true_iff, !Z.leb_le in Hr. lia.
Qed.

Lemma gl_host_call_range index : 0 <= index -> is_gl_host_call index = gl_ranges index.
Proof.
  intros H0. unfold is_gl_host_call. destruct (gl_ranges index) eqn:E.
  - apply bool_decide_eq_true.
    pose proof (gl_name_agree index H0 E) as Hs. unfold same_name in Hs. destruct (select_case index), (gl_host_call index); done.
  - apply bool_decide_eq_false. unfold gl_host_call, kGlHostCallLast, kGlHostCall3First, kGlHostCall3Last, kGlHostCallExtFirst, kGlHostCallExtLast, gl_ranges in *.
    rewrite orb_false_iff, !andb_false_iff, !Z.leb_gt in E. destruct (Z.leb_spec index 141); [lia|].
    repeat match goal with |- context [?a <=? ?b] => destruct (Z.leb_spec a b); cbn [andb] end; try lia; by intros [? ?].
Qed.

(** No call number is without a case. *)
Lemma select_case_total index : 0 <= index -> is_gl_host_call index = true -> exists c, select_case index = Some c /\ c ∈ gl_cases.
Proof.
  intros H0 Hr. rewrite gl_host_call_range in Hr by done.
  pose proof (gl_name_agree index H0 Hr) as Hs. unfold same_name in Hs. destruct (select_case index) as [c|] eqn:Ec; [|done]. exists c. split; [done|].
  unfold select_case in Ec. destruct (list_find _ _) as [[i [o c']]|] eqn:Ef; [|done]. injection Ec as <-. apply list_find_Some in Ef as (Hc & _). apply list_elem_of_lookup_2, list_elem_of_fmap in Hc as (x & [= _ ->] & Hx). done.
Qed.

(** The case selected by an index bears the name the table of calls has for it. *)
Lemma select_case_name index c : 0 <= index -> is_gl_host_call index = true -> select_case index = Some c -> gl_host_call_name index = c_name c.
Proof.
  intros H0 Hr Ec. rewrite gl_host_call_range in Hr by done. pose proof (gl_name_agree index H0 Hr) as Hs. unfold same_name, gl_host_call_name in *. rewrite Ec in Hs.
  destruct (gl_host_call index); [|done]. apply andb_true_iff in Hs as [Hs _]. symmetry. by apply String.eqb_eq.
Qed.
