(* ===== verification/HostGl.v ===== *)
(** * GLES host calls

    [core/src/gl/host_gl.cpp] and [core/src/gl/gl_manual.cpp]: the GLES 2.0 and 3.0 calls of
    the guest, served over a driver.  The state is what the bridge follows of one thread's
    context ([GlThreadState]), the table of sync objects and the mirrors of mapped buffers.

    A call runs in the monad [gcall], which adds to [svc] the object [HostGl::Call]: whether
    the call is still valid and the word it returns.  An array the driver gets is a
    [HGuest] argument with the bytes the bridge checked; a client vertex array, which the
    driver keeps and reads when it draws, is a [HGuest] of no bytes; an offset into a buffer
    object is passed as a number.  Memory of the driver (mapped buffers) is read and written
    by the calls ["memcpy_from"] and ["memcpy_to"].

    Reports, traces and the diagnostics of [gl_diagnostics.cpp] are left out.  The client
    arrays are visited in the order of the map, which the code leaves open. *)

From stdpp Require Import numbers list gmap strings.
From S2P Require Import Prelude Handles Bytes GuestMemory InitialStack GuestThread Kernel Syscalls Service GlSizes GlCalls.
Local Open Scope string_scope.
Local Open Scope list_scope.
Local Open Scope Z_scope.

Definition kGlInvalidEnum : Z := 0x0500.
Definition kGlInvalidValue : Z := 0x0501.
Definition kGlInvalidOperation : Z := 0x0502.
Definition kGlOutOfMemory : Z := 0x0505.
Definition kGlPackAlignment : Z := 0x0D05.
Definition kGlUnpackAlignment : Z := 0x0CF5.
Definition kGlActiveUniforms : Z := 0x8B86.
Definition kGlActiveUniformMaxLength : Z := 0x8B87.
Definition kGlNumCompressedTextureFormats : Z := 0x86A2.
Definition kGlCompressedTextureFormats : Z := 0x86A3.
Definition kGlNumShaderBinaryFormats : Z := 0x8DF9.
Definition kGlShaderBinaryFormats : Z := 0x8DF8.
Definition kGlArrayBuffer : Z := 0x8892.
Definition kGlElementArrayBuffer : Z := 0x8893.
Definition kGlPixelPackBuffer : Z := 0x88EB.
Definition kGlPixelUnpackBuffer : Z := 0x88EC.
Definition kGlBufferMapPointer : Z := 0x88BD.
Definition kGlUniformBlockActiveUniforms : Z := 0x8A42.
Definition kGlUniformBlockActiveUniformIndices : Z := 0x8A43.
Definition kGlMapRead : Z := 1.
Definition kGlMapWrite : Z := 2.
Definition kGlMapInvalidateRange : Z := 4.
Definition kGlMapInvalidateBuffer : Z := 8.
Definition kGlColorBuffer : Z := 0x1800.
Definition kGlBufferSize : Z := 0x8764.
Definition kGlReadOnlyOes : Z := 0x88B8.
Definition kGlWriteOnlyOes : Z := 0x88B9.
Definition kGlReadWriteOes : Z := 0x88BA.
Definition kMaxGuestString : Z := 2 ^ 26.
Definition kMaxDriverString : Z := 2 ^ 26.

(** ** State *)

Record Attribute := { a_defined : bool; a_enabled : bool; a_size : Z; a_type : Z; normalized : Z; stride : Z; guest_pointer : Z; a_buffer : Z; integer : bool }.
Definition Attribute_init : Attribute := {| a_defined := false; a_enabled := false; a_size := 4; a_type := 0x1406; normalized := 0; stride := 0; guest_pointer := 0; a_buffer := 0; integer := false |}.

Record GlThreadState := {
  pack_alignment : Z; unpack_alignment : Z;
  array_buffer : Z; element_array_buffer : Z; pixel_pack_buffer : Z; pixel_unpack_buffer : Z;
  attributes : gmap Z Attribute; uniforms : gmap Z (gmap Z Z); gl_strings : gmap Z Z; indexed_strings : gmap Z Z;
}.
Definition GlThreadState_init : GlThreadState :=
  {| pack_alignment := 4; unpack_alignment := 4; array_buffer := 0; element_array_buffer := 0; pixel_pack_buffer := 0; pixel_unpack_buffer := 0;
     attributes := ∅; uniforms := ∅; gl_strings := ∅; indexed_strings := ∅ |}.

Record BufferMapping := { m_guest : Z; m_data : Z; m_length : Z; m_access : Z }.

Record HostGl := { t_state : GlThreadState; sync_objects : list Z; mappings : gmap Z BufferMapping }.
Definition HostGl_init : HostGl := {| t_state := GlThreadState_init; sync_objects := []; mappings := ∅ |}.

Definition with_alignment (t : GlThreadState) (pack unpack : Z) : GlThreadState :=
  {| pack_alignment := pack; unpack_alignment := unpack; array_buffer := array_buffer t; element_array_buffer := element_array_buffer t; pixel_pack_buffer := pixel_pack_buffer t;
     pixel_unpack_buffer := pixel_unpack_buffer t; attributes := attributes t; uniforms := uniforms t; gl_strings := gl_strings t; indexed_strings := indexed_strings t |}.
Definition with_buffers (t : GlThreadState) (a e p u : Z) : GlThreadState :=
  {| pack_alignment := pack_alignment t; unpack_alignment := unpack_alignment t; array_buffer := a; element_array_buffer := e; pixel_pack_buffer := p; pixel_unpack_buffer := u;
     attributes := attributes t; uniforms := uniforms t; gl_strings := gl_strings t; indexed_strings := indexed_strings t |}.
Definition with_attribute (t : GlThreadState) (index : Z) (a : Attribute) : GlThreadState :=
  {| pack_alignment := pack_alignment t; unpack_alignment := unpack_alignment t; array_buffer := array_buffer t; element_array_buffer := element_array_buffer t; pixel_pack_buffer := pixel_pack_buffer t;
     pixel_unpack_buffer := pixel_unpack_buffer t; attributes := <[index := a]> (attributes t); uniforms := uniforms t; gl_strings := gl_strings t; indexed_strings := indexed_strings t |}.
Definition with_uniforms (t : GlThreadState) (u : gmap Z (gmap Z Z)) : GlThreadState :=
  {| pack_alignment := pack_alignment t; unpack_alignment := unpack_alignment t; array_buffer := array_buffer t; element_array_buffer := element_array_buffer t; pixel_pack_buffer := pixel_pack_buffer t;
     pixel_unpack_buffer := pixel_unpack_buffer t; attributes := attributes t; uniforms := u; gl_strings := gl_strings t; indexed_strings := indexed_strings t |}.
Definition with_strings (t : GlThreadState) (s i : gmap Z Z) : GlThreadState :=
  {| pack_alignment := pack_alignment t; unpack_alignment := unpack_alignment t; array_buffer := array_buffer t; element_array_buffer := element_array_buffer t; pixel_pack_buffer := pixel_pack_buffer t;
     pixel_unpack_buffer := pixel_unpack_buffer t; attributes := attributes t; uniforms := uniforms t; gl_strings := s; indexed_strings := i |}.

Definition with_thread (h : HostGl) (t : GlThreadState) : HostGl := {| t_state := t; sync_objects := sync_objects h; mappings := mappings h |}.
Definition with_syncs (h : HostGl) (l : list Z) : HostGl := {| t_state := t_state h; sync_objects := l; mappings := mappings h |}.
Definition with_mappings (h : HostGl) (m : gmap Z BufferMapping) : HostGl := {| t_state := t_state h; sync_objects := sync_objects h; mappings := m |}.

(** What the bridge follows. *)
Definition note_pixel_store (t : GlThreadState) (pname param : Z) : GlThreadState :=
  if negb (valid_alignment param) then t
  else with_alignment t (if pname =? kGlPackAlignment then param else pack_alignment t) (if pname =? kGlUnpackAlignment then param else unpack_alignment t).

Definition note_bind_buffer (t : GlThreadState) (target buffer : Z) : GlThreadState :=
  with_buffers t (if target =? kGlArrayBuffer then buffer else array_buffer t) (if target =? kGlElementArrayBuffer then buffer else element_array_buffer t)
    (if target =? kGlPixelPackBuffer then buffer else pixel_pack_buffer t) (if target =? kGlPixelUnpackBuffer then buffer else pixel_unpack_buffer t).

Definition attribute_of (t : GlThreadState) (index : Z) : Attribute := default Attribute_init (attributes t !! index).

Definition note_vertex_attrib_enabled (t : GlThreadState) (index : Z) (e : bool) : GlThreadState :=
  let a := attribute_of t index in
  with_attribute t index {| a_defined := a_defined a; a_enabled := e; a_size := a_size a; a_type := a_type a; normalized := normalized a; stride := stride a; guest_pointer := guest_pointer a; a_buffer := a_buffer a; integer := integer a |}.

Definition invalidate_uniforms (t : GlThreadState) (program : Z) : GlThreadState := with_uniforms t (delete program (uniforms t)).

Definition pixel_buffer (t : GlThreadState) (pack : bool) : Z := if pack then pixel_pack_buffer t else pixel_unpack_buffer t.
Definition pixel_alignment (t : GlThreadState) (pack : bool) : Z := if pack then pack_alignment t else unpack_alignment t.

(** ** Calls *)

Record Call := { valid_ : bool; result : Z }.

Definition gcall (A : Type) : Type := Call -> svc HostGl (A * Call).
#[global] Instance gcall_ret : MRet gcall := fun A a c => mret (a, c).
#[global] Instance gcall_bind : MBind gcall := fun A B f m c => m c ≫= fun '(a, c) => f a c.

Definition run {A} (p : svc HostGl A) : gcall A := fun c => a ← p; mret (a, c).
Definition valid : gcall bool := fun c => mret (valid_ c, c).
Definition set_result (v : Z) : gcall unit := fun c => mret (tt, {| valid_ := valid_ c; result := u32 v |}).
Definition get_thread : gcall GlThreadState := run (h ← get_own; mret (t_state h)).
Definition put_thread (t : GlThreadState) : gcall unit := run (h ← get_own; put_own (with_thread h t)).
Definition change (f : HostGl -> HostGl) : gcall unit := run (h ← get_own; put_own (f h)).

(** The rest of a call that is still valid. *)
Definition if_valid (k : gcall unit) : gcall unit := v ← valid; if (v : bool) then k else mret tt.

Section Gl.
Context (host : list hostcall -> hostcall -> answer) (guest : Z -> list Z -> Sv HostGl -> option GuestResult * Sv HostGl).
Context (malloc_fn free_fn : Z).
(** The registers of the thread when the call was made. *)
Context (regs : list Z).
Local Notation backend := (@Service.backend HostGl host).

(** A call of the driver. *)
Definition driver (name : string) (args : list harg) : gcall answer := run (backend name args).

Definition reject (error : Z) : gcall unit := _ ← driver "set_error" [HInt error]; mret tt.

Definition fail (error : Z) : gcall unit := fun c =>
  if valid_ c then reject error {| valid_ := false; result := result c |} else mret (tt, c).

(** [HostGl::allocate_guest] and [free_guest]. *)
Definition allocate (size : Z) : gcall (option Z) :=
  if (size =? 0) || (UINT32_MAX <? size) then mret None
  else a ← run (allocate_guest guest malloc_fn size); mret (if a =? 0 then None else Some a).
Definition free (address : Z) : gcall unit := run (free_guest guest free_fn address).

(** ** Arguments *)

Definition arg (position : nat) : gcall Z :=
  if (position <? 4)%nat then mret (reg regs position)
  else
    let address := reg regs 13 + 4 * (Z.of_nat position - 4) in
    if UINT32_MAX <? address then _ ← fail kGlInvalidValue; mret 0
    else
      p ← run (guest_ptr (u32 address) 4 kPageRead);
      match p with
      | None => _ ← fail kGlInvalidValue; mret 0
      | Some p => bs ← run (load p 4); mret (le bs)
      end.

Definition scalar (t : gtype) (position : nat) : gcall Z := w ← arg position; mret (scalar_of t w).

(** [call.length(value, multiplier)] of a signed value. *)
Definition array_length (value multiplier : Z) : gcall Z :=
  if value <? 0 then _ ← fail kGlInvalidValue; mret 0
  else if negb (multiplier =? 0) && (UINT64_MAX / multiplier <? value) then _ ← fail kGlInvalidValue; mret 0
  else mret (u64 (value * multiplier)).

Definition pointer (t : gtype) (position : nat) (n need : Z) : gcall (option Z) :=
  address ← arg position;
  if kGuestSpaceSize / size_of t <? n then _ ← fail kGlInvalidValue; mret None
  else if address =? 0 then mret None
  else
    p ← run (guest_ptr address (n * size_of t) need);
    match p with
    | None => _ ← fail kGlInvalidValue; mret None
    | Some p => mret (Some p)
    end.

(** The same as an argument of the driver. *)
Definition array (t : gtype) (position : nat) (n need : Z) : gcall harg := p ← pointer t position n need; mret (garg p (n * size_of t) need).

(** AAPCS32 pairs of words. *)
Definition argument64 (low : nat) : gcall Z := l ← arg low; h ← arg (low + 1)%nat; mret (Z.lor l (Z.shiftl h 32)).

(** A string, chunk by chunk up to page borders; its size with the zero. *)
Fixpoint string_scan (fuel : nat) (address scanned : Z) : svc HostGl (option Z) :=
  match fuel with
  | O => mret None
  | Datatypes.S fuel =>
      if negb (scanned <? kMaxGuestString) then mret None
      else
        let current := address + scanned in
        if kGuestSpaceSize <=? current then mret None
        else
          let page_left := kPageSize - Z.land current kPageMask in
          let chunk := Z.min (Z.min page_left (kMaxGuestString - scanned)) (kGuestSpaceSize - current) in
          p ← guest_ptr (u32 current) chunk kPageRead;
          match p with
          | None => mret None
          | Some p =>
              bs ← load p (Z.to_nat chunk);
              match until_zero bs with
              | Some t => mret (Some (scanned + size t + 1))
              | None => string_scan fuel address (scanned + chunk)
              end
          end
  end.

(** [guest_string]; the argument the driver gets. *)
Definition guest_string (address : Z) : gcall harg :=
  if address =? 0 then _ ← fail kGlInvalidValue; mret HNull
  else
    n ← run (string_scan 16386 address 0);
    match n with
    | Some n => mret (HGuest address n kPageRead)
    | None => _ ← fail kGlInvalidValue; mret HNull
    end.

(** A word of an array the bridge reads itself; a null array faults. *)
Definition word_at (p : option Z) (i : Z) : gcall Z :=
  match p with
  | Some p => bs ← run (load (p + 4 * i) 4); mret (le bs)
  | None => run (lift_svc Undefined)
  end.

Fixpoint string_array_loop (n : nat) (i : Z) (p : option Z) (acc : list harg) : gcall (option (list harg)) :=
  match n with
  | O => mret (Some acc)
  | Datatypes.S n =>
      address ← word_at p i;
      s ← guest_string address;
      v ← valid;
      if (v : bool) then string_array_loop n (i + 1) p (acc ++ [s]) else mret None
  end.

Definition guest_string_array (position : nat) (items : Z) : gcall (option (list harg)) :=
  p ← pointer GLuint position items kPageRead;
  v ← valid;
  if negb v then mret None
  else if negb (items =? 0) && bool_decide (p = None) then _ ← fail kGlInvalidValue; mret None
  else string_array_loop (Z.to_nat items) 0 p [].

(** ** Generated cases *)

Inductive value := VInt (z : Z) | VArg (a : harg).
Definition harg_of (v : value) : harg := match v with VInt z => HInt z | VArg a => a end.
Definition value_of (env : list (string * value)) (x : string) : value := default (VInt 0) (snd <$> (snd <$> list_find (fun e => fst e = x) env)).
Definition int_of (env : list (string * value)) (x : string) : Z := match value_of env x with VInt z => z | VArg _ => 0 end.

Definition elements_of (env : list (string * value)) (n : elements) : gcall Z :=
  match n with Fixed n => mret n | Length x m => array_length (int_of env x) m end.

Fixpoint bind_all (binds : list binding) (env : list (string * value)) : gcall (list (string * value)) :=
  match binds with
  | [] => mret env
  | Scalar x t position :: rest => v ← scalar t position; bind_all rest (env ++ [(x, VInt v)])
  | Pointer x t position n need :: rest =>
      n ← elements_of env n;
      a ← array t position n need;
      bind_all rest (env ++ [(x, VArg a)])
  end.

Definition take_note (env : list (string * value)) (t : GlThreadState) (n : note) : GlThreadState :=
  match n with
  | NoteBindBuffer target b => note_bind_buffer t (int_of env target) (int_of env b)
  | InvalidateUniforms program => invalidate_uniforms t (int_of env program)
  | NoteAttrib index e => note_vertex_attrib_enabled t (int_of env index) e
  | NotePixelStore pname param => note_pixel_store t (int_of env pname) (int_of env param)
  end.

Definition generated_case (name : string) (binds : list binding) (arguments : list string) (o : outcome) (notes : list note) : gcall unit :=
  env ← bind_all binds [];
  if_valid
    (r ← driver name (map (fun x => harg_of (value_of env x)) arguments);
     _ ← (match o with Void => mret tt | Value => set_result (ret r) end);
     t ← get_thread;
     put_thread (foldl (take_note env) t notes)).

(** ** State queries *)

Definition gl_pname_count (pname : Z) : gcall Z :=
  if bool_decide (pname ∈ [0x846D; 0x846E; 0x0B70; 0x0D3A]) then mret 2
  else if bool_decide (pname ∈ [0x8005; 0x0C22; 0x0C23; 0x0C10; 0x0BA2]) then mret 4
  else if (pname =? kGlCompressedTextureFormats) || (pname =? kGlShaderBinaryFormats) then
    r ← driver "glGetIntegerv" [HInt (if pname =? kGlCompressedTextureFormats then kGlNumCompressedTextureFormats else kGlNumShaderBinaryFormats); HOut];
    let count := s32 (out r 0) in
    mret (if 0 <? count then count else 0)
  else mret 1.

Definition serve_pname (name : string) (t : gtype) : gcall unit :=
  pname ← scalar GLenum 0;
  count ← gl_pname_count pname;
  data ← array t 1 count RW;
  if_valid (_ ← driver name [HInt pname; data]; mret tt).

(** The active uniforms of a program, [n] of them from [index] on. *)
Fixpoint uniform_loop (n : nat) (program index max_length : Z) (locations : gmap Z Z) : gcall (gmap Z Z) :=
  match n with
  | O => mret locations
  | Datatypes.S n =>
      r ← driver "glGetActiveUniform" [HInt program; HInt index; HInt max_length; HOut; HOut; HOut; HOut];
      let written := s32 (out r 0) in
      if (written <? 0) || (max_length <=? written) then uniform_loop n program (index + 1) max_length locations
      else
        let uniform := map u8 (take (Z.to_nat written) (drop 3 (outs r))) in
        let uniform := if bool_decide (drop (length uniform - 3) uniform = msg "[0]") then take (length uniform - 3) uniform else uniform in
        l ← driver "glGetUniformLocation" [HInt program; HPath uniform];
        let elements := uniform_components (u32 (out r 2)) in
        uniform_loop n program (index + 1) max_length (if (0 <=? s32 (ret l)) && negb (elements =? 0) then <[s32 (ret l) := elements]> locations else locations)
  end.

Definition uniform_elements (program location : Z) : gcall (option Z) :=
  t ← get_thread;
  locations ←
    match uniforms t !! program with
    | Some locations => mret locations
    | None =>
        c ← driver "glGetProgramiv" [HInt program; HInt kGlActiveUniforms; HOut];
        l ← driver "glGetProgramiv" [HInt program; HInt kGlActiveUniformMaxLength; HOut];
        let max_length := Z.max 1 (Z.min (s32 (out l 0)) (2 ^ 20)) in
        locations ← uniform_loop (Z.to_nat (s32 (out c 0))) program 0 max_length ∅;
        t ← get_thread;
        _ ← put_thread (with_uniforms t (<[program := locations]> (uniforms t)));
        mret locations
    end;
  mret (locations !! location).

Definition serve_uniform (name : string) (t : gtype) : gcall unit :=
  program ← scalar GLuint 0;
  location ← scalar GLint 1;
  elements ← uniform_elements program location;
  match elements with
  | None => reject kGlInvalidOperation
  | Some n =>
      params ← array t 2 n RW;
      if_valid (_ ← driver name [HInt program; HInt location; params]; mret tt)
  end.

(** A driver call with a program and a name, whose result the guest gets. *)
Definition serve_name (name : string) : gcall unit :=
  program ← scalar GLuint 0;
  address ← arg 1;
  s ← guest_string address;
  if_valid (r ← driver name [HInt program; s]; set_result (ret r)).

Definition gl_glBindAttribLocation : gcall unit :=
  program ← scalar GLuint 0;
  index ← scalar GLuint 1;
  address ← arg 2;
  s ← guest_string address;
  if_valid (_ ← driver "glBindAttribLocation" [HInt program; HInt index; s]; mret tt).

(** The bytes of a driver string before its zero. *)
Definition driver_text (r : answer) : list Z := let bs := map u8 (outs r) in default bs (until_zero bs).

Definition gl_glGetString : gcall unit :=
  name ← scalar GLenum 0;
  t ← get_thread;
  match gl_strings t !! name with
  | Some a => set_result a
  | None =>
      source ← driver "glGetString" [HInt name];
      if ret source =? 0 then mret tt
      else
        let text := driver_text source in
        if kMaxDriverString <=? size text then reject kGlInvalidOperation
        else
          address ← allocate (size text + 1);
          match address with
          | None => reject kGlOutOfMemory
          | Some a =>
              p ← run (guest_ptr a (size text + 1) RW);
              match p with
              | None => reject kGlInvalidOperation
              | Some p =>
                  _ ← run (store p (text ++ [0]));
                  t ← get_thread;
                  _ ← put_thread (with_strings t (<[name := a]> (gl_strings t)) (indexed_strings t));
                  set_result a
              end
          end
  end.

Definition gl_glGetStringi : gcall unit :=
  name ← scalar GLenum 0;
  index ← scalar GLuint 1;
  if_valid
    (t ← get_thread;
     let key := Z.lor (Z.shiftl name 32) index in
     match indexed_strings t !! key with
     | Some a => set_result a
     | None =>
         source ← driver "glGetStringi" [HInt name; HInt index];
         if ret source =? 0 then mret tt
         else
           let text := driver_text source in
           if kMaxDriverString <=? size text then reject kGlInvalidOperation
           else
             address ← allocate (size text + 1);
             p ← match address with Some a => run (guest_ptr a (size text + 1) RW) | None => mret None end;
             match p with
             | None => reject kGlOutOfMemory
             | Some p =>
                 _ ← run (store p (text ++ [0]));
                 t ← get_thread;
                 _ ← put_thread (with_strings t (gl_strings t) (<[key := p]> (indexed_strings t)));
                 set_result p
             end
     end).

(** ** Images *)

(** [pixel_pointer]: [None] when the call was rejected. *)
Definition pixel_pointer (pack : bool) (format type width height depth alignment : Z) (position : nat) (permission : Z) : gcall (option harg) :=
  t ← get_thread;
  if negb (pixel_buffer t pack =? 0) then
    offset ← arg position;
    v ← valid;
    mret (if (v : bool) then Some (HInt offset) else None)
  else if depth <? 0 then _ ← fail kGlInvalidValue; mret None
  else
    match checked_multiply (u64 height) (u64 depth) with
    | Some rows =>
        if INT32_MAX <? rows then _ ← fail kGlInvalidValue; mret None
        else
          match gl_pixel_bytes format type width rows alignment with
          | None => _ ← fail kGlInvalidValue; mret None
          | Some bytes =>
              a ← array GLvoid position bytes permission;
              v ← valid;
              mret (if (v : bool) then Some a else None)
          end
    | None => _ ← fail kGlInvalidValue; mret None
    end.

(** The scalars of an image call: their types from position 0 on. *)
Fixpoint scalars (ts : list gtype) (position : nat) : gcall (list Z) :=
  match ts with
  | [] => mret []
  | t :: ts => v ← scalar t position; vs ← scalars ts (Datatypes.S position); mret (v :: vs)
  end.

(** Which scalars are the width, height, depth, format and type; the others go to the
    driver unseen. *)
Definition image_call (name : string) (ts : list gtype) (pack : bool) (permission : Z) (dims : list Z -> Z * Z * Z * Z * Z) : gcall unit :=
  vs ← scalars ts 0;
  let '(width, height, depth, format, type) := dims vs in
  t ← get_thread;
  pixels ← pixel_pointer pack format type width height depth (pixel_alignment t pack) (length ts) permission;
  match pixels with
  | Some p => _ ← driver name (map HInt vs ++ [p]); mret tt
  | None => mret tt
  end.

Definition gl_glTexImage2D : gcall unit :=
  image_call "glTexImage2D" [GLenum; GLint; GLint; GLsizei; GLsizei; GLint; GLenum; GLenum] false kPageRead (fun v => (nth 3 v 0, nth 4 v 0, 1, nth 6 v 0, nth 7 v 0)).
Definition gl_glTexSubImage2D : gcall unit :=
  image_call "glTexSubImage2D" [GLenum; GLint; GLint; GLint; GLsizei; GLsizei; GLenum; GLenum] false kPageRead (fun v => (nth 4 v 0, nth 5 v 0, 1, nth 6 v 0, nth 7 v 0)).
Definition gl_glReadPixels : gcall unit :=
  image_call "glReadPixels" [GLint; GLint; GLsizei; GLsizei; GLenum; GLenum] true RW (fun v => (nth 2 v 0, nth 3 v 0, 1, nth 4 v 0, nth 5 v 0)).
Definition gl_glTexImage3D : gcall unit :=
  image_call "glTexImage3D" [GLenum; GLint; GLint; GLsizei; GLsizei; GLsizei; GLint; GLenum; GLenum] false kPageRead (fun v => (nth 3 v 0, nth 4 v 0, nth 5 v 0, nth 7 v 0, nth 8 v 0)).
Definition gl_glTexSubImage3D : gcall unit :=
  image_call "glTexSubImage3D" [GLenum; GLint; GLint; GLint; GLint; GLsizei; GLsizei; GLsizei; GLenum; GLenum] false kPageRead (fun v => (nth 5 v 0, nth 6 v 0, nth 7 v 0, nth 8 v 0, nth 9 v 0)).

(** ** Shaders *)

Fixpoint source_loop (n : nat) (i : Z) (guest_sources lengths : option Z) (acc : list harg) : gcall (option (list harg)) :=
  match n with
  | O => mret (Some acc)
  | Datatypes.S n =>
      address ← word_at guest_sources i;
      len ← match lengths with None => mret (-1) | Some _ => w ← word_at lengths i; mret (s32 w) end;
      s ← (if len <? 0 then guest_string address
           else if address =? 0 then _ ← fail kGlInvalidValue; mret HNull
           else
             p ← run (guest_ptr address len kPageRead);
             match p with
             | None => _ ← fail kGlInvalidValue; mret HNull
             | Some p => mret (HGuest p len kPageRead)
             end);
      v ← valid;
      if (v : bool) then source_loop n (i + 1) guest_sources lengths (acc ++ [s]) else mret None
  end.

Definition gl_glShaderSource : gcall unit :=
  shader ← scalar GLuint 0;
  count ← scalar GLsizei 1;
  if count <? 0 then fail kGlInvalidValue
  else
    items ← array_length count 1;
    guest_sources ← pointer GLuint 2 items kPageRead;
    lengths ← pointer GLint 3 items kPageRead;
    if_valid
      (sources ← source_loop (Z.to_nat items) 0 guest_sources lengths [];
       match sources with
       | Some l => _ ← driver "glShaderSource" ([HInt shader; HInt count] ++ l ++ [garg lengths (items * 4) kPageRead]); mret tt
       | None => mret tt
       end).

(** ** Vertex arrays *)

Definition gl_glVertexAttribPointer : gcall unit :=
  index ← scalar GLuint 0;
  size ← scalar GLint 1;
  type ← scalar GLenum 2;
  norm ← scalar GLboolean 3;
  stride ← scalar GLsizei 4;
  p ← arg 5;
  t ← get_thread;
  let a := {| a_defined := true; a_enabled := a_enabled (attribute_of t index); a_size := size; a_type := type; normalized := norm; stride := stride; guest_pointer := p; a_buffer := array_buffer t; integer := false |} in
  _ ← put_thread (with_attribute t index a);
  if_valid
    (if negb (a_buffer a =? 0) then _ ← driver "glVertexAttribPointer" [HInt index; HInt size; HInt type; HInt norm; HInt stride; HInt p]; mret tt else mret tt).

Definition gl_glVertexAttribIPointer : gcall unit :=
  index ← scalar GLuint 0;
  size ← scalar GLint 1;
  type ← scalar GLenum 2;
  stride ← scalar GLsizei 3;
  p ← arg 4;
  t ← get_thread;
  let a := {| a_defined := true; a_enabled := a_enabled (attribute_of t index); a_size := size; a_type := type; normalized := 0; stride := stride; guest_pointer := p; a_buffer := array_buffer t; integer := true |} in
  _ ← put_thread (with_attribute t index a);
  if_valid
    (if negb (a_buffer a =? 0) then _ ← driver "glVertexAttribIPointer" [HInt index; HInt size; HInt type; HInt stride; HInt p]; mret tt else mret tt).

(** An attribute whose data is in guest memory. *)
Definition client (a : Attribute) : bool := a_enabled a && a_defined a && (a_buffer a =? 0).
Definition element_bytes (a : Attribute) : Z := a_size a * attribute_component_bytes (a_type a).
Definition vertex_stride (a : Attribute) : Z := if stride a =? 0 then element_bytes a else stride a.

(** The first loop of [materialize_client_arrays]: [None] when the call was rejected. *)
Fixpoint check_arrays (l : list (Z * Attribute)) (first last : Z) (acc : list (Z * Attribute)) : gcall (option (list (Z * Attribute))) :=
  match l with
  | [] => mret (Some acc)
  | (index, a) :: rest =>
      if negb (client a) then check_arrays rest first last acc
      else if (a_size a <? 1) || (4 <? a_size a) || (attribute_component_bytes (a_type a) =? 0) || (stride a <? 0) then _ ← fail kGlInvalidOperation; mret None
      else
        match checked_multiply first (vertex_stride a), checked_multiply last (vertex_stride a) with
        | Some first_offset, Some last_offset =>
            if UINT64_MAX - element_bytes a <? last_offset then _ ← fail kGlInvalidOperation; mret None
            else
              let range_start := u64 (guest_pointer a + first_offset) in
              let range_end := u64 (guest_pointer a + last_offset + element_bytes a) in
              if (kGuestSpaceSize <=? range_start) || (kGuestSpaceSize <? range_end) || (range_end <? range_start) then _ ← fail kGlInvalidOperation; mret None
              else
                p ← run (guest_ptr (u32 range_start) (range_end - range_start) kPageRead);
                match p with
                | None => _ ← fail kGlInvalidOperation; mret None
                | Some _ => check_arrays rest first last (acc ++ [(index, a)])
                end
        | _, _ => _ ← fail kGlInvalidOperation; mret None
        end
  end.

(** The driver gets the address of a client array. *)
Definition issue (x : Z * Attribute) : gcall unit :=
  let '(index, a) := x in
  let p := HGuest (guest_pointer a) 0 kPageRead in
  _ ← (if integer a then driver "glVertexAttribIPointer" [HInt index; HInt (a_size a); HInt (a_type a); HInt (stride a); p]
       else driver "glVertexAttribPointer" [HInt index; HInt (a_size a); HInt (a_type a); HInt (normalized a); HInt (stride a); p]);
  mret tt.

Fixpoint issue_all (l : list (Z * Attribute)) : gcall unit :=
  match l with [] => mret tt | x :: l => _ ← issue x; issue_all l end.

Definition materialize_client_arrays (first last : Z) : gcall bool :=
  t ← get_thread;
  materialized ← check_arrays (map_to_list (attributes t)) first last [];
  match materialized with
  | None => mret false
  | Some l =>
      let rebound := negb (bool_decide (l = [])) && negb (array_buffer t =? 0) in
      _ ← (if rebound then _ ← driver "glBindBuffer" [HInt kGlArrayBuffer; HInt 0]; mret tt else mret tt);
      _ ← issue_all l;
      _ ← (if rebound then _ ← driver "glBindBuffer" [HInt kGlArrayBuffer; HInt (array_buffer t)]; mret tt else mret tt);
      mret true
  end.

(** The vertices of [glDrawArrays]: whether the draw goes on. *)
Definition prepare_arrays (first count : Z) : gcall bool :=
  if 0 <? count then if first <? 0 then mret false else materialize_client_arrays first (first + count - 1)
  else mret true.

Definition gl_glDrawArrays : gcall unit :=
  mode ← scalar GLenum 0;
  first ← scalar GLint 1;
  count ← scalar GLsizei 2;
  if_valid
    (go ← prepare_arrays first count;
     if (go : bool) then _ ← driver "glDrawArrays" [HInt mode; HInt first; HInt count]; mret tt else mret tt).

Definition gl_glDrawArraysInstanced : gcall unit :=
  mode ← scalar GLenum 0;
  first ← scalar GLint 1;
  count ← scalar GLsizei 2;
  instancecount ← scalar GLsizei 3;
  if_valid
    (go ← prepare_arrays first count;
     if (go : bool) then _ ← driver "glDrawArraysInstanced" [HInt mode; HInt first; HInt count; HInt instancecount]; mret tt else mret tt).

(** The greatest of [n] indices of [w] bytes from [p + i * w] on. *)
Fixpoint max_index_loop (n : nat) (p i w max_index : Z) : svc HostGl Z :=
  match n with
  | O => mret max_index
  | Datatypes.S n => bs ← load (p + i * w) (Z.to_nat w); max_index_loop n p (i + 1) w (Z.max max_index (le bs))
  end.

(** [prepare_elements]: the indices for the driver, or [None] when the call was rejected. *)
Definition prepare_elements (count type guest_indices : Z) : gcall (option harg) :=
  if count <? 0 then _ ← fail kGlInvalidOperation; mret None
  else
    t ← get_thread;
    r ←
      (if element_array_buffer t =? 0 then
         let index_size := element_index_bytes type in
         if index_size =? 0 then _ ← fail kGlInvalidOperation; mret None
         else
           let bytes := count * index_size in
           indices ← (if (count =? 0) && (guest_indices =? 0) then mret None else run (guest_ptr guest_indices bytes kPageRead));
           if negb (count =? 0) && bool_decide (indices = None) then _ ← fail kGlInvalidOperation; mret None
           else
             max_index ← match indices with Some p => run (max_index_loop (Z.to_nat count) p 0 index_size 0) | None => mret 0 end;
             mret (Some (garg indices bytes kPageRead, max_index))
       else mret (Some (HInt guest_indices, if 0 <? count then count - 1 else 0)));
    match r with
    | None => mret None
    | Some (driver_indices, max_index) =>
        if 0 <? count then
          go ← materialize_client_arrays 0 max_index;
          mret (if (go : bool) then Some driver_indices else None)
        else mret (Some driver_indices)
    end.

Definition draw_elements (name : string) (count type guest_indices : Z) (args : harg -> list harg) : gcall unit :=
  if_valid
    (indices ← prepare_elements count type guest_indices;
     match indices with Some p => _ ← driver name (args p); mret tt | None => mret tt end).

Definition gl_glDrawElements : gcall unit :=
  mode ← scalar GLenum 0;
  count ← scalar GLsizei 1;
  type ← scalar GLenum 2;
  guest_indices ← arg 3;
  draw_elements "glDrawElements" count type guest_indices (fun p => [HInt mode; HInt count; HInt type; p]).

Definition gl_glDrawElementsInstanced : gcall unit :=
  mode ← scalar GLenum 0;
  count ← scalar GLsizei 1;
  type ← scalar GLenum 2;
  guest_indices ← arg 3;
  instancecount ← scalar GLsizei 4;
  draw_elements "glDrawElementsInstanced" count type guest_indices (fun p => [HInt mode; HInt count; HInt type; p; HInt instancecount]).

Definition gl_glDrawRangeElements : gcall unit :=
  mode ← scalar GLenum 0;
  start ← scalar GLuint 1;
  last ← scalar GLuint 2;
  count ← scalar GLsizei 3;
  type ← scalar GLenum 4;
  guest_indices ← arg 5;
  draw_elements "glDrawRangeElements" count type guest_indices (fun p => [HInt mode; HInt start; HInt last; HInt count; HInt type; p]).

Definition gl_glGetVertexAttribPointerv : gcall unit :=
  index ← scalar GLuint 0;
  _ ← scalar GLenum 1;
  p ← pointer GLuint 2 1 RW;
  if_valid
    match p with
    | None => fail kGlInvalidValue
    | Some p => t ← get_thread; run (store p (to_le 4 (match attributes t !! index with Some a => guest_pointer a | None => 0 end)))
    end.

(** ** Sync objects *)

(** The first deleted slot is used again. *)
Definition register_sync (l : list Z) (sync : Z) : Z * list Z :=
  if sync =? 0 then (0, l)
  else match list_find (fun x => x = 0) l with
       | Some (i, _) => (u32 (Z.of_nat i + 1), <[i := sync]> l)
       | None => (u32 (Z.of_nat (length l) + 1), l ++ [sync])
       end.
Definition lookup_sync (l : list Z) (handle : Z) : Z := if (handle =? 0) || (Z.of_nat (length l) <? handle) then 0 else nth (Z.to_nat (handle - 1)) l 0.
Definition release_sync (l : list Z) (handle : Z) : Z * list Z :=
  if (handle =? 0) || (Z.of_nat (length l) <? handle) then (0, l) else (nth (Z.to_nat (handle - 1)) l 0, <[Z.to_nat (handle - 1) := 0]> l).

Definition resolve_sync (position : nat) : gcall (option Z) :=
  handle ← arg position;
  v ← valid;
  if negb v then mret None
  else
    h ← run get_own;
    let sync := lookup_sync (sync_objects h) handle in
    if sync =? 0 then _ ← reject kGlInvalidValue; mret None else mret (Some sync).

Definition gl_glFenceSync : gcall unit :=
  condition ← scalar GLenum 0;
  flags ← scalar GLbitfield 1;
  if_valid
    (r ← driver "glFenceSync" [HInt condition; HInt flags];
     h ← run get_own;
     let '(handle, l) := register_sync (sync_objects h) (ret r) in
     _ ← run (put_own (with_syncs h l));
     set_result handle).

Definition gl_glIsSync : gcall unit :=
  handle ← arg 0;
  if_valid
    (h ← run get_own;
     let sync := lookup_sync (sync_objects h) handle in
     if sync =? 0 then set_result 0 else r ← driver "glIsSync" [HInt sync]; set_result (ret r)).

Definition gl_glDeleteSync : gcall unit :=
  handle ← arg 0;
  if_valid
    (if handle =? 0 then mret tt
     else
       h ← run get_own;
       let '(sync, l) := release_sync (sync_objects h) handle in
       _ ← run (put_own (with_syncs h l));
       if sync =? 0 then reject kGlInvalidValue else _ ← driver "glDeleteSync" [HInt sync]; mret tt).

Definition gl_glClientWaitSync : gcall unit :=
  sync ← resolve_sync 0;
  match sync with
  | None => mret tt
  | Some sync =>
      flags ← scalar GLbitfield 1;
      timeout ← argument64 2;
      if_valid (r ← driver "glClientWaitSync" [HInt sync; HInt flags; HInt timeout]; set_result (ret r))
  end.

Definition gl_glWaitSync : gcall unit :=
  sync ← resolve_sync 0;
  match sync with
  | None => mret tt
  | Some sync =>
      flags ← scalar GLbitfield 1;
      timeout ← argument64 2;
      if_valid (_ ← driver "glWaitSync" [HInt sync; HInt flags; HInt timeout]; mret tt)
  end.

Definition gl_glGetSynciv : gcall unit :=
  sync ← resolve_sync 0;
  match sync with
  | None => mret tt
  | Some sync =>
      pname ← scalar GLenum 1;
      count ← scalar GLsizei 2;
      len ← array GLsizei 3 1 RW;
      n ← array_length count 1;
      values ← array GLint 4 n RW;
      if_valid (_ ← driver "glGetSynciv" [HInt sync; HInt pname; HInt count; len; values]; mret tt)
  end.

(** ** Mapped buffers *)

Definition find_mapping (target : Z) : gcall (option BufferMapping) := h ← run get_own; mret (mappings h !! target).

(** A guest block for [n] bytes of a mapping the driver has made; the mapping is given back
    when there is none. *)
Definition mirror_block (n target : Z) (unmap : string) : gcall (option Z) :=
  address ← allocate n;
  mirror ← match address with Some a => run (guest_ptr a n RW) | None => mret None end;
  match mirror with
  | Some p => mret (Some p)
  | None =>
      _ ← match address with Some a => free a | None => mret tt end;
      _ ← driver unmap [HInt target];
      _ ← reject kGlOutOfMemory;
      mret None
  end.

(** [std::memcpy(mirror, mapped, n)]. *)
Definition copy_in (mirror mapped n : Z) : gcall unit := r ← driver "memcpy_from" [HInt mapped; HInt n]; run (store mirror (host_bytes r (Z.to_nat n))).

Definition add_mapping (target : Z) (m : BufferMapping) : gcall unit := change (fun h => with_mappings h (<[target := m]> (mappings h))).

Definition gl_glMapBufferRange : gcall unit :=
  target ← scalar GLenum 0;
  offset ← scalar GLintptr 1;
  len ← scalar GLsizeiptr 2;
  access ← scalar GLbitfield 3;
  if_valid
    (if (offset <? 0) || (len <=? 0) then reject kGlInvalidValue
     else
       existing ← find_mapping target;
       match existing with
       | Some _ => reject kGlInvalidOperation
       | None =>
           r ← driver "glMapBufferRange" [HInt target; HInt offset; HInt len; HInt access];
           if ret r =? 0 then mret tt
           else
             mirror ← mirror_block len target "glUnmapBuffer";
             match mirror with
             | None => mret tt
             | Some p =>
                 let invalidated := negb (Z.land access (Z.lor kGlMapInvalidateRange kGlMapInvalidateBuffer) =? 0) in
                 _ ← (if negb invalidated && negb (Z.land access (Z.lor kGlMapRead kGlMapWrite) =? 0) then copy_in p (ret r) len else mret tt);
                 _ ← add_mapping target {| m_guest := p; m_data := ret r; m_length := len; m_access := access |};
                 set_result p
             end
       end).

Definition gl_glMapBufferOES : gcall unit :=
  target ← scalar GLenum 0;
  access ← scalar GLenum 1;
  if_valid
    (let bits := if access =? kGlReadOnlyOes then Some kGlMapRead else if access =? kGlWriteOnlyOes then Some kGlMapWrite
                 else if access =? kGlReadWriteOes then Some (Z.lor kGlMapRead kGlMapWrite) else None in
     match bits with
     | None => reject kGlInvalidEnum
     | Some bits =>
         existing ← find_mapping target;
         match existing with
         | Some _ => reject kGlInvalidOperation
         | None =>
             s ← driver "glGetBufferParameteriv" [HInt target; HInt kGlBufferSize; HOut];
             let n := s32 (out s 0) in
             if n <=? 0 then reject kGlInvalidOperation
             else
               r ← driver "glMapBufferOES" [HInt target; HInt access];
               if ret r =? 0 then mret tt
               else
                 mirror ← mirror_block n target "glUnmapBufferOES";
                 match mirror with
                 | None => mret tt
                 | Some p =>
                     _ ← copy_in p (ret r) n;
                     _ ← add_mapping target {| m_guest := p; m_data := ret r; m_length := n; m_access := bits |};
                     set_result p
                 end
         end
     end).

Definition unmap_mirrored (oes : bool) : gcall unit :=
  target ← scalar GLenum 0;
  if_valid
    (mapping ← find_mapping target;
     _ ← match mapping with Some _ => change (fun h => with_mappings h (delete target (mappings h))) | None => mret tt end;
     _ ← match mapping with
         | Some m =>
             if negb (Z.land (m_access m) kGlMapWrite =? 0) then
               mirror ← run (guest_ptr (m_guest m) (m_length m) kPageRead);
               match mirror with
               | None => reject kGlInvalidOperation
               | Some p => _ ← driver "memcpy_to" [HInt (m_data m); HGuest p (m_length m) kPageRead]; mret tt
               end
             else mret tt
         | None => mret tt
         end;
     r ← driver (if oes then "glUnmapBufferOES" else "glUnmapBuffer") [HInt target];
     _ ← match mapping with Some m => free (m_guest m) | None => mret tt end;
     set_result (ret r)).

Definition gl_glFlushMappedBufferRange : gcall unit :=
  target ← scalar GLenum 0;
  offset ← scalar GLintptr 1;
  len ← scalar GLsizeiptr 2;
  if_valid
    (mapping ← find_mapping target;
     go ← match mapping with
          | Some m =>
              if negb (Z.land (m_access m) kGlMapWrite =? 0) then
                if (offset <? 0) || (len <? 0) || (m_length m <? offset + len) then _ ← reject kGlInvalidValue; mret false
                else
                  mirror ← run (guest_ptr (u32 (m_guest m + offset)) len kPageRead);
                  match mirror with
                  | None => _ ← reject kGlInvalidOperation; mret false
                  | Some p => _ ← driver "memcpy_to" [HInt (m_data m + offset); HGuest p len kPageRead]; mret true
                  end
              else mret true
          | None => mret true
          end;
     if (go : bool) then _ ← driver "glFlushMappedBufferRange" [HInt target; HInt offset; HInt len]; mret tt else mret tt).

Definition report_buffer_pointer : gcall unit :=
  target ← scalar GLenum 0;
  pname ← scalar GLenum 1;
  params ← pointer GLuint 2 1 RW;
  if_valid
    match params with
    | None => reject kGlInvalidValue
    | Some p =>
        if negb (pname =? kGlBufferMapPointer) then reject kGlInvalidEnum
        else m ← find_mapping target; run (store p (to_le 4 (match m with Some m => m_guest m | None => 0 end)))
    end.

(** ** GLES 3.0 queries *)

Definition clear_buffer_elements (b : Z) : Z := if b =? kGlColorBuffer then 4 else 1.

Definition clear_buffer (name : string) (t : gtype) : gcall unit :=
  b ← scalar GLenum 0;
  drawbuffer ← scalar GLint 1;
  v ← array t 2 (clear_buffer_elements b) kPageRead;
  if_valid (_ ← driver name [HInt b; HInt drawbuffer; v]; mret tt).

Definition gl_glGetUniformIndices : gcall unit :=
  program ← scalar GLuint 0;
  count ← scalar GLsizei 1;
  if_valid
    (if count <? 0 then fail kGlInvalidValue
     else
       items ← array_length count 1;
       names ← guest_string_array 2 items;
       match names with
       | None => mret tt
       | Some names =>
           indices ← pointer GLuint 3 items RW;
           if_valid
             (if negb (items =? 0) && bool_decide (indices = None) then reject kGlInvalidValue
              else _ ← driver "glGetUniformIndices" ([HInt program; HInt count] ++ names ++ [garg indices (items * 4) RW]); mret tt)
       end).

Definition gl_glTransformFeedbackVaryings : gcall unit :=
  program ← scalar GLuint 0;
  count ← scalar GLsizei 1;
  mode ← scalar GLenum 3;
  if_valid
    (if count <? 0 then fail kGlInvalidValue
     else
       items ← array_length count 1;
       varyings ← guest_string_array 2 items;
       match varyings with
       | None => mret tt
       | Some l => _ ← driver "glTransformFeedbackVaryings" ([HInt program; HInt count] ++ l ++ [HInt mode]); mret tt
       end).

Definition gl_glGetActiveUniformsiv : gcall unit :=
  program ← scalar GLuint 0;
  count ← scalar GLsizei 1;
  if_valid
    (if count <? 0 then fail kGlInvalidValue
     else
       items ← array_length count 1;
       indices ← array GLuint 2 items kPageRead;
       pname ← scalar GLenum 3;
       params ← array GLint 4 items RW;
       if_valid (_ ← driver "glGetActiveUniformsiv" [HInt program; HInt count; indices; HInt pname; params]; mret tt)).

Definition gl_glGetActiveUniformBlockiv : gcall unit :=
  program ← scalar GLuint 0;
  block ← scalar GLuint 1;
  pname ← scalar GLenum 2;
  if_valid
    (n ← (if pname =? kGlUniformBlockActiveUniformIndices then
            r ← driver "glGetActiveUniformBlockiv" [HInt program; HInt block; HInt kGlUniformBlockActiveUniforms; HOut];
            let active := s32 (out r 0) in
            mret (if 0 <? active then active else 0)
          else mret 1);
     params ← array GLint 3 n RW;
     if_valid (_ ← driver "glGetActiveUniformBlockiv" [HInt program; HInt block; HInt pname; params]; mret tt)).

(** ** The switch *)

Definition manual_calls : list (string * gcall unit) :=
  [("glBindAttribLocation", gl_glBindAttribLocation); ("glDrawArrays", gl_glDrawArrays); ("glDrawElements", gl_glDrawElements); ("glGetAttribLocation", serve_name "glGetAttribLocation");
   ("glGetBooleanv", serve_pname "glGetBooleanv" GLboolean); ("glGetFloatv", serve_pname "glGetFloatv" GLfloat); ("glGetIntegerv", serve_pname "glGetIntegerv" GLint);
   ("glGetString", gl_glGetString); ("glGetUniformLocation", serve_name "glGetUniformLocation"); ("glGetUniformfv", serve_uniform "glGetUniformfv" GLfloat); ("glGetUniformiv", serve_uniform "glGetUniformiv" GLint);
   ("glGetVertexAttribPointerv", gl_glGetVertexAttribPointerv); ("glReadPixels", gl_glReadPixels); ("glShaderSource", gl_glShaderSource); ("glTexImage2D", gl_glTexImage2D); ("glTexSubImage2D", gl_glTexSubImage2D);
   ("glVertexAttribPointer", gl_glVertexAttribPointer); ("glClearBufferfv", clear_buffer "glClearBufferfv" GLfloat); ("glClearBufferiv", clear_buffer "glClearBufferiv" GLint);
   ("glClearBufferuiv", clear_buffer "glClearBufferuiv" GLuint); ("glClientWaitSync", gl_glClientWaitSync); ("glDeleteSync", gl_glDeleteSync); ("glDrawArraysInstanced", gl_glDrawArraysInstanced);
   ("glDrawElementsInstanced", gl_glDrawElementsInstanced); ("glDrawRangeElements", gl_glDrawRangeElements); ("glFenceSync", gl_glFenceSync); ("glFlushMappedBufferRange", gl_glFlushMappedBufferRange);
   ("glGetActiveUniformBlockiv", gl_glGetActiveUniformBlockiv); ("glGetActiveUniformsiv", gl_glGetActiveUniformsiv); ("glGetBufferPointerv", report_buffer_pointer); ("glGetFragDataLocation", serve_name "glGetFragDataLocation");
   ("glGetInteger64v", serve_pname "glGetInteger64v" GLint64); ("glGetStringi", gl_glGetStringi); ("glGetSynciv", gl_glGetSynciv); ("glGetUniformBlockIndex", serve_name "glGetUniformBlockIndex");
   ("glGetUniformIndices", gl_glGetUniformIndices); ("glGetUniformuiv", serve_uniform "glGetUniformuiv" GLuint); ("glIsSync", gl_glIsSync); ("glMapBufferRange", gl_glMapBufferRange);
   ("glTexImage3D", gl_glTexImage3D); ("glTexSubImage3D", gl_glTexSubImage3D); ("glTransformFeedbackVaryings", gl_glTransformFeedbackVaryings); ("glUnmapBuffer", unmap_mirrored false);
   ("glVertexAttribIPointer", gl_glVertexAttribIPointer); ("glWaitSync", gl_glWaitSync); ("glMapBufferOES", gl_glMapBufferOES); ("glUnmapBufferOES", unmap_mirrored true);
   ("glGetBufferPointervOES", report_buffer_pointer)].

Definition case_body (c : gl_case) : option (gcall unit) :=
  match c_body c with
  | Some (binds, arguments, o, notes) => Some (generated_case (c_name c) binds arguments o notes)
  | None => snd <$> (snd <$> list_find (fun e => fst e = c_name c) manual_calls)
  end.

Definition dispatch (index : Z) : option (gcall unit) := c ← select_case index; case_body c.
End Gl.

Definition gl_handle_host_call (host : list hostcall -> hostcall -> answer) (guest : Z -> list Z -> Sv HostGl -> option GuestResult * Sv HostGl) (malloc_fn free_fn index : Z) (rs : list Z) : svc HostGl (option (list Z)) :=
  if negb (is_gl_host_call index) then mret None
  else
    match dispatch host guest malloc_fn free_fn rs index with
    | Some body => '(_, c) ← body {| valid_ := true; result := 0 |}; mret (Some (set01 rs (result c) 0))
    | None => abort
    end.

(** Every manual case has its function. *)
Lemma case_body_total host guest malloc_fn free_fn regs c : c ∈ gl_cases -> is_Some (case_body host guest malloc_fn free_fn regs c).
Proof.
  intros Hc. unfold case_body. destruct (c_body c) as [[[[? ?] ?] ?]|] eqn:Eb; [by eexists|].
  assert (forallb (fun c => match c_body c with Some _ => true | None => bool_decide (c_name c ∈ (manual_calls host guest malloc_fn free_fn regs).*1) end) gl_cases = true) as H by (vm_compute; reflexivity).
  rewrite forallb_forall in H. specialize (H c). rewrite Eb in H. assert (c_name c ∈ (manual_calls host guest malloc_fn free_fn regs).*1) as Hin by (apply (bool_decide_eq_true_1 _), H; by apply list_elem_of_In).
  apply list_elem_of_fmap in Hin as ([n g] & En & Hin). destruct (list_find _ _) as [[i [n' g']]|] eqn:Ef; [by eexists|]. apply list_find_None in Ef. rewrite Forall_forall in Ef. exfalso. by apply (Ef _ Hin).
Qed.
