(* ===== verification/GlSound.v ===== *)
(** * GLES calls are safe

    The theorems about [HostGl].  What the driver was told is read off the log of its
    calls: the pixel store alignments, the buffers bound, the live mappings and sync
    objects.  Every call of the guest keeps the bridge's own record equal to that history,
    and every call the driver gets fulfils a contract: an image lies inside the memory the
    bridge checked, a number passed as an address is an offset into a bound buffer, and a
    copy into or out of a mapped buffer stays inside a live mapping. *)

From stdpp Require Import numbers list gmap strings.
From S2P Require Import Prelude Handles Bytes GuestMemory InitialStack GuestThread Kernel Syscalls Messages Service GlSizes GlCalls HostGl.
Local Open Scope string_scope.
Local Open Scope list_scope.
Local Open Scope Z_scope.

#[global] Instance harg_eq_dec : EqDecision harg.
Proof. solve_decision. Defined.

(** ** The history of the driver *)

(** The alignment set last; the driver ignores others than 1, 2, 4 and 8. *)
Definition align_step (pname v : Z) (c : hostcall) : Z :=
  if String.eqb (h_name c) "glPixelStorei" then match h_args c with [HInt p; HInt x] => if (p =? pname) && valid_alignment x then x else v | _ => v end else v.
Definition alignment_of (pname : Z) (log : list hostcall) : Z := foldl (align_step pname) 4 log.

(** The buffer bound to a target, where the calls tell: deleting buffers unbinds those that
    are bound, and the element buffer belongs to the vertex array object, so it is whatever
    that object has when another one is bound or one is deleted. *)
Definition vertex_array_calls : list string := ["glBindVertexArray"; "glBindVertexArrayOES"; "glDeleteVertexArrays"; "glDeleteVertexArraysOES"].
Definition bound_step (target : Z) (v : option Z) (c : hostcall) : option Z :=
  if String.eqb (h_name c) "glBindBuffer" then match h_args c with [HInt t; HInt b] => if t =? target then Some b else v | _ => v end
  else if String.eqb (h_name c) "glDeleteBuffers" then None
  else if (target =? kGlElementArrayBuffer) && existsb (String.eqb (h_name c)) vertex_array_calls then None
  else v.
Definition bound (target : Z) (log : list hostcall) : option Z := foldl (bound_step target) (Some 0) log.

(** The record agrees with the driver, where that is known. *)
Definition recorded (v target : Z) (log : list hostcall) : Prop := forall b, bound target log = Some b -> v = b.

Section History.
Context (host : list hostcall -> hostcall -> answer).

(** The size the driver gave for the buffer of a target, just before. *)
Definition size_answer (target : Z) (past : list hostcall) : Z :=
  match last past with
  | Some c => if String.eqb (h_name c) "glGetBufferParameteriv" && bool_decide (h_args c = [HInt target; HInt kGlBufferSize; HOut]) then s32 (out (host (removelast past) c) 0) else 0
  | None => 0
  end.

(** The memory of the mapping of a target, while it lasts: where it starts and its size. *)
Definition live_step (target : Z) (past : list hostcall) (v : option (Z * Z)) (c : hostcall) : option (Z * Z) :=
  if String.eqb (h_name c) "glMapBufferRange" then
    match h_args c with HInt t :: HInt _ :: HInt n :: _ => if (t =? target) && negb (ret (host past c) =? 0) then Some (ret (host past c), n) else v | _ => v end
  else if String.eqb (h_name c) "glMapBufferOES" then
    match h_args c with HInt t :: _ => if (t =? target) && negb (ret (host past c) =? 0) then Some (ret (host past c), size_answer target past) else v | _ => v end
  else if String.eqb (h_name c) "glUnmapBuffer" || String.eqb (h_name c) "glUnmapBufferOES" then
    match h_args c with [HInt t] => if t =? target then None else v | _ => v end
  else v.
Fixpoint live_map (target : Z) (past log : list hostcall) (v : option (Z * Z)) : option (Z * Z) :=
  match log with [] => v | c :: log => live_map target (past ++ [c]) log (live_step target past v c) end.
Definition mapped (target : Z) (log : list hostcall) : option (Z * Z) := live_map target [] log None.

(** Sync objects [w] made and not deleted. *)
Definition sync_delta (w : Z) (past : list hostcall) (c : hostcall) : Z :=
  if String.eqb (h_name c) "glFenceSync" then Z.b2z (ret (host past c) =? w)
  else if String.eqb (h_name c) "glDeleteSync" then match h_args c with [HInt x] => - Z.b2z (x =? w) | _ => 0 end
  else 0.

(** ** The contract of a driver call *)

(** Image calls: whether they read pixels back, and which arguments are the width, height,
    depth, format and type. *)
Definition image_shape (name : string) : option (bool * (list Z -> Z * Z * Z * Z * Z)) :=
  if String.eqb name "glTexImage2D" then Some (false, fun v => (nth 3 v 0, nth 4 v 0, 1, nth 6 v 0, nth 7 v 0))
  else if String.eqb name "glTexSubImage2D" then Some (false, fun v => (nth 4 v 0, nth 5 v 0, 1, nth 6 v 0, nth 7 v 0))
  else if String.eqb name "glReadPixels" then Some (true, fun v => (nth 2 v 0, nth 3 v 0, 1, nth 4 v 0, nth 5 v 0))
  else if String.eqb name "glTexImage3D" then Some (false, fun v => (nth 3 v 0, nth 4 v 0, nth 5 v 0, nth 7 v 0, nth 8 v 0))
  else if String.eqb name "glTexSubImage3D" then Some (false, fun v => (nth 5 v 0, nth 6 v 0, nth 7 v 0, nth 8 v 0, nth 9 v 0))
  else None.

Definition pixel_target (pack : bool) : Z := if pack then kGlPixelPackBuffer else kGlPixelUnpackBuffer.
Definition pixel_pname (pack : bool) : Z := if pack then kGlPackAlignment else kGlUnpackAlignment.

(** Every texel lies in the [n] bytes. *)
Definition image_inside (past : list hostcall) (pack : bool) (d : Z * Z * Z * Z * Z) (n : Z) : Prop :=
  let '(width, height, depth, format, type) := d in
  exists px, pixel_size format type = Some px /\ forall x y z, 0 <= x < width -> 0 <= y < height -> 0 <= z < depth ->
    0 <= texel_at px width height (alignment_of (pixel_pname pack) past) x y z /\ texel_at px width height (alignment_of (pixel_pname pack) past) x y z + px <= n.

(** An address argument: an offset into the buffer bound to the target, or guest memory
    while none is bound, unless buffers or vertex array objects went away since the target
    was bound last. *)
Definition address_ok (past : list hostcall) (target : Z) (a : harg) : Prop :=
  match a with HInt _ => bound target past <> Some 0 | HGuest _ _ _ => forall b, bound target past = Some b -> b = 0 | _ => True end.

Definition contract (past : list hostcall) (c : hostcall) : Prop :=
  match image_shape (h_name c) with
  | Some (pack, dims) =>
      exists vs a, h_args c = map HInt vs ++ [a] /\ address_ok past (pixel_target pack) a /\
        match a with HGuest _ n _ => image_inside past pack (dims vs) n | _ => True end
  | None =>
      if String.eqb (h_name c) "glVertexAttribPointer" || String.eqb (h_name c) "glVertexAttribIPointer" then
        exists l a, h_args c = l ++ [a] /\ address_ok past kGlArrayBuffer a
      else if String.eqb (h_name c) "glDrawElements" || String.eqb (h_name c) "glDrawElementsInstanced" then
        exists mode count type a l, h_args c = [HInt mode; HInt count; HInt type; a] ++ l /\ address_ok past kGlElementArrayBuffer a /\
          match a with HGuest _ n _ => n = count * element_index_bytes type | _ => True end
      else if String.eqb (h_name c) "glDrawRangeElements" then
        exists mode first end_ count type a, h_args c = [HInt mode; HInt first; HInt end_; HInt count; HInt type; a] /\ address_ok past kGlElementArrayBuffer a /\
          match a with HGuest _ n _ => n = count * element_index_bytes type | _ => True end
      else if String.eqb (h_name c) "memcpy_to" then
        exists d p n need t base len, h_args c = [HInt d; HGuest p n need] /\ mapped t past = Some (base, len) /\ base <= d /\ d + n <= base + len
      else if String.eqb (h_name c) "memcpy_from" then
        exists d n t base len, h_args c = [HInt d; HInt n] /\ mapped t past = Some (base, len) /\ base <= d /\ d + n <= base + len
      else True
  end.

(** ** The state of the bridge *)

Definition sync_count (w : Z) (l : list Z) : Z := foldr (fun x n => Z.b2z (x =? w) + n) 0 l.

Definition attribute_ok (a : Attribute) : Prop := 0 <= guest_pointer a < 2 ^ 32 /\ stride a < 2 ^ 31.
Definition mapping_ok (m : BufferMapping) : Prop := 0 <= m_guest m < 2 ^ 32 /\ 0 < m_length m < 2 ^ 31.

(** The record of one thread is the history of its driver calls. *)
Record shadow (t : GlThreadState) (log : list hostcall) : Prop := {
  sh_pack : pack_alignment t = alignment_of kGlPackAlignment log;
  sh_unpack : unpack_alignment t = alignment_of kGlUnpackAlignment log;
  sh_array : recorded (array_buffer t) kGlArrayBuffer log;
  sh_element : recorded (element_array_buffer t) kGlElementArrayBuffer log;
  sh_pixel_pack : recorded (pixel_pack_buffer t) kGlPixelPackBuffer log;
  sh_pixel_unpack : recorded (pixel_unpack_buffer t) kGlPixelUnpackBuffer log;
}.

Record gl_inv (h : HostGl) (log : list hostcall) : Prop := {
  gi_shadow : shadow (t_state h) log;
  gi_attributes : map_Forall (fun _ a => attribute_ok a) (attributes (t_state h));
  gi_uniforms : map_Forall (fun _ => map_Forall (fun _ n => 0 < n)) (uniforms (t_state h));
  gi_mappings : forall t m, mappings h !! t = Some m -> mapping_ok m /\ mapped t log = Some (m_data m, m_length m);
  gi_syncs : forall w, w <> 0 -> sync_count w (sync_objects h) = log_total (sync_delta w) [] log;
  gi_contracts : forall i c, log !! i = Some c -> contract (take i log) c;
}.

Definition gsafe (s : Sv HostGl) : Prop := mem_wf (smem s) /\ gl_inv (own s) (scalls s).

(** ** Calls that leave no trace in the history *)

Definition tracked : list string :=
  ["glPixelStorei"; "glBindBuffer"; "glMapBufferRange"; "glMapBufferOES"; "glUnmapBuffer"; "glUnmapBufferOES"; "glFenceSync"; "glDeleteSync";
   "glTexImage2D"; "glTexSubImage2D"; "glReadPixels"; "glTexImage3D"; "glTexSubImage3D"; "glVertexAttribPointer"; "glVertexAttribIPointer";
   "glDrawElements"; "glDrawElementsInstanced"; "glDrawRangeElements"; "memcpy_to"; "memcpy_from"].
Definition neutral (name : string) : bool := negb (existsb (String.eqb name) tracked).

Lemma neutral_not name n : neutral name = true -> existsb (String.eqb n) tracked = true -> String.eqb name n = false.
Proof.
  unfold neutral. rewrite negb_true_iff. intros Hn Ht. destruct (String.eqb_spec name n) as [->|]; [congruence|done].
Qed.

Lemma live_map_snoc t log c : forall past v, live_map t past (log ++ [c]) v = live_step t (past ++ log) (live_map t past log v) c.
Proof. induction log as [|d log IH]; intros past v; cbn; [by rewrite app_nil_r|]. by rewrite IH, <- app_assoc. Qed.

Lemma mapped_snoc t log c : mapped t (log ++ [c]) = live_step t log (mapped t log) c.
Proof. apply (live_map_snoc t log c [] None). Qed.
Lemma alignment_snoc p log c : alignment_of p (log ++ [c]) = align_step p (alignment_of p log) c.
Proof. unfold alignment_of. by rewrite foldl_snoc. Qed.
Lemma bound_snoc t log c : bound t (log ++ [c]) = bound_step t (bound t log) c.
Proof. unfold bound. by rewrite foldl_snoc. Qed.

(** Calls of other names leave each part of the history as it was. *)
Lemma alignment_other c log p : String.eqb (h_name c) "glPixelStorei" = false -> alignment_of p (log ++ [c]) = alignment_of p log.
Proof. intros H. rewrite alignment_snoc. unfold align_step. by rewrite H. Qed.
Lemma bound_other c log t : String.eqb (h_name c) "glBindBuffer" = false -> forall b, bound t (log ++ [c]) = Some b -> bound t log = Some b.
Proof. intros H b. rewrite bound_snoc. unfold bound_step. rewrite H. destruct (String.eqb (h_name c) "glDeleteBuffers"); [done|]. by destruct ((t =? kGlElementArrayBuffer) && existsb (String.eqb (h_name c)) vertex_array_calls). Qed.
Lemma recorded_other c log v t : String.eqb (h_name c) "glBindBuffer" = false -> recorded v t log -> recorded v t (log ++ [c]).
Proof. intros Hn Hr b Hb. apply Hr. by apply (bound_other c). Qed.
Lemma mapped_other c log t : existsb (String.eqb (h_name c)) ["glMapBufferRange"; "glMapBufferOES"; "glUnmapBuffer"; "glUnmapBufferOES"] = false -> mapped t (log ++ [c]) = mapped t log.
Proof. cbn. rewrite !orb_false_iff. intros (H1 & H2 & H3 & H4 & _). rewrite mapped_snoc. unfold live_step. by rewrite H1, H2, H3, H4. Qed.
Lemma syncs_other c log w : existsb (String.eqb (h_name c)) ["glFenceSync"; "glDeleteSync"] = false -> log_total (sync_delta w) [] (log ++ [c]) = log_total (sync_delta w) [] log.
Proof. cbn. rewrite !orb_false_iff. intros (H1 & H2 & _). rewrite log_total_snoc. unfold sync_delta. rewrite H1, H2. lia. Qed.

Lemma neutral_history c log :
  neutral (h_name c) = true ->
  (forall p, alignment_of p (log ++ [c]) = alignment_of p log) /\ (forall t b, bound t (log ++ [c]) = Some b -> bound t log = Some b) /\ (forall t, mapped t (log ++ [c]) = mapped t log) /\
  (forall w, log_total (sync_delta w) [] (log ++ [c]) = log_total (sync_delta w) [] log) /\ contract log c.
Proof.
  intros Hn. assert (forall n, existsb (String.eqb n) tracked = true -> String.eqb (h_name c) n = false) as H by (intros n; by apply neutral_not). split_and!.
  - intros p. rewrite alignment_snoc. unfold align_step. by rewrite H.
  - intros t. apply bound_other. by apply H.
  - intros t. rewrite mapped_snoc. unfold live_step. by rewrite !H.
  - intros w. rewrite log_total_snoc. unfold sync_delta. rewrite !H by done. lia.
  - unfold contract, image_shape. by rewrite !H.
Qed.

Lemma shadow_same t log log' : (forall p, alignment_of p log' = alignment_of p log) -> (forall x b, bound x log' = Some b -> bound x log = Some b) -> shadow t log -> shadow t log'.
Proof. intros Ha Hb [H1 H2 H3 H4 H5 H6]. constructor; rewrite ?Ha; try done; intros b E; eauto. Qed.

Lemma gl_inv_neutral h log c : neutral (h_name c) = true -> gl_inv h log -> gl_inv h (log ++ [c]).
Proof.
  intros Hn [Hs Ha Hu Hm Hy Hc]. destruct (neutral_history c log Hn) as (H1 & H2 & H3 & H4 & H5). constructor; [by eapply shadow_same|done|done| | |by apply (contracts_snoc contract)].
  - intros t m E. rewrite H3. by apply Hm.
  - intros w Hw. rewrite H4. by apply Hy.
Qed.

(** ** Reasoning about calls *)

Definition call_word (c : Call) : Prop := 0 <= result c < 2 ^ 32.

(** The state is safe and its page table is [p]. *)
Definition gok (p : Z -> Z) (s : Sv HostGl) : Prop := gsafe s /\ pages_ (smem s) = p.

Definition gwp {A} (m : gcall A) (c : Call) (s : Sv HostGl) (Q : A -> Call -> Sv HostGl -> Prop) : Prop := wp False (m c) s (fun x s' => Q (fst x) (snd x) s').

Lemma gwp_ret {A} (a : A) c s (Q : A -> Call -> Sv HostGl -> Prop) : Q a c s -> gwp (mret a) c s Q.
Proof. done. Qed.

Lemma gwp_bind {A B} (m : gcall A) (f : A -> gcall B) c s Q : gwp m c s (fun a c' s' => gwp (f a) c' s' Q) -> gwp (m ≫= f) c s Q.
Proof. intros H. unfold gwp, mbind, gcall_bind. apply wp_bind. eapply wp_mono; [exact H|]. by intros [a c'] s'. Qed.

Lemma gwp_mono {A} (m : gcall A) c s (P Q : A -> Call -> Sv HostGl -> Prop) : gwp m c s P -> (forall a c s, P a c s -> Q a c s) -> gwp m c s Q.
Proof. intros H HPQ. eapply wp_mono; [exact H|]. intros [a c'] s'. apply HPQ. Qed.

Lemma gwp_run {A} (m : svc HostGl A) c s (Q : A -> Call -> Sv HostGl -> Prop) : wp False m s (fun a s' => Q a c s') -> gwp (run m) c s Q.
Proof. intros H. unfold gwp, run. apply wp_bind. eapply wp_mono; [exact H|]. intros a s' HQ. by apply wp_ret. Qed.

Lemma gwp_valid c s (Q : bool -> Call -> Sv HostGl -> Prop) : Q (valid_ c) c s -> gwp valid c s Q.
Proof. done. Qed.

Lemma gwp_if_valid k c s (Q : unit -> Call -> Sv HostGl -> Prop) : (valid_ c = true -> gwp k c s Q) -> Q tt c s -> gwp (if_valid k) c s Q.
Proof. intros Hk Hq. apply gwp_bind, gwp_valid. destruct (valid_ c); [by apply Hk|by apply gwp_ret]. Qed.

Lemma gwp_result v c s (Q : unit -> Call -> Sv HostGl -> Prop) : (forall c', call_word c' -> Q tt c' s) -> gwp (set_result v) c s Q.
Proof. intros HQ. apply (HQ {| valid_ := valid_ c; result := u32 v |}). apply u32_range. Qed.

Lemma gwp_own c s (Q : HostGl -> Call -> Sv HostGl -> Prop) : Q (own s) c s -> gwp (run get_own) c s Q.
Proof. intros H. by apply gwp_run, wp_get_own. Qed.

Lemma gwp_thread c s (Q : GlThreadState -> Call -> Sv HostGl -> Prop) : Q (t_state (own s)) c s -> gwp get_thread c s Q.
Proof. intros H. apply gwp_run, wp_bind, wp_get_own. by apply wp_ret. Qed.

Lemma gwp_put_thread t c s (Q : unit -> Call -> Sv HostGl -> Prop) : Q tt c (Build_Sv (with_thread (own s) t) (smem s) (scalls s)) -> gwp (put_thread t) c s Q.
Proof. intros H. apply gwp_run, wp_bind, wp_get_own. by apply wp_put_own. Qed.

Section Sound.
Context (guest : Z -> list Z -> Sv HostGl -> option GuestResult * Sv HostGl) (malloc_fn free_fn : Z) (regs : list Z).
Context (Hhost : kernel_ok host) (Hregs : words regs).

(** Guest code called for memory makes no GLES calls. *)
Definition gl_guest_ok : Prop := forall f args s, mem_wf (smem s) ->
  let '(r, s') := guest f args s in
  mem_wf (smem s') /\ own s' = own s /\ scalls s' = scalls s /\ match r with Some r => 0 <= res_r0 r < 2 ^ 32 | None => True end.
Context (Hguest : gl_guest_ok).

(** A driver call, with the state it leaves. *)
Lemma gwp_driver_raw name args c s p (Q : answer -> Call -> Sv HostGl -> Prop) :
  gok p s -> Forall (arg_okp p) args ->
  (forall m, mem_wf m -> pages_ m = p -> Q (host (scalls s) {| h_name := name; h_args := args |}) c (Build_Sv (own s) m (scalls s ++ [{| h_name := name; h_args := args |}]))) ->
  gwp (driver host name args) c s Q.
Proof.
  intros [[Hm Hi] Hp] Hargs HQ. apply gwp_run, (wp_backend host Hhost); [done|by eapply arg_okp_forall|]. intros m How Hm'. apply HQ; [done|]. destruct How as (E & _). congruence.
Qed.

Lemma gwp_driver name args c s p (Q : answer -> Call -> Sv HostGl -> Prop) :
  gok p s -> neutral name = true -> Forall (arg_okp p) args -> (forall r s', own s' = own s -> gok p s' -> Q r c s') -> gwp (driver host name args) c s Q.
Proof.
  intros Hs Hn Hargs HQ. eapply gwp_driver_raw; [done..|]. intros m Hm Ep. apply HQ; [done|]. split; [split; [done|apply gl_inv_neutral; [done|apply Hs]]|done].
Qed.

Lemma gwp_reject e c s p (Q : unit -> Call -> Sv HostGl -> Prop) : gok p s -> (forall s', own s' = own s -> gok p s' -> Q tt c s') -> gwp (reject host e) c s Q.
Proof.
  intros Hs HQ. apply gwp_bind. eapply gwp_driver; [done..|by repeat constructor|]. intros r s' E Hs'. apply gwp_ret. by apply HQ.
Qed.

(** A failed call is not valid; its result stays. *)
Lemma gwp_fail e c s p (Q : unit -> Call -> Sv HostGl -> Prop) :
  gok p s -> call_word c -> (forall c' s', valid_ c' = false -> call_word c' -> own s' = own s -> gok p s' -> Q tt c' s') -> gwp (fail host e) c s Q.
Proof.
  intros Hs Hc HQ. unfold gwp, fail. destruct (valid_ c) eqn:Ev; [|by apply wp_ret, HQ].
  apply (gwp_reject e {| valid_ := false; result := result c |} s p Q); [done|]. intros s' E Hs'. by apply HQ.
Qed.

Definition later (p : Z -> Z) (s : Sv HostGl) (c' : Call) (s' : Sv HostGl) : Prop := call_word c' /\ own s' = own s /\ gok p s'.

Lemma gwp_fail_ret {A} (a : A) e c s p (Q : A -> Call -> Sv HostGl -> Prop) :
  gok p s -> call_word c -> (forall c' s', valid_ c' = false -> later p s c' s' -> Q a c' s') -> gwp (_ ← fail host e; mret a) c s Q.
Proof. intros Hs Hc HQ. apply gwp_bind. eapply gwp_fail; [done..|]. intros c' s' Hv Hc' E Hs'. apply gwp_ret. by apply HQ. Qed.

Lemma gwp_arg i c s p (Q : Z -> Call -> Sv HostGl -> Prop) :
  gok p s -> call_word c -> (forall v c' s', 0 <= v < 2 ^ 32 -> later p s c' s' -> Q v c' s') -> gwp (arg host regs i) c s Q.
Proof.
  intros Hs Hc HQ. unfold arg. destruct (i <? 4)%nat; [apply gwp_ret, HQ; [by apply reg_word|done]|]. pose proof (reg_word regs 13 Hregs).
  destruct (UINT32_MAX <? _) eqn:Eo; [eapply gwp_fail_ret; [done..|]; intros; by apply HQ|]. apply gwp_bind, gwp_run, wp_ptr; intros Ea; [|eapply gwp_fail_ret; [done..|]; intros; by apply HQ].
  pose proof (u32_range (reg regs 13 + 4 * (Z.of_nat i - 4))). apply gwp_bind, gwp_run, (wp_load _ _ _ kPageRead); [apply Hs|done|done|done|done|]. apply gwp_ret, HQ; [|done].
  apply (le_range _ (bytes_at_ok _ _ 4)).
Qed.

Lemma gwp_scalar t i c s p (Q : Z -> Call -> Sv HostGl -> Prop) :
  gok p s -> call_word c -> (forall v c' s', 0 <= v < 2 ^ 32 -> later p s c' s' -> Q (scalar_of t v) c' s') -> gwp (scalar host regs t i) c s Q.
Proof. intros Hs Hc HQ. apply gwp_bind. eapply gwp_arg; [done..|]. intros v c' s' Hv Hl. by apply gwp_ret, HQ. Qed.

Lemma gwp_length v k c s p (Q : Z -> Call -> Sv HostGl -> Prop) :
  gok p s -> call_word c -> (forall n c' s', 0 <= n -> (valid_ c' = true -> c' = c /\ s' = s /\ n = u64 (v * k) /\ 0 <= v) -> later p s c' s' -> Q n c' s') -> gwp (array_length host v k) c s Q.
Proof.
  intros Hs Hc HQ. unfold array_length. destruct (Z.ltb_spec v 0) as [|Hv]; [eapply gwp_fail_ret; [done..|]; intros c' s' Ev Hl; apply HQ; [done|congruence|done]|].
  destruct (_ && _); [eapply gwp_fail_ret; [done..|]; intros c' s' Ev Hl; apply HQ; [done|congruence|done]|]. apply gwp_ret, HQ; [apply u64_range|done|done].
Qed.

Lemma size_of_pos t : 0 < size_of t.
Proof. by destruct t. Qed.

(** A checked pointer, and the same as an argument of the driver. *)
Lemma gwp_pointer t i n need c s p (Q : option Z -> Call -> Sv HostGl -> Prop) :
  gok p s -> call_word c -> 0 <= n -> (forall q c' s', later p s c' s' -> ptr_okp p q (n * size_of t) need -> Q q c' s') -> gwp (pointer host regs t i n need) c s Q.
Proof.
  intros Hs Hc Hn HQ. apply gwp_bind. eapply gwp_arg; [done..|]. intros v c1 s1 Hv (Hc1 & E1 & Hs1). change kGuestSpaceSize with (2 ^ 32).
  assert (forall c2 s2, later p s1 c2 s2 -> later p s c2 s2) as Htr by (intros c2 s2 (? & ? & ?); split_and!; [done|congruence|done]). pose proof (size_of_pos t).
  destruct (Z.ltb_spec (2 ^ 32 / size_of t) n) as [|Hle]; [eapply gwp_fail_ret; [done..|]; intros c2 s2 _ Hl; apply HQ; [by apply Htr|done]|].
  destruct (Z.eqb_spec v 0) as [->|Hv0]; [by apply gwp_ret, HQ|].
  assert (n * size_of t <= 2 ^ 32) by (pose proof (Z.mul_div_le (2 ^ 32) (size_of t)); nia).
  apply gwp_bind, gwp_run, wp_ptr; intros Ea; [|eapply gwp_fail_ret; [done..|]; intros c2 s2 _ Hl; apply HQ; [by apply Htr|done]].
  apply gwp_ret, HQ; [done|]. split_and!; [lia|lia|nia|lia|]. intros m Em. rewrite (accessible_same (smem s1) m); [done|]. destruct Hs1 as [_ ?]. congruence.
Qed.

Lemma gwp_array t i n need c s p (Q : harg -> Call -> Sv HostGl -> Prop) :
  gok p s -> call_word c -> 0 <= n -> (forall q c' s', later p s c' s' -> arg_okp p (garg q (n * size_of t) need) -> Q (garg q (n * size_of t) need) c' s') -> gwp (array host regs t i n need) c s Q.
Proof. intros Hs Hc Hn HQ. apply gwp_bind. eapply gwp_pointer; [done..|]. intros q c' s' Hl Hq. apply gwp_ret, HQ; [done|]. by apply arg_okp_ptr. Qed.

Lemma gwp_argument64 i c s p (Q : Z -> Call -> Sv HostGl -> Prop) :
  gok p s -> call_word c -> (forall v c' s', later p s c' s' -> Q v c' s') -> gwp (argument64 host regs i) c s Q.
Proof.
  intros Hs Hc HQ. apply gwp_bind. eapply gwp_arg; [done..|]. intros v c1 s1 _ (Hc1 & E1 & Hs1). apply gwp_bind. eapply gwp_arg; [done..|]. intros w c2 s2 _ (Hc2 & E2 & Hs2).
  apply gwp_ret, HQ. split_and!; [done|congruence|done].
Qed.

(** ** Strings *)

Lemma accessible_app m a n k need : 0 <= a < 2 ^ 32 -> 0 < n -> 0 <= k -> a + n + k < 2 ^ 64 -> accessible m a n need = true -> (k = 0 \/ a + n < 2 ^ 32 /\ accessible m (a + n) k need = true) -> accessible m a (n + k) need = true.
Proof.
  intros Ha Hn Hk Hw H1 [->|[Hb H2]]; [by rewrite Z.add_0_r|]. apply accessible_pages in H1 as [?|[Hb1 Hp1]]; [lia| |lia..]. apply accessible_pages in H2 as [->|[Hb2 Hp2]]; [by apply accessible_pages; [lia..|]; right; rewrite Z.add_0_r| |lia..].
  apply accessible_pages; [lia..|]. right. split; [lia|]. intros i Hi. destruct (decide (i <= (a + n - 1) / 4096)) as [Hl|Hg]; [apply Hp1; lia|]. apply Hp2.
  assert ((a + n) / 4096 <= i) by (pose proof (Z.div_mod (a + n) 4096 ltac:(lia)); pose proof (Z.mod_pos_bound (a + n) 4096 ltac:(lia)); pose proof (Z.div_mod (a + n - 1) 4096 ltac:(lia)); pose proof (Z.mod_pos_bound (a + n - 1) 4096 ltac:(lia)); lia).
  split; [done|]. replace (a + n + k - 1) with (a + (n + k) - 1) by lia. lia.
Qed.

Lemma accessible_prefix m a n k need : 0 <= a < 2 ^ 32 -> 0 <= k <= n -> n < 2 ^ 40 -> accessible m a n need = true -> accessible m a k need = true.
Proof.
  intros Ha Hk Hn H. destruct (decide (k = 0)) as [->|]; [done|]. apply accessible_pages in H as [?|[Hb Hp]]; [lia| |lia..]. apply accessible_pages; [lia..|]. right. split; [lia|]. intros i Hi. apply Hp. split; [lia|]. etrans; [apply Hi|]. apply Z.div_le_mono; lia.
Qed.

(** What a string in guest memory is: [n] readable bytes, the last of them the zero. *)
Definition string_at (m : GuestMemory) (a n : Z) : Prop := 0 < n <= kMaxGuestString /\ a + n <= 2 ^ 32 /\ accessible m a n kPageRead = true /\ u8 (bytes_ m (a + n - 1)) = 0.

Lemma string_scan_ok fuel a scanned s :
  mem_wf (smem s) -> 0 < a < 2 ^ 32 -> 0 <= scanned <= kMaxGuestString -> accessible (smem s) a scanned kPageRead = true ->
  wp False (string_scan fuel a scanned) s (fun r s' => s' = s /\ match r with Some n => string_at (smem s) a n | None => True end).
Proof.
  intros Hm Ha. revert scanned. induction fuel as [|fuel IH]; intros scanned Hsc Hacc; [by apply wp_ret|]. cbn [string_scan]. change kGuestSpaceSize with (2 ^ 32). unfold kMaxGuestString in *.
  destruct (Z.ltb_spec scanned (2 ^ 26)) as [Hlt|]; [|by apply wp_ret]. cbn [negb]. destruct (Z.leb_spec (2 ^ 32) (a + scanned)) as [|Hin]; [by apply wp_ret|].
  rewrite u32_small, land_page_mask by lia. change kPageSize with 4096. pose proof (Z.mod_pos_bound (a + scanned) 4096 ltac:(lia)).
  set (chunk := Z.min (Z.min (4096 - (a + scanned) mod 4096) (2 ^ 26 - scanned)) (2 ^ 32 - (a + scanned))). assert (0 < chunk <= 4096) as Hch by (unfold chunk; lia). assert (scanned + chunk <= 2 ^ 26 /\ a + scanned + chunk <= 2 ^ 32) as [Hb1 Hb2] by (unfold chunk; lia).
  apply wp_bind, wp_ptr; intros Ea; [|by apply wp_ret]. apply wp_bind, (wp_load _ _ _ kPageRead); [done|lia|lia|rewrite Z2Nat.id by lia; done|done|].
  assert (accessible (smem s) a (scanned + chunk) kPageRead = true) as Hall.
  { destruct (decide (scanned = 0)) as [->|Hne]; [by rewrite Z.add_0_l; rewrite Z.add_0_r in Ea|]. apply accessible_app; [lia..|done|]. right. split; [lia|done]. }
  set (bs := bytes_at (smem s) (a + scanned) (Z.to_nat chunk)). pose proof (until_zero_spec bs) as Hz. destruct (until_zero bs) as [t|]; [|by apply IH; [lia|done]].
  apply wp_ret. split; [done|]. destruct Hz as (rest & Ebs & Hnz). assert (length bs = Z.to_nat chunk) as Hlen by apply length_bytes_at.
  assert (size t + 1 <= chunk) as Ht by (rewrite Ebs, length_app in Hlen; cbn in Hlen; unfold size; lia). assert (0 <= size t) by (unfold size; lia).
  unfold string_at, kMaxGuestString. split_and!; [lia|lia|lia|apply (accessible_prefix _ _ (scanned + chunk)); [lia|lia|lia|done]|].
  assert (bs !! length t = Some 0) as Hl by (rewrite Ebs, lookup_app_r, Nat.sub_diag by lia; done). unfold bs, bytes_at in Hl. rewrite list_lookup_fmap in Hl. apply fmap_Some in Hl as (k & Hk & E0). apply lookup_seq in Hk as [-> _].
  replace (a + (scanned + size t + 1) - 1) with (a + scanned + Z.of_nat (0 + length t)) by (unfold size; lia). done.
Qed.

Lemma gwp_string a c s p (Q : harg -> Call -> Sv HostGl -> Prop) :
  gok p s -> call_word c -> 0 <= a < 2 ^ 32 -> (forall x c' s', arg_okp p x -> (x = HNull \/ exists n, x = HGuest a n kPageRead /\ string_at (smem s') a n) -> later p s c' s' -> Q x c' s') -> gwp (guest_string host a) c s Q.
Proof.
  intros Hs Hc Ha HQ. unfold guest_string. destruct (Z.eqb_spec a 0) as [->|Hne]; [eapply gwp_fail_ret; [done..|]; intros c' s' _ Hl; by apply HQ; [|left|]|].
  apply gwp_bind, gwp_run. eapply wp_mono; [apply (string_scan_ok _ _ 0); [apply Hs|lia|unfold kMaxGuestString; lia|done]|]. intros [n|] s' [-> Hn].
  - apply gwp_ret, HQ; [|right; by exists n|done]. destruct Hn as (Hn1 & Hn2 & Hn3 & _). unfold kMaxGuestString in *. intros m Em. cbn. split_and!; [lia..|]. right. destruct Hs as [_ <-]. by rewrite (accessible_same (smem s) m) by done.
  - eapply gwp_fail_ret; [done..|]. intros c' s' _ Hl. by apply HQ; [|left|].
Qed.

(** A word of an array the bridge has checked. *)
Lemma gwp_word_at a i n need c s p (Q : Z -> Call -> Sv HostGl -> Prop) :
  gok p s -> ptr_okp p (Some a) (n * 4) need -> has_bits need (Z.lor kPageRead kPageExec) = true -> 0 <= i < n -> (forall v, 0 <= v < 2 ^ 32 -> Q v c s) -> gwp (word_at (Some a) i) c s Q.
Proof.
  intros Hs (Ha & Hn & Hacc) Hneed Hi HQ. specialize (Hacc (smem s) (proj2 Hs)). apply accessible_pages in Hacc as Hp; [|lia..]. destruct Hp as [?|[Hb Hp]]; [lia|].
  apply gwp_bind, gwp_run, (wp_load _ _ _ need); [apply Hs|lia|done| |done|].
  - apply accessible_pages; [lia..|]. right. split; [lia|]. intros k Hk. apply Hp. split; [etrans; [|apply Hk]|etrans; [apply Hk|]]; apply Z.div_le_mono; lia.
  - apply gwp_ret, HQ. apply (le_range _ (bytes_at_ok _ _ 4)).
Qed.

Lemma later_trans p s c1 s1 c2 s2 : later p s c1 s1 -> later p s1 c2 s2 -> later p s c2 s2.
Proof. intros (_ & E1 & _) (? & E2 & ?). split_and!; [done|congruence|done]. Qed.
Lemma later_refl p s c : gok p s -> call_word c -> later p s c s.
Proof. done. Qed.

Lemma gwp_string_array_loop n i a items acc c s p (Q : option (list harg) -> Call -> Sv HostGl -> Prop) :
  gok p s -> call_word c -> ptr_okp p a (items * 4) kPageRead -> (0 < n -> a <> None)%nat -> 0 <= i -> i + Z.of_nat n = items -> Forall (arg_okp p) acc ->
  (forall r c' s', later p s c' s' -> match r with Some l => Forall (arg_okp p) l | None => True end -> Q r c' s') -> gwp (string_array_loop host n i a acc) c s Q.
Proof.
  revert i acc c s. induction n as [|n IH]; intros i acc c s Hs Hc Ha Hne Hi Hlen Hacc HQ; cbn [string_array_loop]; [by apply gwp_ret, HQ|].
  destruct a as [a|]; [|by destruct Hne; [lia|]]. apply gwp_bind. eapply (gwp_word_at a i items); [done..|lia|]. intros v Hv. apply gwp_bind. eapply gwp_string; [done..|]. intros x c' s' Hx _ Hl.
  apply gwp_bind, gwp_valid. destruct (valid_ c'); [|by apply gwp_ret, HQ]. destruct Hl as (Hc' & E' & Hs'). eapply (IH (i + 1)); [done..|lia|lia|apply Forall_app; split; [done|by apply Forall_singleton]|].
  intros r c2 s2 Hl2 Hr. apply HQ; [|done]. by eapply later_trans.
Qed.

Lemma gwp_string_array i items c s p (Q : option (list harg) -> Call -> Sv HostGl -> Prop) :
  gok p s -> call_word c -> 0 <= items -> (forall r c' s', later p s c' s' -> match r with Some l => Forall (arg_okp p) l | None => True end -> Q r c' s') -> gwp (guest_string_array host regs i items) c s Q.
Proof.
  intros Hs Hc Hi HQ. apply gwp_bind. eapply gwp_pointer; [done..|]. intros q c1 s1 Hl1 Hq. destruct Hl1 as (Hc1 & E1 & Hs1). apply gwp_bind, gwp_valid. destruct (valid_ c1); cbn [negb]; [|by apply gwp_ret, HQ].
  destruct (Z.eqb_spec items 0) as [->|Hne]; cbn [negb andb].
  - eapply (gwp_string_array_loop _ 0 q 0); [done..|lia|done|done|done|]. intros r c2 s2 Hl2 Hr. apply HQ; [by eapply later_trans|done].
  - case_bool_decide as Eq; [eapply gwp_fail_ret; [done..|]; intros c2 s2 _ Hl2; apply HQ; [by eapply later_trans|done]|].
    eapply (gwp_string_array_loop _ 0 q items); [done|done|done|done|done|lia|done|]. intros r c2 s2 Hl2 Hr. apply HQ; [by eapply later_trans|done].
Qed.

(** ** Generated cases *)

Definition env_ok (p : Z -> Z) (env : list (string * value)) : Prop := Forall (fun e => arg_okp p (harg_of (snd e))) env.

Lemma env_arg p env x : env_ok p env -> arg_okp p (harg_of (value_of env x)).
Proof.
  intros H. unfold value_of. destruct (list_find _ env) as [[i e]|] eqn:E; [|done]. apply list_find_Some in E as (Hi & _). cbn. by eapply Forall_lookup_1 in H.
Qed.

Lemma gwp_elements env n c s p (Q : Z -> Call -> Sv HostGl -> Prop) :
  gok p s -> call_word c -> match n with Fixed k => 0 <= k | Length _ _ => True end -> (forall v c' s', 0 <= v -> later p s c' s' -> Q v c' s') -> gwp (elements_of host env n) c s Q.
Proof. intros Hs Hc Hn HQ. destruct n as [k|x m]; cbn; [by apply gwp_ret, HQ|]. eapply gwp_length; [done..|]. intros v c' s' Hv _ Hl. by apply HQ. Qed.

Definition binding_ok (b : binding) : bool := match b with Pointer _ _ _ (Fixed k) _ => 0 <=? k | _ => true end.

Lemma gwp_bind_all binds env c s p (Q : list (string * value) -> Call -> Sv HostGl -> Prop) :
  gok p s -> call_word c -> forallb binding_ok binds = true -> env_ok p env -> (forall e c' s', env_ok p e -> later p s c' s' -> Q e c' s') -> gwp (bind_all host regs binds env) c s Q.
Proof.
  revert env c s. induction binds as [|b binds IH]; intros env c s Hs Hc Hb He HQ; cbn [bind_all]; [by apply gwp_ret, HQ|]. cbn [forallb] in Hb. apply andb_true_iff in Hb as [Hb Hbs].
  assert (forall x v, arg_okp p (harg_of v) -> env_ok p (env ++ [(x, v)])) as Hext by (intros; apply Forall_app; split; [done|by apply Forall_singleton]).
  destruct b as [x t i|x t i n need]; apply gwp_bind.
  - eapply gwp_scalar; [done..|]. intros v c1 s1 _ Hl1. destruct Hl1 as (Hc1 & E1 & Hs1). eapply IH; [done..|by apply Hext|]. intros e c2 s2 He2 Hl2. apply HQ; [done|by eapply later_trans].
  - eapply gwp_elements; [done|done|destruct n; [by apply Z.leb_le|done]|]. intros v c1 s1 Hv Hl1. destruct Hl1 as (Hc1 & E1 & Hs1). apply gwp_bind. eapply gwp_array; [done..|]. intros q c2 s2 Hl2 Hq. pose proof Hl2 as (Hc2 & E2 & Hs2).
    eapply IH; [done..|by apply Hext|]. intros e c3 s3 He3 Hl3. apply HQ; [done|]. eapply later_trans; [|done]. by eapply later_trans.
Qed.

Definition plain_note (n : note) : bool := match n with InvalidateUniforms _ | NoteAttrib _ _ => true | _ => false end.

Lemma attribute_ok_of h log i : gl_inv h log -> attribute_ok (attribute_of (t_state h) i).
Proof. intros H. unfold attribute_of. destruct (attributes (t_state h) !! i) as [a|] eqn:E; [|by split; cbn]. by eapply (gi_attributes _ _ H). Qed.

Lemma plain_note_inv h log env n : plain_note n = true -> gl_inv h log -> gl_inv (with_thread h (take_note env (t_state h) n)) log.
Proof.
  intros Hn Hi. destruct n as [| | |]; try done; destruct Hi as [Hs Ha Hu Hm Hy Hc]; cbn [take_note].
  - constructor; cbn; [by destruct Hs|done| |done|done|done]. intros k v Hk. apply lookup_delete_Some in Hk as [_ Hk]. by eapply Hu.
  - constructor; cbn; [by destruct Hs| |done|done|done|done]. apply map_Forall_insert_2; [|done]. destruct (attribute_ok_of h log (int_of env index)) as [H1 H2]; [by constructor|]. by split.
Qed.

Lemma plain_notes_inv notes env : forall h log, forallb plain_note notes = true -> gl_inv h log -> gl_inv (with_thread h (foldl (take_note env) (t_state h) notes)) log.
Proof.
  induction notes as [|n notes IH]; intros h log Hn Hi; cbn [foldl]; [by destruct h|]. cbn [forallb] in Hn. apply andb_true_iff in Hn as [Hn Hns].
  apply (IH (with_thread h (take_note env (t_state h) n)) log Hns). by apply plain_note_inv.
Qed.

(** The post-condition of a whole call. *)
Definition done_ok (c' : Call) (s' : Sv HostGl) : Prop := call_word c' /\ gsafe s'.
Definition sound (m : gcall unit) : Prop := forall c s, gsafe s -> call_word c -> gwp m c s (fun _ c' s' => done_ok c' s').

Lemma done_later p s c' s' : later p s c' s' -> done_ok c' s'.
Proof. intros (? & _ & [? _]). by split. Qed.

Lemma gwp_outcome o v c s (Q : unit -> Call -> Sv HostGl -> Prop) : call_word c -> (forall c', call_word c' -> Q tt c' s) -> gwp (match o with Void => mret tt | Value => set_result v end) c s Q.
Proof. intros Hc HQ. destruct o; [by apply gwp_ret, HQ|by apply gwp_result]. Qed.

Lemma generated_sound name binds args o notes :
  neutral name = true -> forallb plain_note notes = true -> forallb binding_ok binds = true -> sound (generated_case host regs name binds args o notes).
Proof.
  intros Hn Hnotes Hb c s Hs Hc. apply gwp_bind. eapply (gwp_bind_all _ _ _ _ (pages_ (smem s))); [done|done|done|apply Forall_nil_2|]. intros env c1 s1 He Hl1. pose proof Hl1 as (Hc1 & E1 & Hs1).
  apply gwp_if_valid; [|by eapply done_later]. intros _. apply gwp_bind. eapply gwp_driver; [done|done| |].
  { apply Forall_forall. intros a Ha. apply list_elem_of_fmap in Ha as (x & -> & _). by apply env_arg. }
  intros r s2 E2 Hs2. apply gwp_bind, gwp_outcome; [done|]. intros c3 Hc3. apply gwp_bind, gwp_thread, gwp_put_thread. split; [done|]. split; [apply Hs2|]. apply plain_notes_inv; [done|apply Hs2].
Qed.

Definition bind_case : gl_case := generated "glBindBuffer" [Scalar "target" GLenum 0; Scalar "buffer" GLuint 1] ["target"; "buffer"] Void [NoteBindBuffer "target" "buffer"].
Definition store_case : gl_case := generated "glPixelStorei" [Scalar "pname" GLenum 0; Scalar "param" GLint 1] ["pname"; "param"] Void [NotePixelStore "pname" "param"].

(** The record follows the two calls that change it. *)
Lemma shadow_bind t log c target b :
  h_name c = "glBindBuffer" -> h_args c = [HInt target; HInt b] -> shadow t log -> shadow (note_bind_buffer t target b) (log ++ [c]).
Proof.
  intros En Ea []. assert (forall x, bound x (log ++ [c]) = if target =? x then Some b else bound x log) as Hb by (intros x; rewrite bound_snoc; unfold bound_step; by rewrite En, Ea).
  constructor; cbn; unfold recorded; rewrite ?Hb, ?alignment_other by (by rewrite En); try done; case_match; try done; by intros ? [= ->].
Qed.

Lemma shadow_store t log c pname param :
  h_name c = "glPixelStorei" -> h_args c = [HInt pname; HInt param] -> shadow t log -> shadow (note_pixel_store t pname param) (log ++ [c]).
Proof.
  intros En Ea []. assert (forall x, alignment_of x (log ++ [c]) = if (pname =? x) && valid_alignment param then param else alignment_of x log) as Hb by (intros x; rewrite alignment_snoc; unfold align_step; by rewrite En, Ea).
  unfold note_pixel_store. destruct (valid_alignment param) eqn:Ev; cbn [negb]; constructor; cbn; rewrite ?Hb; rewrite ?Ev, ?andb_true_r, ?andb_false_r; try done; try (apply recorded_other; [by rewrite En|done]); by case_match.
Qed.

(** A call that changes the thread's record only. *)
Lemma gl_inv_record h log c t :
  gl_inv h log -> shadow t (log ++ [c]) -> attributes t = attributes (t_state h) -> uniforms t = uniforms (t_state h) ->
  existsb (String.eqb (h_name c)) ["glMapBufferRange"; "glMapBufferOES"; "glUnmapBuffer"; "glUnmapBufferOES"] = false -> existsb (String.eqb (h_name c)) ["glFenceSync"; "glDeleteSync"] = false ->
  contract log c -> gl_inv (with_thread h t) (log ++ [c]).
Proof.
  intros [Hs Ha Hu Hm Hy Hc] Ht Ea Eu Hn1 Hn2 Hcon. constructor; cbn; [done|by rewrite Ea|by rewrite Eu| | |by apply (contracts_snoc contract)].
  - intros x m E. rewrite mapped_other by done. by apply Hm.
  - intros w Hw. rewrite syncs_other by done. by apply Hy.
Qed.

Lemma note_pixel_same t a b : attributes (note_pixel_store t a b) = attributes t /\ uniforms (note_pixel_store t a b) = uniforms t.
Proof. unfold note_pixel_store. by destruct (negb _). Qed.

Lemma bind_sound : sound (generated_case host regs "glBindBuffer" [Scalar "target" GLenum 0; Scalar "buffer" GLuint 1] ["target"; "buffer"] Void [NoteBindBuffer "target" "buffer"]).
Proof.
  intros c s Hs Hc. apply gwp_bind. cbn [bind_all]. apply gwp_bind. eapply (gwp_scalar _ _ _ _ (pages_ (smem s))); [done..|]. intros t c1 s1 _ Hl1. pose proof Hl1 as (Hc1 & E1 & Hs1).
  apply gwp_bind. eapply gwp_scalar; [done..|]. intros b c2 s2 _ Hl2. pose proof Hl2 as (Hc2 & E2 & Hs2). apply gwp_ret, gwp_if_valid; [|by eapply done_later]. intros _.
  apply gwp_bind. eapply gwp_driver_raw; [done|by repeat constructor|]. intros m Hm Ep. apply gwp_bind, gwp_ret. apply gwp_bind, gwp_thread, gwp_put_thread. split; [done|]. split; [done|].
  destruct Hs2 as [[_ Hi] _]. apply gl_inv_record; [done| |done|done|done|done|exact I]. apply shadow_bind; [done|done|apply Hi].
Qed.

Lemma store_sound : sound (generated_case host regs "glPixelStorei" [Scalar "pname" GLenum 0; Scalar "param" GLint 1] ["pname"; "param"] Void [NotePixelStore "pname" "param"]).
Proof.
  intros c s Hs Hc. apply gwp_bind. cbn [bind_all]. apply gwp_bind. eapply (gwp_scalar _ _ _ _ (pages_ (smem s))); [done..|]. intros t c1 s1 _ Hl1. pose proof Hl1 as (Hc1 & E1 & Hs1).
  apply gwp_bind. eapply gwp_scalar; [done..|]. intros b c2 s2 _ Hl2. pose proof Hl2 as (Hc2 & E2 & Hs2). apply gwp_ret, gwp_if_valid; [|by eapply done_later]. intros _.
  apply gwp_bind. eapply gwp_driver_raw; [done|by repeat constructor|]. intros m Hm Ep. apply gwp_bind, gwp_ret. apply gwp_bind, gwp_thread, gwp_put_thread. split; [done|]. split; [done|].
  destruct Hs2 as [[_ Hi] _]. apply gl_inv_record; [done| |apply note_pixel_same|apply note_pixel_same|done|done|exact I]. apply shadow_store; [done|done|apply Hi].
Qed.

(** Every generated case of the table is one of the three kinds. *)
Definition plain_case (c : gl_case) : bool :=
  match c_body c with Some (binds, _, _, notes) => neutral (c_name c) && forallb plain_note notes && forallb binding_ok binds | None => true end.

Lemma case_kinds c : c ∈ gl_cases -> plain_case c = true \/ c = bind_case \/ c = store_case.
Proof.
  intros Hc. assert (forallb (fun c => plain_case c || bool_decide (c = bind_case) || bool_decide (c = store_case)) gl_cases = true) as H by (vm_compute; reflexivity).
  rewrite forallb_forall in H. specialize (H c). rewrite !orb_true_iff, !bool_decide_eq_true in H. destruct H as [[H|H]|H]; [by apply list_elem_of_In|by left|by right; left|by right; right].
Qed.

Lemma generated_case_sound c binds args o notes : c ∈ gl_cases -> c_body c = Some (binds, args, o, notes) -> sound (generated_case host regs (c_name c) binds args o notes).
Proof.
  intros Hc Eb. destruct (case_kinds c Hc) as [Hp|[-> | ->]].
  - unfold plain_case in Hp. rewrite Eb, !andb_true_iff in Hp. destruct Hp as [[H1 H2] H3]. by apply generated_sound.
  - injection Eb as <- <- <- <-. apply bind_sound.
  - injection Eb as <- <- <- <-. apply store_sound.
Qed.

(** ** Calls one step at a time *)

Ltac gdone := lazymatch goal with |- done_ok _ ?s => match goal with H : gok _ s |- _ => split; [assumption|exact (proj1 H)] end end.
Ltac gargs := repeat (apply Forall_cons_2; [first [assumption|intros ? ?; exact I]|]); apply Forall_nil_2.
Ltac gpos := first [assumption|lia].
Ltac gstep :=
  lazymatch goal with
  | |- gwp (mret _) _ _ _ => apply gwp_ret; try gdone
  | |- gwp (reject _ _) _ _ _ => eapply gwp_reject; [eassumption|]; intros ? ? ?; try gdone
  | |- gwp (fail _ _) _ _ _ => eapply gwp_fail; [eassumption..|]; intros ? ? ? ? ? ?; try gdone
  | |- gwp (set_result _) _ _ _ => apply gwp_result; intros ? ?; try gdone
  | |- gwp (if_valid _) _ _ _ => apply gwp_if_valid; [intros ?|try gdone]
  | |- gwp (if ?b then _ else _) _ _ _ => destruct b eqn:?
  | |- gwp (let _ := _ in _) _ _ _ => cbv zeta
  | |- gwp (mbind _ ?m) _ _ _ =>
      apply gwp_bind;
      lazymatch m with
      | scalar _ _ _ _ => eapply gwp_scalar; [eassumption..|]; intros ? ? ? ? (? & ? & ?)
      | arg _ _ _ => eapply gwp_arg; [eassumption..|]; intros ? ? ? ? (? & ? & ?)
      | argument64 _ _ _ => eapply gwp_argument64; [eassumption..|]; intros ? ? ? (? & ? & ?)
      | array _ _ _ _ _ _ => eapply gwp_array; [eassumption|eassumption|gpos|]; intros ? ? ? (? & ? & ?) ?
      | pointer _ _ _ _ _ _ => eapply gwp_pointer; [eassumption|eassumption|gpos|]; intros ? ? ? (? & ? & ?) ?
      | array_length _ _ _ => eapply gwp_length; [eassumption..|]; intros ? ? ? ? ? (? & ? & ?)
      | guest_string _ _ => eapply gwp_string; [eassumption..|]; intros ? ? ? ? _ (? & ? & ?)
      | driver _ _ _ => eapply gwp_driver; [eassumption|reflexivity|gargs|]; intros ? ? ? ?
      | reject _ _ => eapply gwp_reject; [eassumption|]; intros ? ? ?
      | fail _ _ => eapply gwp_fail; [eassumption..|]; intros ? ? ? ? ? ?
      | get_thread => apply gwp_thread
      | run get_own => apply gwp_own
      | valid => apply gwp_valid
      end
  end.
Ltac gopen :=
  intros c s Hgs Hc; assert (gok (pages_ (smem s)) s) as Hs by (split; [exact Hgs|reflexivity]); clear Hgs;
  lazymatch goal with |- gwp ?m _ _ _ => let m' := eval red in m in change m with m' end.
Ltac gcall_tac := gopen; repeat gstep.

Lemma gwp_pname pname c s p (Q : Z -> Call -> Sv HostGl -> Prop) :
  gok p s -> (forall n s', 0 <= n -> own s' = own s -> gok p s' -> Q n c s') -> gwp (gl_pname_count host pname) c s Q.
Proof.
  intros Hs HQ. unfold gl_pname_count. destruct (bool_decide _); [by apply gwp_ret, HQ|]. destruct (bool_decide _); [by apply gwp_ret, HQ|]. destruct (_ || _); [|by apply gwp_ret, HQ].
  gstep. apply gwp_ret, HQ; [|done|done]. destruct (Z.ltb_spec 0 (s32 (out r 0))); lia.
Qed.

Lemma serve_pname_sound name t : neutral name = true -> sound (serve_pname host regs name t).
Proof.
  intros Hn. gopen. gstep. apply gwp_bind. eapply gwp_pname; [eassumption|]. intros n s2 Hn0 E2 Hs2. gstep. gstep. apply gwp_bind. eapply gwp_driver; [eassumption|done|gargs|]. intros. gstep.
Qed.

Lemma serve_name_sound name : neutral name = true -> sound (serve_name host regs name).
Proof.
  intros Hn. gopen. do 4 gstep. apply gwp_bind. eapply gwp_driver; [eassumption|done|gargs|]. intros. gstep.
Qed.

Lemma bind_attrib_sound : sound (gl_glBindAttribLocation host regs).
Proof. gcall_tac. Qed.

Lemma clear_buffer_sound name t : neutral name = true -> sound (clear_buffer host regs name t).
Proof.
  intros Hn. gopen. do 2 gstep. apply gwp_bind. eapply gwp_array; [eassumption..|unfold clear_buffer_elements; by case_match|]. intros q c3 s3 (? & ? & ?) ?. gstep. apply gwp_bind. eapply gwp_driver; [eassumption|done|gargs|]. intros. gstep.
Qed.

Lemma active_uniforms_sound : sound (gl_glGetActiveUniformsiv host regs).
Proof. gcall_tac. Qed.

Lemma transform_feedback_sound : sound (gl_glTransformFeedbackVaryings host regs).
Proof.
  gopen. do 4 gstep. gstep; [gstep|]. gstep. apply gwp_bind. eapply gwp_string_array; [eassumption..|]. intros [l|] cz sz (? & ? & ?) Hl; [|gstep]. apply gwp_bind. eapply gwp_driver; [eassumption|done| |intros; gstep].
  do 2 (apply Forall_cons_2; [by intros|]). apply Forall_app. split; [done|gargs].
Qed.

Lemma uniform_indices_sound : sound (gl_glGetUniformIndices host regs).
Proof.
  gopen. do 3 gstep. gstep; [gstep|]. gstep. apply gwp_bind. eapply gwp_string_array; [eassumption..|]. intros [l|] cz sz (? & ? & ?) Hl; [|gstep]. gstep. gstep. gstep; [gstep|]. apply gwp_bind. eapply gwp_driver; [eassumption|done| |intros; gstep].
  do 2 (apply Forall_cons_2; [by intros|]). apply Forall_app. split; [done|]. apply Forall_singleton. by apply (arg_okp_ptr _ _ (_ * 4)).
Qed.

Lemma uniform_block_sound : sound (gl_glGetActiveUniformBlockiv host regs).
Proof.
  gopen. do 4 gstep. apply gwp_bind. destruct (_ =? kGlUniformBlockActiveUniformIndices).
  - gstep. apply gwp_ret. apply gwp_bind. eapply gwp_array; [eassumption..| |]; [case_match; lia|]. intros q c3 s3 (? & ? & ?) ?. repeat gstep.
  - apply gwp_ret. repeat gstep.
Qed.

(** ** Uniforms *)

Lemma uniform_components_pos t : 0 <= uniform_components t.
Proof. unfold uniform_components. repeat case_match; lia. Qed.

Lemma gwp_uniform_loop n program index max_length locations c s p (Q : gmap Z Z -> Call -> Sv HostGl -> Prop) :
  gok p s -> map_Forall (fun _ k => 0 < k) locations -> (forall l s', map_Forall (fun _ k => 0 < k) l -> own s' = own s -> gok p s' -> Q l c s') -> gwp (uniform_loop host n program index max_length locations) c s Q.
Proof.
  revert index locations s. induction n as [|n IH]; intros index locations s Hs Hl HQ; cbn [uniform_loop]; [by apply gwp_ret, HQ|]. gstep. destruct (_ || _).
  - eapply IH; [done..|]. intros l s2 Hl2 E2 Hs2. apply HQ; [done|congruence|done].
  - gstep. eapply IH; [done| |].
    + destruct (0 <=? _); [|done]. pose proof (uniform_components_pos (u32 (out r 2))). destruct (Z.eqb_spec (uniform_components (u32 (out r 2))) 0); [done|]. cbn [negb andb]. apply map_Forall_insert_2; [lia|done].
    + intros l s2 Hl2 E2 Hs2. apply HQ; [done|congruence|done].
Qed.

Lemma gok_uniforms p s u : gok p s -> map_Forall (fun _ => map_Forall (fun _ k => 0 < k)) u -> gok p (Build_Sv (with_thread (own s) (with_uniforms (t_state (own s)) u)) (smem s) (scalls s)).
Proof. intros [[Hm [Hsh Ha Hu Hmp Hy Hcn]] Hp] Hn. split; [split; [done|]|done]. constructor; cbn; [by destruct Hsh|done..]. Qed.

Lemma gwp_uniform_elements program location c s p (Q : option Z -> Call -> Sv HostGl -> Prop) :
  gok p s -> (forall r s', match r with Some n => 0 < n | None => True end -> gok p s' -> Q r c s') -> gwp (uniform_elements host program location) c s Q.
Proof.
  intros Hs HQ. unfold uniform_elements. gstep. apply gwp_bind. pose proof (gi_uniforms _ _ (proj2 (proj1 Hs))) as Hu.
  assert (forall (l : gmap Z Z) s', map_Forall (fun _ k => 0 < k) l -> gok p s' -> Q (l !! location) c s') as Hend by (intros l s' Hl Hs'; apply HQ; [destruct (l !! location) eqn:E; [by eapply Hl|done]|done]).
  destruct (uniforms (t_state (own s)) !! program) as [l|] eqn:E; [do 2 apply gwp_ret; apply Hend; [by eapply Hu|done]|]. do 2 gstep. apply gwp_bind. eapply gwp_uniform_loop; [eassumption|done|]. intros l s3 Hl E3 Hs3.
  gstep. apply gwp_bind, gwp_put_thread. do 2 apply gwp_ret. apply Hend; [done|]. apply gok_uniforms; [done|]. apply map_Forall_insert_2; [done|]. apply (gi_uniforms _ _ (proj2 (proj1 Hs3))).
Qed.

Lemma serve_uniform_sound name t : neutral name = true -> sound (serve_uniform host regs name t).
Proof.
  intros Hn. gopen. do 2 gstep. apply gwp_bind. eapply gwp_uniform_elements; [eassumption|]. intros [n|] s3 Hpos Hs3; [|gstep]. apply gwp_bind. eapply gwp_array; [eassumption..|lia|]. intros q c4 s4 (? & ? & ?) ?. gstep. apply gwp_bind. eapply gwp_driver; [eassumption|done|gargs|]. intros. gstep.
Qed.

(** ** Strings of the driver *)

Lemma wp_call_guest f args s p (Q : option GuestResult -> Sv HostGl -> Prop) :
  gok p s -> (forall r s' p' x, match r with Some r => 0 <= res_r0 r < 2 ^ 32 | None => True end -> own s' = own s -> scalls s' = scalls s ++ [x] -> h_name x = "guest" -> gok p' s' -> Q r s') -> wp False (call_guest guest f args) s Q.
Proof.
  intros [[Hm Hi] _] HQ. unfold wp, call_guest, runs. specialize (Hguest f args (Build_Sv (own s) (smem s) (scalls s ++ [{| h_name := "guest"; h_args := HInt f :: map HInt args |}])) Hm).
  destruct (guest _ _ _) as [r s']. destruct Hguest as (Hm' & Eo & El & Hr). cbn in Eo, El. eapply (HQ r s' (pages_ (smem s'))); [done|done|done|done|]. split; [split; [done|]|done]. rewrite Eo, El. by apply gl_inv_neutral.
Qed.

Lemma gwp_allocate n c s p (Q : option Z -> Call -> Sv HostGl -> Prop) :
  gok p s -> (forall r s' p' cs, match r with Some a => 0 < a < 2 ^ 32 | None => True end -> own s' = own s -> scalls s' = scalls s ++ cs -> Forall (fun c => h_name c = "guest") cs -> gok p' s' -> Q r c s') -> gwp (allocate guest malloc_fn n) c s Q.
Proof.
  intros Hs HQ. unfold allocate. destruct (_ || _); [apply gwp_ret, (HQ None s p []); [done|done|by rewrite app_nil_r|by apply Forall_nil_2|done]|]. apply gwp_bind, gwp_run, wp_bind. eapply wp_call_guest; [done|]. intros r s' p' x Hr Eo El Ex Hs'.
  apply wp_ret, gwp_ret, (HQ _ s' p' [x]); [|done|done|by apply Forall_singleton|done]. destruct r as [r|]; [|done]. destruct (Z.eqb_spec (res_r0 r) 0); [done|lia].
Qed.

Lemma gwp_free a c s p (Q : unit -> Call -> Sv HostGl -> Prop) : gok p s -> (forall s' p', own s' = own s -> gok p' s' -> Q tt c s') -> gwp (free guest free_fn a) c s Q.
Proof.
  intros Hs HQ. apply gwp_run. unfold free_guest. destruct (a =? 0); [apply wp_ret; by eapply HQ|]. apply wp_bind. eapply wp_call_guest; [done|]. intros r s' p' x _ Eo _ _ Hs'. apply wp_ret. by eapply HQ.
Qed.

(** Storing into memory the bridge has checked. *)
Lemma gwp_store a bs n need c s p (Q : unit -> Call -> Sv HostGl -> Prop) :
  gok p s -> 0 <= a < 2 ^ 32 -> size bs <= n < 2 ^ 40 -> accessible (smem s) a n need = true -> has_bits need kPageWrite = true -> (forall s', own s' = own s -> scalls s' = scalls s -> gok p s' -> Q tt c s') -> gwp (run (store a bs)) c s Q.
Proof.
  intros [[Hm Hi] Hp] Ha Hn Hacc Hneed HQ. apply gwp_run. assert (0 <= size bs) by (unfold size; lia). apply (wp_store _ _ _ a n need); [done|done|lia|done|done|lia|lia|]. intros m _ How Hm'. apply HQ; [done|done|]. destruct How as (E & _). split; [done|cbn; congruence].
Qed.

Lemma gok_strings p s x y : gok p s -> gok p (Build_Sv (with_thread (own s) (with_strings (t_state (own s)) x y)) (smem s) (scalls s)).
Proof. intros [[Hm [Hsh Ha Hu Hmp Hy Hcn]] Hp]. split; [split; [done|]|done]. constructor; cbn; [by destruct Hsh|done..]. Qed.

Lemma accessible_rw m a n need : 0 <= a < 2 ^ 32 -> 0 <= n < 2 ^ 40 -> need = kPageRead \/ need = kPageWrite -> accessible m a n RW = true -> accessible m a n need = true.
Proof.
  intros Ha Hn Hneed Hacc. apply accessible_pages in Hacc as [->|[Hb Hp]]; [done| |lia..]. apply accessible_pages; [lia..|]. right. split; [done|]. intros i Hi. specialize (Hp i Hi). unfold page_has in *.
  assert (Z.land (Z.lor RW kPageMapped) (Z.lor need kPageMapped) = Z.lor need kPageMapped) as <- by (by destruct Hneed as [-> | ->]). rewrite Z.land_assoc. by rewrite Hp.
Qed.

Lemma get_string_sound : sound (gl_glGetString host guest malloc_fn regs).
Proof.
  gopen. do 2 gstep. destruct (gl_strings _ !! _); [gstep|]. do 2 gstep; [gstep|]. cbv zeta. destruct (Z.leb_spec kMaxDriverString (size (driver_text r))) as [|Hlt]; [gstep|]. unfold kMaxDriverString in Hlt. assert (0 <= size (driver_text r)) by (unfold size; lia).
  apply gwp_bind. eapply gwp_allocate; [eassumption|]. intros [a|] s3 p3 cs Ha _ _ _ Hs3; [|gstep]. apply gwp_bind, gwp_run, wp_ptr; intros Ea; [|gstep].
  apply gwp_bind. eapply (gwp_store a _ (size (driver_text r) + 1) RW); [eassumption|lia| |done|done|]; [unfold size in *; rewrite length_app; cbn; lia|]. intros s4 _ _ Hs4. gstep. apply gwp_bind, gwp_put_thread. apply gwp_result. intros c5 Hc5. split; [done|]. eapply gok_strings; eassumption.
Qed.

Lemma get_stringi_sound : sound (gl_glGetStringi host guest malloc_fn regs).
Proof.
  gopen. do 4 gstep. cbv zeta. destruct (indexed_strings _ !! _); [gstep|]. do 2 gstep; [gstep|]. cbv zeta. destruct (Z.leb_spec kMaxDriverString (size (driver_text r))) as [|Hlt]; [gstep|]. unfold kMaxDriverString in Hlt. assert (0 <= size (driver_text r)) by (unfold size; lia).
  apply gwp_bind. eapply gwp_allocate; [eassumption|]. intros [a|] s4 p4 cs Ha _ _ _ Hs4; apply gwp_bind; [|apply gwp_ret; gstep]. apply gwp_run, wp_ptr; intros Ea; [|gstep].
  apply gwp_bind. eapply (gwp_store a _ (size (driver_text r) + 1) RW); [eassumption|lia| |done|done|]; [unfold size in *; rewrite length_app; cbn; lia|]. intros s5 _ _ Hs5. gstep. apply gwp_bind, gwp_put_thread. apply gwp_result. intros c6 Hc6. split; [done|]. eapply gok_strings; eassumption.
Qed.

(** ** Images *)

Lemma scalar_of_range t v : 0 <= v < 2 ^ 32 -> - 2 ^ 31 <= scalar_of t v < 2 ^ 32.
Proof. intros Hv. pose proof (swrap_range 32 v ltac:(lia)). pose proof (u8_range v). unfold scalar_of, s32 in *. destruct t; lia. Qed.

Lemma scalar_of_signed t v : t = GLsizei \/ t = GLint \/ t = GLintptr \/ t = GLsizeiptr -> - 2 ^ 31 <= scalar_of t v < 2 ^ 31.
Proof. intros Ht. pose proof (swrap_range 32 v ltac:(lia)). unfold scalar_of, s32 in *. by destruct Ht as [-> | [-> | [-> | ->]]]. Qed.

(** The scalars of an image call, each in the range of its type. *)
Lemma gwp_scalars ts i c s p (Q : list Z -> Call -> Sv HostGl -> Prop) :
  gok p s -> call_word c -> (forall vs c' s', later p s c' s' -> Forall2 (fun t v => exists w, 0 <= w < 2 ^ 32 /\ v = scalar_of t w) ts vs -> Q vs c' s') -> gwp (scalars host regs ts i) c s Q.
Proof.
  revert i c s Q. induction ts as [|t ts IH]; intros i c s Q Hs Hc HQ; cbn [scalars]; [apply gwp_ret, HQ; [done|constructor]|]. apply gwp_bind. eapply gwp_scalar; [done..|]. intros v c1 s1 Hv Hl1. pose proof Hl1 as (Hc1 & _ & Hs1).
  apply gwp_bind. eapply IH; [done..|]. intros vs c2 s2 Hl2 Hvs. apply gwp_ret, HQ; [by eapply later_trans|]. constructor; [by exists v|done].
Qed.

(** The address the driver gets for an image. *)
Definition pixels_ok (past : list hostcall) (p : Z -> Z) (pack : bool) (d : Z * Z * Z * Z * Z) (a : harg) : Prop :=
  arg_okp p a /\ address_ok past (pixel_target pack) a /\ match a with HGuest _ n _ => image_inside past pack d n | _ => True end.

Lemma shadow_pixels t log pack : shadow t log -> recorded (pixel_buffer t pack) (pixel_target pack) log /\ pixel_alignment t pack = alignment_of (pixel_pname pack) log.
Proof. intros []. by destruct pack. Qed.

(** The rows of a stack of images, counted as the code does. *)
Lemma image_rows h d rows : - 2 ^ 31 <= h < 2 ^ 31 -> 0 <= d < 2 ^ 31 -> checked_multiply (u64 h) (u64 d) = Some rows -> rows <= INT32_MAX -> d = 0 /\ rows = 0 \/ 0 <= h /\ rows = h * d.
Proof.
  intros Hh Hd E Hr. rewrite (u64_small d) in E by lia. apply checked_multiply_some in E as [-> Hlt]; [|apply u64_range|lia]. unfold INT32_MAX in Hr. destruct (decide (0 <= h)) as [Hp|Hn]; [right; split; [done|]; by rewrite u64_small by lia|].
  assert (u64 h = 2 ^ 64 + h) as Eu by (unfold u64; rewrite <- (Z.mod_unique h (2 ^ 64) (-1) (2 ^ 64 + h)); lia). rewrite Eu in *. left. assert (d = 0) by nia. subst. lia.
Qed.

Lemma gwp_pixels pack format type w h d i perm c s p (Q : option harg -> Call -> Sv HostGl -> Prop) :
  gok p s -> call_word c -> - 2 ^ 31 <= w < 2 ^ 31 -> - 2 ^ 31 <= h < 2 ^ 31 -> - 2 ^ 31 <= d < 2 ^ 31 ->
  (forall r c' s', later p s c' s' -> match r with Some a => pixels_ok (scalls s') p pack (w, h, d, format, type) a | None => True end -> Q r c' s') ->
  gwp (pixel_pointer host regs pack format type w h d (pixel_alignment (t_state (own s)) pack) i perm) c s Q.
Proof.
  intros Hs Hc Hw Hh Hd HQ. unfold pixel_pointer. gstep. assert (forall s', own s' = own s -> gok p s' -> recorded (pixel_buffer (t_state (own s)) pack) (pixel_target pack) (scalls s') /\ pixel_alignment (t_state (own s)) pack = alignment_of (pixel_pname pack) (scalls s')) as Hsh.
  { intros s' <- Hs'. apply shadow_pixels, (gi_shadow _ _ (proj2 (proj1 Hs'))). }
  destruct (Z.eqb_spec (pixel_buffer (t_state (own s)) pack) 0) as [Hb|Hb]; cbn [negb].
  - assert (forall e, gwp (_ ← fail host e; mret None) c s Q) as Hfail by (intros e; eapply gwp_fail_ret; [done..|]; intros c' s' _ Hl; by apply HQ).
    destruct (Z.ltb_spec d 0) as [|Hd0]; [by apply Hfail|]. destruct (checked_multiply _ _) as [rows|] eqn:Em; [|by apply Hfail]. destruct (Z.ltb_spec INT32_MAX rows) as [|Hr]; [by apply Hfail|].
    destruct (image_rows h d rows Hh ltac:(lia) Em Hr) as [[-> ->]|[Hh0 ->]].
    + pose proof (gl_pixel_bytes_image format type w 0 (pixel_alignment (t_state (own s)) pack) Hw ltac:(lia)) as Himg. destruct (gl_pixel_bytes _ _ _ _ _) as [n|]; [|by apply Hfail]. destruct Himg as (px & Epx & _ & _ & _ & Hn & _).
      gstep. apply gwp_bind, gwp_valid, gwp_ret. apply HQ; [done|]. destruct (valid_ _); [|done]. split_and!; [done| |]; destruct q as [a|]; cbn; try done; [intros b E; destruct (Hsh s') as [Hrec _]; [done..|]; by rewrite <- (Hrec b E)|]. exists px. split; [done|]. intros; lia.
    + pose proof (gl_pixel_bytes_image format type w (h * d) (pixel_alignment (t_state (own s)) pack) Hw ltac:(unfold INT32_MAX in Hr; nia)) as Himg. destruct (gl_pixel_bytes _ _ _ _ _) as [n|] eqn:En; [|by apply Hfail]. destruct Himg as (_ & _ & _ & _ & _ & Hn & _).
      destruct (texels_inside format type w h d (pixel_alignment (t_state (own s)) pack) n Hh0 Hd0 ltac:(unfold INT32_MAX in Hr; lia) Hw En) as (px & Epx & Hin).
      gstep. apply gwp_bind, gwp_valid, gwp_ret. apply HQ; [done|]. destruct (valid_ _); [|done]. split_and!; [done| |]; destruct q as [a|]; cbn; try done; [intros b E; destruct (Hsh s') as [Hrec _]; [done..|]; by rewrite <- (Hrec b E)|]. destruct (Hsh s') as [_ <-]; [done..|]. exists px. split; [done|]. intros x y z Hx Hy Hz. rewrite Z.mul_1_r. by apply Hin.
  - gstep. apply gwp_bind, gwp_valid, gwp_ret. apply HQ; [done|]. destruct (valid_ _); [|done]. split_and!; [done| |done]. cbn. intros E. destruct (Hsh s') as [Hrec _]; [done..|]. by apply Hb, Hrec.
Qed.

(** A call that changes nothing but fulfils a contract. *)
Lemma gl_inv_contract h log c :
  gl_inv h log -> contract log c -> String.eqb (h_name c) "glPixelStorei" = false -> String.eqb (h_name c) "glBindBuffer" = false ->
  existsb (String.eqb (h_name c)) ["glMapBufferRange"; "glMapBufferOES"; "glUnmapBuffer"; "glUnmapBufferOES"] = false -> existsb (String.eqb (h_name c)) ["glFenceSync"; "glDeleteSync"] = false -> gl_inv h (log ++ [c]).
Proof.
  intros Hi Hcon H1 H2 H3 H4. replace h with (with_thread h (t_state h)) by (by destruct h). apply gl_inv_record; [done| |done|done|done|done|done]. eapply shadow_same; [intros; by apply alignment_other|intros x b E; by apply (bound_other c)|apply Hi].
Qed.

(** Such a call of the driver. *)
Lemma gwp_contract name args c s p (Q : answer -> Call -> Sv HostGl -> Prop) :
  gok p s -> Forall (arg_okp p) args -> contract (scalls s) {| h_name := name; h_args := args |} -> String.eqb name "glPixelStorei" = false -> String.eqb name "glBindBuffer" = false ->
  existsb (String.eqb name) ["glMapBufferRange"; "glMapBufferOES"; "glUnmapBuffer"; "glUnmapBufferOES"] = false -> existsb (String.eqb name) ["glFenceSync"; "glDeleteSync"] = false ->
  (forall r s', own s' = own s -> gok p s' -> Q r c s') -> gwp (driver host name args) c s Q.
Proof.
  intros Hs Hargs Hcon H1 H2 H3 H4 HQ. eapply gwp_driver_raw; [done..|]. intros m Hm Ep. apply HQ; [done|]. split; [split; [done|]|done]. apply gl_inv_contract; [apply Hs|done..].
Qed.

Definition int32 (v : Z) : Prop := - 2 ^ 31 <= v < 2 ^ 31.

Lemma image_call_sound name ts pack perm dims :
  image_shape name = Some (pack, dims) -> String.eqb name "glPixelStorei" = false -> String.eqb name "glBindBuffer" = false ->
  existsb (String.eqb name) ["glMapBufferRange"; "glMapBufferOES"; "glUnmapBuffer"; "glUnmapBufferOES"] = false -> existsb (String.eqb name) ["glFenceSync"; "glDeleteSync"] = false ->
  (forall vs, Forall2 (fun t v => exists w, 0 <= w < 2 ^ 32 /\ v = scalar_of t w) ts vs -> let '(w, h, d, _, _) := dims vs in int32 w /\ int32 h /\ int32 d) ->
  sound (image_call host regs name ts pack perm dims).
Proof.
  intros Hshape H1 H2 H3 H4 Hdims. gopen. apply gwp_bind. eapply gwp_scalars; [done..|]. intros vs c1 s1 (Hc1 & E1 & Hs1) Hvs. specialize (Hdims vs Hvs). destruct (dims vs) as [[[[w h] d] format] type] eqn:Ed. destruct Hdims as (Hw & Hh & Hd).
  gstep. apply gwp_bind. eapply gwp_pixels; [done..|]. intros [a|] c2 s2 (Hc2 & E2 & Hs2) Ha; [|gstep]. destruct Ha as (Ha & Hadr & Hin). apply gwp_bind. eapply gwp_contract; [done| | |done..|intros; gstep].
  - apply Forall_app. split; [|by apply Forall_singleton]. apply Forall_forall. intros x Hx. by apply list_elem_of_fmap in Hx as (v & -> & _).
  - unfold contract. cbn [h_name]. rewrite Hshape. exists vs, a. rewrite Ed. by split_and!.
Qed.

Ltac image_dims := intros vs Hvs; repeat match goal with H : Forall2 _ (_ :: _) _ |- _ => apply Forall2_cons_inv_l in H as (? & ? & (? & ? & ->) & H & ->) | H : Forall2 _ [] _ |- _ => apply Forall2_nil_inv_l in H as -> end; cbn [nth]; unfold int32; split_and?; first [apply scalar_of_signed; by auto|lia].

Lemma tex_image_2d_sound : sound (gl_glTexImage2D host regs).
Proof. apply image_call_sound; [done..|image_dims]. Qed.
Lemma tex_sub_image_2d_sound : sound (gl_glTexSubImage2D host regs).
Proof. apply image_call_sound; [done..|image_dims]. Qed.
Lemma read_pixels_sound : sound (gl_glReadPixels host regs).
Proof. apply image_call_sound; [done..|image_dims]. Qed.
Lemma tex_image_3d_sound : sound (gl_glTexImage3D host regs).
Proof. apply image_call_sound; [done..|image_dims]. Qed.
Lemma tex_sub_image_3d_sound : sound (gl_glTexSubImage3D host regs).
Proof. apply image_call_sound; [done..|image_dims]. Qed.

(** ** Shaders *)

(** A call that has failed changes nothing any more when it reads arguments. *)
Lemma gwp_fail_again {A} (a : A) e c s (Q : A -> Call -> Sv HostGl -> Prop) : valid_ c = false -> Q a c s -> gwp (_ ← fail host e; mret a) c s Q.
Proof. intros Hv HQ. unfold gwp, mbind, gcall_bind, fail. rewrite Hv. by apply wp_bind, wp_ret, wp_ret. Qed.

Lemma gwp_pointer_invalid t i n need c s (Q : option Z -> Call -> Sv HostGl -> Prop) : mem_wf (smem s) -> valid_ c = false -> (forall q, Q q c s) -> gwp (pointer host regs t i n need) c s Q.
Proof.
  intros Hm Hv HQ. apply gwp_bind. assert (forall v, gwp (if kGuestSpaceSize / size_of t <? n then _ ← fail host kGlInvalidValue; mret None else if v =? 0 then mret None else p ← run (guest_ptr v (n * size_of t) need); match p with None => _ ← fail host kGlInvalidValue; mret None | Some p => mret (Some p) end) c s Q) as Hk.
  { intros v. destruct (_ <? _); [by apply gwp_fail_again|]. destruct (_ =? _); [by apply gwp_ret|]. apply gwp_bind, gwp_run, wp_ptr; intros _; [by apply gwp_ret|by apply gwp_fail_again]. }
  unfold arg. destruct (_ <? 4)%nat; [apply gwp_ret, Hk|]. destruct (UINT32_MAX <? _); [apply gwp_fail_again; [done|apply Hk]|]. apply gwp_bind, gwp_run, wp_ptr; intros Ea; [|apply gwp_fail_again; [done|apply Hk]].
  apply gwp_bind, gwp_run, (wp_load _ _ _ kPageRead); [done|apply u32_range|done|done|done|]. apply gwp_ret, Hk.
Qed.

(** An array in a register that is not zero is null only when the call failed. *)
Lemma gwp_pointer_set t i n need c s p (Q : option Z -> Call -> Sv HostGl -> Prop) :
  gok p s -> call_word c -> 0 <= n -> (i < 4)%nat -> reg regs i <> 0 ->
  (forall q c' s', later p s c' s' -> ptr_okp p q (n * size_of t) need -> (q = None -> valid_ c' = false) -> Q q c' s') -> gwp (pointer host regs t i n need) c s Q.
Proof.
  intros Hs Hc Hn Hi Hr HQ. unfold pointer, arg. rewrite (proj2 (Nat.ltb_lt _ _) Hi). apply gwp_bind, gwp_ret. pose proof (reg_word regs i Hregs). change kGuestSpaceSize with (2 ^ 32). pose proof (size_of_pos t).
  destruct (Z.ltb_spec (2 ^ 32 / size_of t) n) as [|Hle]; [eapply gwp_fail_ret; [done..|]; intros c2 s2 Hv Hl; by apply HQ|]. rewrite (proj2 (Z.eqb_neq _ _) Hr).
  assert (n * size_of t <= 2 ^ 32) by (pose proof (Z.mul_div_le (2 ^ 32) (size_of t)); nia).
  apply gwp_bind, gwp_run, wp_ptr; intros Ea; [|eapply gwp_fail_ret; [done..|]; intros c2 s2 Hv Hl; by apply HQ].
  apply gwp_ret, HQ; [done| |done]. split_and!; [lia|lia|nia|lia|]. intros m Em. rewrite (accessible_same (smem s) m); [done|]. destruct Hs as [_ ?]. congruence.
Qed.

Lemma gwp_source_loop n i sources lengths items acc c s p (Q : option (list harg) -> Call -> Sv HostGl -> Prop) :
  gok p s -> call_word c -> ptr_okp p (Some sources) (items * 4) kPageRead -> ptr_okp p lengths (items * 4) kPageRead -> 0 <= i -> i + Z.of_nat n = items -> Forall (arg_okp p) acc ->
  (forall r c' s', later p s c' s' -> match r with Some l => Forall (arg_okp p) l | None => True end -> Q r c' s') -> gwp (source_loop host n i (Some sources) lengths acc) c s Q.
Proof.
  revert i acc c s. induction n as [|n IH]; intros i acc c s Hs Hc Hsrc Hlen Hi Hn Hacc HQ; cbn [source_loop]; [by apply gwp_ret, HQ|]. apply gwp_bind. eapply (gwp_word_at sources i items); [done..|lia|]. intros a Ha.
  apply gwp_bind. apply (gwp_mono _ _ _ (fun len c' s' => c' = c /\ s' = s /\ - 2 ^ 31 <= len < 2 ^ 31)).
  { destruct lengths as [l|]; [|by apply gwp_ret]. apply gwp_bind. eapply (gwp_word_at l i items); [done..|lia|]. intros w Hw. apply gwp_ret. split_and!; [done|done|apply (swrap_range 32); lia..]. }
  intros len ? ? (-> & -> & Hl). apply gwp_bind.
  assert (forall x c' s', later p s c' s' -> arg_okp p x -> gwp (v ← valid; if (v : bool) then source_loop host n (i + 1) (Some sources) lengths (acc ++ [x]) else mret None) c' s' Q) as Hnext.
  { intros x c' s' Hl' Hx. pose proof Hl' as (Hc' & _ & Hs'). apply gwp_bind, gwp_valid. destruct (valid_ c'); [|by apply gwp_ret, HQ]. eapply IH; [done..|lia|lia|apply Forall_app; split; [done|by apply Forall_singleton]|]. intros r c2 s2 Hl2 Hr. apply HQ; [by eapply later_trans|done]. }
  destruct (Z.ltb_spec len 0) as [|Hl0]; [eapply gwp_string; [done..|]; intros x c' s' Hx _ Hl'; by apply Hnext|]. destruct (a =? 0); [eapply gwp_fail_ret; [done..|]; intros c' s' _ Hl'; by apply Hnext|].
  apply gwp_bind, gwp_run, wp_ptr; intros Ea; [|eapply gwp_fail_ret; [done..|]; intros c' s' _ Hl'; by apply Hnext]. apply gwp_ret, Hnext; [done|]. intros m Em. cbn. split_and!; [lia..|]. right. rewrite (accessible_same (smem s) m); [done|]. destruct Hs as [_ ?]. congruence.
Qed.

Lemma shader_source_sound : s32 (reg regs 1) <= 0 \/ reg regs 2 <> 0 -> sound (gl_glShaderSource host regs).
Proof.
  intros Hnull. gopen. gstep. apply gwp_bind. unfold scalar. apply gwp_bind. change (arg host regs 1) with (mret (M := gcall) (reg regs 1)). apply gwp_ret, gwp_ret. cbn [scalar_of]. destruct (Z.ltb_spec (s32 (reg regs 1)) 0) as [|Hpos]; [gstep|].
  set (n := s32 (reg regs 1)) in *. assert (n < 2 ^ 31) by apply (swrap_range 32 (reg regs 1) ltac:(lia)). apply gwp_bind. unfold array_length. rewrite (proj2 (Z.ltb_ge _ _)) by done. change (negb (1 =? 0) && (UINT64_MAX / 1 <? n)) with (UINT64_MAX <? n).
  rewrite (proj2 (Z.ltb_ge _ _)) by (unfold UINT64_MAX; lia). apply gwp_ret. rewrite Z.mul_1_r, u64_small by lia.
  assert (forall q c3 s3, gok (pages_ (smem s)) s3 -> call_word c3 -> ptr_okp (pages_ (smem s)) q (n * 4) kPageRead -> (q = None -> n = 0 \/ valid_ c3 = false) ->
    gwp (lengths ← pointer host regs GLint 3 n kPageRead; if_valid (sources ← source_loop host (Z.to_nat n) 0 q lengths []; match sources with Some l => _ ← driver host "glShaderSource" ([HInt (scalar_of GLuint v); HInt n] ++ l ++ [garg lengths (n * 4) kPageRead]); mret tt | None => mret tt end)) c3 s3 (fun _ c' s' => done_ok c' s')) as Hrest.
  { intros q c3 s3 Hs3 Hc3 Hq Hqn. destruct q as [a|].
    - apply gwp_bind. eapply gwp_pointer; [done..|]. intros l c4 s4 (Hc4 & E4 & Hs4) Hl. apply gwp_if_valid; [|gdone]. intros _. apply gwp_bind. eapply (gwp_source_loop _ 0 a l n); [done..|lia|apply Forall_nil_2|]. intros [srcs|] c5 s5 (Hc5 & E5 & Hs5) Hsrcs; [|gstep].
      apply gwp_bind. eapply gwp_driver; [done|done| |intros; gstep]. do 2 (apply Forall_cons_2; [by intros|]). apply Forall_app. split; [done|]. apply Forall_singleton. by apply arg_okp_ptr.
    - destruct (Hqn eq_refl) as [->|Hv].
      + apply gwp_bind. eapply gwp_pointer; [done..|]. intros l c4 s4 (Hc4 & E4 & Hs4) Hl. apply gwp_if_valid; [|gdone]. intros _. apply gwp_bind. cbn [Z.to_nat source_loop]. apply gwp_ret.
        apply gwp_bind. eapply gwp_driver; [done|done| |intros; gstep]. do 2 (apply Forall_cons_2; [by intros|]). apply Forall_singleton. by apply arg_okp_ptr.
      + apply gwp_bind, gwp_pointer_invalid; [apply Hs3|done|]. intros l. apply gwp_if_valid; [congruence|gdone]. }
  apply gwp_bind. destruct (decide (reg regs 2 = 0)) as [E0|Hne].
  - eapply gwp_pointer; [eassumption|eassumption|done|]. intros q c3 s3 (Hc3 & E3 & Hs3) Hq. apply Hrest; [done|done|done|]. intros _. left. destruct Hnull; [lia|done].
  - eapply (gwp_pointer_set _ 2); [eassumption|eassumption|done|lia|done|]. intros q c3 s3 (Hc3 & E3 & Hs3) Hq Hqv. apply Hrest; [done|done|done|]. intros Eq. right. by apply Hqv.
Qed.

(** What comes after a part that returns faults, or all of it is fine. *)
Lemma gwp_bind_or {A B} (m : gcall A) (k : A -> gcall B) c s (P : A -> Call -> Sv HostGl -> Prop) (Q : B -> Call -> Sv HostGl -> Prop) :
  gwp m c s P -> (forall a c' s', P a c' s' -> k a c' s' = Undefined \/ gwp (k a) c' s' Q) -> (m ≫= k) c s = Undefined \/ gwp (m ≫= k) c s Q.
Proof.
  intros Hm Hk. unfold gwp, wp, runs in *. unfold mbind, gcall_bind, mbind, svc_bind. destruct (m c s) as [[[a c'] s']| |]; [|done..]. cbn in Hm. exact (Hk a c' s' Hm).
Qed.

(** Without the array of strings the call faults when it reads the first, unless it is
    refused before. *)
Lemma shader_source_null_sound c s : 0 < s32 (reg regs 1) -> reg regs 2 = 0 -> gsafe s -> call_word c ->
  gl_glShaderSource host regs c s = Undefined \/ gwp (gl_glShaderSource host regs) c s (fun _ c' s' => done_ok c' s').
Proof.
  intros Hpos H2 Hgs Hc. assert (gok (pages_ (smem s)) s) as Hs by (split; [exact Hgs|reflexivity]). set (p := pages_ (smem s)) in *. unfold gl_glShaderSource.
  assert (forall t i, (i < 4)%nat -> gwp (scalar host regs t i) c s (fun v c' s' => v = scalar_of t (reg regs i) /\ c' = c /\ s' = s)) as Hscalar.
  { intros t i Hi. unfold scalar, arg. rewrite (proj2 (Nat.ltb_lt _ _) Hi). by apply gwp_bind, gwp_ret, gwp_ret. }
  eapply gwp_bind_or; [apply Hscalar; lia|]. intros v ? ? (_ & -> & ->). eapply gwp_bind_or; [apply Hscalar; lia|]. intros n ? ? (-> & -> & ->). cbn [scalar_of]. set (n := s32 (reg regs 1)) in *. assert (n < 2 ^ 31) by apply (swrap_range 32 (reg regs 1) ltac:(lia)).
  rewrite (proj2 (Z.ltb_ge n 0)) by lia. eapply (gwp_bind_or _ _ _ _ (fun k c' s' => k = n /\ c' = c /\ s' = s)).
  { unfold array_length. rewrite (proj2 (Z.ltb_ge n 0)) by lia. change (negb (1 =? 0) && (UINT64_MAX / 1 <? n)) with (UINT64_MAX <? n). rewrite (proj2 (Z.ltb_ge _ _)) by (unfold UINT64_MAX; lia). apply gwp_ret. by rewrite Z.mul_1_r, u64_small by lia. }
  intros k ? ? (-> & -> & ->). eapply (gwp_bind_or _ _ _ _ (fun q c' s' => q = None /\ later p s c' s')).
  { unfold pointer, arg. change (2 <? 4)%nat with true. cbv iota. apply gwp_bind, gwp_ret. rewrite H2. destruct (_ <? n); [eapply gwp_fail_ret; [done..|]; by intros|]. apply gwp_ret. done. }
  intros q c3 s3 (-> & Hc3 & _ & Hs3). eapply (gwp_bind_or _ _ _ _ (fun _ c' s' => later p s3 c' s')); [eapply gwp_pointer; [done|done|lia|]; by intros|]. intros l c4 s4 (Hc4 & _ & Hs4).
  eapply (gwp_bind_or _ _ _ _ (fun b c' s' => b = valid_ c4 /\ c' = c4 /\ s' = s4)); [by apply gwp_valid|]. intros b ? ? (-> & -> & ->). destruct (valid_ c4); [left|right; apply gwp_ret; split; [done|apply Hs4]].
  destruct (Z.to_nat n) as [|m] eqn:En; [lia|reflexivity].
Qed.

(** ** Vertex arrays *)

Lemma gok_attribute p s i a : gok p s -> attribute_ok a -> gok p (Build_Sv (with_thread (own s) (with_attribute (t_state (own s)) i a)) (smem s) (scalls s)).
Proof. intros [[Hm [Hsh Ha Hu Hmp Hy Hcn]] Hp] Hn. split; [split; [done|]|done]. constructor; cbn; [by destruct Hsh| |done..]. by apply map_Forall_insert_2. Qed.

Lemma scalar_stride v : scalar_of GLsizei v < 2 ^ 31.
Proof. apply (swrap_range 32 v). lia. Qed.

(** The end of a call that defines an attribute. *)
Lemma gwp_define i a name l x c s p :
  gok p s -> call_word c -> attribute_ok a -> a_buffer a = array_buffer (t_state (own s)) -> name = "glVertexAttribPointer" \/ name = "glVertexAttribIPointer" ->
  gwp (_ ← put_thread (with_attribute (t_state (own s)) i a); if_valid (if negb (a_buffer a =? 0) then _ ← driver host name (map HInt l ++ [HInt x]); mret tt else mret tt)) c s (fun _ c' s' => done_ok c' s').
Proof.
  intros Hs Hc Ha Eb Hname. apply gwp_bind, gwp_put_thread. pose proof (gok_attribute p s i a Hs Ha) as Hs2. apply gwp_if_valid; [|gdone]. intros _. destruct (Z.eqb_spec (a_buffer a) 0) as [|Hb]; cbn [negb]; [gstep|].
  apply gwp_bind. eapply gwp_contract; [exact Hs2| | |by destruct Hname as [-> | ->]..|intros; gstep].
  - apply Forall_app. split; [|by apply Forall_singleton]. apply Forall_forall. intros y Hy. by apply list_elem_of_fmap in Hy as (v & -> & _).
  - assert (address_ok (scalls s) kGlArrayBuffer (HInt x)) as Hadr by (cbn; rewrite Eb in Hb; intros E; by apply Hb, (sh_array _ _ (gi_shadow _ _ (proj2 (proj1 Hs))))).
    destruct Hname as [-> | ->]; exists (map HInt l), (HInt x); by split.
Qed.

Lemma attrib_pointer_sound : sound (gl_glVertexAttribPointer host regs).
Proof.
  gopen. do 7 gstep. cbv zeta. eapply (gwp_define _ _ "glVertexAttribPointer" [_; _; _; _; _] _); [eassumption|assumption|split; cbn; [assumption|apply scalar_stride]|done|by left].
Qed.

Lemma attrib_ipointer_sound : sound (gl_glVertexAttribIPointer host regs).
Proof.
  gopen. do 6 gstep. cbv zeta. eapply (gwp_define _ _ "glVertexAttribIPointer" [_; _; _; _] _); [eassumption|assumption|split; cbn; [assumption|apply scalar_stride]|done|by right].
Qed.

(** The bytes of the vertices [first] to [last] may be read. *)
Definition vertices_ok (p : Z -> Z) (first last : Z) (a : Attribute) : Prop := forall v, first <= v <= last ->
  let x := guest_pointer a + v * vertex_stride a in
  0 <= x /\ x + element_bytes a <= 2 ^ 32 /\ forall m, pages_ m = p -> accessible m x (element_bytes a) kPageRead = true.

Lemma component_range t : attribute_component_bytes t = 0 \/ 1 <= attribute_component_bytes t <= 4.
Proof. unfold attribute_component_bytes. repeat case_match; lia. Qed.

Lemma range_covers p m a first last :
  pages_ m = p -> attribute_ok a -> 0 <= first <= last -> last < 2 ^ 32 -> 1 <= a_size a <= 4 -> attribute_component_bytes (a_type a) <> 0 -> 0 <= stride a ->
  guest_pointer a + last * vertex_stride a + element_bytes a <= 2 ^ 32 ->
  accessible m (guest_pointer a + first * vertex_stride a) (guest_pointer a + last * vertex_stride a + element_bytes a - (guest_pointer a + first * vertex_stride a)) kPageRead = true -> vertices_ok p first last a.
Proof.
  intros Ep [Hg Hst] Hf Hlast Hsz Hcb Hstr Hend Hacc v Hv x. destruct (component_range (a_type a)) as [?|Hc]; [done|]. assert (1 <= element_bytes a <= 16) by (unfold element_bytes; nia). assert (0 <= vertex_stride a) by (unfold vertex_stride; case_match; lia).
  assert (v * vertex_stride a <= last * vertex_stride a /\ first * vertex_stride a <= v * vertex_stride a) by nia. unfold x. split_and!; [nia|nia|]. intros m' Em. rewrite (accessible_same m m') by congruence.
  set (st := guest_pointer a + first * vertex_stride a) in *. set (n := guest_pointer a + last * vertex_stride a + element_bytes a - st) in *.
  destruct (decide (n < 2 ^ 32)) as [Hn|Hn].
  - replace (guest_pointer a + v * vertex_stride a) with (st + (v * vertex_stride a - first * vertex_stride a)) by (unfold st; lia). eapply (accessible_sub m st n); [unfold st; nia|unfold n; nia|done|nia|lia|unfold n, st; nia].
  - assert (st = 0 /\ n = 2 ^ 32) as [E0 En] by (unfold n, st in *; nia). rewrite E0, En in Hacc. apply accessible_pages in Hacc as [?|[_ Hp]]; [lia| |lia..]. apply accessible_pages; [nia..|]. right. split; [lia|]. intros k Hk. apply Hp. split; [etrans; [|apply Hk]|etrans; [apply Hk|]]; apply Z.div_le_mono; nia.
Qed.

Lemma gwp_check_arrays l first last acc c s p (Q : option (list (Z * Attribute)) -> Call -> Sv HostGl -> Prop) :
  gok p s -> call_word c -> 0 <= first <= last -> last < 2 ^ 32 -> Forall (fun x => attribute_ok (snd x)) l ->
  (forall r c' s', later p s c' s' -> match r with Some l' => c' = c /\ s' = s /\ l' = acc ++ filter (fun x => client (snd x) = true) l /\ Forall (fun x => client (snd x) = true -> vertices_ok p first last (snd x)) l | None => True end -> Q r c' s') ->
  gwp (check_arrays host l first last acc) c s Q.
Proof.
  intros Hs Hc Hf Hlast. revert acc Q. induction l as [|[i a] l IH]; intros acc Q Hl HQ; cbn [check_arrays]; [apply gwp_ret, HQ; [done|]; by rewrite filter_nil, app_nil_r|]. apply Forall_cons in Hl as [Ha Hl]. cbn in Ha.
  assert (forall e, gwp (_ ← fail host e; mret None) c s Q) as Hfail by (intros e; eapply gwp_fail_ret; [done..|]; intros c' s' _ Hl'; by apply HQ).
  destruct (client a) eqn:Ecl; cbn [negb].
  2:{ eapply IH; [done|]. intros r c' s' Hl' Hr. apply HQ; [done|]. destruct r; [|done]. destruct Hr as (-> & -> & -> & Hall). split_and!; [done|done| |by apply Forall_cons; split; [cbn; congruence|]]. rewrite filter_cons_False by (cbn; congruence). done. }
  destruct (Z.ltb_spec (a_size a) 1) as [|Hs1]; [by apply Hfail|]. destruct (Z.ltb_spec 4 (a_size a)) as [|Hs4]; [by apply Hfail|]. destruct (Z.eqb_spec (attribute_component_bytes (a_type a)) 0) as [|Hcb]; [by apply Hfail|]. destruct (Z.ltb_spec (stride a) 0) as [|Hst]; [by apply Hfail|]. cbn [orb].
  destruct (component_range (a_type a)) as [?|Hcr]; [done|]. assert (1 <= element_bytes a <= 16) as He by (unfold element_bytes; nia). destruct Ha as [Hg Hst2]. assert (1 <= vertex_stride a < 2 ^ 31) as Hvs by (unfold vertex_stride; case_match; lia).
  rewrite !checked_multiply_small by nia. unfold UINT64_MAX. rewrite (proj2 (Z.ltb_ge _ _)) by nia. change kGuestSpaceSize with (2 ^ 32). rewrite (u64_small (guest_pointer a + first * vertex_stride a)), (u64_small (guest_pointer a + last * vertex_stride a + element_bytes a)) by nia.
  destruct (Z.leb_spec (2 ^ 32) (guest_pointer a + first * vertex_stride a)) as [|Hr1]; [by apply Hfail|]. destruct (Z.ltb_spec (2 ^ 32) (guest_pointer a + last * vertex_stride a + element_bytes a)) as [|Hr2]; [by apply Hfail|].
  rewrite (proj2 (Z.ltb_ge (guest_pointer a + last * vertex_stride a + element_bytes a) _)) by nia. cbn [orb]. rewrite u32_small by nia. apply gwp_bind, gwp_run, wp_ptr; intros Ea; [|by apply Hfail].
  eapply IH; [done|]. intros r c' s' Hl' Hr. apply HQ; [done|]. destruct r; [|done]. destruct Hr as (-> & -> & -> & Hall). split_and!; [done|done| |].
  - rewrite filter_cons_True by done. by rewrite <- app_assoc.
  - apply Forall_cons. split; [|done]. intros _. cbn. eapply (range_covers p (smem s)); [apply Hs|done|lia|lia|lia|done|done|done|done].
Qed.

(** The call that gives the driver a client array. *)
Definition issue_call (x : Z * Attribute) : hostcall :=
  let '(i, a) := x in
  if integer a then {| h_name := "glVertexAttribIPointer"; h_args := [HInt i; HInt (a_size a); HInt (a_type a); HInt (stride a); HGuest (guest_pointer a) 0 kPageRead] |}
  else {| h_name := "glVertexAttribPointer"; h_args := [HInt i; HInt (a_size a); HInt (a_type a); HInt (normalized a); HInt (stride a); HGuest (guest_pointer a) 0 kPageRead] |}.

(** A driver call while the record is [h], which may differ from the bridge's for a moment. *)
Lemma gwp_driver_mem name args c s p (Q : answer -> Call -> Sv HostGl -> Prop) :
  mem_wf (smem s) -> pages_ (smem s) = p -> Forall (arg_okp p) args ->
  (forall m, mem_wf m -> pages_ m = p -> Q (host (scalls s) {| h_name := name; h_args := args |}) c (Build_Sv (own s) m (scalls s ++ [{| h_name := name; h_args := args |}]))) ->
  gwp (driver host name args) c s Q.
Proof.
  intros Hm Hp Hargs HQ. apply gwp_run, (wp_backend host Hhost); [done|by eapply arg_okp_forall|]. intros m How Hm'. apply HQ; [done|]. destruct How as (E & _). congruence.
Qed.

Lemma issue_contract h log x : gl_inv h log -> array_buffer (t_state h) = 0 -> gl_inv h (log ++ [issue_call x]).
Proof.
  intros Hi Hb. destruct x as [i a]. assert (address_ok log kGlArrayBuffer (HGuest (guest_pointer a) 0 kPageRead)) as Hadr by (cbn; intros b E; by rewrite <- (sh_array _ _ (gi_shadow _ _ Hi) b E)).
  unfold issue_call. destruct (integer a); apply gl_inv_contract; try done; cbn.
  - exists [HInt i; HInt (a_size a); HInt (a_type a); HInt (stride a)], (HGuest (guest_pointer a) 0 kPageRead). by split.
  - exists [HInt i; HInt (a_size a); HInt (a_type a); HInt (normalized a); HInt (stride a)], (HGuest (guest_pointer a) 0 kPageRead). by split.
Qed.

Lemma gwp_issue_all l h c s p (Q : unit -> Call -> Sv HostGl -> Prop) :
  mem_wf (smem s) -> pages_ (smem s) = p -> gl_inv h (scalls s) -> array_buffer (t_state h) = 0 -> Forall (fun x => attribute_ok (snd x)) l ->
  (forall s', mem_wf (smem s') -> pages_ (smem s') = p -> own s' = own s -> scalls s' = scalls s ++ map issue_call l -> gl_inv h (scalls s') -> Q tt c s') -> gwp (issue_all host l) c s Q.
Proof.
  revert s. induction l as [|[i a] l IH]; intros s Hm Hp Hi Hb Hl HQ; cbn [issue_all]; [apply gwp_ret, HQ; [done..|by rewrite app_nil_r|done]|]. apply Forall_cons in Hl as [[Ha _] Hl]. cbn in Ha.
  assert (arg_okp p (HGuest (guest_pointer a) 0 kPageRead)) as Hok by (intros m _; cbn; split_and!; [lia..|by left]).
  assert (forall m, mem_wf m -> pages_ m = p -> gwp (mret tt) c (Build_Sv (own s) m (scalls s ++ [issue_call (i, a)])) (fun _ c' s' => gwp (issue_all host l) c' s' Q)) as Hnext.
  { intros m Hm' Hp'. apply gwp_ret. apply IH; [done|done|by apply issue_contract|done|done|]. intros s' H1 H2 H3 H4 H5. apply HQ; [done|done|done| |done]. rewrite H4. cbn [scalls map]. by rewrite <- app_assoc. }
  apply gwp_bind. unfold issue. cbv beta iota zeta. apply gwp_bind. unfold issue_call in Hnext. destruct (integer a); (eapply gwp_driver_mem; [done|done|gargs|]); intros m Hm' Hp'; by apply Hnext.
Qed.

(** The record while the array buffer is unbound. *)
Definition unbound (h : HostGl) : HostGl := with_thread h (note_bind_buffer (t_state h) kGlArrayBuffer 0).

Lemma rebind_same h : with_thread (unbound h) (note_bind_buffer (t_state (unbound h)) kGlArrayBuffer (array_buffer (t_state h))) = h.
Proof. destruct h as [[] ? ?]. done. Qed.

Lemma gl_inv_bind h log b : gl_inv h log -> gl_inv (with_thread h (note_bind_buffer (t_state h) kGlArrayBuffer b)) (log ++ [{| h_name := "glBindBuffer"; h_args := [HInt kGlArrayBuffer; HInt b] |}]).
Proof. intros Hi. apply gl_inv_record; [done|apply shadow_bind; [done|done|apply Hi]|done|done|done|done|exact I]. Qed.

(** What a successful preparation of a draw shows: the vertices of every client array may be
    read, and the driver has its address. *)
Definition arrays_ready (p : Z -> Z) (first last : Z) (s s' : Sv HostGl) : Prop :=
  map_Forall (fun _ a => client a = true -> vertices_ok p first last a) (attributes (t_state (own s))) /\
  exists cs, scalls s' = scalls s ++ cs /\ forall i a, attributes (t_state (own s)) !! i = Some a -> client a = true -> issue_call (i, a) ∈ cs.

Lemma gwp_materialize first last c s p (Q : bool -> Call -> Sv HostGl -> Prop) :
  gok p s -> call_word c -> 0 <= first <= last -> last < 2 ^ 32 ->
  (forall b c' s', later p s c' s' -> (b = true -> arrays_ready p first last s s') -> Q b c' s') -> gwp (materialize_client_arrays host first last) c s Q.
Proof.
  intros Hs Hc Hf Hl HQ. unfold materialize_client_arrays. gstep. apply gwp_bind. set (t := t_state (own s)). pose proof (proj2 (proj1 Hs)) as Hi.
  eapply gwp_check_arrays; [done..| |]. { apply Forall_forall. intros [i a] Hx%elem_of_map_to_list. by apply (gi_attributes _ _ Hi i a). }
  intros [l|] c1 s1 Hl1 Hr; [|apply gwp_ret, HQ; done]. destruct Hr as (-> & -> & -> & Hall). cbn [app]. set (l := filter _ (map_to_list (attributes t))).
  assert (Forall (fun x => attribute_ok (snd x)) l) as Hok. { apply Forall_forall. intros [i a] Hx. apply list_elem_of_filter in Hx as [_ Hx%elem_of_map_to_list]. by apply (gi_attributes _ _ Hi i a). }
  assert (forall s' cs, later p s c s' -> scalls s' = scalls s ++ cs -> (forall x, x ∈ map issue_call l -> x ∈ cs) -> Q true c s') as Hend.
  { intros s' cs Hl' Elog Hcs. apply HQ; [done|]. intros _. split.
    - intros i a Ea Hcl. rewrite Forall_forall in Hall. apply (Hall (i, a)); [by apply elem_of_map_to_list|done].
    - exists cs. split; [done|]. intros i a Ea Hcl. apply Hcs, list_elem_of_fmap. exists (i, a). split; [done|]. apply list_elem_of_filter. split; [done|by apply elem_of_map_to_list]. }
  cbv zeta. destruct (negb (bool_decide (l = [])) && negb (array_buffer t =? 0)) eqn:Er.
  - apply gwp_bind. apply gwp_bind. eapply gwp_driver_mem; [apply Hs|apply Hs|gargs|]. intros m Hm Hp. apply gwp_ret. apply gwp_bind. eapply (gwp_issue_all l (unbound (own s))); [done|done|by apply gl_inv_bind|done|done|]. intros s2 Hm2 Hp2 E2 El2 Hi2.
    apply gwp_bind, gwp_bind. eapply gwp_driver_mem; [done|done|gargs|]. intros m3 Hm3 Hp3. apply gwp_ret, gwp_ret. eapply Hend.
    + split; [done|]. split; [exact E2|]. split; [split; [done|]|done]. pose proof (gl_inv_bind _ _ (array_buffer t) Hi2) as Hi3. unfold t in Hi3. rewrite rebind_same in Hi3. cbn. rewrite E2. exact Hi3.
    + cbn [scalls]. rewrite El2. cbn [scalls]. rewrite <- !app_assoc. reflexivity.
    + intros x Hx. apply elem_of_cons. right. apply elem_of_app. by left.
  - assert (l = [] \/ array_buffer t = 0) as Hcase by (apply andb_false_iff in Er as [Er|Er]; apply negb_false_iff in Er; [left; by apply bool_decide_eq_true in Er|right; by apply Z.eqb_eq]).
    apply gwp_bind, gwp_ret, gwp_bind. destruct Hcase as [->|Hb].
    + apply gwp_ret. apply gwp_bind, gwp_ret, gwp_ret. apply (Hend s []); [done|by rewrite app_nil_r|by intros x Hx%elem_of_nil].
    + eapply (gwp_issue_all l (own s)); [apply Hs|apply Hs|done|done|done|]. intros s2 Hm2 Hp2 E2 El2 Hi2. apply gwp_bind, gwp_ret, gwp_ret. apply (Hend s2 (map issue_call l)); [|done|done]. split; [done|]. split; [done|]. split; [split; [done|by rewrite E2]|done].
Qed.

Lemma gwp_prepare_arrays first count c s p (Q : bool -> Call -> Sv HostGl -> Prop) :
  gok p s -> call_word c -> int32 first -> int32 count ->
  (forall b c' s', later p s c' s' -> (b = true -> 0 < count -> 0 <= first /\ arrays_ready p first (first + count - 1) s s') -> Q b c' s') -> gwp (prepare_arrays host first count) c s Q.
Proof.
  intros Hs Hc Hf Hcnt HQ. unfold prepare_arrays, int32 in *. destruct (Z.ltb_spec 0 count) as [Hpos|]; [|apply gwp_ret, HQ; [done|lia]]. destruct (Z.ltb_spec first 0) as [|H0]; [apply gwp_ret, HQ; [done|done]|].
  eapply gwp_materialize; [done|done|lia|lia|]. intros b c' s' Hl Hr. apply HQ; [done|]. intros Hb _. split; [done|by apply Hr].
Qed.

Lemma int32_scalar t v : t = GLsizei \/ t = GLint -> int32 (scalar_of t v).
Proof. intros Ht. apply scalar_of_signed. naive_solver. Qed.

Lemma draw_arrays_sound : sound (gl_glDrawArrays host regs).
Proof. gopen. do 4 gstep. apply gwp_bind. eapply gwp_prepare_arrays; [eassumption..|apply int32_scalar; by auto|apply int32_scalar; by auto|]. intros [] cz sz (? & ? & ?) _; repeat gstep. Qed.

Lemma draw_instanced_sound : sound (gl_glDrawArraysInstanced host regs).
Proof. gopen. do 5 gstep. apply gwp_bind. eapply gwp_prepare_arrays; [eassumption..|apply int32_scalar; by auto|apply int32_scalar; by auto|]. intros [] cz sz (? & ? & ?) _; repeat gstep. Qed.

(** ** Element arrays *)

Definition index_at (m : GuestMemory) (q w k : Z) : Z := le (bytes_at m (q + k * w) (Z.to_nat w)).

Lemma wp_max_index n q i w acc total s :
  mem_wf (smem s) -> 0 <= q < 2 ^ 32 -> 0 < total < 2 ^ 40 -> accessible (smem s) q total kPageRead = true -> w = 1 \/ w = 2 \/ w = 4 -> 0 <= i -> (i + Z.of_nat n) * w <= total -> 0 <= acc < 2 ^ 32 ->
  wp False (max_index_loop n q i w acc) s (fun r s' => s' = s /\ acc <= r < 2 ^ 32 /\ forall k, i <= k < i + Z.of_nat n -> index_at (smem s) q w k <= r).
Proof.
  intros Hm Hq Ht Hacc Hw. revert i acc. induction n as [|n IH]; intros i acc Hi Hend Ha; cbn [max_index_loop]; [apply wp_ret; split_and!; [done|lia|lia|intros; lia]|].
  apply accessible_pages in Hacc as Hp; [|lia..]. destruct Hp as [?|[Hb Hp]]; [lia|]. assert (0 < w <= 4) as Hw4 by lia. apply wp_bind, (wp_load _ _ _ kPageRead); [done|nia|rewrite Z2Nat.id; lia| |done|].
  { rewrite Z2Nat.id by lia. apply accessible_pages; [nia..|]. right. split; [nia|]. intros k Hk. apply Hp. split; [etrans; [|apply Hk]|etrans; [apply Hk|]]; apply Z.div_le_mono; nia. }
  fold (index_at (smem s) q w i). assert (0 <= index_at (smem s) q w i < 2 ^ 32) as Hv.
  { pose proof (le_range _ (bytes_at_ok (smem s) (q + i * w) (Z.to_nat w))) as Hr. rewrite length_bytes_at, Z2Nat.id in Hr by lia. unfold index_at. destruct Hw as [-> | [-> | ->]]; lia. }
  eapply wp_mono; [apply IH; [lia|nia|lia]|]. intros r s' (-> & Hr & Hall). split_and!; [done|lia|lia|]. intros k Hk. destruct (decide (k = i)) as [->|]; [lia|]. apply Hall. lia.
Qed.

(** The indices the driver gets, and the vertices they may name. *)
Definition elements_ok (past : list hostcall) (p : Z -> Z) (count type : Z) (a : harg) : Prop :=
  arg_okp p a /\ address_ok past kGlElementArrayBuffer a /\ match a with HGuest _ n _ => n = count * element_index_bytes type | _ => True end.

Definition elements_ready (p : Z -> Z) (count type : Z) (a : harg) (s s' : Sv HostGl) : Prop :=
  0 < count -> exists last, arrays_ready p 0 last s s' /\ match a with HGuest q _ _ => forall k, 0 <= k < count -> index_at (smem s) q (element_index_bytes type) k <= last | _ => last = count - 1 end.

Lemma gwp_prepare_elements count type indices c s p (Q : option harg -> Call -> Sv HostGl -> Prop) :
  gok p s -> call_word c -> int32 count -> 0 <= indices < 2 ^ 32 ->
  (forall r c' s', later p s c' s' -> match r with Some a => elements_ok (scalls s') p count type a /\ elements_ready p count type a s s' | None => True end -> Q r c' s') -> gwp (prepare_elements host count type indices) c s Q.
Proof.
  intros Hs Hc Hcnt Hind HQ. unfold prepare_elements, int32 in *. assert (forall e, gwp (_ ← fail host e; mret None) c s Q) as Hfail by (intros e; eapply gwp_fail_ret; [done..|]; intros c' s' _ Hl'; by apply HQ).
  destruct (Z.ltb_spec count 0) as [|H0]; [by apply Hfail|]. gstep.
  assert (forall s', own s' = own s -> gok p s' -> recorded (element_array_buffer (t_state (own s))) kGlElementArrayBuffer (scalls s')) as Hsh by (intros s' <- Hs'; apply (sh_element _ _ (gi_shadow _ _ (proj2 (proj1 Hs'))))).
  (* the end, from indices that are known *)
  assert (forall a last, arg_okp p a -> 0 <= last < 2 ^ 32 -> (forall s', own s' = own s -> gok p s' -> elements_ok (scalls s') p count type a) ->
    (0 < count -> match a with HGuest q _ _ => forall k, 0 <= k < count -> index_at (smem s) q (element_index_bytes type) k <= last | _ => last = count - 1 end) ->
    gwp (if 0 <? count then go ← materialize_client_arrays host 0 last; mret (if (go : bool) then Some a else None) else mret (Some a)) c s Q) as Hend.
  { intros a last Ha Hlast Hel Hidx. destruct (Z.ltb_spec 0 count) as [Hpos|].
    - apply gwp_bind. eapply gwp_materialize; [done|done|lia|lia|]. intros b c' s' Hl Hr. apply gwp_ret, HQ; [done|]. destruct b; [|done]. split; [apply Hel; apply Hl|]. intros _. exists last. split; [by apply Hr|by apply Hidx].
    - apply gwp_ret, HQ; [done|]. split; [by apply Hel|]. intros ?; lia. }
  apply gwp_bind. destruct (Z.eqb_spec (element_array_buffer (t_state (own s))) 0) as [Hb|Hb].
  - cbv zeta. destruct (Z.eqb_spec (element_index_bytes type) 0) as [|Hw]; [apply gwp_bind; eapply gwp_fail; [done..|]; intros c' s' _ Hc' E' Hs'; apply gwp_ret, gwp_ret; by apply HQ|].
    assert (element_index_bytes type = 1 \/ element_index_bytes type = 2 \/ element_index_bytes type = 4) as Hw' by (unfold element_index_bytes in *; repeat case_match; naive_solver). set (w := element_index_bytes type) in *.
    assert (forall q last, (q = None \/ q = Some indices /\ accessible (smem s) indices (count * w) kPageRead = true) -> 0 <= last < 2 ^ 32 -> (q = None -> count = 0) -> (0 < count -> forall k, 0 <= k < count -> index_at (smem s) indices w k <= last) ->
      gwp (if 0 <? count then go ← materialize_client_arrays host 0 last; mret (if (go : bool) then Some (garg q (count * w) kPageRead) else None) else mret (Some (garg q (count * w) kPageRead))) c s Q) as Hgo.
    { intros q last Hq Hlast Hnone Hidx. apply Hend; [|done| |].
      - destruct Hq as [->|[-> Hacc]]; [done|]. intros m Em. cbn. split_and!; [lia|lia|nia|nia|]. right. rewrite (accessible_same (smem s) m); [done|]. destruct Hs as [_ ?]. congruence.
      - intros s' E' Hs'. unfold elements_ok. fold w. split_and!.
        + destruct Hq as [->|[-> Hacc]]; [done|]. intros m Em. cbn. split_and!; [lia|lia|nia|nia|]. right. rewrite (accessible_same (smem s) m); [done|]. destruct Hs as [_ ?]. congruence.
        + destruct q; [|done]. cbn. intros b E. by rewrite <- (Hsh s' E' Hs' b E).
        + by destruct q.
      - intros Hpos. destruct Hq as [->|[-> Hacc]]; [specialize (Hnone eq_refl); lia|]. cbn. by apply Hidx. }
    destruct (Z.eqb_spec count 0) as [Ec|Hc0].
    + rewrite Ec in *. cbn [andb negb]. apply gwp_bind. destruct (indices =? 0).
      * apply gwp_ret. apply gwp_bind, gwp_ret, gwp_ret. apply Hgo; [by left|lia|done|lia].
      * apply gwp_run, wp_ptr; intros Ea; apply gwp_bind; [apply gwp_run, wp_ret|apply gwp_ret]; apply gwp_ret; apply Hgo; by auto with lia.
    + cbn [andb negb]. apply gwp_bind, gwp_run, wp_ptr; intros Ea.
      * rewrite bool_decide_eq_false_2 by done. apply gwp_bind, gwp_run. eapply wp_mono; [apply (wp_max_index _ _ _ _ _ (count * w)); [apply Hs|done|nia|done|done|lia|nia|lia]|]. intros r s' (-> & Hr & Hall). apply gwp_ret. apply Hgo; [by right|lia|done|]. intros _ k Hk. apply Hall. lia.
      * rewrite bool_decide_eq_true_2 by done. apply gwp_bind. eapply gwp_fail; [done..|]. intros c' s' _ Hc' E' Hs'. apply gwp_ret, gwp_ret. by apply HQ.
  - apply gwp_ret. apply Hend; [done|case_match; lia| |].
    + intros s' E' Hs'. split_and!; [done| |done]. cbn. intros E. by apply Hb, (Hsh s' E' Hs').
    + intros Hpos. cbn. rewrite (proj2 (Z.ltb_lt _ _)) by done. done.
Qed.

Lemma gwp_draw_elements name count type indices args c s p :
  gok p s -> call_word c -> int32 count -> 0 <= indices < 2 ^ 32 -> (forall past a, elements_ok past p count type a -> contract past {| h_name := name; h_args := args a |} /\ Forall (arg_okp p) (args a)) ->
  String.eqb name "glPixelStorei" = false -> String.eqb name "glBindBuffer" = false ->
  existsb (String.eqb name) ["glMapBufferRange"; "glMapBufferOES"; "glUnmapBuffer"; "glUnmapBufferOES"] = false -> existsb (String.eqb name) ["glFenceSync"; "glDeleteSync"] = false ->
  gwp (draw_elements host name count type indices args) c s (fun _ c' s' => done_ok c' s').
Proof.
  intros Hs Hc Hcnt Hind Hcon H1 H2 H3 H4. apply gwp_if_valid; [|gdone]. intros _. apply gwp_bind. eapply gwp_prepare_elements; [done..|]. intros [a|] c' s' (Hc' & E' & Hs') Ha; [|gstep]. destruct Ha as [Ha _].
  destruct (Hcon (scalls s') a Ha) as [Hc1 Hc2]. apply gwp_bind. eapply gwp_contract; [done..|]. intros. gstep.
Qed.

Lemma draw_elements_sound : sound (gl_glDrawElements host regs).
Proof.
  gopen. do 4 gstep. eapply gwp_draw_elements; [eassumption|assumption|apply int32_scalar; by auto|assumption| |done..]. intros past a (Ha1 & Ha2 & Ha3). split; [|gargs]. by eexists _, _, _, a, [].
Qed.
Lemma draw_elements_instanced_sound : sound (gl_glDrawElementsInstanced host regs).
Proof.
  gopen. do 5 gstep. eapply gwp_draw_elements; [eassumption|assumption|apply int32_scalar; by auto|assumption| |done..]. intros past a (Ha1 & Ha2 & Ha3). split; [|gargs]. by eexists _, _, _, a, [_].
Qed.
Lemma draw_range_sound : sound (gl_glDrawRangeElements host regs).
Proof.
  gopen. do 6 gstep. eapply gwp_draw_elements; [eassumption|assumption|apply int32_scalar; by auto|assumption| |done..]. intros past a (Ha1 & Ha2 & Ha3). split; [|gargs]. by eexists _, _, _, _, _, a.
Qed.

Lemma get_attrib_pointer_sound : sound (gl_glGetVertexAttribPointerv host regs).
Proof.
  gopen. do 4 gstep. destruct q as [a|]; [|gstep]. gstep. match goal with H : ptr_okp _ _ _ _ |- _ => destruct H as (Ha & _ & Hacc) end. eapply (gwp_store a _ 4 RW); [eassumption|lia|unfold size; rewrite length_to_le; lia|apply Hacc; match goal with H : gok _ _ |- _ => apply H end|done|]. intros. gdone.
Qed.

(** ** Sync objects *)

#[local] Arguments sync_count : simpl never.

Lemma sync_count_cons w x l : sync_count w (x :: l) = Z.b2z (x =? w) + sync_count w l.
Proof. done. Qed.

Lemma sync_count_app w l k : sync_count w (l ++ k) = sync_count w l + sync_count w k.
Proof. induction l as [|x l IH]; [done|]. rewrite <- app_comm_cons, !sync_count_cons, IH. lia. Qed.

Lemma sync_count_insert w l i x y : l !! i = Some x -> sync_count w (<[i := y]> l) = sync_count w l - Z.b2z (x =? w) + Z.b2z (y =? w).
Proof.
  revert i. induction l as [|z l IH]; intros [|i] Hi; [done|done|..].
  - injection Hi as ->. change (<[0%nat := y]> (x :: l)) with (y :: l). rewrite !sync_count_cons. lia.
  - change (<[S i := y]> (z :: l)) with (z :: <[i := y]> l). rewrite !sync_count_cons, (IH i Hi). lia.
Qed.

Lemma register_count w l sync : w <> 0 -> sync_count w (snd (register_sync l sync)) = sync_count w l + Z.b2z (sync =? w).
Proof.
  intros Hw. unfold register_sync. destruct (Z.eqb_spec sync 0) as [->|Hs]; cbn [snd]; [rewrite (proj2 (Z.eqb_neq 0 w)) by done; cbn; lia|].
  destruct (list_find _ l) as [[i x]|] eqn:Ef; cbn [snd].
  - apply list_find_Some in Ef as (Hi & -> & _). rewrite (sync_count_insert _ _ _ 0) by done. rewrite (proj2 (Z.eqb_neq 0 w)) by done. cbn. lia.
  - rewrite sync_count_app, sync_count_cons. change (sync_count w []) with 0. lia.
Qed.

Lemma release_count w l handle : 0 <= handle -> w <> 0 -> sync_count w (snd (release_sync l handle)) = sync_count w l - Z.b2z (fst (release_sync l handle) =? w).
Proof.
  intros H0 Hw. unfold release_sync. destruct (Z.eqb_spec handle 0) as [|Hh]; cbn [orb fst snd]; [rewrite (proj2 (Z.eqb_neq 0 w)) by done; cbn; lia|].
  destruct (Z.ltb_spec (Z.of_nat (length l)) handle) as [|Hl]; cbn [orb fst snd]; [rewrite (proj2 (Z.eqb_neq 0 w)) by done; cbn; lia|].
  rewrite (sync_count_insert _ _ _ (nth (Z.to_nat (handle - 1)) l 0)); [rewrite (proj2 (Z.eqb_neq 0 w)) by done; cbn; lia|]. rewrite nth_lookup. destruct (lookup_lt_is_Some_2 l (Z.to_nat (handle - 1))) as [x Ex]; [lia|by rewrite Ex].
Qed.

(** The table follows the calls that make and delete sync objects. *)
Lemma gl_inv_sync h log c l :
  gl_inv h log -> h_name c = "glFenceSync" \/ h_name c = "glDeleteSync" -> (forall w, w <> 0 -> sync_count w l = sync_count w (sync_objects h) + sync_delta w log c) -> gl_inv (with_syncs h l) (log ++ [c]).
Proof.
  intros [Hs Ha Hu Hm Hy Hc] En Hl. assert (String.eqb (h_name c) "glPixelStorei" = false /\ String.eqb (h_name c) "glBindBuffer" = false /\ existsb (String.eqb (h_name c)) ["glMapBufferRange"; "glMapBufferOES"; "glUnmapBuffer"; "glUnmapBufferOES"] = false /\ contract log c) as (N1 & N2 & N3 & Hcon) by (unfold contract; destruct En as [-> | ->]; done).
  constructor; cbn; [|done|done| | |by apply (contracts_snoc contract)].
  - eapply shadow_same; [| |done]; intros x; [by apply alignment_other|intros b E; by apply (bound_other c)].
  - intros t m E. rewrite mapped_other by done. by apply Hm.
  - intros w Hw. rewrite log_total_snoc, Hl, (Hy w Hw) by done. done.
Qed.

Lemma fence_sync_sound : sound (gl_glFenceSync host regs).
Proof.
  gopen. do 3 gstep. apply gwp_bind. eapply gwp_driver_raw; [eassumption|gargs|]. intros m Hm Hp. gstep. cbn [own].
  match goal with |- context [register_sync ?l ?x] => pose proof (fun w => register_count w l x) as Hcount; destruct (register_sync l x) as [handle l'] end.
  apply gwp_bind, gwp_run, wp_put_own, gwp_result. intros cz Hcz. split; [done|]. split; [done|]. cbn [own scalls]. apply gl_inv_sync; [|by left|done].
  match goal with H : gok _ s'0 |- _ => apply H end.
Qed.

Lemma is_sync_sound : sound (gl_glIsSync host regs).
Proof. gcall_tac. Qed.

Lemma delete_sync_sound : sound (gl_glDeleteSync host regs).
Proof.
  gopen. do 3 gstep; [gstep|]. gstep. pose proof (fun w => release_count w (sync_objects (own s')) v) as Hcount. destruct (release_sync _ _) as [sync l] eqn:Er. cbn [fst snd] in Hcount.
  match goal with H : gok _ s' |- _ => pose proof H as [[Hm Hi] Hp] end.
  apply gwp_bind, gwp_run, wp_put_own. destruct (Z.eqb_spec sync 0) as [->|Hne].
  - assert (gok (pages_ (smem s)) (Build_Sv (with_syncs (own s') l) (smem s') (scalls s'))) as Hz.
    { split; [|done]. split; [done|]. destruct Hi as [Hi1 Hi2 Hi3 Hi4 Hi5 Hi6]. constructor; try done. intros w Hw. cbn. rewrite Hcount, Hi5 by (done || lia). rewrite (proj2 (Z.eqb_neq 0 w)) by done. cbn. lia. }
    gstep.
  - apply gwp_bind. eapply gwp_driver_mem; [done|done|gargs|]. intros m Hm' Hp'. apply gwp_ret. split; [done|]. split; [done|]. cbn [own scalls]. apply gl_inv_sync; [done|by right|]. intros w Hw. rewrite Hcount by (done || lia). done.
Qed.

Lemma gwp_resolve i c s p (Q : option Z -> Call -> Sv HostGl -> Prop) :
  gok p s -> call_word c -> (forall r c' s', later p s c' s' -> Q r c' s') -> gwp (resolve_sync host regs i) c s Q.
Proof.
  intros Hs Hc HQ. unfold resolve_sync. do 2 gstep. gstep; [by apply gwp_ret, HQ|]. gstep. cbv zeta. gstep; [|by apply gwp_ret, HQ]. gstep. apply gwp_ret, HQ. split_and!; [done|congruence|done].
Qed.

Ltac gresolve := gopen; apply gwp_bind; eapply gwp_resolve; [eassumption..|]; intros [sync|] cz sz (? & ? & ?); [|gstep].
Lemma client_wait_sound : sound (gl_glClientWaitSync host regs).
Proof. gresolve. repeat gstep. Qed.
Lemma wait_sync_sound : sound (gl_glWaitSync host regs).
Proof. gresolve. repeat gstep. Qed.
Lemma get_sync_sound : sound (gl_glGetSynciv host regs).
Proof. gresolve. repeat gstep. Qed.

(** ** Mapped buffers *)

Definition map_calls : list string := ["glMapBufferRange"; "glMapBufferOES"; "glUnmapBuffer"; "glUnmapBufferOES"].

Lemma gwp_change f c s (Q : unit -> Call -> Sv HostGl -> Prop) : Q tt c (Build_Sv (f (own s)) (smem s) (scalls s)) -> gwp (change f) c s Q.
Proof. intros H. apply gwp_run, wp_bind, wp_get_own. by apply wp_put_own. Qed.

Lemma gwp_find_mapping target c s (Q : option BufferMapping -> Call -> Sv HostGl -> Prop) : Q (mappings (own s) !! target) c s -> gwp (find_mapping target) c s Q.
Proof. intros H. apply gwp_bind, gwp_own. by apply gwp_ret. Qed.

Lemma mapped_guest t log cs : Forall (fun c => h_name c = "guest") cs -> mapped t (log ++ cs) = mapped t log.
Proof.
  induction cs as [|c cs IH] using rev_ind; intros H; [by rewrite app_nil_r|]. apply Forall_app in H as [H1 [H2 _]%Forall_cons_1]. cbn beta in H2. rewrite app_assoc, mapped_other by (by rewrite H2). by apply IH.
Qed.

(** A call that maps or unmaps a target the table has nothing for. *)
Lemma gl_inv_map h log c :
  gl_inv h log -> h_name c ∈ map_calls -> (forall t m, mappings h !! t = Some m -> live_step t log (mapped t log) c = mapped t log) -> gl_inv h (log ++ [c]).
Proof.
  intros [Hs Ha Hu Hm Hy Hc] En Hl.
  assert (String.eqb (h_name c) "glPixelStorei" = false /\ String.eqb (h_name c) "glBindBuffer" = false /\ existsb (String.eqb (h_name c)) ["glFenceSync"; "glDeleteSync"] = false /\ contract log c) as (N1 & N2 & N3 & Hcon).
  { unfold contract, map_calls in *. rewrite !elem_of_cons, elem_of_nil in En. destruct En as [-> | [-> | [-> | [-> | []]]]]; done. }
  constructor; [|done|done| | |by apply (contracts_snoc contract)].
  - eapply shadow_same; [| |done]; intros x; [by apply alignment_other|intros b E; by apply (bound_other c)].
  - intros t m E. rewrite mapped_snoc, (Hl t m E). by apply Hm.
  - intros w Hw. rewrite syncs_other by done. by apply Hy.
Qed.

Lemma live_step_other name target args t past v : name ∈ map_calls -> t <> target -> (name ∈ ["glUnmapBuffer"; "glUnmapBufferOES"] -> args = []) -> live_step t past v {| h_name := name; h_args := HInt target :: args |} = v.
Proof.
  intros Hn Ht Ha. unfold live_step, map_calls in *. cbn [h_name h_args]. rewrite !elem_of_cons, elem_of_nil in Hn. rewrite !elem_of_cons, elem_of_nil in Ha. assert ((target =? t) = false) as E by (apply Z.eqb_neq; congruence).
  destruct Hn as [-> | [-> | [-> | [-> | []]]]]; cbn; rewrite ?E; try done; [by destruct args as [|[] [|[] ?]]|..]; by rewrite Ha by tauto.
Qed.

Lemma gwp_driver_map name target args c s p (Q : answer -> Call -> Sv HostGl -> Prop) :
  gok p s -> name ∈ map_calls -> (name ∈ ["glUnmapBuffer"; "glUnmapBufferOES"] -> args = []) -> Forall (arg_okp p) args -> mappings (own s) !! target = None ->
  (forall s', own s' = own s -> scalls s' = scalls s ++ [{| h_name := name; h_args := HInt target :: args |}] -> gok p s' -> Q (host (scalls s) {| h_name := name; h_args := HInt target :: args |}) c s') -> gwp (driver host name (HInt target :: args)) c s Q.
Proof.
  intros Hs Hn Ha Hargs Hnone HQ. eapply gwp_driver_raw; [done|by apply Forall_cons_2|]. intros m Hm Hp. apply HQ; [done|done|]. split; [split; [done|]|done]. apply gl_inv_map; [apply Hs|done|].
  intros t b E. cbn [own] in E. apply live_step_other; [done|intros ->; by rewrite E in Hnone|done].
Qed.

Lemma gwp_mirror_block n target unmap c s p (Q : option Z -> Call -> Sv HostGl -> Prop) :
  gok p s -> call_word c -> unmap = "glUnmapBuffer" \/ unmap = "glUnmapBufferOES" -> mappings (own s) !! target = None ->
  (forall c' s' p', call_word c' -> gok p' s' -> Q None c' s') ->
  (forall a s' p', own s' = own s -> (forall t, mapped t (scalls s') = mapped t (scalls s)) -> gok p' s' -> 0 < a < 2 ^ 32 -> accessible (smem s') a n RW = true -> Q (Some a) c s') ->
  gwp (mirror_block host guest malloc_fn free_fn n target unmap) c s Q.
Proof.
  intros Hs Hc Hu Hnone HQ1 HQ2. unfold mirror_block.
  assert (forall s1 p1, own s1 = own s -> gok p1 s1 -> gwp (_ ← driver host unmap [HInt target]; _ ← reject host kGlOutOfMemory; mret None) c s1 Q) as Hback.
  { intros s1 p1 E1 Hs1. apply gwp_bind. eapply gwp_driver_map; [done|unfold map_calls; set_solver|done|done|by rewrite E1|]. intros s2 _ _ Hs2. gstep. by eapply gwp_ret, HQ1. }
  apply gwp_bind. eapply gwp_allocate; [done|]. intros [a|] s1 p1 cs Ha Eo El Hcs Hs1; apply gwp_bind; [|apply gwp_ret, gwp_bind, gwp_ret; by eapply Hback].
  apply gwp_run, wp_ptr; intros Ea; [|apply gwp_bind; eapply gwp_free; [done|]; intros s2 p2 E2 Hs2; eapply Hback; [congruence|done]].
  apply gwp_ret. eapply HQ2; [done| |done|done|done]. intros t. by rewrite El, mapped_guest.
Qed.

Lemma length_host_bytes r n : length (host_bytes r n) = n.
Proof. unfold host_bytes. by rewrite length_map, length_seq. Qed.

Lemma gwp_copy_in a data n target c s p (Q : unit -> Call -> Sv HostGl -> Prop) :
  gok p s -> 0 < a < 2 ^ 32 -> 0 < n < 2 ^ 31 -> accessible (smem s) a n RW = true -> mapped target (scalls s) = Some (data, n) ->
  (forall s', own s' = own s -> mapped target (scalls s') = Some (data, n) -> gok p s' -> Q tt c s') -> gwp (copy_in host a data n) c s Q.
Proof.
  intros Hs Ha Hn Hacc Hmap HQ. apply gwp_bind. eapply gwp_driver_raw; [done|gargs|]. intros m Hm Hp. set (call := {| h_name := "memcpy_from"; h_args := _ |}).
  assert (gok p (Build_Sv (own s) m (scalls s ++ [call]))) as Hs1 by (split; [split; [done|]|done]; apply gl_inv_contract; [apply Hs|by exists data, n, target, data, n|done..]).
  eapply (gwp_store a _ n RW); [exact Hs1|lia|unfold size; rewrite length_host_bytes, Z2Nat.id; lia|rewrite (accessible_same (smem s)); [done|]; destruct Hs as [_ E]; cbn; congruence|done|].
  intros s' E1 E2 Hs'. apply HQ; [done| |done]. rewrite E2. cbn [scalls]. by rewrite mapped_other.
Qed.

Lemma gl_inv_add h log target m : gl_inv h log -> mapping_ok m -> mapped target log = Some (m_data m, m_length m) -> gl_inv (with_mappings h (<[target := m]> (mappings h))) log.
Proof.
  intros [Hs Ha Hu Hm Hy Hc] Hok Hmap. constructor; try done. intros t b E. cbn in E. apply lookup_insert_Some in E as [[-> ->]|[_ E]]; [done|by apply Hm].
Qed.

Lemma gl_inv_drop h log target : gl_inv h log -> gl_inv (with_mappings h (delete target (mappings h))) log.
Proof. intros [Hs Ha Hu Hm Hy Hc]. constructor; try done. intros t b E. cbn in E. apply lookup_delete_Some in E as [_ E]. by apply Hm. Qed.

(** The end of both calls that map: the mirror is filled, entered and returned. *)
Lemma gwp_enter (fill : bool) a data n access target c s p :
  gok p s -> call_word c -> 0 < a < 2 ^ 32 -> 0 < n < 2 ^ 31 -> accessible (smem s) a n RW = true -> mapped target (scalls s) = Some (data, n) ->
  gwp (_ ← (if fill then copy_in host a data n else mret tt); _ ← add_mapping target {| m_guest := a; m_data := data; m_length := n; m_access := access |}; set_result a) c s (fun _ c' s' => done_ok c' s').
Proof.
  intros Hs Hc Ha Hn Hacc Hmap.
  assert (forall s', mapped target (scalls s') = Some (data, n) -> gok p s' -> gwp (_ ← add_mapping target {| m_guest := a; m_data := data; m_length := n; m_access := access |}; set_result a) c s' (fun _ c' s' => done_ok c' s')) as Hend.
  { intros s' Hmap' Hs'. apply gwp_bind, gwp_change, gwp_result. intros c' Hc'. split; [done|]. split; [apply Hs'|]. apply gl_inv_add; [apply Hs'|split; cbn; lia|done]. }
  apply gwp_bind. destruct fill; [|by apply gwp_ret, Hend]. eapply gwp_copy_in; [done..|]. intros s' _ Hmap' Hs'. by apply Hend.
Qed.

Lemma live_range t past n off access v : ret (host past {| h_name := "glMapBufferRange"; h_args := [HInt t; HInt off; HInt n; HInt access] |}) <> 0 ->
  live_step t past v {| h_name := "glMapBufferRange"; h_args := [HInt t; HInt off; HInt n; HInt access] |} = Some (ret (host past {| h_name := "glMapBufferRange"; h_args := [HInt t; HInt off; HInt n; HInt access] |}), n).
Proof. intros H. unfold live_step. cbn [h_name h_args]. change (String.eqb "glMapBufferRange" "glMapBufferRange") with true. cbn. by rewrite Z.eqb_refl, (proj2 (Z.eqb_neq _ _) H). Qed.

Lemma map_range_sound : sound (gl_glMapBufferRange host guest malloc_fn free_fn regs).
Proof.
  gopen. do 5 gstep. destruct (Z.ltb_spec (scalar_of GLintptr v0) 0); cbn [orb]; [gstep|]. destruct (Z.leb_spec (scalar_of GLsizeiptr v1) 0) as [|Hpos]; [gstep|]. apply gwp_bind, gwp_find_mapping. destruct (mappings (own s'2) !! _) eqn:En; [gstep|].
  apply gwp_bind. eapply gwp_driver_map; [eassumption|unfold map_calls; set_solver|by intros; set_solver|gargs|done|]. intros s1 E1 El1 Hs1. match goal with |- gwp (if ret ?x =? 0 then _ else _) _ _ _ => set (r := x); destruct (Z.eqb_spec (ret r) 0) as [|Hr]; [gstep|] end.
  apply gwp_bind. eapply gwp_mirror_block; [eassumption|eassumption|by left|by rewrite E1|by intros; gstep|]. intros a s2 p2 E2 Hmap Hs2 Ha Hacc. cbv zeta. eapply gwp_enter; [exact Hs2|done|done| |done|].
  - split; [done|]. apply scalar_of_signed. auto.
  - rewrite Hmap, El1, mapped_snoc. by apply live_range.
Qed.

Lemma live_oes t access past v :
  let param := {| h_name := "glGetBufferParameteriv"; h_args := [HInt t; HInt kGlBufferSize; HOut] |} in
  let call := {| h_name := "glMapBufferOES"; h_args := [HInt t; HInt access] |} in
  ret (host (past ++ [param]) call) <> 0 -> live_step t (past ++ [param]) v call = Some (ret (host (past ++ [param]) call), s32 (out (host past param) 0)).
Proof.
  intros param call H. unfold live_step, size_answer. rewrite last_snoc, removelast_last. subst param call. cbn [h_name h_args].
  rewrite bool_decide_eq_true_2 by done. change (String.eqb "glMapBufferOES" "glMapBufferRange") with false. change (String.eqb "glMapBufferOES" "glMapBufferOES") with true. change (String.eqb "glGetBufferParameteriv" "glGetBufferParameteriv") with true. cbn [andb].
  by rewrite Z.eqb_refl, (proj2 (Z.eqb_neq _ _) H).
Qed.

Lemma map_oes_sound : sound (gl_glMapBufferOES host guest malloc_fn free_fn regs).
Proof.
  gopen. do 3 gstep. cbv zeta. destruct (if _ =? kGlReadOnlyOes then _ else _) as [bits|]; [|gstep]. apply gwp_bind, gwp_find_mapping. destruct (mappings (own s'0) !! _) eqn:En; [gstep|].
  apply gwp_bind. eapply gwp_driver_raw; [eassumption|gargs|]. intros m Hm Hp. set (s1 := Build_Sv _ _ _). match goal with H : gok _ s'0 |- _ => assert (gok (pages_ (smem s)) s1) as Hs1 by (split; [split; [done|]|done]; apply gl_inv_neutral; [done|apply H]) end.
  match goal with |- context [s32 (out ?x 0)] => destruct (Z.leb_spec (s32 (out x 0)) 0) as [|Hpos]; [gstep|] end.
  apply gwp_bind. eapply gwp_driver_map; [exact Hs1|unfold map_calls; set_solver|by intros; set_solver|gargs|done|]. intros s2 E2 El2 Hs2. match goal with |- gwp (if ret ?x =? 0 then _ else _) _ _ _ => destruct (Z.eqb_spec (ret x) 0) as [|Hr]; [gstep|] end.
  apply gwp_bind. eapply gwp_mirror_block; [eassumption|eassumption|by right|by rewrite E2|by intros; gstep|]. intros a s3 p3 E3 Hmap Hs3 Ha Hacc. eapply (gwp_enter true); [exact Hs3|done|done| |done|].
  - split; [done|]. apply (swrap_range 32). lia.
  - rewrite Hmap, El2, mapped_snoc. by apply live_oes.
Qed.

(** A copy to a live mapping. *)
Lemma gwp_copy_out target m off a n c s p (Q : answer -> Call -> Sv HostGl -> Prop) :
  gok p s -> mapping_ok m -> mapped target (scalls s) = Some (m_data m, m_length m) -> 0 <= a < 2 ^ 32 -> 0 <= off -> 0 <= n -> off + n <= m_length m -> accessible (smem s) a n kPageRead = true ->
  (forall r s', own s' = own s -> gok p s' -> Q r c s') -> gwp (driver host "memcpy_to" [HInt (m_data m + off); HGuest a n kPageRead]) c s Q.
Proof.
  intros Hs [_ Hm] Hmap Ha Hoff Hn Hle Hacc HQ. eapply gwp_contract; [exact Hs| | |done..].
  - apply Forall_cons_2; [by intros|]. apply Forall_singleton. intros x Ex. cbn. split_and!; [lia..|]. right. rewrite (accessible_same (smem s)); [done|]. destruct Hs as [_ ?]. congruence.
  - exists (m_data m + off), a, n, kPageRead, target, (m_data m), (m_length m). split_and!; [done|done|lia|lia].
Qed.

Lemma unmap_sound oes : sound (unmap_mirrored host guest free_fn regs oes).
Proof.
  gopen. do 2 gstep. apply gwp_bind, gwp_find_mapping. match goal with H : gok _ s' |- _ => pose proof H as Hs1 end.
  assert (forall s1 p1, mappings (own s1) !! scalar_of GLenum v = None -> gok p1 s1 -> forall o, gwp (r ← driver host (if oes then "glUnmapBufferOES" else "glUnmapBuffer") [HInt (scalar_of GLenum v)]; _ ← match o with Some m => free guest free_fn (m_guest m) | None => mret tt end; set_result (ret r)) c' s1 (fun _ c' s' => done_ok c' s')) as Hend.
  { intros s1 p1 En Hs2 o. apply gwp_bind. eapply gwp_driver_map; [done|unfold map_calls; destruct oes; set_solver|done|done|done|]. intros s2 E2 _ Hs3. apply gwp_bind. destruct o as [m|]; [|apply gwp_ret; gstep]. eapply gwp_free; [done|]. intros s4 p4 E4 Hs4. gstep. }
  destruct (mappings (own s') !! scalar_of GLenum v) as [m|] eqn:Em; apply gwp_bind; [|apply gwp_ret, gwp_bind, gwp_ret, (Hend s' _ Em Hs1 None)].
  apply gwp_change. set (s1 := Build_Sv _ _ _). destruct (gi_mappings _ _ (proj2 (proj1 Hs1)) _ _ Em) as [Hok Hmap].
  assert (gok (pages_ (smem s)) s1) as Hs2 by (split; [split; [apply Hs1|apply gl_inv_drop, Hs1]|apply Hs1]). assert (mappings (own s1) !! scalar_of GLenum v = None) as Hnone by (cbn; by rewrite lookup_delete_eq).
  assert (forall s2, own s2 = own s1 -> gok (pages_ (smem s)) s2 -> _) as Hfin by (intros s2 E2 Hs3; exact (Hend s2 _ ltac:(by rewrite E2) Hs3 (Some m))).
  apply gwp_bind. destruct (negb _); [|by apply gwp_ret, Hfin]. apply gwp_bind, gwp_run, wp_ptr; intros Ea; [|eapply gwp_reject; [done|]; intros s2 E2 Hs3; by apply Hfin].
  pose proof Hok as [Hg Hl]. apply gwp_bind. replace (HInt (m_data m)) with (HInt (m_data m + 0)) by (f_equal; lia). eapply gwp_copy_out; [exact Hs2|done|done|done|lia|lia|lia|done|]. intros r s2 E2 Hs3. by apply gwp_ret, Hfin.
Qed.

Ltac gstop := gstep; apply gwp_ret, gwp_ret; gdone.
Lemma flush_sound : sound (gl_glFlushMappedBufferRange host regs).
Proof.
  gopen. do 4 gstep. apply gwp_bind, gwp_find_mapping. match goal with H : gok _ s'1 |- _ => pose proof H as Hs1 end.
  destruct (mappings (own s'1) !! _) as [m|] eqn:Em; apply gwp_bind; [|apply gwp_ret; repeat gstep]. destruct (gi_mappings _ _ (proj2 (proj1 Hs1)) _ _ Em) as [Hok Hmap].
  destruct (negb _); [|apply gwp_ret; repeat gstep]. destruct (Z.ltb_spec (scalar_of GLintptr v0) 0) as [|Ho]; cbn [orb]; [gstop|]. destruct (Z.ltb_spec (scalar_of GLsizeiptr v1) 0) as [|Hn]; cbn [orb]; [gstop|]. destruct (Z.ltb_spec (m_length m) (scalar_of GLintptr v0 + scalar_of GLsizeiptr v1)) as [|Hle]; [gstop|].
  apply gwp_bind, gwp_run, wp_ptr; intros Ea; [|gstop]. apply gwp_bind. eapply gwp_copy_out; [exact Hs1|done|done|apply u32_range|lia|lia|lia|done|]. intros r s2 E2 Hs2. apply gwp_ret. repeat gstep.
Qed.

Lemma buffer_pointer_sound : sound (report_buffer_pointer host regs).
Proof.
  gopen. do 4 gstep. destruct q as [a|]; [|gstep]. gstep; [gstep|]. apply gwp_bind, gwp_find_mapping. match goal with H : ptr_okp _ _ _ _ |- _ => destruct H as (Ha & _ & Hacc) end.
  eapply (gwp_store a _ 4 RW); [eassumption|lia|unfold size; rewrite length_to_le; lia|apply Hacc; match goal with H : gok _ _ |- _ => apply H end|done|]. intros. gdone.
Qed.

(** ** The whole call *)

Create HintDb gl_sound.
#[local] Hint Resolve serve_pname_sound serve_name_sound serve_uniform_sound clear_buffer_sound bind_attrib_sound active_uniforms_sound transform_feedback_sound uniform_indices_sound uniform_block_sound : gl_sound.
#[local] Hint Resolve get_string_sound get_stringi_sound tex_image_2d_sound tex_sub_image_2d_sound read_pixels_sound tex_image_3d_sound tex_sub_image_3d_sound attrib_pointer_sound attrib_ipointer_sound : gl_sound.
#[local] Hint Resolve draw_arrays_sound draw_instanced_sound draw_elements_sound draw_elements_instanced_sound draw_range_sound get_attrib_pointer_sound : gl_sound.
#[local] Hint Resolve fence_sync_sound is_sync_sound delete_sync_sound client_wait_sound wait_sync_sound get_sync_sound map_range_sound map_oes_sound unmap_sound flush_sound buffer_pointer_sound shader_source_sound : gl_sound.

(** A call of glShaderSource names its array. *)
Definition sources_given (name : string) : Prop := name = "glShaderSource" -> s32 (reg regs 1) <= 0 \/ reg regs 2 <> 0.

(** A call of glShaderSource with strings to read and no array of them. *)
Definition null_sources (name : string) : Prop := name = "glShaderSource" /\ 0 < s32 (reg regs 1) /\ reg regs 2 = 0.
Lemma sources_or_null name : sources_given name \/ null_sources name.
Proof. unfold sources_given, null_sources. destruct (decide (name = "glShaderSource")) as [->|]; [|by left]. destruct (decide (0 < s32 (reg regs 1))); [|left; lia]. destruct (decide (reg regs 2 = 0)); [by right|by left; right]. Qed.

Lemma manual_sound n g : (n, g) ∈ manual_calls host guest malloc_fn free_fn regs -> sources_given n -> sound g.
Proof.
  unfold manual_calls. rewrite !elem_of_cons, elem_of_nil. intros Hin Hsrc. repeat (destruct Hin as [[= -> ->]|Hin]; [solve [auto with gl_sound]|]). destruct Hin.
Qed.

Lemma case_sound c body : c ∈ gl_cases -> case_body host guest malloc_fn free_fn regs c = Some body -> sources_given (c_name c) -> sound body.
Proof.
  intros Hc Eb Hsrc. unfold case_body in Eb. destruct (c_body c) as [[[[binds args] o] notes]|] eqn:E; [injection Eb as <-; by eapply generated_case_sound|].
  destruct (list_find _ _) as [[i [n g]]|] eqn:Ef; [|done]. injection Eb as <-. apply list_find_Some in Ef as (Hi & En & _). cbn in En. subst n. eapply manual_sound; [by eapply list_elem_of_lookup_2|done].
Qed.

(** The body of glShaderSource without its array. *)
Lemma shader_case_null c body : c ∈ gl_cases -> case_body host guest malloc_fn free_fn regs c = Some body -> c_name c = "glShaderSource" -> body = gl_glShaderSource host regs.
Proof.
  intros Hc Eb En. unfold case_body in Eb. destruct (c_body c) as [[[[binds args] o] notes]|] eqn:E.
  - exfalso. assert (forallb (fun c => negb (String.eqb (c_name c) "glShaderSource") || match c_body c with Some _ => false | None => true end) gl_cases = true) as Hall by (vm_compute; reflexivity).
    rewrite forallb_forall in Hall. specialize (Hall c ltac:(by apply list_elem_of_In)). rewrite En, E in Hall. done.
  - rewrite En in Eb. cbn in Eb. by injection Eb as <-.
Qed.
End Sound.
End History.


(** C32: the preparation of glDrawElements and its variants: when it lets the draw reach the
    driver, the indices passed are guest memory the guest may read, when the record has no
    element buffer bound, or an offset into the one it has, and every enabled client array
    was given to the driver again.  Of each array, each vertex up to the largest index is
    guest memory the guest may read when the indices are the guest's; with an element buffer
    bound, whose indices the code does not read, only the vertices below the count are.  The driver writes
    only memory it was given ([kernel_ok]). *)
Theorem gl_draw_covered host count type indices c s :
  kernel_ok host -> gsafe host s -> call_word c -> int32 count -> 0 <= indices < 2 ^ 32 ->
  gwp (prepare_elements host count type indices) c s
    (fun r _ s' => gsafe host s' /\ own s' = own s /\
       match r with
       | Some a => elements_ok (scalls s') (pages_ (smem s)) count type a /\ elements_ready (pages_ (smem s)) count type a s s'
       | None => True
       end).
Proof.
  intros Hhost Hs Hc Hn Hi. eapply gwp_prepare_elements; [done|by split|done..|]. intros r c' s' (_ & E & [Hs' _]) Hr. by destruct r.
Qed.

(** ** Runs *)

(** A driver that maps 16 bytes at 500. *)
Definition sample_driver (log : list hostcall) (c : hostcall) : answer :=
  {| ret := if decide (h_name c = "glMapBufferRange") then 500 else 0; errno := 0; guest_writes := []; outs := replicate 16 7 |}.
Definition gl_heap (f : Z) (args : list Z) (s : Sv HostGl) : option GuestResult * Sv HostGl := (Some {| res_r0 := 0x10100; res_r1 := 0 |}, s).
Definition gl_regs (a b c d : Z) : list Z := [a; b; c; d] ++ replicate 12 0.

(** Attribute 0 has two floats a vertex, in guest memory. *)
Definition sample_attribute : Attribute :=
  {| a_defined := true; a_enabled := true; a_size := 2; a_type := 0x1406; normalized := 0; stride := 0; guest_pointer := 0x10200; a_buffer := 0; integer := false |}.
Definition sample_gl : Sv HostGl := Build_Sv (with_thread HostGl_init (with_attribute GlThreadState_init 0 sample_attribute)) (km sample_text) [].

Lemma sample_driver_ok : kernel_ok sample_driver.
Proof. intros log c a bs H. by apply elem_of_nil in H. Qed.

Lemma sample_gl_safe : gsafe sample_driver sample_gl.
Proof.
  split; [exact sample_text_wf|]. constructor; try done; [constructor; try done; by intros b [= <-]|]. intros i a H. apply (lookup_insert_Some (∅ : gmap Z Attribute)) in H as [[_ <-]|[_ H]]; [by split|done].
Qed.


Lemma gl_draw_covered_witness :
  exists r s, prepare_elements sample_driver 2 0x1401 0x10fff {| valid_ := true; result := 0 |} sample_gl = Ret (r, s) /\ bool_decide (fst r = Some (HGuest 0x10fff 2 kPageRead)) = true /\
    gsafe sample_driver s /\ own s = own sample_gl /\
    match fst r with
    | Some a => elements_ok (scalls s) (pages_ (smem sample_gl)) 2 0x1401 a /\ elements_ready (pages_ (smem sample_gl)) 2 0x1401 a sample_gl s
    | None => True
    end.
Proof.
  apply (wp_run _ _ _ _ (fun r => bool_decide (fst r = Some (HGuest 0x10fff 2 kPageRead)))
    (gl_draw_covered sample_driver 2 0x1401 0x10fff {| valid_ := true; result := 0 |} sample_gl sample_driver_ok sample_gl_safe ltac:(split; [discriminate|reflexivity]) ltac:(split; [discriminate|reflexivity]) ltac:(split; [discriminate|reflexivity]))).
  vm_compute. reflexivity.
Defined.

(** glShaderSource with a count and no array reads through the null pointer. *)
Example shader_source_null : gl_handle_host_call sample_driver gl_heap 1 2 98 (gl_regs 1 1 0 0) sample_gl = Undefined.
Proof. vm_compute. reflexivity. Qed.

(** Calls one after the other. *)
Definition gl_after (calls : list (Z * list Z)) (s : Sv HostGl) : Sv HostGl := foldl (fun s '(i, rs) => state_after (gl_handle_host_call sample_driver gl_heap 1 2 i rs) s) s calls.

(** A buffer that was bound and deleted stays bound in the record: the driver, where nothing
    is bound now, gets the number of the guest as the address of the array. *)
Example deleted_buffer_stays_bound :
  let s := gl_after [(3, gl_regs 0x8892 5 0 0); (28, gl_regs 1 0x10000 0 0); (140, [0; 2; 0x1406; 0] ++ replicate 9 0 ++ [0x10000; 0; 0])] sample_gl in
  (array_buffer (t_state (own s)) =? 5) && match last (scalls s) with Some c => String.eqb (h_name c) "glVertexAttribPointer" && match last (h_args c) with Some (HInt _) => true | _ => false end | None => false end &&
  bool_decide (bound kGlArrayBuffer (scalls s) = None) = true.
Proof. vm_compute. reflexivity. Qed.
