(* ===== verification/HostEgl.v ===== *)
(** * EGL host calls

    [core/src/gl/host_egl.cpp], [core/src/gl/egl_manual.cpp] and the generated switch
    [core/src/gen/egl_dispatch.inc]: displays, configurations, contexts and surfaces of the
    driver cross to the guest as handles of a [GlobalHandles] table that remembers the class
    of each.  The state is that table, the error the calling thread has pending, the copies
    of driver strings the guest holds and the two libraries eglGetProcAddress opens.

    A call runs in the monad [ecall], which adds to [svc] the object [HostEgl::Call].  The
    driver and the window table are parameters, and so is [LibraryRuntime::submit], whose own
    model is [LibraryRuntime]; other threads may make EGL calls while the guest's allocator
    or a command runs.  The allocator and stub seams of the tests are not set.  Reports and
    the ring of recent calls are left out. *)

From stdpp Require Import numbers list gmap strings.
From S2P Require Import Prelude Handles Bytes GuestMemory InitialStack NativeCall GuestThread Kernel Syscalls Messages Service LibraryService.
Local Open Scope string_scope.
Local Open Scope list_scope.
Local Open Scope Z_scope.

(** ** Constants *)

Definition kEglSuccess : Z := 0x3000.
Definition kEglBadDisplay : Z := 0x3008.
Definition kEglBadContext : Z := 0x3006.
Definition kEglBadSurface : Z := 0x300d.
Definition kEglBadParameter : Z := 0x3004.
Definition kEglNone : Z := 0x3038.
Definition kEglBadNativeWindow : Z := 0x300b.
Definition kEglBadAlloc : Z := 0x3003.
Definition kMaxAttribs : nat := 512.
Definition kMaxGuestString : Z := 4096.
Definition kMaxDriverString : Z := Z.shiftl 64 20.
Definition kEglConfigIdAttrib : Z := 0x3028.
Definition kEglHostCallFirst : Z := 168.
Definition kEglHostCallLast : Z := 211.
Definition ZB_EGL_HC_eglDestroyContext : Z := 182.
Definition ZB_EGL_HC_eglGetDisplay : Z := 191.
Definition ZB_EGL_HC_eglGetError : Z := 192.
Definition ZB_EGL_HC_eglGetPlatformDisplay : Z := 193.
Definition ZB_EGL_HC_eglMakeCurrent : Z := 197.
Definition ZB_GUEST_RTLD_NOW : Z := 0.
Definition ZB_GUEST_RTLD_DEFAULT : Z := 0xffffffff.
Definition RW : Z := Z.lor kPageRead kPageWrite.

Inductive EglObject := Display | Config | Context | Surface.
#[global] Instance EglObject_eq_dec : EqDecision EglObject.
Proof. solve_decision. Defined.

Definition egl_object_error (kind : EglObject) : Z :=
  match kind with Display => kEglBadDisplay | Config => kEglBadParameter | Context => kEglBadContext | Surface => kEglBadSurface end.

Definition argument_kind (index : Z) (position : nat) : EglObject :=
  if (position =? 0)%nat then Display
  else if index =? ZB_EGL_HC_eglDestroyContext then Context
  else if (index =? ZB_EGL_HC_eglMakeCurrent) && (position =? 3)%nat then Context
  else Surface.

Definition result_kind (index : Z) : EglObject :=
  if (index =? ZB_EGL_HC_eglGetDisplay) || (index =? ZB_EGL_HC_eglGetPlatformDisplay) then Display else Surface.

(** ** State *)

Record HostEgl := {
  objects_ : GlobalHandles; by_value_ : gmap Z Z; kinds_ : gmap Z EglObject; libegl_ : Z; libgles_ : Z;
  t_pending_error : Z;
  cache : gmap (Z * Z) Z;
}.
Definition HostEgl_init : HostEgl :=
  {| objects_ := GlobalHandles_init Global; by_value_ := ∅; kinds_ := ∅; libegl_ := 0; libgles_ := 0; t_pending_error := kEglSuccess; cache := ∅ |}.

Definition with_objects (h : HostEgl) (t : GlobalHandles) (b : gmap Z Z) (k : gmap Z EglObject) : HostEgl :=
  {| objects_ := t; by_value_ := b; kinds_ := k; libegl_ := libegl_ h; libgles_ := libgles_ h; t_pending_error := t_pending_error h; cache := cache h |}.
Definition with_libraries (h : HostEgl) (egl gles : Z) : HostEgl :=
  {| objects_ := objects_ h; by_value_ := by_value_ h; kinds_ := kinds_ h; libegl_ := egl; libgles_ := gles; t_pending_error := t_pending_error h; cache := cache h |}.
Definition with_error (h : HostEgl) (e : Z) : HostEgl :=
  {| objects_ := objects_ h; by_value_ := by_value_ h; kinds_ := kinds_ h; libegl_ := libegl_ h; libgles_ := libgles_ h; t_pending_error := e; cache := cache h |}.
Definition with_cache (h : HostEgl) (c : gmap (Z * Z) Z) : HostEgl :=
  {| objects_ := objects_ h; by_value_ := by_value_ h; kinds_ := kinds_ h; libegl_ := libegl_ h; libgles_ := libgles_ h; t_pending_error := t_pending_error h; cache := c |}.

(** ** Objects and handles *)

(** [std::unordered_map::emplace] leaves an entry that exists. *)
Definition emplace {A} (k : Z) (a : A) (m : gmap Z A) : gmap Z A := match m !! k with Some _ => m | None => <[k := a]> m end.

Definition handle_for (value : Z) (kind : EglObject) : svc HostEgl Z :=
  if value =? 0 then mret 0
  else
    h ← get_own;
    match by_value_ h !! value with
    | Some handle => mret handle
    | None =>
        '(handle, t) ← lift_svc (GlobalHandles_add (objects_ h) value);
        if handle =? 0 then _ ← put_own (with_objects h t (by_value_ h) (kinds_ h)); mret 0
        else _ ← put_own (with_objects h t (emplace value handle (by_value_ h)) (emplace handle kind (kinds_ h))); mret handle
    end.

Definition lookup_object (handle : Z) (kind : EglObject) : svc HostEgl (option Z) :=
  if handle =? 0 then mret (Some 0)
  else
    h ← get_own;
    value ← lift_svc (GlobalHandles_get (objects_ h) handle);
    mret (match value with
          | None => None
          | Some v =>
              if v =? 0 then None
              else match kinds_ h !! handle with Some k => if decide (k = kind) then Some v else None | None => None end
          end).

(** ** Calls *)

Record ECall := { e_valid : bool; e_result : Z }.

Definition ecall (A : Type) : Type := ECall -> svc HostEgl (A * ECall).
#[global] Instance ecall_ret : MRet ecall := fun A a c => mret (a, c).
#[global] Instance ecall_bind : MBind ecall := fun A B f m c => m c ≫= fun '(a, c) => f a c.

Definition erun {A} (p : svc HostEgl A) : ecall A := fun c => a ← p; mret (a, c).
Definition evalid : ecall bool := fun c => mret (e_valid c, c).
Definition set_eresult (v : Z) : ecall unit := fun c => mret (tt, {| e_valid := e_valid c; e_result := u32 v |}).
Definition if_evalid (k : ecall unit) : ecall unit := v ← evalid; if (v : bool) then k else mret tt.
Definition egl_reject (error : Z) : ecall unit := erun (h ← get_own; put_own (with_error h error)).
Definition efail (error : Z) : ecall unit := fun c => if e_valid c then egl_reject error {| e_valid := false; e_result := e_result c |} else mret (tt, c).

(** The arguments of the generated cases. *)
Inductive etype := EGLint | EGLenum | EGLTime | EGLpointer.
Definition escalar_of (t : etype) (word : Z) : Z := match t with EGLint => s32 word | EGLenum | EGLTime | EGLpointer => word end.

Inductive ebinding :=
| Handle (position : nat)
| EScalar (t : etype) (position : nat)
| EPointer (bytes : Z) (position : nat).
Inductive eoutcome := SetResult | SetHandle.

Section Egl.
Context (host : list hostcall -> hostcall -> answer) (guest : Z -> list Z -> Sv HostEgl -> option GuestResult * Sv HostEgl).
Context (submit : Command -> Sv HostEgl -> Response * Sv HostEgl) (windows : Z -> Z) (malloc_fn : Z).
(** The number of the call and the registers of the thread when it was made. *)
Context (index : Z) (regs : list Z).

Definition edriver (name : string) (args : list harg) : ecall answer := erun (backend host name args).

Definition earg (position : nat) : ecall Z :=
  if (position <? 4)%nat then mret (reg regs position)
  else
    let address := reg regs 13 + 4 * (Z.of_nat position - 4) in
    if UINT32_MAX <? address then _ ← efail kEglBadParameter; mret 0
    else
      p ← erun (guest_ptr (u32 address) 4 kPageRead);
      match p with
      | None => _ ← efail kEglBadParameter; mret 0
      | Some p => bs ← erun (load p 4); mret (le bs)
      end.

Definition escalar (t : etype) (position : nat) : ecall Z := w ← earg position; mret (escalar_of t w).

Definition handle_of (position : nat) (kind : EglObject) : ecall Z :=
  handle ← earg position;
  v ← evalid;
  if negb v then mret 0
  else if handle =? 0 then mret 0
  else
    value ← erun (lookup_object handle kind);
    match value with
    | None => _ ← efail (egl_object_error kind); mret 0
    | Some v => mret v
    end.

Definition set_handle (value : Z) (kind : EglObject) : ecall unit := h ← erun (handle_for value kind); set_eresult h.

(** [call.pointer<T>(position, elements, need)] with [n] bytes an element. *)
Definition epointer (n : Z) (position : nat) (elements need : Z) : ecall (option Z) :=
  address ← earg position;
  if kGuestSpaceSize / n <? elements then _ ← efail kEglBadParameter; mret None
  else if address =? 0 then mret None
  else
    p ← erun (guest_ptr address (elements * n) need);
    match p with
    | None => _ ← efail kEglBadParameter; mret None
    | Some p => mret (Some p)
    end.

Definition allocate (size : Z) : ecall (option Z) :=
  if (size =? 0) || (UINT32_MAX <? size) then mret None
  else a ← erun (allocate_guest guest malloc_fn size); mret (if a =? 0 then None else Some a).

(** ** Generated cases *)

Fixpoint bind_all (l : list ebinding) : ecall (option (list harg)) :=
  match l with
  | [] => mret (Some [])
  | Handle i :: l =>
      v ← handle_of i (argument_kind index i);
      ok ← evalid;
      if (ok : bool) then r ← bind_all l; mret (cons (HInt v) <$> r) else mret None
  | EScalar t i :: l => v ← escalar t i; r ← bind_all l; mret (cons (HInt v) <$> r)
  | EPointer n i :: l => p ← epointer n i 1 RW; r ← bind_all l; mret (cons (garg p n RW) <$> r)
  end.

Definition egl_generated (name : string) (binds : list ebinding) (o : eoutcome) : ecall unit :=
  args ← bind_all binds;
  match args with
  | None => mret tt
  | Some args =>
      if_evalid
        (r ← edriver name args;
         match o with SetResult => set_eresult (ret r) | SetHandle => set_handle (ret r) (result_kind index) end)
  end.

(** ** Hand-written cases *)

Fixpoint attribs_loop (n : nat) (i address : Z) (acc : list Z) : ecall (option (list Z)) :=
  match n with
  | O => _ ← efail kEglBadParameter; mret None
  | S n =>
      let at_ := address + 4 * i in
      if kGuestSpaceSize <? at_ + 4 then _ ← efail kEglBadParameter; mret None
      else
        p ← erun (guest_ptr (u32 at_) 4 kPageRead);
        match p with
        | None => _ ← efail kEglBadParameter; mret None
        | Some p =>
            bs ← erun (load p 4);
            let value := s32 (le bs) in
            if value =? kEglNone then mret (Some (acc ++ [value])) else attribs_loop n (i + 1) address (acc ++ [value])
        end
  end.

(** The list, empty for a null pointer; [None] when the call was rejected. *)
Definition read_attribs (position : nat) : ecall (option (list Z)) :=
  address ← earg position;
  v ← evalid;
  if negb v then mret None
  else if address =? 0 then mret (Some [])
  else attribs_loop kMaxAttribs 0 address [].

(** The list as the driver gets it. *)
Definition attribs_arg (l : list Z) : harg := match l with [] => HNull | _ => HData l end.

Definition read_guest_string (position : nat) : ecall (option (list Z)) :=
  address ← earg position;
  v ← evalid;
  if negb v then mret None
  else if address =? 0 then _ ← efail kEglBadParameter; mret None
  else
    s ← erun (string_loop 3 kMaxGuestString address []);
    match s with
    | Some t => mret (Some t)
    | None => _ ← efail kEglBadParameter; mret None
    end.

(** The rest of a call with an object argument, while the call is valid. *)
Definition with_object (position : nat) (kind : EglObject) (k : Z -> ecall unit) : ecall unit := v ← handle_of position kind; if_evalid (k v).

Definition query_name (kind : EglObject) : option string :=
  match kind with Config => Some "eglGetConfigAttrib" | Surface => Some "eglQuerySurface" | Context => Some "eglQueryContext" | Display => None end.

Definition query_attribute (kind : EglObject) : ecall unit :=
  with_object 0 Display (fun dpy =>
  with_object 1 kind (fun object =>
    attribute ← escalar EGLint 2;
    value ← epointer 4 3 1 RW;
    if_evalid
      match value with
      | None => efail kEglBadParameter
      | Some p =>
          match query_name kind with
          | Some name => r ← edriver name [HInt dpy; HInt object; HInt attribute; HGuest p 4 RW]; set_eresult (ret r)
          | None => set_eresult 0
          end
      end)).

(** The configurations the driver writes into a vector of [n]; [out r 0] is their number. *)
Definition found_configs (r : answer) (n : nat) : list Z := map (fun i => out r (S i)) (seq 0 n).

Fixpoint write_configs (l : list Z) (p : Z) : ecall unit :=
  match l with
  | [] => mret tt
  | v :: l => h ← erun (handle_for v Config); _ ← erun (store p (to_le 4 h)); write_configs l (p + 4)
  end.

Definition serve_configs (dpy : Z) (attribs : option (list Z)) (position : nat) : ecall unit :=
  config_size ← escalar EGLint (position + 1);
  if_evalid
    (if config_size <? 0 then efail kEglBadParameter
     else
       guest_configs ← epointer 4 position config_size RW;
       num_config ← epointer 4 (position + 2) 1 RW;
       if_evalid
         match num_config with
         | None => efail kEglBadParameter
         | Some num =>
             let n := match guest_configs with None => 0 | Some _ => config_size end in
             let configs := if n =? 0 then HNull else HOut in
             r ← match attribs with
                 | None => edriver "eglGetConfigs" [HInt dpy; configs; HInt config_size; HOut]
                 | Some l => edriver "eglChooseConfig" [HInt dpy; attribs_arg l; configs; HInt config_size; HOut]
                 end;
             let count := s32 (out r 0) in
             let ok := u32 (ret r) in
             _ ← match guest_configs with
                 | Some p => if negb (ok =? 0) then write_configs (take (Z.to_nat (Z.min n (Z.max count 0))) (found_configs r (Z.to_nat n))) p else mret tt
                 | None => mret tt
                 end;
             _ ← erun (store num (to_le 4 (u32 count)));
             set_eresult ok
         end).

Definition eglChooseConfig : ecall unit :=
  with_object 0 Display (fun dpy =>
    attribs ← read_attribs 1;
    match attribs with None => mret tt | Some l => serve_configs dpy (Some l) 2 end).
Definition eglGetConfigs : ecall unit := with_object 0 Display (fun dpy => serve_configs dpy None 1).

Definition eglQueryString : ecall unit :=
  display_handle ← earg 0;
  dpy ← handle_of 0 Display;
  name ← escalar EGLint 1;
  if_evalid
    (h ← erun get_own;
     match cache h !! (display_handle, name) with
     | Some a => set_eresult a
     | None =>
         source ← edriver "eglQueryString" [HInt dpy; HInt name];
         if ret source =? 0 then mret tt
         else
           let bs := map u8 (outs source) in
           let text := default bs (until_zero bs) in
           if kMaxDriverString <=? size text then efail kEglBadParameter
           else
             address ← allocate (size text + 1);
             match address with
             | None => efail kEglBadAlloc
             | Some a =>
                 p ← erun (guest_ptr a (size text + 1) RW);
                 match p with
                 | None => efail kEglBadAlloc
                 | Some p =>
                     _ ← erun (store p (text ++ [0]));
                     _ ← erun (h ← get_own; put_own (with_cache h (<[(display_handle, name) := a]> (cache h))));
                     set_eresult a
                 end
             end
     end).

(** [LibraryRuntime::find_symbol] and [load_library]. *)
Definition run_command (c : Command) : svc HostEgl Z := fun s =>
  let '(r, s) := submit c s in
  if negb (ok r) then Ret (0, s) else match result r with Some g => Ret (res_r0 g, s) | None => Undefined end.
Definition find_symbol (handle : Z) (name : list Z) : svc HostEgl Z :=
  run_command {| kind := Symbol; value := handle; cflags := 0; text := name; cargs := GuestCall_init |}.
Definition load_library (path : list Z) (flags : Z) : svc HostEgl Z :=
  run_command {| kind := Load; value := 0; cflags := flags; text := path; cargs := GuestCall_init |}.

(** One library of the loop of [stub_address]: 0 goes on with the next. *)
Definition stub_in (egl : bool) (name : list Z) : svc HostEgl Z :=
  h ← get_own;
  handle ← (if (if egl then libegl_ h else libgles_ h) =? 0 then
              l ← load_library (msg (if egl then "libEGL.so" else "libGLESv2.so")) ZB_GUEST_RTLD_NOW;
              h ← get_own;
              _ ← put_own (with_libraries h (if egl then l else libegl_ h) (if egl then libgles_ h else l));
              mret l
            else mret (if egl then libegl_ h else libgles_ h));
  if handle =? 0 then mret 0 else find_symbol handle name.

Definition stub_address (name : list Z) : svc HostEgl Z :=
  global ← find_symbol ZB_GUEST_RTLD_DEFAULT name;
  if negb (global =? 0) then mret global
  else a ← stub_in true name; if negb (a =? 0) then mret a else stub_in false name.

Definition starts_with (prefix t : list Z) : bool := bool_decide (take (length prefix) t = prefix).

Definition eglGetProcAddress : ecall unit :=
  name ← read_guest_string 0;
  match name with
  | None => mret tt
  | Some name =>
      address ← (if starts_with (msg "egl") name || starts_with (msg "gl") name then erun (stub_address name) else mret 0);
      set_eresult address
  end.

Definition eglCreateContext : ecall unit :=
  with_object 0 Display (fun dpy =>
  with_object 1 Config (fun config =>
  with_object 2 Context (fun share =>
    attribs ← read_attribs 3;
    match attribs with
    | None => mret tt
    | Some l =>
        context ← edriver "eglCreateContext" [HInt dpy; HInt config; HInt share; attribs_arg l];
        _ ← (if ret context =? 0 then mret tt else _ ← edriver "eglGetConfigAttrib" [HInt dpy; HInt config; HInt kEglConfigIdAttrib; HOut]; mret tt);
        set_handle (ret context) Context
    end))).

(** eglCreateWindowSurface and eglCreatePlatformWindowSurface. *)
Definition create_window_surface (name : string) : ecall unit :=
  with_object 0 Display (fun dpy =>
  with_object 1 Config (fun config =>
    window_handle ← earg 2;
    if_evalid
      (let window := windows window_handle in
       if window =? 0 then efail kEglBadNativeWindow
       else
         attribs ← read_attribs 3;
         match attribs with
         | None => mret tt
         | Some l => r ← edriver name [HInt dpy; HInt config; HInt window; attribs_arg l]; set_handle (ret r) Surface
         end))).
Definition eglCreateWindowSurface : ecall unit := create_window_surface "eglCreateWindowSurface".
Definition eglCreatePlatformWindowSurface : ecall unit := create_window_surface "eglCreatePlatformWindowSurface".

Definition eglCreatePbufferSurface : ecall unit :=
  with_object 0 Display (fun dpy =>
  with_object 1 Config (fun config =>
    attribs ← read_attribs 2;
    match attribs with
    | None => mret tt
    | Some l => r ← edriver "eglCreatePbufferSurface" [HInt dpy; HInt config; attribs_arg l]; set_handle (ret r) Surface
    end)).

Definition eglGetPlatformDisplay : ecall unit :=
  platform ← escalar EGLenum 0;
  native_display ← earg 1;
  if_evalid
    (if negb (native_display =? 0) then efail kEglBadParameter
     else
       attribs ← read_attribs 2;
       match attribs with
       | None => mret tt
       | Some l => r ← edriver "eglGetPlatformDisplay" [HInt platform; HNull; attribs_arg l]; set_handle (ret r) Display
       end).

Definition eglGetCurrentDisplay : ecall unit := r ← edriver "eglGetCurrentDisplay" []; set_handle (ret r) Display.
Definition eglGetCurrentContext : ecall unit := r ← edriver "eglGetCurrentContext" []; set_handle (ret r) Context.
Definition eglGetCurrentSurface : ecall unit := readdraw ← escalar EGLint 0; if_evalid (r ← edriver "eglGetCurrentSurface" [HInt readdraw]; set_handle (ret r) Surface).

Definition eglSwapBuffers : ecall unit :=
  with_object 0 Display (fun dpy => with_object 1 Surface (fun surface => r ← edriver "eglSwapBuffers" [HInt dpy; HInt surface]; set_eresult (ret r))).

Definition egl_unsupported : ecall unit := efail kEglBadParameter.

(** ** The switch *)

Definition egl_cases : list (Z * ecall unit) :=
  [(168, egl_generated "eglBindAPI" [EScalar EGLenum 0] SetResult);
   (169, egl_generated "eglBindTexImage" [Handle 0; Handle 1; EScalar EGLint 2] SetResult);
   (170, eglChooseConfig);
   (171, egl_generated "eglClientWaitSync" [Handle 0; EScalar EGLpointer 1; EScalar EGLint 2; EScalar EGLTime 3] SetResult);
   (172, egl_generated "eglCopyBuffers" [Handle 0; Handle 1; EScalar EGLpointer 2] SetResult);
   (173, eglCreateContext);
   (174, egl_unsupported); (175, egl_unsupported);
   (176, eglCreatePbufferSurface);
   (177, egl_unsupported); (178, egl_unsupported);
   (179, eglCreatePlatformWindowSurface);
   (180, egl_unsupported);
   (181, eglCreateWindowSurface);
   (182, egl_generated "eglDestroyContext" [Handle 0; Handle 1] SetResult);
   (183, egl_generated "eglDestroyImage" [Handle 0; EScalar EGLpointer 1] SetResult);
   (184, egl_generated "eglDestroySurface" [Handle 0; Handle 1] SetResult);
   (185, egl_generated "eglDestroySync" [Handle 0; EScalar EGLpointer 1] SetResult);
   (186, query_attribute Config);
   (187, eglGetConfigs);
   (188, eglGetCurrentContext);
   (189, eglGetCurrentDisplay);
   (190, eglGetCurrentSurface);
   (191, egl_generated "eglGetDisplay" [EScalar EGLpointer 0] SetHandle);
   (192, egl_generated "eglGetError" [] SetResult);
   (193, eglGetPlatformDisplay);
   (194, eglGetProcAddress);
   (195, egl_generated "eglGetSyncAttrib" [Handle 0; EScalar EGLpointer 1; EScalar EGLint 2; EPointer 8 3] SetResult);
   (196, egl_generated "eglInitialize" [Handle 0; EPointer 4 1; EPointer 4 2] SetResult);
   (197, egl_generated "eglMakeCurrent" [Handle 0; Handle 1; Handle 2; Handle 3] SetResult);
   (198, egl_generated "eglQueryAPI" [] SetResult);
   (199, query_attribute Context);
   (200, eglQueryString);
   (201, query_attribute Surface);
   (202, egl_generated "eglReleaseTexImage" [Handle 0; Handle 1; EScalar EGLint 2] SetResult);
   (203, egl_generated "eglReleaseThread" [] SetResult);
   (204, egl_generated "eglSurfaceAttrib" [Handle 0; Handle 1; EScalar EGLint 2; EScalar EGLint 3] SetResult);
   (205, eglSwapBuffers);
   (206, egl_generated "eglSwapInterval" [Handle 0; EScalar EGLint 1] SetResult);
   (207, egl_generated "eglTerminate" [Handle 0] SetResult);
   (208, egl_generated "eglWaitClient" [] SetResult);
   (209, egl_generated "eglWaitGL" [] SetResult);
   (210, egl_generated "eglWaitNative" [EScalar EGLint 0] SetResult);
   (211, egl_generated "eglWaitSync" [Handle 0; EScalar EGLpointer 1; EScalar EGLint 2] SetResult)].

Definition egl_dispatch : option (ecall unit) := snd <$> (snd <$> list_find (fun e => fst e = index) egl_cases).

Definition egl_handle_host_call : svc HostEgl (option (list Z)) :=
  if (index <? kEglHostCallFirst) || (kEglHostCallLast <? index) then mret None
  else
    h ← get_own;
    if (index =? ZB_EGL_HC_eglGetError) && negb (t_pending_error h =? kEglSuccess) then
      _ ← put_own (with_error h kEglSuccess); mret (Some (set01 regs (u32 (t_pending_error h)) 0))
    else
      match egl_dispatch with
      | Some body => '(_, c) ← body {| e_valid := true; e_result := 0 |}; mret (Some (set01 regs (e_result c) 0))
      | None => mret (Some (set01 regs 0 0))
      end.
End Egl.

(** ** The history of the driver *)

(** The class of the object a call returns. *)
Definition object_class (name : string) : option EglObject :=
  if existsb (String.eqb name) ["eglGetDisplay"; "eglGetPlatformDisplay"; "eglGetCurrentDisplay"] then Some Display
  else if existsb (String.eqb name) ["eglCreateContext"; "eglGetCurrentContext"] then Some Context
  else if existsb (String.eqb name) ["eglCreateWindowSurface"; "eglCreatePlatformWindowSurface"; "eglCreatePbufferSurface"; "eglGetCurrentSurface"] then Some Surface
  else None.

(** The configurations a call answered with: a vector of the size in its argument was passed. *)
Definition configs_given (r : answer) (configs : harg) (config_size : Z) : list (Z * EglObject) :=
  match configs with
  | HOut => if u32 (ret r) =? 0 then [] else map (fun v => (v, Config)) (take (Z.to_nat (Z.min config_size (Z.max (s32 (out r 0)) 0))) (found_configs r (Z.to_nat config_size)))
  | _ => []
  end.

Section History.
Context (host : list hostcall -> hostcall -> answer).

(** The objects a call hands over. *)
Definition given (past : list hostcall) (c : hostcall) : list (Z * EglObject) :=
  match object_class (h_name c) with
  | Some k => [(ret (host past c), k)]
  | None =>
      if String.eqb (h_name c) "eglGetConfigs" then match h_args c with [_; configs; HInt n; _] => configs_given (host past c) configs n | _ => [] end
      else if String.eqb (h_name c) "eglChooseConfig" then match h_args c with [_; _; configs; HInt n; _] => configs_given (host past c) configs n | _ => [] end
      else []
  end.

(** The class under which the driver first handed over each object. *)
Definition add_object (M : gmap Z EglObject) (x : Z * EglObject) : gmap Z EglObject := if fst x =? 0 then M else emplace (fst x) (snd x) M.
Fixpoint made_from (past log : list hostcall) (M : gmap Z EglObject) : gmap Z EglObject :=
  match log with [] => M | c :: log => made_from (past ++ [c]) log (foldl add_object M (given past c)) end.
Definition made (log : list hostcall) : gmap Z EglObject := made_from [] log ∅.

(** ** The contract of a driver call *)

(** The classes of the first arguments.  Only displays, configurations, contexts and surfaces
    have handles. *)
Definition object_args (name : string) : list EglObject :=
  if existsb (String.eqb name) ["eglBindTexImage"; "eglCopyBuffers"; "eglDestroySurface"; "eglQuerySurface"; "eglReleaseTexImage"; "eglSurfaceAttrib"; "eglSwapBuffers"] then [Display; Surface]
  else if existsb (String.eqb name) ["eglDestroyContext"; "eglQueryContext"] then [Display; Context]
  else if existsb (String.eqb name) ["eglCreatePbufferSurface"; "eglCreateWindowSurface"; "eglCreatePlatformWindowSurface"; "eglGetConfigAttrib"] then [Display; Config]
  else if String.eqb name "eglCreateContext" then [Display; Config; Context]
  else if String.eqb name "eglMakeCurrent" then [Display; Surface; Surface; Context]
  else if existsb (String.eqb name) ["eglClientWaitSync"; "eglDestroyImage"; "eglDestroySync"; "eglGetConfigs"; "eglChooseConfig"; "eglGetSyncAttrib"; "eglInitialize"; "eglQueryString"; "eglSwapInterval"; "eglTerminate"; "eglWaitSync"] then [Display]
  else [].

(** Null, or an object of the class that the driver handed over before. *)
Definition obj (past : list hostcall) (v : Z) (k : EglObject) : Prop := v = 0 \/ made past !! v = Some k.

(** The arguments that are native displays, native pixmaps, sync objects and images: these are
    pointers to the driver, and get a word of the guest as it is. *)
Definition raw_args (name : string) : list nat :=
  if existsb (String.eqb name) ["eglClientWaitSync"; "eglDestroyImage"; "eglDestroySync"; "eglGetSyncAttrib"; "eglWaitSync"] then [1%nat]
  else if String.eqb name "eglCopyBuffers" then [2%nat]
  else if String.eqb name "eglGetDisplay" then [0%nat]
  else [].

Definition contract (past : list hostcall) (c : hostcall) : Prop :=
  (forall i k, object_args (h_name c) !! i = Some k -> exists v, h_args c !! i = Some (HInt v) /\ obj past v k) /\
  (forall i, i ∈ raw_args (h_name c) -> exists v, h_args c !! i = Some (HInt v) /\ 0 <= v < 2 ^ 32).

(** ** The state of the bridge *)

(** The objects the driver has, no more than the table has slots. *)
Context (V : gset Z).

(** The tables name exactly the objects of [M], each by one handle and with its class. *)
Record einv (h : HostEgl) (M : gmap Z EglObject) : Prop := {
  ei_table : global_wf (objects_ h);
  ei_free : free_ (objects_ h) = [];
  ei_size : length (grefs_ (objects_ h)) = base.size (by_value_ h);
  ei_dom : dom (by_value_ h) ⊆ V;
  ei_value : forall v a, by_value_ h !! v = Some a -> v <> 0 /\ 0 < a < 2 ^ 32 /\ GlobalHandles_get (objects_ h) a = Ret (Some v);
  ei_known : forall a k, kinds_ h !! a = Some k -> exists v, by_value_ h !! v = Some a;
  ei_made : forall v k, M !! v = Some k <-> exists a, by_value_ h !! v = Some a /\ kinds_ h !! a = Some k;
  ei_kind : forall v a, by_value_ h !! v = Some a -> is_Some (kinds_ h !! a);
}.

Record esafe (s : Sv HostEgl) : Prop := {
  es_mem : mem_wf (smem s);
  es_inv : einv (own s) (made (scalls s));
  es_contracts : forall i c, scalls s !! i = Some c -> contract (take i (scalls s)) c;
}.

(** Handles keep their objects. *)
Definition keeps (h h' : HostEgl) : Prop := by_value_ h ⊆ by_value_ h' /\ kinds_ h ⊆ kinds_ h'.
#[export] Instance keeps_preorder : PreOrder keeps.
Proof. split; [by intros h; split|]. intros a b c [H1 H2] [H3 H4]. split; by etrans. Qed.

Lemma made_from_snoc past log c : forall M, made_from past (log ++ [c]) M = foldl add_object (made_from past log M) (given (past ++ log) c).
Proof. revert past. induction log as [|d log IH]; intros past M; cbn; [by rewrite app_nil_r|]. by rewrite IH, <- app_assoc. Qed.
Lemma made_snoc log c : made (log ++ [c]) = foldl add_object (made log) (given log c).
Proof. apply (made_from_snoc [] log c ∅). Qed.

Lemma add_object_keeps M x v k : M !! v = Some k -> add_object M x !! v = Some k.
Proof.
  intros H. unfold add_object, emplace. destruct (fst x =? 0); [done|]. destruct (M !! fst x) eqn:E; [done|]. rewrite lookup_insert_ne; [done|congruence].
Qed.
Lemma add_objects_keep l : forall M v k, M !! v = Some k -> foldl add_object M l !! v = Some k.
Proof. induction l as [|x l IH]; intros M v k H; cbn; [done|]. apply IH. by apply add_object_keeps. Qed.

Lemma obj_snoc log c v k : obj log v k -> obj (log ++ [c]) v k.
Proof. intros [->|H]; [by left|right]. rewrite made_snoc. by apply add_objects_keep. Qed.

Lemma plain_call name args past : object_args name = [] -> raw_args name = [] -> contract past {| h_name := name; h_args := args |}.
Proof. intros H Hr. split; [intros i k Hi; cbn in Hi; by rewrite H in Hi|]. intros i Hi. cbn in Hi. rewrite Hr in Hi. by apply elem_of_nil in Hi. Qed.

(** ** Entering an object *)

Context (HV : Z.of_nat (base.size V) <= kMaxSlots).

Lemma slot_left h M v : einv h M -> v ∈ V -> by_value_ h !! v = None -> Z.of_nat (length (grefs_ (objects_ h))) < kMaxSlots.
Proof.
  intros Hi Hv Hn. assert (base.size (dom (by_value_ h)) < base.size V)%nat as H; [|rewrite size_dom in H; rewrite (ei_size _ _ Hi); lia].
  apply subset_size. split; [apply Hi|]. intros Hsub. apply Hsub in Hv. apply not_elem_of_dom in Hn. done.
Qed.

Lemma einv_enter h M v k a t :
  einv h M -> v <> 0 -> v ∈ V -> by_value_ h !! v = None -> GlobalHandles_add (objects_ h) v = Ret (a, t) ->
  0 < a < 2 ^ 32 /\ let h' := with_objects h t (emplace v a (by_value_ h)) (emplace a k (kinds_ h)) in einv h' (add_object M (v, k)) /\ keeps h h'.
Proof.
  intros Hi Hv0 HvV Hn Ea. pose proof (slot_left h M v Hi HvV Hn) as Hroom. destruct (global_add_ok _ _ _ _ (ei_table _ _ Hi) Hv0 Ea) as (Hwf & Ha & Hnone & _ & Hget & Hother). split; [done|].
  assert (kinds_ h !! a = None) as Hk. { destruct (kinds_ h !! a) as [k'|] eqn:E; [|done]. apply (ei_known _ _ Hi) in E as [v' E]. apply (ei_value _ _ Hi) in E as (_ & _ & E). congruence. }
  assert (forall v' b, by_value_ h !! v' = Some b -> b <> a) as Hne. { intros v' b E ->. apply (ei_value _ _ Hi) in E as (_ & _ & E). congruence. }
  assert (M !! v = None) as HM. { destruct (M !! v) as [k'|] eqn:E; [|done]. apply (ei_made _ _ Hi) in E as (b & E & _). congruence. }
  assert (free_ t = [] /\ length (grefs_ t) = S (length (grefs_ (objects_ h)))) as [Hf Hl].
  { unfold GlobalHandles_add in Ea. rewrite (proj2 (Z.eqb_neq v 0) Hv0), (ei_free _ _ Hi), decide_False in Ea by lia. injection Ea as _ <-. cbn. split; [done|]. rewrite length_app. cbn. lia. }
  unfold emplace, add_object. cbn [fst snd]. rewrite Hn, Hk, (proj2 (Z.eqb_neq v 0) Hv0). unfold emplace. rewrite HM. split; [|split; cbn; apply insert_subseteq; done].
  constructor; cbn.
  - done.
  - done.
  - rewrite Hl, (ei_size _ _ Hi), map_size_insert_None by done. done.
  - rewrite dom_insert. pose proof (ei_dom _ _ Hi). set_solver.
  - intros v' b E. apply lookup_insert_Some in E as [[<- <-]|[_ E]]; [done|]. pose proof (Hne v' b E). apply (ei_value _ _ Hi) in E as (? & ? & E). rewrite Hother by lia. done.
  - intros b k' E. apply lookup_insert_Some in E as [[<- _]|[_ E]]; [exists v; by rewrite lookup_insert_eq|]. apply (ei_known _ _ Hi) in E as [v' E]. exists v'. rewrite lookup_insert_ne; [done|congruence].
  - intros v' k'. destruct (decide (v' = v)) as [->|Hv'].
    + rewrite lookup_insert_eq. split; [intros [= <-]; exists a; by rewrite !lookup_insert_eq|]. intros (b & E & Ek). rewrite lookup_insert_eq in E. injection E as <-. by rewrite lookup_insert_eq in Ek.
    + rewrite lookup_insert_ne by done. rewrite (ei_made _ _ Hi). split; intros (b & E & Ek); exists b.
      * pose proof (Hne v' b E). rewrite !lookup_insert_ne by congruence. done.
      * rewrite lookup_insert_ne in E by done. pose proof (Hne v' b E). rewrite lookup_insert_ne in Ek by congruence. done.
  - intros v' b E. apply lookup_insert_Some in E as [[<- <-]|[_ E]]; [by rewrite lookup_insert_eq|]. pose proof (Hne v' b E). rewrite lookup_insert_ne by congruence. by apply (ei_kind _ _ Hi v').
Qed.

Lemma wp_handle_for v k s M (Q : Z -> Sv HostEgl -> Prop) :
  einv (own s) M -> v = 0 \/ v ∈ V -> (forall a h', 0 <= a < 2 ^ 32 -> einv h' (add_object M (v, k)) -> keeps (own s) h' -> Q a (Build_Sv h' (smem s) (scalls s))) -> wp False (handle_for v k) s Q.
Proof.
  intros Hi Hv HQ. unfold handle_for. destruct (Z.eqb_spec v 0) as [->|Hv0]; [apply wp_ret; destruct s; apply HQ; [lia|done|done]|]. destruct Hv as [?|HvV]; [done|]. apply wp_bind, wp_get_own.
  destruct (by_value_ (own s) !! v) as [a|] eqn:Eb.
  - apply wp_ret. pose proof Eb as Ev. apply (ei_value _ _ Hi) in Ev as (_ & Ha & _). destruct s as [o m l]. apply HQ; [lia| |done]. unfold add_object. cbn [fst snd own] in *. rewrite (proj2 (Z.eqb_neq v 0) Hv0).
    destruct (ei_kind _ _ Hi v a Eb) as [k' Ek]. assert (M !! v = Some k') as HM by (apply (ei_made _ _ Hi); by exists a). unfold emplace. by rewrite HM.
  - pose proof (slot_left _ M v Hi HvV Eb) as Hroom. destruct (global_add_spec _ v (ei_table _ _ Hi) Hv0) as [(t & i & w & Ea & _)|(_ & _ & Hfull)]; [|lia].
    destruct (einv_enter _ M v k _ t Hi Hv0 HvV Eb Ea) as (Ha & Hi' & Hk'). apply wp_bind, wp_lift. rewrite Ea. cbn [runs]. rewrite (proj2 (Z.eqb_neq _ 0)) by lia. apply wp_bind, wp_put_own, wp_ret. apply HQ; [lia|done|done].
Qed.

(** A handle that is found names an object of its class. *)
Lemma wp_lookup a k s (Q : option Z -> Sv HostEgl -> Prop) :
  esafe s -> 0 <= a -> (forall r, match r with Some v => obj (scalls s) v k | None => True end -> Q r s) -> wp False (lookup_object a k) s Q.
Proof.
  intros Hs Ha HQ. unfold lookup_object. destruct (Z.eqb_spec a 0) as [|Ha0]; [apply wp_ret, HQ; by left|]. apply wp_bind, wp_get_own. pose proof (es_inv _ Hs) as Hi.
  destruct (global_get_spec (objects_ (own s)) a (ei_table _ _ Hi) Ha0) as [(v & E & _)|(E & _)]; apply wp_bind, wp_lift; rewrite E; cbn [runs]; apply wp_ret, HQ; [|done].
  destruct (v =? 0); [done|]. destruct (kinds_ (own s) !! a) as [k'|] eqn:Ek; [|done]. destruct (decide (k' = k)) as [->|]; [|done]. right. apply (ei_made _ _ Hi). exists a. split; [|done].
  destruct (ei_known _ _ Hi _ _ Ek) as [v' Ev]. pose proof Ev as (_ & _ & E')%(ei_value _ _ Hi). congruence.
Qed.

(** ** Reasoning about calls *)

Definition ecall_word (c : ECall) : Prop := 0 <= e_result c < 2 ^ 32.

(** The state is safe, with page table [p] and log [l], and keeps the handles of [h0]. *)
Record est (h0 : HostEgl) (p : Z -> Z) (l : list hostcall) (s : Sv HostEgl) : Prop := {
  st_safe : esafe s;
  st_pages : pages_ (smem s) = p;
  st_log : scalls s = l;
  st_keeps : keeps h0 (own s);
}.

Definition ewp {A} (m : ecall A) (c : ECall) (s : Sv HostEgl) (Q : A -> ECall -> Sv HostEgl -> Prop) : Prop := wp False (m c) s (fun x s' => Q (fst x) (snd x) s').

Lemma ewp_ret {A} (a : A) c s (Q : A -> ECall -> Sv HostEgl -> Prop) : Q a c s -> ewp (mret a) c s Q.
Proof. done. Qed.
Lemma ewp_bind {A B} (m : ecall A) (f : A -> ecall B) c s Q : ewp m c s (fun a c' s' => ewp (f a) c' s' Q) -> ewp (m ≫= f) c s Q.
Proof. intros H. unfold ewp, mbind, ecall_bind. apply wp_bind. eapply wp_mono; [exact H|]. by intros [a c'] s'. Qed.
Lemma ewp_run {A} (m : svc HostEgl A) c s (Q : A -> ECall -> Sv HostEgl -> Prop) : wp False m s (fun a s' => Q a c s') -> ewp (erun m) c s Q.
Proof. intros H. unfold ewp, erun. apply wp_bind. eapply wp_mono; [exact H|]. intros a s' HQ. by apply wp_ret. Qed.
Lemma ewp_valid c s (Q : bool -> ECall -> Sv HostEgl -> Prop) : Q (e_valid c) c s -> ewp evalid c s Q.
Proof. done. Qed.
Lemma ewp_if_valid k c s (Q : unit -> ECall -> Sv HostEgl -> Prop) : (e_valid c = true -> ewp k c s Q) -> Q tt c s -> ewp (if_evalid k) c s Q.
Proof. intros Hk Hq. apply ewp_bind, ewp_valid. destruct (e_valid c); [by apply Hk|by apply ewp_ret]. Qed.
Lemma ewp_result v c s (Q : unit -> ECall -> Sv HostEgl -> Prop) : (forall c', ecall_word c' -> Q tt c' s) -> ewp (set_eresult v) c s Q.
Proof. intros HQ. apply (HQ {| e_valid := e_valid c; e_result := u32 v |}). apply u32_range. Qed.

Section Sound.
Context (guest : Z -> list Z -> Sv HostEgl -> option GuestResult * Sv HostEgl) (submit : Command -> Sv HostEgl -> Response * Sv HostEgl) (windows : Z -> Z) (malloc_fn index : Z) (regs : list Z).
Context (Hhost : kernel_ok host) (Hregs : words regs).

(** Every object is one of [V]. *)
Definition driver_bounded : Prop := forall past c x, x ∈ given past c -> fst x = 0 \/ fst x ∈ V.
(** Code of the guest, and what the service thread does for a command, may make EGL calls. *)
Definition egl_guest_ok : Prop := forall f args s, esafe s ->
  let '(r, s') := guest f args s in esafe s' /\ keeps (own s) (own s') /\ match r with Some r => 0 <= res_r0 r < 2 ^ 32 | None => True end.
Definition submit_ok : Prop := forall c s, esafe s ->
  let '(r, s') := submit c s in esafe s' /\ keeps (own s) (own s') /\ (ok r = true -> exists g, result r = Some g /\ 0 <= res_r0 g < 2 ^ 32).
Context (Hobjects : driver_bounded) (Hguest : egl_guest_ok) (Hsubmit : submit_ok).
Context (h0 : HostEgl).

Notation later p l := (fun c' s' => ecall_word c' /\ est h0 p l s').

Lemma einv_error h M e : einv h M -> einv (with_error h e) M.
Proof. by intros []. Qed.

Lemma ewp_fail e c s p l (Q : unit -> ECall -> Sv HostEgl -> Prop) :
  est h0 p l s -> ecall_word c -> (forall c' s', e_valid c' = false -> ecall_word c' -> est h0 p l s' -> Q tt c' s') -> ewp (efail e) c s Q.
Proof.
  intros Hs Hc HQ. unfold ewp, efail. destruct (e_valid c) eqn:Ev; [|by apply wp_ret, HQ]. apply (ewp_run _ {| e_valid := false; e_result := e_result c |} s Q), wp_bind, wp_get_own, wp_put_own. apply HQ; [done|done|].
  destruct Hs as [[H1 H2 H3] H4 H5 H6]. constructor; [|done|done|done]. constructor; [done|by apply einv_error|done].
Qed.
Lemma ewp_fail_ret {A} (a : A) e c s p l (Q : A -> ECall -> Sv HostEgl -> Prop) :
  est h0 p l s -> ecall_word c -> (forall c' s', e_valid c' = false -> ecall_word c' -> est h0 p l s' -> Q a c' s') -> ewp (_ ← efail e; mret a) c s Q.
Proof. intros Hs Hc HQ. apply ewp_bind. eapply ewp_fail; [done..|]. intros c' s' Hv Hc' Hs'. by apply ewp_ret, HQ. Qed.

Lemma ewp_arg i c s p l (Q : Z -> ECall -> Sv HostEgl -> Prop) :
  est h0 p l s -> ecall_word c -> (forall v c' s', 0 <= v < 2 ^ 32 -> ecall_word c' -> est h0 p l s' -> Q v c' s') -> ewp (earg regs i) c s Q.
Proof.
  intros Hs Hc HQ. unfold earg. destruct (i <? 4)%nat; [apply ewp_ret, HQ; [by apply reg_word|done|done]|]. pose proof (reg_word regs 13 Hregs).
  destruct (UINT32_MAX <? _); [eapply ewp_fail_ret; [done..|]; intros; by apply HQ|]. apply ewp_bind, ewp_run, wp_ptr; intros Ea; [|eapply ewp_fail_ret; [done..|]; intros; by apply HQ].
  pose proof (u32_range (reg regs 13 + 4 * (Z.of_nat i - 4))). apply ewp_bind, ewp_run, (wp_load _ _ _ kPageRead); [apply Hs|done|done|done|done|]. apply ewp_ret, HQ; [|done|done]. apply (le_range _ (bytes_at_ok _ _ 4)).
Qed.

Lemma ewp_scalar t i c s p l (Q : Z -> ECall -> Sv HostEgl -> Prop) :
  est h0 p l s -> ecall_word c -> (forall v c' s', 0 <= v < 2 ^ 32 -> ecall_word c' -> est h0 p l s' -> Q (escalar_of t v) c' s') -> ewp (escalar regs t i) c s Q.
Proof. intros Hs Hc HQ. apply ewp_bind. eapply ewp_arg; [done..|]. intros v c' s' Hv Hc' Hs'. by apply ewp_ret, HQ. Qed.

Lemma ewp_handle i k c s p l (Q : Z -> ECall -> Sv HostEgl -> Prop) :
  est h0 p l s -> ecall_word c -> (forall v c' s', obj l v k -> ecall_word c' -> est h0 p l s' -> Q v c' s') -> ewp (handle_of regs i k) c s Q.
Proof.
  intros Hs Hc HQ. apply ewp_bind. eapply ewp_arg; [done..|]. intros a c' s' Ha Hc' Hs'. apply ewp_bind, ewp_valid. destruct (negb _); [apply ewp_ret, HQ; [by left|done|done]|]. destruct (a =? 0); [apply ewp_ret, HQ; [by left|done|done]|].
  apply ewp_bind, ewp_run, wp_lookup; [apply Hs'|lia|]. intros [v|] Hv; [apply ewp_ret, HQ; [|done|done]|eapply ewp_fail_ret; [done..|]; intros; apply HQ; [by left|done|done]]. by rewrite (st_log _ _ _ _ Hs') in Hv.
Qed.

Lemma ewp_with_object i k f c s p l (Q : unit -> ECall -> Sv HostEgl -> Prop) :
  est h0 p l s -> ecall_word c -> (forall v c' s', obj l v k -> ecall_word c' -> est h0 p l s' -> ewp (f v) c' s' Q) -> (forall c' s', ecall_word c' -> est h0 p l s' -> Q tt c' s') -> ewp (with_object regs i k f) c s Q.
Proof. intros Hs Hc HQ HQ'. apply ewp_bind. eapply ewp_handle; [done..|]. intros v c' s' Hv Hc' Hs'. apply ewp_if_valid; [intros _; by apply HQ|by apply HQ']. Qed.

Lemma ewp_pointer n i k need c s p l (Q : option Z -> ECall -> Sv HostEgl -> Prop) :
  est h0 p l s -> ecall_word c -> 0 < n -> 0 <= k -> (forall q c' s', ptr_okp p q (k * n) need -> ecall_word c' -> est h0 p l s' -> Q q c' s') -> ewp (epointer regs n i k need) c s Q.
Proof.
  intros Hs Hc Hn Hk HQ. apply ewp_bind. eapply ewp_arg; [done..|]. intros v c1 s1 Hv Hc1 Hs1. change kGuestSpaceSize with (2 ^ 32).
  destruct (Z.ltb_spec (2 ^ 32 / n) k) as [|Hle]; [eapply ewp_fail_ret; [done..|]; intros; by apply HQ|]. destruct (Z.eqb_spec v 0) as [->|Hv0]; [by apply ewp_ret, HQ|].
  assert (k * n <= 2 ^ 32) by (pose proof (Z.mul_div_le (2 ^ 32) n); nia). apply ewp_bind, ewp_run, wp_ptr; intros Ea; [|eapply ewp_fail_ret; [done..|]; intros; by apply HQ].
  apply ewp_ret, HQ; [|done|done]. split_and!; [lia|lia|nia|lia|]. intros m Em. rewrite (accessible_same (smem s1) m); [done|]. by rewrite (st_pages _ _ _ _ Hs1).
Qed.

(** ** The driver *)

(** As [est], while the objects [xs] of the last call have not been entered. *)
Record epend (p : Z -> Z) (l : list hostcall) (xs : list (Z * EglObject)) (s : Sv HostEgl) : Prop := {
  pd_mem : mem_wf (smem s);
  pd_pages : pages_ (smem s) = p;
  pd_log : scalls s = l;
  pd_keeps : keeps h0 (own s);
  pd_inv : exists M, einv (own s) M /\ made l = foldl add_object M xs;
  pd_contracts : forall i c, l !! i = Some c -> contract (take i l) c;
}.

Lemma epend_of p l s : est h0 p l s -> epend p l [] s.
Proof. intros [[H1 H2 H3] <- <- H6]. constructor; try done. by exists (made (scalls s)). Qed.
Lemma est_of p l s : epend p l [] s -> est h0 p l s.
Proof. intros [H1 <- <- H4 (M & H5 & H6) H7]. constructor; try done. constructor; [done|cbn in H6; by rewrite H6|done]. Qed.

Lemma ewp_driver_pend name args c s p l xs (Q : answer -> ECall -> Sv HostEgl -> Prop) :
  epend p l xs s -> Forall (arg_okp p) args -> contract l {| h_name := name; h_args := args |} ->
  (forall s', epend p (l ++ [{| h_name := name; h_args := args |}]) (xs ++ given l {| h_name := name; h_args := args |}) s' -> Q (host l {| h_name := name; h_args := args |}) c s') ->
  ewp (edriver host name args) c s Q.
Proof.
  intros [H1 H2 <- H4 (M & H5 & H6) H7] Hargs Hcon HQ. apply ewp_run, (wp_backend host Hhost); [done|by eapply arg_okp_forall|]. intros m How Hm. apply HQ. constructor; [done|destruct How as (E & _); cbn; congruence|done|done| |by apply (contracts_snoc contract)].
  exists M. split; [done|]. by rewrite made_snoc, H6, foldl_app.
Qed.

Lemma ewp_driver name args c s p l (Q : answer -> ECall -> Sv HostEgl -> Prop) :
  est h0 p l s -> Forall (arg_okp p) args -> contract l {| h_name := name; h_args := args |} ->
  (forall s', epend p (l ++ [{| h_name := name; h_args := args |}]) (given l {| h_name := name; h_args := args |}) s' -> Q (host l {| h_name := name; h_args := args |}) c s') ->
  ewp (edriver host name args) c s Q.
Proof. intros Hs Hargs Hcon HQ. by eapply ewp_driver_pend; [by apply epend_of|..]. Qed.

(** Calls that hand over nothing. *)
Definition quiet (name : string) : bool := match object_class name with Some _ => false | None => negb (String.eqb name "eglGetConfigs" || String.eqb name "eglChooseConfig") end.
Lemma given_quiet l name args : quiet name = true -> given l {| h_name := name; h_args := args |} = [].
Proof. unfold quiet, given. cbn [h_name]. destruct (object_class name); [done|]. rewrite negb_true_iff, orb_false_iff. by intros [-> ->]. Qed.

Lemma ewp_quiet name args c s p l (Q : answer -> ECall -> Sv HostEgl -> Prop) :
  est h0 p l s -> quiet name = true -> Forall (arg_okp p) args -> contract l {| h_name := name; h_args := args |} ->
  (forall r s' l', est h0 p l' s' -> Q r c s') -> ewp (edriver host name args) c s Q.
Proof. intros Hs Hq Hargs Hcon HQ. eapply ewp_driver; [done..|]. intros s' Hs'. rewrite given_quiet in Hs' by done. by eapply HQ, est_of. Qed.

Lemma given_object l name args k : object_class name = Some k -> given l {| h_name := name; h_args := args |} = [(ret (host l {| h_name := name; h_args := args |}), k)].
Proof. intros H. unfold given. cbn [h_name]. by rewrite H. Qed.

Lemma ewp_enter v k xs c s p l (Q : Z -> ECall -> Sv HostEgl -> Prop) :
  epend p l ((v, k) :: xs) s -> v = 0 \/ v ∈ V -> (forall a s', 0 <= a < 2 ^ 32 -> epend p l xs s' -> Q a c s') -> ewp (erun (handle_for v k)) c s Q.
Proof.
  intros [H1 H2 H3 H4 (M & H5 & H6) H7] Hv HQ. eapply ewp_run, wp_handle_for; [done..|]. intros a h' Ha Hi Hk. apply HQ; [done|]. constructor; [done|done|done|by etrans| |done]. by exists (add_object M (v, k)).
Qed.

Lemma ewp_set_handle v k c s p l (Q : unit -> ECall -> Sv HostEgl -> Prop) :
  epend p l [(v, k)] s -> v = 0 \/ v ∈ V -> (forall c' s', ecall_word c' -> est h0 p l s' -> Q tt c' s') -> ewp (set_handle v k) c s Q.
Proof. intros Hs Hv HQ. apply ewp_bind. eapply ewp_enter; [done..|]. intros a s' Ha Hs'. apply ewp_result. intros c' Hc'. by apply HQ; [|apply est_of]. Qed.

(** A call that returns an object, which is entered. *)
Lemma ewp_object name args k c s p l (Q : unit -> ECall -> Sv HostEgl -> Prop) :
  est h0 p l s -> object_class name = Some k -> Forall (arg_okp p) args -> contract l {| h_name := name; h_args := args |} ->
  (forall c' s' l', ecall_word c' -> est h0 p l' s' -> Q tt c' s') -> ewp (r ← edriver host name args; set_handle (ret r) k) c s Q.
Proof.
  intros Hs Hk Hargs Hcon HQ. apply ewp_bind. eapply ewp_driver; [done..|]. intros s' Hs'. pose proof (Hobjects l {| h_name := name; h_args := args |}) as Hb. rewrite (given_object _ _ _ k) in Hs', Hb by done.
  eapply ewp_set_handle; [done|apply (Hb (_, k)), list_elem_of_singleton; done|]. intros. by eapply HQ.
Qed.

Lemma ewp_store a bs n c s p l xs (Q : unit -> ECall -> Sv HostEgl -> Prop) :
  epend p l xs s -> 0 <= a < 2 ^ 32 -> size bs <= n < 2 ^ 40 -> accessible (smem s) a n RW = true -> (forall s', own s' = own s -> epend p l xs s' -> Q tt c s') -> ewp (erun (store a bs)) c s Q.
Proof.
  intros [H1 H2 H3 H4 H5 H6] Ha Hn Hacc HQ. apply ewp_run. assert (0 <= size bs) by (unfold size; lia). apply (wp_store _ _ _ a n RW); [done|done|lia|done|done|lia|lia|]. intros m _ How Hm. apply HQ; [done|]. constructor; [done| |done|done|done|done]. destruct How as (E & _). cbn. congruence.
Qed.

(** ** Generated cases *)

Definition bound_arg (p : Z -> Z) (l : list hostcall) (b : ebinding) (a : harg) : Prop :=
  arg_okp p a /\ match b with Handle i => exists v, a = HInt v /\ obj l v (argument_kind index i) | EScalar EGLpointer _ => exists v, a = HInt v /\ 0 <= v < 2 ^ 32 | _ => True end.
Definition binding_ok (b : ebinding) : bool := match b with EPointer n _ => 0 <? n | _ => true end.

Lemma ewp_bind_all binds c s p l (Q : option (list harg) -> ECall -> Sv HostEgl -> Prop) :
  est h0 p l s -> ecall_word c -> forallb binding_ok binds = true -> (forall r c' s', match r with Some args => Forall2 (bound_arg p l) binds args | None => True end -> ecall_word c' -> est h0 p l s' -> Q r c' s') ->
  ewp (bind_all index regs binds) c s Q.
Proof.
  revert c s Q. induction binds as [|b binds IH]; intros c s Q Hs Hc Hb HQ; cbn [bind_all]; [apply ewp_ret, HQ; [constructor|done|done]|]. cbn [forallb] in Hb. apply andb_true_iff in Hb as [Hb Hbs].
  assert (forall a c' s', bound_arg p l b a -> ecall_word c' -> est h0 p l s' -> ewp (r ← bind_all index regs binds; mret (cons a <$> r)) c' s' Q) as Hnext.
  { intros a c' s' Ha Hc' Hs'. apply ewp_bind. eapply IH; [done..|]. intros [r|] c2 s2 Hr Hc2 Hs2; apply ewp_ret, HQ; [by constructor|done..]. }
  destruct b as [i|t i|n i]; apply ewp_bind.
  - eapply ewp_handle; [done..|]. intros v c1 s1 Hv Hc1 Hs1. apply ewp_bind, ewp_valid. destruct (e_valid c1); [|by apply ewp_ret, HQ]. apply Hnext; [|done|done]. split; [done|]. by exists v.
  - eapply ewp_scalar; [done..|]. intros v c1 s1 Hv Hc1 Hs1. apply Hnext; [|done|done]. split; [done|]. destruct t; try done. exists v. by split.
  - cbn in Hb. apply Z.ltb_lt in Hb. eapply ewp_pointer; [done|done|done|lia|]. intros q c1 s1 Hq Hc1 Hs1. apply Hnext; [|done|done]. split; [|done]. rewrite Z.mul_1_l in Hq. by apply arg_okp_ptr.
Qed.

(** The bindings put objects of the right classes first, and the class of the result fits. *)
Definition case_ok (name : string) (binds : list ebinding) (o : eoutcome) : bool :=
  forallb binding_ok binds && bool_decide (map Some (object_args name) = map (fun b => match b with Handle i => Some (argument_kind index i) | _ => None end) (take (length (object_args name)) binds)) &&
  forallb (fun i => match binds !! i with Some (EScalar EGLpointer _) => true | _ => false end) (raw_args name) &&
  match o with SetResult => quiet name | SetHandle => bool_decide (object_class name = Some (result_kind index)) end.

Lemma bound_contract name binds args p l o : case_ok name binds o = true -> Forall2 (bound_arg p l) binds args -> contract l {| h_name := name; h_args := args |}.
Proof.
  unfold case_ok. rewrite !andb_true_iff, bool_decide_eq_true. intros (((_ & E) & Hraw) & _) Hargs. split; intros i; cbn [h_name h_args] in *.
  2: { intros Hi. rewrite forallb_forall in Hraw. specialize (Hraw i ltac:(by apply list_elem_of_In)). destruct (binds !! i) as [[|[] j|]|] eqn:Eb; try done. destruct (Forall2_lookup_l _ _ _ _ _ Hargs Eb) as (a & Ea & _ & v & -> & Hv). by exists v. }
  intros k Hi.
  assert (map Some (object_args name) !! i = Some (Some k)) as Hm by (by rewrite list_lookup_fmap, Hi). rewrite E, list_lookup_fmap in Hm. destruct (take _ binds !! i) as [b|] eqn:Eb; [|done]. cbn in Hm.
  destruct b as [j| |]; [|done..]. injection Hm as Hm. apply lookup_take_Some in Eb as [Eb _]. destruct (Forall2_lookup_l _ _ _ _ _ Hargs Eb) as (a & Ea & _ & v & -> & Hv). exists v. split; [done|]. by rewrite <- Hm.
Qed.

(** ** Whole calls *)

Definition edone (c' : ECall) (s' : Sv HostEgl) : Prop := ecall_word c' /\ esafe s' /\ keeps h0 (own s').
Definition esound (m : ecall unit) : Prop := forall c s p l, est h0 p l s -> ecall_word c -> ewp m c s (fun _ c' s' => edone c' s').

Lemma edone_est p l c' s' : ecall_word c' -> est h0 p l s' -> edone c' s'.
Proof. intros Hc [H1 _ _ H2]. by split. Qed.

Lemma generated_esound name binds o : case_ok name binds o = true -> esound (egl_generated host index regs name binds o).
Proof.
  intros Hok c s p l Hs Hc. pose proof Hok as Hok'. unfold case_ok in Hok'. rewrite !andb_true_iff in Hok'. destruct Hok' as [[[Hb _] _] Ho]. apply ewp_bind. eapply ewp_bind_all; [done..|]. intros [args|] c1 s1 Hr Hc1 Hs1; [|by eapply ewp_ret, edone_est].
  assert (Forall (arg_okp p) args) as Hargs by (apply Forall_forall; intros a Ha; apply list_elem_of_lookup_1 in Ha as [i Ha]; destruct (Forall2_lookup_r _ _ _ _ _ Hr Ha) as (b & _ & H & _); exact H).
  apply ewp_if_valid; [intros _|by eapply edone_est]. destruct o.
  - apply ewp_bind. eapply ewp_quiet; [done|done|done|by eapply bound_contract|]. intros r s2 l2 Hs2. apply ewp_result. intros c3 Hc3. by eapply edone_est.
  - eapply ewp_object; [done|by apply bool_decide_eq_true in Ho|done|by eapply bound_contract|]. intros. by eapply edone_est.
Qed.

(** ** Lists and strings of the guest *)

Lemma ewp_attribs_loop n i a acc c s p l (Q : option (list Z) -> ECall -> Sv HostEgl -> Prop) :
  est h0 p l s -> ecall_word c -> 0 <= a -> 0 <= i -> (forall r c' s', ecall_word c' -> est h0 p l s' -> Q r c' s') -> ewp (attribs_loop n i a acc) c s Q.
Proof.
  revert i acc. induction n as [|n IH]; intros i acc Hs Hc Ha Hi HQ; cbn [attribs_loop]; [eapply ewp_fail_ret; [done..|]; intros; by apply HQ|]. change kGuestSpaceSize with (2 ^ 32).
  destruct (Z.ltb_spec (2 ^ 32) (a + 4 * i + 4)); [eapply ewp_fail_ret; [done..|]; intros; by apply HQ|]. apply ewp_bind, ewp_run, wp_ptr; intros Ea; [|eapply ewp_fail_ret; [done..|]; intros; by apply HQ].
  apply ewp_bind, ewp_run, (wp_load _ _ _ kPageRead); [apply Hs|apply u32_range|done|done|done|]. cbv zeta. destruct (_ =? kEglNone); [by apply ewp_ret, HQ|]. by apply IH; [..|lia|].
Qed.

Lemma ewp_attribs i c s p l (Q : option (list Z) -> ECall -> Sv HostEgl -> Prop) :
  est h0 p l s -> ecall_word c -> (forall r c' s', ecall_word c' -> est h0 p l s' -> Q r c' s') -> ewp (read_attribs regs i) c s Q.
Proof.
  intros Hs Hc HQ. apply ewp_bind. eapply ewp_arg; [done..|]. intros a c1 s1 Ha Hc1 Hs1. apply ewp_bind, ewp_valid. destruct (negb _); [by apply ewp_ret, HQ|]. destruct (a =? 0); [by apply ewp_ret, HQ|]. eapply ewp_attribs_loop; [done|done|lia|lia|done].
Qed.

Lemma attribs_arg_ok p a : arg_okp p (attribs_arg a).
Proof. by destruct a. Qed.

Lemma ewp_guest_string i c s p l (Q : option (list Z) -> ECall -> Sv HostEgl -> Prop) :
  est h0 p l s -> ecall_word c -> (forall r c' s', ecall_word c' -> est h0 p l s' -> Q r c' s') -> ewp (read_guest_string regs i) c s Q.
Proof.
  intros Hs Hc HQ. apply ewp_bind. eapply ewp_arg; [done..|]. intros a c1 s1 Ha Hc1 Hs1. apply ewp_bind, ewp_valid. destruct (negb _); [by apply ewp_ret, HQ|]. destruct (a =? 0); [eapply ewp_fail_ret; [done..|]; intros; by apply HQ|].
  apply ewp_bind, ewp_run, wp_string; [apply Hs1|done|unfold kMaxGuestString; lia|]. intros [t|] _; [by apply ewp_ret, HQ|eapply ewp_fail_ret; [done..|]; intros; by apply HQ].
Qed.

(** ** Code of other threads *)

Lemma esafe_guest s x : h_name x = "guest" -> esafe s -> esafe (Build_Sv (own s) (smem s) (scalls s ++ [x])).
Proof.
  intros Ex [H1 H2 H3]. destruct x as [n args]. cbn in Ex. subst n. constructor; cbn [own smem scalls]; [done|by rewrite made_snoc|]. apply (contracts_snoc contract); [done|by apply plain_call].
Qed.

Lemma ewp_allocate n c s p l (Q : option Z -> ECall -> Sv HostEgl -> Prop) :
  est h0 p l s -> (forall r s' p' l', match r with Some a => 0 < a < 2 ^ 32 | None => True end -> est h0 p' l' s' -> Q r c s') -> ewp (allocate guest malloc_fn n) c s Q.
Proof.
  intros Hs HQ. unfold allocate. destruct (_ || _); [by eapply ewp_ret, (HQ None)|]. apply ewp_bind, ewp_run, wp_bind. unfold wp, call_guest, runs. set (x := {| h_name := "guest"; h_args := _ |}).
  specialize (Hguest malloc_fn [n; 0; 0; 0] _ (esafe_guest s x eq_refl (st_safe _ _ _ _ Hs))). destruct (guest _ _ _) as [r s']. destruct Hguest as (H1 & H2 & H3). cbn [own] in H2.
  apply wp_ret, ewp_ret, (HQ _ s' (pages_ (smem s')) (scalls s')); [|constructor; [done|done|done|etrans; [apply Hs|done]]]. destruct r as [r|]; [|done]. destruct (Z.eqb_spec (res_r0 r) 0); [done|lia].
Qed.

Definition steady (s' : Sv HostEgl) : Prop := est h0 (pages_ (smem s')) (scalls s') s'.
Lemma est_steady p l s : est h0 p l s -> steady s.
Proof. by intros []. Qed.

Lemma wp_command k s (Q : Z -> Sv HostEgl -> Prop) : steady s -> (forall v s', 0 <= v < 2 ^ 32 -> steady s' -> Q v s') -> wp False (run_command submit k) s Q.
Proof.
  intros Hs HQ. unfold wp, run_command, runs. specialize (Hsubmit k s (st_safe _ _ _ _ Hs)). destruct (submit k s) as [r s']. destruct Hsubmit as (H1 & H2 & H3). assert (steady s') as Hs' by (constructor; [done|done|done|etrans; [apply Hs|done]]).
  destruct (ok r); cbn [negb]; [|by apply HQ]. destruct (H3 eq_refl) as (g & -> & Hg). by apply HQ.
Qed.

Lemma wp_stub_in egl name s (Q : Z -> Sv HostEgl -> Prop) : steady s -> (forall v s', steady s' -> Q v s') -> wp False (stub_in submit egl name) s Q.
Proof.
  intros Hs HQ. apply wp_bind, wp_get_own, wp_bind. assert (forall v s', steady s' -> wp False (if v =? 0 then mret 0 else find_symbol submit v name) s' Q) as Hend.
  { intros v s' Hs'. destruct (v =? 0); [by apply wp_ret, HQ|]. apply wp_command; [done|]. intros w s2 _ Hs2. by apply HQ. }
  destruct (_ =? 0); [|by apply wp_ret, Hend]. apply wp_bind, wp_command; [done|]. intros v s1 _ Hs1. apply wp_bind, wp_get_own, wp_bind, wp_put_own, wp_ret, Hend. destruct Hs1 as [[H1 H2 H3] H4 H5 H6]. constructor; [|done|done|done]. constructor; [done|by destruct H2|done].
Qed.

Lemma wp_stub_address name s (Q : Z -> Sv HostEgl -> Prop) : steady s -> (forall v s', steady s' -> Q v s') -> wp False (stub_address submit name) s Q.
Proof.
  intros Hs HQ. apply wp_bind, wp_command; [done|]. intros v s1 _ Hs1. destruct (negb _); [by apply wp_ret, HQ|]. apply wp_bind, wp_stub_in; [done|]. intros w s2 Hs2. destruct (negb _); [by apply wp_ret, HQ|by apply wp_stub_in].
Qed.

(** ** Hand-written calls *)

Ltac eok := lazymatch goal with |- edone _ _ => eapply edone_est; eassumption | |- forall _, _ => intros; eapply edone_est; eassumption end.
Ltac eargs := repeat (apply Forall_cons_2; [first [assumption|apply attribs_arg_ok|intros ? ?; exact I]|]); apply Forall_nil_2.
Ltac econtract :=
  let i := fresh "i" in let k := fresh "k" in let H := fresh "H" in
  split; [|intros i H; apply elem_of_nil in H; destruct H];
  intros i k H; cbn [h_name h_args] in *; cbv [object_args existsb orb String.eqb Ascii.eqb Bool.eqb] in H;
  repeat first [discriminate H|destruct i as [|i]; cbn in H; [injection H as <-; eexists; split; [reflexivity|eassumption]|]].
Ltac estep :=
  lazymatch goal with
  | |- ewp (mret _) _ _ _ => apply ewp_ret; try eok
  | |- ewp (efail _) _ _ _ => eapply ewp_fail; [eassumption..|]; intros ? ? ? ? ?; try eok
  | |- ewp (set_eresult _) _ _ _ => apply ewp_result; intros ? ?; try eok
  | |- ewp (if_evalid _) _ _ _ => apply ewp_if_valid; [intros ?|try eok]
  | |- ewp (with_object _ _ _ _) _ _ _ => eapply ewp_with_object; [eassumption..| |try eok]; [intros ? ? ? ? ? ?]
  | |- ewp (_ ← edriver _ _ _; set_handle _ _) _ _ _ => eapply ewp_object; [eassumption|reflexivity|eargs|econtract|try eok]
  | |- ewp (mbind _ ?m) _ _ _ =>
      apply ewp_bind;
      lazymatch m with
      | escalar _ _ _ => eapply ewp_scalar; [eassumption..|]; intros ? ? ? ? ? ?
      | earg _ _ => eapply ewp_arg; [eassumption..|]; intros ? ? ? ? ? ?
      | handle_of _ _ _ => eapply ewp_handle; [eassumption..|]; intros ? ? ? ? ? ?
      | read_attribs _ _ => eapply ewp_attribs; [eassumption..|]; intros [?|] ? ? ? ?
      | read_guest_string _ _ => eapply ewp_guest_string; [eassumption..|]; intros [?|] ? ? ? ?
      | epointer _ _ _ _ _ => eapply ewp_pointer; [eassumption|eassumption|lia|lia|]; intros ? ? ? ? ? ?
      | edriver _ _ _ => eapply ewp_quiet; [eassumption|reflexivity|eargs|econtract|]; intros ? ? ? ?
      end
  end.
Ltac eopen := let c := fresh "c" in let s := fresh "s" in let p := fresh "p" in let l := fresh "l" in
  intros c s p l ? ?; lazymatch goal with |- ewp ?m _ _ _ => let m' := eval red in m in change m with m' end.

Lemma pbuffer_esound : esound (eglCreatePbufferSurface host regs).
Proof. eopen. do 3 estep; [estep|estep]. Qed.
Lemma window_surface_esound : esound (eglCreateWindowSurface host windows regs).
Proof. unfold eglCreateWindowSurface. eopen. do 4 estep. cbv zeta. destruct (_ =? 0); [estep|]. estep; [estep|estep]. Qed.
Lemma platform_surface_esound : esound (eglCreatePlatformWindowSurface host windows regs).
Proof. unfold eglCreatePlatformWindowSurface. eopen. do 4 estep. cbv zeta. destruct (_ =? 0); [estep|]. estep; [estep|estep]. Qed.
Lemma platform_display_esound : esound (eglGetPlatformDisplay host regs).
Proof. eopen. do 3 estep. destruct (negb _); [estep|]. estep; [estep|estep]. Qed.
Lemma current_display_esound : esound (eglGetCurrentDisplay host).
Proof. eopen. estep. Qed.
Lemma current_context_esound : esound (eglGetCurrentContext host).
Proof. eopen. estep. Qed.
Lemma current_surface_esound : esound (eglGetCurrentSurface host regs).
Proof. eopen. do 3 estep. Qed.
Lemma swap_esound : esound (eglSwapBuffers host regs).
Proof. eopen. do 4 estep. Qed.
Lemma unsupported_esound : esound egl_unsupported.
Proof. eopen. estep. Qed.

Lemma query_esound k : k <> Display -> esound (query_attribute host regs k).
Proof.
  intros Hk. eopen. do 5 estep. destruct q as [a|]; [|estep]. match goal with H : ptr_okp _ _ _ _ |- _ => apply arg_okp_ptr in H; cbn [garg] in H end.
  destruct k; [done|..]; cbn [query_name]; apply ewp_bind; (eapply ewp_quiet; [eassumption|reflexivity|eargs|econtract|]); intros ? ? ? ?; estep.
Qed.

Lemma context_esound : esound (eglCreateContext host regs).
Proof.
  eopen. do 4 estep; [|estep]. apply ewp_bind. eapply ewp_driver; [eassumption|eargs|econtract|]. intros s1 Hs1.
  lazymatch type of Hs1 with epend _ _ (given _ ?x) _ => pose proof (Hobjects l x) as Hb; rewrite (given_object _ _ _ Context) in Hs1, Hb by done; set (call := x) in * end.
  assert (ret (host l call) = 0 \/ ret (host l call) ∈ V) as Hv by (apply (Hb (_, Context)), list_elem_of_singleton; done). apply ewp_bind. destruct (ret (host l call) =? 0).
  - apply ewp_ret. eapply ewp_set_handle; [eassumption|done|]. eok.
  - apply ewp_bind. match goal with H1 : obj l v Display, H2 : obj l v0 Config |- _ => apply (obj_snoc l call) in H1, H2 end. eapply ewp_driver_pend; [eassumption|eargs|econtract|]. intros s2 Hs2. rewrite given_quiet, app_nil_r in Hs2 by done. apply ewp_ret. eapply ewp_set_handle; [eassumption|done|]. eok.
Qed.

Lemma query_string_esound : esound (eglQueryString host guest malloc_fn regs).
Proof.
  eopen. do 4 estep. apply ewp_bind, ewp_run, wp_get_own. destruct (cache (own _) !! _); [estep|]. estep. destruct (ret _ =? 0); [estep|]. cbv zeta. set (t := default _ _). destruct (Z.leb_spec kMaxDriverString (size t)) as [|Hlt]; [estep|].
  change kMaxDriverString with (2 ^ 26) in Hlt. assert (0 <= size t) by (unfold size; lia). apply ewp_bind. eapply ewp_allocate; [eassumption|]. intros [a|] s4 p4 l4 Ha Hs4; [|estep]. apply ewp_bind, ewp_run, wp_ptr; intros Ea; [|estep].
  apply ewp_bind. eapply (ewp_store a _ (size t + 1)); [by apply epend_of|lia| |done|]; [unfold size in *; rewrite length_app; cbn; lia|]. intros s5 _ Hs5%est_of. apply ewp_bind, ewp_run, wp_bind, wp_get_own, wp_put_own, ewp_result. intros c6 Hc6.
  destruct Hs5 as [[H1' H2' H3'] _ _ H4']. split; [done|]. split; [|done]. constructor; [done|by destruct H2'|done].
Qed.

Lemma proc_address_esound : esound (eglGetProcAddress submit regs).
Proof.
  eopen. estep; [|estep]. apply ewp_bind. destruct (_ || _); [|apply ewp_ret; estep]. apply ewp_run, wp_stub_address; [by eapply est_steady|]. intros v s1 Hs1. estep.
Qed.

(** ** Configurations *)

Lemma ewp_write_configs vs q c s p l (Q : unit -> ECall -> Sv HostEgl -> Prop) :
  epend p l (map (fun v => (v, Config)) vs) s -> (forall v, v ∈ vs -> v = 0 \/ v ∈ V) -> 0 <= q ->
  (forall i, 0 <= i < Z.of_nat (length vs) -> q + 4 * i < 2 ^ 32 /\ forall m, pages_ m = p -> accessible m (q + 4 * i) 4 RW = true) ->
  (forall s', est h0 p l s' -> Q tt c s') -> ewp (write_configs vs q) c s Q.
Proof.
  revert q s. induction vs as [|v vs IH]; intros q s Hs Hv Hq Hacc HQ; cbn [write_configs]; [by apply ewp_ret, HQ, est_of|]. apply ewp_bind. eapply ewp_enter; [exact Hs|apply Hv; set_solver|]. intros a s1 Ha Hs1.
  destruct (Hacc 0) as [Hlt Hm]; [cbn; lia|]. rewrite Z.mul_0_r, Z.add_0_r in *. apply ewp_bind. eapply (ewp_store q _ 4); [exact Hs1|lia|unfold size; rewrite length_to_le; lia|apply Hm, Hs1|]. intros s2 _ Hs2.
  apply IH; [done|intros; apply Hv; set_solver|lia| |done]. intros i Hi. destruct (Hacc (i + 1)) as [H1 H2]; [cbn; lia|]. replace (q + 4 + 4 * i) with (q + 4 * (i + 1)) by lia. done.
Qed.

Lemma slots_of a n p : 0 < a < 2 ^ 32 -> 0 <= n * 4 <= 2 ^ 32 -> (forall m, pages_ m = p -> accessible m a (n * 4) RW = true) ->
  forall i, 0 <= i < n -> a + 4 * i < 2 ^ 32 /\ forall m, pages_ m = p -> accessible m (a + 4 * i) 4 RW = true.
Proof.
  intros Ha Hn Hacc i Hi. assert (forall m, pages_ m = p -> a + n * 4 <= 2 ^ 32 /\ accessible m (a + 4 * i) 4 RW = true) as H.
  { intros m Em. specialize (Hacc m Em). apply accessible_pages in Hacc as [?|[Hb Hp]]; [lia| |lia..]. split; [done|]. apply accessible_pages; [lia..|]. right. split; [lia|]. intros k Hk. apply Hp. split; [etrans; [|apply Hk]|etrans; [apply Hk|]]; apply Z.div_le_mono; lia. }
  split; [|intros m Em; by apply H]. destruct (H {| base_ := true; pages_ := p; hprot := fun _ => 0; host_calls := 0%nat; bytes_ := fun _ => 0 |} eq_refl). lia.
Qed.

(** What follows the driver's answer. *)
Lemma ewp_configs_answer r q n num cfg c s p l :
  epend p l (configs_given r (if cfg =? 0 then HNull else HOut) n) s -> ecall_word c -> (forall v, (v, Config) ∈ configs_given r (if cfg =? 0 then HNull else HOut) n -> v = 0 \/ v ∈ V) ->
  cfg = match q with None => 0 | Some _ => n end -> 0 <= n -> ptr_okp p q (n * 4) RW -> ptr_okp p (Some num) 4 RW ->
  ewp (_ ← match q with Some a => if negb (u32 (ret r) =? 0) then write_configs (take (Z.to_nat (Z.min cfg (Z.max (s32 (out r 0)) 0))) (found_configs r (Z.to_nat cfg))) a else mret tt | None => mret tt end;
       _ ← erun (store num (to_le 4 (u32 (s32 (out r 0))))); set_eresult (u32 (ret r))) c s (fun _ c' s' => edone c' s').
Proof.
  intros Hs Hc HvV Ecfg Hn Hq Hnum. assert (forall s', est h0 p l s' -> ewp (_ ← erun (store num (to_le 4 (u32 (s32 (out r 0))))); set_eresult (u32 (ret r))) c s' (fun _ c' s' => edone c' s')) as Hend.
  { intros s' Hs'. destruct Hnum as (H1 & _ & H2). apply ewp_bind. eapply (ewp_store num _ 4); [by apply epend_of|lia|unfold size; rewrite length_to_le; lia|apply H2, Hs'|]. intros s2 _ Hs2%est_of. estep. }
  assert (configs_given r (if cfg =? 0 then HNull else HOut) n = [] -> est h0 p l s) as Hnil by (intros E; rewrite E in Hs; by apply est_of).
  apply ewp_bind. destruct q as [a|]; [|subst cfg; apply ewp_ret, Hend, Hnil; done]. destruct Hq as (Ha & Hb & Hacc). subst cfg.
  destruct (Z.eqb_spec (u32 (ret r)) 0) as [E0|E0]; cbn [negb]; [apply ewp_ret, Hend, Hnil; destruct (n =? 0); [done|]; cbn; by rewrite E0|].
  destruct (Z.eqb_spec n 0) as [->|Hn0]; [change (found_configs r (Z.to_nat 0)) with (@nil Z); rewrite take_nil; apply ewp_ret, Hend, Hnil; done|]. unfold configs_given in *. rewrite (proj2 (Z.eqb_neq _ _) E0) in *. eapply ewp_write_configs; [exact Hs| |lia| |].
  - intros v Hv. apply HvV, list_elem_of_fmap. by exists v.
  - intros i Hi. apply (slots_of a n p); [done|lia|done|]. rewrite length_take in Hi. unfold found_configs in Hi. rewrite length_map, length_seq in Hi. lia.
  - intros s' Hs'. by apply Hend.
Qed.

Lemma serve_configs_ok dpy attribs i c s p l : est h0 p l s -> ecall_word c -> obj l dpy Display -> ewp (serve_configs host regs dpy attribs i) c s (fun _ c' s' => edone c' s').
Proof.
  intros Hs Hc Hd. unfold serve_configs. do 2 estep. destruct (Z.ltb_spec (escalar_of EGLint v) 0) as [|Hn]; [estep|]. set (n := escalar_of EGLint v) in *. do 3 estep. destruct q0 as [num|]; [|estep]. cbv zeta.
  set (cfg := match q with None => 0 | Some _ => n end). apply ewp_bind.
  destruct attribs as [at_|]; (eapply ewp_driver; [eassumption|destruct (cfg =? 0); eargs|econtract|]); intros s3 Hs3.
  - set (call := {| h_name := "eglChooseConfig"; h_args := _ |}) in *. assert (given l call = configs_given (host l call) (if cfg =? 0 then HNull else HOut) n) as Eg by done. rewrite Eg in Hs3. eapply ewp_configs_answer; [eassumption|done| |done|done|done|done]. intros x Hx. rewrite <- Eg in Hx. by apply (Hobjects _ _ _ Hx).
  - set (call := {| h_name := "eglGetConfigs"; h_args := _ |}) in *. assert (given l call = configs_given (host l call) (if cfg =? 0 then HNull else HOut) n) as Eg by done. rewrite Eg in Hs3. eapply ewp_configs_answer; [eassumption|done| |done|done|done|done]. intros x Hx. rewrite <- Eg in Hx. by apply (Hobjects _ _ _ Hx).
Qed.

Lemma get_configs_esound : esound (eglGetConfigs host regs).
Proof. eopen. estep. by eapply serve_configs_ok. Qed.
Lemma choose_config_esound : esound (eglChooseConfig host regs).
Proof. eopen. do 2 estep; [|estep]. by eapply serve_configs_ok. Qed.

(** ** The switch *)

Create HintDb egl_sound discriminated.
#[local] Hint Constants Opaque : egl_sound.
#[local] Hint Resolve pbuffer_esound window_surface_esound platform_surface_esound platform_display_esound current_display_esound current_context_esound current_surface_esound swap_esound unsupported_esound : egl_sound.
#[local] Hint Resolve query_esound context_esound query_string_esound proc_address_esound get_configs_esound choose_config_esound : egl_sound.

Lemma cases_esound i body : (i, body) ∈ egl_cases host guest submit windows malloc_fn index regs -> i = index -> esound body.
Proof.
  unfold egl_cases. rewrite !elem_of_cons, elem_of_nil. intros Hin Ei. repeat (destruct Hin as [[= -> ->]|Hin]; [
    lazymatch goal with
    | |- esound (egl_generated _ _ _ _ _ _) => apply generated_esound; unfold case_ok; rewrite <- Ei; vm_compute; reflexivity
    | |- esound (query_attribute _ _ _) => by apply query_esound
    | |- _ => solve [auto with egl_sound]
    end|]). destruct Hin.
Qed.
End Sound.
End History.

(** C34: every EGL host call, with any index and any registers, is answered and changes r0
    and r1 alone.  Where the driver expects a display, a configuration, a context or a
    surface it gets null or an object of that class which it handed over before; where it
    expects a sync object, an image, a native pixmap or a native display, which have no
    handles, it gets a 32-bit word of the guest as it is ([raw_args], [raw_sync_passed]);
    and it gets only memory the guest owns.  The handles name exactly the displays,
    configurations, contexts and surfaces the driver has handed over, each by one handle that
    never changes.  The driver has no more of these than the table has slots
    ([driver_bounded]); guest code run for the allocator and the loader keeps the state as
    another thread's EGL calls would ([egl_guest_ok], [submit_ok]); the driver writes only
    memory it was given ([kernel_ok]). *)
Theorem egl_call_sound host V guest submit windows malloc_fn index rs s :
  Z.of_nat (base.size V) <= kMaxSlots -> driver_bounded host V -> kernel_ok host -> egl_guest_ok host V guest -> submit_ok host V submit -> words rs -> esafe host V s ->
  wp False (egl_handle_host_call host guest submit windows malloc_fn index rs) s
    (fun r s' => match r with
                 | Some rs' => kEglHostCallFirst <= index <= kEglHostCallLast /\ answered rs rs' /\ esafe host V s' /\ keeps (own s) (own s')
                 | None => ~ kEglHostCallFirst <= index <= kEglHostCallLast /\ s' = s
                 end).
Proof.
  intros HV Hobj Hhost Hguest Hsubmit Hw Hs. unfold egl_handle_host_call. destruct (Z.ltb_spec index kEglHostCallFirst); cbn [orb]; [apply wp_ret; split; [lia|done]|]. destruct (Z.ltb_spec kEglHostCallLast index); [apply wp_ret; split; [lia|done]|].
  apply wp_bind, wp_get_own. destruct (_ && _).
  - apply wp_bind, wp_put_own, wp_ret. split; [done|]. split; [apply answered_set01; [done|apply u32_range|lia]|]. destruct Hs as [H1 H2 H3]. split; [constructor; [done|by apply einv_error|done]|done].
  - unfold egl_dispatch. destruct (list_find _ _) as [[i [n body]]|] eqn:Ef; cbn [fmap option_fmap option_map snd]; [|apply wp_ret; split; [done|]; split; [apply answered_set01; [done|lia|lia]|done]].
    apply list_find_Some in Ef as (Hi & En & _). apply list_elem_of_lookup_2 in Hi. cbn in En.
    apply wp_bind. eapply wp_mono; [apply (cases_esound host V HV guest submit windows malloc_fn index rs Hhost Hw Hobj Hguest Hsubmit (own s) n body Hi En _ s (pages_ (smem s)) (scalls s)); [by constructor|split; cbn; lia]|].
    intros [u c] s' (Hc & Hs' & Hk). apply wp_ret. split; [done|]. split; [|done]. apply answered_set01; [done|apply Hc|lia].
Qed.

(** ** A run *)

(** A driver with one display, 40, and a context 41. *)
Definition sample_egl (log : list hostcall) (c : hostcall) : answer :=
  {| ret := match object_class (h_name c) with Some Display => 40 | Some Context => 41 | Some _ => 0 | None => 1 end; errno := 0; guest_writes := []; outs := [] |}.
Definition egl_heap (f : Z) (args : list Z) (s : Sv HostEgl) : option GuestResult * Sv HostEgl := (None, s).
Definition egl_service (c : Command) (s : Sv HostEgl) : Response * Sv HostEgl := (Response_init, s).
Definition sample_objects : gset Z := {[40; 41]}.
Definition egl_regs (a b c d : Z) : list Z := [a; b; c; d] ++ replicate 12 0.

Definition egl_start : Sv HostEgl := Build_Sv HostEgl_init (km sample_text) [].
Lemma egl_start_safe : esafe sample_egl sample_objects egl_start.
Proof.
  constructor; [exact sample_text_wf| |done]. constructor; cbn; try done; [apply global_wf_init|]. intros v k. split; [done|by intros (a & E & _)].
Qed.

Lemma sample_egl_bounded : driver_bounded sample_egl sample_objects.
Proof.
  intros past c x Hx. unfold given in Hx. destruct (object_class (h_name c)) as [k|] eqn:Ek.
  - apply list_elem_of_singleton in Hx as ->. unfold sample_egl. cbn. rewrite Ek. destruct k; [right; set_solver|by left|right; set_solver|by left].
  - left. assert (forall r configs n, outs r = [] -> x ∈ configs_given r configs n -> fst x = 0) as H.
    { intros r configs n Er H. unfold configs_given in H. destruct configs; try by apply elem_of_nil in H. destruct (_ =? 0); [by apply elem_of_nil in H|]. apply list_elem_of_fmap in H as (v & -> & Hv). apply list_elem_of_lookup_1 in Hv as [i Hv]. apply lookup_take_Some in Hv as [Hv _].
      unfold found_configs in Hv. rewrite list_lookup_fmap in Hv. destruct (seq _ _ !! i); [|done]. injection Hv as <-. unfold out. rewrite Er. cbn. by destruct n0. }
    repeat case_match; first [by eapply H in Hx|by apply elem_of_nil in Hx].
Qed.

(** eglGetDisplay gives the display a handle. *)
Lemma egl_call_sound_witness :
  exists r s, egl_handle_host_call sample_egl egl_heap egl_service (fun _ => 0) 1 ZB_EGL_HC_eglGetDisplay (egl_regs 0 0 0 0) egl_start = Ret (r, s) /\
    match r with Some rs => reg rs 0 =? 2 | None => false end = true /\
    match r with
    | Some rs => kEglHostCallFirst <= ZB_EGL_HC_eglGetDisplay <= kEglHostCallLast /\ answered (egl_regs 0 0 0 0) rs /\ esafe sample_egl sample_objects s /\ keeps (own egl_start) (own s)
    | None => ~ kEglHostCallFirst <= ZB_EGL_HC_eglGetDisplay <= kEglHostCallLast /\ s = egl_start
    end.
Proof.
  apply (wp_run _ _ _ _ (fun r => match r with Some rs => reg rs 0 =? 2 | None => false end)
    (egl_call_sound sample_egl sample_objects egl_heap egl_service (fun _ => 0) 1 ZB_EGL_HC_eglGetDisplay (egl_regs 0 0 0 0) egl_start
      ltac:(vm_compute; discriminate) sample_egl_bounded ltac:(intros log c a bs H; apply elem_of_nil in H; destruct H)
      ltac:(intros f args s Hs; split; [exact Hs|split; [reflexivity|exact I]]) ltac:(intros c s Hs; split; [exact Hs|split; [reflexivity|discriminate]])
      ltac:(split; [reflexivity|repeat constructor; discriminate]) egl_start_safe)).
  vm_compute. reflexivity.
Defined.

(** An address the driver uses again for another class keeps the class it had first: a
    surface made where a context was is not accepted as a surface. *)
Definition reusing (log : list hostcall) (c : hostcall) : answer := {| ret := if decide (h_name c = "eglGetDisplay") then 40 else 41; errno := 0; guest_writes := []; outs := [] |}.
Definition then_call (index : Z) (rs : list Z) (s : Sv HostEgl) : Sv HostEgl := state_after (egl_handle_host_call reusing egl_heap egl_service (fun _ => 0) 1 index rs) s.
Definition reused : Sv HostEgl :=
  then_call 190 (egl_regs 0 0 0 0) (then_call 182 (egl_regs 2 0x4002 0 0) (then_call 188 (egl_regs 0 0 0 0) (then_call 191 (egl_regs 0 0 0 0) egl_start))).
Example reused_surface_refused : reg (default [] (match egl_handle_host_call reusing egl_heap egl_service (fun _ => 0) 1 205 (egl_regs 2 0x4002 0 0) reused with Ret (r, _) => r | _ => None end)) 0 = 0
  /\ t_pending_error (own (then_call 205 (egl_regs 2 0x4002 0 0) reused)) = kEglBadSurface.
Proof. vm_compute. split; reflexivity. Qed.

(** eglDestroySync: the word of the guest reaches the driver as the sync object. *)
Example raw_sync_passed : last (scalls (then_call 185 (egl_regs 2 0x12345678 0 0) (then_call 191 (egl_regs 0 0 0 0) egl_start))) = Some {| h_name := "eglDestroySync"; h_args := [HInt 40; HInt 0x12345678] |}.
Proof. vm_compute. reflexivity. Qed.
