(* ===== verification/RuntimeReport.v ===== *)
(** * The runtime report

    [core/src/runtime_report.cpp]: what the bridge notes about a run, kept under one mutex
    and written to a file whenever it changes.  The report is a record of its groups of
    members; every [note_*] is a function that returns the report and what the observer is
    told ([None]: it is not called; [Some structural] otherwise).  Text is a list of bytes.

    [std::sort] leaves the order of equal counts open; the model keeps their order.  The
    counters of native methods are atomics that HostJni increments through the pointer it
    got; here a call names the counter by its position. *)

From stdpp Require Import numbers list sorting relations strings.
From S2P Require Import HostCallTable.
From S2P Require Import Prelude Bytes Kernel Syscalls ProcFiles Paths.
Local Open Scope Z_scope.

#[local] Notation text := (list Z).

Definition kMaxDistinctHostCalls : nat := 16.
Definition kMaxLibraries : nat := 32.
Definition kMaxDetail : nat := 240.
Definition kMaxNativeCalls : nat := 32.
Definition kMaxOpenedPaths : nat := 16.
Definition kMaxFailedOpens : nat := 4.
Definition kMaxGlDetails : nat := 400.
Definition kMaxCrashDetails : nat := 32.
Definition kMaxJniDetails : nat := 16.
Definition kMaxWatchDetails : nat := 8.
Definition kMaxLooperDetails : nat := 16.
Definition kMaxEglThreads : nat := 8.

(** ** Text *)

(** [out.back() == ' '] is popped while it holds. *)
Fixpoint trim (s : text) : text := match s with [] => [] | c :: s => match trim s with [] => if c =? 32 then [] else [c] | t => c :: t end end.

Definition plain_char (c : Z) : Z := if (c <? 0x20) || (c =? 0x7f) then 32 else c.
Definition one_line (s : text) (limit : nat) : text := trim (map plain_char (take limit s) ++ (if (limit <? length s)%nat then lit "..." else [])).

Definition hex_version (version : Z) : text := lit "0x" ++ hex8 (u32 version).
(** "0x%04x" *)
Definition hex4 (z : Z) : text := let d := digits 16 16 z [] in lit "0x" ++ replicate (4 - length d) 48 ++ d.

Definition lower (c : Z) : Z := if (65 <=? c) && (c <=? 90) then c + 32 else c.
Fixpoint contains (s word : text) : bool := starts_with s word || match s with [] => false | _ :: s => contains s word end.

Definition loader_failure_kind (detail : text) : text :=
  let has word := contains (map lower detail) (lit word) in
  if has "wrong elf class" || has "unexpected e_machine" || has "abi mismatch" || has "64-bit instead of 32-bit" || has "not a little-endian arm elf32" then lit "abi_mismatch"
  else if has "relocation" || has "reloc type" then lit "relocation_error"
  else if has "cannot locate symbol" || has "undefined symbol" || has "symbol not found" then lit "missing_symbol"
  else if has "not found" || has "is missing" || has "cannot open" then lit "missing_library"
  else lit "other".

Definition count_line (key : string) (value : Z) : text := lit key ++ lit ": " ++ dec value.

(** ** Data *)

Record HostCall := { hc_number : Z; hc_library : text; hc_function : text; hc_count : Z }.
Record Load := { ld_library : text; ld_ok : bool; ld_version : Z; ld_error : text; failure_kind : text }.

Record HostCalls := { host_calls_ : list HostCall; distinct_host_calls_ : Z; host_call_total_ : Z }.
Record Loads := { proxy_loads_ : list Load; proxy_load_total_ : Z; proxy_failure_total_ : Z; onloads_ : list Load; onload_total_ : Z }.
Record Natives := { registered_natives_ : Z; native_calls_ : list (text * Z); native_calls_overflow_ : Z }.
Record Opens := { opened_paths_ : list text; failed_opens_ : list (text * Z) }.
(** The members [.._known_] with the value they guard are options. *)
Record GlNotes := { gl_call_total_ : Z; gl_first_call_ : text * Z; gl_egl_context_ : option bool; gl_error_ : option (text * Z); gl_thread_tids_ : list Z }.
Record EglNotes := { egl_current_tids_ : list Z; egl_current_generation_ : Z; egl_swap_total_ : Z; egl_error_ : option (text * Z) }.

Inductive Section_ := SGl | SEgl | SJni | SCrash | SWatch | SLooper.
#[global] Instance Section_eq_dec : EqDecision Section_.
Proof. solve_decision. Defined.

Record RuntimeReport := {
  plugin_root_ : text; target_sdk_ : Z; calls_ : HostCalls; loads_ : Loads; natives_ : Natives; exit_reason_ : text; opens_ : Opens; gl_ : GlNotes; egl_ : EglNotes;
  details_ : Section_ -> list (text * text);
}.

(** A report without notes, which [clear] makes as well. *)
Definition RuntimeReport_init : RuntimeReport :=
  {| plugin_root_ := []; target_sdk_ := 0; calls_ := {| host_calls_ := []; distinct_host_calls_ := 0; host_call_total_ := 0 |};
     loads_ := {| proxy_loads_ := []; proxy_load_total_ := 0; proxy_failure_total_ := 0; onloads_ := []; onload_total_ := 0 |};
     natives_ := {| registered_natives_ := 0; native_calls_ := []; native_calls_overflow_ := 0 |}; exit_reason_ := []; opens_ := {| opened_paths_ := []; failed_opens_ := [] |};
     gl_ := {| gl_call_total_ := 0; gl_first_call_ := ([], 0); gl_egl_context_ := None; gl_error_ := None; gl_thread_tids_ := [] |};
     egl_ := {| egl_current_tids_ := []; egl_current_generation_ := 0; egl_swap_total_ := 0; egl_error_ := None |}; details_ := fun _ => [] |}.

Definition with_plugin (r : RuntimeReport) (root : text) (sdk : Z) : RuntimeReport := {| plugin_root_ := root; target_sdk_ := sdk; calls_ := calls_ r; loads_ := loads_ r; natives_ := natives_ r; exit_reason_ := exit_reason_ r; opens_ := opens_ r; gl_ := gl_ r; egl_ := egl_ r; details_ := details_ r |}.
Definition with_calls (r : RuntimeReport) (x : HostCalls) : RuntimeReport := {| plugin_root_ := plugin_root_ r; target_sdk_ := target_sdk_ r; calls_ := x; loads_ := loads_ r; natives_ := natives_ r; exit_reason_ := exit_reason_ r; opens_ := opens_ r; gl_ := gl_ r; egl_ := egl_ r; details_ := details_ r |}.
Definition with_loads (r : RuntimeReport) (x : Loads) : RuntimeReport := {| plugin_root_ := plugin_root_ r; target_sdk_ := target_sdk_ r; calls_ := calls_ r; loads_ := x; natives_ := natives_ r; exit_reason_ := exit_reason_ r; opens_ := opens_ r; gl_ := gl_ r; egl_ := egl_ r; details_ := details_ r |}.
Definition with_natives (r : RuntimeReport) (x : Natives) : RuntimeReport := {| plugin_root_ := plugin_root_ r; target_sdk_ := target_sdk_ r; calls_ := calls_ r; loads_ := loads_ r; natives_ := x; exit_reason_ := exit_reason_ r; opens_ := opens_ r; gl_ := gl_ r; egl_ := egl_ r; details_ := details_ r |}.
Definition with_exit (r : RuntimeReport) (x : text) : RuntimeReport := {| plugin_root_ := plugin_root_ r; target_sdk_ := target_sdk_ r; calls_ := calls_ r; loads_ := loads_ r; natives_ := natives_ r; exit_reason_ := x; opens_ := opens_ r; gl_ := gl_ r; egl_ := egl_ r; details_ := details_ r |}.
Definition with_opens (r : RuntimeReport) (x : Opens) : RuntimeReport := {| plugin_root_ := plugin_root_ r; target_sdk_ := target_sdk_ r; calls_ := calls_ r; loads_ := loads_ r; natives_ := natives_ r; exit_reason_ := exit_reason_ r; opens_ := x; gl_ := gl_ r; egl_ := egl_ r; details_ := details_ r |}.
Definition with_gl (r : RuntimeReport) (x : GlNotes) : RuntimeReport := {| plugin_root_ := plugin_root_ r; target_sdk_ := target_sdk_ r; calls_ := calls_ r; loads_ := loads_ r; natives_ := natives_ r; exit_reason_ := exit_reason_ r; opens_ := opens_ r; gl_ := x; egl_ := egl_ r; details_ := details_ r |}.
Definition with_egl (r : RuntimeReport) (x : EglNotes) : RuntimeReport := {| plugin_root_ := plugin_root_ r; target_sdk_ := target_sdk_ r; calls_ := calls_ r; loads_ := loads_ r; natives_ := natives_ r; exit_reason_ := exit_reason_ r; opens_ := opens_ r; gl_ := gl_ r; egl_ := x; details_ := details_ r |}.
Definition with_details (r : RuntimeReport) (s : Section_) (l : list (text * text)) : RuntimeReport := {| plugin_root_ := plugin_root_ r; target_sdk_ := target_sdk_ r; calls_ := calls_ r; loads_ := loads_ r; natives_ := natives_ r; exit_reason_ := exit_reason_ r; opens_ := opens_ r; gl_ := gl_ r; egl_ := egl_ r; details_ := fun s' => if decide (s' = s) then l else details_ r s' |}.

(** ** Notes *)

Definition noted : Type := RuntimeReport * option bool.

Definition note_plugin (plugin_root : text) (target_sdk : Z) (r : RuntimeReport) : noted := (with_plugin r (one_line plugin_root kMaxDetail) target_sdk, Some true).

Definition or_unknown (s : option text) : text := default (lit "?") s.

Definition note_unimplemented_host_call (index : Z) (library function : option text) (r : RuntimeReport) : noted :=
  let c := calls_ r in
  let total := u64 (host_call_total_ c + 1) in
  match list_find (fun e => hc_number e = index) (host_calls_ c) with
  | Some (i, e) =>
      (with_calls r {| host_calls_ := <[i := {| hc_number := hc_number e; hc_library := hc_library e; hc_function := hc_function e; hc_count := u64 (hc_count e + 1) |}]> (host_calls_ c);
                       distinct_host_calls_ := distinct_host_calls_ c; host_call_total_ := total |}, Some false)
  | None =>
      (with_calls r {| host_calls_ := if (length (host_calls_ c) <? kMaxDistinctHostCalls)%nat
                                      then host_calls_ c ++ [{| hc_number := index; hc_library := or_unknown library; hc_function := or_unknown function; hc_count := 1 |}] else host_calls_ c;
                       distinct_host_calls_ := u64 (distinct_host_calls_ c + 1); host_call_total_ := total |}, Some true)
  end.

Definition add_load (l : list Load) (x : Load) : list Load := if (length l <? kMaxLibraries)%nat then l ++ [x] else l.

Definition note_proxy_loaded (library : text) (jni_version : Z) (r : RuntimeReport) : noted :=
  let l := loads_ r in
  (with_loads r {| proxy_loads_ := add_load (proxy_loads_ l) {| ld_library := one_line library kMaxDetail; ld_ok := true; ld_version := jni_version; ld_error := []; failure_kind := [] |};
                   proxy_load_total_ := u64 (proxy_load_total_ l + 1); proxy_failure_total_ := proxy_failure_total_ l; onloads_ := onloads_ l; onload_total_ := onload_total_ l |}, Some true).

Definition note_proxy_failed (library error : text) (r : RuntimeReport) : noted :=
  let l := loads_ r in
  (with_loads r {| proxy_loads_ := add_load (proxy_loads_ l) {| ld_library := one_line library kMaxDetail; ld_ok := false; ld_version := 0; ld_error := one_line error kMaxDetail; failure_kind := loader_failure_kind error |};
                   proxy_load_total_ := proxy_load_total_ l; proxy_failure_total_ := u64 (proxy_failure_total_ l + 1); onloads_ := onloads_ l; onload_total_ := onload_total_ l |}, Some true).

Definition note_jni_onload (library : text) (ok : bool) (jni_version : Z) (r : RuntimeReport) : noted :=
  let l := loads_ r in
  (with_loads r {| proxy_loads_ := proxy_loads_ l; proxy_load_total_ := proxy_load_total_ l; proxy_failure_total_ := proxy_failure_total_ l;
                   onloads_ := add_load (onloads_ l) {| ld_library := one_line library kMaxDetail; ld_ok := ok; ld_version := jni_version; ld_error := []; failure_kind := [] |};
                   onload_total_ := u64 (onload_total_ l + 1) |}, Some true).

Definition note_registered_native (r : RuntimeReport) : noted :=
  let n := natives_ r in
  (with_natives r {| registered_natives_ := u64 (registered_natives_ n + 1); native_calls_ := native_calls_ n; native_calls_overflow_ := native_calls_overflow_ n |}, Some false).

(** The counter of a name: its position, or [None] for the shared one. *)
Definition native_call_counter (name : text) (r : RuntimeReport) : option nat * RuntimeReport :=
  let n := natives_ r in
  let label := one_line name 128 in
  match list_find (fun e => fst e = label) (native_calls_ n) with
  | Some (i, _) => (Some i, r)
  | None =>
      if (kMaxNativeCalls <=? length (native_calls_ n))%nat then (None, r)
      else (Some (length (native_calls_ n)), with_natives r {| registered_natives_ := registered_natives_ n; native_calls_ := native_calls_ n ++ [(label, 0)]; native_calls_overflow_ := native_calls_overflow_ n |})
  end.

(** [counter->count.fetch_add(1)] of a native call. *)
Definition count_native_call (counter : option nat) (r : RuntimeReport) : RuntimeReport :=
  let n := natives_ r in
  match counter with
  | Some i => with_natives r {| registered_natives_ := registered_natives_ n; native_calls_ := alter (fun e => (fst e, u64 (snd e + 1))) i (native_calls_ n); native_calls_overflow_ := native_calls_overflow_ n |}
  | None => with_natives r {| registered_natives_ := registered_natives_ n; native_calls_ := native_calls_ n; native_calls_overflow_ := u64 (native_calls_overflow_ n + 1) |}
  end.

Definition note_guest_open (path : text) (r : RuntimeReport) : noted :=
  let line := one_line path kMaxDetail in
  let '(kept, structural) := match list_find (fun p => p = line) (opened_paths_ (opens_ r)) with Some (i, _) => (delete i (opened_paths_ (opens_ r)), false) | None => (opened_paths_ (opens_ r), true) end in
  let l := kept ++ [line] in
  (with_opens r {| opened_paths_ := if (kMaxOpenedPaths <? length l)%nat then drop 1 l else l; failed_opens_ := failed_opens_ (opens_ r) |}, Some structural).

Definition note_guest_open_failed (path : text) (error : Z) (r : RuntimeReport) : noted :=
  let o := opens_ r in
  if (length (failed_opens_ o) <? kMaxFailedOpens)%nat
  then (with_opens r {| opened_paths_ := opened_paths_ o; failed_opens_ := failed_opens_ o ++ [(one_line path kMaxDetail, error)] |}, Some true)
  else (r, Some false).

Definition note_guest_exit (reason : text) (r : RuntimeReport) : noted :=
  if negb (bool_decide (exit_reason_ r = [])) then (r, None)
  else (with_exit r (match one_line reason kMaxDetail with [] => lit "unknown" | t => t end), Some true).

Definition note_gl_call (function : option text) (host_tid : Z) (r : RuntimeReport) : noted :=
  let g := gl_ r in
  let total := u64 (gl_call_total_ g + 1) in
  (with_gl r {| gl_call_total_ := total; gl_first_call_ := if total =? 1 then (or_unknown function, host_tid) else gl_first_call_ g; gl_egl_context_ := gl_egl_context_ g; gl_error_ := gl_error_ g; gl_thread_tids_ := gl_thread_tids_ g |},
   Some (total =? 1)).

Definition note_gl_egl_context (current : bool) (r : RuntimeReport) : noted :=
  let g := gl_ r in
  match gl_egl_context_ g with
  | Some _ => (r, None)
  | None => (with_gl r {| gl_call_total_ := gl_call_total_ g; gl_first_call_ := gl_first_call_ g; gl_egl_context_ := Some current; gl_error_ := gl_error_ g; gl_thread_tids_ := gl_thread_tids_ g |}, Some true)
  end.

Definition note_gl_error (function : option text) (error : Z) (r : RuntimeReport) : noted :=
  let g := gl_ r in
  match gl_error_ g with
  | Some _ => (r, None)
  | None => (with_gl r {| gl_call_total_ := gl_call_total_ g; gl_first_call_ := gl_first_call_ g; gl_egl_context_ := gl_egl_context_ g; gl_error_ := Some (or_unknown function, error); gl_thread_tids_ := gl_thread_tids_ g |}, Some true)
  end.

Definition section_limit (s : Section_) : nat :=
  match s with SGl | SEgl => kMaxGlDetails | SJni => kMaxJniDetails | SCrash => kMaxCrashDetails | SWatch => kMaxWatchDetails | SLooper => kMaxLooperDetails end.

(** The lines "key: value" of a section.  The notes of crashes and of the watchdog always
    overwrite; those of EGL objects tell the observer also of a value that stays. *)
Definition note_detail (s : Section_) (key value : text) (overwrite : bool) (r : RuntimeReport) : noted :=
  let line := one_line value 600 in
  let l := details_ r s in
  match list_find (fun e => fst e = key) l with
  | Some (i, e) =>
      if bool_decide (s <> SEgl) && (negb overwrite || bool_decide (snd e = line)) then (r, None)
      else (with_details r s (<[i := (fst e, line)]> l), Some false)
  | None =>
      if (section_limit s <=? length l)%nat then (r, None)
      else (with_details r s (l ++ [(one_line key 64, line)]), Some true)
  end.
Definition note_gl_detail (key value : text) (overwrite : bool) : RuntimeReport -> noted := note_detail SGl key value overwrite.
Definition note_crash_detail (key value : text) : RuntimeReport -> noted := note_detail SCrash key value true.
Definition note_jni_detail (key value : text) (overwrite : bool) : RuntimeReport -> noted := note_detail SJni key value overwrite.
Definition note_looper_detail (key value : text) (overwrite : bool) : RuntimeReport -> noted := note_detail SLooper key value overwrite.
Definition note_watch_detail (key value : text) : RuntimeReport -> noted := note_detail SWatch key value true.
Definition note_egl_object (key value : text) : RuntimeReport -> noted := note_detail SEgl key value true.

Definition add_tid (l : list Z) (tid : Z) : list Z * bool :=
  if bool_decide (tid ∈ l) then (l, false) else (if (length l <? kMaxEglThreads)%nat then l ++ [tid] else l, true).

Definition note_egl_current (host_tid : Z) (r : RuntimeReport) : noted :=
  let e := egl_ r in
  let '(l, structural) := add_tid (egl_current_tids_ e) host_tid in
  (with_egl r {| egl_current_tids_ := l; egl_current_generation_ := u64 (egl_current_generation_ e + 1); egl_swap_total_ := egl_swap_total_ e; egl_error_ := egl_error_ e |}, Some structural).

Definition note_gl_thread (host_tid : Z) (r : RuntimeReport) : noted :=
  let g := gl_ r in
  let '(l, structural) := add_tid (gl_thread_tids_ g) host_tid in
  (with_gl r {| gl_call_total_ := gl_call_total_ g; gl_first_call_ := gl_first_call_ g; gl_egl_context_ := gl_egl_context_ g; gl_error_ := gl_error_ g; gl_thread_tids_ := l |}, Some structural).

Definition note_egl_swap (r : RuntimeReport) : noted :=
  let e := egl_ r in
  (with_egl r {| egl_current_tids_ := egl_current_tids_ e; egl_current_generation_ := egl_current_generation_ e; egl_swap_total_ := u64 (egl_swap_total_ e + 1); egl_error_ := egl_error_ e |}, Some false).

Definition note_egl_error (function : option text) (error : Z) (r : RuntimeReport) : noted :=
  let e := egl_ r in
  match egl_error_ e with
  | Some _ => (r, None)
  | None => (with_egl r {| egl_current_tids_ := egl_current_tids_ e; egl_current_generation_ := egl_current_generation_ e; egl_swap_total_ := egl_swap_total_ e; egl_error_ := Some (or_unknown function, error) |}, Some true)
  end.

Definition first_unimplemented_host_call (r : RuntimeReport) : text := match host_calls_ (calls_ r) with [] => [] | e :: _ => hc_library e ++ lit " " ++ hc_function e end.

(** ** The text *)

Definition load_line (l : Load) : text :=
  (if ld_ok l then lit "proxy-loaded: " else lit "proxy-failed: ") ++ ld_library l ++
  (if ld_ok l then lit " jni=" ++ hex_version (ld_version l) else lit " kind=" ++ failure_kind l ++ lit " " ++ ld_error l).
Definition onload_line (l : Load) : text := lit "jni-onload: " ++ ld_library l ++ (if ld_ok l then lit " ok jni=" ++ hex_version (ld_version l) else lit " failed").
(** A line with what a list did not keep. *)
Definition more_line (key : string) (total : Z) (kept : nat) : list text := if Z.of_nat kept <? total then [count_line key (total - Z.of_nat kept)] else [].

Definition loads_lines (l : Loads) : list text :=
  [count_line "proxy-loads" (proxy_load_total_ l); count_line "proxy-failures" (proxy_failure_total_ l)] ++ map load_line (proxy_loads_ l) ++
  more_line "proxy-more" (u64 (proxy_load_total_ l + proxy_failure_total_ l)) (length (proxy_loads_ l)) ++
  [count_line "jni-onload-calls" (onload_total_ l)] ++ map onload_line (onloads_ l) ++ more_line "jni-onload-more" (onload_total_ l) (length (onloads_ l)).

Definition host_call_line (e : HostCall) : text := lit "unimplemented: " ++ hc_library e ++ lit " " ++ hc_function e ++ lit " x" ++ dec (hc_count e).
Definition calls_lines (c : HostCalls) : list text :=
  [count_line "unimplemented-host-calls" (host_call_total_ c); count_line "unimplemented-distinct" (distinct_host_calls_ c);
   lit "first-unimplemented: " ++ (match host_calls_ c with [] => lit "(none)" | e :: _ => hc_library e ++ lit " " ++ hc_function e end)] ++
  map host_call_line (host_calls_ c) ++ more_line "unimplemented-more" (distinct_host_calls_ c) (length (host_calls_ c)).

Definition exit_lines (reason : text) : list text :=
  [lit "guest-exit: " ++ (match reason with [] => lit "(none)" | _ => reason end)] ++
  (if starts_with reason (lit "guest SIGSEGV:") || starts_with reason (lit "guest SIGILL:") then [lit "guest-exit-kind: execution_fault"] else []).

(** The eight methods called most often, and all calls.  [std::sort] leaves the order of
    equal counts open; here they keep the order of their registration. *)
Definition more_calls (a b : text * Z) : Prop := snd b <= snd a.
#[global] Instance more_calls_dec a b : Decision (more_calls a b).
Proof. unfold more_calls. apply _. Defined.
Fixpoint shown_calls (n : nat) (l : list (text * Z)) : list (text * Z) :=
  match n, l with S n, e :: l => if snd e =? 0 then [] else e :: shown_calls n l | _, _ => [] end.
Definition natives_line (n : Natives) : text :=
  let shown := shown_calls 8 (merge_sort more_calls (native_calls_ n)) in
  lit "native-calls:" ++ concat (map (fun e => lit " " ++ fst e ++ lit "=" ++ dec (snd e)) shown) ++ (match shown with [] => lit " (none)" | _ => [] end) ++
  lit " total=" ++ dec (u64 (foldr (fun e t => snd e + t) 0 (native_calls_ n) + native_calls_overflow_ n)).

Definition opens_lines (o : Opens) : list text :=
  (match opened_paths_ o with [] => [lit "opened-1: (none)"] | l => imap (fun i p => lit "opened-" ++ dec (Z.of_nat i + 1) ++ lit ": " ++ p) l end) ++
  imap (fun i e => lit "open-failed-" ++ dec (Z.of_nat i + 1) ++ lit ": " ++ fst e ++ lit " errno=" ++ dec (snd e)) (failed_opens_ o).

Definition error_text (e : option (text * Z)) : text := match e with None => lit "(none)" | Some (f, v) => f ++ lit " " ++ hex4 v end.
Definition gl_lines (g : GlNotes) : list text :=
  [count_line "gl-calls" (gl_call_total_ g);
   lit "gl-first-call: " ++ (if gl_call_total_ g =? 0 then lit "(none)" else fst (gl_first_call_ g) ++ lit " tid=" ++ dec (snd (gl_first_call_ g)));
   lit "gl-egl-context-current: " ++ (match gl_egl_context_ g with None => lit "(unknown)" | Some true => lit "yes" | Some false => lit "no" end);
   lit "gl-first-error: " ++ error_text (gl_error_ g)].

Definition detail_lines (prefix : string) (l : list (text * text)) : list text := map (fun e => lit prefix ++ fst e ++ lit ": " ++ snd e) l.

(** The first thread with GLES calls that never made a context current. *)
Definition mismatch_lines (gl egl : list Z) : list text :=
  match list_find (fun tid => tid ∉ egl) gl with
  | Some (_, tid) => [lit "egl-thread-mismatch: current=" ++ dec (default 0 (last egl)) ++ lit " gl=" ++ dec tid]
  | None => []
  end.

Definition lines (r : RuntimeReport) : list text :=
  [lit "zettabridge-runtime-report 1";
   lit "plugin: " ++ (match plugin_root_ r with [] => lit "(none)" | p => p ++ lit " targetSdk " ++ dec (target_sdk_ r) end)] ++
  loads_lines (loads_ r) ++ [count_line "registered-natives" (registered_natives_ (natives_ r))] ++ calls_lines (calls_ r) ++ exit_lines (exit_reason_ r) ++
  [natives_line (natives_ r)] ++ opens_lines (opens_ r) ++ gl_lines (gl_ r) ++ detail_lines "gl-" (details_ r SGl) ++ detail_lines "egl-" (details_ r SEgl) ++
  [count_line "egl-swaps" (egl_swap_total_ (egl_ r))] ++ mismatch_lines (gl_thread_tids_ (gl_ r)) (egl_current_tids_ (egl_ r)) ++ [lit "egl-first-error: " ++ error_text (egl_error_ (egl_ r))] ++
  detail_lines "jni-" (details_ r SJni) ++ detail_lines "crash-" (details_ r SCrash) ++ detail_lines "watch-" (details_ r SWatch) ++ detail_lines "looper-" (details_ r SLooper).

Definition report_text (r : RuntimeReport) : text := concat (map (fun l => l ++ [10]) (lines r)).

(** ** Sequences of notes *)

Inductive note :=
| Plugin (root : text) (sdk : Z) | Unimplemented (index : Z) (library function : option text) | ProxyLoaded (library : text) (version : Z) | ProxyFailed (library error : text)
| JniOnload (library : text) (ok : bool) (version : Z) | RegisteredNative | NativeCounter (name : text) | NativeCalled (counter : option nat) | GuestOpen (path : text)
| GuestOpenFailed (path : text) (error : Z) | GuestExit (reason : text) | GlCall (function : option text) (tid : Z) | GlEglContext (current : bool) | GlError (function : option text) (error : Z)
| GlDetail (key value : text) (overwrite : bool) | CrashDetail (key value : text) | JniDetail (key value : text) (overwrite : bool) | LooperDetail (key value : text) (overwrite : bool)
| WatchDetail (key value : text) | EglObjectNote (key value : text) | EglCurrent (tid : Z) | GlThread (tid : Z) | EglSwap | EglError (function : option text) (error : Z) | Clear.

Definition apply_note (n : note) (r : RuntimeReport) : noted :=
  match n with
  | Plugin root sdk => note_plugin root sdk r
  | Unimplemented i l f => note_unimplemented_host_call i l f r
  | ProxyLoaded l v => note_proxy_loaded l v r
  | ProxyFailed l e => note_proxy_failed l e r
  | JniOnload l ok v => note_jni_onload l ok v r
  | RegisteredNative => note_registered_native r
  | NativeCounter name => (snd (native_call_counter name r), None)
  | NativeCalled c => (count_native_call c r, None)
  | GuestOpen p => note_guest_open p r
  | GuestOpenFailed p e => note_guest_open_failed p e r
  | GuestExit reason => note_guest_exit reason r
  | GlCall f t => note_gl_call f t r
  | GlEglContext b => note_gl_egl_context b r
  | GlError f e => note_gl_error f e r
  | GlDetail k v o => note_gl_detail k v o r
  | CrashDetail k v => note_crash_detail k v r
  | JniDetail k v o => note_jni_detail k v o r
  | LooperDetail k v o => note_looper_detail k v o r
  | WatchDetail k v => note_watch_detail k v r
  | EglObjectNote k v => note_egl_object k v r
  | EglCurrent t => note_egl_current t r
  | GlThread t => note_gl_thread t r
  | EglSwap => note_egl_swap r
  | EglError f e => note_egl_error f e r
  | Clear => (RuntimeReport_init, None)
  end.

Definition report_after (ns : list note) : RuntimeReport := foldl (fun r n => fst (apply_note n r)) RuntimeReport_init ns.

(** ** The file *)

(** [now - last_] of two time points, 64-bit counts of nanoseconds. *)
Definition time_since (now last_ : Z) : exec Z := if (- 2 ^ 63 <=? now - last_) && (now - last_ <? 2 ^ 63) then Ret (now - last_) else Undefined.

Record ReportWriter := { min_interval_ : Z; last_write_ : Z }.
Definition ReportWriter_init (min_interval : Z) : ReportWriter := {| min_interval_ := min_interval; last_write_ := - 2 ^ 63 |}.

(** [operator()(structural)]: whether the report is written. *)
Definition on_change (w : ReportWriter) (structural : bool) (now : Z) : exec (bool * ReportWriter) :=
  let writes := Ret (true, {| min_interval_ := min_interval_ w; last_write_ := now |}) in
  if structural then writes
  else d ← time_since now (last_write_ w); if d <? min_interval_ w then Ret (false, w) else writes.

(** The report's file and its sibling. *)
Record Disk := { report_file : option text; temporary_file : option text }.

Inductive write_state :=
| WIdle
| WOpen (t : text)
| WWrite (t : text) (written : nat)
| WSync (t : text)
| WClose (t : text)
| WRename (t : text)
| WUnlink
| WDone (result : bool).

(** One system call of [write_now]; [begun] has the texts that were to be written.  The
    process may stop after any step. *)
Record Writing := { disk : Disk; at_ : write_state; begun : list text }.
Inductive write_step : Writing -> Writing -> Prop :=
| w_begin d b r : write_step {| disk := d; at_ := WIdle; begun := b |} {| disk := d; at_ := WOpen (report_text r); begun := b ++ [report_text r] |}
| w_open d b t : write_step {| disk := d; at_ := WOpen t; begun := b |} {| disk := {| report_file := report_file d; temporary_file := Some [] |}; at_ := WWrite t 0; begun := b |}
| w_open_fails d b t : write_step {| disk := d; at_ := WOpen t; begun := b |} {| disk := d; at_ := WDone false; begun := b |}
| w_write d b t n k : (n < length t)%nat -> (0 < k <= length t - n)%nat ->
    write_step {| disk := d; at_ := WWrite t n; begun := b |} {| disk := {| report_file := report_file d; temporary_file := Some (default [] (temporary_file d) ++ take k (drop n t)) |}; at_ := WWrite t (n + k); begun := b |}
| w_interrupted d b t n : (n < length t)%nat -> write_step {| disk := d; at_ := WWrite t n; begun := b |} {| disk := d; at_ := WWrite t n; begun := b |}
| w_write_fails d b t n : (n < length t)%nat -> write_step {| disk := d; at_ := WWrite t n; begun := b |} {| disk := d; at_ := WUnlink; begun := b |}
| w_written d b t : write_step {| disk := d; at_ := WWrite t (length t); begun := b |} {| disk := d; at_ := WSync t; begun := b |}
| w_sync d b t : write_step {| disk := d; at_ := WSync t; begun := b |} {| disk := d; at_ := WClose t; begun := b |}
| w_close d b t : write_step {| disk := d; at_ := WClose t; begun := b |} {| disk := d; at_ := WRename t; begun := b |}
| w_rename d b t : write_step {| disk := d; at_ := WRename t; begun := b |} {| disk := {| report_file := temporary_file d; temporary_file := None |}; at_ := WDone true; begun := b |}
| w_rename_fails d b t : write_step {| disk := d; at_ := WRename t; begun := b |} {| disk := d; at_ := WUnlink; begun := b |}
| w_unlink d b : write_step {| disk := d; at_ := WUnlink; begun := b |} {| disk := {| report_file := report_file d; temporary_file := None |}; at_ := WDone false; begun := b |}
| w_end d b r : write_step {| disk := d; at_ := WDone r; begun := b |} {| disk := d; at_ := WIdle; begun := b |}.

(** ** Lines without control characters *)

Definition clean_char (c : Z) : bool := (0x20 <=? c) && negb (c =? 0x7f).
Definition clean (t : text) : Prop := forallb clean_char t = true.

Lemma clean_app a b : clean a -> clean b -> clean (a ++ b).
Proof. unfold clean. rewrite forallb_app. by intros -> ->. Qed.
Lemma clean_nil : clean [].
Proof. done. Qed.
Lemma clean_cons c t : clean_char c = true -> clean t -> clean (c :: t).
Proof. intros Hc Ht. unfold clean. cbn. by rewrite Hc, Ht. Qed.
Lemma clean_replicate n : clean (replicate n 48).
Proof. induction n; [done|by apply clean_cons]. Qed.

Lemma digit_clean d : 0 <= d < 16 -> clean_char (digit d) = true.
Proof. intros H. unfold digit, clean_char. destruct (Z.ltb_spec d 10); rewrite andb_true_iff, Z.leb_le, negb_true_iff, Z.eqb_neq; lia. Qed.
Lemma digits_clean fuel base z acc : 0 < base <= 16 -> clean acc -> clean (digits fuel base z acc).
Proof.
  intros Hb. revert z acc. induction fuel as [|fuel IH]; intros z acc Ha; cbn [digits]; [done|]. assert (clean (digit (z mod base) :: acc)) as H by (apply clean_cons; [|done]; apply digit_clean; pose proof (Z.mod_pos_bound z base); lia).
  cbv zeta. destruct (_ =? 0); [done|by apply IH].
Qed.
Lemma dec_clean z : clean (dec z).
Proof. unfold dec. destruct (z <? 0); [apply clean_cons; [done|]|]; apply digits_clean; done. Qed.
Lemma hex_version_clean v : clean (hex_version v).
Proof. unfold hex_version, hex8. apply clean_app; [done|]. apply clean_app; [apply clean_replicate|by apply digits_clean]. Qed.
Lemma hex4_clean v : clean (hex4 v).
Proof. unfold hex4. cbv zeta. apply clean_app; [done|]. apply clean_app; [apply clean_replicate|by apply digits_clean]. Qed.

Lemma plain_char_clean c : clean_char (plain_char c) = true.
Proof. unfold plain_char, clean_char. destruct (Z.ltb_spec c 0x20); cbn [orb]; [done|]. destruct (Z.eqb_spec c 0x7f); [done|]. rewrite andb_true_iff, Z.leb_le, negb_true_iff, Z.eqb_neq. lia. Qed.
Lemma trim_clean t : clean t -> clean (trim t).
Proof. unfold clean. induction t as [|c t IH]; [done|]. cbn [forallb trim]. rewrite andb_true_iff. intros [Hc Ht]. specialize (IH Ht). destruct (trim t); [destruct (c =? 32); cbn; [done|by rewrite Hc]|by apply clean_cons]. Qed.
Lemma one_line_clean t n : clean (one_line t n).
Proof.
  apply trim_clean, clean_app; [|by destruct (_ <? _)%nat]. unfold clean. apply forallb_forall. intros c Hc. apply in_map_iff in Hc as (d & <- & _). apply plain_char_clean.
Qed.
Lemma failure_kind_clean e : clean (loader_failure_kind e).
Proof. unfold loader_failure_kind. cbv zeta. repeat (destruct (_ || _); [done|]). done. Qed.

Create HintDb clean discriminated.
#[global] Hint Resolve clean_app clean_nil dec_clean hex_version_clean hex4_clean one_line_clean failure_kind_clean : clean.
#[global] Hint Extern 1 (clean (lit _)) => reflexivity : clean.
#[global] Hint Extern 1 (clean (or_unknown None)) => reflexivity : clean.

(** ** The report is bounded *)

Definition bounded {A} (P : A -> Prop) (n : nat) (l : list A) : Prop := Forall P l /\ (length l <= n)%nat.

Lemma bounded_add {A} (P : A -> Prop) n l x : bounded P n l -> P x -> (length l < n)%nat -> bounded P n (l ++ [x]).
Proof. intros [Hl Hn] Hx Hlt. split; [apply Forall_app; by split; [|apply Forall_singleton]|rewrite length_app; cbn; lia]. Qed.
Lemma bounded_keep {A} (P : A -> Prop) n l x (b : bool) : bounded P n l -> P x -> b = (length l <? n)%nat -> bounded P n (if b then l ++ [x] else l).
Proof. intros Hl Hx ->. destruct (Nat.ltb_spec (length l) n); [by apply bounded_add|done]. Qed.
Lemma bounded_insert {A} (P : A -> Prop) n l i x : bounded P n l -> P x -> bounded P n (<[i := x]> l).
Proof. intros [Hl Hn] Hx. split; [by apply Forall_insert|by rewrite length_insert]. Qed.

Definition call_ok (e : HostCall) : Prop := clean (hc_library e) /\ clean (hc_function e).
Definition load_ok (l : Load) : Prop := clean (ld_library l) /\ clean (ld_error l) /\ clean (failure_kind l).
Definition error_ok (e : option (text * Z)) : Prop := match e with Some (f, _) => clean f | None => True end.

Record report_ok (r : RuntimeReport) : Prop := {
  ro_plugin : clean (plugin_root_ r);
  ro_calls : bounded call_ok kMaxDistinctHostCalls (host_calls_ (calls_ r));
  ro_proxies : bounded load_ok kMaxLibraries (proxy_loads_ (loads_ r));
  ro_onloads : bounded load_ok kMaxLibraries (onloads_ (loads_ r));
  ro_natives : bounded (fun e => clean (fst e)) kMaxNativeCalls (native_calls_ (natives_ r));
  ro_exit : clean (exit_reason_ r);
  ro_opened : bounded clean kMaxOpenedPaths (opened_paths_ (opens_ r));
  ro_failed : bounded (fun e => clean (fst e)) kMaxFailedOpens (failed_opens_ (opens_ r));
  ro_first : clean (fst (gl_first_call_ (gl_ r)));
  ro_gl_error : error_ok (gl_error_ (gl_ r));
  ro_gl_tids : bounded (fun _ => True) kMaxEglThreads (gl_thread_tids_ (gl_ r));
  ro_egl_tids : bounded (fun _ => True) kMaxEglThreads (egl_current_tids_ (egl_ r));
  ro_egl_error : error_ok (egl_error_ (egl_ r));
  ro_details : forall s, bounded (fun e => clean (fst e) /\ clean (snd e)) (section_limit s) (details_ r s);
}.

Lemma report_ok_init : report_ok RuntimeReport_init.
Proof. constructor; cbn; try done; repeat split; try done; cbn; lia. Qed.

(** The names of functions and libraries are those of the bridge's tables. *)
Definition names_clean (n : note) : Prop :=
  match n with
  | Unimplemented _ l f => clean (or_unknown l) /\ clean (or_unknown f)
  | GlCall f _ | GlError f _ | EglError f _ => clean (or_unknown f)
  | _ => True
  end.

(** The table of host calls, where most of them come from, has such names only. *)
Lemma table_names_clean : Forall (fun c => clean (lit (call_library c)) /\ clean (lit (call_name c))) kHostCalls.
Proof.
  assert (forallb (fun c => forallb clean_char (lit (call_library c)) && forallb clean_char (lit (call_name c))) kHostCalls = true) as H by (vm_compute; reflexivity).
  apply Forall_forall. intros c Hc%list_elem_of_In. rewrite forallb_forall in H. by apply andb_true_iff, H.
Qed.

Lemma detail_ok s key value overwrite r : report_ok r -> report_ok (fst (note_detail s key value overwrite r)).
Proof.
  intros Hr. unfold note_detail. cbv zeta. assert (forall l, bounded (fun e => clean (fst e) /\ clean (snd e)) (section_limit s) l -> report_ok (with_details r s l)) as Hw.
  { intros l Hl. destruct Hr as [? ? ? ? ? ? ? ? ? ? ? ? ? Hd]. constructor; cbn; try done. intros s'. destruct (decide (s' = s)) as [->|]; [done|apply Hd]. }
  pose proof (ro_details _ Hr s) as Hl. destruct (list_find _ _) as [[i e]|] eqn:Ef.
  - destruct (_ && _); [done|]. apply Hw, bounded_insert; [done|]. apply list_find_Some in Ef as (Hi & _). destruct Hl as [Hl _]. apply (Forall_lookup_1 _ _ _ _ Hl) in Hi as [H1 _]. split; [done|apply one_line_clean].
  - destruct (Nat.leb_spec (section_limit s) (length (details_ r s))); [done|]. apply Hw, bounded_add; [done|split; apply one_line_clean|lia].
Qed.

Lemma add_tid_ok l tid : bounded (fun _ => True) kMaxEglThreads l -> bounded (fun _ => True) kMaxEglThreads (fst (add_tid l tid)).
Proof. intros Hl. unfold add_tid. destruct (bool_decide _); [done|]. by apply bounded_keep. Qed.

Lemma opened_ok l path : bounded clean kMaxOpenedPaths l -> clean path ->
  let kept := match list_find (fun p => p = path) l with Some (i, _) => delete i l | None => l end in
  bounded clean kMaxOpenedPaths (if (kMaxOpenedPaths <? length (kept ++ [path]))%nat then drop 1 (kept ++ [path]) else kept ++ [path]).
Proof.
  intros [Hl Hn] Hp kept. assert (Forall clean kept /\ (length kept <= length l)%nat) as [Hk Hlen].
  { unfold kept. destruct (list_find _ l) as [[i x]|] eqn:Ef; [|done]. split; [by apply Forall_delete|]. apply list_find_Some in Ef as (Hi & _). rewrite length_delete; [lia|done]. }
  assert (Forall clean (kept ++ [path])) as Ha by (apply Forall_app; split; [done|by apply Forall_singleton]). destruct (Nat.ltb_spec kMaxOpenedPaths (length (kept ++ [path]))) as [|H]; [|by split].
  split; [by apply Forall_drop|]. rewrite length_drop, length_app in *. cbn. lia.
Qed.

Lemma apply_note_ok n r : names_clean n -> report_ok r -> report_ok (fst (apply_note n r)).
Proof.
  intros Hn Hr. pose proof Hr as [H1 H2 H3 H4 H5 H6 H7 H8 H9 H10 H11 H12 H13 H14]. destruct n; cbn [apply_note]; try by apply detail_ok.
  - constructor; try done. apply one_line_clean.
  - unfold note_unimplemented_host_call. cbv zeta. destruct (list_find _ _) as [[i e]|] eqn:Ef; constructor; cbn; try done.
    + apply bounded_insert; [done|]. apply list_find_Some in Ef as (Hi & _). by apply (Forall_lookup_1 _ _ _ _ (proj1 H2)) in Hi.
    + by apply bounded_keep.
  - constructor; cbn; try done. apply bounded_keep; [done| |done]. repeat split; try done; first [apply one_line_clean|apply failure_kind_clean].
  - constructor; cbn; try done. apply bounded_keep; [done| |done]. repeat split; try done; first [apply one_line_clean|apply failure_kind_clean].
  - constructor; cbn; try done. apply bounded_keep; [done| |done]. repeat split; try done; first [apply one_line_clean|apply failure_kind_clean].
  - by constructor.
  - unfold native_call_counter. cbv zeta. destruct (list_find _ _) as [[i e]|]; [done|]. destruct (Nat.leb_spec kMaxNativeCalls (length (native_calls_ (natives_ r)))); [done|]. constructor; cbn; try done. apply bounded_add; [done|apply one_line_clean|lia].
  - unfold count_native_call. cbv zeta. destruct counter as [i|]; constructor; cbn; try done. destruct H5 as [Hf Hl]. split; [|by rewrite length_alter]. apply Forall_alter; [done|]. by intros e _ ?.
  - unfold note_guest_open. cbv zeta. pose proof (opened_ok _ (one_line path kMaxDetail) H7 (one_line_clean _ _)) as Ho. cbv zeta in Ho. destruct (list_find _ _) as [[i e]|]; constructor; cbn; done.
  - unfold note_guest_open_failed. cbv zeta. destruct (Nat.ltb_spec (length (failed_opens_ (opens_ r))) kMaxFailedOpens); [|done]. constructor; cbn; try done. apply bounded_add; [done|apply one_line_clean|done].
  - unfold note_guest_exit. pose proof (one_line_clean reason kMaxDetail) as Hl. generalize dependent (one_line reason kMaxDetail). intros t Hl. destruct (negb _); [done|]. constructor; try done. by destruct t.
  - constructor; cbn; try done. by destruct (_ =? 1).
  - unfold note_gl_egl_context. cbv zeta. destruct (gl_egl_context_ _); by constructor.
  - unfold note_gl_error. cbv zeta. destruct (gl_error_ _) eqn:E; [done|]. constructor; cbn; done.
  - unfold note_egl_current. cbv zeta. pose proof (add_tid_ok _ tid H12). destruct (add_tid _ _). by constructor.
  - unfold note_gl_thread. cbv zeta. pose proof (add_tid_ok _ tid H11). destruct (add_tid _ _). by constructor.
  - by constructor.
  - unfold note_egl_error. cbv zeta. destruct (egl_error_ _) eqn:E; [done|]. constructor; cbn; done.
  - apply report_ok_init.
Qed.

Lemma report_after_ok ns : Forall names_clean ns -> report_ok (report_after ns).
Proof.
  intros Hn. unfold report_after. assert (forall r, report_ok r -> report_ok (foldl (fun r n => fst (apply_note n r)) r ns)) as H; [|apply H, report_ok_init].
  induction Hn as [|n ns Hn _ IH]; intros r Hr; cbn; [done|]. by apply IH, apply_note_ok.
Qed.

(** ** The lines of a report *)

Definition few (n : nat) (l : list text) : Prop := bounded clean n l.

Lemma few_app a b l k : few a l -> few b k -> few (a + b) (l ++ k).
Proof. intros [H1 H2] [H3 H4]. split; [by apply Forall_app|rewrite length_app; lia]. Qed.
Lemma few_none n : few n [].
Proof. split; [constructor|cbn; lia]. Qed.
Lemma few_one t : clean t -> few 1 [t].
Proof. intros H. split; [by apply Forall_singleton|done]. Qed.
Lemma few_map {A} (P : A -> Prop) n (f : A -> text) l : bounded P n l -> (forall a, P a -> clean (f a)) -> few n (map f l).
Proof. intros [H1 H2] Hf. split; [|by rewrite length_map]. apply Forall_map. by eapply Forall_impl. Qed.
Lemma few_imap {A} (P : A -> Prop) n (f : nat -> A -> text) l : bounded P n l -> (forall i a, P a -> clean (f i a)) -> few n (imap f l).
Proof.
  intros [H1 H2] Hf. split; [|by rewrite length_imap]. apply Forall_forall. intros t Ht. apply elem_of_lookup_imap_1 in Ht as (i & a & -> & Ha). apply Hf. by apply (Forall_lookup_1 _ _ _ _ H1 Ha).
Qed.
Lemma few_more key total kept : clean (lit key) -> few 1 (more_line key total kept).
Proof. intros H. unfold more_line, count_line. destruct (_ <? _); [apply few_one; auto with clean|apply few_none]. Qed.

Lemma loads_few l : bounded load_ok kMaxLibraries (proxy_loads_ l) -> bounded load_ok kMaxLibraries (onloads_ l) -> few 69 (loads_lines l).
Proof.
  intros H1 H2. apply (few_app 2 67); [split; [|cbn; lia]; repeat apply Forall_cons_2; [unfold count_line; auto with clean..|done]|]. apply (few_app 32 35).
  { eapply few_map; [exact H1|]. intros a (Ha1 & Ha2 & Ha3). unfold load_line. destruct (ld_ok a); auto 10 with clean. }
  apply (few_app 1 34); [by apply few_more|]. apply (few_app 1 33); [apply few_one; unfold count_line; auto with clean|]. apply (few_app 32 1); [|by apply few_more].
  eapply few_map; [exact H2|]. intros a (Ha1 & Ha2 & Ha3). unfold onload_line. destruct (ld_ok a); auto 10 with clean.
Qed.

Lemma calls_few c : bounded call_ok kMaxDistinctHostCalls (host_calls_ c) -> few 20 (calls_lines c).
Proof.
  intros H. apply (few_app 3 17).
  - split; [|cbn; lia]. repeat apply Forall_cons_2; [unfold count_line; auto with clean..| |done]. destruct H as [H _]. destruct (host_calls_ c) as [|e l]; [done|]. apply Forall_cons in H as [[H1 H2] _]. auto 10 with clean.
  - apply (few_app 16 1); [|by apply few_more]. eapply few_map; [exact H|]. intros e [H1 H2]. unfold host_call_line. auto 10 with clean.
Qed.

Lemma exit_few t : clean t -> few 2 (exit_lines t).
Proof. intros H. apply (few_app 1 1); [apply few_one; destruct t; auto with clean|]. destruct (_ || _); [by apply few_one|apply few_none]. Qed.

Lemma concat_clean l : Forall clean l -> clean (concat l).
Proof. induction 1; cbn; auto with clean. Qed.

Lemma natives_clean n : Forall (fun e => clean (fst e)) (native_calls_ n) -> clean (natives_line n).
Proof.
  intros H. unfold natives_line. cbv zeta. set (shown := shown_calls 8 _). assert (Forall (fun e => clean (fst e)) shown) as Hs.
  { unfold shown. assert (Forall (fun e => clean (fst e)) (merge_sort more_calls (native_calls_ n))) as Hm by (by rewrite merge_sort_Permutation). revert Hm. generalize (merge_sort more_calls (native_calls_ n)), 8%nat. intros l k Hl. revert k. induction Hl as [|e l He _ IH]; intros [|k]; cbn; try constructor. destruct (_ =? 0); constructor; auto. }
  apply clean_app; [done|]. apply clean_app; [|destruct shown; auto with clean]. apply concat_clean, Forall_map. eapply Forall_impl; [exact Hs|]. intros e He. auto 10 with clean.
Qed.

Lemma opens_few o : bounded clean kMaxOpenedPaths (opened_paths_ o) -> bounded (fun e => clean (fst e)) kMaxFailedOpens (failed_opens_ o) -> few 20 (opens_lines o).
Proof.
  intros H1 H2. apply (few_app 16 4).
  - destruct (opened_paths_ o) as [|p l] eqn:E; [split; [by apply Forall_singleton|cbn; lia]|]. rewrite <- E in *. eapply few_imap; [exact H1|]. intros i a Ha. auto 10 with clean.
  - eapply few_imap; [exact H2|]. intros i a Ha. auto 10 with clean.
Qed.

Lemma error_text_clean e : error_ok e -> clean (error_text e).
Proof. destruct e as [[f v]|]; cbn [error_ok error_text]; auto with clean. Qed.

Lemma gl_few g : clean (fst (gl_first_call_ g)) -> error_ok (gl_error_ g) -> few 4 (gl_lines g).
Proof.
  intros H1 H2. pose proof (error_text_clean _ H2). split; [|cbn; lia]. repeat apply Forall_cons_2; [unfold count_line; auto with clean|destruct (_ =? 0); auto 10 with clean| |auto with clean|done]. destruct (gl_egl_context_ g) as [[]|]; done.
Qed.

Lemma details_few r s prefix n : report_ok r -> clean (lit prefix) -> n = section_limit s -> few n (detail_lines prefix (details_ r s)).
Proof. intros Hr Hp ->. eapply few_map; [apply (ro_details _ Hr s)|]. intros [k v] [H1 H2]. cbn [fst snd] in *. auto 10 with clean. Qed.

Lemma mismatch_few gl egl : few 1 (mismatch_lines gl egl).
Proof. unfold mismatch_lines. destruct (list_find _ _) as [[i tid]|]; [apply few_one; auto 10 with clean|apply few_none]. Qed.

Definition kMaxLines : nat := 994.

Lemma lines_few r : report_ok r -> few kMaxLines (lines r).
Proof.
  intros Hr. pose proof Hr as [H1 H2 H3 H4 H5 H6 H7 H8 H9 H10 H11 H12 H13 H14]. unfold lines, kMaxLines.
  apply (few_app 2 992). { split; [|cbn; lia]. apply Forall_cons_2; [done|]. apply Forall_singleton. destruct (plugin_root_ r); auto 10 with clean. }
  apply (few_app 69 923); [by apply loads_few|]. apply (few_app 1 922); [apply few_one; unfold count_line; auto with clean|]. apply (few_app 20 902); [by apply calls_few|]. apply (few_app 2 900); [by apply exit_few|].
  apply (few_app 1 899); [apply few_one, natives_clean, H5|]. apply (few_app 20 879); [by apply opens_few|]. apply (few_app 4 875); [by apply gl_few|]. apply (few_app 400 475); [by apply details_few|]. apply (few_app 400 75); [by apply details_few|].
  apply (few_app 1 74); [apply few_one; unfold count_line; auto with clean|]. apply (few_app 1 73); [apply mismatch_few|]. apply (few_app 1 72); [apply few_one; pose proof (error_text_clean _ H13); auto with clean|].
  apply (few_app 16 56); [by apply details_few|]. apply (few_app 32 24); [by apply details_few|]. apply (few_app 8 16); by apply details_few.
Qed.

(** ** Reading a report back *)

Lemma clean_no_newline t : clean t -> 10 ∉ t.
Proof. unfold clean. rewrite forallb_forall. intros H Hin. apply list_elem_of_In in Hin. by apply H in Hin. Qed.

Lemma split_on_line t rest : 10 ∉ t -> split_on 10 (t ++ [10] ++ rest) = t :: split_on 10 rest.
Proof.
  induction t as [|c t IH]; intros Ht; cbn.
  - destruct (split_on_cons 10 rest) as (p & ps & ->). done.
  - rewrite not_elem_of_cons in Ht. destruct Ht as [Hc Ht]. change (t ++ 10 :: rest) with (t ++ [10] ++ rest). rewrite (IH Ht). by rewrite (proj2 (Z.eqb_neq c 10)).
Qed.

Lemma split_lines ls : Forall clean ls -> split_on 10 (concat (map (fun l => l ++ [10]) ls)) = ls ++ [[]].
Proof.
  induction 1 as [|l ls Hl _ IH]; [done|]. cbn [map concat]. rewrite <- app_assoc, split_on_line by (by apply clean_no_newline). by rewrite IH.
Qed.

(** C35: whatever is noted in whatever order, given that the names of functions and libraries
    in it have no control characters ([names_clean]; the bridge takes them from its own
    tables and literals, and [table_names_clean] shows it of the table of host calls), the
    report stays within its bounds (at most 994 lines), no value breaks its line, splitting
    the text at newlines gives back exactly the lines the report has, and the first of them
    is the version line and the second that of the plugin, whatever else was noted. *)
Theorem report_readable ns :
  Forall names_clean ns ->
  split_on 10 (report_text (report_after ns)) = lines (report_after ns) ++ [[]] /\ Forall clean (lines (report_after ns)) /\ (length (lines (report_after ns)) <= kMaxLines)%nat /\
  head (split_on 10 (report_text (report_after ns))) = Some (lit "zettabridge-runtime-report 1") /\
  exists root, split_on 10 (report_text (report_after ns)) !! 1%nat = Some (lit "plugin: " ++ root).
Proof.
  intros H. destruct (lines_few _ (report_after_ok ns H)) as [H1 H2]. pose proof (split_lines _ H1) as E. fold (report_text (report_after ns)) in E. split_and!; [exact E|done|done|by rewrite E|]. rewrite E. by eexists.
Qed.

Definition sample_notes : list note := [GuestExit [103; 10; 111]%Z; EglSwap].
Lemma report_readable_witness :
  split_on 10 (report_text (report_after sample_notes)) = lines (report_after sample_notes) ++ [[]] /\
  Forall clean (lines (report_after sample_notes)) /\ (length (lines (report_after sample_notes)) <= kMaxLines)%nat /\
  head (split_on 10 (report_text (report_after sample_notes))) = Some (lit "zettabridge-runtime-report 1") /\
  exists root, split_on 10 (report_text (report_after sample_notes)) !! 1%nat = Some (lit "plugin: " ++ root).
Proof. apply (report_readable sample_notes). repeat constructor. Defined.

(** ** The file *)

Definition write_start (file : option text) : Writing := {| disk := {| report_file := file; temporary_file := None |}; at_ := WIdle; begun := [] |}.

(** The temporary file has what was written so far, and the report's file is whole. *)
Record writing_ok (f0 : option text) (w : Writing) : Prop := {
  wo_file : report_file (disk w) = f0 \/ exists t, t ∈ begun w /\ report_file (disk w) = Some t;
  wo_state : match at_ w with
             | WOpen t => t ∈ begun w
             | WWrite t n => t ∈ begun w /\ (n <= length t)%nat /\ temporary_file (disk w) = Some (take n t)
             | WSync t | WClose t | WRename t => t ∈ begun w /\ temporary_file (disk w) = Some t
             | WDone true => exists t, last (begun w) = Some t /\ report_file (disk w) = Some t
             | _ => True
             end;
  wo_last : match at_ w with WOpen t | WWrite t _ | WSync t | WClose t | WRename t => last (begun w) = Some t | _ => True end;
}.

Lemma write_step_ok f0 w w' : writing_ok f0 w -> write_step w w' -> writing_ok f0 w'.
Proof.
  intros [Hf Hs Hl] Hstep. destruct Hstep; cbn in *.
  - split; cbn; [|apply elem_of_app; right; by apply elem_of_cons; left|by rewrite last_snoc]. destruct Hf as [Hf|(t & Ht & Hf)]; [by left|]. right. exists t. split; [apply elem_of_app; by left|done].
  - split; cbn; [done|split; [done|split; [lia|done]]|done].
  - by split.
  - destruct Hs as (Ht & Hn & Htmp). split; cbn; [done| |done]. split; [done|]. split; [lia|]. rewrite Htmp. cbn. f_equal. by rewrite take_take_drop.
  - by split.
  - by split.
  - destruct Hs as (Ht & _ & Htmp). split; cbn; [done|split; [done|by rewrite Htmp, take_ge by lia]|done].
  - by split.
  - by split.
  - destruct Hs as [Ht Htmp]. split; cbn; [|exists t; by rewrite Htmp|done]. right. exists t. by rewrite Htmp.
  - by split.
  - by split.
  - by split.
Qed.

(** C36: at every moment, however the system calls of the writer end and wherever the process
    stops, the report's file is what it was at first or the whole text of one report that
    was written; when [write_now] returns true it is the text of the report just taken. *)
Theorem report_file_whole f0 w :
  rtc write_step (write_start f0) w ->
  (report_file (disk w) = f0 \/ exists t, t ∈ begun w /\ report_file (disk w) = Some t) /\ (at_ w = WDone true -> exists t, last (begun w) = Some t /\ report_file (disk w) = Some t).
Proof.
  intros H. assert (writing_ok f0 w) as [Hf Hs _].
  { revert H. apply (rtc_ind_r (writing_ok f0) (write_start f0)); [by split; [left|..]|]. intros. by eapply write_step_ok. }
  split; [done|]. intros E. by rewrite E in Hs.
Qed.

Definition sample_report : RuntimeReport := RuntimeReport_init.
Definition sample_disk : Disk := {| report_file := None; temporary_file := None |}.
Lemma report_file_whole_witness :
  (report_file sample_disk = None \/ exists t, t ∈ [report_text sample_report] /\ report_file sample_disk = Some t) /\
  (WDone false = WDone true -> exists t, last [report_text sample_report] = Some t /\ report_file sample_disk = Some t).
Proof.
  apply (report_file_whole None {| disk := sample_disk; at_ := WDone false; begun := [report_text sample_report] |}).
  eapply rtc_l; [exact (w_begin sample_disk [] sample_report)|]. eapply rtc_l; [exact (w_open_fails sample_disk [report_text sample_report] (report_text sample_report))|]. apply rtc_refl.
Defined.

(** ** Findings *)

(** The first change that is not structural subtracts the smallest time point. *)
Example first_counter_note_overflows : on_change (ReportWriter_init 1000000000) false 5000000000 = Undefined.
Proof. reflexivity. Qed.

(** A call beyond the sixteenth is counted as distinct, and as a structural change, each time. *)
Definition sixteen : list note := map (fun i => Unimplemented (Z.of_nat i) None None) (seq 0 16).
Example repeated_call_distinct : distinct_host_calls_ (calls_ (report_after (sixteen ++ [Unimplemented 16 None None; Unimplemented 16 None None]))) = 18
  /\ snd (note_unimplemented_host_call 16 None None (report_after (sixteen ++ [Unimplemented 16 None None]))) = Some true.
Proof. vm_compute. split; reflexivity. Qed.
