(* ===== verification/HangWatchdog.v ===== *)
(** * The hang watchdog

    [core/src/hang_watchdog.cpp]: guest threads record what they do in slots of a fixed
    table, with relaxed atomics and without locks, and a background thread compares samples
    of the table and reports threads that stand still.

    The table is shared: each load, store and compare-and-swap is one step of the thread
    that makes it, and the threads run in any order.  A thread records only under its own
    id, so a thread is named by that id.  The sampler takes a snapshot in one step; in the
    code it loads the fields of a slot one after the other, so that a sample can mix two
    activities of a running thread.  [census_written], a static of the code, is a field of the
    one watchdog a process starts.  A report is the list of the threads shown; its text
    and the census of threads come from /proc. *)

From stdpp Require Import numbers list gmap relations.
From S2P Require Import Prelude Bytes.
Local Open Scope Z_scope.

Definition kMaxSlots : nat := 256.
Definition kStuckThreshold : nat := 2.
Definition kMaxNotes : nat := 6.
Definition kMaxThreadsShown : nat := 8.

Inductive ThreadActivityKind := kNone | kSyscall | kHostCall.
#[global] Instance ThreadActivityKind_eq_dec : EqDecision ThreadActivityKind.
Proof. solve_decision. Defined.

(** ** Slots *)

Record Slot := { s_tid : Z; s_kind : ThreadActivityKind; s_id : Z; s_counter : Z; s_in_progress : bool }.
Definition Slot_init : Slot := {| s_tid := 0; s_kind := kNone; s_id := 0; s_counter := 0; s_in_progress := false |}.

Definition set_tid (v : Z) (s : Slot) : Slot := {| s_tid := v; s_kind := s_kind s; s_id := s_id s; s_counter := s_counter s; s_in_progress := s_in_progress s |}.
Definition set_kind (v : ThreadActivityKind) (s : Slot) : Slot := {| s_tid := s_tid s; s_kind := v; s_id := s_id s; s_counter := s_counter s; s_in_progress := s_in_progress s |}.
Definition set_id (v : Z) (s : Slot) : Slot := {| s_tid := s_tid s; s_kind := s_kind s; s_id := v; s_counter := s_counter s; s_in_progress := s_in_progress s |}.
Definition set_counter (v : Z) (s : Slot) : Slot := {| s_tid := s_tid s; s_kind := s_kind s; s_id := s_id s; s_counter := v; s_in_progress := s_in_progress s |}.
Definition set_progress (v : bool) (s : Slot) : Slot := {| s_tid := s_tid s; s_kind := s_kind s; s_id := s_id s; s_counter := s_counter s; s_in_progress := v |}.

(** Where a thread is in [record_thread_activity] or [record_thread_activity_done]. *)
Inductive place :=
| Outside
| Scan (k : ThreadActivityKind) (id : Z) (i : nat) (free_slot : option nat)
| Claim (k : ThreadActivityKind) (id : Z) (i : nat)
| StoreKind (k : ThreadActivityKind) (id : Z) (i : nat) (claimed : bool)
| StoreId (id : Z) (i : nat) (claimed : bool)
| StoreCounter (i : nat) (claimed : bool)
| StoreProgress (i : nat)
| ScanDone (i : nat).

(** A thread: where it is, and the slot it remembers ([mine]). *)
Record Thread := { pc : place; mine : option nat }.
Definition Thread_init : Thread := {| pc := Outside; mine := None |}.

Definition goto (p : place) (t : Thread) : Thread := {| pc := p; mine := mine t |}.
Definition remember (i : nat) (t : Thread) : Thread := {| pc := Outside; mine := Some i |}.

(** The call of [record_thread_activity]; with a slot of its own the thread goes on to its
    stores at once. *)
Definition record_call (k : ThreadActivityKind) (id : Z) (t : Thread) : Thread :=
  match mine t with Some i => goto (StoreKind k id i false) t | None => goto (Scan k id 0 None) t end.

(** The next atomic access of thread [tid]. *)
Definition advance (tid : Z) (t : Thread) (slots : list Slot) : Thread * list Slot :=
  match pc t with
  | Outside => (t, slots)
  | Scan k id i free_slot =>
      match slots !! i with
      | Some s =>
          if s_tid s =? tid then (goto (StoreKind k id i false) t, slots)
          else (goto (Scan k id (S i) (match free_slot with None => if s_tid s =? 0 then Some i else None | Some f => Some f end)) t, slots)
      | None => match free_slot with None => (goto Outside t, slots) | Some f => (goto (Claim k id f) t, slots) end
      end
  | Claim k id i =>
      match slots !! i with
      | Some s => if s_tid s =? 0 then (goto (StoreKind k id i true) t, <[i := set_tid tid s]> slots) else (goto Outside t, slots)
      | None => (goto Outside t, slots)
      end
  | StoreKind k id i c => (goto (StoreId id i c) t, alter (set_kind k) i slots)
  | StoreId id i c => (goto (StoreCounter i c) t, alter (set_id id) i slots)
  | StoreCounter i true => (remember i t, alter (set_counter 1) i slots)
  | StoreCounter i false => (goto (StoreProgress i) t, alter (fun s => set_counter (u64 (s_counter s + 1)) s) i slots)
  | StoreProgress i => (remember i t, alter (set_progress true) i slots)
  | ScanDone i =>
      match slots !! i with
      | Some s => if s_tid s =? tid then (goto Outside t, <[i := set_progress false s]> slots) else (goto (ScanDone (S i)) t, slots)
      | None => (goto Outside t, slots)
      end
  end.

(** Whether the next access counts an activity. *)
Definition counts (p : place) : Z := match p with StoreCounter _ _ => 1 | _ => 0 end.

Record Table := { g_slots : list Slot; threads : gmap Z Thread; recorded : gmap Z Z }.
Definition Table_init : Table := {| g_slots := replicate kMaxSlots Slot_init; threads := ∅; recorded := ∅ |}.
Definition thread (w : Table) (tid : Z) : Thread := default Thread_init (threads w !! tid).
(** How often a thread's activity was counted. *)
Definition times (w : Table) (tid : Z) : Z := default 0 (recorded w !! tid).

Inductive table_step : Table -> Table -> Prop :=
| t_record w tid k id : tid <> 0 -> pc (thread w tid) = Outside ->
    table_step w {| g_slots := g_slots w; threads := <[tid := record_call k id (thread w tid)]> (threads w); recorded := recorded w |}
| t_done w tid : tid <> 0 -> pc (thread w tid) = Outside ->
    table_step w {| g_slots := g_slots w; threads := <[tid := goto (ScanDone 0) (thread w tid)]> (threads w); recorded := recorded w |}
| t_advance w tid : tid <> 0 ->
    table_step w {| g_slots := snd (advance tid (thread w tid) (g_slots w)); threads := <[tid := fst (advance tid (thread w tid) (g_slots w))]> (threads w);
                    recorded := <[tid := times w tid + counts (pc (thread w tid))]> (recorded w) |}.

(** ** Samples *)

Record ThreadActivitySample := { tid : Z; kind : ThreadActivityKind; id : Z; counter : Z; in_progress : bool }.
Definition sample_of (s : Slot) : ThreadActivitySample := {| tid := s_tid s; kind := s_kind s; id := s_id s; counter := s_counter s; in_progress := s_in_progress s |}.
Definition snapshot_thread_activity (slots : list Slot) : list ThreadActivitySample := map sample_of (filter (fun s => s_tid s <> 0) slots).

Record State := { st_tid : Z; st_kind : ThreadActivityKind; st_id : Z; st_counter : Z; since : Z; unchanged_samples : nat }.
Record HangWatchdog := { previous_ : list State; notes_written_ : nat; census_written : bool }.
Definition HangWatchdog_init : HangWatchdog := {| previous_ := []; notes_written_ := 0; census_written := false |}.

(** A report: its number, the threads it shows with the seconds they stand still, and
    whether the census comes with it. *)
Record Note := { number : nat; stuck_threads : list (State * Z); with_census : bool }.

Definition same_activity (p : State) (s : ThreadActivitySample) : bool := bool_decide (st_kind p = kind s) && (st_id p =? id s) && (st_counter p =? counter s).

Definition next_state (previous : list State) (now : Z) (s : ThreadActivitySample) : State :=
  let fresh := {| st_tid := tid s; st_kind := kind s; st_id := id s; st_counter := counter s; since := now; unchanged_samples := 0 |} in
  match list_find (fun p => st_tid p = tid s) previous with
  | Some (_, p) => if same_activity p s then {| st_tid := tid s; st_kind := kind s; st_id := id s; st_counter := counter s; since := since p; unchanged_samples := S (unchanged_samples p) |} else fresh
  | None => fresh
  end.

Definition stuck (s : State) : bool := (kStuckThreshold <=? unchanged_samples s)%nat.

(** [now] is in nanoseconds. *)
Definition sample (now : Z) (current : list ThreadActivitySample) (w : HangWatchdog) : option Note * HangWatchdog :=
  let next := map (next_state (previous_ w) now) current in
  let quiet := (None, {| previous_ := next; notes_written_ := notes_written_ w; census_written := census_written w |}) in
  if (kMaxNotes <=? notes_written_ w)%nat then quiet
  else
    match filter (fun s => stuck s = true) next with
    | [] => quiet
    | l =>
        (Some {| number := S (notes_written_ w); stuck_threads := map (fun s => (s, Z.quot (now - since s) (10 ^ 9))) (take kMaxThreadsShown l); with_census := negb (census_written w) |},
         {| previous_ := next; notes_written_ := S (notes_written_ w); census_written := true |})
    end.

(** [run_forever] over the samples it takes. *)
Fixpoint run_samples (h : list (Z * list ThreadActivitySample)) (w : HangWatchdog) : list Note * HangWatchdog :=
  match h with
  | [] => ([], w)
  | (now, c) :: h => let '(n, w) := sample now c w in let '(ns, w) := run_samples h w in (match n with Some n => n :: ns | None => ns end, w)
  end.

(** ** The table *)

Definition tids (slots : list Slot) : list Z := map s_tid slots.

(** What holds where a thread is, by the ids in the slots and the count of its activities. *)
Definition place_ok (t : Z) (th : Thread) (ids : list Z) (n : Z) : Prop :=
  (forall i, mine th = Some i -> ids !! i = Some t) /\
  match pc th with
  | Outside | ScanDone _ => True
  | Scan _ _ i _ => forall j, (j < i)%nat -> ids !! j <> Some t
  | Claim _ _ _ => t ∉ ids
  | StoreKind _ _ i c | StoreId _ i c | StoreCounter i c => ids !! i = Some t /\ (c = true -> n = 0)
  | StoreProgress i => ids !! i = Some t
  end.

Record table_inv (w : Table) : Prop := {
  ti_unique : forall i j t, t <> 0 -> tids (g_slots w) !! i = Some t -> tids (g_slots w) !! j = Some t -> i = j;
  ti_counter : forall i s, g_slots w !! i = Some s -> s_counter s = if s_tid s =? 0 then 0 else u64 (times w (s_tid s));
  ti_unseen : forall t, t <> 0 -> t ∉ tids (g_slots w) -> times w t = 0;
  ti_threads : forall t, t <> 0 -> place_ok t (thread w t) (tids (g_slots w)) (times w t);
}.

Lemma tids_alter f i slots : (forall s, s_tid (f s) = s_tid s) -> tids (alter f i slots) = tids slots.
Proof.
  intros Hf. unfold tids. apply list_eq. intros j. rewrite !list_lookup_fmap. destruct (decide (i = j)) as [->|Hne]; [rewrite list_lookup_alter_eq|by rewrite list_lookup_alter_ne]. destruct (slots !! j); [cbn; by rewrite Hf|done].
Qed.
Lemma tids_insert i s slots : tids (<[i := s]> slots) = <[i := s_tid s]> (tids slots).
Proof. unfold tids. apply list_fmap_insert. Qed.
Lemma tids_same i s s' slots : slots !! i = Some s -> s_tid s' = s_tid s -> tids (<[i := s']> slots) = tids slots.
Proof. intros Hi Es. rewrite tids_insert, Es. apply list_insert_id. unfold tids. by rewrite list_lookup_fmap, Hi. Qed.
Lemma tids_lookup i s slots : slots !! i = Some s -> tids slots !! i = Some (s_tid s).
Proof. intros H. unfold tids. by rewrite list_lookup_fmap, H. Qed.

Lemma thread_insert s th r t x : thread {| g_slots := s; threads := <[t := x]> th; recorded := r |} t = x.
Proof. unfold thread. cbn. by rewrite lookup_insert_eq. Qed.
Lemma thread_other s s' th r r' t t' x : t' <> t -> thread {| g_slots := s; threads := <[t := x]> th; recorded := r |} t' = thread {| g_slots := s'; threads := th; recorded := r' |} t'.
Proof. intros H. unfold thread. cbn. by rewrite lookup_insert_ne. Qed.
Lemma times_insert s th r t v : times {| g_slots := s; threads := th; recorded := <[t := v]> r |} t = v.
Proof. unfold times. cbn. by rewrite lookup_insert_eq. Qed.
Lemma times_other s th r t v t' w : t' <> t -> recorded w = r -> times {| g_slots := s; threads := th; recorded := <[t := v]> r |} t' = times w t'.
Proof. intros H <-. unfold times. cbn. by rewrite lookup_insert_ne. Qed.

(** A step of a thread that leaves the ids in the slots as they are. *)
Lemma inv_local w t th slots n :
  table_inv w -> t <> 0 -> tids slots = tids (g_slots w) -> (forall i s, slots !! i = Some s -> s_tid s <> t -> exists s0, g_slots w !! i = Some s0 /\ s_tid s0 = s_tid s /\ s_counter s0 = s_counter s) ->
  (forall i s, slots !! i = Some s -> s_tid s = t -> s_counter s = u64 n) -> (t ∉ tids (g_slots w) -> n = 0) -> place_ok t th (tids (g_slots w)) n ->
  table_inv {| g_slots := slots; threads := <[t := th]> (threads w); recorded := <[t := n]> (recorded w) |}.
Proof.
  intros [H1 H2 H3 H4] Ht Eids Hother Hown Hn Hp. constructor; cbn [g_slots]; rewrite ?Eids.
  - done.
  - intros i s Hi. destruct (decide (s_tid s = t)) as [Es|Hne]; [rewrite Es, times_insert, (proj2 (Z.eqb_neq t 0) Ht); by apply (Hown i)|]. destruct (Hother i s Hi Hne) as (s0 & Hi0 & Et & Ec). rewrite (times_other _ _ _ _ _ _ w) by done. rewrite <- Ec, <- Et. by apply (H2 i).
  - intros t' Ht' Hin. destruct (decide (t' = t)) as [->|Hne]; [rewrite times_insert; auto|]. rewrite (times_other _ _ _ _ _ _ w) by done. by apply H3.
  - intros t' Ht'. destruct (decide (t' = t)) as [->|Hne]; [by rewrite thread_insert, times_insert|]. rewrite (thread_other _ (g_slots w) _ _ (recorded w)), (times_other _ _ _ _ _ _ w) by done. by apply H4.
Qed.

(** The slots stay, the thread moves. *)
Lemma inv_moves w t th : table_inv w -> t <> 0 -> place_ok t th (tids (g_slots w)) (times w t) -> table_inv {| g_slots := g_slots w; threads := <[t := th]> (threads w); recorded := <[t := times w t]> (recorded w) |}.
Proof.
  intros Hw Ht Hp. apply inv_local; [done|done|done|by intros i s Hi _; exists s| |by apply (ti_unseen _ Hw)|done]. intros i s Hi Es. rewrite (ti_counter _ Hw i s Hi), Es. by rewrite (proj2 (Z.eqb_neq t 0) Ht).
Qed.

(** The thread stores into its slot. *)
Lemma inv_stores w t th f i n :
  table_inv w -> t <> 0 -> tids (g_slots w) !! i = Some t -> (forall s, s_tid (f s) = s_tid s) -> (forall s, s_counter s = u64 (times w t) -> s_counter (f s) = u64 n) -> place_ok t th (tids (g_slots w)) n ->
  table_inv {| g_slots := alter f i (g_slots w); threads := <[t := th]> (threads w); recorded := <[t := n]> (recorded w) |}.
Proof.
  intros Hw Ht Hi Hf Hc Hp. apply inv_local; [done|done|by apply tids_alter| | |intros Hnin; destruct Hnin; by eapply list_elem_of_lookup_2|done].
  - intros j s Hj Hne. destruct (decide (i = j)) as [->|Hij]; [|rewrite list_lookup_alter_ne in Hj by done; by exists s]. rewrite list_lookup_alter_eq in Hj. destruct (g_slots w !! j) as [s0|] eqn:E0; [|done]. cbn in Hj. injection Hj as <-. exfalso. apply Hne. rewrite Hf. apply tids_lookup in E0. congruence.
  - intros j s Hj Es. assert (i = j) as <-. { assert (tids (alter f i (g_slots w)) !! j = Some t) as Hj' by (rewrite <- Es; by apply tids_lookup). rewrite tids_alter in Hj' by done. by apply (ti_unique _ Hw i j t). }
    rewrite list_lookup_alter_eq in Hj. destruct (g_slots w !! i) as [s0|] eqn:E0; [|done]. cbn in Hj. injection Hj as <-. apply Hc. rewrite (ti_counter _ Hw i s0 E0). rewrite Hf in Es. by rewrite Es, (proj2 (Z.eqb_neq t 0) Ht).
Qed.

(** A thread without a slot claims a free one. *)
Lemma inv_claims w t th i s :
  table_inv w -> t <> 0 -> g_slots w !! i = Some s -> s_tid s = 0 -> t ∉ tids (g_slots w) -> place_ok t th (<[i := t]> (tids (g_slots w))) 0 ->
  table_inv {| g_slots := <[i := set_tid t s]> (g_slots w); threads := <[t := th]> (threads w); recorded := <[t := 0]> (recorded w) |}.
Proof.
  intros [H1 H2 H3 H4] Ht Hi Es Hin Hp. pose proof (tids_lookup _ _ _ Hi) as Hii. rewrite Es in Hii. pose proof (lookup_lt_Some _ _ _ Hii) as Hlt.
  constructor; cbn [g_slots]; rewrite ?tids_insert; cbn [s_tid set_tid].
  - intros j k t' Ht' Hj Hk. apply list_lookup_insert_Some in Hj. apply list_lookup_insert_Some in Hk. destruct Hj as [(<- & <- & _)|[Hij Hj]], Hk as [(<- & Ek & _)|[Hik Hk]].
    + done.
    + destruct Hin. by eapply list_elem_of_lookup_2.
    + subst t'. destruct Hin. by eapply list_elem_of_lookup_2.
    + by apply (H1 j k t').
  - intros j x Hj. apply list_lookup_insert_Some in Hj as [(<- & <- & _)|[Hij Hj]].
    + cbn [s_tid set_tid s_counter]. rewrite (proj2 (Z.eqb_neq t 0) Ht), times_insert, (H2 i s Hi), Es. done.
    + rewrite (H2 j x Hj). destruct (s_tid x =? 0) eqn:E0; [done|]. rewrite (times_other _ _ _ _ _ _ w); [done| |done]. intros E. destruct Hin. rewrite <- E. eapply list_elem_of_lookup_2. by apply tids_lookup.
  - intros t' Ht' Hnot. destruct (decide (t' = t)) as [->|Hne]; [by rewrite times_insert|]. rewrite (times_other _ _ _ _ _ _ w) by done. apply H3; [done|]. intros [j Hj]%list_elem_of_lookup_1. apply Hnot. eapply (list_elem_of_lookup_2 _ j). rewrite list_lookup_insert_ne; [done|]. intros <-. congruence.
  - intros t' Ht'. destruct (decide (t' = t)) as [->|Hne]; [by rewrite thread_insert, times_insert|]. rewrite (thread_other _ (g_slots w) _ _ (recorded w)), (times_other _ _ _ _ _ _ w) by done.
    assert (forall j, tids (g_slots w) !! j = Some t' -> <[i := t]> (tids (g_slots w)) !! j = Some t') as Hk by (intros j Hj; rewrite list_lookup_insert_ne; [done|intros <-; congruence]).
    assert (forall j, tids (g_slots w) !! j <> Some t' -> <[i := t]> (tids (g_slots w)) !! j <> Some t') as Hk' by (intros j Hj [(<- & E & _)|[_ E]]%list_lookup_insert_Some; [congruence|done]).
    destruct (H4 t' Ht') as [Hm Hpl]. destruct w as [sl ths rc]. cbn [g_slots threads recorded] in *. split; [by auto|]. destruct (pc _); try done; [naive_solver| |naive_solver..|auto]. intros [j Hj]%list_elem_of_lookup_1. apply (Hk' j); [|done]. intros Hj'. apply Hpl. by eapply list_elem_of_lookup_2.
Qed.

Lemma inv_recorded sl th r r' : table_inv {| g_slots := sl; threads := th; recorded := r |} -> (forall t, default 0 (r' !! t) = default 0 (r !! t)) -> table_inv {| g_slots := sl; threads := th; recorded := r' |}.
Proof.
  intros [H1 H2 H3 H4] E. assert (forall t, times {| g_slots := sl; threads := th; recorded := r' |} t = times {| g_slots := sl; threads := th; recorded := r |} t) as Et by (intros t; apply E).
  constructor; cbn [g_slots] in *; [done| | |]; intros *; rewrite Et; [apply H2|apply H3|apply H4].
Qed.
Lemma inv_moves_only w t th : table_inv w -> t <> 0 -> place_ok t th (tids (g_slots w)) (times w t) -> table_inv {| g_slots := g_slots w; threads := <[t := th]> (threads w); recorded := recorded w |}.
Proof.
  intros Hw Ht Hp. apply (inv_recorded _ _ (<[t := times w t]> (recorded w))); [by apply inv_moves|]. intros t'. destruct (decide (t' = t)) as [->|Hne]; [by rewrite lookup_insert_eq|by rewrite lookup_insert_ne].
Qed.

Lemma scan_next t (ids : list Z) i x : (forall j, (j < i)%nat -> ids !! j <> Some t) -> ids !! i = Some x -> x <> t -> forall j, (j < S i)%nat -> ids !! j <> Some t.
Proof. intros H Hi Hx j Hj. destruct (decide (j = i)) as [->|]; [congruence|apply H; lia]. Qed.
Lemma scan_end t (ids : list Z) i : (forall j, (j < i)%nat -> ids !! j <> Some t) -> ids !! i = None -> t ∉ ids.
Proof. intros H Hi [j Hj]%list_elem_of_lookup_1. destruct (decide (j < i)%nat) as [Hl|Hl]; [by apply (H j)|]. apply lookup_ge_None in Hi. apply lookup_lt_Some in Hj. lia. Qed.

Lemma tids_none i slots : slots !! i = None -> tids slots !! i = None.
Proof. intros H. unfold tids. by rewrite list_lookup_fmap, H. Qed.

Lemma insert_as_alter (f : Slot -> Slot) (i : nat) (s : Slot) (slots : list Slot) : slots !! i = Some s -> <[i := f s]> slots = alter f i slots.
Proof.
  intros H. apply list_eq. intros j. destruct (decide (i = j)) as [->|Hne]; [|by rewrite list_lookup_insert_ne, list_lookup_alter_ne]. rewrite list_lookup_alter_eq, H, list_lookup_insert_eq; [done|by eapply lookup_lt_Some].
Qed.

Lemma inv_advance w t : table_inv w -> t <> 0 ->
  table_inv {| g_slots := snd (advance t (thread w t) (g_slots w)); threads := <[t := fst (advance t (thread w t) (g_slots w))]> (threads w);
               recorded := <[t := times w t + counts (pc (thread w t))]> (recorded w) |}.
Proof.
  intros Hw Ht. destruct (ti_threads _ Hw t Ht) as [Hm Hp]. unfold advance. destruct (pc (thread w t)) as [|k id i fr|k id i|k id i c|id i c|i c|i|i]; cbn [counts].
  - rewrite Z.add_0_r. apply inv_moves; [done|done|]. by apply (ti_threads _ Hw).
  - rewrite Z.add_0_r. destruct (g_slots w !! i) as [s|] eqn:Es; [destruct (s_tid s =? t) eqn:Et|destruct fr as [f|]]; (apply inv_moves; [done|done|split; [done|]]); cbn [fst snd pc goto].
    + apply Z.eqb_eq in Et. apply tids_lookup in Es. split; [congruence|done].
    + apply Z.eqb_neq in Et. apply tids_lookup in Es. by apply (scan_next _ _ _ (s_tid s)).
    + apply (scan_end _ _ i); [done|by apply tids_none].
    + done.
  - rewrite Z.add_0_r. destruct (g_slots w !! i) as [s|] eqn:Es; [destruct (s_tid s =? 0) eqn:Et|]; cbn [fst snd]; [|by apply inv_moves..].
    apply Z.eqb_eq in Et. rewrite (ti_unseen _ Hw t Ht Hp). apply inv_claims; [done..|]. split; cbn [pc goto mine].
    + intros j Hj. exfalso. apply Hp. eapply list_elem_of_lookup_2. by apply Hm.
    + split; [|done]. apply list_lookup_insert_eq. eapply lookup_lt_Some. by apply tids_lookup.
  - rewrite Z.add_0_r. apply inv_stores; by destruct Hp.
  - rewrite Z.add_0_r. apply inv_stores; by destruct Hp.
  - destruct Hp as [Hi Hc]. destruct c; apply inv_stores; try done.
    + intros s _. by rewrite Hc.
    + split; [|done]. intros j [= <-]. done.
    + intros s Es. cbn [s_counter set_counter]. rewrite Es. unfold u64. by rewrite Zplus_mod_idemp_l.
  - rewrite Z.add_0_r. apply inv_stores; try done. split; [|done]. intros j [= <-]. done.
  - rewrite Z.add_0_r. destruct (g_slots w !! i) as [s|] eqn:Es; [destruct (s_tid s =? t) eqn:Et|]; cbn [fst snd]; [|by apply inv_moves..].
    apply Z.eqb_eq in Et. rewrite (insert_as_alter (set_progress false) i s _ Es). apply inv_stores; try done. rewrite <- Et. by apply tids_lookup.
Qed.

Lemma table_inv_init : table_inv Table_init.
Proof.
  assert (forall i s, g_slots Table_init !! i = Some s -> s = Slot_init) as Hs by (intros i s [-> _]%lookup_replicate_1; done).
  assert (forall i t, t <> 0 -> tids (g_slots Table_init) !! i <> Some t) as Hn. { intros i t Ht. unfold tids. rewrite list_lookup_fmap. destruct (_ !! i) as [s|] eqn:E; [|done]. rewrite (Hs _ _ E). cbn. congruence. }
  constructor.
  - intros i j t Ht Hi. by apply Hn in Hi.
  - intros i s ->%Hs. done.
  - done.
  - intros t Ht. done.
Qed.

Lemma table_step_inv w w' : table_step w w' -> table_inv w -> table_inv w'.
Proof.
  intros [w0 t k id Ht Ho|w0 t Ht Ho|w0 t Ht] Hw; [| |by apply inv_advance]; (apply inv_moves_only; [done|done|]); destruct (ti_threads _ Hw t Ht) as [Hm Hp]; [|done].
  unfold record_call. destruct (mine _) as [i|] eqn:E; split; cbn [pc goto mine]; rewrite ?E; try done; first [split; [by apply Hm|done]|intros; lia|intros j Hj; apply Hm; congruence].
Qed.

Lemma table_reachable_inv w : rtc table_step Table_init w -> table_inv w.
Proof. intros H. apply (rtc_ind_r (R := table_step) table_inv Table_init); [apply table_inv_init|intros y z _ Hs Hy; by apply (table_step_inv y)|done]. Qed.

Lemma table_length w : rtc table_step Table_init w -> length (g_slots w) = kMaxSlots.
Proof.
  intros H. apply (rtc_ind_r (R := table_step) (fun w => length (g_slots w) = kMaxSlots) Table_init); [done| |done]. intros y z _ [] Hy; cbn [g_slots]; try done.
  unfold advance. repeat case_match; cbn [snd]; rewrite ?length_alter, ?length_insert; done.
Qed.

Lemma filtered_distinct (slots : list Slot) : (forall i j t, t <> 0 -> tids slots !! i = Some t -> tids slots !! j = Some t -> i = j) -> NoDup (map s_tid (filter (fun s => s_tid s <> 0) slots)).
Proof.
  induction slots as [|s slots IH]; intros H; [constructor|]. assert (NoDup (map s_tid (filter (fun s => s_tid s <> 0) slots))) as IH' by (apply IH; intros i j t Ht Hi Hj; apply (Nat.succ_inj), (H _ _ t); done).
  rewrite filter_cons. destruct (decide _) as [Hs|]; [|done]. cbn. constructor; [|done]. intros (x & Ex & [_ Hx]%list_elem_of_filter)%list_elem_of_fmap. apply list_elem_of_lookup_1 in Hx as [j Hj]. apply tids_lookup in Hj. rewrite <- Ex in Hj. discriminate (H 0%nat (S j) (s_tid s) Hs eq_refl Hj).
Qed.

(** C37: whatever the order in which guest threads enter, scan, claim and store, a sample of
    the activity table names a thread at most once and never more than the 256 slots hold, the
    counter it shows is the number of activities that thread recorded, at 64 bits, and every
    thread whose activity was counted is in it. *)
Theorem watchdog_slots w : rtc table_step Table_init w ->
  NoDup (map tid (snapshot_thread_activity (g_slots w))) /\ (length (snapshot_thread_activity (g_slots w)) <= kMaxSlots)%nat /\
  (forall s, s ∈ snapshot_thread_activity (g_slots w) -> tid s <> 0 /\ counter s = u64 (times w (tid s))) /\
  forall t, t <> 0 -> times w t <> 0 -> exists s, s ∈ snapshot_thread_activity (g_slots w) /\ tid s = t.
Proof.
  intros Hr. pose proof (table_reachable_inv w Hr) as Hw. unfold snapshot_thread_activity. split_and!.
  - rewrite map_map. apply filtered_distinct, (ti_unique _ Hw).
  - rewrite length_map, <- (table_length w Hr). apply length_filter.
  - intros s (x & -> & [Hx0 Hx]%list_elem_of_filter)%list_elem_of_fmap. split; [done|]. apply list_elem_of_lookup_1 in Hx as [i Hi]. cbn. rewrite (ti_counter _ Hw i x Hi). by rewrite (proj2 (Z.eqb_neq _ _) Hx0).
  - intros t Ht Hn. destruct (decide (t ∈ tids (g_slots w))) as [(x & -> & Hx)%list_elem_of_fmap|Hnot]; [|by destruct Hn; apply (ti_unseen _ Hw)]. exists (sample_of x). split; [|done]. apply list_elem_of_fmap. exists x. split; [done|]. by apply list_elem_of_filter.
Qed.

(** ** The sampler, against a reference over whole samples

    The reference reads the samples of the past, newest first: how many of them in a row show
    the activity, and when the oldest of these was taken. *)

Definition activity (s : ThreadActivitySample) : Z * ThreadActivityKind * Z * Z := (tid s, kind s, id s, counter s).
Definition seen (a : Z * ThreadActivityKind * Z * Z) (c : list ThreadActivitySample) : bool := bool_decide (a ∈ map activity c).

Fixpoint standing (past : list (Z * list ThreadActivitySample)) (a : Z * ThreadActivityKind * Z * Z) : nat :=
  match past with [] => 0%nat | (_, c) :: past => if seen a c then S (standing past a) else 0%nat end.
Fixpoint stood_since (past : list (Z * list ThreadActivitySample)) (now : Z) (a : Z * ThreadActivityKind * Z * Z) : Z :=
  match past with [] => now | (t, c) :: past => if seen a c then stood_since past t a else now end.

Definition state_spec (past : list (Z * list ThreadActivitySample)) (now : Z) (s : ThreadActivitySample) : State :=
  {| st_tid := tid s; st_kind := kind s; st_id := id s; st_counter := counter s; since := stood_since past now (activity s); unchanged_samples := standing past (activity s) |}.

Definition report_spec (written : nat) (past : list (Z * list ThreadActivitySample)) (now : Z) (c : list ThreadActivitySample) : option Note :=
  let l := filter (fun s => (2 <= standing past (activity s))%nat) c in
  if decide ((written < 6)%nat /\ l <> []) then
    Some {| number := S written; stuck_threads := map (fun s => (state_spec past now s, Z.quot (now - stood_since past now (activity s)) (10 ^ 9))) (take 8 l); with_census := bool_decide (written = 0%nat) |}
  else None.

Definition distinct (c : list ThreadActivitySample) : Prop := NoDup (map tid c).

Lemma distinct_eq c x y : distinct c -> x ∈ c -> y ∈ c -> tid x = tid y -> x = y.
Proof.
  intros Hc [i Hi]%list_elem_of_lookup_1 [j Hj]%list_elem_of_lookup_1 E. assert (i = j) as <-; [|congruence]. eapply (NoDup_lookup _ i j (tid x) Hc); rewrite list_lookup_fmap; [by rewrite Hi|by rewrite Hj, E].
Qed.

Lemma same_activity_iff past t x s : tid x = tid s -> same_activity (state_spec past t x) s = true <-> activity x = activity s.
Proof.
  intros Et. unfold same_activity, activity. cbn [st_kind st_id st_counter state_spec]. rewrite !andb_true_iff, bool_decide_eq_true, !Z.eqb_eq. rewrite Et. split; [intros [[-> ->] ->]; done|intros [= -> -> ->]; done].
Qed.

Lemma next_state_spec past t c now s : distinct c -> next_state (map (state_spec past t) c) now s = state_spec ((t, c) :: past) now s.
Proof.
  intros Hc. unfold next_state. unfold state_spec at 2. cbn [standing stood_since]. unfold seen. destruct (list_find _ _) as [[j p]|] eqn:E.
  - apply list_find_Some in E as (Hj & Et & _). apply list_elem_of_lookup_2 in Hj as (x & -> & Hx)%list_elem_of_fmap. cbn [st_tid state_spec] in Et. destruct (same_activity _ s) eqn:Es.
    + apply same_activity_iff in Es; [|done]. rewrite bool_decide_eq_true_2 by (rewrite <- Es; by apply list_elem_of_fmap_2). cbn [since unchanged_samples state_spec]. by rewrite Es.
    + rewrite bool_decide_eq_false_2; [done|]. intros (y & Ey & Hy)%list_elem_of_fmap. assert (x = y) as <- by (apply (distinct_eq c); [done..|]; injection Ey; congruence). apply not_true_iff_false in Es. apply Es, same_activity_iff; done.
  - apply list_find_None in E. rewrite bool_decide_eq_false_2; [done|]. intros (y & Ey & Hy)%list_elem_of_fmap. rewrite Forall_forall in E. apply (E (state_spec past t y)); [by apply list_elem_of_fmap_2|]. cbn [st_tid state_spec]. injection Ey. congruence.
Qed.

Definition previous_spec (past : list (Z * list ThreadActivitySample)) : list State := match past with [] => [] | (t, c) :: past => map (state_spec past t) c end.

Lemma next_states_spec past now c : Forall (fun x => distinct (snd x)) past -> map (next_state (previous_spec past) now) c = map (state_spec past now) c.
Proof.
  intros Hp. apply map_ext. intros s. destruct past as [|[t c'] past]; [done|]. apply next_state_spec. by apply Forall_cons_1 in Hp as [Hp _].
Qed.

Lemma filter_states past now c : filter (fun s => stuck s = true) (map (state_spec past now) c) = map (state_spec past now) (filter (fun s => (2 <= standing past (activity s))%nat) c).
Proof.
  induction c as [|s c IH]; [done|]. cbn [map]. rewrite !filter_cons, IH.
  assert (stuck (state_spec past now s) = true <-> (2 <= standing past (activity s))%nat) as Hs by apply Nat.leb_le. repeat destruct (decide _); tauto.
Qed.

(** The watchdog after its past. *)
Definition watching (w : HangWatchdog) (past : list (Z * list ThreadActivitySample)) (written : nat) : Prop :=
  previous_ w = previous_spec past /\ notes_written_ w = written /\ (written <= kMaxNotes)%nat /\ census_written w = bool_decide (written <> 0%nat).

Lemma sample_spec past now c w n : Forall (fun x => distinct (snd x)) past -> watching w past n ->
  fst (sample now c w) = report_spec n past now c /\ watching (snd (sample now c w)) ((now, c) :: past) (match report_spec n past now c with Some _ => S n | None => n end).
Proof.
  intros Hp (E1 & E2 & Hle & E3). unfold sample, report_spec. rewrite E1, E2, E3, (next_states_spec past now c Hp), filter_states. unfold kMaxNotes in *.
  destruct (Nat.leb_spec 6 n) as [Hn|Hn]; [rewrite decide_False by lia; done|]. destruct (filter _ c) as [|s l]; [rewrite decide_False by naive_solver; done|].
  rewrite decide_True by done. cbn [map fst snd]. split.
  - f_equal. f_equal; [|by destruct n]. rewrite <- (map_cons (state_spec past now)). change (@map ThreadActivitySample State) with (@fmap list _ ThreadActivitySample State). rewrite <- fmap_take. apply map_map.
  - done.
Qed.

Lemma run_samples_snoc h now c w : run_samples (h ++ [(now, c)]) w = (let '(ns, w1) := run_samples h w in (ns ++ match fst (sample now c w1) with Some n => [n] | None => [] end, snd (sample now c w1))).
Proof.
  revert w. induction h as [|[t c0] h IH]; intros w; cbn [app run_samples].
  - destruct (sample now c w) as [[n|] w1]; done.
  - destruct (sample t c0 w) as [n w1]. rewrite IH. destruct (run_samples h w1) as [ns w2]. by destruct n.
Qed.

Lemma run_samples_watching h : Forall (fun x => distinct (snd x)) h -> watching (snd (run_samples h HangWatchdog_init)) (reverse h) (length (fst (run_samples h HangWatchdog_init))).
Proof.
  induction h as [|[now c] h IH] using rev_ind; intros Hh; [split_and!; cbn; [done|done|lia|done]|]. apply Forall_app in Hh as [Hh _]. specialize (IH Hh). rewrite run_samples_snoc, reverse_snoc. destruct (run_samples h _) as [ns w]. cbn [fst snd] in *.
  destruct (sample_spec (reverse h) now c w (length ns)) as [E Hw]; [by apply Forall_reverse|done|]. rewrite E, length_app. destruct (report_spec _ _ _ _); cbn [length]; [by rewrite Nat.add_1_r|by rewrite Nat.add_0_r].
Qed.

(** C38: over any run of the sampler whose samples name each thread once, a sample is
    reported exactly when fewer than six reports were written and some thread shows the
    activity it shows now in the last two samples as well; the report then lists, in the
    table's order and eight at most, the threads that stand still, each with the seconds since
    the oldest sample of its standstill, and only the first report brings the census. *)
Theorem watchdog_reports h now c : Forall (fun x => distinct (snd x)) h ->
  let ns := fst (run_samples h HangWatchdog_init) in
  (length ns <= kMaxNotes)%nat /\ fst (sample now c (snd (run_samples h HangWatchdog_init))) = report_spec (length ns) (reverse h) now c.
Proof.
  intros Hh. pose proof (run_samples_watching h Hh) as Hw. split; [by apply Hw|]. apply (sample_spec (reverse h)); [by apply Forall_reverse|done].
Qed.

Definition demo_sample (t n : Z) : ThreadActivitySample := {| tid := t; kind := kSyscall; id := 240; counter := n; in_progress := true |}.
Definition demo_history : list (Z * list ThreadActivitySample) := [(3 * 10 ^ 9, [demo_sample 7 3; demo_sample 8 1]); (6 * 10 ^ 9, [demo_sample 7 3; demo_sample 8 2])]%Z.

(** Thread 7 stands still for three samples and is reported with its 6 seconds; thread 8 is not. *)
Lemma watchdog_reports_witness : exists n, fst (sample (9 * 10 ^ 9) [demo_sample 7 3; demo_sample 8 2] (snd (run_samples demo_history HangWatchdog_init))) = Some n /\ map (fun x => (st_tid (fst x), snd x)) (stuck_threads n) = [(7, 6)].
Proof.
  assert (Forall (fun x => distinct (snd x)) demo_history) as H by (repeat constructor; apply (bool_decide_unpack _); vm_compute; exact I).
  rewrite (proj2 (watchdog_reports demo_history (9 * 10 ^ 9) [demo_sample 7 3; demo_sample 8 2] H)). eexists. split; vm_compute; reflexivity.
Defined.

(** Thread 7 records a system call in an empty table: it scans the 256 slots, claims the first
    and stores. *)
Definition turn (t : Z) (w : Table) : Table :=
  {| g_slots := snd (advance t (thread w t) (g_slots w)); threads := <[t := fst (advance t (thread w t) (g_slots w))]> (threads w); recorded := <[t := times w t + counts (pc (thread w t))]> (recorded w) |}.
Definition demo_enter : Table := {| g_slots := g_slots Table_init; threads := <[7 := record_call kSyscall 240 (thread Table_init 7)]> (threads Table_init); recorded := recorded Table_init |}.
Definition demo_table : Table := Nat.iter 261 (turn 7) demo_enter.

Lemma turns_reach n t w : t <> 0 -> rtc table_step w (Nat.iter n (turn t) w).
Proof. intros Ht. induction n as [|n IH]; [apply rtc_refl|]. eapply rtc_r; [exact IH|]. by apply t_advance. Qed.
Lemma demo_reachable : rtc table_step Table_init demo_table.
Proof. eapply rtc_l; [by apply (t_record Table_init 7 kSyscall 240)|]. by apply turns_reach. Qed.

Lemma watchdog_slots_witness : rtc table_step Table_init demo_table /\ (exists s, s ∈ snapshot_thread_activity (g_slots demo_table) /\ tid s = 7) /\ map activity (snapshot_thread_activity (g_slots demo_table)) = [(7, kSyscall, 240, 1)].
Proof.
  split; [exact demo_reachable|]. split; [|vm_compute; reflexivity]. apply (proj2 (proj2 (proj2 (watchdog_slots demo_table demo_reachable)))); [done|]. vm_compute. discriminate.
Defined.

(** The first activity of a thread leaves its slot not in progress, although the call it
    records is under way. *)
Example first_activity_not_inside : map in_progress (snapshot_thread_activity (g_slots demo_table)) = [false].
Proof. vm_compute. reflexivity. Qed.
