(* ===== verification/Cp15.v ===== *)
(** * The CP15 coprocessor

    [core/src/cp15.cpp]: which system registers a guest reaches with MRC, MCR, MRRC and the
    other coprocessor instructions.  The JIT asks once per instruction it translates what the
    instruction does; the answer is a word of the host, a callback, or nothing, and for
    nothing the JIT raises an undefined instruction.

    The words are the two thread id registers of the guest thread and the frequency of the
    virtual counter.  [instruction] is what the documented answers mean for a run. *)

From stdpp Require Import numbers list.
From S2P Require Import Prelude.
Local Open Scope Z_scope.

(** The words an answer can point to. *)
Inductive word := tpidruro_ | tpidrurw_ | virtual_counter_frequency.
#[global] Instance word_eq_dec : EqDecision word.
Proof. solve_decision. Defined.

Inductive callback := read_virtual_counter.

(** An answer for one word, and one for two: [monostate], the address or a callback. *)
Inductive OneWord := OneNone | OneAt (w : word).
Inductive TwoWords := TwoNone | TwoCallback (c : callback).

(** Coprocessor registers C0 to C15. *)
Definition is_thread_id_reg (two : bool) (opc1 CRn CRm : Z) : bool := negb two && (opc1 =? 0) && (CRn =? 13) && (CRm =? 0).

Definition CompileInternalOperation (two : bool) (opc1 CRd CRn CRm opc2 : Z) : option callback := None.
Definition CompileSendOneWord (two : bool) (opc1 CRn CRm opc2 : Z) : OneWord :=
  if is_thread_id_reg two opc1 CRn CRm && (opc2 =? 2) then OneAt tpidrurw_ else OneNone.
Definition CompileSendTwoWords (two : bool) (opc CRm : Z) : TwoWords := TwoNone.
Definition CompileGetOneWord (two : bool) (opc1 CRn CRm opc2 : Z) : OneWord :=
  if negb two && (opc1 =? 0) && (CRn =? 14) && (CRm =? 0) && (opc2 =? 0) then OneAt virtual_counter_frequency
  else if is_thread_id_reg two opc1 CRn CRm then (if opc2 =? 3 then OneAt tpidruro_ else if opc2 =? 2 then OneAt tpidrurw_ else OneNone)
  else OneNone.
Definition CompileGetTwoWords (two : bool) (opc CRm : Z) : TwoWords := if negb two && (opc =? 1) && (CRm =? 14) then TwoCallback read_virtual_counter else TwoNone.
Definition CompileLoadWords (two long_transfer : bool) (CRd : Z) (option_ : option Z) : option callback := None.
Definition CompileStoreWords (two long_transfer : bool) (CRd : Z) (option_ : option Z) : option callback := None.

(** [CLOCK_MONOTONIC] as [clock_gettime] answers it; none when it fails. *)
Definition read_counter (frequency : Z) (now : option (Z * Z)) : Z :=
  match now with None => 0 | Some (tv_sec, tv_nsec) => u64 (u64 tv_sec * frequency + u64 tv_nsec) end.

(** ** A run of coprocessor instructions *)

Definition words : Type := word -> Z.
Definition set_word (w : word) (v : Z) (s : words) : words := fun x => if decide (x = w) then v else s x.

Inductive instruction :=
| CDP (two : bool) (opc1 CRd CRn CRm opc2 : Z)
| MCR (two : bool) (opc1 CRn CRm opc2 : Z) (value : Z)
| MCRR (two : bool) (opc CRm : Z) (value : Z)
| MRC (two : bool) (opc1 CRn CRm opc2 : Z)
| MRRC (two : bool) (opc CRm : Z)
| LDC (two long_transfer : bool) (CRd : Z) (option_ : option Z)
| STC (two long_transfer : bool) (CRd : Z) (option_ : option Z).

(** What the guest sees: an undefined instruction, nothing, or a value. *)
Inductive seen := Undef | Done | Value (v : Z).

Definition execute (now : option (Z * Z)) (i : instruction) (s : words) : seen * words :=
  match i with
  | CDP two a b c d e => (if CompileInternalOperation two a b c d e then Done else Undef, s)
  | MCR two a n m b v => match CompileSendOneWord two a n m b with OneNone => (Undef, s) | OneAt w => (Done, set_word w (u32 v) s) end
  | MCRR two a m v => (match CompileSendTwoWords two a m with TwoNone => Undef | TwoCallback _ => Done end, s)
  | MRC two a n m b => (match CompileGetOneWord two a n m b with OneNone => Undef | OneAt w => Value (s w) end, s)
  | MRRC two a m => (match CompileGetTwoWords two a m with TwoNone => Undef | TwoCallback read_virtual_counter => Value (read_counter (s virtual_counter_frequency) now) end, s)
  | LDC two l d o => (if CompileLoadWords two l d o then Done else Undef, s)
  | STC two l d o => (if CompileStoreWords two l d o then Done else Undef, s)
  end.

Definition run (l : list (option (Z * Z) * instruction)) (s : words) : words := foldl (fun s x => snd (execute (fst x) (snd x) s)) s l.

(** The value the last MCR to TPIDRURW of a run wrote. *)
Definition last_written (l : list (option (Z * Z) * instruction)) (start : Z) : Z :=
  foldl (fun v x => match snd x with MCR false 0 13 0 2 v' => u32 v' | _ => v end) start l.

Lemma send_iff two a n m b w : CompileSendOneWord two a n m b = OneAt w <-> w = tpidrurw_ /\ two = false /\ a = 0 /\ n = 13 /\ m = 0 /\ b = 2.
Proof.
  unfold CompileSendOneWord, is_thread_id_reg. destruct two; cbn [negb andb]; [split; [done|intros (_ & [=] & _)]|].
  destruct (Z.eqb_spec a 0), (Z.eqb_spec n 13), (Z.eqb_spec m 0), (Z.eqb_spec b 2); cbn [andb]; naive_solver.
Qed.

Lemma execute_mcr now i s : snd (execute now i s) = match i with MCR false 0 13 0 2 v => set_word tpidrurw_ (u32 v) s | _ => s end.
Proof.
  destruct i as [| two a n m b v| | | | |]; cbn [execute snd]; try done. destruct (CompileSendOneWord two a n m b) as [|w] eqn:E.
  - cbn [snd]. repeat case_match; done.
  - apply send_iff in E as (-> & -> & -> & -> & -> & ->). done.
Qed.

(** A run of any coprocessor instructions changes no word but TPIDRURW, which is what the
    guest wrote last: user code cannot move its thread pointer TPIDRURO or the counter's unit. *)
Lemma guest_writes_tpidrurw_only l s :
  run l s tpidruro_ = s tpidruro_ /\ run l s virtual_counter_frequency = s virtual_counter_frequency /\ run l s tpidrurw_ = last_written l (s tpidrurw_).
Proof.
  unfold run, last_written. revert s. induction l as [|[now i] l IH]; intros s; [done|]. cbn [foldl fst snd]. destruct (IH (snd (execute now i s))) as (-> & -> & ->). rewrite execute_mcr.
  destruct i as [| two a n m b v| | | | |]; try done. repeat case_match; done.
Qed.

(** The virtual counter counts nanoseconds: later times read no smaller, for 584 years. *)
Lemma counter_monotone s n s' n' : 0 <= s -> 0 <= n < 10 ^ 9 -> 0 <= n' < 10 ^ 9 -> s' * 10 ^ 9 + n' < 2 ^ 64 -> s < s' \/ s = s' /\ n <= n' ->
  read_counter (10 ^ 9) (Some (s, n)) <= read_counter (10 ^ 9) (Some (s', n')).
Proof.
  intros Hs Hn Hn' Hlt Hle. unfold read_counter, u64. rewrite !(Z.mod_small s), !(Z.mod_small s'), !(Z.mod_small n), !(Z.mod_small n'), !(Z.mod_small (_ * _ + _)) by lia. lia.
Qed.
