(* ===== verification/JniEnv.v ===== *)
(** * A Java environment

    The part of a [JNIEnv] that [core/android/jni_env_backend.cpp] relies on, for one thread:
    the exception that is pending, the local references of each frame, the global references,
    and the string copies that were handed out.  What a function answers, and whether it
    throws, is the parameter [jvm], of the calls made so far and the call.

    The rules of the JNI specification are conditions of a call, and a call that breaks one is
    [Undefined]: with an exception pending only a few functions may be called, an object
    must be a live reference, a reference is deleted only while it is one, a frame is popped
    only after it was pushed, and a string copy is released once.  A function that throws
    answers null, as ART's do. *)

From stdpp Require Import numbers list strings.
From Stdlib Require Import Ascii.
From S2P Require Import Prelude.
Local Open Scope Z_scope.

(** What a function does to the thread's environment.  [Plain throws local] may throw, and
    gives a local reference; [Tidy] is one of the functions allowed with an exception pending
    that changes nothing here. *)
Inductive jkind :=
| Plain (throws local : bool) | Tidy
| ExcCheck | ExcOccurred | ExcClear | ExcThrow (r : Z)
| DelLocal (r : Z) | NewGlobal | DelGlobal (r : Z)
| PushFrame | PopFrame (r : Z)
| GetChars | ReleaseChars (p : Z).

(** A call: objects that may not be null, objects that may, numbers and ids, texts. *)
Record jcall := { fn : string; effect_ : jkind; objects : list Z; nullable : list Z; numbers : list Z; texts : list (list ascii) }.
Record jans := { word : Z; chars : list ascii; thrown : Z }.

Record Env := { pending : Z; frames : list (list Z); globals : list Z; copies : list Z; calls : list jcall }.

Definition set_pending (x : Z) (e : Env) : Env := {| pending := x; frames := frames e; globals := globals e; copies := copies e; calls := calls e |}.
Definition set_frames (x : list (list Z)) (e : Env) : Env := {| pending := pending e; frames := x; globals := globals e; copies := copies e; calls := calls e |}.
Definition set_globals (x : list Z) (e : Env) : Env := {| pending := pending e; frames := frames e; globals := x; copies := copies e; calls := calls e |}.
Definition set_copies (x : list Z) (e : Env) : Env := {| pending := pending e; frames := frames e; globals := globals e; copies := x; calls := calls e |}.
Definition logged (c : jcall) (e : Env) : Env := {| pending := pending e; frames := frames e; globals := globals e; copies := copies e; calls := calls e ++ [c] |}.

(** References are kept with their multiplicity; null is none. *)
Definition add (r : Z) (l : list Z) : list Z := if r =? 0 then l else r :: l.
Fixpoint remove1 (r : Z) (l : list Z) : list Z := match l with [] => [] | x :: l => if x =? r then l else x :: remove1 r l end.
Definition drop_ref (r : Z) (l : list Z) : list Z := if r =? 0 then l else remove1 r l.
Definition add_local (r : Z) (e : Env) : Env := match frames e with f :: fs => set_frames (add r f :: fs) e | [] => e end.

Definition live (e : Env) (r : Z) : Prop := r <> 0 /\ (r ∈ concat (frames e) \/ r ∈ globals e).
#[global] Instance live_dec e r : Decision (live e r).
Proof. unfold live. apply _. Defined.

Definition pending_allowed (k : jkind) : bool := match k with Plain _ _ | ExcThrow _ | NewGlobal | GetChars => false | _ => true end.

Definition kind_ok (k : jkind) (e : Env) : Prop :=
  match k with
  | ExcThrow r => live e r
  | DelLocal r => r = 0 \/ (match frames e with f :: _ => r ∈ f | [] => False end)
  | DelGlobal r => r = 0 \/ r ∈ globals e
  | PopFrame r => (2 <= length (frames e))%nat /\ (r = 0 \/ live e r)
  | ReleaseChars p => p ∈ copies e
  | _ => True
  end.
#[global] Instance kind_ok_dec k e : Decision (kind_ok k e).
Proof. destruct k; cbn; try apply _. destruct (frames e); apply _. Defined.

Definition call_ok (c : jcall) (e : Env) : Prop :=
  (pending e = 0 \/ pending_allowed (effect_ c) = true) /\ Forall (live e) (objects c) /\ Forall (fun r => r = 0 \/ live e r) (nullable c) /\ kind_ok (effect_ c) e.
#[global] Instance call_ok_dec c e : Decision (call_ok c e).
Proof. unfold call_ok. apply _. Defined.

(** A function that throws leaves its exception and answers null. *)
Definition returns (a : jans) (done : Z -> Env -> Env) (e : Env) : Z * Env := if thrown a =? 0 then (word a, done (word a) e) else (0, set_pending (thrown a) e).

Definition effect (k : jkind) (a : jans) (e : Env) : Z * Env :=
  match k with
  | Plain false false | Tidy => (word a, e)
  | Plain false true => (word a, add_local (word a) e)
  | Plain true l => returns a (fun r e => if l then add_local r e else e) e
  | ExcCheck => ((if pending e =? 0 then 0 else 1), e)
  | ExcOccurred => if pending e =? 0 then (0, e) else (pending e, add_local (pending e) e)
  | ExcClear => (0, set_pending 0 e)
  | ExcThrow r => (0, set_pending r e)
  | DelLocal r => (0, match frames e with f :: fs => set_frames (drop_ref r f :: fs) e | [] => e end)
  | NewGlobal => returns a (fun r e => set_globals (add r (globals e)) e) e
  | DelGlobal r => (0, set_globals (drop_ref r (globals e)) e)
  | PushFrame => if word a =? 0 then (0, set_frames ([] :: frames e) e) else (word a, set_pending (thrown a) e)
  | PopFrame r => match frames e with _ :: fs => if r =? 0 then (0, set_frames fs e) else (word a, add_local (word a) (set_frames fs e)) | [] => (0, e) end
  | GetChars => returns a (fun p e => set_copies (add p (copies e)) e) e
  | ReleaseChars p => (0, set_copies (remove1 p (copies e)) e)
  end.

(** ** Programs *)

Definition jm (A : Type) : Type := Env -> exec (A * Env).
#[global] Instance jm_ret : MRet jm := fun A x e => Ret (x, e).
#[global] Instance jm_bind : MBind jm := fun A B f m e => match m e with Ret (x, e') => f x e' | Aborted => Aborted | Undefined => Undefined end.

Section Programs.
Context (jvm : list jcall -> jcall -> jans).

Definition jni (c : jcall) : jm (Z * list ascii) := fun e =>
  if decide (call_ok c e) then let a := jvm (calls e) c in let '(r, e') := effect (effect_ c) a e in Ret ((r, chars a), logged c e') else Undefined.

(** [m] never breaks a rule, and ends with [Q]. *)
Definition wpj {A} (m : jm A) (e : Env) (Q : A -> Env -> Prop) : Prop := match m e with Ret (x, e') => Q x e' | _ => False end.

Lemma wpj_ret {A} (x : A) e (Q : A -> Env -> Prop) : Q x e -> wpj (mret x) e Q.
Proof. done. Qed.
Lemma wpj_bind {A B} (m : jm A) (f : A -> jm B) e Q : wpj m e (fun x e' => wpj (f x) e' Q) -> wpj (m ≫= f) e Q.
Proof. unfold wpj, mbind, jm_bind. by destruct (m e) as [[]| |]. Qed.
Lemma wpj_mono {A} (m : jm A) e (Q R : A -> Env -> Prop) : wpj m e Q -> (forall x e', Q x e' -> R x e') -> wpj m e R.
Proof. unfold wpj. destruct (m e) as [[]| |]; auto. Qed.
Lemma wpj_jni c e Q : call_ok c e -> (forall a, a = jvm (calls e) c -> Q ((effect (effect_ c) a e).1, chars a) (logged c (effect (effect_ c) a e).2)) -> wpj (jni c) e Q.
Proof. intros H Ha. unfold wpj, jni. rewrite decide_True by done. specialize (Ha _ eq_refl). by destruct (effect _ _ e). Qed.
Lemma wpj_run {A} (m : jm A) e Q (f : A * Env -> bool) : wpj m e Q -> (match m e with Ret x => f x | _ => false end) = true -> exists x e', m e = Ret (x, e') /\ Q x e' /\ f (x, e') = true.
Proof. unfold wpj. destruct (m e) as [[x e']| |]; [|done..]. intros HQ Hf. eauto. Qed.

Definition call_word (c : jcall) : jm Z := x ← jni c; mret x.1.
Definition env_call (name : string) (k : jkind) (os ns ws : list Z) (ts : list (list ascii)) : jm Z :=
  call_word {| fn := name; effect_ := k; objects := os; nullable := ns; numbers := ws; texts := ts |}.
End Programs.

(** ** The environment of a thread, without its log *)

(** [env_is e p f fs g h]: pending exception, current frame, outer frames, globals, copies. *)
Record env_is (e : Env) (p : Z) (f : list Z) (fs : list (list Z)) (g h : list Z) : Prop := {
  ei_pending : pending e = p; ei_frames : frames e = f :: fs; ei_globals : globals e = g; ei_copies : copies e = h;
}.

Definition alive (f : list Z) (fs : list (list Z)) (g : list Z) (r : Z) : Prop := r <> 0 /\ (r ∈ f \/ r ∈ concat fs \/ r ∈ g).

Lemma alive_head f fs g r : r <> 0 -> alive (r :: f) fs g r.
Proof. intros H. split; [done|]. left. constructor. Qed.
Lemma alive_next f fs g x r : alive f fs g r -> alive (x :: f) fs g r.
Proof. intros [H [Hr|Hr]]; (split; [done|]); [left; by constructor|by right]. Qed.
Lemma alive_outer f fs g r : alive f fs g r -> alive [] (f :: fs) g r.
Proof. intros [H Hr]. split; [done|]. right. cbn. rewrite elem_of_app. tauto. Qed.
Lemma alive_inner f l fs g r : alive f fs g r -> alive (l ++ f) fs g r.
Proof. intros [H Hr]. split; [done|]. rewrite elem_of_app. tauto. Qed.
Lemma alive_more f fs g l r : alive f fs g r -> alive f fs (l ++ g) r.
Proof. intros [H Hr]. split; [done|]. rewrite elem_of_app. tauto. Qed.
Lemma alive_nonzero f fs g r : alive f fs g r -> r <> 0.
Proof. by intros [H _]. Qed.
Lemma alive_global f fs g r : r <> 0 -> r ∈ g -> alive f fs g r.
Proof. intros. split; auto. Qed.
Create HintDb alive.
#[export] Hint Resolve alive_head alive_next alive_outer alive_inner alive_more alive_global : alive.
#[export] Hint Extern 1 (Forall _ []) => constructor : alive.
#[export] Hint Extern 1 (Forall _ (_ :: _)) => constructor : alive.

Lemma live_alive e p f fs g h r : env_is e p f fs g h -> live e r <-> alive f fs g r.
Proof. intros [_ Ef Eg _]. unfold live, alive. rewrite Ef, Eg. cbn. rewrite elem_of_app. tauto. Qed.

Lemma env_logged c e p f fs g h : env_is e p f fs g h -> env_is (logged c e) p f fs g h.
Proof. by intros []. Qed.
Lemma env_pending e p q f fs g h : env_is e p f fs g h -> env_is (set_pending q e) q f fs g h.
Proof. by intros []. Qed.
Lemma env_frames e p f fs f' fs' g h : env_is e p f fs g h -> env_is (set_frames (f' :: fs') e) p f' fs' g h.
Proof. by intros []. Qed.
Lemma env_globals e p f fs g g' h : env_is e p f fs g h -> env_is (set_globals g' e) p f fs g' h.
Proof. by intros []. Qed.
Lemma env_copies e p f fs g h h' : env_is e p f fs g h -> env_is (set_copies h' e) p f fs g h'.
Proof. by intros []. Qed.
Lemma env_add_local e p f fs g h r : env_is e p f fs g h -> env_is (add_local r e) p (add r f) fs g h.
Proof. intros H. unfold add_local. rewrite (ei_frames _ _ _ _ _ _ H). by eapply env_frames. Qed.
#[export] Hint Resolve env_logged env_pending env_frames env_globals env_copies env_add_local : alive.

Lemma add_nonzero r l : r <> 0 -> add r l = r :: l.
Proof. intros H. unfold add. by rewrite (proj2 (Z.eqb_neq r 0) H). Qed.
Lemma remove1_head r l : remove1 r (r :: l) = l.
Proof. cbn. by rewrite Z.eqb_refl. Qed.
Lemma remove1_second x r l : remove1 r (x :: r :: l) = x :: l.
Proof. cbn. destruct (Z.eqb_spec x r) as [->|]; [done|]. by rewrite Z.eqb_refl. Qed.
Lemma remove1_app r l l' : r ∈ l -> remove1 r (l ++ l') = remove1 r l ++ l'.
Proof.
  induction l as [|x l IH]; [by intros ?%not_elem_of_nil|]. cbn. destruct (Z.eqb_spec x r) as [->|Hne]; [done|]. intros [->|H]%elem_of_cons; [done|]. cbn. by rewrite IH.
Qed.
Lemma remove1_perm r l : r ∈ l -> l ≡ₚ r :: remove1 r l.
Proof.
  induction l as [|x l IH]; [by intros ?%not_elem_of_nil|]. cbn. destruct (Z.eqb_spec x r) as [->|Hne]; [done|]. intros [->|H]%elem_of_cons; [done|]. rewrite (IH H) at 1. constructor.
Qed.

Lemma drop_head r l : r <> 0 -> drop_ref r (r :: l) = l.
Proof. intros H. unfold drop_ref. rewrite (proj2 (Z.eqb_neq r 0) H). apply remove1_head. Qed.
Lemma drop_second x r l : r <> 0 -> drop_ref r (x :: r :: l) = x :: l.
Proof. intros H. unfold drop_ref. rewrite (proj2 (Z.eqb_neq r 0) H). apply remove1_second. Qed.

(** ** Rules for the functions *)

Lemma env_call_rule jvm e p f fs g h name k os ns ws ts (Q : Z -> Env -> Prop) :
  env_is e p f fs g h -> (p = 0 \/ pending_allowed k = true) -> Forall (alive f fs g) os -> Forall (fun r => r = 0 \/ alive f fs g r) ns -> kind_ok k e ->
  (forall a, a = jvm (calls e) {| fn := name; effect_ := k; objects := os; nullable := ns; numbers := ws; texts := ts |} -> forall e', (forall p f fs g h, env_is (effect k a e).2 p f fs g h -> env_is e' p f fs g h) -> Q (effect k a e).1 e') ->
  wpj (env_call jvm name k os ns ws ts) e Q.
Proof.
  intros He Hp Ho Hn Hk HQ. unfold env_call, call_word. apply wpj_bind, wpj_jni; cbn [effect_ objects nullable].
  - split_and!; [by rewrite (ei_pending _ _ _ _ _ _ He)| | |done].
    + eapply Forall_impl; [exact Ho|]. intros r Hr. by eapply live_alive.
    + eapply Forall_impl; [exact Hn|]. intros r [->|Hr]; [by left|right; by eapply live_alive].
  - intros a Ea. apply wpj_ret. apply (HQ a Ea). intros. by apply env_logged.
Qed.

Lemma rule_throws_local jvm e p f fs g h name os ns ws ts (Q : Z -> Env -> Prop) :
  env_is e p f fs g h -> p = 0 -> Forall (alive f fs g) os -> Forall (fun r => r = 0 \/ alive f fs g r) ns ->
  (forall r e', r <> 0 -> env_is e' 0 (r :: f) fs g h -> Q r e') -> (forall x e', env_is e' x f fs g h -> Q 0 e') -> wpj (env_call jvm name (Plain true true) os ns ws ts) e Q.
Proof.
  intros He -> Ho Hn H1 H2. eapply env_call_rule; [exact He|by left|done|done|done|]. intros a _ e' Hk. cbn [effect] in *. unfold returns in *. destruct (thrown a =? 0) eqn:Et; cbn [fst snd] in *.
  - pose proof (env_add_local _ _ _ _ _ _ (word a) He) as Ha. apply Hk in Ha. destruct (decide (word a = 0)) as [E|E]; [rewrite E in *; by apply (H2 0)|apply H1; [done|by rewrite <- add_nonzero]].
  - apply (H2 (thrown a)), Hk. by eapply env_pending.
Qed.

Lemma rule_throws_word jvm e p f fs g h name os ns ws ts (Q : Z -> Env -> Prop) :
  env_is e p f fs g h -> p = 0 -> Forall (alive f fs g) os -> Forall (fun r => r = 0 \/ alive f fs g r) ns ->
  (forall r e', env_is e' 0 f fs g h -> Q r e') -> (forall x e', x <> 0 -> env_is e' x f fs g h -> Q 0 e') -> wpj (env_call jvm name (Plain true false) os ns ws ts) e Q.
Proof.
  intros He -> Ho Hn H1 H2. eapply env_call_rule; [exact He|by left|done|done|done|]. intros a _ e' Hk. cbn [effect] in *. unfold returns in *. destruct (Z.eqb_spec (thrown a) 0) as [Et|Et]; cbn [fst snd] in *.
  - apply H1, Hk, He.
  - apply (H2 (thrown a)), Hk; [done|]. by eapply env_pending.
Qed.

Lemma rule_word jvm e p f fs g h name os ns ws ts (Q : Z -> Env -> Prop) :
  env_is e p f fs g h -> p = 0 -> Forall (alive f fs g) os -> Forall (fun r => r = 0 \/ alive f fs g r) ns -> (forall r e', env_is e' 0 f fs g h -> Q r e') -> wpj (env_call jvm name (Plain false false) os ns ws ts) e Q.
Proof. intros He -> Ho Hn H1. eapply env_call_rule; [exact He|by left|done|done|done|]. intros a _ e' Hk. apply H1, Hk, He. Qed.

Lemma rule_local jvm e p f fs g h name os ns ws ts (Q : Z -> Env -> Prop) :
  env_is e p f fs g h -> p = 0 -> Forall (alive f fs g) os -> Forall (fun r => r = 0 \/ alive f fs g r) ns ->
  word (jvm (calls e) {| fn := name; effect_ := Plain false true; objects := os; nullable := ns; numbers := ws; texts := ts |}) <> 0 ->
  (forall r e', r <> 0 -> env_is e' 0 (r :: f) fs g h -> Q r e') -> wpj (env_call jvm name (Plain false true) os ns ws ts) e Q.
Proof.
  intros He -> Ho Hn Hw H1. eapply env_call_rule; [exact He|by left|done|done|done|]. intros a Ea e' Hk. rewrite <- Ea in Hw. apply H1; [done|]. apply Hk. rewrite <- add_nonzero by done. by apply env_add_local.
Qed.

Lemma rule_check jvm e p f fs g h (Q : Z -> Env -> Prop) name :
  env_is e p f fs g h -> (forall e', env_is e' p f fs g h -> Q (if p =? 0 then 0 else 1) e') -> wpj (env_call jvm name ExcCheck [] [] [] []) e Q.
Proof. intros He H. eapply env_call_rule; [exact He|by right|constructor|constructor|done|]. intros a _ e' Hk. cbn [effect fst snd] in *. rewrite (ei_pending _ _ _ _ _ _ He) in *. apply H, Hk, He. Qed.

Lemma rule_occurred jvm e p f fs g h (Q : Z -> Env -> Prop) name :
  env_is e p f fs g h -> p <> 0 -> (forall e', env_is e' p (p :: f) fs g h -> Q p e') -> wpj (env_call jvm name ExcOccurred [] [] [] []) e Q.
Proof.
  intros He Hp H. eapply env_call_rule; [exact He|by right|constructor|constructor|done|]. intros a _ e' Hk. cbn [effect] in *. rewrite (ei_pending _ _ _ _ _ _ He), (proj2 (Z.eqb_neq p 0) Hp) in *. apply H, Hk. rewrite <- add_nonzero by done. by apply env_add_local.
Qed.

Lemma rule_clear jvm e p f fs g h (Q : Z -> Env -> Prop) name :
  env_is e p f fs g h -> (forall e', env_is e' 0 f fs g h -> Q 0 e') -> wpj (env_call jvm name ExcClear [] [] [] []) e Q.
Proof. intros He H. eapply env_call_rule; [exact He|by right|constructor|constructor|done|]. intros a _ e' Hk. apply H, Hk. by eapply env_pending. Qed.

Lemma rule_throw jvm e p f fs g h (Q : Z -> Env -> Prop) name r :
  env_is e p f fs g h -> p = 0 -> alive f fs g r -> (forall e', env_is e' r f fs g h -> Q 0 e') -> wpj (env_call jvm name (ExcThrow r) [] [] [] []) e Q.
Proof. intros He -> Hr H. eapply env_call_rule; [exact He|by left|constructor|constructor|by eapply live_alive|]. intros a _ e' Hk. apply H, Hk. by eapply env_pending. Qed.

Lemma rule_delete jvm e p f fs g h (Q : Z -> Env -> Prop) name r :
  env_is e p f fs g h -> r = 0 \/ r ∈ f -> (forall e', env_is e' p (drop_ref r f) fs g h -> Q 0 e') -> wpj (env_call jvm name (DelLocal r) [] [] [] []) e Q.
Proof.
  intros He Hr H. eapply env_call_rule; [exact He|by right|constructor|constructor|by cbn; rewrite (ei_frames _ _ _ _ _ _ He)|]. intros a _ e' Hk. cbn [effect fst snd] in *. rewrite (ei_frames _ _ _ _ _ _ He) in *. apply H, Hk. by eapply env_frames.
Qed.

Lemma rule_new_global jvm e p f fs g h (Q : Z -> Env -> Prop) name r :
  env_is e p f fs g h -> p = 0 -> r = 0 \/ alive f fs g r ->
  (forall x e', x <> 0 -> env_is e' 0 f fs (x :: g) h -> Q x e') -> (forall x e', env_is e' x f fs g h -> Q 0 e') -> wpj (env_call jvm name NewGlobal [] [r] [] []) e Q.
Proof.
  intros He -> Hr H1 H2. eapply env_call_rule; [exact He|by left|by apply Forall_nil|by apply Forall_singleton|done|]. intros a _ e' Hk. cbn [effect] in *. unfold returns in *. rewrite (ei_globals _ _ _ _ _ _ He) in *. destruct (thrown a =? 0); cbn [fst snd] in *.
  - destruct (decide (word a = 0)) as [E|E]; [rewrite E in *; apply (H2 0), Hk|apply H1; [done|]; rewrite <- add_nonzero by done; apply Hk]; by eapply env_globals.
  - apply (H2 (thrown a)), Hk. by eapply env_pending.
Qed.

Lemma rule_delete_global jvm e p f fs g h (Q : Z -> Env -> Prop) name r :
  env_is e p f fs g h -> r = 0 \/ r ∈ g -> (forall e', env_is e' p f fs (drop_ref r g) h -> Q 0 e') -> wpj (env_call jvm name (DelGlobal r) [] [] [] []) e Q.
Proof.
  intros He Hr H. eapply env_call_rule; [exact He|by right|constructor|constructor|by cbn; rewrite (ei_globals _ _ _ _ _ _ He)|]. intros a _ e' Hk. cbn [effect fst snd] in *. rewrite (ei_globals _ _ _ _ _ _ He) in *. apply H, Hk. by eapply env_globals.
Qed.

Lemma rule_push jvm e p f fs g h (Q : Z -> Env -> Prop) name n :
  env_is e p f fs g h -> (forall e', env_is e' p [] (f :: fs) g h -> Q 0 e') -> (forall rc x e', rc <> 0 -> env_is e' x f fs g h -> Q rc e') -> wpj (env_call jvm name PushFrame [] [] n []) e Q.
Proof.
  intros He H1 H2. eapply env_call_rule; [exact He|by right|constructor|constructor|done|]. intros a _ e' Hk. cbn [effect] in *. rewrite (ei_frames _ _ _ _ _ _ He) in *. destruct (Z.eqb_spec (word a) 0) as [E|E]; cbn [fst snd] in *.
  - apply H1, Hk. by eapply env_frames.
  - apply (H2 _ (thrown a)); [done|]. apply Hk. by eapply env_pending.
Qed.

Lemma rule_get_chars jvm e p f fs g h c (Q : Z * list ascii -> Env -> Prop) :
  env_is e p f fs g h -> effect_ c = GetChars -> nullable c = [] -> p = 0 -> Forall (alive f fs g) (objects c) ->
  (forall x t e', x <> 0 -> env_is e' 0 f fs g (x :: h) -> Q (x, t) e') -> (forall x t e', env_is e' x f fs g h -> Q (0, t) e') -> wpj (jni jvm c) e Q.
Proof.
  intros He Ek En -> Ho H1 H2. apply wpj_jni.
  - unfold call_ok. rewrite Ek, En. split_and!; [left; by rewrite (ei_pending _ _ _ _ _ _ He)| |constructor|done]. eapply Forall_impl; [exact Ho|]. intros r Hr. by eapply live_alive.
  - intros a _. rewrite Ek. cbn [effect]. unfold returns. rewrite (ei_copies _ _ _ _ _ _ He). destruct (thrown a =? 0); cbn [fst snd].
    + destruct (decide (word a = 0)) as [E|E]; [rewrite E; apply (H2 0)|apply H1; [done|]; rewrite <- add_nonzero by done]; apply env_logged; by eapply env_copies.
    + apply (H2 (thrown a)). apply env_logged. by eapply env_pending.
Qed.

Lemma rule_release jvm e p f fs g h (Q : Z -> Env -> Prop) name os x :
  env_is e p f fs g h -> Forall (alive f fs g) os -> x ∈ h -> (forall e', env_is e' p f fs g (remove1 x h) -> Q 0 e') -> wpj (env_call jvm name (ReleaseChars x) os [] [] []) e Q.
Proof.
  intros He Ho Hx H. eapply env_call_rule; [exact He|by right|done|constructor|by cbn; rewrite (ei_copies _ _ _ _ _ _ He)|]. intros a _ e' Hk. cbn [effect fst snd] in *. rewrite (ei_copies _ _ _ _ _ _ He) in *. apply H, Hk. by eapply env_copies.
Qed.

Lemma rule_pop jvm e p f f' fs g h (He : env_is e p f (f' :: fs) g h) (Q : Z -> Env -> Prop) name r : r = 0 \/ alive f (f' :: fs) g r ->
  (forall x e', (r = 0 -> x = 0) -> env_is e' p (add x f') fs g h -> Q x e') -> wpj (env_call jvm name (PopFrame r) [] [] [] []) e Q.
Proof.
  intros Hr H. eapply env_call_rule; [exact He|by right|constructor|constructor| |].
  - cbn. rewrite (ei_frames _ _ _ _ _ _ He). split; [cbn; lia|]. destruct Hr as [|Hr]; [by left|right; by eapply live_alive].
  - intros a _ e' Hk. cbn [effect] in *. rewrite (ei_frames _ _ _ _ _ _ He) in *. destruct (Z.eqb_spec r 0) as [E|E]; cbn [fst snd] in *.
    + apply H; [done|]. apply Hk. by eapply env_frames.
    + apply H; [done|]. apply Hk. apply env_add_local. by eapply env_frames.
Qed.
