(* ===== verification/JniEnvBackend.v ===== *)
(** * The Java side of the bridge

    [core/android/jni_env_backend.cpp]: [JniBackend] over the environment of a Java thread.
    Most operations are one JNI call; finding the declared natives of a class, classes by the
    plugin's loader, and the signature of a reflected method go through java.lang.reflect,
    with exceptions and local references to keep in order.  [JniEnv] has the rules; the
    theorems show that no operation breaks one, whatever the virtual machine answers. *)

From stdpp Require Import numbers list strings sets.
From Stdlib Require Import Ascii.
From S2P Require Import Prelude JniNames JniEnv.
Local Open Scope Z_scope.

Definition text : Type := list ascii.

(** ** JNI functions *)

Section Functions.
Context (jvm : list jcall -> jcall -> jans).

Local Notation env_call := (JniEnv.env_call jvm).

Definition ExceptionCheck : jm bool := x ← env_call "ExceptionCheck" ExcCheck [] [] [] []; mret (negb (x =? 0)).
Definition ExceptionOccurred : jm Z := env_call "ExceptionOccurred" ExcOccurred [] [] [] [].
Definition ExceptionClear : jm Z := env_call "ExceptionClear" ExcClear [] [] [] [].
Definition Throw (r : Z) : jm Z := env_call "Throw" (ExcThrow r) [] [] [] [].
Definition DeleteLocalRef (r : Z) : jm Z := env_call "DeleteLocalRef" (DelLocal r) [] [] [] [].
Definition NewGlobalRef (r : Z) : jm Z := env_call "NewGlobalRef" NewGlobal [] [r] [] [].
Definition DeleteGlobalRef (r : Z) : jm Z := env_call "DeleteGlobalRef" (DelGlobal r) [] [] [] [].
Definition PushLocalFrame (capacity : Z) : jm Z := env_call "PushLocalFrame" PushFrame [] [] [capacity] [].
Definition PopLocalFrame (r : Z) : jm Z := env_call "PopLocalFrame" (PopFrame r) [] [] [] [].
Definition FindClass (name : text) : jm Z := env_call "FindClass" (Plain true true) [] [] [] [name].
Definition GetMethodID (cls : Z) (name sig : text) (is_static : bool) : jm Z := env_call (if is_static then "GetStaticMethodID" else "GetMethodID") (Plain true false) [cls] [] [] [name; sig].
Definition CallObjectMethod (o m : Z) (args : list Z) : jm Z := env_call "CallObjectMethod" (Plain true true) [o] args [m] [].
Definition CallStaticObjectMethod (cls m : Z) (args : list Z) : jm Z := env_call "CallStaticObjectMethod" (Plain true true) [cls] args [m] [].
Definition CallBooleanMethod (o m : Z) : jm Z := env_call "CallBooleanMethod" (Plain true false) [o] [] [m] [].
Definition CallIntMethod (o m : Z) : jm Z := env_call "CallIntMethod" (Plain true false) [o] [] [m] [].
Definition CallStaticBooleanMethod (cls m arg : Z) : jm Z := env_call "CallStaticBooleanMethod" (Plain true false) [cls] [] [m; arg] [].
Definition NewStringUTF (s : text) : jm Z := env_call "NewStringUTF" (Plain true true) [] [] [] [s].
Definition GetStringUTFChars (s : Z) : jm (Z * text) := jni jvm {| fn := "GetStringUTFChars"; effect_ := GetChars; objects := [s]; nullable := []; numbers := []; texts := [] |}.
Definition ReleaseStringUTFChars (s p : Z) : jm Z := env_call "ReleaseStringUTFChars" (ReleaseChars p) [s] [] [] [].
Definition GetArrayLength (a : Z) : jm Z := env_call "GetArrayLength" (Plain false false) [a] [] [] [].
Definition GetObjectArrayElement (a i : Z) : jm Z := env_call "GetObjectArrayElement" (Plain true true) [a] [] [i] [].
Definition IsInstanceOf (o cls : Z) : jm bool := x ← env_call "IsInstanceOf" (Plain false false) [cls] [o] [] []; mret (negb (x =? 0)).
Definition IsSameObject (a b : Z) : jm bool := x ← env_call "IsSameObject" (Plain false false) [] [a; b] [] []; mret (negb (x =? 0)).
Definition GetObjectClass (o : Z) : jm Z := env_call "GetObjectClass" (Plain false true) [o] [] [] [].
Definition FromReflectedMethod (m : Z) : jm Z := env_call "FromReflectedMethod" (Plain true false) [m] [] [] [].

(** ** Reflection *)

Record Reflection := {
  class_class : Z; class_loader_class : Z; method_class : Z; executable_class : Z; modifier_class : Z; constructor_class : Z;
  class_not_found_class : Z; no_class_def_found_class : Z; method_type_class : Z; no_such_method_class : Z;
  class_get_name : Z; class_is_primitive : Z; class_get_declared_methods : Z; class_loader_load_class : Z; method_get_name : Z; method_get_modifiers : Z;
  method_get_return_type : Z; executable_get_parameter_types : Z; modifier_is_native : Z; modifier_is_static : Z;
  class_get_declared_method : Z; method_type_from_descriptor : Z; method_type_parameter_array : Z; long_form_ok : bool;
}.

(** The backend: whether the lookup was made, what it found, and the plugin's loader. *)
Record JniEnvBackend := { reflection_once_ : bool; reflection_ : option Reflection; class_loader_ : Z }.
Definition JniEnvBackend_init : JniEnvBackend := {| reflection_once_ := false; reflection_ := None; class_loader_ := 0 |}.

(** The lookups share whether all went well so far and the references they made. *)
Definition looking : Type := bool * list Z.

Definition global_class (name : text) (s : looking) : jm (Z * looking) :=
  if negb s.1 then mret (0, s)
  else
    local ← FindClass name;
    if local =? 0 then mret (0, (false, s.2))
    else
      global ← NewGlobalRef local;
      _ ← DeleteLocalRef local;
      if global =? 0 then mret (0, (false, s.2)) else mret (global, (true, s.2 ++ [global])).

Definition method_id (cls : Z) (name sig : text) (is_static : bool) (s : looking) : jm (Z * looking) :=
  if negb s.1 then mret (0, s) else id ← GetMethodID cls name sig is_static; mret (id, (negb (id =? 0), s.2)).

Definition optional_class (name : text) (s : looking) : jm (Z * looking) :=
  if negb s.1 then mret (0, s)
  else
    local ← FindClass name;
    if local =? 0 then _ ← ExceptionClear; mret (0, (false, s.2))
    else
      global ← NewGlobalRef local;
      _ ← DeleteLocalRef local;
      if global =? 0 then _ ← ExceptionClear; mret (0, (false, s.2)) else mret (global, (true, s.2 ++ [global])).

Definition optional_method (cls : Z) (name sig : text) (is_static : bool) (s : looking) : jm (Z * looking) :=
  if negb s.1 || (cls =? 0) then mret (0, s)
  else
    id ← GetMethodID cls name sig is_static;
    if id =? 0 then _ ← ExceptionClear; mret (id, (false, s.2)) else mret (id, s).

Fixpoint delete_globals (l : list Z) : jm unit := match l with [] => mret tt | r :: l => _ ← DeleteGlobalRef r; delete_globals l end.

(** The optional group; the classes and ids of the first group are those of [r]. *)
Definition optional_group (r : Reflection) (gl : list Z) : jm Reflection :=
  '(mt, s) ← optional_class (lit "java/lang/invoke/MethodType") (true, gl);
  '(nsm, s) ← optional_class (lit "java/lang/NoSuchMethodException") s;
  '(gdm, s) ← optional_method (class_class r) (lit "getDeclaredMethod") (lit "(Ljava/lang/String;[Ljava/lang/Class;)Ljava/lang/reflect/Method;") false s;
  '(mtd, s) ← optional_method mt (lit "fromMethodDescriptorString") (lit "(Ljava/lang/String;Ljava/lang/ClassLoader;)Ljava/lang/invoke/MethodType;") true s;
  '(mpa, s) ← optional_method mt (lit "parameterArray") (lit "()[Ljava/lang/Class;") false s;
  mret {| class_class := class_class r; class_loader_class := class_loader_class r; method_class := method_class r; executable_class := executable_class r; modifier_class := modifier_class r; constructor_class := constructor_class r;
          class_not_found_class := class_not_found_class r; no_class_def_found_class := no_class_def_found_class r; method_type_class := mt; no_such_method_class := nsm;
          class_get_name := class_get_name r; class_is_primitive := class_is_primitive r; class_get_declared_methods := class_get_declared_methods r; class_loader_load_class := class_loader_load_class r; method_get_name := method_get_name r; method_get_modifiers := method_get_modifiers r;
          method_get_return_type := method_get_return_type r; executable_get_parameter_types := executable_get_parameter_types r; modifier_is_native := modifier_is_native r; modifier_is_static := modifier_is_static r;
          class_get_declared_method := gdm; method_type_from_descriptor := mtd; method_type_parameter_array := mpa; long_form_ok := s.1 |}.

(** The lookup that runs once. *)
Definition look_up : jm (option Reflection) :=
  '(cc, s) ← global_class (lit "java/lang/Class") (true, []);
  '(clc, s) ← global_class (lit "java/lang/ClassLoader") s;
  '(mc, s) ← global_class (lit "java/lang/reflect/Method") s;
  '(ec, s) ← global_class (lit "java/lang/reflect/Executable") s;
  '(moc, s) ← global_class (lit "java/lang/reflect/Modifier") s;
  '(coc, s) ← global_class (lit "java/lang/reflect/Constructor") s;
  '(cnf, s) ← global_class (lit "java/lang/ClassNotFoundException") s;
  '(ncd, s) ← global_class (lit "java/lang/NoClassDefFoundError") s;
  '(cgn, s) ← method_id cc (lit "getName") (lit "()Ljava/lang/String;") false s;
  '(cip, s) ← method_id cc (lit "isPrimitive") (lit "()Z") false s;
  '(cgd, s) ← method_id cc (lit "getDeclaredMethods") (lit "()[Ljava/lang/reflect/Method;") false s;
  '(cll, s) ← method_id clc (lit "loadClass") (lit "(Ljava/lang/String;)Ljava/lang/Class;") false s;
  '(mgn, s) ← method_id mc (lit "getName") (lit "()Ljava/lang/String;") false s;
  '(mgm, s) ← method_id mc (lit "getModifiers") (lit "()I") false s;
  '(mgr, s) ← method_id mc (lit "getReturnType") (lit "()Ljava/lang/Class;") false s;
  '(egp, s) ← method_id ec (lit "getParameterTypes") (lit "()[Ljava/lang/Class;") false s;
  '(min, s) ← method_id moc (lit "isNative") (lit "(I)Z") true s;
  '(mis, s) ← method_id moc (lit "isStatic") (lit "(I)Z") true s;
  if negb s.1 then _ ← ExceptionClear; _ ← delete_globals s.2; mret None
  else
    r ← optional_group {| class_class := cc; class_loader_class := clc; method_class := mc; executable_class := ec; modifier_class := moc; constructor_class := coc; class_not_found_class := cnf; no_class_def_found_class := ncd;
      method_type_class := 0; no_such_method_class := 0; class_get_name := cgn; class_is_primitive := cip; class_get_declared_methods := cgd; class_loader_load_class := cll; method_get_name := mgn; method_get_modifiers := mgm;
      method_get_return_type := mgr; executable_get_parameter_types := egp; modifier_is_native := min; modifier_is_static := mis;
      class_get_declared_method := 0; method_type_from_descriptor := 0; method_type_parameter_array := 0; long_form_ok := false |} s.2;
    mret (Some r).

Definition reflection (b : JniEnvBackend) : jm (option Reflection * JniEnvBackend) :=
  ex ← ExceptionCheck;
  if ex : bool then mret (None, b)
  else if reflection_once_ b then mret (reflection_ b, b)
  else r ← look_up; mret (r, {| reflection_once_ := true; reflection_ := r; class_loader_ := class_loader_ b |}).

(** ** Types and methods *)

Definition type_descriptor (r : Reflection) (type : Z) : jm (option text) :=
  primitive ← CallBooleanMethod type (class_is_primitive r);
  ex ← ExceptionCheck;
  if ex : bool then mret None
  else
    type_name ← CallObjectMethod type (class_get_name r) [];
    ex ← ExceptionCheck;
    if (ex : bool) || (type_name =? 0) then mret None
    else
      '(p, name) ← GetStringUTFChars type_name;
      if p =? 0 then _ ← DeleteLocalRef type_name; mret None
      else
        let descriptor := Descriptor.jni_type_descriptor name (negb (primitive =? 0)) in
        _ ← ReleaseStringUTFChars type_name p;
        _ ← DeleteLocalRef type_name;
        mret descriptor.

(** 0 on failure. *)
Definition type_letter (b : JniEnvBackend) (type : Z) : jm (option ascii * JniEnvBackend) :=
  '(r, b) ← reflection b;
  match r with
  | None => mret (None, b)
  | Some r =>
      if type =? 0 then mret (None, b)
      else
        d ← type_descriptor r type;
        mret (match d with Some (c :: _) => Some (if decide (c = "["%char) then "L"%char else c) | _ => None end, b)
  end.

(** The descriptors of the elements of an array of classes; [fail] says what a missing element
    and what an unreadable one gives. *)
Inductive parameters_read := Read (ds : list text) | NoElement | NoDescriptor.
Fixpoint read_parameters (r : Reflection) (array : Z) (n : nat) (i : Z) (acc : list text) : jm parameters_read :=
  match n with
  | O => mret (Read acc)
  | S n =>
      type ← GetObjectArrayElement array i;
      ex ← ExceptionCheck;
      if (ex : bool) || (type =? 0) then mret NoElement
      else
        d ← type_descriptor r type;
        _ ← DeleteLocalRef type;
        match d with None => mret NoDescriptor | Some d => read_parameters r array n (i + 1) (acc ++ [d]) end
  end.

Record DeclaredNativeMethod := { signature : text; is_static : bool }.
Inductive NativeLookupStatus := Found | MissingClass | Unresolvable | LookupError.

Definition scan_method (r : Reflection) (method : Z) (name : text) (methods : list DeclaredNativeMethod) : jm (bool * list DeclaredNativeMethod) :=
  modifiers ← CallIntMethod method (method_get_modifiers r);
  ex ← ExceptionCheck;
  if ex : bool then mret (false, methods) else
  is_native ← CallStaticBooleanMethod (modifier_class r) (modifier_is_native r) modifiers;
  ex ← ExceptionCheck;
  if ex : bool then mret (false, methods) else
  if is_native =? 0 then mret (true, methods) else
  method_name ← CallObjectMethod method (method_get_name r) [];
  ex ← ExceptionCheck;
  if (ex : bool) || (method_name =? 0) then mret (false, methods) else
  '(p, chars) ← GetStringUTFChars method_name;
  if p =? 0 then mret (false, methods) else
  _ ← ReleaseStringUTFChars method_name p;
  _ ← DeleteLocalRef method_name;
  if decide (chars <> name) then mret (true, methods) else
  static ← CallStaticBooleanMethod (modifier_class r) (modifier_is_static r) modifiers;
  ex ← ExceptionCheck;
  if ex : bool then mret (false, methods) else
  parameters ← CallObjectMethod method (executable_get_parameter_types r) [];
  ex ← ExceptionCheck;
  if (ex : bool) || (parameters =? 0) then mret (false, methods) else
  count ← GetArrayLength parameters;
  ds ← read_parameters r parameters (Z.to_nat count) 0 [];
  match ds with
  | Read ds =>
      _ ← DeleteLocalRef parameters;
      return_type ← CallObjectMethod method (method_get_return_type r) [];
      ex ← ExceptionCheck;
      if (ex : bool) || (return_type =? 0) then mret (false, methods) else
      result ← type_descriptor r return_type;
      _ ← DeleteLocalRef return_type;
      match result with
      | None => mret (false, methods)
      | Some result =>
          match Descriptor.jni_method_descriptor ds result with
          | None => mret (false, methods)
          | Some s => mret (true, methods ++ [{| signature := s; is_static := negb (static =? 0) |}])
          end
      end
  | _ => mret (false, methods)
  end.

Definition class_load_failure (r : Reflection) : jm NativeLookupStatus :=
  thrown ← ExceptionOccurred;
  _ ← ExceptionClear;
  if thrown =? 0 then mret LookupError
  else
    a ← IsInstanceOf thrown (class_not_found_class r);
    missing ← (if a : bool then mret true else IsInstanceOf thrown (no_class_def_found_class r));
    (if missing : bool then _ ← DeleteLocalRef thrown; mret MissingClass
     else _ ← Throw thrown; _ ← DeleteLocalRef thrown; mret LookupError).

Fixpoint scan_methods (r : Reflection) (declared : Z) (n : nat) (i : Z) (name : text) (methods : list DeclaredNativeMethod) : jm (NativeLookupStatus * list DeclaredNativeMethod) :=
  match n with
  | O => mret (Found, methods)
  | S n =>
      rc ← PushLocalFrame 8;
      if negb (rc =? 0) then mret (LookupError, methods)
      else
        method ← GetObjectArrayElement declared i;
        ex ← ExceptionCheck;
        '(ok, methods) ← (if (ex : bool) || (method =? 0) then mret (false, methods) else scan_method r method name methods);
        _ ← PopLocalFrame 0;
        (if ok : bool then scan_methods r declared n (i + 1) name methods else _ ← ExceptionClear; mret (Unresolvable, []))
  end.

Definition declared_by_name (r : Reflection) (cls : Z) (name : text) (methods : list DeclaredNativeMethod) : jm (NativeLookupStatus * list DeclaredNativeMethod) :=
  declared ← CallObjectMethod cls (class_get_declared_methods r) [];
  ex ← ExceptionCheck;
  if ex : bool then _ ← ExceptionClear; mret (Unresolvable, methods)
  else if declared =? 0 then mret (LookupError, methods)
  else count ← GetArrayLength declared; scan_methods r declared (Z.to_nat count) 0 name methods.

(** [done] of [declared_by_arguments]. *)
Definition done_ (status : NativeLookupStatus) (methods : list DeclaredNativeMethod) : jm (NativeLookupStatus * list DeclaredNativeMethod) :=
  _ ← (match status with Unresolvable => ExceptionClear | _ => mret 0 end);
  _ ← PopLocalFrame 0;
  mret (status, match status with Found => methods | _ => [] end).

Definition declared_by_arguments (r : Reflection) (loader cls : Z) (name arguments : text) (methods : list DeclaredNativeMethod) : jm (NativeLookupStatus * list DeclaredNativeMethod) :=
  rc ← PushLocalFrame 16;
  if negb (rc =? 0) then mret (LookupError, methods) else
  java_descriptor ← NewStringUTF (arguments ++ lit "V");
  if java_descriptor =? 0 then done_ LookupError methods else
  type ← CallStaticObjectMethod (method_type_class r) (method_type_from_descriptor r) [java_descriptor; loader];
  ex ← ExceptionCheck;
  if ex : bool then done_ Unresolvable methods else
  if type =? 0 then done_ LookupError methods else
  parameters ← CallObjectMethod type (method_type_parameter_array r) [];
  ex ← ExceptionCheck;
  if (ex : bool) || (parameters =? 0) then done_ LookupError methods else
  java_name ← NewStringUTF name;
  if java_name =? 0 then done_ LookupError methods else
  method ← CallObjectMethod cls (class_get_declared_method r) [java_name; parameters];
  ex ← ExceptionCheck;
  if ex : bool then
    thrown ← ExceptionOccurred;
    _ ← ExceptionClear;
    if thrown =? 0 then done_ Unresolvable methods
    else
      absent ← IsInstanceOf thrown (no_such_method_class r);
      _ ← DeleteLocalRef thrown;
      done_ (if absent : bool then Found else Unresolvable) methods
  else
  if method =? 0 then done_ LookupError methods else
  modifiers ← CallIntMethod method (method_get_modifiers r);
  ex ← ExceptionCheck;
  if ex : bool then done_ LookupError methods else
  is_native ← CallStaticBooleanMethod (modifier_class r) (modifier_is_native r) modifiers;
  ex ← ExceptionCheck;
  if ex : bool then done_ LookupError methods else
  if is_native =? 0 then done_ Found methods else
  static ← CallStaticBooleanMethod (modifier_class r) (modifier_is_static r) modifiers;
  ex ← ExceptionCheck;
  if ex : bool then done_ LookupError methods else
  count ← GetArrayLength parameters;
  ds ← read_parameters r parameters (Z.to_nat count) 0 [];
  match ds with
  | NoElement => done_ LookupError methods
  | NoDescriptor => done_ Unresolvable methods
  | Read ds =>
      return_type ← CallObjectMethod method (method_get_return_type r) [];
      ex ← ExceptionCheck;
      if ex : bool then done_ Unresolvable methods else
      if return_type =? 0 then done_ LookupError methods else
      result ← type_descriptor r return_type;
      match result with
      | None => done_ Unresolvable methods
      | Some result =>
          match Descriptor.jni_method_descriptor ds result with
          | None => done_ LookupError methods
          | Some s => done_ Found (methods ++ [{| signature := s; is_static := negb (static =? 0) |}])
          end
      end
  end.

(** ** Operations *)

Definition set_class_loader (env class_loader : Z) (b : JniEnvBackend) : jm (bool * JniEnvBackend) :=
  if (env =? 0) || (class_loader =? 0) then mret (false, b)
  else
    '(r, b) ← reflection b;
    match r with
    | None => mret (false, b)
    | Some r =>
        ok ← IsInstanceOf class_loader (class_loader_class r);
        if negb ok then mret (false, b)
        else if negb (class_loader_ b =? 0) then x ← IsSameObject (class_loader_ b) class_loader; mret (x, b)
        else
          global ← NewGlobalRef class_loader;
          if global =? 0 then mret (false, b)
          else mret (true, {| reflection_once_ := reflection_once_ b; reflection_ := reflection_ b; class_loader_ := global |})
    end.

(** The class's name, the method's name and the arguments are null when [None]. *)
Definition find_declared_natives (env : Z) (cls name arguments : option text) (b : JniEnvBackend) : jm ((NativeLookupStatus * Z * list DeclaredNativeMethod) * JniEnvBackend) :=
  match cls, name with
  | Some cls, Some name =>
      if env =? 0 then mret (LookupError, 0, [], b)
      else
        '(r, b) ← reflection b;
        match r, Descriptor.jni_binary_class_name cls with
        | Some r, Some binary_name =>
            let loader := class_loader_ b in
            if loader =? 0 then mret (LookupError, 0, [], b)
            else
              rc ← PushLocalFrame 8;
              if negb (rc =? 0) then mret (LookupError, 0, [], b) else
              java_name ← NewStringUTF binary_name;
              if java_name =? 0 then _ ← PopLocalFrame 0; mret (LookupError, 0, [], b) else
              found ← CallObjectMethod loader (class_loader_load_class r) [java_name];
              ex ← ExceptionCheck;
              if ex : bool then status ← class_load_failure r; _ ← PopLocalFrame 0; mret (status, 0, [], b) else
              if found =? 0 then _ ← PopLocalFrame 0; mret (LookupError, 0, [], b) else
              '(status, methods) ← (match arguments with
                                    | Some arguments => if long_form_ok r then declared_by_arguments r loader found name arguments [] else declared_by_name r found name []
                                    | None => declared_by_name r found name []
                                    end);
              match status with
              | Found => class_ref ← PopLocalFrame found; mret (if class_ref =? 0 then LookupError else Found, class_ref, methods, b)
              | _ => _ ← PopLocalFrame 0; mret (status, 0, [], b)
              end
        | _, _ => mret (LookupError, 0, [], b)
        end
  | _, _ => mret (LookupError, 0, [], b)
  end.

Definition find_class (env : Z) (name : option text) (b : JniEnvBackend) : jm (Z * JniEnvBackend) :=
  match name with
  | None => mret (0, b)
  | Some name =>
      if env =? 0 then mret (0, b)
      else
        let direct := x ← FindClass name; mret (x, b) in
        if class_loader_ b =? 0 then direct
        else
          match Descriptor.jni_binary_class_name name with
          | None => direct
          | Some binary_name =>
              '(r, b) ← reflection b;
              match r with
              | None => mret (0, b)
              | Some r =>
                  java_name ← NewStringUTF binary_name;
                  if java_name =? 0 then mret (0, b)
                  else
                    found ← CallObjectMethod (class_loader_ b) (class_loader_load_class r) [java_name];
                    _ ← DeleteLocalRef java_name;
                    mret (found, b)
              end
          end
  end.

Definition letter_descriptor (letter : ascii) : text := if decide (letter = "L"%char) then lit "Ljava/lang/Object;" else [letter].

(** The parameter types of [from_reflected_method], erased. *)
Fixpoint erased_parameters (parameters : Z) (n : nat) (i : Z) (acc : text) (b : JniEnvBackend) : jm (option text * JniEnvBackend) :=
  match n with
  | O => mret (Some acc, b)
  | S n =>
      type ← GetObjectArrayElement parameters i;
      '(letter, b) ← type_letter b type;
      _ ← DeleteLocalRef type;
      match letter with
      | None => mret (None, b)
      | Some c => if decide (c = "V"%char) then mret (None, b) else erased_parameters parameters n (i + 1) (acc ++ letter_descriptor c) b
      end
  end.

(** The id and the signature. *)
Definition from_reflected_method (method : Z) (b : JniEnvBackend) : jm ((Z * text) * JniEnvBackend) :=
  '(r, b) ← reflection b;
  id ← FromReflectedMethod method;
  match r with
  | None => mret (0, [], b)
  | Some r =>
      if id =? 0 then mret (0, [], b)
      else
        parameters ← CallObjectMethod method (executable_get_parameter_types r) [];
        if parameters =? 0 then mret (0, [], b)
        else
          count ← GetArrayLength parameters;
          '(d, b) ← erased_parameters parameters (Z.to_nat count) 0 (lit "(") b;
          _ ← DeleteLocalRef parameters;
          match d with
          | None => mret (0, [], b)
          | Some descriptor =>
              constructor_ ← IsInstanceOf method (constructor_class r);
              if constructor_ : bool then mret (id, descriptor ++ lit ")V", b)
              else
                type ← CallObjectMethod method (method_get_return_type r) [];
                '(result, b) ← type_letter b type;
                _ ← DeleteLocalRef type;
                match result with
                | None => mret (0, [], b)
                | Some c => mret (id, descriptor ++ lit ")" ++ (if decide (c = "V"%char) then lit "V" else letter_descriptor c), b)
                end
          end
  end.

Definition get_array_element_type (array : Z) (b : JniEnvBackend) : jm (option ascii * JniEnvBackend) :=
  '(r, b) ← reflection b;
  match r with
  | None => mret (None, b)
  | Some r =>
      if array =? 0 then mret (None, b)
      else
        cls ← GetObjectClass array;
        name ← CallObjectMethod cls (class_get_name r) [];
        _ ← DeleteLocalRef cls;
        if name =? 0 then mret (None, b)
        else
          '(p, chars) ← GetStringUTFChars name;
          let letter := if p =? 0 then None else match chars with a :: c :: _ => if decide (a = "["%char) then Some (if decide (c = "["%char \/ c = "L"%char) then "L"%char else c) else None | _ => None end in
          _ ← (if p =? 0 then mret 0 else ReleaseStringUTFChars name p);
          _ ← DeleteLocalRef name;
          mret (letter, b)
  end.

(** ** Operations that are one JNI call *)

Definition jcall_of (name : string) (k : jkind) (os ns ws : list Z) (ts : list text) : jcall := {| fn := name; effect_ := k; objects := os; nullable := ns; numbers := ws; texts := ts |}.
Local Notation value throws := (Plain throws false).
Local Notation ref throws := (Plain throws true).

Definition get_superclass (cls : Z) : jcall := jcall_of "GetSuperclass" (ref false) [cls] [] [] [].
Definition is_assignable_from (from to : Z) : jcall := jcall_of "IsAssignableFrom" (value false) [from; to] [] [] [].
Definition get_method_id (cls : Z) (name sig : text) (is_static : bool) : jcall := jcall_of (if is_static then "GetStaticMethodID" else "GetMethodID") (value true) [cls] [] [] [name; sig].
Definition get_field_id (cls : Z) (name sig : text) (is_static : bool) : jcall := jcall_of (if is_static then "GetStaticFieldID" else "GetFieldID") (value true) [cls] [] [] [name; sig].
Definition from_reflected_field (field : Z) : jcall := jcall_of "FromReflectedField" (value true) [field] [] [] [].
Definition to_reflected_method (cls method : Z) (is_static : bool) : jcall := jcall_of "ToReflectedMethod" (ref true) [cls] [] [method; Z.b2z is_static] [].
Definition to_reflected_field (cls field : Z) (is_static : bool) : jcall := jcall_of "ToReflectedField" (ref true) [cls] [] [field; Z.b2z is_static] [].
Definition alloc_object (cls : Z) : jcall := jcall_of "AllocObject" (ref true) [cls] [] [] [].
Definition get_object_class (obj : Z) : jcall := jcall_of "GetObjectClass" (ref false) [obj] [] [] [].
Definition is_instance_of (obj cls : Z) : jcall := jcall_of "IsInstanceOf" (value false) [cls] [obj] [] [].
Definition is_same_object (a b : Z) : jcall := jcall_of "IsSameObject" (value false) [] [a; b] [] [].
Definition new_string_utf (utf : text) : jcall := jcall_of "NewStringUTF" (ref true) [] [] [] [utf].
Definition get_string_length (str : Z) : jcall := jcall_of "GetStringLength" (value false) [str] [] [] [].
Definition get_string_utf_length (str : Z) : jcall := jcall_of "GetStringUTFLength" (value false) [str] [] [] [].
Definition get_array_length (array : Z) : jcall := jcall_of "GetArrayLength" (value false) [array] [] [] [].
Definition new_object_array (length element_class initial : Z) : jcall := jcall_of "NewObjectArray" (ref true) [element_class] [initial] [length] [].
Definition get_object_array_element (array index : Z) : jcall := jcall_of "GetObjectArrayElement" (ref true) [array] [] [index] [].
Definition set_object_array_element (array index v : Z) : jcall := jcall_of "SetObjectArrayElement" (value true) [array] [v] [index] [].
Definition new_global_ref (obj : Z) : jcall := jcall_of "NewGlobalRef" NewGlobal [] [obj] [] [].
Definition delete_global_ref (r : Z) : jcall := jcall_of "DeleteGlobalRef" (DelGlobal r) [] [] [] [].
Definition new_weak_global_ref (obj : Z) : jcall := jcall_of "NewWeakGlobalRef" (value true) [] [obj] [] [].
Definition delete_weak_global_ref (r : Z) : jcall := jcall_of "DeleteWeakGlobalRef" Tidy [] [] [r] [].
Definition new_local_ref (obj : Z) : jcall := jcall_of "NewLocalRef" (ref true) [] [obj] [] [].
Definition delete_local_ref (r : Z) : jcall := jcall_of "DeleteLocalRef" (DelLocal r) [] [] [] [].
Definition ensure_local_capacity (capacity : Z) : jcall := jcall_of "EnsureLocalCapacity" (value true) [] [] [capacity] [].
Definition push_local_frame (capacity : Z) : jcall := jcall_of "PushLocalFrame" PushFrame [] [] [capacity] [].
Definition pop_local_frame (result : Z) : jcall := jcall_of "PopLocalFrame" (PopFrame result) [] [] [] [].
Definition throw_exception (throwable : Z) : jcall := jcall_of "Throw" (ExcThrow throwable) [] [] [] [].
Definition throw_new (cls : Z) (message : text) : jcall := jcall_of "ThrowNew" (value true) [cls] [] [] [message].
Definition exception_occurred : jcall := jcall_of "ExceptionOccurred" ExcOccurred [] [] [] [].
Definition exception_describe : jcall := jcall_of "ExceptionDescribe" Tidy [] [] [] [].
Definition exception_clear : jcall := jcall_of "ExceptionClear" ExcClear [] [] [] [].
Definition exception_check : jcall := jcall_of "ExceptionCheck" ExcCheck [] [] [] [].
Definition monitor_enter (obj : Z) : jcall := jcall_of "MonitorEnter" (value true) [obj] [] [] [].
Definition monitor_exit (obj : Z) : jcall := jcall_of "MonitorExit" Tidy [obj] [] [] [].
Definition register_native (cls : Z) (name sig : text) (function : Z) : jcall := jcall_of "RegisterNatives" (value true) [cls] [] [function; 1] [name; sig].
Definition unregister_natives (cls : Z) : jcall := jcall_of "UnregisterNatives" (value true) [cls] [] [] [].
Definition new_direct_byte_buffer (address capacity : Z) : jcall := jcall_of "NewDirectByteBuffer" (ref true) [] [] [address; capacity] [].
Definition get_direct_buffer_address (buffer : Z) : jcall := jcall_of "GetDirectBufferAddress" (value false) [buffer] [] [] [].
Definition get_direct_buffer_capacity (buffer : Z) : jcall := jcall_of "GetDirectBufferCapacity" (value false) [buffer] [] [] [].

(** The machine ends the process. *)
Definition fatal_error (message : text) : jm Z := fun _ => Aborted.
(** [rc] and [env] are what the virtual machine answers; the thread gets an environment then. *)
Definition attach_current_thread (rc env : Z) : Z := if rc =? 0 then env else 0.

(** ** Operations by the letter of a type *)

Inductive JniCallKind := Virtual | Nonvirtual | Static | NewObject.

(** The name of a primitive type in JNI function names, and the bits of a [JValue] its member has. *)
Definition primitive (c : ascii) : option (string * Z) :=
  if decide (c = "Z"%char) then Some ("Boolean"%string, 8) else if decide (c = "B"%char) then Some ("Byte"%string, 8)
  else if decide (c = "C"%char) then Some ("Char"%string, 16) else if decide (c = "S"%char) then Some ("Short"%string, 16)
  else if decide (c = "I"%char) then Some ("Int"%string, 32) else if decide (c = "J"%char) then Some ("Long"%string, 64)
  else if decide (c = "F"%char) then Some ("Float"%string, 32) else if decide (c = "D"%char) then Some ("Double"%string, 64) else None.
Definition low (n v : Z) : Z := v mod 2 ^ n.

Definition call_prefix (kind : JniCallKind) : string := match kind with Virtual => "Call" | Nonvirtual => "CallNonvirtual" | _ => "CallStatic" end.
Definition call_objects (kind : JniCallKind) (obj cls : Z) : list Z := match kind with Virtual => [obj] | Nonvirtual => [obj; cls] | _ => [cls] end.

(** [args] are the words of the [JValue]s. *)
Definition call_method (kind : JniCallKind) (type : ascii) (obj cls method : Z) (args : list Z) : jm Z :=
  match kind with
  | NewObject => x ← env_call "NewObjectA" (ref true) [cls] [] (method :: args) []; mret (low 64 x)
  | _ =>
      let call name k := env_call (call_prefix kind ++ name ++ "MethodA") k (call_objects kind obj cls) [] (method :: args) [] in
      match primitive type with
      | Some (name, bits) => x ← call name (value true); mret (low bits x)
      | None => if decide (type = "L"%char) then x ← call "Object"%string (ref true); mret (low 64 x) else _ ← call "Void"%string (value true); mret 0
      end
  end.

Definition get_field (is_static : bool) (type : ascii) (obj field : Z) : jm Z :=
  let call name k := env_call ((if is_static then "GetStatic" else "Get") ++ name ++ "Field") k [obj] [] [field] [] in
  match primitive type with Some (name, bits) => x ← call name (value false); mret (low bits x) | None => x ← call "Object"%string (ref false); mret (low 64 x) end.

Definition set_field (is_static : bool) (type : ascii) (obj field v : Z) : jm Z :=
  let call name ns ws := env_call ((if is_static then "SetStatic" else "Set") ++ name ++ "Field") (value false) [obj] ns ws [] in
  match primitive type with Some (name, bits) => call name [] [field; low bits v] | None => call "Object"%string [v] [field] end.

Definition new_primitive_array (type : ascii) (length : Z) : jm Z := match primitive type with Some (name, _) => env_call ("New" ++ name ++ "Array") (ref true) [] [] [length] [] | None => mret 0 end.
Definition get_primitive_array_region (type : ascii) (array start length out : Z) : jm Z := match primitive type with Some (name, _) => env_call ("Get" ++ name ++ "ArrayRegion") (value true) [array] [] [start; length; out] [] | None => mret 0 end.
Definition set_primitive_array_region (type : ascii) (array start length in_ : Z) : jm Z := match primitive type with Some (name, _) => env_call ("Set" ++ name ++ "ArrayRegion") (value true) [array] [] [start; length; in_] [] | None => mret 0 end.

(** ** Strings *)

(** The characters are those at [chars]; an odd address is copied to an even one first, [copy]. *)
Definition new_string (chars length copy : Z) : jm Z := env_call "NewString" (ref true) [] [] [if (0 <? length) && Z.odd chars then copy else chars; length] [].

(** Whether the characters arrived at [out] other than by the call itself: with an odd address
    they go to a copy, and from there when no exception is pending. *)
Definition get_string_region (str start length out copy : Z) : jm bool :=
  if (0 <? length) && Z.odd out then _ ← env_call "GetStringRegion" (value true) [str] [] [start; length; copy] []; ex ← ExceptionCheck; mret (negb ex)
  else _ ← env_call "GetStringRegion" (value true) [str] [] [start; length; out] []; mret false.

(** The text up to its first zero. *)
Fixpoint c_str (t : text) : text := match t with [] => [] | c :: t => if decide (c = Ascii.zero) then [] else c :: c_str t end.
Definition get_string_utf_region (str start length : Z) : jm (option text) :=
  x ← jni jvm (jcall_of "GetStringUTFRegion" (value true) [str] [] [start; length; if 0 <? length then 3 * length + 1 else 1] []);
  ex ← ExceptionCheck;
  mret (if ex : bool then None else Some (c_str x.2)).

(** The operations that are more than one JNI call given by its arguments, on the backend. *)
Inductive operation :=
| OSetClassLoader (env cl : Z) | OFindClass (env : Z) (name : option text) | OFromReflectedMethod (method : Z) | OGetArrayElementType (array : Z)
| OCallMethod (kind : JniCallKind) (type : ascii) (obj cls method : Z) (args : list Z)
| OGetField (is_static : bool) (type : ascii) (obj field : Z) | OSetField (is_static : bool) (type : ascii) (obj field v : Z)
| ONewPrimitiveArray (type : ascii) (length : Z) | OGetPrimitiveArrayRegion (type : ascii) (array start length out : Z) | OSetPrimitiveArrayRegion (type : ascii) (array start length in_ : Z)
| ONewString (chars length copy : Z) | OGetStringRegion (str start length out copy : Z) | OGetStringUtfRegion (str start length : Z).

(** What an operation answers: a reference, which is a local reference of the current frame or
    null, or something else.  [Done] answers nothing. *)
Inductive operation_result := Reference (r : Z) | Number (v : Z) | Flag (b : bool) | Text (t : option text) | Method (id : Z) (signature : text) | Letter (c : option ascii) | Done.

(** A [JValue] that is an object, or a number. *)
Definition call_result (kind : JniCallKind) (type : ascii) (v : Z) : operation_result :=
  match kind with NewObject => Reference v | _ => match primitive type with Some _ => Number v | None => if decide (type = "L"%char) then Reference v else Done end end.
Definition field_result (type : ascii) (v : Z) : operation_result := match primitive type with Some _ => Number v | None => Reference v end.

Definition run_operation (o : operation) (b : JniEnvBackend) : jm (operation_result * JniEnvBackend) :=
  match o with
  | OSetClassLoader env cl => x ← set_class_loader env cl b; mret (Flag x.1, x.2)
  | OFindClass env name => x ← find_class env name b; mret (Reference x.1, x.2)
  | OFromReflectedMethod m => x ← from_reflected_method m b; mret (Method x.1.1 x.1.2, x.2)
  | OGetArrayElementType a => x ← get_array_element_type a b; mret (Letter x.1, x.2)
  | OCallMethod k t o c m args => v ← call_method k t o c m args; mret (call_result k t v, b)
  | OGetField st t o f => v ← get_field st t o f; mret (field_result t v, b)
  | OSetField st t o f v => _ ← set_field st t o f v; mret (Done, b)
  | ONewPrimitiveArray t n => v ← new_primitive_array t n; mret (Reference v, b)
  | OGetPrimitiveArrayRegion t a i n out => _ ← get_primitive_array_region t a i n out; mret (Done, b)
  | OSetPrimitiveArrayRegion t a i n x => _ ← set_primitive_array_region t a i n x; mret (Done, b)
  | ONewString c n copy => v ← new_string c n copy; mret (Reference v, b)
  | OGetStringRegion s i n out copy => v ← get_string_region s i n out copy; mret (Flag v, b)
  | OGetStringUtfRegion s i n => v ← get_string_utf_region s i n; mret (Text v, b)
  end.

(** The objects an operation is called on, and those that may be null. *)
Definition operation_objects (o : operation) : list Z :=
  match o with
  | OFromReflectedMethod m => [m] | OCallMethod k _ obj cls _ _ => call_objects k obj cls | OGetField _ _ obj _ | OSetField _ _ obj _ _ => [obj]
  | OGetPrimitiveArrayRegion _ a _ _ _ | OSetPrimitiveArrayRegion _ a _ _ _ => [a] | OGetStringRegion s _ _ _ _ | OGetStringUtfRegion s _ _ => [s] | _ => []
  end.
Definition operation_nullable (o : operation) : list Z :=
  match o with OSetClassLoader _ cl => [cl] | OGetArrayElementType a => [a] | OSetField _ t _ _ v => (match primitive t with Some _ => [] | None => [v] end) | _ => [] end.
End Functions.

(** ** Rules *)

Section Sound.
Context (jvm : list jcall -> jcall -> jans).

Lemma check_rule e p f fs g h (Q : bool -> Env -> Prop) : env_is e p f fs g h -> (forall e', env_is e' p f fs g h -> Q (negb (p =? 0)) e') -> wpj (ExceptionCheck jvm) e Q.
Proof. intros He H. apply wpj_bind. eapply rule_check; [exact He|]. intros e' He'. apply wpj_ret. specialize (H e' He'). by destruct (p =? 0). Qed.
Lemma instance_rule e f fs g h o c (Q : bool -> Env -> Prop) : env_is e 0 f fs g h -> alive f fs g c -> o = 0 \/ alive f fs g o -> (forall b e', env_is e' 0 f fs g h -> Q b e') -> wpj (IsInstanceOf jvm o c) e Q.
Proof. intros He Hc Ho H. apply wpj_bind. eapply rule_word; [exact He|done|by apply Forall_singleton|by apply Forall_singleton|]. intros x e' He'. apply wpj_ret. by apply H. Qed.
Lemma same_rule e f fs g h a b (Q : bool -> Env -> Prop) : env_is e 0 f fs g h -> a = 0 \/ alive f fs g a -> b = 0 \/ alive f fs g b -> (forall b e', env_is e' 0 f fs g h -> Q b e') -> wpj (IsSameObject jvm a b) e Q.
Proof. intros He Ha Hb H. apply wpj_bind. eapply rule_word; [exact He|done|by apply Forall_nil|by repeat apply Forall_cons_2|]. intros x e' He'. apply wpj_ret. by apply H. Qed.

Lemma delete_head e p r f fs g h (Q : Z -> Env -> Prop) : env_is e p (r :: f) fs g h -> r <> 0 -> (forall e', env_is e' p f fs g h -> Q 0 e') -> wpj (DeleteLocalRef jvm r) e Q.
Proof. intros He Hr H. eapply rule_delete; [exact He|right; by constructor|]. by rewrite drop_head. Qed.
Lemma delete_null e p f fs g h (Q : Z -> Env -> Prop) : env_is e p f fs g h -> (forall e', env_is e' p f fs g h -> Q 0 e') -> wpj (DeleteLocalRef jvm 0) e Q.
Proof. intros He H. eapply rule_delete; [exact He|by left|done]. Qed.
Lemma delete_second e p x r f fs g h (Q : Z -> Env -> Prop) : env_is e p (x :: r :: f) fs g h -> r <> 0 -> (forall e', env_is e' p (x :: f) fs g h -> Q 0 e') -> wpj (DeleteLocalRef jvm r) e Q.
Proof. intros He Hr H. eapply rule_delete; [exact He|right; by do 2 constructor|]. by rewrite drop_second. Qed.
Lemma release_head e p x s f fs g h (Q : Z -> Env -> Prop) : env_is e p f fs g (x :: h) -> alive f fs g s -> (forall e', env_is e' p f fs g h -> Q 0 e') -> wpj (ReleaseStringUTFChars jvm s x) e Q.
Proof. intros He Hs H. eapply rule_release; [exact He|by apply Forall_singleton|by constructor|]. by rewrite remove1_head. Qed.
Lemma chars_rule e f fs g h s (Q : Z * text -> Env -> Prop) : env_is e 0 f fs g h -> alive f fs g s ->
  (forall x t e', x <> 0 -> env_is e' 0 f fs g (x :: h) -> Q (x, t) e') -> (forall x t e', env_is e' x f fs g h -> Q (0, t) e') -> wpj (GetStringUTFChars jvm s) e Q.
Proof. intros He Hs H1 H2. eapply rule_get_chars; [exact He|done|done|done|by apply Forall_singleton|done|done]. Qed.
Lemma pop_none e p f f' fs g h (Q : Z -> Env -> Prop) : env_is e p f (f' :: fs) g h -> (forall e', env_is e' p f' fs g h -> Q 0 e') -> wpj (PopLocalFrame jvm 0) e Q.
Proof. intros He H. eapply rule_pop; [exact He|by left|]. intros x e' Ex He'. rewrite (Ex eq_refl) in *. by apply H. Qed.
End Sound.

Ltac jsimp :=
  repeat match goal with
  | H : ?x <> 0 |- context [?x =? 0] => rewrite (proj2 (Z.eqb_neq x 0) H)
  | |- context [0 =? 0] => change (0 =? 0) with true
  end; cbn [negb orb andb fst snd]; rewrite ?orb_true_r; cbv beta iota.
Ltac jalive := repeat (apply Forall_cons_2 || apply Forall_nil_2); try (left; reflexivity); try right; eauto 12 with alive.
(** One call of a program, by the rule of its function. *)
Ltac jcall_ :=
  match goal with
  | H : env_is ?e _ _ _ _ _ |- wpj ?m ?e _ =>
      lazymatch m with
      | ExceptionCheck _ => eapply (check_rule _ _ _ _ _ _ _ _ H)
      | ExceptionOccurred _ => eapply (rule_occurred _ _ _ _ _ _ _ _ _ H); [assumption|]
      | Throw _ _ => eapply (rule_throw _ _ _ _ _ _ _ _ _ _ H); [reflexivity|jalive|]
      | ExceptionClear _ => eapply (rule_clear _ _ _ _ _ _ _ _ _ H)
      | DeleteLocalRef _ 0 => eapply (delete_null _ _ _ _ _ _ _ _ H)
      | DeleteLocalRef _ _ => first [eapply (delete_head _ _ _ _ _ _ _ _ _ H); [assumption|]|eapply (delete_second _ _ _ _ _ _ _ _ _ _ H); [assumption|]]
      | ReleaseStringUTFChars _ _ _ => eapply (release_head _ _ _ _ _ _ _ _ _ _ H); [jalive|]
      | GetStringUTFChars _ _ => eapply (chars_rule _ _ _ _ _ _ _ _ H); [jalive| |]
      | IsInstanceOf _ _ _ => eapply (instance_rule _ _ _ _ _ _ _ _ _ H); [jalive|jalive|]
      | PopLocalFrame _ 0 => eapply (pop_none _ _ _ _ _ _ _ _ _ H)
      | PushLocalFrame _ _ => eapply (rule_push _ _ _ _ _ _ _ _ _ _ H)
      | GetArrayLength _ _ => eapply (rule_word _ _ _ _ _ _ _ _ _ _ _ _ _ H); [reflexivity|jalive|jalive|]
      | CallObjectMethod _ _ _ _ => eapply (rule_throws_local _ _ _ _ _ _ _ _ _ _ _ _ _ H); [reflexivity|jalive|jalive| |]
      | CallStaticObjectMethod _ _ _ _ => eapply (rule_throws_local _ _ _ _ _ _ _ _ _ _ _ _ _ H); [reflexivity|jalive|jalive| |]
      | GetObjectArrayElement _ _ _ => eapply (rule_throws_local _ _ _ _ _ _ _ _ _ _ _ _ _ H); [reflexivity|jalive|jalive| |]
      | NewStringUTF _ _ => eapply (rule_throws_local _ _ _ _ _ _ _ _ _ _ _ _ _ H); [reflexivity|jalive|jalive| |]
      | FindClass _ _ => eapply (rule_throws_local _ _ _ _ _ _ _ _ _ _ _ _ _ H); [reflexivity|jalive|jalive| |]
      | CallBooleanMethod _ _ _ => eapply (rule_throws_word _ _ _ _ _ _ _ _ _ _ _ _ _ H); [reflexivity|jalive|jalive| |]
      | CallIntMethod _ _ _ => eapply (rule_throws_word _ _ _ _ _ _ _ _ _ _ _ _ _ H); [reflexivity|jalive|jalive| |]
      | CallStaticBooleanMethod _ _ _ _ => eapply (rule_throws_word _ _ _ _ _ _ _ _ _ _ _ _ _ H); [reflexivity|jalive|jalive| |]
      | GetMethodID _ _ _ _ _ => eapply (rule_throws_word _ _ _ _ _ _ _ _ _ _ _ _ _ H); [reflexivity|jalive|jalive| |]
      | FromReflectedMethod _ _ => eapply (rule_throws_word _ _ _ _ _ _ _ _ _ _ _ _ _ H); [reflexivity|jalive|jalive| |]
      end; clear H; intros
  end.
Ltac jstep := lazymatch goal with |- wpj (_ ≫= _) _ _ => apply wpj_bind | |- wpj (mret _) _ _ => apply wpj_ret | |- _ => jcall_ end; jsimp.

(** References the current frame gained. *)
Ltac jgrown H := first [exists []; exact H|eexists [_]; exact H|eexists [_; _]; exact H|eexists [_; _; _]; exact H].
Ltac jend := lazymatch goal with |- exists p, env_is ?e p _ _ _ _ /\ _ => match goal with H : env_is e _ _ _ _ _ |- _ => eexists; split; [exact H|try done; try congruence] end end.

(** The references of a lookup are live globals. *)
Record refl_ok (r : Reflection) (g : list Z) : Prop := {
  ro_class : class_class r <> 0 /\ class_class r ∈ g;
  ro_loader : class_loader_class r <> 0 /\ class_loader_class r ∈ g;
  ro_modifier : modifier_class r <> 0 /\ modifier_class r ∈ g;
  ro_constructor : constructor_class r <> 0 /\ constructor_class r ∈ g;
  ro_not_found : class_not_found_class r <> 0 /\ class_not_found_class r ∈ g;
  ro_no_def : no_class_def_found_class r <> 0 /\ no_class_def_found_class r ∈ g;
  ro_type : long_form_ok r = true -> (method_type_class r <> 0 /\ method_type_class r ∈ g) /\ no_such_method_class r <> 0 /\ no_such_method_class r ∈ g;
}.
Lemma ra_loader r f fs g : refl_ok r g -> alive f fs g (class_loader_class r).
Proof. intros H. destruct (ro_loader _ _ H). by apply alive_global. Qed.
Lemma ra_modifier r f fs g : refl_ok r g -> alive f fs g (modifier_class r).
Proof. intros H. destruct (ro_modifier _ _ H). by apply alive_global. Qed.
Lemma ra_constructor r f fs g : refl_ok r g -> alive f fs g (constructor_class r).
Proof. intros H. destruct (ro_constructor _ _ H). by apply alive_global. Qed.
Lemma ra_not_found r f fs g : refl_ok r g -> alive f fs g (class_not_found_class r).
Proof. intros H. destruct (ro_not_found _ _ H). by apply alive_global. Qed.
Lemma ra_no_def r f fs g : refl_ok r g -> alive f fs g (no_class_def_found_class r).
Proof. intros H. destruct (ro_no_def _ _ H). by apply alive_global. Qed.
Lemma ra_method_type r f fs g : refl_ok r g -> long_form_ok r = true -> alive f fs g (method_type_class r).
Proof. intros H Hl. destruct (ro_type _ _ H Hl) as [[] _]. by apply alive_global. Qed.
Lemma ra_no_such r f fs g : refl_ok r g -> long_form_ok r = true -> alive f fs g (no_such_method_class r).
Proof. intros H Hl. destruct (ro_type _ _ H Hl) as [_ []]. by apply alive_global. Qed.
#[local] Hint Resolve ra_loader ra_modifier ra_constructor ra_not_found ra_no_def ra_method_type ra_no_such : alive.

(** ** The helpers *)

Section Sound2.
Context (jvm : list jcall -> jcall -> jans).

Lemma type_descriptor_ok r type e f fs g h : env_is e 0 f fs g h -> alive f fs g type ->
  wpj (type_descriptor jvm r type) e (fun d e' => exists p, env_is e' p f fs g h /\ (d <> None -> p = 0)).
Proof. intros He Ht. unfold type_descriptor. repeat jstep; jend. Qed.

Lemma read_parameters_ok r array n i acc e f fs g h : env_is e 0 f fs g h -> alive f fs g array ->
  wpj (read_parameters jvm r array n i acc) e (fun x e' => exists p, env_is e' p f fs g h /\ (forall ds, x = Read ds -> p = 0)).
Proof.
  revert i acc e. induction n as [|n IH]; intros i acc e He Ha; cbn [read_parameters]; [repeat jstep; jend|]. repeat jstep; [|jend].
  eapply wpj_mono; [apply type_descriptor_ok; [eassumption|jalive]|]. intros d e1 (p & H1 & Hp). cbv beta. do 2 jstep. destruct d as [d|]; [|jstep; jend]. rewrite (Hp ltac:(done)) in *. by apply IH.
Qed.

(** A branch, and the helpers by their lemmas. *)
Ltac jcase :=
  lazymatch goal with
  | |- wpj (if (?x =? 0) then _ else _) _ _ => destruct (Z.eqb_spec x 0) as [?|?]
  | |- wpj (if negb (?x =? 0) then _ else _) _ _ => destruct (Z.eqb_spec x 0) as [?|?]
  | |- wpj (if decide ?P then _ else _) _ _ => destruct (decide P) as [?|?]
  | |- wpj (if ?b then _ else _) _ _ => destruct b eqn:?
  | |- wpj (match ?x with _ => _ end) _ _ => destruct x eqn:?
  end; jsimp.
Ltac jsub :=
  match goal with
  | H : env_is ?e 0 _ _ _ _ |- wpj (type_descriptor _ _ _) ?e _ =>
      eapply wpj_mono; [eapply type_descriptor_ok; [exact H|jalive]|]; clear H;
      let p := fresh "p" in let H1 := fresh "H" in let Hp := fresh "Hp" in intros [?|] ? (p & H1 & Hp); cbv beta; [rewrite (Hp ltac:(done)) in *; clear Hp|clear Hp]
  | H : env_is ?e 0 _ _ _ _ |- wpj (read_parameters _ _ _ _ _ _) ?e _ =>
      eapply wpj_mono; [eapply read_parameters_ok; [exact H|jalive]|]; clear H;
      let p := fresh "p" in let H1 := fresh "H" in let Hp := fresh "Hp" in intros [?| |] ? (p & H1 & Hp); cbv beta; [rewrite (Hp _ eq_refl) in *; clear Hp|clear Hp..]
  end; jsimp.
Ltac jgo := repeat first [jstep|jsub|jcase].
Ltac jgend := lazymatch goal with |- exists p, (exists l, env_is ?e p _ _ _ _) /\ _ => match goal with H : env_is e _ _ _ _ _ |- _ => eexists; split; [jgrown H|try done; try congruence] end end.

Lemma scan_method_ok r method name ms e f fs g h : env_is e 0 f fs g h -> alive f fs g method -> refl_ok r g ->
  wpj (scan_method jvm r method name ms) e (fun x e' => exists p, (exists l, env_is e' p (l ++ f) fs g h) /\ (x.1 = true -> p = 0)).
Proof. intros He Hm Hr. unfold scan_method. jgo; jgend. Qed.

Lemma class_load_failure_ok r e p f fs g h : env_is e p f fs g h -> p <> 0 -> refl_ok r g ->
  wpj (class_load_failure jvm r) e (fun x e' => exists p, env_is e' p f fs g h /\ (x = MissingClass -> p = 0) /\ x <> Found /\ x <> Unresolvable).
Proof. intros He Hp Hr. unfold class_load_failure. jgo; jend. Qed.

(** What a status promises: found or unresolvable natives leave no exception. *)
Definition status_ok (x : NativeLookupStatus * list DeclaredNativeMethod) (p : Z) : Prop :=
  match x.1 with Found => p = 0 | Unresolvable => p = 0 /\ x.2 = [] | MissingClass => False | LookupError => True end.

Lemma scan_methods_ok r declared n i name ms e f fs g h : env_is e 0 f fs g h -> alive f fs g declared -> refl_ok r g ->
  wpj (scan_methods jvm r declared n i name ms) e (fun x e' => exists p, env_is e' p f fs g h /\ status_ok x p).
Proof.
  intros He Hd Hr. revert i ms e He. induction n as [|n IH]; intros i ms e He; cbn [scan_methods]; [jgo; jend|]. jstep; jstep; [|jgo; jend]. jstep. jstep; jstep; jstep; jstep; [|jgo; jend].
  eapply wpj_mono; [eapply scan_method_ok; [eassumption|jalive|done]|]. intros [ok ms'] e1 (p & (l & H1) & Hp). cbv beta iota in *. do 2 jstep. destruct ok; [rewrite (Hp eq_refl) in *; by apply IH|]. jgo. jend.
Qed.

Lemma declared_by_name_ok r cls name e f fs g h : env_is e 0 f fs g h -> alive f fs g cls -> refl_ok r g ->
  wpj (declared_by_name jvm r cls name []) e (fun x e' => exists p, (exists l, env_is e' p (l ++ f) fs g h) /\ status_ok x p).
Proof.
  intros He Hc Hr. unfold declared_by_name. jgo; try jgend. eapply wpj_mono; [apply scan_methods_ok; [eassumption|jalive|done]|]. intros x e1 (p & H1 & Hp). exists p. split; [jgrown H1|done].
Qed.

Lemma done_ok status ms e p f f' fs g h : env_is e p f (f' :: fs) g h -> (status = Found -> p = 0) -> status <> MissingClass ->
  wpj (done_ jvm status ms) e (fun x e' => exists p, env_is e' p f' fs g h /\ status_ok x p).
Proof. intros He Hf Hm. unfold done_. destruct status; try done; jgo; jend. by apply Hf. Qed.

Lemma declared_by_arguments_ok r loader cls name arguments e f fs g h : env_is e 0 f fs g h -> alive f fs g cls -> alive f fs g loader -> refl_ok r g -> long_form_ok r = true ->
  wpj (declared_by_arguments jvm r loader cls name arguments []) e (fun x e' => exists p, env_is e' p f fs g h /\ status_ok x p).
Proof.
  intros He Hc Hl Hr Hlong. unfold declared_by_arguments. jgo; try jend; try (eapply done_ok; [eassumption|done|done]). eapply done_ok; [eassumption|done|by destruct b].
Qed.

(** ** The lookup of classes and ids *)

Definition looking_ok (s : looking) (e : Env) (f : list Z) (fs : list (list Z)) (g h : list Z) : Prop :=
  Forall (fun r => r <> 0) s.2 /\ exists p, env_is e p f fs (rev s.2 ++ g) h /\ (s.1 = true -> p = 0).
Definition good (s : looking) (x : Z) : Prop := s.1 = true -> x <> 0 /\ x ∈ s.2.
Definition later (s s' : looking) : Prop := (s'.1 = true -> s.1 = true) /\ s.2 ⊆ s'.2.

Lemma good_later s s' x : later s s' -> good s x -> good s' x.
Proof. intros [H1 H2] Hg Hs. destruct (Hg (H1 Hs)). auto. Qed.
Lemma looking_refl s : later s s.
Proof. done. Qed.
Lemma later_stop (s : looking) : later s (false, s.2).
Proof. done. Qed.
Lemma good_stop l x : good (false, l) x.
Proof. done. Qed.
Lemma later_more (s : looking) x : s.1 = true -> later s (true, s.2 ++ [x]).
Proof. intros H. split; [done|]. cbn. set_solver. Qed.
Lemma good_more l x : x <> 0 -> good (true, l ++ [x]) x.
Proof. intros H _. cbn. set_solver. Qed.
Lemma looking_stop (s : looking) e p f fs g h : Forall (fun r => r <> 0) s.2 -> env_is e p f fs (rev s.2 ++ g) h -> looking_ok (false, s.2) e f fs g h.
Proof. intros Hs He. split; [done|]. by exists p. Qed.
Lemma looking_more (s : looking) e x f fs g h : Forall (fun r => r <> 0) s.2 -> x <> 0 -> env_is e 0 f fs (x :: rev s.2 ++ g) h -> looking_ok (true, s.2 ++ [x]) e f fs g h.
Proof. intros Hs Hx He. split; cbn [snd]; [apply Forall_app; split; [done|by constructor]|]. exists 0. rewrite rev_app_distr. done. Qed.
Lemma good_alive s x f fs g : good s x -> s.1 = true -> alive f fs (rev s.2 ++ g) x.
Proof. intros H Hs. destruct (H Hs) as [H1 H2]. apply alive_global; [done|]. apply elem_of_app. left. by rewrite list_elem_of_In, <- in_rev, <- list_elem_of_In. Qed.

Lemma new_global_rule e f fs g h r (Q : Z -> Env -> Prop) : env_is e 0 f fs g h -> alive f fs g r ->
  (forall x e', x <> 0 -> env_is e' 0 f fs (x :: g) h -> Q x e') -> (forall x e', env_is e' x f fs g h -> Q 0 e') -> wpj (NewGlobalRef jvm r) e Q.
Proof. intros He Hr H1 H2. eapply rule_new_global; [exact He|done|by right|done|done]. Qed.

Lemma global_class_ok n (s : looking) e f fs g h : looking_ok s e f fs g h ->
  wpj (global_class jvm n s) e (fun x e' => looking_ok x.2 e' f fs g h /\ good x.2 x.1 /\ later s x.2).
Proof.
  intros HL. pose proof HL as (Hnz & p & He & Hp). unfold global_class. destruct s.1 eqn:Es; cbn [negb]; [|apply wpj_ret; split_and!; cbn [fst snd]; [exact HL| |apply looking_refl]].
  - rewrite (Hp eq_refl) in *. jstep. jstep; [|jstep; split_and!; cbn [fst snd]; [by eapply looking_stop|apply good_stop|apply later_stop]]. jstep. eapply new_global_rule; [eassumption|jalive| |]; intros; jgo; split_and!; cbn [fst snd].
    + by apply looking_more. + by apply good_more. + by apply later_more.
    + by eapply looking_stop. + apply good_stop. + apply later_stop.
  - intros Hs. congruence.
Qed.

Lemma method_id_ok c n t b (s : looking) e f fs g h : looking_ok s e f fs g h -> good s c -> wpj (method_id jvm c n t b s) e (fun x e' => looking_ok x.2 e' f fs g h /\ later s x.2).
Proof.
  intros HL Hc. pose proof HL as (Hnz & p & He & Hp). unfold method_id. destruct s.1 eqn:Es; cbn [negb]; [|apply wpj_ret; split; [exact HL|apply looking_refl]]. rewrite (Hp eq_refl) in *.
  pose proof (good_alive s c f fs g Hc Es). jgo; (split; [split; [done|eexists; split; [eassumption|done]]|by split]).
Qed.

Lemma optional_class_ok n (s : looking) e f fs g h : Forall (fun r => r <> 0) s.2 -> env_is e 0 f fs (rev s.2 ++ g) h ->
  wpj (optional_class jvm n s) e (fun x e' => (Forall (fun r => r <> 0) x.2.2 /\ env_is e' 0 f fs (rev x.2.2 ++ g) h) /\ good x.2 x.1 /\ later s x.2).
Proof.
  intros Hnz He. unfold optional_class. destruct s.1 eqn:Es; cbn [negb]; [|apply wpj_ret; split_and!; [done|done| |apply looking_refl]; intros Hs; cbn in Hs; congruence].
  jstep. jstep; [|jgo; split_and!; [done|done|apply good_stop|apply later_stop]]. jstep. eapply new_global_rule; [eassumption|jalive| |]; intros; jgo; cbn [fst snd]; split_and!; try done.
  - apply Forall_app. split; [done|by constructor].
  - by rewrite rev_app_distr.
  - by apply good_more.
  - by apply later_more.
Qed.

Lemma optional_method_ok c n t b (s : looking) e f fs g h : Forall (fun r => r <> 0) s.2 -> env_is e 0 f fs (rev s.2 ++ g) h -> good s c ->
  wpj (optional_method jvm c n t b s) e (fun x e' => (Forall (fun r => r <> 0) x.2.2 /\ env_is e' 0 f fs (rev x.2.2 ++ g) h) /\ later s x.2).
Proof.
  intros Hnz He Hc. unfold optional_method. destruct s.1 eqn:Es; cbn [negb orb]; [|by apply wpj_ret]. pose proof (good_alive s c f fs g Hc Es). jgo; done.
Qed.

Lemma delete_globals_ok l : forall L e p f fs g h, L ≡ₚ l -> Forall (fun r => r <> 0) l -> env_is e p f fs (L ++ g) h -> wpj (delete_globals jvm l) e (fun _ e' => env_is e' p f fs g h).
Proof.
  induction l as [|r l IH]; intros L e p f fs g h HL Hl He; cbn [delete_globals]; [apply Permutation_nil_r in HL as ->; by apply wpj_ret|]. apply Forall_cons_1 in Hl as [Hr Hl].
  assert (r ∈ L) as HrL by (rewrite HL; by constructor). apply wpj_bind. eapply rule_delete_global; [exact He|right; apply elem_of_app; by left|]. intros e1 H1. unfold drop_ref in H1. rewrite (proj2 (Z.eqb_neq r 0) Hr), remove1_app in H1 by done.
  eapply IH; [|done|exact H1]. apply (Permutation_cons_inv (a := r)). by rewrite <- HL, <- remove1_perm.
Qed.

Ltac jlook :=
  match goal with
  | H : looking_ok ?s ?e _ _ _ _ |- wpj (global_class _ _ ?s ≫= _) ?e _ => apply wpj_bind; eapply wpj_mono; [apply (global_class_ok _ _ _ _ _ _ _ H)|]; clear H
  | H : looking_ok ?s ?e _ _ _ _ |- wpj (method_id _ _ _ _ _ ?s ≫= _) ?e _ => apply wpj_bind; eapply wpj_mono; [apply (method_id_ok _ _ _ _ _ _ _ _ _ _ H); assumption|]; clear H
  end;
  intros [? ?] ? ?; cbn [fst snd] in *; repeat match goal with H : looking_ok _ _ _ _ _ _ /\ _ |- _ => destruct H | H : good _ _ /\ _ |- _ => destruct H end;
  match goal with L : later _ _ |- _ => repeat match goal with G : good _ _ |- _ => apply (good_later _ _ _ L) in G end; clear L end; cbv beta iota.

(** A class among the references made so far. *)
Definition kept (gl : list Z) (x : Z) : Prop := x <> 0 /\ x ∈ gl.
Lemma kept_good gl x : kept gl x -> good (true, gl) x.
Proof. by intros H _. Qed.
Lemma kept_global gl gl' g x : kept gl x -> gl ⊆ gl' -> x <> 0 /\ x ∈ rev gl' ++ g.
Proof. intros [Hx Hin] Hs. split; [done|]. apply elem_of_app. left. rewrite list_elem_of_In, <- in_rev, <- list_elem_of_In. auto. Qed.

Lemma optional_group_ok r gl e f fs g h : Forall (fun r => r <> 0) gl -> env_is e 0 f fs (rev gl ++ g) h ->
  Forall (kept gl) [class_class r; class_loader_class r; modifier_class r; constructor_class r; class_not_found_class r; no_class_def_found_class r] ->
  wpj (optional_group jvm r gl) e (fun r' e' => exists l, env_is e' 0 f fs (l ++ g) h /\ refl_ok r' (l ++ g)).
Proof.
  intros Hnz He Hk. pose proof (Forall_inv Hk) as Hc. unfold optional_group.
  apply wpj_bind. eapply wpj_mono; [by apply (optional_class_ok _ (true, gl))|]. intros [mt s1] e1 ([N1 E1] & G1 & L1). cbn [fst snd] in *.
  apply wpj_bind. eapply wpj_mono; [by apply optional_class_ok|]. intros [nsm s2] e2 ([N2 E2] & G2 & L2). cbn [fst snd] in *.
  apply (good_later _ _ _ L2) in G1. pose proof (good_later _ _ _ L2 (good_later _ _ _ L1 (kept_good _ _ Hc))) as Gc.
  apply wpj_bind. eapply wpj_mono; [by apply optional_method_ok|]. intros [gdm s3] e3 ([N3 E3] & L3). cbn [fst snd] in *. apply (good_later _ _ _ L3) in G1, G2.
  apply wpj_bind. eapply wpj_mono; [by apply optional_method_ok|]. intros [mtd s4] e4 ([N4 E4] & L4). cbn [fst snd] in *. apply (good_later _ _ _ L4) in G1, G2.
  apply wpj_bind. eapply wpj_mono; [by apply optional_method_ok|]. intros [mpa s5] e5 ([N5 E5] & L5). cbn [fst snd] in *. apply (good_later _ _ _ L5) in G1, G2.
  apply wpj_ret. exists (rev s5.2). split; [done|]. assert (gl ⊆ s5.2) as Hs by (destruct L1, L2, L3, L4, L5; cbn [fst snd] in *; set_solver).
  repeat (apply Forall_cons_1 in Hk as [? Hk]). constructor; cbn; [by eapply kept_global..|]. intros Hl. split; apply (kept_global s5.2); [by apply G1|done|by apply G2|done].
Qed.

Lemma look_up_ok e f fs g h : env_is e 0 f fs g h -> wpj (look_up jvm) e (fun o e' => exists l, env_is e' 0 f fs (l ++ g) h /\ (forall r, o = Some r -> refl_ok r (l ++ g))).
Proof.
  intros He. assert (looking_ok (true, []) e f fs g h) as H by (split; [constructor|by exists 0]). clear He. unfold look_up.
  do 18 jlook. match goal with H : looking_ok _ _ _ _ _ _ |- _ => destruct H as (Hnz & p0 & He & Hp) end. jcase.
  - jstep. jstep. apply wpj_bind. eapply wpj_mono; [eapply delete_globals_ok; [apply Permutation_sym, Permutation_rev|done|eassumption]|]. intros ? e1 Hd. apply wpj_ret. by exists [].
  - apply negb_false_iff in Heqb. rewrite (Hp Heqb) in *. apply wpj_bind. eapply wpj_mono; [eapply optional_group_ok; [done|eassumption|]|].
    + repeat apply Forall_cons_2; try apply Forall_nil_2; cbn; match goal with G : good _ ?x |- kept _ ?x => by apply G end.
    + intros r e1 (l17 & Hd & Hr). apply wpj_ret. exists l17. split; [done|]. by intros ? [= <-].
Qed.

(** The backend's own references are live globals. *)
Definition backend_ok (b : JniEnvBackend) (g : list Z) : Prop := (forall r, reflection_ b = Some r -> refl_ok r g) /\ (class_loader_ b = 0 \/ class_loader_ b ∈ g).

Lemma refl_more r l g : refl_ok r g -> refl_ok r (l ++ g).
Proof. intros []. constructor; rewrite ?elem_of_app; naive_solver. Qed.
Lemma backend_more b l g : backend_ok b g -> backend_ok b (l ++ g).
Proof. intros [H1 H2]. split; [intros r Hr; by apply refl_more, H1|]. rewrite elem_of_app. tauto. Qed.

Lemma reflection_ok b e p f fs g h : env_is e p f fs g h -> backend_ok b g ->
  wpj (reflection jvm b) e (fun x e' => exists l, env_is e' p f fs (l ++ g) h /\ backend_ok x.2 (l ++ g) /\ class_loader_ x.2 = class_loader_ b /\ (forall r, x.1 = Some r -> refl_ok r (l ++ g) /\ p = 0)).
Proof.
  intros He Hb. unfold reflection. jstep. jstep. destruct (Z.eqb_spec p 0) as [->|Hne]; cbn [negb]; [|apply wpj_ret; exists []; by split_and!]. destruct (reflection_once_ b) eqn:Eo.
  - apply wpj_ret. exists []. split_and!; [done|done|done|]. intros r Hr. split; [by apply Hb|done].
  - apply wpj_bind. eapply wpj_mono; [apply look_up_ok; eassumption|]. intros o e1 (l & H1 & Hr). apply wpj_ret. exists l. cbn [fst snd]. split_and!; [done| |done|auto]. split; cbn; [done|]. destruct Hb as [_ [?|?]]; [by left|right]. apply elem_of_app. by right.
Qed.

Lemma type_letter_ok b type e p f fs g h : env_is e p f fs g h -> backend_ok b g -> type = 0 \/ alive f fs g type ->
  wpj (type_letter jvm b type) e (fun x e' => exists l p', env_is e' p' f fs (l ++ g) h /\ backend_ok x.2 (l ++ g) /\ (x.1 <> None -> p' = 0)).
Proof.
  intros He Hb Ht. unfold type_letter. apply wpj_bind. eapply wpj_mono; [by eapply reflection_ok|]. intros [[r|] b1] e1 (l & H1 & Hb1 & _ & Hr); cbn [fst snd] in *; [|apply wpj_ret; exists l; eexists; split_and!; [eassumption|done|done]].
  destruct (Hr r eq_refl) as [Hrefl ->]. destruct (Z.eqb_spec type 0) as [->|Hne]; [apply wpj_ret; exists l; eexists; split_and!; [eassumption|done|done]|]. destruct Ht as [|Ht]; [done|]. apply wpj_bind. eapply wpj_mono; [eapply type_descriptor_ok; [done|by apply alive_more]|].
  intros d e2 (p' & H2 & Hp'). apply wpj_ret. exists l, p'. split_and!; [done|done|]. cbn. intros Hd. apply Hp'. by destruct d.
Qed.

(** ** The operations *)

Lemma set_class_loader_ok env cl b e p f fs g h : env_is e p f fs g h -> backend_ok b g -> cl = 0 \/ alive f fs g cl ->
  wpj (set_class_loader jvm env cl b) e (fun x e' => exists l p', env_is e' p' f fs (l ++ g) h /\ backend_ok x.2 (l ++ g)).
Proof.
  intros He Hb Hc. unfold set_class_loader. destruct (env =? 0); cbn [orb]; [apply wpj_ret; exists [], p; done|]. destruct (Z.eqb_spec cl 0) as [->|Hne]; [apply wpj_ret; exists [], p; done|]. destruct Hc as [|Hc]; [done|].
  apply wpj_bind. eapply wpj_mono; [by eapply reflection_ok|]. intros [[r|] b1] e1 (l & H1 & Hb1 & _ & Hr); cbn [fst snd] in *; [|apply wpj_ret; exists l, p; done]. destruct (Hr r eq_refl) as [Hrefl ->].
  assert (alive f fs (l ++ g) cl) as Hc' by by apply alive_more. jstep. jstep. destruct b0; cbn [negb]; [|apply wpj_ret; exists l, 0; done]. destruct (Z.eqb_spec (class_loader_ b1) 0) as [E0|E0]; cbn [negb].
  - apply wpj_bind. eapply new_global_rule; [eassumption|done| |]; intros x e2; intros; jsimp; apply wpj_ret; [exists (x :: l), 0|exists l, x]; (split; [done|]); [|done].
    split; cbn; [intros r0 Hr0; by apply (refl_more _ [x]), Hb1|right; constructor].
  - apply wpj_bind. eapply same_rule; [eassumption| |by right|]; [right; destruct (proj2 Hb1) as [|Hin]; [done|by apply alive_global]|]. intros x e2 H2. apply wpj_ret. exists l, 0. done.
Qed.

Lemma find_class_ok env name b e f fs g h : env_is e 0 f fs g h -> backend_ok b g ->
  wpj (find_class jvm env name b) e (fun x e' => exists l p', env_is e' p' (add x.1 f) fs (l ++ g) h /\ backend_ok x.2 (l ++ g) /\ (x.1 <> 0 -> p' = 0)).
Proof.
  intros He Hb. unfold find_class. destruct name as [name|]; [|apply wpj_ret; exists [], 0; done]. destruct (env =? 0); [apply wpj_ret; exists [], 0; done|].
  assert (wpj (FindClass jvm name ≫= fun x => mret (x, b)) e (fun x e' => exists l p', env_is e' p' (add x.1 f) fs (l ++ g) h /\ backend_ok x.2 (l ++ g) /\ (x.1 <> 0 -> p' = 0))) as Hd.
  { jgo; exists []; eexists; cbn [fst snd]; rewrite ?add_nonzero by done; split_and!; try eassumption; try done. }
  destruct (Z.eqb_spec (class_loader_ b) 0) as [|El]; [exact Hd|]. destruct (Descriptor.jni_binary_class_name name) as [bn|]; [|exact Hd]. clear Hd.
  apply wpj_bind. eapply wpj_mono; [by eapply reflection_ok|]. intros [[r|] b1] e1 (l & H1 & Hb1 & El1 & Hr); cbn [fst snd] in *; [|apply wpj_ret; exists l, 0; done]. rewrite <- El1 in El.
  assert (alive f fs (l ++ g) (class_loader_ b1)) as Hl by (destruct (proj2 Hb1); [done|by apply alive_global]).
  jgo; exists l; eexists; cbn [fst snd]; rewrite ?add_nonzero by done; split_and!; try eassumption; try done.
Qed.

Lemma erased_parameters_ok array n : forall i acc b e f fs g h, env_is e 0 f fs g h -> backend_ok b g -> alive f fs g array ->
  wpj (erased_parameters jvm array n i acc b) e (fun x e' => exists l p', env_is e' p' f fs (l ++ g) h /\ backend_ok x.2 (l ++ g) /\ (x.1 <> None -> p' = 0)).
Proof.
  induction n as [|n IH]; intros i acc b e f fs g h He Hb Ha; cbn [erased_parameters]; [apply wpj_ret; exists [], 0; done|]. jstep. jstep.
  - apply wpj_bind. eapply wpj_mono; [eapply type_letter_ok; [eassumption|done|right; by apply alive_head]|]. intros [c b1] e1 (l & p' & H1 & Hb1 & Hp). cbn [fst snd] in *. jstep. jstep. destruct c as [c|]; [|apply wpj_ret; exists l, p'; done].
    rewrite (Hp ltac:(done)) in *. destruct (decide _); [apply wpj_ret; exists l, 0; done|]. eapply wpj_mono; [eapply IH; [eassumption|done|by apply alive_more]|]. intros x e2 (l' & p2 & H2 & Hb2 & Hp2). exists (l' ++ l), p2. rewrite <- app_assoc. done.
  - apply wpj_bind. eapply wpj_mono; [eapply type_letter_ok; [eassumption|done|by left]|]. intros [c b1] e1 (l & p' & H1 & Hb1 & Hp). cbn [fst snd] in *. jstep. jstep. destruct c as [c|]; [|apply wpj_ret; exists l, p'; done].
    rewrite (Hp ltac:(done)) in *. destruct (decide _); [apply wpj_ret; exists l, 0; done|]. eapply wpj_mono; [eapply IH; [eassumption|done|by apply alive_more]|]. intros x0 e2 (l' & p2 & H2 & Hb2 & Hp2). exists (l' ++ l), p2. rewrite <- app_assoc. done.
Qed.

Lemma from_reflected_method_ok method b e f fs g h : env_is e 0 f fs g h -> backend_ok b g -> alive f fs g method ->
  wpj (from_reflected_method jvm method b) e (fun x e' => exists l p', env_is e' p' f fs (l ++ g) h /\ backend_ok x.2 (l ++ g) /\ (x.1.1 <> 0 -> p' = 0)).
Proof.
  intros He Hb Hm. unfold from_reflected_method. apply wpj_bind. eapply wpj_mono; [by eapply reflection_ok|]. intros [r b1] e1 (l & H1 & Hb1 & _ & Hr); cbn [fst snd] in *.
  assert (alive f fs (l ++ g) method) as Hm' by by apply alive_more. jstep. jstep; [|destruct r; apply wpj_ret; exists l; eexists; split_and!; eassumption || done].
  destruct r as [r|]; [|apply wpj_ret; exists l, 0; done]. destruct (Hr r eq_refl) as [Hrefl _]. jcase; [apply wpj_ret; exists l, 0; done|]. jstep. jstep; [|jstep; exists l; eexists; split_and!; eassumption || done]. do 2 jstep.
  apply wpj_bind. eapply wpj_mono; [eapply erased_parameters_ok; [eassumption|done|jalive]|]. intros [d b2] e2 (l2 & p2 & H2 & Hb2 & Hp2). cbn [fst snd] in *. rewrite app_assoc in *. jstep. jstep. destruct d as [d|]; [|apply wpj_ret; exists (l2 ++ l), p2; done].
  rewrite (Hp2 ltac:(done)) in *. assert (refl_ok r ((l2 ++ l) ++ g)) as Hrefl2 by (rewrite <- app_assoc; by apply refl_more). assert (alive f fs ((l2 ++ l) ++ g) method) as Hm2 by (rewrite <- app_assoc; by apply alive_more). jstep. jstep. destruct b0; [apply wpj_ret; exists (l2 ++ l), 0; done|].
  jstep. jstep; (apply wpj_bind; eapply wpj_mono; [eapply type_letter_ok; [eassumption|done|first [by left|right; by apply alive_head]]|]); intros [c b3] e3 (l3 & p3 & H3 & Hb3 & Hp3); cbn [fst snd] in *; rewrite app_assoc in *; jstep; jstep; destruct c as [c|]; apply wpj_ret; exists (l3 ++ l2 ++ l), p3; (split_and!; [done|done|]); try done; intros _; by apply Hp3.
Qed.

(** The class of an object is not null. *)
Definition object_has_class : Prop := forall log c, fn c = "GetObjectClass" -> word (jvm log c) <> 0.

Lemma get_array_element_type_ok array b e p f fs g h : object_has_class -> env_is e p f fs g h -> backend_ok b g -> array = 0 \/ alive f fs g array ->
  wpj (get_array_element_type jvm array b) e (fun x e' => exists l p', env_is e' p' f fs (l ++ g) h /\ backend_ok x.2 (l ++ g)).
Proof.
  intros Hlaw He Hb Ha. unfold get_array_element_type. apply wpj_bind. eapply wpj_mono; [by eapply reflection_ok|]. intros [[r|] b1] e1 (l & H1 & Hb1 & _ & Hr); cbn [fst snd] in *; [|apply wpj_ret; exists l, p; done].
  destruct (Hr r eq_refl) as [Hrefl ->]. destruct (Z.eqb_spec array 0) as [->|Hne]; [apply wpj_ret; exists l, 0; done|]. destruct Ha as [|Ha]; [done|]. assert (alive f fs (l ++ g) array) by by apply alive_more.
  apply wpj_bind. eapply rule_local; [exact H1|done|jalive|jalive|by apply Hlaw|]. clear H1. intros cls e2 Hcls H2. jgo; exists l; eexists; split; eassumption.
Qed.

Definition lookup_post (p : Z) (f : list Z) (fs : list (list Z)) (g h : list Z) (x : NativeLookupStatus * Z * list DeclaredNativeMethod * JniEnvBackend) (e' : Env) : Prop :=
  exists l p', env_is e' p' (add x.1.1.2 f) fs (l ++ g) h /\ backend_ok x.2 (l ++ g) /\ (p <> 0 -> x.1.1.1 = LookupError /\ x.1.1.2 = 0 /\ p' = p) /\
    match x.1.1.1 with Found => x.1.1.2 <> 0 /\ p' = 0 | MissingClass | Unresolvable => x.1.1.2 = 0 /\ x.1.2 = [] /\ p' = 0 | LookupError => x.1.1.2 = 0 end.

Lemma lookup_failed e p f fs l g h b : env_is e p f fs (l ++ g) h -> backend_ok b (l ++ g) -> wpj (mret (LookupError, 0, [], b)) e (lookup_post p f fs g h).
Proof. intros He Hb. apply wpj_ret. exists l, p. done. Qed.
Lemma lookup_failed0 e p f fs l g h b : env_is e p f fs (l ++ g) h -> backend_ok b (l ++ g) -> wpj (mret (LookupError, 0, [], b)) e (lookup_post 0 f fs g h).
Proof. intros He Hb. apply wpj_ret. exists l, p. done. Qed.

(** From the class on. *)
Lemma declared_ok r found name arguments b e f fs l g h :
  env_is e 0 f fs (l ++ g) h -> backend_ok b (l ++ g) -> refl_ok r (l ++ g) -> alive f fs (l ++ g) (class_loader_ b) -> alive f fs (l ++ g) found ->
  wpj (match arguments with Some a => if long_form_ok r then declared_by_arguments jvm r (class_loader_ b) found name a [] else declared_by_name jvm r found name [] | None => declared_by_name jvm r found name [] end) e
    (fun x e' => exists p', (exists l', env_is e' p' (l' ++ f) fs (l ++ g) h) /\ status_ok x p').
Proof.
  intros He Hb Hr Hl Hf. destruct arguments as [a|]; [destruct (long_form_ok r) eqn:El|]; [|by apply declared_by_name_ok..].
  eapply wpj_mono; [by apply declared_by_arguments_ok|]. intros x e' (p' & H & Hs). exists p'. split; [by exists []|done].
Qed.

Lemma find_declared_natives_ok env cls name arguments b e p f fs g h : env_is e p f fs g h -> backend_ok b g -> wpj (find_declared_natives jvm env cls name arguments b) e (lookup_post p f fs g h).
Proof.
  intros He Hb. unfold find_declared_natives. destruct cls as [cls|]; [|by apply (lookup_failed _ _ _ _ [])]. destruct name as [name|]; [|by apply (lookup_failed _ _ _ _ [])]. destruct (env =? 0); [by apply (lookup_failed _ _ _ _ [])|].
  apply wpj_bind. eapply wpj_mono; [by eapply reflection_ok|]. intros [[r|] b1] e1 (l & H1 & Hb1 & _ & Hr); cbn [fst snd] in *; [|by apply (lookup_failed _ _ _ _ l)].
  destruct (Descriptor.jni_binary_class_name cls) as [bn|]; [|by apply (lookup_failed _ _ _ _ l)]. destruct (Hr r eq_refl) as [Hrefl ->]. destruct (Z.eqb_spec (class_loader_ b1) 0) as [|El]; [by apply (lookup_failed _ _ _ _ l)|].
  assert (alive f fs (l ++ g) (class_loader_ b1)) as Hl by (destruct (proj2 Hb1); [done|by apply alive_global]).
  jstep. jstep; [|by eapply (lookup_failed0 _ _ _ _ l)]. jstep. jstep; [|do 2 jstep; by eapply (lookup_failed0 _ _ _ _ l)]. jstep. jstep; jstep; jstep.
  - apply wpj_bind. eapply wpj_mono; [apply declared_ok; [eassumption|done|done|jalive|jalive]|]. intros [status ms] e2 (p2 & (l2 & H2) & Hs). cbv beta iota. destruct status; cbn in Hs.
    + subst p2. apply wpj_bind. eapply rule_pop; [exact H2|right; apply alive_inner; jalive|]. intros x e3 _ H3. apply wpj_ret. exists l, 0. cbn [fst snd]. destruct (Z.eqb_spec x 0); done.
    + done.
    + jstep. jstep. apply wpj_ret. exists l, 0. destruct Hs as [-> ->]. done.
    + do 2 jstep. by eapply (lookup_failed0 _ _ _ _ l).
  - jcase; [do 2 jstep; by eapply (lookup_failed0 _ _ _ _ l)|]. apply wpj_bind. eapply wpj_mono; [eapply class_load_failure_ok; eassumption|]. intros st e2 (p2 & H2 & Hm & Hf & Hu). do 2 jstep. apply wpj_ret. exists l, p2. destruct st; try done. rewrite (Hm eq_refl) in *. done.
Qed.

(** C39: looking up the natives a class declares never breaks a rule of the Java environment,
    whatever the virtual machine answers and throws: no forbidden call with an exception
    pending, no null or dead reference passed on, no reference deleted twice, no string copy
    kept.  Afterwards the frames and the current frame are as before, but for the class that
    is returned when natives are found; only a lookup error may leave an exception, and with
    one pending at the start nothing is touched. *)
Theorem declared_natives_disciplined env cls name arguments b e p f fs g h : env_is e p f fs g h -> backend_ok b g ->
  exists status class_ref ms b' e' l p', find_declared_natives jvm env cls name arguments b e = Ret (status, class_ref, ms, b', e') /\
    env_is e' p' (add class_ref f) fs (l ++ g) h /\ backend_ok b' (l ++ g) /\ (p <> 0 -> status = LookupError /\ class_ref = 0 /\ p' = p) /\
    match status with Found => class_ref <> 0 /\ p' = 0 | MissingClass | Unresolvable => class_ref = 0 /\ ms = [] /\ p' = 0 | LookupError => class_ref = 0 end.
Proof.
  intros He Hb. pose proof (find_declared_natives_ok env cls name arguments b e p f fs g h He Hb) as H. unfold wpj in H. destruct (find_declared_natives _ _ _ _ _ _ _) as [[[[[st c] ms] b'] e']| |]; [|done..]. destruct H as (l & p' & H). exists st, c, ms, b', e', l, p'. split; [done|exact H].
Qed.

(** What an operation leaves in the environment: the current frame has the reference that is
    answered, when that is one, and nothing else that is new; the outer frames and the string
    copies are as before.  References are words of 64 bits. *)
Definition operation_post (f : list Z) (fs : list (list Z)) (g h : list Z) (x : operation_result * JniEnvBackend) (e' : Env) : Prop :=
  exists l r p', env_is e' p' (add r f) fs (l ++ g) h /\ backend_ok x.2 (l ++ g) /\ match x.1 with Reference v => low 64 r = low 64 v | _ => r = 0 end.

(** After one function that gives a value, or a local reference. *)
Definition called (f : list Z) (fs : list (list Z)) (g h : list Z) (local : bool) (v : Z) (e' : Env) : Prop := exists p', env_is e' p' (add (if local then v else 0) f) fs g h.

Lemma called_post f fs g h local v x b e' : called f fs g h local v e' -> backend_ok b g -> match x with Reference w => local = true /\ low 64 v = low 64 w | _ => local = false end -> operation_post f fs g h (x, b) e'.
Proof. intros [p' He] Hb Hx. exists [], (if local then v else 0), p'. split_and!; [done..|]. destruct x; cbn [fst]; try by subst local. by destruct Hx as [-> Hx]. Qed.
Lemma low_low n v : 0 <= n -> low n v = low n (low n v).
Proof. intros Hn. unfold low. symmetry. apply Zmod_mod. Qed.

(** One call, and a check. *)
Lemma one_jni c throws local e f fs g h (Q : Z * text -> Env -> Prop) : env_is e 0 f fs g h -> effect_ c = Plain throws local -> Forall (alive f fs g) (objects c) -> Forall (fun r => r = 0 \/ alive f fs g r) (nullable c) ->
  (forall x e', called f fs g h local x.1 e' -> Q x e') -> wpj (jni jvm c) e Q.
Proof.
  intros He Ek Ho Hn HQ. apply wpj_jni.
  - unfold call_ok. rewrite Ek. split_and!; [left; apply He| | |done].
    + eapply Forall_impl; [exact Ho|]. intros r Hr. by eapply live_alive.
    + eapply Forall_impl; [exact Hn|]. intros r [->|Hr]; [by left|right; by eapply live_alive].
  - intros a _. apply HQ. cbn [fst]. rewrite Ek. destruct throws, local; cbn [effect]; unfold returns; try (destruct (thrown a =? 0); cbn [fst snd]).
    all: eexists; apply env_logged; first [by apply env_add_local|by eapply env_pending|exact He].
Qed.
Lemma one_call name throws local os ns ws ts e f fs g h (Q : Z -> Env -> Prop) : env_is e 0 f fs g h -> Forall (alive f fs g) os -> Forall (fun r => r = 0 \/ alive f fs g r) ns ->
  (forall x e', called f fs g h local x e' -> Q x e') -> wpj (env_call jvm name (Plain throws local) os ns ws ts) e Q.
Proof. intros He Ho Hn HQ. apply wpj_bind. eapply one_jni; [done|done|done|done|]. intros x e' Hp. apply wpj_ret. by apply HQ. Qed.
Lemma called_check local v e f fs g h (Q : bool -> Env -> Prop) : called f fs g h local v e -> (forall x e', called f fs g h local v e' -> Q x e') -> wpj (ExceptionCheck jvm) e Q.
Proof. intros (p & He) HQ. eapply check_rule; [exact He|]. intros e' He'. apply HQ. by exists p. Qed.
Lemma called_nothing e f fs g h : env_is e 0 f fs g h -> called f fs g h false 0 e.
Proof. intros He. by exists 0. Qed.

(** C40: every other operation of the backend that does more than pass its arguments to one
    JNI function keeps the rules too, for any answers of a virtual machine in which an object
    has a class ([object_has_class]), when it is called with no exception pending and with
    live objects, or null where null is allowed: it returns; the current frame has gained the
    reference that it answers, when it answers one and that is not null, and nothing else;
    the outer frames and the string copies are as before, and the backend's own references
    stay live. *)
Theorem env_operations_disciplined o b e f fs g h : object_has_class -> env_is e 0 f fs g h -> backend_ok b g ->
  Forall (alive f fs g) (operation_objects o) -> Forall (fun r => r = 0 \/ alive f fs g r) (operation_nullable o) ->
  exists x e', run_operation jvm o b e = Ret (x, e') /\ operation_post f fs g h x e'.
Proof.
  intros Hlaw He Hb Ho Hn. assert (wpj (run_operation jvm o b) e (operation_post f fs g h)) as H; [|unfold wpj in H; destruct (run_operation jvm o b e) as [[x e']| |]; [by exists x, e'|done..]].
  pose proof (fun v => low_low 64 v ltac:(lia)) as Hlow. pose proof (called_nothing e f fs g h He) as Hnot.
  destruct o; cbn [run_operation operation_objects operation_nullable] in *; apply wpj_bind; try (apply Forall_inv in Hn as Hn1); try (apply Forall_inv in Ho as Ho1).
  - eapply wpj_mono; [by eapply set_class_loader_ok|]. intros x e' (l & p' & H & H'). apply wpj_ret. by exists l, 0, p'.
  - eapply wpj_mono; [by eapply find_class_ok|]. intros x e' (l & p' & H & H' & _). apply wpj_ret. by exists l, x.1, p'.
  - eapply wpj_mono; [by eapply from_reflected_method_ok|]. intros x e' (l & p' & H & H' & _). apply wpj_ret. by exists l, 0, p'.
  - eapply wpj_mono; [by eapply get_array_element_type_ok|]. intros x e' (l & p' & H & H'). apply wpj_ret. by exists l, 0, p'.
  - unfold call_method, call_result. destruct kind; cbn [call_objects] in *; [destruct (primitive type) as [[n bits]|]; [|destruct (decide (type = "L"%char))]..|];
      apply wpj_bind; eapply one_call; try done; intros x e' Hp; do 2 apply wpj_ret; eapply called_post; [exact Hp|done|first [done|split; [done|apply Hlow]]|exact Hp|done|first [done|split; [done|apply Hlow]]..].
  - unfold get_field, field_result. destruct (primitive type) as [[n bits]|]; apply wpj_bind; eapply one_call; try done; intros x e' Hp; do 2 apply wpj_ret; (eapply called_post; [exact Hp|done|]); first [done|split; [done|apply Hlow]].
  - unfold set_field. destruct (primitive type) as [[n bits]|]; eapply one_call; try done; intros x e' Hp; apply wpj_ret; by eapply called_post.
  - unfold new_primitive_array. destruct (primitive type) as [[n bits]|]; [eapply one_call; try done; intros x e' Hp; apply wpj_ret; by eapply called_post|do 2 apply wpj_ret]. exists [], 0, 0. by split_and!.
  - unfold get_primitive_array_region. destruct (primitive type) as [[n bits]|]; [eapply one_call; try done; intros x e' Hp; apply wpj_ret; by eapply called_post|do 2 apply wpj_ret; by eapply called_post].
  - unfold set_primitive_array_region. destruct (primitive type) as [[n bits]|]; [eapply one_call; try done; intros x e' Hp; apply wpj_ret; by eapply called_post|do 2 apply wpj_ret; by eapply called_post].
  - eapply one_call; [done..|]. intros x e' Hp. apply wpj_ret. by eapply called_post.
  - unfold get_string_region. destruct (_ && _); apply wpj_bind; (eapply one_call; [done|done|done|]); intros x e' Hp; [|do 2 apply wpj_ret; by eapply called_post]. apply wpj_bind. eapply called_check; [exact Hp|]. intros y e2 Hp2. do 2 apply wpj_ret. by eapply called_post.
  - apply wpj_bind. eapply one_jni; [done|done|done|done|]. intros x e' Hp. apply wpj_bind. eapply called_check; [exact Hp|]. intros y e2 Hp2. do 2 apply wpj_ret. by eapply called_post.
Qed.
End Sound2.

(** ** Examples

    A machine whose class declares one static native without parameters that returns int:
    the first string read is the method's name, the next a type's. *)
Definition calls_of (name : string) (log : list jcall) : nat := length (filter (fun c => fn c = name) log).
Definition demo_jvm (log : list jcall) (c : jcall) : jans :=
  {| word := if decide (fn c = "PushLocalFrame") then 0 else if decide (fn c = "GetArrayLength") then (if calls_of "GetArrayLength" log is O then 1 else 0) else 1000 + Z.of_nat (length log);
     chars := if calls_of "GetStringUTFChars" log is O then lit "run" else lit "int"; thrown := 0 |}.
Definition demo_env : Env := {| pending := 0; frames := [[8]]; globals := [7]; copies := []; calls := [] |}.
Definition demo_backend : JniEnvBackend := {| reflection_once_ := false; reflection_ := None; class_loader_ := 7 |}.

Lemma demo_env_is : env_is demo_env 0 [8] [] [7] [].
Proof. done. Qed.
Lemma demo_backend_ok : backend_ok demo_backend [7].
Proof. split; [done|]. right. constructor. Qed.

Lemma declared_natives_disciplined_witness : exists class_ref b' e' l p',
  find_declared_natives demo_jvm 1 (Some (lit "a/B")) (Some (lit "run")) None demo_backend demo_env = Ret (Found, class_ref, [{| signature := lit "()I"; is_static := true |}], b', e') /\
  env_is e' p' (add class_ref [8]) [] (l ++ [7]) [].
Proof.
  destruct (declared_natives_disciplined demo_jvm 1 (Some (lit "a/B")) (Some (lit "run")) None demo_backend demo_env 0 [8] [] [7] [] demo_env_is demo_backend_ok) as (st & c & ms & b' & e' & l & p' & E & He & _).
  assert (match find_declared_natives demo_jvm 1 (Some (lit "a/B")) (Some (lit "run")) None demo_backend demo_env with Ret (st, _, ms, _, _) => (st, ms) | _ => (LookupError, []) end = (Found, [{| signature := lit "()I"; is_static := true |}])) as Er by (vm_compute; reflexivity).
  rewrite E in Er. injection Er as -> ->. exists c, b', e', l, p'. split; [exact E|exact He].
Defined.

Lemma demo_has_class : object_has_class demo_jvm.
Proof. intros log c E. cbn [word demo_jvm]. rewrite E. rewrite !decide_False by done. lia. Qed.

Lemma env_operations_disciplined_witness : exists x e', run_operation demo_jvm (OFindClass 1 (Some (lit "a/B"))) demo_backend demo_env = Ret (x, e') /\ operation_post [8] [] [7] [] x e'.
Proof. apply (env_operations_disciplined demo_jvm (OFindClass 1 (Some (lit "a/B"))) demo_backend demo_env [8] [] [7] [] demo_has_class demo_env_is demo_backend_ok); constructor. Defined.
